(* ===== verification/_CoqProject ===== *)
-Q . S2P
Prelude.v
XdrBase.v
XdrSer.v
XdrDe.v
XdrDeSafe.v
XdrCodec.v
XdrShapes.v
XdrWrappers.v
XdrArrayRef.v
XdrList.v
XdrDerive.v
XdrEnds.v
XdrTypes.v
XdrTheorems.v
XdrDeriveTheorems.v
Metafmt.v
MetafmtTheorems.v
SipHash.v
SipHashTheorems.v
Chrony.v
ChronyReports.v
ChronyLayout.v
ChronyRequest.v
ChronyClient.v
ChronyEnds.v
ChronyTheorems.v
Utf8.v
JsonFrame.v
Json.v
JsonRpc.v
JsonRpcOk.v
JsonModel.v
JsonTheorems.v
MdbError.v
Mdb.v
MdbTxn.v
MdbDb.v
MdbLaws.v
MdbKeeps.v
MdbPool.v
MdbApi.v
MdbRefine.v
MdbScan.v
MdbModel.v
MdbTheorems.v
NssError.v
Nss.v
NssService.v
NssDb.v
NssLaws.v
NssLookup.v
NssWalk.v
NssEnum.v
NssConf.v
NssHostsOk.v
NssModel.v
NssTheorems.v
PamError.v
Pam.v
PamConv.v
PamTxn.v
PamStep.v
PamAuth.v
PamMem.v
PamTalk.v
PamTxnOk.v
PamExchange.v
PamDrive.v
PamAuthOk.v
PamEnv.v
PamTheorems.v
Ktls.v
Gss.v
GssTheorems.v
Krb5Error.v
Krb5.v
Krb5Laws.v
Krb5Tables.v
Krb5Caches.v
Krb5Theorems.v
