(* ===== verification/Prelude.v ===== *)
(** A verification of the crates of truenas_ros_utils that carry logic of their
    own.

    * The program

    The repository is a workspace of small Rust crates that do not share state.
    All of them are modelled, [truenas_metafmt] on top of [truenas_xdr]:

    - [truenas_xdr] is a serde data format for XDR (RFC 4506).  [ser.rs] drives
      an encoder, [de.rs] a decoder that is bounded in its input, in the lengths
      it will believe and in its nesting; [wrappers.rs] holds the types XDR has
      and serde lacks, and [truenas_xdr_derive] generates the impls of C-like
      enums and of unions.
    - [truenas_metafmt] keeps a small versioned record in an xattr, encoded with
      [truenas_xdr].
    - [truenas_siphash] is SipHash-2-4.
    - [truenas_chrony] asks chronyd for its state over a Unix datagram socket.
    - [truenas_jsonrpc] frames, reads and writes JSON-RPC 2.0: a server reads
      requests and batches and writes responses, a client the other way round.
    - [truenas_mdb] binds liblmdb: a pool of environments by path, guards for
      transactions and cursors, databases, scans and iterators.
    - [truenas_nss] calls the modules of the name service switch themselves:
      lookups of users and groups in one module or across three, group lists,
      enumerations that threads claim, and names of addresses.
    - [truenas_pam] binds libpam: transactions with their items and environment,
      the callback a module reaches the application through, exchanges on a
      worker thread that are driven one round at a time, and the sequence of a
      login.
    - [truenas_ktls] accepts TLS on a socket with OpenSSL and leaves the session
      to the kernel.
    - [truenas_gssapi] binds libgssapi for a server: identifiers, names,
      credentials, the handshake of an acceptor, and messages sealed, opened and
      signed, copying or in place.
    - [truenas_krb5] binds libkrb5: principals, key tables with their entries,
      credential caches, and initial credentials put into them.

    * How it is modelled

    A function of the crates is a Rocq function of the same name where that is
    free.  An integer is in [Z], with its width written out where it wraps,
    saturates or is checked ([wrap], [swrap], [saturating_add], [try_signed]);
    bytes are [list Byte.byte]; an [f64] is the Standard Library's binary64.  A
    [Result] is an [Outcome]: [Ok], [Err], or [Stop] for a panic (an index or a
    slice out of range, an overflow where debug builds check) and for running
    out of fuel.  Code that mutates [&mut self] is in the monad [St], a function
    from a state to an outcome and the state left behind, errors included.
    Comments beginning with SRC name the item of the sources that the next
    definition translates.

    Code that is not in the repository is a parameter.  A type's serde impls
    are the calls they make: [Ser] is the tree of calls of a [Serialize] impl,
    [De] a computation on the decoder.  The impls serde's derive writes for
    [truenas_metafmt] are the class [DerivedImpls], with their documented
    behaviour as its laws and the instance [serde_derive].  The system calls of
    the chrony client are the class [Os]; what its termination needs of a clock
    is [Clocked].  serde_json is the class [SerdeJson] with the laws
    [SerdeJsonLaws], and [json_model] an executable reader and writer that has
    them.  liblmdb is the class [Lmdb]: each call a function on a world, with its
    return code and out-parameters; what lmdb.h documents is [LmdbLaws], over an
    abstract state (environments, the data by path, this thread's transactions
    and cursors), and [model] is an executable instance.  A predicate [sound] of
    the world is given back by a law only where a call keeps the library's rules,
    so that to prove it is to prove that the crate keeps them.

    A computation of [truenas_mdb] is one thread's.  Other threads and processes
    appear as what they may have committed by the time a transaction begins
    ([others]); operations on the pool are atomic, as the code's locks make them.
    What unwinding and early returns drop is written out ([or_drop],
    [dropping]), for panics too.

    The loader, the functions of the loaded modules and the C allocator are the
    class [Nss] and the resolver is [Resolver]; the documented behaviour of both
    is [NssLaws] and [ResolverLaws], and [nss_model] and [resolver_model] have
    it.  What a module hands back is C memory: the heap is a map of blocks, an
    entry's pointers are null or an offset in a block, and to read a block that
    was freed, or past its end, is [Undefined]; to wait for a lock is [Blocked].
    Threads are a step relation over a shared process: a step is one call of the
    crate by one thread, and an iterator is on the thread that opened it.

    libpam, the C allocator, the system's threads and the application's own
    conversations are the class [Libpam].  A call of libpam that can call back is
    a tree ([Stack]): it returns, or it converses and goes on with what it is
    answered.  [LibpamLaws] says that modules pass arrays as long as they say,
    [LibpamEnv] what libpam documents of the environment and the items, and
    [model_pam] has both.  Code that may wait for a channel is a resumption
    ([Task]): it sends an event or receives answers, so the worker of an exchange
    is a value that its driver resumes.  Both channels are rendezvous.  A block
    belongs to the allocator it came from, and the process keeps what every
    buffer held when the crate freed it.

    OpenSSL and the options of a socket are the class [Libssl], libgssapi the
    class [Gss], libkrb5 with the anonymous files under a key table in memory the
    class [Krb5].  As for LMDB each call is a function on a world; the documented
    behaviour ([LibsslLaws], [GssLaws], [KrbLaws]) is over a view of the world:
    what is live and on which context, what is held at an address and what a file
    holds.  A law speaks of live objects alone, so that to apply it is to prove
    that nothing is used after its release, and a theorem whose view is the one
    it began with says that everything was released once.  [ktls_model],
    [gss_model] and [krb_model] are executable instances.  An access without
    meaning ends a computation ([Undefined]), and no theorem lets one happen.

    * The files

    - [Prelude]: outcomes, the state monad, integers, bytes, hint databases;
      [Utf8]: UTF-8, as [str::from_utf8] and [from_utf8_lossy] judge it.
    - [XdrBase], [XdrSer], [XdrDe]: [error.rs], [strict.rs], [lib.rs]; [ser.rs];
      [de.rs], one definition per method.
    - [XdrDeSafe], [XdrEnds]: the invariant of a decoder ([wf]), that every
      impl which goes through the methods keeps it ([sane]), and that the loops
      end ([ends]).
    - [XdrCodec], [XdrShapes]: the class [Codec], what a [Serialize]
      and a [Deserialize] impl owe each other, and its instances for the shapes
      of serde's data model.
    - [XdrWrappers], [XdrArrayRef], [XdrList]: [wrappers.rs], its codecs, its
      borrowed views and their iterators.
    - [XdrDerive]: [truenas_xdr_derive], from [syn]'s trees to the plan of an
      impl, and what the impls do.
    - [XdrTypes]: a universe of the types a program can put together from
      these, and each of the above for the whole universe at once; and a
      recursive type, which no universe of finite types has.
    - [XdrTheorems] (C1 to C6), [XdrDeriveTheorems] (C7).
    - [Metafmt], [MetafmtTheorems] (C8).
    - [SipHash], [SipHashTheorems] (C9).
    - [Chrony] ([error.rs], [types.rs], [wire.rs]), [ChronyReports]
      ([tracking.rs], [source.rs], [auth.rs]), [ChronyRequest] ([request.rs]),
      [ChronyClient] ([client.rs]); [ChronyLayout],
      [ChronyEnds] prove; [ChronyTheorems] (C10 to C12).
    - [JsonFrame] ([frame.rs]), [Json] (the interface to serde_json), [JsonRpc]
      ([id.rs], [error.rs], [request.rs], [response.rs], [client.rs],
      [reply.rs]), [JsonRpcOk] proves; [JsonModel]; [JsonTheorems] (C13 to C15).
    - [MdbError] ([error.rs], the constants of [ffi.rs]), [Mdb] (the interface to
      liblmdb and [env.rs]), [MdbTxn] ([txn.rs], [transaction.rs], [read] and
      [write] of [env.rs]), [MdbDb] ([db.rs], [iter.rs]).  [MdbLaws] holds the
      laws; [MdbKeeps] the invariant of a process, the frame of a computation, and
      with [MdbPool] the rules that calls, transactions and handles keep them by,
      [MdbApi] the programs over the crate and that they do; [MdbRefine] the
      commands of a database as functions on its pairs and that transactions
      refine them, [MdbScan] scans and iterators and a process over time;
      [MdbModel]; [MdbTheorems] (C16 to C20).
    - [NssError] ([error.rs], the values of [ffi.rs]), [Nss] (memory, the
      interface and the state of a process), [NssService] ([service.rs]),
      [NssDb] ([pwd.rs], [grp.rs], [hosts.rs], [netgr.rs]).
      [NssLaws] holds the laws; [NssLookup] and [NssWalk] prove lookups in one
      module and across them, loading and group lists; [NssEnum] the claims and
      one iterator, [NssConf] a process of threads, its invariant and a whole
      enumeration, [NssHostsOk] names of addresses; [NssModel]; [NssTheorems]
      (C21 to C26).
    - [PamError] ([error.rs], the values of [ffi.rs]), [Pam] (memory, the
      interface, the state of a process, resumptions), [PamConv] ([secret.rs],
      [conv.rs]), [PamTxn] ([txn.rs]), [PamStep] ([step.rs]), [PamAuth]
      ([auth.rs]).  [PamMem] proves secrets and C responses; [PamTalk] says what
      a call comes to without memory and channels ([talk]) and that the callback
      carries it out; [PamTxnOk] transactions and their life, [PamEnv] the
      environment; [PamExchange] where the worker of an exchange can be,
      [PamDrive] what its driver is told, in any interleaving and with given
      answers; [PamAuthOk] the sequence of a login; [PamTheorems] (C27 to C32)
      with a model of libpam.
    - [Ktls]: [acceptor.rs] and [error.rs], the laws, a model, and C33.
    - [Gss]: every file of [truenas_gssapi]; [GssTheorems]: the laws, a model, and
      C34 to C36.
    - [Krb5Error] ([error.rs], [types.rs]), [Krb5] ([context.rs], [principal.rs],
      [keytab.rs], [ccache.rs], [init.rs], the structures of [ffi.rs]).
      [Krb5Laws] holds the grammar of names, the laws, and the rules computations
      are run by ([wp]); [Krb5Tables] proves key tables, [Krb5Caches] caches and
      initial credentials; [Krb5Theorems] (C37 to C40) with a model of libkrb5.

    * What is shown

    - XDR: every type of the universe round trips (C1) and strict decoding is
      canonical (C2); decoding is total and never panics, on any input (C3);
      bounds on both sides (C4), the nesting limit (C5); the borrowed arrays
      refine the owned type (C6).  Further theorems show that sizes are those of
      the encoding, that borrowed lists refine the chain they stand for, and that
      both views are made from exactly the bytes that are theirs.
    - The derives: unions with default arms (C7); further theorems show the plan
      of a union, the discriminants and the enums.
    - Metafmt: packing and unpacking are inverse on exactly the storable
      settings (C8); further theorems have the exact errors and the verdicts.
    - SipHash: the code computes the function of the paper (C9); a further
      theorem shows that the round is a permutation.
    - Chrony: floats, times, addresses and codes (C10); an answer is the report
      of a datagram that echoes a request sent before it (C11), termination
      (C12).  Further theorems show the source list, the layouts by offset, the
      verdict on a reply, the back-off and the request datagrams byte by byte.
    - JSON-RPC: framing is the grammar's, however the bytes arrive (C13);
      requests round trip (C14); the verdict on a request (C15).  Further
      theorems show that responses and batches round trip and that a client's
      ids are distinct.
    - LMDB: every program keeps the library's rules and gives back what it takes,
      on every path (C16); operations and closures refine commands on maps, all or
      nothing (C17, C18); scans and iterators visit exactly the pairs they
      should, and end (C19); an environment is open exactly while a handle to it
      is held, under any sequence of opens, clones and drops (C20).  A further
      theorem shows that a second transaction of a thread is refused, and only
      then.
    - NSS: a lookup ends with the verdict on the module's last answer and reads
      no memory it may not (C21), and what it gives is text (C22); across
      modules the first answer counts (C23), and memberships are united (C24);
      over any interleaving of threads the claims keep iterators apart (C25); an
      enumeration gives every entry and ends (C26).  Further theorems show that
      nobody waits for good and that a confirmed name is confirmed.
    - PAM: a transaction's operations give what modules, conversation and codes
      make of them, and its handle is ended once (C27); answers reach the module
      as they are, and what is freed was overwritten (C28); an exchange comes to
      what a direct call comes to (C29), and over any interleaving its calls
      return and the transaction comes back (C30); the calls of a login come in
      order, whatever methods are called (C31); the environment is a finite map
      (C32).  The order of C31 is that of methods which do not panic.
    - Kernel TLS: an accept returns, releases what it made, and succeeds only
      where the kernel holds both directions (C33); a further theorem shows that
      an acceptor is hardened.
    - GSSAPI: identifiers decode to their arcs (C34); an acceptor that is fed any
      tokens holds one context and one name and gives them over or back (C35);
      the calls in place do what the copying calls do (C36).  A further theorem
      shows the operations of names and credentials.
    - Kerberos: names round trip (C37); a key table is a list of entries (C38) and
      comes back from its bytes (C39); every handle is released once, on its own
      context, on every path (C40).  Further theorems show the vocabularies of
      codes and types, and the iterator of a cache.

    * Bounds and fuel

    Decoding assumes what Rust guarantees of a slice, at most [isize_max] bytes.
    The loops of the decoder take as fuel the count they were told, which [ends]
    shows is enough from any consistent state.  [NODE_FUEL] is one more than the
    nesting a decoder allows.  The receive loop of the chrony client takes fuel
    as an argument; C12 shows that the longest wait in nanoseconds is enough on
    a clock that moves by one with each receive.  The loops of scans and
    iterators take fuel; C19 shows that one more than the entries is enough.
    [GROW_FUEL], 26, is more than the doublings from one byte to the ceiling of
    2^24; C21 has the exact number of calls.  The walk along a group's members
    takes one more than the pointers its block can hold, and C26 shows that one
    call more than there are entries is enough for an enumeration.  The loop over
    the environment of a transaction takes one more than the table it was given
    has places; C32 shows that it does not run out.  The loop over the messages
    of a GSSAPI status takes what the library has left to say, and those over the
    cursors of [truenas_krb5] one more than the steps a cursor has left
    ([kt_left], [cc_left]); C35 and C38 show that they do not run out.

    * What is not modelled

    [fmt::Debug], plain accessors and conversions, and documentation tests; the
    token streams [truenas_xdr_derive] parses and writes (its decisions are
    modelled, on syntax trees); binding and unlinking the chrony client's reply
    socket; the mutexes of [truenas_mdb], whose critical sections are atomic
    here; in [truenas_nss], what is dropped when a thread exits; in
    [truenas_pam], the mask of signals on a worker's thread; in [truenas_krb5],
    the overwriting of keys and of the C copy of a password when they are
    dropped. *)
From Stdlib Require Export ZArith Lia.
From Corelib Require Export Init.Byte.
From Stdlib Require Strings.Byte.
From stdpp Require Export base option list list_numbers numbers strings gmap.
From stdpp Require Import tactics.

Local Open Scope Z_scope.

(** ** Outcomes

    A Rust function that returns [Result<A, E>] either returns a value,
    returns an error, or panics.  Loops whose recursion is not structural
    take fuel; running out of it is a fourth outcome, and every loop of the
    development is proved to return with the fuel it is given. *)
Inductive stop : Type :=
| Panicked
| OutOfFuel.

Inductive Outcome (A E : Type) : Type :=
| Ok (a : A)
| Err (e : E)
| Stop (s : stop).
Arguments Ok {A E} a.
Arguments Err {A E} e.
Arguments Stop {A E} s.

Definition outcome_bind {E A B} (f : A → Outcome B E) (m : Outcome A E) : Outcome B E :=
  match m with
  | Ok a => f a
  | Err e => Err e
  | Stop s => Stop s
  end.

(** Rust's [Result::map]. *)
Definition outcome_map {A B E} (f : A → B) (o : Outcome A E) : Outcome B E :=
  outcome_bind (λ a, Ok (f a)) o.

(** Rust's [Result::map_err]. *)
Definition map_err {A E F} (f : E → F) (m : Outcome A E) : Outcome A F :=
  match m with
  | Ok a => Ok a
  | Err e => Err (f e)
  | Stop s => Stop s
  end.

(** Rust's [Option::ok_or]. *)
Definition ok_or {A E} (o : option A) (e : E) : Outcome A E :=
  match o with
  | Some a => Ok a
  | None => Err e
  end.

Definition is_ok {A E} (m : Outcome A E) : bool :=
  match m with Ok _ => true | _ => false end.

(** Rust's [Result::ok]. *)
Definition ok {A E} (m : Outcome A E) : option A :=
  match m with Ok a => Some a | _ => None end.

(** ** State and errors

    [St S E A] is a method of a receiver of type [S] taken by [&mut self]: it
    gives an outcome and the receiver it leaves behind, on every path. *)
Definition St (S E A : Type) : Type := S → Outcome A E * S.

Section Monad.
Context {S E : Type}.

#[global] Instance St_ret : MRet (St S E) := λ A a s, (Ok a, s).
#[global] Instance St_bind : MBind (St S E) := λ A B f m s,
  match m s with
  | (Ok a, s') => f a s'
  | (Err e, s') => (Err e, s')
  | (Stop w, s') => (Stop w, s')
  end.

Definition fail {A} (e : E) : St S E A := λ s, (Err e, s).
Definition halt {A} (w : stop) : St S E A := λ s, (Stop w, s).
Definition get : St S E S := λ s, (Ok s, s).
Definition put (s : S) : St S E unit := λ _, (Ok tt, s).
Definition modify (f : S → S) : St S E unit := λ s, (Ok tt, f s).

(** Lift a pure result. *)
Definition lift {A} (m : Outcome A E) : St S E A := λ s, (m, s).

(** Run [m], then [k] whatever the outcome, and give [m]'s outcome: the
    shape [let out = m; k; out] of the source. *)
Definition finally {A} (m : St S E A) (k : St S E unit) : St S E A := λ s,
  match m s with
  | (Stop w, s') => (Stop w, s')
  | (r, s') =>
      match k s' with
      | (Ok _, s'') => (r, s'')
      | (Err e, s'') => (Err e, s'')
      | (Stop w, s'') => (Stop w, s'')
      end
  end.
End Monad.

(** The equations that run a computation, for rewriting. *)
Section Run.
Context {S E A B : Type}.
Implicit Types (s : S) (m : St S E A) (f : A → St S E B).

Lemma run_ret (a : A) s : (mret a : St S E A) s = (Ok a, s).
Proof. reflexivity. Qed.

Lemma run_bind_ok m f s a s' :
  m s = (Ok a, s') → (m ≫= f) s = f a s'.
Proof. intros H. unfold mbind, St_bind. by rewrite H. Qed.

Lemma run_bind_err m f s e s' :
  m s = (Err e, s') → (m ≫= f) s = (Err e, s').
Proof. intros H. unfold mbind, St_bind. by rewrite H. Qed.

Lemma run_get (f : S → St S E B) s : (get ≫= f) s = f s s.
Proof. reflexivity. Qed.

Lemma run_modify (g : S → S) (f : unit → St S E B) s : (modify g ≫= f) s = f tt (g s).
Proof. reflexivity. Qed.

Lemma run_lift (a : A) f s : (lift (Ok a) ≫= f) s = f a s.
Proof. reflexivity. Qed.

(** Inversion of a bind that succeeded. *)
Lemma bind_ok_inv m f s b s' :
  (m ≫= f) s = (Ok b, s') → ∃ a s1, m s = (Ok a, s1) ∧ f a s1 = (Ok b, s').
Proof.
  unfold mbind, St_bind. destruct (m s) as [[a|e|w] s1] eqn:Hm; intros H; try done.
  by exists a, s1.
Qed.

Lemma run_finally_ok (m : St S E A) k s a s1 s2 :
  m s = (Ok a, s1) → k s1 = (Ok tt, s2) → finally m k s = (Ok a, s2).
Proof. intros H1 H2. unfold finally. by rewrite H1, H2. Qed.

Lemma run_finally_err (m : St S E A) k s e s1 s2 :
  m s = (Err e, s1) → k s1 = (Ok tt, s2) → finally m k s = (Err e, s2).
Proof. intros H1 H2. unfold finally. by rewrite H1, H2. Qed.
End Run.

(** [step_ok] runs the first command of the goal's bind by a hypothesis or a
    lemma that gives its successful result. *)
Ltac step_ok :=
  first
    [ erewrite run_bind_ok by eassumption
    | erewrite run_bind_ok by eauto
    | erewrite run_bind_ok by reflexivity ]; cbv beta.
Tactic Notation "step_ok" "with" uconstr(H) :=
  erewrite run_bind_ok by (eapply H; eauto); cbv beta.

(** Invert hypotheses that say a bind succeeded. *)
Ltac bind_inv :=
  repeat match goal with
  | H : (_ ≫= _) _ = (Ok _, _) |- _ =>
      let a := fresh "a" in let s := fresh "s" in let H1 := fresh "Hrun" in
      apply bind_ok_inv in H as (a & s & H1 & H)
  | H : mret _ _ = (Ok _, _) |- _ => rewrite run_ret in H; simplify_eq
  end.

(** ** Lengths

    The source's lengths and offsets are [usize]; they are kept in [Z]. *)
Abbreviation len l := (Z.of_nat (length l)).

Definition usize_max : Z := 2 ^ 64 - 1.
(** No Rust slice is longer than this. *)
Definition isize_max : Z := 2 ^ 63 - 1.
Definition u32_max : Z := 2 ^ 32 - 1.

(** [usize::saturating_add], [saturating_mul] and [saturating_sub]. *)
Definition saturating_add (a b : Z) : Z := Z.min (a + b) usize_max.
Definition saturating_mul (a b : Z) : Z := Z.min (a * b) usize_max.
Definition saturating_sub (a b : Z) : Z := Z.max (a - b) 0.

(** [&l[from..to]]: a range that is out of order or past the end panics. *)
Definition slice {A E} (l : list A) (from to : Z) : Outcome (list A) E :=
  if decide (0 ≤ from ∧ from ≤ to ∧ to ≤ len l)
  then Ok (take (Z.to_nat (to - from)) (drop (Z.to_nat from) l))
  else Stop Panicked.

(** ** Machine integers

    A [w]-bit unsigned integer is a [Z] in [0, 2^w); [as] casts wrap. *)
Definition wrap (w z : Z) : Z := z mod 2 ^ w.
Definition swrap (w z : Z) : Z := (z + 2 ^ (w - 1)) mod 2 ^ w - 2 ^ (w - 1).

Definition unsigned (w z : Z) : Prop := 0 ≤ z < 2 ^ w.
Definition signed (w z : Z) : Prop := - 2 ^ (w - 1) ≤ z < 2 ^ (w - 1).
#[global] Instance unsigned_dec w z : Decision (unsigned w z).
Proof. unfold unsigned. apply _. Defined.
#[global] Instance signed_dec w z : Decision (signed w z).
Proof. unfold signed. apply _. Defined.

(** [uN::wrapping_add]. *)
Definition wrapping_add (w a b : Z) : Z := wrap w (a + b).

(** [uN::try_from] and [iN::try_from]. *)
Definition try_unsigned (w z : Z) : option Z :=
  if decide (unsigned w z) then Some z else None.
Definition try_signed (w z : Z) : option Z :=
  if decide (signed w z) then Some z else None.

Lemma wrap_range w z : 0 ≤ w → unsigned w (wrap w z).
Proof. intros. apply Z.mod_pos_bound, Z.pow_pos_nonneg; lia. Qed.

Lemma wrap_small w z : unsigned w z → wrap w z = z.
Proof. apply Z.mod_small. Qed.

Lemma swrap_range w z : 0 < w → signed w (swrap w z).
Proof.
  intros Hw. unfold signed, swrap.
  assert (2 ^ w = 2 * 2 ^ (w - 1)) by (rewrite <- Z.pow_succ_r by lia; f_equal; lia).
  pose proof (Z.mod_pos_bound (z + 2 ^ (w - 1)) (2 ^ w) ltac:(lia)). lia.
Qed.

(** The cast from signed to unsigned and back is the identity. *)
Lemma swrap_wrap w z : 0 < w → signed w z → swrap w (wrap w z) = z.
Proof.
  intros Hw Hz. unfold signed, swrap, wrap in *.
  assert (2 ^ w = 2 * 2 ^ (w - 1)) by (rewrite <- Z.pow_succ_r by lia; f_equal; lia).
  rewrite Z.add_mod_idemp_l by lia. rewrite Z.mod_small by lia. lia.
Qed.

Lemma wrap_swrap w z : 0 < w → unsigned w z → wrap w (swrap w z) = z.
Proof.
  intros Hw Hz. unfold unsigned, swrap, wrap in *.
  rewrite Zminus_mod_idemp_l.
  replace (z + 2 ^ (w - 1) - 2 ^ (w - 1)) with z by lia. by apply Z.mod_small.
Qed.

(** Bits past the width. *)
Lemma testbit_high w z i : unsigned w z → w ≤ i → Z.testbit z i = false.
Proof.
  intros [H1 H2] Hi. destruct (decide (z = 0)) as [->|Hz]; [apply Z.bits_0|].
  apply Z.bits_above_log2; [done|]. assert (0 ≤ w). { destruct (decide (0 ≤ w)); [done|]. rewrite Z.pow_neg_r in H2; lia. }
  apply Z.lt_le_trans with w; [|done]. apply Z.log2_lt_pow2; lia.
Qed.

Lemma unsigned_bits w z : 0 ≤ w → 0 ≤ z → (∀ i, w ≤ i → Z.testbit z i = false) → unsigned w z.
Proof.
  intros Hw Hz H. split; [done|]. destruct (decide (z = 0)) as [->|]; [lia|].
  apply Z.log2_lt_pow2; [lia|]. destruct (decide (w ≤ Z.log2 z)) as [Hl|]; [|lia].
  specialize (H _ Hl). rewrite Z.bit_log2 in H by lia. done.
Qed.

Lemma unsigned_le v w z : v ≤ w → unsigned v z → unsigned w z.
Proof.
  unfold unsigned. intros Hvw [H1 H2]. split; [done|]. eapply Z.lt_le_trans; [done|].
  destruct (decide (0 ≤ w)); [by apply Z.pow_le_mono_r|]. rewrite (Z.pow_neg_r 2 v) in H2; lia.
Qed.

(** ** Bytes *)
Abbreviation bytes := (list Byte.byte).

#[global] Instance byte_eq_dec : EqDecision Byte.byte := Byte.byte_eq_dec.
#[global] Instance byte_countable : Countable Byte.byte.
Proof.
  refine {| encode b := encode (Byte.to_N b); decode p := decode p ≫= Byte.of_N |}.
  intros b. rewrite decode_encode. simpl. apply Byte.of_to_N.
Defined.

(** [CString::new]: refused where the bytes hold a NUL. *)
Definition cstring (b : bytes) : option bytes := if decide (x00 ∈ b) then None else Some b.

Definition byte_val (b : Byte.byte) : Z := Z.of_N (Byte.to_N b).

(** [z as u8]. *)
Definition byte_of (z : Z) : Byte.byte :=
  default x00 (Byte.of_N (Z.to_N (wrap 8 z))).

Lemma byte_val_range b : unsigned 8 (byte_val b).
Proof.
  unfold unsigned, byte_val. pose proof (Byte.to_N_bounded b). change (2 ^ 8) with 256. lia.
Qed.

Lemma byte_of_val b : byte_of (byte_val b) = b.
Proof.
  unfold byte_of. rewrite wrap_small by apply byte_val_range.
  unfold byte_val. by rewrite N2Z.id, Byte.of_to_N.
Qed.

Lemma byte_val_of z : byte_val (byte_of z) = wrap 8 z.
Proof.
  pose proof (wrap_range 8 z ltac:(lia)) as Hr. unfold unsigned in Hr.
  unfold byte_of, byte_val.
  destruct (Byte.of_N (Z.to_N (wrap 8 z))) as [b|] eqn:Hb; simpl.
  - apply Byte.to_of_N in Hb. rewrite Hb. lia.
  - apply Byte.of_N_None_iff in Hb. change (2 ^ 8) with 256 in Hr. lia.
Qed.

Lemma byte_val_inj a b : byte_val a = byte_val b → a = b.
Proof. intros H. by rewrite <- (byte_of_val a), H, byte_of_val. Qed.

(** [uN::to_le_bytes] and [uN::from_le_bytes], for [n] bytes. *)
Fixpoint to_le_bytes (n : nat) (z : Z) : bytes :=
  match n with
  | O => []
  | S n => byte_of z :: to_le_bytes n (z / 256)
  end.

Fixpoint from_le_bytes (bs : bytes) : Z :=
  match bs with
  | [] => 0
  | b :: bs => byte_val b + 256 * from_le_bytes bs
  end.

(** [uN::to_be_bytes] and [uN::from_be_bytes]. *)
Definition to_be_bytes (n : nat) (z : Z) : bytes := reverse (to_le_bytes n z).
Definition from_be_bytes (bs : bytes) : Z := from_le_bytes (reverse bs).

Lemma length_to_le_bytes n z : length (to_le_bytes n z) = n.
Proof. revert z. induction n as [|n IH]; intros z; simpl; [done|]. by rewrite IH. Qed.

Lemma length_to_be_bytes n z : length (to_be_bytes n z) = n.
Proof. unfold to_be_bytes. by rewrite length_reverse, length_to_le_bytes. Qed.

Lemma len_u32 z : len (to_be_bytes 4 z) = 4.
Proof. by rewrite length_to_be_bytes. Qed.

Lemma len_u64 z : len (to_be_bytes 8 z) = 8.
Proof. by rewrite length_to_be_bytes. Qed.

Lemma from_le_bytes_range bs : unsigned (8 * len bs) (from_le_bytes bs).
Proof.
  unfold unsigned. induction bs as [|b bs IH]; simpl from_le_bytes; [done|].
  pose proof (byte_val_range b) as Hb. unfold unsigned in Hb.
  simpl length. rewrite Nat2Z.inj_succ, Z.mul_succ_r, Z.pow_add_r by lia.
  change (2 ^ 8) with 256 in *. lia.
Qed.

Lemma from_to_le_bytes n z : from_le_bytes (to_le_bytes n z) = wrap (8 * Z.of_nat n) z.
Proof.
  revert z. induction n as [|n IH]; intros z.
  - simpl. unfold wrap. by rewrite Z.mod_1_r.
  - simpl to_le_bytes. simpl from_le_bytes. rewrite IH, byte_val_of. unfold wrap.
    replace (8 * Z.of_nat (S n)) with (8 + 8 * Z.of_nat n) by lia.
    rewrite Z.pow_add_r by lia. change (2 ^ 8) with 256. by rewrite Z.rem_mul_r by lia.
Qed.

Lemma to_from_le_bytes bs : to_le_bytes (length bs) (from_le_bytes bs) = bs.
Proof.
  induction bs as [|b bs IH]; simpl; [done|].
  pose proof (byte_val_range b) as Hb. unfold unsigned in Hb. change (2 ^ 8) with 256 in Hb.
  f_equal.
  - apply byte_val_inj. rewrite byte_val_of. unfold wrap. change (2 ^ 8) with 256.
    rewrite Z.mul_comm, Z.mod_add by lia. by apply Z.mod_small.
  - rewrite Z.mul_comm, Z.div_add, Z.div_small by lia. by rewrite Z.add_0_l.
Qed.

Lemma from_be_bytes_range bs : unsigned (8 * len bs) (from_be_bytes bs).
Proof. rewrite <- (length_reverse bs). apply from_le_bytes_range. Qed.

Lemma from_to_be_bytes n z : from_be_bytes (to_be_bytes n z) = wrap (8 * Z.of_nat n) z.
Proof. unfold from_be_bytes, to_be_bytes. by rewrite reverse_involutive, from_to_le_bytes. Qed.

Lemma to_from_be_bytes n bs : length bs = n → to_be_bytes n (from_be_bytes bs) = bs.
Proof.
  intros <-. unfold from_be_bytes, to_be_bytes.
  by rewrite <- (length_reverse bs), to_from_le_bytes, reverse_involutive.
Qed.

#[global] Opaque to_le_bytes to_be_bytes from_be_bytes byte_of byte_val.
#[global] Arguments wrap : simpl never.
#[global] Arguments swrap : simpl never.

(** ** Lists *)
Lemma take_app_len {A} (l1 l2 : list A) : take (Z.to_nat (len l1)) (l1 ++ l2) = l1.
Proof. by rewrite Nat2Z.id, take_app_length. Qed.

Lemma drop_app_len {A} (l1 l2 : list A) : drop (Z.to_nat (len l1)) (l1 ++ l2) = l2.
Proof. by rewrite Nat2Z.id, drop_app_length. Qed.

(** ** Automation

    [run] rewrites a computation to its result; [bounds] holds the ranges of
    machine integers. *)
Create Rewrite HintDb run.
Create Rewrite HintDb len.
#[export] Hint Rewrite @run_ret @run_get @run_modify @run_lift : run.
Create HintDb bounds.
#[export] Hint Resolve wrap_range swrap_range byte_val_range from_be_bytes_range
  from_le_bytes_range : bounds.
#[export] Hint Extern 2 (_ ≤ _) => lia : bounds.
#[export] Hint Extern 2 (_ < _) => lia : bounds.
#[export] Hint Rewrite length_to_le_bytes length_to_be_bytes : len.
#[export] Hint Rewrite @length_app @length_cons @length_nil @length_take @length_drop
  @length_replicate @length_reverse : len.

(** Arithmetic on lengths. *)
Ltac len_lia := autorewrite with len in *; simpl length in *; lia.
