(* ===== verification/XdrBase.v ===== *)
(** The parts of [truenas_xdr] that the encoder and the decoder share: the
    error type ([error.rs]), the decode strictness ([strict.rs]), the
    constants and [pad4] of [lib.rs], and what the crate uses of Rust's
    [str] and [char]. *)
From stdpp Require Import pretty.
From S2P Require Import Prelude.
Local Open Scope Z_scope.

(** ** Errors *)

(* SRC truenas_xdr/src/error.rs enum Error *)
Inductive Error : Type :=
| Eof (need : Z)
| Range
| NonZeroPadding
| EmbeddedNul
| InvalidBool (value : Z)
| Utf8
| TrailingBytes (rest : Z)
| RecursionLimit (limit : Z)
| TooLong (length max : Z)
| Unsupported (what : string)
| Io (msg : string)
| Message (msg : string).

#[global] Instance Error_eq_dec : EqDecision Error.
Proof. solve_decision. Defined.

Definition Result (A : Type) : Type := Outcome A Error.

(* SRC truenas_xdr/src/error.rs impl fmt::Display for Error *)
Definition display_Error (e : Error) : string :=
  match e with
  | Eof need => "unexpected end of input, need " +:+ pretty need +:+ " more byte(s)"
  | Range => "value out of range for target type"
  | NonZeroPadding => "non-zero padding byte"
  | EmbeddedNul => "embedded NUL in string"
  | InvalidBool value => "boolean discriminant " +:+ pretty value +:+ " is neither 0 nor 1"
  | Utf8 => "invalid UTF-8 in string"
  | TrailingBytes rest => pretty rest +:+ " trailing byte(s) after value"
  | RecursionLimit limit => "input nests deeper than the limit of " +:+ pretty limit
  | TooLong length max => "length " +:+ pretty length +:+ " is over the bound of " +:+ pretty max
  | Unsupported what => "XDR does not support " +:+ what
  | Io msg | Message msg => msg
  end.

(** The [std::io::ErrorKind]s an XDR error converts to. *)
(* SRC truenas_xdr/src/error.rs L 123-133 From *)
Inductive ErrorKind : Type := UnexpectedEof | UnsupportedKind | InvalidData.

(* SRC truenas_xdr/src/error.rs impl From<Error> for std::io::Error *)
Definition io_error_kind (e : Error) : ErrorKind :=
  match e with
  | Eof _ => UnexpectedEof
  | Unsupported _ => UnsupportedKind
  | _ => InvalidData
  end.

(** ** Strictness *)

(* SRC truenas_xdr/src/strict.rs enum Strictness *)
Inductive Strictness : Type := Lenient | Strict.

#[global] Instance Strictness_eq_dec : EqDecision Strictness.
Proof. solve_decision. Defined.

(** ** Constants *)

(* SRC truenas_xdr/src/lib.rs const BYTES_PER_XDR_UNIT *)
Definition BYTES_PER_XDR_UNIT : Z := 4.

Definition nul_named (s : string) : string := String (Ascii.ascii_of_nat 0) s.

(* SRC truenas_xdr/src/lib.rs const SENTINEL_FIXED *)
Definition SENTINEL_FIXED : string := nul_named "truenas-xdr-fixed-opaque".
(* SRC truenas_xdr/src/lib.rs const SENTINEL_BOUNDED *)
Definition SENTINEL_BOUNDED : string := nul_named "truenas-xdr-bounded".
(* SRC truenas_xdr/src/lib.rs const SENTINEL_ARRAY_REF *)
Definition SENTINEL_ARRAY_REF : string := nul_named "truenas-xdr-array-ref".

(* SRC truenas_xdr/src/lib.rs fn pad4 *)
Definition pad4 (len : Z) : Z :=
  (BYTES_PER_XDR_UNIT - len mod BYTES_PER_XDR_UNIT) mod BYTES_PER_XDR_UNIT.

(** ** Text

    [std::str::from_utf8]: the well-formed UTF-8 byte sequences (Unicode 15,
    table 3-7).  A [&str] is modelled by its bytes. *)
Definition in_range (lo hi : Z) (b : Byte.byte) : bool :=
  (lo <=? byte_val b) && (byte_val b <=? hi).

Fixpoint utf8_valid (bs : bytes) : bool :=
  match bs with
  | [] => true
  | b0 :: bs1 =>
    if in_range 0 0x7f b0 then utf8_valid bs1 else
    match bs1 with
    | [] => false
    | b1 :: bs2 =>
      if in_range 0xc2 0xdf b0 && in_range 0x80 0xbf b1 then utf8_valid bs2 else
      match bs2 with
      | [] => false
      | b2 :: bs3 =>
        let tail2 := in_range 0x80 0xbf b2 in
        if ((in_range 0xe0 0xe0 b0 && in_range 0xa0 0xbf b1)
            || (in_range 0xe1 0xec b0 && in_range 0x80 0xbf b1)
            || (in_range 0xed 0xed b0 && in_range 0x80 0x9f b1)
            || (in_range 0xee 0xef b0 && in_range 0x80 0xbf b1)) && tail2
        then utf8_valid bs3 else
        match bs3 with
        | [] => false
        | b3 :: bs4 =>
          if ((in_range 0xf0 0xf0 b0 && in_range 0x90 0xbf b1)
              || (in_range 0xf1 0xf3 b0 && in_range 0x80 0xbf b1)
              || (in_range 0xf4 0xf4 b0 && in_range 0x80 0x8f b1))
             && tail2 && in_range 0x80 0xbf b3
          then utf8_valid bs4 else false
        end
      end
    end
  end.

(** [char::try_from(u32)]: a Unicode scalar value. *)
Definition is_char (z : Z) : bool :=
  ((0 <=? z) && (z <=? 0xd7ff)) || ((0xe000 <=? z) && (z <=? 0x10ffff)).

(** [s.as_bytes().contains(&0)]. *)
Definition contains_nul (bs : bytes) : bool := existsb (λ b, bool_decide (b = x00)) bs.

Lemma contains_nul_spec bs : contains_nul bs = true ↔ x00 ∈ bs.
Proof.
  unfold contains_nul. rewrite existsb_exists. setoid_rewrite bool_decide_eq_true.
  rewrite list_elem_of_In. naive_solver.
Qed.

(** ** Padding arithmetic *)
Lemma pad4_range n : 0 ≤ pad4 n < 4.
Proof. apply Z.mod_pos_bound. unfold BYTES_PER_XDR_UNIT. lia. Qed.

Lemma pad4_aligned n : (n + pad4 n) mod 4 = 0.
Proof. unfold pad4, BYTES_PER_XDR_UNIT. pose proof (Z.div_mod n 4). Z.div_mod_to_equations. lia. Qed.

(** The padding is the only one: four alignments fix it. *)
Lemma pad4_unique n p : 0 ≤ p < 4 → (n + p) mod 4 = 0 → p = pad4 n.
Proof. unfold pad4, BYTES_PER_XDR_UNIT. intros. Z.div_mod_to_equations. lia. Qed.

Lemma pad4_aligned_0 n : n mod 4 = 0 → pad4 n = 0.
Proof. unfold pad4, BYTES_PER_XDR_UNIT. intros ->. done. Qed.

#[export] Hint Resolve pad4_range pad4_aligned : bounds.

Definition zeros (n : Z) : bytes := replicate (Z.to_nat n) x00.

Lemma len_zeros n : 0 ≤ n → len (zeros n) = n.
Proof. intros. unfold zeros. rewrite length_replicate. lia. Qed.

Lemma len_pad n : len (zeros (pad4 n)) = pad4 n.
Proof. apply len_zeros. apply pad4_range. Qed.

Lemma slice_zeros {E} p : 0 ≤ p ≤ 3 → slice (E:=E) (zeros 3) 0 p = Ok (zeros p).
Proof.
  intros Hp. unfold slice. rewrite len_zeros, decide_True by lia. f_equal.
  rewrite drop_0, Z.sub_0_r. unfold zeros. rewrite take_replicate. f_equal. lia.
Qed.

Lemma zeros_0 : zeros 0 = [].
Proof. reflexivity. Qed.

(** Bytes none of which is other than zero are zeros. *)
Lemma zeros_unique bs : existsb (λ b, bool_decide (b ≠ x00)) bs ≠ true → bs = zeros (len bs).
Proof.
  unfold zeros. rewrite Nat2Z.id. induction bs as [|b bs IH]; simpl; [done|].
  intros H. rewrite orb_true_iff, bool_decide_eq_true in H.
  destruct (decide (b = x00)) as [->|]; [|naive_solver]. f_equal. apply IH. naive_solver.
Qed.

Lemma zeros_padding n : existsb (λ b, bool_decide (b ≠ x00)) (zeros n) = false.
Proof.
  unfold zeros. induction (Z.to_nat n) as [|k IH]; simpl; [done|]. by rewrite IH.
Qed.

#[global] Arguments pad4 : simpl never.
#[global] Opaque zeros.
