(* ===== verification/XdrSer.v ===== *)
(** The XDR encoder: [truenas_xdr/src/ser.rs], and the encoding entry points
    of [lib.rs].

    serde drives an encoder through one call per value of its data model.  A
    type's [Serialize] impl is not part of this crate, so it appears as the
    tree of calls it makes, [Ser], with one constructor per method of serde's
    [Serializer] trait; each method is a definition of its own here, and
    [serialize] hands every node to its method. *)
From S2P Require Import Prelude XdrBase.
Local Open Scope Z_scope.

(** ** Sinks

    What the encoder uses of [std::io::Write]. *)
Class Write (W : Type) : Type := write_all : bytes → St W string unit.

(** [Vec<u8>] appends. *)
#[global] Instance Write_Vec : Write bytes := λ bs out, (Ok tt, out ++ bs).

(** [&mut [u8]] fills what room there is and refuses the rest. *)
Record SliceWriter : Type := { filled : bytes; room : bytes }.
#[global] Instance Write_Slice : Write SliceWriter := λ bs s,
  let n := min (length bs) (length s.(room)) in
  ( if decide (length bs ≤ length s.(room))%nat then Ok tt
    else Err "failed to write whole buffer"%string,
    {| filled := s.(filled) ++ take n bs; room := drop n s.(room) |} ).

(* SRC truenas_xdr/src/ser.rs struct CountWriter *)
Record CountWriter : Type := { counted : Z }.
(* SRC truenas_xdr/src/ser.rs impl Write for CountWriter *)
#[global] Instance Write_Count : Write CountWriter := λ bs s,
  (Ok tt, {| counted := s.(counted) + len bs |}).

(** ** The serde data model, as the encoder is called with it *)
#[warnings="-register-all"]
Inductive Ser : Type :=
| SBool (v : bool)
| SI8 (v : Z) | SI16 (v : Z) | SI32 (v : Z) | SI64 (v : Z)
| SU8 (v : Z) | SU16 (v : Z) | SU32 (v : Z) | SU64 (v : Z)
| SF32 (bits : Z) | SF64 (bits : Z)
| SChar (v : Z)
| SStr (v : bytes)
| SBytes (v : bytes)
| SNone
| SSome (v : Ser)
| SUnit
| SUnitStruct (name : string)
| SUnitVariant (name : string) (variant_index : Z)
| SNewtypeStruct (name : string) (v : Ser)
| SNewtypeVariant (name : string) (variant_index : Z) (v : Ser)
| SSeq (count : option Z) (elements : list Ser)
| STuple (count : Z) (elements : list Ser)
| STupleStruct (name : string) (count : Z) (fields : list Ser)
| STupleVariant (name : string) (variant_index count : Z) (fields : list Ser)
| SMap (count : option Z)
| SStruct (name : string) (count : Z) (fields : list Ser)
| SStructVariant (name : string) (variant_index count : Z) (fields : list Ser)
| SFail (e : Error).

(** A [Serialize] impl. *)
Class Serialize (A : Type) : Type := to_serde : A → Ser.

(** ** The encoder *)

(* SRC truenas_xdr/src/ser.rs struct Serializer *)
Record Serializer (W : Type) : Type := {
  sink : W;
  fixed_pending : bool;
  bound_pending : option Z
}.
Arguments sink {W} _.
Arguments fixed_pending {W} _.
Arguments bound_pending {W} _.

(* SRC truenas_xdr/src/ser.rs fn new *)
Definition new {W} (w : W) : Serializer W :=
  {| sink := w; fixed_pending := false; bound_pending := None |}.

Definition set_sink {W} (x : W) (s : Serializer W) : Serializer W :=
  {| sink := x; fixed_pending := s.(fixed_pending); bound_pending := s.(bound_pending) |}.
Definition set_fixed {W} (b : bool) (s : Serializer W) : Serializer W :=
  {| sink := s.(sink); fixed_pending := b; bound_pending := s.(bound_pending) |}.
Definition set_bound {W} (b : option Z) (s : Serializer W) : Serializer W :=
  {| sink := s.(sink); fixed_pending := s.(fixed_pending); bound_pending := b |}.

Section Serializer.
Context {W : Type} `{!Write W}.
Local Abbreviation M := (St (Serializer W) Error).

(* SRC truenas_xdr/src/ser.rs fn put *)
Definition put (bs : bytes) : M unit := λ s,
  let '(r, x) := write_all bs s.(sink) in (map_err Io r, set_sink x s).

(* SRC truenas_xdr/src/ser.rs fn put_u32 *)
Definition put_u32 (v : Z) : M unit := put (to_be_bytes 4 v).

(* SRC truenas_xdr/src/ser.rs fn put_u64 *)
Definition put_u64 (v : Z) : M unit := put (to_be_bytes 8 v).

(** [self.bound_pending.take()]. *)
(* SRC truenas_xdr/src/ser.rs L 56-57 put_len *)
Definition take_bound : M (option Z) := λ s, (Ok s.(bound_pending), set_bound None s).

(** [std::mem::take(&mut self.fixed_pending)]. *)
(* SRC truenas_xdr/src/ser.rs L 153-160 serialize_bytes *)
Definition take_fixed : M bool := λ s, (Ok s.(fixed_pending), set_fixed false s).

(* SRC truenas_xdr/src/ser.rs fn put_len *)
Definition put_len (l : Z) : M unit :=
  bound ← take_bound;
  match bound with
  | Some max => if max <? l then fail (TooLong l max) else mret tt
  | None => mret tt
  end;;
  match try_unsigned 32 l with
  | Some l => put_u32 l
  | None => fail (Unsupported "a length beyond u32::MAX")
  end.

(* SRC truenas_xdr/src/ser.rs fn put_pad *)
Definition put_pad (l : Z) : M unit :=
  let p := pad4 l in
  if 0 <? p then pad ← lift (slice (zeros 3) 0 p); put pad else mret tt.

(* SRC truenas_xdr/src/ser.rs fn put_body *)
Definition put_body (v : bytes) : M unit := put v;; put_pad (len v).

(* SRC truenas_xdr/src/ser.rs fn serialize_bool *)
Definition serialize_bool (v : bool) : M unit := put_u32 (if v then 1 else 0).
(* SRC truenas_xdr/src/ser.rs fn serialize_i32 *)
Definition serialize_i32 (v : Z) : M unit := put_u32 (wrap 32 v).
(* SRC truenas_xdr/src/ser.rs fn serialize_i8 *)
Definition serialize_i8 (v : Z) : M unit := serialize_i32 v.
(* SRC truenas_xdr/src/ser.rs fn serialize_i16 *)
Definition serialize_i16 (v : Z) : M unit := serialize_i32 v.
(* SRC truenas_xdr/src/ser.rs fn serialize_i64 *)
Definition serialize_i64 (v : Z) : M unit := put_u64 (wrap 64 v).
(* SRC truenas_xdr/src/ser.rs fn serialize_u8 *)
Definition serialize_u8 (v : Z) : M unit := put_u32 v.
(* SRC truenas_xdr/src/ser.rs fn serialize_u16 *)
Definition serialize_u16 (v : Z) : M unit := put_u32 v.
(* SRC truenas_xdr/src/ser.rs fn serialize_u32 *)
Definition serialize_u32 (v : Z) : M unit := put_u32 v.
(* SRC truenas_xdr/src/ser.rs fn serialize_u64 *)
Definition serialize_u64 (v : Z) : M unit := put_u64 v.
(* SRC truenas_xdr/src/ser.rs fn serialize_f32 *)
Definition serialize_f32 (bits : Z) : M unit := put_u32 bits.
(* SRC truenas_xdr/src/ser.rs fn serialize_f64 *)
Definition serialize_f64 (bits : Z) : M unit := put_u64 bits.
(* SRC truenas_xdr/src/ser.rs fn serialize_char *)
Definition serialize_char (v : Z) : M unit := put_u32 v.

(* SRC truenas_xdr/src/ser.rs fn serialize_str *)
Definition serialize_str (v : bytes) : M unit :=
  modify (set_fixed false);;
  put_len (len v);;
  put_body v.

(* SRC truenas_xdr/src/ser.rs fn serialize_bytes *)
Definition serialize_bytes (v : bytes) : M unit :=
  fixed ← take_fixed;
  if fixed : bool then put_body v
  else put_len (len v);; put_body v.

(* SRC truenas_xdr/src/ser.rs fn serialize_none *)
Definition serialize_none : M unit := put_u32 0.
(* SRC truenas_xdr/src/ser.rs fn serialize_some *)
Definition serialize_some (value : M unit) : M unit := put_u32 1;; value.

(* SRC truenas_xdr/src/ser.rs fn serialize_unit *)
Definition serialize_unit : M unit := mret tt.
(* SRC truenas_xdr/src/ser.rs fn serialize_unit_struct *)
Definition serialize_unit_struct (name : string) : M unit := mret tt.
(* SRC truenas_xdr/src/ser.rs fn serialize_unit_variant *)
Definition serialize_unit_variant (name : string) (variant_index : Z) : M unit :=
  put_u32 variant_index.

(* SRC truenas_xdr/src/ser.rs fn serialize_newtype_struct *)
Definition serialize_newtype_struct (name : string) (value : M unit) : M unit :=
  (if bool_decide (name = SENTINEL_FIXED) then modify (set_fixed true) else mret tt);;
  value.

(* SRC truenas_xdr/src/ser.rs fn serialize_newtype_variant *)
Definition serialize_newtype_variant (name : string) (variant_index : Z)
    (value : M unit) : M unit :=
  put_u32 variant_index;; value.

(* SRC truenas_xdr/src/ser.rs fn serialize_seq *)
Definition serialize_seq (count : option Z) : M unit :=
  l ← lift (ok_or count (Unsupported "a sequence of unknown length"));
  put_len l.
(* SRC truenas_xdr/src/ser.rs fn serialize_tuple *)
Definition serialize_tuple (count : Z) : M unit := mret tt.
(* SRC truenas_xdr/src/ser.rs fn serialize_tuple_struct *)
Definition serialize_tuple_struct (name : string) (count : Z) : M unit :=
  if bool_decide (name = SENTINEL_BOUNDED) then modify (set_bound (Some count)) else mret tt.
(* SRC truenas_xdr/src/ser.rs fn serialize_tuple_variant *)
Definition serialize_tuple_variant (name : string) (variant_index count : Z) : M unit :=
  put_u32 variant_index.
(* SRC truenas_xdr/src/ser.rs fn serialize_map *)
Definition serialize_map (count : option Z) : M unit := fail (Unsupported "maps").
(* SRC truenas_xdr/src/ser.rs fn serialize_struct *)
Definition serialize_struct (name : string) (count : Z) : M unit := mret tt.
(* SRC truenas_xdr/src/ser.rs fn serialize_struct_variant *)
Definition serialize_struct_variant (name : string) (variant_index count : Z) : M unit :=
  put_u32 variant_index.

(* SRC truenas_xdr/src/ser.rs L 270-294 forward_elements *)
Fixpoint serialize_elements (values : list (M unit)) : M unit :=
  match values with
  | [] => mret tt
  | value :: values => value;; serialize_elements values
  end.

(** [value.serialize(&mut ser)]: each call of the impl reaches its method. *)
Fixpoint serialize (v : Ser) : M unit :=
  match v with
  | SBool v => serialize_bool v
  | SI8 v => serialize_i8 v
  | SI16 v => serialize_i16 v
  | SI32 v => serialize_i32 v
  | SI64 v => serialize_i64 v
  | SU8 v => serialize_u8 v
  | SU16 v => serialize_u16 v
  | SU32 v => serialize_u32 v
  | SU64 v => serialize_u64 v
  | SF32 v => serialize_f32 v
  | SF64 v => serialize_f64 v
  | SChar v => serialize_char v
  | SStr v => serialize_str v
  | SBytes v => serialize_bytes v
  | SNone => serialize_none
  | SSome v => serialize_some (serialize v)
  | SUnit => serialize_unit
  | SUnitStruct name => serialize_unit_struct name
  | SUnitVariant name i => serialize_unit_variant name i
  | SNewtypeStruct name v => serialize_newtype_struct name (serialize v)
  | SNewtypeVariant name i v => serialize_newtype_variant name i (serialize v)
  | SSeq count vs => serialize_seq count;; serialize_elements (map serialize vs)
  | STuple count vs => serialize_tuple count;; serialize_elements (map serialize vs)
  | STupleStruct name count vs =>
      serialize_tuple_struct name count;; serialize_elements (map serialize vs)
  | STupleVariant name i count vs =>
      serialize_tuple_variant name i count;; serialize_elements (map serialize vs)
  | SMap count => serialize_map count
  | SStruct name count vs =>
      serialize_struct name count;; serialize_elements (map serialize vs)
  | SStructVariant name i count vs =>
      serialize_struct_variant name i count;; serialize_elements (map serialize vs)
  | SFail e => fail e
  end.

End Serializer.

(** ** Entry points *)

(* SRC truenas_xdr/src/lib.rs fn to_writer *)
Definition to_writer {W A} `{!Write W, !Serialize A} (writer : W) (value : A) :
    Result unit * W :=
  let '(r, s) := serialize (to_serde value) (new writer) in (r, s.(sink)).

(* SRC truenas_xdr/src/lib.rs fn to_bytes *)
Definition to_bytes {A} `{!Serialize A} (value : A) : Result bytes :=
  let '(r, buf) := to_writer ([] : bytes) value in
  outcome_bind (λ _, Ok buf) r.

(* SRC truenas_xdr/src/lib.rs fn serialized_size *)
Definition serialized_size {A} `{!Serialize A} (value : A) : Result Z :=
  let '(r, counter) := to_writer {| counted := 0 |} value in
  outcome_bind (λ _, Ok counter.(counted)) r.

(* SRC truenas_xdr/src/lib.rs fn discriminant *)
Definition discriminant {A} `{!Serialize A} (value : A) : Result Z :=
  let '(r, rest) := to_writer {| filled := []; room := zeros 4 |} value in
  if is_ok r && bool_decide (rest.(room) = [])
  then Ok (swrap 32 (from_be_bytes (rest.(filled) ++ rest.(room))))
  else Err (Unsupported "a union discriminant that is not one XDR unit").

#[global] Instance Serialize_Ser : Serialize Ser := λ v, v.

(** ** Induction on the calls of an impl *)
Section Ser_induction.
Variable P : Ser → Prop.
Hypothesis leaf : ∀ v,
  match v with
  | SSome _ | SNewtypeStruct _ _ | SNewtypeVariant _ _ _ | SSeq _ _ | STuple _ _
  | STupleStruct _ _ _ | STupleVariant _ _ _ _ | SStruct _ _ _ | SStructVariant _ _ _ _ => True
  | _ => P v
  end.
Hypothesis some : ∀ v, P v → P (SSome v).
Hypothesis newtype_struct : ∀ name v, P v → P (SNewtypeStruct name v).
Hypothesis newtype_variant : ∀ name i v, P v → P (SNewtypeVariant name i v).
Hypothesis compound : ∀ vs, Forall P vs →
  (∀ c, P (SSeq c vs)) ∧ (∀ c, P (STuple c vs)) ∧ (∀ nm c, P (STupleStruct nm c vs)) ∧
  (∀ nm i c, P (STupleVariant nm i c vs)) ∧ (∀ nm c, P (SStruct nm c vs)) ∧
  (∀ nm i c, P (SStructVariant nm i c vs)).

Fixpoint Ser_induction (v : Ser) : P v :=
  let go := fix go (vs : list Ser) : Forall P vs :=
    match vs with
    | [] => Forall_nil_2 P
    | v :: vs => Forall_cons_2 P v vs (Ser_induction v) (go vs)
    end in
  match v with
  | SSome v => some v (Ser_induction v)
  | SNewtypeStruct nm v => newtype_struct nm v (Ser_induction v)
  | SNewtypeVariant nm i v => newtype_variant nm i v (Ser_induction v)
  | SSeq c vs => proj1 (compound vs (go vs)) c
  | STuple c vs => proj1 (proj2 (compound vs (go vs))) c
  | STupleStruct nm c vs => proj1 (proj2 (proj2 (compound vs (go vs)))) nm c
  | STupleVariant nm i c vs => proj1 (proj2 (proj2 (proj2 (compound vs (go vs))))) nm i c
  | SStruct nm c vs => proj1 (proj2 (proj2 (proj2 (proj2 (compound vs (go vs)))))) nm c
  | SStructVariant nm i c vs => proj2 (proj2 (proj2 (proj2 (proj2 (compound vs (go vs)))))) nm i c
  | v => leaf v
  end.
End Ser_induction.

(** ** Two sinks that agree

    The encoder touches its sink only through [write_all], so two sinks that
    stay related through every write give the same outcome.  The theorems on
    [serialized_size] and on appending to a buffer are its instances. *)
Section Related.
Context {W1 W2 : Type} `{!Write W1, !Write W2} (R : W1 → W2 → Prop).
Hypothesis write_related : ∀ bs a b, R a b →
  (write_all bs a).1 = (write_all bs b).1 ∧ R (write_all bs a).2 (write_all bs b).2.

Definition same_state (s1 : Serializer W1) (s2 : Serializer W2) : Prop :=
  R s1.(sink) s2.(sink) ∧ s1.(fixed_pending) = s2.(fixed_pending)
  ∧ s1.(bound_pending) = s2.(bound_pending).

Definition same_run {A} (m1 : St (Serializer W1) Error A) (m2 : St (Serializer W2) Error A) : Prop :=
  ∀ s1 s2, same_state s1 s2 → (m1 s1).1 = (m2 s2).1 ∧ same_state (m1 s1).2 (m2 s2).2.

Lemma same_ret {A} (a : A) : same_run (mret a) (mret a).
Proof. by intros s1 s2 H. Qed.

Lemma same_lift {A} (o : Outcome A Error) : same_run (lift o) (lift o).
Proof. by intros s1 s2 H. Qed.

Lemma same_fail {A} e : same_run (A:=A) (fail e) (fail e).
Proof. by intros s1 s2 H. Qed.

Lemma same_bind {A B} (m1 : St (Serializer W1) Error A) m2 (f1 : A → St (Serializer W1) Error B) f2 :
  same_run m1 m2 → (∀ a, same_run (f1 a) (f2 a)) → same_run (m1 ≫= f1) (m2 ≫= f2).
Proof.
  intros Hm Hf s1 s2 Hs. destruct (Hm s1 s2 Hs) as [Hr Hs']. unfold mbind, St_bind.
  destruct (m1 s1) as [r1 t1], (m2 s2) as [r2 t2]; simpl in *. subst r2.
  destruct r1; [by apply Hf|done|done].
Qed.

Lemma same_modify f1 f2 :
  (∀ s1 s2, same_state s1 s2 → same_state (f1 s1) (f2 s2)) → same_run (modify f1) (modify f2).
Proof. intros H s1 s2 Hs. split; [done|]. by apply H. Qed.

Lemma same_set_fixed b : same_run (modify (set_fixed b)) (modify (set_fixed b)).
Proof. apply same_modify. by intros s1 s2 (?&?&?). Qed.

Lemma same_set_bound b : same_run (modify (set_bound b)) (modify (set_bound b)).
Proof. apply same_modify. by intros s1 s2 (?&?&?). Qed.

Lemma same_put bs : same_run (put bs) (put bs).
Proof.
  intros s1 s2 (Hw & Hf & Hb). unfold put.
  destruct (write_related bs _ _ Hw) as [Hr Hw'].
  destruct (write_all bs s1.(sink)), (write_all bs s2.(sink)); simpl in *. by subst.
Qed.

Lemma same_take_bound : same_run take_bound take_bound.
Proof. intros s1 s2 (?&?&Hb). unfold take_bound. simpl. by rewrite Hb. Qed.

Lemma same_take_fixed : same_run take_fixed take_fixed.
Proof. intros s1 s2 (?&Hf&?). unfold take_fixed. simpl. by rewrite Hf. Qed.

Create HintDb same.
Hint Resolve same_ret same_lift same_fail same_bind same_set_fixed same_set_bound same_put
  same_take_bound same_take_fixed : same.

Lemma same_put_len l : same_run (put_len l) (put_len l).
Proof.
  apply same_bind; [auto with same|]. intros [max|]; apply same_bind; auto with same.
  - destruct (max <? l); auto with same.
  - intros _. destruct (try_unsigned 32 l); unfold put_u32; auto with same.
  - intros _. destruct (try_unsigned 32 l); unfold put_u32; auto with same.
Qed.

Lemma same_put_body v : same_run (put_body v) (put_body v).
Proof.
  apply same_bind; [auto with same|]. intros _. unfold put_pad.
  destruct (0 <? pad4 (len v)); auto with same.
Qed.
Hint Resolve same_put_len same_put_body : same.

Lemma same_elements vs :
  Forall (λ v, same_run (serialize v) (serialize v)) vs →
  same_run (serialize_elements (map serialize vs)) (serialize_elements (map serialize vs)).
Proof. induction 1; simpl; auto with same. Qed.

Theorem serialize_same v : same_run (serialize v) (serialize v).
Proof.
  revert v. apply Ser_induction; [intros v|intros v IH|intros nm v IH|intros nm i v IH|intros vs IH].
  - destruct v; simpl; try done; unfold serialize_bool, serialize_i8, serialize_i16, serialize_i32,
      serialize_i64, serialize_u8, serialize_u16, serialize_u32, serialize_u64, serialize_f32,
      serialize_f64, serialize_char, serialize_none, serialize_unit_variant, serialize_unit,
      serialize_unit_struct, serialize_map, put_u32, put_u64; auto with same.
    + apply same_bind; auto with same.
    + apply same_bind; [auto with same|]. intros []; auto with same.
  - simpl. unfold serialize_some, put_u32. auto with same.
  - simpl. unfold serialize_newtype_struct. case_bool_decide; auto with same.
  - simpl. unfold serialize_newtype_variant, put_u32. auto with same.
  - apply same_elements in IH. refine (conj _ (conj _ (conj _ (conj _ (conj _ _))))); intros; simpl;
      unfold serialize_seq, serialize_tuple, serialize_tuple_struct, serialize_tuple_variant,
        serialize_struct, serialize_struct_variant, put_u32; try case_bool_decide; auto 8 with same.
Qed.
End Related.

(** ** Whole units, and no panic

    Into a [Vec], every call leaves a whole number of XDR units behind, on its
    error paths as well, and never panics. *)
Definition aligned (bs : bytes) : Prop := len bs mod 4 = 0.

Definition in_units {A} (m : St (Serializer bytes) Error A) : Prop :=
  ∀ s, aligned s.(sink) →
    aligned (m s).2.(sink) ∧ match (m s).1 with Stop _ => False | _ => True end.

Lemma aligned_app a b : aligned a → aligned b → aligned (a ++ b).
Proof. unfold aligned. rewrite length_app, Nat2Z.inj_add, Z.add_mod by lia. by intros -> ->. Qed.

Lemma units_ret {A} (a : A) : in_units (mret a).
Proof. by intros s H. Qed.

Lemma units_fail {A} e : in_units (A:=A) (fail e).
Proof. by intros s H. Qed.

Lemma units_lift {A} (o : Outcome A Error) :
  match o with Stop _ => False | _ => True end → in_units (lift o).
Proof. by intros Ho s H. Qed.

Lemma units_bind {A B} (m : St (Serializer bytes) Error A) (f : A → St (Serializer bytes) Error B) :
  in_units m → (∀ a, in_units (f a)) → in_units (m ≫= f).
Proof.
  intros Hm Hf s Hs. destruct (Hm s Hs) as [Ha Hr]. unfold mbind, St_bind.
  destruct (m s) as [[a|e|w] t]; simpl in *; [by apply Hf|done|done].
Qed.

Lemma units_modify f : (∀ s, sink (f s) = sink s) → in_units (modify f).
Proof. intros Hf s Hs. split; [|done]. simpl. by rewrite Hf. Qed.

Lemma units_take_bound : in_units take_bound.
Proof. by intros s H. Qed.

Lemma units_take_fixed : in_units take_fixed.
Proof. by intros s H. Qed.

Lemma units_put bs : aligned bs → in_units (put bs).
Proof. intros Hb s Hs. split; [|done]. by apply aligned_app. Qed.

Lemma aligned_unit n z : Z.of_nat n mod 4 = 0 → aligned (to_be_bytes n z).
Proof. unfold aligned. by rewrite length_to_be_bytes. Qed.

(** The body of an opaque is its bytes and zeros up to a unit. *)
Lemma put_body_run v (s : Serializer bytes) :
  put_body v s = (Ok tt, set_sink (s.(sink) ++ v ++ zeros (pad4 (len v))) s).
Proof.
  unfold put_body, put_pad. pose proof (pad4_range (len v)) as Hp.
  step_ok. destruct (Z.ltb_spec 0 (pad4 (len v))) as [Hlt|Hge].
  - erewrite run_bind_ok by (unfold lift; rewrite slice_zeros by lia; reflexivity).
    unfold put, write_all, Write_Vec, set_sink. simpl. by rewrite <- app_assoc.
  - replace (pad4 (len v)) with 0 by lia. simpl. rewrite app_nil_r. done.
Qed.

Lemma units_put_body v : in_units (put_body v).
Proof.
  intros s Hs. rewrite put_body_run. split; [|done]. simpl. apply aligned_app; [done|].
  unfold aligned. rewrite length_app, Nat2Z.inj_add, len_pad. apply pad4_aligned.
Qed.

Create HintDb units.
#[export] Hint Resolve units_ret units_fail units_bind units_take_bound units_take_fixed units_put
  units_put_body : units.
#[export] Hint Extern 1 (in_units (modify _)) => apply units_modify; reflexivity : units.
#[export] Hint Extern 1 (aligned (to_be_bytes _ _)) => apply aligned_unit; reflexivity : units.

Lemma units_put_len l : in_units (put_len l).
Proof.
  apply units_bind; [auto with units|]. intros [max|]; (apply units_bind; [|intros _]).
  - destruct (max <? l); auto with units.
  - destruct (try_unsigned 32 l); unfold put_u32; auto with units.
  - auto with units.
  - destruct (try_unsigned 32 l); unfold put_u32; auto with units.
Qed.
#[export] Hint Resolve units_put_len : units.

Lemma units_elements vs :
  Forall (λ v, in_units (serialize v)) vs → in_units (serialize_elements (map serialize vs)).
Proof. induction 1; simpl; auto with units. Qed.

Theorem serialize_units v : in_units (serialize v).
Proof.
  revert v. apply Ser_induction; [intros v|intros v IH|intros nm v IH|intros nm i v IH|intros vs IH].
  - destruct v; simpl; try done; unfold serialize_bool, serialize_i8, serialize_i16, serialize_i32,
      serialize_i64, serialize_u8, serialize_u16, serialize_u32, serialize_u64, serialize_f32,
      serialize_f64, serialize_char, serialize_none, serialize_unit_variant, serialize_unit,
      serialize_unit_struct, serialize_map, put_u32, put_u64; auto with units.
    + apply units_bind; auto with units.
    + apply units_bind; [auto with units|]. intros []; auto with units.
  - simpl. unfold serialize_some, put_u32. auto with units.
  - simpl. unfold serialize_newtype_struct. case_bool_decide; auto with units.
  - simpl. unfold serialize_newtype_variant, put_u32. auto with units.
  - apply units_elements in IH.
    refine (conj _ (conj _ (conj _ (conj _ (conj _ _))))); intros; simpl;
      unfold serialize_seq, serialize_tuple, serialize_tuple_struct, serialize_tuple_variant,
        serialize_struct, serialize_struct_variant, put_u32; try case_bool_decide; auto 8 with units.
    apply units_bind; [|done]. apply units_bind; [|auto with units].
    apply units_lift. by destruct c.
Qed.

(** ** Encoding as a function

    [encodes v bs]: an encoder with no pending flag, whatever its buffer
    holds, appends [bs] for [v] and is left with no pending flag. *)
Definition encodes (v : Ser) (bs : bytes) : Prop :=
  ∀ pre : bytes, serialize v (new pre) = (Ok tt, new (pre ++ bs)).

(** [encodes_within max v bs]: the same under a bound on the next length. *)
Definition encodes_within (max : Z) (v : Ser) (bs : bytes) : Prop :=
  ∀ pre : bytes, serialize v (set_bound (Some max) (new pre)) = (Ok tt, new (pre ++ bs)).

Lemma encodes_aligned v bs : encodes v bs → aligned bs.
Proof.
  intros He. destruct (serialize_units v (new []) eq_refl) as [Ha _]. by rewrite He in Ha.
Qed.

Lemma encodes_inj v bs1 bs2 : encodes v bs1 → encodes v bs2 → bs1 = bs2.
Proof. intros H1 H2. specialize (H1 []). rewrite H2 in H1. by simplify_eq/=. Qed.

Lemma to_bytes_encodes v bs : encodes v bs → to_bytes v = Ok bs.
Proof. intros He. unfold to_bytes, to_writer, to_serde, Serialize_Ser. by rewrite He. Qed.

Lemma encodes_unit4 (m : St (Serializer bytes) Error unit) z pre :
  m = put_u32 z → m (new pre) = (Ok tt, new (pre ++ to_be_bytes 4 z)).
Proof. by intros ->. Qed.

(** The bytes an impl writes through a prefix-length call. *)
Lemma put_len_run l (s : Serializer bytes) :
  unsigned 32 l → (∀ max, s.(bound_pending) = Some max → l ≤ max) →
  put_len l s = (Ok tt, set_bound None (set_sink (s.(sink) ++ to_be_bytes 4 l) s)).
Proof.
  intros Hl Hb. unfold put_len. unfold take_bound at 1. erewrite run_bind_ok by reflexivity.
  unfold try_unsigned. rewrite decide_True by done.
  destruct (s.(bound_pending)) as [max|] eqn:Hm.
  - specialize (Hb max eq_refl). destruct (Z.ltb_spec max l); [lia|].
    erewrite run_bind_ok by reflexivity. done.
  - erewrite run_bind_ok by reflexivity. done.
Qed.

(** A length over the pending bound, or over 32 bits, is refused before
    anything is written. *)
Lemma put_len_refused l max (s : Serializer bytes) :
  s.(bound_pending) = Some max → max < l →
  put_len l s = (Err (TooLong l max), set_bound None s).
Proof.
  intros Hm Hl. unfold put_len. unfold take_bound at 1. erewrite run_bind_ok by reflexivity.
  rewrite Hm. destruct (Z.ltb_spec max l); [|lia]. done.
Qed.

Lemma encodes_str v : unsigned 32 (len v) →
  encodes (SStr v) (to_be_bytes 4 (len v) ++ v ++ zeros (pad4 (len v))).
Proof.
  intros Hl pre. simpl. unfold serialize_str. erewrite run_bind_ok by reflexivity.
  erewrite run_bind_ok by (by apply put_len_run). rewrite put_body_run. unfold set_sink, new. simpl.
  by rewrite !app_assoc.
Qed.

Lemma encodes_str_within max v : unsigned 32 (len v) → len v ≤ max →
  encodes_within max (SStr v) (to_be_bytes 4 (len v) ++ v ++ zeros (pad4 (len v))).
Proof.
  intros Hl Hm pre. simpl. unfold serialize_str. erewrite run_bind_ok by reflexivity.
  erewrite run_bind_ok.
  2: { apply put_len_run; [done|]. simpl. by intros ? [= ->]. }
  rewrite put_body_run. unfold set_sink, new. simpl. by rewrite !app_assoc.
Qed.

Lemma encodes_bytes v : unsigned 32 (len v) →
  encodes (SBytes v) (to_be_bytes 4 (len v) ++ v ++ zeros (pad4 (len v))).
Proof.
  intros Hl pre. simpl. unfold serialize_bytes. erewrite run_bind_ok by reflexivity. cbv beta iota.
  simpl. erewrite run_bind_ok by (by apply put_len_run). rewrite put_body_run.
  unfold set_sink, new. simpl. by rewrite !app_assoc.
Qed.

Lemma encodes_fixed v :
  encodes (SNewtypeStruct SENTINEL_FIXED (SBytes v)) (v ++ zeros (pad4 (len v))).
Proof.
  intros pre. simpl. unfold serialize_newtype_struct. rewrite bool_decide_true by done.
  erewrite run_bind_ok by reflexivity. unfold serialize_bytes.
  erewrite run_bind_ok by reflexivity. cbv beta iota. simpl. by rewrite put_body_run.
Qed.

Lemma encodes_none : encodes SNone (to_be_bytes 4 0).
Proof. by intros pre. Qed.

Lemma encodes_some v bs : encodes v bs → encodes (SSome v) (to_be_bytes 4 1 ++ bs).
Proof.
  intros Hv pre. simpl. unfold serialize_some. erewrite run_bind_ok by reflexivity.
  unfold set_sink. simpl. unfold write_all, Write_Vec. simpl.
  rewrite app_assoc. apply Hv.
Qed.

(** Elements in a row. *)
Lemma encodes_elements vs bss : Forall2 encodes vs bss →
  ∀ pre, serialize_elements (map serialize vs) (new pre) = (Ok tt, new (pre ++ concat bss)).
Proof.
  induction 1 as [|v bs vs bss Hv Hvs IH]; intros pre; simpl.
  - by rewrite app_nil_r.
  - erewrite run_bind_ok by apply Hv. by rewrite IH, app_assoc.
Qed.

Lemma encodes_struct nm c vs bss : Forall2 encodes vs bss → encodes (SStruct nm c vs) (concat bss).
Proof. intros H pre. simpl. erewrite run_bind_ok by reflexivity. by apply encodes_elements. Qed.

Lemma encodes_tuple c vs bss : Forall2 encodes vs bss → encodes (STuple c vs) (concat bss).
Proof. intros H pre. simpl. erewrite run_bind_ok by reflexivity. by apply encodes_elements. Qed.

Lemma encodes_seq c vs bss : unsigned 32 c → Forall2 encodes vs bss →
  encodes (SSeq (Some c) vs) (to_be_bytes 4 c ++ concat bss).
Proof.
  intros Hl H pre. simpl. erewrite run_bind_ok.
  2: { unfold serialize_seq. erewrite run_bind_ok by reflexivity. by apply put_len_run. }
  rewrite app_assoc. by apply encodes_elements.
Qed.

Lemma encodes_seq_within max c vs bss : unsigned 32 c → c ≤ max → Forall2 encodes vs bss →
  encodes_within max (SSeq (Some c) vs) (to_be_bytes 4 c ++ concat bss).
Proof.
  intros Hl Hm H pre. simpl. erewrite run_bind_ok.
  2: { unfold serialize_seq. erewrite run_bind_ok by reflexivity. apply put_len_run; [done|].
       simpl. by intros ? [= ->]. }
  rewrite app_assoc. by apply encodes_elements.
Qed.

Lemma encodes_bytes_within max v : unsigned 32 (len v) → len v ≤ max →
  encodes_within max (SBytes v) (to_be_bytes 4 (len v) ++ v ++ zeros (pad4 (len v))).
Proof.
  intros Hl Hm pre. simpl. unfold serialize_bytes. erewrite run_bind_ok by reflexivity.
  cbv beta iota. simpl. erewrite run_bind_ok.
  2: { apply put_len_run; [done|]. simpl. by intros ? [= ->]. }
  rewrite put_body_run. unfold set_sink, new. simpl. by rewrite !app_assoc.
Qed.

Lemma encodes_bounded max v bs : encodes_within max v bs →
  encodes (STupleStruct SENTINEL_BOUNDED max [v]) bs.
Proof.
  intros H pre. simpl. unfold serialize_tuple_struct. rewrite bool_decide_true by done.
  erewrite run_bind_ok by reflexivity. erewrite run_bind_ok by apply H. done.
Qed.

(** [refuses v e]: an encoder with no pending flag stops at [v] with [e]. *)
Definition refuses (v : Ser) (e : Error) : Prop :=
  ∀ pre : bytes, ∃ s, serialize v (new pre) = (Err e, s).

Lemma to_bytes_refuses v e : refuses v e → to_bytes v = Err e.
Proof.
  intros Hr. destruct (Hr []) as [s Hs]. unfold to_bytes, to_writer, to_serde, Serialize_Ser. by rewrite Hs.
Qed.

(** The first element that is refused decides. *)
Lemma elements_refuse vs1 bss v vs2 e : Forall2 encodes vs1 bss → refuses v e →
  ∀ pre : bytes, ∃ s, serialize_elements (map serialize (vs1 ++ v :: vs2)) (new pre) = (Err e, s).
Proof.
  intros H Hr. induction H as [|x bs vs bss Hx _ IH]; intros pre; simpl.
  - destruct (Hr pre) as [s Hs]. exists s. by rewrite (run_bind_err _ _ _ _ _ Hs).
  - destruct (IH (pre ++ bs)) as [s Hs]. exists s. by rewrite (run_bind_ok _ _ _ _ _ (Hx pre)).
Qed.

Lemma struct_refuses nm c vs1 bss v vs2 e : Forall2 encodes vs1 bss → refuses v e →
  refuses (SStruct nm c (vs1 ++ v :: vs2)) e.
Proof.
  intros H Hr pre. destruct (elements_refuse vs1 bss v vs2 e H Hr pre) as [s Hs].
  exists s. simpl. erewrite run_bind_ok by reflexivity. exact Hs.
Qed.

Lemma some_refuses v e : refuses v e → refuses (SSome v) e.
Proof.
  intros Hr pre. destruct (Hr (pre ++ to_be_bytes 4 1)) as [s Hs]. exists s. simpl. unfold serialize_some.
  erewrite run_bind_ok by reflexivity. exact Hs.
Qed.

(** A string over its bound. *)
Lemma bounded_str_refuses max v : max < len v →
  refuses (STupleStruct SENTINEL_BOUNDED max [SStr v]) (TooLong (len v) max).
Proof.
  intros Hl pre. eexists. simpl. unfold serialize_tuple_struct. rewrite bool_decide_true by done.
  erewrite run_bind_ok by reflexivity. erewrite run_bind_err; [reflexivity|].
  unfold serialize_str. erewrite run_bind_ok by reflexivity.
  erewrite run_bind_err; [reflexivity|]. by apply put_len_refused.
Qed.
