(* ===== verification/XdrDe.v ===== *)
(** The XDR decoder: [truenas_xdr/src/de.rs], and the decoding entry points of
    [lib.rs].

    A type's [Deserialize] impl calls one method of the decoder with a
    visitor; a visitor is what the impl does with what the method reads, so it
    is an argument of the method here: a function of the value for a scalar, a
    computation on the decoder for a nested value, a computation on the
    [SeqReader] for a compound one. *)
From S2P Require Import Prelude XdrBase.
Local Open Scope Z_scope.

(* SRC truenas_xdr/src/de.rs struct Deserializer *)
Record Deserializer : Type := {
  input : bytes;
  pos : Z;
  mode : Strictness;
  fixed_pending : bool;
  bound_pending : option Z;
  span_start : option Z;
  depth : Z;
  max_depth : Z
}.

Abbreviation De := (St Deserializer Error).

(** A [Deserialize] impl. *)
Class Deserialize (A : Type) : Type := deserialize : De A.

Definition set_pos (p : Z) (s : Deserializer) : Deserializer :=
  {| input := s.(input); pos := p; mode := s.(mode); fixed_pending := s.(fixed_pending);
     bound_pending := s.(bound_pending); span_start := s.(span_start);
     depth := s.(depth); max_depth := s.(max_depth) |}.
Definition set_fixed (b : bool) (s : Deserializer) : Deserializer :=
  {| input := s.(input); pos := s.(pos); mode := s.(mode); fixed_pending := b;
     bound_pending := s.(bound_pending); span_start := s.(span_start);
     depth := s.(depth); max_depth := s.(max_depth) |}.
Definition set_bound (b : option Z) (s : Deserializer) : Deserializer :=
  {| input := s.(input); pos := s.(pos); mode := s.(mode); fixed_pending := s.(fixed_pending);
     bound_pending := b; span_start := s.(span_start);
     depth := s.(depth); max_depth := s.(max_depth) |}.
Definition set_span (o : option Z) (s : Deserializer) : Deserializer :=
  {| input := s.(input); pos := s.(pos); mode := s.(mode); fixed_pending := s.(fixed_pending);
     bound_pending := s.(bound_pending); span_start := o;
     depth := s.(depth); max_depth := s.(max_depth) |}.
Definition set_depth (d : Z) (s : Deserializer) : Deserializer :=
  {| input := s.(input); pos := s.(pos); mode := s.(mode); fixed_pending := s.(fixed_pending);
     bound_pending := s.(bound_pending); span_start := s.(span_start);
     depth := d; max_depth := s.(max_depth) |}.

(* SRC truenas_xdr/src/de.rs const DEFAULT_MAX_DEPTH *)
Definition DEFAULT_MAX_DEPTH : Z := 128.

(* SRC truenas_xdr/src/de.rs fn new *)
Definition new (bs : bytes) (m : Strictness) : Deserializer :=
  {| input := bs; pos := 0; mode := m; fixed_pending := false; bound_pending := None;
     span_start := None; depth := 0; max_depth := DEFAULT_MAX_DEPTH |}.

(* SRC truenas_xdr/src/de.rs fn with_max_depth *)
Definition with_max_depth (d : Z) (s : Deserializer) : Deserializer :=
  {| input := s.(input); pos := s.(pos); mode := s.(mode); fixed_pending := s.(fixed_pending);
     bound_pending := s.(bound_pending); span_start := s.(span_start);
     depth := s.(depth); max_depth := d |}.

(* SRC truenas_xdr/src/de.rs fn remaining *)
Definition remaining (s : Deserializer) : Result bytes := slice s.(input) s.(pos) (len s.(input)).

(* SRC truenas_xdr/src/de.rs fn descend *)
Definition descend : De unit := λ s,
  if s.(depth) =? usize_max then (Stop Panicked, s) else
  let s := set_depth (s.(depth) + 1) s in
  if s.(max_depth) <? s.(depth) then (Err (RecursionLimit s.(max_depth)), s) else (Ok tt, s).

(* SRC truenas_xdr/src/de.rs fn ascend *)
Definition ascend : De unit := λ s,
  if s.(depth) =? 0 then (Stop Panicked, s) else (Ok tt, set_depth (s.(depth) - 1) s).

(* SRC truenas_xdr/src/de.rs fn take *)
Definition take (n : Z) : De bytes := λ s,
  let end_ := saturating_add s.(pos) n in
  if len s.(input) <? end_ then (Err (Eof (end_ - len s.(input))), s) else
  match slice s.(input) s.(pos) end_ with
  | Ok bs => (Ok bs, set_pos end_ s)
  | Err e => (Err e, s)
  | Stop w => (Stop w, s)
  end.

(* SRC truenas_xdr/src/de.rs fn read_u32 *)
Definition read_u32 : De Z := b ← take 4; mret (from_be_bytes b).

(* SRC truenas_xdr/src/de.rs fn read_u64 *)
Definition read_u64 : De Z := b ← take 8; mret (from_be_bytes b).

(* SRC truenas_xdr/src/de.rs fn read_pad *)
Definition read_pad (l : Z) : De unit :=
  let p := pad4 l in
  if 0 <? p then
    pad ← take p;
    s ← get;
    if bool_decide (s.(mode) = Strict) && existsb (λ b, bool_decide (b ≠ x00)) pad
    then fail NonZeroPadding
    else mret tt
  else mret tt.

(* SRC truenas_xdr/src/de.rs fn check_bound *)
Definition check_bound (l : Z) : De unit := λ s,
  let s' := set_bound None s in
  match s.(bound_pending) with
  | Some max => if max <? l then (Err (TooLong l max), s') else (Ok tt, s')
  | None => (Ok tt, s')
  end.

(* SRC truenas_xdr/src/de.rs fn read_opaque *)
Definition read_opaque : De bytes :=
  l ← read_u32;
  check_bound l;;
  data ← take l;
  read_pad l;;
  mret data.

(* SRC truenas_xdr/src/de.rs fn read_fixed *)
Definition read_fixed (n : Z) : De bytes :=
  data ← take n;
  read_pad n;;
  mret data.

(* SRC truenas_xdr/src/de.rs fn read_bool *)
Definition read_bool : De bool :=
  value ← read_u32;
  s ← get;
  if value =? 0 then mret false
  else if value =? 1 then mret true
  else if bool_decide (s.(mode) = Strict) then fail (InvalidBool value)
  else mret true.

(* SRC truenas_xdr/src/de.rs fn read_str *)
Definition read_str : De bytes :=
  bs ← read_opaque;
  if utf8_valid bs then
    s ← get;
    if bool_decide (s.(mode) = Strict) && contains_nul bs then fail EmbeddedNul else mret bs
  else fail Utf8.

(** ** Readers of compound values *)

(* SRC truenas_xdr/src/de.rs struct SeqReader *)
Record SeqReader : Type := { de : Deserializer; left : Z }.
Abbreviation Seq := (St SeqReader Error).

(* SRC truenas_xdr/src/de.rs fn seq *)
Definition seq {A} (n : Z) (visit_seq : Seq A) : De A := λ s,
  let '(r, reader) := visit_seq {| de := s; left := n |} in (r, reader.(de)).

(* SRC truenas_xdr/src/de.rs fn next_element_seed *)
Definition next_element_seed {T} (seed : De T) : Seq (option T) := λ r,
  if r.(left) =? 0 then (Ok None, r) else
  let '(v, s) := seed r.(de) in
  (outcome_bind (λ a, Ok (Some a)) v, {| de := s; left := r.(left) - 1 |}).

(* SRC truenas_xdr/src/de.rs fn size_hint *)
Definition size_hint (r : SeqReader) : option Z := Some r.(left).

(** A visitor of an enum is given the [EnumReader]: the index it carries, and
    the decoder the reader borrows. *)
(* SRC truenas_xdr/src/de.rs fn variant_seed *)
Definition variant_seed {V} (seed : Z → Result V) (variant_index : Z) : De V :=
  lift (seed variant_index).
(* SRC truenas_xdr/src/de.rs fn unit_variant *)
Definition unit_variant : De unit := mret tt.
(* SRC truenas_xdr/src/de.rs fn newtype_variant_seed *)
Definition newtype_variant_seed {T} (seed : De T) : De T := seed.
(* SRC truenas_xdr/src/de.rs fn tuple_variant *)
Definition tuple_variant {A} (n : Z) (visit_seq : Seq A) : De A := seq n visit_seq.
(* SRC truenas_xdr/src/de.rs fn struct_variant *)
Definition struct_variant {A} (fields : list string) (visit_seq : Seq A) : De A :=
  seq (len fields) visit_seq.

(** ** The methods of serde's [Deserializer] *)
Section Deserializer.
Context {A : Type}.

(* SRC truenas_xdr/src/de.rs fn deserialize_any *)
Definition deserialize_any : De A := fail (Unsupported "self-describing decoding").
(* SRC truenas_xdr/src/de.rs fn deserialize_ignored_any *)
Definition deserialize_ignored_any : De A := deserialize_any.
(* SRC truenas_xdr/src/de.rs fn deserialize_identifier *)
Definition deserialize_identifier : De A := deserialize_any.

(* SRC truenas_xdr/src/de.rs fn deserialize_bool *)
Definition deserialize_bool (visit_bool : bool → Result A) : De A :=
  b ← read_bool; lift (visit_bool b).
(* SRC truenas_xdr/src/de.rs fn deserialize_i8 *)
Definition deserialize_i8 (visit_i8 : Z → Result A) : De A :=
  x ← read_u32; v ← lift (ok_or (try_signed 8 (swrap 32 x)) Range); lift (visit_i8 v).
(* SRC truenas_xdr/src/de.rs fn deserialize_i16 *)
Definition deserialize_i16 (visit_i16 : Z → Result A) : De A :=
  x ← read_u32; v ← lift (ok_or (try_signed 16 (swrap 32 x)) Range); lift (visit_i16 v).
(* SRC truenas_xdr/src/de.rs fn deserialize_i32 *)
Definition deserialize_i32 (visit_i32 : Z → Result A) : De A :=
  x ← read_u32; lift (visit_i32 (swrap 32 x)).
(* SRC truenas_xdr/src/de.rs fn deserialize_i64 *)
Definition deserialize_i64 (visit_i64 : Z → Result A) : De A :=
  x ← read_u64; lift (visit_i64 (swrap 64 x)).
(* SRC truenas_xdr/src/de.rs fn deserialize_u8 *)
Definition deserialize_u8 (visit_u8 : Z → Result A) : De A :=
  x ← read_u32; v ← lift (ok_or (try_unsigned 8 x) Range); lift (visit_u8 v).
(* SRC truenas_xdr/src/de.rs fn deserialize_u16 *)
Definition deserialize_u16 (visit_u16 : Z → Result A) : De A :=
  x ← read_u32; v ← lift (ok_or (try_unsigned 16 x) Range); lift (visit_u16 v).
(* SRC truenas_xdr/src/de.rs fn deserialize_u32 *)
Definition deserialize_u32 (visit_u32 : Z → Result A) : De A :=
  x ← read_u32; lift (visit_u32 x).
(* SRC truenas_xdr/src/de.rs fn deserialize_u64 *)
Definition deserialize_u64 (visit_u64 : Z → Result A) : De A :=
  x ← read_u64; lift (visit_u64 x).
(* SRC truenas_xdr/src/de.rs fn deserialize_f32 *)
Definition deserialize_f32 (visit_f32 : Z → Result A) : De A :=
  x ← read_u32; lift (visit_f32 x).
(* SRC truenas_xdr/src/de.rs fn deserialize_f64 *)
Definition deserialize_f64 (visit_f64 : Z → Result A) : De A :=
  x ← read_u64; lift (visit_f64 x).
(* SRC truenas_xdr/src/de.rs fn deserialize_char *)
Definition deserialize_char (visit_char : Z → Result A) : De A :=
  x ← read_u32;
  if is_char x then lift (visit_char x) else fail Range.

(* SRC truenas_xdr/src/de.rs fn deserialize_str *)
Definition deserialize_str (visit_borrowed_str : bytes → Result A) : De A :=
  v ← read_str; lift (visit_borrowed_str v).
(* SRC truenas_xdr/src/de.rs fn deserialize_string *)
Definition deserialize_string (visit_str : bytes → Result A) : De A :=
  v ← read_str; lift (visit_str v).
(* SRC truenas_xdr/src/de.rs fn deserialize_bytes *)
Definition deserialize_bytes (visit_borrowed_bytes : bytes → Result A) : De A :=
  v ← read_opaque; lift (visit_borrowed_bytes v).
(* SRC truenas_xdr/src/de.rs fn deserialize_byte_buf *)
Definition deserialize_byte_buf (visit_byte_buf : bytes → Result A) : De A :=
  v ← read_opaque; lift (visit_byte_buf v).

(* SRC truenas_xdr/src/de.rs fn deserialize_option *)
Definition deserialize_option (visit_some : De A) (visit_none : Result A) : De A :=
  present ← read_bool;
  if present : bool then descend;; finally visit_some ascend else lift visit_none.

(* SRC truenas_xdr/src/de.rs fn deserialize_unit *)
Definition deserialize_unit (visit_unit : Result A) : De A := lift visit_unit.
(* SRC truenas_xdr/src/de.rs fn deserialize_unit_struct *)
Definition deserialize_unit_struct (name : string) (visit_unit : Result A) : De A :=
  lift visit_unit.

(* SRC truenas_xdr/src/de.rs fn deserialize_newtype_struct *)
Definition deserialize_newtype_struct (name : string) (visit_newtype_struct : De A)
    (visit_borrowed_bytes : bytes → Result A) : De A :=
  if bool_decide (name = SENTINEL_ARRAY_REF) then
    s ← get;
    start ← lift (ok_or s.(span_start)
                    (Unsupported "the span of an array that was not marked"));
    span ← lift (slice s.(input) start s.(pos));
    lift (visit_borrowed_bytes span)
  else
    (if bool_decide (name = SENTINEL_FIXED) then modify (set_fixed true) else mret tt);;
    descend;;
    finally visit_newtype_struct ascend.

(* SRC truenas_xdr/src/de.rs fn deserialize_seq *)
Definition deserialize_seq (visit_seq : Seq A) : De A :=
  count ← read_u32;
  check_bound count;;
  s ← get;
  tail ← lift (remaining s);
  let rem := len tail in
  if rem / BYTES_PER_XDR_UNIT <? count then
    fail (Eof (saturating_sub (saturating_mul count BYTES_PER_XDR_UNIT) rem))
  else
    descend;;
    finally (seq count visit_seq) ascend.

(* SRC truenas_xdr/src/de.rs fn deserialize_tuple *)
Definition deserialize_tuple (n : Z) (visit_seq : Seq A)
    (visit_borrowed_bytes : bytes → Result A) : De A := λ s,
  (if s.(fixed_pending) then
     bs ← read_fixed n;
     lift (visit_borrowed_bytes bs)
   else
     descend;;
     finally (seq n visit_seq) ascend) (set_fixed false s).

(* SRC truenas_xdr/src/de.rs fn deserialize_tuple_struct *)
Definition deserialize_tuple_struct (name : string) (n : Z) (visit_seq : Seq A)
    (visit_newtype_struct : De A) : De A :=
  descend;;
  finally
    (if bool_decide (name = SENTINEL_BOUNDED) then
       modify (set_bound (Some n));;
       visit_newtype_struct
     else if bool_decide (name = SENTINEL_ARRAY_REF) then
       s ← get;
       modify (set_span (Some s.(pos)));;
       finally (seq n visit_seq) (modify (set_span s.(span_start)))
     else seq n visit_seq)
    ascend.

(* SRC truenas_xdr/src/de.rs fn deserialize_map *)
Definition deserialize_map : De A := fail (Unsupported "maps").

(* SRC truenas_xdr/src/de.rs fn deserialize_struct *)
Definition deserialize_struct (name : string) (fields : list string) (visit_seq : Seq A) : De A :=
  descend;;
  finally (seq (len fields) visit_seq) ascend.

(* SRC truenas_xdr/src/de.rs fn deserialize_enum *)
Definition deserialize_enum (name : string) (variants : list string)
    (visit_enum : Z → De A) : De A :=
  tag ← read_u32;
  descend;;
  finally (visit_enum tag) ascend.

End Deserializer.

(** ** Entry points *)

(* SRC truenas_xdr/src/lib.rs fn from_prefix_with *)
Definition from_prefix_with {A} `{!Deserialize A} (bs : bytes) (m : Strictness) :
    Result (A * bytes) :=
  let '(r, s) := deserialize (new bs m) in
  outcome_bind (λ value, outcome_bind (λ rest, Ok (value, rest)) (remaining s)) r.

(* SRC truenas_xdr/src/lib.rs fn from_bytes_with *)
Definition from_bytes_with {A} `{!Deserialize A} (bs : bytes) (m : Strictness) : Result A :=
  outcome_bind (λ '(value, rest),
    if bool_decide (rest = []) then Ok value else Err (TrailingBytes (len rest)))
    (from_prefix_with bs m).

(* SRC truenas_xdr/src/lib.rs fn from_prefix *)
Definition from_prefix {A} `{!Deserialize A} (bs : bytes) : Result (A * bytes) :=
  from_prefix_with bs Lenient.

(* SRC truenas_xdr/src/lib.rs fn from_bytes *)
Definition from_bytes {A} `{!Deserialize A} (bs : bytes) : Result A :=
  from_bytes_with bs Lenient.
