(* ===== verification/XdrDeSafe.v ===== *)
(** Safety of the decoder of [truenas_xdr/src/de.rs]: every [Deserialize] impl
    that reaches the decoder through its methods leaves it consistent, moves
    only forward, in whole XDR units, keeps its nesting depth balanced, and
    never panics. *)
From S2P Require Import Prelude XdrBase XdrDe.
Local Open Scope Z_scope.

(** ** The invariant *)

(** What holds of a decoder between two calls. *)
Record wf (s : Deserializer) : Prop := {
  wf_pos : 0 ≤ s.(pos) ≤ len s.(input);
  wf_input : len s.(input) ≤ isize_max;
  wf_depth : 0 ≤ s.(depth) ≤ s.(max_depth);
  wf_limit : s.(max_depth) ≤ usize_max;
  wf_span : ∀ p, s.(span_start) = Some p → 0 ≤ p ≤ s.(pos)
}.

(** What no call changes. *)
Record kept (s s' : Deserializer) : Prop := {
  kept_input : s'.(input) = s.(input);
  kept_mode : s'.(mode) = s.(mode);
  kept_limit : s'.(max_depth) = s.(max_depth);
  kept_span : s'.(span_start) = s.(span_start);
  kept_pos : s.(pos) ≤ s'.(pos) ≤ len s.(input)
}.

(** What a call that gave [r] and left [s'] did to [s].  The depth counter is
    a [usize], so it can only overflow where the limit is [usize::MAX]. *)
Definition post {A} (s : Deserializer) (r : Outcome A Error) (s' : Deserializer) : Prop :=
  match r with
  | Ok _ => kept s s' ∧ s'.(depth) = s.(depth) ∧ (s'.(pos) - s.(pos)) mod 4 = 0
  | Err _ => kept s s' ∧ s.(depth) ≤ s'.(depth) ≤ s.(max_depth) + 1
  | Stop w => w = OutOfFuel ∨ s.(max_depth) = usize_max
  end.

Definition sane {A} (m : De A) : Prop := ∀ s, wf s → post s (m s).1 (m s).2.

Definition sane_seq {A} (m : Seq A) : Prop := ∀ r, wf r.(de) → 0 ≤ r.(left) →
  post r.(de) (m r).1 (m r).2.(de) ∧ 0 ≤ (m r).2.(left) ≤ r.(left).

Definition quiet {A} (r : Result A) : Prop := r ≠ Stop Panicked.

Lemma kept_refl s : wf s → kept s s.
Proof. intros []. split; try done; lia. Qed.

Lemma kept_trans s1 s2 s3 : kept s1 s2 → kept s2 s3 → kept s1 s3.
Proof. intros [] []. split; try congruence. rewrite <- kept_input0. lia. Qed.

Lemma kept_wf s s' : wf s → kept s s' → s'.(depth) = s.(depth) → wf s'.
Proof.
  intros [] [] Hd. split; rewrite ?kept_input0, ?kept_limit0, ?Hd; try lia.
  intros p. rewrite kept_span0. intros Hp%wf_span0. lia.
Qed.

Lemma mod4_add a b c : (b - a) mod 4 = 0 → (c - b) mod 4 = 0 → (c - a) mod 4 = 0.
Proof. intros. replace (c - a) with ((b - a) + (c - b)) by lia. rewrite Z.add_mod by lia. by rewrite H, H0. Qed.

Lemma post_trans {A B} s1 (a : A) s2 (r : Outcome B Error) s3 :
  post s1 (Ok a) s2 → post s2 r s3 → post s1 r s3.
Proof.
  intros [H1 [Hd1 Hp1]] Hr. destruct r as [b|e|w]; [| |by simpl in *; rewrite <- (kept_limit _ _ H1)].
  - destruct Hr as (H2 & Hd2 & Hp2).
    split; [by eapply kept_trans|]. split; [congruence|by eapply mod4_add].
  - destruct Hr as [H2 Hd2]. split; [by eapply kept_trans|].
    rewrite (kept_limit _ _ H1), Hd1 in Hd2. done.
Qed.

Lemma post_wf {A} s (a : A) s' : wf s → post s (Ok a) s' → wf s'.
Proof. intros Hs [Hk [Hd _]]. by eapply kept_wf. Qed.

Lemma post_err {A B} s e s' : post (A:=A) s (Err e) s' → post (A:=B) s (Err e) s'.
Proof. done. Qed.

Lemma sane_ret {A} (a : A) : sane (mret a).
Proof. intros s Hs. rewrite run_ret. split; [by apply kept_refl|]. simpl. by rewrite Z.sub_diag. Qed.

Lemma sane_lift {A} (r : Result A) : quiet r → sane (lift r).
Proof.
  intros Hr s Hs. simpl. destruct r as [a|e|[]]; [| |by destruct Hr|by left];
    (split; [by apply kept_refl|]).
  - by rewrite Z.sub_diag.
  - destruct Hs. lia.
Qed.

Lemma sane_fail {A} e : sane (A:=A) (fail e).
Proof. intros s Hs. split; [by apply kept_refl|]. simpl. destruct Hs. lia. Qed.

Lemma sane_fuel {A} : sane (A:=A) (halt OutOfFuel).
Proof. intros s Hs. by left. Qed.

Lemma sane_bind {A B} (m : De A) (f : A → De B) : sane m → (∀ a, sane (f a)) → sane (m ≫= f).
Proof.
  intros Hm Hf s Hs. specialize (Hm s Hs). unfold mbind, St_bind.
  destruct (m s) as [[a|e|w] s1]; cbn [fst snd] in *; [|done|done].
  eapply post_trans; [done|]. apply Hf. by eapply post_wf.
Qed.

(** [get] gives a state that satisfies the invariant. *)
Lemma sane_get {A} (f : Deserializer → De A) :
  (∀ s, wf s → post s (f s s).1 (f s s).2) → sane (get ≫= f).
Proof. intros H s Hs. by apply H. Qed.

Lemma sane_flags f : (∀ s, ∃ b o, f s = set_fixed b (set_bound o s)) → sane (modify f).
Proof.
  intros Hf s Hs. destruct (Hf s) as (b & o & Heq). simpl. rewrite Heq.
  destruct Hs. do 2 (split; try done); simpl; [lia|]. by rewrite Z.sub_diag.
Qed.

(** The flags a decoder carries do not bear on the invariant. *)
Lemma sane_under {A} (k : De A) f :
  (∀ s, ∃ b o, f s = set_fixed b (set_bound o s)) → sane k → sane (λ s, k (f s)).
Proof.
  intros Hf Hk s Hs. destruct (Hf s) as (b & o & Heq). rewrite Heq.
  assert (wf (set_fixed b (set_bound o s))) as Hw by (by destruct Hs).
  pose proof (Hk _ Hw) as Hr. destruct (k _) as [[a|e|w] s']; simpl in *; [| |done].
  - destruct Hr as ([] & ? & ?). done.
  - destruct Hr as ([] & ?). done.
Qed.

(** ** The cursor *)
Lemma saturating_add_fits a b c : a + b ≤ c → c ≤ isize_max → saturating_add a b = a + b.
Proof. unfold saturating_add, usize_max, isize_max. lia. Qed.

Lemma take_spec n s : wf s → 0 ≤ n →
  (n ≤ len s.(input) - s.(pos) ∧
   take n s = (Ok (firstn (Z.to_nat n) (skipn (Z.to_nat s.(pos)) s.(input))), set_pos (s.(pos) + n) s))
  ∨ (len s.(input) - s.(pos) < n ∧
     ∃ need, 0 < need ∧ take n s = (Err (Eof need), s)).
Proof.
  intros [] Hn. unfold take.
  destruct (decide (n ≤ len s.(input) - s.(pos))) as [Hle|Hgt].
  - left. split; [done|].
    rewrite (saturating_add_fits _ _ (len s.(input))) by lia.
    destruct (Z.ltb_spec (len s.(input)) (s.(pos) + n)); [lia|].
    unfold slice. rewrite decide_True by lia. by replace (pos s + n - pos s) with n by lia.
  - right. split; [lia|]. exists (saturating_add s.(pos) n - len s.(input)).
    assert (len s.(input) < saturating_add s.(pos) n) as Hlt.
    { unfold saturating_add, usize_max, isize_max in *. lia. }
    split; [lia|]. destruct (Z.ltb_spec (len s.(input)) (saturating_add s.(pos) n)); [done|lia].
Qed.

(** ** The methods *)

(** A whole number of units read at once. *)
Lemma sane_take_units n : 0 ≤ n → n mod 4 = 0 → sane (take n).
Proof.
  intros Hn H4 s Hs. destruct (take_spec n s Hs Hn) as [[Hle ->]|[Hgt (need & _ & ->)]].
  - simpl. destruct Hs. split; [split; simpl; try done; lia|]. simpl.
    by replace (pos s + n - pos s) with n by lia.
  - apply sane_fail. exact Hs.
Qed.

Lemma sane_read_u32 : sane read_u32.
Proof. apply sane_bind; [by apply sane_take_units|]. intros b. apply sane_ret. Qed.

Lemma sane_read_u64 : sane read_u64.
Proof. apply sane_bind; [by apply sane_take_units|]. intros b. apply sane_ret. Qed.

(** A call that only moves the cursor, by [k] bytes, or fails on the way. *)
Lemma set_pos_id s : set_pos (pos s) s = s.
Proof. by destruct s. Qed.

Lemma set_pos_wf p s : wf s → pos s ≤ p ≤ len (input s) → wf (set_pos p s).
Proof. intros [] Hp. split; simpl; try done; try lia. intros q Hq%wf_span0. lia. Qed.

Lemma kept_set_pos p s : wf s → pos s ≤ p ≤ len (input s) → kept s (set_pos p s).
Proof. intros [] Hp. by split. Qed.

Lemma read_pad_spec n s : wf s →
  (pad4 n ≤ len (input s) - pos s ∧
   (mode s = Strict → firstn (Z.to_nat (pad4 n)) (skipn (Z.to_nat (pos s)) (input s)) = zeros (pad4 n)) ∧
   read_pad n s = (Ok tt, set_pos (pos s + pad4 n) s))
  ∨ (∃ e p, pos s ≤ p ≤ len (input s) ∧ read_pad n s = (Err e, set_pos p s)).
Proof.
  intros Hs. pose proof (pad4_range n) as Hp. pose proof (wf_pos _ Hs).
  unfold read_pad. destruct (Z.ltb_spec 0 (pad4 n)) as [Hlt|Hge].
  2: { left. replace (pad4 n) with 0 by lia. rewrite Z.add_0_r, set_pos_id.
       split; [lia|]. by rewrite zeros_0. }
  destruct (take_spec (pad4 n) s Hs (proj1 Hp)) as [[Hle Ht]|[Hgt (need & _ & Ht)]].
  2: { right. exists (Eof need), (pos s). split; [lia|]. by rewrite (run_bind_err _ _ _ _ _ Ht), set_pos_id. }
  rewrite (run_bind_ok _ _ _ _ _ Ht), run_get. simpl.
  set (pad := firstn _ _). destruct (bool_decide (mode s = Strict) && _) eqn:Hz.
  - right. exists NonZeroPadding, (pos s + pad4 n). split; [lia|done].
  - left. split; [done|]. split; [|done]. intros Hm. rewrite bool_decide_true in Hz by done. simpl in Hz.
    rewrite (zeros_unique pad) by (by apply not_true_iff_false in Hz).
    f_equal. subst pad. rewrite length_take, length_drop. lia.
Qed.

(** [n] bytes and their padding make whole units. *)
Lemma read_fixed_spec n s : wf s → 0 ≤ n →
  (n + pad4 n ≤ len (input s) - pos s ∧
   (mode s = Strict → firstn (Z.to_nat (pad4 n)) (skipn (Z.to_nat (pos s + n)) (input s)) = zeros (pad4 n)) ∧
   read_fixed n s = (Ok (firstn (Z.to_nat n) (skipn (Z.to_nat (pos s)) (input s))),
                     set_pos (pos s + (n + pad4 n)) s))
  ∨ (∃ e p, pos s ≤ p ≤ len (input s) ∧ read_fixed n s = (Err e, set_pos p s)).
Proof.
  intros Hs Hn. unfold read_fixed. pose proof (wf_pos _ Hs).
  destruct (take_spec n s Hs Hn) as [[Hle Ht]|[Hgt (need & _ & Ht)]].
  2: { right. exists (Eof need), (pos s). split; [lia|]. by rewrite (run_bind_err _ _ _ _ _ Ht), set_pos_id. }
  rewrite (run_bind_ok _ _ _ _ _ Ht).
  destruct (read_pad_spec n (set_pos (pos s + n) s)) as [(Hp & Hz & Hr)|(e & p & Hp & Hr)].
  { apply set_pos_wf; [done|lia]. }
  - left. simpl in *. split; [lia|]. split; [done|].
    rewrite (run_bind_ok _ _ _ _ _ Hr). unfold set_pos. simpl.
    by replace (pos s + n + pad4 n) with (pos s + (n + pad4 n)) by lia.
  - right. simpl in *. exists e, p. split; [lia|]. by rewrite (run_bind_err _ _ _ _ _ Hr).
Qed.

Lemma sane_read_fixed n : 0 ≤ n → sane (read_fixed n).
Proof.
  intros Hn s Hs. pose proof (wf_pos _ Hs). pose proof (wf_depth _ Hs).
  destruct (read_fixed_spec n s Hs Hn) as [(Hle & _ & ->)|(e & p & Hp & ->)]; simpl.
  - pose proof (pad4_range n). split; [apply kept_set_pos; [done|lia]|]. simpl. split; [done|].
    replace (_ - pos s) with (n + pad4 n) by lia. apply pad4_aligned.
  - split; [by apply kept_set_pos|]. simpl. lia.
Qed.

Lemma sane_check_bound l : sane (check_bound l).
Proof.
  intros s Hs. unfold check_bound.
  assert (kept s (set_bound None s)) as Hk by (destruct Hs; split; simpl; try done; lia).
  destruct (bound_pending s) as [max|]; [destruct (max <? l)|]; split; simpl; try done;
    rewrite ?Z.sub_diag; try done. destruct Hs. lia.
Qed.

(** [read_opaque] is [read_fixed] at the length it reads. *)
Lemma read_opaque_unfold : read_opaque = (l ← read_u32; check_bound l;; read_fixed l).
Proof. reflexivity. Qed.

(** A value read from the wire is unsigned. *)
Lemma read_u32_range s v s' : read_u32 s = (Ok v, s') → unsigned 32 v.
Proof.
  unfold read_u32. intros H. bind_inv.
  unfold take in Hrun. case_match; [done|]. unfold slice in Hrun. case_decide; [|done]. simplify_eq.
  pose proof (from_be_bytes_range (firstn (Z.to_nat (saturating_add (pos s) 4 - pos s))
    (skipn (Z.to_nat (pos s)) (input s)))) as Hr.
  eapply (λ H, conj (proj1 Hr) (Z.lt_le_trans _ _ _ (proj2 Hr) H)).
  apply Z.pow_le_mono_r; [lia|]. rewrite length_take.
  unfold saturating_add. lia.
Qed.

Lemma sane_read_u32_then {A} (f : Z → De A) :
  (∀ v, unsigned 32 v → sane (f v)) → sane (read_u32 ≫= f).
Proof.
  intros Hf s Hs. pose proof (sane_read_u32 s Hs) as Hr.
  destruct (read_u32 s) as [[v|e|w] s1] eqn:Hrun.
  - erewrite run_bind_ok by done. eapply post_trans; [exact Hr|].
    apply Hf; [by eapply read_u32_range|by eapply post_wf].
  - erewrite run_bind_err by done. exact Hr.
  - unfold mbind, St_bind. rewrite Hrun. simpl. done.
Qed.

Lemma sane_read_opaque : sane read_opaque.
Proof.
  rewrite read_opaque_unfold. apply sane_read_u32_then. intros l Hl.
  apply sane_bind; [apply sane_check_bound|]. intros _. apply sane_read_fixed, Hl.
Qed.

Lemma sane_read_bool : sane read_bool.
Proof.
  apply sane_bind; [apply sane_read_u32|]. intros v. apply sane_get. intros s Hs.
  case_match; [by apply sane_ret|]. case_match; [by apply sane_ret|].
  case_match; [by apply sane_fail|by apply sane_ret].
Qed.

Lemma sane_read_str : sane read_str.
Proof.
  apply sane_bind; [apply sane_read_opaque|]. intros bs. case_match; [|apply sane_fail].
  apply sane_get. intros s Hs. case_match; [by apply sane_fail|by apply sane_ret].
Qed.

(** ** Descents *)

(** One level down, the visitor, and back up: what every compound does. *)
Lemma sane_nested {A} (m : De A) : sane m → sane (descend;; finally m ascend).
Proof.
  intros Hm s Hs. unfold mbind, St_bind, descend.
  destruct (Z.eqb_spec (depth s) usize_max) as [Heq|Hne]; [right; destruct Hs; lia|].
  destruct (Z.ltb_spec (max_depth s) (depth s + 1)) as [Hlt|Hge]; simpl.
  - destruct (Z.ltb_spec (max_depth s) (depth s + 1)); [|lia]. destruct Hs.
    split; [split; simpl; try done; lia|]. simpl. lia.
  - destruct (Z.ltb_spec (max_depth s) (depth s + 1)); [lia|]. simpl.
    set (s1 := set_depth (depth s + 1) s).
    assert (wf s1) as Hs1 by (destruct Hs; split; simpl; try done; lia).
    pose proof (Hm s1 Hs1) as Hr. unfold finally.
    destruct (m s1) as [[a|e|w] s2]; simpl in *.
    + destruct Hr as (Hk & Hd & Hp). unfold ascend. destruct (Z.eqb_spec (depth s2) 0); [destruct Hs; lia|].
      simpl. destruct Hk. split; [split; done|]. simpl. split; [lia|done].
    + destruct Hr as (Hk & Hd).
      unfold ascend. destruct (Z.eqb_spec (depth s2) 0); [destruct Hs; lia|].
      simpl. destruct Hk. split; [split; done|]. simpl. lia.
    + done.
Qed.

Lemma sane_seq_of {A} n (v : Seq A) : 0 ≤ n → sane_seq v → sane (seq n v).
Proof.
  intros Hn Hv s Hs. unfold seq. destruct (Hv {| de := s; left := n |} Hs Hn) as [Hp _].
  by destruct (v _) as [r r'].
Qed.

Lemma seq_ret {A} (a : A) : sane_seq (mret a).
Proof.
  intros r Hr Hl. rewrite run_ret. split; [|simpl; lia]. split; [by apply kept_refl|]. simpl.
  by rewrite Z.sub_diag.
Qed.

Lemma seq_lift {A} (o : Result A) : quiet o → sane_seq (lift o).
Proof. intros Ho r Hr Hl. split; [|simpl; lia]. by apply (sane_lift o Ho). Qed.

Lemma seq_fuel {A} : sane_seq (A:=A) (halt OutOfFuel).
Proof. intros r Hr Hl. split; [by left|simpl; lia]. Qed.

Lemma seq_bind {A B} (m : Seq A) (f : A → Seq B) :
  sane_seq m → (∀ a, sane_seq (f a)) → sane_seq (m ≫= f).
Proof.
  intros Hm Hf r Hr Hl. destruct (Hm r Hr Hl) as [Hp Hl']. unfold mbind, St_bind.
  destruct (m r) as [[a|e|w] r1]; cbn [fst snd] in *; [|done|done].
  destruct (Hf a r1) as [Hp2 Hl2]; [by eapply post_wf|lia|].
  split; [by eapply post_trans|lia].
Qed.

Lemma seq_next {T} (d : De T) : sane d → sane_seq (next_element_seed d).
Proof.
  intros Hd r Hr Hl. unfold next_element_seed. destruct (Z.eqb_spec r.(left) 0) as [Hz|Hnz].
  - split; [|simpl; lia]. split; [by apply kept_refl|]. simpl. by rewrite Z.sub_diag.
  - specialize (Hd _ Hr). destruct (d r.(de)) as [[a|e|w] s']; simpl in *; (split; [done|lia]).
Qed.

(** ** Every impl

    [DeImpl d]: [d] is a [Deserialize] impl built from the decoder's methods,
    with visitors that do not panic themselves; [SeqImpl] likewise for what a
    visitor does with a [SeqReader].  A recursive impl is one given fuel. *)
Inductive DeImpl : ∀ A : Type, De A → Prop :=
| impl_any A : DeImpl A deserialize_any
| impl_bool A v : (∀ x, quiet (v x)) → DeImpl A (deserialize_bool v)
| impl_i8 A v : (∀ x, quiet (v x)) → DeImpl A (deserialize_i8 v)
| impl_i16 A v : (∀ x, quiet (v x)) → DeImpl A (deserialize_i16 v)
| impl_i32 A v : (∀ x, quiet (v x)) → DeImpl A (deserialize_i32 v)
| impl_i64 A v : (∀ x, quiet (v x)) → DeImpl A (deserialize_i64 v)
| impl_u8 A v : (∀ x, quiet (v x)) → DeImpl A (deserialize_u8 v)
| impl_u16 A v : (∀ x, quiet (v x)) → DeImpl A (deserialize_u16 v)
| impl_u32 A v : (∀ x, quiet (v x)) → DeImpl A (deserialize_u32 v)
| impl_u64 A v : (∀ x, quiet (v x)) → DeImpl A (deserialize_u64 v)
| impl_f32 A v : (∀ x, quiet (v x)) → DeImpl A (deserialize_f32 v)
| impl_f64 A v : (∀ x, quiet (v x)) → DeImpl A (deserialize_f64 v)
| impl_char A v : (∀ x, quiet (v x)) → DeImpl A (deserialize_char v)
| impl_str A v : (∀ x, quiet (v x)) → DeImpl A (deserialize_str v)
| impl_string A v : (∀ x, quiet (v x)) → DeImpl A (deserialize_string v)
| impl_bytes A v : (∀ x, quiet (v x)) → DeImpl A (deserialize_bytes v)
| impl_byte_buf A v : (∀ x, quiet (v x)) → DeImpl A (deserialize_byte_buf v)
| impl_option A some none : DeImpl A some → quiet none → DeImpl A (deserialize_option some none)
| impl_unit A v : quiet v → DeImpl A (deserialize_unit v)
| impl_unit_struct A name v : quiet v → DeImpl A (deserialize_unit_struct name v)
| impl_newtype A name v vb : DeImpl A v → (∀ x, quiet (vb x)) →
    DeImpl A (deserialize_newtype_struct name v vb)
| impl_seq A v : SeqImpl A v → DeImpl A (deserialize_seq v)
| impl_tuple A n v vb : 0 ≤ n → SeqImpl A v → (∀ x, quiet (vb x)) →
    DeImpl A (deserialize_tuple n v vb)
| impl_tuple_struct A name n v vn : 0 ≤ n → SeqImpl A v → DeImpl A vn →
    DeImpl A (deserialize_tuple_struct name n v vn)
| impl_map A : DeImpl A deserialize_map
| impl_struct A name fields v : SeqImpl A v → DeImpl A (deserialize_struct name fields v)
| impl_enum A name variants v : (∀ i, DeImpl A (v i)) → DeImpl A (deserialize_enum name variants v)
| impl_variant_tuple A n v : 0 ≤ n → SeqImpl A v → DeImpl A (tuple_variant n v)
| impl_variant_struct A fields v : SeqImpl A v → DeImpl A (struct_variant fields v)
| impl_done A v : quiet v → DeImpl A (lift v)
| impl_then A B (d : De A) (f : A → De B) : DeImpl A d → (∀ a, DeImpl B (f a)) → DeImpl B (d ≫= f)
| impl_fuel A : DeImpl A (halt OutOfFuel)
with SeqImpl : ∀ A : Type, Seq A → Prop :=
| seqi_done A v : quiet v → SeqImpl A (lift v)
| seqi_ret A a : SeqImpl A (mret a)
| seqi_next A (d : De A) : DeImpl A d → SeqImpl (option A) (next_element_seed d)
| seqi_then A B (m : Seq A) (f : A → Seq B) : SeqImpl A m → (∀ a, SeqImpl B (f a)) → SeqImpl B (m ≫= f)
| seqi_fuel A : SeqImpl A (halt OutOfFuel).

Scheme DeImpl_min := Minimality for DeImpl Sort Prop
  with SeqImpl_min := Minimality for SeqImpl Sort Prop.

Create HintDb sane.
#[export] Hint Resolve sane_ret sane_lift sane_fail sane_fuel sane_bind sane_read_u32 sane_read_u64
  sane_read_bool sane_read_str sane_read_opaque sane_check_bound sane_nested sane_seq_of
  sane_flags seq_ret seq_lift seq_fuel seq_bind seq_next : sane.
#[export] Hint Extern 1 (quiet (ok_or ?o _)) => destruct o; discriminate : sane.
#[export] Hint Extern 1 (0 ≤ len _) => lia : sane.

Lemma quiet_ok {A} (a : A) : quiet (Ok a).
Proof. discriminate. Qed.
Lemma quiet_err {A} e : quiet (A:=A) (Err e).
Proof. discriminate. Qed.
#[export] Hint Resolve quiet_ok quiet_err : sane.

Lemma set_fixed_flags b : ∀ s, ∃ b' o, set_fixed b s = set_fixed b' (set_bound o s).
Proof. intros s. exists b, (bound_pending s). by destruct s. Qed.
Lemma set_bound_flags o : ∀ s, ∃ b o', set_bound o s = set_fixed b (set_bound o' s).
Proof. intros s. exists (fixed_pending s), o. by destruct s. Qed.
#[export] Hint Resolve set_fixed_flags set_bound_flags : sane.

(** The bytes not yet read. *)
Definition unread (s : Deserializer) : bytes := skipn (Z.to_nat s.(pos)) s.(input).

Lemma remaining_unread s : wf s → remaining s = Ok (unread s).
Proof.
  intros [Hp Hi _ _ _]. unfold remaining, slice, unread. rewrite decide_True by lia.
  rewrite take_ge; [done|]. rewrite length_drop. lia.
Qed.

Lemma sane_newtype {A} name (v : De A) vb : sane v → (∀ x, quiet (vb x)) →
  sane (deserialize_newtype_struct name v vb).
Proof.
  intros Hv Hvb. unfold deserialize_newtype_struct. case_bool_decide.
  - apply sane_get. intros s Hs. destruct (span_start s) as [p|] eqn:Hp; cbn [ok_or].
    + rewrite run_lift. unfold slice. pose proof (wf_span _ Hs _ Hp). pose proof (wf_pos _ Hs).
      rewrite decide_True by lia. rewrite run_lift. by apply sane_lift.
    + by apply (sane_fail (A:=A) _ s Hs).
  - case_bool_decide; auto with sane.
Qed.

Lemma sane_deserialize_seq {A} (v : Seq A) : sane_seq v → sane (deserialize_seq v).
Proof.
  intros Hv. unfold deserialize_seq. apply sane_read_u32_then. intros count Hc.
  apply sane_bind; [auto with sane|]. intros _. apply sane_get. intros s Hs.
  rewrite remaining_unread by done. rewrite run_lift. destruct (_ <? count); [by apply sane_fail|].
  apply sane_nested; [|done]. apply sane_seq_of; [apply Hc|done].
Qed.

Lemma sane_tuple {A} n (v : Seq A) vb : 0 ≤ n → sane_seq v → (∀ x, quiet (vb x)) →
  sane (deserialize_tuple n v vb).
Proof.
  intros Hn Hv Hvb s Hs. unfold deserialize_tuple. destruct (fixed_pending s).
  - apply (sane_under (read_fixed n ≫= λ bs, lift (vb bs)) (set_fixed false)); auto with sane.
    apply sane_bind; auto using sane_read_fixed with sane.
  - apply (sane_under (descend;; finally (seq n v) ascend) (set_fixed false)); auto with sane.
Qed.

(** Marking a span and putting the outer one back. *)
Lemma sane_spanned {A} (m : De A) : sane m →
  sane (s ← get; modify (set_span (Some s.(pos)));; finally m (modify (set_span s.(span_start)))).
Proof.
  intros Hm. apply sane_get. intros s Hs. rewrite run_modify.
  set (s1 := set_span (Some (pos s)) s).
  assert (wf s1) as Hs1. { destruct Hs. split; simpl; try done. intros p [= <-]. lia. }
  pose proof (Hm s1 Hs1) as Hr. unfold finally.
  destruct (m s1) as [[a|e|w] s2]; simpl in *; [| |done];
    destruct Hr as ([] & Hr); (split; [by split|done]).
Qed.

Lemma sane_tuple_struct {A} name n (v : Seq A) vn : 0 ≤ n → sane_seq v → sane vn →
  sane (deserialize_tuple_struct name n v vn).
Proof.
  intros Hn Hv Hvn. unfold deserialize_tuple_struct. apply sane_nested.
  repeat case_bool_decide; auto using sane_spanned with sane.
Qed.

(** No impl panics, moves the cursor back or past the input, reads part of a
    unit, or leaves the depth unbalanced. *)
Theorem impl_sane A (d : De A) : DeImpl A d → sane d.
Proof.
  revert A d. apply (DeImpl_min (λ A d, sane d) (λ A v, sane_seq v)); intros;
    unfold deserialize_any, deserialize_map, deserialize_bool, deserialize_i8, deserialize_i16,
      deserialize_i32, deserialize_i64, deserialize_u8, deserialize_u16, deserialize_u32,
      deserialize_u64, deserialize_f32, deserialize_f64, deserialize_char, deserialize_str,
      deserialize_string, deserialize_bytes, deserialize_byte_buf, deserialize_unit,
      deserialize_unit_struct, deserialize_struct, deserialize_enum, deserialize_option,
      tuple_variant, struct_variant;
    auto using sane_newtype, sane_deserialize_seq, sane_tuple, sane_tuple_struct with sane.
  - apply sane_bind; auto with sane. intros x. destruct (is_char x); auto with sane.
  - apply sane_bind; auto with sane. intros []; auto with sane.
Qed.
