(* ===== verification/XdrCodec.v ===== *)
(** The codec of [truenas_xdr] as a whole: what a [Serialize] impl and a
    [Deserialize] impl owe each other, the class [Codec], and its instances
    for every shape the encoder and the decoder know.

    [codec_complete] is the round trip: an admissible value encodes, and what
    it encodes to decodes to it, in the middle of any input.  [codec_sound] is
    the converse under [Strict]: what decodes is the encoding of what it
    decoded to, so a strict decoder accepts canonical XDR only. *)
From S2P Require Import Prelude XdrBase XdrSer XdrDe XdrDeSafe.
Local Open Scope Z_scope.

(** ** Reading at the cursor *)
Definition clean (s : Deserializer) : Prop :=
  s.(XdrDe.fixed_pending) = false ∧ s.(XdrDe.bound_pending) = None.

Definition advance (k : Z) (s : Deserializer) : Deserializer := set_pos (s.(pos) + k) s.

(** [s] stands in front of [bs], with [rest] after it. *)
Record before (s : Deserializer) (bs rest : bytes) : Prop := {
  before_wf : wf s;
  before_unread : unread s = bs ++ rest
}.

Lemma before_len s bs rest : before s bs rest → len bs ≤ len s.(input) - s.(pos).
Proof.
  intros [[Hp _ _ _ _] Hu]. apply (f_equal length) in Hu. unfold unread in Hu.
  rewrite length_drop, length_app in Hu. lia.
Qed.

Lemma advance_wf s bs rest : before s bs rest → wf (advance (len bs) s).
Proof. intros H. pose proof (before_len _ _ _ H). apply set_pos_wf; [apply H|lia]. Qed.

Lemma advance_unread s bs rest : before s bs rest → unread (advance (len bs) s) = rest.
Proof.
  intros [Hw Hu]. pose proof (wf_pos _ Hw). unfold unread, advance in *. simpl.
  rewrite Z2Nat.inj_add by lia. rewrite <- drop_drop, Hu. apply drop_app_len.
Qed.

Lemma advance_before s a b rest : before s (a ++ b) rest → before (advance (len a) s) b rest.
Proof.
  intros H. assert (before s a (b ++ rest)) as H'.
  { destruct H as [Hw Hu]. split; [done|]. by rewrite Hu, app_assoc. }
  split; [by eapply advance_wf|by eapply advance_unread].
Qed.

Lemma before_prefix s a b rest : before s (a ++ b) rest → before s a (b ++ rest).
Proof. intros [Hw Hu]. split; [done|]. by rewrite Hu, app_assoc. Qed.

Lemma advance_advance j k s : advance k (advance j s) = advance (j + k) s.
Proof. unfold advance, set_pos. simpl. by rewrite Z.add_assoc. Qed.

Lemma advance_app (a b : bytes) s : advance (len b) (advance (len a) s) = advance (len (a ++ b)) s.
Proof. rewrite advance_advance, length_app. by rewrite Nat2Z.inj_add. Qed.

Lemma advance_0 s : advance 0 s = s.
Proof. unfold advance. rewrite Z.add_0_r. apply set_pos_id. Qed.

Lemma take_reads s a rest : before s a rest → take (len a) s = (Ok a, advance (len a) s).
Proof.
  intros H. pose proof (before_len _ _ _ H) as Hl. destruct H as [Hw Hu].
  destruct (take_spec (len a) s Hw) as [[_ ->]|[? _]]; [lia| |lia].
  fold (unread s). by rewrite Hu, take_app_len.
Qed.

Lemma take_sound n s a s' : wf s → 0 ≤ n → take n s = (Ok a, s') →
  len a = n ∧ before s a (unread s') ∧ s' = advance n s.
Proof.
  intros Hw Hn H. destruct (take_spec n s Hw Hn) as [[Hle Ht]|[_ (? & _ & Ht)]];
    rewrite Ht in H; simplify_eq.
  fold (unread s). pose proof (wf_pos _ Hw).
  assert (len (firstn (Z.to_nat n) (unread s)) = n) as Hlen.
  { rewrite length_take. unfold unread. rewrite length_drop. lia. }
  split; [done|]. split; [|done]. split; [done|].
  unfold unread at 3, set_pos. simpl. rewrite Z2Nat.inj_add by lia.
  rewrite <- drop_drop. fold (unread s). by rewrite take_drop.
Qed.

Lemma read_u32_reads s v rest : unsigned 32 v → before s (to_be_bytes 4 v) rest →
  read_u32 s = (Ok v, advance 4 s).
Proof.
  intros Hv H. unfold read_u32. apply take_reads in H. rewrite length_to_be_bytes in H.
  rewrite (run_bind_ok _ _ _ _ _ H), run_ret, from_to_be_bytes. by rewrite wrap_small.
Qed.

Lemma read_u64_reads s v rest : unsigned 64 v → before s (to_be_bytes 8 v) rest →
  read_u64 s = (Ok v, advance 8 s).
Proof.
  intros Hv H. unfold read_u64. apply take_reads in H. rewrite length_to_be_bytes in H.
  rewrite (run_bind_ok _ _ _ _ _ H), run_ret, from_to_be_bytes. by rewrite wrap_small.
Qed.

Lemma read_u32_sound s v s' : wf s → read_u32 s = (Ok v, s') →
  unsigned 32 v ∧ before s (to_be_bytes 4 v) (unread s') ∧ s' = advance 4 s.
Proof.
  intros Hw H. unfold read_u32 in H. bind_inv. apply take_sound in Hrun as (Hl & Hb & ->); [|done|lia].
  pose proof (from_be_bytes_range a) as Hr. rewrite Hl in Hr.
  split; [exact Hr|]. rewrite to_from_be_bytes by lia. done.
Qed.

Lemma read_u64_sound s v s' : wf s → read_u64 s = (Ok v, s') →
  unsigned 64 v ∧ before s (to_be_bytes 8 v) (unread s') ∧ s' = advance 8 s.
Proof.
  intros Hw H. unfold read_u64 in H. bind_inv. apply take_sound in Hrun as (Hl & Hb & ->); [|done|lia].
  pose proof (from_be_bytes_range a) as Hr. rewrite Hl in Hr.
  split; [exact Hr|]. rewrite to_from_be_bytes by lia. done.
Qed.

(** Padding that is zero reads in either mode. *)
Lemma read_fixed_reads s v rest : before s (v ++ zeros (pad4 (len v))) rest →
  read_fixed (len v) s = (Ok v, advance (len (v ++ zeros (pad4 (len v)))) s).
Proof.
  intros H. unfold read_fixed. pose proof (pad4_range (len v)) as Hp.
  rewrite (run_bind_ok _ _ _ _ _ (take_reads _ _ _ (before_prefix _ _ _ _ H))).
  apply advance_before in H. unfold read_pad. destruct (Z.ltb_spec 0 (pad4 (len v))).
  - pose proof (take_reads _ _ _ H) as Ht. rewrite len_pad in Ht.
    erewrite run_bind_ok.
    2: { rewrite (run_bind_ok _ _ _ _ _ Ht), run_get, zeros_padding, andb_false_r. reflexivity. }
    cbv beta. rewrite run_ret, advance_advance, length_app, Nat2Z.inj_add, len_pad. done.
  - erewrite run_bind_ok by reflexivity. rewrite run_ret.
    replace (pad4 (len v)) with 0 by lia. rewrite zeros_0, app_nil_r. done.
Qed.

Lemma read_fixed_sound n s v s' : wf s → 0 ≤ n → mode s = Strict → read_fixed n s = (Ok v, s') →
  len v = n ∧ before s (v ++ zeros (pad4 n)) (unread s') ∧ s' = advance (n + pad4 n) s.
Proof.
  intros Hw Hn Hm H. pose proof (wf_pos _ Hw). pose proof (pad4_range n).
  destruct (read_fixed_spec n s Hw Hn) as [(Hle & Hz & Hr)|(e & p & _ & Hr)]; rewrite Hr in H; simplify_eq.
  assert (len (firstn (Z.to_nat n) (unread s)) = n) as Hlen.
  { rewrite length_take. unfold unread. rewrite length_drop. lia. }
  split; [done|]. split; [|done]. split; [done|]. rewrite <- (Hz Hm).
  assert (unread (set_pos (pos s + (n + pad4 n)) s)
          = skipn (Z.to_nat (pad4 n)) (skipn (Z.to_nat n) (unread s))) as ->.
  { unfold unread. simpl. rewrite !drop_drop. f_equal. lia. }
  replace (skipn (Z.to_nat (pos s + n)) (input s)) with (skipn (Z.to_nat n) (unread s)).
  2: { unfold unread. rewrite drop_drop. f_equal. lia. }
  by rewrite <- app_assoc, take_drop, take_drop.
Qed.

(** ** Flags and depth do not move the cursor *)
Definition deeper (s : Deserializer) : Deserializer := set_depth (s.(depth) + 1) s.

Lemma before_set_bound o s bs rest : before s bs rest → before (XdrDe.set_bound o s) bs rest.
Proof. intros [[] Hu]. by split. Qed.

Lemma before_set_fixed b s bs rest : before s bs rest → before (XdrDe.set_fixed b s) bs rest.
Proof. intros [[] Hu]. by split. Qed.

Lemma before_deeper s bs rest : before s bs rest → depth s + 1 ≤ max_depth s →
  before (deeper s) bs rest.
Proof. intros [[] Hu] Hd. split; [|done]. split; simpl; try done; lia. Qed.

Lemma set_bound_id s : XdrDe.bound_pending s = None → XdrDe.set_bound None s = s.
Proof. destruct s. simpl. by intros ->. Qed.

Lemma set_fixed_id s : XdrDe.fixed_pending s = false → XdrDe.set_fixed false s = s.
Proof. destruct s. simpl. by intros ->. Qed.

Lemma set_depth_id k s : set_depth (depth s + 1 - 1) (advance k (deeper s)) = advance k s.
Proof. unfold set_depth, advance, set_pos, deeper. simpl. f_equal. lia. Qed.

Lemma check_bound_ok l s : (∀ max, XdrDe.bound_pending s = Some max → l ≤ max) →
  check_bound l s = (Ok tt, XdrDe.set_bound None s).
Proof.
  intros H. unfold check_bound. destruct (XdrDe.bound_pending s) as [max|]; [|done].
  specialize (H max eq_refl). by destruct (Z.ltb_spec max l); [lia|].
Qed.

Lemma check_bound_sound l s s' : check_bound l s = (Ok tt, s') →
  s' = XdrDe.set_bound None s ∧ ∀ max, XdrDe.bound_pending s = Some max → l ≤ max.
Proof.
  unfold check_bound. destruct (XdrDe.bound_pending s) as [max|]; [|by intros [= <-]].
  destruct (Z.ltb_spec max l); intros [= <-]. split; [done|]. by intros ? [= <-].
Qed.

(** One level down and back. *)
Lemma nested_run {A} (m : De A) s r s2 : wf s → depth s + 1 ≤ max_depth s →
  m (deeper s) = (r, s2) → match r with Stop _ => False | _ => True end →
  depth s2 = depth s + 1 →
  (descend;; finally m ascend) s = (r, set_depth (depth s) s2).
Proof.
  intros [] Hd Hm Hr Hd2. erewrite run_bind_ok.
  2: { unfold descend. destruct (Z.eqb_spec (depth s) usize_max); [lia|]. simpl.
       destruct (Z.ltb_spec (max_depth s) (depth s + 1)); [lia|]. reflexivity. }
  unfold finally. fold (deeper s). rewrite Hm. unfold ascend.
  destruct (Z.eqb_spec (depth s2) 0); [lia|]. rewrite Hd2.
  replace (depth s + 1 - 1) with (depth s) by lia. by destruct r.
Qed.

Lemma nested_reads {A} (m : De A) k s a : wf s → depth s + 1 ≤ max_depth s →
  m (deeper s) = (Ok a, advance k (deeper s)) →
  (descend;; finally m ascend) s = (Ok a, advance k s).
Proof.
  intros Hw Hd Hm. rewrite (nested_run _ _ _ _ Hw Hd Hm) by done.
  unfold set_depth, advance, set_pos, deeper. simpl. by destruct s.
Qed.

Lemma nested_sound {A} (m : De A) s a s' : (descend;; finally m ascend) s = (Ok a, s') →
  depth s + 1 ≤ max_depth s ∧
  ∃ s2, m (deeper s) = (Ok a, s2) ∧ s' = set_depth (depth s2 - 1) s2.
Proof.
  intros H. bind_inv. unfold descend in Hrun. case_match; [done|]. simpl in Hrun.
  destruct (Z.ltb_spec (max_depth s) (depth s + 1)); simplify_eq. split; [done|].
  unfold finally in H. fold (deeper s) in H.
  destruct (m (deeper s)) as [[b|e|w] s2]; simplify_eq; unfold ascend in H.
  - destruct (depth s2 =? 0); simplify_eq. by exists s2.
  - by destruct (depth s2 =? 0).
Qed.

(** ** The contract between an encoder and a decoder of one type *)
Definition reads {A} (md : Strictness) (d : De A) (lv : Z) (bs : bytes) (a : A) : Prop :=
  ∀ s rest, before s bs rest → clean s → mode s = md → depth s + lv ≤ max_depth s →
    d s = (Ok a, advance (len bs) s).

Definition canonical {A} (d : De A) (ser : A → Ser) (ok : Strictness → A → Prop) : Prop :=
  ∀ s a s', wf s → clean s → mode s = Strict → d s = (Ok a, s') →
    ok Strict a ∧ ∃ bs, encodes (ser a) bs ∧ before s bs (unread s') ∧ s' = advance (len bs) s.

(** [ok md a]: the value [a] has an encoding that mode [md] accepts; [lv]:
    the levels of nesting its decoding needs. *)
Class Codec {A} (ser : A → Ser) (d : De A) (ok : Strictness → A → Prop) (lv : Z) : Prop := {
  codec_complete : ∀ md a, ok md a → ∃ bs, encodes (ser a) bs ∧ reads md d lv bs a;
  codec_sound : canonical d ser ok;
  codec_levels : 0 ≤ lv
}.

(** The source's [Counted]: a type whose encoding begins with its length, which
    is the length a bound applies to. *)
Class Counted {A} (ser : A → Ser) (d : De A) (ok : Strictness → A → Prop) (lv : Z)
    (count : A → Z) : Prop := {
  counted_codec : Codec ser d ok lv;
  counted_complete : ∀ md a max, ok md a → count a ≤ max →
    ∃ bs, encodes (ser a) bs ∧ encodes_within max (ser a) bs ∧
      ∀ s rest, before s bs rest → XdrDe.fixed_pending s = false →
        XdrDe.bound_pending s = Some max → mode s = md → depth s + lv ≤ max_depth s →
        d s = (Ok a, advance (len bs) (XdrDe.set_bound None s));
  counted_sound : ∀ s a s' max, wf s → XdrDe.fixed_pending s = false →
    XdrDe.bound_pending s = Some max → mode s = Strict → d s = (Ok a, s') →
    ok Strict a ∧ count a ≤ max ∧
    ∃ bs, encodes_within max (ser a) bs ∧ before s bs (unread s') ∧
      s' = advance (len bs) (XdrDe.set_bound None s)
}.

(** Every value of the type takes at least one unit. *)
Class Occupies {A} (ser : A → Ser) (ok : Strictness → A → Prop) : Prop :=
  occupies : ∀ md a bs, ok md a → encodes (ser a) bs → 4 ≤ len bs.

(** Two encodings of one value are one. *)
Ltac same_encoding :=
  repeat match goal with
  | H1 : encodes ?v ?a, H2 : encodes ?v ?b |- _ =>
      pose proof (encodes_inj _ _ _ H1 H2); clear H2; subst b || subst a
  end.

(** The entry points, from the contract. *)
Section EntryPoints.
Context {A} (ser : A → Ser) (d : De A) ok lv `{!Codec ser d ok lv}.
#[local] Instance Serialize_of : Serialize A := ser.
#[local] Instance Deserialize_of : Deserialize A := d.

Lemma new_before bs rest m : len (bs ++ rest) ≤ isize_max → before (XdrDe.new (bs ++ rest) m) bs rest.
Proof.
  intros Hl. split; [|by unfold unread, XdrDe.new; simpl; rewrite drop_0].
  split; simpl; try done; try lia; unfold DEFAULT_MAX_DEPTH, usize_max; lia.
Qed.

Lemma prefix_roundtrip md a rest : ok md a → lv ≤ DEFAULT_MAX_DEPTH →
  (∀ bs, to_bytes a = Ok bs → len (bs ++ rest) ≤ isize_max) →
  ∃ bs, to_bytes a = Ok bs ∧ from_prefix_with (bs ++ rest) md = Ok (a, rest).
Proof.
  intros Hok Hlv Hl. destruct (codec_complete md a Hok) as (bs & He & Hr).
  pose proof (to_bytes_encodes _ _ He) as Hb.
  exists bs. split; [exact Hb|]. pose proof (new_before bs rest md (Hl _ Hb)) as Hn.
  unfold from_prefix_with, deserialize, Deserialize_of.
  rewrite (Hr _ _ Hn); [|done|done|simpl; lia]. cbn [outcome_bind].
  rewrite remaining_unread by (by eapply advance_wf). by rewrite (advance_unread _ _ _ Hn).
Qed.

Lemma bytes_roundtrip md a : ok md a → lv ≤ DEFAULT_MAX_DEPTH →
  (∀ bs, to_bytes a = Ok bs → len bs ≤ isize_max) →
  ∃ bs, to_bytes a = Ok bs ∧ from_bytes_with bs md = Ok a.
Proof.
  intros Hok Hlv Hl. destruct (prefix_roundtrip md a [] Hok Hlv) as (bs & Hb & Hf).
  { intros bs Hb. rewrite app_nil_r. by apply Hl. }
  exists bs. split; [done|]. unfold from_bytes_with. rewrite app_nil_r in Hf. by rewrite Hf.
Qed.

Lemma prefix_canonical bs a rest : len bs ≤ isize_max → from_prefix_with bs Strict = Ok (a, rest) →
  ok Strict a ∧ ∃ cs, encodes (ser a) cs ∧ bs = cs ++ rest.
Proof.
  intros Hl. unfold from_prefix_with, deserialize, Deserialize_of.
  pose proof (new_before [] bs Strict Hl) as [Hw _]. simpl in Hw.
  destruct (d (XdrDe.new bs Strict)) as [[b|e|w] s'] eqn:Hd; simpl; [|done|done].
  apply codec_sound in Hd as (Hok & cs & He & Hb & ->); [|done|done|done].
  rewrite remaining_unread by (by eapply advance_wf). simpl. intros [= <- <-]. split; [done|].
  exists cs. split; [done|]. destruct Hb as [_ Hb]. unfold unread at 1 in Hb. simpl in Hb.
  by rewrite drop_0 in Hb.
Qed.

Lemma strict_canonical bs a : len bs ≤ isize_max → from_bytes_with bs Strict = Ok a →
  ok Strict a ∧ to_bytes a = Ok bs.
Proof.
  intros Hl H. unfold from_bytes_with in H.
  destruct (from_prefix_with bs Strict) as [[b rest]|e|w] eqn:Hp; [|done|done]. simpl in H.
  case_bool_decide as Hr; [|done]. simplify_eq.
  apply prefix_canonical in Hp as (Hok & cs & He & ->); [|done]. rewrite app_nil_r.
  split; [done|]. by apply to_bytes_encodes.
Qed.
End EntryPoints.
