(* ===== verification/XdrShapes.v ===== *)
(** The instances of [Codec] for the shapes of serde's data model: scalars,
    strings and opaques, optional data, arrays, tuples and structs, and
    enums. *)
From S2P Require Import Prelude XdrBase XdrSer XdrDe XdrDeSafe XdrCodec.
Local Open Scope Z_scope.

(** Two impls that run alike satisfy the same contract. *)
Lemma codec_ext {A} (ser : A → Ser) (d d' : De A) ok lv :
  (∀ s, d' s = d s) → Codec ser d ok lv → Codec ser d' ok lv.
Proof.
  intros Hd [Hc Hs Hl]. split; [|intros s; rewrite Hd; apply Hs|done].
  intros md a Ha. destruct (Hc md a Ha) as (bs & He & Hr). exists bs. split; [done|].
  intros s rest. rewrite Hd. apply Hr.
Qed.

(** ** Scalars *)

(** A scalar that takes one unit holding [f a], read back by [g]. *)
Lemma codec_unit4 {A} (ser : A → Ser) (f : A → Z) (g : Z → Result A) (okp : A → Prop) :
  (∀ a, encodes (ser a) (to_be_bytes 4 (f a))) →
  (∀ a, okp a → unsigned 32 (f a) ∧ g (f a) = Ok a) →
  (∀ x a, unsigned 32 x → g x = Ok a → okp a ∧ f a = x) →
  Codec ser (read_u32 ≫= λ x, lift (g x)) (λ _, okp) 0.
Proof.
  intros He Hg Hs. split; [| |done].
  - intros md a Ha. exists (to_be_bytes 4 (f a)). split; [done|]. intros s rest Hb _ _ _.
    destruct (Hg a Ha) as [Hu Hga].
    rewrite (run_bind_ok _ _ _ _ _ (read_u32_reads _ _ _ Hu Hb)), length_to_be_bytes. unfold lift.
    by rewrite Hga.
  - intros s a s' Hw _ _ H. bind_inv. apply read_u32_sound in Hrun as (Hu & Hb & ->); [|done].
    unfold lift in H. simplify_eq. destruct (Hs _ _ Hu H) as [Hok <-].
    split; [done|]. exists (to_be_bytes 4 (f a)). rewrite length_to_be_bytes. done.
Qed.

Lemma codec_unit8 {A} (ser : A → Ser) (f : A → Z) (g : Z → Result A) (okp : A → Prop) :
  (∀ a, encodes (ser a) (to_be_bytes 8 (f a))) →
  (∀ a, okp a → unsigned 64 (f a) ∧ g (f a) = Ok a) →
  (∀ x a, unsigned 64 x → g x = Ok a → okp a ∧ f a = x) →
  Codec ser (read_u64 ≫= λ x, lift (g x)) (λ _, okp) 0.
Proof.
  intros He Hg Hs. split; [| |done].
  - intros md a Ha. exists (to_be_bytes 8 (f a)). split; [done|]. intros s rest Hb _ _ _.
    destruct (Hg a Ha) as [Hu Hga].
    rewrite (run_bind_ok _ _ _ _ _ (read_u64_reads _ _ _ Hu Hb)), length_to_be_bytes. unfold lift.
    by rewrite Hga.
  - intros s a s' Hw _ _ H. bind_inv. apply read_u64_sound in Hrun as (Hu & Hb & ->); [|done].
    unfold lift in H. simplify_eq. destruct (Hs _ _ Hu H) as [Hok <-].
    split; [done|]. exists (to_be_bytes 8 (f a)). rewrite length_to_be_bytes. done.
Qed.

Lemma occupies_of {A} (ser : A → Ser) (ok : Strictness → A → Prop) :
  (∀ md a, ok md a → ∃ bs, encodes (ser a) bs ∧ 4 ≤ len bs) → Occupies ser ok.
Proof. intros H md a bs Ha Hb. destruct (H md a Ha) as (bs' & He & Hl). by rewrite (encodes_inj _ _ _ Hb He). Qed.

#[global] Instance codec_u32 : Codec SU32 (deserialize_u32 Ok) (λ _, unsigned 32) 0.
Proof. apply codec_unit4 with (f := id); [done|done|]. by intros x a Hx [= ->]. Qed.

#[global] Instance codec_f32 : Codec SF32 (deserialize_f32 Ok) (λ _, unsigned 32) 0.
Proof. apply codec_unit4 with (f := id); [done|done|]. by intros x a Hx [= ->]. Qed.

#[global] Instance codec_u64 : Codec SU64 (deserialize_u64 Ok) (λ _, unsigned 64) 0.
Proof. apply codec_unit8 with (f := id); [done|done|]. by intros x a Hx [= ->]. Qed.

#[global] Instance codec_f64 : Codec SF64 (deserialize_f64 Ok) (λ _, unsigned 64) 0.
Proof. apply codec_unit8 with (f := id); [done|done|]. by intros x a Hx [= ->]. Qed.

#[global] Instance codec_i32 : Codec SI32 (deserialize_i32 Ok) (λ _, signed 32) 0.
Proof.
  apply codec_unit4 with (f := wrap 32) (g := λ x, Ok (swrap 32 x)); [done| |].
  - intros a Ha. split; [auto with bounds|]. cbv beta. by rewrite swrap_wrap.
  - intros x a Hx [= <-]. split; [by apply swrap_range|by apply wrap_swrap].
Qed.

#[global] Instance codec_i64 : Codec SI64 (deserialize_i64 Ok) (λ _, signed 64) 0.
Proof.
  apply codec_unit8 with (f := wrap 64) (g := λ x, Ok (swrap 64 x)); [done| |].
  - intros a Ha. split; [auto with bounds|]. cbv beta. by rewrite swrap_wrap.
  - intros x a Hx [= <-]. split; [by apply swrap_range|by apply wrap_swrap].
Qed.

(** A narrower integer: the wider one, and a check. *)
Lemma run_checked {S A} (o : option Z) (k : Z → Result A) (s : S) :
  (v ← lift (ok_or o Range); lift (k v)) s = lift (outcome_bind k (ok_or o Range)) s.
Proof. by destruct o. Qed.

Lemma signed_mono a b z : 0 < a ≤ b → signed a z → signed b z.
Proof.
  unfold signed. intros Hab Hz. assert (2 ^ (a - 1) ≤ 2 ^ (b - 1)) by (apply Z.pow_le_mono_r; lia). lia.
Qed.
Lemma unsigned_mono a b z : 0 ≤ a ≤ b → unsigned a z → unsigned b z.
Proof.
  unfold unsigned. intros Hab Hz. assert (2 ^ a ≤ 2 ^ b) by (apply Z.pow_le_mono_r; lia). lia.
Qed.

Lemma codec_signed w ser : 0 < w ≤ 32 → (∀ a, encodes (ser a) (to_be_bytes 4 (wrap 32 a))) →
  Codec ser (read_u32 ≫= λ x, lift (ok_or (try_signed w (swrap 32 x)) Range) ≫= λ v, lift (Ok v))
    (λ _, signed w) 0.
Proof.
  intros Hw He. eapply codec_ext with
    (d := read_u32 ≫= λ x, lift (outcome_bind Ok (ok_or (try_signed w (swrap 32 x)) Range))).
  { intros s. unfold mbind, St_bind. destruct (read_u32 s) as [[x|e|k] s']; [|done|done].
    by destruct (try_signed w (swrap 32 x)). }
  apply codec_unit4 with (f := wrap 32); [done| |].
  - intros a Ha. split; [auto with bounds|]. assert (signed 32 a) by (eapply signed_mono; [|done]; lia).
    rewrite swrap_wrap by (lia || done). unfold try_signed. by rewrite decide_True.
  - intros x a Hx. unfold try_signed. case_decide; [|done]. intros [= <-].
    split; [done|]. apply wrap_swrap; [lia|done].
Qed.

#[global] Instance codec_i8 : Codec SI8 (deserialize_i8 Ok) (λ _, signed 8) 0.
Proof. by apply codec_signed. Qed.
#[global] Instance codec_i16 : Codec SI16 (deserialize_i16 Ok) (λ _, signed 16) 0.
Proof. by apply codec_signed. Qed.

Lemma codec_unsigned w ser : 0 ≤ w ≤ 32 → (∀ a, encodes (ser a) (to_be_bytes 4 a)) →
  Codec ser (read_u32 ≫= λ x, lift (ok_or (try_unsigned w x) Range) ≫= λ v, lift (Ok v))
    (λ _, unsigned w) 0.
Proof.
  intros Hw He. eapply codec_ext with
    (d := read_u32 ≫= λ x, lift (outcome_bind Ok (ok_or (try_unsigned w x) Range))).
  { intros s. unfold mbind, St_bind. destruct (read_u32 s) as [[x|e|k] s']; [|done|done].
    by destruct (try_unsigned w x). }
  apply codec_unit4 with (f := id); [done| |].
  - intros a Ha. split; [by eapply unsigned_mono|]. unfold try_unsigned, id. by rewrite decide_True.
  - intros x a Hx. unfold try_unsigned. case_decide; [|done]. by intros [= <-].
Qed.

#[global] Instance codec_u8 : Codec SU8 (deserialize_u8 Ok) (λ _, unsigned 8) 0.
Proof. by apply codec_unsigned. Qed.
#[global] Instance codec_u16 : Codec SU16 (deserialize_u16 Ok) (λ _, unsigned 16) 0.
Proof. by apply codec_unsigned. Qed.

#[global] Instance codec_char : Codec SChar (deserialize_char Ok) (λ _ z, is_char z = true) 0.
Proof.
  eapply codec_ext with (d := read_u32 ≫= λ x, lift (if is_char x then Ok x else Err Range)).
  { intros s. unfold deserialize_char, mbind, St_bind. destruct (read_u32 s) as [[x|e|k] s']; [|done|done].
    by destruct (is_char x). }
  apply codec_unit4 with (f := id); [done| |].
  - intros a Ha. unfold id. rewrite Ha. split; [|done]. unfold is_char, unsigned in *.
    change (2 ^ 32) with 4294967296. lia.
  - intros x a Hx. destruct (is_char x) eqn:Hc; [|done]. by intros [= <-].
Qed.

(** ** Booleans *)
Lemma read_bool_reads s (b : bool) rest :
  before s (to_be_bytes 4 (if b then 1 else 0)) rest → read_bool s = (Ok b, advance 4 s).
Proof.
  intros Hb. unfold read_bool.
  assert (unsigned 32 (if b then 1 else 0)) as Hu by (by destruct b).
  rewrite (run_bind_ok _ _ _ _ _ (read_u32_reads _ _ _ Hu Hb)), run_get. by destruct b.
Qed.

Lemma read_bool_sound s b s' : wf s → mode s = Strict → read_bool s = (Ok b, s') →
  before s (to_be_bytes 4 (if b then 1 else 0)) (unread s') ∧ s' = advance 4 s.
Proof.
  intros Hw Hm H. unfold read_bool in H. bind_inv.
  apply read_u32_sound in Hrun as (Hu & Hb & ->); [|done]. unfold get in Hrun0. simplify_eq.
  destruct (Z.eqb_spec a 0) as [->|]; [by rewrite run_ret in H; simplify_eq|].
  destruct (Z.eqb_spec a 1) as [->|]; [by rewrite run_ret in H; simplify_eq|].
  by rewrite bool_decide_true in H.
Qed.

#[global] Instance codec_bool : Codec SBool (deserialize_bool Ok) (λ _ _, True) 0.
Proof.
  split; [| |done].
  - intros md b _. exists (to_be_bytes 4 (if b then 1 else 0)). split; [by destruct b|].
    intros s rest Hb _ _ _. unfold deserialize_bool.
    by rewrite (run_bind_ok _ _ _ _ _ (read_bool_reads _ _ _ Hb)), len_u32.
  - intros s b s' Hw _ Hm H. unfold deserialize_bool in H. bind_inv.
    apply read_bool_sound in Hrun as [Hb ->]; [|done|done]. unfold lift in H. simplify_eq.
    split; [done|]. exists (to_be_bytes 4 (if b then 1 else 0)). rewrite len_u32.
    split; [by destruct b|done].
Qed.

(** ** Strings and opaques *)

(** The encoding of a counted body. *)
Definition counted_body (v : bytes) : bytes :=
  to_be_bytes 4 (len v) ++ v ++ zeros (pad4 (len v)).

Lemma read_opaque_reads s v rest : unsigned 32 (len v) → before s (counted_body v) rest →
  (∀ max, XdrDe.bound_pending s = Some max → len v ≤ max) →
  read_opaque s = (Ok v, advance (len (counted_body v)) (XdrDe.set_bound None s)).
Proof.
  intros Hl Hb Hm. rewrite read_opaque_unfold.
  rewrite (run_bind_ok _ _ _ _ _ (read_u32_reads _ _ _ Hl (before_prefix _ _ _ _ Hb))).
  erewrite run_bind_ok by (apply check_bound_ok; exact Hm).
  apply advance_before, (before_set_bound None) in Hb. rewrite len_u32 in Hb.
  rewrite (read_fixed_reads _ _ _ Hb).
  unfold counted_body. by rewrite <- (advance_app (to_be_bytes 4 (len v))), len_u32.
Qed.

Lemma read_opaque_sound s v s' : wf s → mode s = Strict → read_opaque s = (Ok v, s') →
  unsigned 32 (len v) ∧ before s (counted_body v) (unread s')
  ∧ s' = advance (len (counted_body v)) (XdrDe.set_bound None s)
  ∧ ∀ max, XdrDe.bound_pending s = Some max → len v ≤ max.
Proof.
  intros Hw Hm H. rewrite read_opaque_unfold in H. bind_inv.
  apply read_u32_sound in Hrun as (Hu & Hb & ->); [|done].
  destruct a0. apply check_bound_sound in Hrun0 as [-> Hbound]. simpl in Hbound.
  assert (before (advance 4 s) [] (unread (advance 4 s))) as Ha.
  { pose proof (advance_before s (to_be_bytes 4 a) [] (unread (advance 4 s))) as Ha.
    rewrite app_nil_r, len_u32 in Ha. by apply Ha. }
  pose proof (before_set_bound None _ _ _ Ha) as [Hw' _].
  apply read_fixed_sound in H as (<- & Hb2 & ->); [|done|apply Hu|done].
  split; [done|]. split; [|split; [|done]].
  - split; [done|]. rewrite (before_unread _ _ _ Hb). unfold counted_body.
    rewrite <- app_assoc. f_equal. apply Hb2.
  - unfold counted_body. rewrite !length_app, !Nat2Z.inj_add, len_u32, len_pad.
    unfold advance, set_pos. simpl. f_equal. lia.
Qed.

(** A counted body read by any check [g] that keeps it. *)
Lemma counted_of (ser : bytes → Ser) (d : De bytes) (ok : Strictness → bytes → Prop) :
  (∀ md v, ok md v → unsigned 32 (len v)) →
  (∀ v, unsigned 32 (len v) → encodes (ser v) (counted_body v)) →
  (∀ max v, unsigned 32 (len v) → len v ≤ max → encodes_within max (ser v) (counted_body v)) →
  (∀ s v s', read_opaque s = (Ok v, s') → ok (mode s') v → d s = (Ok v, s')) →
  (∀ s v s', d s = (Ok v, s') →
     read_opaque s = (Ok v, s') ∧ (unsigned 32 (len v) → mode s' = Strict → ok Strict v)) →
  Counted ser d ok 0 (λ v, len v).
Proof.
  intros Hok He Hew Hd Hs. split; [split; [| |done]| |].
  - intros md v Hv. exists (counted_body v). split; [by eapply He, Hok|].
    intros s rest Hb [_ Hc] Hm _. apply Hd; [|by rewrite <- Hm in Hv].
    rewrite (read_opaque_reads s v rest); [|by eapply Hok|done|by rewrite Hc].
    by rewrite set_bound_id.
  - intros s v s' Hw [_ Hc] Hm H. apply Hs in H as [H Hstrict].
    apply read_opaque_sound in H as (Hu & Hb & -> & _); [|done|done].
    split; [by apply Hstrict|]. exists (counted_body v). rewrite set_bound_id by done.
    split; [by apply He|]. rewrite set_bound_id in Hb by done. done.
  - intros md v max Hv Hm. exists (counted_body v).
    split; [by eapply He, Hok|]. split; [apply Hew; [by eapply Hok|done]|].
    intros s rest Hb _ Hc Hmd _. apply Hd; [|by rewrite <- Hmd in Hv].
    apply (read_opaque_reads s v rest); [by eapply Hok|done|]. rewrite Hc. by intros ? [= <-].
  - intros s v s' max Hw _ Hc Hm H. apply Hs in H as [H Hstrict].
    apply read_opaque_sound in H as (Hu & Hb & -> & Hmax); [|done|done].
    split; [by apply Hstrict|]. split; [by apply Hmax|].
    exists (counted_body v). split; [apply Hew; [done|by apply Hmax]|done].
Qed.

Definition opaque_ok (md : Strictness) (v : bytes) : Prop := unsigned 32 (len v).

Definition str_ok (md : Strictness) (v : bytes) : Prop :=
  unsigned 32 (len v) ∧ utf8_valid v = true ∧ (md = Strict → contains_nul v = false).

#[global] Instance counted_byte_buf : Counted SBytes (deserialize_byte_buf Ok) opaque_ok 0 (λ v, len v).
Proof.
  apply counted_of; [done|apply encodes_bytes|apply encodes_bytes_within| |];
    unfold deserialize_byte_buf.
  - intros s v s' H _. by rewrite (run_bind_ok _ _ _ _ _ H).
  - intros s v s' H. bind_inv. unfold lift in H. by simplify_eq.
Qed.

#[global] Instance counted_bytes : Counted SBytes (deserialize_bytes Ok) opaque_ok 0 (λ v, len v).
Proof. exact counted_byte_buf. Qed.

#[global] Instance counted_str : Counted SStr (deserialize_str Ok) str_ok 0 (λ v, len v).
Proof.
  apply counted_of; [by intros md v [? _]|apply encodes_str|apply encodes_str_within| |];
    unfold deserialize_str.
  - intros s v s' H (_ & Hu & Hn). assert (read_str s = (Ok v, s')) as Hr.
    { unfold read_str. rewrite (run_bind_ok _ _ _ _ _ H), Hu, run_get.
      case_bool_decide as Hm; simpl; [by rewrite (Hn Hm)|done]. }
    by rewrite (run_bind_ok _ _ _ _ _ Hr).
  - intros s v s' H. unfold read_str in H. bind_inv. destruct (utf8_valid a0) eqn:Hu; [|done]. rewrite run_get in Hrun.
    destruct (bool_decide (mode s1 = Strict) && contains_nul a0) eqn:Hn; [done|].
    rewrite run_ret in Hrun. unfold lift in H. simplify_eq. split; [done|].
    intros Hl Hm. split; [done|]. split; [done|]. intros _. by rewrite bool_decide_true in Hn.
Qed.

#[global] Instance counted_string : Counted SStr (deserialize_string Ok) str_ok 0 (λ v, len v).
Proof. exact counted_str. Qed.

#[global] Instance codec_bytes : Codec SBytes (deserialize_bytes Ok) opaque_ok 0 := counted_codec.
#[global] Instance codec_byte_buf : Codec SBytes (deserialize_byte_buf Ok) opaque_ok 0 := counted_codec.
#[global] Instance codec_str : Codec SStr (deserialize_str Ok) str_ok 0 := counted_codec.
#[global] Instance codec_string : Codec SStr (deserialize_string Ok) str_ok 0 := counted_codec.

(** ** Optional data *)
Section Option.
Context {A} (ser : A → Ser) (d : De A) (ok : Strictness → A → Prop) (lv : Z) `{!Codec ser d ok lv}.

(** What serde's [Option<T>] impls call. *)
Definition ser_option (o : option A) : Ser :=
  match o with Some a => SSome (ser a) | None => SNone end.
Definition de_option : De (option A) :=
  deserialize_option (a ← d; mret (Some a)) (Ok None).
Definition ok_option (md : Strictness) (o : option A) : Prop :=
  match o with Some a => ok md a | None => True end.

Lemma option_some_reads md bs a : reads md d lv bs a →
  reads md de_option (lv + 1) (to_be_bytes 4 1 ++ bs) (Some a).
Proof using All.
  pose proof codec_levels as Hlv. intros Hr s rest Hb Hc Hm Hd. unfold de_option, deserialize_option.
  rewrite (run_bind_ok _ _ _ _ _ (read_bool_reads _ true _ (before_prefix _ _ _ _ Hb))).
  apply advance_before in Hb. rewrite len_u32 in Hb.
  rewrite <- advance_app, len_u32.
  apply nested_reads; [by apply Hb|simpl; lia|].
  erewrite run_bind_ok by (eapply Hr; [by apply before_deeper; [|simpl; lia]|done|done|simpl; lia]).
  done.
Qed.

Lemma option_none_reads md : reads md de_option (lv + 1) (to_be_bytes 4 0) None.
Proof using All.
  intros s rest Hb _ _ _. unfold de_option, deserialize_option.
  by rewrite (run_bind_ok _ _ _ _ _ (read_bool_reads _ false _ Hb)), len_u32.
Qed.

#[global] Instance codec_option : Codec ser_option de_option ok_option (lv + 1).
Proof using All.
  pose proof codec_levels as Hlv. split; [| |lia].
  - intros md [a|] Ha; simpl in Ha.
    + destruct (codec_complete md a Ha) as (bs & He & Hr).
      exists (to_be_bytes 4 1 ++ bs). split; [by apply encodes_some|by apply option_some_reads].
    + exists (to_be_bytes 4 0). split; [apply encodes_none|apply option_none_reads].
  - intros s o s' Hw Hc Hm H. unfold de_option, deserialize_option in H. bind_inv.
    apply read_bool_sound in Hrun as [Hb ->]; [|done|done].
    pose proof Hb as Hb0. rewrite <- (app_nil_r (to_be_bytes _ _)) in Hb0.
    apply advance_before in Hb0. rewrite len_u32 in Hb0. destruct a.
    + apply nested_sound in H as (Hd & s2 & H2 & ->). bind_inv.
      apply before_deeper in Hb0; [|done].
      apply codec_sound in Hrun as (Hok & bs & He & Hbs & ->); [|by apply Hb0|done|done].
      split; [done|]. exists (to_be_bytes 4 1 ++ bs). split; [by apply encodes_some|].
      assert (set_depth (depth (advance (len bs) (deeper (advance 4 s))) - 1)
                (advance (len bs) (deeper (advance 4 s)))
              = advance (len (to_be_bytes 4 1 ++ bs)) s) as Heq.
      { rewrite <- advance_app, len_u32. apply set_depth_id. }
      rewrite Heq. split; [|done]. split; [done|]. rewrite <- Heq.
      rewrite (before_unread _ _ _ Hb), <- app_assoc. f_equal. apply Hbs.
    + unfold lift in H. simplify_eq. split; [done|]. exists (to_be_bytes 4 0).
      rewrite len_u32. split; [apply encodes_none|]. done.
Qed.
End Option.

(** ** Fields read one after another

    What the visitor of a derived struct or of a tuple does: one
    [next_element] per field, a missing one being an error. *)
Inductive FieldList : Type → Type :=
| FNil : FieldList unit
| FCons {A B} (d : De A) (fs : FieldList B) : FieldList (A * B).

Fixpoint field_count {T} (fs : FieldList T) : Z :=
  match fs with FNil => 0 | FCons _ fs => field_count fs + 1 end.

Definition next_field {A} (missing : Error) (d : De A) : Seq A :=
  o ← next_element_seed d;
  match o with Some a => mret a | None => fail missing end.

Fixpoint read_fields {T} (missing : Z → Error) (i : Z) (fs : FieldList T) : Seq T :=
  match fs in FieldList T return Seq T with
  | FNil => mret tt
  | FCons d fs => a ← next_field (missing i) d; t ← read_fields missing (i + 1) fs; mret (a, t)
  end.

Class FieldCodec {T} (sers : T → list Ser) (fs : FieldList T) (ok : Strictness → T → Prop)
    (lv : Z) : Prop := {
  fields_complete : ∀ md t, ok md t → ∃ bss, Forall2 encodes (sers t) bss ∧
    ∀ missing i s rest r, before s (concat bss) rest → clean s → mode s = md →
      depth s + lv ≤ max_depth s → field_count fs ≤ r →
      read_fields missing i fs {| de := s; left := r |}
      = (Ok t, {| de := advance (len (concat bss)) s; left := r - field_count fs |});
  fields_sound : ∀ missing i s r t rd, wf s → clean s → mode s = Strict →
    read_fields missing i fs {| de := s; left := r |} = (Ok t, rd) →
    ok Strict t ∧ ∃ bss, Forall2 encodes (sers t) bss ∧ before s (concat bss) (unread rd.(de)) ∧
      rd.(de) = advance (len (concat bss)) s;
  fields_levels : 0 ≤ lv;
  fields_count : 0 ≤ field_count fs
}.

Lemma next_field_ok {A} missing (d : De A) s r a s' : 0 < r → d s = (Ok a, s') →
  next_field missing d {| de := s; left := r |} = (Ok a, {| de := s'; left := r - 1 |}).
Proof.
  intros Hr Hd. unfold next_field.
  assert (next_element_seed d {| de := s; left := r |} = (Ok (Some a), {| de := s'; left := r - 1 |})) as H.
  { unfold next_element_seed. simpl. destruct (Z.eqb_spec r 0); [lia|]. by rewrite Hd. }
  by rewrite (run_bind_ok _ _ _ _ _ H).
Qed.

Lemma next_field_inv {A} missing (d : De A) s r a rd :
  next_field missing d {| de := s; left := r |} = (Ok a, rd) →
  ∃ s', d s = (Ok a, s') ∧ rd = {| de := s'; left := r - 1 |}.
Proof.
  unfold next_field. intros H. bind_inv. unfold next_element_seed in Hrun. simpl in Hrun.
  destruct (Z.eqb_spec r 0); simplify_eq.
  destruct (d s) as [[b|e|w] s'] eqn:Hd; simpl in Hrun; simplify_eq.
  rewrite run_ret in H. simplify_eq. by exists s'.
Qed.

#[global] Instance fields_nil : FieldCodec (λ _ : unit, []) FNil (λ _ _, True) 0.
Proof.
  split; [| |done|done].
  - intros md [] _. exists []. split; [done|]. intros. simpl.
    rewrite run_ret, advance_0, Z.sub_0_r. done.
  - intros missing i s r [] rd Hw Hc Hm. simpl. rewrite run_ret. intros [= <-]. simpl.
    split; [done|]. exists []. rewrite advance_0. split; [done|]. by split.
Qed.

Lemma clean_advance k s : clean s → clean (advance k s).
Proof. done. Qed.

(** The state after one field is a state before the next. *)
Lemma sound_next s bs s' : before s bs (unread s') → s' = advance (len bs) s → clean s →
  mode s = Strict → wf s' ∧ clean s' ∧ mode s' = Strict.
Proof. intros Hb -> Hc Hm. split; [by eapply advance_wf|done]. Qed.

Lemma before_app s a b s1 s2 : before s a (unread s1) → before s1 b (unread s2) →
  before s (a ++ b) (unread s2).
Proof. intros [Hw Hu] [_ Hu']. split; [done|]. by rewrite Hu, Hu', app_assoc. Qed.

#[global] Instance fields_cons {A B} (ser : A → Ser) (d : De A) okA lvA
    (sers : B → list Ser) (fs : FieldList B) okB lvB :
  Codec ser d okA lvA → FieldCodec sers fs okB lvB →
  FieldCodec (λ t, ser t.1 :: sers t.2) (FCons d fs) (λ md t, okA md t.1 ∧ okB md t.2)
    (Z.max lvA lvB).
Proof.
  intros HA HB. pose proof (fields_levels (FieldCodec:=HB)) as Hlv. pose proof (fields_count (FieldCodec:=HB)) as Hcnt.
  split; [| |lia|simpl; lia].
  - intros md [a t] [Ha Ht]. simpl in *.
    destruct (codec_complete md a Ha) as (bs & He & Hr).
    destruct (fields_complete md t Ht) as (bss & Hes & Hrs).
    exists (bs :: bss). split; [by constructor|]. intros missing i s rest r Hb Hc Hm Hd Hn.
    simpl in Hb |- *.
    erewrite run_bind_ok.
    2: { apply next_field_ok; [lia|]. eapply Hr; [by eapply before_prefix|done|done|lia]. }
    erewrite run_bind_ok.
    2: { eapply Hrs; [by apply advance_before|done|done|simpl; lia|lia]. }
    rewrite run_ret, advance_app. do 2 f_equal. lia.
  - intros missing i s r [a t] rd Hw Hc Hm H. simpl in H. bind_inv.
    apply next_field_inv in Hrun as (s' & Hd & ->).
    apply codec_sound in Hd as (Hok & bs & He & Hb & Hs'); [|done|done|done].
    destruct (sound_next _ _ _ Hb Hs' Hc Hm) as (Hw' & Hc' & Hm').
    apply fields_sound in Hrun0 as (Hok' & bss & Hes & Hb' & Hs2); [|done|done|done].
    split; [done|]. exists (bs :: bss). split; [by constructor|]. simpl. split; [by eapply before_app|].
    by rewrite Hs2, Hs', advance_app.
Qed.

(** A tuple, when no fixed opaque is pending. *)
Lemma tuple_clean {A} n (v : Seq A) vb s : clean s →
  deserialize_tuple n v vb s = (descend;; finally (seq n v) ascend) s.
Proof. intros [Hf _]. unfold deserialize_tuple. by rewrite Hf, set_fixed_id. Qed.

(** A struct or a tuple over its fields. *)
Section Product.
Context {A T} (to : A → T) (from : T → A) (sers : T → list Ser) (fs : FieldList T)
  (ok : Strictness → T → Prop) (lv : Z) `{!FieldCodec sers fs ok lv}.
Hypothesis from_to : ∀ a, from (to a) = a.
Hypothesis to_from : ∀ t, to (from t) = t.

Definition visit_fields (missing : Z → Error) : Seq A := t ← read_fields missing 0 fs; mret (from t).

Lemma nested_fields missing (n : Z) (wrapper : A → Ser) :
  field_count fs ≤ n →
  (∀ a bss, Forall2 encodes (sers (to a)) bss → encodes (wrapper a) (concat bss)) →
  Codec wrapper (descend;; finally (seq n (visit_fields missing)) ascend) (λ md a, ok md (to a)) (lv + 1).
Proof using All.
  intros Hn He. pose proof fields_levels as Hlv. split; [| |lia].
  - intros md a Ha. destruct (fields_complete md (to a) Ha) as (bss & Hes & Hr).
    exists (concat bss). split; [by apply He|]. intros s rest Hb Hc Hm Hd.
    apply nested_reads; [by apply Hb|lia|]. unfold seq, visit_fields.
    erewrite run_bind_ok.
    2: { eapply Hr; [apply before_deeper; [done|lia]|done|done|simpl; lia|done]. }
    rewrite run_ret. simpl. by rewrite from_to.
  - intros s a s' Hw Hc Hm H. apply nested_sound in H as (Hd & s2 & H2 & ->).
    unfold seq in H2. destruct (visit_fields _ _) as [r rd] eqn:Hv. simplify_eq.
    unfold visit_fields in Hv. bind_inv.
    assert (wf (deeper s)) as Hw'. { destruct Hw. split; simpl; try done; lia. }
    apply fields_sound in Hrun as (Hok & bss & Hes & Hb & Hs); [|done|done|done].
    rewrite to_from. split; [done|]. exists (concat bss). split; [apply He; by rewrite to_from|].
    rewrite Hs. simpl. rewrite set_depth_id. split; [|done].
    split; [done|]. rewrite Hs in Hb. apply Hb.
Qed.

(** What a derived struct calls. *)
Lemma codec_struct missing name names :
  field_count fs ≤ len names →
  Codec (λ a, SStruct name (len names) (sers (to a)))
    (deserialize_struct name names (visit_fields missing)) (λ md a, ok md (to a)) (lv + 1).
Proof using All.
  intros Hn. apply nested_fields; [done|]. intros a bss Hes. by apply encodes_struct.
Qed.

Lemma codec_tuple missing n vb : field_count fs ≤ n →
  Codec (λ a, STuple n (sers (to a)))
    (deserialize_tuple n (visit_fields missing) vb) (λ md a, ok md (to a)) (lv + 1).
Proof using All.
  intros Hn. pose proof (nested_fields missing n (λ a, STuple n (sers (to a))) Hn) as [Hc Hs Hl].
  { intros a bss Hes. by apply encodes_tuple. }
  split; [| |done].
  - intros md a Ha. destruct (Hc md a Ha) as (bs & He & Hr). exists bs. split; [done|].
    intros s rest Hb Hcl. rewrite tuple_clean by done. exact (Hr s rest Hb Hcl).
  - intros s a s' Hw Hcl. rewrite tuple_clean by done. exact (Hs s a s' Hw Hcl).
Qed.
End Product.

(** Variable-length arrays: the loops that read the elements of a counted
    array, serde's [Vec<T>] on top of them, and that loop's relation to the
    one that only counts. *)

(** ** The loops *)

(** [Vec<T>]'s visitor: [while let Some(value) = seq.next_element()? {
    values.push(value) }]. *)
Fixpoint collect {A} (fuel : nat) (d : De A) : Seq (list A) :=
  match fuel with
  | O => halt OutOfFuel
  | S fuel =>
      o ← next_element_seed d;
      match o with
      | None => mret []
      | Some a => l ← collect fuel d; mret (a :: l)
      end
  end.

(** A reader of [left] elements gives [None] after that many calls. *)
Definition visit_vec {A} (d : De A) : Seq (list A) := λ r, collect (S (Z.to_nat r.(left))) d r.

(** The visitor of [ElementCount] (wrappers.rs): every element is decoded and
    dropped. *)
(* SRC truenas_xdr/src/wrappers.rs L 622-631 visit_seq *)
Fixpoint count_elements {A} (fuel : nat) (d : De A) (n : Z) : Seq Z :=
  match fuel with
  | O => halt OutOfFuel
  | S fuel =>
      o ← next_element_seed d;
      match o with
      | None => mret n
      | Some _ => count_elements fuel d (n + 1)
      end
  end.
Definition visit_count {A} (d : De A) : Seq Z := λ r, count_elements (S (Z.to_nat r.(left))) d 0 r.

(* SRC truenas_xdr/src/wrappers.rs impl Deserialize for ElementCount *)
Definition de_element_count {A} (d : De A) : De Z := deserialize_seq (visit_count d).

(** What serde's [Vec<T>] impls call. *)
Definition ser_vec {A} (ser : A → Ser) (l : list A) : Ser := SSeq (Some (len l)) (map ser l).
Definition de_vec {A} (d : De A) : De (list A) := deserialize_seq (visit_vec d).

(** ** Counting is collecting and taking the length *)
Lemma count_collect {A} fuel (d : De A) n r :
  count_elements fuel d n r
  = (outcome_map (λ l, n + len l) (collect fuel d r).1, (collect fuel d r).2).
Proof.
  revert n r. induction fuel as [|fuel IH]; intros n r; simpl; [done|].
  unfold mbind, St_bind. destruct (next_element_seed d r) as [[[a|]|e|w] r']; simpl; [| |done|done].
  - rewrite IH. destruct (collect fuel d r') as [[l|e|w] r'']; simpl; [|done|done].
    do 2 f_equal. lia.
  - by rewrite Z.add_0_r.
Qed.

Lemma visit_count_vec {A} (d : De A) r :
  visit_count d r = (outcome_map (λ l, len l) (visit_vec d r).1, (visit_vec d r).2).
Proof. unfold visit_count, visit_vec. by rewrite count_collect. Qed.

(** ** The fuel suffices *)
Lemma next_element_left {A} (d : De A) r a r' :
  next_element_seed d r = (Ok (Some a), r') → r.(left) ≠ 0 ∧ r'.(left) = r.(left) - 1.
Proof.
  unfold next_element_seed. destruct (Z.eqb_spec (left r) 0); [done|].
  destruct (d (de r)) as [[b|e|w] s]; simpl; intros; by simplify_eq/=.
Qed.

Lemma collect_fuel {A} (d : De A) : (∀ s, (d s).1 ≠ Stop OutOfFuel) →
  ∀ fuel r, 0 ≤ r.(left) < Z.of_nat fuel → (collect fuel d r).1 ≠ Stop OutOfFuel.
Proof.
  intros Hd. induction fuel as [|fuel IH]; intros r Hr; [lia|]. simpl. unfold mbind, St_bind.
  destruct (next_element_seed d r) as [[[a|]|e|w] r'] eqn:Hn; [|done|done|].
  - apply next_element_left in Hn as [Hne Hl].
    specialize (IH r'). destruct (collect fuel d r') as [[l|e|w] r'']; [done|done|].
    simpl in *. intros [= ->]. apply IH; [lia|done].
  - unfold next_element_seed in Hn. case_match; [done|]. specialize (Hd (de r)).
    destruct (d (de r)) as [[b|e|w'] s]; simpl in Hn; simplify_eq/=. congruence.
Qed.

(** A loop that ends has read every element. *)
Lemma collect_len {A} (d : De A) fuel s r l rd : 0 ≤ r →
  collect fuel d {| de := s; left := r |} = (Ok l, rd) → len l = r.
Proof.
  revert s r l. induction fuel as [|fuel IH]; intros s r l Hr H; [done|].
  cbn [collect] in H. bind_inv. unfold next_element_seed in Hrun. simpl in Hrun.
  destruct (Z.eqb_spec r 0) as [->|Hne].
  - simplify_eq. rewrite run_ret in H. by simplify_eq.
  - destruct (d s) as [[b|e|w] s'] eqn:Hd; simplify_eq/=. bind_inv.
    apply IH in Hrun; [simpl; lia|lia].
Qed.

(** ** The loop on canonical input *)
Section Elements.
Context {A} (ser : A → Ser) (d : De A) (ok : Strictness → A → Prop) (lv : Z) `{!Codec ser d ok lv}.

Lemma collect_reads md l bss : Forall2 (reads md d lv) bss l →
  ∀ fuel s rest, before s (concat bss) rest → clean s → mode s = md →
  depth s + lv ≤ max_depth s → (length l < fuel)%nat →
  collect fuel d {| de := s; left := len l |}
  = (Ok l, {| de := advance (len (concat bss)) s; left := 0 |}).
Proof using Type.
  induction 1 as [|bs a bss l Hr _ IH]; intros [|fuel] s rest Hb Hc Hm Hd Hf; try (simpl in Hf; lia).
  - simpl. by rewrite advance_0.
  - simpl in Hb, Hf. cbn [collect].
    assert (next_element_seed d {| de := s; left := len (a :: l) |}
            = (Ok (Some a), {| de := advance (len bs) s; left := len l |})) as Hn.
    { unfold next_element_seed. cbn [left de]. destruct (Z.eqb_spec (len (a :: l)) 0); [simpl in *; lia|].
      rewrite (Hr _ _ (before_prefix _ _ _ _ Hb)) by done. simpl. do 2 f_equal. lia. }
    rewrite (run_bind_ok _ _ _ _ _ Hn).
    rewrite (run_bind_ok _ _ _ _ _ (IH fuel _ _ (advance_before _ _ _ _ Hb) Hc Hm Hd ltac:(lia))).
    rewrite run_ret. simpl. by rewrite advance_app.
Qed.

Lemma collect_sound fuel s r l rd : wf s → clean s → mode s = Strict → 0 ≤ r →
  collect fuel d {| de := s; left := r |} = (Ok l, rd) →
  Forall (ok Strict) l ∧ len l = r ∧
  ∃ bss, Forall2 encodes (map ser l) bss ∧ before s (concat bss) (unread rd.(de)) ∧
    rd.(de) = advance (len (concat bss)) s.
Proof using All.
  revert s r l. induction fuel as [|fuel IH]; intros s r l Hw Hc Hm Hr H; [done|].
  cbn [collect] in H. bind_inv. unfold next_element_seed in Hrun. simpl in Hrun.
  destruct (Z.eqb_spec r 0) as [->|Hne].
  - simplify_eq. rewrite run_ret in H. simplify_eq. simpl. split; [done|]. split; [done|].
    exists []. rewrite advance_0. split; [done|]. by split.
  - destruct (d s) as [[b|e|w] s'] eqn:Hd; simplify_eq/=. bind_inv.
    apply codec_sound in Hd as (Hok & bs & He & Hb & Hs'); [|done|done|done].
    destruct (sound_next _ _ _ Hb Hs' Hc Hm) as (Hw' & Hc' & Hm').
    apply IH in Hrun as (Hoks & Hl & bss & Hes & Hb' & Hs2); [|done|done|done|lia].
    split; [by constructor|]. split; [simpl; lia|]. exists (bs :: bss).
    split; [by constructor|]. simpl. split; [by eapply before_app|]. by rewrite Hs2, Hs', advance_app.
Qed.
End Elements.

(** ** A counted array *)
Lemma deserialize_seq_reads {A} (v : Seq A) s c body rest a :
  unsigned 32 c → before s (to_be_bytes 4 c ++ body) rest →
  (∀ max, XdrDe.bound_pending s = Some max → c ≤ max) → 4 * c ≤ len body →
  depth s + 1 ≤ max_depth s →
  (let s1 := deeper (advance 4 (XdrDe.set_bound None s)) in
   v {| de := s1; left := c |} = (Ok a, {| de := advance (len body) s1; left := 0 |})) →
  deserialize_seq v s
  = (Ok a, advance (len (to_be_bytes 4 c ++ body)) (XdrDe.set_bound None s)).
Proof.
  intros Hc Hb Hm Hl Hd Hv. unfold deserialize_seq.
  rewrite (run_bind_ok _ _ _ _ _ (read_u32_reads _ _ _ Hc (before_prefix _ _ _ _ Hb))).
  erewrite run_bind_ok by (by apply check_bound_ok).
  apply advance_before, (before_set_bound None) in Hb. rewrite len_u32 in Hb.
  rewrite run_get, remaining_unread by apply Hb. rewrite run_lift, (before_unread _ _ _ Hb).
  assert (c ≤ len (body ++ rest) / BYTES_PER_XDR_UNIT) as Hle.
  { apply Z.div_le_lower_bound; [done|]. rewrite length_app. unfold BYTES_PER_XDR_UNIT. lia. }
  destruct (Z.ltb_spec (len (body ++ rest) / BYTES_PER_XDR_UNIT) c); [lia|].
  rewrite <- advance_app, len_u32. apply nested_reads; [apply Hb|done|].
  unfold seq. cbv zeta in Hv. change (XdrDe.set_bound None (advance 4 s)) with (advance 4 (XdrDe.set_bound None s)).
  by rewrite Hv.
Qed.

Lemma deserialize_seq_sound {A} (v : Seq A) s a s' : wf s → deserialize_seq v s = (Ok a, s') →
  ∃ c rd, let s1 := deeper (advance 4 (XdrDe.set_bound None s)) in
    unsigned 32 c ∧ before s (to_be_bytes 4 c) (unread (advance 4 s)) ∧ wf s1 ∧
    (∀ max, XdrDe.bound_pending s = Some max → c ≤ max) ∧
    v {| de := s1; left := c |} = (Ok a, rd) ∧ s' = set_depth (depth rd.(de) - 1) rd.(de).
Proof.
  intros Hw H. unfold deserialize_seq in H. bind_inv.
  apply read_u32_sound in Hrun as (Hu & Hb & ->); [|done].
  destruct a1. apply check_bound_sound in Hrun0 as [-> Hmax]. unfold get in Hrun1. simplify_eq.
  pose proof Hb as Hb0. rewrite <- (app_nil_r (to_be_bytes _ _)) in Hb0.
  apply advance_before, (before_set_bound None) in Hb0. rewrite len_u32 in Hb0.
  unfold lift in Hrun2. simplify_eq. case_match; [done|].
  apply nested_sound in H as (Hd & s2 & H2 & ->).
  unfold seq in H2. destruct (v _) as [r rd] eqn:Hv. simplify_eq.
  exists a0, rd. apply before_deeper in Hb0; [|done].
  split; [done|]. split; [done|]. split; [apply Hb0|]. split; [exact Hmax|]. by split.
Qed.

(** Two visitors that run alike, up to what they give. *)
Lemma deserialize_seq_map {A B} (f : A → B) (v : Seq A) (v' : Seq B) s :
  (∀ r, v' r = (outcome_map f (v r).1, (v r).2)) →
  deserialize_seq v' s = (outcome_map f (deserialize_seq v s).1, (deserialize_seq v s).2).
Proof.
  intros Hv. unfold deserialize_seq, mbind, St_bind.
  destruct (read_u32 s) as [[c|e|w] s1]; [|done|done]. simpl.
  destruct (check_bound c s1) as [[u|e|w] s2]; [|done|done].
  unfold get, lift. destruct (remaining s2) as [tl|e|w]; [|done|done].
  case_match; [done|]. destruct (descend s2) as [[u'|e|w] s3]; [|done|done].
  unfold finally, seq. rewrite Hv. destruct (v _) as [[a|e|w] rd]; simpl; [| |done].
  - by destruct (ascend (de rd)) as [[u''|e|w] s4].
  - by destruct (ascend (de rd)) as [[u''|e'|w] s4].
Qed.

Lemma element_count_vec {A} (d : De A) s :
  de_element_count d s = (outcome_map (λ l, len l) (de_vec d s).1, (de_vec d s).2).
Proof. apply deserialize_seq_map. intros r. apply visit_count_vec. Qed.

Section Vec.
Context {A} (ser : A → Ser) (d : De A) (ok : Strictness → A → Prop) (lv : Z)
  `{!Codec ser d ok lv, !Occupies ser ok}.

Definition ok_vec (md : Strictness) (l : list A) : Prop := unsigned 32 (len l) ∧ Forall (ok md) l.

(** The encodings of the elements of an admissible array. *)
Lemma elements_encode md l : Forall (ok md) l →
  ∃ bss, Forall2 encodes (map ser l) bss ∧ Forall2 (reads md d lv) bss l ∧ 4 * len l ≤ len (concat bss).
Proof using All.
  induction 1 as [|a l Ha _ (bss & He & Hr & Hl)]; [by exists []|].
  destruct (codec_complete md a Ha) as (bs & He1 & Hr1). exists (bs :: bss).
  split; [by constructor|]. split; [by constructor|].
  pose proof (occupies _ _ _ Ha He1). simpl. rewrite length_app. lia.
Qed.

Lemma vec_reads md l bss s rest : Forall2 (reads md d lv) bss l → 4 * len l ≤ len (concat bss) →
  unsigned 32 (len l) → before s (to_be_bytes 4 (len l) ++ concat bss) rest →
  XdrDe.fixed_pending s = false → (∀ max, XdrDe.bound_pending s = Some max → len l ≤ max) →
  mode s = md → depth s + (lv + 1) ≤ max_depth s →
  de_vec d s
  = (Ok l, advance (len (to_be_bytes 4 (len l) ++ concat bss)) (XdrDe.set_bound None s)).
Proof using All.
  intros Hr Hl Hu Hb Hf Hm Hmd Hd. pose proof (codec_levels (Codec:=Codec0)) as Hlv.
  eapply deserialize_seq_reads; [done|done|done|done|lia|]. cbv zeta.
  unfold visit_vec. simpl left.
  apply advance_before, (before_set_bound None) in Hb. rewrite len_u32 in Hb.
  eapply collect_reads; [done|apply before_deeper; [done|simpl; lia]|done|done|simpl; lia|lia].
Qed.

Lemma vec_sound s l s' : wf s → XdrDe.fixed_pending s = false → mode s = Strict →
  de_vec d s = (Ok l, s') →
  ok_vec Strict l ∧ (∀ max, XdrDe.bound_pending s = Some max → len l ≤ max) ∧
  ∃ bss, Forall2 encodes (map ser l) bss ∧
    before s (to_be_bytes 4 (len l) ++ concat bss) (unread s') ∧
    s' = advance (len (to_be_bytes 4 (len l) ++ concat bss)) (XdrDe.set_bound None s).
Proof using All.
  intros Hw Hf Hm H. apply deserialize_seq_sound in H as (c & rd & Hu & Hb & Hw1 & Hmax & Hv & ->); [|done].
  unfold visit_vec in Hv. apply (collect_sound ser d ok lv) in Hv as (Hoks & <- & bss & Hes & Hb1 & Hde);
    [|done|done|done|apply Hu].
  split; [done|]. split; [done|]. exists bss. split; [done|].
  assert (set_depth (depth (de rd) - 1) (de rd)
          = advance (len (to_be_bytes 4 (len l) ++ concat bss)) (XdrDe.set_bound None s)) as Heq.
  { rewrite Hde, <- advance_app, len_u32.
    exact (set_depth_id (len (concat bss)) (advance 4 (XdrDe.set_bound None s))). }
  split; [|done]. split; [done|]. rewrite (before_unread _ _ _ Hb), <- app_assoc. f_equal. apply Hb1.
Qed.

#[global] Instance counted_vec : Counted (ser_vec ser) (de_vec d) ok_vec (lv + 1) (λ l, len l).
Proof using All.
  pose proof (codec_levels (Codec:=Codec0)) as Hlv. split; [split; [| |lia]| |].
  - intros md l [Hu Hok]. destruct (elements_encode md l Hok) as (bss & He & Hr & Hl).
    exists (to_be_bytes 4 (len l) ++ concat bss). split.
    + by apply encodes_seq.
    + intros s rest Hb [Hf Hbd] Hm Hd. rewrite <- (set_bound_id s) at 2 by done.
      eapply vec_reads; try done. by rewrite Hbd.
  - intros s l s' Hw [Hf Hbd] Hm H. apply vec_sound in H as (Hok & _ & bss & He & Hb & Hs); [|done|done|done].
    split; [done|]. exists (to_be_bytes 4 (len l) ++ concat bss). rewrite set_bound_id in Hs by done.
    split; [|done]. destruct Hok as [Hu _]. by apply encodes_seq.
  - intros md l max [Hu Hok] Hmax. destruct (elements_encode md l Hok) as (bss & He & Hr & Hl).
    exists (to_be_bytes 4 (len l) ++ concat bss). split; [by apply encodes_seq|]. split.
    + by apply encodes_seq_within.
    + intros s rest Hb Hf Hbd Hm Hd. eapply vec_reads; try done. rewrite Hbd. by intros ? [= <-].
  - intros s l s' max Hw Hf Hbd Hm H.
    apply vec_sound in H as (Hok & Hmax & bss & He & Hb & Hs); [|done|done|done].
    specialize (Hmax _ Hbd). split; [done|]. split; [done|].
    exists (to_be_bytes 4 (len l) ++ concat bss). split; [|done].
    destruct Hok as [Hu _]. by apply encodes_seq_within.
Qed.
#[global] Instance codec_vec : Codec (ser_vec ser) (de_vec d) ok_vec (lv + 1) := counted_codec.
End Vec.
