(* ===== verification/XdrWrappers.v ===== *)
(** [truenas_xdr/src/wrappers.rs]: variable-length opaque in its owned,
    borrowed and copy-on-write forms, fixed-length opaque, and values held to
    a bound. *)
From stdpp Require Import pretty.
From S2P Require Import Prelude XdrBase XdrSer XdrDe XdrDeSafe XdrCodec XdrShapes.
Local Open Scope Z_scope.

(** The messages of serde's [de::Error] constructors, which reach
    [Error::custom]. *)
Definition invalid_length (n : Z) (expecting : string) : Error :=
  Message ("invalid length " +:+ pretty n +:+ ", expected " +:+ expecting).
Definition invalid_type (unexpected expecting : string) : Error :=
  Message ("invalid type: " +:+ unexpected +:+ ", expected " +:+ expecting).

(** What a derived struct's visitor and a tuple's give for a missing field. *)
Definition struct_missing (name : string) (n i : Z) : Error :=
  invalid_length i ("struct " +:+ name +:+ " with " +:+ pretty n +:+ (if n =? 1 then " element" else " elements")).
Definition tuple_missing (n i : Z) : Error := invalid_length i ("a tuple of size " +:+ pretty n).

(** A type that wraps another, reading and writing through it. *)
Lemma codec_iso {A B} (f : A → B) (g : B → A) ser (d : De A) (d' : De B) ok lv :
  (∀ s, d' s = (outcome_map f (d s).1, (d s).2)) → (∀ a, g (f a) = a) →
  Codec ser d ok lv →
  Codec (λ b, ser (g b)) d' (λ md b, ok md (g b) ∧ f (g b) = b) lv.
Proof.
  intros Hd Hgf [Hc Hs Hl]. split; [| |done].
  - intros md b [Hb Hfg]. destruct (Hc md _ Hb) as (bs & He & Hr). exists bs. split; [done|].
    intros s rest Hbf Hcl Hm Hdp. rewrite Hd, (Hr _ _ Hbf) by done. simpl. by rewrite Hfg.
  - intros s b s' Hw Hcl Hm H. rewrite Hd in H. destruct (d s) as [[a|e|w] s1] eqn:Hr; simplify_eq/=.
    rewrite Hgf. destruct (Hs _ _ _ Hw Hcl Hm Hr) as [Hok Hex]. by split; [split; [|by rewrite ?Hgf]|].
Qed.

Lemma counted_iso {A B} (f : A → B) (g : B → A) ser (d : De A) (d' : De B) ok lv count :
  (∀ s, d' s = (outcome_map f (d s).1, (d s).2)) → (∀ a, g (f a) = a) →
  Counted ser d ok lv count →
  Counted (λ b, ser (g b)) d' (λ md b, ok md (g b) ∧ f (g b) = b) lv (λ b, count (g b)).
Proof.
  intros Hd Hgf [Hcodec Hc Hs]. split; [by eapply codec_iso| |].
  - intros md b max [Hb Hfg] Hmax. destruct (Hc md _ max Hb Hmax) as (bs & He & Hew & Hr). exists bs.
    split; [done|]. split; [done|].
    intros s rest Hbf Hf Hbd Hm Hdp. rewrite Hd, (Hr _ _ Hbf) by done. simpl. by rewrite Hfg.
  - intros s b s' max Hw Hf Hbd Hm H. rewrite Hd in H. destruct (d s) as [[a|e|w] s1] eqn:Hr; simplify_eq/=.
    rewrite Hgf. destruct (Hs _ _ _ _ Hw Hf Hbd Hm Hr) as [Hok Hex]. by split; [split; [|by rewrite ?Hgf]|].
Qed.

(** Reading through a visitor that only wraps. *)
Lemma run_visit {A B} (m : De A) (f : A → B) s :
  (m ≫= λ v, lift (Ok (f v))) s
  = (outcome_map f ((m ≫= λ v, lift (Ok v)) s).1, ((m ≫= λ v, lift (Ok v)) s).2).
Proof. unfold mbind, St_bind. by destruct (m s) as [[a|e|w] s1]. Qed.

(** ** Variable-length opaque *)

(* SRC truenas_xdr/src/wrappers.rs struct VarOpaque *)
Record VarOpaque : Type := mkVarOpaque { var_opaque : bytes }.
(* SRC truenas_xdr/src/wrappers.rs impl Serialize for VarOpaque *)
#[global] Instance Serialize_VarOpaque : Serialize VarOpaque := λ v, SBytes v.(var_opaque).
(* SRC truenas_xdr/src/wrappers.rs impl Deserialize for VarOpaque *)
#[global] Instance Deserialize_VarOpaque : Deserialize VarOpaque :=
  deserialize_byte_buf (λ v, Ok (mkVarOpaque v)).

(* SRC truenas_xdr/src/wrappers.rs struct VarOpaqueRef *)
Record VarOpaqueRef : Type := mkVarOpaqueRef { var_opaque_ref : bytes }.
(* SRC truenas_xdr/src/wrappers.rs impl Serialize for VarOpaqueRef *)
#[global] Instance Serialize_VarOpaqueRef : Serialize VarOpaqueRef := λ v, SBytes v.(var_opaque_ref).
(* SRC truenas_xdr/src/wrappers.rs impl Deserialize for VarOpaqueRef *)
#[global] Instance Deserialize_VarOpaqueRef : Deserialize VarOpaqueRef :=
  deserialize_bytes (λ v, Ok (mkVarOpaqueRef v)).

(** [Cow<'a, [u8]>]. *)
Inductive Cow : Type := Borrowed (bs : bytes) | Owned (bs : bytes).

(* SRC truenas_xdr/src/wrappers.rs struct VarOpaqueCow *)
Record VarOpaqueCow : Type := mkVarOpaqueCow { var_opaque_cow : Cow }.
(* SRC truenas_xdr/src/wrappers.rs impl AsRef for VarOpaqueCow *)
Definition cow_as_ref (v : VarOpaqueCow) : bytes :=
  match v.(var_opaque_cow) with Borrowed bs | Owned bs => bs end.
(* SRC truenas_xdr/src/wrappers.rs fn into_owned *)
Definition into_owned (v : VarOpaqueCow) : VarOpaqueCow :=
  mkVarOpaqueCow (Owned (cow_as_ref v)).
(* SRC truenas_xdr/src/wrappers.rs impl Serialize for VarOpaqueCow *)
#[global] Instance Serialize_VarOpaqueCow : Serialize VarOpaqueCow := λ v, SBytes (cow_as_ref v).
(* SRC truenas_xdr/src/wrappers.rs impl Deserialize for VarOpaqueCow *)
#[global] Instance Deserialize_VarOpaqueCow : Deserialize VarOpaqueCow :=
  deserialize_bytes (λ v, Ok (mkVarOpaqueCow (Borrowed v))).

#[global] Instance counted_VarOpaque :
  Counted (to_serde (A:=VarOpaque)) deserialize (λ md v, opaque_ok md v.(var_opaque)) 0
    (λ v, len v.(var_opaque)).
Proof.
  pose proof (counted_iso mkVarOpaque var_opaque SBytes (deserialize_byte_buf Ok) deserialize opaque_ok 0
    (λ v, len v) (λ s, run_visit _ _ s) (λ _, eq_refl) counted_byte_buf) as [[Hc Hs Hl] H2 H3].
  split; [split|..]; try done.
  - intros md [v] Hv. by apply Hc.
  - intros s v s' Hw Hcl Hm H. by destruct (Hs s v s' Hw Hcl Hm H) as [[? _] ?].
  - intros md [v] max Hv. by apply H2.
  - intros s v s' max Hw Hf Hb Hm H. by destruct (H3 s v s' max Hw Hf Hb Hm H) as [[? _] ?].
Qed.

#[global] Instance counted_VarOpaqueRef :
  Counted (to_serde (A:=VarOpaqueRef)) deserialize (λ md v, opaque_ok md v.(var_opaque_ref)) 0
    (λ v, len v.(var_opaque_ref)).
Proof.
  pose proof (counted_iso mkVarOpaqueRef var_opaque_ref SBytes (deserialize_bytes Ok) deserialize opaque_ok 0
    (λ v, len v) (λ s, run_visit _ _ s) (λ _, eq_refl) counted_bytes) as [[Hc Hs Hl] H2 H3].
  split; [split|..]; try done.
  - intros md [v] Hv. by apply Hc.
  - intros s v s' Hw Hcl Hm H. by destruct (Hs s v s' Hw Hcl Hm H) as [[? _] ?].
  - intros md [v] max Hv. by apply H2.
  - intros s v s' max Hw Hf Hb Hm H. by destruct (H3 s v s' max Hw Hf Hb Hm H) as [[? _] ?].
Qed.

(** What a decoded [VarOpaqueCow] is: borrowed. *)
#[global] Instance counted_VarOpaqueCow :
  Counted (to_serde (A:=VarOpaqueCow)) deserialize
    (λ md v, opaque_ok md (cow_as_ref v) ∧ mkVarOpaqueCow (Borrowed (cow_as_ref v)) = v) 0
    (λ v, len (cow_as_ref v)).
Proof.
  exact (counted_iso (λ v, mkVarOpaqueCow (Borrowed v)) cow_as_ref SBytes (deserialize_bytes Ok) deserialize
    opaque_ok 0 (λ v, len v) (λ s, run_visit _ _ s) (λ _, eq_refl) counted_bytes).
Qed.

(** ** Fixed-length opaque *)

(* SRC truenas_xdr/src/wrappers.rs struct FixedOpaque *)
Record FixedOpaque (N : Z) : Type := mkFixedOpaque { fixed_opaque : bytes }.
Arguments mkFixedOpaque {N} _.
Arguments fixed_opaque {N} _.

Definition fixed_expecting (N : Z) : string := pretty N +:+ " fixed opaque bytes".

(* SRC truenas_xdr/src/wrappers.rs impl Serialize for RawBytes *)
Definition ser_raw_bytes (v : bytes) : Ser := SBytes v.

(* SRC truenas_xdr/src/wrappers.rs impl Serialize for FixedOpaque *)
#[global] Instance Serialize_FixedOpaque N : Serialize (FixedOpaque N) := λ v,
  SNewtypeStruct SENTINEL_FIXED (ser_raw_bytes v.(fixed_opaque)).

(* SRC truenas_xdr/src/wrappers.rs impl Visitor for FixedVisitor *)
Definition visit_fixed (N : Z) (v : bytes) : Result (FixedOpaque N) :=
  if decide (len v = N) then Ok (mkFixedOpaque v)
  else Err (Message ("expected " +:+ pretty N +:+ " bytes, got " +:+ pretty (len v))).

(* SRC truenas_xdr/src/wrappers.rs impl Deserialize for FixedOpaque *)
#[global] Instance Deserialize_FixedOpaque N : Deserialize (FixedOpaque N) :=
  deserialize_newtype_struct SENTINEL_FIXED
    (deserialize_tuple N (fail (invalid_type "sequence" (fixed_expecting N))) (visit_fixed N))
    (visit_fixed N).

Definition ok_fixed {N} (md : Strictness) (v : FixedOpaque N) : Prop := len v.(fixed_opaque) = N.

Lemma fixed_unfold N s : wf s → clean s → depth s + 1 ≤ max_depth s →
  (deserialize : De (FixedOpaque N)) s
  = match read_fixed N (deeper s) with
    | (Ok v, s2) => (visit_fixed N v, set_depth (depth s) s2)
    | (Err e, s2) => (Err e, set_depth (depth s2 - 1) s2)
    | (Stop w, s2) => (Stop w, s2)
    end ∨ N < 0.
Proof.
  intros Hw [Hf Hb] Hd. destruct (decide (N < 0)) as [|Hn]; [by right|]. left.
  unfold deserialize, Deserialize_FixedOpaque, deserialize_newtype_struct.
  rewrite bool_decide_false by done. rewrite bool_decide_true by done. rewrite run_modify.
  assert (deserialize_tuple N (fail (invalid_type "sequence" (fixed_expecting N))) (visit_fixed N)
            (deeper (XdrDe.set_fixed true s))
          = (bs ← read_fixed N; lift (visit_fixed N bs)) (deeper s)) as Heq.
  { unfold deserialize_tuple. simpl. f_equal. destruct s. simpl in *. by subst. }
  assert (wf (XdrDe.set_fixed true s)) as Hw' by (by destruct Hw).
  assert (wf (deeper s)) as Hw1. { destruct Hw. split; simpl; try done; lia. }
  destruct (read_fixed_spec N (deeper s) Hw1) as [(_ & _ & Hr)|(e & p & _ & Hr)]; [lia|..].
  - rewrite Hr. rewrite (run_bind_ok _ _ _ _ _ Hr) in Heq.
    rewrite (nested_run _ _ _ _ Hw' Hd Heq); [done| |done]. unfold visit_fixed. by case_decide.
  - rewrite Hr. rewrite (run_bind_err _ _ _ _ _ Hr) in Heq.
    rewrite (nested_run _ _ _ _ Hw' Hd Heq) by done. simpl. f_equal. unfold set_depth. simpl. f_equal. lia.
Qed.

#[global] Instance codec_FixedOpaque N :
  0 ≤ N → Codec (to_serde (A:=FixedOpaque N)) deserialize ok_fixed 1.
Proof.
  intros HN. split; [| |lia].
  - intros md [v] Hv. unfold ok_fixed in Hv. simpl in Hv. exists (v ++ zeros (pad4 (len v))).
    split; [apply encodes_fixed|]. intros s rest Hb Hc Hm Hd.
    destruct (fixed_unfold N s) as [->|]; [apply Hb|done|lia| |lia]. rewrite <- Hv.
    rewrite (read_fixed_reads _ _ _ (before_deeper _ _ _ Hb ltac:(lia))).
    unfold visit_fixed. rewrite decide_True by done. by destruct s.
  - intros s v s' Hw Hc Hm H. destruct (decide (depth s + 1 ≤ max_depth s)) as [Hd|Hd].
    2: { unfold deserialize, Deserialize_FixedOpaque, deserialize_newtype_struct in H.
         rewrite bool_decide_false in H by done. rewrite bool_decide_true in H by done.
         rewrite run_modify in H. apply nested_sound in H as [Hd' _]. by simpl in Hd'. }
    destruct (fixed_unfold N s Hw Hc Hd) as [Heq|]; [|lia]. rewrite Heq in H.
    assert (wf (deeper s)) as Hw1. { destruct Hw. split; simpl; try done; lia. }
    destruct (read_fixed N (deeper s)) as [[b|e|w] s2] eqn:Hr; [|done|done].
    apply read_fixed_sound in Hr as (Hl & Hb & ->); [|done|done|done].
    unfold visit_fixed in H. rewrite decide_True in H by done. simplify_eq. split; [done|].
    exists (b ++ zeros (pad4 (len b))). split; [apply encodes_fixed|].
    assert (set_depth (depth s) (advance (len b + pad4 (len b)) (deeper s))
            = advance (len (b ++ zeros (pad4 (len b)))) s) as Heq'.
    { rewrite length_app, Nat2Z.inj_add, len_pad. by destruct s. }
    rewrite Heq'. split; [|done]. split; [done|]. rewrite <- Heq'. apply Hb.
Qed.

(** ** Values held to a bound *)

(* SRC truenas_xdr/src/wrappers.rs struct Bounded *)
Record Bounded (T : Type) (MAX : Z) : Type := mkBounded { bounded : T }.
Arguments mkBounded {T MAX} _.
Arguments bounded {T MAX} _.

(* SRC truenas_xdr/src/wrappers.rs impl Serialize for Bounded *)
#[global] Instance Serialize_Bounded T MAX `{!Serialize T} : Serialize (Bounded T MAX) := λ v,
  STupleStruct SENTINEL_BOUNDED MAX [to_serde v.(bounded)].

(* SRC truenas_xdr/src/wrappers.rs impl Visitor for BoundedVisitor *)
Definition visit_bounded {T} `{!Deserialize T} (MAX : Z) : De (Bounded T MAX) :=
  v ← deserialize; mret (mkBounded v).

(* SRC truenas_xdr/src/wrappers.rs impl Deserialize for Bounded *)
#[global] Instance Deserialize_Bounded T MAX `{!Deserialize T} : Deserialize (Bounded T MAX) :=
  deserialize_tuple_struct SENTINEL_BOUNDED MAX
    (fail (invalid_type "sequence" ("a value no longer than " +:+ pretty MAX)))
    (visit_bounded MAX).

Section Bounded.
Context {T : Type} (MAX : Z) `{!Serialize T, !Deserialize T}
  (ok : Strictness → T → Prop) (lv : Z) (count : T → Z)
  `{!Counted (to_serde (A:=T)) (deserialize (A:=T)) ok lv count}.

Definition ok_bounded (md : Strictness) (v : Bounded T MAX) : Prop :=
  ok md v.(bounded) ∧ count v.(bounded) ≤ MAX.

(** A value within its bound has the bytes it has without the wrapper, and a
    strict decoder takes nothing else. *)
#[global] Instance codec_Bounded :
  Codec (to_serde (A:=Bounded T MAX)) deserialize ok_bounded (lv + 1).
Proof using All.
  pose proof (codec_levels (Codec:=counted_codec (Counted:=Counted0))) as Hlv. split; [| |lia].
  - intros md [v] [Hok Hc]. simpl in *.
    destruct (counted_complete (Counted:=Counted0) md v MAX Hok Hc) as (bs & _ & He & Hr).
    exists bs. split; [by apply encodes_bounded|]. intros s rest Hb [Hf Hbd] Hm Hd.
    assert (visit_bounded MAX (XdrDe.set_bound (Some MAX) (deeper s))
            = (Ok (mkBounded v), advance (len bs) (deeper s))) as Hv.
    { unfold visit_bounded. erewrite run_bind_ok.
      2: { eapply Hr; [apply before_set_bound, before_deeper; [done|lia]|done|done|done|simpl; lia]. }
      rewrite run_ret. destruct s. simpl in *. by subst. }
    unfold deserialize, Deserialize_Bounded, deserialize_tuple_struct. rewrite bool_decide_true by done.
    apply nested_reads; [apply Hb|lia|]. by rewrite run_modify.
  - intros s [v] s' Hw [Hf Hbd] Hm H.
    unfold deserialize, Deserialize_Bounded, deserialize_tuple_struct in H.
    rewrite bool_decide_true in H by done. apply nested_sound in H as (Hd & s2 & H2 & ->).
    rewrite run_modify in H2. unfold visit_bounded in H2. bind_inv.
    assert (wf (XdrDe.set_bound (Some MAX) (deeper s))) as Hw1. { destruct Hw. split; simpl; try done; lia. }
    apply (counted_sound (Counted:=Counted0) _ _ _ MAX) in Hrun as (Hok & Hc & bs & He & Hb & ->); [|done..].
    split; [done|]. exists bs. split; [by apply encodes_bounded|].
    assert (set_depth (depth (advance (len bs) (XdrDe.set_bound None (XdrDe.set_bound (Some MAX) (deeper s)))) - 1)
      (advance (len bs) (XdrDe.set_bound None (XdrDe.set_bound (Some MAX) (deeper s))))
      = advance (len bs) s) as Heq.
    { unfold set_depth, advance, set_pos, XdrDe.set_bound, deeper, set_depth. simpl.
      rewrite <- Hbd. f_equal. lia. }
    rewrite Heq. split; [|done]. split; [done|]. rewrite <- Heq. apply Hb.
Qed.
End Bounded.
