(* ===== verification/XdrArrayRef.v ===== *)
(** [VarArrayRef] and [ListRef] of [truenas_xdr/src/wrappers.rs]: an array and
    a list of optional data that keep their count and the bytes their elements
    arrived in, and the iterators that decode those bytes again. *)
From stdpp Require Import pretty.
From S2P Require Import Prelude XdrBase XdrSer XdrDe XdrDeSafe XdrCodec XdrShapes XdrWrappers.
Local Open Scope Z_scope.

(* SRC truenas_xdr/src/wrappers.rs impl Serialize for Encoded *)
Definition ser_encoded (v : bytes) : Ser := SNewtypeStruct SENTINEL_FIXED (ser_raw_bytes v).

(* SRC truenas_xdr/src/wrappers.rs impl Deserialize for Span *)
Definition de_span : De bytes :=
  deserialize_newtype_struct SENTINEL_ARRAY_REF
    (fail (invalid_type "newtype struct" "the span of a borrowed array")) Ok.

(** [span.get(from..)]. *)
Definition get_from {A} (from : Z) (l : list A) : option (list A) :=
  if from <=? len l then Some (skipn (Z.to_nat from) l) else None.

(** ** Arrays *)

(* SRC truenas_xdr/src/wrappers.rs struct VarArrayRef *)
Record VarArrayRef : Type := mkVarArrayRef { array_len : Z; array_encoded : bytes }.

(* SRC truenas_xdr/src/wrappers.rs struct VarArrayIter *)
Record VarArrayIter : Type := mkVarArrayIter { array_rest : bytes; array_left : Z }.

(* SRC truenas_xdr/src/wrappers.rs impl Serialize for VarArrayRef *)
#[global] Instance Serialize_VarArrayRef : Serialize VarArrayRef := λ v,
  SSeq (Some v.(array_len)) [ser_encoded v.(array_encoded)].

(* SRC truenas_xdr/src/wrappers.rs impl Default for VarArrayRef *)
Definition array_default : VarArrayRef := mkVarArrayRef 0 [].

(* SRC truenas_xdr/src/wrappers.rs impl PartialEq for VarArrayRef *)
Definition array_eq (a b : VarArrayRef) : bool :=
  (a.(array_len) =? b.(array_len)) && bool_decide (a.(array_encoded) = b.(array_encoded)).

Section Array.
Context {A : Type} (d : De A).

Definition array_expecting : string := "a variable-length array to borrow".

(* SRC truenas_xdr/src/wrappers.rs impl Visitor for ArrayRefVisitor *)
Definition visit_array_ref : Seq VarArrayRef :=
  n ← next_field (invalid_length 0 array_expecting) (de_element_count d);
  span ← next_field (invalid_length 1 array_expecting) de_span;
  match get_from BYTES_PER_XDR_UNIT span with
  | Some encoded => mret (mkVarArrayRef n encoded)
  | None => fail (invalid_length (len span) array_expecting)
  end.

(* SRC truenas_xdr/src/wrappers.rs impl Deserialize for VarArrayRef *)
Definition de_array_ref : De VarArrayRef :=
  deserialize_tuple_struct SENTINEL_ARRAY_REF 2 visit_array_ref
    (fail (invalid_type "newtype struct" array_expecting)).

(** [for _ in 0..n { T::deserialize(&mut de)?; }] *)
(* SRC truenas_xdr/src/wrappers.rs L 468-470 from_encoded *)
Fixpoint decode_times (n : nat) : De unit :=
  match n with
  | O => mret tt
  | S n => d;; decode_times n
  end.

(* SRC truenas_xdr/src/wrappers.rs L 452-479 from_encoded *)
Definition array_from_encoded (n : Z) (encoded : bytes) : Result VarArrayRef :=
  let units := len encoded / BYTES_PER_XDR_UNIT in
  if units <? n then Err (Eof (saturating_mul (n - units) BYTES_PER_XDR_UNIT)) else
  let '(r, de) := decode_times (Z.to_nat n) (new encoded Strict) in
  outcome_bind (λ _, outcome_bind (λ rest,
    if len rest =? 0 then Ok (mkVarArrayRef n encoded) else Err (TrailingBytes (len rest)))
    (remaining de)) r.

(* SRC truenas_xdr/src/wrappers.rs L 481-491 iter *)
Definition array_iter (v : VarArrayRef) : VarArrayIter :=
  mkVarArrayIter v.(array_encoded) v.(array_len).

(* SRC truenas_xdr/src/wrappers.rs impl Iterator for VarArrayIter *)
Definition array_next (it : VarArrayIter) : option (Result A) * VarArrayIter :=
  if it.(array_left) =? 0 then (None, it) else
  let left := it.(array_left) - 1 in
  let '(element, de) := d (with_max_depth usize_max (new it.(array_rest) Lenient)) in
  match element with
  | Ok _ =>
      match remaining de with
      | Ok rest => (Some element, mkVarArrayIter rest left)
      | Err e => (Some (Err e), mkVarArrayIter it.(array_rest) left)
      | Stop w => (Some (Stop w), mkVarArrayIter it.(array_rest) left)
      end
  | Err _ => (Some element, mkVarArrayIter it.(array_rest) 0)
  | Stop w => (Some (Stop w), mkVarArrayIter it.(array_rest) left)
  end.

(** [it.collect::<Result<Vec<T>, _>>()]. *)
Fixpoint array_collect (fuel : nat) (it : VarArrayIter) : Result (list A) :=
  match fuel with
  | O => Stop OutOfFuel
  | S fuel =>
      let '(o, it) := array_next it in
      match o with
      | None => Ok []
      | Some r => outcome_bind (λ a, outcome_map (cons a) (array_collect fuel it)) r
      end
  end.
End Array.

(** ** Lists of optional data *)

(* SRC truenas_xdr/src/wrappers.rs struct ListRef *)
Record ListRef : Type := mkListRef { list_len : Z; list_encoded : bytes }.

(* SRC truenas_xdr/src/wrappers.rs struct ListIter *)
Record ListIter : Type := mkListIter { list_rest : bytes; list_left : Z }.

(* SRC truenas_xdr/src/wrappers.rs impl Serialize for ListRef *)
#[global] Instance Serialize_ListRef : Serialize ListRef := λ v, ser_encoded v.(list_encoded).

(* SRC truenas_xdr/src/wrappers.rs impl Default for ListRef *)
Definition list_default : ListRef := mkListRef 0 [x00; x00; x00; x00].

(* SRC truenas_xdr/src/wrappers.rs impl PartialEq for ListRef *)
Definition list_eq (a b : ListRef) : bool :=
  (a.(list_len) =? b.(list_len)) && bool_decide (a.(list_encoded) = b.(list_encoded)).

Section List.
Context {A : Type} (d : De A).

Definition list_expecting : string := "a list of optional data to borrow".

(** The visitor of [ListCount]: [while let Some(Some(_)) =
    elements.next_element::<Option<T>>()? { len += 1; }]. *)
(* SRC truenas_xdr/src/wrappers.rs L 858-874 visit_seq *)
Fixpoint count_options (fuel : nat) (n : Z) : Seq Z :=
  match fuel with
  | O => halt OutOfFuel
  | S fuel =>
      o ← next_element_seed (de_option d);
      match o with
      | Some (Some _) => count_options fuel (n + 1)
      | _ => mret n
      end
  end.

(** Each element is at least its boolean, so the input bounds the loop. *)
(* SRC truenas_xdr/src/wrappers.rs impl Deserialize for ListCount *)
Definition de_list_count : De Z :=
  deserialize_tuple usize_max (λ r, count_options (S (length r.(de).(input))) 0 r)
    (λ _, Err (invalid_type "byte array" "a list of optional data")).

(* SRC truenas_xdr/src/wrappers.rs impl Visitor for ListRefVisitor *)
Definition visit_list_ref : Seq ListRef :=
  n ← next_field (invalid_length 0 list_expecting) de_list_count;
  encoded ← next_field (invalid_length 1 list_expecting) de_span;
  mret (mkListRef n encoded).

(* SRC truenas_xdr/src/wrappers.rs impl Deserialize for ListRef *)
Definition de_list_ref : De ListRef :=
  deserialize_tuple_struct SENTINEL_ARRAY_REF 2 visit_list_ref
    (fail (invalid_type "newtype struct" list_expecting)).

(** [while Option::<T>::deserialize(&mut de)?.is_some() { len += 1; }] *)
(* SRC truenas_xdr/src/wrappers.rs L 710-713 from_encoded *)
Fixpoint count_list (fuel : nat) (n : Z) : De Z :=
  match fuel with
  | O => halt OutOfFuel
  | S fuel =>
      o ← de_option d;
      match o with
      | Some _ => count_list fuel (n + 1)
      | None => mret n
      end
  end.

(* SRC truenas_xdr/src/wrappers.rs L 700-722 from_encoded *)
Definition list_from_encoded (encoded : bytes) : Result ListRef :=
  let '(r, de) := count_list (S (length encoded)) 0 (new encoded Strict) in
  outcome_bind (λ n, outcome_bind (λ rest,
    if len rest =? 0 then Ok (mkListRef n encoded) else Err (TrailingBytes (len rest)))
    (remaining de)) r.

(* SRC truenas_xdr/src/wrappers.rs L 724-734 iter *)
Definition list_iter (v : ListRef) : ListIter := mkListIter v.(list_encoded) v.(list_len).

(* SRC truenas_xdr/src/wrappers.rs impl Iterator for ListIter *)
Definition list_next (it : ListIter) : option (Result A) * ListIter :=
  if it.(list_left) =? 0 then (None, it) else
  let left := it.(list_left) - 1 in
  let '(r, de) := de_option d (with_max_depth usize_max (new it.(list_rest) Lenient)) in
  let element :=
    match r with
    | Ok (Some element) => Ok element
    | Ok None => Err (Eof 0)
    | Err error => Err error
    | Stop w => Stop w
    end in
  match element with
  | Ok _ =>
      match remaining de with
      | Ok rest => (Some element, mkListIter rest left)
      | Err e => (Some (Err e), mkListIter it.(list_rest) left)
      | Stop w => (Some (Stop w), mkListIter it.(list_rest) left)
      end
  | Err _ => (Some element, mkListIter it.(list_rest) 0)
  | Stop w => (Some (Stop w), mkListIter it.(list_rest) left)
  end.

Fixpoint list_collect (fuel : nat) (it : ListIter) : Result (list A) :=
  match fuel with
  | O => Stop OutOfFuel
  | S fuel =>
      let '(o, it) := list_next it in
      match o with
      | None => Ok []
      | Some r => outcome_bind (λ a, outcome_map (cons a) (list_collect fuel it)) r
      end
  end.
End List.

(** ** The span *)
Definition marked (s : Deserializer) : Deserializer := set_span (Some s.(pos)) (deeper s).
Definition unmarked (s s2 : Deserializer) : Deserializer :=
  set_depth s.(depth) (set_span s.(span_start) s2).

(** The bytes between two positions of one input. *)
Definition consumed (s s2 : Deserializer) : bytes := firstn (Z.to_nat (s2.(pos) - s.(pos))) (unread s).

Lemma marked_wf s : wf s → depth s + 1 ≤ max_depth s → wf (marked s).
Proof. intros [] Hd. split; simpl; try done; try lia. intros p [= <-]. lia. Qed.

Lemma consumed_unread s s2 : wf s → input s2 = input s → pos s ≤ pos s2 →
  unread s = consumed s s2 ++ unread s2.
Proof.
  intros Hw Hi Hp. pose proof (wf_pos _ Hw). unfold consumed.
  rewrite <- (take_drop (Z.to_nat (pos s2 - pos s)) (unread s)) at 1. f_equal.
  unfold unread. rewrite Hi, drop_drop. f_equal. lia.
Qed.

Lemma len_consumed s s2 : wf s → pos s ≤ pos s2 ≤ len (input s) →
  len (consumed s s2) = pos s2 - pos s.
Proof.
  intros Hw Hp. pose proof (wf_pos _ Hw). unfold consumed, unread.
  rewrite length_take, length_drop. lia.
Qed.

Lemma de_span_run s s2 : wf s → kept (marked s) s2 → de_span s2 = (Ok (consumed s s2), s2).
Proof.
  intros Hw []. simpl in *. pose proof (wf_pos _ Hw). unfold de_span, deserialize_newtype_struct.
  rewrite bool_decide_true by done. rewrite run_get, kept_span. cbn [ok_or]. rewrite run_lift.
  unfold slice. rewrite kept_input, decide_True by lia. rewrite run_lift. done.
Qed.

Section Spanned.
Context {B : Type} (e0 e1 : Error) (m : De Z) (k : Z → bytes → Seq B) (vn : De B).
Let visit : Seq B := n ← next_field e0 m; span ← next_field e1 de_span; k n span.

Lemma spanned_ok s n s2 r : wf s → depth s + 1 ≤ max_depth s → m (marked s) = (Ok n, s2) →
  kept (marked s) s2 → depth s2 = depth s + 1 →
  (∀ rd, k n (consumed s s2) rd = (r, rd)) → match r with Stop _ => False | _ => True end →
  deserialize_tuple_struct SENTINEL_ARRAY_REF 2 visit vn s = (r, unmarked s s2).
Proof.
  intros Hw Hd Hm Hk Hd2 Hkn Hr. unfold deserialize_tuple_struct.
  rewrite bool_decide_false by done. rewrite bool_decide_true by done.
  eapply nested_run; [done|done| |done|simpl; done].
  rewrite run_get, run_modify.
  change (set_span (Some (pos (deeper s))) (deeper s)) with (marked s). unfold finally, seq.
  assert (visit {| de := marked s; left := 2 |} = (r, {| de := s2; left := 0 |})) as ->.
  { unfold visit. rewrite (run_bind_ok _ _ _ _ _ (next_field_ok e0 _ _ 2 _ _ eq_refl Hm)).
    rewrite (run_bind_ok _ _ _ _ _ (next_field_ok e1 _ _ (2 - 1) _ _ eq_refl (de_span_run _ _ Hw Hk))).
    apply Hkn. }
  by destruct r.
Qed.

Lemma spanned_inv s b s' : sane m → wf s →
  deserialize_tuple_struct SENTINEL_ARRAY_REF 2 visit vn s = (Ok b, s') →
  (∀ n bs rd, (k n bs rd).2 = rd) →
  ∃ n s2, depth s + 1 ≤ max_depth s ∧ m (marked s) = (Ok n, s2) ∧ post (marked s) (Ok n) s2 ∧
    (k n (consumed s s2) {| de := s2; left := 0 |}).1 = Ok b ∧ s' = unmarked s s2.
Proof.
  intros Hm Hw H Hk. unfold deserialize_tuple_struct in H.
  rewrite bool_decide_false in H by done. rewrite bool_decide_true in H by done.
  apply nested_sound in H as (Hd & s3 & H3 & ->). rewrite run_get, run_modify in H3.
  change (set_span (Some (pos (deeper s))) (deeper s)) with (marked s) in H3. unfold finally, seq in H3.
  destruct (visit {| de := marked s; left := 2 |}) as [[b'|e|w] rd] eqn:Hv; simplify_eq/=.
  unfold visit in Hv. bind_inv. apply next_field_inv in Hrun as (s2 & Hm2 & ->).
  pose proof (Hm _ (marked_wf _ Hw Hd)) as Hp. rewrite Hm2 in Hp. simpl in Hp.
  apply next_field_inv in Hrun0 as (s4 & Hs4 & ->).
  rewrite (de_span_run _ _ Hw (proj1 Hp)) in Hs4. simplify_eq.
  pose proof (Hk a (consumed s s4) {| de := s4; left := 2 - 1 - 1 |}) as Hst.
  rewrite Hv in Hst. simpl in Hst. subst rd.
  exists a, s4. split; [done|]. split; [done|]. split; [exact Hp|].
  change (2 - 1 - 1) with 0 in Hv. rewrite Hv. split; [done|]. simpl.
  destruct Hp as (_ & Hd4 & _). unfold unmarked. f_equal. rewrite Hd4. simpl. lia.
Qed.
End Spanned.

(** The borrowed array and the borrowed list do what the owned ones do: they
    decode where [Vec<T>] and a chain of [Option<T>] decode, hold the bytes
    they were decoded from, and their iterators give the elements back. *)

(** ** Encoding bytes that are XDR already *)
Lemma aligned_pad bs : aligned bs → zeros (pad4 (len bs)) = [].
Proof. unfold aligned, pad4, BYTES_PER_XDR_UNIT. intros ->. apply zeros_0. Qed.

Lemma encodes_encoded bs : aligned bs → encodes (ser_encoded bs) bs.
Proof. intros Ha. pose proof (encodes_fixed bs) as H. by rewrite aligned_pad, app_nil_r in H. Qed.

Lemma encodes_array_ref n bs : unsigned 32 n → aligned bs →
  encodes (to_serde (mkVarArrayRef n bs)) (to_be_bytes 4 n ++ bs).
Proof.
  intros Hn Ha. rewrite <- (app_nil_r bs) at 2. apply (encodes_seq n [_] [bs]); [done|].
  by apply Forall2_cons, (conj (encodes_encoded _ Ha)).
Qed.

Lemma encodes_array_ref_within max n bs : unsigned 32 n → n ≤ max → aligned bs →
  encodes_within max (to_serde (mkVarArrayRef n bs)) (to_be_bytes 4 n ++ bs).
Proof.
  intros Hn Hm Ha. rewrite <- (app_nil_r bs) at 2. apply (encodes_seq_within max n [_] [bs]); [done|done|].
  by apply Forall2_cons, (conj (encodes_encoded _ Ha)).
Qed.

Lemma aligned_concat vs bss : Forall2 encodes vs bss → aligned (concat bss).
Proof. induction 1; simpl; [done|]. apply aligned_app; [by eapply encodes_aligned|done]. Qed.

(** ** Decoding an array *)
Lemma sane_collect {A} (d : De A) fuel : sane d → sane_seq (collect fuel d).
Proof.
  intros Hd. induction fuel as [|fuel IH]; simpl; [auto with sane|].
  apply seq_bind; [auto with sane|]. intros [a|]; auto with sane.
Qed.

Lemma sane_visit_vec {A} (d : De A) : sane d → sane_seq (visit_vec d).
Proof. intros Hd r. by apply sane_collect. Qed.

Lemma post_map {A B} (f : A → B) s r s' : post s r s' → post s (outcome_map f r) s'.
Proof. by destruct r. Qed.

Lemma sane_element_count {A} (d : De A) : sane d → sane (de_element_count d).
Proof.
  intros Hd s Hs. rewrite element_count_vec. apply post_map.
  by apply sane_deserialize_seq, Hs; apply sane_visit_vec.
Qed.

Lemma get_from_app {A} (a b : list A) : get_from (len a) (a ++ b) = Some b.
Proof.
  unfold get_from. rewrite length_app, Nat2Z.inj_add. destruct (Z.leb_spec (len a) (len a + len b)); [|lia].
  by rewrite drop_app_len.
Qed.

Lemma get_from_unit n (body : bytes) : get_from BYTES_PER_XDR_UNIT (to_be_bytes 4 n ++ body) = Some body.
Proof. pose proof (get_from_app (to_be_bytes 4 n) body) as Hg. by rewrite len_u32 in Hg. Qed.

(** The bytes a successful [Vec] decode consumed begin with its count. *)
Lemma vec_consumed {A} (d : De A) s l s2 : sane d → wf s → de_vec d s = (Ok l, s2) →
  unsigned 32 (len l) ∧ (∀ max, XdrDe.bound_pending s = Some max → len l ≤ max) ∧
  ∃ body, aligned body ∧ consumed s s2 = to_be_bytes 4 (len l) ++ body.
Proof.
  intros Hd Hw H. pose proof (sane_deserialize_seq _ (sane_visit_vec d Hd) s Hw) as Hp.
  fold (de_vec d) in Hp. rewrite H in Hp. destruct Hp as ([Hi _ _ _ Hps] & _ & H4).
  cbn [snd] in *.
  apply deserialize_seq_sound in H as (c & rd & Hu & [_ Hb] & Hw1 & Hmax & Hv & ->); [|done].
  simpl in Hps, H4, Hi. assert (4 ≤ pos (de rd) - pos s) as Hge.
  { destruct (sane_visit_vec d Hd {| de := deeper (advance 4 (XdrDe.set_bound None s)); left := c |}
      Hw1 (proj1 Hu)) as [Hp _].
    rewrite Hv in Hp. destruct Hp as ([_ _ _ _ Hps'] & _). simpl in Hps'. lia. }
  apply collect_len in Hv as <-; [|apply Hu]. split; [done|]. split; [done|].
  exists (skipn 4 (consumed s (set_depth (depth (de rd) - 1) (de rd)))).
  assert (firstn 4 (consumed s (set_depth (depth (de rd) - 1) (de rd))) = to_be_bytes 4 (len l)) as Ht.
  { unfold consumed. simpl. rewrite take_take, Nat.min_l by lia. rewrite Hb.
    rewrite take_app_le by (by rewrite length_to_be_bytes). apply take_ge. by rewrite length_to_be_bytes. }
  split; [|by rewrite <- Ht at 1; rewrite take_drop].
  unfold aligned. rewrite length_drop, Nat2Z.inj_sub.
  - rewrite len_consumed by done. simpl. rewrite Zminus_mod, H4. done.
  - pose proof (len_consumed s (set_depth (depth (de rd) - 1) (de rd)) Hw Hps) as Hl. simpl in Hl. lia.
Qed.

(** What a decoded array is, for any element type: the count of the [Vec]
    that the same bytes decode to, and those bytes. *)
Lemma array_ref_decodes {A} (d : De A) s v s' : sane d → wf s → de_array_ref d s = (Ok v, s') →
  depth s + 1 ≤ max_depth s ∧
  ∃ l s2, de_vec d (marked s) = (Ok l, s2) ∧ s' = unmarked s s2 ∧ kept (marked s) s2 ∧
    array_len v = len l ∧ unsigned 32 (len l) ∧ aligned (array_encoded v) ∧
    (∀ max, XdrDe.bound_pending s = Some max → len l ≤ max) ∧
    consumed s s2 = to_be_bytes 4 (len l) ++ array_encoded v.
Proof.
  intros Hd Hw H. apply spanned_inv in H as (n & s2 & Hdp & Hn & Hp & Hk & ->);
    [|by apply sane_element_count|done|].
  2: { intros n bs rd. by destruct (get_from BYTES_PER_XDR_UNIT bs). }
  split; [done|]. rewrite element_count_vec in Hn.
  destruct (de_vec d (marked s)) as [[l|e|w] s3] eqn:Hv; simplify_eq/=.
  exists l, s2. destruct (vec_consumed _ _ _ _ Hd (marked_wf _ Hw Hdp) Hv) as (Hu & Hmax & body & Ha & Hc).
  change (consumed (marked s) s2) with (consumed s s2) in Hc.
  rewrite Hc, get_from_unit, run_ret in Hk. simplify_eq/=.
  destruct Hp as [Hkept _]. done.
Qed.

(** An array that was decoded, under either strictness, encodes to the bytes
    it came from. *)
Lemma array_ref_reencodes {A} (d : De A) s v s' : sane d → wf s → de_array_ref d s = (Ok v, s') →
  ∃ bs, encodes (to_serde v) bs ∧ before s bs (unread s') ∧ s'.(pos) = s.(pos) + len bs.
Proof.
  intros Hd Hw H. apply array_ref_decodes in H as (Hdp & l & s2 & Hv & -> & Hk & Hn & Hu & Ha & _ & Hc); [|done|done].
  exists (consumed s s2). destruct v as [n bs]. simpl in *. subst n.
  destruct Hk as [Hi _ _ _ Hp]. simpl in *. split; [rewrite Hc; by apply encodes_array_ref|].
  split; [split; [done|]; apply (consumed_unread s s2); [done|done|lia]|]. rewrite len_consumed by done. simpl. lia.
Qed.

(** ** An array of a type that round-trips *)
Section Array.
Context {A} (ser : A → Ser) (d : De A) (ok : Strictness → A → Prop) (lv : Z)
  `{!Codec ser d ok lv, !Occupies ser ok} (d_sane : sane d).

(** [v] holds the elements [l]. *)
Definition holds (l : list A) (v : VarArrayRef) : Prop :=
  v.(array_len) = len l ∧ ∃ bss, Forall2 encodes (map ser l) bss ∧ v.(array_encoded) = concat bss.

Definition ok_array (md : Strictness) (v : VarArrayRef) : Prop :=
  ∃ l, ok_vec ok md l ∧ holds l v.

Lemma array_same_elements bss bss' vs : Forall2 encodes vs bss → Forall2 encodes vs bss' → bss = bss'.
Proof.
  intros H. revert bss'. induction H; intros bss'; inversion 1; subst; [done|].
  f_equal; [by eapply encodes_inj|by eauto].
Qed.

Lemma array_reads md l v s rest : ok_vec ok md l → holds l v →
  before s (to_be_bytes 4 (array_len v) ++ array_encoded v) rest →
  XdrDe.fixed_pending s = false → (∀ max, XdrDe.bound_pending s = Some max → array_len v ≤ max) →
  mode s = md → depth s + (lv + 2) ≤ max_depth s →
  de_array_ref d s
  = (Ok v, advance (len (to_be_bytes 4 (array_len v) ++ array_encoded v)) (XdrDe.set_bound None s)).
Proof using All.
  intros [Hu Hok] (Hn & bss & He & Henc) Hb Hf Hbd Hm Hd. destruct v as [n enc]. simpl in *. subst n enc.
  pose proof (codec_levels (Codec:=Codec0)) as Hlv.
  destruct (elements_encode ser d ok lv md l Hok) as (bss' & He' & Hr & Hl).
  rewrite <- (array_same_elements _ _ _ He He') in *. clear bss' He'.
  assert (before (marked s) (to_be_bytes 4 (len l) ++ concat bss) rest) as Hb1.
  { destruct Hb as [Hw Hun]. split; [apply marked_wf; [done|lia]|done]. }
  pose proof (vec_reads ser d ok lv md l bss (marked s) rest Hr Hl Hu Hb1 Hf Hbd Hm ltac:(simpl; lia)) as Hv.
  set (bs := to_be_bytes 4 (len l) ++ concat bss) in *.
  set (s2 := advance (len bs) (XdrDe.set_bound None (marked s))) in *.
  assert (consumed s s2 = bs) as Hc.
  { unfold consumed. subst s2. simpl. rewrite (before_unread _ _ _ Hb).
    replace (pos s + len bs - pos s) with (len bs) by lia. apply take_app_len. }
  pose proof (before_len _ _ _ Hb) as Hlen. pose proof (wf_pos _ (before_wf _ _ _ Hb)).
  unfold de_array_ref, visit_array_ref.
  rewrite (spanned_ok _ _ _ _ _ s (len l) s2 (Ok (mkVarArrayRef (len l) (concat bss))));
    [subst s2; by destruct s|apply Hb|lia| |split; simpl; try done; lia|done| |done].
  - rewrite element_count_vec, Hv. done.
  - intros rd. rewrite Hc. subst bs. by rewrite get_from_unit.
Qed.

Lemma array_sound s v s' : wf s → XdrDe.fixed_pending s = false → mode s = Strict →
  de_array_ref d s = (Ok v, s') →
  ok_array Strict v ∧ (∀ max, XdrDe.bound_pending s = Some max → array_len v ≤ max) ∧
  aligned (array_encoded v) ∧ unsigned 32 (array_len v) ∧
  before s (to_be_bytes 4 (array_len v) ++ array_encoded v) (unread s') ∧
  s' = advance (len (to_be_bytes 4 (array_len v) ++ array_encoded v)) (XdrDe.set_bound None s).
Proof using All.
  intros Hw Hf Hm H. apply array_ref_decodes in H as (Hdp & l & s2 & Hv & -> & Hk & Hn & Hu & Ha & Hmax & Hc); [|done|done].
  apply (vec_sound ser d ok lv) in Hv as (Hok & _ & bss & He & Hb & Hs2); [|by apply marked_wf|done|done].
  rewrite Hn.
  assert (consumed s s2 = to_be_bytes 4 (len l) ++ concat bss) as Hcc.
  { unfold consumed. rewrite Hs2. simpl. change (unread s) with (unread (marked s)).
    rewrite (before_unread _ _ _ Hb).
    set (bs := to_be_bytes 4 (len l) ++ concat bss).
    replace (pos s + len bs - pos s) with (len bs) by lia. apply take_app_len. }
  rewrite Hcc in Hc. apply app_inv_head in Hc. rewrite <- Hc.
  split; [exists l; split; [done|]; split; [done|]; by exists bss|].
  split; [done|]. split; [by rewrite Hc|]. split; [done|]. split.
  - split; [done|]. change (unread s) with (unread (marked s)). by rewrite (before_unread _ _ _ Hb).
  - rewrite Hs2. by destruct s.
Qed.

#[global] Instance counted_array :
  Counted (to_serde (A:=VarArrayRef)) (de_array_ref d) ok_array (lv + 2) array_len.
Proof using All.
  pose proof (codec_levels (Codec:=Codec0)) as Hlv. split; [split; [| |lia]| |].
  - intros md v (l & Hok & Hh). exists (to_be_bytes 4 (array_len v) ++ array_encoded v). split.
    + destruct Hok as [Hu _], Hh as (Hn & bss & He & Henc), v as [n enc]. simpl in *. subst.
      apply encodes_array_ref; [done|by eapply aligned_concat].
    + intros s rest Hb [Hf Hbd] Hm Hd. rewrite <- (set_bound_id s) at 2 by done.
      eapply array_reads; try done. by rewrite Hbd.
  - intros s v s' Hw [Hf Hbd] Hm H. apply array_sound in H as (Hok & _ & Ha & Hu & Hb & Hs); [|done..].
    split; [done|]. eexists. rewrite set_bound_id in Hs by done. split; [|done].
    destruct v. by apply encodes_array_ref.
  - intros md v max (l & Hok & Hh) Hmax. exists (to_be_bytes 4 (array_len v) ++ array_encoded v). split; [|split].
    + destruct Hok as [Hu _], Hh as (Hn & bss & He & Henc), v as [n enc]. simpl in *. subst.
      apply encodes_array_ref; [done|by eapply aligned_concat].
    + destruct Hok as [Hu _], Hh as (Hn & bss & He & Henc), v as [n enc]. simpl in *. subst.
      apply encodes_array_ref_within; [done|done|by eapply aligned_concat].
    + intros s rest Hb Hf Hbd Hm Hd. eapply array_reads; try done. rewrite Hbd. by intros ? [= <-].
  - intros s v s' max Hw Hf Hbd Hm H. apply array_sound in H as (Hok & Hmax & Ha & Hu & Hb & Hs); [|done..].
    specialize (Hmax _ Hbd). split; [done|]. split; [done|]. eexists. split; [|done].
    destruct v. by apply encodes_array_ref_within.
Qed.
End Array.

(** Walking a borrowed array or list, and making one from bytes: the
    iterators and [from_encoded] of [truenas_xdr/src/wrappers.rs]. *)

(** The decoder an iterator makes for each element. *)
Lemma iter_before bs rest : len (bs ++ rest) ≤ isize_max →
  before (with_max_depth usize_max (XdrDe.new (bs ++ rest) Lenient)) bs rest.
Proof.
  intros Hl. split; [|by unfold unread; simpl; rewrite drop_0].
  split; simpl; try done; try lia.
Qed.

(** Decoding and dropping is the loop of [Vec] without the [Vec]. *)
Lemma decode_times_collect {A} (d : De A) n s :
  decode_times d n s
  = (outcome_map (λ _, tt) (collect (S n) d {| de := s; left := Z.of_nat n |}).1,
     (collect (S n) d {| de := s; left := Z.of_nat n |}).2.(de)).
Proof.
  revert s. induction n as [|n IH]; intros s; [done|].
  assert (∀ r, collect (S (S n)) d r = (o ← next_element_seed d;
    match o with None => mret [] | Some a => l ← collect (S n) d; mret (a :: l) end) r) as -> by done.
  cbn [decode_times]. unfold mbind, St_bind. unfold next_element_seed.
  destruct (Z.eqb_spec (left {| de := s; left := Z.of_nat (S n) |}) 0) as [He|_]; [simpl in He; lia|].
  cbn [de left]. destruct (d s) as [[a|e|w] s']; cbn [outcome_bind]; [|done|done].
  replace (Z.of_nat (S n) - 1) with (Z.of_nat n) by lia. rewrite IH.
  by destruct (collect (S n) d _) as [[l|e|w] rd].
Qed.

Section Array.
Context {A} (ser : A → Ser) (d : De A) (ok : Strictness → A → Prop) (lv : Z)
  `{!Codec ser d ok lv, !Occupies ser ok}.

Lemma array_collect_reads l bss : Forall2 (reads Lenient d lv) bss l →
  len (concat bss) ≤ isize_max → lv ≤ usize_max →
  ∀ fuel, (length l < fuel)%nat →
  array_collect d fuel (mkVarArrayIter (concat bss) (len l)) = Ok l.
Proof using Type.
  induction 1 as [|bs a bss l Hr _ IH]; intros Hl Hlv [|fuel] Hf; try (simpl in Hf; lia); [done|].
  cbn [array_collect concat]. unfold array_next. cbn [array_left array_rest].
  destruct (Z.eqb_spec (len (a :: l)) 0) as [He|_]; [simpl in He; lia|].
  change (concat (bs :: bss)) with (bs ++ concat bss) in *.
  pose proof (iter_before _ _ Hl) as Hb.
  rewrite (Hr _ _ Hb); [|done|done|simpl; lia].
  rewrite remaining_unread by (by eapply advance_wf). rewrite (advance_unread _ _ _ Hb).
  replace (len (a :: l) - 1) with (len l) by (simpl; lia). cbn [outcome_bind].
  rewrite IH; [done| |done|simpl in Hf; lia]. rewrite length_app in Hl. lia.
Qed.

(** Iterating an array that holds admissible elements gives them back. *)
Lemma array_iterates l v : holds ser l v → Forall (ok Lenient) l → lv ≤ usize_max →
  len (array_encoded v) ≤ isize_max →
  array_collect d (S (Z.to_nat (array_len v))) (array_iter v) = Ok l.
Proof using All.
  intros (Hn & bss & He & Henc) Hok Hlv Hl.
  destruct (elements_encode ser d ok lv Lenient l Hok) as (bss' & He' & Hr & _).
  rewrite <- (array_same_elements _ _ _ He He') in Hr. unfold array_iter. rewrite Henc, Hn in *.
  apply array_collect_reads; [done|done|done|lia].
Qed.

(** [from_encoded] takes the encodings of exactly that many elements. *)
Lemma array_from_encoded_ok n enc : 0 ≤ n → len enc ≤ isize_max → lv ≤ DEFAULT_MAX_DEPTH →
  (∃ l, Forall (ok Strict) l ∧ holds ser l (mkVarArrayRef n enc)) →
  array_from_encoded d n enc = Ok (mkVarArrayRef n enc).
Proof using All.
  intros Hn Hl Hlv (l & Hok & Hlen & bss & He & Henc). simpl in *. subst enc n.
  destruct (elements_encode ser d ok lv Strict l Hok) as (bss' & He' & Hr & H4).
  rewrite <- (array_same_elements _ _ _ He He') in *. unfold array_from_encoded.
  assert (len l ≤ len (concat bss) / BYTES_PER_XDR_UNIT) as Hle.
  { apply Z.div_le_lower_bound; [done|]. unfold BYTES_PER_XDR_UNIT. lia. }
  destruct (Z.ltb_spec (len (concat bss) / BYTES_PER_XDR_UNIT) (len l)); [lia|].
  rewrite Nat2Z.id, decode_times_collect.
  pose proof (new_before (concat bss) [] Strict) as Hb. rewrite app_nil_r in Hb. specialize (Hb Hl).
  rewrite (collect_reads d lv Strict l bss Hr _ _ [] Hb) by (done || simpl; lia). cbn -[remaining len].
  rewrite remaining_unread by (by eapply advance_wf). rewrite (advance_unread _ _ _ Hb). done.
Qed.

Lemma array_from_encoded_inv n enc v : 0 ≤ n → len enc ≤ isize_max →
  array_from_encoded d n enc = Ok v →
  v = mkVarArrayRef n enc ∧ ∃ l, Forall (ok Strict) l ∧ holds ser l v.
Proof using All.
  intros Hn Hl. unfold array_from_encoded. destruct (_ <? n); [done|]. rewrite decode_times_collect.
  pose proof (new_before [] enc Strict Hl) as [Hw _]. simpl in Hw.
  destruct (collect _ d _) as [[l|e|w] rd] eqn:Hc; [|done|done].
  apply (collect_sound ser d ok lv) in Hc as (Hok & Hlen & bss & He & Hb & Hde); [|done|done|done|lia].
  cbn -[remaining len]. rewrite Hde in Hb |- *. rewrite remaining_unread by (by eapply advance_wf).
  cbn [outcome_bind].
  set (rest := unread _) in *. destruct (Z.eqb_spec (len rest) 0) as [H0|]; [|done].
  intros [= <-]. split; [done|]. exists l. split; [done|]. split; [simpl; lia|]. exists bss. split; [done|].
  destruct Hb as [_ Hb]. unfold unread in Hb. simpl in Hb. rewrite drop_0 in Hb. simpl.
  destruct rest; [|simpl in H0; lia]. by rewrite app_nil_r in Hb.
Qed.
End Array.
