(* ===== verification/XdrList.v ===== *)
(** [ListRef] of [truenas_xdr/src/wrappers.rs]: the chain of optional data it
    decodes, that the loops over it end, and the round trip. *)
From S2P Require Import Prelude XdrBase XdrSer XdrDe XdrDeSafe XdrCodec XdrShapes XdrWrappers XdrArrayRef.
Local Open Scope Z_scope.

(** The encoding of a list: a boolean of 1 before each element, one of 0 after
    the last. *)
Fixpoint chain (bss : list bytes) : bytes :=
  match bss with
  | [] => to_be_bytes 4 0
  | bs :: bss => (to_be_bytes 4 1 ++ bs) ++ chain bss
  end.

Lemma aligned_chain vs bss : Forall2 encodes vs bss → aligned (chain bss).
Proof.
  induction 1; simpl; [by apply aligned_unit|]. apply aligned_app; [|done].
  apply aligned_app; [by apply aligned_unit|by eapply encodes_aligned].
Qed.

(** ** Safety and termination, for any element type *)
Section Loop.
Context {A} (d : De A) (d_sane : sane d).

Lemma sane_option : sane (de_option d).
Proof using All.
  apply sane_bind; [auto with sane|]. intros []; [|apply sane_lift; discriminate].
  apply sane_nested. auto with sane.
Qed.

Lemma sane_count_list fuel n : sane (count_list d fuel n).
Proof using All.
  revert n. induction fuel as [|fuel IH]; intros n; simpl; [auto with sane|].
  apply sane_bind; [apply sane_option|]. intros [a|]; auto with sane.
Qed.

(** Optional data takes its boolean at least. *)
Lemma option_consumes s o s' : wf s → de_option d s = (Ok o, s') → pos s + 4 ≤ pos s'.
Proof using All.
  intros Hw H. unfold de_option, deserialize_option in H. apply bind_ok_inv in H as (b & s1 & Hb & H).
  unfold read_bool in Hb. apply bind_ok_inv in Hb as (v & s2 & Hv & Hb).
  apply read_u32_sound in Hv as (_ & Hbf & ->); [|done]. rewrite run_get in Hb.
  assert (s1 = advance 4 s) as ->.
  { repeat case_match; simplify_eq/=; by rewrite run_ret in Hb; simplify_eq. }
  pose proof (advance_wf _ _ _ Hbf) as Hw1. rewrite len_u32 in Hw1.
  assert (post (advance 4 s) (Ok o) s') as ([_ _ _ _ Hp] & _); [|simpl in Hp; lia].
  destruct b.
  - pose proof (sane_nested (a ← d; mret (Some a)) ltac:(auto with sane) _ Hw1) as Hs. by rewrite H in Hs.
  - pose proof (sane_lift (Ok (None : option A)) ltac:(done) _ Hw1) as Hs. by rewrite H in Hs.
Qed.

(** The loop of [ListCount] is the one of [from_encoded], while the reader's
    [usize::MAX] elements last. *)
Lemma count_options_list fuel n s r : Z.of_nat fuel ≤ r →
  (count_options d fuel n {| de := s; left := r |}).1 = (count_list d fuel n s).1 ∧
  (count_options d fuel n {| de := s; left := r |}).2.(de) = (count_list d fuel n s).2.
Proof using Type.
  revert n s r. induction fuel as [|fuel IH]; intros n s r Hr; [done|]. cbn [count_options count_list].
  unfold mbind, St_bind, next_element_seed. cbn [left de].
  destruct (Z.eqb_spec r 0); [lia|].
  destruct (de_option d s) as [[[a|]|e|w] s']; cbn [outcome_bind]; [|done|done|done].
  apply IH. lia.
Qed.

Lemma list_count_run s : wf s → XdrDe.fixed_pending s = false →
  de_list_count d s = (descend;; finally (count_list d (S (length (input s))) 0) ascend) s.
Proof using Type.
  intros Hw Hf. unfold de_list_count, deserialize_tuple. rewrite Hf, set_fixed_id by done.
  unfold mbind, St_bind, descend. destruct (depth s =? usize_max); [done|]. cbn [depth max_depth set_depth].
  destruct (max_depth s <? depth s + 1); [done|].
  unfold finally, seq. set (s1 := set_depth (depth s + 1) s).
  assert (Z.of_nat (S (length (input s1))) ≤ usize_max) as Hfuel.
  { pose proof (wf_input _ Hw). simpl. unfold isize_max, usize_max in *. lia. }
  destruct (count_options_list _ 0 s1 _ Hfuel) as [H1 H2]. cbn [de].
  change (length (input s)) with (length (input s1)).
  destruct (count_options _ _ _ _) as [o rd]. cbn [fst snd] in *.
  destruct (count_list _ _ _ _) as [o' s2]. cbn [fst snd] in *. by subst.
Qed.

(** Every turn consumes a unit, so the fuel of one turn per input byte is
    enough. *)
Lemma count_list_fuel : (∀ s, wf s → (d s).1 ≠ Stop OutOfFuel) →
  ∀ fuel n s, wf s → len (unread s) < 4 * Z.of_nat fuel → (count_list d fuel n s).1 ≠ Stop OutOfFuel.
Proof using All.
  intros Hd. induction fuel as [|fuel IH]; intros n s Hw Hl; [lia|]. cbn [count_list].
  unfold mbind, St_bind. destruct (de_option d s) as [[[a|]|e|w] s'] eqn:Ho; [|done|done|].
  - pose proof (sane_option s Hw) as Hp. rewrite Ho in Hp. pose proof Hp as Hk.
    destruct Hk as ([Hi _ _ _ Hpos] & _). cbn [fst snd] in *.
    apply option_consumes in Ho; [|done]. apply IH; [by eapply post_wf|].
    unfold unread in *. rewrite length_drop in *. rewrite Hi. pose proof (wf_pos _ Hw). lia.
  - cbn [fst]. intros [= ->]. unfold de_option, deserialize_option, mbind, St_bind in Ho.
    pose proof (sane_read_bool s Hw) as Hp.
    destruct (read_bool s) as [[[]|e|w] s1] eqn:Hb; [| done|done|].
    + cbn [fst snd] in Hp. pose proof (post_wf _ _ _ Hw Hp) as Hw1. unfold descend in Ho.
      destruct (depth s1 =? usize_max); [done|]. cbn [depth max_depth set_depth] in Ho. destruct (Z.ltb_spec (max_depth s1) (depth s1 + 1)); [done|].
      unfold finally in Ho. set (s2 := set_depth (depth s1 + 1) s1) in *.
      assert (wf s2) as Hw2. { destruct Hw1. split; simpl; try done; lia. }
      specialize (Hd _ Hw2). destruct (d s2) as [[a|e|w] s3]; cbn in Ho.
      * unfold ascend in Ho. by destruct (depth s3 =? 0).
      * unfold ascend in Ho. by destruct (depth s3 =? 0).
      * by simplify_eq/=.
    + unfold read_bool, read_u32, take, mbind, St_bind, get in Hb.
      repeat case_match; simplify_eq/=. unfold slice in *. by repeat case_decide; simplify_eq.
Qed.
End Loop.

(** ** Decoding a list *)
Lemma sane_list_count {A} (d : De A) : sane d → sane (de_list_count d).
Proof.
  intros Hd. apply sane_tuple; [done| |discriminate]. intros r.
  generalize (S (length (input (de r)))) as fuel. intros fuel. revert r.
  change (sane_seq (count_options d fuel 0)). generalize 0 as n.
  induction fuel as [|fuel IH]; intros n; cbn [count_options]; [auto with sane|].
  apply seq_bind; [apply seq_next, sane_option, Hd|]. intros [[a|]|]; auto with sane.
Qed.

(** What a decoded list is, for any element type: the bytes it came from, to
    which it encodes again under either strictness. *)
Lemma list_ref_decodes {A} (d : De A) s v s' : sane d → wf s → de_list_ref d s = (Ok v, s') →
  ∃ s2, depth s + 1 ≤ max_depth s ∧ de_list_count d (marked s) = (Ok (list_len v), s2) ∧
    kept (marked s) s2 ∧ aligned (list_encoded v) ∧ consumed s s2 = list_encoded v ∧ s' = unmarked s s2.
Proof.
  intros Hd Hw H. apply spanned_inv in H as (n & s2 & Hdp & Hn & Hp & Hk & ->);
    [|by apply sane_list_count|done|done].
  rewrite run_ret in Hk. simplify_eq/=. destruct Hp as (Hkept & _ & H4). exists s2.
  do 3 (split; [done|]). split; [|done]. unfold aligned.
  rewrite len_consumed; [done|done|by destruct Hkept].
Qed.

Lemma list_ref_reencodes {A} (d : De A) s v s' : sane d → wf s → de_list_ref d s = (Ok v, s') →
  ∃ bs, encodes (to_serde v) bs ∧ before s bs (unread s') ∧ s'.(pos) = s.(pos) + len bs.
Proof.
  intros Hd Hw H. apply list_ref_decodes in H as (s2 & Hdp & _ & [Hi _ _ _ Hp] & Ha & Hc & ->); [|done|done].
  exists (list_encoded v). split; [by apply encodes_encoded|]. rewrite <- Hc. simpl in *.
  split; [split; [done|]; apply (consumed_unread s s2); [done|done|lia]|]. rewrite len_consumed by done. simpl. lia.
Qed.

Section List.
Context {A} (ser : A → Ser) (d : De A) (ok : Strictness → A → Prop) (lv : Z)
  `{!Codec ser d ok lv} (d_sane : sane d).

(** [v] holds the elements [l]. *)
Definition holds_list (l : list A) (v : ListRef) : Prop :=
  v.(list_len) = len l ∧ ∃ bss, Forall2 encodes (map ser l) bss ∧ v.(list_encoded) = chain bss.

Definition ok_list (md : Strictness) (v : ListRef) : Prop :=
  ∃ l, Forall (ok md) l ∧ holds_list l v.

Lemma list_encode md l : Forall (ok md) l →
  ∃ bss, Forall2 encodes (map ser l) bss ∧ Forall2 (reads md d lv) bss l.
Proof using Codec0.
  induction 1 as [|a l Ha _ (bss & He & Hr)]; [by exists []|].
  destruct (codec_complete md a Ha) as (bs & He1 & Hr1). exists (bs :: bss). split; by constructor.
Qed.

Lemma count_list_reads md l bss : Forall2 (reads md d lv) bss l →
  ∀ fuel n s rest, before s (chain bss) rest → clean s → mode s = md →
  depth s + (lv + 1) ≤ max_depth s → (length l < fuel)%nat →
  count_list d fuel n s = (Ok (n + len l), advance (len (chain bss)) s).
Proof using Codec0.
  induction 1 as [|bs a bss l Hr _ IH]; intros [|fuel] n s rest Hb Hc Hm Hd Hf; try (simpl in Hf; lia);
    cbn [count_list chain] in *.
  - rewrite (run_bind_ok _ _ _ _ _ (option_none_reads ser d ok lv md _ _ Hb Hc Hm Hd)).
    rewrite run_ret. simpl. by rewrite Z.add_0_r.
  - rewrite (run_bind_ok _ _ _ _ _
      (option_some_reads ser d ok lv md _ _ Hr _ _ (before_prefix _ _ _ _ Hb) Hc Hm Hd)).
    apply advance_before in Hb. rewrite (IH fuel (n + 1) _ _ Hb); [|done|done|done|simpl in Hf; lia].
    rewrite advance_app. do 2 f_equal. simpl. lia.
Qed.

Lemma count_list_sound fuel n s n' s' : wf s → clean s → mode s = Strict →
  count_list d fuel n s = (Ok n', s') →
  ∃ l bss, Forall (ok Strict) l ∧ n' = n + len l ∧ Forall2 encodes (map ser l) bss ∧
    before s (chain bss) (unread s') ∧ s' = advance (len (chain bss)) s.
Proof using Codec0.
  revert n s. induction fuel as [|fuel IH]; intros n s Hw Hc Hm H; [done|]. cbn [count_list] in H.
  apply bind_ok_inv in H as (o & s1 & Ho & H).
  pose proof (codec_sound (Codec:=codec_option ser d ok lv) _ _ _ Hw Hc Hm Ho) as (Hok & bs & He & Hb & Hs1).
  destruct o as [a|].
  - destruct (sound_next _ _ _ Hb Hs1 Hc Hm) as (Hw1 & Hc1 & Hm1).
    apply IH in H as (l & bss & Hoks & -> & Hes & Hb' & Hs'); [|done|done|done].
    destruct (codec_complete Strict a Hok) as (bs' & He' & _).
    rewrite (encodes_inj _ _ _ He (encodes_some _ _ He')) in Hb, Hs1.
    exists (a :: l), (bs' :: bss). split; [by constructor|]. split; [simpl; lia|].
    split; [by constructor|]. cbn [chain]. split; [by eapply before_app|]. by rewrite Hs', Hs1, advance_app.
  - rewrite run_ret in H. simplify_eq. rewrite (encodes_inj _ _ _ He encodes_none) in Hb |- *.
    exists [], []. split; [done|]. split; [simpl; lia|]. by split; [|split].
Qed.

(** A list has fewer elements than bytes. *)
Lemma chain_len vs bss : Forall2 encodes vs bss → len vs < len (chain bss).
Proof.
  induction 1; cbn [chain]; [by rewrite len_u32|].
  rewrite !length_app, !Nat2Z.inj_add, len_u32. simpl length. lia.
Qed.

Lemma list_count_reads md l bss s rest : Forall2 encodes (map ser l) bss →
  Forall2 (reads md d lv) bss l → before s (chain bss) rest → clean s → mode s = md →
  depth s + (lv + 2) ≤ max_depth s →
  de_list_count d s = (Ok (len l), advance (len (chain bss)) s).
Proof using Codec0.
  intros He Hr Hb Hc Hm Hd. pose proof (codec_levels (Codec:=Codec0)).
  rewrite list_count_run; [|apply Hb|apply Hc]. apply nested_reads; [apply Hb|lia|].
  pose proof (before_len _ _ _ Hb). pose proof (wf_pos _ (before_wf _ _ _ Hb)).
  pose proof (chain_len _ _ He) as Hcl. rewrite length_map in Hcl.
  eapply (count_list_reads md l bss Hr _ 0);
    [by apply before_deeper; [|lia]|done|done|simpl; lia|lia].
Qed.

#[global] Instance codec_list : Codec (to_serde (A:=ListRef)) (de_list_ref d) ok_list (lv + 3).
Proof using All.
  pose proof (codec_levels (Codec:=Codec0)) as Hlv. split; [| |lia].
  - intros md [n enc] (l & Hok & Hn & bss & He & Henc). simpl in Hn, Henc. subst.
    destruct (list_encode md l Hok) as (bss' & He' & Hr). rewrite <- (array_same_elements _ _ _ He He') in Hr.
    exists (chain bss). split; [by eapply encodes_encoded, aligned_chain|]. intros s rest Hb Hc Hm Hd.
    assert (before (marked s) (chain bss) rest) as Hb1.
    { destruct Hb as [Hw Hun]. split; [apply marked_wf; [done|lia]|done]. }
    pose proof (list_count_reads md l bss (marked s) rest He Hr Hb1 Hc Hm ltac:(simpl; lia)) as Hl.
    pose proof (before_len _ _ _ Hb) as Hlen. pose proof (wf_pos _ (before_wf _ _ _ Hb)).
    assert (consumed s (advance (len (chain bss)) (marked s)) = chain bss) as Hcs.
    { unfold consumed. simpl. rewrite (before_unread _ _ _ Hb).
      replace (pos s + len (chain bss) - pos s) with (len (chain bss)) by lia. apply take_app_len. }
    unfold de_list_ref, visit_list_ref.
    rewrite (spanned_ok _ _ _ _ _ s _ _ (Ok (mkListRef (len l) (chain bss))) (before_wf _ _ _ Hb) ltac:(lia) Hl);
      [by destruct s|split; simpl; try done; lia|done| |done].
    intros rd. by rewrite Hcs.
  - intros s v s' Hw Hc Hm H.
    apply list_ref_decodes in H as (s2 & Hdp & Hn & Hk & Ha & Hcs & ->); [|done|done].
    pose proof (marked_wf _ Hw Hdp) as Hw1. rewrite list_count_run in Hn; [|done|apply Hc].
    apply nested_sound in Hn as (Hdp2 & s3 & Hn & Hs2).
    assert (wf (deeper (marked s))) as Hw2. { destruct Hw1. split; simpl in *; try done; lia. }
    apply count_list_sound in Hn as (l & bss & Hok & Hlen & He & Hb & Hs3); [|done|done|done].
    assert (unmarked s s2 = advance (len (chain bss)) s) as Heq.
    { subst s2 s3. by destruct s. }
    assert (unread s = chain bss ++ unread s3) as Hu by apply Hb.
    assert (consumed s s2 = chain bss) as Hcc.
    { unfold consumed. rewrite Hu. subst s2 s3. simpl.
      replace (pos s + len (chain bss) - pos s) with (len (chain bss)) by lia. apply take_app_len. }
    rewrite Hcc in Hcs. split; [exists l; split; [done|]; split; [simpl; lia|]; by exists bss|].
    exists (chain bss). split; [rewrite Hcs; by apply encodes_encoded|]. split; [|done].
    split; [done|]. rewrite Hu, Heq. f_equal. by subst s3.
Qed.

(** Walking the bytes gives the elements back. *)
Lemma list_collect_reads l bss : Forall2 (reads Lenient d lv) bss l →
  len (chain bss) ≤ isize_max → lv + 1 ≤ usize_max →
  ∀ fuel, (length l < fuel)%nat →
  list_collect d fuel (mkListIter (chain bss) (len l)) = Ok l.
Proof using Codec0.
  induction 1 as [|bs a bss l Hr _ IH]; intros Hl Hlv [|fuel] Hf; try (simpl in Hf; lia); [done|].
  cbn [list_collect chain]. unfold list_next. cbn [list_left list_rest].
  destruct (Z.eqb_spec (len (a :: l)) 0) as [He|_]; [simpl in He; lia|].
  cbn [chain] in Hl. pose proof (iter_before _ _ Hl) as Hb.
  rewrite (option_some_reads ser d ok lv Lenient _ _ Hr _ _ Hb) by done.
  rewrite remaining_unread by (by eapply advance_wf). rewrite (advance_unread _ _ _ Hb).
  replace (len (a :: l) - 1) with (len l) by (simpl; lia). cbn [outcome_bind].
  rewrite IH; [done| |done|simpl in Hf; lia]. rewrite length_app in Hl. lia.
Qed.

Lemma list_iterates l v : holds_list l v → Forall (ok Lenient) l → lv + 1 ≤ usize_max →
  len (list_encoded v) ≤ isize_max →
  list_collect d (S (Z.to_nat (list_len v))) (list_iter v) = Ok l.
Proof using Codec0.
  intros (Hn & bss & He & Henc) Hok Hlv Hl.
  destruct (list_encode Lenient l Hok) as (bss' & He' & Hr).
  rewrite <- (array_same_elements _ _ _ He He') in Hr. unfold list_iter. rewrite Henc, Hn in *.
  apply list_collect_reads; [done|done|done|lia].
Qed.

(** [from_encoded] takes a whole canonical list and nothing else. *)
Lemma list_from_encoded_iff enc v : len enc ≤ isize_max → lv + 1 ≤ DEFAULT_MAX_DEPTH →
  list_from_encoded d enc = Ok v ↔ list_encoded v = enc ∧ ok_list Strict v.
Proof using Codec0.
  intros Hl Hlv. unfold list_from_encoded. split.
  - pose proof (new_before [] enc Strict Hl) as [Hw _]. simpl in Hw.
    destruct (count_list d _ 0 _) as [[n|e|w] s'] eqn:Hc; [|done|done].
    apply count_list_sound in Hc as (l & bss & Hok & -> & He & Hb & Hs); [|done|done|done].
    cbn -[remaining len]. rewrite Hs in Hb |- *. rewrite remaining_unread by (by eapply advance_wf).
    cbn [outcome_bind]. set (rest := unread _) in *.
    destruct (Z.eqb_spec (len rest) 0) as [H0|]; [|done]. intros [= <-]. split; [done|].
    exists l. split; [done|]. split; [simpl; lia|]. exists bss. split; [done|].
    destruct Hb as [_ Hb]. unfold unread in Hb. simpl in Hb. rewrite drop_0 in Hb. simpl.
    destruct rest; [|simpl in H0; lia]. by rewrite app_nil_r in Hb.
  - intros (<- & l & Hok & Hn & bss & He & Henc). destruct v as [n enc]. cbn [list_len list_encoded] in *. subst.
    destruct (list_encode Strict l Hok) as (bss' & He' & Hr). rewrite <- (array_same_elements _ _ _ He He') in Hr.
    pose proof (new_before (chain bss) [] Strict) as Hb. rewrite app_nil_r in Hb. specialize (Hb Hl).
    pose proof (chain_len _ _ He) as Hcl. rewrite length_map in Hcl.
    rewrite (count_list_reads Strict l bss Hr _ 0 _ [] Hb) by (done || simpl; lia).
    cbn -[remaining len]. rewrite remaining_unread by (by eapply advance_wf).
    by rewrite (advance_unread _ _ _ Hb).
Qed.
End List.
