(* ===== verification/XdrDerive.v ===== *)
(** [truenas_xdr_derive/src/lib.rs]: what the [XdrEnum] and [XdrUnion] derives
    accept, the discriminants they assign, and the impls they generate.

    The derives work on [syn]'s syntax trees; [Expr], [Fields], [Variant] and
    [DeriveInput] hold what they look at.  A generated impl is modelled by what
    it does: the arms it matches are given by the patterns and constructors
    the expansion writes for them. *)
From stdpp Require Import pretty.
From S2P Require Import Prelude XdrBase XdrSer XdrDe XdrDeSafe XdrCodec XdrShapes XdrWrappers.
Local Open Scope Z_scope.

(** ** Declarations *)
Inductive Expr : Type :=
| ExprLit (digits : N)          (** an integer literal, the value of its digits *)
| ExprNeg (e : Expr)            (** [-e] *)
| ExprOther.

Inductive Fields : Type :=
| Unit
| Unnamed (n : nat)
| Named (names : list string).

Definition fields_len (f : Fields) : Z :=
  match f with Unit => 0 | Unnamed n => Z.of_nat n | Named names => len names end.

Record Variant : Type := {
  ident : string;
  fields : Fields;
  expr : option Expr;                      (** the declared discriminant *)
  attrs : list (string * list string)      (** each attribute's path and arguments *)
}.

Inductive GenericParam : Type :=
| LifetimeParam (name : string)
| TypeParam (name : string)
| ConstParam (name : string).

Inductive Data : Type := DataEnum (variants : list Variant) | DataOther.

Record DeriveInput : Type := {
  input_ident : string;
  generics : list GenericParam;
  data : Data
}.

Abbreviation Syn A := (Outcome A string).

(** [LitInt::base10_parse::<i32>]; the literal itself has no sign. *)
Definition base10_parse_i32 (digits : N) : Syn Z :=
  ok_or (try_signed 32 (Z.of_N digits)) "number too large to fit in target type"%string.

(* SRC truenas_xdr_derive/src/lib.rs fn parse_disc *)
Definition parse_disc (e : Expr) : Syn Z :=
  match e with
  | ExprLit digits => base10_parse_i32 digits
  | ExprNeg (ExprLit digits) => outcome_map Z.opp (base10_parse_i32 digits)
  | ExprNeg _ => Err "expected an integer literal discriminant"%string
  | ExprOther => Err "XdrEnum/XdrUnion needs an integer-literal discriminant, e.g. `= 4`"%string
  end.

(** The loop of [discriminants], from the value an implicit one would take. *)
(* SRC truenas_xdr_derive/src/lib.rs L 88-102 discriminants *)
Fixpoint discriminants_from (next : Z) (vs : list Variant) : Syn (list Z) :=
  match vs with
  | [] => Ok []
  | v :: vs =>
      outcome_bind (λ value,
        outcome_bind (λ next, outcome_map (cons value) (discriminants_from next vs))
          (ok_or (try_signed 32 (value + 1)) "discriminant overflows i32"%string))
        (match v.(expr) with Some e => parse_disc e | None => Ok next end)
  end.

(* SRC truenas_xdr_derive/src/lib.rs fn discriminants *)
Definition discriminants (vs : list Variant) : Syn (list Z) := discriminants_from 0 vs.

(* SRC truenas_xdr_derive/src/lib.rs fn reject_generics *)
Definition reject_generics (input : DeriveInput) : Syn unit :=
  match input.(generics) with
  | [] => Ok tt
  | _ => Err "XdrEnum/XdrUnion does not support generic types"%string
  end.

(* SRC truenas_xdr_derive/src/lib.rs fn union_lifetimes *)
Fixpoint union_lifetimes (params : list GenericParam) : Syn (list string) :=
  match params with
  | [] => Ok []
  | LifetimeParam name :: params =>
      if bool_decide (name = "de"%string)
      then Err "XdrUnion names the input `'de`, rename this lifetime"%string
      else outcome_map (cons name) (union_lifetimes params)
  | _ :: _ => Err "XdrUnion supports lifetime parameters only"%string
  end.

(** [attr.parse_nested_meta]: the closure on each argument in turn. *)
(* SRC truenas_xdr_derive/src/lib.rs L 147-154 is_default_arm *)
Fixpoint nested_default (found : bool) (metas : list string) : Syn bool :=
  match metas with
  | [] => Ok found
  | meta :: metas =>
      if bool_decide (meta = "default"%string) then nested_default true metas
      else Err "unknown xdr argument, expected `default`"%string
  end.

(* SRC truenas_xdr_derive/src/lib.rs L 144-157 is_default_arm *)
Fixpoint default_attrs (found : bool) (attrs : list (string * list string)) : Syn bool :=
  match attrs with
  | [] => Ok found
  | (path, metas) :: attrs =>
      if bool_decide (path = "xdr"%string)
      then outcome_bind (λ found, default_attrs found attrs) (nested_default found metas)
      else default_attrs found attrs
  end.

(* SRC truenas_xdr_derive/src/lib.rs fn is_default_arm *)
Definition is_default_arm (v : Variant) : Syn bool := default_attrs false v.(attrs).

(** The loop of [has_default_arm]: [n] variants in all, at position [i]. *)
(* SRC truenas_xdr_derive/src/lib.rs L 163-183 has_default_arm *)
Fixpoint default_arm_at (n i : Z) (found : bool) (vs : list Variant) : Syn bool :=
  match vs with
  | [] => Ok found
  | v :: vs =>
      outcome_bind (λ is_default : bool,
        if negb is_default then default_arm_at n (i + 1) found vs
        else if negb (i + 1 =? n) then Err "the default arm must be the last variant"%string
        else if bool_decide (v.(expr) ≠ None) then
          Err "the default arm takes its discriminant from its first field and cannot declare one"%string
        else if fields_len v.(fields) =? 0 then
          Err "the default arm needs a first field to hold the discriminant"%string
        else default_arm_at n (i + 1) true vs)
        (is_default_arm v)
  end.

(* SRC truenas_xdr_derive/src/lib.rs fn has_default_arm *)
Definition has_default_arm (vs : list Variant) : Syn bool := default_arm_at (len vs) 0 false vs.

(* SRC truenas_xdr_derive/src/lib.rs fn enum_data *)
Definition enum_data (input : DeriveInput) (macro_name : string) : Syn (list Variant) :=
  match input.(data) with
  | DataEnum vs => Ok vs
  | DataOther => Err (macro_name +:+ " can only be derived for enums")
  end.

(** What [expand_enum] puts in the impls: each variant's discriminant. *)
(* SRC truenas_xdr_derive/src/lib.rs L 268-282 expand_enum *)
Definition expand_enum (input : DeriveInput) : Syn (list (string * Z)) :=
  outcome_bind (λ _,
  outcome_bind (λ vs,
    if existsb (λ v, match v.(fields) with Unit => false | _ => true end) vs
    then Err "XdrEnum requires field-less variants; use XdrUnion for data-bearing ones"%string
    else outcome_map (λ discs, zip (map ident vs) discs) (discriminants vs))
    (enum_data input "XdrEnum"))
    (reject_generics input).

(** What [expand_union] puts in the impls: the arms with their discriminants
    and field counts, the default arm's field count, and the number of
    elements the decoder is told. *)
(* SRC truenas_xdr_derive/src/lib.rs L 335-361 expand_union *)
Record UnionPlan : Type := {
  plan_arms : list (Z * Z);
  plan_default : option Z;
  plan_max_elems : Z
}.

(* SRC truenas_xdr_derive/src/lib.rs L 320-361 expand_union *)
Definition expand_union (input : DeriveInput) : Syn UnionPlan :=
  outcome_bind (λ _,
  outcome_bind (λ vs,
  outcome_bind (λ discs,
  outcome_bind (λ has_default : bool,
    let explicit := (length vs - (if has_default then 1 else 0))%nat in
    let counts := map (λ v, fields_len v.(fields)) vs in
    let arms := firstn explicit (zip discs counts) in
    let default := counts !! explicit in
    Ok {| plan_arms := arms;
          plan_default := default;
          plan_max_elems :=
            Z.max (foldl (λ m '(_, n), Z.max m (1 + n)) 1 arms) (from_option id 1 default) |})
    (has_default_arm vs))
    (discriminants vs))
    (enum_data input "XdrUnion"))
    (union_lifetimes input.(generics)).

(** ** The impls of an enum *)
Section Enum.
Context {U : Type} `{!EqDecision U} (name : string).

(** [match self { Name::Ident => disc, ... }]; rustc has the match cover every
    variant, so the last line is not reached. *)
(* SRC truenas_xdr_derive/src/lib.rs L 285-295 expand_enum *)
Fixpoint enum_serialize (variants : list (U * Z)) (u : U) : Ser :=
  match variants with
  | (v, disc) :: variants => if decide (u = v) then SI32 disc else enum_serialize variants u
  | [] => SFail (Message "unreachable")
  end.

(** [match disc { disc => Ok(Name::Ident), ..., other => Err(...) }] *)
(* SRC truenas_xdr_derive/src/lib.rs L 302-313 expand_enum *)
Fixpoint enum_of_disc (variants : list (U * Z)) (other : Z) : Result U :=
  match variants with
  | (v, disc) :: variants => if other =? disc then Ok v else enum_of_disc variants other
  | [] => Err (Message ("unknown " +:+ name +:+ " discriminant " +:+ pretty other))
  end.

(* SRC truenas_xdr_derive/src/lib.rs L 296-316 expand_enum *)
Definition enum_deserialize (variants : list (U * Z)) : De U :=
  disc ← deserialize_i32 Ok;
  lift (enum_of_disc variants disc).
End Enum.

(** ** The impls of a union *)
Section Union.
Context {U : Type} (name : string).

(** An arm with its own discriminant: its fields as a tuple, the pattern that
    takes them out, the constructor that puts them back, and the calls the
    field types' impls make. *)
(* SRC truenas_xdr_derive/src/lib.rs L 363-453 expand_union *)
Record Arm : Type := mkArm {
  arm_T : Type;
  arm_match : U → option arm_T;
  arm_build : arm_T → U;
  arm_sers : arm_T → list Ser;
  arm_fields : FieldList arm_T
}.

(** The default arm, whose first field holds the discriminant.
    [default_of_disc] is that field's [Deserialize] from a bare [i32]. *)
(* SRC truenas_xdr_derive/src/lib.rs L 185-205 default_arm *)
Record DefaultArm : Type := mkDefaultArm {
  default_D : Type;
  default_T : Type;
  default_match : U → option (default_D * default_T);
  default_build : default_D → default_T → U;
  default_ser : default_D → Ser;
  default_of_disc : Z → Result default_D;
  default_sers : default_T → list Ser;
  default_fields : FieldList default_T
}.

(* SRC truenas_xdr_derive/src/lib.rs L 206-233 default_arm *)
Definition default_serialize (owned : list Z) (a : DefaultArm)
    (d : default_D a) (t : default_T a) : Ser :=
  match discriminant (default_ser a d) with
  | Ok disc =>
      if bool_decide (disc ∈ owned) then
        SFail (Message (name +:+ " discriminant " +:+ pretty disc +:+ " has an arm of its own"))
      else STuple (1 + field_count (default_fields a)) (SI32 disc :: default_sers a t)
  | Err e => SFail (Message (display_Error e))
  | Stop _ => SFail (Message "unreachable")
  end.

(** [match self { ser_arms }] *)
(* SRC truenas_xdr_derive/src/lib.rs L 354-466 expand_union *)
Fixpoint arms_serialize (owned : list Z) (default : option DefaultArm) (arms : list (Z * Arm)) (u : U) : Ser :=
  match arms with
  | (disc, a) :: arms =>
      match arm_match a u with
      | Some t => STuple (1 + field_count (arm_fields a)) (SI32 disc :: arm_sers a t)
      | None => arms_serialize owned default arms u
      end
  | [] =>
      match default ≫= λ a, (λ '(d, t), default_serialize owned a d t) <$> default_match a u with
      | Some v => v
      | None => SFail (Message "unreachable")
      end
  end.

(* SRC truenas_xdr_derive/src/lib.rs L 456-466 expand_union *)
Definition union_serialize (arms : list (Z * Arm)) (default : option DefaultArm) (u : U) : Ser :=
  arms_serialize (map fst arms) default arms u.

(* SRC truenas_xdr_derive/src/lib.rs L 436-445 expand_union *)
Definition missing_field : Z → Error := λ _, Message "missing XDR union field".

(* SRC truenas_xdr_derive/src/lib.rs L 234-253 default_arm *)
Definition default_deserialize (a : DefaultArm) (other : Z) : Seq U :=
  first ← lift (default_of_disc a other);
  rest ← read_fields missing_field 0 (default_fields a);
  mret (default_build a first rest).

(** [match tag { de_arms fallback }] *)
(* SRC truenas_xdr_derive/src/lib.rs L 341-435 expand_union *)
Fixpoint arms_deserialize (default : option DefaultArm) (arms : list (Z * Arm)) (tag : Z) : Seq U :=
  match arms with
  | (disc, a) :: arms =>
      if tag =? disc then
        t ← read_fields missing_field 0 (arm_fields a);
        mret (arm_build a t)
      else arms_deserialize default arms tag
  | [] =>
      match default with
      | Some a => default_deserialize a tag
      | None => fail (Message ("unknown " +:+ name +:+ " discriminant " +:+ pretty tag))
      end
  end.

(* SRC truenas_xdr_derive/src/lib.rs L 489-508 expand_union *)
Definition visit_union (arms : list (Z * Arm)) (default : option DefaultArm) : Seq U :=
  tag ← next_field (Message "missing XDR union discriminant") (deserialize_i32 Ok);
  arms_deserialize default arms tag.

(** The widest arm's element count. *)
(* SRC truenas_xdr_derive/src/lib.rs L 338-340 expand_union *)
Definition max_elems (arms : list (Z * Arm)) (default : option DefaultArm) : Z :=
  Z.max (foldl (λ m '(_, a), Z.max m (1 + field_count (arm_fields a))) 1 arms)
    (from_option (λ a, 1 + field_count (default_fields a)) 1 default).

(* SRC truenas_xdr_derive/src/lib.rs L 468-518 expand_union *)
Definition union_deserialize (arms : list (Z * Arm)) (default : option DefaultArm) : De U :=
  deserialize_tuple (max_elems arms default) (visit_union arms default)
    (λ _, Err (invalid_type "byte array" ("XDR union " +:+ name))).
End Union.
Arguments Arm : clear implicits.
Arguments DefaultArm : clear implicits.

(** ** Discriminants *)

(** [values_of next vs ds]: [ds] are the values the language gives the
    variants [vs] when an implicit first one is [next]. *)
Inductive values_of : Z → list Variant → list Z → Prop :=
| values_nil next : values_of next [] []
| values_explicit next v vs e value ds :
    v.(expr) = Some e → parse_disc e = Ok value → values_of (value + 1) vs ds →
    values_of next (v :: vs) (value :: ds)
| values_implicit next v vs ds :
    v.(expr) = None → values_of (next + 1) vs ds → values_of next (v :: vs) (next :: ds).

Lemma base10_parse_range n z : base10_parse_i32 n = Ok z → 0 ≤ z < 2 ^ 31.
Proof.
  unfold base10_parse_i32, try_signed. case_decide as Hs; simpl; [|done]. intros [= <-].
  unfold signed in Hs. change (32 - 1) with 31 in Hs. lia.
Qed.

Lemma parse_disc_range e z : parse_disc e = Ok z → signed 32 z.
Proof.
  unfold signed. change (32 - 1) with 31.
  destruct e as [n|[n| |]|]; simpl; intros H; simplify_eq.
  - apply base10_parse_range in H. lia.
  - destruct (base10_parse_i32 n) as [x|e|w] eqn:Hx; simplify_eq/=. apply base10_parse_range in Hx. lia.
Qed.

Lemma try_signed_some w z z' : try_signed w z = Some z' → z' = z ∧ signed w z.
Proof. unfold try_signed. case_decide; [|done]. by intros [= <-]. Qed.

(** The discriminants of a declaration that is accepted are the ones the
    language assigns, and all fit an [i32] with room for a next one. *)
Lemma discriminants_values next vs ds : signed 32 next → discriminants_from next vs = Ok ds →
  values_of next vs ds ∧ Forall (λ d, signed 32 d ∧ signed 32 (d + 1)) ds.
Proof.
  revert next ds. induction vs as [|v vs IH]; intros next ds Hn H; [simplify_eq/=; by repeat constructor|].
  cbn [discriminants_from] in H.
  destruct (match expr v with Some e => parse_disc e | None => Ok next end) as [z|e|w] eqn:Hz;
    simplify_eq/=.
  destruct (try_signed 32 (z + 1)) as [z'|] eqn:Ht; simplify_eq/=.
  apply try_signed_some in Ht as [-> Hs].
  destruct (discriminants_from (z + 1) vs) as [ds'|e|w] eqn:Hd; simplify_eq/=.
  apply IH in Hd as [Hv Hf]; [|done].
  destruct (expr v) as [e|] eqn:He.
  - split; [by eapply values_explicit|]. constructor; [|done]. split; [by eapply parse_disc_range|done].
  - simplify_eq. split; [by apply values_implicit|]. by constructor.
Qed.

(** The converse, which is where [i32::MAX] and everything past it go. *)
Lemma discriminants_accepted next vs ds : values_of next vs ds →
  Forall (λ d, signed 32 (d + 1)) ds → discriminants_from next vs = Ok ds.
Proof.
  induction 1 as [|next v vs e z ds He Hp _ IH|next v vs ds He _ IH]; intros Hf; [done| |];
    inversion Hf as [|? ? Hs Hf']; subst; cbn [discriminants_from]; rewrite He, ?Hp; cbn [outcome_bind];
    unfold try_signed; rewrite decide_True by done; cbn [ok_or outcome_bind]; by rewrite IH.
Qed.

(** ** An enum round-trips *)
Section EnumCodec.
Context {U : Type} `{!EqDecision U} (name : string) (variants : list (U * Z)).
Hypothesis covers : ∀ u, u ∈ map fst variants.
Hypothesis distinct : NoDup (map fst variants).
Hypothesis distinct_discs : NoDup (map snd variants).
Hypothesis discs_i32 : Forall (λ p, signed 32 p.2) variants.

Lemma enum_serialize_spec (vs : list (U * Z)) u : NoDup (map fst vs) → u ∈ map fst vs →
  ∃ d, (u, d) ∈ vs ∧ enum_serialize vs u = SI32 d.
Proof using Type.
  induction vs as [|[v d] vs IH]; intros Hnd Hu; [by apply elem_of_nil in Hu|]. simpl in *.
  apply NoDup_cons in Hnd as [Hni Hnd]. case_decide as Heq; [subst; exists d; split; [by left|done]|].
  apply elem_of_cons in Hu as [->|Hu]; [done|]. destruct (IH Hnd Hu) as (d' & Hin & He).
  exists d'. split; [by right|done].
Qed.

Lemma enum_of_disc_spec (vs : list (U * Z)) u d : NoDup (map snd vs) → (u, d) ∈ vs → enum_of_disc name vs d = Ok u.
Proof using Type.
  induction vs as [|[v z] vs IH]; intros Hnd Hu; [by apply elem_of_nil in Hu|]. simpl in *.
  apply NoDup_cons in Hnd as [Hni Hnd]. apply elem_of_cons in Hu as [Hu|Hu].
  - simplify_eq. by rewrite Z.eqb_refl.
  - destruct (Z.eqb_spec d z) as [->|]; [|by apply IH]. destruct Hni.
    apply (list_elem_of_fmap_2 snd _ _ Hu).
Qed.

Lemma enum_of_disc_inv (vs : list (U * Z)) u d : enum_of_disc name vs d = Ok u → (u, d) ∈ vs.
Proof using Type.
  induction vs as [|[v z] vs IH]; simpl; [done|]. destruct (Z.eqb_spec d z) as [->|].
  - intros [= ->]. by left.
  - intros H. right. by apply IH.
Qed.

Lemma enum_disc_unique u d d' : (u, d) ∈ variants → (u, d') ∈ variants → d = d'.
Proof using distinct.
  clear -distinct. induction variants as [|[v z] vs IH]; intros H1 H2; [by apply elem_of_nil in H1|].
  simpl in *. apply NoDup_cons in distinct as [Hni Hnd].
  apply elem_of_cons in H1 as [H1|H1], H2 as [H2|H2]; simplify_eq; [done| | |by apply IH].
  - destruct Hni. apply (list_elem_of_fmap_2 fst _ _ H2).
  - destruct Hni. apply (list_elem_of_fmap_2 fst _ _ H1).
Qed.

#[global] Instance codec_enum :
  Codec (enum_serialize variants) (enum_deserialize name variants) (λ _ _, True) 0.
Proof using All.
  split; [| |done].
  - intros md u _. destruct (enum_serialize_spec variants u distinct (covers u)) as (d & Hin & He).
    assert (signed 32 d) as Hd. { rewrite Forall_forall in discs_i32. by apply (discs_i32 (u, d)). }
    destruct (codec_complete (Codec:=codec_i32) md d Hd) as (bs & Hes & Hr).
    exists bs. split; [by rewrite He|]. intros s rest Hb Hc Hm Hdp. unfold enum_deserialize.
    rewrite (run_bind_ok _ _ _ _ _ (Hr _ _ Hb Hc Hm Hdp)). unfold lift.
    by rewrite (enum_of_disc_spec variants u d).
  - intros s u s' Hw Hc Hm H. unfold enum_deserialize in H. apply bind_ok_inv in H as (d & s1 & Hd & H).
    pose proof (codec_sound (Codec:=codec_i32) _ _ _ Hw Hc Hm Hd) as (Hd32 & bs & He & Hb & Hs1).
    unfold lift in H. simplify_eq. split; [done|]. exists bs. split; [|done].
    apply enum_of_disc_inv in H.
    destruct (enum_serialize_spec variants u distinct (covers u)) as (d' & Hin & Hser).
    rewrite Hser. by rewrite (enum_disc_unique u d' d Hin H).
Qed.
End EnumCodec.

(** The unions of [truenas_xdr_derive] round-trip, with and without a default
    arm, and a default arm cannot shadow an arm of its own. *)

(** [__private::discriminant] of a value that is one [i32]. *)
Lemma discriminant_i32 z : signed 32 z → discriminant (SI32 z) = Ok z.
Proof.
  intros Hz. unfold discriminant, to_writer, to_serde, Serialize_Ser. simpl.
  unfold serialize_i32, put_u32, XdrSer.put, write_all, Write_Slice. simpl.
  rewrite length_to_be_bytes. simpl.
  rewrite take_ge by (by rewrite length_to_be_bytes). rewrite app_nil_r, from_to_be_bytes.
  change (8 * Z.of_nat 4) with 32. rewrite (wrap_small 32 (wrap 32 z)) by (by apply wrap_range).
  by rewrite swrap_wrap.
Qed.

Lemma discriminant_signed v z : discriminant (v : Ser) = Ok z → signed 32 z.
Proof.
  unfold discriminant. destruct (to_writer _ _) as [r w]. case_match; [|done].
  intros [= <-]. by apply swrap_range.
Qed.

Section UnionCodec.
Context {U : Type} (name : string) (arms : list (Z * Arm U)) (default : option (DefaultArm U)) (lv : Z)
  (okA : ∀ a : Arm U, Strictness → arm_T a → Prop)
  (okD : ∀ a : DefaultArm U, Strictness → default_T a → Prop).

(** The arms' patterns and constructors are those of one [enum]. *)
Hypothesis discs_distinct : NoDup (map fst arms).
Hypothesis discs_i32 : ∀ p, p ∈ arms → signed 32 p.1.
Hypothesis arm_codec : ∀ p, p ∈ arms → FieldCodec (arm_sers p.2) (arm_fields p.2) (okA p.2) lv.
Hypothesis arm_matches : ∀ p t, p ∈ arms → arm_match p.2 (arm_build p.2 t) = Some t.
Hypothesis arm_rebuilds : ∀ p u t, p ∈ arms → arm_match p.2 u = Some t → arm_build p.2 t = u.
Hypothesis arms_disjoint : ∀ p q u t t', p ∈ arms → q ∈ arms →
  arm_match p.2 u = Some t → arm_match q.2 u = Some t' → p.1 = q.1.
Hypothesis default_codec : ∀ a, default = Some a →
  FieldCodec (default_sers a) (default_fields a) (okD a) lv.
Hypothesis default_matches : ∀ a d t, default = Some a →
  default_match a (default_build a d t) = Some (d, t).
Hypothesis default_rebuilds : ∀ a u d t, default = Some a →
  default_match a u = Some (d, t) → default_build a d t = u.
Hypothesis default_disjoint : ∀ a p u x, default = Some a → p ∈ arms →
  default_match a u = Some x → arm_match p.2 u = None.
(** What the default arm's first field makes of a discriminant stands for it. *)
Hypothesis default_disc : ∀ a x z, default = Some a → signed 32 z →
  default_of_disc a z = Ok x → discriminant (default_ser a x) = Ok z.

Definition ok_union (md : Strictness) (u : U) : Prop :=
  (∃ disc a t, (disc, a) ∈ arms ∧ arm_match a u = Some t ∧ okA a md t) ∨
  (∃ a d t disc, default = Some a ∧ default_match a u = Some (d, t) ∧
    discriminant (default_ser a d) = Ok disc ∧ default_of_disc a disc = Ok d ∧
    (disc ∉ map fst arms) ∧ okD a md t).

Lemma arms_serialize_arm owned ps disc (a : Arm U) u t : NoDup (map fst ps) → ps ⊆ arms →
  (disc, a) ∈ ps → arm_match a u = Some t →
  arms_serialize name owned default ps u
  = STuple (1 + field_count (arm_fields a)) (SI32 disc :: arm_sers a t).
Proof using arms_disjoint.
  intros Hnd Hsub Hin Hm. induction ps as [|[z b] ps IH]; [by apply elem_of_nil in Hin|].
  simpl in Hnd |- *. apply NoDup_cons in Hnd as [Hni Hnd]. apply elem_of_cons in Hin as [Hin|Hin].
  - simplify_eq. by rewrite Hm.
  - destruct (arm_match b u) as [t'|] eqn:Hb.
    + destruct Hni. assert (z = disc) as ->.
      { apply (arms_disjoint (z, b) (disc, a) u t' t); [apply Hsub; by left|apply Hsub; by right|done|done]. }
      apply (list_elem_of_fmap_2 fst _ _ Hin).
    + apply IH; [done| |done]. intros p Hp. apply Hsub. by right.
Qed.

Lemma arms_serialize_default owned ps a u d t : ps ⊆ arms → default = Some a →
  default_match a u = Some (d, t) →
  arms_serialize name owned default ps u = default_serialize name owned a d t.
Proof using default_disjoint.
  intros Hsub Ha Hm. induction ps as [|[z b] ps IH]; simpl.
  - rewrite Ha. simpl. by rewrite Hm.
  - pose proof (default_disjoint a (z, b) u (d, t) Ha (Hsub _ ltac:(by left)) Hm) as Hb.
    simpl in Hb. rewrite Hb.
    apply IH. intros p Hp. apply Hsub. by right.
Qed.

Lemma arms_deserialize_arm ps disc (a : Arm U) rd : NoDup (map fst ps) → (disc, a) ∈ ps →
  arms_deserialize name default ps disc rd
  = (t ← read_fields missing_field 0 (arm_fields a); mret (arm_build a t)) rd.
Proof using Type.
  intros Hnd Hin. induction ps as [|[z b] ps IH]; [by apply elem_of_nil in Hin|].
  simpl in Hnd |- *. apply NoDup_cons in Hnd as [Hni Hnd]. apply elem_of_cons in Hin as [Hin|Hin].
  - simplify_eq. by rewrite Z.eqb_refl.
  - destruct (Z.eqb_spec disc z) as [->|]; [|by apply IH].
    destruct Hni. apply (list_elem_of_fmap_2 fst _ _ Hin).
Qed.

Lemma arms_deserialize_default ps disc a : disc ∉ map fst ps → default = Some a →
  arms_deserialize name default ps disc = default_deserialize a disc.
Proof using Type.
  intros Hni Ha. induction ps as [|[z b] ps IH]; simpl; [by rewrite Ha|]. simpl in Hni.
  destruct (Z.eqb_spec disc z) as [->|]; [destruct Hni; by left|]. apply IH. intros H. apply Hni. by right.
Qed.

Lemma arms_deserialize_inv ps tag rd u rd' : arms_deserialize name default ps tag rd = (Ok u, rd') →
  (∃ a t, (tag, a) ∈ ps ∧ read_fields missing_field 0 (arm_fields a) rd = (Ok t, rd') ∧ u = arm_build a t) ∨
  ((tag ∉ map fst ps) ∧ ∃ a d t, default = Some a ∧ default_of_disc a tag = Ok d ∧
     read_fields missing_field 0 (default_fields a) rd = (Ok t, rd') ∧ u = default_build a d t).
Proof using Type.
  clear default_codec default_matches default_rebuilds default_disjoint default_disc.
  induction ps as [|[z b] ps IH]; simpl.
  - destruct default as [a|]; [|done]. unfold default_deserialize. intros H. right. split; [by apply not_elem_of_nil|].
    apply bind_ok_inv in H as (d & rd1 & Hd & H). apply bind_ok_inv in H as (t & rd2 & Ht & H).
    unfold lift in Hd. rewrite run_ret in H. simplify_eq. by exists a, d, t.
  - destruct (Z.eqb_spec tag z) as [->|Hne].
    + intros H. left. apply bind_ok_inv in H as (t & rd2 & Ht & H). rewrite run_ret in H. simplify_eq.
      exists b, t. by split; [left|].
    + intros [(a & t & Hin & H)|(Hni & H)]%IH; [left; exists a, t; split; [by right|done]|right; split; [|done]].
      intros [->|]%elem_of_cons; [done|done].
Qed.

(** Enough elements for every arm. *)
Lemma foldl_max_ge {A} (f : A → Z) l m : m ≤ foldl (λ m a, Z.max m (f a)) m l ∧
  ∀ a, a ∈ l → f a ≤ foldl (λ m a, Z.max m (f a)) m l.
Proof using Type.
  revert m. induction l as [|x l IH]; intros m; simpl; [split; [lia|by intros a ?%elem_of_nil]|].
  destruct (IH (Z.max m (f x))) as [H1 H2]. split; [lia|].
  intros a [->|Ha]%elem_of_cons; [lia|by apply H2].
Qed.

Lemma max_elems_arm p : p ∈ arms → 1 + field_count (arm_fields p.2) ≤ max_elems arms default.
Proof using Type.
  intros Hp. unfold max_elems.
  destruct (foldl_max_ge (λ q : Z * Arm U, 1 + field_count (arm_fields q.2)) arms 1) as [_ H].
  specialize (H _ Hp). simpl in H.
  assert (∀ m, foldl (λ m '(_, a), Z.max m (1 + field_count (@arm_fields U a))) m arms
    = foldl (λ m q, Z.max m (1 + field_count (arm_fields q.2))) m arms) as ->; [|lia].
  clear. induction arms as [|[z a] ps IH]; intros m; simpl; [done|apply IH].
Qed.

Lemma max_elems_default a : default = Some a → 1 + field_count (default_fields a) ≤ max_elems arms default.
Proof using Type. intros Ha. unfold max_elems. rewrite Ha. simpl. lia. Qed.

(** The bytes of a union value: its discriminant and its arm. *)
Lemma encodes_disc disc : encodes (SI32 disc) (to_be_bytes 4 (wrap 32 disc)).
Proof using Type. done. Qed.

Lemma union_value_reads {T} (sers : T → list Ser) (fs : FieldList T) okT md disc t (f : T → U) :
  FieldCodec sers fs okT lv → okT md t → signed 32 disc →
  1 + field_count fs ≤ max_elems arms default →
  (∀ rd, arms_deserialize name default arms disc rd
         = (t ← read_fields missing_field 0 fs; mret (f t)) rd) →
  ∃ bs, encodes (STuple (1 + field_count fs) (SI32 disc :: sers t)) bs ∧
    reads md (union_deserialize name arms default) (lv + 1) bs (f t).
Proof using Type.
  intros HF Hok Hd Hmax Hrun. pose proof (fields_levels (FieldCodec:=HF)). pose proof (fields_count (FieldCodec:=HF)).
  destruct (fields_complete md t Hok) as (bss & Hes & Hr).
  exists (to_be_bytes 4 (wrap 32 disc) ++ concat bss). split.
  { apply (encodes_tuple _ _ (to_be_bytes 4 (wrap 32 disc) :: bss)). constructor; [apply encodes_disc|done]. }
  intros s rest Hb Hc Hm Hdp. unfold union_deserialize. rewrite tuple_clean by done.
  apply nested_reads; [apply Hb|lia|]. apply before_deeper in Hb; [|lia].
  destruct (codec_complete (Codec:=codec_i32) md disc Hd) as (bs & He & Hi).
  rewrite (encodes_inj _ _ _ He (encodes_disc disc)) in Hi.
  pose proof (Hi (deeper s) _ (before_prefix _ _ _ _ Hb) Hc Hm ltac:(simpl; lia)) as Hi1.
  unfold seq, visit_union.
  rewrite (run_bind_ok _ _ _ _ _ (next_field_ok _ _ _ (max_elems arms default) _ _ ltac:(lia) Hi1)).
  rewrite Hrun. erewrite run_bind_ok.
  2: { eapply Hr; [by apply advance_before|done|done|simpl; lia|lia]. }
  rewrite run_ret. cbn [de]. by rewrite advance_app.
Qed.

Lemma union_value_sound {T} (sers : T → list Ser) (fs : FieldList T) okT disc t s1 s2 rd r s :
  FieldCodec sers fs okT lv → clean s → mode s = Strict →
  encodes (SI32 disc) s1 → before s s1 (unread s2) → s2 = advance (len s1) s →
  read_fields missing_field 0 fs {| de := s2; left := r |} = (Ok t, rd) →
  okT Strict t ∧ ∃ bs, encodes (STuple (1 + field_count fs) (SI32 disc :: sers t)) bs ∧
    before s bs (unread (de rd)) ∧ de rd = advance (len bs) s.
Proof using Type.
  intros HF Hc Hm He Hb Hs2 Hr. destruct (sound_next _ _ _ Hb Hs2 Hc Hm) as (Hw2 & Hc2 & Hm2).
  apply fields_sound in Hr as (Hok & bss & Hes & Hb' & Hde); [|done|done|done].
  split; [done|]. exists (s1 ++ concat bss). split; [|split].
  - apply (encodes_tuple _ _ (s1 :: bss)). by constructor.
  - by eapply before_app.
  - by rewrite Hde, Hs2, advance_app.
Qed.

Hypothesis lv_nonneg : 0 ≤ lv.

(** A strict decoder takes the encodings of union values and nothing else,
    and every value whose discriminant is its own arm's round-trips. *)
#[global] Instance codec_union :
  Codec (union_serialize name arms default) (union_deserialize name arms default) ok_union (lv + 1).
Proof using All.
  split; [| |lia].
  - intros md u [(disc & a & t & Hin & Hm & Hok)|(a & d & t & disc & Ha & Hm & Hd & Hod & Hni & Hok)].
    + unfold union_serialize. rewrite (arms_serialize_arm _ _ disc a u t) by done.
      rewrite <- (arm_rebuilds (disc, a) u t Hin Hm).
      eapply (union_value_reads _ _ (okA a) md disc t (arm_build a)); [by apply (arm_codec (disc, a))|done
        |by apply (discs_i32 (disc, a))|by apply (max_elems_arm (disc, a))|].
      intros rd. by apply arms_deserialize_arm.
    + unfold union_serialize. rewrite (arms_serialize_default _ _ a u d t) by done.
      unfold default_serialize. rewrite Hd, bool_decide_false by done.
      rewrite <- (default_rebuilds a u d t Ha Hm).
      eapply (union_value_reads _ _ (okD a) md disc t (default_build a d)); [by apply default_codec|done
        |by eapply discriminant_signed|by apply max_elems_default|].
      intros rd. rewrite (arms_deserialize_default _ _ a) by done. unfold default_deserialize.
      by rewrite Hod, run_lift.
  - intros s u s' Hw Hc Hm H. unfold union_deserialize in H. rewrite tuple_clean in H by done.
    apply nested_sound in H as (Hdp & s2 & H2 & ->). unfold seq in H2.
    destruct (visit_union _ _ _ _) as [r rd] eqn:Hv. simplify_eq. unfold visit_union in Hv.
    apply bind_ok_inv in Hv as (tag & rd1 & Htag & Hv). apply next_field_inv in Htag as (s3 & Htag & ->).
    assert (wf (deeper s)) as Hw1. { destruct Hw. split; simpl; try done; lia. }
    pose proof (codec_sound (Codec:=codec_i32) _ _ _ Hw1 Hc Hm Htag) as (Ht32 & bs & He & Hb & Hs3).
    assert (ok_union Strict u ∧ ∃ bs, encodes (union_serialize name arms default u) bs ∧
      before (deeper s) bs (unread (de rd)) ∧ de rd = advance (len bs) (deeper s)) as (Hok & cs & Hcs & Hbs & Hde).
    { apply arms_deserialize_inv in Hv as [(a & t & Hin & Hr & ->)|(Hni & a & d & t & Ha & Hd & Hr & ->)].
      - eapply (union_value_sound _ _ (okA a) tag t bs s3 rd _ (deeper s)) in Hr as (Hok & cs & Hcs & Hrest);
          [|by apply (arm_codec (tag, a))|done..].
        split; [left; exists tag, a, t; split; [done|]; split; [by apply (arm_matches (tag, a))|done]|].
        exists cs. split; [|done]. unfold union_serialize.
        rewrite (arms_serialize_arm _ _ tag a _ t); [done|done|done|done|by apply (arm_matches (tag, a))].
      - eapply (union_value_sound _ _ (okD a) tag t bs s3 rd _ (deeper s)) in Hr as (Hok & cs & Hcs & Hrest);
          [|by apply default_codec|done..].
        pose proof Hd as Hod. apply (default_disc a d tag Ha Ht32) in Hd.
        split; [right; exists a, d, t, tag; split; [done|]; split; [by apply default_matches|done]|].
        exists cs. split; [|done]. unfold union_serialize.
        rewrite (arms_serialize_default _ _ a _ d t) by (done || by apply default_matches).
        unfold default_serialize. by rewrite Hd, bool_decide_false. }
    split; [done|]. exists cs. split; [done|]. rewrite Hde. simpl depth. rewrite set_depth_id.
    split; [|done]. split; [done|]. rewrite Hde in Hbs. apply Hbs.
Qed.

(** A default value whose discriminant has an arm of its own does not encode:
    its bytes would decode as that arm. *)
Lemma default_refused a u d t disc : default = Some a → default_match a u = Some (d, t) →
  discriminant (default_ser a d) = Ok disc → disc ∈ map fst arms →
  union_serialize name arms default u
  = SFail (Message (name +:+ " discriminant " +:+ pretty.pretty disc +:+ " has an arm of its own")).
Proof using default_disjoint.
  intros Ha Hm Hd Hin. unfold union_serialize. rewrite (arms_serialize_default _ _ a _ d t) by done.
  unfold default_serialize. by rewrite Hd, bool_decide_true.
Qed.
End UnionCodec.
