(* ===== verification/XdrEnds.v ===== *)
(** Decoding ends: no [Deserialize] impl of the crate's types runs its loops
    past the fuel the model gives them, from any consistent decoder and on any
    input.  With [XdrDeSafe] this makes every decoding total. *)
From S2P Require Import Prelude XdrBase XdrSer XdrDe XdrDeSafe XdrCodec XdrShapes XdrWrappers XdrArrayRef XdrList XdrDerive.
Local Open Scope Z_scope.

Definition ends {A} (d : De A) : Prop := ∀ s, wf s → (d s).1 ≠ Stop OutOfFuel.
Definition ends_seq {A} (v : Seq A) : Prop :=
  ∀ r, wf r.(de) → 0 ≤ r.(left) → (v r).1 ≠ Stop OutOfFuel.

(** ** The decoder's own steps *)
Lemma ends_lift {A} (r : Result A) : r ≠ Stop OutOfFuel → ends (lift r).
Proof. by intros Hr s _. Qed.

Lemma ends_ret {A} (a : A) : ends (mret a).
Proof. by intros s _. Qed.

Lemma ends_fail {A} e : ends (A:=A) (fail e).
Proof. by intros s _. Qed.

Lemma ends_bind {A B} (m : De A) (f : A → De B) : sane m → ends m → (∀ a, ends (f a)) → ends (m ≫= f).
Proof.
  intros Hs Hm Hf s Hw. specialize (Hs s Hw). specialize (Hm s Hw). unfold mbind, St_bind.
  destruct (m s) as [[a|e|w] s']; simpl in *; [|done|congruence].
  by apply Hf, (post_wf s a).
Qed.

Lemma ends_read n s : (take n s).1 ≠ Stop OutOfFuel.
Proof.
  unfold take, slice. repeat (case_match || case_decide); simplify_eq/=; done.
Qed.

Lemma ends_read_u32 : ends read_u32.
Proof.
  intros s _. unfold read_u32, mbind, St_bind. pose proof (ends_read 4 s).
  destruct (take 4 s) as [[a|e|w] s']; simpl in *; congruence.
Qed.

Lemma ends_read_u64 : ends read_u64.
Proof.
  intros s _. unfold read_u64, mbind, St_bind. pose proof (ends_read 8 s).
  destruct (take 8 s) as [[a|e|w] s']; simpl in *; congruence.
Qed.

Lemma ends_get {A} (f : Deserializer → De A) : (∀ s, wf s → (f s s).1 ≠ Stop OutOfFuel) → ends (get ≫= f).
Proof. intros H s Hw. exact (H s Hw). Qed.

Lemma ends_modify {A} g (d : De A) : (∀ s, wf s → wf (g s)) → ends d → ends (modify g;; d).
Proof. intros Hg Hd s Hw. rewrite run_modify. by apply Hd, Hg. Qed.

Lemma ends_read_fixed n : 0 ≤ n → ends (read_fixed n).
Proof.
  intros Hn s Hw. destruct (read_fixed_spec n s Hw Hn) as [(_ & _ & Hr)|(e & p & _ & Hr)]; by rewrite Hr.
Qed.

Lemma ends_read_bool : ends read_bool.
Proof.
  apply ends_bind; [auto with sane|apply ends_read_u32|]. intros v.
  apply ends_get. intros s Hw. by repeat case_match.
Qed.

Lemma ends_check_bound l : ends (check_bound l).
Proof. intros s _. unfold check_bound. by repeat case_match. Qed.

Lemma ends_read_opaque : ends read_opaque.
Proof.
  intros s Hw. rewrite read_opaque_unfold. unfold mbind at 1, St_bind at 1.
  pose proof (ends_read_u32 s Hw). pose proof (sane_read_u32 s Hw) as Hp.
  destruct (read_u32 s) as [[l|e|w] s'] eqn:Hr; simpl in *; [|done|congruence].
  apply read_u32_range in Hr as [Hl _].
  apply ends_bind; [auto with sane|apply ends_check_bound|intros _; by apply ends_read_fixed|].
  by apply (post_wf s l).
Qed.

Lemma ends_read_str : ends read_str.
Proof.
  apply ends_bind; [auto with sane|apply ends_read_opaque|]. intros v.
  destruct (utf8_valid v); [|apply ends_fail]. apply ends_get. intros s Hw. by repeat case_match.
Qed.

(** One level of nesting. *)
Lemma ends_nested {A} (m : De A) : ends m → ends (descend;; finally m ascend).
Proof.
  intros Hm s Hw. unfold mbind, St_bind, descend.
  destruct (depth s =? usize_max); [done|]. cbn [depth max_depth set_depth].
  destruct (Z.ltb_spec (max_depth s) (depth s + 1)); [done|].
  assert (wf (set_depth (depth s + 1) s)) as Hw1. { destruct Hw. split; simpl; try done; lia. }
  specialize (Hm _ Hw1). unfold finally.
  destruct (m (set_depth (depth s + 1) s)) as [[a|e|w] s1]; simpl in *; [| |done];
    unfold ascend; by destruct (depth s1 =? 0).
Qed.

(** ** What visitors do with a sequence *)
Lemma ends_seq_ret {A} (a : A) : ends_seq (mret a).
Proof. by intros r _ _. Qed.

Lemma ends_seq_fail {A} e : ends_seq (A:=A) (fail e).
Proof. by intros r _ _. Qed.

Lemma ends_seq_lift {A} (o : Result A) : o ≠ Stop OutOfFuel → ends_seq (lift o).
Proof. by intros Ho r _ _. Qed.

Lemma ends_seq_next {A} (d : De A) : ends d → ends_seq (next_element_seed d).
Proof.
  intros Hd r Hw Hl. unfold next_element_seed. destruct (_ =? 0); [done|]. specialize (Hd _ Hw).
  destruct (d r.(de)) as [[a|e|w] s']; simpl in *; congruence.
Qed.

Lemma ends_seq_bind {A B} (m : Seq A) (f : A → Seq B) :
  sane_seq m → ends_seq m → (∀ a, ends_seq (f a)) → ends_seq (m ≫= f).
Proof.
  intros Hs Hm Hf r Hw Hl. specialize (Hs r Hw Hl) as [Hp Hl']. specialize (Hm r Hw Hl).
  unfold mbind, St_bind. destruct (m r) as [[a|e|w] r']; simpl in *; [|done|congruence].
  apply Hf; [by apply (post_wf r.(de) a)|lia].
Qed.

Lemma ends_of_seq {A} n (v : Seq A) : 0 ≤ n → ends_seq v → ends (seq n v).
Proof.
  intros Hn Hv s Hw. specialize (Hv {| de := s; left := n |} Hw Hn). unfold seq. by destruct (v _).
Qed.

Create HintDb ends.
#[export] Hint Resolve ends_lift ends_ret ends_fail ends_bind ends_read_u32 ends_read_u64 ends_read_bool
  ends_read_str ends_read_opaque ends_check_bound ends_nested ends_of_seq ends_seq_ret ends_seq_fail
  ends_seq_lift ends_seq_next ends_seq_bind : ends.

(** ** The types *)
Section Types.
Context {A : Type} (d : De A) (d_sane : sane d) (d_ends : ends d).

Lemma ends_option : ends (de_option d).
Proof using All.
  apply ends_bind; [auto with sane|apply ends_read_bool|]. intros []; [|by apply ends_lift].
  apply ends_nested, ends_bind; auto with ends.
Qed.

Lemma ends_collect fuel r : wf r.(de) → 0 ≤ r.(left) < Z.of_nat fuel →
  (collect fuel d r).1 ≠ Stop OutOfFuel.
Proof using All.
  revert r. induction fuel as [|fuel IH]; intros r Hw Hr; [lia|]. cbn [collect].
  unfold mbind at 1, St_bind at 1.
  destruct (seq_next d d_sane r Hw ltac:(lia)) as [Hp _].
  pose proof (ends_seq_next d d_ends r Hw ltac:(lia)) as He.
  destruct (next_element_seed d r) as [[[a|]|e|w] r'] eqn:Hn; simpl in *; [|done|done|congruence].
  apply next_element_left in Hn as [Hne Hl].
  specialize (IH r' (post_wf _ (Some a) _ Hw Hp) ltac:(lia)). unfold mbind, St_bind.
  destruct (collect fuel d r') as [[l|e|w] r'']; simpl in *; [done|done|congruence].
Qed.

Lemma ends_deserialize_seq {B} (v : Seq B) : ends_seq v → ends (deserialize_seq v).
Proof.
  intros Hv s Hw. unfold deserialize_seq. unfold mbind at 1, St_bind at 1.
  pose proof (ends_read_u32 s Hw). pose proof (sane_read_u32 s Hw) as Hp.
  destruct (read_u32 s) as [[c|e|w] s'] eqn:Hr; simpl in *; [|done|congruence].
  apply read_u32_range in Hr as [Hc _]. pose proof (post_wf _ c _ Hw Hp) as Hw'. clear s Hw Hp H.
  revert s' Hw'. apply ends_bind; [auto with sane|apply ends_check_bound|]. intros _.
  apply ends_get. intros s Hw. rewrite remaining_unread by done. rewrite run_lift.
  destruct (_ <? c); [done|]. apply ends_nested; [|done]. by apply ends_of_seq.
Qed.

Lemma ends_vec : ends (de_vec d).
Proof using All.
  apply ends_deserialize_seq. intros r Hw Hl. apply ends_collect; [done|]. lia.
Qed.

Lemma ends_element_count : ends (de_element_count d).
Proof using All.
  intros s Hw. rewrite element_count_vec. pose proof (ends_vec s Hw).
  destruct (de_vec d s) as [[l|e|w] s']; simpl in *; congruence.
Qed.

Lemma ends_list_count : ends (de_list_count d).
Proof using All.
  intros s Hw. unfold de_list_count, deserialize_tuple.
  destruct (XdrDe.fixed_pending s) eqn:Hf.
  - apply (ends_bind (read_fixed usize_max) (λ bs, lift (Err _)));
      [by apply sane_read_fixed|by apply ends_read_fixed|intros; by apply ends_lift|by destruct Hw].
  - rewrite set_fixed_id by done.
    pose proof (list_count_run d s Hw Hf) as Heq. unfold de_list_count, deserialize_tuple in Heq.
    rewrite Hf, set_fixed_id in Heq by done. rewrite Heq. clear Heq.
    unfold mbind, St_bind, descend. destruct (depth s =? usize_max); [done|]. cbn [depth max_depth set_depth].
    destruct (Z.ltb_spec (max_depth s) (depth s + 1)); [done|].
    assert (wf (set_depth (depth s + 1) s)) as Hw1. { destruct Hw. split; simpl; try done; lia. }
    pose proof (count_list_fuel d d_sane d_ends (S (length (input s))) 0 _ Hw1) as Hfuel.
    unfold finally. destruct (count_list _ _ _ _) as [[n|e|w] s1];
      [unfold ascend; by destruct (depth s1 =? 0)..|].
    apply Hfuel. unfold unread. simpl. rewrite length_drop. lia.
Qed.
End Types.

Lemma wf_set_fixed b s : wf s → wf (set_fixed b s).
Proof. by intros []. Qed.
Lemma wf_set_bound o s : wf s → wf (set_bound o s).
Proof. by intros []. Qed.

Lemma ends_tuple {A} n (v : Seq A) vb : 0 ≤ n → ends_seq v → (∀ x, vb x ≠ Stop OutOfFuel) →
  ends (deserialize_tuple n v vb).
Proof.
  intros Hn Hv Hvb s Hw. unfold deserialize_tuple. apply (wf_set_fixed false) in Hw.
  destruct (fixed_pending s).
  - apply (ends_bind (read_fixed n)); auto using sane_read_fixed, ends_read_fixed with ends.
  - apply ends_nested; auto with ends.
Qed.

Lemma ends_finally {A} (m : De A) f : ends m → ends (finally m (modify f)).
Proof.
  intros Hm s Hw. specialize (Hm s Hw). unfold finally. by destruct (m s) as [[a|e|w] s'].
Qed.

Lemma ends_tuple_struct {A} name n (v : Seq A) vn : 0 ≤ n → ends_seq v → ends vn →
  ends (deserialize_tuple_struct name n v vn).
Proof.
  intros Hn Hv Hvn. unfold deserialize_tuple_struct. apply ends_nested. repeat case_bool_decide.
  - apply ends_modify; auto using wf_set_bound.
  - apply ends_get. intros s Hw. rewrite run_modify. apply ends_finally; [by apply ends_of_seq|].
    destruct Hw. split; simpl; try done. intros p [= <-]. lia.
  - by apply ends_of_seq.
Qed.

Lemma ends_newtype {A} name (v : De A) vb : ends v → (∀ x, vb x ≠ Stop OutOfFuel) →
  ends (deserialize_newtype_struct name v vb).
Proof.
  intros Hv Hvb. unfold deserialize_newtype_struct. case_bool_decide.
  - apply ends_get. intros s Hw. destruct (span_start s) as [p|] eqn:Hp; [|done]. cbn [ok_or].
    rewrite run_lift. unfold slice. pose proof (wf_span _ Hw _ Hp). pose proof (wf_pos _ Hw).
    rewrite decide_True by lia. rewrite run_lift. apply Hvb.
  - case_bool_decide; [apply ends_modify; [by apply wf_set_fixed|]|]; by apply ends_nested.
Qed.

Lemma sane_next_field {A} e (d : De A) : sane d → sane_seq (next_field e d).
Proof. intros Hd. apply seq_bind; [by apply seq_next|]. intros [a|]; auto with sane. by apply (seq_lift (Err e)). Qed.
Lemma ends_next_field {A} e (d : De A) : sane d → ends d → ends_seq (next_field e d).
Proof.
  intros Hs Hd. apply ends_seq_bind; auto with sane ends. intros [a|]; auto with ends.
Qed.

(** Fields read one after another. *)
Inductive all_fields (P : ∀ A, De A → Prop) : ∀ T, FieldList T → Prop :=
| all_nil : all_fields P unit FNil
| all_cons A B (d : De A) (fs : FieldList B) : P A d → all_fields P B fs → all_fields P (A * B) (FCons d fs).

Lemma sane_read_fields T (fs : FieldList T) : all_fields (@sane) T fs →
  ∀ missing i, sane_seq (read_fields missing i fs).
Proof.
  induction 1 as [|A B d fs Hd _ IH]; intros missing i; cbn [read_fields]; [auto with sane|].
  apply seq_bind; [by apply sane_next_field|]. intros a. apply seq_bind; auto with sane.
Qed.

Lemma ends_read_fields T (fs : FieldList T) : all_fields (@sane) T fs → all_fields (@ends) T fs →
  ∀ missing i, ends_seq (read_fields missing i fs).
Proof.
  intros Hs. induction Hs as [|A B d fs Hd Hs IH]; intros He missing i; cbn [read_fields]; [auto with ends|].
  assert (ends d ∧ all_fields (@ends) B fs) as [Hed Hefs].
  { clear -He. refine (match He in all_fields _ T fs return
      match fs in FieldList T return Prop with FNil => True | FCons d fs => ends d ∧ all_fields (@ends) _ fs end
      with all_nil _ => I | all_cons _ _ _ _ _ H1 H2 => conj H1 H2 end). }
  apply ends_seq_bind; [by apply sane_next_field|by apply ends_next_field|]. intros a.
  apply ends_seq_bind; [by apply sane_read_fields|auto|]. auto with ends.
Qed.

Section Wrapped.
Context {A : Type} (d : De A) (d_sane : sane d) (d_ends : ends d).

Lemma sane_de_span : sane de_span.
Proof. apply sane_newtype; [apply sane_fail|]. auto with sane. Qed.
Lemma ends_de_span : ends de_span.
Proof. apply ends_newtype; [apply ends_fail|done]. Qed.

Lemma sane_array_ref : sane (de_array_ref d).
Proof using All.
  apply sane_tuple_struct; [done| |apply sane_fail].
  apply seq_bind; [by apply sane_next_field, sane_element_count|]. intros n.
  apply seq_bind; [apply sane_next_field, sane_de_span|]. intros bs.
  destruct (get_from _ _); [auto with sane|]. by apply (seq_lift (Err _)).
Qed.

Lemma ends_array_ref : ends (de_array_ref d).
Proof using All.
  apply ends_tuple_struct; [done| |apply ends_fail].
  apply ends_seq_bind; [by apply sane_next_field, sane_element_count|
    apply ends_next_field; [by apply sane_element_count|by apply ends_element_count]|]. intros n.
  apply ends_seq_bind; [apply sane_next_field, sane_de_span|apply ends_next_field;
    [apply sane_de_span|apply ends_de_span]|]. intros bs. destruct (get_from _ _); auto with ends.
Qed.

Lemma sane_list_ref : sane (de_list_ref d).
Proof using All.
  apply sane_tuple_struct; [done| |apply sane_fail].
  apply seq_bind; [by apply sane_next_field, sane_list_count|]. intros n.
  apply seq_bind; [apply sane_next_field, sane_de_span|]. auto with sane.
Qed.

Lemma ends_list_ref : ends (de_list_ref d).
Proof using All.
  apply ends_tuple_struct; [done| |apply ends_fail].
  apply ends_seq_bind; [by apply sane_next_field, sane_list_count|
    apply ends_next_field; [by apply sane_list_count|by apply ends_list_count]|]. intros n.
  apply ends_seq_bind; [apply sane_next_field, sane_de_span|apply ends_next_field;
    [apply sane_de_span|apply ends_de_span]|]. auto with ends.
Qed.

Lemma sane_bounded MAX : 0 ≤ MAX → sane (@deserialize (Bounded A MAX) (Deserialize_Bounded A MAX (Deserialize0:=d))).
Proof using All.
  intros HM. apply sane_tuple_struct; [done|by apply (seq_lift (Err _))|].
  apply sane_bind; auto with sane.
Qed.

Lemma ends_bounded MAX : 0 ≤ MAX → ends (@deserialize (Bounded A MAX) (Deserialize_Bounded A MAX (Deserialize0:=d))).
Proof using All.
  intros HM. apply ends_tuple_struct; [done|apply ends_seq_fail|]. apply ends_bind; auto with ends.
Qed.
End Wrapped.

Lemma sane_fixed N : 0 ≤ N → sane (deserialize (A:=FixedOpaque N)).
Proof.
  intros HN. assert (∀ x, quiet (visit_fixed N x)) as Hq by (intros x; unfold visit_fixed; by case_decide).
  apply sane_newtype; [|done]. apply sane_tuple; [done|by apply (seq_lift (Err _))|done].
Qed.

Lemma ends_fixed N : 0 ≤ N → ends (deserialize (A:=FixedOpaque N)).
Proof.
  intros HN. assert (∀ x, visit_fixed N x ≠ Stop OutOfFuel) as Hq by (intros x; unfold visit_fixed; by case_decide).
  apply ends_newtype; [|done]. apply ends_tuple; [done|apply ends_seq_fail|done].
Qed.

(** ** Errors on their way out *)

(** One level of nesting hands an error on. *)
Lemma nested_err {A} (m : De A) s e : sane m → wf s → depth s + 1 ≤ max_depth s →
  (m (deeper s)).1 = Err e → ((descend;; finally m ascend) s).1 = Err e.
Proof.
  intros Hs Hw Hd He. assert (wf (deeper s)) as Hw1. { destruct Hw. split; simpl; try done; lia. }
  specialize (Hs _ Hw1). erewrite run_bind_ok.
  2: { unfold descend. destruct Hw. destruct (Z.eqb_spec (depth s) usize_max); [lia|]. simpl.
       destruct (Z.ltb_spec (max_depth s) (depth s + 1)); [lia|]. reflexivity. }
  unfold finally. fold (deeper s). destruct (m (deeper s)) as [[a|e'|w] s2]; simpl in *; simplify_eq.
  unfold ascend. destruct Hs as [_ Hd2], Hw. destruct (Z.eqb_spec (depth s2) 0); [simpl in *; lia|done].
Qed.

Lemma bind_err {A B} (m : De A) (f : A → De B) s e : (m s).1 = Err e → ((m ≫= f) s).1 = Err e.
Proof. unfold mbind, St_bind. destruct (m s) as [[a|e'|w] s']; simpl; intros; by simplify_eq. Qed.
