(* ===== verification/XdrTypes.v ===== *)
(** The types a program moves through [truenas_xdr], as one language: every
    scalar, string and opaque, options, arrays, lists, bounded values, structs
    and tuples, nested to any depth.  For each type of the language: its
    values, the calls its impls make, the values that have an encoding, and
    the proofs that its decoder is safe, ends, and is the encoder's inverse.
    And a recursive type, which that language does not have. *)
From stdpp Require Import pretty.
From S2P Require Import Prelude XdrBase XdrSer XdrDe XdrDeSafe XdrCodec XdrShapes XdrWrappers XdrArrayRef XdrList XdrEnds.
Local Open Scope Z_scope.

Inductive ty : Type :=
| TBool | TI8 | TI16 | TI32 | TI64 | TU8 | TU16 | TU32 | TU64 | TF32 | TF64 | TChar
| TStr | TString | TVarOpaque | TVarOpaqueRef
| TFixedOpaque (n : nat)
| TOption (t : ty)
| TVec (t : ty)
| TVarArrayRef (t : ty)
| TListRef (t : ty)
| TBounded (max : Z) (t : ty)
| TStruct (name : string) (fs : tys)
| TTuple (fs : tys)
with tys : Type := TNil | TCons (field : string) (t : ty) (fs : tys).

Scheme ty_mut := Induction for ty Sort Prop with tys_mut := Induction for tys Sort Prop.
Combined Scheme ty_tys_ind from ty_mut, tys_mut.

(** ** Values *)
Fixpoint den (t : ty) : Type :=
  match t with
  | TBool => bool
  | TI8 | TI16 | TI32 | TI64 | TU8 | TU16 | TU32 | TU64 | TF32 | TF64 | TChar => Z
  | TStr | TString => bytes
  | TVarOpaque => VarOpaque
  | TVarOpaqueRef => VarOpaqueRef
  | TFixedOpaque n => FixedOpaque (Z.of_nat n)
  | TOption t => option (den t)
  | TVec t => list (den t)
  | TVarArrayRef t => VarArrayRef
  | TListRef t => ListRef
  | TBounded max t => Bounded (den t) max
  | TStruct _ fs | TTuple fs => dens fs
  end
with dens (fs : tys) : Type :=
  match fs with
  | TNil => unit
  | TCons _ t fs => den t * dens fs
  end.

Fixpoint names (fs : tys) : list string :=
  match fs with TNil => [] | TCons f _ fs => f :: names fs end.

(** ** The impls *)
Fixpoint ser (t : ty) : den t → Ser :=
  match t with
  | TBool => SBool
  | TI8 => SI8 | TI16 => SI16 | TI32 => SI32 | TI64 => SI64
  | TU8 => SU8 | TU16 => SU16 | TU32 => SU32 | TU64 => SU64
  | TF32 => SF32 | TF64 => SF64 | TChar => SChar
  | TStr | TString => SStr
  | TVarOpaque => to_serde (A:=VarOpaque)
  | TVarOpaqueRef => to_serde (A:=VarOpaqueRef)
  | TFixedOpaque n => to_serde (A:=FixedOpaque (Z.of_nat n))
  | TOption t => ser_option (ser t)
  | TVec t => ser_vec (ser t)
  | TVarArrayRef t => to_serde (A:=VarArrayRef)
  | TListRef t => to_serde (A:=ListRef)
  | TBounded max t => Serialize_Bounded (den t) max (Serialize0:=ser t)
  | TStruct name fs => λ v, SStruct name (len (names fs)) (sers fs v)
  | TTuple fs => λ v, STuple (len (names fs)) (sers fs v)
  end
with sers (fs : tys) : dens fs → list Ser :=
  match fs with
  | TNil => λ _, []
  | TCons _ t fs => λ v, ser t v.1 :: sers fs v.2
  end.

Fixpoint dec (t : ty) : De (den t) :=
  match t with
  | TBool => deserialize_bool Ok
  | TI8 => deserialize_i8 Ok
  | TI16 => deserialize_i16 Ok
  | TI32 => deserialize_i32 Ok
  | TI64 => deserialize_i64 Ok
  | TU8 => deserialize_u8 Ok
  | TU16 => deserialize_u16 Ok
  | TU32 => deserialize_u32 Ok
  | TU64 => deserialize_u64 Ok
  | TF32 => deserialize_f32 Ok
  | TF64 => deserialize_f64 Ok
  | TChar => deserialize_char Ok
  | TStr => deserialize_str Ok
  | TString => deserialize_string Ok
  | TVarOpaque => deserialize (A:=VarOpaque)
  | TVarOpaqueRef => deserialize (A:=VarOpaqueRef)
  | TFixedOpaque n => deserialize (A:=FixedOpaque (Z.of_nat n))
  | TOption t => de_option (dec t)
  | TVec t => de_vec (dec t)
  | TVarArrayRef t => de_array_ref (dec t)
  | TListRef t => de_list_ref (dec t)
  | TBounded max t => Deserialize_Bounded (den t) max (Deserialize0:=dec t)
  | TStruct name fs =>
      deserialize_struct name (names fs) (visit_fields id (decs fs) (struct_missing name (len (names fs))))
  | TTuple fs =>
      let n := len (names fs) in
      deserialize_tuple n (visit_fields id (decs fs) (tuple_missing n))
        (λ _, Err (invalid_type "byte array" ("a tuple of size " +:+ pretty n)))
  end
with decs (fs : tys) : FieldList (dens fs) :=
  match fs with
  | TNil => FNil
  | TCons _ t fs => FCons (dec t) (decs fs)
  end.

#[global] Instance Serialize_den t : Serialize (den t) := ser t.
#[global] Instance Deserialize_den t : Deserialize (den t) := dec t.

(** The length a bound applies to. *)
Definition counted_by (t : ty) : den t → Z :=
  match t with
  | TStr | TString => λ v : bytes, len v
  | TVarOpaque => λ v : VarOpaque, len v.(var_opaque)
  | TVarOpaqueRef => λ v : VarOpaqueRef, len v.(var_opaque_ref)
  | TVec t => λ l : list (den t), len l
  | TVarArrayRef _ => array_len
  | _ => λ _, 0
  end.

(** ** The values that have an encoding the decoder of mode [md] takes *)
Fixpoint valid (t : ty) : Strictness → den t → Prop :=
  match t with
  | TBool => λ _ _, True
  | TI8 => λ _, signed 8
  | TI16 => λ _, signed 16
  | TI32 => λ _, signed 32
  | TI64 => λ _, signed 64
  | TU8 => λ _, unsigned 8
  | TU16 => λ _, unsigned 16
  | TU32 | TF32 => λ _, unsigned 32
  | TU64 | TF64 => λ _, unsigned 64
  | TChar => λ _ z, is_char z = true
  | TStr | TString => str_ok
  | TVarOpaque => λ md v, opaque_ok md v.(var_opaque)
  | TVarOpaqueRef => λ md v, opaque_ok md v.(var_opaque_ref)
  | TFixedOpaque n => ok_fixed
  | TOption t => ok_option (valid t)
  | TVec t => ok_vec (valid t)
  | TVarArrayRef t => ok_array (ser t) (valid t)
  | TListRef t => ok_list (ser t) (valid t)
  | TBounded max t => ok_bounded max (valid t) (counted_by t)
  | TStruct _ fs | TTuple fs => valids fs
  end
with valids (fs : tys) : Strictness → dens fs → Prop :=
  match fs with
  | TNil => λ _ _, True
  | TCons _ t fs => λ md v, valid t md v.1 ∧ valids fs md v.2
  end.

(** ** Well-formed types

    [Bounded] needs a counted type (the source's [Counted] trait), and an array
    needs elements of at least one unit: the decoder refuses a count that the
    rest of the input cannot hold at one unit each. *)
Definition is_counted (t : ty) : bool :=
  match t with
  | TStr | TString | TVarOpaque | TVarOpaqueRef | TVec _ | TVarArrayRef _ => true
  | _ => false
  end.

Fixpoint occupying (t : ty) : bool :=
  match t with
  | TFixedOpaque n => (0 <? n)%nat
  | TStruct _ fs | TTuple fs => some_occupying fs
  | _ => true
  end
with some_occupying (fs : tys) : bool :=
  match fs with TNil => false | TCons _ t fs => occupying t || some_occupying fs end.

Fixpoint good (t : ty) : bool :=
  match t with
  | TOption t | TListRef t => good t
  | TVec t | TVarArrayRef t => good t && occupying t
  | TBounded max t => (0 <=? max) && is_counted t && good t
  | TStruct _ fs => goods fs
  | TTuple fs => (0 <? len (names fs)) && goods fs
  | _ => true
  end
with goods (fs : tys) : bool :=
  match fs with TNil => true | TCons _ t fs => good t && goods fs end.

(** The levels of nesting a type's decoding takes. *)
Fixpoint levels (t : ty) : Z :=
  match t with
  | TFixedOpaque _ => 1
  | TOption t | TVec t | TBounded _ t => levels t + 1
  | TVarArrayRef t => levels t + 2
  | TListRef t => levels t + 3
  | TStruct _ fs | TTuple fs => levels_of fs + 1
  | _ => 0
  end
with levels_of (fs : tys) : Z :=
  match fs with TNil => 0 | TCons _ t fs => Z.max (levels t) (levels_of fs) end.

(** ** Every type of the language *)
Record correct (t : ty) : Prop := {
  ty_sane : sane (dec t);
  ty_ends : ends (dec t);
  ty_codec : Codec (ser t) (dec t) (valid t) (levels t);
  ty_counted : is_counted t = true → Counted (ser t) (dec t) (valid t) (levels t) (counted_by t);
  ty_occupies : occupying t = true → Occupies (ser t) (valid t)
}.

Record corrects (fs : tys) : Prop := {
  tys_sane : all_fields (@sane) _ (decs fs);
  tys_ends : all_fields (@ends) _ (decs fs);
  tys_codec : FieldCodec (sers fs) (decs fs) (valids fs) (levels_of fs);
  tys_count : field_count (decs fs) = len (names fs);
  tys_occupies : some_occupying fs = true → ∀ md v bss, valids fs md v →
    Forall2 encodes (sers fs v) bss → 4 ≤ len (concat bss)
}.

(** A type whose decoder reads one value and hands it on. *)
Lemma correct_leaf t : DeImpl _ (dec t) → ends (dec t) → is_counted t = false →
  Codec (ser t) (dec t) (valid t) (levels t) → Occupies (ser t) (valid t) → correct t.
Proof. intros Hi He Hc Hcodec Ho. split; [by apply impl_sane|done|done|by rewrite Hc|done]. Qed.

Lemma occupies_word {A} (ser : A → Ser) ok (n : nat) (f : A → Z) : (4 ≤ n)%nat →
  (∀ a, encodes (ser a) (to_be_bytes n (f a))) → Occupies ser ok.
Proof.
  intros Hn He. apply occupies_of. intros md a _. exists (to_be_bytes n (f a)).
  split; [done|]. rewrite length_to_be_bytes. lia.
Qed.

Lemma len_counted_body v : 4 ≤ len (counted_body v).
Proof. unfold counted_body. rewrite !length_app, length_to_be_bytes. lia. Qed.

#[local] Hint Extern 1 (ok_or ?o _ ≠ Stop _) => destruct o; discriminate : ends.
#[local] Hint Extern 1 (Ok _ ≠ Stop _) => discriminate : ends.

(** A scalar: one word of [width] bytes that stands for [word a]. *)
Ltac scalar impl codec width word :=
  apply correct_leaf;
  [apply impl; done
  |apply ends_bind; [auto with sane ends..|intros x; try destruct (is_char x); auto 6 with sane ends]
  |done
  |exact codec
  |apply (occupies_word _ _ width word); [lia|by intros a pre]].

Lemma correct_bool : correct TBool.
Proof. scalar impl_bool codec_bool 4%nat (λ b : bool, if b then 1 else 0). Qed.
Lemma correct_i8 : correct TI8.
Proof. scalar impl_i8 codec_i8 4%nat (wrap 32). Qed.
Lemma correct_i16 : correct TI16.
Proof. scalar impl_i16 codec_i16 4%nat (wrap 32). Qed.
Lemma correct_i32 : correct TI32.
Proof. scalar impl_i32 codec_i32 4%nat (wrap 32). Qed.
Lemma correct_i64 : correct TI64.
Proof. scalar impl_i64 codec_i64 8%nat (wrap 64). Qed.
Lemma correct_u8 : correct TU8.
Proof. scalar impl_u8 codec_u8 4%nat (λ z : Z, z). Qed.
Lemma correct_u16 : correct TU16.
Proof. scalar impl_u16 codec_u16 4%nat (λ z : Z, z). Qed.
Lemma correct_u32 : correct TU32.
Proof. scalar impl_u32 codec_u32 4%nat (λ z : Z, z). Qed.
Lemma correct_u64 : correct TU64.
Proof. scalar impl_u64 codec_u64 8%nat (λ z : Z, z). Qed.
Lemma correct_f32 : correct TF32.
Proof. scalar impl_f32 codec_f32 4%nat (λ z : Z, z). Qed.
Lemma correct_f64 : correct TF64.
Proof. scalar impl_f64 codec_f64 8%nat (λ z : Z, z). Qed.
Lemma correct_char : correct TChar.
Proof. scalar impl_char codec_char 4%nat (λ z : Z, z). Qed.

(** Strings and opaque. *)
Lemma correct_counted t : DeImpl _ (dec t) → ends (dec t) →
  Counted (ser t) (dec t) (valid t) (levels t) (counted_by t) →
  Occupies (ser t) (valid t) → correct t.
Proof. intros Hi He Hc Ho. split; [by apply impl_sane|done|apply counted_codec|done|done]. Qed.

Lemma correct_str : correct TStr.
Proof.
  apply correct_counted; [by apply impl_str|apply ends_bind; auto with sane ends|exact counted_str|].
  apply occupies_of. intros md v [Hu _]. exists (counted_body v).
  split; [by apply encodes_str|apply len_counted_body].
Qed.
Lemma correct_string : correct TString.
Proof.
  apply correct_counted; [by apply impl_string|apply ends_bind; auto with sane ends|exact counted_string|].
  apply occupies_of. intros md v [Hu _]. exists (counted_body v).
  split; [by apply encodes_str|apply len_counted_body].
Qed.
Lemma correct_var_opaque : correct TVarOpaque.
Proof.
  apply correct_counted; [by apply impl_byte_buf|apply ends_bind; auto with sane ends|exact counted_VarOpaque|].
  apply occupies_of. intros md [v] Hu. exists (counted_body v).
  split; [by apply encodes_bytes|apply len_counted_body].
Qed.
Lemma correct_var_opaque_ref : correct TVarOpaqueRef.
Proof.
  apply correct_counted; [by apply impl_bytes|apply ends_bind; auto with sane ends|exact counted_VarOpaqueRef|].
  apply occupies_of. intros md [v] Hu. exists (counted_body v).
  split; [by apply encodes_bytes|apply len_counted_body].
Qed.
Lemma correct_fixed n : correct (TFixedOpaque n).
Proof.
  split; [apply sane_fixed; lia|apply ends_fixed; lia|apply codec_FixedOpaque; lia|done|].
  intros Hn. simpl in Hn. apply Nat.ltb_lt in Hn. apply occupies_of. intros md [v] Hv.
  exists (v ++ zeros (pad4 (len v))). split; [apply encodes_fixed|].
  pose proof (encodes_aligned _ _ (encodes_fixed v)) as Ha. unfold aligned in Ha.
  change (len v = Z.of_nat n) in Hv. rewrite length_app in *.
  apply Z.divide_pos_le; [lia|by apply Z.mod_divide].
Qed.

(** ** Compound types *)
Lemma correct_option t : correct t → correct (TOption t).
Proof.
  intros [Hs He Hc _ _]. split; [by apply sane_option|by apply ends_option|apply codec_option; apply Hc|done|].
  intros _. apply occupies_of. intros md [a|] Ha.
  - destruct (codec_complete (Codec:=Hc) md a Ha) as (bs & Henc & _). exists (to_be_bytes 4 1 ++ bs).
    split; [by apply encodes_some|]. rewrite length_app, length_to_be_bytes. lia.
  - exists (to_be_bytes 4 0). split; [apply encodes_none|]. by rewrite length_to_be_bytes.
Qed.

Lemma correct_vec t : correct t → occupying t = true → correct (TVec t).
Proof.
  intros [Hs He Hc _ Ho] Hocc. specialize (Ho Hocc).
  split; [by apply sane_deserialize_seq, sane_visit_vec|by apply ends_vec|apply codec_vec|intros _; apply counted_vec|];
    try done.
  intros _. apply occupies_of. intros md l [Hu Hl].
  destruct (elements_encode _ _ _ _ md l Hl) as (bss & Hes & _). exists (to_be_bytes 4 (len l) ++ concat bss).
  split; [by apply encodes_seq|]. rewrite length_app, length_to_be_bytes. lia.
Qed.

Lemma correct_array t : correct t → occupying t = true → correct (TVarArrayRef t).
Proof.
  intros [Hs He Hc _ Ho] Hocc. specialize (Ho Hocc).
  pose proof (counted_array (ser t) (dec t) (valid t) (levels t) Hs) as Hcnt.
  split; [by apply sane_array_ref|by apply ends_array_ref|apply Hcnt|by intros _|].
  intros _. apply occupies_of. intros md [n enc] (l & [Hu Hl] & Hn & bss & Hes & Henc).
  simpl in Hn, Henc. subst n enc. exists (to_be_bytes 4 (len l) ++ concat bss).
  split; [apply encodes_array_ref; [done|by eapply aligned_concat]|].
  rewrite length_app, length_to_be_bytes. lia.
Qed.

Lemma chain_len_unit bss : 4 ≤ len (chain bss).
Proof.
  destruct bss; simpl chain; rewrite ?length_app, length_to_be_bytes; lia.
Qed.

Lemma correct_list t : correct t → correct (TListRef t).
Proof.
  intros [Hs He Hc _ _].
  split; [by apply sane_list_ref|by apply ends_list_ref|by apply codec_list|done|].
  intros _. apply occupies_of. intros md [n enc] (l & Hl & Hn & bss & Hes & Henc).
  simpl in Hn, Henc. subst n enc. exists (chain bss).
  split; [apply encodes_encoded; by eapply aligned_chain|apply chain_len_unit].
Qed.

Lemma correct_bounded max t : correct t → 0 ≤ max → is_counted t = true → correct (TBounded max t).
Proof.
  intros [Hs He _ Hcnt Ho] Hmax Hct. specialize (Hcnt Hct).
  assert (occupying t = true) as Hocc by (by destruct t). specialize (Ho Hocc).
  split; [by apply sane_bounded|by apply ends_bounded| |done|].
  - exact (codec_Bounded (T:=den t) max (Serialize0:=ser t) (Deserialize0:=dec t) (valid t) (levels t) (counted_by t)).
  - intros _. apply occupies_of. intros md [v] [Hok Hv]. simpl in *.
    destruct (counted_complete (Counted:=Hcnt) md v max Hok Hv) as (bs & Henc & Hw & _).
    exists bs. split; [by apply encodes_bounded|by eapply occupies].
Qed.

Lemma corrects_nil : corrects TNil.
Proof. split; [constructor..|exact fields_nil|done|done]. Qed.

Lemma corrects_cons f t fs : correct t → corrects fs → corrects (TCons f t fs).
Proof.
  intros [Hs He Hc _ Ho] [Hss Hes Hcs Hn Hos].
  split; [by constructor|by constructor|by apply fields_cons| |].
  - simpl. rewrite Hn. lia.
  - intros Hocc md [v vs] bss [Hv Hvs] Hb. simpl in Hv, Hvs, Hb. inversion Hb as [|? bs ? bss' H1 H2]; subst.
    simpl. rewrite length_app. simpl in Hocc. apply orb_true_iff in Hocc as [H|H].
    + pose proof (Ho H md v bs Hv H1). lia.
    + pose proof (Hos H md vs bss' Hvs H2). lia.
Qed.

Lemma correct_struct name fs : corrects fs → correct (TStruct name fs).
Proof.
  intros [Hss Hes Hcs Hn Hos].
  pose proof (codec_struct id id (sers fs) (decs fs) (valids fs) (levels_of fs) (λ _, eq_refl) (λ _, eq_refl)
    (struct_missing name (len (names fs))) name (names fs) ltac:(lia)) as Hcodec.
  split; [| |exact Hcodec|done|].
  - apply sane_nested, sane_seq_of; [lia|]. apply seq_bind; [by apply sane_read_fields|auto with sane].
  - apply ends_nested, ends_of_seq; [lia|].
    apply ends_seq_bind; [by apply sane_read_fields|by apply ends_read_fields|auto with ends].
  - intros Hocc. apply occupies_of. intros md v Hv.
    destruct (fields_complete (FieldCodec:=Hcs) md v Hv) as (bss & Henc & _).
    exists (concat bss). split; [by apply encodes_struct|by eapply Hos].
Qed.

Lemma correct_tuple fs : corrects fs → correct (TTuple fs).
Proof.
  intros [Hss Hes Hcs Hn Hos].
  pose proof (codec_tuple id id (sers fs) (decs fs) (valids fs) (levels_of fs) (λ _, eq_refl) (λ _, eq_refl)
    (tuple_missing (len (names fs))) (len (names fs))
    (λ _, Err (invalid_type "byte array" ("a tuple of size " +:+ pretty (len (names fs))))) ltac:(lia)) as Hcodec.
  split; [| |exact Hcodec|done|].
  - apply sane_tuple; [lia| |auto with sane]. apply seq_bind; [by apply sane_read_fields|auto with sane].
  - apply ends_tuple; [lia| |done].
    apply ends_seq_bind; [by apply sane_read_fields|by apply ends_read_fields|auto with ends].
  - intros Hocc. apply occupies_of. intros md v Hv.
    destruct (fields_complete (FieldCodec:=Hcs) md v Hv) as (bss & Henc & _).
    exists (concat bss). split; [by apply encodes_tuple|by eapply Hos].
Qed.

#[local] Hint Resolve correct_bool correct_i8 correct_i16 correct_i32 correct_i64 correct_u8 correct_u16
  correct_u32 correct_u64 correct_f32 correct_f64 correct_char correct_str correct_string correct_var_opaque
  correct_var_opaque_ref correct_fixed correct_option correct_vec correct_array correct_list
  correct_struct correct_tuple corrects_nil corrects_cons : core.

Lemma all_correct : (∀ t, good t = true → correct t) ∧ (∀ fs, goods fs = true → corrects fs).
Proof.
  apply ty_tys_ind; simpl; intros; rewrite ?andb_true_iff in *; destruct_and?; auto.
  apply correct_bounded; auto. lia.
Qed.

Lemma ty_correct t : good t = true → correct t.
Proof. apply all_correct. Qed.

(** What a strict decoder takes, a lenient one takes. *)
Lemma valid_lenient : (∀ t v, valid t Strict v → valid t Lenient v)
  ∧ (∀ fs v, valids fs Strict v → valids fs Lenient v).
Proof.
  apply ty_tys_ind; simpl; try done; unfold str_ok, ok_option, ok_vec, ok_array, ok_list, ok_bounded.
  - naive_solver.
  - naive_solver.
  - intros t IH [v|]; auto.
  - intros t IH l [Hu Hl]. split; [done|]. by eapply Forall_impl.
  - intros t IH v (l & [Hu Hl] & Hh). exists l. split; [|done]. split; [done|]. by eapply Forall_impl.
  - intros t IH v (l & Hl & Hh). exists l. split; [|done]. by eapply Forall_impl.
  - intros max t IH v [Hv Hc]. auto.
  - intros f t IHt fs IHfs v [Hv Hvs]. auto.
Qed.

(** A recursive type: [struct Node { value: u32, next: Option<Box<Node>> }].
    Its decoder calls itself once per node the input holds, so what ends it is
    the decoder's nesting limit and nothing else. *)

(** The chain of nodes: the values, first to last, and a last one. *)
#[warnings="-register-all"] Inductive Node : Type := mkNode (value : Z) (next : option Node).

Definition node_from (t : Z * (option Node * unit)) : Node := mkNode t.1 t.2.1.
Definition node_fields (d : De Node) : FieldList (Z * (option Node * unit)) :=
  FCons (deserialize_u32 Ok) (FCons (de_option d) FNil).

(** The derived impl; the fuel is the depth of the calls. *)
Fixpoint de_node (fuel : nat) : De Node :=
  match fuel with
  | O => halt OutOfFuel
  | S fuel =>
      deserialize_struct "Node" ["value"; "next"]
        (visit_fields node_from (node_fields (de_node fuel)) (struct_missing "Node" 2))
  end.

(** [n] nodes after a first. *)
Fixpoint node_chain (value : Z) (l : list Z) : Node :=
  match l with
  | [] => mkNode value None
  | x :: l => mkNode value (Some (node_chain x l))
  end.
Fixpoint chain_bytes (value : Z) (l : list Z) : bytes :=
  to_be_bytes 4 value ++
  match l with
  | [] => to_be_bytes 4 0
  | x :: l => to_be_bytes 4 1 ++ chain_bytes x l
  end.

Lemma sane_node_fields d : sane d → all_fields (@sane) _ (node_fields d).
Proof.
  intros Hd. repeat constructor; [|by apply sane_option]. apply impl_sane. by apply impl_u32.
Qed.

Lemma sane_visit_node d : sane d → sane_seq (visit_fields node_from (node_fields d) (struct_missing "Node" 2)).
Proof. intros Hd. apply seq_bind; [by apply sane_read_fields, sane_node_fields|auto with sane]. Qed.

Lemma sane_node fuel : sane (de_node fuel).
Proof.
  induction fuel as [|fuel IH]; [apply sane_fuel|]. cbn [de_node]. unfold deserialize_struct.
  apply sane_nested, sane_seq_of; [simpl; lia|by apply sane_visit_node].
Qed.

(** A level of nesting, for what the decoder does below the limit. *)
Lemma nested_below {A} (m : De A) s : wf s →
  (depth s + 1 ≤ max_depth s → (m (deeper s)).1 ≠ Stop OutOfFuel) →
  ((descend;; finally m ascend) s).1 ≠ Stop OutOfFuel.
Proof.
  intros Hw Hm. unfold mbind, St_bind, descend. destruct (depth s =? usize_max); [done|].
  cbn [depth max_depth set_depth]. destruct (Z.ltb_spec (max_depth s) (depth s + 1)); [done|].
  fold (deeper s). specialize (Hm ltac:(lia)). unfold finally.
  destruct (m (deeper s)) as [[a|e|w] s1]; simpl in *; [| |done];
    unfold ascend; by destruct (depth s1 =? 0).
Qed.

(** Two levels a node: the fuel is never reached. *)
Lemma node_ends fuel s : wf s → max_depth s - depth s < 2 * Z.of_nat fuel →
  (de_node fuel s).1 ≠ Stop OutOfFuel.
Proof.
  revert s. induction fuel as [|fuel IH]; intros s Hw Hd; [destruct Hw; lia|].
  cbn [de_node]. unfold deserialize_struct. apply nested_below; [done|]. intros Hd1.
  assert (wf (deeper s)) as Hw1. { destruct Hw. split; simpl; try done; lia. }
  unfold seq, visit_fields. cbn [read_fields node_fields].
  set (r0 := {| de := deeper s; left := _ |}).
  destruct (sane_next_field (struct_missing "Node" 2 0) (deserialize_u32 Ok)
    (impl_sane _ _ (impl_u32 _ _ (λ _, quiet_ok _))) r0 Hw1 ltac:(simpl; lia)) as [Hp Hl].
  pose proof (ends_next_field (struct_missing "Node" 2 0) (deserialize_u32 Ok)
    (impl_sane _ _ (impl_u32 _ _ (λ _, quiet_ok _))) (ty_ends _ correct_u32) r0 Hw1 ltac:(simpl; lia)) as He.
  unfold mbind, St_bind.
  destruct (next_field _ _ r0) as [[v|e|w] r1]; simpl in Hp, Hl, He |- *; [|done|congruence].
  pose proof (post_wf _ v _ Hw1 Hp) as Hw2. destruct Hp as ([_ _ Hmd _ _] & Hdp & _). simpl in Hmd, Hdp.
  unfold next_field, mbind, St_bind, next_element_seed. destruct (left r1 =? 0); [done|].
  assert ((de_option (de_node fuel) (de r1)).1 ≠ Stop OutOfFuel) as Ho.
  { unfold de_option, deserialize_option, mbind at 1, St_bind at 1.
    pose proof (ends_read_bool _ Hw2) as Hb. pose proof (sane_read_bool _ Hw2) as Hsb.
    destruct (read_bool (de r1)) as [[b|e|w] s2]; simpl in Hb, Hsb |- *; [|done|congruence].
    pose proof (post_wf _ b _ Hw2 Hsb) as Hw3. destruct Hsb as ([_ _ Hmd3 _ _] & Hdp3 & _).
    destruct b; [|done]. apply nested_below; [done|]. intros Hd3.
    assert (wf (deeper s2)) as Hw4. { destruct Hw3. split; simpl; try done; lia. }
    specialize (IH (deeper s2) Hw4 ltac:(simpl; lia)). unfold mbind, St_bind.
    destruct (de_node fuel (deeper s2)) as [[n|e|w] s3]; simpl in *; [done|done|congruence]. }
  destruct (de_option (de_node fuel) (de r1)) as [[o|e|w] s2]; simpl in *; congruence.
Qed.

(** ** A chain within the limit, and one past it *)

(** The first field, and the state in front of the second. *)
Lemma node_unfold fuel s v tail rest : unsigned 32 v → before s (to_be_bytes 4 v ++ tail) rest →
  depth s + 1 ≤ max_depth s →
  let s1 := advance 4 (deeper s) in
  before s1 tail rest ∧
  de_node (S fuel) s = (descend;; finally (λ s1',
    let '(r, rd) := (o ← next_field (struct_missing "Node" 2 1) (de_option (de_node fuel)); mret (mkNode v o))
                      {| de := advance 4 s1'; left := 1 |} in (r, rd.(de))) ascend) s.
Proof.
  intros Hv Hb Hd s1. pose proof (before_deeper _ _ _ Hb Hd) as Hbd. split.
  { pose proof (advance_before _ _ _ _ Hbd) as H. by rewrite len_u32 in H. }
  cbn [de_node]. unfold deserialize_struct.
  assert (∀ (m1 m2 : De Node), m1 (deeper s) = m2 (deeper s) →
    (descend;; finally m1 ascend) s = (descend;; finally m2 ascend) s) as Heq.
  { intros m1 m2 Hm. unfold mbind, St_bind, descend. destruct (depth s =? usize_max); [done|].
    cbn [depth max_depth set_depth]. destruct (Z.ltb_spec (max_depth s) (depth s + 1)); [done|].
    fold (deeper s). unfold finally. by rewrite Hm. }
  apply Heq. unfold seq, visit_fields. cbn [read_fields node_fields].
  assert (next_field (struct_missing "Node" 2 0) (deserialize_u32 Ok) {| de := deeper s; left := 2 |}
          = (Ok v, {| de := advance 4 (deeper s); left := 1 |})) as Hf.
  { apply (next_field_ok _ _ _ 2); [lia|]. unfold deserialize_u32.
    rewrite (run_bind_ok _ _ _ _ _ (read_u32_reads _ _ _ Hv (before_prefix _ _ _ _ Hbd))). done. }
  change (len ["value"%string; "next"%string]) with 2.
  unfold mbind at 1, St_bind at 1. unfold mbind at 1, St_bind at 1. rewrite Hf.
  unfold mbind, St_bind. change (0 + 1) with 1.
  clear Hf. destruct (next_field (struct_missing "Node" 2 1) _ _) as [[o|e|w] rd]; done.
Qed.

Lemma node_reads md l : ∀ v fuel, Forall (unsigned 32) (v :: l) → (length l < fuel)%nat →
  reads md (de_node fuel) (2 * len l + 1) (chain_bytes v l) (node_chain v l).
Proof.
  induction l as [|x l IH]; intros v [|fuel] Hu Hf s rest Hb Hc Hm Hd; try (simpl in Hf; lia);
    apply Forall_cons in Hu as [Hv Hu]; cbn [chain_bytes] in Hb.
  - destruct (node_unfold fuel s v _ _ Hv Hb ltac:(simpl in Hd; lia)) as [Hb1 ->].
    assert (∀ d : De Node, de_option d (advance 4 (deeper s)) = (Ok None, advance 4 (advance 4 (deeper s)))) as Ho.
    { intros d. unfold de_option, deserialize_option.
      by rewrite (run_bind_ok _ _ _ _ _ (read_bool_reads _ false _ Hb1)). }
    apply nested_reads; [by apply Hb|simpl in Hd; lia|].
    rewrite (run_bind_ok _ _ _ _ _ (next_field_ok _ _ _ 1 _ _ ltac:(lia) (Ho _))).
    rewrite run_ret, advance_advance. simpl. by rewrite !length_app, !length_to_be_bytes.
  - assert (depth s + 2 * len l + 3 ≤ max_depth s) as Hd' by (cbn [length] in Hd; lia). clear Hd.
    destruct (node_unfold fuel s v _ _ Hv Hb ltac:(lia)) as [Hb1 ->].
    pose proof (advance_before _ _ _ _ Hb1) as Hb2. rewrite len_u32 in Hb2.
    assert (de_option (de_node fuel) (advance 4 (deeper s))
      = (Ok (Some (node_chain x l)), advance (len (chain_bytes x l)) (advance 4 (advance 4 (deeper s))))) as Ho.
    { unfold de_option, deserialize_option.
      rewrite (run_bind_ok _ _ _ _ _ (read_bool_reads _ true _ (before_prefix _ _ _ _ Hb1))).
      apply nested_reads; [by apply Hb2|simpl; lia|].
      erewrite run_bind_ok; [done|]. eapply IH; [done|simpl in Hf; lia| |done|done|simpl; lia].
      apply before_deeper; [done|simpl; lia]. }
    apply nested_reads; [by apply Hb|lia|].
    rewrite (run_bind_ok _ _ _ _ _ (next_field_ok _ _ _ 1 _ _ ltac:(lia) Ho)).
    rewrite run_ret, !advance_advance.
    change (chain_bytes v (x :: l)) with (to_be_bytes 4 v ++ to_be_bytes 4 1 ++ chain_bytes x l).
    rewrite !length_app, !length_to_be_bytes. f_equal. cbn [de]. f_equal. lia.
Qed.

(** A level past the limit. *)
Lemma nested_over {A} (m : De A) s : wf s → max_depth s < depth s + 1 → max_depth s < usize_max →
  ((descend;; finally m ascend) s).1 = Err (RecursionLimit (max_depth s)).
Proof.
  intros [] Hd Hl. unfold mbind, St_bind, descend. destruct (Z.eqb_spec (depth s) usize_max); [lia|].
  cbn [depth max_depth set_depth]. by destruct (Z.ltb_spec (max_depth s) (depth s + 1)); [|lia].
Qed.

Lemma option_over fuel s bs rest e : before s (to_be_bytes 4 1 ++ bs) rest → max_depth s < usize_max →
  e = RecursionLimit (max_depth s) →
  (depth s + 1 ≤ max_depth s → (de_node fuel (deeper (advance 4 s))).1 = Err e) →
  (de_option (de_node fuel) s).1 = Err e.
Proof.
  intros Hb Hl -> Hn. unfold de_option, deserialize_option.
  rewrite (run_bind_ok _ _ _ _ _ (read_bool_reads _ true _ (before_prefix _ _ _ _ Hb))).
  apply advance_before in Hb. rewrite len_u32 in Hb.
  destruct (decide (depth s + 1 ≤ max_depth s)) as [Hd|Hd].
  - apply nested_err; [|by apply Hb|done|by apply bind_err, Hn].
    apply sane_bind; [apply sane_node|auto with sane].
  - apply (nested_over _ (advance 4 s)); [by apply Hb|simpl; lia|done].
Qed.

Lemma node_over l : ∀ v fuel s rest, Forall (unsigned 32) (v :: l) → max_depth s - depth s < 2 * Z.of_nat fuel →
  before s (chain_bytes v l) rest → max_depth s < usize_max → max_depth s < depth s + (2 * len l + 1) →
  (de_node fuel s).1 = Err (RecursionLimit (max_depth s)).
Proof.
  induction l as [|x l IH]; intros v [|fuel] s rest Hu Hf Hb Hl Hd; pose proof (wf_depth _ (before_wf _ _ _ Hb)); try lia;
    apply Forall_cons in Hu as [Hv Hu].
  { cbn [de_node]. apply nested_over; [by apply Hb|simpl in Hd; lia|done]. }
  destruct (decide (depth s + 1 ≤ max_depth s)) as [Hd1|Hd1].
  2: { cbn [de_node]. apply nested_over; [by apply Hb|lia|done]. }
  change (chain_bytes v (x :: l)) with (to_be_bytes 4 v ++ to_be_bytes 4 1 ++ chain_bytes x l) in Hb.
  destruct (node_unfold fuel s v _ _ Hv Hb Hd1) as [Hb1 _].
  cbn [de_node]. unfold deserialize_struct.
  apply nested_err; [apply sane_seq_of; [simpl; lia|apply sane_visit_node, sane_node]|by apply Hb|done|].
  pose proof (before_deeper _ _ _ Hb Hd1) as Hbd. unfold seq, visit_fields. cbn [read_fields node_fields].
  assert (next_field (struct_missing "Node" 2 0) (deserialize_u32 Ok) {| de := deeper s; left := 2 |}
          = (Ok v, {| de := advance 4 (deeper s); left := 1 |})) as Hf1.
  { apply (next_field_ok _ _ _ 2); [lia|]. unfold deserialize_u32.
    rewrite (run_bind_ok _ _ _ _ _ (read_u32_reads _ _ _ Hv (before_prefix _ _ _ _ Hbd))). done. }
  change (len ["value"%string; "next"%string]) with 2.
  assert ((de_option (de_node fuel) (advance 4 (deeper s))).1 = Err (RecursionLimit (max_depth s))) as Ho.
  { eapply option_over; [exact Hb1|done|done|]. intros Hd2.
    apply (IH x fuel (deeper (advance 4 (advance 4 (deeper s)))) rest); [done|simpl; lia| |done|cbn [length] in Hd; simpl; lia].
    apply advance_before in Hb1. rewrite len_u32 in Hb1. apply before_deeper; [done|simpl in *; lia]. }
  unfold mbind at 1, St_bind at 1. unfold mbind at 1, St_bind at 1. rewrite Hf1.
  unfold next_field, next_element_seed, mbind, St_bind. cbn [left de]. change (1 =? 0) with false. cbv iota.
  destruct (de_option (de_node fuel) _) as [[o|e|w] s2]; simpl in *; by simplify_eq.
Qed.

(** The levels the limit leaves: [de_node] runs within this much fuel on every
    input. *)
Definition NODE_FUEL : nat := 65.
#[global] Instance Deserialize_Node : Deserialize Node := de_node NODE_FUEL.
