(* ===== verification/XdrTheorems.v ===== *)
(** The claims on [truenas_xdr]: round trip, canonicity, totality, sizes,
    bounds, nesting, and the borrowed views, for every type of [XdrTypes]. *)
From stdpp Require Import pretty.
From S2P Require Import Prelude XdrBase XdrSer XdrDe XdrDeSafe XdrCodec XdrShapes XdrWrappers XdrArrayRef XdrList XdrEnds XdrTypes.
Local Open Scope Z_scope.

(** ** Refusals *)

(** Reading a length over the pending bound. *)
Lemma length_over {A} (k : Z → De A) s c max rest : unsigned 32 c → before s (to_be_bytes 4 c) rest →
  XdrDe.bound_pending s = Some max → max < c →
  ((l ← read_u32; check_bound l;; k l) s).1 = Err (TooLong c max).
Proof.
  intros Hc Hb Hbd Hm. rewrite (run_bind_ok _ _ _ _ _ (read_u32_reads _ _ _ Hc Hb)).
  unfold mbind, St_bind, check_bound. simpl. rewrite Hbd. by destruct (Z.ltb_spec max c); [|lia].
Qed.

(** The first thing the decoder of a counted type reads is its length. *)
Lemma counted_over t s c max rest : good t = true → is_counted t = true → unsigned 32 c →
  before s (to_be_bytes 4 c) rest → XdrDe.bound_pending s = Some max → max < c →
  depth s + 1 ≤ max_depth s → (dec t s).1 = Err (TooLong c max).
Proof.
  intros Hg Ht Hc Hb Hbd Hm Hd.
  assert ((read_opaque s).1 = Err (TooLong c max)) as Ho by (by eapply length_over).
  destruct t; try done; simpl in Hg |- *.
  - by apply bind_err, bind_err.
  - by apply bind_err, bind_err.
  - by apply bind_err.
  - by apply bind_err.
  - by eapply length_over.
  - apply andb_true_iff in Hg as [Hg _]. pose proof (ty_sane _ (ty_correct t Hg)) as Hs.
    unfold de_array_ref, deserialize_tuple_struct. rewrite bool_decide_false by done.
    rewrite bool_decide_true by done. apply nested_err; [|by apply Hb|done|].
    + apply sane_spanned, sane_seq_of; [done|].
      apply seq_bind; [by apply sane_next_field, sane_element_count|]. intros n.
      apply seq_bind; [apply sane_next_field, sane_de_span|]. intros bs.
      destruct (get_from _ _); [auto with sane|]. by apply (seq_lift (Err _)).
    + rewrite run_get, run_modify. unfold finally, seq, visit_array_ref, next_field.
      change (set_span _ (deeper s)) with (marked s).
      assert ((de_element_count (dec t) (marked s)).1 = Err (TooLong c max)) as He.
      { eapply length_over; [done| |done|done].
        split; [by apply marked_wf; [apply Hb|]|exact (before_unread _ _ _ Hb)]. }
      unfold mbind, St_bind, next_element_seed. cbn [left de].
      destruct (de_element_count (dec t) (marked s)) as [[a|e|w] s2]; simpl in *; by simplify_eq.
Qed.

(** Its encoder starts with it too. *)
Lemma bounded_refuses max v n (k : St (Serializer bytes) Error unit) : max < n →
  (∀ s : Serializer bytes, XdrSer.fixed_pending s = false → serialize v s = (put_len n;; k) s) →
  refuses (STupleStruct SENTINEL_BOUNDED max [v]) (TooLong n max).
Proof.
  intros Hm Hv pre. eexists. simpl. unfold serialize_tuple_struct. rewrite bool_decide_true by done.
  erewrite run_bind_ok by reflexivity. apply run_bind_err. rewrite Hv by done.
  apply run_bind_err. by apply put_len_refused.
Qed.

Lemma counted_refuses t v max : is_counted t = true → max < counted_by t v →
  refuses (STupleStruct SENTINEL_BOUNDED max [ser t v]) (TooLong (counted_by t v) max).
Proof.
  intros Ht Hm. destruct t; try done; simpl in v, Hm |- *.
  - by apply bounded_str_refuses.
  - by apply bounded_str_refuses.
  - apply (bounded_refuses _ _ _ (put_body v.(var_opaque)) Hm). intros [w f b] Hf. simpl in Hf. by subst f.
  - apply (bounded_refuses _ _ _ (put_body v.(var_opaque_ref)) Hm). intros [w f b] Hf. simpl in Hf. by subst f.
  - by apply (bounded_refuses _ _ _ (serialize_elements (map serialize (map (ser t) v))) Hm).
  - by apply (bounded_refuses _ _ _ (serialize_elements [serialize (ser_encoded v.(array_encoded))]) Hm).
Qed.

(** A struct with a bounded string, an optional array of pairs and a fixed
    opaque: the type the concrete checks below use. *)
Definition example_ty : ty :=
  TStruct "Sample" (TCons "name" (TBounded 8 TString)
    (TCons "pairs" (TOption (TVec (TTuple (TCons "0" TI32 (TCons "1" TBool TNil)))))
    (TCons "key" (TFixedOpaque 5) TNil))).

Definition example_value : den example_ty :=
  (mkBounded [x61; x62; x63],
   (Some [(-2, (true, tt)); (7, (false, tt))],
    (mkFixedOpaque [x01; x02; x03; x04; x05], tt))).

Lemma example_valid md : valid example_ty md example_value.
Proof.
  simpl. unfold ok_bounded, str_ok, ok_option, ok_vec, ok_fixed, unsigned. simpl.
  repeat (split || constructor || done).
Qed.

(** C1: a value that its type can carry encodes, and the bytes decode back to it
    in either mode: at the front of any further input, which is left unread,
    and alone. *)
Theorem xdr_roundtrip (t : ty) (md : Strictness) (v : den t) (rest : bytes) :
  good t = true → levels t ≤ DEFAULT_MAX_DEPTH → valid t md v →
  (∀ bs, to_bytes v = Ok bs → len bs + len rest ≤ isize_max) →
  ∃ bs, to_bytes v = Ok bs ∧ from_prefix_with (A:=den t) (bs ++ rest) md = Ok (v, rest) ∧
    from_bytes_with (A:=den t) bs md = Ok v.
Proof.
  intros Hg Hlv Hv Hl. pose proof (ty_codec _ (ty_correct t Hg)) as Hc.
  destruct (@prefix_roundtrip _ (ser t) (dec t) (valid t) _ Hc md v rest Hv Hlv) as (bs & Hb & Hp).
  { intros bs Hb. rewrite length_app. specialize (Hl bs Hb). lia. }
  destruct (@bytes_roundtrip _ (ser t) (dec t) (valid t) _ Hc md v Hv Hlv) as (bs' & Hb' & Hf).
  { intros bs' Hb'. specialize (Hl bs' Hb'). lia. }
  exists bs. rewrite Hb in Hb'. injection Hb' as <-. done.
Qed.

Lemma xdr_roundtrip_witness :
  ∃ bs, to_bytes example_value = Ok bs ∧
    from_prefix_with (A:=den example_ty) (bs ++ [xff]) Strict = Ok (example_value, [xff]) ∧
    from_bytes_with (A:=den example_ty) bs Strict = Ok example_value.
Proof.
  apply (xdr_roundtrip example_ty Strict example_value [xff]);
    [reflexivity|vm_compute; discriminate|apply example_valid|].
  intros bs H. vm_compute in H. injection H as <-. vm_compute. discriminate.
Defined.

(** C2: a strict decoder takes one encoding of each value, the encoder's:
    whatever it decodes is a value of the type, and encodes to the bytes it
    came from. *)
Theorem xdr_strict_canonical (t : ty) (bs : bytes) (v : den t) :
  good t = true → len bs ≤ isize_max → from_bytes_with (A:=den t) bs Strict = Ok v →
  valid t Strict v ∧ to_bytes v = Ok bs.
Proof.
  intros Hg Hl H. pose proof (ty_codec _ (ty_correct t Hg)) as Hc.
  exact (@strict_canonical _ (ser t) (dec t) (valid t) _ Hc bs v Hl H).
Qed.

Definition example_bytes : bytes :=
  [x00; x00; x00; x03; x61; x62; x63; x00] ++ to_be_bytes 4 1 ++ to_be_bytes 4 2
  ++ [xff; xff; xff; xfe] ++ to_be_bytes 4 1 ++ to_be_bytes 4 7 ++ to_be_bytes 4 0
  ++ [x01; x02; x03; x04; x05; x00; x00; x00].

Lemma xdr_strict_canonical_witness :
  valid example_ty Strict example_value ∧ to_bytes example_value = Ok example_bytes.
Proof. apply (xdr_strict_canonical example_ty); [reflexivity|vm_compute; discriminate|vm_compute; reflexivity]. Defined.

(** C3: decoding is total and safe on every input.  The decoder never panics
    and its loops end; it gives an error, or a value and the unread end of the
    input, having read a whole number of XDR units. *)
Theorem xdr_decoding_total (t : ty) (md : Strictness) (bs : bytes) :
  good t = true → len bs ≤ isize_max →
  (∃ e, from_prefix_with (A:=den t) bs md = Err e) ∨
  (∃ v used rest, from_prefix_with (A:=den t) bs md = Ok (v, rest) ∧ bs = used ++ rest ∧ len used mod 4 = 0).
Proof.
  intros Hg Hl. pose proof (ty_correct t Hg) as [Hs He _ _ _].
  pose proof (before_wf _ _ _ (new_before [] bs md Hl)) as Hw. simpl in Hw.
  specialize (Hs _ Hw). specialize (He _ Hw). unfold from_prefix_with.
  change (deserialize (A:=den t)) with (dec t).
  destruct (dec t (XdrDe.new bs md)) as [[v|e|w] s'] eqn:Hd; simpl in Hs, He |- *.
  - right. pose proof (post_wf _ v _ Hw Hs) as Hw'. rewrite remaining_unread by done.
    destruct Hs as ([Hi _ _ _ Hp] & _ & H4). simpl in *. exists v, (firstn (Z.to_nat (pos s')) bs), (unread s').
    split; [done|]. unfold unread. rewrite Hi. split; [by rewrite take_drop|].
    rewrite length_take_le by lia. by rewrite Z2Nat.id, <- (Z.sub_0_r (pos s')) by lia.
  - left. by exists e.
  - by destruct Hs as [->|].
Qed.

Lemma xdr_decoding_total_witness :
  (∃ e, from_prefix_with (A:=den example_ty) [x00; x00; x00; x09] Lenient = Err e) ∨
  (∃ v used rest, from_prefix_with (A:=den example_ty) [x00; x00; x00; x09] Lenient = Ok (v, rest) ∧
     [x00; x00; x00; x09] = used ++ rest ∧ len used mod 4 = 0).
Proof. apply (xdr_decoding_total example_ty); [reflexivity|vm_compute; discriminate]. Defined.

(** For every [Serialize] impl, whatever calls it makes: [serialized_size]
    is the length of what [to_bytes] gives, with the same error when there is
    one; encoding never panics; and an encoding is a whole number of units. *)
Theorem xdr_serialized_size (v : Ser) :
  serialized_size v = outcome_map (λ bs, len bs) (to_bytes v) ∧
  match to_bytes v with
  | Ok bs => len bs mod BYTES_PER_XDR_UNIT = 0
  | Err _ => True
  | Stop _ => False
  end.
Proof.
  pose proof (serialize_same (W1:=CountWriter) (W2:=bytes) (λ c bs, c.(counted) = len bs)) as Hs.
  specialize (Hs ltac:(intros bs c b Hc; simpl; split; [done|]; rewrite length_app, Hc; lia) v
    (XdrSer.new {| counted := 0 |}) (XdrSer.new []) ltac:(done)).
  pose proof (serialize_units v (XdrSer.new []) ltac:(done)) as [Ha Hn].
  unfold serialized_size, to_bytes, to_writer, to_serde, Serialize_Ser.
  destruct (serialize v (XdrSer.new {| counted := 0 |})) as [r1 s1].
  destruct (serialize v (XdrSer.new [])) as [r2 s2]. simpl in *. destruct Hs as [-> (Hc & _)].
  destruct r2 as [[]|e|w]; simpl; [by rewrite Hc|done|done].
Qed.

(** C4: a bound holds on both sides.  A value longer than its bound is refused
    by the encoder, and input whose length word is over the bound is refused by
    the decoder whatever follows it, both naming the length and the bound. *)
Theorem xdr_bound_enforced (t : ty) (max : Z) :
  good (TBounded max t) = true →
  (∀ v : den t, max < counted_by t v →
     to_bytes (mkBounded v : den (TBounded max t)) = Err (TooLong (counted_by t v) max)) ∧
  (∀ md c rest, unsigned 32 c → max < c → 4 + len rest ≤ isize_max →
     from_prefix_with (A:=den (TBounded max t)) (to_be_bytes 4 c ++ rest) md = Err (TooLong c max)).
Proof.
  intros Hg. pose proof Hg as Hgt. simpl in Hgt. rewrite !andb_true_iff in Hgt. destruct Hgt as [[_ Hct] Hgt].
  split.
  - intros v Hv. exact (to_bytes_refuses _ _ (counted_refuses t v max Hct Hv)).
  - intros md c rest Hc Hm Hl. pose proof (new_before (to_be_bytes 4 c) rest md) as Hb.
    rewrite length_app, length_to_be_bytes in Hb. specialize (Hb ltac:(lia)).
    unfold from_prefix_with. change (deserialize (A:=den (TBounded max t))) with (dec (TBounded max t)).
    assert ((dec (TBounded max t) (XdrDe.new (to_be_bytes 4 c ++ rest) md)).1 = Err (TooLong c max)) as He.
    { cbn [dec]. unfold Deserialize_Bounded, deserialize_tuple_struct. rewrite bool_decide_true by done.
      pose proof (ty_sane _ (ty_correct t Hgt)) as Hs.
      apply nested_err; [|by apply Hb|done|].
      - apply sane_bind; [auto with sane|]. intros _. apply sane_bind; [exact Hs|auto with sane].
      - rewrite run_modify. apply bind_err. eapply (counted_over t); try done.
        by apply before_set_bound, before_deeper. }
    destruct (dec (TBounded max t) _) as [[v|e|w] s']; simpl in *; by simplify_eq.
Qed.

Lemma xdr_bound_enforced_witness :
  (∀ v : list Z, 1 < len v →
     to_bytes (mkBounded v : den (TBounded 1 (TVec TU32))) = Err (TooLong (len v) 1)) ∧
  (∀ md c rest, unsigned 32 c → 1 < c → 4 + len rest ≤ isize_max →
     from_prefix_with (A:=den (TBounded 1 (TVec TU32))) (to_be_bytes 4 c ++ rest) md = Err (TooLong c 1)).
Proof. apply (xdr_bound_enforced (TVec TU32) 1). reflexivity. Defined.

(** C5: the nesting limit ends the decoding of a recursive type.  On every input
    the decoder of a linked [Node] returns, its calls nested at most [NODE_FUEL]
    deep; a chain of up to 64 nodes decodes, and any longer one is refused
    with [RecursionLimit]. *)
Theorem xdr_recursion_limit (md : Strictness) :
  (∀ bs w, len bs ≤ isize_max → from_prefix_with (A:=Node) bs md ≠ Stop w) ∧
  (∀ v l, Forall (unsigned 32) (v :: l) → len (chain_bytes v l) ≤ isize_max →
     from_bytes_with (A:=Node) (chain_bytes v l) md
     = if len (v :: l) <=? 64 then Ok (node_chain v l) else Err (RecursionLimit DEFAULT_MAX_DEPTH)).
Proof.
  split.
  - intros bs w Hl. pose proof (before_wf _ _ _ (new_before [] bs md Hl)) as Hw. simpl in Hw.
    pose proof (sane_node NODE_FUEL _ Hw) as Hs. pose proof (node_ends NODE_FUEL _ Hw ltac:(done)) as He.
    unfold from_prefix_with. change (deserialize (A:=Node)) with (de_node NODE_FUEL).
    destruct (de_node NODE_FUEL _) as [[v|e|w'] s']; simpl in *; [|done|by destruct Hs as [->|]].
    by rewrite remaining_unread by (by apply (post_wf _ v _ Hw)).
  - intros v l Hu Hl. pose proof (new_before (chain_bytes v l) [] md) as Hb. rewrite app_nil_r in Hb.
    specialize (Hb Hl). unfold from_bytes_with, from_prefix_with.
    change (deserialize (A:=Node)) with (de_node NODE_FUEL). destruct (Z.leb_spec (len (v :: l)) 64) as [Hn|Hn].
    + rewrite (node_reads md l v NODE_FUEL Hu ltac:(simpl in Hn; unfold NODE_FUEL; lia) _ _ Hb)
        by (done || simpl in *; unfold DEFAULT_MAX_DEPTH; lia).
      cbn [outcome_bind]. rewrite remaining_unread by (by eapply advance_wf).
      by rewrite (advance_unread _ _ _ Hb).
    + pose proof (node_over l v NODE_FUEL (XdrDe.new (chain_bytes v l) md) [] Hu ltac:(done) Hb ltac:(done)
        ltac:(simpl in *; unfold DEFAULT_MAX_DEPTH; lia)) as He.
      destruct (de_node NODE_FUEL _) as [[n|e|w'] s']; simpl in *; by simplify_eq.
Qed.

Lemma xdr_recursion_limit_witness :
  from_bytes_with (A:=Node) (chain_bytes 1 [2; 3]) Strict = Ok (node_chain 1 [2; 3]) ∧
  from_bytes_with (A:=Node) (chain_bytes 0 (replicate 64 0)) Strict = Err (RecursionLimit DEFAULT_MAX_DEPTH).
Proof.
  split; (etransitivity; [apply (proj2 (xdr_recursion_limit Strict));
    [repeat constructor; done|vm_compute; discriminate]|reflexivity]).
Defined.

(** ** Borrowed views *)




(** The encodings of admissible elements, one by one. *)
Definition encoded_as (t : ty) (l : list (den t)) (bss : list bytes) : Prop :=
  Forall2 (λ x bs, valid t Strict x ∧ to_bytes x = Ok bs) l bss.

Lemma encoded_as_iff t l bss : good t = true →
  encoded_as t l bss ↔ Forall (valid t Strict) l ∧ Forall2 encodes (map (ser t) l) bss.
Proof.
  intros Hg. pose proof (ty_codec _ (ty_correct t Hg)) as Hc. unfold encoded_as. split.
  - induction 1 as [|x bs l bss [Hx Hb] _ [IH1 IH2]]; [done|]. simpl. split; [by constructor|].
    constructor; [|done]. destruct (codec_complete (Codec:=Hc) Strict x Hx) as (bs' & He & _).
    pose proof (to_bytes_encodes _ _ He) as Hb'. change (to_bytes (ser t x) = Ok bs) in Hb.
    rewrite Hb' in Hb. by simplify_eq.
  - intros [Hv He]. revert bss He. induction Hv as [|x l Hx _ IH]; intros bss He; inversion He; subst; [done|].
    constructor; [|by apply IH]. split; [done|]. by apply (to_bytes_encodes (ser t x)).
Qed.

(** A [ListRef] is a chain of optional data, unread: it encodes to the
    bytes it was read from, which hold its elements each behind a boolean of 1
    and a boolean of 0 after the last; its length is their number, and its
    iterator gives them in order and ends. *)
Theorem xdr_list_view (t : ty) (bs : bytes) (v : ListRef) (rest : bytes) :
  good t = true → levels (TListRef t) ≤ DEFAULT_MAX_DEPTH → len bs ≤ isize_max →
  from_prefix_with (A:=den (TListRef t)) bs Strict = Ok (v, rest) →
  ∃ l bss, encoded_as t l bss ∧ bs = chain bss ++ rest ∧ to_bytes v = Ok (chain bss) ∧
    list_len v = len l ∧ list_collect (dec t) (S (length l)) (list_iter v) = Ok l.
Proof.
  intros Hg Hlv Hl H. simpl in Hlv. pose proof (ty_correct (TListRef t) Hg) as [_ _ Hc _ _].
  pose proof (ty_correct t Hg) as [_ _ Hct _ _].
  destruct (@prefix_canonical _ (ser (TListRef t)) (dec (TListRef t)) (valid (TListRef t)) _ Hc bs v rest Hl H)
    as ((l & Hok & Hh) & cs & He & ->).
  pose proof Hh as (Hn & bss & Hes & Henc).
  assert (cs = chain bss) as ->.
  { eapply encodes_inj; [exact He|]. unfold ser, to_serde, Serialize_ListRef. rewrite Henc.
    apply encodes_encoded. by eapply aligned_chain. }
  exists l, bss. split; [by apply encoded_as_iff|]. split; [done|]. split; [exact (to_bytes_encodes _ _ He)|].
  split; [done|].
  pose proof (list_iterates (ser t) (dec t) (valid t) (levels t) l v Hh) as Hi.
  assert (Z.to_nat (list_len v) = length l) as Hnl by (rewrite Hn; apply Nat2Z.id).
  rewrite Hnl in Hi. apply Hi.
  - eapply Forall_impl; [exact Hok|]. apply valid_lenient.
  - unfold DEFAULT_MAX_DEPTH, usize_max in *. lia.
  - rewrite Henc. rewrite length_app in Hl. lia.
Qed.

Lemma xdr_list_view_witness :
  let bs := chain [to_be_bytes 4 7; to_be_bytes 4 9] ++ [xff] in
  let v := mkListRef 2 (chain [to_be_bytes 4 7; to_be_bytes 4 9]) in
  ∃ l bss, encoded_as TU32 l bss ∧ bs = chain bss ++ [xff] ∧ to_bytes v = Ok (chain bss) ∧
    list_len v = len l ∧ list_collect (dec TU32) (S (length l)) (list_iter v) = Ok l.
Proof. apply (xdr_list_view TU32); [reflexivity|vm_compute; discriminate..|vm_compute; reflexivity]. Defined.

(** [from_encoded] accepts exactly what it should.  [VarArrayRef]'s takes the
    encodings of that many elements laid end to end, [ListRef]'s one whole
    list; each gives the view of those bytes and refuses everything else. *)
Theorem xdr_from_encoded (t : ty) (enc : bytes) :
  good t = true → levels t + 1 ≤ DEFAULT_MAX_DEPTH → len enc ≤ isize_max →
  (∀ n v, occupying t = true → 0 ≤ n →
     array_from_encoded (dec t) n enc = Ok v ↔
     v = mkVarArrayRef n enc ∧ ∃ l bss, encoded_as t l bss ∧ len l = n ∧ enc = concat bss) ∧
  (∀ v, list_from_encoded (dec t) enc = Ok v ↔
     ∃ l bss, encoded_as t l bss ∧ enc = chain bss ∧ v = mkListRef (len l) enc).
Proof.
  intros Hg Hlv Hl. pose proof (ty_correct t Hg) as [_ _ Hc _ Hoc]. split.
  - intros n v Ho Hn. specialize (Hoc Ho). split.
    + intros H. apply (array_from_encoded_inv (ser t) (dec t) (valid t) (levels t)) in H
        as (-> & l & Hok & Hlen & bss & Hes & Henc); [|done|done].
      split; [done|]. exists l, bss. split; [by apply encoded_as_iff|]. simpl in *. done.
    + intros (-> & l & bss & Hb & <- & ->). apply encoded_as_iff in Hb as [Hok Hes]; [|done].
      apply (array_from_encoded_ok (ser t) (dec t) (valid t) (levels t)); [lia|done|lia|].
      exists l. split; [done|]. split; [done|]. by exists bss.
  - intros v. rewrite (list_from_encoded_iff (ser t) (dec t) (valid t) (levels t)) by done. split.
    + intros (<- & l & Hok & Hn & bss & Hes & Henc). exists l, bss.
      split; [by apply encoded_as_iff|]. split; [done|]. rewrite <- Hn. by destruct v.
    + intros (l & bss & Hb & -> & ->). apply encoded_as_iff in Hb as [Hok Hes]; [|done].
      split; [done|]. exists l. split; [done|]. split; [done|]. by exists bss.
Qed.

Lemma xdr_from_encoded_witness :
  let enc := to_be_bytes 4 1 ++ to_be_bytes 4 0 in
  (∀ n v, occupying TBool = true → 0 ≤ n →
     array_from_encoded (dec TBool) n enc = Ok v ↔
     v = mkVarArrayRef n enc ∧ ∃ l bss, encoded_as TBool l bss ∧ len l = n ∧ enc = concat bss) ∧
  (∀ v, list_from_encoded (dec TBool) enc = Ok v ↔
     ∃ l bss, encoded_as TBool l bss ∧ enc = chain bss ∧ v = mkListRef (len l) enc).
Proof. apply (xdr_from_encoded TBool); [reflexivity|vm_compute; discriminate..]. Defined.
