(* ===== verification/XdrDeriveTheorems.v ===== *)
(** The claims on [truenas_xdr_derive]: the discriminants the derives assign,
    the unions they accept, and the round trips of what they generate. *)
From stdpp Require Import pretty.
From S2P Require Import Prelude XdrBase XdrSer XdrDe XdrDeSafe XdrCodec XdrShapes XdrWrappers XdrDerive XdrEnds XdrTypes.
Local Open Scope Z_scope.

(** The discriminants of a declaration are the ones the language gives its
    variants (the literal, else one more than the one before), and the
    declaration is accepted exactly when each of them and its successor fit an
    [i32]. *)
Theorem derive_discriminants (vs : list Variant) (ds : list Z) :
  discriminants vs = Ok ds ↔ values_of 0 vs ds ∧ Forall (λ d, signed 32 d ∧ signed 32 (d + 1)) ds.
Proof.
  split; [by apply discriminants_values|]. intros [Hv Hf]. apply discriminants_accepted; [done|].
  eapply Forall_impl; [exact Hf|]. by intros d [_ ?].
Qed.

(** A last variant of [i32::MAX], which the language accepts, is refused: the
    successor is checked even where no variant takes it. *)
Lemma last_max_refused :
  discriminants [{| ident := "A"; fields := Unit; expr := Some (ExprLit 2147483647); attrs := [] |}]
  = Err "discriminant overflows i32"%string.
Proof. reflexivity. Qed.

(** ** The arms of a union *)
Definition unmarked_arm (v : Variant) : Prop := is_default_arm v = Ok false.

(** A variant that is taken as the default arm. *)
Definition default_variant (v : Variant) : Prop :=
  is_default_arm v = Ok true ∧ v.(expr) = None ∧ 0 < fields_len v.(fields).

Lemma default_arm_at_ok n i found vs b : i + len vs = n → default_arm_at n i found vs = Ok b →
  (Forall unmarked_arm vs ∧ b = found) ∨
  (∃ vs0 vd, vs = vs0 ++ [vd] ∧ Forall unmarked_arm vs0 ∧ default_variant vd ∧ b = true).
Proof.
  revert i found. induction vs as [|v vs IH]; intros i found Hn H; cbn [default_arm_at] in H.
  { simplify_eq. left. done. }
  destruct (is_default_arm v) as [d|e|w] eqn:Hd; cbn [outcome_bind] in H; [|done|done].
  destruct d; cbn [negb] in H.
  - destruct (Z.eqb_spec (i + 1) n) as [Hi|]; cbn [negb] in H; [|done].
    case_bool_decide as He; [done|]. destruct (Z.eqb_spec (fields_len (fields v)) 0); [done|].
    destruct vs; [|simpl in Hn; lia]. simpl in H. simplify_eq. right. exists [], v.
    split; [done|]. split; [done|]. split; [|done]. split; [done|]. split; [by destruct (expr v); [destruct He|]|].
    assert (0 ≤ fields_len (fields v)) by (destruct (fields v); simpl; lia). lia.
  - apply IH in H; [|simpl in Hn; lia]. destruct H as [[Hf ->]|(vs0 & vd & -> & Hf & Hv & ->)].
    + left. split; [by constructor|done].
    + right. exists (v :: vs0), vd. split; [done|]. split; [by constructor|done].
Qed.

Lemma values_of_length next vs ds : values_of next vs ds → length ds = length vs.
Proof. induction 1; simpl; congruence. Qed.

(** The plan of an accepted union.  Every variant but a last one marked as
    the default has an arm, under the discriminant the language gives it and
    with its number of fields; a default arm declares no discriminant and has
    a field to hold one; and the decoder is told the widest arm's count. *)
Theorem derive_union_plan (input : DeriveInput) (vs : list Variant) (plan : UnionPlan) :
  input.(data) = DataEnum vs → expand_union input = Ok plan →
  ∃ discs, values_of 0 vs discs ∧
  ∃ explicit, Forall unmarked_arm explicit ∧
    plan.(plan_arms) = zip (firstn (length explicit) discs) (map (λ v, fields_len v.(fields)) explicit) ∧
    match plan.(plan_default) with
    | None => vs = explicit
    | Some n => ∃ vd, vs = explicit ++ [vd] ∧ default_variant vd ∧ n = fields_len vd.(fields)
    end ∧
    (∀ d n, (d, n) ∈ plan.(plan_arms) → 1 + n ≤ plan.(plan_max_elems)).
Proof.
  intros Hdata H. unfold expand_union, enum_data in H. rewrite Hdata in H.
  destruct (union_lifetimes (generics input)) as [ls|e|w]; cbn [outcome_bind] in H; [|done|done].
  destruct (discriminants vs) as [ds|e|w] eqn:Hds; cbn [outcome_bind] in H; [|done|done].
  apply discriminants_values in Hds as [Hv _]; [|done]. pose proof (values_of_length _ _ _ Hv) as Hlen.
  destruct (has_default_arm vs) as [b|e|w] eqn:Hd; cbn [outcome_bind] in H; [|done|done].
  exists ds. split; [done|].
  assert (∀ l : list (Z * Z), ∀ acc d n, (d, n) ∈ l ∨ 1 + n ≤ acc →
    1 + n ≤ foldl (λ m '(_, n), Z.max m (1 + n)) acc l) as Hmax.
  { induction l as [|[d' n'] l IH]; intros acc d n [Hin|Hle]; simpl; [by apply elem_of_nil in Hin|done| |].
    - apply elem_of_cons in Hin as [Hin|Hin]; [simplify_eq; apply (IH _ 0); right; lia|apply (IH _ d); by left].
    - apply (IH _ d). right. lia. }
  injection H as <-. unfold has_default_arm in Hd. apply default_arm_at_ok in Hd; [|lia].
  destruct Hd as [[Hf ->]|(vs0 & vd & -> & Hf & Hvd & ->)].
  - exists vs. cbn [plan_arms plan_default plan_max_elems]. rewrite Nat.sub_0_r.
    split; [done|]. split; [|split].
    + rewrite !take_ge by (rewrite ?length_zip_with, ?length_map; lia). done.
    + rewrite lookup_ge_None_2 by (rewrite length_map; lia). done.
    + intros d n Hin. pose proof (Hmax _ 1 d n (or_introl Hin)). lia.
  - exists vs0. cbn [plan_arms plan_default plan_max_elems]. rewrite length_app. simpl length.
    replace (length vs0 + 1 - 1)%nat with (length vs0) by lia. split; [done|]. split; [|split].
    + rewrite map_app, zip_with_take. f_equal. apply take_app_length'. by rewrite length_map.
    + rewrite map_app, lookup_app_r by (rewrite length_map; lia). rewrite length_map, Nat.sub_diag. simpl.
      by exists vd.
    + intros d n Hin. pose proof (Hmax _ 1 d n (or_introl Hin)). lia.
Qed.

Definition sample_variants : list Variant :=
  [{| ident := "Done"; fields := Unit; expr := None; attrs := [] |};
   {| ident := "Data"; fields := Unnamed 2; expr := Some (ExprLit 5); attrs := [] |};
   {| ident := "Other"; fields := Unnamed 1; expr := None; attrs := [("xdr"%string, ["default"%string])] |}].

Definition sample_input : DeriveInput :=
  {| input_ident := "Reply"; generics := []; data := DataEnum sample_variants |}.

Lemma derive_union_plan_witness :
  let plan := {| plan_arms := [(0, 0); (5, 2)]; plan_default := Some 1; plan_max_elems := 3 |} in
  ∃ discs, values_of 0 sample_variants discs ∧
  ∃ explicit, Forall unmarked_arm explicit ∧
    plan.(plan_arms) = zip (firstn (length explicit) discs) (map (λ v, fields_len v.(fields)) explicit) ∧
    match plan.(plan_default) with
    | None => sample_variants = explicit
    | Some n => ∃ vd, sample_variants = explicit ++ [vd] ∧ default_variant vd ∧ n = fields_len vd.(fields)
    end ∧
    (∀ d n, (d, n) ∈ plan.(plan_arms) → 1 + n ≤ plan.(plan_max_elems)).
Proof. apply (derive_union_plan sample_input sample_variants); vm_compute; reflexivity. Defined.

(** ** Enums *)
Section Enum.
Context {U : Type} `{!EqDecision U} (name : string) (variants : list (U * Z)).
#[local] Instance Serialize_enum : Serialize U := enum_serialize variants.
#[local] Instance Deserialize_enum : Deserialize U := enum_deserialize name variants.

Lemma enum_of_unknown d : d ∉ map snd variants →
  enum_of_disc name variants d = Err (Message ("unknown " +:+ name +:+ " discriminant " +:+ pretty d)).
Proof.
  induction variants as [|[v z] vs IH]; intros Hd; simpl in *; [done|].
  apply not_elem_of_cons in Hd as [Hne Hd]. destruct (Z.eqb_spec d z); [done|]. by apply IH.
Qed.

Lemma enum_deserialize_run md d : signed 32 d →
  from_bytes_with (A:=U) (to_be_bytes 4 (wrap 32 d)) md
  = outcome_map id (enum_of_disc name variants d).
Proof.
  intros Hd. pose proof (new_before (to_be_bytes 4 (wrap 32 d)) [] md) as Hb.
  rewrite app_nil_r, length_to_be_bytes in Hb. specialize (Hb ltac:(done)).
  destruct (codec_complete (Codec:=codec_i32) md d Hd) as (bs & He & Hr).
  rewrite (encodes_inj _ bs (to_be_bytes 4 (wrap 32 d)) He) in Hr by done.
  pose proof (Hr _ _ Hb ltac:(done) ltac:(done) ltac:(done)) as Hi. rewrite len_u32 in Hi.
  unfold from_bytes_with, from_prefix_with, deserialize, Deserialize_enum, enum_deserialize.
  rewrite (run_bind_ok _ _ _ _ _ Hi). unfold lift.
  destruct (enum_of_disc name variants d) as [u|e|w]; simpl; [|done|done].
  assert (advance 4 (XdrDe.new (to_be_bytes 4 (wrap 32 d)) md)
    = advance (len (to_be_bytes 4 (wrap 32 d))) (XdrDe.new (to_be_bytes 4 (wrap 32 d)) md)) as ->
    by (by rewrite len_u32).
  rewrite remaining_unread by (by eapply advance_wf). by rewrite (advance_unread _ _ _ Hb).
Qed.
End Enum.

(** A derived enum.  Each variant encodes to its discriminant as one unit,
    which decodes back to it in either mode; the unit of any other
    discriminant is refused by name.  [variants] are the enum's variants with
    their discriminants, which rustc has be distinct. *)
Theorem derive_enum {U : Type} `{!EqDecision U} (name : string) (variants : list (U * Z)) (md : Strictness) :
  (∀ u, u ∈ map fst variants) → NoDup (map fst variants) → NoDup (map snd variants) →
  Forall (λ p, signed 32 p.2) variants →
  (∀ u d, (u, d) ∈ variants →
     @to_bytes U (enum_serialize variants) u = Ok (to_be_bytes 4 (wrap 32 d)) ∧
     @from_bytes_with U (enum_deserialize name variants) (to_be_bytes 4 (wrap 32 d)) md = Ok u) ∧
  (∀ d, signed 32 d → d ∉ map snd variants →
     @from_bytes_with U (enum_deserialize name variants) (to_be_bytes 4 (wrap 32 d)) md
     = Err (Message ("unknown " +:+ name +:+ " discriminant " +:+ pretty d))).
Proof.
  intros Hc Hnf Hns Hi. split.
  - intros u d Hin. pose proof Hi as Hd. rewrite Forall_forall in Hd. specialize (Hd _ Hin). simpl in Hd. split.
    + destruct (enum_serialize_spec variants u Hnf (Hc u)) as (d' & Hin' & He).
      rewrite (enum_disc_unique variants Hnf u d' d Hin' Hin) in He.
      apply (to_bytes_encodes (enum_serialize variants u)). rewrite He. by intros pre.
    + pose proof (enum_deserialize_run name variants md d Hd) as H. unfold Deserialize_enum in H.
      rewrite H, (enum_of_disc_spec name variants u d Hns Hin). done.
  - intros d Hd Hni. pose proof (enum_deserialize_run name variants md d Hd) as H. unfold Deserialize_enum in H.
    by rewrite H, enum_of_unknown.
Qed.

Lemma derive_enum_witness :
  let variants := [(false, -3); (true, 9)] in
  (∀ u d, (u, d) ∈ variants →
     @to_bytes bool (enum_serialize variants) u = Ok (to_be_bytes 4 (wrap 32 d)) ∧
     @from_bytes_with bool (enum_deserialize "Flag" variants) (to_be_bytes 4 (wrap 32 d)) Strict = Ok u) ∧
  (∀ d, signed 32 d → d ∉ map snd variants →
     @from_bytes_with bool (enum_deserialize "Flag" variants) (to_be_bytes 4 (wrap 32 d)) Strict
     = Err (Message ("unknown " +:+ "Flag" +:+ " discriminant " +:+ pretty d))).
Proof.
  apply (derive_enum "Flag" [(false, -3); (true, 9)] Strict).
  - intros []; simpl; set_solver.
  - apply (bool_decide_unpack _). vm_compute. exact I.
  - apply (bool_decide_unpack _). vm_compute. exact I.
  - repeat constructor; vm_compute; discriminate.
Defined.

(** ** Unions *)

(** What reads back, of a list of fields. *)
Definition fields_ok {T} (sers : T → list Ser) (fs : FieldList T) (lv : Z) (md : Strictness) (t : T) : Prop :=
  ∃ bss, Forall2 encodes (sers t) bss ∧
    ∀ missing i s rest r, before s (concat bss) rest → clean s → mode s = md →
      depth s + lv ≤ max_depth s → field_count fs ≤ r →
      read_fields missing i fs {| de := s; left := r |}
      = (Ok t, {| de := advance (len (concat bss)) s; left := r - field_count fs |}).

Lemma fields_ok_of {T} (sers : T → list Ser) (fs : FieldList T) ok lv lv' md t :
  FieldCodec sers fs ok lv → lv ≤ lv' → ok md t → fields_ok sers fs lv' md t.
Proof.
  intros Hc Hl Ht. destruct (fields_complete (FieldCodec:=Hc) md t Ht) as (bss & He & Hr).
  exists bss. split; [done|]. intros. eapply Hr; try done. lia.
Qed.

Lemma fields_ok_codec {T} (sers : T → list Ser) (fs : FieldList T) ok lv lv' :
  FieldCodec sers fs ok lv → lv ≤ lv' → FieldCodec sers fs (fields_ok sers fs lv') lv'.
Proof.
  intros Hc Hl. split; [done| |pose proof (fields_levels (FieldCodec:=Hc)); lia|apply (fields_count (FieldCodec:=Hc))].
  intros missing i s r t rd Hw Hcl Hm H. destruct (fields_sound (FieldCodec:=Hc) _ _ _ _ _ _ Hw Hcl Hm H) as [Hok Hb].
  split; [by eapply fields_ok_of|done].
Qed.

(** An arm with fields of the types of [XdrTypes]: the pattern that takes them
    out of a value and the constructor that puts them back. *)
Record UnionArm (U : Type) : Type := mkUnionArm {
  ua_fields : tys;
  ua_match : U → option (dens ua_fields);
  ua_build : dens ua_fields → U
}.
Arguments mkUnionArm {U} _ _ _.
Arguments ua_fields {U} _.
Arguments ua_match {U} _ _.
Arguments ua_build {U} _ _.

(** A default arm: the type of the field that holds the discriminant, with its
    impls, and the fields after it. *)
Record UnionDefault (U : Type) : Type := mkUnionDefault {
  ud_D : Type;
  ud_ser : ud_D → Ser;
  ud_of_disc : Z → Result ud_D;
  ud_fields : tys;
  ud_match : U → option (ud_D * dens ud_fields);
  ud_build : ud_D → dens ud_fields → U
}.
Arguments mkUnionDefault {U} _ _ _ _ _ _.
Arguments ud_D {U} _.
Arguments ud_ser {U} _ _.
Arguments ud_of_disc {U} _ _.
Arguments ud_fields {U} _.
Arguments ud_match {U} _ _.
Arguments ud_build {U} _ _ _.

Definition arm_of {U} (a : UnionArm U) : Arm U :=
  mkArm (dens (ua_fields a)) (ua_match a) (ua_build a) (sers (ua_fields a)) (decs (ua_fields a)).
Definition default_of {U} (a : UnionDefault U) : DefaultArm U :=
  mkDefaultArm (ud_D a) (dens (ud_fields a)) (ud_match a) (ud_build a) (ud_ser a) (ud_of_disc a)
    (sers (ud_fields a)) (decs (ud_fields a)).

Section Union.
Context {U : Type} (name : string) (arms : list (Z * UnionArm U)) (default : option (UnionDefault U)) (lv : Z).

Definition union_arms : list (Z * Arm U) := map (λ p, (p.1, arm_of p.2)) arms.
Definition union_default : option (DefaultArm U) := default_of <$> default.
Definition Serialize_union : Serialize U := union_serialize name union_arms union_default.
Definition Deserialize_union : Deserialize U := union_deserialize name union_arms union_default.

(** The arms are those of one [enum], with distinct [i32] discriminants. *)
Record is_union : Prop := {
  un_levels : 0 ≤ lv;
  un_distinct : NoDup (map fst arms);
  un_i32 : ∀ p, p ∈ arms → signed 32 p.1;
  un_fields : ∀ p, p ∈ arms → goods (ua_fields p.2) = true ∧ levels_of (ua_fields p.2) ≤ lv;
  un_matches : ∀ p t, p ∈ arms → ua_match p.2 (ua_build p.2 t) = Some t;
  un_rebuilds : ∀ p u t, p ∈ arms → ua_match p.2 u = Some t → ua_build p.2 t = u;
  un_disjoint : ∀ p q u t t', p ∈ arms → q ∈ arms → ua_match p.2 u = Some t → ua_match q.2 u = Some t' → p.1 = q.1;
  un_default_fields : ∀ a, default = Some a → goods (ud_fields a) = true ∧ levels_of (ud_fields a) ≤ lv;
  un_default_matches : ∀ a d t, default = Some a → ud_match a (ud_build a d t) = Some (d, t);
  un_default_rebuilds : ∀ a u d t, default = Some a → ud_match a u = Some (d, t) → ud_build a d t = u;
  un_default_disjoint : ∀ a p u x, default = Some a → p ∈ arms → ud_match a u = Some x → ua_match p.2 u = None;
  un_default_disc : ∀ a x z, default = Some a → signed 32 z → ud_of_disc a z = Ok x →
    discriminant (ud_ser a x) = Ok z
}.

(** The values of the union that have an encoding. *)
Definition union_valid (md : Strictness) (u : U) : Prop :=
  (∃ disc a t, (disc, a) ∈ arms ∧ ua_match a u = Some t ∧ valids (ua_fields a) md t) ∨
  (∃ a d t disc, default = Some a ∧ ud_match a u = Some (d, t) ∧ discriminant (ud_ser a d) = Ok disc ∧
     ud_of_disc a disc = Ok d ∧ (disc ∉ map fst arms) ∧ valids (ud_fields a) md t).

Lemma union_arm_inv p : p ∈ union_arms → ∃ q, q ∈ arms ∧ p = (q.1, arm_of q.2).
Proof. intros H. apply list_elem_of_fmap in H as (q & -> & Hq). by exists q. Qed.

Lemma union_default_inv a : union_default = Some a → ∃ b, default = Some b ∧ a = default_of b.
Proof. unfold union_default. destruct default as [b|]; [|done]. intros [= <-]. by exists b. Qed.

Lemma union_fst : map fst union_arms = map fst arms.
Proof. unfold union_arms. rewrite map_map. done. Qed.

Definition arm_ok (a : Arm U) : Strictness → arm_T a → Prop := fields_ok (arm_sers a) (arm_fields a) lv.
Definition default_ok (a : DefaultArm U) : Strictness → default_T a → Prop :=
  fields_ok (default_sers a) (default_fields a) lv.

Lemma union_codec : is_union →
  Codec Serialize_union Deserialize_union (ok_union union_arms union_default arm_ok default_ok) (lv + 1).
Proof.
  intros Hu. apply codec_union; try (by apply Hu).
  - rewrite union_fst. apply Hu.
  - intros p Hp. apply union_arm_inv in Hp as (q & Hq & ->). by apply (un_i32 Hu).
  - intros p Hp. apply union_arm_inv in Hp as (q & Hq & ->). destruct (un_fields Hu q Hq) as [Hg Hl].
    exact (fields_ok_codec _ _ _ _ lv (tys_codec _ (proj2 all_correct _ Hg)) Hl).
  - intros p t Hp. apply union_arm_inv in Hp as (q & Hq & ->). by apply (un_matches Hu).
  - intros p u t Hp. apply union_arm_inv in Hp as (q & Hq & ->). by apply (un_rebuilds Hu).
  - intros p p' u t t' Hp Hp'. apply union_arm_inv in Hp as (q & Hq & ->), Hp' as (q' & Hq' & ->).
    by apply (un_disjoint Hu q q').
  - intros a Ha. apply union_default_inv in Ha as (b & Hb & ->). destruct (un_default_fields Hu b Hb) as [Hg Hl].
    exact (fields_ok_codec _ _ _ _ lv (tys_codec _ (proj2 all_correct _ Hg)) Hl).
  - intros a d t Ha. apply union_default_inv in Ha as (b & Hb & ->). by apply (un_default_matches Hu).
  - intros a u d t Ha. apply union_default_inv in Ha as (b & Hb & ->). by apply (un_default_rebuilds Hu).
  - intros a p u x Ha Hp. apply union_default_inv in Ha as (b & Hb & ->). apply union_arm_inv in Hp as (q & Hq & ->).
    by apply (un_default_disjoint Hu b q u x).
  - intros a x z Ha. apply union_default_inv in Ha as (b & Hb & ->). by apply (un_default_disc Hu).
Qed.

Lemma union_valid_ok md u : is_union → union_valid md u →
  ok_union union_arms union_default arm_ok default_ok md u.
Proof.
  intros Hu [(disc & a & t & Hin & Hm & Hv)|(a & d & t & disc & Ha & Hm & Hd & Hod & Hni & Hv)].
  - left. exists disc, (arm_of a), t. split; [apply (list_elem_of_fmap_2 (λ p, (p.1, arm_of p.2)) _ _ Hin)|].
    split; [done|]. destruct (un_fields Hu _ Hin) as [Hg Hl].
    exact (fields_ok_of _ _ _ _ lv md t (tys_codec _ (proj2 all_correct _ Hg)) Hl Hv).
  - right. exists (default_of a), d, t, disc. split; [unfold union_default; by rewrite Ha|].
    split; [done|]. split; [done|]. split; [done|].
    split; [by rewrite union_fst|]. destruct (un_default_fields Hu a Ha) as [Hg Hl].
    exact (fields_ok_of _ _ _ _ lv md t (tys_codec _ (proj2 all_correct _ Hg)) Hl Hv).
Qed.
End Union.

(** C7: a derived union, with or without a default arm.  A value whose fields
    its arm can carry round-trips in either mode; a strict decoder takes
    nothing but the encodings of the union's values; and a default value whose
    discriminant has an arm of its own, whose bytes would decode as that arm,
    is refused. *)
Theorem derive_union {U : Type} (name : string) (arms : list (Z * UnionArm U))
    (default : option (UnionDefault U)) (lv : Z) :
  is_union arms default lv → lv + 1 ≤ DEFAULT_MAX_DEPTH →
  (∀ md u, union_valid arms default md u →
     (∀ bs, @to_bytes U (Serialize_union name arms default) u = Ok bs → len bs ≤ isize_max) →
     ∃ bs, @to_bytes U (Serialize_union name arms default) u = Ok bs ∧
       @from_bytes_with U (Deserialize_union name arms default) bs md = Ok u) ∧
  (∀ bs u, len bs ≤ isize_max →
     @from_bytes_with U (Deserialize_union name arms default) bs Strict = Ok u →
     @to_bytes U (Serialize_union name arms default) u = Ok bs) ∧
  (∀ a u d t disc, default = Some a → ud_match a u = Some (d, t) →
     discriminant (ud_ser a d) = Ok disc → disc ∈ map fst arms →
     @to_bytes U (Serialize_union name arms default) u
     = Err (Message (name +:+ " discriminant " +:+ pretty disc +:+ " has an arm of its own"))).
Proof.
  intros Hu Hlv. pose proof (union_codec name arms default lv Hu) as Hc. split; [|split].
  - intros md u Hv Hl. apply (union_valid_ok _ _ lv) in Hv; [|done].
    exact (@bytes_roundtrip _ _ _ _ _ Hc md u Hv Hlv Hl).
  - intros bs u Hl H. apply (@strict_canonical _ _ _ _ _ Hc bs u Hl H).
  - intros a u d t disc -> Hm Hd Hin. apply (to_bytes_refuses (Serialize_union name arms (Some a) u)).
    unfold Serialize_union. rewrite (default_refused name (union_arms arms) (union_default (Some a)))
      with (a := default_of a) (d := d) (t := t) (disc := disc); try done.
    + intros pre. by eexists.
    + intros a' p u' x Ha Hp. apply union_default_inv in Ha as (b & Hb & ->).
      apply union_arm_inv in Hp as (q & Hq & ->). by apply (un_default_disjoint _ _ _ Hu b q u' x).
    + by rewrite union_fst.
Qed.

(** A union with a unit arm, an arm of two fields and a default arm. *)
Inductive Reply : Type := Done | Data (x : Z) (b : bool) | Other (code : Z).

Definition done_arm : UnionArm Reply :=
  mkUnionArm TNil (λ u, match u with Done => Some tt | _ => None end) (λ _, Done).
Definition data_arm : UnionArm Reply :=
  mkUnionArm (TCons "0" TU32 (TCons "1" TBool TNil))
    (λ u, match u with Data x b => Some (x, (b, tt)) | _ => None end) (λ t, Data t.1 t.2.1).
Definition reply_arms : list (Z * UnionArm Reply) := [(0, done_arm); (5, data_arm)].
Definition reply_default : UnionDefault Reply :=
  mkUnionDefault Z SI32 (λ z, Ok z) TNil
    (λ u, match u with Other code => Some (code, tt) | _ => None end) (λ code _, Other code).

Lemma reply_is_union : is_union reply_arms (Some reply_default) 0.
Proof.
  assert (∀ p, p ∈ reply_arms → p = (0, done_arm) ∨ p = (5, data_arm)) as Hp.
  { intros p H. unfold reply_arms in *. set_solver. }
  split.
  - done.
  - apply (bool_decide_unpack _). vm_compute. exact I.
  - intros p [->| ->]%Hp; by vm_compute.
  - intros p [->| ->]%Hp; by vm_compute.
  - intros p t [->| ->]%Hp; [by destruct t|by destruct t as [x [b []]]].
  - intros p u t [->| ->]%Hp H; destruct u; simpl in *; by simplify_eq.
  - intros p q u t t' [->| ->]%Hp [->| ->]%Hp; destruct u; simpl; intros; by simplify_eq.
  - intros a [= <-]. by vm_compute.
  - intros a d t [= <-]. by destruct t.
  - intros a u d t [= <-]. destruct u; simpl; intros; by simplify_eq.
  - intros a p u x [= <-] [->| ->]%Hp; destruct u; simpl; intros; by simplify_eq.
  - intros a x z [= <-] Hz [= <-]. by apply discriminant_i32.
Qed.

Lemma derive_union_witness :
  (∃ bs, @to_bytes Reply (Serialize_union "Reply" reply_arms (Some reply_default)) (Data 7 true) = Ok bs ∧
     @from_bytes_with Reply (Deserialize_union "Reply" reply_arms (Some reply_default)) bs Strict = Ok (Data 7 true)) ∧
  @to_bytes Reply (Serialize_union "Reply" reply_arms (Some reply_default)) (Other 9) = Ok (to_be_bytes 4 9) ∧
  @to_bytes Reply (Serialize_union "Reply" reply_arms (Some reply_default)) (Other 5)
  = Err (Message ("Reply" +:+ " discriminant " +:+ pretty 5 +:+ " has an arm of its own")).
Proof.
  destruct (derive_union "Reply" reply_arms (Some reply_default) 0 reply_is_union) as (H1 & H2 & H3);
    [vm_compute; discriminate|]. split; [|split].
  - apply H1.
    + left. exists 5, data_arm, (7, (true, tt)). split; [unfold reply_arms; set_solver|].
      split; [reflexivity|]. simpl. unfold unsigned. repeat split; lia.
    + intros bs H. vm_compute in H. injection H as <-. vm_compute. discriminate.
  - apply H2; [vm_compute; discriminate|vm_compute; reflexivity].
  - apply (H3 reply_default _ 5 tt 5); [reflexivity|reflexivity|vm_compute; reflexivity|vm_compute; set_solver].
Defined.
