(* ===== verification/Metafmt.v ===== *)
(** [truenas_metafmt]: the record of how a dataset's files are laid out on
    disk, as XDR in an xattr.  [pack] and [unpack] on top of the codec, and the
    verdict on a stored record.

    The wire structs derive serde's traits.  The derived impls are not part of
    the crate, so they are parameters, with the documented behaviour of serde's
    derive as the laws of [DerivedImpls]; [serde_derive] is a model of them. *)
From stdpp Require Import pretty.
From S2P Require Import Prelude XdrBase XdrSer XdrDe XdrDeSafe XdrCodec XdrShapes XdrWrappers.
Local Open Scope Z_scope.

(** ** Data *)

(* SRC truenas_metafmt/src/lib.rs const MAGIC *)
Definition MAGIC : Z := 0x544E4D46.
(* SRC truenas_metafmt/src/lib.rs const VERSION *)
Definition VERSION : Z := 1.
(* SRC truenas_metafmt/src/lib.rs const FILENAME_CHARSET_MAX *)
Definition FILENAME_CHARSET_MAX : Z := 64.
(* SRC truenas_metafmt/src/lib.rs const STREAM_AFFIX_MAX *)
Definition STREAM_AFFIX_MAX : Z := 255.

(** A [String] or a [&str], by its bytes. *)
Definition Str : Type := bytes.
#[global] Instance Serialize_Str : Serialize Str := SStr.
#[global] Instance Deserialize_Str : Deserialize Str := deserialize_str Ok.
#[global] Instance Str_eq_dec : EqDecision Str := list_eq_dec.

(* SRC truenas_metafmt/src/lib.rs struct StreamFormat *)
Record StreamFormat : Type := {
  stream_prefix : Str;
  stream_suffix : Str;
  stream_extra_null : bool
}.

(* SRC truenas_metafmt/src/lib.rs struct MetaFmt *)
Record MetaFmt : Type := {
  filename_charset : Str;
  smb_sfm_normalized : bool;
  streams : option StreamFormat
}.

#[global] Instance StreamFormat_eq_dec : EqDecision StreamFormat.
Proof. solve_decision. Defined.
#[global] Instance MetaFmt_eq_dec : EqDecision MetaFmt.
Proof. solve_decision. Defined.

(* SRC truenas_metafmt/src/lib.rs enum Error *)
Inductive MetaError : Type :=
| NotARecord
| NewerVersion (version : Z)
| Xdr (error : Error).

(* SRC truenas_metafmt/src/lib.rs enum Verdict *)
Inductive Verdict : Type :=
| Unstamped
| Same
| Differs (found : MetaFmt)
| Newer (version : Z)
| Unreadable (error : MetaError).

(** ** The wire structs *)

(* SRC truenas_metafmt/src/lib.rs struct Header *)
Record Header : Type := mkHeader { header_magic : Z; header_version : Z }.

(* SRC truenas_metafmt/src/lib.rs struct StreamsV1 *)
Record StreamsV1 : Type := mkStreamsV1 {
  v1_prefix : Bounded Str STREAM_AFFIX_MAX;
  v1_suffix : Bounded Str STREAM_AFFIX_MAX;
  v1_extra_null : bool
}.

(* SRC truenas_metafmt/src/lib.rs struct BodyV1 *)
Record BodyV1 : Type := mkBodyV1 {
  v1_charset : Bounded Str FILENAME_CHARSET_MAX;
  v1_sfm_normalized : bool;
  v1_streams : option StreamsV1
}.

(* SRC truenas_metafmt/src/lib.rs struct Packed *)
Record Packed : Type := mkPacked { packed_magic : Z; packed_version : Z; packed_body : BodyV1 }.

(* SRC truenas_metafmt/src/lib.rs impl From for BodyV1 *)
Definition body_of (fmt : MetaFmt) : BodyV1 :=
  mkBodyV1 (mkBounded fmt.(filename_charset)) fmt.(smb_sfm_normalized)
    ((λ s, mkStreamsV1 (mkBounded s.(stream_prefix)) (mkBounded s.(stream_suffix))
             s.(stream_extra_null)) <$> fmt.(streams)).

(* SRC truenas_metafmt/src/lib.rs impl From<BodyV1<'_>> for MetaFmt *)
Definition meta_of (body : BodyV1) : MetaFmt :=
  {| filename_charset := body.(v1_charset).(bounded);
     smb_sfm_normalized := body.(v1_sfm_normalized);
     streams := (λ s, {| stream_prefix := s.(v1_prefix).(bounded);
                         stream_suffix := s.(v1_suffix).(bounded);
                         stream_extra_null := s.(v1_extra_null) |}) <$> body.(v1_streams) |}.

(** ** The derived impls

    A derived [Serialize] calls [serialize_struct] and one [serialize_field]
    per field, in order.  A derived [Deserialize] calls [deserialize_struct]
    with a visitor that reads one element per field, in order, and refuses a
    missing one. *)
Definition header_fields : FieldList (Z * (Z * unit)) :=
  FCons (deserialize_u32 Ok) (FCons (deserialize_u32 Ok) FNil).
Definition header_from (t : Z * (Z * unit)) : Header := mkHeader t.1 t.2.1.

Definition StreamsT : Type :=
  Bounded Str STREAM_AFFIX_MAX * (Bounded Str STREAM_AFFIX_MAX * (bool * unit)).
Definition streams_fields : FieldList StreamsT :=
  FCons deserialize (FCons deserialize (FCons (deserialize_bool Ok) FNil)).
Definition streams_from (t : StreamsT) : StreamsV1 := mkStreamsV1 t.1 t.2.1 t.2.2.1.

Definition BodyT : Type := Bounded Str FILENAME_CHARSET_MAX * (bool * (option StreamsV1 * unit)).
Definition body_fields (de_streams : De StreamsV1) : FieldList BodyT :=
  FCons deserialize (FCons (deserialize_bool Ok) (FCons (de_option de_streams) FNil)).
Definition body_from (t : BodyT) : BodyV1 := mkBodyV1 t.1 t.2.1 t.2.2.1.

Class DerivedImpls : Type := {
  de_header : De Header;
  ser_packed : Packed → Ser;
  ser_body : BodyV1 → Ser;
  de_body : De BodyV1;
  ser_streams : StreamsV1 → Ser;
  de_streams : De StreamsV1;
  de_header_fields : ∀ s, de_header s
    = deserialize_struct "Header" ["magic"; "version"]
        (visit_fields header_from header_fields (struct_missing "Header" 2)) s;
  de_streams_fields : ∀ s, de_streams s
    = deserialize_struct "StreamsV1" ["stream_prefix"; "stream_suffix"; "stream_extra_null"]
        (visit_fields streams_from streams_fields (struct_missing "StreamsV1" 3)) s;
  de_body_fields : ∀ s, de_body s
    = deserialize_struct "BodyV1" ["filename_charset"; "smb_sfm_normalized"; "streams"]
        (visit_fields body_from (body_fields de_streams) (struct_missing "BodyV1" 3)) s;
  ser_streams_fields : ∀ v, ser_streams v
    = SStruct "StreamsV1" 3 [to_serde v.(v1_prefix); to_serde v.(v1_suffix); SBool v.(v1_extra_null)];
  ser_body_fields : ∀ v, ser_body v
    = SStruct "BodyV1" 3 [to_serde v.(v1_charset); SBool v.(v1_sfm_normalized);
                          ser_option ser_streams v.(v1_streams)];
  ser_packed_fields : ∀ v, ser_packed v
    = SStruct "Packed" 3 [SU32 v.(packed_magic); SU32 v.(packed_version); ser_body v.(packed_body)]
}.

(** ** Operations *)
Section Metafmt.
Context `{!DerivedImpls}.
#[local] Instance Deserialize_Header : Deserialize Header := de_header.
#[local] Instance Deserialize_BodyV1 : Deserialize BodyV1 := de_body.
#[local] Instance Serialize_Packed : Serialize Packed := ser_packed.

(* SRC truenas_metafmt/src/lib.rs fn pack *)
Definition pack (self : MetaFmt) : Outcome bytes MetaError :=
  let affixes :=
    match self.(streams) with
    | Some s => [s.(stream_prefix); s.(stream_suffix)]
    | None => []
    end in
  if existsb contains_nul (self.(filename_charset) :: affixes) then Err (Xdr EmbeddedNul)
  else map_err Xdr (to_bytes (mkPacked MAGIC VERSION (body_of self))).

(* SRC truenas_metafmt/src/lib.rs fn unpack *)
Definition unpack (bs : bytes) : Outcome MetaFmt MetaError :=
  outcome_bind (λ '(header, body),
    if negb (header.(header_magic) =? MAGIC) then Err NotARecord
    else if header.(header_version) =? 0 then Err NotARecord
    else if header.(header_version) =? VERSION then
      outcome_map meta_of (map_err Xdr (from_bytes_with body Strict))
    else Err (NewerVersion header.(header_version)))
    (map_err Xdr (from_prefix_with (A:=Header) bs Strict)).

(* SRC truenas_metafmt/src/lib.rs fn compare_stored *)
Definition compare_stored (self : MetaFmt) (stored : option bytes) : Outcome Verdict MetaError :=
  match stored with
  | None => Ok Unstamped
  | Some bs =>
      match unpack bs with
      | Ok found => if decide (found = self) then Ok Same else Ok (Differs found)
      | Err (NewerVersion version) => Ok (Newer version)
      | Err error => Ok (Unreadable error)
      | Stop w => Stop w
      end
  end.
End Metafmt.

(* SRC truenas_metafmt/src/lib.rs impl fmt::Display for Error *)
Definition display_MetaError (e : MetaError) : string :=
  match e with
  | NotARecord => "not a metafmt record"
  | NewerVersion version => "metafmt record version " +:+ pretty version +:+ " is not known"
  | Xdr error => "damaged metafmt record: " +:+ display_Error error
  end.

Definition show_bool (b : bool) : string := if b then "true" else "false".
Definition show_str (s : Str) : string := String.string_of_list_byte s.

(* SRC truenas_metafmt/src/lib.rs impl fmt::Display for MetaFmt *)
Definition display_MetaFmt (m : MetaFmt) : string :=
  "filename_charset = " +:+ show_str m.(filename_charset)
  +:+ ", smb_sfm_normalized = " +:+ show_bool m.(smb_sfm_normalized) +:+ ", "
  +:+ match m.(streams) with
      | None => "no streams"
      | Some s => "stream_prefix = '" +:+ show_str s.(stream_prefix)
                  +:+ "', stream_suffix = '" +:+ show_str s.(stream_suffix)
                  +:+ "', stream_extra_null = " +:+ show_bool s.(stream_extra_null)
      end.

(** A model of the derive. *)
Definition derived_streams : De StreamsV1 :=
  deserialize_struct "StreamsV1" ["stream_prefix"; "stream_suffix"; "stream_extra_null"]
    (visit_fields streams_from streams_fields (struct_missing "StreamsV1" 3)).
Definition derived_ser_streams (v : StreamsV1) : Ser :=
  SStruct "StreamsV1" 3 [to_serde v.(v1_prefix); to_serde v.(v1_suffix); SBool v.(v1_extra_null)].
Definition derived_ser_body (v : BodyV1) : Ser :=
  SStruct "BodyV1" 3 [to_serde v.(v1_charset); SBool v.(v1_sfm_normalized);
                      ser_option derived_ser_streams v.(v1_streams)].

Definition serde_derive : DerivedImpls := {|
  de_header := deserialize_struct "Header" ["magic"; "version"]
    (visit_fields header_from header_fields (struct_missing "Header" 2));
  de_streams := derived_streams;
  de_body := deserialize_struct "BodyV1" ["filename_charset"; "smb_sfm_normalized"; "streams"]
    (visit_fields body_from (body_fields derived_streams) (struct_missing "BodyV1" 3));
  ser_streams := derived_ser_streams;
  ser_body := derived_ser_body;
  ser_packed v := SStruct "Packed" 3
    [SU32 v.(packed_magic); SU32 v.(packed_version); derived_ser_body v.(packed_body)];
  de_header_fields _ := eq_refl;
  de_streams_fields _ := eq_refl;
  de_body_fields _ := eq_refl;
  ser_streams_fields _ := eq_refl;
  ser_body_fields _ := eq_refl;
  ser_packed_fields _ := eq_refl
|}.
