(* ===== verification/MetafmtTheorems.v ===== *)
(** [truenas_metafmt]: [pack] and [unpack] are inverse, on exactly the
    settings that can be stored, and the verdicts follow. *)
From S2P Require Import Prelude XdrBase XdrSer XdrDe XdrDeSafe XdrCodec XdrShapes XdrWrappers XdrArrayRef XdrList XdrEnds XdrTypes Metafmt.
Local Open Scope Z_scope.

(** A Rust [String] is UTF-8. *)
Definition string_ok (s : Str) : Prop := utf8_valid s = true.

(** What the type of the settings says. *)
Definition settings_ok (m : MetaFmt) : Prop :=
  string_ok m.(filename_charset) ∧
  match m.(streams) with
  | Some s => string_ok s.(stream_prefix) ∧ string_ok s.(stream_suffix)
  | None => True
  end.

(** A string that a field bounded by [max] can hold. *)
Definition fits (max : Z) (s : Str) : Prop := len s ≤ max ∧ contains_nul s = false.

(** Settings that have a record. *)
Definition storable (m : MetaFmt) : Prop :=
  fits FILENAME_CHARSET_MAX m.(filename_charset) ∧
  match m.(streams) with
  | Some s => fits STREAM_AFFIX_MAX s.(stream_prefix) ∧ fits STREAM_AFFIX_MAX s.(stream_suffix)
  | None => True
  end.

Section Metafmt.
Context `{derived : !DerivedImpls}.
#[local] Instance De_Header : Deserialize Header := de_header.
#[local] Instance De_BodyV1 : Deserialize BodyV1 := de_body.
#[local] Instance Ser_BodyV1 : Serialize BodyV1 := ser_body.
#[local] Instance Ser_Packed : Serialize Packed := ser_packed.

(** ** The wire structs round-trip *)
#[local] Abbreviation fields_cons' HA HB := (fields_cons _ _ _ _ _ _ _ _ HA HB).

Definition header_to (h : Header) : Z * (Z * unit) := (h.(header_magic), (h.(header_version), tt)).
Definition ser_header (h : Header) : Ser :=
  SStruct "Header" 2 [SU32 h.(header_magic); SU32 h.(header_version)].

#[local] Instance counted_Str :
  Counted (to_serde (A:=Str)) (deserialize (A:=Str)) str_ok 0 (λ v, len v) := counted_str.

Definition ok_header (md : Strictness) (h : Header) : Prop :=
  unsigned 32 h.(header_magic) ∧ unsigned 32 h.(header_version) ∧ True.

Lemma codec_header : Codec ser_header de_header ok_header 1.
Proof.
  eapply codec_ext; [apply de_header_fields|].
  refine (@codec_struct _ _ header_to header_from
    (λ t : Z * (Z * unit), [SU32 t.1; SU32 t.2.1]) header_fields
    (λ md t, unsigned 32 t.1 ∧ unsigned 32 t.2.1 ∧ True) (Z.max 0 (Z.max 0 0)) _ _ _
    (struct_missing "Header" 2) "Header" ["magic"; "version"] _);
    [|by intros []|by intros (? & ? & [])|done].
  exact (fields_cons' codec_u32 (fields_cons' codec_u32 fields_nil)).
Qed.

Definition streams_to (v : StreamsV1) : StreamsT := (v.(v1_prefix), (v.(v1_suffix), (v.(v1_extra_null), tt))).
Definition ok_affix : Strictness → Bounded Str STREAM_AFFIX_MAX → Prop := ok_bounded STREAM_AFFIX_MAX str_ok (λ v, len v).
Definition ok_charset : Strictness → Bounded Str FILENAME_CHARSET_MAX → Prop :=
  ok_bounded FILENAME_CHARSET_MAX str_ok (λ v, len v).

Definition ok_streams (md : Strictness) (v : StreamsV1) : Prop :=
  ok_affix md v.(v1_prefix) ∧ ok_affix md v.(v1_suffix) ∧ True ∧ True.

Lemma codec_streams : Codec ser_streams de_streams ok_streams 2.
Proof.
  assert (Codec (λ a, SStruct "StreamsV1" 3
    ((λ t : StreamsT, [to_serde t.1; to_serde t.2.1; SBool t.2.2.1]) (streams_to a)))
    de_streams ok_streams 2) as [Hc Hs Hl].
  - eapply codec_ext; [apply de_streams_fields|].
    refine (@codec_struct _ _ streams_to streams_from
      (λ t : StreamsT, [to_serde t.1; to_serde t.2.1; SBool t.2.2.1]) streams_fields
      (λ md t, ok_affix md t.1 ∧ ok_affix md t.2.1 ∧ True ∧ True) (Z.max 1 (Z.max 1 (Z.max 0 0))) _ _ _
      (struct_missing "StreamsV1" 3) "StreamsV1" ["stream_prefix"; "stream_suffix"; "stream_extra_null"] _);
      [|by intros []|by intros (? & ? & ? & [])|done].
    pose proof (codec_Bounded STREAM_AFFIX_MAX str_ok 0 (λ v : Str, len v)) as Hb.
    exact (fields_cons' Hb (fields_cons' Hb (fields_cons' codec_bool fields_nil))).
  - split; [| |done].
    + intros md v Hv. rewrite ser_streams_fields. by apply Hc.
    + intros s v s' Hw Hcl Hm Hd. rewrite ser_streams_fields. by apply Hs.
Qed.

Definition body_to (v : BodyV1) : BodyT := (v.(v1_charset), (v.(v1_sfm_normalized), (v.(v1_streams), tt))).
Definition ok_body (md : Strictness) (v : BodyV1) : Prop :=
  ok_charset md v.(v1_charset) ∧ True ∧ ok_option ok_streams md v.(v1_streams) ∧ True.

Lemma codec_body : Codec ser_body de_body ok_body 4.
Proof.
  pose proof codec_streams as Hstreams.
  assert (Codec (λ a, SStruct "BodyV1" 3
    ((λ t : BodyT, [to_serde t.1; SBool t.2.1; ser_option ser_streams t.2.2.1]) (body_to a)))
    de_body ok_body 4) as [Hc Hs Hl].
  - eapply codec_ext; [apply de_body_fields|].
    refine (@codec_struct _ _ body_to body_from
      (λ t : BodyT, [to_serde t.1; SBool t.2.1; ser_option ser_streams t.2.2.1]) (body_fields de_streams)
      (λ md t, ok_charset md t.1 ∧ True ∧ ok_option ok_streams md t.2.2.1 ∧ True)
      (Z.max 1 (Z.max 0 (Z.max 3 0))) _ _ _
      (struct_missing "BodyV1" 3) "BodyV1" ["filename_charset"; "smb_sfm_normalized"; "streams"] _); [|by intros []|by intros (? & ? & ? & [])|done].
    pose proof (codec_Bounded FILENAME_CHARSET_MAX str_ok 0 (λ v : Str, len v)) as Hb.
    exact (fields_cons' Hb (fields_cons' codec_bool
      (fields_cons' (codec_option ser_streams de_streams ok_streams 2) fields_nil))).
  - split; [| |done].
    + intros md v Hv. rewrite ser_body_fields. by apply Hc.
    + intros s v s' Hw Hcl Hm Hd. rewrite ser_body_fields. by apply Hs.
Qed.

(** ** The record *)
Definition ser_str (s : Str) : bytes := counted_body s.
Definition u32_bool (b : bool) : bytes := to_be_bytes 4 (if b then 1 else 0).

(** The record of [m], as the module's wire format describes it. *)
Definition body_record (m : MetaFmt) : bytes :=
  ser_str m.(filename_charset) ++ u32_bool m.(smb_sfm_normalized) ++
  match m.(streams) with
  | None => u32_bool false
  | Some s => u32_bool true ++ ser_str s.(stream_prefix) ++ ser_str s.(stream_suffix)
              ++ u32_bool s.(stream_extra_null)
  end.
Definition record (m : MetaFmt) : bytes := to_be_bytes 4 MAGIC ++ to_be_bytes 4 VERSION ++ body_record m.

(** The first string over its bound, in the order of the fields. *)
Definition over (max : Z) (s : Str) : option (Z * Z) :=
  if max <? len s then Some (len s, max) else None.
Definition first_over (m : MetaFmt) : option (Z * Z) :=
  match over FILENAME_CHARSET_MAX m.(filename_charset), m.(streams) with
  | Some e, _ => Some e
  | None, None => None
  | None, Some s =>
      match over STREAM_AFFIX_MAX s.(stream_prefix) with
      | Some e => Some e
      | None => over STREAM_AFFIX_MAX s.(stream_suffix)
      end
  end.

Lemma bounded_encodes max (v : Str) : len v ≤ max → max ≤ 255 →
  encodes (to_serde (mkBounded v : Bounded Str max)) (ser_str v).
Proof using Type.
  intros Hl Hm. apply encodes_bounded, encodes_str_within; [|done]. unfold unsigned. simpl bounded.
  change (2 ^ 32) with 4294967296. lia.
Qed.

Lemma bool_encodes b : encodes (SBool b) (u32_bool b).
Proof using Type. by intros pre. Qed.

Lemma over_none max s : over max s = None ↔ len s ≤ max.
Proof using Type. unfold over. destruct (Z.ltb_spec max (len s)); split; intros; simplify_eq; lia || done. Qed.

Lemma over_some max s l x : over max s = Some (l, x) → max < len s ∧ l = len s ∧ x = max.
Proof using Type. unfold over. destruct (Z.ltb_spec max (len s)); intros; by simplify_eq. Qed.

Ltac encode_fields :=
  repeat first [apply bounded_encodes; [by apply over_none|done] | apply bool_encodes
               | apply Forall2_nil_2 | apply Forall2_cons_2].

Lemma streams_encode s : over STREAM_AFFIX_MAX s.(stream_prefix) = None →
  over STREAM_AFFIX_MAX s.(stream_suffix) = None →
  encodes (ser_streams (mkStreamsV1 (mkBounded s.(stream_prefix)) (mkBounded s.(stream_suffix)) s.(stream_extra_null)))
    (ser_str s.(stream_prefix) ++ ser_str s.(stream_suffix) ++ u32_bool s.(stream_extra_null)).
Proof using Type.
  intros H1 H2. rewrite ser_streams_fields.
  rewrite <- (app_nil_r (u32_bool _)).
  apply (encodes_struct _ _ _ [ser_str s.(stream_prefix); ser_str s.(stream_suffix); u32_bool s.(stream_extra_null)]).
  encode_fields.
Qed.

Lemma body_encodes m : first_over m = None → encodes (ser_body (body_of m)) (body_record m).
Proof using Type.
  unfold first_over. destruct (over FILENAME_CHARSET_MAX _) eqn:Hc; [done|]. intros Hs.
  rewrite ser_body_fields. unfold body_record.
  set (tl := match streams m with None => _ | Some _ => _ end). rewrite <- (app_nil_r tl).
  apply (encodes_struct _ _ _ [ser_str m.(filename_charset); u32_bool m.(smb_sfm_normalized); tl]).
  apply Forall2_cons_2; [apply bounded_encodes; [by apply over_none|done]|].
  apply Forall2_cons_2; [apply bool_encodes|]. apply Forall2_cons_2; [|done].
  unfold body_of, tl. simpl v1_streams. destruct (streams m) as [s|]; simpl; [|apply encodes_none].
  destruct (over STREAM_AFFIX_MAX (stream_prefix s)) eqn:Hp; [done|].
  by apply encodes_some, streams_encode.
Qed.

Lemma body_refuses m l max : first_over m = Some (l, max) → refuses (ser_body (body_of m)) (TooLong l max).
Proof using Type.
  unfold first_over. rewrite ser_body_fields. destruct (over FILENAME_CHARSET_MAX _) as [[]|] eqn:Hc.
  - intros [= <- <-]. apply over_some in Hc as (Hc & -> & ->).
    apply (struct_refuses _ _ [] [] _ _ _ (proj2 (Forall2_nil encodes) I)). by apply bounded_str_refuses.
  - destruct (streams m) as [s|] eqn:Hs; [|done]. intros H.
    unfold body_of. simpl v1_charset. simpl v1_sfm_normalized. simpl v1_streams. rewrite Hs.
    apply (struct_refuses _ _ [_; _] [ser_str m.(filename_charset); u32_bool m.(smb_sfm_normalized)]);
      [encode_fields|].
    apply some_refuses. rewrite ser_streams_fields. simpl v1_prefix. simpl v1_suffix.
    destruct (over STREAM_AFFIX_MAX (stream_prefix s)) as [[]|] eqn:Hp.
    + simplify_eq. apply over_some in Hp as (Hp & -> & ->).
      apply (struct_refuses _ _ [] [] _ _ _ (proj2 (Forall2_nil encodes) I)). by apply bounded_str_refuses.
    + apply over_some in H as (Hq & -> & ->).
      apply (struct_refuses _ _ [_] [ser_str (stream_prefix s)]); [encode_fields|].
      by apply bounded_str_refuses.
Qed.

(** The strings of [m], in order. *)
Definition strings (m : MetaFmt) : list Str :=
  m.(filename_charset) ::
  match m.(streams) with Some s => [s.(stream_prefix); s.(stream_suffix)] | None => [] end.

(** What [pack] gives, on every branch. *)
Lemma pack_eq m :
  pack m = if existsb contains_nul (strings m) then Err (Xdr EmbeddedNul)
           else match first_over m with
                | Some (l, max) => Err (Xdr (TooLong l max))
                | None => Ok (record m)
                end.
Proof using Type.
  unfold pack. fold (strings m). destruct (existsb contains_nul (strings m)); [done|].
  change (to_bytes (mkPacked MAGIC VERSION (body_of m)))
    with (to_bytes (ser_packed (mkPacked MAGIC VERSION (body_of m)))).
  rewrite ser_packed_fields. simpl packed_magic. simpl packed_version. simpl packed_body.
  destruct (first_over m) as [[l max]|] eqn:Ho.
  - erewrite to_bytes_refuses; [done|].
    apply (struct_refuses _ _ [_; _] [to_be_bytes 4 MAGIC; to_be_bytes 4 VERSION]); [by repeat constructor|].
    by apply body_refuses.
  - erewrite to_bytes_encodes; [done|]. unfold record. rewrite <- (app_nil_r (body_record m)).
    apply (encodes_struct _ _ _ [to_be_bytes 4 MAGIC; to_be_bytes 4 VERSION; body_record m]).
    by repeat (constructor; [done || by apply body_encodes|]).
Qed.

Lemma storable_iff m : storable m ↔ existsb contains_nul (strings m) = false ∧ first_over m = None.
Proof using Type.
  unfold storable, fits, strings, first_over. pose proof (over_none FILENAME_CHARSET_MAX (filename_charset m)) as Hc.
  destruct (over FILENAME_CHARSET_MAX _) as [e|]; destruct (streams m) as [s|]; simpl;
    [naive_solver| |..]; rewrite ?orb_false_iff.
  - naive_solver.
  - pose proof (over_none STREAM_AFFIX_MAX (stream_prefix s)). pose proof (over_none STREAM_AFFIX_MAX (stream_suffix s)).
    destruct (over STREAM_AFFIX_MAX (stream_prefix s)); naive_solver.
  - naive_solver.
Qed.

(** ** Reading a record *)
Lemma meta_of_body m : meta_of (body_of m) = m.
Proof using Type. by destruct m as [? ? [[]|]]. Qed.

Lemma body_of_meta b : body_of (meta_of b) = b.
Proof using Type. by destruct b as [[] ? [[[] [] ?]|]]. Qed.

Lemma ok_body_iff m : ok_body Strict (body_of m) ↔ settings_ok m ∧ storable m.
Proof using Type.
  unfold ok_body, ok_charset, ok_bounded, str_ok, settings_ok, storable, fits, string_ok.
  assert (∀ max (v : Str), max ≤ 255 →
    ((unsigned 32 (len v) ∧ utf8_valid v = true ∧ (Strict = Strict → contains_nul v = false)) ∧ len v ≤ max
     ↔ utf8_valid v = true ∧ len v ≤ max ∧ contains_nul v = false)) as Hstr.
  { intros max v Hm. split; [naive_solver|]. intros (? & ? & ?). split; [|done]. split; [|done].
    unfold unsigned. change (2 ^ 32) with 4294967296. lia. }
  destruct m as [cs sfm [[p q nul]|]]; simpl;
    unfold ok_streams, ok_affix, ok_bounded, str_ok; simpl; rewrite !Hstr by done; tauto.
Qed.

Lemma header_encodes mg v : encodes (ser_header (mkHeader mg v)) (to_be_bytes 4 mg ++ to_be_bytes 4 v).
Proof using Type.
  rewrite <- (app_nil_r (to_be_bytes 4 v)).
  apply (encodes_struct _ _ _ [to_be_bytes 4 mg; to_be_bytes 4 v]). by repeat (constructor; [done|]).
Qed.

(** The start of the bytes, when there is one. *)
Lemma header_reads mg v rest : unsigned 32 mg → unsigned 32 v → len rest + 8 ≤ isize_max →
  from_prefix_with (A:=Header) (to_be_bytes 4 mg ++ to_be_bytes 4 v ++ rest) Strict = Ok (mkHeader mg v, rest).
Proof using Type.
  intros Hm Hv Hl. pose proof (to_bytes_encodes _ _ (header_encodes mg v)) as Hb.
  destruct (@prefix_roundtrip _ ser_header de_header ok_header 1 codec_header Strict (mkHeader mg v) rest)
    as (bs & Hbs & Hp).
  - done.
  - done.
  - intros bs Hbs. change (to_bytes (ser_header (mkHeader mg v)) = Ok bs) in Hbs. rewrite Hb in Hbs.
    simplify_eq. rewrite !length_app, !length_to_be_bytes. lia.
  - change (to_bytes (ser_header (mkHeader mg v)) = Ok bs) in Hbs. rewrite Hb in Hbs. simplify_eq.
    by rewrite <- app_assoc in Hp.
Qed.

Lemma header_inv bs h rest : len bs ≤ isize_max → from_prefix_with (A:=Header) bs Strict = Ok (h, rest) →
  h.(header_magic) = MAGIC →
  unsigned 32 h.(header_version) ∧ bs = to_be_bytes 4 MAGIC ++ to_be_bytes 4 h.(header_version) ++ rest.
Proof using Type.
  intros Hl H Hm. destruct (@prefix_canonical _ ser_header de_header ok_header 1 codec_header bs h rest Hl H)
    as ((_ & Hv & _) & cs & He & ->).
  destruct h as [mg v]. simpl in *. subst mg.
  rewrite (encodes_inj _ _ _ He (header_encodes MAGIC v)). by rewrite <- app_assoc.
Qed.

Lemma body_record_of bs b : len bs ≤ isize_max → from_bytes_with (A:=BodyV1) bs Strict = Ok b →
  settings_ok (meta_of b) ∧ storable (meta_of b) ∧ bs = body_record (meta_of b).
Proof using Type.
  intros Hl H. destruct (@strict_canonical _ ser_body de_body ok_body 4 codec_body bs b Hl H) as [Hok Hb].
  rewrite <- (body_of_meta b) in Hok. apply ok_body_iff in Hok as [Hs Hst]. split; [done|]. split; [done|].
  apply storable_iff in Hst as [_ Ho]. apply body_encodes, to_bytes_encodes in Ho.
  rewrite body_of_meta in Ho. change (to_bytes (ser_body b) = Ok bs) in Hb. rewrite Ho in Hb. by simplify_eq.
Qed.

Lemma body_reads m : settings_ok m → storable m → len (body_record m) ≤ isize_max →
  from_bytes_with (A:=BodyV1) (body_record m) Strict = Ok (body_of m).
Proof using Type.
  intros Hs Hst Hl. pose proof Hst as Ho. apply storable_iff in Ho as [_ Ho].
  apply body_encodes, to_bytes_encodes in Ho.
  destruct (@bytes_roundtrip _ ser_body de_body ok_body 4 codec_body Strict (body_of m)) as (bs & Hbs & Hp).
  - by apply ok_body_iff.
  - done.
  - intros bs Hbs. change (to_bytes (ser_body (body_of m)) = Ok bs) in Hbs. rewrite Ho in Hbs. by simplify_eq.
  - change (to_bytes (ser_body (body_of m)) = Ok bs) in Hbs. rewrite Ho in Hbs. by simplify_eq.
Qed.

Lemma unpack_iff bs m : len bs ≤ isize_max →
  unpack bs = Ok m ↔ settings_ok m ∧ storable m ∧ bs = record m.
Proof using Type.
  intros Hl. unfold unpack. split.
  - change (@from_prefix_with Header Deserialize_Header bs Strict)
      with (from_prefix_with (A:=Header) bs Strict).
    destruct (from_prefix_with (A:=Header) bs Strict) as [[h rest]|e|w] eqn:Hp; simpl; [|done|done].
    destruct (Z.eqb_spec (header_magic h) MAGIC) as [Hm|]; simpl; [|done].
    apply header_inv in Hp as [Hv ->]; [|done|done].
    destruct (header_version h =? 0); [done|].
    destruct (Z.eqb_spec (header_version h) VERSION) as [->|]; [|done].
    change (@from_bytes_with BodyV1 Deserialize_BodyV1 rest Strict) with (from_bytes_with (A:=BodyV1) rest Strict).
    destruct (from_bytes_with (A:=BodyV1) rest Strict) as [b|e|w] eqn:Hb; simpl; [|done|done].
    intros [= <-]. rewrite !length_app, !length_to_be_bytes in Hl.
    apply body_record_of in Hb as (Hs & Hst & ->); [|lia]. done.
  - intros (Hs & Hst & ->). unfold record in *. rewrite !length_app, !length_to_be_bytes in Hl.
    change (@from_prefix_with Header Deserialize_Header) with (@from_prefix_with Header De_Header).
    rewrite header_reads by (done || lia). simpl.
    change (@from_bytes_with BodyV1 Deserialize_BodyV1) with (@from_bytes_with BodyV1 De_BodyV1).
    rewrite body_reads by (done || lia). simpl. by rewrite meta_of_body.
Qed.
End Metafmt.

(** The claims on [truenas_metafmt]: what [pack] writes and refuses, what
    [unpack] takes and refuses, and the verdicts of [compare_stored].  They hold
    for any derived impls with serde's documented behaviour, [DerivedImpls]. *)

(** A record is short: its strings are bounded. *)
Lemma len_ser_str s : len (ser_str s) ≤ len s + 7.
Proof.
  unfold ser_str, counted_body. rewrite !length_app, length_to_be_bytes. rewrite !Nat2Z.inj_add, len_pad.
  pose proof (pad4_range (len s)). lia.
Qed.

Lemma record_short m : storable m → len (record m) ≤ 1024.
Proof.
  unfold storable, fits, record, body_record, FILENAME_CHARSET_MAX, STREAM_AFFIX_MAX. intros [[Hc _] Hs].
  pose proof (len_ser_str (filename_charset m)).
  destruct (streams m) as [s|].
  - destruct Hs as [[Hp _] [Hq _]]. pose proof (len_ser_str (stream_prefix s)).
    pose proof (len_ser_str (stream_suffix s)). unfold u32_bool. rewrite !length_app, !length_to_be_bytes. lia.
  - unfold u32_bool. rewrite !length_app, !length_to_be_bytes. lia.
Qed.

Section Metafmt.
Context `{derived : !DerivedImpls}.

Lemma pack_record m bs : pack m = Ok bs ↔ storable m ∧ bs = record m.
Proof.
  rewrite pack_eq, storable_iff. destruct (existsb contains_nul (strings m)); [naive_solver|].
  destruct (first_over m) as [[l max]|]; naive_solver.
Qed.

(** Eight bytes or none: the header. *)
Lemma header_short bs : len bs < 8 → ∃ need, unpack bs = Err (Xdr (Eof need)).
Proof.
  intros Hl. unfold unpack, from_prefix_with, deserialize, Deserialize_Header.
  rewrite de_header_fields.
  do 8 (destruct bs as [|? bs]; [by eexists; vm_compute; reflexivity|]). simpl in Hl. lia.
Qed.

(** ** The body's decoder ends *)
Definition safe {A} (d : De A) : Prop := sane d ∧ ends d.

Lemma safe_struct {A T} name names (from : T → A) (fs : FieldList T) missing :
  all_fields (@sane) T fs → all_fields (@ends) T fs →
  safe (deserialize_struct name names (visit_fields from fs missing)).
Proof.
  intros Hs He. split.
  - apply sane_nested, sane_seq_of; [lia|]. apply seq_bind; [by apply sane_read_fields|auto with sane].
  - apply ends_nested, ends_of_seq; [lia|].
    apply ends_seq_bind; [by apply sane_read_fields|by apply ends_read_fields|auto with ends].
Qed.

Lemma safe_ext {A} (d d' : De A) : (∀ s, d s = d' s) → safe d' → safe d.
Proof. intros H [Hs He]. split; intros s; rewrite H; [apply Hs|apply He]. Qed.

Lemma safe_bounded MAX : 0 ≤ MAX → safe (deserialize (A:=Bounded Str MAX)).
Proof.
  intros HM. pose proof correct_str as [Hs He _ _ _].
  split; [by apply (sane_bounded (deserialize_str Ok))|by apply (ends_bounded (deserialize_str Ok))].
Qed.

Lemma safe_bool : safe (deserialize_bool Ok).
Proof. pose proof correct_bool as [Hs He _ _ _]. by split. Qed.

Ltac safe_fields :=
  repeat first [apply all_nil | apply all_cons
    | exact (proj1 safe_bool) | exact (proj2 safe_bool)
    | refine (proj1 (safe_bounded _ _)); done | refine (proj2 (safe_bounded _ _)); done].

Lemma safe_streams : safe de_streams.
Proof. eapply safe_ext; [apply de_streams_fields|]. apply safe_struct; safe_fields. Qed.

Lemma safe_body : safe de_body.
Proof.
  destruct safe_streams as [Hs He]. eapply safe_ext; [apply de_body_fields|].
  apply safe_struct; safe_fields; [by apply sane_option|by apply ends_option].
Qed.

Lemma body_returns bs w : len bs ≤ isize_max → @from_bytes_with BodyV1 de_body bs Strict ≠ Stop w.
Proof.
  intros Hl. pose proof (before_wf _ _ _ (new_before [] bs Strict Hl)) as Hw. simpl in Hw.
  destruct safe_body as [Hs He]. specialize (Hs _ Hw). specialize (He _ Hw).
  unfold from_bytes_with, from_prefix_with, deserialize.
  destruct (de_body (XdrDe.new bs Strict)) as [[b|e|w'] s']; simpl in *; [|discriminate|by destruct Hs as [->|]].
  rewrite remaining_unread by (by apply (post_wf _ b _ Hw)). simpl. by case_bool_decide.
Qed.

(** The two words of a header, and what follows them. *)
Lemma unpack_words mg v rest : unsigned 32 mg → unsigned 32 v → len rest + 8 ≤ isize_max →
  unpack (to_be_bytes 4 mg ++ to_be_bytes 4 v ++ rest) =
    if negb (mg =? MAGIC) then Err NotARecord
    else if v =? 0 then Err NotARecord
    else if v =? VERSION then outcome_map meta_of (map_err Xdr (@from_bytes_with BodyV1 de_body rest Strict))
    else Err (NewerVersion v).
Proof.
  intros Hm Hv Hl. pose proof (header_reads mg v rest Hm Hv Hl) as Hp. unfold unpack.
  change (@from_prefix_with Header Deserialize_Header) with (@from_prefix_with Header De_Header).
  rewrite Hp. done.
Qed.

(** C8: packing and unpacking are inverse.  Settings that have no NUL in a
    string and no string over its bound, and no others, pack; unpacking gives
    them back; and what unpacks is exactly what packing writes. *)
Theorem metafmt_roundtrip (m : MetaFmt) (bs : bytes) :
  settings_ok m → len bs ≤ isize_max →
  (pack m = Ok bs ↔ storable m ∧ bs = record m) ∧ (pack m = Ok bs ↔ unpack bs = Ok m).
Proof.
  intros Hm Hl. rewrite pack_record, (unpack_iff bs m Hl). naive_solver.
Qed.

(** What [pack] writes, and what it refuses.  The record is the magic, the
    version and the settings as [record] lays them out; a NUL in any string is
    refused first, then the first string over its bound, by length and
    bound. *)
Theorem metafmt_pack_result (m : MetaFmt) :
  pack m = if existsb contains_nul (strings m) then Err (Xdr EmbeddedNul)
           else match first_over m with
                | Some (l, max) => Err (Xdr (TooLong l max))
                | None => Ok (record m)
                end.
Proof. apply pack_eq. Qed.

(** What [unpack] refuses.  Fewer than eight bytes are a damaged record
    ([Eof]), not [NotARecord]; eight or more are [NotARecord] unless they start
    with the magic and a version of at least 1, and [NewerVersion] for a
    version past this one, whatever follows; for version 1 the body decides. *)
Theorem metafmt_unpack_result :
  (∀ bs, len bs < 8 → ∃ need, unpack bs = Err (Xdr (Eof need))) ∧
  (∀ mg v rest, unsigned 32 mg → unsigned 32 v → len rest + 8 ≤ isize_max →
     let r := unpack (to_be_bytes 4 mg ++ to_be_bytes 4 v ++ rest) in
     (mg ≠ MAGIC ∨ v = 0 → r = Err NotARecord) ∧
     (mg = MAGIC → 1 < v → r = Err (NewerVersion v)) ∧
     (mg = MAGIC → v = 1 → (∃ e, r = Err (Xdr e)) ∨ ∃ m, r = Ok m ∧ storable m ∧ rest = body_record m)).
Proof.
  split; [apply header_short|]. intros mg v rest Hm Hv Hl r. pose proof (unpack_words mg v rest Hm Hv Hl) as Hr.
  change (unpack (to_be_bytes 4 mg ++ to_be_bytes 4 v ++ rest)) with r in Hr. split; [|split].
  - intros [Hne|Hz]; rewrite Hr.
    + by destruct (Z.eqb_spec mg MAGIC).
    + subst v. by destruct (mg =? MAGIC).
  - intros -> Hlt. rewrite Hr, Z.eqb_refl. cbn [negb].
    destruct (Z.eqb_spec v 0); [lia|]. unfold VERSION. by destruct (Z.eqb_spec v 1); [lia|].
  - intros -> ->. rewrite Z.eqb_refl in Hr. cbn [negb] in Hr. change (1 =? 0) with false in Hr.
    change (1 =? VERSION) with true in Hr. cbv iota in Hr. rewrite Hr.
    change (@from_bytes_with BodyV1 de_body) with (@from_bytes_with BodyV1 De_BodyV1).
    destruct (@from_bytes_with BodyV1 De_BodyV1 rest Strict) as [b|e|w] eqn:Hb; simpl.
    + right. exists (meta_of b). apply body_record_of in Hb as (_ & Hst & ->); [done|lia].
    + left. by exists e.
    + by apply (body_returns rest w) in Hb; [|lia].
Qed.

Lemma unpack_returns bs w : len bs ≤ isize_max → unpack bs ≠ Stop w.
Proof.
  intros Hl. destruct (decide (len bs < 8)) as [Hs|Hs].
  { destruct (header_short bs Hs) as [need ->]. done. }
  assert (∃ a b rest, bs = a ++ b ++ rest ∧ length a = 4%nat ∧ length b = 4%nat) as (a & b & rest & -> & Ha & Hb).
  { exists (firstn 4 bs), (firstn 4 (skipn 4 bs)), (skipn 4 (skipn 4 bs)). rewrite !take_drop.
    split; [done|]. rewrite !length_take, length_drop. lia. }
  rewrite !length_app, Ha, Hb in Hl.
  assert (∀ w : bytes, length w = 4%nat → unsigned 32 (from_be_bytes w)) as Hu.
  { intros x Hx. pose proof (from_be_bytes_range x) as H. by rewrite Hx in H. }
  rewrite <- (to_from_be_bytes 4 a Ha), <- (to_from_be_bytes 4 b Hb).
  rewrite unpack_words by (auto || lia). repeat case_match; try done.
  destruct (@from_bytes_with BodyV1 de_body rest Strict) eqn:Hr; simpl; try done.
  by apply body_returns in Hr; [|lia].
Qed.

(** The verdicts.  Comparing always gives one: [Unstamped] when nothing is
    stored, [Same] exactly for the bytes these settings pack to, [Differs] with
    the settings the stored bytes are the record of, [Newer] for a later
    version's record, and [Unreadable] for anything else. *)
Theorem metafmt_verdicts (m : MetaFmt) (stored : option bytes) :
  settings_ok m → (∀ bs, stored = Some bs → len bs ≤ isize_max) →
  (∃ v, compare_stored m stored = Ok v) ∧
  (compare_stored m stored = Ok Unstamped ↔ stored = None) ∧
  (compare_stored m stored = Ok Same ↔ ∃ bs, stored = Some bs ∧ pack m = Ok bs) ∧
  (∀ found, compare_stored m stored = Ok (Differs found) ↔
     found ≠ m ∧ settings_ok found ∧ ∃ bs, stored = Some bs ∧ pack found = Ok bs) ∧
  (∀ v, compare_stored m stored = Ok (Newer v) ↔ ∃ bs, stored = Some bs ∧ unpack bs = Err (NewerVersion v)) ∧
  (∀ e, compare_stored m stored = Ok (Unreadable e) ↔
     (∀ v, e ≠ NewerVersion v) ∧ ∃ bs, stored = Some bs ∧ unpack bs = Err e).
Proof.
  intros Hm Hl. unfold compare_stored. destruct stored as [bs|].
  2: { split; [by eexists|]. split; [done|]. split; [split; [done|by intros (? & ? & _)]|].
       split; [intros f; split; [done|by intros (_ & _ & ? & ? & _)]|].
       split; [intros v; split; [done|by intros (? & ? & _)]|].
       intros e; split; [done|by intros (_ & ? & ? & _)]. }
  specialize (Hl bs eq_refl).
  assert (∀ f, settings_ok f → pack f = Ok bs ↔ unpack bs = Ok f) as Hpu.
  { intros f Hf. rewrite pack_record, (unpack_iff bs f Hl). naive_solver. }
  assert (∀ f, unpack bs = Ok f → settings_ok f) as Hok by (intros f Hf; by apply unpack_iff in Hf as [? _]).
  assert (∀ P : bytes → Prop, (∃ bs', Some bs = Some bs' ∧ P bs') ↔ P bs) as Hex.
  { intros P. split; [by intros (? & [= <-] & ?)|]. intros HP. by exists bs. }
  setoid_rewrite Hex. rewrite (Hpu m Hm).
  assert (∀ f, (f ≠ m ∧ settings_ok f ∧ pack f = Ok bs) ↔ f ≠ m ∧ unpack bs = Ok f) as Hd by naive_solver.
  setoid_rewrite Hd. clear Hd Hex Hpu.
  destruct (unpack bs) as [f|e|w] eqn:Hu; [..|by apply unpack_returns in Hu].
  - case_decide as Heq; [subst f|]; naive_solver.
  - destruct e; naive_solver.
Qed.
End Metafmt.

(** ** Concrete settings *)
Definition sample : MetaFmt :=
  {| filename_charset := [x75; x74; x66; x38]; smb_sfm_normalized := true;
     streams := Some {| stream_prefix := [x61]; stream_suffix := []; stream_extra_null := false |} |}.

Lemma metafmt_roundtrip_witness :
  (pack (H:=serde_derive) sample = Ok (record sample) ↔ storable sample ∧ record sample = record sample) ∧
  (pack (H:=serde_derive) sample = Ok (record sample) ↔
   unpack (H:=serde_derive) (record sample) = Ok sample).
Proof.
  apply (metafmt_roundtrip (derived:=serde_derive)); [|vm_compute; discriminate].
  repeat split; vm_compute; reflexivity.
Defined.

Lemma metafmt_pack_result_witness :
  pack (H:=serde_derive) sample = Ok (record sample).
Proof. etransitivity; [apply (metafmt_pack_result (derived:=serde_derive))|vm_compute; reflexivity]. Defined.

Lemma metafmt_unpack_result_witness :
  unpack (H:=serde_derive) (to_be_bytes 4 MAGIC ++ to_be_bytes 4 2 ++ []) = Err (NewerVersion 2).
Proof.
  destruct (metafmt_unpack_result (derived:=serde_derive)) as [_ H].
  apply (H MAGIC 2 []); [split; vm_compute; reflexivity || discriminate..|vm_compute; discriminate|reflexivity|lia].
Defined.

Lemma metafmt_verdicts_witness :
  compare_stored (H:=serde_derive) sample (Some (record sample)) = Ok Same.
Proof.
  apply (metafmt_verdicts (derived:=serde_derive) sample (Some (record sample))).
  - repeat split; vm_compute; reflexivity.
  - intros bs [= <-]. vm_compute. discriminate.
  - exists (record sample). split; [reflexivity|vm_compute; reflexivity].
Defined.
