(* ===== verification/SipHash.v ===== *)
(** [truenas_siphash]: SipHash-2-4.  The code's walk over a message computes
    the function that section 2 of the SipHash paper defines, every word stays
    within 64 bits, and SipRound is a permutation of the state. *)
From S2P Require Import Prelude.
Local Open Scope Z_scope.

(** ** Words *)

(** [u64::rotate_left]. *)
Definition rotate_left (x n : Z) : Z :=
  Z.lor (wrap 64 (Z.shiftl x n)) (Z.shiftr x (64 - n)).

Definition add64 (a b : Z) : Z := wrapping_add 64 a b.

(** [[u64; 4]]. *)
(* SRC truenas_siphash/src/lib.rs struct Key *)
Record State : Type := mkState { v0 : Z; v1 : Z; v2 : Z; v3 : Z }.

Definition state_ok (v : State) : Prop :=
  unsigned 64 v.(v0) ∧ unsigned 64 v.(v1) ∧ unsigned 64 v.(v2) ∧ unsigned 64 v.(v3).

(** ** The code *)

(* SRC truenas_siphash/src/lib.rs const INITIAL *)
Definition INITIAL : State :=
  mkState 0x736f6d6570736575 0x646f72616e646f6d 0x6c7967656e657261 0x7465646279746573.
(* SRC truenas_siphash/src/lib.rs const COMPRESSION_ROUNDS *)
Definition COMPRESSION_ROUNDS : nat := 2.
(* SRC truenas_siphash/src/lib.rs const FINALIZATION_ROUNDS *)
Definition FINALIZATION_ROUNDS : nat := 4.

(** One assignment per line, as the source has them. *)
(* SRC truenas_siphash/src/lib.rs fn sip_round *)
Definition sip_round (v : State) : State :=
  let '(mkState v0 v1 v2 v3) := v in
  let v0 := add64 v0 v1 in
  let v2 := add64 v2 v3 in
  let v1 := rotate_left v1 13 in
  let v3 := rotate_left v3 16 in
  let v1 := Z.lxor v1 v0 in
  let v3 := Z.lxor v3 v2 in
  let v0 := rotate_left v0 32 in
  let v2 := add64 v2 v1 in
  let v0 := add64 v0 v3 in
  let v1 := rotate_left v1 17 in
  let v3 := rotate_left v3 21 in
  let v1 := Z.lxor v1 v2 in
  let v3 := Z.lxor v3 v0 in
  let v2 := rotate_left v2 32 in
  mkState v0 v1 v2 v3.

(** [for _ in 0..n { sip_round(v); }] *)
(* SRC truenas_siphash/src/lib.rs L 113-115 compress *)
Fixpoint rounds (n : nat) (v : State) : State :=
  match n with
  | O => v
  | S n => rounds n (sip_round v)
  end.

#[global] Arguments rounds : simpl never.

(* SRC truenas_siphash/src/lib.rs L 116-116 compress *)
Definition xor_v0 (m : Z) (v : State) : State := mkState (Z.lxor v.(v0) m) v.(v1) v.(v2) v.(v3).
(* SRC truenas_siphash/src/lib.rs L 121-121 finalize *)
Definition xor_v2 (m : Z) (v : State) : State := mkState v.(v0) v.(v1) (Z.lxor v.(v2) m) v.(v3).
(* SRC truenas_siphash/src/lib.rs L 112-112 compress *)
Definition xor_v3 (m : Z) (v : State) : State := mkState v.(v0) v.(v1) v.(v2) (Z.lxor v.(v3) m).

(* SRC truenas_siphash/src/lib.rs fn compress *)
Definition compress (v : State) (m : Z) : State :=
  xor_v0 m (rounds COMPRESSION_ROUNDS (xor_v3 m v)).

(* SRC truenas_siphash/src/lib.rs fn finalize *)
Definition finalize (v : State) : State := rounds FINALIZATION_ROUNDS (xor_v2 0xff v).

(** The array of eight bytes with the tail copied in; a longer tail is a range
    out of bounds.  Then the length byte. *)
(* SRC truenas_siphash/src/lib.rs fn last_word *)
Definition last_word (tail : bytes) (n : Z) : Outcome Z Empty_set :=
  if decide (length tail ≤ 8)%nat then
    let word := tail ++ replicate (8 - length tail) x00 in
    let word := <[7%nat := byte_of n]> word in
    Ok (from_le_bytes word)
  else Stop Panicked.

(* SRC truenas_siphash/src/lib.rs struct Key *)
Record Key : Type := mkKey { state : State }.

(* SRC truenas_siphash/src/lib.rs fn new *)
Definition new (bs : bytes) : Key :=
  let k0 := from_le_bytes (take 8 bs) in
  let k1 := from_le_bytes (drop 8 bs) in
  mkKey (mkState (Z.lxor k0 INITIAL.(v0)) (Z.lxor k1 INITIAL.(v1))
                 (Z.lxor k0 INITIAL.(v2)) (Z.lxor k1 INITIAL.(v3))).

(** [<[u8]>::as_chunks::<8>]. *)
Fixpoint as_chunks (data : bytes) : list bytes * bytes :=
  match data with
  | a :: b :: c :: d :: e :: f :: g :: h :: data =>
      let '(words, tail) := as_chunks data in ([a; b; c; d; e; f; g; h] :: words, tail)
  | tail => ([], tail)
  end.

(* SRC truenas_siphash/src/lib.rs fn hash *)
Definition hash (self : Key) (data : bytes) : Outcome Z Empty_set :=
  let v := self.(state) in
  let '(words, tail) := as_chunks data in
  let v := foldl (λ v word, compress v (from_le_bytes word)) v words in
  outcome_bind (λ last,
    let v := compress v last in
    let v := finalize v in
    Ok (Z.lxor (Z.lxor (Z.lxor v.(v0) v.(v1)) v.(v2)) v.(v3)))
    (last_word tail (len data)).

(** ** The function of the paper

    Section 2: the message of [b] bytes is parsed as [b / 8 + 1] little-endian
    words, the last holding the remaining bytes, nulls, and [b mod 256]. *)
Fixpoint parse_words (n : nat) (bs : bytes) : list Z :=
  match n with
  | O => []
  | S n => from_le_bytes (take 8 bs) :: parse_words n (drop 8 bs)
  end.

Definition padded (data : bytes) : bytes :=
  data ++ replicate (7 - length data mod 8) x00 ++ [byte_of (len data)].

Definition siphash24 (k : State) (data : bytes) : Z :=
  let v := foldl compress k (parse_words (length data / 8 + 1) (padded data)) in
  let v := finalize v in
  Z.lxor (Z.lxor (Z.lxor v.(v0) v.(v1)) v.(v2)) v.(v3).

(** ** The walk over the message *)
Lemma as_chunks_short data : (length data < 8)%nat → as_chunks data = ([], data).
Proof. intros H. do 8 (destruct data as [|? data]; [done|]). simpl in H. lia. Qed.

Lemma as_chunks_app w data : length w = 8%nat →
  as_chunks (w ++ data) = (w :: (as_chunks data).1, (as_chunks data).2).
Proof.
  intros H. do 8 (destruct w as [|? w]; [done|]). destruct w; [|done]. simpl.
  by destruct (as_chunks data).
Qed.

(** What the chunks are. *)
Lemma chunks_ind (P : bytes → Prop) :
  (∀ data, (length data < 8)%nat → P data) →
  (∀ w data, length w = 8%nat → P data → P (w ++ data)) → ∀ data, P data.
Proof.
  intros Hs Ha data. remember (length data) as n eqn:Hn.
  revert data Hn. induction (lt_wf n) as [n _ IH]. intros data ->.
  destruct (decide (length data < 8)%nat) as [Hl|Hl]; [by apply Hs|].
  rewrite <- (take_drop 8 data). apply Ha; [rewrite length_take; lia|].
  apply (IH (length (drop 8 data))); [rewrite length_drop; lia|done].
Qed.

Lemma as_chunks_tail data : (length (as_chunks data).2 < 8)%nat.
Proof.
  induction data as [data H|w data Hw IH] using chunks_ind; [by rewrite as_chunks_short|].
  by rewrite as_chunks_app.
Qed.

Lemma parse_words_pad data x : 
  parse_words (length data / 8 + 1) (data ++ replicate (7 - length data mod 8) x00 ++ [x])
  = map from_le_bytes (as_chunks data).1
    ++ [from_le_bytes ((as_chunks data).2 ++ replicate (7 - length (as_chunks data).2) x00 ++ [x])].
Proof.
  induction data as [data H|w data Hw IH] using chunks_ind.
  - rewrite as_chunks_short by done. rewrite Nat.div_small, Nat.mod_small by done. simpl.
    rewrite take_ge; [done|]. rewrite !length_app, length_replicate. simpl. lia.
  - rewrite as_chunks_app by done. cbn [fst snd map]. rewrite length_app, Hw.
    replace ((8 + length data) / 8 + 1)%nat with (S (length data / 8 + 1)).
    2: { replace (8 + length data)%nat with (length data + 1 * 8)%nat by lia. rewrite Nat.div_add by lia. lia. }
    replace ((8 + length data) mod 8)%nat with (length data mod 8)%nat.
    2: { replace (8 + length data)%nat with (length data + 1 * 8)%nat by lia. by rewrite Nat.Div0.mod_add. }
    cbn [parse_words app]. rewrite <- !app_assoc. f_equal.
    + by rewrite take_app_length' by done.
    + by rewrite drop_app_length' by done.
Qed.

Lemma last_word_eq tail n : (length tail < 8)%nat →
  last_word tail n = Ok (from_le_bytes (tail ++ replicate (7 - length tail) x00 ++ [byte_of n])).
Proof.
  intros H. unfold last_word. rewrite decide_True by lia. do 2 f_equal.
  replace (8 - length tail)%nat with (7 - length tail + 1)%nat by lia.
  rewrite replicate_add. rewrite insert_app_r_alt by lia. f_equal.
  rewrite insert_app_r_alt by (rewrite length_replicate; lia). f_equal.
  rewrite length_replicate. by replace (7 - length tail - (7 - length tail))%nat with 0%nat by lia.
Qed.

Lemma foldl_map {A B C} (f : C → B → C) (g : A → B) l c : foldl f c (map g l) = foldl (λ c a, f c (g a)) c l.
Proof. revert c. induction l as [|a l IH]; intros c; simpl; [done|apply IH]. Qed.

Lemma hash_is_siphash k data : hash k data = Ok (siphash24 k.(state) data).
Proof.
  unfold hash, siphash24, padded. rewrite parse_words_pad.
  pose proof (as_chunks_tail data) as Ht. destruct (as_chunks data) as [ws tl]. cbn [fst snd] in *.
  rewrite last_word_eq by done. cbn [outcome_bind]. rewrite foldl_app, foldl_map. done.
Qed.

(** ** 64 bits *)
Lemma lxor_64 a b : unsigned 64 a → unsigned 64 b → unsigned 64 (Z.lxor a b).
Proof.
  intros Ha Hb. apply unsigned_bits; [lia| |].
  - apply Z.lxor_nonneg. split; intros; [apply Hb|apply Ha].
  - intros i Hi. rewrite Z.lxor_spec. by rewrite (testbit_high 64 a), (testbit_high 64 b).
Qed.

Lemma wrap_testbit w z i : 0 ≤ w → 0 ≤ i → Z.testbit (wrap w z) i = if decide (i < w) then Z.testbit z i else false.
Proof.
  intros Hw Hi. unfold wrap. case_decide.
  - by rewrite Z.mod_pow2_bits_low by lia.
  - by rewrite Z.mod_pow2_bits_high by lia.
Qed.

(** Bit [i] of a rotated word is bit [i - n], around. *)
Lemma rotate_left_spec x n i : unsigned 64 x → 0 < n < 64 → 0 ≤ i →
  Z.testbit (rotate_left x n) i = if decide (i < 64) then Z.testbit x ((i - n) mod 64) else false.
Proof.
  intros Hx Hn Hi. unfold rotate_left. rewrite Z.lor_spec, wrap_testbit, Z.shiftr_spec by lia.
  case_decide as Hlt.
  - rewrite Z.shiftl_spec by done. destruct (decide (n ≤ i)) as [Hle|Hgt].
    + rewrite (testbit_high 64 x (i + (64 - n))) by (done || lia). rewrite orb_false_r.
      by rewrite Z.mod_small by lia.
    + rewrite (Z.testbit_neg_r x (i - n)) by lia. simpl. f_equal.
      rewrite <- (Z.mod_add (i - n) 1 64) by lia. rewrite Z.mod_small; lia.
  - rewrite (testbit_high 64 x) by (done || lia). done.
Qed.

Lemma rotate_left_64 x n : unsigned 64 x → 0 < n < 64 → unsigned 64 (rotate_left x n).
Proof.
  intros Hx Hn. apply unsigned_bits; [lia| |].
  - unfold rotate_left. apply Z.lor_nonneg. split; [|apply Z.shiftr_nonneg, Hx].
    apply (wrap_range 64). lia.
  - intros i Hi. rewrite rotate_left_spec by (done || lia). by rewrite decide_False by lia.
Qed.

Lemma rotate_left_inv x n : unsigned 64 x → 0 < n < 64 → rotate_left (rotate_left x n) (64 - n) = x.
Proof.
  intros Hx Hn. apply Z.bits_inj'. intros i Hi.
  rewrite rotate_left_spec by (try apply rotate_left_64; done || lia). case_decide as Hlt.
  - rewrite rotate_left_spec; [|done|done|apply Z.mod_pos_bound; lia].
    rewrite decide_True by (apply Z.mod_pos_bound; lia). f_equal.
    rewrite Zminus_mod_idemp_l. replace (i - (64 - n) - n) with (i + (-1) * 64) by lia.
    rewrite Z.mod_add by lia. apply Z.mod_small. lia.
  - symmetry. by apply (testbit_high 64); [|lia].
Qed.

Lemma add64_64 a b : unsigned 64 (add64 a b).
Proof. apply wrap_range. lia. Qed.

Create HintDb words.
Hint Resolve lxor_64 rotate_left_64 add64_64 : words.
Hint Extern 1 (0 < _ < 64) => lia : words.

Lemma sip_round_64 v : state_ok v → state_ok (sip_round v).
Proof.
  destruct v. intros (? & ? & ? & ?). simpl in *. unfold state_ok. simpl.
  refine (conj _ (conj _ (conj _ _))); auto 12 with words.
Qed.

Lemma rounds_64 n v : state_ok v → state_ok (rounds n v).
Proof. revert v. induction n as [|n IH]; intros v H; [done|]. by apply IH, sip_round_64. Qed.

Lemma compress_64 v m : state_ok v → unsigned 64 m → state_ok (compress v m).
Proof.
  intros (H0 & H1 & H2 & H3) Hm. unfold compress.
  assert (state_ok (rounds COMPRESSION_ROUNDS (xor_v3 m v))) as Hr.
  { apply rounds_64. by refine (conj H0 (conj H1 (conj H2 (lxor_64 _ _ H3 Hm)))). }
  generalize dependent (rounds COMPRESSION_ROUNDS (xor_v3 m v)). intros [a b c d] (Ha & Hb & Hc & Hd).
  exact (conj (lxor_64 _ _ Ha Hm) (conj Hb (conj Hc Hd))).
Qed.

Lemma finalize_64 v : state_ok v → state_ok (finalize v).
Proof.
  intros (H0 & H1 & H2 & H3). apply rounds_64.
  refine (conj H0 (conj H1 (conj (lxor_64 _ _ H2 _) H3))). done.
Qed.

(** ** SipRound is a permutation *)
Definition rotate_right (x n : Z) : Z := rotate_left x (64 - n).
Definition sub64 (a b : Z) : Z := wrap 64 (a - b).

(** The assignments of [sip_round] undone, last to first. *)
Definition sip_unround (v : State) : State :=
  let '(mkState v0 v1 v2 v3) := v in
  let v2 := rotate_right v2 32 in
  let v3 := Z.lxor v3 v0 in
  let v1 := Z.lxor v1 v2 in
  let v3 := rotate_right v3 21 in
  let v1 := rotate_right v1 17 in
  let v0 := sub64 v0 v3 in
  let v2 := sub64 v2 v1 in
  let v0 := rotate_right v0 32 in
  let v3 := Z.lxor v3 v2 in
  let v1 := Z.lxor v1 v0 in
  let v3 := rotate_right v3 16 in
  let v1 := rotate_right v1 13 in
  let v2 := sub64 v2 v3 in
  let v0 := sub64 v0 v1 in
  mkState v0 v1 v2 v3.

Lemma sub_add64 a b : unsigned 64 a → sub64 (add64 a b) b = a.
Proof.
  intros Ha. unfold sub64, add64, wrapping_add, wrap. rewrite Zminus_mod_idemp_l.
  replace (a + b - b) with a by lia. by apply Z.mod_small.
Qed.

Lemma lxor_lxor a b : Z.lxor (Z.lxor a b) b = a.
Proof. by rewrite Z.lxor_assoc, Z.lxor_nilpotent, Z.lxor_0_r. Qed.

Lemma sip_unround_round v : state_ok v → sip_unround (sip_round v) = v.
Proof.
  destruct v as [a b c d]. intros (Ha & Hb & Hc & Hd). simpl in *. unfold rotate_right.
  rewrite (rotate_left_inv _ 32) by auto with words. rewrite !lxor_lxor.
  rewrite (rotate_left_inv _ 21), (rotate_left_inv _ 17) by auto 10 with words.
  rewrite !sub_add64 by auto 10 with words.
  rewrite (rotate_left_inv _ 32) by auto with words. rewrite !lxor_lxor.
  rewrite (rotate_left_inv _ 16), (rotate_left_inv _ 13) by auto with words.
  by rewrite !sub_add64.
Qed.

Lemma rounds_inj n v w : state_ok v → state_ok w → rounds n v = rounds n w → v = w.
Proof.
  revert v w. induction n as [|n IH]; intros v w Hv Hw H; [done|]. change (rounds n (sip_round v) = rounds n (sip_round w)) in H.
  apply IH in H; [|by apply sip_round_64|by apply sip_round_64].
  by rewrite <- (sip_unround_round v), H, sip_unround_round.
Qed.

Lemma compress_inj m v w : state_ok v → state_ok w → unsigned 64 m → compress v m = compress w m → v = w.
Proof.
  intros Hv Hw Hm H. assert (rounds COMPRESSION_ROUNDS (xor_v3 m v) = rounds COMPRESSION_ROUNDS (xor_v3 m w)) as Hr.
  { unfold compress, xor_v0 in H.
    destruct (rounds _ (xor_v3 m v)) as [a b c d], (rounds _ (xor_v3 m w)) as [a' b' c' d'].
    injection H as H0 -> -> ->. f_equal. by rewrite <- (lxor_lxor a m), H0, lxor_lxor. }
  destruct v as [a b c d], w as [a' b' c' d'], Hv as (? & ? & ? & Hd), Hw as (? & ? & ? & Hd').
  apply rounds_inj in Hr; [|by refine (conj _ (conj _ (conj _ (lxor_64 _ _ Hd Hm))))
    |by refine (conj _ (conj _ (conj _ (lxor_64 _ _ Hd' Hm))))].
  injection Hr as -> -> -> Hx. f_equal. by rewrite <- (lxor_lxor d m), Hx, lxor_lxor.
Qed.
