(* ===== verification/SipHashTheorems.v ===== *)
(** The claims on [truenas_siphash], against the function of the SipHash paper
    written on its own terms: integers modulo [2^64], rotation by arithmetic,
    the initial state from its ASCII, a round as two half rounds. *)
From S2P Require Import Prelude SipHash.
Local Open Scope Z_scope.

(** ** SipHash-2-4 *)
Module Paper.
(** [x <<< n]. *)
Definition rotl (x n : Z) : Z := (x * 2 ^ n) mod 2 ^ 64 + x / 2 ^ (64 - n).
Definition plus (a b : Z) : Z := (a + b) mod 2 ^ 64.

Definition Words : Type := (Z * Z * Z * Z)%type.

Definition half_round (s t : Z) (v : Words) : Words :=
  let '(a, b, c, d) := v in
  let a := plus a b in
  let c := plus c d in
  (rotl a 32, Z.lxor (rotl b s) a, c, Z.lxor (rotl d t) c).

(** The second half round has v2 and v0 change places. *)
Definition swap02 (v : Words) : Words := let '(a, b, c, d) := v in (c, b, a, d).
Definition sip_round (v : Words) : Words :=
  swap02 (half_round 17 21 (swap02 (half_round 13 16 v))).

Definition c_rounds (v : Words) : Words := sip_round (sip_round v).
Definition d_rounds (v : Words) : Words := c_rounds (c_rounds v).

Definition absorb (v : Words) (m : Z) : Words :=
  let '(a, b, c, d) := v in
  let '(a, b, c, d) := c_rounds (a, b, c, Z.lxor d m) in
  (Z.lxor a m, b, c, d).

Definition ascii (w : string) : Z := from_be_bytes (String.list_byte_of_string w).

Definition initial (k : bytes) : Words :=
  let k0 := from_le_bytes (take 8 k) in
  let k1 := from_le_bytes (drop 8 k) in
  (Z.lxor k0 (ascii "somepseu"), Z.lxor k1 (ascii "dorandom"),
   Z.lxor k0 (ascii "lygenera"), Z.lxor k1 (ascii "tedbytes")).

Definition siphash_2_4 (k data : bytes) : Z :=
  let '(a, b, c, d) := fold_left absorb (parse_words (length data / 8 + 1) (padded data)) (initial k) in
  let '(a, b, c, d) := d_rounds (a, b, Z.lxor c 0xff, d) in
  Z.lxor (Z.lxor (Z.lxor a b) c) d.
End Paper.

(** ** The code computes it *)
Definition words (v : State) : Paper.Words := (v.(v0), v.(v1), v.(v2), v.(v3)).

Lemma lor_plus a b n : 0 ≤ n → 0 ≤ b < 2 ^ n → Z.lor (a * 2 ^ n) b = a * 2 ^ n + b.
Proof.
  intros Hn Hb. rewrite <- Z.shiftl_mul_pow2 by done.
  assert (Z.land (Z.shiftl a n) b = 0) as H0.
  { apply Z.bits_inj'. intros i Hi. rewrite Z.land_spec, Z.bits_0.
    destruct (decide (i < n)) as [Hlt|Hge]; [by rewrite Z.shiftl_spec_low|].
    rewrite (testbit_high n b i Hb) by lia. apply andb_false_r. }
  by rewrite (Z.add_nocarry_lxor _ _ H0), (Z.lxor_lor _ _ H0).
Qed.

Lemma rotate_is_rotl x n : unsigned 64 x → 0 < n < 64 → rotate_left x n = Paper.rotl x n.
Proof.
  intros Hx Hn. unfold rotate_left, Paper.rotl, wrap. rewrite Z.shiftl_mul_pow2, Z.shiftr_div_pow2 by lia.
  replace (2 ^ 64) with (2 ^ (64 - n) * 2 ^ n) by (rewrite <- Z.pow_add_r by lia; f_equal; lia).
  rewrite Z.mul_mod_distr_r by (apply Z.pow_nonzero; lia).
  apply lor_plus; [lia|]. unfold unsigned in Hx. split; [apply Z.div_pos; [lia|apply Z.pow_pos_nonneg; lia]|].
  apply Z.div_lt_upper_bound; [apply Z.pow_pos_nonneg; lia|]. rewrite <- Z.pow_add_r by lia.
  replace (64 - n + n) with 64 by lia. lia.
Qed.

Lemma rotl_64 x n : unsigned 64 x → 0 < n < 64 → unsigned 64 (Paper.rotl x n).
Proof. intros Hx Hn. rewrite <- rotate_is_rotl by done. by apply rotate_left_64. Qed.
#[local] Hint Resolve rotl_64 : words.

Lemma sip_round_words v : state_ok v → words (sip_round v) = Paper.sip_round (words v).
Proof.
  destruct v as [a b c d]. intros (Ha & Hb & Hc & Hd). simpl in Ha, Hb, Hc, Hd.
  unfold words, Paper.sip_round, Paper.half_round, Paper.swap02, sip_round. cbn [v0 v1 v2 v3].
  rewrite !rotate_is_rotl by (auto 12 with words || lia).
  reflexivity.
Qed.

Lemma rounds_S n v : rounds (S n) v = rounds n (sip_round v).
Proof. done. Qed.

Lemma c_rounds_words v : state_ok v → words (rounds COMPRESSION_ROUNDS v) = Paper.c_rounds (words v).
Proof.
  intros Hv. unfold COMPRESSION_ROUNDS, Paper.c_rounds. rewrite !rounds_S.
  change (rounds 0 ?x) with x. by rewrite !sip_round_words by auto using sip_round_64.
Qed.

Lemma d_rounds_words v : state_ok v → words (rounds FINALIZATION_ROUNDS v) = Paper.d_rounds (words v).
Proof.
  intros Hv. unfold FINALIZATION_ROUNDS, Paper.d_rounds, Paper.c_rounds. rewrite !rounds_S.
  change (rounds 0 ?x) with x. by rewrite !sip_round_words by auto using sip_round_64.
Qed.

Lemma compress_words v m : state_ok v → unsigned 64 m → words (compress v m) = Paper.absorb (words v) m.
Proof.
  intros Hv Hm. assert (state_ok (xor_v3 m v)) as Hx.
  { destruct Hv as (H0 & H1 & H2 & H3). by refine (conj H0 (conj H1 (conj H2 (lxor_64 _ _ H3 Hm)))). }
  unfold compress, Paper.absorb. destruct v as [a b c d]. unfold words at 2. cbn [v0 v1 v2 v3].
  change (a, b, c, Z.lxor d m) with (words (xor_v3 m (mkState a b c d))).
  rewrite <- c_rounds_words by exact Hx. generalize (rounds COMPRESSION_ROUNDS (xor_v3 m (mkState a b c d))).
  by intros [].
Qed.

Lemma absorb_words l v : state_ok v → Forall (unsigned 64) l →
  words (foldl compress v l) = fold_left Paper.absorb l (words v) ∧ state_ok (foldl compress v l).
Proof.
  intros Hv Hl. revert v Hv. induction Hl as [|m l Hm _ IH]; intros v Hv; cbn [foldl fold_left]; [done|].
  rewrite <- compress_words by done. apply IH. by apply compress_64.
Qed.

Lemma parse_words_64 n bs : Forall (unsigned 64) (parse_words n bs).
Proof.
  revert bs. induction n as [|n IH]; intros bs; simpl; constructor; [|done].
  pose proof (from_le_bytes_range (take 8 bs)) as H. eapply unsigned_le; [|exact H]. rewrite length_take. lia.
Qed.

Lemma new_words k : length k = 16%nat → words (state (new k)) = Paper.initial k ∧ state_ok (state (new k)).
Proof.
  intros Hk. split; [done|].
  assert (∀ l : bytes, (length l ≤ 8)%nat → unsigned 64 (from_le_bytes l)) as Hu.
  { intros l Hl. eapply unsigned_le; [|apply from_le_bytes_range]. lia. }
  pose proof (Hu (take 8 k) ltac:(rewrite length_take; lia)) as H0.
  pose proof (Hu (drop 8 k) ltac:(rewrite length_drop; lia)) as H1.
  refine (conj _ (conj _ (conj _ _))); apply lxor_64; done.
Qed.

Lemma siphash24_words k data : length k = 16%nat →
  Paper.siphash_2_4 k data = siphash24 (state (new k)) data ∧ unsigned 64 (siphash24 (state (new k)) data).
Proof.
  intros Hk. destruct (new_words k Hk) as [Hi Hs]. unfold siphash24, Paper.siphash_2_4.
  set (l := parse_words _ _). destruct (absorb_words l _ Hs (parse_words_64 _ _)) as [Hw Hv].
  rewrite Hi in Hw. rewrite <- Hw. destruct (foldl compress (state (new k)) l) as [a b c d].
  pose proof (finalize_64 _ Hv) as (H0 & H1 & H2 & H3).
  split; [|exact (lxor_64 _ _ (lxor_64 _ _ (lxor_64 _ _ H0 H1) H2) H3)]. clear H0 H1 H2 H3.
  destruct Hv as (Ha & Hb & Hc & Hd). simpl in Ha, Hb, Hc, Hd. unfold words at 1. cbn [v0 v1 v2 v3].
  assert (state_ok (xor_v2 0xff (mkState a b c d))) as Hx.
  { by refine (conj Ha (conj Hb (conj (lxor_64 _ _ Hc _) Hd))). }
  change (a, b, Z.lxor c 0xff, d) with (words (xor_v2 0xff (mkState a b c d))).
  rewrite <- d_rounds_words by exact Hx. unfold finalize.
  by destruct (rounds FINALIZATION_ROUNDS _).
Qed.

(** C9: the hash of a message under a 16-byte key is SipHash-2-4 of them, for
    every key and every message; computing it does not panic, and the result
    is a 64-bit word. *)
Theorem siphash_is_2_4 (k data : bytes) : length k = 16%nat →
  hash (new k) data = Ok (Paper.siphash_2_4 k data) ∧ unsigned 64 (Paper.siphash_2_4 k data).
Proof.
  intros Hk. destruct (siphash24_words k data Hk) as [-> H64]. by rewrite hash_is_siphash.
Qed.

(** The test vector of the paper's appendix A. *)
Lemma siphash_is_2_4_witness :
  let k := map byte_of (seqZ 0 16) in
  let data := map byte_of (seqZ 0 15) in
  hash (new k) data = Ok 0xa129ca6149be45e5 ∧
  hash (new k) data = Ok (Paper.siphash_2_4 k data) ∧ unsigned 64 (Paper.siphash_2_4 k data).
Proof.
  split; [vm_compute; reflexivity|]. apply siphash_is_2_4. vm_compute. reflexivity.
Defined.

Lemma rotate_left_right x n : unsigned 64 x → 0 < n < 64 → rotate_left (rotate_right x n) n = x.
Proof.
  intros Hx Hn. unfold rotate_right. pose proof (rotate_left_inv x (64 - n) Hx ltac:(lia)) as H.
  by replace (64 - (64 - n)) with n in H by lia.
Qed.

Lemma add_sub64 a b : unsigned 64 a → add64 (sub64 a b) b = a.
Proof.
  intros Ha. unfold sub64, add64, wrapping_add, wrap. rewrite Zplus_mod_idemp_l.
  replace (a - b + b) with a by lia. by apply Z.mod_small.
Qed.

Lemma sub64_64 a b : unsigned 64 (sub64 a b).
Proof. apply wrap_range. lia. Qed.
Lemma rotate_right_64 x n : unsigned 64 x → 0 < n < 64 → unsigned 64 (rotate_right x n).
Proof. intros Hx Hn. apply rotate_left_64; [done|lia]. Qed.
#[local] Hint Resolve sub64_64 rotate_right_64 : words.

(** One SipRound is a permutation of the 256-bit states: it keeps every word
    in 64 bits and [sip_unround] undoes it from either side; so absorbing a
    word loses nothing of the state. *)
Theorem sip_round_permutation (v : State) : state_ok v →
  state_ok (sip_round v) ∧ sip_unround (sip_round v) = v ∧ sip_round (sip_unround v) = v ∧
  (∀ w m, state_ok w → unsigned 64 m → compress v m = compress w m → v = w).
Proof.
  intros Hv. split; [by apply sip_round_64|]. split; [by apply sip_unround_round|].
  split; [|intros w m Hw Hm H; by eapply compress_inj].
  destruct v as [a b c d]. destruct Hv as (Ha & Hb & Hc & Hd). simpl in Ha, Hb, Hc, Hd.
  unfold sip_unround, sip_round. cbv beta iota zeta.
  repeat first [rewrite lxor_lxor | rewrite add_sub64 by auto 12 with words
    | rewrite rotate_left_right by auto 12 with words]. done.
Qed.

Lemma sip_round_permutation_witness :
  state_ok (sip_round INITIAL) ∧ sip_unround (sip_round INITIAL) = INITIAL ∧
  sip_round (sip_unround INITIAL) = INITIAL ∧
  (∀ w m, state_ok w → unsigned 64 m → compress INITIAL m = compress w m → INITIAL = w).
Proof.
  apply sip_round_permutation. repeat split; vm_compute; reflexivity || discriminate.
Defined.
