(* ===== verification/Chrony.v ===== *)
(** [truenas_chrony]: the data of chronyd's monitoring protocol and its wire
    format ([error.rs], [types.rs], [wire.rs]).

    An [f64] is an IEEE binary64 as the Standard Library's [SpecFloat] has
    them; a [SystemTime] is Unix's [timespec], a signed 64-bit count of seconds
    and a nanosecond part. *)
From Stdlib Require Import Floats.SpecFloat.
From stdpp Require Import pretty.
From S2P Require Import Prelude.
Local Open Scope Z_scope.

(** ** Errors *)

(* SRC truenas_chrony/src/error.rs enum Status *)
Inductive Status : Type :=
| Failed | Unauthorized | Invalid | NoSuchSource | InvalidTimestamp | NotEnabled | BadSubnet
| AccessAllowed | AccessDenied | NoHostAccess | SourceAlreadyKnown | TooManySources | NoRtc
| BadRtcFile | Inactive | BadSample | InvalidAddressFamily | BadPacketVersion | BadPacketLength
| InvalidName
| UnknownStatus (code : Z).

#[global] Instance Status_eq_dec : EqDecision Status.
Proof. solve_decision. Defined.

(* SRC truenas_chrony/src/error.rs fn from_code *)
Definition Status_from_code (code : Z) : Status :=
  match code with
  | 1 => Failed | 2 => Unauthorized | 3 => Invalid | 4 => NoSuchSource | 5 => InvalidTimestamp
  | 6 => NotEnabled | 7 => BadSubnet | 8 => AccessAllowed | 9 => AccessDenied | 10 => NoHostAccess
  | 11 => SourceAlreadyKnown | 12 => TooManySources | 13 => NoRtc | 14 => BadRtcFile | 15 => Inactive
  | 16 => BadSample | 17 => InvalidAddressFamily | 18 => BadPacketVersion | 19 => BadPacketLength
  | 21 => InvalidName
  | other => UnknownStatus other
  end.

(* SRC truenas_chrony/src/error.rs fn code *)
Definition Status_code (s : Status) : Z :=
  match s with
  | Failed => 1 | Unauthorized => 2 | Invalid => 3 | NoSuchSource => 4 | InvalidTimestamp => 5
  | NotEnabled => 6 | BadSubnet => 7 | AccessAllowed => 8 | AccessDenied => 9 | NoHostAccess => 10
  | SourceAlreadyKnown => 11 | TooManySources => 12 | NoRtc => 13 | BadRtcFile => 14 | Inactive => 15
  | BadSample => 16 | InvalidAddressFamily => 17 | BadPacketVersion => 18 | BadPacketLength => 19
  | InvalidName => 21
  | UnknownStatus code => code
  end.

(* SRC truenas_chrony/src/error.rs impl fmt::Display for Status *)
Definition display_Status (s : Status) : string :=
  match s with
  | UnknownStatus code => "status " +:+ pretty code
  | _ =>
    (match s with
     | Failed => "command failed" | Unauthorized => "not allowed" | Invalid => "unknown command"
     | NoSuchSource => "source not found" | InvalidTimestamp => "bad timestamp"
     | NotEnabled => "not enabled" | BadSubnet => "bad subnet" | AccessAllowed => "access allowed"
     | AccessDenied => "access denied" | NoHostAccess => "host not allowed"
     | SourceAlreadyKnown => "source exists" | TooManySources => "source limit reached"
     | NoRtc => "RTC not tracked" | BadRtcFile => "RTC file not written" | Inactive => "client log off"
     | BadSample => "sample index out of range" | InvalidAddressFamily => "bad address family"
     | BadPacketVersion => "protocol version differs" | BadPacketLength => "request too short"
     | InvalidName => "bad name" | UnknownStatus _ => ""
     end) +:+ " (" +:+ pretty (Status_code s) +:+ ")"
  end.

(** The [io::ErrorKind]s the client looks at. *)
Inductive IoKind : Type := WouldBlock | TimedOut | Interrupted | OtherIo (kind : string).
#[global] Instance IoKind_eq_dec : EqDecision IoKind.
Proof. solve_decision. Defined.

(* SRC truenas_chrony/src/error.rs enum Error *)
Inductive Error : Type :=
| Io (err : IoKind)
| Timeout
| StatusError (status : Status)
| Version (version : Z)
| Changed
| UnexpectedReply (code : Z)
| Malformed (what : string).

Definition Result (A : Type) : Type := Outcome A Error.

(* SRC truenas_chrony/src/error.rs fn is_unsupported *)
Definition is_unsupported (e : Error) : bool :=
  match e with
  | Version _ | UnexpectedReply _ => true
  | StatusError (Invalid | BadPacketLength | BadPacketVersion) => true
  | _ => false
  end.

Definition display_IoKind (k : IoKind) : string :=
  match k with
  | WouldBlock => "operation would block" | TimedOut => "timed out"
  | Interrupted => "operation interrupted" | OtherIo kind => kind
  end.

(* SRC truenas_chrony/src/error.rs impl fmt::Display for Error *)
Definition display_Error (e : Error) : string :=
  match e with
  | Io err => "chronyd socket: " +:+ display_IoKind err
  | Timeout => "chronyd did not answer"
  | StatusError status => "chronyd refused: " +:+ display_Status status
  | Version version => "chronyd speaks protocol version " +:+ pretty version +:+ ", not 6"
  | Changed => "chronyd's source list changed while read"
  | UnexpectedReply code => "chronyd replied with unknown reply code " +:+ pretty code
  | Malformed what => "malformed reply from chronyd: " +:+ what
  end.

(** ** Shared values *)

(* SRC truenas_chrony/src/types.rs enum Address *)
Inductive Address : Type :=
| Unspecified
| V4 (octets : bytes)    (** four octets *)
| V6 (octets : bytes)    (** sixteen octets *)
| Id (id : Z).
#[global] Instance Address_eq_dec : EqDecision Address.
Proof. solve_decision. Defined.

(** [IpAddr]. *)
Inductive IpAddr : Type := IpV4 (octets : bytes) | IpV6 (octets : bytes).

(* SRC truenas_chrony/src/types.rs fn ip *)
Definition ip (a : Address) : option IpAddr :=
  match a with
  | V4 ip => Some (IpV4 ip)
  | V6 ip => Some (IpV6 ip)
  | Unspecified | Id _ => None
  end.

(* SRC truenas_chrony/src/types.rs impl From<IpAddr> for Address *)
Definition Address_from (ip : IpAddr) : Address :=
  match ip with IpV4 ip => V4 ip | IpV6 ip => V6 ip end.

(* SRC truenas_chrony/src/types.rs struct RefId *)
Record RefId : Type := mkRefId { ref_id : Z }.
#[global] Instance RefId_eq_dec : EqDecision RefId.
Proof. solve_decision. Defined.
(* SRC truenas_chrony/src/types.rs L 78-80 LOCAL *)
Definition LOCAL : RefId := mkRefId 0x7f7f0101.

(* SRC truenas_chrony/src/types.rs fn name *)
Definition name (r : RefId) : bytes :=
  filter (λ b, 0x20 ≤ byte_val b ≤ 0x7e) (to_be_bytes 4 r.(ref_id)).

(* SRC truenas_chrony/src/types.rs enum Leap *)
Inductive Leap : Type := Normal | InsertSecond | DeleteSecond | Unsynchronized | UnknownLeap (code : Z).

(* SRC truenas_chrony/src/types.rs fn from_code *)
Definition Leap_from_code (code : Z) : Leap :=
  match code with
  | 0 => Normal | 1 => InsertSecond | 2 => DeleteSecond | 3 => Unsynchronized
  | other => UnknownLeap other
  end.

(** ** Floats *)

(** [f64]: precision 53, exponents below 1024. *)
Definition f64 : Type := spec_float.
Definition f64_mul : f64 → f64 → f64 := SFmul 53 1024.
Definition f64_add : f64 → f64 → f64 := SFadd 53 1024.
Definition f64_div : f64 → f64 → f64 := SFdiv 53 1024.
(** [f64::from(i32)]. *)
Definition f64_from_i32 (z : Z) : f64 := binary_normalize 53 1024 z 0 false.
(** [f64::from_bits]. *)
Definition f64_from_bits (bits : Z) : f64 :=
  let sign := Z.testbit bits 63 in
  let exp := Z.land (Z.shiftr bits 52) 0x7ff in
  let man := Z.land bits (2 ^ 52 - 1) in
  if exp =? 0x7ff then (if man =? 0 then S754_infinity sign else S754_nan)
  else if exp =? 0 then
    match man with Zpos m => S754_finite sign m (-1074) | _ => S754_zero sign end
  else
    match man + 2 ^ 52 with Zpos m => S754_finite sign m (exp - 1075) | _ => S754_nan end.

(* SRC truenas_chrony/src/wire.rs fn pow2 *)
Definition pow2 (n : Z) : f64 := f64_from_bits (wrap 64 (Z.shiftl (wrap 64 (n + 1023)) 52)).

(** [>>] on an [i32] keeps the sign. *)
(* SRC truenas_chrony/src/wire.rs L 96-103 float *)
Definition float (raw : Z) : f64 :=
  let exp := Z.shiftr (swrap 32 raw) 25 in
  let coef := Z.shiftr (swrap 32 (wrap 32 (Z.shiftl raw 7))) 7 in
  f64_mul (f64_from_i32 coef) (pow2 (exp - 25)).

(** ** Times *)

(** [SystemTime] and [Duration]. *)
Record SystemTime : Type := mkTime { tv_sec : Z; tv_nsec : Z }.
Record Duration : Type := mkDuration { as_secs : Z; subsec_nanos : Z }.

Definition NSEC_PER_SEC : Z := 1000000000.

(** [Duration::new], for a count below the carry, and the other makers. *)
Definition Duration_new (secs nanos : Z) : Duration :=
  mkDuration (secs + nanos / NSEC_PER_SEC) (nanos mod NSEC_PER_SEC).

Definition UNIX_EPOCH : SystemTime := mkTime 0 0.

(** [SystemTime::checked_add] and [checked_sub]. *)
Definition checked_add (t : SystemTime) (d : Duration) : option SystemTime :=
  s ← try_signed 64 (t.(tv_sec) + d.(as_secs));
  let nsec := t.(tv_nsec) + d.(subsec_nanos) in
  if nsec <? NSEC_PER_SEC then Some (mkTime s nsec)
  else s ← try_signed 64 (s + 1); Some (mkTime s (nsec - NSEC_PER_SEC)).
Definition checked_sub (t : SystemTime) (d : Duration) : option SystemTime :=
  s ← try_signed 64 (t.(tv_sec) - d.(as_secs));
  let nsec := t.(tv_nsec) - d.(subsec_nanos) in
  if 0 <=? nsec then Some (mkTime s nsec)
  else s ← try_signed 64 (s - 1); Some (mkTime s (nsec + NSEC_PER_SEC)).

(** ** The wire *)

(* SRC truenas_chrony/src/wire.rs const VERSION *)
Definition VERSION : Z := 6.
(* SRC truenas_chrony/src/wire.rs const OLDEST_MISMATCH_VERSION *)
Definition OLDEST_MISMATCH_VERSION : Z := 4.
(* SRC truenas_chrony/src/wire.rs const TYPE_REQUEST *)
Definition TYPE_REQUEST : Z := 1.
(* SRC truenas_chrony/src/wire.rs const TYPE_REPLY *)
Definition TYPE_REPLY : Z := 2.
(* SRC truenas_chrony/src/wire.rs const REQUEST_HEADER *)
Definition REQUEST_HEADER : Z := 20.
(* SRC truenas_chrony/src/wire.rs const REPLY_HEADER *)
Definition REPLY_HEADER : Z := 28.
(* SRC truenas_chrony/src/wire.rs const STATUS_OK *)
Definition STATUS_OK : Z := 0.
(* SRC truenas_chrony/src/wire.rs const STATUS_BAD_VERSION *)
Definition STATUS_BAD_VERSION : Z := 18.
(* SRC truenas_chrony/src/wire.rs L 39-43 FAMILY_NONE *)
Definition FAMILY_NONE : Z := 0.
(* SRC truenas_chrony/src/wire.rs const FAMILY_IPV4 *)
Definition FAMILY_IPV4 : Z := 1.
(* SRC truenas_chrony/src/wire.rs const FAMILY_IPV6 *)
Definition FAMILY_IPV6 : Z := 2.
(* SRC truenas_chrony/src/wire.rs const FAMILY_ID *)
Definition FAMILY_ID : Z := 3.
(* SRC truenas_chrony/src/wire.rs const NO_HIGH_WORD *)
Definition NO_HIGH_WORD : Z := 0x7fffffff.
(* SRC truenas_chrony/src/wire.rs const MAX_NSEC *)
Definition MAX_NSEC : Z := 999999999.

(** [addr[..4].copy_from_slice(x)] on sixteen zero bytes. *)
Definition in_first_four (x : bytes) : bytes := x ++ replicate 12 x00.

(* SRC truenas_chrony/src/wire.rs fn put_address *)
Definition put_address (buf : bytes) (address : Address) : bytes :=
  let '(addr, family) :=
    match address with
    | Unspecified => (replicate 16 x00, FAMILY_NONE)
    | V4 ip => (in_first_four ip, FAMILY_IPV4)
    | V6 ip => (ip, FAMILY_IPV6)
    | Id id => (in_first_four (to_be_bytes 4 id), FAMILY_ID)
    end in
  buf ++ addr ++ to_be_bytes 2 family ++ [x00; x00].

(* SRC truenas_chrony/src/wire.rs struct Reader *)
Record Reader : Type := mkReader { rest : bytes }.
Abbreviation Rd := (St Reader Error).

(* SRC truenas_chrony/src/wire.rs L 122-122 new *)
Definition SHORT : Error := Malformed "reply shorter than its layout".

(* SRC truenas_chrony/src/wire.rs fn new *)
Definition new (data : bytes) (n : Z) : Result Reader :=
  if n <=? len data then Ok (mkReader (take (Z.to_nat n) data)) else Err SHORT.

(* SRC truenas_chrony/src/wire.rs L 126-133 take *)
Definition rd_take (n : nat) : Rd bytes := λ r,
  if decide (n ≤ length r.(rest))%nat
  then (Ok (take n r.(rest)), mkReader (drop n r.(rest)))
  else (Err SHORT, r).

(* SRC truenas_chrony/src/wire.rs fn skip *)
Definition skip (n : nat) : Rd unit := rd_take n;; mret tt.
(* SRC truenas_chrony/src/wire.rs fn u8 *)
Definition u8 : Rd Z := b ← rd_take 1; mret (from_be_bytes b).
(* SRC truenas_chrony/src/wire.rs fn u16 *)
Definition u16 : Rd Z := b ← rd_take 2; mret (from_be_bytes b).
(* SRC truenas_chrony/src/wire.rs fn i16 *)
Definition i16 : Rd Z := b ← rd_take 2; mret (swrap 16 (from_be_bytes b)).
(* SRC truenas_chrony/src/wire.rs fn u32 *)
Definition u32 : Rd Z := b ← rd_take 4; mret (from_be_bytes b).
(* SRC truenas_chrony/src/wire.rs fn ago *)
Definition ago : Rd (option Z) := s ← u32; mret (if s =? u32_max then None else Some s).
(* SRC truenas_chrony/src/wire.rs L 161-163 float *)
Definition rd_float : Rd f64 := x ← u32; mret (float x).

(* SRC truenas_chrony/src/wire.rs fn timestamp *)
Definition timestamp : Rd SystemTime :=
  high ← u32;
  low ← u32;
  n ← u32;
  let nsec := Z.min n MAX_NSEC in
  let high := if high =? NO_HIGH_WORD then 0 else high in
  let secs := swrap 64 (Z.lor (wrap 64 (Z.shiftl high 32)) low) in
  let time :=
    if 0 <=? secs then checked_add UNIX_EPOCH (Duration_new (Z.abs secs) nsec)
    else t ← checked_sub UNIX_EPOCH (Duration_new (Z.abs secs) 0);
         checked_add t (Duration_new 0 nsec) in
  lift (ok_or time (Malformed "timestamp out of range")).

(* SRC truenas_chrony/src/wire.rs fn address *)
Definition address : Rd Address :=
  addr ← rd_take 16;
  family ← u16;
  skip 2;;
  let abcd := take 4 addr in
  mret (if family =? FAMILY_IPV4 then V4 abcd
        else if family =? FAMILY_IPV6 then V6 addr
        else if family =? FAMILY_ID then Id (from_be_bytes abcd)
        else Unspecified).

(* SRC truenas_chrony/src/wire.rs trait Layout *)
Class Layout (T : Type) : Type := {
  COMMAND : Z;
  REPLY : Z;
  LEN : Z;
  read : Rd T
}.
Arguments COMMAND T {_}.
Arguments REPLY T {_}.
Arguments LEN T {_}.
Arguments read T {_}.

(* SRC truenas_chrony/src/wire.rs fn decode *)
Definition decode T `{!Layout T} (reply : Z) (data : bytes) : Result T :=
  if negb (reply =? REPLY T) then Err (UnexpectedReply reply)
  else outcome_bind (λ r, (read T r).1) (new data (LEN T)).
