(* ===== verification/ChronyReports.v ===== *)
(** The reports of [truenas_chrony]: tracking, source count, source,
    selection and authentication ([tracking.rs], [source.rs], [auth.rs]). *)
From Stdlib Require Import Floats.SpecFloat.
From S2P Require Import Prelude Chrony.
Local Open Scope Z_scope.

(** ** Tracking *)

(* SRC truenas_chrony/src/tracking.rs struct Tracking *)
Record Tracking : Type := mkTracking {
  reference_id : RefId;
  tracking_address : Address;
  stratum : Z;
  leap : Leap;
  reference_time : SystemTime;
  correction : f64;
  last_offset : f64;
  rms_offset : f64;
  frequency_ppm : f64;
  residual_frequency_ppm : f64;
  skew_ppm : f64;
  root_delay : f64;
  root_dispersion : f64;
  update_interval : f64
}.

(* SRC truenas_chrony/src/tracking.rs impl Layout for Tracking *)
#[global] Instance Layout_Tracking : Layout Tracking := {|
  COMMAND := 33;
  REPLY := 5;
  LEN := 76;
  read :=
    reference_id ← u32;
    a ← address;
    stratum ← u16;
    leap ← u16;
    reference_time ← timestamp;
    correction ← rd_float;
    last_offset ← rd_float;
    rms_offset ← rd_float;
    frequency_ppm ← rd_float;
    residual_frequency_ppm ← rd_float;
    skew_ppm ← rd_float;
    root_delay ← rd_float;
    root_dispersion ← rd_float;
    update_interval ← rd_float;
    mret (mkTracking (mkRefId reference_id) a stratum (Leap_from_code leap) reference_time correction
      last_offset rms_offset frequency_ppm residual_frequency_ppm skew_ppm root_delay root_dispersion
      update_interval)
|}.

(* SRC truenas_chrony/src/tracking.rs fn is_synchronized *)
Definition is_synchronized (t : Tracking) : bool :=
  bool_decide (t.(tracking_address) ≠ Unspecified)
  || (bool_decide (t.(reference_id) ≠ mkRefId 0) && bool_decide (t.(reference_id) ≠ LOCAL)).

Definition f64_two : f64 := f64_from_i32 2.

(* SRC truenas_chrony/src/tracking.rs fn root_distance *)
Definition root_distance (t : Tracking) : f64 :=
  f64_add (f64_div t.(root_delay) f64_two) t.(root_dispersion).

(** [f64::abs], and [x >= 0.0]. *)
Definition f64_abs (x : f64) : f64 := SFabs x.
Definition f64_nonneg (x : f64) : bool :=
  match x with
  | S754_zero _ | S754_infinity false | S754_finite false _ _ => true
  | _ => false
  end.

(** [m * 2^e] rounded to an integer, ties to even. *)
Definition round_even (m e : Z) : Z :=
  if 0 <=? e then m * 2 ^ e
  else
    let q := m / 2 ^ (- e) in
    let r := m mod 2 ^ (- e) in
    let half := 2 ^ (- e - 1) in
    if (half <? r) || ((r =? half) && Z.odd q) then q + 1 else q.

(** [Duration::try_from_secs_f64]: the nearest whole number of nanoseconds; a
    negative, infinite or too large number of seconds is refused. *)
Definition try_from_secs_f64 (x : f64) : option Duration :=
  match x with
  | S754_zero _ => Some (mkDuration 0 0)
  | S754_finite false m e =>
      let nanos := round_even (Zpos m * NSEC_PER_SEC) e in
      if nanos / NSEC_PER_SEC <? 2 ^ 64
      then Some (mkDuration (nanos / NSEC_PER_SEC) (nanos mod NSEC_PER_SEC)) else None
  | _ => None
  end.

(* SRC truenas_chrony/src/tracking.rs fn corrected *)
Definition corrected (t : Tracking) (system : SystemTime) : option SystemTime :=
  shift ← try_from_secs_f64 (f64_abs t.(correction));
  if f64_nonneg t.(correction) then checked_add system shift else checked_sub system shift.

(** ** Sources *)

(* SRC truenas_chrony/src/source.rs impl Layout for u32 *)
#[global] Instance Layout_u32 : Layout Z := {| COMMAND := 14; REPLY := 2; LEN := 4; read := u32 |}.

(* SRC truenas_chrony/src/source.rs enum SourceMode *)
Inductive SourceMode : Type := Server | Peer | RefClock | UnknownMode (code : Z).
#[global] Instance SourceMode_eq_dec : EqDecision SourceMode.
Proof. solve_decision. Defined.

(* SRC truenas_chrony/src/source.rs L 114-121 from_code *)
Definition SourceMode_from_code (code : Z) : SourceMode :=
  match code with 0 => Server | 1 => Peer | 2 => RefClock | other => UnknownMode other end.

(* SRC truenas_chrony/src/source.rs enum SourceState *)
Inductive SourceState : Type :=
| Selected | Unusable | Falseticker | Jittery | Combined | Selectable | UnknownState (code : Z).

(* SRC truenas_chrony/src/source.rs L 146-156 from_code *)
Definition SourceState_from_code (code : Z) : SourceState :=
  match code with
  | 0 => Selected | 1 => Unusable | 2 => Falseticker | 3 => Jittery | 4 => Combined | 5 => Selectable
  | other => UnknownState other
  end.

(* SRC truenas_chrony/src/source.rs struct Source *)
Record Source : Type := mkSource {
  source_address : Address;
  poll : Z;
  source_stratum : Z;
  source_state : SourceState;
  source_mode : SourceMode;
  reachability : Z;
  last_sample_ago : option Z;
  adjusted_offset : f64;
  measured_offset : f64;
  offset_error : f64
}.

(* SRC truenas_chrony/src/source.rs fn refclock_id *)
Definition refclock_id (s : Source) : option RefId :=
  match s.(source_mode), s.(source_address) with
  | RefClock, V4 ip => Some (mkRefId (from_be_bytes ip))
  | _, _ => None
  end.

(* SRC truenas_chrony/src/source.rs impl Layout for Source *)
#[global] Instance Layout_Source : Layout Source := {|
  COMMAND := 15;
  REPLY := 3;
  LEN := 48;
  read :=
    a ← address;
    poll ← i16;
    stratum ← u16;
    state ← u16;
    mode ← u16;
    skip 2;;
    reachability ← u16;
    last_sample_ago ← ago;
    measured_offset ← rd_float;
    adjusted_offset ← rd_float;
    offset_error ← rd_float;
    mret (mkSource a poll stratum (SourceState_from_code state) (SourceMode_from_code mode)
      reachability last_sample_ago adjusted_offset measured_offset offset_error)
|}.

(** ** Selection *)

(* SRC truenas_chrony/src/source.rs L 159-173 SelectOptions *)
Record SelectOptions : Type := from_bits_retain { select_bits : Z }.

(* SRC truenas_chrony/src/source.rs enum SelectState *)
Inductive SelectState : Type :=
| NoSelect | MissingSamples | SelUnsynchronized | BadStratum | BadDistance | SelJittery | WaitsSamples
| Stale | Orphan | Untrusted | SelFalseticker | WaitsSources | NonPreferred | WaitsUpdate | Distant
| Outlier | SelCombined | SelSelected
| UnknownSelect (code : Z).

(** The codes are ASCII characters: [N] is 78, [M] 77, [s] 115, and so on. *)
(* SRC truenas_chrony/src/source.rs L 289-311 from_code *)
Definition SelectState_from_code (code : Z) : SelectState :=
  match code with
  | 78 => NoSelect | 77 => MissingSamples | 115 => SelUnsynchronized | 114 => BadStratum
  | 100 => BadDistance | 126 => SelJittery | 119 => WaitsSamples | 83 => Stale | 79 => Orphan
  | 84 => Untrusted | 120 => SelFalseticker | 87 => WaitsSources | 80 => NonPreferred
  | 85 => WaitsUpdate | 68 => Distant | 76 => Outlier | 43 => SelCombined | 42 => SelSelected
  | other => UnknownSelect other
  end.

(* SRC truenas_chrony/src/source.rs fn code *)
Definition SelectState_code (s : SelectState) : Z :=
  match s with
  | NoSelect => 78 | MissingSamples => 77 | SelUnsynchronized => 115 | BadStratum => 114
  | BadDistance => 100 | SelJittery => 126 | WaitsSamples => 119 | Stale => 83 | Orphan => 79
  | Untrusted => 84 | SelFalseticker => 120 | WaitsSources => 87 | NonPreferred => 80
  | WaitsUpdate => 85 | Distant => 68 | Outlier => 76 | SelCombined => 43 | SelSelected => 42
  | UnknownSelect code => code
  end.

(* SRC truenas_chrony/src/source.rs struct Selection *)
Record Selection : Type := mkSelection {
  selection_reference_id : RefId;
  selection_address : Address;
  select_state : SelectState;
  authenticated : bool;
  selection_leap : Leap;
  configured_options : SelectOptions;
  effective_options : SelectOptions;
  selection_sample_ago : option Z;
  score : f64;
  lower_limit : f64;
  upper_limit : f64
}.

(* SRC truenas_chrony/src/source.rs impl Layout for Selection *)
#[global] Instance Layout_Selection : Layout Selection := {|
  COMMAND := 69;
  REPLY := 23;
  LEN := 48;
  read :=
    reference_id ← u32;
    a ← address;
    state ← u8;
    authenticated ← u8;
    leap ← u8;
    skip 1;;
    configured ← u16;
    effective ← u16;
    last_sample_ago ← ago;
    score ← rd_float;
    lower_limit ← rd_float;
    upper_limit ← rd_float;
    mret (mkSelection (mkRefId reference_id) a (SelectState_from_code state)
      (negb (authenticated =? 0)) (Leap_from_code leap) (from_bits_retain configured)
      (from_bits_retain effective) last_sample_ago score lower_limit upper_limit)
|}.

(** ** Authentication *)

(* SRC truenas_chrony/src/auth.rs enum AuthMode *)
Inductive AuthMode : Type := NoAuth | SymmetricKey | Nts | UnknownAuth (code : Z).

(* SRC truenas_chrony/src/auth.rs L 77-85 from_code *)
Definition AuthMode_from_code (code : Z) : AuthMode :=
  match code with 0 => NoAuth | 1 => SymmetricKey | 2 => Nts | other => UnknownAuth other end.

(* SRC truenas_chrony/src/auth.rs enum Algorithm *)
Inductive Algorithm : Type :=
| NoAlgorithm | Md5 | Sha1 | Sha256 | Sha384 | Sha512 | Sha3_224 | Sha3_256 | Sha3_384 | Sha3_512
| Tiger | Whirlpool | Aes128 | Aes256 | AesSivCmac256 | AesSivCmac384 | AesSivCmac512
| Aes128GcmSiv | Aes256GcmSiv
| UnknownAlgorithm (code : Z).

(* SRC truenas_chrony/src/auth.rs L 137-161 from_code *)
Definition Algorithm_from_code (code : Z) : Algorithm :=
  match code with
  | 0 => NoAlgorithm | 1 => Md5 | 2 => Sha1 | 3 => Sha256 | 4 => Sha384 | 5 => Sha512
  | 6 => Sha3_224 | 7 => Sha3_256 | 8 => Sha3_384 | 9 => Sha3_512 | 10 => Tiger | 11 => Whirlpool
  | 13 => Aes128 | 14 => Aes256 | 15 => AesSivCmac256 | 16 => AesSivCmac384 | 17 => AesSivCmac512
  | 30 => Aes128GcmSiv | 31 => Aes256GcmSiv
  | other => UnknownAlgorithm other
  end.

(* SRC truenas_chrony/src/auth.rs fn code *)
Definition Algorithm_code (a : Algorithm) : Z :=
  match a with
  | NoAlgorithm => 0 | Md5 => 1 | Sha1 => 2 | Sha256 => 3 | Sha384 => 4 | Sha512 => 5
  | Sha3_224 => 6 | Sha3_256 => 7 | Sha3_384 => 8 | Sha3_512 => 9 | Tiger => 10 | Whirlpool => 11
  | Aes128 => 13 | Aes256 => 14 | AesSivCmac256 => 15 | AesSivCmac384 => 16 | AesSivCmac512 => 17
  | Aes128GcmSiv => 30 | Aes256GcmSiv => 31
  | UnknownAlgorithm code => code
  end.

(* SRC truenas_chrony/src/auth.rs struct Authentication *)
Record Authentication : Type := mkAuthentication {
  auth_mode : AuthMode;
  algorithm : Algorithm;
  key_id : Z;
  key_bits : Z;
  ke_attempts : Z;
  last_ke_ago : option Z;
  cookies : Z;
  cookie_length : Z;
  nak : bool
}.

(* SRC truenas_chrony/src/auth.rs impl Layout for Authentication *)
#[global] Instance Layout_Authentication : Layout Authentication := {|
  COMMAND := 67;
  REPLY := 20;
  LEN := 24;
  read :=
    mode ← u16;
    algorithm ← u16;
    key_id ← u32;
    key_bits ← u16;
    ke_attempts ← u16;
    last_ke_ago ← ago;
    cookies ← u16;
    cookie_length ← u16;
    nak ← u16;
    skip 2;;
    mret (mkAuthentication (AuthMode_from_code mode) (Algorithm_from_code algorithm) key_id key_bits
      ke_attempts last_ke_ago cookies cookie_length (negb (nak =? 0)))
|}.
