(* ===== verification/ChronyLayout.v ===== *)
(** The layouts of [truenas_chrony]'s reports, by offset: what each [Layout]
    reads, field by field, from the bytes of a reply, and that a reply decodes
    exactly when its code and its length are right; and the 32-bit floats in
    them. *)
From Stdlib Require Import Floats.SpecFloat.
From S2P Require Import Prelude Chrony ChronyReports.
Local Open Scope Z_scope.

(** ** Fields by offset *)
Section Fields.
Variable d : bytes.
Definition bytes_at (o n : nat) : bytes := take n (drop o d).
Definition u8_at (o : nat) : Z := from_be_bytes (bytes_at o 1).
Definition u16_at (o : nat) : Z := from_be_bytes (bytes_at o 2).
Definition i16_at (o : nat) : Z := swrap 16 (u16_at o).
Definition u32_at (o : nat) : Z := from_be_bytes (bytes_at o 4).
Definition ago_at (o : nat) : option Z := if u32_at o =? u32_max then None else Some (u32_at o).
Definition float_at (o : nat) : f64 := float (u32_at o).
Definition address_at (o : nat) : Address :=
  let family := u16_at (o + 16) in
  if family =? FAMILY_IPV4 then V4 (bytes_at o 4)
  else if family =? FAMILY_IPV6 then V6 (bytes_at o 16)
  else if family =? FAMILY_ID then Id (u32_at o)
  else Unspecified.

(** The sender's [time_t] and nanoseconds. *)
Definition time_t_at (o : nat) : Z :=
  let high := if u32_at o =? NO_HIGH_WORD then 0 else u32_at o in
  swrap 64 (high * 2 ^ 32 + u32_at (o + 4)).
Definition timestamp_at (o : nat) : SystemTime :=
  mkTime (time_t_at o) (Z.min (u32_at (o + 8)) MAX_NSEC).
End Fields.

(** A cursor at offset [o] of the data [d]. *)
Definition cursor (d : bytes) (o : nat) : Reader := mkReader (drop o d).

(** [reads_at d o n m a]: at offset [o], [m] reads the next [n] bytes and gives
    [a]. *)
Definition reads_at {A} (d : bytes) (o n : nat) (m : Rd A) (a : A) : Prop :=
  (o + n ≤ length d)%nat → m (cursor d o) = (Ok a, cursor d (o + n)).

Lemma take_at d o n : reads_at d o n (rd_take n) (bytes_at d o n).
Proof.
  intros H. unfold rd_take, cursor. simpl. rewrite decide_True by (rewrite length_drop; lia).
  by rewrite drop_drop.
Qed.

Lemma bind_at {A B} d o n k (m : Rd A) (f : A → Rd B) a b :
  reads_at d o n m a → reads_at d (o + n) k (f a) b → reads_at d o (n + k) (m ≫= f) b.
Proof.
  intros Hm Hf H. rewrite (run_bind_ok _ _ _ _ _ (Hm ltac:(lia))), (Hf ltac:(lia)).
  by rewrite Nat.add_assoc.
Qed.

Lemma ret_at {A} d o (a : A) : reads_at d o 0 (mret a) a.
Proof. intros H. by rewrite Nat.add_0_r. Qed.

Lemma map_at {A B} d o n (m : Rd A) (f : A → B) a b : reads_at d o n m a → f a = b →
  reads_at d o n (x ← m; mret (f x)) b.
Proof. intros Hm <- H. by rewrite (run_bind_ok _ _ _ _ _ (Hm H)). Qed.

Lemma u8_reads d o : reads_at d o 1 u8 (u8_at d o).
Proof. by eapply map_at; [apply take_at|]. Qed.
Lemma u16_reads d o : reads_at d o 2 u16 (u16_at d o).
Proof. by eapply map_at; [apply take_at|]. Qed.
Lemma i16_reads d o : reads_at d o 2 i16 (i16_at d o).
Proof. by eapply map_at; [apply take_at|]. Qed.
Lemma u32_reads d o : reads_at d o 4 u32 (u32_at d o).
Proof. by eapply map_at; [apply take_at|]. Qed.
Lemma ago_reads d o : reads_at d o 4 ago (ago_at d o).
Proof. by eapply map_at; [apply u32_reads|]. Qed.
Lemma float_reads d o : reads_at d o 4 rd_float (float_at d o).
Proof. by eapply map_at; [apply u32_reads|]. Qed.
Lemma skip_reads d o n : reads_at d o n (skip n) tt.
Proof. by eapply (map_at _ _ _ _ (λ _, tt)); [apply take_at|]. Qed.

Lemma address_reads d o : reads_at d o 20 address (address_at d o).
Proof.
  apply (bind_at _ _ 16 4 _ _ (bytes_at d o 16)); [apply take_at|].
  apply (bind_at _ _ 2 2 _ _ (u16_at d (o + 16))); [apply u16_reads|].
  eapply (map_at _ _ _ (skip 2) (λ _, _)); [apply skip_reads|].
  unfold address_at, bytes_at, u32_at. rewrite take_take. done.
Qed.

(** ** Times *)
Lemma u32_at_range d o : unsigned 32 (u32_at d o).
Proof.
  unfold u32_at. pose proof (from_be_bytes_range (bytes_at d o 4)) as Hr.
  eapply unsigned_le; [|exact Hr]. unfold bytes_at. rewrite length_take. lia.
Qed.

Lemma Duration_new_small s n : 0 ≤ n < NSEC_PER_SEC → Duration_new s n = mkDuration s n.
Proof. intros H. unfold Duration_new. by rewrite Z.div_small, Z.mod_small, Z.add_0_r. Qed.

Lemma lor_words hi lo : 0 ≤ hi → unsigned 32 lo → Z.lor (Z.shiftl hi 32) lo = hi * 2 ^ 32 + lo.
Proof.
  intros Hh Hl. rewrite <- Z.shiftl_mul_pow2 by lia.
  assert (Z.land (Z.shiftl hi 32) lo = 0) as H0.
  { apply Z.bits_inj'. intros i Hi. rewrite Z.land_spec, Z.bits_0.
    destruct (decide (i < 32)) as [Hlt|Hge]; [by rewrite Z.shiftl_spec_low|].
    rewrite (testbit_high 32 lo i Hl) by lia. apply andb_false_r. }
  by rewrite (Z.add_nocarry_lxor _ _ H0), (Z.lxor_lor _ _ H0).
Qed.

(** Every timestamp has a [SystemTime]. *)
Lemma system_time_of secs nsec : signed 64 secs → 0 ≤ nsec < NSEC_PER_SEC →
  (if 0 <=? secs then checked_add UNIX_EPOCH (Duration_new (Z.abs secs) nsec)
   else t ← checked_sub UNIX_EPOCH (Duration_new (Z.abs secs) 0);
        checked_add t (Duration_new 0 nsec)) = Some (mkTime secs nsec).
Proof.
  intros Hs Hn. rewrite !Duration_new_small by (done || unfold NSEC_PER_SEC; lia).
  unfold checked_add, checked_sub, UNIX_EPOCH, try_signed. cbn [tv_sec tv_nsec as_secs subsec_nanos].
  destruct (Z.leb_spec 0 secs).
  - replace (0 + Z.abs secs) with secs by lia. rewrite decide_True by done.
    cbn [mbind option_bind]. rewrite Z.add_0_l. by destruct (Z.ltb_spec nsec NSEC_PER_SEC); [|lia].
  - replace (0 - Z.abs secs) with secs by lia. rewrite decide_True by done.
    change (0 - 0) with 0. change (0 <=? 0) with true. cbn [mbind option_bind tv_sec tv_nsec].
    rewrite Z.add_0_r, decide_True by done. cbn [mbind option_bind].
    rewrite ?Z.add_0_l. by destruct (Z.ltb_spec nsec NSEC_PER_SEC); [|lia].
Qed.

Lemma timestamp_reads d o : reads_at d o 12 timestamp (timestamp_at d o).
Proof.
  apply (bind_at _ _ 4 8 _ _ (u32_at d o)); [apply u32_reads|].
  apply (bind_at _ _ 4 4 _ _ (u32_at d (o + 4))); [apply u32_reads|].
  replace 4%nat with (4 + 0)%nat at 2 by lia.
  apply (bind_at _ _ 4 0 _ _ (u32_at d (o + 4 + 4))); [apply u32_reads|].
  intros H. cbv beta zeta.
  replace (o + 4 + 4)%nat with (o + 8)%nat by lia.
  pose proof (u32_at_range d o) as Ho. pose proof (u32_at_range d (o + 4)) as Hl. pose proof (u32_at_range d (o + 8)) as Hn.
  set (high := if u32_at d o =? NO_HIGH_WORD then 0 else u32_at d o).
  assert (unsigned 32 high) as Hh by (subst high; by case_match).
  assert (wrap 64 (Z.shiftl high 32) = Z.shiftl high 32) as ->.
  { apply wrap_small. rewrite Z.shiftl_mul_pow2 by lia. unfold unsigned in *.
    change (2 ^ 64) with (2 ^ 32 * 2 ^ 32). nia. }
  rewrite lor_words by (apply Hh || done).
  rewrite system_time_of; [unfold lift, ok_or; f_equal; unfold cursor; do 2 f_equal; lia|by apply swrap_range|].
  unfold unsigned in Hn. unfold MAX_NSEC, NSEC_PER_SEC. lia.
Qed.

(** ** The reports *)
Definition tracking_at (d : bytes) : Tracking :=
  mkTracking (mkRefId (u32_at d 0)) (address_at d 4) (u16_at d 24) (Leap_from_code (u16_at d 26))
    (timestamp_at d 28) (float_at d 40) (float_at d 44) (float_at d 48) (float_at d 52) (float_at d 56)
    (float_at d 60) (float_at d 64) (float_at d 68) (float_at d 72).

Definition source_at (d : bytes) : Source :=
  mkSource (address_at d 0) (i16_at d 20) (u16_at d 22) (SourceState_from_code (u16_at d 24))
    (SourceMode_from_code (u16_at d 26)) (u16_at d 30) (ago_at d 32) (float_at d 40) (float_at d 36)
    (float_at d 44).

Definition selection_at (d : bytes) : Selection :=
  mkSelection (mkRefId (u32_at d 0)) (address_at d 4) (SelectState_from_code (u8_at d 24))
    (negb (u8_at d 25 =? 0)) (Leap_from_code (u8_at d 26)) (from_bits_retain (u16_at d 28))
    (from_bits_retain (u16_at d 30)) (ago_at d 32) (float_at d 36) (float_at d 40) (float_at d 44).

Definition authentication_at (d : bytes) : Authentication :=
  mkAuthentication (AuthMode_from_code (u16_at d 0)) (Algorithm_from_code (u16_at d 2)) (u32_at d 4)
    (u16_at d 8) (u16_at d 10) (ago_at d 12) (u16_at d 16) (u16_at d 18) (negb (u16_at d 20 =? 0)).

(** What a layout promises its callers. *)
Class LayoutAt T `{!Layout T} (report_at : bytes → T) : Prop :=
  layout_at : ∀ d, reads_at d 0 (Z.to_nat (LEN T)) (read T) (report_at d).

Ltac read_fields :=
  repeat (eapply bind_at; [first [apply u8_reads | apply u16_reads | apply i16_reads | apply u32_reads
    | apply ago_reads | apply float_reads | apply skip_reads | apply address_reads | apply timestamp_reads]|];
    cbv beta); apply ret_at.

#[global] Instance layout_count : LayoutAt Z (λ d, u32_at d 0).
Proof. intros d. apply u32_reads. Qed.

#[global] Instance layout_tracking : LayoutAt Tracking tracking_at.
Proof.
  intros d. change (Z.to_nat (LEN Tracking)) with
    (4 + (20 + (2 + (2 + (12 + (4 + (4 + (4 + (4 + (4 + (4 + (4 + (4 + (4 + 0))))))))))))))%nat.
  unfold read, Layout_Tracking. read_fields.
Qed.

#[global] Instance layout_source : LayoutAt Source source_at.
Proof.
  intros d. change (Z.to_nat (LEN Source)) with
    (20 + (2 + (2 + (2 + (2 + (2 + (2 + (4 + (4 + (4 + (4 + 0)))))))))))%nat.
  unfold read, Layout_Source. read_fields.
Qed.

#[global] Instance layout_selection : LayoutAt Selection selection_at.
Proof.
  intros d. change (Z.to_nat (LEN Selection)) with
    (4 + (20 + (1 + (1 + (1 + (1 + (2 + (2 + (4 + (4 + (4 + (4 + 0))))))))))))%nat.
  unfold read, Layout_Selection. read_fields.
Qed.

#[global] Instance layout_authentication : LayoutAt Authentication authentication_at.
Proof.
  intros d. change (Z.to_nat (LEN Authentication)) with
    (2 + (2 + (4 + (2 + (2 + (4 + (2 + (2 + (2 + (2 + 0))))))))))%nat.
  unfold read, Layout_Authentication. read_fields.
Qed.

(** A reply decodes exactly when it has the report's code and its bytes; what
    follows them is ignored. *)
Lemma decode_eq T report_at `{!Layout T, !LayoutAt T report_at} reply data : 0 ≤ LEN T →
  decode T reply data
  = if negb (reply =? REPLY T) then Err (UnexpectedReply reply)
    else if len data <? LEN T then Err SHORT
    else Ok (report_at (take (Z.to_nat (LEN T)) data)).
Proof.
  intros HL. unfold decode, new. destruct (reply =? REPLY T); [|done]. simpl.
  destruct (Z.leb_spec (LEN T) (len data)), (Z.ltb_spec (len data) (LEN T)); try lia; [|done]. simpl.
  change (mkReader (take (Z.to_nat (LEN T)) data)) with (cursor (take (Z.to_nat (LEN T)) data) 0).
  rewrite layout_at; [done|]. rewrite length_take. lia.
Qed.

(** ** Addresses *)
Definition address_ok (a : Address) : Prop :=
  match a with
  | V4 ip => length ip = 4%nat
  | V6 ip => length ip = 16%nat
  | Id id => unsigned 32 id
  | Unspecified => True
  end.

Lemma at_skip (pre d : bytes) o n : length pre = o → bytes_at (pre ++ d) o n = take n d.
Proof. intros <-. unfold bytes_at. by rewrite drop_app_length. Qed.

Lemma address_body (a16 : bytes) family tl : length a16 = 16%nat → unsigned 16 family →
  let d := a16 ++ to_be_bytes 2 family ++ [x00; x00] ++ tl in
  u16_at d 16 = family ∧ bytes_at d 0 16 = a16 ∧ bytes_at d 0 4 = take 4 a16.
Proof.
  intros Hl Hf d. subst d. split; [|split].
  - unfold u16_at. rewrite at_skip by done. rewrite take_app_length' by (by rewrite length_to_be_bytes).
    rewrite from_to_be_bytes. by apply wrap_small.
  - unfold bytes_at. rewrite drop_0. by apply take_app_length'.
  - unfold bytes_at. rewrite drop_0. apply take_app_le. lia.
Qed.

(** An address reads back as it was written. *)
Lemma address_roundtrip buf a tl : address_ok a →
  address (mkReader (drop (length buf) (put_address buf a) ++ tl)) = (Ok a, mkReader tl).
Proof.
  intros Ha.
  assert (∃ a16 family, length a16 = 16%nat ∧ unsigned 16 family ∧
    put_address buf a = buf ++ a16 ++ to_be_bytes 2 family ++ [x00; x00] ∧
    match a with
    | Unspecified => family = FAMILY_NONE
    | V4 ip => family = FAMILY_IPV4 ∧ take 4 a16 = ip
    | V6 ip => family = FAMILY_IPV6 ∧ a16 = ip
    | Id id => family = FAMILY_ID ∧ take 4 a16 = to_be_bytes 4 id
    end) as (a16 & family & Hl & Hf & Hp & Hc).
  { destruct a; simpl in Ha; eexists _, _; (split; [|split; [|split; [reflexivity|]]]); try done;
      unfold in_first_four; rewrite ?length_app, ?length_to_be_bytes, ?Ha; try done.
    all: split; [done|]; apply take_app_length'; by rewrite ?length_to_be_bytes. }
  rewrite Hp, drop_app_length. rewrite <- !app_assoc. set (d := a16 ++ _).
  destruct (address_body a16 family tl Hl Hf) as (H16 & Hall & H4). fold d in H16, Hall, H4.
  pose proof (address_reads d 0) as Hr. unfold reads_at, cursor in Hr. rewrite drop_0 in Hr. rewrite Hr.
  2: { subst d. rewrite !length_app, length_to_be_bytes, Hl. simpl. lia. }
  assert (drop (0 + 20) d = tl) as ->.
  { subst d. rewrite (app_assoc a16), (app_assoc (a16 ++ _)). apply drop_app_length'.
    rewrite !length_app, length_to_be_bytes, Hl. done. }
  f_equal. unfold address_at. change (0 + 16)%nat with 16%nat. rewrite H16, Hall. unfold u32_at. rewrite H4.
  destruct a as [|ip'|ip'|id]; simpl in Ha.
  - by rewrite Hc.
  - by destruct Hc as [-> ->].
  - by destruct Hc as [-> ->].
  - destruct Hc as [-> ->]. cbn -[from_be_bytes]. rewrite from_to_be_bytes. by rewrite wrap_small.
Qed.

(** The 32-bit floats of chronyd's protocol: [float] of [wire.rs] is exact, the
    product it computes in [f64] never rounds. *)

(** The two fields: a 7-bit exponent over a 25-bit coefficient, both signed. *)
Definition float_exp (raw : Z) : Z := swrap 7 (raw / 2 ^ 25).
Definition float_coef (raw : Z) : Z := swrap 25 raw.

(** [f] is [z * 2^k] exactly.  Every exponent in play is above -2000. *)
Definition represents (f : f64) (z k : Z) : Prop :=
  match f with
  | S754_zero _ => z = 0
  | S754_finite s m e => (if s then Zneg m else Zpos m) * 2 ^ (e + 2000) = z * 2 ^ (k + 2000)
  | _ => False
  end.

(** ** The fields *)
Lemma float_exp_shift raw : unsigned 32 raw → Z.shiftr (swrap 32 raw) 25 = float_exp raw.
Proof.
  unfold unsigned, float_exp, swrap. intros Hr. rewrite Z.shiftr_div_pow2 by lia.
  change (2 ^ 32) with 4294967296 in *. change (2 ^ (32 - 1)) with 2147483648.
  change (2 ^ (7 - 1)) with 64. change (2 ^ 7) with 128. change (2 ^ 25) with 33554432.
  destruct (decide (raw < 2147483648)) as [Hl|Hl].
  - rewrite (Z.mod_small (raw + _)) by lia. replace (raw + 2147483648 - 2147483648) with raw by lia.
    pose proof (Z.div_pos raw 33554432). assert (raw / 33554432 < 64) by (apply Z.div_lt_upper_bound; lia).
    rewrite Z.mod_small by lia. lia.
  - replace (raw + 2147483648) with (raw - 2147483648 + 1 * 4294967296) by lia.
    rewrite Z.mod_add, Z.mod_small by lia.
    replace (raw - 2147483648 - 2147483648) with (raw + (-128) * 33554432) by lia. rewrite Z.div_add by lia.
    assert (64 ≤ raw / 33554432) by (apply Z.div_le_lower_bound; lia).
    assert (raw / 33554432 < 128) by (apply Z.div_lt_upper_bound; lia).
    replace (raw / 33554432 + 64) with (raw / 33554432 - 64 + 1 * 128) by lia.
    rewrite Z.mod_add, Z.mod_small by lia. lia.
Qed.

Lemma float_coef_shift raw :
  Z.shiftr (swrap 32 (wrap 32 (Z.shiftl raw 7))) 7 = float_coef raw.
Proof.
  unfold float_coef, swrap, wrap. rewrite Z.shiftr_div_pow2, Z.shiftl_mul_pow2 by lia.
  change (2 ^ 32) with (33554432 * 128). change (2 ^ (32 - 1)) with (16777216 * 128).
  change (2 ^ (25 - 1)) with 16777216. change (2 ^ 25) with 33554432. change (2 ^ 7) with 128.
  rewrite Z.mul_mod_distr_r, <- Z.mul_add_distr_r, Z.mul_mod_distr_r by lia.
  rewrite Z.add_mod_idemp_l by lia. rewrite <- Z.mul_sub_distr_r. by rewrite Z.div_mul by lia.
Qed.

Lemma float_exp_range raw : -64 ≤ float_exp raw < 64.
Proof. exact (swrap_range 7 (raw / 2 ^ 25) ltac:(lia)). Qed.
Lemma float_coef_range raw : -16777216 ≤ float_coef raw < 16777216.
Proof. exact (swrap_range 25 raw ltac:(lia)). Qed.

(** ** The factors *)
Lemma pow2_bits n : -89 ≤ n ≤ 38 → pow2 n = S754_finite false 4503599627370496 (n - 52).
Proof.
  intros Hn.
  assert (Forall (λ n, pow2 n = S754_finite false 4503599627370496 (n - 52)) (seqZ (-89) 128)) as H
    by (repeat constructor).
  rewrite Forall_forall in H. apply H, elem_of_seqZ. lia.
Qed.

Lemma digits_iter (n m : positive) : digits2_pos (Pos.iter xO m n) = (digits2_pos m + n)%positive.
Proof.
  induction n as [|n IH] using Pos.peano_ind; simpl; [lia|].
  rewrite Pos.iter_succ. simpl. rewrite IH. lia.
Qed.

Lemma iter_shift (n m : positive) : Zpos (Pos.iter xO m n) = Zpos m * 2 ^ Zpos n.
Proof.
  induction n as [|n IH] using Pos.peano_ind; simpl; [lia|].
  rewrite Pos.iter_succ, Pos2Z.inj_xO, IH, Pos2Z.inj_succ, Z.pow_succ_r by lia. lia.
Qed.

(** A mantissa of 53 digits is left alone. *)
Lemma round_53 s m e : digits2_pos m = 53%positive → -1074 ≤ e ≤ 971 →
  binary_round_aux 53 1024 s (Zpos m) e loc_Exact = S754_finite s m e.
Proof.
  intros Hd He. unfold binary_round_aux, shr_fexp, Zdigits2, fexp, emin. rewrite Hd.
  replace (Z.max (53 + e - 53) (3 - 1024 - 53) - e) with 0 by lia. simpl shr. cbn [shr_m shr_record_of_loc].
  cbn [loc_of_shr_record shr_r shr_s round_nearest_even]. rewrite Hd.
  replace (Z.max (53 + e - 53) (3 - 1024 - 53) - e) with 0 by lia. simpl.
  destruct (Z.leb_spec e (1024 - 53)); [done|lia].
Qed.

(** [f64::from(i32)] of a number of at most 25 digits. *)
Lemma from_i32_pos s m : (digits2_pos m < 53)%positive →
  let d := (53 - digits2_pos m)%positive in
  binary_round 53 1024 s m 0 = S754_finite s (Pos.iter xO m d) (- Zpos d).
Proof.
  intros Hm d. unfold binary_round, shl_align, fexp, emin.
  replace (Z.max (Zpos (digits2_pos m) + 0 - 53) (3 - 1024 - 53) - 0) with (Zneg d) by (subst d; lia).
  replace (Z.max (Zpos (digits2_pos m) + 0 - 53) (3 - 1024 - 53)) with (Zneg d) by (subst d; lia).
  cbv beta iota zeta.
  apply round_53; [rewrite digits_iter; subst d; lia|subst d; lia].
Qed.

(** Times a power of two. *)
Lemma mul_pow2 s m e n : digits2_pos m = 53%positive → -1074 ≤ e + n ≤ 971 → 
  f64_mul (S754_finite s m e) (S754_finite false 4503599627370496 (n - 52)) = S754_finite s m (e + n).
Proof.
  intros Hd He. unfold f64_mul, SFmul. rewrite xorb_false_r, Pos.mul_comm.
  change (4503599627370496 * m)%positive with (Pos.iter xO m 52).
  unfold binary_round_aux, shr_fexp at 1, Zdigits2, fexp, emin. rewrite digits_iter, Hd.
  replace (Z.max (Zpos (53 + 52) + (e + (n - 52)) - 53) (3 - 1024 - 53) - (e + (n - 52))) with 52 by lia.
  assert (shr (shr_record_of_loc (Zpos (Pos.iter xO m 52)) loc_Exact) (e + (n - 52)) 52
          = (Build_shr_record (Zpos m) false false, e + (n - 52) + 52)) as -> by reflexivity.
  replace (e + (n - 52) + 52) with (e + n) by lia.
  cbn [loc_of_shr_record shr_m shr_r shr_s round_nearest_even].
  unfold shr_fexp, Zdigits2, fexp, emin. rewrite Hd.
  replace (Z.max (53 + (e + n) - 53) (3 - 1024 - 53) - (e + n)) with 0 by lia. simpl.
  destruct (Z.leb_spec (e + n) (1024 - 53)); [done|lia].
Qed.

Lemma digits_25 m : Zpos m ≤ 16777216 → (digits2_pos m < 53)%positive.
Proof.
  intros Hm. assert (∀ p, 2 ^ (Zpos (digits2_pos p) - 1) ≤ Zpos p) as Hd.
  { induction p as [p IH|p IH|]; simpl digits2_pos; [| |done];
      rewrite Pos2Z.inj_succ; replace (Z.succ (Zpos (digits2_pos p)) - 1) with (Z.succ (Zpos (digits2_pos p) - 1)) by lia;
      rewrite Z.pow_succ_r by lia; lia. }
  specialize (Hd m). destruct (decide (digits2_pos m < 53)%positive) as [|Hge]; [done|].
  assert (2 ^ 52 ≤ 2 ^ (Zpos (digits2_pos m) - 1)) by (apply Z.pow_le_mono_r; lia).
  change (2 ^ 52) with 4503599627370496 in *. lia.
Qed.

Lemma float_represents raw : unsigned 32 raw →
  represents (float raw) (float_coef raw) (float_exp raw - 25).
Proof.
  intros Hr. unfold float. rewrite float_exp_shift, float_coef_shift by done.
  pose proof (float_exp_range raw) as He. pose proof (float_coef_range raw) as Hc.
  rewrite pow2_bits by lia. unfold f64_from_i32, binary_normalize.
  destruct (float_coef raw) as [|m|m] eqn:Hm; [done| |];
    (pose proof (digits_25 m ltac:(lia)) as Hd; rewrite from_i32_pos by done;
     rewrite mul_pow2 by (rewrite ?digits_iter; lia); unfold represents).
  - rewrite iter_shift. set (d := (53 - digits2_pos m)%positive).
    replace (float_exp raw - 25 + 2000) with (Zpos d + (- Zpos d + (float_exp raw - 25) + 2000)) by lia.
    rewrite (Z.pow_add_r 2 (Zpos d) (- Zpos d + (float_exp raw - 25) + 2000)) by (subst d; lia). ring.
  - set (d := (53 - digits2_pos m)%positive). rewrite <- Pos2Z.opp_pos, iter_shift, <- Pos2Z.opp_pos.
    replace (float_exp raw - 25 + 2000) with (Zpos d + (- Zpos d + (float_exp raw - 25) + 2000)) by lia.
    rewrite (Z.pow_add_r 2 (Zpos d) (- Zpos d + (float_exp raw - 25) + 2000)) by (subst d; lia). ring.
Qed.
