(* ===== verification/ChronyRequest.v ===== *)
(** Requests and replies of [truenas_chrony] without I/O ([request.rs]): the
    datagram a request is, and what a received datagram is to it. *)
From S2P Require Import Prelude Chrony ChronyReports ChronyLayout.
Local Open Scope Z_scope.

(* SRC truenas_chrony/src/request.rs struct Request *)
Record Request (T : Type) : Type := mkRequest {
  command : Z;
  sequence : Z;
  as_bytes : bytes;
  decode_data : Z → bytes → Result T
}.
Arguments mkRequest {T} _ _ _ _.
Arguments command {T} _.
Arguments sequence {T} _.
Arguments as_bytes {T} _.
Arguments decode_data {T} _ _ _.

(* SRC truenas_chrony/src/request.rs enum Verdict *)
Inductive Verdict (T : Type) : Type :=
| Unrelated
| Answer (r : Result T).
Arguments Unrelated {T}.
Arguments Answer {T} r.

(** [Vec::resize(n, 0)]. *)
Definition resize (n : Z) (bs : bytes) : bytes :=
  take (Z.to_nat n) bs ++ replicate (Z.to_nat n - length bs) x00.

(** The length a request is padded to: its reply's. *)
(* SRC truenas_chrony/src/request.rs L 34-34 build *)
Definition request_len T `{!Layout T} : Z := REPLY_HEADER + LEN T.

(* SRC truenas_chrony/src/request.rs fn build *)
Definition build T `{!Layout T} (data : bytes) (sequence : Z) : Request T :=
  let bs := [byte_of VERSION; byte_of TYPE_REQUEST; x00; x00] in
  let bs := bs ++ to_be_bytes 2 (COMMAND T) in
  let bs := bs ++ [x00; x00] in
  let bs := bs ++ to_be_bytes 4 sequence in
  let bs := bs ++ replicate 8 x00 in
  let bs := bs ++ data in
  mkRequest (COMMAND T) sequence (resize (request_len T) bs) (decode T).

(** The condition of [build]'s [debug_assert!]. *)
(* SRC truenas_chrony/src/request.rs L 35-35 build *)
Definition build_fits T `{!Layout T} (data : bytes) : Prop :=
  REQUEST_HEADER + len data ≤ request_len T.

(* SRC truenas_chrony/src/request.rs fn about *)
Definition about T `{!Layout T} (address : Address) (sequence : Z) : Request T :=
  build T (put_address [] address) sequence.

(* SRC truenas_chrony/src/request.rs fn tracking *)
Definition tracking (sequence : Z) : Request Tracking := build Tracking [] sequence.
(* SRC truenas_chrony/src/request.rs fn source_count *)
Definition source_count (sequence : Z) : Request Z := build Z [] sequence.
(* SRC truenas_chrony/src/request.rs fn source *)
Definition source (index sequence : Z) : Request Source := build Source (to_be_bytes 4 index) sequence.
(* SRC truenas_chrony/src/request.rs fn selection *)
Definition selection (index sequence : Z) : Request Selection :=
  build Selection (to_be_bytes 4 index) sequence.
(* SRC truenas_chrony/src/request.rs fn authentication *)
Definition authentication (address : Address) (sequence : Z) : Request Authentication :=
  about Authentication address sequence.

(** [self.bytes[6..8].copy_from_slice(...)]. *)
(* SRC truenas_chrony/src/request.rs fn with_attempt *)
Definition with_attempt {T} (r : Request T) (attempt : Z) : Request T :=
  mkRequest r.(command) r.(sequence)
    (take 6 r.(as_bytes) ++ to_be_bytes 2 attempt ++ drop 8 r.(as_bytes)) r.(decode_data).

(* SRC truenas_chrony/src/request.rs L 115-150 decode *)
Definition request_decode {T} (r : Request T) (datagram : bytes) : Verdict T :=
  if len datagram <? REPLY_HEADER then Unrelated else
  let header := take (Z.to_nat REPLY_HEADER) datagram in
  let data := drop (Z.to_nat REPLY_HEADER) datagram in
  let version := u8_at header 0 in
  let command' := u16_at header 4 in
  let reply := u16_at header 6 in
  let status := u16_at header 8 in
  let sequence' := u32_at header 16 in
  let mismatch := negb (version =? VERSION) && (OLDEST_MISMATCH_VERSION <=? version)
                  && (status =? STATUS_BAD_VERSION) in
  if (negb (version =? VERSION) && negb mismatch)
     || negb (u8_at header 1 =? TYPE_REPLY)
     || negb (u8_at header 2 =? 0)
     || negb (u8_at header 3 =? 0)
     || negb (command' =? r.(command))
     || negb (sequence' =? r.(sequence))
  then Unrelated
  else Answer (if mismatch then Err (Version version)
               else if negb (status =? STATUS_OK) then Err (StatusError (Status_from_code status))
               else r.(decode_data) reply data).

(** ** The datagram *)
Definition request_header (command attempt sequence : Z) : bytes :=
  [byte_of VERSION; byte_of TYPE_REQUEST; x00; x00] ++ to_be_bytes 2 command ++ to_be_bytes 2 attempt
  ++ to_be_bytes 4 sequence ++ replicate 8 x00.

Lemma length_request_header c a s : length (request_header c a s) = 20%nat.
Proof. unfold request_header. rewrite !length_app, !length_to_be_bytes. done. Qed.

Lemma to_be_bytes_2_0 : to_be_bytes 2 0 = [x00; x00].
Proof. by vm_compute. Qed.

(** A request is its header, its data, and zeros up to its reply's length. *)
Lemma build_bytes T `{!Layout T} data seq : build_fits T data →
  as_bytes (build T data seq)
  = request_header (COMMAND T) 0 seq ++ data
    ++ replicate (Z.to_nat (request_len T) - 20 - length data) x00.
Proof.
  intros Hf. unfold build_fits, REQUEST_HEADER in Hf. unfold build. cbn [as_bytes].
  assert (∀ a b c d e f : bytes, ((((a ++ b) ++ c) ++ d) ++ e) ++ f = (a ++ b ++ c ++ d ++ e) ++ f) as ->
    by (intros; by rewrite <- !app_assoc).
  assert ([byte_of VERSION; byte_of TYPE_REQUEST; x00; x00] ++ to_be_bytes 2 (COMMAND T) ++ [x00; x00]
    ++ to_be_bytes 4 seq ++ replicate 8 x00 = request_header (COMMAND T) 0 seq) as ->
    by (unfold request_header; by rewrite to_be_bytes_2_0).
  unfold resize.
  rewrite take_ge by (rewrite length_app, length_request_header; lia).
  rewrite length_app, length_request_header, <- app_assoc. do 3 f_equal. lia.
Qed.

Lemma request_len_nonneg T `{!Layout T} data : build_fits T data → 20 ≤ request_len T.
Proof. unfold build_fits, REQUEST_HEADER. lia. Qed.

Lemma build_length T `{!Layout T} data seq : build_fits T data →
  len (as_bytes (build T data seq)) = request_len T.
Proof.
  intros Hf. pose proof (request_len_nonneg T data Hf). unfold build_fits, REQUEST_HEADER in Hf.
  rewrite build_bytes by done. rewrite !length_app, length_request_header, length_replicate. lia.
Qed.

(** Marking the attempt changes the attempt and nothing else. *)
Lemma with_attempt_bytes T `{!Layout T} data seq k : build_fits T data →
  as_bytes (with_attempt (build T data seq) k)
  = request_header (COMMAND T) k seq ++ data
    ++ replicate (Z.to_nat (request_len T) - 20 - length data) x00.
Proof.
  intros Hf. unfold with_attempt. cbn [as_bytes]. rewrite build_bytes by done.
  set (tl := data ++ _). unfold request_header. rewrite <- !app_assoc.
  set (h := [byte_of VERSION; byte_of TYPE_REQUEST; x00; x00]).
  rewrite (app_assoc h).
  rewrite take_app_length' by (rewrite length_app, length_to_be_bytes; done).
  rewrite <- app_assoc. do 3 f_equal.
Qed.

(** ** The reply *)

(** The header of a reply, as chronyd writes it. *)
Definition reply_header (version command reply status sequence : Z) : bytes :=
  [byte_of version; byte_of TYPE_REPLY; x00; x00] ++ to_be_bytes 2 command ++ to_be_bytes 2 reply
  ++ to_be_bytes 2 status ++ replicate 6 x00 ++ to_be_bytes 4 sequence ++ replicate 8 x00.

Lemma length_reply_header v c r st s : length (reply_header v c r st s) = 28%nat.
Proof. unfold reply_header. rewrite !length_app, !length_to_be_bytes. done. Qed.

Lemma field_at (pre f post : bytes) o n : length pre = o → length f = n → bytes_at (pre ++ f ++ post) o n = f.
Proof. intros <- <-. unfold bytes_at. by rewrite drop_app_length, take_app_length. Qed.

Lemma u8_byte v : unsigned 8 v → from_be_bytes [byte_of v] = v.
Proof.
  intros Hv. pose proof (from_to_be_bytes 1 v) as H. rewrite wrap_small in H by done. rewrite <- H at 2.
  f_equal.
Qed.

Lemma reply_header_fields v c r st s : unsigned 8 v → unsigned 16 c → unsigned 16 r → unsigned 16 st →
  unsigned 32 s →
  let h := reply_header v c r st s in
  u8_at h 0 = v ∧ u8_at h 1 = TYPE_REPLY ∧ u8_at h 2 = 0 ∧ u8_at h 3 = 0 ∧ u16_at h 4 = c ∧
  u16_at h 6 = r ∧ u16_at h 8 = st ∧ u32_at h 16 = s.
Proof.
  intros Hv Hc Hr Hst Hs h. unfold u8_at, u16_at, u32_at. subst h. unfold reply_header.
  assert (∀ n z, unsigned (8 * Z.of_nat n) z → from_be_bytes (to_be_bytes n z) = z) as Hz.
  { intros n z Hz. rewrite from_to_be_bytes. by apply wrap_small. }
  set (h := [byte_of v; byte_of TYPE_REPLY; x00; x00]).
  assert (∀ o x tl, (o < 4)%nat → h !! o = Some x → bytes_at (h ++ tl) o 1 = [x]) as Hh.
  { intros o x tl Ho Hx. unfold bytes_at. rewrite drop_app_le by (simpl; lia).
    apply drop_S in Hx. rewrite Hx. done. }
  rewrite (Hh 0%nat (byte_of v)), (Hh 1%nat (byte_of TYPE_REPLY)), (Hh 2%nat x00), (Hh 3%nat x00) by (done || lia).
  rewrite u8_byte by done. split; [done|]. split; [by vm_compute|]. split; [by vm_compute|]. split; [by vm_compute|].
  assert (length h = 4%nat) as Hl by done. clearbody h. rewrite (field_at h _ _ 4 2), Hz by done || (rewrite ?length_to_be_bytes; done).
  split; [done|]. rewrite (app_assoc h).
  rewrite (field_at (h ++ _) _ _ 6 2) by (rewrite ?length_app, ?length_to_be_bytes, ?Hl; done). rewrite Hz by done.
  split; [done|]. rewrite (app_assoc (h ++ _)).
  rewrite (field_at ((h ++ _) ++ _) _ _ 8 2) by (rewrite ?length_app, ?length_to_be_bytes, ?Hl; done). rewrite Hz by done.
  split; [done|]. rewrite (app_assoc ((h ++ _) ++ _)), (app_assoc (((h ++ _) ++ _) ++ _)).
  rewrite (field_at ((((h ++ _) ++ _) ++ _) ++ _) _ _ 16 4) by (rewrite ?length_app, ?length_to_be_bytes, ?Hl; done).
  by rewrite Hz.
Qed.

Section Verdict.
Context {T : Type} (r : Request T).

(** A datagram with a reply header, whatever follows it. *)
Lemma request_decode_reply v c reply st s data :
  unsigned 8 v → unsigned 16 c → unsigned 16 reply → unsigned 16 st → unsigned 32 s →
  request_decode r (reply_header v c reply st s ++ data)
  = if decide (c = r.(command) ∧ s = r.(sequence)) then
      if v =? VERSION then
        Answer (if st =? STATUS_OK then r.(decode_data) reply data
                else Err (StatusError (Status_from_code st)))
      else if (OLDEST_MISMATCH_VERSION <=? v) && (st =? STATUS_BAD_VERSION) then Answer (Err (Version v))
      else Unrelated
    else Unrelated.
Proof using Type.
  intros Hv Hc Hr Hst Hs. unfold request_decode.
  destruct (Z.ltb_spec (len (reply_header v c reply st s ++ data)) REPLY_HEADER) as [Hl|_].
  { rewrite length_app, length_reply_header in Hl. unfold REPLY_HEADER in Hl. lia. }
  change (Z.to_nat REPLY_HEADER) with 28%nat.
  rewrite take_app_length', drop_app_length' by (by rewrite length_reply_header).
  destruct (reply_header_fields v c reply st s Hv Hc Hr Hst Hs) as (-> & -> & -> & -> & -> & -> & -> & ->).
  rewrite !Z.eqb_refl. cbn [negb orb].
  destruct (Z.eqb_spec v VERSION) as [->|Hne]; cbn [negb andb orb].
  - case_decide as Hcs; [destruct Hcs as [-> ->]; rewrite !Z.eqb_refl; by destruct (st =? STATUS_OK)|].
    destruct (Z.eqb_spec c (command r)), (Z.eqb_spec s (sequence r)); try done. by destruct Hcs.
  - destruct ((OLDEST_MISMATCH_VERSION <=? v) && (st =? STATUS_BAD_VERSION)) eqn:Hm; cbn [negb orb].
    + case_decide as Hcs; [destruct Hcs as [-> ->]; by rewrite !Z.eqb_refl|].
      destruct (Z.eqb_spec c (command r)), (Z.eqb_spec s (sequence r)); try done. by destruct Hcs.
    + by case_decide.
Qed.

(** Whatever is answered echoed the request. *)
Lemma request_decode_echo datagram a : request_decode r datagram = Answer a →
  28 ≤ len datagram ∧ u16_at datagram 4 = r.(command) ∧ u32_at datagram 16 = r.(sequence) ∧
  u8_at datagram 1 = TYPE_REPLY ∧ OLDEST_MISMATCH_VERSION ≤ u8_at datagram 0 ∧
  match a with
  | Ok v => u8_at datagram 0 = VERSION ∧ u16_at datagram 8 = STATUS_OK ∧
            r.(decode_data) (u16_at datagram 6) (drop 28 datagram) = Ok v
  | _ => True
  end.
Proof using Type.
  unfold request_decode. destruct (Z.ltb_spec (len datagram) REPLY_HEADER) as [|Hl]; [done|].
  change (Z.to_nat REPLY_HEADER) with 28%nat.
  assert (∀ o n, (o + n ≤ 28)%nat → bytes_at (take 28 datagram) o n = bytes_at datagram o n) as Hat.
  { intros o n Ho. unfold bytes_at. rewrite skipn_firstn_comm, take_take. f_equal. lia. }
  unfold u8_at, u16_at, u32_at. rewrite !Hat by lia.
  fold (u8_at datagram 0) (u8_at datagram 1) (u8_at datagram 2) (u8_at datagram 3) (u16_at datagram 4)
    (u16_at datagram 6) (u16_at datagram 8) (u32_at datagram 16).
  destruct (Z.eqb_spec (u8_at datagram 1) TYPE_REPLY); cbn [negb orb]; [|by rewrite orb_true_r].
  destruct (u8_at datagram 2 =? 0); cbn [negb orb]; [|by rewrite !orb_true_r].
  destruct (u8_at datagram 3 =? 0); cbn [negb orb]; [|by rewrite !orb_true_r].
  destruct (Z.eqb_spec (u16_at datagram 4) (command r)); cbn [negb orb]; [|by rewrite !orb_true_r].
  destruct (Z.eqb_spec (u32_at datagram 16) (sequence r)); cbn [negb orb]; [|by rewrite !orb_true_r].
  rewrite !orb_false_r. unfold REPLY_HEADER in Hl.
  destruct (Z.eqb_spec (u8_at datagram 0) VERSION) as [Hv|Hv]; cbn [negb andb].
  - intros [= <-]. rewrite Hv. do 4 (split; [done|]). split; [done|].
    destruct (Z.eqb_spec (u16_at datagram 8) STATUS_OK) as [Hok|]; cbn [negb]; [|done].
    by destruct (decode_data r _ _) eqn:Hd.
  - destruct (Z.leb_spec OLDEST_MISMATCH_VERSION (u8_at datagram 0)); cbn [andb negb]; [|done].
    destruct (u16_at datagram 8 =? STATUS_BAD_VERSION); cbn [andb negb]; [|done].
    intros [= <-]. done.
Qed.
End Verdict.

(** The requests the crate makes fit their datagrams. *)
Lemma requests_fit idx a : address_ok a →
  build_fits Tracking [] ∧ build_fits Z [] ∧ build_fits Source (to_be_bytes 4 idx) ∧
  build_fits Selection (to_be_bytes 4 idx) ∧ build_fits Authentication (put_address [] a).
Proof.
  intros Ha. unfold build_fits, REQUEST_HEADER, request_len, REPLY_HEADER. rewrite len_u32.
  refine (conj _ (conj _ (conj _ (conj _ _)))); try (cbn; lia).
  assert (length (put_address [] a) = 20%nat) as ->; [|cbn; lia].
  destruct a; simpl in Ha; unfold put_address, in_first_four;
    rewrite ?length_app, ?length_to_be_bytes, ?Ha; done.
Qed.
