(* ===== verification/ChronyClient.v ===== *)
(** [truenas_chrony]'s client ([client.rs]): the exchange of one request for
    its reply, with its retries and deadlines, and the walk of the source list.

    What the client asks of the operating system is the interface [Os]: the
    random device, the clock and the datagram socket.  The directory a reply
    socket is bound in is not modelled, except for the test on file names and
    the choice of the stale ones. *)
From S2P Require Import Prelude Chrony ChronyReports ChronyLayout ChronyRequest.
Local Open Scope Z_scope.

(** Durations and instants are in nanoseconds. *)
Definition DURATION_MAX : Z := 2 ^ 64 * NSEC_PER_SEC - 1.
Definition INSTANT_MAX : Z := 2 ^ 63 * NSEC_PER_SEC - 1.
Definition MILLISECOND : Z := 1000000.

(** The calls of the client. *)
Class Os (W : Type) : Type := {
  read_exact : Z → St W IoKind bytes;               (** of [/dev/urandom] *)
  now : W → Z * W;                                  (** [Instant::now] *)
  set_write_timeout : Z → St W IoKind unit;
  send : bytes → St W IoKind unit;
  set_read_timeout : option Z → St W IoKind unit;
  recv : Z → St W IoKind bytes                      (** into a buffer of that size *)
}.

(* SRC truenas_chrony/src/client.rs const RECV_BUF *)
Definition RECV_BUF : Z := 1024.
(* SRC truenas_chrony/src/client.rs const SOURCE_WALKS *)
Definition SOURCE_WALKS : nat := 3.

(** The fields of a client that a call reads. *)
(* SRC truenas_chrony/src/client.rs struct Client *)
Record Client : Type := mkClient { timeout : Z; attempts : Z }.

(* SRC truenas_chrony/src/client.rs L 88-94 connect_in *)
Definition connected : Client := mkClient NSEC_PER_SEC 3.

(* SRC truenas_chrony/src/client.rs fn set_timeout *)
Definition set_timeout (c : Client) (t : Z) : Client := mkClient (Z.max t MILLISECOND) c.(attempts).
(* SRC truenas_chrony/src/client.rs fn set_attempts *)
Definition set_attempts (c : Client) (n : Z) : Client := mkClient c.(timeout) (Z.max n 1).

(* SRC truenas_chrony/src/client.rs fn timed_out *)
Definition timed_out (e : IoKind) : bool :=
  match e with WouldBlock | TimedOut => true | _ => false end.

(** [wait.saturating_mul(2)]. *)
(* SRC truenas_chrony/src/client.rs L 210-210 exchange *)
Definition doubled (wait : Z) : Z := Z.min (wait * 2) DURATION_MAX.

(** [Instant::checked_add]. *)
Definition instant_add (t d : Z) : option Z := if t + d <=? INSTANT_MAX then Some (t + d) else None.

(** [u32::from_ne_bytes], on a little-endian machine. *)
Definition from_ne_bytes (bs : bytes) : Z := from_le_bytes bs.

(** [u16::try_from(attempt).unwrap_or(u16::MAX)]. *)
(* SRC truenas_chrony/src/client.rs L 175-175 exchange *)
Definition attempt_u16 (k : Z) : Z := default 65535 (try_unsigned 16 k).

Section Client.
Context {W : Type} `{!Os W}.

(** Run a call and look at its result, errors included. *)
Definition attempt {A} (m : St W IoKind A) : St W Error (Outcome A IoKind) := λ w,
  let '(r, w) := m w in (Ok r, w).
(** [m?], an I/O error becoming the crate's. *)
Definition io {A} (m : St W IoKind A) : St W Error A := λ w,
  let '(r, w) := m w in (map_err Io r, w).
Definition clock : St W Error Z := λ w, let '(t, w) := now w in (Ok t, w).

(** The inner [loop]: [None] is a [break]. *)
(* SRC truenas_chrony/src/client.rs L 187-211 exchange *)
Fixpoint await_reply {T} (fuel : nat) (request : Request T) (deadline : option Z) :
    St W Error (option (Result T)) :=
  match fuel with
  | O => halt OutOfFuel
  | S fuel =>
      time_left ← match deadline with
             | Some deadline =>
                 t ← clock;
                 mret (if t <? deadline then Some (Some (deadline - t)) else None)
             | None => mret (Some None)
             end;
      match time_left with
      | None => mret None
      | Some time_left =>
          io (set_read_timeout time_left);;
          r ← attempt (recv RECV_BUF);
          match r with
          | Ok datagram =>
              match request_decode request datagram with
              | Answer answer => mret (Some answer)
              | Unrelated => await_reply fuel request deadline
              end
          | Err Interrupted => await_reply fuel request deadline
          | Err e => if timed_out e then mret None else fail (Io e)
          | Stop w => halt w
          end
      end
  end.

(** The outer loop, at attempt [k] with [togo] attempts to go. *)
(* SRC truenas_chrony/src/client.rs fn exchange *)
Fixpoint exchange_from {T} (fuel : nat) (make : Z → Request T) (togo : nat) (k wait : Z) :
    St W Error T :=
  match togo with
  | O => fail Timeout
  | S togo =>
      sequence ← io (read_exact 4);
      let request := with_attempt (make (from_ne_bytes sequence)) (attempt_u16 k) in
      t ← clock;
      let deadline := instant_add t wait in
      io (set_write_timeout wait);;
      sent ← attempt (send request.(as_bytes));
      match sent with
      | Ok _ =>
          answer ← await_reply fuel request deadline;
          match answer with
          | Some answer => lift answer
          | None => exchange_from fuel make togo (k + 1) (doubled wait)
          end
      | Err e =>
          if timed_out e then exchange_from fuel make togo (k + 1) (doubled wait) else fail (Io e)
      | Stop w => halt w
      end
  end.

(* SRC truenas_chrony/src/client.rs L 168-213 exchange *)
Definition exchange {T} (fuel : nat) (self : Client) (make : Z → Request T) : St W Error T :=
  exchange_from fuel make (Z.to_nat self.(attempts)) 0 self.(timeout).

(* SRC truenas_chrony/src/client.rs fn tracking *)
Definition client_tracking (fuel : nat) (self : Client) : St W Error Tracking := exchange fuel self tracking.
(* SRC truenas_chrony/src/client.rs fn source_count *)
Definition client_source_count (fuel : nat) (self : Client) : St W Error Z :=
  exchange fuel self source_count.
(* SRC truenas_chrony/src/client.rs fn source *)
Definition client_source (fuel : nat) (self : Client) (index : Z) : St W Error Source :=
  exchange fuel self (source index).
(* SRC truenas_chrony/src/client.rs fn selection *)
Definition client_selection (fuel : nat) (self : Client) (index : Z) : St W Error Selection :=
  exchange fuel self (selection index).
(* SRC truenas_chrony/src/client.rs fn authentication *)
Definition client_authentication (fuel : nat) (self : Client) (address : Address) :
    St W Error Authentication := exchange fuel self (authentication address).
End Client.

(** ** The source list

    Over any daemon state [W] that answers the two requests. *)
Section Sources.
Context {W S : Type} (count : St W Error Z) (get_source : Z → St W Error S).

(** [for index in 0..count]: [Some] the sources of a whole walk, [None] when the
    daemon ran out of sources first. *)
(* SRC truenas_chrony/src/client.rs L 133-144 sources *)
Fixpoint walk (n : nat) (index : Z) : St W Error (option (list S)) := λ w,
  match n with
  | O => (Ok (Some []), w)
  | Datatypes.S n =>
      match get_source index w with
      | (Ok s, w) =>
          match walk n (index + 1) w with
          | (Ok (Some l), w) => (Ok (Some (s :: l)), w)
          | r => r
          end
      | (Err (StatusError NoSuchSource), w) => (Ok None, w)
      | (Err e, w) => (Err e, w)
      | (Stop x, w) => (Stop x, w)
      end
  end.

(* SRC truenas_chrony/src/client.rs fn sources *)
Fixpoint sources_in (walks : nat) : St W Error (list S) :=
  match walks with
  | O => fail Changed
  | Datatypes.S walks =>
      n ← count;
      walked ← walk (Z.to_nat n) 0;
      match walked with
      | Some sources =>
          n' ← count;
          if n' =? n then mret sources else sources_in walks
      | None => sources_in walks
      end
  end.

(* SRC truenas_chrony/src/client.rs L 130-150 sources *)
Definition sources : St W Error (list S) := sources_in SOURCE_WALKS.
End Sources.

(* SRC truenas_chrony/src/client.rs fn sources *)
Definition client_sources {W} `{!Os W} (fuel : nat) (self : Client) : St W Error (list Source) :=
  sources (client_source_count fuel self) (client_source fuel self).

(** ** Stale reply sockets *)
Definition is_hexdigit (b : Byte.byte) : bool :=
  let z := byte_val b in
  ((48 <=? z) && (z <=? 57)) || ((65 <=? z) && (z <=? 70)) || ((97 <=? z) && (z <=? 102)).

(** [.sock]. *)
Definition SOCK : bytes := [x2e; x73; x6f; x63; x6b].

Definition strip_suffix (suffix name : bytes) : option bytes :=
  let n := (length name - length suffix)%nat in
  if decide (length suffix ≤ length name ∧ drop n name = suffix)%nat then Some (take n name) else None.

(* SRC truenas_chrony/src/client.rs fn is_reply_name *)
Definition is_reply_name (name : bytes) : bool :=
  match strip_suffix SOCK name with
  | Some tag => (length tag =? 16)%nat && forallb is_hexdigit tag
  | None => false
  end.

(** A directory entry: its name, whether its type is known to be a socket's,
    whether a probe socket could be made for it, and what connecting that to
    the entry gives. *)
Record Entry : Type := mkEntry {
  file_name : bytes;
  file_type_is_socket : Outcome bool IoKind;
  probe : Outcome unit IoKind;
  connect : Outcome unit IoKind
}.

Definition refused (o : Outcome unit IoKind) : bool :=
  match o with Err e => bool_decide (e = OtherIo "connection refused") | _ => false end.

(* SRC truenas_chrony/src/client.rs L 276-282 sweep *)
Definition stale (e : Entry) : bool :=
  default false (ok e.(file_type_is_socket)) && is_reply_name e.(file_name)
    && is_ok e.(probe) && refused e.(connect).

(** The names of the files [sweep] asks to be removed. *)
(* SRC truenas_chrony/src/client.rs fn sweep *)
Definition sweep (entries : Outcome (list (Outcome Entry IoKind)) IoKind) : list bytes :=
  match entries with
  | Ok entries => map file_name (filter (λ e, stale e = true) (omap ok entries))
  | _ => []
  end.
