(* ===== verification/ChronyEnds.v ===== *)
(** [truenas_chrony]'s client: an answer is always a reply to the request in
    hand, an exchange sends at most its attempts and backs off between them,
    and a source list is one that did not change while it was walked; and every
    call ends. *)
From S2P Require Import Prelude Chrony ChronyReports ChronyLayout ChronyRequest ChronyClient.
Local Open Scope Z_scope.

(** ** One exchange *)
Section Exchange.
Context {W : Type} `{!Os W} {T : Type}.
Implicit Types (w : W) (request : Request T).

Lemma attempt_ok_inv {A} (m : St W IoKind A) w r w' : attempt m w = (Ok r, w') → m w = (r, w').
Proof using Type. unfold attempt. destruct (m w) as [r1 w1]. intros. by simplify_eq. Qed.

Lemma io_ok_inv {A} (m : St W IoKind A) w (a : A) w' : io m w = (Ok a, w') → m w = (Ok a, w').
Proof using Type. unfold io. destruct (m w) as [[a1|e|x] w1]; simpl; intros; by simplify_eq. Qed.

(** One call to the system, and any number of them. *)
Inductive call : W → W → Prop :=
| call_read_exact n w : call w (read_exact n w).2
| call_now w : call w (now w).2
| call_set_write_timeout d w : call w (set_write_timeout d w).2
| call_send bs w : call w (send bs w).2
| call_set_read_timeout d w : call w (set_read_timeout d w).2
| call_recv n w : call w (recv n w).2.
Abbreviation calls := (rtc call).

(** [m] only makes calls. *)
Definition calling {A} (m : St W Error A) : Prop := ∀ w, calls w (m w).2.

Lemma calling_done {A} (o : Outcome A Error) : calling (λ w, (o, w)).
Proof using Type. intros w. apply rtc_refl. Qed.

Lemma calling_bind {A B} (m : St W Error A) (f : A → St W Error B) :
  calling m → (∀ a, calling (f a)) → calling (m ≫= f).
Proof using Type.
  intros Hm Hf w. specialize (Hm w). unfold mbind, St_bind.
  destruct (m w) as [[a|e|x] w1]; simpl in *; [|done..]. etrans; [done|apply Hf].
Qed.

Lemma calling_io {A} (m : St W IoKind A) : (∀ w, call w (m w).2) → calling (io m).
Proof using Type. intros Hm w. specialize (Hm w). unfold io. destruct (m w). by apply rtc_once. Qed.

Lemma calling_attempt {A} (m : St W IoKind A) : (∀ w, call w (m w).2) → calling (attempt m).
Proof using Type. intros Hm w. specialize (Hm w). unfold attempt. destruct (m w). by apply rtc_once. Qed.

Lemma calling_clock : calling clock.
Proof using Type. intros w. pose proof (call_now w) as Hc. unfold clock. destruct (now w). by apply rtc_once. Qed.

Lemma calling_left dl : calling (match dl with
  | Some d => t ← clock; mret (if t <? d then Some (Some (d - t)) else None)
  | None => mret (Some None) end).
Proof using Type. destruct dl; [apply calling_bind; [apply calling_clock|]; intros|]; apply calling_done. Qed.

Lemma calling_ok {A} (m : St W Error A) w a w' : calling m → m w = (Ok a, w') → calls w w'.
Proof using Type. intros Hm H. specialize (Hm w). by rewrite H in Hm. Qed.

Lemma calling_await fuel request dl : calling (await_reply fuel request dl).
Proof using Type.
  induction fuel as [|fuel IH]; cbn [await_reply]; [apply calling_done|].
  apply calling_bind; [apply calling_left|]. intros [tl|]; [|apply calling_done].
  apply calling_bind; [apply calling_io; constructor|]. intros _.
  apply calling_bind; [apply calling_attempt; constructor|].
  intros [dg|e|x]; [|destruct e; simpl; done || apply calling_done|apply calling_done].
  destruct (request_decode request dg); [done|apply calling_done].
Qed.

(** An answer is the verdict on the datagram received last. *)
Lemma await_answers fuel request dl w a w' :
  await_reply fuel request dl w = (Ok (Some a), w') →
  ∃ datagram w1, calls w w1 ∧ recv RECV_BUF w1 = (Ok datagram, w') ∧ request_decode request datagram = Answer a.
Proof using Type.
  revert w. induction fuel as [|fuel IH]; intros w H; [done|]. cbn [await_reply] in H.
  apply bind_ok_inv in H as (tl & w1 & H1 & H). apply (calling_ok _ _ _ _ (calling_left dl)) in H1.
  destruct tl as [tl|]; [|by rewrite run_ret in H].
  apply bind_ok_inv in H as (u & w2 & H2 & H). apply bind_ok_inv in H as (r & w3 & Hr & H).
  apply calling_ok in H2; [|apply calling_io; constructor]. apply attempt_ok_inv in Hr.
  assert (calls w w2) as H12 by (by etrans).
  assert (calls w w3) as H13 by (eapply rtc_r; [done|]; pose proof (call_recv RECV_BUF w2) as Hc; by rewrite Hr in Hc).
  assert (await_reply fuel request dl w3 = (Ok (Some a), w') → ∃ datagram w1, calls w w1 ∧
    recv RECV_BUF w1 = (Ok datagram, w') ∧ request_decode request datagram = Answer a) as Hnext.
  { intros (dg & w4 & H4 & Hd)%IH. exists dg, w4. split; [by etrans|done]. }
  destruct r as [dg|e|x]; [|destruct e; simpl in H; try done; by apply Hnext|done].
  destruct (request_decode request dg) eqn:Hd; [by apply Hnext|].
  rewrite run_ret in H. simplify_eq. by eexists dg, w2.
Qed.

(** [answered make k0 n w w' v]: between [w] and [w'] a sequence number was
    drawn, then the request of one of the [n] attempts from [k0] sent under it,
    then a datagram received, and its verdict is the answer [v]. *)
Definition answered (make : Z → Request T) (k0 n : Z) (w w' : W) (v : T) : Prop :=
  ∃ sq k datagram w1 w2 w3 w4 w5,
    let r := with_attempt (make (from_ne_bytes sq)) (attempt_u16 k) in
    k0 ≤ k < k0 + n ∧ calls w w1 ∧ read_exact 4 w1 = (Ok sq, w2) ∧ calls w2 w3 ∧
    send r.(as_bytes) w3 = (Ok tt, w4) ∧ calls w4 w5 ∧ recv RECV_BUF w5 = (Ok datagram, w') ∧
    request_decode r datagram = Answer (Ok v).

Lemma exchange_from_answers fuel (make : Z → Request T) n k wait w v w' :
  exchange_from fuel make n k wait w = (Ok v, w') → answered make k (Z.of_nat n) w w' v.
Proof using Type.
  revert k wait w. induction n as [|n IH]; intros k wait w H; [done|]. cbn [exchange_from] in H.
  assert (∀ w0, calls w w0 → exchange_from fuel make n (k + 1) (doubled wait) w0 = (Ok v, w') →
    answered make k (Z.of_nat (S n)) w w' v) as Hnext.
  { intros w0 Hw0 H0. apply IH in H0 as (sq & j & dg & w1 & w2 & w3 & w4 & w5 & Hj & H1 & H0).
    exists sq, j, dg, w1, w2, w3, w4, w5. cbv zeta in H0 |- *. split; [lia|]. split; [by etrans|done]. }
  apply bind_ok_inv in H as (sq & w1 & Hsq & H).
  pose proof (calling_ok _ _ _ _ (calling_io _ (call_read_exact 4)) Hsq) as H1. apply io_ok_inv in Hsq.
  apply bind_ok_inv in H as (t & w2 & H2 & H). apply (calling_ok _ _ _ _ calling_clock) in H2.
  apply bind_ok_inv in H as (u & w3 & H3 & H).
  apply (calling_ok _ _ _ _ (calling_io _ (call_set_write_timeout wait))) in H3.
  apply bind_ok_inv in H as (sent & w4 & Hs & H).
  pose proof (calling_ok _ _ _ _ (calling_attempt _ (call_send _)) Hs) as H4. apply attempt_ok_inv in Hs.
  assert (calls w1 w3) as H13 by (by etrans). assert (calls w w4) as Hw4 by (do 2 (etrans; [done|]); done).
  destruct sent as [[]|e|x]; [|destruct (timed_out e); [by eapply Hnext|done]|done].
  apply bind_ok_inv in H as (ans & w5 & Ha & H).
  destruct ans as [ans|].
  - unfold lift in H. simplify_eq. apply await_answers in Ha as (dg & w5' & H5 & Hrecv & Hdg).
    exists sq, k, dg, w, w1, w3, w4, w5'. cbv zeta. split; [lia|]. split; [apply rtc_refl|]. done.
  - apply (calling_ok _ _ _ _ (calling_await _ _ _)) in Ha. eapply Hnext; [|done]. by etrans.
Qed.
End Exchange.
Abbreviation calls := (rtc call).

(** ** What an exchange does to the socket

    A world that logs the sends and the waits set for them. *)
Inductive Event : Type := EWait (d : Z) | ESend (datagram : bytes).

Definition logging {W A} (e : list Event) (m : St W IoKind A) : St (W * list Event) IoKind A := λ '(w, l),
  let '(r, w) := m w in (r, (w, l ++ e)).

Definition Os_log (W : Type) `{!Os W} : Os (W * list Event) := {|
  read_exact n := logging [] (read_exact n);
  now := λ '(w, l), let '(t, w) := now w in (t, (w, l));
  set_write_timeout d := logging [EWait d] (set_write_timeout d);
  send bs := logging [ESend bs] (send bs);
  set_read_timeout d := logging [] (set_read_timeout d);
  recv n := logging [] (recv n)
|}.

Definition waits (l : list Event) : list Z := omap (λ e, match e with EWait d => Some d | _ => None end) l.
Definition sends (l : list Event) : list bytes := omap (λ e, match e with ESend b => Some b | _ => None end) l.

(** The waits of [n] attempts, each double the last. *)
Fixpoint backoff (n : nat) (wait : Z) : list Z :=
  match n with O => [] | S n => wait :: backoff n (doubled wait) end.

Section Log.
Context {W : Type} `{!Os W} {T : Type}.
#[local] Instance Os_logged : Os (W * list Event) := Os_log W.

(** [logged P m]: what [m] gives and what it adds to the log satisfy [P]. *)
Definition logged {A} (P : Outcome A Error → list Event → Prop) (m : St (W * list Event) Error A) : Prop :=
  ∀ w l, ∃ d, (m (w, l)).2.2 = l ++ d ∧ P (m (w, l)).1 d.

Lemma logged_weaken {A} (P Q : Outcome A Error → list Event → Prop) m :
  logged P m → (∀ r d, P r d → Q r d) → logged Q m.
Proof using Type. intros Hm HPQ w l. destruct (Hm w l) as (d & Hd & HP). exists d. auto. Qed.

Lemma logged_bind {A B} (P : Outcome B Error → list Event → Prop) (Q : A → list Event → Prop) m (f : A → St _ Error B) :
  logged (λ r d, match r with Ok a => Q a d | Err e => P (Err e) d | Stop x => P (Stop x) d end) m →
  (∀ a d, Q a d → logged (λ r d', P r (d ++ d')) (f a)) → logged P (m ≫= f).
Proof using Type.
  intros Hm Hf w l. destruct (Hm w l) as (d & Hd & HQ). unfold mbind, St_bind.
  destruct (m (w, l)) as [[a|e|x] [w' l']]; simpl in *; [|by exists d..].
  subst l'. destruct (Hf a d HQ w' (l ++ d)) as (d' & Hd' & HP). exists (d ++ d'). by rewrite app_assoc.
Qed.

(** What does not time out and adds nothing. *)
Definition quiet {A} (r : Outcome A Error) (d : list Event) : Prop := d = [] ∧ r ≠ Err Timeout.

Lemma quiet_ret {A} (a : A) : logged quiet (mret a).
Proof using Type. intros w l. exists []. by rewrite app_nil_r. Qed.

Lemma quiet_bind {A B} (m : St (W * list Event) Error A) (f : A → St _ Error B) :
  logged quiet m → (∀ a, logged quiet (f a)) → logged quiet (m ≫= f).
Proof using Type.
  intros Hm Hf. eapply (logged_bind _ (λ _ d, d = [])).
  - eapply logged_weaken; [exact Hm|]. intros [a|e|x] d [-> Hr]; [done|split; [done|congruence]..].
  - intros a d ->. exact (Hf a).
Qed.

Lemma io_logged {A} e (m : St W IoKind A) : logged (λ r d, d = e ∧ r ≠ Err Timeout) (io (logging e m)).
Proof using Type. intros w l. exists e. unfold io, logging. by destruct (m w) as [[a|x|x] w']. Qed.

Lemma attempt_logged {A} e (m : St W IoKind A) : logged (λ r d, d = e ∧ r ≠ Err Timeout) (attempt (logging e m)).
Proof using Type. intros w l. exists e. unfold attempt, logging. by destruct (m w) as [r w']. Qed.

Lemma quiet_clock : logged quiet clock.
Proof using Type. intros w l. exists []. unfold clock. simpl. rewrite app_nil_r. by destruct (now w). Qed.

Lemma quiet_fail {A} e : e ≠ Timeout → logged quiet (fail (A:=A) e).
Proof using Type. intros He w l. exists []. rewrite app_nil_r. split; [done|]. split; [done|]. simpl. congruence. Qed.

Lemma quiet_halt {A} x : logged quiet (halt (A:=A) x).
Proof using Type. intros w l. exists []. by rewrite app_nil_r. Qed.

Lemma quiet_await fuel (request : Request T) dl : logged quiet (await_reply fuel request dl).
Proof using Type.
  induction fuel as [|fuel IH]; cbn [await_reply]; [apply quiet_halt|].
  apply quiet_bind; [destruct dl; [apply quiet_bind; [apply quiet_clock|]; intros t|]; apply quiet_ret|].
  intros [tl|]; [|apply quiet_ret].
  apply quiet_bind; [apply io_logged|]. intros _. apply quiet_bind; [apply attempt_logged|].
  intros [dg|e|x]; [|destruct e; simpl; auto using quiet_ret; by apply quiet_fail|apply quiet_halt].
  destruct (request_decode request dg); [done|apply quiet_ret].
Qed.

(** The waits of an exchange start the back-off, one per send; a timeout has
    used every attempt. *)
Definition backs_off {A} (n : nat) (wait : Z) (r : Outcome A Error) (d : list Event) : Prop :=
  waits d `prefix_of` backoff n wait ∧ (length (sends d) ≤ length (waits d))%nat ∧
  (r = Err Timeout → waits d = backoff n wait ∧ length (sends d) = n).

Lemma backs_off_quiet {A} n wait (r : Outcome A Error) : r ≠ Err Timeout → backs_off n wait r [].
Proof using Type. intros Hr. split; [apply prefix_nil|]. by split. Qed.

Lemma backs_off_once {A} n wait (r : Outcome A Error) d : (length (sends d) ≤ 1)%nat → waits d = [wait] →
  r ≠ Err Timeout → backs_off (S n) wait r d.
Proof using Type.
  intros Hs Hw Hr. split; [rewrite Hw; apply prefix_cons, prefix_nil|]. rewrite Hw. by split.
Qed.

Lemma backs_off_next {A} n wait (r : Outcome A Error) bs d : backs_off n (doubled wait) r d →
  backs_off (S n) wait r ([EWait wait; ESend bs] ++ d).
Proof using Type.
  intros (Hp & Hs & Ht). split; [by apply prefix_cons|]. split; [simpl; lia|].
  intros Hr. destruct (Ht Hr) as [Hw Hl]. split; [simpl; by f_equal|simpl; by f_equal].
Qed.

Lemma exchange_logged fuel (make : Z → Request T) n k wait :
  (∀ seq j dg, request_decode (with_attempt (make seq) j) dg ≠ Answer (Err Timeout)) →
  logged (backs_off n wait) (exchange_from fuel make n k wait).
Proof using Type.
  intros Hmake. revert k wait. induction n as [|n IH]; intros k wait; cbn [exchange_from].
  { intros w l. exists []. rewrite app_nil_r. by repeat split. }
  apply (logged_bind _ (λ _ d, d = [])).
  { eapply logged_weaken; [apply io_logged|]. intros [a|e|x] d [-> Hr]; [done|by apply backs_off_quiet; congruence..]. }
  intros sq ? ->. apply (logged_bind _ (λ _ d, d = [])).
  { eapply logged_weaken; [apply quiet_clock|]. intros [a|e|x] d [-> Hr]; [done|by apply backs_off_quiet; congruence..]. }
  intros t ? ->. apply (logged_bind _ (λ _ d, d = [EWait wait])).
  { eapply logged_weaken; [apply io_logged|]. intros [a|e|x] d [-> Hr]; [done|apply backs_off_once; simpl; done || congruence || lia..]. }
  intros u ? ->. set (request := with_attempt (make (from_ne_bytes sq)) (attempt_u16 k)).
  apply (logged_bind _ (λ _ d, d = [ESend (as_bytes request)])).
  { eapply logged_weaken; [apply attempt_logged|]. intros [a|e|x] d [-> Hr]; [done|apply backs_off_once; simpl; done || congruence || lia..]. }
  intros sent ? ->.
  assert (logged (λ r d', backs_off (S n) wait r ([EWait wait; ESend (as_bytes request)] ++ d'))
    (exchange_from fuel make n (k + 1) (doubled wait))) as Hnext.
  { eapply logged_weaken; [apply IH|]. intros r d. apply backs_off_next. }
  destruct sent as [[]|e|x].
  - intros w l. destruct (await_reply fuel request (instant_add t wait) (w, l)) as [ra [w1 l1]] eqn:Ha.
    destruct (quiet_await fuel request (instant_add t wait) w l) as (d & Hd & Hq & Hr). rewrite Ha in Hd, Hr.
    simpl in Hd, Hr. subst d l1. rewrite app_nil_r in Ha. unfold mbind, St_bind. rewrite Ha.
    destruct ra as [[ans|]|e|x].
    + exists []. rewrite app_nil_r. split; [done|]. simpl. apply backs_off_once; [simpl; lia|done|].
      intros ->. apply await_answers in Ha as (dg & _ & _ & _ & Hdg). by eapply Hmake.
    + apply Hnext.
    + exists []. rewrite app_nil_r. split; [done|]. simpl. apply backs_off_once; [simpl; lia|done|congruence].
    + exists []. rewrite app_nil_r. split; [done|]. simpl. by apply backs_off_once; [simpl; lia|done|].
  - destruct (timed_out e); [exact Hnext|]. intros w l. exists []. rewrite app_nil_r.
    split; [done|]. by apply backs_off_once; [simpl; lia|done|].
  - intros w l. exists []. rewrite app_nil_r. split; [done|]. by apply backs_off_once; [simpl; lia|done|].
Qed.
End Log.

(** The crate's own requests never answer a timeout. *)
Lemma build_no_timeout T report_at `{!Layout T, !LayoutAt T report_at} data seq j dg : 0 ≤ LEN T →
  request_decode (with_attempt (build T data seq) j) dg ≠ Answer (Err Timeout).
Proof.
  intros HL H. unfold request_decode in H. destruct (len dg <? REPLY_HEADER); [done|].
  destruct (_ || _); [done|]. injection H as H. repeat case_match; try done.
  simpl in H. rewrite (decode_eq T report_at) in H by done. by repeat case_match.
Qed.

(** What an exchange answers is the report in the last datagram, which echoed
    the request's command and sequence number and carried no error. *)
Lemma exchange_reports {W} `{!Os W} T report_at `{!Layout T, !LayoutAt T report_at} fuel self data w v w' :
  0 ≤ LEN T → exchange fuel self (build T data) w = (Ok v, w') →
  ∃ sq k datagram w1 w2 w3 w4 w5,
    let r := with_attempt (build T data (from_ne_bytes sq)) (attempt_u16 k) in
    0 ≤ k < attempts self ∧ calls w w1 ∧ read_exact 4 w1 = (Ok sq, w2) ∧ calls w2 w3 ∧
    send r.(as_bytes) w3 = (Ok tt, w4) ∧ calls w4 w5 ∧ recv RECV_BUF w5 = (Ok datagram, w') ∧
    u8_at datagram 0 = VERSION ∧ u8_at datagram 1 = TYPE_REPLY ∧ u16_at datagram 4 = COMMAND T ∧
    u16_at datagram 6 = REPLY T ∧ u16_at datagram 8 = STATUS_OK ∧ u32_at datagram 16 = from_ne_bytes sq ∧
    REPLY_HEADER + LEN T ≤ len datagram ∧
    v = report_at (bytes_at datagram 28 (Z.to_nat (LEN T))).
Proof.
  intros HL H. apply exchange_from_answers in H as
    (sq & k & dg & w1 & w2 & w3 & w4 & w5 & Hk & H1 & H2 & H3 & H4 & H5 & H6 & Hd).
  apply request_decode_echo in Hd as (Hlen & Hc & Hsq & Hty & _ & Hv & Hst & Hdec).
  exists sq, k, dg, w1, w2, w3, w4, w5. cbv zeta. split; [lia|]. do 6 (split; [done|]). do 3 (split; [done|]).
  cbn [decode_data with_attempt build] in Hdec. rewrite (decode_eq T report_at) in Hdec by done.
  destruct (Z.eqb_spec (u16_at dg 6) (REPLY T)); [|done]. cbn [negb] in Hdec.
  destruct (Z.ltb_spec (len (drop 28 dg)) (LEN T)) as [|Hge]; [done|]. injection Hdec as Hdec.
  rewrite length_drop in Hge. do 3 (split; [done|]). unfold REPLY_HEADER. split; [lia|done].
Qed.

(** ** The source list *)
Section Sources.
Context {W A : Type} (count : St W Error Z) (get_source : Z → St W Error A).

(** [walked l i w w']: the sources from index [i] on, each as the daemon gave
    it, from state [w] to state [w']. *)
Inductive walked : list A → Z → W → W → Prop :=
| walked_nil i w : walked [] i w w
| walked_cons a l i w w1 w2 : get_source i w = (Ok a, w1) → walked l (i + 1) w1 w2 →
    walked (a :: l) i w w2.

Lemma walk_walked n i w l w' : walk get_source n i w = (Ok (Some l), w') →
  length l = n ∧ walked l i w w'.
Proof using Type.
  revert i w l. induction n as [|n IH]; intros i w l H; simpl in H; [simplify_eq; split; [done|constructor]|].
  destruct (get_source i w) as [[a|e|x] w1] eqn:Hg; [|by repeat case_match|done].
  destruct (walk get_source n (i + 1) w1) as [[[l'|]|e|x] w2] eqn:Hw; simplify_eq.
  apply IH in Hw as [<- Hw]. split; [done|]. by econstructor.
Qed.

Lemma walk_error n i w e w' : walk get_source n i w = (Err e, w') → e ≠ StatusError NoSuchSource.
Proof using Type.
  revert i w. induction n as [|n IH]; intros i w H; simpl in H; [done|].
  destruct (get_source i w) as [[a|e'|x] w1] eqn:Hg; [|repeat case_match; by simplify_eq|done].
  destruct (walk get_source n (i + 1) w1) as [[[l'|]|e'|x] w2] eqn:Hw; simplify_eq. by eapply IH.
Qed.

(** A list that is given was as long before its walk as after it. *)
Lemma sources_settled walks w l w' : (∀ w n w1, count w = (Ok n, w1) → 0 ≤ n) →
  sources_in count get_source walks w = (Ok l, w') →
  ∃ w0 w1 w2, count w0 = (Ok (len l), w1) ∧ walked l 0 w1 w2 ∧ count w2 = (Ok (len l), w').
Proof using Type.
  intros Hpos. revert w. induction walks as [|walks IH]; intros w H; [done|]. cbn [sources_in] in H.
  apply bind_ok_inv in H as (n & w1 & Hn & H). apply bind_ok_inv in H as (o & w2 & Ho & H).
  destruct o as [l'|]; [|by eapply IH]. apply bind_ok_inv in H as (n' & w3 & Hn' & H).
  destruct (Z.eqb_spec n' n) as [->|]; [|by eapply IH]. rewrite run_ret in H. simplify_eq.
  apply walk_walked in Ho as [Hl Hw]. pose proof (Hpos _ _ _ Hn). exists w, w1, w2.
  replace (len l) with n by lia. done.
Qed.

(** Against a daemon whose list is [l] throughout, the first walk gives it. *)
Lemma walk_steady (Inv : W → Prop) (l : list A) :
  (∀ w i a, Inv w → l !! i = Some a → ∃ w', get_source (Z.of_nat i) w = (Ok a, w') ∧ Inv w') →
  ∀ n i w, Inv w → (i + n = length l)%nat →
  ∃ w', walk get_source n (Z.of_nat i) w = (Ok (Some (drop i l)), w') ∧ Inv w'.
Proof using Type.
  intros Hg. induction n as [|n IH]; intros i w Hw Hn; simpl.
  - exists w. rewrite drop_ge by lia. done.
  - destruct (lookup_lt_is_Some_2 l i ltac:(lia)) as [a Ha].
    destruct (Hg w i a Hw Ha) as (w1 & -> & Hw1).
    destruct (IH (S i) w1 Hw1 ltac:(lia)) as (w2 & Hwalk & Hw2).
    replace (Z.of_nat i + 1) with (Z.of_nat (S i)) by lia. rewrite Hwalk. exists w2.
    by rewrite (drop_S l a i Ha).
Qed.

Lemma sources_steady (Inv : W → Prop) (l : list A) w :
  (∀ w, Inv w → ∃ w', count w = (Ok (len l), w') ∧ Inv w') →
  (∀ w i a, Inv w → l !! i = Some a → ∃ w', get_source (Z.of_nat i) w = (Ok a, w') ∧ Inv w') →
  Inv w → ∃ w', sources count get_source w = (Ok l, w') ∧ Inv w'.
Proof using Type.
  intros Hc Hg Hw. unfold sources, SOURCE_WALKS. cbn [sources_in].
  destruct (Hc w Hw) as (w1 & H1 & Hw1). rewrite (run_bind_ok _ _ _ _ _ H1).
  destruct (walk_steady Inv l Hg (Z.to_nat (len l)) 0 w1 Hw1 ltac:(lia)) as (w2 & H2 & Hw2).
  change (Z.of_nat 0) with 0 in H2. rewrite drop_0 in H2. rewrite (run_bind_ok _ _ _ _ _ H2).
  destruct (Hc w2 Hw2) as (w3 & H3 & Hw3). rewrite (run_bind_ok _ _ _ _ _ H3), Z.eqb_refl.
  by exists w3.
Qed.

(** A source that vanished during the walk is not the caller's error. *)
Lemma sources_error walks w e w' : (∀ w n w1, count w = (Err n, w1) → n ≠ StatusError NoSuchSource) →
  sources_in count get_source walks w = (Err e, w') → e ≠ StatusError NoSuchSource.
Proof using Type.
  intros Hc. revert w. induction walks as [|walks IH]; intros w H; [by unfold sources_in, fail in H; simplify_eq|].
  cbn [sources_in] in H. unfold mbind, St_bind in H.
  destruct (count w) as [[n|e1|x] w1] eqn:Hn; simplify_eq; [|by eapply Hc].
  destruct (walk get_source (Z.to_nat n) 0 w1) as [[[l|]|e1|x] w2] eqn:Hw; simplify_eq;
    [|by eapply IH|by eapply walk_error].
  destruct (count w2) as [[n'|e1|x] w3] eqn:Hn'; simplify_eq; [|by eapply Hc].
  destruct (n' =? n); [done|by eapply IH].
Qed.
End Sources.

(** An exchange of [truenas_chrony]'s client ends: every attempt's loop runs
    against its deadline on a clock that moves while the client waits. *)

(** What the client relies on the system for: every call returns, the clock
    does not go back, and a receive takes at least a nanosecond. *)
Class Clocked (W : Type) `{!Os W} : Type := {
  time : W → Z;
  read_exact_time : ∀ n w, time w ≤ time (read_exact n w).2;
  now_time : ∀ w, time w ≤ (now w).1 ≤ time (now w).2;
  set_write_timeout_time : ∀ d w, time w ≤ time (set_write_timeout d w).2;
  send_time : ∀ bs w, time w ≤ time (send bs w).2;
  set_read_timeout_time : ∀ d w, time w ≤ time (set_read_timeout d w).2;
  recv_time : ∀ n w, time w + 1 ≤ time (recv n w).2;
  calls_return : ∀ w x, (∀ n, (read_exact n w).1 ≠ Stop x) ∧ (∀ d, (set_write_timeout d w).1 ≠ Stop x) ∧
    (∀ bs, (send bs w).1 ≠ Stop x) ∧ (∀ d, (set_read_timeout d w).1 ≠ Stop x) ∧ (∀ n, (recv n w).1 ≠ Stop x)
}.

Section Ends.
Context {W : Type} `{!Os W, !Clocked W} {T : Type}.

(** [later w m]: [m] does not stop from [w], and does not turn the clock back. *)
Definition later {A} (w : W) (m : Outcome A Error * W) : Prop := time w ≤ time m.2 ∧ ∀ x, m.1 ≠ Stop x.

Lemma later_bind {A B} w (m : St W Error A) (f : A → St W Error B) :
  later w (m w) → (∀ a w1, m w = (Ok a, w1) → time w ≤ time w1 → later w1 (f a w1)) → later w ((m ≫= f) w).
Proof.
  intros [Ht Hs] Hf. unfold mbind, St_bind. destruct (m w) as [[a|e|x] w1]; simpl in *.
  - destruct (Hf a w1 eq_refl Ht) as [Ht1 Hs1]. split; [lia|done].
  - by split.
  - by destruct (Hs x).
Qed.

Lemma later_io {A} w (m : St W IoKind A) : time w ≤ time (m w).2 → (∀ x, (m w).1 ≠ Stop x) → later w (io m w).
Proof.
  intros Ht Hs. unfold io. destruct (m w) as [[a|e|x] w1]; simpl in *; [done|done|by destruct (Hs x)].
Qed.

Lemma later_attempt {A} w (m : St W IoKind A) : time w ≤ time (m w).2 → later w (attempt m w).
Proof. intros Ht. unfold attempt. destruct (m w) as [r w1]; simpl in *. by split. Qed.

Lemma later_clock w : later w (clock w).
Proof. pose proof (now_time w). unfold clock. destruct (now w) as [t w1]. simpl in *. split; [simpl; lia|done]. Qed.

Lemma clock_reads w t w1 : clock w = (Ok t, w1) → time w ≤ t ≤ time w1.
Proof. pose proof (now_time w). unfold clock. destruct (now w) as [t' w1']. simpl in *. intros. by simplify_eq. Qed.

(** A loop with a deadline turns at most once a nanosecond. *)
Lemma await_ends fuel (request : Request T) dl w : dl - time w < Z.of_nat fuel →
  (0 < fuel)%nat → later w (await_reply fuel request (Some dl) w).
Proof.
  revert w. induction fuel as [|fuel IH]; intros w Hf Hp; [lia|]. cbn [await_reply]. unfold mbind at 1, St_bind at 1.
  assert (later w ((t ← clock; mret (if t <? dl then Some (Some (dl - t)) else None)) w)) as [Ht Hs].
  { apply later_bind; [apply later_clock|]. by intros t w1 _ _. }
  destruct ((t ← clock; _) w) as [[tl|e|x] w1] eqn:Hc; simpl in Ht, Hs; [|by split|by destruct (Hs x)].
  assert (∀ m : Outcome (option (Result T)) Error * W, later w1 m → later w m) as Hup
    by (intros m [H1 H2]; split; [lia|done]). apply Hup.
  destruct tl as [tl|]; [|by split].
  assert (time w < dl) as Hlt.
  { apply bind_ok_inv in Hc as (t & w0 & Ht0 & Hc). apply clock_reads in Ht0. rewrite run_ret in Hc.
    destruct (Z.ltb_spec t dl); simplify_eq. lia. }
  apply later_bind; [apply later_io; [apply set_read_timeout_time|intros x; apply calls_return]|].
  intros _ w2 _ Ht2. apply later_bind; [apply later_attempt; pose proof (recv_time RECV_BUF w2); lia|].
  intros r w3 Hr _. apply attempt_ok_inv in Hr. pose proof (recv_time RECV_BUF w2) as Ht3. rewrite Hr in Ht3.
  simpl in Ht3. assert (later w3 (await_reply fuel request (Some dl) w3)) as Hnext by (apply IH; lia).
  destruct r as [dg|e|x].
  - destruct (request_decode request dg); [done|by split].
  - destruct e; simpl; done || by split.
  - pose proof (calls_return w2 x) as (_ & _ & _ & _ & Hn). specialize (Hn RECV_BUF). by rewrite Hr in Hn.
Qed.

(** [settles M w m]: [m] does not turn the clock back, and stops only where the
    clock has come within [M] of the last instant. *)
Definition settles {A} (M : Z) (w : W) (m : Outcome A Error * W) : Prop :=
  time w ≤ time m.2 ∧ ∀ x, m.1 = Stop x → INSTANT_MAX < time m.2 + M.

Lemma later_settles {A} M w (m : Outcome A Error * W) : later w m → settles M w m.
Proof. intros [Ht Hs]. split; [done|]. intros x Hx. by destruct (Hs x). Qed.

Lemma settles_bind {A B} M w (m : St W Error A) (f : A → St W Error B) :
  later w (m w) → (∀ a w1, m w = (Ok a, w1) → time w ≤ time w1 → settles M w1 (f a w1)) → settles M w ((m ≫= f) w).
Proof.
  intros [Ht Hs] Hf. unfold mbind, St_bind. destruct (m w) as [[a|e|x] w1]; simpl in *.
  - destruct (Hf a w1 eq_refl Ht) as [Ht1 Hs1]. split; [lia|done].
  - by split.
  - by destruct (Hs x).
Qed.

(** Without a deadline the clock at least does not go back. *)
Lemma await_time fuel (request : Request T) dl w : time w ≤ time (await_reply fuel request dl w).2.
Proof.
  revert w. induction fuel as [|fuel IH]; intros w; [done|]. cbn [await_reply].
  assert (∀ A B (m : St W Error A) (f : A → St W Error B) w, time w ≤ time (m w).2 →
    (∀ a w1, m w = (Ok a, w1) → time w1 ≤ time (f a w1).2) → time w ≤ time ((m ≫= f) w).2) as Hb.
  { intros A B m f w0 Hm Hf. unfold mbind, St_bind. destruct (m w0) as [[a|e|x] w1]; simpl in *; [|done|done].
    specialize (Hf a w1 eq_refl). lia. }
  apply Hb.
  { destruct dl; [|done]. apply Hb; [apply later_clock|]. by intros. }
  intros [tl|] w1 _; [|done].
  apply Hb; [apply later_io; [apply set_read_timeout_time|intros x; apply calls_return]|]. intros _ w2 _.
  apply Hb; [apply later_attempt; pose proof (recv_time RECV_BUF w2); lia|]. intros r w3 _.
  destruct r as [dg|e|x]; [destruct (request_decode request dg); [apply IH|done]|destruct e; simpl; done || apply IH|done].
Qed.

Lemma exchange_from_settles fuel (make : Z → Request T) n k wait M w :
  (∀ r dg x, (∃ s j, r = with_attempt (make s) j) → request_decode r dg ≠ Answer (Stop x)) →
  Forall (λ d, d ≤ M) (backoff n wait) → M < Z.of_nat fuel → (0 < fuel)%nat →
  settles M w (exchange_from fuel make n k wait w).
Proof.
  intros Hans. revert k wait w. induction n as [|n IH]; intros k wait w Hw HM Hf; [by split|].
  cbn [exchange_from]. simpl backoff in Hw. apply Forall_cons in Hw as [Hwait Hw].
  apply settles_bind; [apply later_io; [apply read_exact_time|intros x; apply calls_return]|]. intros sq w1 _ _.
  apply settles_bind; [apply later_clock|]. intros t w2 Hclk _. apply clock_reads in Hclk.
  apply settles_bind; [apply later_io; [apply set_write_timeout_time|intros x; apply calls_return]|]. intros _ w3 _ Ht3.
  set (request := with_attempt _ _).
  apply settles_bind; [apply later_attempt, send_time|]. intros sent w4 Hsent Ht4. apply attempt_ok_inv in Hsent.
  assert (∀ w0, settles M w0 (exchange_from fuel make n (k + 1) (doubled wait) w0)) as Hnext by (intros; by apply IH).
  destruct sent as [[]|e|x].
  - assert (settles M w4 (await_reply fuel request (instant_add t wait) w4)) as [Hat Has].
    { unfold instant_add. destruct (Z.leb_spec (t + wait) INSTANT_MAX) as [Hle|Hgt].
      - apply later_settles, await_ends; [lia|done].
      - pose proof (await_time fuel request None w4) as Hat. split; [done|]. intros x _. lia. }
    unfold mbind, St_bind. destruct (await_reply fuel request (instant_add t wait) w4) as [[[a|]|e|x] w5] eqn:Ha;
      simpl in Hat, Has |- *.
    + split; [done|]. simpl. intros x ->. apply await_answers in Ha as (dg & _ & _ & _ & Hdg).
      by destruct (Hans request dg x); [by eexists _, _|].
    + destruct (Hnext w5) as [Hn1 Hn2]. split; [lia|done].
    + by split.
    + split; [done|]. simpl. intros y _. by eapply Has.
  - destruct (timed_out e); [apply Hnext|by split].
  - pose proof (calls_return w3 x) as (_ & _ & Hn & _). specialize (Hn (as_bytes request)). by rewrite Hsent in Hn.
Qed.

Lemma settles_then {A B} M w (m : St W Error A) (f : A → St W Error B) :
  settles M w (m w) → (∀ a w1, settles M w1 (f a w1)) → settles M w ((m ≫= f) w).
Proof.
  intros [Ht Hs] Hf. unfold mbind, St_bind. destruct (m w) as [[a|e|x] w1]; simpl in *.
  - destruct (Hf a w1) as [Ht1 Hs1]. split; [lia|done].
  - by split.
  - split; [done|]. intros y _. by eapply Hs.
Qed.
End Ends.

(** The crate's own requests always have an answer. *)
Lemma build_no_stop T report_at `{!Layout T, !LayoutAt T report_at} data r dg x : 0 ≤ LEN T →
  (∃ s j, r = with_attempt (build T data s) j) → request_decode r dg ≠ Answer (Stop x).
Proof.
  intros HL (s & j & ->) H. unfold request_decode in H. destruct (len dg <? REPLY_HEADER); [done|].
  destruct (_ || _); [done|]. injection H as H. repeat case_match; try done.
  simpl in H. rewrite (decode_eq T report_at) in H by done. by repeat case_match.
Qed.

Section Client.
Context {W : Type} `{!Os W, !Clocked W} (M : Z) (fuel : nat) (self : Client).
Hypothesis waits_below : Forall (λ d, d ≤ M) (backoff (Z.to_nat (attempts self)) (timeout self)).
Hypothesis enough_fuel : M < Z.of_nat fuel.
Hypothesis some_fuel : (0 < fuel)%nat.

Lemma exchange_settles T report_at `{!Layout T, !LayoutAt T report_at} data w : 0 ≤ LEN T →
  settles M w (exchange fuel self (build T data) w).
Proof using waits_below enough_fuel some_fuel.
  intros HL. apply exchange_from_settles; try done. intros r dg x. by eapply build_no_stop.
Qed.

Lemma walk_settles n i w : settles M w (walk (client_source fuel self) n i w).
Proof using waits_below enough_fuel some_fuel.
  revert i w. induction n as [|n IH]; intros i w; simpl; [by split|].
  destruct (exchange_settles Source source_at (to_be_bytes 4 i) w) as [Ht Hs]; [by cbn|].
  change (exchange fuel self (build Source (to_be_bytes 4 i)) w) with (client_source fuel self i w) in *.
  destruct (client_source fuel self i w) as [[a|e|x] w1]; simpl in *.
  - destruct (IH (i + 1) w1) as [Ht1 Hs1].
    destruct (walk (client_source fuel self) n (i + 1) w1) as [[[l|]|e|x] w2]; (split; [simpl in *; lia|]); done.
  - by repeat case_match.
  - split; [done|]. intros y _. by eapply Hs.
Qed.

Lemma sources_settle walks w :
  settles M w (sources_in (client_source_count fuel self) (client_source fuel self) walks w).
Proof using waits_below enough_fuel some_fuel.
  revert w. induction walks as [|walks IH]; intros w; cbn [sources_in]; [by split|].
  assert (∀ w0, settles M w0 (client_source_count fuel self w0)) as Hc
    by (intros w0; apply (exchange_settles Z (λ d, u32_at d 0)); by cbn).
  apply settles_then; [apply Hc|]. intros n w1. apply settles_then; [apply walk_settles|].
  intros [l|] w2; [|apply IH]. apply settles_then; [apply Hc|]. intros n' w3.
  destruct (n' =? n); [by split|apply IH].
Qed.
End Client.
