(* ===== verification/ChronyTheorems.v ===== *)
(** The claims on [truenas_chrony]: the layouts and the requests, the verdicts
    on a datagram, the exchange with its retries, and the source list. *)
From S2P Require Import Prelude Chrony ChronyReports ChronyLayout ChronyRequest ChronyClient ChronyEnds.
Local Open Scope Z_scope.

(** What decoding gives for a report with reply code [code] and [n] bytes. *)
Definition decoded {T} (code n : Z) (report_at : bytes → T) (reply : Z) (data : bytes) : Result T :=
  if negb (reply =? code) then Err (UnexpectedReply reply)
  else if len data <? n then Err (Malformed "reply shorter than its layout")
  else Ok (report_at (take (Z.to_nat n) data)).

(** The layouts.  A reply decodes to a report exactly when it has the
    report's code and at least its length of data; each field is then the one
    at its offset ([tracking_at] and the like), and what follows is ignored. *)
Theorem chrony_reports_decode (reply : Z) (data : bytes) :
  decode Tracking reply data = decoded 5 76 tracking_at reply data ∧
  decode Z reply data = decoded 2 4 (λ d, u32_at d 0) reply data ∧
  decode Source reply data = decoded 3 48 source_at reply data ∧
  decode Selection reply data = decoded 23 48 selection_at reply data ∧
  decode Authentication reply data = decoded 20 24 authentication_at reply data.
Proof.
  unfold decoded. refine (conj _ (conj _ (conj _ (conj _ _)))).
  - rewrite (decode_eq Tracking tracking_at); [reflexivity|by cbn].
  - rewrite (decode_eq Z (λ d, u32_at d 0)); [reflexivity|by cbn].
  - rewrite (decode_eq Source source_at); [reflexivity|by cbn].
  - rewrite (decode_eq Selection selection_at); [reflexivity|by cbn].
  - rewrite (decode_eq Authentication authentication_at); [reflexivity|by cbn].
Qed.

(** The floats.  The product [float] computes never rounds: a 32-bit float
    decodes to its signed 25-bit coefficient times two to its signed 7-bit
    exponent less 25, exactly. *)
Theorem chrony_float_exact (raw : Z) :
  unsigned 32 raw → represents (float raw) (float_coef raw) (float_exp raw - 25).
Proof. apply float_represents. Qed.

(** The two words of a time are those of its seconds. *)
Lemma time_words s : signed 64 s → s / 2 ^ 32 ≠ NO_HIGH_WORD →
  swrap 64 ((if wrap 32 (s / 2 ^ 32) =? NO_HIGH_WORD then 0 else wrap 32 (s / 2 ^ 32)) * 2 ^ 32 + wrap 32 s) = s.
Proof.
  intros Hs Hh.
  assert (wrap 32 (s / 2 ^ 32) * 2 ^ 32 + wrap 32 s = wrap 64 s) as Heq.
  { unfold wrap. change (2 ^ 64) with (2 ^ 32 * 2 ^ 32). rewrite (Z.rem_mul_r s (2 ^ 32) (2 ^ 32)) by lia. lia. }
  destruct (Z.eqb_spec (wrap 32 (s / 2 ^ 32)) NO_HIGH_WORD) as [He|_].
  - destruct Hh. unfold signed in Hs. change (2 ^ (64 - 1)) with (2147483648 * 4294967296) in Hs.
    unfold wrap, NO_HIGH_WORD in *. change (2 ^ 32) with 4294967296 in *.
    assert (-2147483648 ≤ s / 4294967296) by (apply Z.div_le_lower_bound; lia).
    assert (s / 4294967296 < 2147483648) by (apply Z.div_lt_upper_bound; lia).
    pose proof (Z.div_mod (s / 4294967296) 4294967296 ltac:(lia)). lia.
  - rewrite Heq. by apply swrap_wrap.
Qed.

(** The times.  The seconds and nanoseconds a sender writes read back,
    before the epoch as after it; a sender with 32-bit times marks the high
    word and is read by the low one, and too many nanoseconds are capped. *)
Theorem chrony_timestamp (s n : Z) (tl : bytes) :
  signed 64 s → unsigned 32 n →
  timestamp (mkReader (to_be_bytes 4 (s / 2 ^ 32) ++ to_be_bytes 4 s ++ to_be_bytes 4 n ++ tl))
  = (Ok (mkTime (if s / 2 ^ 32 =? NO_HIGH_WORD then wrap 32 s else s) (Z.min n MAX_NSEC)), mkReader tl).
Proof.
  intros Hs Hn. set (d := to_be_bytes 4 (s / 2 ^ 32) ++ _).
  assert (length d = (12 + length tl)%nat) as Hl by (subst d; rewrite !length_app, !length_to_be_bytes; lia).
  pose proof (timestamp_reads d 0) as Hr. unfold reads_at, cursor in Hr. rewrite drop_0 in Hr. rewrite Hr by lia.
  assert (∀ pre z post o, length pre = o → u32_at (pre ++ to_be_bytes 4 z ++ post) o = wrap 32 z) as Hu.
  { intros pre z post o Ho. unfold u32_at. rewrite (field_at _ _ _ _ 4) by (done || apply length_to_be_bytes).
    by rewrite from_to_be_bytes. }
  assert (drop (0 + 12) d = tl) as ->.
  { subst d. rewrite (app_assoc _ (to_be_bytes 4 s)), (app_assoc _ (to_be_bytes 4 n)).
    apply drop_app_length'. by rewrite !length_app, !length_to_be_bytes. }
  unfold timestamp_at, time_t_at. change (0 + 4)%nat with 4%nat. change (0 + 8)%nat with 8%nat.
  assert (u32_at d 0 = wrap 32 (s / 2 ^ 32)) as -> by exact (Hu [] _ _ 0%nat eq_refl).
  assert (u32_at d 4 = wrap 32 s) as -> by exact (Hu _ s _ 4%nat (length_to_be_bytes _ _)).
  assert (u32_at d 8 = n) as ->.
  { subst d. rewrite (app_assoc _ (to_be_bytes 4 s)). rewrite Hu by (by rewrite length_app, !length_to_be_bytes).
    by apply wrap_small. }
  do 3 f_equal. destruct (Z.eqb_spec (s / 2 ^ 32) NO_HIGH_WORD) as [He|He]; [|by apply time_words].
  rewrite He. change (wrap 32 NO_HIGH_WORD =? NO_HIGH_WORD) with true. cbv iota.
  rewrite Z.mul_0_l, Z.add_0_l. pose proof (wrap_range 32 s ltac:(lia)) as Hw. unfold swrap, unsigned in *.
  rewrite Z.mod_small by lia. lia.
Qed.

(** Addresses and codes.  An address reads back as it was written, over
    whatever was in the buffer before and with whatever follows it; and every
    status, selection and algorithm code survives its type, known or not. *)
Theorem chrony_values_roundtrip (buf : bytes) (a : Address) (tl : bytes) (code : Z) :
  address_ok a →
  address (mkReader (drop (length buf) (put_address buf a) ++ tl)) = (Ok a, mkReader tl) ∧
  Status_code (Status_from_code code) = code ∧ SelectState_code (SelectState_from_code code) = code ∧
  Algorithm_code (Algorithm_from_code code) = code.
Proof.
  intros Ha. split; [by apply address_roundtrip|].
  unfold Status_from_code, SelectState_from_code, Algorithm_from_code.
  split; [|split]; by repeat case_match.
Qed.

(** C10: the values on the wire.  A 32-bit float decodes exactly, to its signed
    25-bit coefficient times two to its signed 7-bit exponent less 25; the
    product never rounds.  The seconds and nanoseconds a sender writes read back,
    before the epoch as after it; a sender with 32-bit times marks the high word
    and is read by the low one, and too many nanoseconds are capped.  An address
    reads back as it was written, and every status, selection and algorithm code
    survives its type, known or not. *)
Theorem chrony_wire_values (raw s n code : Z) (buf tl : bytes) (a : Address) :
  unsigned 32 raw → signed 64 s → unsigned 32 n → address_ok a →
  represents (float raw) (float_coef raw) (float_exp raw - 25) ∧
  timestamp (mkReader (to_be_bytes 4 (s / 2 ^ 32) ++ to_be_bytes 4 s ++ to_be_bytes 4 n ++ tl))
  = (Ok (mkTime (if s / 2 ^ 32 =? NO_HIGH_WORD then wrap 32 s else s) (Z.min n MAX_NSEC)), mkReader tl) ∧
  address (mkReader (drop (length buf) (put_address buf a) ++ tl)) = (Ok a, mkReader tl) ∧
  Status_code (Status_from_code code) = code ∧ SelectState_code (SelectState_from_code code) = code ∧
  Algorithm_code (Algorithm_from_code code) = code.
Proof.
  intros Hr Hs Hn Ha. split; [by apply chrony_float_exact|]. split; [by apply chrony_timestamp|].
  by apply chrony_values_roundtrip.
Qed.

Lemma chrony_wire_values_witness :
  represents (float 0x0880_0000) (0x80_0000) (4 - 25) ∧
  timestamp (mkReader ([xff; xff; xff; xff; xff; xff; xff; xff] ++ to_be_bytes 4 500000000 ++ [x01]))
  = (Ok (mkTime (-1) 500000000), mkReader [x01]) ∧
  address (mkReader (drop 1 (put_address [xff] (Id 0xdeadbeef)) ++ [x01])) = (Ok (Id 0xdeadbeef), mkReader [x01]) ∧
  Status_code (Status_from_code 20) = 20.
Proof.
  destruct (chrony_wire_values 0x0880_0000 (-1) 500000000 20 [xff] [x01] (Id 0xdeadbeef)) as (H1 & H2 & H3 & H4 & _).
  - split; [vm_compute; discriminate|reflexivity].
  - split; [vm_compute; discriminate|reflexivity].
  - split; [vm_compute; discriminate|reflexivity].
  - by vm_compute.
  - split; [exact H1|]. split; [exact H2|]. split; [exact H3|exact H4].
Defined.

(** The requests.  Each request the crate makes fits its datagram (the
    condition [build] only asserts in debug builds), is as long as its reply,
    and on attempt [k] is its header with [k] in it, its data and zeros. *)
Theorem chrony_request_datagram (idx seq k : Z) (a : Address) :
  address_ok a →
  as_bytes (with_attempt (tracking seq) k) = request_header 33 k seq ++ replicate 84 x00 ∧
  as_bytes (with_attempt (source_count seq) k) = request_header 14 k seq ++ replicate 12 x00 ∧
  as_bytes (with_attempt (source idx seq) k) = request_header 15 k seq ++ to_be_bytes 4 idx ++ replicate 52 x00 ∧
  as_bytes (with_attempt (selection idx seq) k) = request_header 69 k seq ++ to_be_bytes 4 idx ++ replicate 52 x00 ∧
  as_bytes (with_attempt (authentication a seq) k)
  = request_header 67 k seq ++ put_address [] a ++ replicate 12 x00.
Proof.
  intros Ha. destruct (requests_fit idx a Ha) as (H1 & H2 & H3 & H4 & H5).
  assert (length (put_address [] a) = 20%nat) as Hl.
  { destruct a; simpl in Ha; unfold put_address, in_first_four;
      rewrite ?length_app, ?length_to_be_bytes, ?Ha; done. }
  unfold tracking, source_count, source, selection, authentication, about.
  refine (conj _ (conj _ (conj _ (conj _ _)))); rewrite with_attempt_bytes by done;
    rewrite ?length_to_be_bytes, ?Hl; reflexivity.
Qed.

Lemma chrony_request_datagram_witness :
  as_bytes (with_attempt (source_count 0x01020304) 2)
  = [x06; x01; x00; x00; x00; x0e; x00; x02; x01; x02; x03; x04] ++ replicate 20 x00.
Proof.
  destruct (chrony_request_datagram 0 0x01020304 2 Unspecified I) as (_ & H & _). rewrite H. reflexivity.
Defined.

(** The verdict on a reply.  A reply is an answer exactly when it echoes
    the request's command and sequence number and has the client's version, or
    a version from 4 on with the status for a version mismatch: then the report
    (or why it does not decode), the daemon's status, or its version. *)
Theorem chrony_verdict {T} (r : Request T) (v c reply st s : Z) (data : bytes) :
  unsigned 8 v → unsigned 16 c → unsigned 16 reply → unsigned 16 st → unsigned 32 s →
  request_decode r (reply_header v c reply st s ++ data)
  = if decide (c = r.(command) ∧ s = r.(sequence)) then
      if v =? 6 then
        Answer (if st =? 0 then r.(decode_data) reply data else Err (StatusError (Status_from_code st)))
      else if (4 <=? v) && (st =? 18) then Answer (Err (Version v)) else Unrelated
    else Unrelated.
Proof. apply request_decode_reply. Qed.

Lemma chrony_verdict_witness :
  request_decode (source_count 9) (reply_header 6 14 2 0 9 ++ to_be_bytes 4 3) = Answer (Ok 3) ∧
  request_decode (source_count 9) (reply_header 6 14 2 0 8 ++ to_be_bytes 4 3) = Unrelated ∧
  request_decode (source_count 9) (reply_header 7 14 0 18 9 ++ []) = Answer (Err (Version 7)).
Proof.
  split; [|split]; rewrite chrony_verdict by (split; [vm_compute; discriminate|reflexivity]); by vm_compute.
Defined.

(** ** The exchange *)

(** A daemon on a clock: it answers with 7 sources, all alike, or not at all; a
    receive takes a microsecond. *)
Record Daemon : Type := mkDaemon { clock_ns : Z; answers : bool; last_sent : bytes }.

#[local] Instance Os_Daemon : Os Daemon := {|
  read_exact n := λ w, (Ok (replicate (Z.to_nat n) x2a), w);
  now w := (w.(clock_ns), w);
  set_write_timeout _ := λ w, (Ok tt, w);
  send bs := λ w, (Ok tt, mkDaemon w.(clock_ns) w.(answers) bs);
  set_read_timeout _ := λ w, (Ok tt, w);
  recv _ := λ w,
    (if negb w.(answers) then Err TimedOut
     else if u16_at w.(last_sent) 4 =? 14 then Ok (reply_header 6 14 2 0 (u32_at w.(last_sent) 8) ++ to_be_bytes 4 7)
     else Ok (reply_header 6 15 3 0 (u32_at w.(last_sent) 8) ++ replicate 48 x00),
     mkDaemon (w.(clock_ns) + 1000) w.(answers) w.(last_sent))
|}.

#[local] Instance Clocked_Daemon : Clocked Daemon.
Proof.
  refine {| time := clock_ns |}; try (intros; simpl; lia).
  intros w x. simpl. refine (conj _ (conj _ (conj _ (conj _ _)))); try done.
  intros _. by destruct (answers w); simpl; [case_match|].
Defined.

(** C11: an answer is genuine.  What an exchange gives is the report in the
    datagram received last: one that came after a request of one of the
    client's attempts was sent under a sequence number drawn for it, echoes
    that number and the command, and has the client's version, no error
    status, and the report's code and length. *)
Theorem chrony_answer_genuine {W} `{!Os W} (T : Type) (report_at : bytes → T) `{!Layout T, !LayoutAt T report_at}
    (fuel : nat) (self : Client) (data : bytes) (w : W) (v : T) (w' : W) :
  0 ≤ LEN T → exchange fuel self (build T data) w = (Ok v, w') →
  ∃ sq k datagram w1 w2 w3 w4 w5,
    let r := with_attempt (build T data (from_ne_bytes sq)) (attempt_u16 k) in
    0 ≤ k < attempts self ∧ calls w w1 ∧ read_exact 4 w1 = (Ok sq, w2) ∧ calls w2 w3 ∧
    send r.(as_bytes) w3 = (Ok tt, w4) ∧ calls w4 w5 ∧ recv RECV_BUF w5 = (Ok datagram, w') ∧
    u8_at datagram 0 = VERSION ∧ u8_at datagram 1 = TYPE_REPLY ∧ u16_at datagram 4 = COMMAND T ∧
    u16_at datagram 6 = REPLY T ∧ u16_at datagram 8 = STATUS_OK ∧ u32_at datagram 16 = from_ne_bytes sq ∧
    REPLY_HEADER + LEN T ≤ len datagram ∧
    v = report_at (bytes_at datagram 28 (Z.to_nat (LEN T))).
Proof. apply exchange_reports; done. Qed.

Lemma chrony_answer_genuine_witness :
  ∃ w' datagram, client_source_count 1 connected (mkDaemon 0 true []) = (Ok 7, w') ∧
    u32_at datagram 16 = 0x2a2a2a2a ∧ 7 = u32_at (bytes_at datagram 28 4) 0.
Proof.
  set (w := mkDaemon 0 true []).
  assert (client_source_count 1 connected w = (Ok 7, (client_source_count 1 connected w).2)) as H by (by vm_compute).
  assert (0 ≤ LEN Z) as HL by (by cbn).
  destruct (chrony_answer_genuine Z (λ d, u32_at d 0) 1 connected [] w 7 _ HL H)
    as (sq & k & dg & w1 & w2 & w3 & w4 & w5 & _ & _ & Hsq & _ & _ & _ & _ & _ & _ & _ & _ & _ & Hs & _ & Hv).
  exists (client_source_count 1 connected w).2, dg. split; [exact H|]. split; [|exact Hv].
  rewrite Hs. injection Hsq as <- _. by vm_compute.
Defined.

(** The waits of the back-off, in closed form. *)
Lemma backoff_nth n wait i x : 0 ≤ wait ≤ DURATION_MAX → backoff n wait !! i = Some x →
  x = Z.min (wait * 2 ^ Z.of_nat i) DURATION_MAX.
Proof.
  revert wait i. induction n as [|n IH]; intros wait i Hw; [done|]. cbn [backoff].
  destruct i as [|i]; simpl; [intros [= <-]; lia|]. intros H%IH; [|unfold doubled; lia]. subst x.
  unfold doubled. rewrite Nat2Z.inj_succ, Z.pow_succ_r by lia. pose proof (Z.pow_pos_nonneg 2 (Z.of_nat i)). nia.
Qed.

Lemma length_backoff n wait : length (backoff n wait) = n.
Proof. revert wait. induction n as [|n IH]; intros wait; [done|]. simpl. by rewrite IH. Qed.

(** The back-off.  An exchange sets one wait per attempt, at most as many
    as the client's attempts, the [i]-th [2^i] times the client's timeout (or
    the longest duration), and sends at most one datagram in each; it gives
    [Timeout] only after every attempt has sent and waited. *)
Theorem chrony_backs_off {W} `{!Os W} (T : Type) (report_at : bytes → T) `{!Layout T, !LayoutAt T report_at}
    (fuel : nat) (self : Client) (data : bytes) (w : W) :
  0 ≤ LEN T → 0 ≤ timeout self ≤ DURATION_MAX → 0 ≤ attempts self →
  let '(r, (_, log)) := exchange (W:=W * list Event) (Os0:=Os_log W) fuel self (build T data) (w, []) in
  (∀ i x, waits log !! i = Some x → x = Z.min (timeout self * 2 ^ Z.of_nat i) DURATION_MAX) ∧
  len (sends log) ≤ len (waits log) ≤ attempts self ∧
  (r = Err Timeout → len (sends log) = attempts self ∧ len (waits log) = attempts self).
Proof.
  intros HL Ht Ha. unfold exchange.
  destruct (exchange_logged fuel (build T data) (Z.to_nat (attempts self)) 0 (timeout self)
    (λ seq j dg, build_no_timeout T report_at data seq j dg HL) w []) as (d & Hd & Hp & Hs & Hto).
  destruct (exchange_from _ _ _ _ _ _) as [r [w' log]]. simpl in Hd. subst d. simpl in Hto.
  destruct Hp as [tl Hp]. pose proof (length_backoff (Z.to_nat (attempts self)) (timeout self)) as Hb.
  split; [|split].
  - intros i x Hi. eapply backoff_nth; [done|]. rewrite Hp. by apply lookup_app_l_Some.
  - rewrite Hp, length_app in Hb. lia.
  - intros Hr. destruct (Hto Hr) as [-> ->]. rewrite length_backoff. lia.
Qed.

(** A daemon that stays silent: three datagrams, with waits of 1, 2 and 4 seconds. *)
Lemma chrony_backs_off_witness :
  let '(r, (_, log)) :=
    exchange (W:=Daemon * list Event) (Os0:=Os_log Daemon) 9 connected (build Z []) (mkDaemon 0 false [], []) in
  r = Err Timeout ∧ waits log = [1000000000; 2000000000; 4000000000] ∧ len (sends log) = 3.
Proof.
  assert (0 ≤ LEN Z) as HL by (by cbn).
  pose proof (chrony_backs_off Z (λ d, u32_at d 0) 9 connected [] (mkDaemon 0 false [])
    HL ltac:(by vm_compute) ltac:(by vm_compute)) as H.
  destruct (exchange _ _ _ _) as [r [w' log]] eqn:He. destruct H as (_ & _ & Hto).
  assert (r = Err Timeout) as Hr by (vm_compute in He; by injection He as <- _ _).
  split; [exact Hr|]. split; [vm_compute in He; by injection He as _ _ <-|].
  by destruct (Hto Hr).
Defined.

(** C12: every call ends.  On a clock that does not go back and moves on with
    each receive, no call of the client panics or loops for ever, however many
    unrelated datagrams arrive: an attempt's loop turns at most once a
    nanosecond until its deadline, so [M] turns, [M] the longest wait, are
    enough.  Only a clock within [M] of the last instant it can give has no
    deadlines. *)
Theorem chrony_calls_end {W} `{!Os W, !Clocked W} (M : Z) (fuel : nat) (self : Client) (w : W) (idx : Z) (a : Address) :
  Forall (λ d, d ≤ M) (backoff (Z.to_nat (attempts self)) (timeout self)) → 0 ≤ M < Z.of_nat fuel →
  settles M w (client_tracking fuel self w) ∧ settles M w (client_source_count fuel self w) ∧
  settles M w (client_source fuel self idx w) ∧ settles M w (client_selection fuel self idx w) ∧
  settles M w (client_authentication fuel self a w) ∧ settles M w (client_sources fuel self w).
Proof.
  intros HM Hf.
  assert (∀ T report_at `{!Layout T, !LayoutAt T report_at} data, 0 ≤ LEN T →
    settles M w (exchange fuel self (build T data) w)) as He.
  { intros. apply (exchange_settles M fuel self HM ltac:(lia) ltac:(lia) _ report_at); done. }
  refine (conj _ (conj _ (conj _ (conj _ (conj _ _))))).
  - apply (He Tracking _ _ layout_tracking); by cbn.
  - apply (He Z _ _ layout_count); by cbn.
  - apply (He Source _ _ layout_source); by cbn.
  - apply (He Selection _ _ layout_selection); by cbn.
  - apply (He Authentication _ _ layout_authentication); by cbn.
  - apply sources_settle; done || lia.
Qed.

Lemma chrony_calls_end_witness :
  settles 4000000000 (mkDaemon 0 false []) (client_sources (Z.to_nat 4000000001) connected (mkDaemon 0 false [])).
Proof.
  refine (proj2 (proj2 (proj2 (proj2 (proj2 (chrony_calls_end 4000000000 (Z.to_nat 4000000001) connected
    (mkDaemon 0 false []) 0 Unspecified _ _)))))).
  - change (Z.to_nat (attempts connected)) with 3%nat. repeat constructor; vm_compute; discriminate.
  - rewrite Z2Nat.id by lia. lia.
Defined.

(** ** The source list *)

(** A source list is settled.  The list the client gives was read index by
    index in one walk, between two counts that both gave its length. *)
Theorem chrony_sources_settled {W} `{!Os W} (fuel : nat) (self : Client) (w : W) (l : list Source) (w' : W) :
  client_sources fuel self w = (Ok l, w') →
  ∃ w0 w1 w2, client_source_count fuel self w0 = (Ok (len l), w1) ∧
    walked (client_source fuel self) l 0 w1 w2 ∧ client_source_count fuel self w2 = (Ok (len l), w').
Proof.
  apply sources_settled. intros w0 n w1 H.
  apply (exchange_reports Z (λ d, u32_at d 0)) in H as (sq & k & dg & ? & ? & ? & ? & ? & _ & _ & _ & _ & _ & _ & _ & _ & _ & _ & _ & _ & _ & _ & ->); [|by cbn].
  pose proof (u32_at_range (bytes_at dg 28 (Z.to_nat (LEN Z))) 0) as Hr. unfold unsigned in Hr. lia.
Qed.

Lemma chrony_sources_settled_witness :
  ∃ w' w0 w1 w2, let l := replicate 7 (source_at (replicate 48 x00)) in
    client_sources 1 connected (mkDaemon 0 true []) = (Ok l, w') ∧
    client_source_count 1 connected w0 = (Ok 7, w1) ∧ walked (client_source 1 connected) l 0 w1 w2 ∧
    client_source_count 1 connected w2 = (Ok 7, w').
Proof.
  set (w := mkDaemon 0 true []). set (l := replicate 7 (source_at (replicate 48 x00))).
  assert (client_sources 1 connected w = (Ok l, (client_sources 1 connected w).2)) as H by (by vm_compute).
  destruct (chrony_sources_settled 1 connected w l _ H) as (w0 & w1 & w2 & H0).
  exists (client_sources 1 connected w).2, w0, w1, w2. cbv zeta. split; [exact H|exact H0].
Defined.

(** The walk against a daemon whose list does not change: whatever else
    happens, the client gives the list in its first walk. *)
Theorem chrony_sources_steady {W A} (count : St W Error Z) (get_source : Z → St W Error A) (Inv : W → Prop)
    (l : list A) (w : W) :
  (∀ w, Inv w → ∃ w', count w = (Ok (len l), w') ∧ Inv w') →
  (∀ w i a, Inv w → l !! i = Some a → ∃ w', get_source (Z.of_nat i) w = (Ok a, w') ∧ Inv w') →
  Inv w → ∃ w', sources count get_source w = (Ok l, w') ∧ Inv w'.
Proof. apply sources_steady. Qed.

(** A daemon that counts its calls. *)
Lemma chrony_sources_steady_witness :
  ∃ w', sources (λ w, (Ok 2, w + 1)) (λ i w, (Ok (if i =? 0 then "a"%string else "b"%string), w + 1)) 0
    = (Ok ["a"%string; "b"%string], w') ∧ 0 ≤ w'.
Proof.
  apply (chrony_sources_steady _ _ (λ w, 0 ≤ w) ["a"; "b"]%string 0); [| |done].
  - intros w Hw. exists (w + 1). split; [done|lia].
  - intros w i a Hw Hi. exists (w + 1). split; [|lia].
    destruct i as [|[|i]]; simpl in Hi; [by injection Hi as <-..|done].
Defined.
