(* ===== verification/Utf8.v ===== *)
(** Text: string literals, numbers and error numbers as text, and UTF-8: a valid
    text is a sequence of characters, each judged on its own. *)
From stdpp Require Import pretty.
From S2P Require Import Prelude XdrBase.
Local Open Scope Z_scope.

(** A string literal. *)
Definition lit (s : string) : bytes := String.list_byte_of_string s.
(** [{n}] of an integer. *)
Definition display_int (n : Z) : bytes := lit (pretty n).

(** [io::Error]'s [Display] of a raw error number: the text of the C library's
    [strerror], followed by the number. *)
Definition display_os (strerror : Z → bytes) (errno : Z) : bytes :=
  strerror errno ++ lit " (os error " ++ display_int errno ++ lit ")".

(** A character of a valid text: what follows it is judged on its own. *)
Definition utf8_char (c : bytes) : Prop :=
  c ≠ [] ∧ (∀ rest, utf8_valid (c ++ rest) = utf8_valid rest) ∧
  ((∃ b, c = [b] ∧ in_range 0 0x7f b = true) ∨ Forall (λ b, (byte_val b <? 0x80) = false) c).

Lemma in_range_high lo hi b : in_range lo hi b = true → 0x80 ≤ lo → (byte_val b <? 0x80) = false.
Proof. unfold in_range. rewrite andb_true_iff, !Z.leb_le. intros [H _] Hl. apply Z.ltb_ge. lia. Qed.

Lemma utf8_split l : utf8_valid l = true → l ≠ [] → ∃ c r, l = c ++ r ∧ utf8_char c ∧ utf8_valid r = true.
Proof.
  intros H Hne. destruct l as [|b0 l]; [done|]. cbn [utf8_valid] in H.
  destruct (in_range 0 127 b0) eqn:H0.
  { exists [b0], l. split; [done|]. split; [|done]. split; [done|]. split; [intros rest; simpl; by rewrite H0|].
    left. by exists b0. }
  destruct l as [|b1 l]; [done|].
  destruct (in_range 194 223 b0 && in_range 128 191 b1) eqn:H1.
  { exists [b0; b1], l. split; [done|]. split; [|done]. split; [done|]. split; [intros rest; simpl; by rewrite H0, H1|].
    right. apply andb_true_iff in H1 as [Ha Hb].
    repeat constructor; [eapply in_range_high; [exact Ha|lia]|eapply in_range_high; [exact Hb|lia]]. }
  destruct l as [|b2 l]; [done|].
  match type of H with (if ?c then _ else _) = _ => destruct c eqn:H2 end.
  { exists [b0; b1; b2], l. split; [done|]. split; [|done]. split; [done|].
    split; [intros rest; simpl; by rewrite H0, H1, H2|]. right.
    apply andb_true_iff in H2 as [H2 Hb2]. rewrite !orb_true_iff, !andb_true_iff in H2.
    assert ((byte_val b0 <? 128) = false ∧ (byte_val b1 <? 128) = false) as [Ha Hb].
    { destruct H2 as [[[[Ha Hb]|[Ha Hb]]|[Ha Hb]]|[Ha Hb]];
        (split; [eapply in_range_high; [exact Ha|lia]|eapply in_range_high; [exact Hb|lia]]). }
    repeat constructor; [done..|]. eapply in_range_high; [exact Hb2|lia]. }
  destruct l as [|b3 l]; [done|].
  match type of H with (if ?c then _ else _) = _ => destruct c eqn:H3 end; [|done].
  exists [b0; b1; b2; b3], l. split; [done|]. split; [|done]. split; [done|].
  split; [intros rest; simpl; by rewrite H0, H1, H2, H3|]. right.
  apply andb_true_iff in H3 as [H3 Hb3]. apply andb_true_iff in H3 as [H3 Hb2]. rewrite !orb_true_iff, !andb_true_iff in H3.
  assert ((byte_val b0 <? 128) = false ∧ (byte_val b1 <? 128) = false) as [Ha Hb].
  { destruct H3 as [[[Ha Hb]|[Ha Hb]]|[Ha Hb]];
      (split; [eapply in_range_high; [exact Ha|lia]|eapply in_range_high; [exact Hb|lia]]). }
  repeat constructor; [done..| |]; (eapply in_range_high; [eassumption|lia]).
Qed.

Lemma utf8_ind (P : bytes → Prop) : P [] → (∀ c r, utf8_char c → P r → P (c ++ r)) →
  ∀ l, utf8_valid l = true → P l.
Proof.
  intros H0 Hc l. remember (length l) as n eqn:Hn. revert l Hn.
  induction n as [n IH] using lt_wf_ind. intros l -> Hl. destruct l as [|b l']; [done|].
  destruct (utf8_split (b :: l') Hl ltac:(done)) as (c & r & Heq & Hch & Hr). rewrite Heq in *. apply Hc; [done|].
  eapply IH; [|reflexivity|done]. rewrite length_app. destruct c; [by destruct Hch|simpl; lia].
Qed.

Lemma utf8_app a b : utf8_valid a = true → utf8_valid (a ++ b) = utf8_valid b.
Proof.
  intros Ha. revert a Ha. apply utf8_ind; [done|]. intros c r (_ & Hc & _) IH. by rewrite <- app_assoc, Hc.
Qed.

(** ** Lossy decoding

    [String::from_utf8_lossy]: at each place the longest prefix that can begin a
    character, or one byte, is the character it spells or else U+FFFD. *)
Definition REPLACEMENT : bytes := [xef; xbf; xbd].

(** How a text begins: the bytes consumed, and whether they are a character. *)
Definition utf8_step (bs : bytes) : nat * bool :=
  let next n := match drop n bs with b :: _ => b | [] => x00 end in
  let continues n := in_range 0x80 0xbf (next n) in
  let b0 := next 0%nat in let b1 := next 1%nat in
  if in_range 0 0x7f b0 then (1%nat, true)
  else if in_range 0xc2 0xdf b0 then if continues 1%nat then (2%nat, true) else (1%nat, false)
  else if in_range 0xe0 0xef b0 then
    if (in_range 0xe0 0xe0 b0 && in_range 0xa0 0xbf b1)
       || (in_range 0xe1 0xec b0 && in_range 0x80 0xbf b1)
       || (in_range 0xed 0xed b0 && in_range 0x80 0x9f b1)
       || (in_range 0xee 0xef b0 && in_range 0x80 0xbf b1)
    then if continues 2%nat then (3%nat, true) else (2%nat, false)
    else (1%nat, false)
  else if in_range 0xf0 0xf4 b0 then
    if (in_range 0xf0 0xf0 b0 && in_range 0x90 0xbf b1)
       || (in_range 0xf1 0xf3 b0 && in_range 0x80 0xbf b1)
       || (in_range 0xf4 0xf4 b0 && in_range 0x80 0x8f b1)
    then if continues 2%nat
         then if continues 3%nat then (4%nat, true) else (3%nat, false)
         else (2%nat, false)
    else (1%nat, false)
  else (1%nat, false).

(** [skip] is how much of the last step is still to be passed over. *)
Fixpoint lossy_from (skip : nat) (bs : bytes) : bytes :=
  match bs with
  | [] => []
  | _ :: rest =>
      match skip with
      | S skip => lossy_from skip rest
      | O =>
          let '(n, ok) := utf8_step bs in
          (if ok then take n bs else REPLACEMENT) ++ lossy_from (pred n) rest
      end
  end.
Definition from_utf8_lossy (bs : bytes) : bytes := lossy_from 0 bs.


Lemma lossy_skip k bs : lossy_from k bs = from_utf8_lossy (drop k bs).
Proof. revert k. induction bs as [|b bs IH]; intros [|k]; try done. simpl. apply IH. Qed.

Lemma lossy_step b bs : from_utf8_lossy (b :: bs) =
  (if (utf8_step (b :: bs)).2 then take (utf8_step (b :: bs)).1 (b :: bs) else REPLACEMENT) ++
  from_utf8_lossy (drop (utf8_step (b :: bs)).1 (b :: bs)).
Proof.
  unfold from_utf8_lossy at 1. cbn [lossy_from]. assert (0 < (utf8_step (b :: bs)).1)%nat as Hn.
  { unfold utf8_step. repeat case_match; simpl; lia. }
  destruct (utf8_step (b :: bs)) as [n ok] eqn:Hs. simpl in Hn. rewrite lossy_skip. destruct n; [lia|done].
Qed.

(** A step that is a character takes exactly a character of the table. *)
Lemma step_char bs rest : bs ≠ [] → (utf8_step bs).2 = true → utf8_valid (take (utf8_step bs).1 bs ++ rest) = utf8_valid rest.
Proof.
  destruct bs as [|b0 bs]; [done|]. intros _. unfold utf8_step. cbn [drop].
  destruct (in_range 0 127 b0) eqn:H0; [intros _; simpl; by rewrite H0|].
  destruct bs as [|b1 bs]; [repeat case_match; done|]. cbn [drop].
  destruct (in_range 194 223 b0) eqn:H1.
  { destruct (in_range 128 191 b1) eqn:H2; [|done]. intros _. simpl. by rewrite H0, H1, H2. }
  destruct bs as [|b2 bs]; [repeat case_match; done|]. cbn [drop].
  destruct (in_range 224 239 b0) eqn:H2.
  { match goal with |- context [if ?c then _ else _] => destruct c eqn:H3 end; [|done].
    destruct (in_range 128 191 b2) eqn:H4; [|done]. intros _. simpl. by rewrite H0, H1, H3, H4. }
  assert (∀ lo hi, 224 ≤ lo → hi ≤ 239 → in_range lo hi b0 = false) as Hr.
  { unfold in_range in *. intros lo hi Hl Hh. apply andb_false_iff. apply andb_false_iff in H2 as [H2|H2]; apply Z.leb_gt in H2;
      [left|right]; apply Z.leb_gt; lia. }
  destruct bs as [|b3 bs]; [repeat case_match; done|]. cbn [drop].
  destruct (in_range 240 244 b0) eqn:H3; [|done].
  match goal with |- context [if ?c then _ else _] => destruct c eqn:H4 end; [|done].
  destruct (in_range 128 191 b2) eqn:H5; [|done]. destruct (in_range 128 191 b3) eqn:H6; [|done]. intros _. simpl.
  by rewrite H0, H1, !Hr, H4, H5, H6 by lia.
Qed.

(** Lossy decoding gives valid text, and valid text is left alone. *)
Lemma lossy_valid bs : utf8_valid (from_utf8_lossy bs) = true.
Proof.
  remember (length bs) as n eqn:Hn. revert bs Hn. induction n as [n IH] using lt_wf_ind. intros [|b bs] ->; [done|].
  rewrite lossy_step. assert (utf8_valid (from_utf8_lossy (drop (utf8_step (b :: bs)).1 (b :: bs))) = true) as Hr.
  { eapply IH; [|done]. rewrite length_drop. assert (0 < (utf8_step (b :: bs)).1)%nat.
    { unfold utf8_step. repeat case_match; simpl; lia. }
    simpl length. lia. }
  destruct (utf8_step (b :: bs)).2 eqn:Hok; [by rewrite step_char|]. by rewrite (utf8_app REPLACEMENT) by done.
Qed.

Lemma in_range_sub lo hi lo' hi' b : in_range lo hi b = true → lo' ≤ lo → hi ≤ hi' → in_range lo' hi' b = true.
Proof. unfold in_range. rewrite !andb_true_iff, !Z.leb_le. lia. Qed.

Lemma in_range_not lo hi lo' hi' b : in_range lo hi b = true → hi < lo' ∨ hi' < lo → in_range lo' hi' b = false.
Proof. unfold in_range. rewrite andb_true_iff, andb_false_iff, !Z.leb_le, !Z.leb_gt. lia. Qed.

Lemma valid_step bs : utf8_valid bs = true → bs ≠ [] → (utf8_step bs).2 = true.
Proof.
  destruct bs as [|b0 bs]; [done|]. intros H _. unfold utf8_step. cbn [drop utf8_valid] in *.
  destruct (in_range 0 127 b0) eqn:H0; [done|].
  destruct bs as [|b1 bs]; [done|]. cbn [drop].
  destruct (in_range 194 223 b0 && in_range 128 191 b1) eqn:H1; [by apply andb_true_iff in H1 as [-> ->]|].
  destruct bs as [|b2 bs]; [done|]. cbn [drop].
  match type of H with (if ?c && ?d then _ else _) = _ => destruct c eqn:H2; [destruct d eqn:H3|] end; cbn [andb] in H.
  - assert (in_range 224 239 b0 = true) as Hb.
    { rewrite !orb_true_iff, !andb_true_iff in H2. destruct H2 as [[[[H2 _]|[H2 _]]|[H2 _]]|[H2 _]]; (eapply in_range_sub; [exact H2|lia|lia]). }
    by rewrite (in_range_not _ _ 194 223 _ Hb), Hb by lia.
  - destruct bs as [|b3 bs]; [done|]. rewrite andb_false_r in H. done.
  - destruct bs as [|b3 bs]; [done|]. cbn [drop].
    match type of H with (if ?c && ?d && ?e then _ else _) = _ => destruct c eqn:H4; [|done]; destruct d eqn:H5; [|done]; destruct e eqn:H6; [|done] end.
    assert (in_range 240 244 b0 = true) as Hb.
    { rewrite !orb_true_iff, !andb_true_iff in H4. destruct H4 as [[[H4 _]|[H4 _]]|[H4 _]]; (eapply in_range_sub; [exact H4|lia|lia]). }
    by rewrite (in_range_not _ _ 194 223 _ Hb), (in_range_not _ _ 224 239 _ Hb), Hb by lia.
Qed.

Lemma lossy_id bs : utf8_valid bs = true → from_utf8_lossy bs = bs.
Proof.
  remember (length bs) as n eqn:Hn. revert bs Hn. induction n as [n IH] using lt_wf_ind. intros [|b bs] -> Hv; [done|].
  rewrite lossy_step. pose proof (valid_step _ Hv ltac:(done)) as Hs. rewrite Hs.
  pose proof (step_char (b :: bs) (drop (utf8_step (b :: bs)).1 (b :: bs)) ltac:(done) Hs) as Hc.
  rewrite take_drop in Hc. erewrite IH; [by rewrite take_drop| |done|congruence].
  rewrite length_drop. assert (0 < (utf8_step (b :: bs)).1)%nat.
  { unfold utf8_step. repeat case_match; simpl; lia. }
  simpl length. lia.
Qed.
