(* ===== verification/JsonFrame.v ===== *)
(** [truenas_jsonrpc/src/frame.rs]: where one message ends in a stream of
    bytes.  The scan against what it looks for, a grammar of nested brackets
    with string literals in which brackets do not count. *)
From S2P Require Import Prelude.
Local Open Scope Z_scope.

(** The bytes the scan knows, by their ASCII. *)
Definition QUOTE : Byte.byte := x22.
Definition COMMA : Byte.byte := x2c.
Definition BACKSLASH : Byte.byte := x5c.
Definition OPEN_BRACE : Byte.byte := x7b.
Definition CLOSE_BRACE : Byte.byte := x7d.
Definition OPEN_BRACKET : Byte.byte := x5b.
Definition CLOSE_BRACKET : Byte.byte := x5d.

(* SRC truenas_jsonrpc/src/frame.rs enum Frame *)
Inductive Frame : Type :=
| Complete (n : Z)
| Incomplete
| Invalid.

(* SRC truenas_jsonrpc/src/frame.rs fn is_ws *)
Definition is_ws (byte : Byte.byte) : bool :=
  match byte with x20 | x09 | x0a | x0d => true | _ => false end.

(** The patterns of the scan's [match]es. *)
Definition is_open (byte : Byte.byte) : bool := match byte with x7b | x5b => true | _ => false end.
Definition is_close (byte : Byte.byte) : bool := match byte with x7d | x5d => true | _ => false end.

(** [while i < buf.len() && is_ws(buf[i])]: what is left of the buffer at [i]. *)
(* SRC truenas_jsonrpc/src/frame.rs L 67-70 frame *)
Fixpoint skip_ws (buf : bytes) : bytes :=
  match buf with
  | b :: rest => if is_ws b then skip_ws rest else buf
  | [] => []
  end.

(** The [for] loop at position [at], on what is left of the buffer. *)
(* SRC truenas_jsonrpc/src/frame.rs L 81-106 frame *)
Fixpoint scan (pos depth : Z) (in_string escaped : bool) (buf : bytes) : Outcome Frame Empty_set :=
  match buf with
  | [] => Ok Incomplete
  | byte :: rest =>
      if in_string then
        if escaped then scan (pos + 1) depth true false rest
        else if bool_decide (byte = BACKSLASH) then scan (pos + 1) depth true true rest
        else if bool_decide (byte = QUOTE) then scan (pos + 1) depth false escaped rest
        else scan (pos + 1) depth true escaped rest
      else if bool_decide (byte = QUOTE) then scan (pos + 1) depth true escaped rest
      else if is_open byte then
        if depth =? usize_max then Stop Panicked else scan (pos + 1) (depth + 1) false escaped rest
      else if is_close byte then
        if depth =? 0 then Stop Panicked
        else if depth - 1 =? 0 then Ok (Complete (pos + 1))
        else scan (pos + 1) (depth - 1) false escaped rest
      else scan (pos + 1) depth false escaped rest
  end.

(* SRC truenas_jsonrpc/src/frame.rs fn frame *)
Definition frame (buf : bytes) : Outcome Frame Empty_set :=
  let rest := skip_ws buf in
  let i := len buf - len rest in
  match rest with
  | [] => Ok Incomplete
  | byte :: _ => if negb (is_open byte) then Ok Invalid else scan i 0 false false rest
  end.

(** ** The grammar *)

(** What is between the quotes of a string. *)
Inductive literal : bytes → Prop :=
| literal_nil : literal []
| literal_char b l : b ≠ QUOTE → b ≠ BACKSLASH → literal l → literal (b :: l)
| literal_escape b l : literal l → literal (BACKSLASH :: b :: l).

(** Text whose brackets outside strings nest. *)
Inductive nested : bytes → Prop :=
| nested_nil : nested []
| nested_plain b l : b ≠ QUOTE → is_open b = false → is_close b = false → nested l → nested (b :: l)
| nested_string s l : literal s → nested l → nested (QUOTE :: s ++ QUOTE :: l)
| nested_group o l c l' : is_open o = true → is_close c = true → nested l → nested l' →
    nested (o :: l ++ c :: l').

(** A message: one group. *)
Definition message (m : bytes) : Prop :=
  ∃ o l c, m = o :: l ++ [c] ∧ is_open o = true ∧ is_close c = true ∧ nested l.

Lemma nested_app l l' : nested l → nested l' → nested (l ++ l').
Proof.
  intros Hl Hl'. induction Hl as [|b l Hq Ho Hc _ IH|s l Hs _ IH|o l c l1 Ho Hc Hl _ _ IH]; simpl; [done|by constructor| |].
  - rewrite <- app_assoc. by constructor.
  - rewrite <- app_assoc. by constructor.
Qed.

(** [closes d l]: from inside [d] groups, [l] closes them all, at its end and
    not before. *)
Inductive closes : nat → bytes → Prop :=
| closes_nil : closes 0 []
| closes_group d l c l' : nested l → is_close c = true → closes d l' → closes (S d) (l ++ c :: l').

Lemma closes_app d l l' : nested l → closes (S d) l' → closes (S d) (l ++ l').
Proof. intros Hl H. inversion H; subst. rewrite app_assoc. constructor; [by apply nested_app|done..]. Qed.

Lemma closes_open d o l : is_open o = true → closes (S (S d)) l → closes (S d) (o :: l).
Proof.
  intros Ho H. inversion H as [|? l1 c l2 Hl Hc H2]; subst. inversion H2 as [|? l3 c' l4 Hl3 Hc' H4]; subst.
  change (o :: l1 ++ c :: l3 ++ c' :: l4) with ((o :: l1) ++ (c :: l3) ++ c' :: l4).
  rewrite app_assoc. constructor; [|done..]. by apply (nested_group o l1 c l3).
Qed.

Lemma closes_message l : closes 1 l → ∃ l' c, l = l' ++ [c] ∧ nested l' ∧ is_close c = true.
Proof. intros H. inversion H as [|? l1 c l2 Hl Hc H2]; subst. inversion H2; subst. by exists l1, c. Qed.

(** ** The scan finds what the grammar says *)
Lemma open_not_quote b : is_open b = true → b ≠ QUOTE.
Proof. by intros H ->. Qed.
Lemma close_not_quote b : is_close b = true → b ≠ QUOTE.
Proof. by intros H ->. Qed.
Lemma close_not_open b : is_close b = true → is_open b = false.
Proof. by destruct b. Qed.
Lemma open_not_ws b : is_open b = true → is_ws b = false.
Proof. by destruct b. Qed.

Lemma scan_literal s p d l : literal s →
  scan p d true false (s ++ QUOTE :: l) = scan (p + len s + 1) d false false l.
Proof.
  intros Hs. revert p. induction Hs as [|b s Hq Hb _ IH|b s _ IH]; intros p.
  - simpl. f_equal; lia.
  - simpl. rewrite !bool_decide_false, IH by done. f_equal; lia.
  - simpl. rewrite IH. f_equal; lia.
Qed.

Lemma scan_nested l p d rest : nested l → 1 ≤ d → d + len l ≤ usize_max →
  scan p d false false (l ++ rest) = scan (p + len l) d false false rest.
Proof.
  intros Hl. revert p d rest.
  induction Hl as [|b l Hq Ho Hc _ IH|s l Hs _ IH|o l c l' Ho Hc _ IH _ IH']; intros p d rest Hd Hlen.
  - simpl. f_equal; lia.
  - simpl in *. rewrite bool_decide_false, Ho, Hc, IH by (done || lia). f_equal; lia.
  - simpl in *. rewrite length_app in *. simpl in *. rewrite <- app_assoc. simpl.
    rewrite scan_literal, IH by (done || lia). f_equal; lia.
  - simpl in *. rewrite length_app in *. simpl in *. rewrite bool_decide_false, Ho by (by apply open_not_quote).
    destruct (Z.eqb_spec d usize_max); [lia|]. rewrite <- app_assoc, IH by lia. simpl.
    rewrite bool_decide_false, (close_not_open c), Hc by (done || by apply close_not_quote).
    destruct (Z.eqb_spec (d + 1) 0); [lia|]. destruct (Z.eqb_spec (d + 1 - 1) 0); [lia|].
    rewrite Z.add_simpl_r, IH' by lia. f_equal; lia.
Qed.

Lemma scan_message m p rest : message m → len m ≤ usize_max →
  scan p 0 false false (m ++ rest) = Ok (Complete (p + len m)).
Proof.
  intros (o & l & c & -> & Ho & Hc & Hl) Hlen. simpl in *. rewrite length_app in *. simpl in *.
  rewrite bool_decide_false, Ho by (by apply open_not_quote).
  change (0 =? usize_max) with false. cbv iota. rewrite <- app_assoc, scan_nested by (done || lia). simpl.
  rewrite bool_decide_false, (close_not_open c), Hc by (done || by apply close_not_quote). do 2 f_equal. lia.
Qed.

Lemma scan_string_inv l p d (esc : bool) n : scan p d true esc l = Ok (Complete n) →
  ∃ s l', l = s ++ QUOTE :: l' ∧ (if esc then ∃ b s', s = b :: s' ∧ literal s' else literal s) ∧
    scan (p + len s + 1) d false false l' = Ok (Complete n).
Proof.
  revert p esc. induction l as [|b l IH]; intros p esc H; [done|]. simpl in H. destruct esc.
  - apply IH in H as (s & l' & -> & Hs & H). exists (b :: s), l'. split; [done|]. split; [by exists b, s|].
    rewrite <- H. f_equal. simpl. lia.
  - case_bool_decide as Hb.
    + subst b. apply IH in H as (s & l' & -> & (b & s' & -> & Hs) & H). exists (BACKSLASH :: b :: s'), l'.
      split; [done|]. split; [by constructor|]. rewrite <- H. f_equal. simpl. lia.
    + case_bool_decide as Hq.
      * subst b. exists [], l. split; [done|]. split; [constructor|]. rewrite <- H. f_equal. simpl. lia.
      * apply IH in H as (s & l' & -> & Hs & H). exists (b :: s), l'. split; [done|]. split; [by constructor|].
        rewrite <- H. f_equal. simpl. lia.
Qed.

(** What the scan stops after closes every group it is in. *)
Lemma scan_inv k l p d n : (length l ≤ k)%nat → scan p (Z.of_nat (S d)) false false l = Ok (Complete n) →
  ∃ pre rest, l = pre ++ rest ∧ closes (S d) pre ∧ n = p + len pre.
Proof.
  revert l p d. induction k as [|k IH]; intros [|b l] p d Hk H; simpl in Hk; [done|lia|done|].
  cbn [scan] in H. case_bool_decide as Hq.
  - subst b. apply scan_string_inv in H as (s & l' & -> & Hs & H). rewrite length_app in Hk. simpl in Hk.
    apply IH in H as (pre & rest & -> & Hc & ->); [|lia]. exists ((QUOTE :: s ++ [QUOTE]) ++ pre), rest.
    split; [simpl; by rewrite <- !app_assoc|]. split; [|simpl; rewrite !length_app; simpl; lia].
    apply closes_app; [|done]. apply (nested_string s []); [done|constructor].
  - destruct (is_open b) eqn:Ho.
    { destruct (_ =? usize_max); [done|]. replace (Z.of_nat (S d) + 1) with (Z.of_nat (S (S d))) in H by lia.
      apply IH in H as (pre & rest & -> & Hc & ->); [|lia]. exists (b :: pre), rest. split; [done|].
      split; [by apply closes_open|]. simpl. lia. }
    destruct (is_close b) eqn:Hc.
    { destruct (Z.eqb_spec (Z.of_nat (S d)) 0); [lia|]. destruct (Z.eqb_spec (Z.of_nat (S d) - 1) 0).
      - injection H as <-. assert (d = 0%nat) as -> by lia. exists [b], l. split; [done|].
        split; [|done]. apply (closes_group 0 [] b []); [constructor|done|constructor].
      - destruct d as [|d]; [lia|]. replace (Z.of_nat (S (S d)) - 1) with (Z.of_nat (S d)) in H by lia.
        apply IH in H as (pre & rest & -> & Hcl & ->); [|lia]. exists (b :: pre), rest. split; [done|].
        split; [|simpl; lia]. apply (closes_group (S d) [] b pre); [constructor|done..]. }
    apply IH in H as (pre & rest & -> & Hcl & ->); [|lia]. exists (b :: pre), rest. split; [done|].
    split; [|simpl; lia]. apply (closes_app d [b]); [|done]. by repeat constructor.
Qed.

Lemma scan_verdict l p d s e : 1 ≤ d → d + len l ≤ usize_max →
  (∃ n, scan p d s e l = Ok (Complete n)) ∨ scan p d s e l = Ok Incomplete.
Proof.
  revert p d s e. induction l as [|b l IH]; intros p d s e Hd Hl; [by right|]. simpl in *.
  destruct (Z.eqb_spec d usize_max); [lia|]. destruct (Z.eqb_spec d 0); [lia|].
  destruct (Z.eqb_spec (d - 1) 0); repeat case_match; (apply IH; lia) || (left; by eexists).
Qed.

(** ** The buffer *)
Lemma skip_ws_app ws l : Forall (λ b, is_ws b = true) ws → skip_ws (ws ++ l) = skip_ws l.
Proof. intros Hw. induction Hw as [|b ws Hb _ IH]; simpl; [done|]. by rewrite Hb. Qed.

Definition blank (ws : bytes) : Prop := Forall (λ b, is_ws b = true) ws.

(** A buffer is blanks and then a byte that is not one, or its end. *)
Lemma ws_split buf : ∃ ws rest, buf = ws ++ rest ∧ blank ws ∧
  match rest with b :: _ => is_ws b = false | [] => True end.
Proof.
  induction buf as [|b buf (ws & rest & -> & Hw & Hb)]; simpl; [by exists [], []; repeat constructor|].
  destruct (is_ws b) eqn:Hws; [|by exists [], (b :: ws ++ rest); repeat constructor]. exists (b :: ws), rest. split; [done|].
  split; [by constructor|done].
Qed.

Lemma frame_eq ws rest : blank ws → match rest with b :: _ => is_ws b = false | [] => True end →
  frame (ws ++ rest) = match rest with
    | [] => Ok Incomplete
    | b :: r => if is_open b then scan (len ws + 1) 1 false false r else Ok Invalid
    end.
Proof.
  intros Hw Hb. unfold frame. rewrite skip_ws_app by done.
  assert (skip_ws rest = rest) as -> by (destruct rest as [|b r]; cbn [skip_ws]; [done|by rewrite Hb]).
  destruct rest as [|b r]; [done|]. destruct (is_open b) eqn:Ho; [|done]. cbn [negb scan].
  rewrite bool_decide_false, Ho by (by apply open_not_quote). change (0 =? usize_max) with false. cbv iota.
  rewrite length_app. f_equal. lia.
Qed.

(** The three verdicts, and that there is one. *)
Lemma frame_verdict buf : len buf ≤ isize_max →
  (∃ ws m rest, buf = ws ++ m ++ rest ∧ blank ws ∧ message m ∧ frame buf = Ok (Complete (len ws + len m))) ∨
  frame buf = Ok Incomplete ∨
  (∃ ws b rest, buf = ws ++ b :: rest ∧ blank ws ∧ is_ws b = false ∧ is_open b = false ∧ frame buf = Ok Invalid).
Proof.
  intros Hl. destruct (ws_split buf) as (ws & rest & -> & Hw & Hb). rewrite length_app in Hl.
  rewrite (frame_eq ws rest Hw Hb). destruct rest as [|o r]; [by right; left|].
  destruct (is_open o) eqn:Ho; [|by right; right; exists ws, o, r]. simpl in Hl. unfold isize_max in Hl.
  destruct (scan_verdict r (len ws + 1) 1 false false) as [[n Hn]|Hn]; [done|unfold usize_max; lia| |by rewrite Hn; right; left].
  left. rewrite Hn. apply (scan_inv (length r) r _ 0) in Hn as (pre & rest & -> & Hc & ->); [|done].
  apply closes_message in Hc as (l & c & -> & Hn & Hc). exists ws, (o :: l ++ [c]), rest.
  split; [done|]. split; [done|]. split; [by exists o, l, c|]. simpl. do 2 f_equal. lia.
Qed.

Lemma frame_message ws m rest : len (ws ++ m ++ rest) ≤ isize_max → blank ws → message m →
  frame (ws ++ m ++ rest) = Ok (Complete (len ws + len m)).
Proof.
  intros Hl Hw Hm. rewrite !length_app in Hl. unfold isize_max in Hl. pose proof Hm as (o & l & c & Hmo & Ho & _).
  assert (∃ r, m ++ rest = o :: r) as [r Hr] by (subst m; by eexists).
  pose proof (scan_message m (len ws) rest Hm ltac:(unfold usize_max; lia)) as Hs. rewrite Hr in *.
  rewrite frame_eq by (done || by rewrite open_not_ws). rewrite Ho, <- Hs. cbn [scan].
  by rewrite bool_decide_false, Ho by (by apply open_not_quote).
Qed.

Lemma frame_refused ws b rest : blank ws → is_ws b = false → is_open b = false → frame (ws ++ b :: rest) = Ok Invalid.
Proof. intros Hw Hb Ho. rewrite frame_eq by done. by rewrite Ho. Qed.
