(* ===== verification/Json.v ===== *)
(** What [truenas_jsonrpc] uses of [serde_json], which is not part of the
    repository: the operations as the class [SerdeJson], and what its
    documentation and JSON (RFC 8259) say of them as [SerdeJsonLaws].

    A [&str] is its bytes.  A [RawValue] is its text, without the blanks around
    it.  A [Value]'s object is its entries, in the order of their keys, which is
    the order the default [Map] keeps; an object's members as a
    [BTreeMap<String, &RawValue>] are a finite map.  [from_str] gives the error
    where the crate looks at it, and [None] elsewhere. *)
From Stdlib Require Import Numbers.DecimalString Sorting.Sorted.
From Stdlib Require Strings.String.
From S2P Require Import Prelude XdrBase JsonFrame.
Local Open Scope Z_scope.

(** The bytes of an ASCII literal, and the literal in quotes. *)
Definition ascii (s : string) : bytes := String.list_byte_of_string s.
Definition quoted (s : bytes) : bytes := QUOTE :: s ++ [QUOTE].

(** [i64::to_string]. *)
Definition decimal (z : Z) : bytes := ascii (NilZero.string_of_int (Z.to_int z)).

(** [serde_json::Value], over its [Number]. *)
Inductive Value (N : Type) : Type :=
| VNull
| VBool (b : bool)
| VNumber (n : N)
| VString (s : bytes)
| VArray (l : list (Value N))
| VObject (members : list (bytes * Value N)).
Arguments VNull {N}.
Arguments VBool {N} b.
Arguments VNumber {N} n.
Arguments VString {N} s.
Arguments VArray {N} l.
Arguments VObject {N} members.

(** [Map::get]. *)
Fixpoint get {V} (k : bytes) (members : list (bytes * V)) : option V :=
  match members with
  | [] => None
  | (k', v) :: rest => if bool_decide (k = k') then Some v else get k rest
  end.

Class SerdeJson : Type := {
  Num : Type;
  JsonError : Type;
  err_to_string : JsonError → bytes;
  num_of_Z : Z → Num;                                        (** [Number::from] *)
  as_i64 : Num → option Z;
  as_u64 : Num → option Z;
  from_str_raw : bytes → bytes + JsonError;                  (** [&RawValue] *)
  from_str_value : bytes → option (Value Num);
  from_str_string : bytes → option bytes;
  from_str_array : bytes → option (list bytes);              (** [Vec<&RawValue>] *)
  from_str_object : bytes → option (gmap bytes bytes);
  write_num : Num → bytes;
  write_str : bytes → bytes;
  write_value : Value Num → bytes
}.

(** A text that is one JSON value and nothing else. *)
Definition json `{!SerdeJson} (t : bytes) : Prop := from_str_raw t = inl t.

Fixpoint commas (l : list bytes) : bytes :=
  match l with
  | [] => []
  | [t] => t
  | t :: l => t ++ COMMA :: commas l
  end.
Definition COLON : Byte.byte := x3a.
Definition array_text (ts : list bytes) : bytes := OPEN_BRACKET :: commas ts ++ [CLOSE_BRACKET].
Definition member_text `{!SerdeJson} (m : bytes * bytes) : bytes := write_str m.1 ++ COLON :: m.2.
Definition object_text `{!SerdeJson} (ms : list (bytes * bytes)) : bytes :=
  OPEN_BRACE :: commas (map member_text ms) ++ [CLOSE_BRACE].

(** Bytes that a string writes as they are. *)
Definition plain (b : Byte.byte) : bool :=
  in_range 0x20 0x7e b && negb (bool_decide (b = QUOTE)) && negb (bool_decide (b = BACKSLASH)).

(** The integers a [Number] holds exactly. *)
Definition int_ok (z : Z) : Prop := signed 64 z ∨ unsigned 64 z.

Fixpoint bytes_lt (a b : bytes) : bool :=
  match a, b with
  | _, [] => false
  | [], _ :: _ => true
  | x :: a, y :: b => (byte_val x <? byte_val y) || ((byte_val x =? byte_val y) && bytes_lt a b)
  end.

(** A [Value] as a program holds it, nested at most [d] deep, with no number
    whose text could change on the way: integers only. *)
Inductive value_ok `{!SerdeJson} : nat → Value Num → Prop :=
| ok_null d : value_ok d VNull
| ok_bool d b : value_ok d (VBool b)
| ok_int d z : int_ok z → value_ok d (VNumber (num_of_Z z))
| ok_string d s : utf8_valid s = true → value_ok d (VString s)
| ok_array d l : Forall (value_ok d) l → value_ok (S d) (VArray l)
| ok_object d ms : Sorted (λ a b, bytes_lt a b = true) (map fst ms) →
    Forall (λ m, utf8_valid m.1 = true) ms → Forall (λ m, value_ok d m.2) ms → value_ok (S d) (VObject ms).

(** The nesting [serde_json] reads into a [Value]. *)
Definition DEPTH : nat := 127.

Class SerdeJsonLaws `{!SerdeJson} : Prop := {
  (** Blanks around a value mean nothing. *)
  blanks_raw ws t : blank ws → json t → from_str_raw (ws ++ t) = inl t;
  blanks_array ws t ts : blank ws → from_str_array t = Some ts → from_str_array (ws ++ t) = Some ts;
  blanks_object ws t ms : blank ws → from_str_object t = Some ms → from_str_object (ws ++ t) = Some ms;
  (** JSON is UTF-8 and its brackets nest. *)
  json_utf8 t : json t → utf8_valid t = true;
  json_nested t : json t → nested t;
  (** Arrays and objects; of two members with one name the last counts. *)
  array_json ts : Forall json ts → json (array_text ts) ∧ from_str_array (array_text ts) = Some ts;
  object_json ms : Forall (λ m, utf8_valid m.1 = true ∧ json m.2) ms →
    json (object_text ms) ∧ from_str_object (object_text ms) = Some (list_to_map (reverse ms));
  (** Scalars. *)
  null_json : json (ascii "null") ∧ from_str_value (ascii "null") = Some VNull;
  string_json s : utf8_valid s = true →
    json (write_str s) ∧ from_str_string (write_str s) = Some s ∧ from_str_value (write_str s) = Some (VString s);
  plain_string s : forallb plain s = true → write_str s = quoted s;
  int_json z : int_ok z → write_num (num_of_Z z) = decimal z ∧ json (decimal z) ∧
    from_str_value (decimal z) = Some (VNumber (num_of_Z z));
  int_i64 z : signed 64 z → as_i64 (num_of_Z z) = Some z;
  int_inj y z : int_ok y → int_ok z → num_of_Z y = num_of_Z z → y = z;
  write_value_num n : write_value (VNumber n) = write_num n;
  write_value_str s : write_value (VString s) = write_str s;
  (** Values, and objects whose members are in any order. *)
  value_json v : value_ok DEPTH v → json (write_value v) ∧ from_str_value (write_value v) = Some v;
  members_value ms : NoDup (map fst ms) → Forall (λ m, utf8_valid m.1 = true) ms →
    Forall (λ m, value_ok (DEPTH - 1) m.2) ms →
    ∃ vs, from_str_value (object_text (map (λ m, (m.1, write_value m.2)) ms)) = Some (VObject vs) ∧
      ∀ k, get k vs = get k ms
}.
