(* ===== verification/JsonRpc.v ===== *)
(** [truenas_jsonrpc]: JSON-RPC 2.0 for both roles without I/O: ids ([id.rs]),
    error objects ([error.rs]), reading requests ([request.rs]), building
    responses ([response.rs]), building requests ([client.rs]) and reading
    responses ([reply.rs]).

    A text a value serializes to is an argument where the value's type is the
    caller's: [to_raw_value]'s result.  A [RawValue] is its text. *)
From S2P Require Import Prelude XdrBase JsonFrame Json.
Local Open Scope Z_scope.

(* SRC truenas_jsonrpc/src/lib.rs const VERSION *)
Definition VERSION : bytes := ascii "2.0".
(* SRC truenas_jsonrpc/src/lib.rs const RESERVED_PREFIX *)
Definition RESERVED_PREFIX : bytes := ascii "rpc.".

(** Why something was refused. *)
(* SRC truenas_jsonrpc/src/request.rs type Reason *)
Definition Reason : Type := bytes.

Section JsonRpc.
Context {serde : SerdeJson}.

(** ** Ids *)

(* SRC truenas_jsonrpc/src/id.rs enum Id *)
Inductive Id : Type :=
| IdNumber (n : Num)
| IdString (s : bytes)
| IdNull.

(* SRC truenas_jsonrpc/src/id.rs fn from_i64 *)
Definition Id_from_i64 (n : Z) : Id := IdNumber (num_of_Z n).
(* SRC truenas_jsonrpc/src/id.rs fn from_string *)
Definition Id_from_string (s : bytes) : Id := IdString s.
(* SRC truenas_jsonrpc/src/id.rs fn is_null *)
Definition Id_is_null (i : Id) : bool := match i with IdNull => true | _ => false end.
(* SRC truenas_jsonrpc/src/id.rs fn has_fractional_part *)
Definition has_fractional_part (i : Id) : bool :=
  match i with
  | IdNumber n => bool_decide (as_i64 n = None) && bool_decide (as_u64 n = None)
  | _ => false
  end.

(* SRC truenas_jsonrpc/src/id.rs fn from_raw *)
Definition Id_from_raw (raw : bytes) : option Id :=
  match from_str_value raw with
  | Some VNull => Some IdNull
  | Some (VString s) => Some (IdString s)
  | Some (VNumber n) => Some (IdNumber n)
  | _ => None
  end.

(* SRC truenas_jsonrpc/src/id.rs impl fmt::Display for Id *)
Definition display_Id (i : Id) : bytes :=
  match i with
  | IdNumber n => write_num n
  | IdString s => s
  | IdNull => ascii "null"
  end.

(** [serde_json] writes [None] as [null]. *)
(* SRC truenas_jsonrpc/src/id.rs impl Serialize for Id *)
Definition write_id (i : Id) : bytes :=
  match i with
  | IdNumber n => write_num n
  | IdString v => write_str v
  | IdNull => ascii "null"
  end.

(** ** Error objects *)

(* SRC truenas_jsonrpc/src/error.rs const PARSE_ERROR *)
Definition PARSE_ERROR : Z := -32700.
(* SRC truenas_jsonrpc/src/error.rs const INVALID_REQUEST *)
Definition INVALID_REQUEST : Z := -32600.
(* SRC truenas_jsonrpc/src/error.rs const METHOD_NOT_FOUND *)
Definition METHOD_NOT_FOUND : Z := -32601.
(* SRC truenas_jsonrpc/src/error.rs const INVALID_PARAMS *)
Definition INVALID_PARAMS : Z := -32602.
(* SRC truenas_jsonrpc/src/error.rs const INTERNAL_ERROR *)
Definition INTERNAL_ERROR : Z := -32603.
(* SRC truenas_jsonrpc/src/error.rs const RESERVED_MIN *)
Definition RESERVED_MIN : Z := -32768.
(* SRC truenas_jsonrpc/src/error.rs const RESERVED_MAX *)
Definition RESERVED_MAX : Z := -32000.
(* SRC truenas_jsonrpc/src/error.rs const SERVER_ERROR_MIN *)
Definition SERVER_ERROR_MIN : Z := -32099.
(* SRC truenas_jsonrpc/src/error.rs const SERVER_ERROR_MAX *)
Definition SERVER_ERROR_MAX : Z := -32000.

(* SRC truenas_jsonrpc/src/error.rs struct ErrorObject *)
Record ErrorObject : Type := mkError { code : Z; error_message : bytes; error_data : option (Value Num) }.

(* SRC truenas_jsonrpc/src/error.rs fn new *)
Definition error_new (code : Z) (message : bytes) : ErrorObject := mkError code message None.
(* SRC truenas_jsonrpc/src/error.rs fn parse_error *)
Definition parse_error : ErrorObject := error_new PARSE_ERROR (ascii "Parse error").
(* SRC truenas_jsonrpc/src/error.rs fn invalid_request *)
Definition invalid_request : ErrorObject := error_new INVALID_REQUEST (ascii "Invalid Request").
(* SRC truenas_jsonrpc/src/error.rs fn method_not_found *)
Definition method_not_found : ErrorObject := error_new METHOD_NOT_FOUND (ascii "Method not found").
(* SRC truenas_jsonrpc/src/error.rs fn invalid_params *)
Definition invalid_params : ErrorObject := error_new INVALID_PARAMS (ascii "Invalid params").
(* SRC truenas_jsonrpc/src/error.rs fn internal_error *)
Definition internal_error : ErrorObject := error_new INTERNAL_ERROR (ascii "Internal error").
(* SRC truenas_jsonrpc/src/error.rs fn with_data *)
Definition with_data (e : ErrorObject) (data : Value Num) : ErrorObject :=
  mkError e.(code) e.(error_message) (Some data).
(* SRC truenas_jsonrpc/src/error.rs fn with_reason *)
Definition with_reason (e : ErrorObject) (reason : bytes) : ErrorObject := with_data e (VString reason).

(* SRC truenas_jsonrpc/src/error.rs fn is_reserved *)
Definition is_reserved (e : ErrorObject) : bool := (RESERVED_MIN <=? e.(code)) && (e.(code) <=? RESERVED_MAX).
(* SRC truenas_jsonrpc/src/error.rs fn is_server_error *)
Definition is_server_error (e : ErrorObject) : bool :=
  (SERVER_ERROR_MIN <=? e.(code)) && (e.(code) <=? SERVER_ERROR_MAX).
(* SRC truenas_jsonrpc/src/error.rs fn is_predefined *)
Definition is_predefined (e : ErrorObject) : bool :=
  (e.(code) =? PARSE_ERROR) || (e.(code) =? INVALID_REQUEST) || (e.(code) =? METHOD_NOT_FOUND)
  || (e.(code) =? INVALID_PARAMS) || (e.(code) =? INTERNAL_ERROR).
(* SRC truenas_jsonrpc/src/error.rs fn is_reserved_unassigned *)
Definition is_reserved_unassigned (e : ErrorObject) : bool :=
  is_reserved e && negb (is_server_error e) && negb (is_predefined e).

(* SRC truenas_jsonrpc/src/error.rs impl fmt::Display for ErrorObject *)
Definition display_ErrorObject (e : ErrorObject) : bytes :=
  OPEN_BRACKET :: decimal e.(code) ++ CLOSE_BRACKET :: x20 :: e.(error_message).

(** ** Reading requests *)

(* SRC truenas_jsonrpc/src/request.rs enum Params *)
Inductive Params : Type := Positional (raw : bytes) | Named (raw : bytes).

(* SRC truenas_jsonrpc/src/request.rs fn get *)
Definition params_get (p : Params) : bytes := match p with Positional raw | Named raw => raw end.
(* SRC truenas_jsonrpc/src/request.rs fn is_positional *)
Definition is_positional (p : Params) : bool := match p with Positional _ => true | _ => false end.
(* SRC truenas_jsonrpc/src/request.rs fn is_named *)
Definition is_named (p : Params) : bool := match p with Named _ => true | _ => false end.

(* SRC truenas_jsonrpc/src/request.rs struct Request *)
Record Request : Type := mkRequest {
  request_id : option Id;
  request_method : bytes;
  request_params : option Params
}.

(* SRC truenas_jsonrpc/src/request.rs fn is_notification *)
Definition is_notification (r : Request) : bool := match r.(request_id) with None => true | Some _ => false end.
(* SRC truenas_jsonrpc/src/request.rs fn is_reserved_method *)
Definition is_reserved_method (r : Request) : bool := bool_decide (RESERVED_PREFIX `prefix_of` r.(request_method)).
(* SRC truenas_jsonrpc/src/request.rs fn take_id *)
Definition take_id (r : Request) : option Id * Request :=
  (r.(request_id), mkRequest None r.(request_method) r.(request_params)).

(* SRC truenas_jsonrpc/src/request.rs enum Call *)
Inductive Call : Type :=
| Valid (r : Request)
| InvalidCall (id : Id) (error : ErrorObject) (reason : Reason).

(* SRC truenas_jsonrpc/src/request.rs enum Incoming *)
Inductive Incoming : Type :=
| Single (c : Call)
| Batch (cs : list Call)
| InvalidFrame (error : ErrorObject) (reason : Reason).

(* SRC truenas_jsonrpc/src/request.rs fn first_token *)
Definition first_token (text : bytes) : option Byte.byte := List.find (λ b, negb (is_ws b)) text.

(* SRC truenas_jsonrpc/src/request.rs fn as_str *)
Definition as_str (raw : bytes) : option bytes := from_str_string raw.

(** The checks once the id is known; every refusal is attributed to it. *)
(* SRC truenas_jsonrpc/src/request.rs L 278-322 one *)
Definition request_checked (members : gmap bytes bytes) (id : option Id) : Call :=
  let answer_to := default IdNull id in
  if negb (bool_decide (members !! ascii "jsonrpc" ≫= as_str = Some VERSION)) then
    InvalidCall answer_to invalid_request (ascii "'jsonrpc' must be exactly " ++ quoted VERSION)
  else
  match members !! ascii "method" ≫= as_str with
  | None => InvalidCall answer_to invalid_request (ascii "'method' must be a String")
  | Some method =>
      match (match members !! ascii "params" with
             | None => Some None
             | Some raw =>
                 match first_token raw with
                 | Some x5b => Some (Some (Positional raw))
                 | Some x7b => Some (Some (Named raw))
                 | _ => None
                 end
             end) with
      | None => InvalidCall answer_to invalid_request (ascii "'params' must be an Array or an Object")
      | Some params => Valid (mkRequest id method params)
      end
  end.

(* SRC truenas_jsonrpc/src/request.rs fn one *)
Definition request_one (text : bytes) : Call :=
  match from_str_object text with
  | Some members =>
      match members !! ascii "id" with
      | None => request_checked members None
      | Some raw =>
          match Id_from_raw raw with
          | Some id => request_checked members (Some id)
          | None => InvalidCall IdNull invalid_request (ascii "'id' must be a String, a Number, or Null")
          end
      end
  | None => InvalidCall IdNull invalid_request (ascii "unreadable Object")
  end.

(** One element of a batch. *)
(* SRC truenas_jsonrpc/src/request.rs L 232-241 batch *)
Definition batch_element (raw : bytes) : Call :=
  match first_token raw with
  | Some x7b => request_one raw
  | _ => InvalidCall IdNull invalid_request (ascii "a batch element must be an Object")
  end.

(* SRC truenas_jsonrpc/src/request.rs fn batch *)
Definition request_batch (text : bytes) : Incoming :=
  match from_str_array text with
  | Some elements =>
      match elements with
      | [] => InvalidFrame invalid_request (ascii "an empty batch")
      | _ => Batch (map batch_element elements)
      end
  | None => InvalidFrame invalid_request (ascii "a batch must be an Array of Request objects")
  end.

(* SRC truenas_jsonrpc/src/request.rs fn parse *)
Definition parse (frame : bytes) : Incoming :=
  if negb (utf8_valid frame) then InvalidFrame parse_error (ascii "not UTF-8") else
  match from_str_raw frame with
  | inl _ =>
      match first_token frame with
      | Some x7b => Single (request_one frame)
      | Some x5b => request_batch frame
      | _ => InvalidFrame invalid_request (ascii "a request must be an Object and a batch a non-empty Array")
      end
  | inr e => InvalidFrame parse_error (err_to_string e)
  end.

(** ** Building responses *)

(* SRC truenas_jsonrpc/src/response.rs enum Payload *)
Inductive Payload : Type := PResult (raw : bytes) | PError (e : ErrorObject).

(* SRC truenas_jsonrpc/src/response.rs struct Response *)
Record Response : Type := mkResponse { payload : Payload; response_id : Id }.

(** [result] is what [to_raw_value] gives. *)
(* SRC truenas_jsonrpc/src/response.rs fn success *)
Definition success (id : Id) (result : bytes + JsonError) : Response + JsonError :=
  match result with
  | inl raw => inl (mkResponse (PResult raw) id)
  | inr e => inr e
  end.
(* SRC truenas_jsonrpc/src/response.rs fn success_raw *)
Definition success_raw (id : Id) (result : bytes) : Response := mkResponse (PResult result) id.
(* SRC truenas_jsonrpc/src/response.rs fn error *)
Definition response_error (id : Id) (error : ErrorObject) : Response := mkResponse (PError error) id.

(* SRC truenas_jsonrpc/src/response.rs fn is_success *)
Definition response_is_success (r : Response) : bool :=
  match r.(payload) with PResult _ => true | PError _ => false end.
(* SRC truenas_jsonrpc/src/response.rs fn result *)
Definition response_result (r : Response) : option bytes :=
  match r.(payload) with PResult raw => Some raw | PError _ => None end.
(* SRC truenas_jsonrpc/src/response.rs fn error_object *)
Definition response_error_object (r : Response) : option ErrorObject :=
  match r.(payload) with PError e => Some e | PResult _ => None end.

(** The literals the crate writes around a member: [,"name":]. *)
Definition next_member (name : string) : bytes := COMMA :: quoted (ascii name) ++ [COLON].
Definition first_member (name : string) : bytes := OPEN_BRACE :: quoted (ascii name) ++ [COLON].

(* SRC truenas_jsonrpc/src/response.rs fn write_into *)
Definition write_into (self : Response) (out : bytes) : bytes :=
  let out := out ++ first_member "jsonrpc" ++ [QUOTE] in
  let out := out ++ VERSION in
  let out := out ++ [QUOTE; COMMA] in
  let out :=
    match self.(payload) with
    | PResult raw =>
        let out := out ++ quoted (ascii "result") ++ [COLON] in
        out ++ raw
    | PError e =>
        let out := out ++ quoted (ascii "error") ++ COLON :: first_member "code" in
        let out := out ++ decimal e.(code) in
        let out := out ++ next_member "message" in
        let out := out ++ write_str e.(error_message) in
        let out :=
          match e.(error_data) with
          | Some data => let out := out ++ next_member "data" in out ++ write_value data
          | None => out
          end in
        out ++ [CLOSE_BRACE]
    end in
  let out := out ++ next_member "id" in
  let out := out ++ write_id self.(response_id) in
  out ++ [CLOSE_BRACE].

(* SRC truenas_jsonrpc/src/response.rs fn to_bytes *)
Definition response_to_bytes (self : Response) : bytes := write_into self [].

(** The [for] loop: a comma before every element but the first. *)
(* SRC truenas_jsonrpc/src/response.rs L 156-161 batch_frame *)
Fixpoint write_responses (first : bool) (responses : list Response) (out : bytes) : bytes :=
  match responses with
  | [] => out
  | response :: rest =>
      let out := if first then out else out ++ [COMMA] in
      write_responses false rest (write_into response out)
  end.

(* SRC truenas_jsonrpc/src/response.rs fn batch_frame *)
Definition batch_frame (responses : list Response) : option bytes :=
  match responses with
  | [] => None
  | _ => Some (write_responses true responses [OPEN_BRACKET] ++ [CLOSE_BRACKET])
  end.

(** ** Building requests *)

(* SRC truenas_jsonrpc/src/client.rs enum BuildError *)
Inductive BuildError : Type := ParamsNotStructured | EncodeError (e : JsonError).

(* SRC truenas_jsonrpc/src/client.rs impl fmt::Display for BuildError *)
Definition display_BuildError (e : BuildError) : bytes :=
  match e with
  | ParamsNotStructured => ascii "'params' must be an Array or an Object"
  | EncodeError e => ascii "encoding failed: " ++ err_to_string e
  end.

(** [params] is what [to_raw_value] gives, if there are any; writing a method
    name or an id into a [Vec] does not fail. *)
(* SRC truenas_jsonrpc/src/client.rs fn open *)
Definition open (out : bytes) (method : bytes) (params : option (bytes + JsonError)) :
    bytes + BuildError :=
  let out := out ++ first_member "jsonrpc" ++ [QUOTE] in
  let out := out ++ VERSION in
  let out := out ++ QUOTE :: next_member "method" in
  let out := out ++ write_str method in
  match params with
  | Some (inl raw) =>
      match raw with
      | x5b :: _ | x7b :: _ => let out := out ++ next_member "params" in inl (out ++ raw)
      | _ => inr ParamsNotStructured
      end
  | Some (inr e) => inr (EncodeError e)
  | None => inl out
  end.

(* SRC truenas_jsonrpc/src/client.rs struct Caller *)
Record Caller : Type := mkCaller { next : Z }.

(* SRC truenas_jsonrpc/src/client.rs fn new *)
Definition caller_new : Caller := mkCaller 1.
(* SRC truenas_jsonrpc/src/client.rs fn peek_id *)
Definition peek_id (self : Caller) : Id := IdNumber (num_of_Z self.(next)).

(* SRC truenas_jsonrpc/src/client.rs fn request_with_id *)
Definition request_with_id (id : Id) (method : bytes) (params : option (bytes + JsonError)) :
    bytes + BuildError :=
  match open [] method params with
  | inl out =>
      let out := out ++ next_member "id" in
      let out := out ++ write_id id in
      inl (out ++ [CLOSE_BRACE])
  | inr e => inr e
  end.

(** [self.next.saturating_add(1)] of a [u64]. *)
(* SRC truenas_jsonrpc/src/client.rs L 80-95 request *)
Definition request (self : Caller) (method : bytes) (params : option (bytes + JsonError)) :
    ((Id * bytes) + BuildError) * Caller :=
  let id := peek_id self in
  match request_with_id id method params with
  | inl frame => (inl (id, frame), mkCaller (Z.min (self.(next) + 1) (2 ^ 64 - 1)))
  | inr e => (inr e, self)
  end.

(* SRC truenas_jsonrpc/src/client.rs fn notification *)
Definition notification (method : bytes) (params : option (bytes + JsonError)) : bytes + BuildError :=
  match open [] method params with
  | inl out => inl (out ++ [CLOSE_BRACE])
  | inr e => inr e
  end.

(* SRC truenas_jsonrpc/src/client.rs L 180-185 batch_of *)
Fixpoint write_objects (first : bool) (objects : list bytes) (out : bytes) : bytes :=
  match objects with
  | [] => out
  | object :: rest =>
      let out := if first then out else out ++ [COMMA] in
      write_objects false rest (out ++ object)
  end.

(* SRC truenas_jsonrpc/src/client.rs fn batch_of *)
Definition batch_of (objects : list bytes) : option bytes :=
  match objects with
  | [] => None
  | _ => Some (write_objects true objects [OPEN_BRACKET] ++ [CLOSE_BRACKET])
  end.

(** ** Reading responses *)

(* SRC truenas_jsonrpc/src/reply.rs enum Outcome *)
Inductive ReplyOutcome : Type := RResult (raw : bytes) | RFailure (e : ErrorObject).

(* SRC truenas_jsonrpc/src/reply.rs struct Reply *)
Record Reply : Type := mkReply {
  reply_id : Id;
  reply_result : option bytes;
  reply_error : option ErrorObject
}.

(** [unreachable!] panics. *)
(* SRC truenas_jsonrpc/src/reply.rs fn outcome *)
Definition outcome (r : Reply) : Outcome ReplyOutcome Empty_set :=
  match r.(reply_result), r.(reply_error) with
  | Some raw, None => Ok (RResult raw)
  | None, Some error => Ok (RFailure error)
  | _, _ => Stop Panicked
  end.

(* SRC truenas_jsonrpc/src/reply.rs fn is_success *)
Definition reply_is_success (r : Reply) : bool := match r.(reply_result) with Some _ => true | None => false end.

(* SRC truenas_jsonrpc/src/reply.rs enum Answer *)
Inductive Answer : Type :=
| ASingle (r : Reply)
| ABatch (rs : list Reply)
| AInvalid (reason : Reason).

(* SRC truenas_jsonrpc/src/reply.rs fn error_object *)
Definition error_object (raw : bytes) : ErrorObject + Reason :=
  match from_str_value raw with
  | Some (VObject members) =>
      match get (ascii "code") members ≫= (λ v, match v with VNumber n => as_i64 n | _ => None end) with
      | None => inr (ascii "'code' must be an integer Number")
      | Some code =>
          match get (ascii "message") members with
          | Some (VString message) =>
              let error := error_new code message in
              inl (match get (ascii "data") members with Some data => with_data error data | None => error end)
          | _ => inr (ascii "'message' must be a String")
          end
      end
  | _ => inr (ascii "'error' must be an Object")
  end.

(* SRC truenas_jsonrpc/src/reply.rs fn one *)
Definition reply_one (text : bytes) : Reply + Reason :=
  match from_str_object text with
  | None => inr (ascii "not an Object")
  | Some members =>
      if negb (bool_decide (members !! ascii "jsonrpc" ≫= as_str = Some VERSION)) then
        inr (ascii "'jsonrpc' must be exactly " ++ quoted VERSION)
      else
      match members !! ascii "id" with
      | None => inr (ascii "'id' is required in a response")
      | Some raw_id =>
          match Id_from_raw raw_id with
          | None => inr (ascii "'id' must be a String, a Number, or Null")
          | Some id =>
              match members !! ascii "result", members !! ascii "error" with
              | Some result, None => inl (mkReply id (Some result) None)
              | None, Some raw => match error_object raw with inl error => inl (mkReply id None (Some error)) | inr reason => inr reason end
              | Some _, Some _ => inr (ascii "'result' and 'error' must not both appear")
              | None, None => inr (ascii "one of 'result' and 'error' is required")
              end
          end
      end
  end.

(** The loop over the elements: the first that is refused refuses the batch. *)
(* SRC truenas_jsonrpc/src/reply.rs L 131-136 batch *)
Fixpoint replies (elements : list bytes) : list Reply + Reason :=
  match elements with
  | [] => inl []
  | raw :: rest =>
      match reply_one raw with
      | inl reply => match replies rest with inl rs => inl (reply :: rs) | inr reason => inr reason end
      | inr reason => inr reason
      end
  end.

(* SRC truenas_jsonrpc/src/reply.rs fn batch *)
Definition reply_batch (text : bytes) : Answer :=
  match from_str_array text with
  | None => AInvalid (ascii "a batch answer must be an Array of Response objects")
  | Some [] => AInvalid (ascii "a batch answer must not be an empty Array")
  | Some elements =>
      match replies elements with inl rs => ABatch rs | inr reason => AInvalid reason end
  end.

(* SRC truenas_jsonrpc/src/reply.rs fn parse_answer *)
Definition parse_answer (frame : bytes) : Answer :=
  if negb (utf8_valid frame) then AInvalid (ascii "not UTF-8") else
  match from_str_raw frame with
  | inl _ =>
      match first_token frame with
      | Some x7b => match reply_one frame with inl reply => ASingle reply | inr reason => AInvalid reason end
      | Some x5b => reply_batch frame
      | _ => AInvalid (ascii "a response must be an Object and a batch answer an Array")
      end
  | inr e => AInvalid (err_to_string e)
  end.
End JsonRpc.
