(* ===== verification/JsonRpcOk.v ===== *)
(** [truenas_jsonrpc]: what one role writes the other reads.  The frames the
    crate builds are JSON objects of the members it meant, each of them one
    message of [frame], and parsing gives the members back. *)
From S2P Require Import Prelude XdrBase JsonFrame Json JsonRpc.
Local Open Scope Z_scope.

(** ** Texts *)
Lemma blank_utf8 ws t : blank ws → utf8_valid (ws ++ t) = utf8_valid t.
Proof.
  intros Hw. induction Hw as [|b ws Hb _ IH]; [done|]. simpl.
  assert (in_range 0 0x7f b = true) as -> by (by destruct b). done.
Qed.

Lemma first_token_blank ws b r : blank ws → is_ws b = false → first_token (ws ++ b :: r) = Some b.
Proof.
  intros Hw Hb. unfold first_token. induction Hw as [|a ws Ha _ IH]; simpl; [by rewrite Hb|]. by rewrite Ha.
Qed.

Section Texts.
Context {serde : SerdeJson} {laws : SerdeJsonLaws}.

(** Members that can be written. *)
Definition members_ok (ms : list (bytes * bytes)) : Prop :=
  Forall (λ m, utf8_valid m.1 = true ∧ json m.2) ms.

Lemma nested_byte b : b ≠ QUOTE → is_open b = false → is_close b = false → nested [b].
Proof. intros. by repeat constructor. Qed.

Lemma nested_commas ts : Forall nested ts → nested (commas ts).
Proof.
  induction 1 as [|t ts Ht Hts IH]; [constructor|]. destruct ts as [|t' ts]; [done|].
  change (commas (t :: t' :: ts)) with (t ++ [COMMA] ++ commas (t' :: ts)).
  by repeat apply nested_app; [|apply nested_byte|].
Qed.

Lemma nested_member m : utf8_valid m.1 = true → json m.2 → nested (member_text m).
Proof.
  intros Hk Ht. unfold member_text. change (COLON :: m.2) with ([COLON] ++ m.2).
  repeat apply nested_app; [apply json_nested, string_json, Hk|by apply nested_byte|by apply json_nested].
Qed.

Lemma object_message ms : members_ok ms → message (object_text ms).
Proof.
  intros Hm. eexists OPEN_BRACE, _, CLOSE_BRACE. split; [reflexivity|]. split; [done|]. split; [done|].
  apply nested_commas. apply Forall_map. eapply Forall_impl; [exact Hm|]. intros m [Hk Ht]. by apply nested_member.
Qed.

Lemma array_message ts : Forall json ts → message (array_text ts).
Proof.
  intros Ht. eexists OPEN_BRACKET, _, CLOSE_BRACKET. split; [reflexivity|]. split; [done|]. split; [done|].
  apply nested_commas. eapply Forall_impl; [exact Ht|]. apply json_nested.
Qed.

Lemma object_members ms : members_ok ms → NoDup (map fst ms) →
  from_str_object (object_text ms) = Some (list_to_map ms).
Proof.
  intros Hm Hd. destruct (object_json ms Hm) as [_ ->]. f_equal. symmetry.
  apply list_to_map_proper; [|by rewrite reverse_Permutation]. done.
Qed.

(** What a parser is handed, of an object and of an array. *)
Lemma object_arrives ws ms : blank ws → members_ok ms → NoDup (map fst ms) →
  utf8_valid (ws ++ object_text ms) = true ∧ from_str_raw (ws ++ object_text ms) = inl (object_text ms) ∧
  first_token (ws ++ object_text ms) = Some OPEN_BRACE ∧
  from_str_object (ws ++ object_text ms) = Some (list_to_map ms).
Proof.
  intros Hw Hm Hd. destruct (object_json ms Hm) as [Hj _]. split; [rewrite blank_utf8 by done; by apply json_utf8|].
  split; [by apply blanks_raw|]. split; [by apply first_token_blank|]. apply blanks_object; [done|].
  by apply object_members.
Qed.

Lemma array_arrives ws ts : blank ws → Forall json ts →
  utf8_valid (ws ++ array_text ts) = true ∧ from_str_raw (ws ++ array_text ts) = inl (array_text ts) ∧
  first_token (ws ++ array_text ts) = Some OPEN_BRACKET ∧ from_str_array (ws ++ array_text ts) = Some ts.
Proof.
  intros Hw Ht. destruct (array_json ts Ht) as [Hj Ha]. split; [rewrite blank_utf8 by done; by apply json_utf8|].
  split; [by apply blanks_raw|]. split; [by apply first_token_blank|]. by apply blanks_array.
Qed.

(** ** Ids *)
Definition id_ok (i : Id) : Prop :=
  match i with
  | IdNumber n => ∃ z, int_ok z ∧ n = num_of_Z z
  | IdString s => utf8_valid s = true
  | IdNull => True
  end.

Lemma id_roundtrip i : id_ok i → json (write_id i) ∧ Id_from_raw (write_id i) = Some i.
Proof.
  unfold Id_from_raw. destruct i as [n|s|]; simpl.
  - intros (z & Hz & ->). destruct (int_json z Hz) as (-> & Hj & ->). done.
  - intros Hs. destruct (string_json s Hs) as (Hj & _ & ->). done.
  - intros _. destruct null_json as [Hj ->]. done.
Qed.

(** ** Requests *)

(** Parameters the crate takes: an array or an object. *)
Definition params_ok (raw : bytes) : Prop :=
  json raw ∧ ∃ b r, raw = b :: r ∧ is_open b = true.

Definition tagged (raw : bytes) : option Params :=
  match raw with
  | x5b :: _ => Some (Positional raw)
  | x7b :: _ => Some (Named raw)
  | _ => None
  end.

Definition request_members (id : option Id) (method : bytes) (params : option bytes) : list (bytes * bytes) :=
  [(ascii "jsonrpc", quoted VERSION); (ascii "method", write_str method)]
  ++ match params with Some raw => [(ascii "params", raw)] | None => [] end
  ++ match id with Some id => [(ascii "id", write_id id)] | None => [] end.

Lemma version_json : json (quoted VERSION) ∧ from_str_string (quoted VERSION) = Some VERSION.
Proof.
  assert (write_str VERSION = quoted VERSION) as <- by (by apply plain_string).
  by destruct (string_json VERSION eq_refl) as (? & ? & _).
Qed.

Lemma request_members_ok id method params : from_option id_ok True id → utf8_valid method = true →
  from_option params_ok True params →
  members_ok (request_members id method params) ∧ NoDup (map fst (request_members id method params)).
Proof.
  intros Hi Hm Hp. unfold members_ok, request_members. split.
  - repeat apply Forall_app_2; [repeat constructor; simpl; try done|destruct params|destruct id]; repeat constructor; simpl.
    + apply version_json.
    + by apply string_json.
    + apply Hp.
    + by apply id_roundtrip.
  - apply (bool_decide_unpack _). destruct params, id; by vm_compute.
Qed.

Lemma params_not_refused {A} raw (a b : A) : params_ok raw →
  (match raw with x5b :: _ | x7b :: _ => a | _ => b end) = a.
Proof. intros [_ (x & r & -> & Ho)]. by destruct x. Qed.

Lemma write_key (k : string) : forallb plain (ascii k) = true → write_str (ascii k) = quoted (ascii k).
Proof. apply plain_string. Qed.

Ltac literal_text := rewrite !write_key by (by vm_compute); unfold next_member, first_member, quoted;
  simpl; rewrite <- ?app_assoc; simpl; rewrite <- ?app_assoc; reflexivity.

Lemma open_text method params : from_option params_ok True params →
  open [] method (inl <$> params)
  = inl (OPEN_BRACE :: commas (map member_text (request_members None method params))).
Proof.
  intros Hp. unfold open, request_members, member_text. destruct params as [raw|]; cbn [fmap option_fmap option_map].
  - rewrite params_not_refused by done. f_equal. cbn [map commas app fst snd]. literal_text.
  - f_equal. cbn [map commas app fst snd]. literal_text.
Qed.

Lemma commas_snoc l t : l ≠ [] → commas (l ++ [t]) = commas l ++ COMMA :: t.
Proof.
  intros Hl. induction l as [|a l IH]; [done|]. destruct l as [|b l]; [done|].
  change (commas ((a :: b :: l) ++ [t])) with (a ++ COMMA :: commas ((b :: l) ++ [t])). rewrite IH by done.
  change (commas (a :: b :: l)) with (a ++ COMMA :: commas (b :: l)). by rewrite <- app_assoc.
Qed.

Lemma request_text id method params : from_option params_ok True params →
  request_with_id id method (inl <$> params) = inl (object_text (request_members (Some id) method params)).
Proof.
  intros Hp. unfold request_with_id. rewrite open_text by done. f_equal. unfold object_text.
  assert (request_members (Some id) method params = request_members None method params ++ [(ascii "id", write_id id)]) as ->
    by (unfold request_members; by rewrite app_nil_r, <- !app_assoc).
  rewrite map_app. cbn [map]. rewrite commas_snoc by (unfold request_members; by destruct params).
  unfold member_text at 3. cbn [fst snd]. rewrite write_key by (by vm_compute). unfold next_member.
  cbn [app]. rewrite <- ?app_assoc. cbn [app]. by rewrite <- ?app_assoc.
Qed.

Lemma notification_text method params : from_option params_ok True params →
  notification method (inl <$> params) = inl (object_text (request_members None method params)).
Proof. intros Hp. unfold notification. by rewrite open_text. Qed.

(** The request a frame of these members is. *)
Lemma params_tagged raw : params_ok raw → ∃ p, tagged raw = Some p ∧ params_get p = raw ∧
  first_token raw = head raw.
Proof.
  intros [_ (b & r & -> & Ho)]. destruct b; try done; eexists; (split; [reflexivity|]); done.
Qed.

Lemma members_lookup id method params :
  let m := list_to_map (request_members id method params) : gmap bytes bytes in
  m !! ascii "jsonrpc" = Some (quoted VERSION) ∧ m !! ascii "method" = Some (write_str method) ∧
  m !! ascii "params" = params ∧ m !! ascii "id" = write_id <$> id.
Proof.
  assert (∀ (k : bytes) v (l : list (bytes * bytes)), (list_to_map ((k, v) :: l) : gmap bytes bytes) = <[k := v]> (list_to_map l)) as Hc by done.
  intros m. subst m. unfold request_members. destruct params, id; cbn [app]; rewrite !Hc;
    refine (conj _ (conj _ (conj _ _)));
    repeat first [rewrite lookup_insert_eq | rewrite lookup_insert_ne by (vm_compute; discriminate) | apply lookup_empty]; done.
Qed.

Lemma request_one_reads text id method params : from_option id_ok True id → utf8_valid method = true →
  from_option params_ok True params →
  from_str_object text = Some (list_to_map (request_members id method params)) →
  request_one text = Valid (mkRequest id method (params ≫= tagged)).
Proof.
  intros Hi Hm Hp Ht. destruct (members_lookup id method params) as (Hj & Hmt & Hpa & Hid).
  assert (request_one text = request_checked (list_to_map (request_members id method params)) id) as ->.
  { unfold request_one. rewrite Ht, Hid. destruct id as [id|]; simpl; [|done]. by destruct (id_roundtrip id Hi) as [_ ->]. }
  unfold request_checked. rewrite Hj, Hmt, Hpa.
  cbn [mbind option_bind]. unfold as_str. destruct version_json as [_ ->]. rewrite bool_decide_true by done. cbn [negb].
  destruct (string_json method Hm) as (_ & -> & _). destruct params as [raw|]; [|done].
  destruct (params_tagged raw Hp) as (p & Htag & _ & ->). cbn [mbind option_bind]. rewrite Htag.
  destruct Hp as [_ (b & r & -> & Ho)]. destruct b; simpl in *; try done; by simplify_eq.
Qed.

Lemma parse_object ws ms : blank ws → members_ok ms → NoDup (map fst ms) →
  parse (ws ++ object_text ms) = Single (request_one (ws ++ object_text ms)).
Proof.
  intros Hw Hm Hd. destruct (object_arrives ws ms Hw Hm Hd) as (Hu & Hr & Hf & _). unfold parse.
  by rewrite Hu, Hr, Hf.
Qed.

(** ** Batches *)
Lemma write_objects_text first objects out :
  write_objects first objects out
  = out ++ (if first then commas objects else concat (map (cons COMMA) objects)).
Proof.
  revert first out. induction objects as [|o objects IH]; intros first out; simpl; [by destruct first; rewrite app_nil_r|].
  rewrite IH. destruct first; rewrite <- !app_assoc; [|done]. f_equal. clear IH.
  destruct objects as [|o' objects]; simpl; [by rewrite app_nil_r|]. f_equal. f_equal. clear.
  revert o'. induction objects as [|a l IH]; intros o'; simpl; [by rewrite app_nil_r|].
  f_equal. f_equal. apply IH.
Qed.

Lemma batch_of_text objects : objects ≠ [] → batch_of objects = Some (array_text objects).
Proof. intros Ho. destruct objects as [|o l]; [done|]. unfold batch_of. by rewrite write_objects_text. Qed.

Lemma batch_element_object ms : batch_element (object_text ms) = request_one (object_text ms).
Proof. done. Qed.

Lemma parse_array ws ts : blank ws → Forall json ts → ts ≠ [] →
  parse (ws ++ array_text ts) = Batch (map batch_element ts).
Proof.
  intros Hw Ht Hn. destruct (array_arrives ws ts Hw Ht) as (Hu & Hr & Hf & Ha). unfold parse, request_batch.
  rewrite Hu, Hr, Hf, Ha. by destruct ts.
Qed.

(** ** Responses *)
Definition error_ok (e : ErrorObject) : Prop :=
  signed 64 e.(code) ∧ utf8_valid e.(error_message) = true ∧ from_option (value_ok (DEPTH - 1)) True e.(error_data).

Definition response_ok (r : Response) : Prop :=
  id_ok r.(response_id) ∧
  match r.(payload) with PResult raw => json raw | PError e => error_ok e end.

Definition error_values (e : ErrorObject) : list (bytes * Value Num) :=
  [(ascii "code", VNumber (num_of_Z e.(code))); (ascii "message", VString e.(error_message))]
  ++ match e.(error_data) with Some data => [(ascii "data", data)] | None => [] end.

Definition error_text (e : ErrorObject) : bytes :=
  object_text (map (λ m, (m.1, write_value m.2)) (error_values e)).

Definition response_members (r : Response) : list (bytes * bytes) :=
  [(ascii "jsonrpc", quoted VERSION);
   match r.(payload) with PResult raw => (ascii "result", raw) | PError e => (ascii "error", error_text e) end;
   (ascii "id", write_id r.(response_id))].

Definition reply_of (r : Response) : Reply :=
  mkReply r.(response_id) (response_result r) (response_error_object r).

Lemma value_ok_mono d v : value_ok d v → value_ok (S d) v.
Proof.
  revert v. induction d as [|d IH]; intros v Hv; inversion Hv; subst; try by constructor.
  - constructor. eapply Forall_impl; [done|exact IH].
  - constructor; [done..|]. eapply Forall_impl; [done|]. intros m. apply IH.
Qed.

Lemma error_int e : error_ok e → int_ok e.(code).
Proof. intros [H _]. by left. Qed.

Lemma error_values_ok e : error_ok e → NoDup (map fst (error_values e)) ∧
  Forall (λ m, utf8_valid m.1 = true) (error_values e) ∧ Forall (λ m, value_ok (DEPTH - 1) m.2) (error_values e).
Proof.
  intros He. pose proof (error_int e He) as Hi. destruct He as (_ & Hm & Hd). unfold error_values.
  refine (conj _ (conj _ _)).
  - apply (bool_decide_unpack _). by destruct (error_data e); vm_compute.
  - by destruct (error_data e); repeat constructor.
  - apply Forall_app_2; [|destruct (error_data e); [by constructor|constructor]].
    repeat apply Forall_cons_2; [by apply ok_int|by apply ok_string|constructor].
Qed.

Lemma error_text_json e : error_ok e → json (error_text e).
Proof.
  intros He. destruct (error_values_ok e He) as (_ & Hk & Hv). apply object_json. apply Forall_map.
  eapply Forall_impl; [exact (proj2 (Forall_and _ _) (conj Hk Hv))|]. intros m [H1 H2]. simpl. split; [done|].
  apply value_json. by apply (value_ok_mono (DEPTH - 1)).
Qed.

Lemma error_text_reads e : error_ok e → error_object (error_text e) = inl e.
Proof.
  intros He. pose proof (error_values_ok e He) as (Hd & Hk & Hv).
  destruct (members_value (error_values e) Hd Hk Hv) as (vs & Hvs & Hg). unfold error_object, error_text.
  rewrite Hvs, !Hg. unfold error_values.
  assert (∀ (k k' : bytes) (v : Value Num) l, get k ((k', v) :: l) = if bool_decide (k = k') then Some v else get k l) as Hc by done.
  cbn [app]. rewrite !Hc. rewrite (bool_decide_true (ascii "code" = _)) by done. cbn [mbind option_bind].
  destruct He as (Hi & _). rewrite int_i64 by done.
  rewrite (bool_decide_false (ascii "message" = ascii "code")), (bool_decide_true (ascii "message" = _)) by (done || vm_compute; discriminate).
  destruct e as [c m [d|]]; simpl; [|done]. done.
Qed.

Lemma response_members_ok r : response_ok r → members_ok (response_members r) ∧ NoDup (map fst (response_members r)).
Proof.
  intros [Hi Hp]. unfold members_ok, response_members. split.
  - repeat constructor; simpl; try done.
    + apply version_json.
    + by destruct (payload r).
    + destruct (payload r); [done|by apply error_text_json].
    + by apply id_roundtrip.
  - apply (bool_decide_unpack _). by destruct (payload r); vm_compute.
Qed.

Lemma write_into_text r out : response_ok r → write_into r out = out ++ object_text (response_members r).
Proof.
  intros [_ Hp]. unfold write_into, object_text, response_members, member_text.
  destruct (payload r) as [raw|e] eqn:Hr.
  - cbn [map commas fst snd]. rewrite !write_key by (by vm_compute). unfold next_member, first_member, quoted.
    repeat (cbn [app]; rewrite <- app_assoc); reflexivity.
  - pose proof (error_int e Hp) as Hi. unfold error_text, error_values, object_text, member_text.
    destruct (int_json _ Hi) as (Hn & _). destruct e as [c m [d|]]; simpl in Hn;
      cbn [error_data code error_message app map commas fst snd]; rewrite write_value_num, write_value_str, Hn;
      rewrite !write_key by (by vm_compute); unfold next_member, first_member, quoted;
      repeat (cbn [app]; rewrite <- app_assoc); reflexivity.
Qed.

Lemma write_responses_text first rs out : Forall response_ok rs →
  write_responses first rs out = write_objects first (map (λ r, object_text (response_members r)) rs) out.
Proof.
  intros Hr. revert first out. induction Hr as [|r rs Hr _ IH]; intros first out; simpl; [done|].
  by rewrite write_into_text, IH.
Qed.

Lemma batch_frame_text rs : Forall response_ok rs → rs ≠ [] →
  batch_frame rs = Some (array_text (map (λ r, object_text (response_members r)) rs)).
Proof.
  intros Hr Hn. destruct rs as [|r rs]; [done|]. unfold batch_frame. by rewrite write_responses_text, write_objects_text.
Qed.

Lemma response_lookup r :
  let m := list_to_map (response_members r) : gmap bytes bytes in
  m !! ascii "jsonrpc" = Some (quoted VERSION) ∧ m !! ascii "id" = Some (write_id r.(response_id)) ∧
  m !! ascii "result" = response_result r ∧ m !! ascii "error" = error_text <$> response_error_object r.
Proof.
  assert (∀ (k : bytes) v (l : list (bytes * bytes)), (list_to_map ((k, v) :: l) : gmap bytes bytes) = <[k := v]> (list_to_map l)) as Hc by done.
  intros m. subst m. unfold response_members, response_result, response_error_object.
  destruct (payload r); rewrite !Hc; refine (conj _ (conj _ (conj _ _)));
    repeat first [rewrite lookup_insert_eq | rewrite lookup_insert_ne by (vm_compute; discriminate) | apply lookup_empty]; done.
Qed.

Lemma reply_one_reads text r : response_ok r →
  from_str_object text = Some (list_to_map (response_members r)) → reply_one text = inl (reply_of r).
Proof.
  intros [Hi Hp] Ht. unfold reply_one. rewrite Ht. destruct (response_lookup r) as (-> & -> & -> & ->).
  cbn [mbind option_bind]. unfold as_str. destruct version_json as [_ ->]. rewrite bool_decide_true by done. cbn [negb].
  destruct (id_roundtrip _ Hi) as [_ ->]. unfold reply_of, response_result, response_error_object.
  destruct (payload r); simpl; [done|]. by rewrite error_text_reads.
Qed.

Lemma parse_answer_single ws r : blank ws → response_ok r →
  parse_answer (ws ++ object_text (response_members r)) = ASingle (reply_of r).
Proof.
  intros Hw Hr. destruct (response_members_ok r Hr) as [Hm Hd].
  destruct (object_arrives ws _ Hw Hm Hd) as (Hu & Hraw & Hf & Ho). unfold parse_answer. rewrite Hu, Hraw, Hf. cbn [negb].
  by rewrite (reply_one_reads _ r).
Qed.

Lemma replies_read rs : Forall response_ok rs →
  replies (map (λ r, object_text (response_members r)) rs) = inl (map reply_of rs).
Proof.
  induction 1 as [|r rs Hr _ IH]; simpl; [done|]. destruct (response_members_ok r Hr) as [Hm Hd].
  by rewrite (reply_one_reads _ r Hr (object_members _ Hm Hd)), IH.
Qed.

Lemma responses_json rs : Forall response_ok rs → Forall json (map (λ r, object_text (response_members r)) rs).
Proof.
  intros Hr. apply Forall_map. eapply Forall_impl; [exact Hr|]. intros r Hok.
  destruct (response_members_ok r Hok) as [Hm _]. by apply object_json.
Qed.

Lemma parse_answer_batch ws rs : blank ws → Forall response_ok rs → rs ≠ [] →
  parse_answer (ws ++ array_text (map (λ r, object_text (response_members r)) rs)) = ABatch (map reply_of rs).
Proof.
  intros Hw Hr Hn. destruct (array_arrives ws _ Hw (responses_json rs Hr)) as (Hu & Hraw & Hf & Ha).
  unfold parse_answer, reply_batch. rewrite Hu, Hraw, Hf, Ha. cbn [negb].
  destruct rs as [|r rs]; [done|]. rewrite replies_read by done. done.
Qed.
End Texts.
