(* ===== verification/JsonModel.v ===== *)
(** A reader and a writer of JSON that satisfy [SerdeJsonLaws]: integers for
    numbers, escapes of ASCII characters only.  They show that the laws can
    hold together, and evaluate the concrete checks. *)
From Stdlib Require Import Numbers.DecimalString Numbers.DecimalZ Numbers.DecimalPos.
From Stdlib Require Strings.String.
From S2P Require Import Prelude XdrBase Utf8 JsonFrame Json.
Local Open Scope Z_scope.

(** ** Strings *)
Definition LOWER_U : Byte.byte := x75.
Definition hex_digit (n : Z) : Byte.byte := byte_of (if n <? 10 then 48 + n else 87 + n).
Definition hex_val (b : Byte.byte) : option Z :=
  let z := byte_val b in
  if (48 <=? z) && (z <=? 57) then Some (z - 48)
  else if (97 <=? z) && (z <=? 102) then Some (z - 87) else None.

Definition escape (b : Byte.byte) : bytes :=
  if bool_decide (b = QUOTE) then [BACKSLASH; QUOTE]
  else if bool_decide (b = BACKSLASH) then [BACKSLASH; BACKSLASH]
  else if byte_val b <? 0x20 then
    [BACKSLASH; LOWER_U; x30; x30; hex_digit (byte_val b / 16); hex_digit (byte_val b mod 16)]
  else [b].

Definition m_write_str (s : bytes) : bytes := QUOTE :: concat (map escape s) ++ [QUOTE].

Definition add_char (b : Byte.byte) (r : option (bytes * bytes)) : option (bytes * bytes) :=
  match r with Some (s, rest) => Some (b :: s, rest) | None => None end.

Definition unescape (c : Byte.byte) : option Byte.byte :=
  match c with
  | x22 | x5c | x2f => Some c
  | x62 => Some x08
  | x66 => Some x0c
  | x6e => Some x0a
  | x72 => Some x0d
  | x74 => Some x09
  | _ => None
  end.

(** The character of [\u00hl], an ASCII one. *)
Definition unicode (z1 z2 h l : Byte.byte) : option Byte.byte :=
  if bool_decide (z1 = x30 ∧ z2 = x30) then
    match hex_val h, hex_val l with
    | Some v, Some w => if v <? 8 then Some (byte_of (16 * v + w)) else None
    | _, _ => None
    end
  else None.

(** After the opening quote: the string and what follows its closing quote. *)
Fixpoint chars (l : bytes) : option (bytes * bytes) :=
  match l with
  | [] => None
  | b :: l =>
      if bool_decide (b = QUOTE) then Some ([], l)
      else if bool_decide (b = BACKSLASH) then
        match l with
        | c :: l =>
            if bool_decide (c = LOWER_U) then
              match l with
              | z1 :: z2 :: h1 :: h2 :: l =>
                  match unicode z1 z2 h1 h2 with Some u => add_char u (chars l) | None => None end
              | _ => None
              end
            else match unescape c with Some u => add_char u (chars l) | None => None end
        | [] => None
        end
      else if byte_val b <? 0x20 then None
      else add_char b (chars l)
  end.

(** ** Numbers *)
Definition numeric (b : Byte.byte) : bool := in_range 48 57 b || bool_decide (b = x2d).

Fixpoint span (l : bytes) : bytes * bytes :=
  match l with
  | b :: r => if numeric b then let '(d, rest) := span r in (b :: d, rest) else ([], l)
  | [] => ([], [])
  end.

Definition integer (d : bytes) : option Z :=
  Z.of_int <$> NilZero.int_of_string (String.string_of_list_byte d).

(** ** Values *)
Fixpoint strip (p l : bytes) : option bytes :=
  match p, l with
  | [], _ => Some l
  | a :: p, b :: l => if bool_decide (a = b) then strip p l else None
  | _, _ => None
  end.

Definition scalar (l : bytes) : option (Value Z * bytes) :=
  match strip (ascii "null") l with
  | Some rest => Some (VNull, rest)
  | None =>
  match strip (ascii "true") l with
  | Some rest => Some (VBool true, rest)
  | None =>
  match strip (ascii "false") l with
  | Some rest => Some (VBool false, rest)
  | None => let '(d, rest) := span l in z ← integer d; Some (VNumber z, rest)
  end end end.

(** A value, with its text and what follows it; the elements of an array and
    the members of an object, with theirs. *)
Fixpoint value (fuel : nat) (l : bytes) : option (Value Z * bytes) :=
  match fuel with
  | O => None
  | S fuel =>
      match l with
      | [] => None
      | b :: r =>
          if bool_decide (b = QUOTE) then '(s, rest) ← chars r; Some (VString s, rest)
          else if bool_decide (b = OPEN_BRACKET) then
            if bool_decide (head (skip_ws r) = Some CLOSE_BRACKET) then Some (VArray [], tail (skip_ws r))
            else '(es, rest) ← elements fuel r; Some (VArray (map snd es), rest)
          else if bool_decide (b = OPEN_BRACE) then
            if bool_decide (head (skip_ws r) = Some CLOSE_BRACE) then Some (VObject [], tail (skip_ws r))
            else '(ms, rest) ← members fuel r; Some (VObject (map (λ m, (m.1.1, m.2)) ms), rest)
          else scalar l
      end
  end
with elements (fuel : nat) (l : bytes) : option (list (bytes * Value Z) * bytes) :=
  match fuel with
  | O => None
  | S fuel =>
      let l := skip_ws l in
      '(v, r) ← value fuel l;
      let e := (take (length l - length r) l, v) in
      match skip_ws r with
      | b :: r =>
          if bool_decide (b = COMMA) then '(es, rest) ← elements fuel r; Some (e :: es, rest)
          else if bool_decide (b = CLOSE_BRACKET) then Some ([e], r) else None
      | [] => None
      end
  end
with members (fuel : nat) (l : bytes) : option (list ((bytes * bytes) * Value Z) * bytes) :=
  match fuel with
  | O => None
  | S fuel =>
      match skip_ws l with
      | b :: r =>
          if bool_decide (b = QUOTE) then
            '(k, r) ← chars r;
            match skip_ws r with
            | c :: r =>
                if bool_decide (c = COLON) then
                  let l := skip_ws r in
                  '(v, r) ← value fuel l;
                  let m := ((k, take (length l - length r) l), v) in
                  match skip_ws r with
                  | d :: r =>
                      if bool_decide (d = COMMA) then '(ms, rest) ← members fuel r; Some (m :: ms, rest)
                      else if bool_decide (d = CLOSE_BRACE) then Some ([m], r) else None
                  | [] => None
                  end
                else None
            | [] => None
            end
          else None
      | [] => None
      end
  end.

Definition fuel_for (l : bytes) : nat := 2 * length l + 2.

(** ** Reading on *)

(** What may follow a number. *)
Definition stops (l : bytes) : Prop := match l with b :: _ => numeric b = false | [] => True end.

Lemma add_char_inv b r s rest : add_char b r = Some (s, rest) → ∃ s', r = Some (s', rest) ∧ s = b :: s'.
Proof. destruct r as [[s' r']|]; simpl; intros; simplify_eq. by eexists. Qed.

(** What [chars] reads is a literal, and it reads no further than its end. *)
Lemma chars_reads n l s r : (length l ≤ n)%nat → chars l = Some (s, r) →
  ∃ t, l = t ++ QUOTE :: r ∧ literal t ∧ ∀ rest, chars (t ++ QUOTE :: rest) = Some (s, rest).
Proof.
  revert l s. induction n as [|n IH]; intros [|b l] s Hn H; simpl in Hn; [done|lia|done|]. cbn [chars] in H.
  case_bool_decide as Hq; [simplify_eq; exists []; split; [done|]; split; [constructor|done]|].
  case_bool_decide as Hb.
  - subst b. destruct l as [|c l]; [done|]. simpl in Hn. case_bool_decide as Hu.
    + subst c. destruct l as [|z1 [|z2 [|h1 [|h2 l]]]]; try done. simpl in Hn.
      destruct (unicode z1 z2 h1 h2) as [u|] eqn:Hx; [|done]. apply add_char_inv in H as (s' & H & ->).
      apply IH in H as (t & -> & Ht & Hr); [|lia]. exists (BACKSLASH :: LOWER_U :: z1 :: z2 :: h1 :: h2 :: t).
      split; [done|]. split; [|intros rest; simpl; by rewrite Hx, Hr].
      apply literal_escape. unfold unicode in Hx. case_bool_decide as Hz; [|done]. destruct Hz as [-> ->].
      assert (∀ h v, hex_val h = Some v → h ≠ QUOTE ∧ h ≠ BACKSLASH) as Hh
        by (intros h v Hv; split; intros ->; by vm_compute in Hv).
      destruct (hex_val h1) eqn:H1; [|done]. destruct (hex_val h2) eqn:H2; [|done].
      apply Hh in H1 as [??]. apply Hh in H2 as [??]. by do 4 (apply literal_char; [done..|]).
    + destruct (unescape c) as [u|] eqn:Hx; [|done]. apply add_char_inv in H as (s' & H & ->).
      apply IH in H as (t & -> & Ht & Hr); [|lia]. exists (BACKSLASH :: c :: t). split; [done|].
      split; [by apply literal_escape|]. intros rest. simpl. by rewrite bool_decide_false, Hx, Hr.
  - destruct (byte_val b <? 32) eqn:Hlt; [done|]. apply add_char_inv in H as (s' & H & ->).
    apply IH in H as (t & -> & Ht & Hr); [|lia]. exists (b :: t). split; [done|]. split; [by constructor|].
    intros rest. simpl. by rewrite !bool_decide_false, Hlt, Hr.
Qed.

Lemma skip_ws_inv l l' : skip_ws l = l' → ∃ ws, l = ws ++ l' ∧ blank ws ∧
  match l' with b :: _ => is_ws b = false | [] => True end.
Proof.
  intros <-. induction l as [|b l (ws & IH & Hw & Hb)]; cbn [skip_ws]; [exists []; repeat constructor|].
  destruct (is_ws b) eqn:Hws; [|exists []; by repeat constructor]. exists (b :: ws). simpl. rewrite <- IH.
  split; [done|]. split; [by constructor|done].
Qed.

Lemma skip_ws_cons ws b r : blank ws → is_ws b = false → skip_ws (ws ++ b :: r) = b :: r.
Proof. intros Hw Hb. rewrite skip_ws_app by done. cbn [skip_ws]. by rewrite Hb. Qed.

Lemma nested_blank ws : blank ws → nested ws.
Proof. induction 1 as [|b ws Hb _ IH]; [constructor|]. constructor; by destruct b. Qed.

Lemma stops_blank ws b r : blank ws → numeric b = false → stops (ws ++ b :: r).
Proof. intros Hw Hb. destruct Hw as [|a ws Ha _]; simpl; [done|]. by destruct a. Qed.

Lemma take_raw (t r : bytes) : take (length (t ++ r) - length r) (t ++ r) = t.
Proof. rewrite length_app, Nat.add_sub. apply take_app_length. Qed.

Lemma strip_inv p l r : strip p l = Some r → l = p ++ r ∧ ∀ rest, strip p (p ++ rest) = Some rest.
Proof.
  revert l. induction p as [|a p IH]; intros l H; simpl in *; [by simplify_eq|]. destruct l as [|b l]; [done|].
  case_bool_decide; [|done]. subst b. apply IH in H as [-> H]. split; [done|]. intros rest. by rewrite bool_decide_true.
Qed.

Lemma strip_head a p b l : a ≠ b → strip (a :: p) (b :: l) = None.
Proof. intros H. simpl. by rewrite bool_decide_false. Qed.

Lemma span_spec d rest : Forall (λ b, numeric b = true) d → stops rest → span (d ++ rest) = (d, rest).
Proof.
  intros Hd Hs. induction Hd as [|b d Hb _ IH]; simpl.
  - destruct rest as [|b r]; [done|]. simpl in *. by rewrite Hs.
  - by rewrite Hb, IH.
Qed.

Lemma span_inv l d r : span l = (d, r) → l = d ++ r ∧ Forall (λ b, numeric b = true) d ∧ stops r.
Proof.
  revert d. induction l as [|b l IH]; intros d H; simpl in H; [by simplify_eq|].
  destruct (numeric b) eqn:Hb; [|by simplify_eq]. destruct (span l) as [d' r'] eqn:Hs. simplify_eq.
  destruct (IH d' eq_refl) as (-> & Hd & Hr). split; [done|]. split; [by constructor|done].
Qed.

Lemma numeric_plain b : numeric b = true → b ≠ QUOTE ∧ is_open b = false ∧ is_close b = false ∧ is_ws b = false.
Proof. intros Hb. refine (conj _ (conj _ (conj _ _))); [intros ->; by vm_compute in Hb|by destruct b..]. Qed.

Definition starts (t : bytes) : Prop := ∃ b t', t = b :: t' ∧ is_ws b = false.
Definition reads (f : nat) (t : bytes) (v : Value Z) : Prop :=
  ∀ f' rest, (f ≤ f')%nat → stops rest → value f' (t ++ rest) = Some (v, rest).

Lemma integer_nonempty d z : integer d = Some z → d ≠ [].
Proof. by intros H ->. Qed.

(** Numbers start with none of the words, brackets or quotes. *)
Lemma scalar_number d rest z : Forall (λ b, numeric b = true) d → stops rest → integer d = Some z →
  scalar (d ++ rest) = Some (VNumber z, rest).
Proof.
  intros Hd Hs Hz. pose proof (integer_nonempty d z Hz). unfold scalar. destruct d as [|b d]; [done|].
  inversion Hd as [|? ? Hb Hd']; subst.
  assert (∀ a : Byte.byte, numeric a = false → a ≠ b) as Hne by (intros a Ha <-; congruence).
  change (ascii "null") with (x6e :: ascii "ull"). change (ascii "true") with (x74 :: ascii "rue").
  change (ascii "false") with (x66 :: ascii "alse"). simpl app.
  rewrite !strip_head by (by apply Hne). change (b :: d ++ rest) with ((b :: d) ++ rest).
  rewrite span_spec by done. by rewrite Hz.
Qed.

Lemma scalar_reads l v r : scalar l = Some (v, r) → ∃ t, l = t ++ r ∧ starts t ∧ nested t ∧
  (∀ b t', t = b :: t' → b ≠ QUOTE ∧ is_open b = false) ∧
  ∀ rest, stops rest → scalar (t ++ rest) = Some (v, rest).
Proof.
  intros H. unfold scalar in H.
  destruct (strip (ascii "null") l) as [r1|] eqn:H1.
  { simplify_eq. apply strip_inv in H1 as [-> _]. exists (ascii "null"). split; [done|]. split; [by eexists _, _|].
    split; [by repeat constructor|]. split; [by intros ?? [= <- _]|]. done. }
  destruct (strip (ascii "true") l) as [r1|] eqn:H2.
  { simplify_eq. apply strip_inv in H2 as [-> _]. exists (ascii "true"). split; [done|]. split; [by eexists _, _|].
    split; [by repeat constructor|]. split; [by intros ?? [= <- _]|]. done. }
  destruct (strip (ascii "false") l) as [r1|] eqn:H3.
  { simplify_eq. apply strip_inv in H3 as [-> _]. exists (ascii "false"). split; [done|]. split; [by eexists _, _|].
    split; [by repeat constructor|]. split; [by intros ?? [= <- _]|]. done. }
  destruct (span l) as [d rest] eqn:Hs. apply span_inv in Hs as (-> & Hd & Hst).
  destruct (integer d) as [z|] eqn:Hz; [|done]. simpl in H. simplify_eq. exists d. split; [done|].
  pose proof (integer_nonempty d z Hz) as Hne. split; [|split; [|split]].
  - destruct Hd as [|b d Hb _]; [done|]. exists b, d. split; [done|]. by apply numeric_plain.
  - clear -Hd. induction Hd as [|b d Hb _ IH]; [constructor|]. apply numeric_plain in Hb as (?&?&?&?). by constructor.
  - intros b t' ->. inversion Hd as [|? ? Hb]; subst. by apply numeric_plain in Hb as (?&?&?&?).
  - intros rest' Hr. by apply scalar_number.
Qed.

(** What the elements of an array, and the members of an object, are read from;
    [c] closes it. *)
Definition reads_list {E} (read : nat → bytes → option (list E * bytes)) (f : nat) (c : Byte.byte)
    (body : bytes) (es : list E) : Prop :=
  ∀ f' rest, (f ≤ f')%nat → read f' (body ++ c :: rest) = Some (es, rest).

Definition value_spec (f : nat) : Prop := ∀ l v r, value f l = Some (v, r) →
  ∃ t, l = t ++ r ∧ starts t ∧ nested t ∧ reads f t v.
Definition list_spec {E} (read : nat → bytes → option (list E * bytes)) (c : Byte.byte) (f : nat) : Prop :=
  ∀ l es r, read f l = Some (es, r) → ∃ ws body, l = ws ++ body ++ c :: r ∧ blank ws ∧ starts body ∧
    nested body ∧ reads_list read f c (ws ++ body) es.

(** An element and what follows it, up to the next comma or the end. *)
Lemma element_spec f l v r c r' : value_spec f → value f (skip_ws l) = Some (v, r) → skip_ws r = c :: r' →
  numeric c = false → ∃ ws t ws', l = ws ++ t ++ ws' ++ c :: r' ∧ blank ws ∧ starts t ∧ nested t ∧ blank ws' ∧
    is_ws c = false ∧ take (length (skip_ws l) - length r) (skip_ws l) = t ∧
    ∀ f' rest, (f ≤ f')%nat → let l' := ws ++ t ++ ws' ++ c :: rest in
      value f' (skip_ws l') = Some (v, ws' ++ c :: rest) ∧
      take (length (skip_ws l') - length (ws' ++ c :: rest)) (skip_ws l') = t.
Proof.
  intros Hf Hv Hr Hc. destruct (skip_ws_inv l _ eq_refl) as (ws & Hl & Hw & _).
  apply Hf in Hv as (t & Ht & Hst & Hn & Hrd). apply skip_ws_inv in Hr as (ws' & -> & Hw' & Hcw).
  exists ws, t, ws'. split; [by rewrite Hl at 1; rewrite Ht|]. do 4 (split; [done|]). split; [done|].
  split; [rewrite Ht; apply take_raw|]. intros f' rest Hle l'.
  assert (skip_ws l' = t ++ ws' ++ c :: rest) as ->.
  { subst l'. destruct Hst as (b & t' & -> & Hb). simpl. by apply skip_ws_cons. }
  split; [|apply take_raw]. apply Hrd; [done|]. by apply stops_blank.
Qed.

(** Lists of bytes up to associativity. *)
Ltac flat := repeat (cbn [app]; rewrite <- app_assoc); reflexivity.

Lemma elements_spec f : value_spec f → list_spec elements CLOSE_BRACKET f → list_spec elements CLOSE_BRACKET (S f).
Proof.
  intros Hv He l es r H. cbn [elements] in H. destruct (value f (skip_ws l)) as [[v r1]|] eqn:Hval; [|done].
  cbn [mbind option_bind] in H. destruct (skip_ws r1) as [|b r2] eqn:Hr1; [done|].
  case_bool_decide as Hb; [|case_bool_decide as Hb'; [|done]].
  - subst b. destruct (elements f r2) as [[es' r3]|] eqn:Hes; [|done]. cbn [mbind option_bind] in H. simplify_eq.
    destruct (element_spec f l v r1 COMMA r2 Hv Hval Hr1 eq_refl) as (ws & t & ws' & -> & Hw & Hst & Hn & Hw' & Hc & -> & Hrd).
    apply He in Hes as (ws2 & body & -> & Hw2 & Hb & Hnb & Hrb). exists ws, (t ++ ws' ++ [COMMA] ++ ws2 ++ body).
    split; [flat|]. split; [done|]. split; [destruct Hst as (b & t' & -> & Hbw); by eexists _, _|].
    split; [repeat apply nested_app; try done; try (by apply nested_blank); by repeat constructor|].
    intros f' rest Hle. destruct f' as [|f']; [lia|]. cbn [elements].
    destruct (Hrd f' (ws2 ++ body ++ CLOSE_BRACKET :: rest) ltac:(lia)) as [Hr1' Htk].
    assert ((ws ++ t ++ ws' ++ [COMMA] ++ ws2 ++ body) ++ CLOSE_BRACKET :: rest
      = ws ++ t ++ ws' ++ COMMA :: ws2 ++ body ++ CLOSE_BRACKET :: rest) as -> by flat.
    rewrite Hr1'. cbn [mbind option_bind]. rewrite skip_ws_cons, bool_decide_true by done. rewrite Htk.
    specialize (Hrb f' rest ltac:(lia)). rewrite <- app_assoc in Hrb. by rewrite Hrb.
  - subst b. simplify_eq.
    destruct (element_spec f l v r1 CLOSE_BRACKET r Hv Hval Hr1 eq_refl) as (ws & t & ws' & -> & Hw & Hst & Hn & Hw' & Hc & -> & Hrd).
    exists ws, (t ++ ws'). split; [flat|]. split; [done|].
    split; [destruct Hst as (b & t' & -> & Hbw); by eexists _, _|]. split; [apply nested_app; [done|by apply nested_blank]|].
    intros f' rest Hle. destruct f' as [|f']; [lia|]. cbn [elements].
    destruct (Hrd f' rest ltac:(lia)) as [Hr1' Htk].
    assert ((ws ++ t ++ ws') ++ CLOSE_BRACKET :: rest = ws ++ t ++ ws' ++ CLOSE_BRACKET :: rest) as -> by flat.
    rewrite Hr1'. cbn [mbind option_bind]. rewrite skip_ws_cons by done.
    rewrite bool_decide_false, bool_decide_true by done. by rewrite Htk.
Qed.

Lemma members_spec f : value_spec f → list_spec members CLOSE_BRACE f → list_spec members CLOSE_BRACE (S f).
Proof.
  intros Hv Hm l ms r H. cbn [members] in H. destruct (skip_ws l) as [|q r0] eqn:Hl; [done|].
  case_bool_decide as Hq; [|done]. subst q. destruct (chars r0) as [[k r1]|] eqn:Hk; [|done]. cbn [mbind option_bind] in H.
  apply skip_ws_inv in Hl as (ws0 & -> & Hw0 & _).
  apply (chars_reads (length r0)) in Hk as (s & -> & Hs & Hch); [|done].
  destruct (skip_ws r1) as [|c r2] eqn:Hr1; [done|]. apply skip_ws_inv in Hr1 as (ws1 & -> & Hw1 & _).
  case_bool_decide as Hc; [|done]. subst c.
  destruct (value f (skip_ws r2)) as [[v r3]|] eqn:Hval; [|done]. cbn [mbind option_bind] in H.
  destruct (skip_ws r3) as [|d r4] eqn:Hr3; [done|].
  assert (∀ t, nested t → nested ((QUOTE :: s ++ [QUOTE]) ++ ws1 ++ [COLON] ++ t)) as Hnest.
  { intros t Ht. repeat apply nested_app; try done; try (by apply nested_blank); [|by repeat constructor].
    apply (nested_string s []); [done|constructor]. }
  case_bool_decide as Hd; [|case_bool_decide as Hd'; [|done]].
  - subst d. destruct (members f r4) as [[ms' r5]|] eqn:Hms; [|done]. cbn [mbind option_bind] in H. simplify_eq.
    destruct (element_spec f r2 v r3 COMMA r4 Hv Hval Hr3 eq_refl) as (ws & t & ws' & -> & Hw & Hst & Hn & Hw' & _ & -> & Hrd).
    apply Hm in Hms as (ws2 & body & -> & Hw2 & Hb & Hnb & Hrb).
    exists ws0, ((QUOTE :: s ++ [QUOTE]) ++ ws1 ++ [COLON] ++ ws ++ t ++ ws' ++ [COMMA] ++ ws2 ++ body).
    split; [flat|]. split; [done|]. split; [by eexists _, _|].
    split; [apply Hnest; repeat apply nested_app; try done; try (by apply nested_blank); by repeat constructor|].
    intros f' rest Hle. destruct f' as [|f']; [lia|]. cbn [members].
    destruct (Hrd f' (ws2 ++ body ++ CLOSE_BRACE :: rest) ltac:(lia)) as [Hr1' Htk].
    assert ((ws0 ++ (QUOTE :: s ++ [QUOTE]) ++ ws1 ++ [COLON] ++ ws ++ t ++ ws' ++ [COMMA] ++ ws2 ++ body) ++ CLOSE_BRACE :: rest
      = ws0 ++ QUOTE :: s ++ QUOTE :: ws1 ++ COLON :: ws ++ t ++ ws' ++ COMMA :: ws2 ++ body ++ CLOSE_BRACE :: rest) as -> by flat.
    rewrite skip_ws_cons, bool_decide_true, Hch by done. cbn [mbind option_bind].
    rewrite skip_ws_cons, bool_decide_true by done. cbv zeta. rewrite Hr1'. cbn [mbind option_bind].
    rewrite skip_ws_cons, bool_decide_true by done. rewrite Htk.
    specialize (Hrb f' rest ltac:(lia)). rewrite <- app_assoc in Hrb. by rewrite Hrb.
  - subst d. simplify_eq.
    destruct (element_spec f r2 v r3 CLOSE_BRACE r Hv Hval Hr3 eq_refl) as (ws & t & ws' & -> & Hw & Hst & Hn & Hw' & _ & -> & Hrd).
    exists ws0, ((QUOTE :: s ++ [QUOTE]) ++ ws1 ++ [COLON] ++ ws ++ t ++ ws').
    split; [flat|]. split; [done|]. split; [by eexists _, _|].
    split; [apply Hnest; repeat apply nested_app; try done; by apply nested_blank|].
    intros f' rest Hle. destruct f' as [|f']; [lia|]. cbn [members]. destruct (Hrd f' rest ltac:(lia)) as [Hr1' Htk].
    assert ((ws0 ++ (QUOTE :: s ++ [QUOTE]) ++ ws1 ++ [COLON] ++ ws ++ t ++ ws') ++ CLOSE_BRACE :: rest
      = ws0 ++ QUOTE :: s ++ QUOTE :: ws1 ++ COLON :: ws ++ t ++ ws' ++ CLOSE_BRACE :: rest) as -> by flat.
    rewrite skip_ws_cons, bool_decide_true, Hch by done. cbn [mbind option_bind].
    rewrite skip_ws_cons, bool_decide_true by done. cbv zeta. rewrite Hr1'. cbn [mbind option_bind].
    rewrite skip_ws_cons by done. rewrite bool_decide_false, bool_decide_true by done. by rewrite Htk.
Qed.

(** A value in brackets: an empty one, or one with elements. *)
Lemma empty_group o c r : is_open o = true → is_close c = true → head (skip_ws r) = Some c →
  ∃ ws, r = ws ++ c :: tail (skip_ws r) ∧ nested (o :: ws ++ [c]) ∧
    ∀ rest, skip_ws (ws ++ c :: rest) = c :: rest.
Proof.
  intros Ho Hc Hh. destruct (skip_ws_inv r _ eq_refl) as (ws & Hr & Hw & Hb).
  destruct (skip_ws r) as [|b r'] eqn:Hs; [done|]. simpl in Hh. simplify_eq. exists ws. split; [done|].
  split; [apply (nested_group o ws c []); try done; [by apply nested_blank|constructor]|].
  intros rest. by apply skip_ws_cons.
Qed.

Lemma body_head ws body c rest : blank ws → starts body →
  head (skip_ws ((ws ++ body) ++ c :: rest)) = head body.
Proof.
  intros Hw (b & t & -> & Hb). rewrite <- app_assoc. simpl. by rewrite skip_ws_cons.
Qed.

Lemma group_spec {E} (read : nat → bytes → option (list E * bytes)) o c f r es rest :
  is_open o = true → is_close c = true → list_spec read c f → head (skip_ws r) ≠ Some c → read f r = Some (es, rest) →
  ∃ t, o :: r = (o :: t) ++ rest ∧ nested (o :: t) ∧ ∀ f' rest', (f ≤ f')%nat →
    head (skip_ws (t ++ rest')) ≠ Some c ∧ read f' (t ++ rest') = Some (es, rest').
Proof.
  intros Ho Hc Hl Hh H. apply Hl in H as (ws & body & -> & Hw & Hst & Hn & Hrd). exists ((ws ++ body) ++ [c]).
  split; [flat|]. split.
  - apply (nested_group o (ws ++ body) c []); [done..| |constructor]. apply nested_app; [by apply nested_blank|done].
  - intros f' rest' Hle. rewrite <- (app_assoc (ws ++ body)). simpl. split; [|by apply Hrd].
    rewrite body_head by done. by rewrite app_assoc, body_head in Hh by done.
Qed.

Lemma starts_cons b t : is_ws b = false → starts (b :: t).
Proof. intros. by eexists _, _. Qed.

Lemma value_step f : list_spec elements CLOSE_BRACKET f → list_spec members CLOSE_BRACE f → value_spec (S f).
Proof.
  intros He Hm l v r H. destruct l as [|b l]; [done|]. cbn [value] in H.
  assert (∀ t, (∀ f' rest, (f ≤ f')%nat → value (S f') ((b :: t) ++ rest) = Some (v, rest)) → reads (S f) (b :: t) v) as Hrd.
  { intros t Ht f' rest Hle _. destruct f' as [|f']; [lia|]. apply Ht. lia. }
  case_bool_decide as Hq.
  - subst b. destruct (chars l) as [[s r1]|] eqn:Hch; [|done]. cbn [mbind option_bind] in H. simplify_eq.
    apply (chars_reads (length l)) in Hch as (t & -> & Ht & Hch); [|done]. exists (QUOTE :: t ++ [QUOTE]).
    split; [flat|]. split; [by apply starts_cons|]. split; [apply (nested_string t []); [done|constructor]|].
    apply Hrd. intros f' rest _. rewrite <- app_comm_cons, <- app_assoc. cbn [app value].
    rewrite bool_decide_true, Hch by done. done.
  - case_bool_decide as Ha.
    + subst b. case_bool_decide as Hh.
      * simplify_eq. destruct (empty_group OPEN_BRACKET CLOSE_BRACKET l eq_refl eq_refl Hh) as (ws & Hl & Hn & Hsk).
        exists (OPEN_BRACKET :: ws ++ [CLOSE_BRACKET]). split; [rewrite Hl at 1; flat|].
        split; [by apply starts_cons|]. split; [done|]. apply Hrd. intros f' rest _.
        rewrite <- app_comm_cons, <- app_assoc. cbn [app value]. rewrite Hsk. done.
      * destruct (elements f l) as [[es r1]|] eqn:Hes; [|done]. cbn [mbind option_bind] in H. simplify_eq.
        destruct (group_spec elements OPEN_BRACKET CLOSE_BRACKET f l es r eq_refl eq_refl He Hh Hes) as (t & -> & Hn & Hg).
        exists (OPEN_BRACKET :: t). split; [done|]. split; [by apply starts_cons|]. split; [done|].
        apply Hrd. intros f' rest Hle. destruct (Hg f' rest Hle) as [Hh' Hr]. cbn [app value].
        rewrite bool_decide_false, bool_decide_true, (bool_decide_false (head _ = _)), Hr by done. done.
    + case_bool_decide as Ho.
      * subst b. case_bool_decide as Hh.
        -- simplify_eq. destruct (empty_group OPEN_BRACE CLOSE_BRACE l eq_refl eq_refl Hh) as (ws & Hl & Hn & Hsk).
           exists (OPEN_BRACE :: ws ++ [CLOSE_BRACE]). split; [rewrite Hl at 1; flat|].
           split; [by apply starts_cons|]. split; [done|]. apply Hrd. intros f' rest _.
           rewrite <- app_comm_cons, <- app_assoc. cbn [app value]. rewrite Hsk. done.
        -- destruct (members f l) as [[ms r1]|] eqn:Hms; [|done]. cbn [mbind option_bind] in H. simplify_eq.
           destruct (group_spec members OPEN_BRACE CLOSE_BRACE f l ms r eq_refl eq_refl Hm Hh Hms) as (t & -> & Hn & Hg).
           exists (OPEN_BRACE :: t). split; [done|]. split; [by apply starts_cons|]. split; [done|].
           apply Hrd. intros f' rest Hle. destruct (Hg f' rest Hle) as [Hh' Hr]. cbn [app value].
           rewrite !bool_decide_false by done. rewrite bool_decide_true by done.
           rewrite (bool_decide_false (head _ = _)), Hr by done. done.
      * apply scalar_reads in H as (t & Hl & Hst & Hn & Hhd & Hsc). exists t. do 3 (split; [done|]).
        destruct Hst as (b' & t' & -> & Hw). destruct (Hhd _ _ eq_refl) as [Hnq Hno].
        intros f' rest Hle Hs. destruct f' as [|f']; [lia|]. rewrite <- app_comm_cons. cbn [value].
        rewrite !bool_decide_false by (by first [done|intros ->]). rewrite app_comm_cons. by apply Hsc.
Qed.

Lemma reader f : value_spec f ∧ list_spec elements CLOSE_BRACKET f ∧ list_spec members CLOSE_BRACE f.
Proof.
  induction f as [|f (Hv & He & Hm)]; [by repeat split|].
  split; [by apply value_step|]. split; [by apply elements_spec|by apply members_spec].
Qed.

(** ** UTF-8 *)
Lemma utf8_ascii l : Forall (λ b, in_range 0 0x7f b = true) l → utf8_valid l = true.
Proof. induction 1 as [|b l Hb _ IH]; [done|]. cbn [utf8_valid]. by rewrite Hb. Qed.

Lemma escape_ascii b : in_range 0 0x7f b = true → utf8_valid (escape b) = true.
Proof. destruct b; by vm_compute. Qed.

Lemma escape_high b : (byte_val b <? 0x80) = false → escape b = [b].
Proof. destruct b; by vm_compute. Qed.

Lemma escape_utf8 s : utf8_valid s = true → utf8_valid (concat (map escape s)) = true.
Proof.
  revert s. apply utf8_ind; [done|]. intros c r (Hne & Hc & Hch) IH. rewrite map_app, concat_app.
  destruct Hch as [(b & -> & Hb)|Hh].
  - simpl. rewrite app_nil_r, utf8_app by (by apply escape_ascii). done.
  - assert (concat (map escape c) = c) as ->; [|by rewrite Hc].
    clear -Hh. induction Hh as [|b c Hb _ IH]; [done|]. simpl. by rewrite escape_high, IH.
Qed.

Lemma write_str_utf8 s : utf8_valid s = true → utf8_valid (m_write_str s) = true.
Proof.
  intros Hs. unfold m_write_str. change (QUOTE :: concat (map escape s) ++ [QUOTE]) with ([QUOTE] ++ concat (map escape s) ++ [QUOTE]).
  rewrite !utf8_app; [done|by apply escape_utf8|done].
Qed.

Lemma escape_chars b rest : chars (escape b ++ rest) = add_char b (chars rest).
Proof. destruct b; reflexivity. Qed.

Lemma chars_escaped s rest : chars (concat (map escape s) ++ QUOTE :: rest) = Some (s, rest).
Proof.
  induction s as [|b s IH]; [done|]. simpl. rewrite <- app_assoc, escape_chars, IH. done.
Qed.

(** ** The instance *)
Definition ended {A} (a : A) (rest : bytes) : option A := if decide (skip_ws rest = []) then Some a else None.

Definition m_read (t : bytes) : option (bytes * Value Z) :=
  if utf8_valid t then
    let l := skip_ws t in
    '(v, r) ← value (fuel_for t) l; ended (take (length l - length r) l, v) r
  else None.

(** What is inside the brackets [o] and [c]. *)
Definition m_group {E} (read : nat → bytes → option (list E * bytes)) (o c : Byte.byte) (t : bytes) : option (list E) :=
  if utf8_valid t then
    match skip_ws t with
    | b :: r =>
        if bool_decide (b = o) then
          if bool_decide (head (skip_ws r) = Some c) then ended [] (tail (skip_ws r))
          else '(es, rest) ← read (fuel_for t) r; ended es rest
        else None
    | [] => None
    end
  else None.

Fixpoint m_write_value (v : Value Z) : bytes :=
  match v with
  | VNull => ascii "null"
  | VBool b => ascii (if b then "true" else "false")
  | VNumber z => decimal z
  | VString s => m_write_str s
  | VArray l => array_text (map m_write_value l)
  | VObject ms =>
      OPEN_BRACE :: commas (map (λ m, m_write_str m.1 ++ COLON :: m_write_value m.2) ms) ++ [CLOSE_BRACE]
  end.

Definition within (b : bool) (z : Z) : option Z := if b then Some z else None.

Definition json_model : SerdeJson := {|
  Num := Z;
  JsonError := unit;
  err_to_string _ := ascii "not JSON";
  num_of_Z z := z;
  as_i64 z := within (bool_decide (signed 64 z)) z;
  as_u64 z := within (bool_decide (unsigned 64 z)) z;
  from_str_raw t := match m_read t with Some (raw, _) => inl raw | None => inr tt end;
  from_str_value t := snd <$> m_read t;
  from_str_string t := match m_read t with Some (_, VString s) => Some s | _ => None end;
  from_str_array t := map fst <$> m_group elements OPEN_BRACKET CLOSE_BRACKET t;
  from_str_object t :=
    (λ ms, list_to_map (reverse (map fst ms))) <$> m_group members OPEN_BRACE CLOSE_BRACE t;
  write_num := decimal;
  write_str := m_write_str;
  write_value := m_write_value
|}.
#[local] Existing Instance json_model.

(** ** One value *)
Definition good (t : bytes) (v : Value Z) : Prop :=
  utf8_valid t = true ∧ starts t ∧ reads (fuel_for t) t v.

Lemma blank_utf8_app ws t : blank ws → utf8_valid (ws ++ t) = utf8_valid t.
Proof. intros Hw. apply utf8_app, utf8_ascii. eapply Forall_impl; [exact Hw|]. intros b. by destruct b. Qed.

Lemma skip_ws_starts ws t : blank ws → starts t → skip_ws (ws ++ t) = t.
Proof. intros Hw (b & t' & -> & Hb). by apply skip_ws_cons. Qed.

Lemma good_read ws t v : blank ws → good t v → m_read (ws ++ t) = Some (t, v).
Proof.
  intros Hw (Hu & Hs & Hr). unfold m_read. rewrite blank_utf8_app, Hu, skip_ws_starts by done.
  specialize (Hr (fuel_for (ws ++ t)) [] ltac:(unfold fuel_for; rewrite length_app; lia) I). rewrite app_nil_r in Hr.
  rewrite Hr. cbn [mbind option_bind]. unfold ended. rewrite decide_True by done. by rewrite Nat.sub_0_r, firstn_all.
Qed.

Lemma good_json t v : good t v → json t ∧ from_str_value t = Some v.
Proof. intros Hg. pose proof (good_read [] t v ltac:(constructor) Hg) as H. unfold json. simpl in *. by rewrite H. Qed.

Lemma json_good t : json t → ∃ v, good t v.
Proof.
  unfold json. simpl. unfold m_read. destruct (utf8_valid t) eqn:Hu; [|done].
  destruct (value (fuel_for t) (skip_ws t)) as [[v r]|] eqn:Hv; [|done]. cbn [mbind option_bind]. unfold ended.
  case_decide as Hr; [|done]. intros [= Ht]. exists v. destruct (skip_ws_inv t _ eq_refl) as (ws & Hws & _ & _).
  apply (proj1 (reader _)) in Hv as (t' & Hl & Hs & _ & Hrd). rewrite Hl in Ht. rewrite take_raw in Ht. subst t'.
  by split.
Qed.

Lemma good_nested t v : good t v → nested t.
Proof.
  intros (_ & _ & Hr). specialize (Hr (fuel_for t) [] ltac:(done) I). rewrite app_nil_r in Hr.
  apply (proj1 (reader _)) in Hr as (t' & Ht & _ & Hn & _). by rewrite app_nil_r in Ht; subst.
Qed.

Lemma reads_of f t v : (f ≤ fuel_for t)%nat → value f t = Some (v, []) → reads (fuel_for t) t v.
Proof.
  intros Hf H. apply (proj1 (reader _)) in H as (t' & Ht & _ & _ & Hr). rewrite app_nil_r in Ht. subst t'.
  intros f' rest Hle. apply Hr. lia.
Qed.

Lemma good_str s : utf8_valid s = true → good (m_write_str s) (VString s).
Proof.
  intros Hs. split; [by apply write_str_utf8|]. split; [by apply starts_cons|].
  apply (reads_of 1); [unfold fuel_for; lia|]. unfold m_write_str. cbn [value]. rewrite bool_decide_true by done.
  by rewrite chars_escaped.
Qed.

Lemma good_word w v : ascii w ≠ [] → (∀ rest, scalar (ascii w ++ rest) = Some (v, rest)) →
  Forall (λ b, in_range 0x61 0x7a b = true) (ascii w) → good (ascii w) v.
Proof.
  intros Hne Hs Ha. split; [apply utf8_ascii; eapply Forall_impl; [exact Ha|]; intros b; by destruct b|].
  specialize (Hs []). rewrite app_nil_r in Hs. destruct (ascii w) as [|b l] eqn:Hw; [done|].
  inversion Ha as [|? ? Hb]; subst. split; [apply starts_cons; by destruct b|].
  apply (reads_of 1); [unfold fuel_for; lia|]. cbn [value].
  assert (b ≠ QUOTE ∧ b ≠ OPEN_BRACKET ∧ b ≠ OPEN_BRACE) as (?&?&?)
    by (refine (conj _ (conj _ _)); intros ->; by vm_compute in Hb).
  by rewrite !bool_decide_false.
Qed.

Lemma uint_numeric d : Forall (λ b, numeric b = true) (ascii (NilEmpty.string_of_uint d)).
Proof. induction d; simpl; constructor; done. Qed.

Lemma decimal_numeric z : Forall (λ b, numeric b = true) (decimal z).
Proof.
  unfold decimal, NilZero.string_of_int, NilZero.string_of_uint. destruct (Z.to_int z) as [d|d]; simpl.
  - destruct d; by repeat constructor || apply uint_numeric.
  - destruct d; simpl; constructor; try done; by repeat constructor || apply uint_numeric.
Qed.

Lemma integer_decimal z : integer (decimal z) = Some z.
Proof.
  unfold integer, decimal, ascii. rewrite String.string_of_list_byte_of_string, NilZero.isi.
  - simpl. by rewrite DecimalZ.of_to.
  - destruct z; simpl; [done| |done]. intros [= H]. by apply Unsigned.to_uint_nonnil in H.
  - destruct z; simpl; [done|done|]. intros [= H]. by apply Unsigned.to_uint_nonnil in H.
Qed.

Lemma good_int z : good (decimal z) (VNumber z).
Proof.
  pose proof (decimal_numeric z) as Hn. pose proof (integer_decimal z) as Hi. pose proof (integer_nonempty _ _ Hi) as Hne.
  split; [apply utf8_ascii; eapply Forall_impl; [exact Hn|]; intros b Hb; unfold numeric in Hb; by destruct b|].
  pose proof (scalar_number (decimal z) [] z Hn I Hi) as Hs. rewrite app_nil_r in Hs.
  destruct Hn as [|b d Hb Hd]; [done|]. apply numeric_plain in Hb as (Hq & Ho & Hc & Hw).
  split; [by apply starts_cons|]. apply (reads_of 1); [unfold fuel_for; lia|]. cbn [value].
  by rewrite !bool_decide_false by (by first [done|intros ->]).
Qed.

(** ** Arrays and objects *)
Definition goods (ts : list bytes) (vs : list (Value Z)) : Prop := Forall2 good ts vs.

Lemma utf8_commas ts : Forall (λ t, utf8_valid t = true) ts → utf8_valid (commas ts) = true.
Proof.
  induction 1 as [|t ts Ht Hts IH]; [done|]. destruct ts as [|t' ts]; [done|].
  change (commas (t :: t' :: ts)) with (t ++ COMMA :: commas (t' :: ts)). by rewrite utf8_app.
Qed.

Lemma utf8_group o body c : in_range 0 0x7f o = true → in_range 0 0x7f c = true → utf8_valid body = true →
  utf8_valid (o :: body ++ [c]) = true.
Proof. intros Ho Hc Hb. cbn [utf8_valid]. rewrite Ho, utf8_app by done. simpl. by rewrite Hc. Qed.

Lemma elements_commas ts vs f rest : goods ts vs → ts ≠ [] → (2 * length (commas ts) + 3 ≤ f)%nat →
  elements f (commas ts ++ CLOSE_BRACKET :: rest) = Some (zip ts vs, rest).
Proof.
  intros Hg. revert f. induction Hg as [|t v ts vs (_ & Hs & Hr) Hg IH]; intros f Hne Hf; [done|].
  destruct f as [|f]; [lia|]. cbn [elements].
  assert (∀ tl, stops tl → (2 * length t + 3 ≤ S f)%nat → value f (skip_ws (t ++ tl)) = Some (v, tl) ∧
    take (length (skip_ws (t ++ tl)) - length tl) (skip_ws (t ++ tl)) = t) as Hval.
  { intros tl Htl Hle. destruct Hs as (b & t' & -> & Hb).
    assert (skip_ws ((b :: t') ++ tl) = (b :: t') ++ tl) as -> by (cbn [app skip_ws]; by rewrite Hb).
    split; [|apply take_raw]. apply Hr; [unfold fuel_for; lia|done]. }
  destruct ts as [|t' ts].
  - inversion Hg; subst. cbn [commas] in *. destruct (Hval (CLOSE_BRACKET :: rest) eq_refl ltac:(lia)) as [-> Htk].
    cbn [mbind option_bind]. rewrite Htk. done.
  - change (commas (t :: t' :: ts)) with (t ++ COMMA :: commas (t' :: ts)) in *. rewrite length_app in Hf. cbn [length] in Hf.
    assert ((t ++ COMMA :: commas (t' :: ts)) ++ CLOSE_BRACKET :: rest
      = t ++ COMMA :: commas (t' :: ts) ++ CLOSE_BRACKET :: rest) as -> by flat.
    destruct (Hval (COMMA :: commas (t' :: ts) ++ CLOSE_BRACKET :: rest) eq_refl ltac:(lia)) as [-> Htk].
    cbn [mbind option_bind]. rewrite Htk. change (skip_ws (COMMA :: ?l)) with (COMMA :: l).
    cbv iota beta. rewrite bool_decide_true by done. rewrite IH by (done || lia). done.
Qed.

(** A member as it is written. *)
Definition m_member (m : bytes * bytes) : bytes := m_write_str m.1 ++ COLON :: m.2.

Lemma members_commas ms vs f rest : goods (map snd ms) vs → ms ≠ [] →
  (2 * length (commas (map m_member ms)) + 3 ≤ f)%nat →
  members f (commas (map m_member ms) ++ CLOSE_BRACE :: rest) = Some (zip ms vs, rest).
Proof.
  intros Hg. revert vs f Hg. induction ms as [|[k t] ms IH]; intros vs f Hg Hne Hf; [done|].
  inversion Hg as [|? v ? vs' (_ & Hs & Hr) Hg']; subst. clear Hg. destruct f as [|f]; [lia|].
  assert (∀ tl, stops tl → (2 * length t + 3 ≤ S f)%nat → value f (skip_ws (t ++ tl)) = Some (v, tl) ∧
    take (length (skip_ws (t ++ tl)) - length tl) (skip_ws (t ++ tl)) = t) as Hval.
  { intros tl Htl Hle. destruct Hs as (b & t' & Heq & Hb). simpl in Heq. subst t.
    assert (skip_ws ((b :: t') ++ tl) = (b :: t') ++ tl) as -> by (cbn [app skip_ws]; by rewrite Hb).
    split; [|apply take_raw]. apply Hr; [unfold fuel_for; simpl in *; lia|done]. }
  assert (length (m_member (k, t)) = (length (concat (map escape k)) + length t + 3)%nat) as Hlen
    by (unfold m_member, m_write_str; cbn [fst snd]; rewrite length_app; simpl; rewrite length_app; simpl; lia).
  assert (∀ tl, members (S f) (m_member (k, t) ++ tl) = 
    ('(v, r) ← value f (skip_ws (t ++ tl));
     let m := ((k, take (length (skip_ws (t ++ tl)) - length r) (skip_ws (t ++ tl))), v) in
     match skip_ws r with
     | d :: r =>
         if bool_decide (d = COMMA) then '(ms, rest) ← members f r; Some (m :: ms, rest)
         else if bool_decide (d = CLOSE_BRACE) then Some ([m], r) else None
     | [] => None
     end)) as Hstep.
  { intros tl. cbn [members]. unfold m_member, m_write_str. cbn [fst snd].
    assert (((QUOTE :: concat (map escape k) ++ [QUOTE]) ++ COLON :: t) ++ tl
      = QUOTE :: concat (map escape k) ++ QUOTE :: COLON :: t ++ tl) as -> by flat.
    change (skip_ws (QUOTE :: ?l)) with (QUOTE :: l). cbv iota beta. rewrite bool_decide_true, chars_escaped by done.
    cbn [mbind option_bind]. change (skip_ws (COLON :: ?l)) with (COLON :: l). done. }
  destruct ms as [|m' ms].
  - inversion Hg'; subst. cbn [map commas] in *. rewrite Hstep.
    destruct (Hval (CLOSE_BRACE :: rest) eq_refl ltac:(lia)) as [-> Htk]. cbn [mbind option_bind]. rewrite Htk. done.
  - change (commas (map m_member ((k, t) :: m' :: ms)))
      with (m_member (k, t) ++ COMMA :: commas (map m_member (m' :: ms))) in *.
    rewrite length_app in Hf. cbn [length] in Hf.
    assert ((m_member (k, t) ++ COMMA :: commas (map m_member (m' :: ms))) ++ CLOSE_BRACE :: rest
      = m_member (k, t) ++ COMMA :: commas (map m_member (m' :: ms)) ++ CLOSE_BRACE :: rest) as -> by flat.
    rewrite Hstep.
    destruct (Hval (COMMA :: commas (map m_member (m' :: ms)) ++ CLOSE_BRACE :: rest) eq_refl ltac:(lia)) as [-> Htk].
    cbn [mbind option_bind]. rewrite Htk. change (skip_ws (COMMA :: ?l)) with (COMMA :: l).
    cbv iota beta zeta. rewrite bool_decide_true by done. rewrite (IH vs') by (done || lia). done.
Qed.

Lemma goods_utf8 ts vs : goods ts vs → Forall (λ t, utf8_valid t = true) ts.
Proof. induction 1 as [|t v ts vs [Hu _] _ IH]; by constructor. Qed.

Lemma goods_length ts vs : goods ts vs → length ts = length vs.
Proof. apply Forall2_length. Qed.

Lemma commas_head ts vs rest : goods ts vs → ts ≠ [] → ∃ b l, commas ts ++ rest = b :: l ∧ is_ws b = false ∧
  ∃ t l', t ∈ ts ∧ t = b :: l'.
Proof.
  intros Hg Hne. destruct Hg as [|t v ts vs (_ & (b & t' & -> & Hb) & _) _]; [done|].
  destruct ts; simpl; eexists b, _; (split; [reflexivity|]); (split; [done|]); exists (b :: t'), t'; (split; [left|done]).
Qed.

(** No value starts with a closing bracket. *)
Lemma good_not_close b t v : good (b :: t) v → is_close b = false.
Proof.
  intros Hg. apply good_nested in Hg. inversion Hg; subst; try done. by destruct b.
Qed.

Lemma array_group ts vs rest : goods ts vs → ts ≠ [] →
  head (skip_ws (commas ts ++ rest)) ≠ Some CLOSE_BRACKET.
Proof.
  intros Hg Hne. destruct (commas_head ts vs rest Hg Hne) as (b & l & -> & Hb & t & l' & Hin & ->).
  cbn [skip_ws]. rewrite Hb. simpl. intros [= ->]. apply list_elem_of_lookup in Hin as [i Hi].
  destruct (Forall2_lookup_l _ _ _ _ _ Hg Hi) as (v & _ & Hgood). by apply good_not_close in Hgood.
Qed.

Lemma array_value ts vs : goods ts vs → good (array_text ts) (VArray vs) ∧
  m_group elements OPEN_BRACKET CLOSE_BRACKET (array_text ts) = Some (zip ts vs).
Proof.
  intros Hg. assert (utf8_valid (array_text ts) = true) as Hu.
  { apply utf8_group; [done..|]. apply utf8_commas. by eapply goods_utf8. }
  unfold array_text in *. destruct (decide (ts = [])) as [->|Hne].
  { inversion Hg; subst. split; [|done]. split; [done|]. split; [by apply starts_cons|]. by apply (reads_of 1); [unfold fuel_for; lia|]. }
  pose proof (array_group ts vs [CLOSE_BRACKET] Hg Hne) as Hh. split.
  - split; [done|]. split; [by apply starts_cons|].
    apply (reads_of (fuel_for (OPEN_BRACKET :: commas ts ++ [CLOSE_BRACKET]))); [done|].
    replace (fuel_for (OPEN_BRACKET :: commas ts ++ [CLOSE_BRACKET])) with (S (2 * length (commas ts) + 5))
      by (unfold fuel_for; cbn [length]; rewrite length_app; cbn [length]; lia).
    cbn [value]. rewrite bool_decide_false, bool_decide_true, (bool_decide_false (head _ = _)) by done.
    rewrite (elements_commas ts vs) by (done || lia). cbn [mbind option_bind]. do 3 f_equal.
    apply snd_zip. by rewrite (goods_length _ _ Hg).
  - unfold m_group. rewrite Hu. change (skip_ws (OPEN_BRACKET :: ?l)) with (OPEN_BRACKET :: l). cbv iota beta.
    rewrite bool_decide_true, (bool_decide_false (head _ = _)) by done.
    rewrite (elements_commas ts vs) by (try done; unfold fuel_for; cbn [length]; rewrite length_app; cbn [length]; lia).
    done.
Qed.

Lemma members_head ms rest : ms ≠ [] → head (skip_ws (commas (map m_member ms) ++ rest)) = Some QUOTE.
Proof. intros Hne. destruct ms as [|[k t] [|m ms]]; done. Qed.

Lemma member_utf8 ms vs : Forall (λ m, utf8_valid m.1 = true) ms → goods (map snd ms) vs →
  Forall (λ t, utf8_valid t = true) (map m_member ms).
Proof.
  intros Hk Hg. apply goods_utf8 in Hg. rewrite Forall_map in Hg. rewrite Forall_map.
  eapply Forall_impl; [exact (proj2 (Forall_and _ _) (conj Hk Hg))|]. intros [k t] [H1 H2]. simpl in *.
  unfold m_member. rewrite utf8_app by (by apply write_str_utf8). done.
Qed.

Lemma object_value ms vs : Forall (λ m, utf8_valid m.1 = true) ms → goods (map snd ms) vs →
  let t := OPEN_BRACE :: commas (map m_member ms) ++ [CLOSE_BRACE] in
  good t (VObject (zip (map fst ms) vs)) ∧
  m_group members OPEN_BRACE CLOSE_BRACE t = Some (zip ms vs).
Proof.
  intros Hk Hg t. assert (utf8_valid t = true) as Hu.
  { apply utf8_group; [done..|]. apply utf8_commas. by eapply member_utf8. }
  subst t. destruct (decide (ms = [])) as [->|Hne].
  { inversion Hg; subst. split; [|done]. split; [done|]. split; [by apply starts_cons|]. by apply (reads_of 1); [unfold fuel_for; lia|]. }
  pose proof (members_head ms [CLOSE_BRACE] Hne) as Hh.
  assert (head (skip_ws (commas (map m_member ms) ++ [CLOSE_BRACE])) ≠ Some CLOSE_BRACE) as Hh' by (by rewrite Hh).
  split.
  - split; [done|]. split; [by apply starts_cons|].
    apply (reads_of (fuel_for (OPEN_BRACE :: commas (map m_member ms) ++ [CLOSE_BRACE]))); [done|].
    replace (fuel_for (OPEN_BRACE :: commas (map m_member ms) ++ [CLOSE_BRACE])) with (S (2 * length (commas (map m_member ms)) + 5))
      by (unfold fuel_for; cbn [length]; rewrite length_app; cbn [length]; lia).
    cbn [value]. rewrite !bool_decide_false by done. rewrite bool_decide_true by done.
    rewrite (bool_decide_false (head _ = _)) by done. rewrite (members_commas ms vs) by (done || lia).
    cbn [mbind option_bind]. do 3 f_equal. clear -Hg. revert vs Hg.
    induction ms as [|[k t] ms IH]; intros vs Hg; inversion Hg; subst; simpl; [done|]. f_equal. by apply IH.
  - unfold m_group. rewrite Hu. change (skip_ws (OPEN_BRACE :: ?l)) with (OPEN_BRACE :: l). cbv iota beta.
    rewrite bool_decide_true, (bool_decide_false (head _ = _)) by done.
    rewrite (members_commas ms vs) by (try done; unfold fuel_for; cbn [length]; rewrite length_app; cbn [length]; lia).
    done.
Qed.

(** Blanks before a group, and more fuel, change nothing. *)
Lemma group_blank {E} (read : nat → bytes → option (list E * bytes)) o c ws t es :
  (∀ f, list_spec read c f) → is_ws o = false → blank ws → m_group read o c t = Some es → m_group read o c (ws ++ t) = Some es.
Proof.
  intros Hrd Ho Hw. unfold m_group. rewrite blank_utf8_app by done. rewrite skip_ws_app by done.
  destruct (utf8_valid t); [|done]. destruct (skip_ws t) as [|b r]; [done|]. case_bool_decide; [|done].
  case_bool_decide; [done|]. destruct (read (fuel_for t) r) as [[es' rest]|] eqn:Hr; [|done].
  apply Hrd in Hr as (ws' & body & -> & _ & _ & _ & Hl). rewrite app_assoc. rewrite Hl; [done|].
  unfold fuel_for. rewrite length_app. lia.
Qed.

Definition written (ms : list (bytes * Value Z)) : list (bytes * bytes) := map (λ m, (m.1, m_write_value m.2)) ms.

Lemma object_good ms : Forall (λ m, utf8_valid m.1 = true) ms → Forall (λ m, good (m_write_value m.2) m.2) ms →
  good (OPEN_BRACE :: commas (map m_member (written ms)) ++ [CLOSE_BRACE]) (VObject ms).
Proof.
  intros Hk Hv.
  assert (goods (map snd (written ms)) (map snd ms)) as Hg.
  { unfold written. rewrite map_map. clear Hk. induction Hv; simpl; by constructor. }
  destruct (object_value (written ms) (map snd ms)) as [Ho _]; [by apply Forall_map|done|].
  replace (zip (map fst (written ms)) (map snd ms)) with ms in Ho; [done|].
  unfold written. rewrite map_map. clear. simpl. induction ms as [|[k v] ms IH]; simpl; congruence.
Qed.

Lemma good_null : good (ascii "null") VNull.
Proof. by apply (good_word "null"); [|intros; reflexivity|repeat constructor]. Qed.

Lemma good_bool (b : bool) : good (ascii (if b then "true" else "false")) (VBool b).
Proof.
  destruct b; [apply (good_word "true")|apply (good_word "false")]; first [done|intros; reflexivity|repeat constructor].
Qed.

Lemma value_good d v : value_ok d v → good (m_write_value v) v.
Proof.
  revert v. induction d as [|d IH]; intros v Hv; inversion Hv; subst; simpl;
    try first [apply good_null|apply good_bool|apply good_int|by apply good_str].
  - apply array_value. apply Forall2_fmap_l, Forall_Forall2_diag. eapply Forall_impl; [eassumption|exact IH].
  - match goal with |- good ?t _ => assert (t = OPEN_BRACE :: commas (map m_member (written ms)) ++ [CLOSE_BRACE]) as -> end.
    { unfold written. rewrite map_map. done. }
    apply object_good; [done|]. eapply Forall_impl; [eassumption|]. intros m. apply IH.
Qed.

Lemma jsons_good ts : Forall json ts → ∃ vs, goods ts vs.
Proof.
  induction 1 as [|t ts Ht _ (vs & IH)]; [exists []; constructor|]. apply json_good in Ht as [v Hv]. exists (v :: vs). by constructor.
Qed.

Lemma zip_fst {A B} (l : list A) (k : list B) : length l = length k → map fst (zip l k) = l.
Proof. intros H. apply fst_zip. lia. Qed.

#[global] Instance json_model_laws : @SerdeJsonLaws json_model.
Proof.
  split.
  - intros ws t Hw [v Hg]%json_good. simpl. by rewrite (good_read ws t v Hw Hg).
  - simpl. intros ws t ts Hw H. apply fmap_Some in H as (es & H & ->).
    by rewrite (group_blank elements OPEN_BRACKET CLOSE_BRACKET ws t es (λ f, proj1 (proj2 (reader f))) eq_refl Hw H).
  - simpl. intros ws t ms Hw H. apply fmap_Some in H as (es & H & ->).
    by rewrite (group_blank members OPEN_BRACE CLOSE_BRACE ws t es (λ f, proj2 (proj2 (reader f))) eq_refl Hw H).
  - by intros t (v & Hu & _)%json_good.
  - intros t [v Hg]%json_good. by eapply good_nested.
  - intros ts [vs Hg]%jsons_good. destruct (array_value ts vs Hg) as [Ha Hm]. split; [exact (proj1 (good_json _ _ Ha))|].
    simpl. rewrite Hm. simpl. by rewrite zip_fst by (by eapply goods_length).
  - intros ms Hms. assert (Forall (λ m : bytes * bytes, utf8_valid m.1 = true) ms ∧ Forall json (map snd ms)) as [Hk [vs Hg]%jsons_good].
    { rewrite Forall_map. by apply Forall_and. }
    destruct (object_value ms vs Hk Hg) as [Ho Hm]. split; [exact (proj1 (good_json _ _ Ho))|].
    change (from_str_object (object_text ms)) with
      ((λ x : list (bytes * bytes * Value Z), list_to_map (reverse (map fst x)) : gmap bytes bytes) <$> m_group members OPEN_BRACE CLOSE_BRACE
        (OPEN_BRACE :: commas (map m_member ms) ++ [CLOSE_BRACE])).
    rewrite Hm. simpl. rewrite zip_fst; [done|]. apply goods_length in Hg. by rewrite length_map in Hg.
  - apply (good_json _ _ good_null).
  - intros s Hs. pose proof (good_str s Hs) as Hg. destruct (good_json _ _ Hg) as [Hj Hv]. split; [done|]. split; [|done].
    simpl. pose proof (good_read [] _ _ ltac:(constructor) Hg) as H. simpl in H. by rewrite H.
  - intros s Hs. simpl. unfold m_write_str, quoted. do 2 f_equal.
    induction s as [|b s IH]; [done|]. simpl in Hs. apply andb_true_iff in Hs as [Hb Hs]. simpl. rewrite IH by done.
    by destruct b.
  - intros z _. split; [done|]. apply (good_json _ _ (good_int z)).
  - intros z Hz. simpl. by rewrite bool_decide_true.
  - by intros y z _ _ H.
  - done.
  - done.
  - intros v Hv. apply good_json. by eapply value_good.
  - intros ms Hd Hk Hv. exists ms. split; [|done].
    assert (Forall (λ m : bytes * Value Z, good (m_write_value m.2) m.2) ms) as Hg by (eapply Forall_impl; [exact Hv|]; intros m; apply value_good).
    exact (proj2 (good_json _ _ (object_good ms Hk Hg))).
Qed.
