(* ===== verification/JsonTheorems.v ===== *)
(** The claims on [truenas_jsonrpc]: where a message ends, that each role reads
    what the other writes, the ids of a client, and what is refused.  They hold
    for any [serde_json] that satisfies [SerdeJsonLaws]; [json_model] does. *)
From S2P Require Import Prelude XdrBase JsonFrame Json JsonRpc JsonRpcOk JsonModel.
Local Open Scope Z_scope.

Lemma frame_complete buf n : len buf ≤ isize_max →
  frame buf = Ok (Complete n) ↔ ∃ ws m rest, buf = ws ++ m ++ rest ∧ blank ws ∧ message m ∧ n = len ws + len m.
Proof.
  intros Hl. split.
  - intros H. destruct (frame_verdict buf Hl) as [(ws & m & rest & Hb & Hw & Hm & Hf)|[Hf|(? & ? & ? & _ & _ & _ & _ & Hf)]];
      rewrite Hf in H; simplify_eq. by exists ws, m, rest.
  - intros (ws & m & rest & -> & Hw & Hm & ->). by apply frame_message.
Qed.

Lemma frame_invalid buf : len buf ≤ isize_max →
  frame buf = Ok Invalid ↔ ∃ ws b rest, buf = ws ++ b :: rest ∧ blank ws ∧ is_ws b = false ∧ is_open b = false.
Proof.
  intros Hl. split.
  - intros H. destruct (frame_verdict buf Hl) as [(? & ? & ? & _ & _ & _ & Hf)|[Hf|(ws & b & rest & Hb & Hw & Hs & Ho & _)]];
      [rewrite Hf in H; done..|]. by exists ws, b, rest.
  - intros (ws & b & rest & -> & Hw & Hs & Ho). by apply frame_refused.
Qed.

Lemma frame_extends buf more n : len (buf ++ more) ≤ isize_max → frame buf = Ok (Complete n) →
  frame (buf ++ more) = Ok (Complete n).
Proof.
  intros Hl H. apply frame_complete in H as (ws & m & rest & -> & Hw & Hm & ->); [|rewrite length_app in Hl; lia].
  rewrite <- !app_assoc in *. by apply frame_message.
Qed.

Lemma frame_invalid_extends buf more : len (buf ++ more) ≤ isize_max → frame buf = Ok Invalid →
  frame (buf ++ more) = Ok Invalid.
Proof.
  intros Hl H. apply frame_invalid in H as (ws & b & rest & -> & Hw & Hs & Ho); [|rewrite length_app in Hl; lia].
  rewrite <- app_assoc. by apply frame_refused.
Qed.

(** C13: framing.  [frame] always gives a verdict, without a panic: [Complete n]
    exactly when the first [n] bytes are blanks and then one message of nested
    brackets, [Invalid] exactly when the first byte that is not blank opens
    none.  On a stream the verdict does not depend on how the bytes arrive:
    more of them change neither, and before the end of a message every prefix
    is [Incomplete]. *)
Theorem json_frame (buf more : bytes) :
  len (buf ++ more) ≤ isize_max →
  (∃ f, frame buf = Ok f) ∧
  (∀ n, frame buf = Ok (Complete n) ↔
     ∃ ws m rest, buf = ws ++ m ++ rest ∧ blank ws ∧ message m ∧ n = len ws + len m) ∧
  (frame buf = Ok Invalid ↔
     ∃ ws b rest, buf = ws ++ b :: rest ∧ blank ws ∧ is_ws b = false ∧ is_open b = false) ∧
  (∀ n, frame buf = Ok (Complete n) →
     frame (buf ++ more) = Ok (Complete n) ∧ ∀ k, Z.of_nat k < n → frame (take k buf) = Ok Incomplete) ∧
  (frame buf = Ok Invalid → frame (buf ++ more) = Ok Invalid).
Proof.
  intros Hl. assert (len buf ≤ isize_max) as Hb by (rewrite length_app in Hl; lia).
  refine (conj _ (conj _ (conj _ (conj _ _)))).
  - destruct (frame_verdict buf Hb) as [(? & ? & ? & _ & _ & _ & H)|[H|(? & ? & ? & _ & _ & _ & _ & H)]]; by eexists.
  - intros n. by apply frame_complete.
  - by apply frame_invalid.
  - intros n Hn. split; [by apply frame_extends|]. intros k Hk.
    assert (len (take k buf) ≤ isize_max ∧ len (take k buf ++ drop k buf) ≤ isize_max) as [Hlk Hlt]
      by (rewrite take_drop, length_take; lia).
    destruct (frame_verdict (take k buf) Hlk) as [(ws & m & rest & Hbuf & _ & _ & H)|[H|(? & ? & ? & _ & _ & _ & _ & H)]]; [|done|].
    + pose proof (frame_extends _ (drop k buf) _ Hlt H) as Hx. rewrite take_drop, Hn in Hx. simplify_eq.
      apply (f_equal length) in Hbuf. rewrite length_take, !length_app in Hbuf. lia.
    + pose proof (frame_invalid_extends _ (drop k buf) Hlt H) as Hx. by rewrite take_drop, Hn in Hx.
  - intros H. by apply frame_invalid_extends.
Qed.

Lemma json_frame_witness :
  let buf := x20 :: OPEN_BRACE :: quoted [CLOSE_BRACE] ++ [CLOSE_BRACE; OPEN_BRACKET] in
  frame buf = Ok (Complete 6) ∧ frame (buf ++ [CLOSE_BRACE]) = Ok (Complete 6) ∧
  frame (take 4 buf) = Ok Incomplete.
Proof.
  intros buf. destruct (json_frame buf [CLOSE_BRACE]) as (_ & _ & _ & H & _); [vm_compute; discriminate|].
  destruct (H 6 ltac:(vm_compute; reflexivity)) as [H1 H2]. split; [vm_compute; reflexivity|]. split; [exact H1|].
  apply H2. vm_compute. reflexivity.
Defined.

Section Laws.
Context {serde : SerdeJson} {laws : SerdeJsonLaws}.

(** C14: requests.  A request or a notification that can be written is built;
    on a stream its frame ends where it ends; and the server reads from it, and
    from the blanks that may come before it, the id, the method and the
    parameters, tagged as an array or an object. *)
Theorem json_request_roundtrip (id : Id) (method : bytes) (params : option bytes) (ws rest : bytes) :
  id_ok id → utf8_valid method = true → from_option params_ok True params → blank ws →
  ∃ f g,
    request_with_id id method (inl <$> params) = inl f ∧ notification method (inl <$> params) = inl g ∧
    (len (ws ++ f ++ rest) ≤ isize_max → frame (ws ++ f ++ rest) = Ok (Complete (len ws + len f))) ∧
    (len (ws ++ g ++ rest) ≤ isize_max → frame (ws ++ g ++ rest) = Ok (Complete (len ws + len g))) ∧
    parse (ws ++ f) = Single (Valid (mkRequest (Some id) method (params ≫= tagged))) ∧
    parse (ws ++ g) = Single (Valid (mkRequest None method (params ≫= tagged))).
Proof.
  intros Hi Hm Hp Hw. rewrite request_text, notification_text by done.
  assert (∀ o, from_option id_ok True o →
    let t := object_text (request_members o method params) in
    (len (ws ++ t ++ rest) ≤ isize_max → frame (ws ++ t ++ rest) = Ok (Complete (len ws + len t))) ∧
    parse (ws ++ t) = Single (Valid (mkRequest o method (params ≫= tagged)))) as H.
  { intros o Ho t. destruct (request_members_ok o method params Ho Hm Hp) as [Hok Hd]. split.
    - intros Hl. by apply frame_message; [|done|apply object_message].
    - subst t. rewrite parse_object by done. f_equal. apply request_one_reads; try done.
      by apply object_arrives. }
  eexists _, _. split; [done|]. split; [done|]. destruct (H (Some id) Hi), (H None I). done.
Qed.

(** Responses.  The client reads from a response the id it answers and its
    result, as text, or its error with the code, the message and the data; the
    frame ends where the response ends. *)
Theorem json_response_roundtrip (r : Response) (ws rest : bytes) :
  response_ok r → blank ws →
  parse_answer (ws ++ response_to_bytes r) = ASingle (reply_of r) ∧
  outcome (reply_of r) = Ok (match r.(payload) with PResult raw => RResult raw | PError e => RFailure e end) ∧
  (len (ws ++ response_to_bytes r ++ rest) ≤ isize_max →
     frame (ws ++ response_to_bytes r ++ rest) = Ok (Complete (len ws + len (response_to_bytes r)))).
Proof.
  intros Hr Hw. assert (response_to_bytes r = object_text (response_members r)) as -> by exact (write_into_text r [] Hr).
  destruct (response_members_ok r Hr) as [Hm _]. split; [by apply parse_answer_single|]. split.
  - unfold outcome, reply_of, response_result, response_error_object. simpl. by destruct (payload r).
  - intros Hl. by apply frame_message; [|done|apply object_message].
Qed.

(** What a client puts in a batch: a call, or a notification. *)
Record Item : Type := mkItem { item_id : option Id; item_method : bytes; item_params : option bytes }.
Definition item_ok (i : Item) : Prop :=
  from_option id_ok True i.(item_id) ∧ utf8_valid i.(item_method) = true ∧ from_option params_ok True i.(item_params).
Definition item_frame (i : Item) : bytes + BuildError :=
  match i.(item_id) with
  | Some id => request_with_id id i.(item_method) (inl <$> i.(item_params))
  | None => notification i.(item_method) (inl <$> i.(item_params))
  end.
Definition item_call (i : Item) : Call :=
  Valid (mkRequest i.(item_id) i.(item_method) (i.(item_params) ≫= tagged)).

Lemma item_text i : item_ok i →
  item_frame i = inl (object_text (request_members i.(item_id) i.(item_method) i.(item_params))).
Proof.
  intros (_ & _ & Hp). unfold item_frame. destruct (item_id i); [by apply request_text|by apply notification_text].
Qed.

Lemma item_reads i f : item_ok i → item_frame i = inl f → json f ∧ batch_element f = item_call i.
Proof.
  intros Hi Hf. rewrite item_text in Hf by done. injection Hf as <-. destruct Hi as (Hi & Hm & Hp).
  destruct (request_members_ok _ _ _ Hi Hm Hp) as [Hok Hd]. split; [by apply object_json|].
  rewrite batch_element_object. apply request_one_reads; try done. by apply object_members.
Qed.

Lemma items_read its fs : Forall item_ok its → Forall2 (λ i f, item_frame i = inl f) its fs →
  Forall json fs ∧ map batch_element fs = map item_call its.
Proof.
  intros Hi Hf. revert Hi. induction Hf as [|i f its fs Hf _ IH]; intros Hi; [done|].
  inversion Hi as [|? ? Hok His]; subst. destruct (item_reads i f Hok Hf) as [Hj Hc]. destruct (IH His) as [Hjs Hcs].
  split; [by constructor|]. simpl. by rewrite Hc, Hcs.
Qed.

(** Batches.  Frames of requests and notifications wrapped into a batch are
    read back as those, in order; responses wrapped into one are read back as
    theirs; and an empty batch is not built on either side. *)
Theorem json_batch_roundtrip (items : list Item) (frames : list bytes) (rs : list Response) (ws : bytes) :
  Forall item_ok items → Forall2 (λ i f, item_frame i = inl f) items frames → Forall response_ok rs → blank ws →
  match batch_of frames with
  | Some t => parse (ws ++ t) = Batch (map item_call items)
  | None => items = []
  end ∧
  match batch_frame rs with
  | Some t => parse_answer (ws ++ t) = ABatch (map reply_of rs)
  | None => rs = []
  end.
Proof.
  intros Hi Hf Hr Hw. split.
  - destruct (items_read items frames Hi Hf) as [Hj Hc]. destruct (decide (frames = [])) as [->|Hne].
    + by inversion Hf.
    + rewrite batch_of_text by done. rewrite parse_array by done. by rewrite Hc.
  - destruct (decide (rs = [])) as [->|Hne]; [done|]. rewrite batch_frame_text by done. by apply parse_answer_batch.
Qed.

(** ** The client's ids *)

(** The calls of a client in turn, each with its method and its parameters. *)
Fixpoint requests (c : Caller) (l : list (bytes * option (bytes + JsonError))) :
    list ((Id * bytes) + BuildError) * Caller :=
  match l with
  | [] => ([], c)
  | (method, params) :: l =>
      let '(r, c) := request c method params in
      let '(rs, c) := requests c l in
      (r :: rs, c)
  end.

(** The ids of the calls that were built. *)
Definition minted (rs : list ((Id * bytes) + BuildError)) : list Id :=
  omap (λ r, match r with inl (id, _) => Some id | inr _ => None end) rs.

Lemma request_cases c method params :
  (∃ f, request c method params = (inl (peek_id c, f), mkCaller (Z.min (next c + 1) (2 ^ 64 - 1)))) ∨
  (∃ e, request c method params = (inr e, c)).
Proof. unfold request. destruct (request_with_id _ _ _); [left|right]; by eexists. Qed.

Lemma requests_ids l c rs c' : requests c l = (rs, c') → next c + len l < 2 ^ 64 →
  minted rs = map (λ z, IdNumber (num_of_Z z)) (seqZ (next c) (len (minted rs))) ∧
  next c' = next c + len (minted rs) ∧ len (minted rs) ≤ len l.
Proof.
  revert c rs. induction l as [|[m p] l IH]; intros c rs H Hlt; simpl in H; [simplify_eq; simpl; split; [done|lia]|].
  destruct (request_cases c m p) as [[f Hr]|[e Hr]]; rewrite Hr in H;
    destruct (requests _ l) as [rs1 c1] eqn:Hrs; simplify_eq; apply IH in Hrs; simpl in *; try lia.
  - destruct Hrs as (Hids & Hn & Hle). rewrite Z.min_l in * by lia. split; [|split; [lia|lia]].
    rewrite Nat2Z.inj_succ, seqZ_cons by lia. simpl. f_equal. rewrite Z.pred_succ. exact Hids.
  - destruct Hrs as (Hids & Hn & Hle). split; [exact Hids|]. split; [done|lia].
Qed.

(** A client's ids.  The calls that are built take the numbers from the
    first on, one each and in order, whatever calls in between fail to encode;
    so no two of them have the same id. *)
Theorem json_client_ids (l : list (bytes * option (bytes + JsonError))) :
  len l < 2 ^ 64 - 1 →
  let '(rs, c) := requests caller_new l in
  minted rs = map Id_from_i64 (seqZ 1 (len (minted rs))) ∧ NoDup (minted rs) ∧ next c = 1 + len (minted rs).
Proof.
  intros Hl. destruct (requests caller_new l) as [rs c] eqn:Hrs.
  destruct (requests_ids l caller_new rs c Hrs ltac:(simpl; lia)) as (Hids & Hn & Hle).
  change (next caller_new) with 1 in *. split; [exact Hids|]. split; [|exact Hn]. rewrite Hids.
  apply (NoDup_fmap_2_strong _); [|apply NoDup_seqZ]. intros x y Hx Hy Heq. injection Heq as Heq.
  apply elem_of_seqZ in Hx, Hy. apply int_inj; [right; unfold unsigned; lia..|exact Heq].
Qed.

(** ** What is refused *)




(** A reply the client is given always has an outcome: the case that
    [Reply::outcome] marks unreachable is. *)
Theorem json_outcome_total (frame : bytes) (r : Reply) :
  (parse_answer frame = ASingle r ∨ ∃ rs, parse_answer frame = ABatch rs ∧ r ∈ rs) → ∃ o, outcome r = Ok o.
Proof.
  assert (∀ t r', reply_one t = inl r' → ∃ o, outcome r' = Ok o) as Hone.
  { intros t r'. unfold reply_one. repeat case_match; intros; simplify_eq; by eexists. }
  assert (∀ ts rs, replies ts = inl rs → ∀ r', r' ∈ rs → ∃ o, outcome r' = Ok o) as Hall.
  { induction ts as [|t ts IH]; intros rs H r' Hr'; simpl in H; [simplify_eq; by apply not_elem_of_nil in Hr'|].
    destruct (reply_one t) as [r1|] eqn:H1; [|done]. destruct (replies ts) as [rs1|] eqn:H2; [|done]. simplify_eq.
    apply elem_of_cons in Hr' as [->|Hr']; [by eapply Hone|by eapply IH]. }
  unfold parse_answer, reply_batch. intros [H|(rs & H & Hr)]; destruct (utf8_valid frame); try done;
    destruct (from_str_raw frame); try done; destruct (first_token frame) as [[]|]; try done; simpl in H.
  - destruct (from_str_array frame) as [[|]|]; try done. by destruct (replies _).
  - destruct (reply_one frame) eqn:H1; [|done]. simplify_eq. by eapply Hone.
  - destruct (from_str_array frame) as [[|]|]; try done. destruct (replies _) eqn:Hrs; [|done]. simplify_eq. by eapply Hall.
  - by destruct (reply_one frame).
Qed.
End Laws.

(** ** Concrete checks, with [json_model] for [serde_json] *)
#[local] Existing Instance json_model.

Definition sample_params : bytes := array_text [decimal 42; decimal (-23)].

Lemma sample_params_ok : params_ok sample_params.
Proof. split; [vm_compute; reflexivity|]. by eexists _, _. Qed.

(** The frame of a call that was built. *)
Definition built (r : bytes + BuildError) : bytes := match r with inl f => f | inr _ => [] end.

Lemma json_request_roundtrip_witness :
  ∃ f g, request_with_id (Id_from_i64 7) (ascii "subtract") (Some (inl sample_params)) = inl f ∧
    notification (ascii "subtract") (Some (inl sample_params)) = inl g ∧
    frame ([x20] ++ f ++ [OPEN_BRACE]) = Ok (Complete (1 + len f)) ∧
    parse ([x20] ++ f)
    = Single (Valid (mkRequest (Some (Id_from_i64 7)) (ascii "subtract") (Some (Positional sample_params)))) ∧
    parse ([x20] ++ g) = Single (Valid (mkRequest None (ascii "subtract") (Some (Positional sample_params)))).
Proof.
  destruct (json_request_roundtrip (Id_from_i64 7) (ascii "subtract") (Some sample_params) [x20] [OPEN_BRACE])
    as (f & g & Hf & Hg & Hff & _ & Hpf & Hpg).
  - exists 7. split; [by left|reflexivity].
  - vm_compute. reflexivity.
  - apply sample_params_ok.
  - by repeat constructor.
  - exists f, g. split; [exact Hf|]. split; [exact Hg|]. split; [|split; [exact Hpf|exact Hpg]]. apply Hff.
    assert (len ([x20] ++ built (request_with_id (Id_from_i64 7) (ascii "subtract") (Some (inl sample_params))) ++ [OPEN_BRACE])
      ≤ isize_max) as Hl by (vm_compute; discriminate).
    change (Some (inl sample_params)) with (inl (B:=JsonError) <$> Some sample_params) in Hl.
    rewrite Hf in Hl. exact Hl.
Defined.

Definition sample_response : Response :=
  response_error (IdString (ascii "abc")) (with_reason method_not_found (ascii "no such method")).

Lemma sample_response_ok : response_ok sample_response.
Proof.
  split; [vm_compute; reflexivity|]. split; [by vm_compute|]. split; [vm_compute; reflexivity|].
  apply ok_string. vm_compute. reflexivity.
Qed.

Lemma json_response_roundtrip_witness :
  parse_answer ([x0a] ++ response_to_bytes sample_response) = ASingle (reply_of sample_response) ∧
  outcome (reply_of sample_response)
  = Ok (RFailure (mkError (-32601) (ascii "Method not found") (Some (VString (ascii "no such method"))))) ∧
  frame ([x0a] ++ response_to_bytes sample_response ++ []) = Ok (Complete (1 + len (response_to_bytes sample_response))).
Proof.
  destruct (json_response_roundtrip sample_response [x0a] []) as (H1 & H2 & H3); [apply sample_response_ok|by repeat constructor|].
  split; [exact H1|]. split; [exact H2|]. apply H3. vm_compute. discriminate.
Defined.

Definition sample_items : list Item := [mkItem (Some (Id_from_i64 1)) (ascii "a") None; mkItem None (ascii "b") (Some sample_params)].

Lemma sample_items_ok : Forall item_ok sample_items.
Proof.
  apply Forall_cons; split; [|apply Forall_cons; split; [|constructor]].
  - split; [exists 1; split; [by left|reflexivity]|]. split; [vm_compute; reflexivity|done].
  - split; [done|]. split; [vm_compute; reflexivity|apply sample_params_ok].
Qed.

Lemma sample_items_built : Forall2 (λ i f, item_frame i = inl f) sample_items (map (λ i, built (item_frame i)) sample_items).
Proof.
  apply Forall2_fmap_r, Forall_Forall2_diag. eapply Forall_impl; [apply sample_items_ok|]. intros i Hi.
  simpl. by rewrite item_text.
Qed.

Lemma json_batch_roundtrip_witness :
  let frames := map (λ i, built (item_frame i)) sample_items in
  match batch_of frames with
  | Some t => parse ([] ++ t) = Batch (map item_call sample_items)
  | None => sample_items = []
  end ∧
  match batch_frame [sample_response] with
  | Some t => parse_answer ([] ++ t) = ABatch (map reply_of [sample_response])
  | None => [sample_response] = []
  end.
Proof.
  apply json_batch_roundtrip; [apply sample_items_ok|apply sample_items_built| |constructor].
  apply Forall_cons; split; [apply sample_response_ok|constructor].
Defined.

(** A call that fails to encode between two that do not. *)
Lemma json_client_ids_witness :
  let '(rs, c) := requests caller_new [(ascii "a", None); (ascii "b", Some (inr tt)); (ascii "c", Some (inl sample_params))] in
  minted rs = map Id_from_i64 [1; 2] ∧ NoDup (minted rs) ∧ next c = 3.
Proof.
  pose proof (json_client_ids [(ascii "a", None); (ascii "b", Some (inr tt)); (ascii "c", Some (inl sample_params))]
    ltac:(vm_compute; reflexivity)) as H.
  assert (len (minted (requests caller_new [(ascii "a", None); (ascii "b", Some (inr tt)); (ascii "c", Some (inl sample_params))]).1)
    = 2) as Hl by (vm_compute; reflexivity).
  destruct (requests _ _) as [rs c]. destruct H as (H1 & H2 & H3). cbn [fst] in Hl.
  rewrite Hl in H1, H3. split; [exact H1|]. split; [exact H2|exact H3].
Defined.

Lemma json_outcome_total_witness :
  ∃ o, outcome (reply_of sample_response) = Ok o.
Proof.
  apply (json_outcome_total (response_to_bytes sample_response)). left. unfold response_to_bytes.
  rewrite write_into_text by apply sample_response_ok. apply (parse_answer_single []); [constructor|apply sample_response_ok].
Defined.
