(* ===== verification/MdbError.v ===== *)
(** [truenas_mdb]'s errors ([error.rs]) and the constants of [lmdb.h] that it
    declares ([ffi.rs]).  A [c_int] is in [Z]. *)
From Stdlib Require Strings.Ascii.
From S2P Require Import Prelude.
Local Open Scope Z_scope.

(** ** [ffi.rs] *)
(* SRC truenas_mdb/src/ffi.rs const MDB_NOSYNC *)
Definition MDB_NOSYNC : Z := 0x10000.
(* SRC truenas_mdb/src/ffi.rs const MDB_NOMETASYNC *)
Definition MDB_NOMETASYNC : Z := 0x40000.
(* SRC truenas_mdb/src/ffi.rs const MDB_NORDAHEAD *)
Definition MDB_NORDAHEAD : Z := 0x800000.
(* SRC truenas_mdb/src/ffi.rs const MDB_RDONLY *)
Definition MDB_RDONLY : Z := 0x20000.
(* SRC truenas_mdb/src/ffi.rs const MDB_CREATE *)
Definition MDB_CREATE : Z := 0x40000.
(* SRC truenas_mdb/src/ffi.rs const MDB_NOOVERWRITE *)
Definition MDB_NOOVERWRITE : Z := 0x10.
(* SRC truenas_mdb/src/ffi.rs const MDB_APPEND *)
Definition MDB_APPEND : Z := 0x20000.
(* SRC truenas_mdb/src/ffi.rs const MDB_SUCCESS *)
Definition MDB_SUCCESS : Z := 0.
(* SRC truenas_mdb/src/ffi.rs const MDB_KEYEXIST *)
Definition MDB_KEYEXIST : Z := -30799.
(* SRC truenas_mdb/src/ffi.rs const MDB_NOTFOUND *)
Definition MDB_NOTFOUND : Z := -30798.
(* SRC truenas_mdb/src/ffi.rs const MDB_PAGE_NOTFOUND *)
Definition MDB_PAGE_NOTFOUND : Z := -30797.
(* SRC truenas_mdb/src/ffi.rs const MDB_CORRUPTED *)
Definition MDB_CORRUPTED : Z := -30796.
(* SRC truenas_mdb/src/ffi.rs const MDB_PANIC *)
Definition MDB_PANIC : Z := -30795.
(* SRC truenas_mdb/src/ffi.rs const MDB_VERSION_MISMATCH *)
Definition MDB_VERSION_MISMATCH : Z := -30794.
(* SRC truenas_mdb/src/ffi.rs const MDB_INVALID *)
Definition MDB_INVALID : Z := -30793.
(* SRC truenas_mdb/src/ffi.rs const MDB_MAP_FULL *)
Definition MDB_MAP_FULL : Z := -30792.
(* SRC truenas_mdb/src/ffi.rs const MDB_DBS_FULL *)
Definition MDB_DBS_FULL : Z := -30791.
(* SRC truenas_mdb/src/ffi.rs const MDB_READERS_FULL *)
Definition MDB_READERS_FULL : Z := -30790.
(* SRC truenas_mdb/src/ffi.rs const MDB_TLS_FULL *)
Definition MDB_TLS_FULL : Z := -30789.
(* SRC truenas_mdb/src/ffi.rs const MDB_TXN_FULL *)
Definition MDB_TXN_FULL : Z := -30788.
(* SRC truenas_mdb/src/ffi.rs const MDB_CURSOR_FULL *)
Definition MDB_CURSOR_FULL : Z := -30787.
(* SRC truenas_mdb/src/ffi.rs const MDB_PAGE_FULL *)
Definition MDB_PAGE_FULL : Z := -30786.
(* SRC truenas_mdb/src/ffi.rs const MDB_MAP_RESIZED *)
Definition MDB_MAP_RESIZED : Z := -30785.
(* SRC truenas_mdb/src/ffi.rs const MDB_INCOMPATIBLE *)
Definition MDB_INCOMPATIBLE : Z := -30784.
(* SRC truenas_mdb/src/ffi.rs const MDB_BAD_RSLOT *)
Definition MDB_BAD_RSLOT : Z := -30783.
(* SRC truenas_mdb/src/ffi.rs const MDB_BAD_TXN *)
Definition MDB_BAD_TXN : Z := -30782.
(* SRC truenas_mdb/src/ffi.rs const MDB_BAD_VALSIZE *)
Definition MDB_BAD_VALSIZE : Z := -30781.
(* SRC truenas_mdb/src/ffi.rs const MDB_BAD_DBI *)
Definition MDB_BAD_DBI : Z := -30780.
(* SRC truenas_mdb/src/ffi.rs const MDB_FIRST *)
Definition MDB_FIRST : Z := 0.
(* SRC truenas_mdb/src/ffi.rs const MDB_GET_CURRENT *)
Definition MDB_GET_CURRENT : Z := 4.
(* SRC truenas_mdb/src/ffi.rs const MDB_LAST *)
Definition MDB_LAST : Z := 6.
(* SRC truenas_mdb/src/ffi.rs const MDB_NEXT *)
Definition MDB_NEXT : Z := 8.
(* SRC truenas_mdb/src/ffi.rs const MDB_PREV *)
Definition MDB_PREV : Z := 12.
(* SRC truenas_mdb/src/ffi.rs const MDB_SET_KEY *)
Definition MDB_SET_KEY : Z := 16.
(* SRC truenas_mdb/src/ffi.rs const MDB_SET_RANGE *)
Definition MDB_SET_RANGE : Z := 17.

(** [libc]'s, on Linux. *)
Definition EIO : Z := 5.
Definition EINVAL : Z := 22.
Definition EDEADLK : Z := 35.

(** ** [error.rs] *)
(* SRC truenas_mdb/src/error.rs enum MdbCode *)
Inductive MdbCode : Type :=
| KeyExist
| NotFound
| PageNotFound
| Corrupted
| Panic
| VersionMismatch
| Invalid
| MapFull
| DbsFull
| ReadersFull
| TlsFull
| TxnFull
| CursorFull
| PageFull
| MapResized
| Incompatible
| BadRslot
| BadTxn
| BadValsize
| BadDbi.
#[global] Instance MdbCode_eq_dec : EqDecision MdbCode.
Proof. solve_decision. Defined.

(* SRC truenas_mdb/src/error.rs enum Error *)
Inductive MdbError : Type := Mdb (code : MdbCode) | Os (e : Z).
#[global] Instance MdbError_eq_dec : EqDecision MdbError.
Proof. solve_decision. Defined.

(** [self as i32]: the variants' discriminants. *)
(* SRC truenas_mdb/src/error.rs fn raw #2 *)
Definition MdbCode_raw (self : MdbCode) : Z :=
  match self with
  | KeyExist => MDB_KEYEXIST
  | NotFound => MDB_NOTFOUND
  | PageNotFound => MDB_PAGE_NOTFOUND
  | Corrupted => MDB_CORRUPTED
  | Panic => MDB_PANIC
  | VersionMismatch => MDB_VERSION_MISMATCH
  | Invalid => MDB_INVALID
  | MapFull => MDB_MAP_FULL
  | DbsFull => MDB_DBS_FULL
  | ReadersFull => MDB_READERS_FULL
  | TlsFull => MDB_TLS_FULL
  | TxnFull => MDB_TXN_FULL
  | CursorFull => MDB_CURSOR_FULL
  | PageFull => MDB_PAGE_FULL
  | MapResized => MDB_MAP_RESIZED
  | Incompatible => MDB_INCOMPATIBLE
  | BadRslot => MDB_BAD_RSLOT
  | BadTxn => MDB_BAD_TXN
  | BadValsize => MDB_BAD_VALSIZE
  | BadDbi => MDB_BAD_DBI
  end.

(* SRC truenas_mdb/src/error.rs fn from_raw #2 *)
Definition MdbCode_from_raw (rc : Z) : option MdbCode :=
  if rc =? MDB_KEYEXIST then Some KeyExist
  else if rc =? MDB_NOTFOUND then Some NotFound
  else if rc =? MDB_PAGE_NOTFOUND then Some PageNotFound
  else if rc =? MDB_CORRUPTED then Some Corrupted
  else if rc =? MDB_PANIC then Some Panic
  else if rc =? MDB_VERSION_MISMATCH then Some VersionMismatch
  else if rc =? MDB_INVALID then Some Invalid
  else if rc =? MDB_MAP_FULL then Some MapFull
  else if rc =? MDB_DBS_FULL then Some DbsFull
  else if rc =? MDB_READERS_FULL then Some ReadersFull
  else if rc =? MDB_TLS_FULL then Some TlsFull
  else if rc =? MDB_TXN_FULL then Some TxnFull
  else if rc =? MDB_CURSOR_FULL then Some CursorFull
  else if rc =? MDB_PAGE_FULL then Some PageFull
  else if rc =? MDB_MAP_RESIZED then Some MapResized
  else if rc =? MDB_INCOMPATIBLE then Some Incompatible
  else if rc =? MDB_BAD_RSLOT then Some BadRslot
  else if rc =? MDB_BAD_TXN then Some BadTxn
  else if rc =? MDB_BAD_VALSIZE then Some BadValsize
  else if rc =? MDB_BAD_DBI then Some BadDbi
  else None.

(* SRC truenas_mdb/src/error.rs fn message *)
Definition message (self : MdbCode) : string :=
  match self with
  | KeyExist => "MDB_KEYEXIST: Key/data pair already exists"
  | NotFound => "MDB_NOTFOUND: No matching key/data pair found"
  | PageNotFound => "MDB_PAGE_NOTFOUND: Requested page not found"
  | Corrupted => "MDB_CORRUPTED: Located page was wrong type"
  | Panic => "MDB_PANIC: Update of meta page failed or environment had fatal error"
  | VersionMismatch => "MDB_VERSION_MISMATCH: Database environment version mismatch"
  | Invalid => "MDB_INVALID: File is not an LMDB file"
  | MapFull => "MDB_MAP_FULL: Environment mapsize limit reached"
  | DbsFull => "MDB_DBS_FULL: Environment maxdbs limit reached"
  | ReadersFull => "MDB_READERS_FULL: Environment maxreaders limit reached"
  | TlsFull => "MDB_TLS_FULL: Thread-local storage keys full - too many environments open"
  | TxnFull => "MDB_TXN_FULL: Transaction has too many dirty pages - transaction too big"
  | CursorFull => "MDB_CURSOR_FULL: Internal error - cursor stack limit reached"
  | PageFull => "MDB_PAGE_FULL: Internal error - page has no more space"
  | MapResized => "MDB_MAP_RESIZED: Database contents grew beyond environment mapsize"
  | Incompatible => "MDB_INCOMPATIBLE: Operation and DB incompatible, or DB flags changed"
  | BadRslot => "MDB_BAD_RSLOT: Invalid reuse of reader locktable slot"
  | BadTxn => "MDB_BAD_TXN: Transaction must abort, has a child, or is invalid"
  | BadValsize => "MDB_BAD_VALSIZE: Unsupported size of key/DB name/data, or wrong DUPFIXED size"
  | BadDbi => "MDB_BAD_DBI: The specified DBI handle was closed/changed unexpectedly"
  end.

Definition COLON : Ascii.ascii := Ascii.ascii_of_nat 58.

(** [msg.split_once(':')], the part before. *)
Fixpoint before_colon (msg : string) : option string :=
  match msg with
  | EmptyString => None
  | String c rest =>
      if Ascii.eqb c COLON then Some EmptyString else String c <$> before_colon rest
  end.

(* SRC truenas_mdb/src/error.rs fn name *)
Definition MdbCode_name (self : MdbCode) : string :=
  let msg := message self in default msg (before_colon msg).

(* SRC truenas_mdb/src/error.rs fn from_raw #1 *)
Definition Error_from_raw (rc : Z) : MdbError :=
  match MdbCode_from_raw rc with Some code => Mdb code | None => Os rc end.

(* SRC truenas_mdb/src/error.rs fn raw #1 *)
Definition Error_raw (self : MdbError) : Z :=
  match self with Mdb code => MdbCode_raw code | Os e => e end.

(* SRC truenas_mdb/src/error.rs fn as_mdb *)
Definition as_mdb (self : MdbError) : option MdbCode :=
  match self with Mdb code => Some code | Os _ => None end.

(** What an [io::Error] is made of: a raw error number, or a kind around the
    crate's error. *)
Inductive IoError : Type := RawOs (e : Z) | NotFoundKind (err : MdbError) | AlreadyExistsKind (err : MdbError) | OtherKind (err : MdbError).

(* SRC truenas_mdb/src/error.rs impl From<Error> for io::Error *)
Definition io_from (err : MdbError) : IoError :=
  match err with
  | Os e => RawOs e
  | Mdb NotFound => NotFoundKind err
  | Mdb KeyExist => AlreadyExistsKind err
  | other => OtherKind other
  end.

Abbreviation MdbResult A := (Outcome A MdbError).

(* SRC truenas_mdb/src/error.rs fn check *)
Definition check (rc : Z) : MdbResult unit :=
  if rc =? MDB_SUCCESS then Ok tt else Err (Error_from_raw rc).

(** ** Lemmas *)
Lemma from_raw_raw code : MdbCode_from_raw (MdbCode_raw code) = Some code.
Proof. by destruct code. Qed.

(** The table is the block of codes, and one code each. *)
Lemma raw_from_raw rc code : MdbCode_from_raw rc = Some code ↔ rc = MdbCode_raw code.
Proof.
  split; [|intros ->; apply from_raw_raw]. unfold MdbCode_from_raw.
  repeat case_match; intros; simplify_eq; by apply Z.eqb_eq.
Qed.

Lemma from_raw_block rc : is_Some (MdbCode_from_raw rc) ↔ -30799 ≤ rc ≤ -30780.
Proof.
  split.
  - intros [code H]. apply raw_from_raw in H as ->. destruct code; vm_compute; split; discriminate.
  - intros H. assert (∃ k : nat, (k < 20)%nat ∧ rc = -30799 + Z.of_nat k) as (k & Hk & ->).
    { exists (Z.to_nat (rc + 30799)). lia. }
    do 20 (destruct k as [|k]; [eexists; reflexivity|]). lia.
Qed.

(** Nothing is lost in an error: its raw code is the one LMDB returned. *)
Lemma raw_error rc : Error_raw (Error_from_raw rc) = rc.
Proof.
  unfold Error_from_raw. destruct (MdbCode_from_raw rc) eqn:H; [|done]. by apply raw_from_raw in H.
Qed.

Lemma check_ok rc : check rc = Ok tt ↔ rc = 0.
Proof. unfold check. destruct (Z.eqb_spec rc MDB_SUCCESS); split; done. Qed.

Lemma check_err rc e : check rc = Err e → rc ≠ 0 ∧ e = Error_from_raw rc.
Proof. unfold check. destruct (Z.eqb_spec rc MDB_SUCCESS); intros; simplify_eq. done. Qed.

(** Matching on a return code as the sources do, in three cases. *)
Lemma rc_cases rc : rc = MDB_SUCCESS ∨ rc = MDB_NOTFOUND ∨ (rc ≠ MDB_SUCCESS ∧ rc ≠ MDB_NOTFOUND).
Proof. destruct (decide (rc = MDB_SUCCESS)), (decide (rc = MDB_NOTFOUND)); auto. Qed.
