(* ===== verification/Mdb.v ===== *)
(** [truenas_mdb]'s environments: the pool that keeps one open environment per
    path ([env.rs], without [read] and [write]), on top of the interface to
    [liblmdb].

    A computation is one thread's.  [ACTIVE] is that thread's list; the pool is
    the process's, and an operation on it holds its path's lock from end to
    end.  A pointer is in [Z], null being 0.  [dbi_lock], which only keeps
    threads apart, is left out. *)
From S2P Require Import Prelude MdbError.
Local Open Scope Z_scope.

(** ** The C interface

    An [MDB_val] is a size and a pointer to memory, [None] being null. *)
(* SRC truenas_mdb/src/ffi.rs struct MDB_val *)
Record MDB_val : Type := mkVal { mv_size : Z; mv_data : option bytes }.

(* SRC truenas_mdb/src/ffi.rs struct MDB_stat *)
Record MDB_stat : Type := mkMDB_stat {
  ms_psize : Z; ms_depth : Z; ms_branch_pages : Z; ms_leaf_pages : Z; ms_overflow_pages : Z; ms_entries : Z
}.

(** Without the map's address. *)
(* SRC truenas_mdb/src/ffi.rs struct MDB_envinfo *)
Record MDB_envinfo : Type := mkMDB_envinfo {
  me_mapsize : Z; me_last_pgno : Z; me_last_txnid : Z; me_maxreaders : Z; me_numreaders : Z
}.

(** [liblmdb], and the two calls on directories that [open_with] makes.  Each
    changes the world [W]; a return code comes with what the call leaves in its
    out-parameters. *)
Class Lmdb (W : Type) : Type := {
  mdb_env_create : W → (Z * Z) * W;                          (** code, environment *)
  mdb_env_set_mapsize : Z → Z → W → Z * W;
  mdb_env_set_maxdbs : Z → Z → W → Z * W;
  mdb_env_set_maxreaders : Z → Z → W → Z * W;
  mdb_env_open : Z → bytes → Z → Z → W → Z * W;
  mdb_env_sync : Z → Z → W → Z * W;
  mdb_env_info : Z → W → (Z * MDB_envinfo) * W;
  mdb_reader_check : Z → W → (Z * Z) * W;
  mdb_env_close : Z → W → W;
  mdb_txn_begin : Z → Z → W → (Z * Z) * W;                   (** environment, flags; code, transaction *)
  mdb_txn_commit : Z → W → Z * W;
  mdb_txn_abort : Z → W → W;
  mdb_dbi_open : Z → option bytes → Z → W → (Z * Z) * W;     (** [None] is a null name *)
  mdb_stat : Z → Z → W → (Z * MDB_stat) * W;
  mdb_drop : Z → Z → Z → W → Z * W;
  mdb_get : Z → Z → MDB_val → W → (Z * MDB_val) * W;
  mdb_put : Z → Z → MDB_val → MDB_val → Z → W → Z * W;
  mdb_del : Z → Z → MDB_val → W → Z * W;                     (** with a null data pointer *)
  mdb_cursor_open : Z → Z → W → (Z * Z) * W;
  mdb_cursor_get : Z → MDB_val → Z → W → (Z * (MDB_val * MDB_val)) * W;
  mdb_cursor_close : Z → W → W;
  create_dir_all : bytes → Z → W → Outcome unit (option Z) * W;      (** the error as [raw_os_error] *)
  canonicalize : bytes → W → Outcome bytes (option Z) * W
}.

(** ** The process *)
(* SRC truenas_mdb/src/env.rs struct SlotState *)
Record SlotState : Type := mkSlot { slot_env : Z; refcnt : Z }.

(** [path_slot]'s entry for a path it has not met. *)
(* SRC truenas_mdb/src/env.rs L 190-196 path_slot *)
Definition fresh_slot : SlotState := mkSlot 0 0.

(** The world, this thread's [ACTIVE], the pool, and the memory that the
    closures of the calling program capture. *)
(* SRC truenas_mdb/src/env.rs fn env_pool *)
Record Proc (W M : Type) : Type := mkProc {
  lmdb : W;
  ACTIVE : list Z;
  env_pool : gmap bytes SlotState;
  memory : M
}.
Arguments mkProc {W M}.
Arguments lmdb {W M}.
Arguments ACTIVE {W M}.
Arguments env_pool {W M}.
Arguments memory {W M}.

(** The environment a handle shares.  Its slot is the pool's entry for [key]:
    entries are never removed. *)
(* SRC truenas_mdb/src/env.rs struct Env *)
Record Env : Type := mkEnv { key : bytes; env : Z }.

(** The modes in octal are 600 and 700; [flags] is its bits. *)
(* SRC truenas_mdb/src/env.rs struct EnvOptions *)
Record EnvOptions : Type := mkOptions {
  map_size : Z; max_dbs : Z; max_readers : Z; mode : Z; dir_mode : Z; flags : Z
}.

(* SRC truenas_mdb/src/env.rs L 41-70 EnvFlags *)
Definition EnvFlags : list Z := [MDB_NOSYNC; MDB_NOMETASYNC; MDB_NORDAHEAD; MDB_RDONLY].

(* SRC truenas_mdb/src/env.rs impl Default for EnvOptions *)
Definition EnvOptions_default : EnvOptions := mkOptions (1024 * 1024 * 1024) 8 0 384 448 0.

(* SRC truenas_mdb/src/env.rs struct EnvInfo *)
Record EnvInfo : Type := mkInfo {
  info_map_size : Z; last_page : Z; last_txn_id : Z; info_max_readers : Z; readers : Z
}.

(* SRC truenas_mdb/src/env.rs fn io_to_error *)
Definition io_to_error (raw_os_error : option Z) : MdbError := Os (default EIO raw_os_error).

Section Env.
Context {W M : Type} {lib : Lmdb W}.
Implicit Types p : Proc W M.

Abbreviation App := (St (Proc W M) MdbError).

Definition set_lmdb (w : W) p : Proc W M := mkProc w p.(ACTIVE) p.(env_pool) p.(memory).
Definition set_ACTIVE (l : list Z) p : Proc W M := mkProc p.(lmdb) l p.(env_pool) p.(memory).
Definition set_pool (m : gmap bytes SlotState) p : Proc W M := mkProc p.(lmdb) p.(ACTIVE) m p.(memory).

(** A call of the C library. *)
Definition call {A} (c : W → A * W) : App A := λ p,
  let '(a, w) := c p.(lmdb) in (Ok a, set_lmdb w p).
Definition call_ (c : W → W) : App unit := λ p, (Ok tt, set_lmdb (c p.(lmdb)) p).
(** [check(call(..))]. *)
Definition checked (c : W → Z * W) : App unit := rc ← call c; lift (check rc).
(** A call on a directory. *)
Definition io_call {A} (c : W → Outcome A (option Z) * W) : App A := λ p,
  let '(r, w) := c p.(lmdb) in (map_err io_to_error r, set_lmdb w p).

(** Run [m] and then [cleanup] if [m] failed or panicked: what unwinding and an
    early return drop. *)
Definition or_drop {A} (cleanup : App unit) (m : App A) : App A := λ p,
  match m p with
  | (Ok a, p) => (Ok a, p)
  | (Err e, p) => (Err e, (cleanup p).2)
  | (Stop w, p) => (Stop w, (cleanup p).2)
  end.
(** Run [m] and then [cleanup] on every path: a local that lives to the end. *)
Definition dropping {A} (cleanup : App unit) (m : App A) : App A := λ p,
  let '(r, p) := m p in (r, (cleanup p).2).

(* SRC truenas_mdb/src/env.rs fn path_slot *)
Definition path_slot (key : bytes) : App SlotState :=
  p ← get;
  match p.(env_pool) !! key with
  | Some slot => mret slot
  | None => modify (set_pool (<[key := fresh_slot]> p.(env_pool)));; mret fresh_slot
  end.

(** A write through the lock on a slot. *)
Definition put_slot (key : bytes) (s : SlotState) : App unit :=
  modify (λ p, set_pool (<[key := s]> p.(env_pool)) p).

(** The calls that set a created environment up and open it. *)
(* SRC truenas_mdb/src/env.rs L 286-304 open_with *)
Definition configure (e : Z) (cpath : bytes) (opts : EnvOptions) : App unit :=
  checked (mdb_env_set_maxdbs e opts.(max_dbs));;
  checked (mdb_env_set_mapsize e opts.(map_size));;
  (if opts.(max_readers) =? 0 then mret tt else checked (mdb_env_set_maxreaders e opts.(max_readers)));;
  checked (mdb_env_open e cpath opts.(flags) opts.(mode)).

(* SRC truenas_mdb/src/env.rs fn open_with *)
Definition open_with (path : bytes) (opts : EnvOptions) : App Env :=
  io_call (create_dir_all path opts.(dir_mode));;
  key ← io_call (canonicalize path);
  state ← path_slot key;
  if negb (state.(slot_env) =? 0) then
    put_slot key (mkSlot state.(slot_env) (state.(refcnt) + 1));;
    mret (mkEnv key state.(slot_env))
  else
    cpath ← lift (ok_or (cstring key) (Os EINVAL));
    created ← call mdb_env_create;
    lift (check created.1);;
    let e := created.2 in
    or_drop (call_ (mdb_env_close e)) (configure e cpath opts);;
    put_slot key (mkSlot e 1);;
    mret (mkEnv key e).

(* SRC truenas_mdb/src/env.rs L 240-243 open *)
Definition env_open (path : bytes) : App Env := open_with path EnvOptions_default.

(* SRC truenas_mdb/src/env.rs fn sync *)
Definition sync (self : Env) (force : bool) : App unit :=
  checked (mdb_env_sync self.(env) (if force then 1 else 0)).

(* SRC truenas_mdb/src/env.rs fn info *)
Definition info (self : Env) : App EnvInfo :=
  r ← call (mdb_env_info self.(env));
  lift (check r.1);;
  mret (mkInfo r.2.(me_mapsize) r.2.(me_last_pgno) r.2.(me_last_txnid) r.2.(me_maxreaders) r.2.(me_numreaders)).

(* SRC truenas_mdb/src/env.rs fn reader_check *)
Definition reader_check (self : Env) : App Z :=
  r ← call (mdb_reader_check self.(env));
  lift (check r.1);;
  mret (wrap 32 (Z.max r.2 0)).

(** The slot [self] holds: [path_slot] made it. *)
Definition own_slot (self : Env) : App SlotState :=
  p ← get; match p.(env_pool) !! self.(key) with Some s => mret s | None => halt Panicked end.

(* SRC truenas_mdb/src/env.rs impl Clone for Env *)
Definition env_clone (self : Env) : App Env :=
  state ← own_slot self;
  put_slot self.(key) (mkSlot state.(slot_env) (state.(refcnt) + 1));;
  mret self.

(** [state.refcnt -= 1] panics below zero. *)
(* SRC truenas_mdb/src/env.rs impl Drop for Env *)
Definition env_drop (self : Env) : App unit :=
  state ← own_slot self;
  if state.(refcnt) <=? 0 then halt Panicked
  else if negb (state.(refcnt) - 1 =? 0) then
    put_slot self.(key) (mkSlot state.(slot_env) (state.(refcnt) - 1))
  else
    call (mdb_env_sync self.(env) 1);;
    call_ (mdb_env_close self.(env));;
    put_slot self.(key) (mkSlot 0 0).
End Env.
