(* ===== verification/MdbTxn.v ===== *)
(** [truenas_mdb]'s transactions and cursors: the guards of [txn.rs], the types
    of [transaction.rs], and [Env::read] and [Env::write] of [env.rs].

    A guard that goes out of scope is dropped by [dropping], and one that an
    early return or a panic drops before it would be moved, by [or_drop]. *)
From S2P Require Import Prelude MdbError Mdb.
Local Open Scope Z_scope.

Abbreviation Pair := (bytes * bytes)%type.

(** ** Values *)
(* SRC truenas_mdb/src/txn.rs fn val_of *)
Definition val_of (b : bytes) : MDB_val := mkVal (len b) (Some b).
(* SRC truenas_mdb/src/txn.rs fn empty_val *)
Definition empty_val : MDB_val := mkVal 0 None.

(** A slice that reaches out of its memory is undefined. *)
(* SRC truenas_mdb/src/txn.rs fn as_slice *)
Definition as_slice (val : MDB_val) : MdbResult bytes :=
  if val.(mv_size) =? 0 then Ok []
  else match val.(mv_data) with
       | Some data => slice data 0 val.(mv_size)
       | None => Stop Panicked
       end.

(** ** The thread's slots *)
(** [Vec::iter().rposition]. *)
Definition rposition (e : Z) (l : list Z) : option nat :=
  (λ i, length l - S i)%nat <$> (fst <$> list_find (e =.) (reverse l)).

(** [Vec::swap_remove] at an index in range: the last element takes its place. *)
Definition swap_remove (i : nat) (l : list Z) : list Z :=
  match last l with
  | Some z => take (length l - 1) (<[i := z]> l)
  | None => l
  end.

Section Txn.
Context {W M : Type} {lib : Lmdb W}.
Abbreviation App := (St (Proc W M) MdbError).

(* SRC truenas_mdb/src/txn.rs fn claim *)
Definition claim (e : Z) : App unit :=
  p ← get;
  if decide (e ∈ p.(ACTIVE)) then fail (Os EDEADLK)
  else modify (set_ACTIVE (p.(ACTIVE) ++ [e])).

(* SRC truenas_mdb/src/txn.rs fn release *)
Definition release (e : Z) : App unit :=
  modify (λ p,
    match rposition e p.(ACTIVE) with
    | Some i => set_ACTIVE (swap_remove i p.(ACTIVE)) p
    | None => p
    end).

(** A guard that is not committed yet; [commit] takes it. *)
(* SRC truenas_mdb/src/txn.rs struct TxnGuard *)
Record TxnGuard : Type := mkGuard { txn : Z; guard_env : Z }.

(* SRC truenas_mdb/src/txn.rs fn begin *)
Definition txn_begin (e : Env) (read_only : bool) : App TxnGuard :=
  let handle := e.(env) in
  claim handle;;
  let flags := if read_only then MDB_RDONLY else 0 in
  begun ← call (mdb_txn_begin e.(env) flags);
  or_drop (release handle) (lift (check begun.1));;
  mret (mkGuard begun.2 handle).

(** [drop], of a guard with [committed] as said. *)
(* SRC truenas_mdb/src/txn.rs impl Drop for TxnGuard *)
Definition txn_drop (committed : bool) (self : TxnGuard) : App unit :=
  (if negb committed then call_ (mdb_txn_abort self.(txn)) else mret tt);;
  release self.(guard_env).

(* SRC truenas_mdb/src/txn.rs fn commit *)
Definition txn_commit (self : TxnGuard) : App unit :=
  dropping (txn_drop true self) (checked (mdb_txn_commit self.(txn))).

(** ** Cursors *)
(* SRC truenas_mdb/src/txn.rs struct CursorGuard *)
Record CursorGuard : Type := mkCursor { cursor : Z }.

(* SRC truenas_mdb/src/txn.rs fn open *)
Definition cursor_open (t : TxnGuard) (dbi : Z) : App CursorGuard :=
  r ← call (mdb_cursor_open t.(txn) dbi);
  lift (check r.1);;
  mret (mkCursor r.2).

(* SRC truenas_mdb/src/txn.rs fn step *)
Definition cursor_step (self : CursorGuard) (op : Z) (start : option bytes) : App (option Pair) :=
  let k := match start with Some key => val_of key | None => empty_val end in
  r ← call (mdb_cursor_get self.(cursor) k op);
  let '(rc, (k, d)) := r in
  if rc =? MDB_SUCCESS then k ← lift (as_slice k); d ← lift (as_slice d); mret (Some (k, d))
  else if rc =? MDB_NOTFOUND then mret None
  else fail (Error_from_raw rc).

(** The step that [walk] takes: its operation and the key it seeks. *)
(* SRC truenas_mdb/src/txn.rs L 234-243 walk *)
Definition walk_op (started : bool) (start : option bytes) : Z * option bytes :=
  if started then (MDB_NEXT, None)
  else match start with
       | Some (b :: key) => (MDB_SET_RANGE, Some (b :: key))
       | _ => (MDB_FIRST, None)
       end.

(** [started] is true on return, whatever it was. *)
(* SRC truenas_mdb/src/txn.rs fn walk *)
Definition walk (self : CursorGuard) (started : bool) (start prefix : option bytes) : App (option Pair) :=
  let '(op, from) := walk_op started start in
  landed ← cursor_step self op from;
  match landed with
  | None => mret None
  | Some (key, value) =>
      if match prefix with Some p => negb (bool_decide (p `prefix_of` key)) | None => false end
      then mret None
      else mret (Some (key, value))
  end.

(* SRC truenas_mdb/src/txn.rs impl Drop for CursorGuard *)
Definition cursor_drop (self : CursorGuard) : App unit := call_ (mdb_cursor_close self.(cursor)).

(** ** [transaction.rs] *)
(* SRC truenas_mdb/src/transaction.rs struct Stat *)
Record Stat : Type := mkStat {
  page_size : Z; depth : Z; branch_pages : Z; leaf_pages : Z; overflow_pages : Z; entries : Z
}.

(* SRC truenas_mdb/src/transaction.rs fn read *)
Definition stat_read (t : TxnGuard) (dbi : Z) : App Stat :=
  r ← call (mdb_stat t.(txn) dbi);
  lift (check r.1);;
  let stat := r.2 in
  mret (mkStat stat.(ms_psize) stat.(ms_depth) stat.(ms_branch_pages) stat.(ms_leaf_pages)
          stat.(ms_overflow_pages) stat.(ms_entries)).

(* SRC truenas_mdb/src/db.rs struct Db *)
Record Db : Type := mkDb { db_env : Env; db_dbi : Z; db_name : option bytes }.

(** Both [ReadTxn] and [WriteTxn]: an environment borrowed, and the guard. *)
(* SRC truenas_mdb/src/transaction.rs struct Inner *)
Record Inner : Type := mkInner { guard : TxnGuard; inner_env : Env }.

(* SRC truenas_mdb/src/transaction.rs fn begin #1 *)
Definition inner_begin (e : Env) (read_only : bool) : App Inner :=
  g ← txn_begin e read_only; mret (mkInner g e).

(* SRC truenas_mdb/src/transaction.rs fn dbi *)
Definition inner_dbi (self : Inner) (db : Db) : MdbResult Z :=
  if negb (db.(db_env).(env) =? self.(inner_env).(env)) then Err (Os EINVAL) else Ok db.(db_dbi).

(* SRC truenas_mdb/src/transaction.rs fn get #1 *)
Definition inner_get (self : Inner) (db : Db) (key : bytes) : App (option bytes) :=
  dbi ← lift (inner_dbi self db);
  r ← call (mdb_get self.(guard).(txn) dbi (val_of key));
  let '(rc, d) := r in
  if rc =? MDB_SUCCESS then d ← lift (as_slice d); mret (Some d)
  else if rc =? MDB_NOTFOUND then mret None
  else fail (Error_from_raw rc).

(* SRC truenas_mdb/src/transaction.rs fn cursor #1 *)
Definition inner_cursor (self : Inner) (db : Db) : App CursorGuard :=
  dbi ← lift (inner_dbi self db); cursor_open self.(guard) dbi.

(* SRC truenas_mdb/src/transaction.rs fn stat #1 *)
Definition inner_stat (self : Inner) (db : Db) : App Stat :=
  dbi ← lift (inner_dbi self db); stat_read self.(guard) dbi.

(* SRC truenas_mdb/src/transaction.rs fn contains_key #1 *)
Definition inner_contains_key (self : Inner) (db : Db) (key : bytes) : App bool :=
  v ← inner_get self db key; mret (bool_decide (is_Some v)).

(* SRC truenas_mdb/src/transaction.rs fn put_flags *)
Definition put_flags (self : Inner) (db : Db) (key value : bytes) (flags : Z) : App unit :=
  dbi ← lift (inner_dbi self db);
  checked (mdb_put self.(guard).(txn) dbi (val_of key) (val_of value) flags).

(* SRC truenas_mdb/src/transaction.rs fn put *)
Definition put (self : Inner) (db : Db) (key value : bytes) : App unit := put_flags self db key value 0.

(** [Ok(())] is true, [KeyExist] false, any other error is the error. *)
(* SRC truenas_mdb/src/transaction.rs L 255-260 put_if_absent *)
Definition stored (m : App unit) : App bool := λ p,
  match m p with
  | (Ok _, p) => (Ok true, p)
  | (Err (Mdb KeyExist), p) => (Ok false, p)
  | (Err e, p) => (Err e, p)
  | (Stop w, p) => (Stop w, p)
  end.

(* SRC truenas_mdb/src/transaction.rs fn put_if_absent *)
Definition put_if_absent (self : Inner) (db : Db) (key value : bytes) : App bool :=
  stored (put_flags self db key value MDB_NOOVERWRITE).

(* SRC truenas_mdb/src/transaction.rs fn put_append *)
Definition put_append (self : Inner) (db : Db) (key value : bytes) : App unit :=
  put_flags self db key value MDB_APPEND.

(** [MDB_SUCCESS] is true and [MDB_NOTFOUND] false. *)
(* SRC truenas_mdb/src/transaction.rs L 288-292 del *)
Definition existed (rc : Z) : MdbResult bool :=
  if rc =? MDB_SUCCESS then Ok true
  else if rc =? MDB_NOTFOUND then Ok false
  else Err (Error_from_raw rc).

(* SRC truenas_mdb/src/transaction.rs fn del *)
Definition del (self : Inner) (db : Db) (key : bytes) : App bool :=
  dbi ← lift (inner_dbi self db);
  rc ← call (mdb_del self.(guard).(txn) dbi (val_of key));
  lift (existed rc).

(* SRC truenas_mdb/src/transaction.rs fn clear *)
Definition clear (self : Inner) (db : Db) : App unit :=
  dbi ← lift (inner_dbi self db);
  checked (mdb_drop self.(guard).(txn) dbi 0).

(** ** [Cursor]'s methods *)
(* SRC truenas_mdb/src/transaction.rs fn first *)
Definition cursor_first (self : CursorGuard) : App (option Pair) := cursor_step self MDB_FIRST None.
(* SRC truenas_mdb/src/transaction.rs fn last *)
Definition cursor_last (self : CursorGuard) : App (option Pair) := cursor_step self MDB_LAST None.
(* SRC truenas_mdb/src/transaction.rs fn next *)
Definition cursor_next (self : CursorGuard) : App (option Pair) := cursor_step self MDB_NEXT None.
(* SRC truenas_mdb/src/transaction.rs fn prev *)
Definition cursor_prev (self : CursorGuard) : App (option Pair) := cursor_step self MDB_PREV None.
(* SRC truenas_mdb/src/transaction.rs fn current *)
Definition cursor_current (self : CursorGuard) : App (option Pair) := cursor_step self MDB_GET_CURRENT None.

(* SRC truenas_mdb/src/transaction.rs fn seek *)
Definition seek (self : CursorGuard) (key : bytes) : App (option Pair) :=
  match key with
  | [] => cursor_step self MDB_FIRST None
  | key => cursor_step self MDB_SET_RANGE (Some key)
  end.

(* SRC truenas_mdb/src/transaction.rs fn seek_exact *)
Definition seek_exact (self : CursorGuard) (key : bytes) : App (option Pair) :=
  match key with
  | [] => mret None
  | key => cursor_step self MDB_SET_KEY (Some key)
  end.

(** ** [Env::read] and [Env::write] *)
(* SRC truenas_mdb/src/env.rs fn read *)
Definition env_read {R} (self : Env) (f : Inner → App R) : App R :=
  t ← inner_begin self true;
  dropping (txn_drop false t.(guard)) (f t).

(* SRC truenas_mdb/src/env.rs fn write *)
Definition env_write {R} (self : Env) (f : Inner → App R) : App R :=
  t ← inner_begin self false;
  value ← or_drop (txn_drop false t.(guard)) (f t);
  txn_commit t.(guard);;
  mret value.
End Txn.
