(* ===== verification/MdbDb.v ===== *)
(** [truenas_mdb]'s databases ([db.rs]) and iterators ([iter.rs]).  Each
    operation on a [Db] begins and finishes a transaction of its own. *)
From S2P Require Import Prelude MdbError Mdb MdbTxn.
Local Open Scope Z_scope.

(** [std::ops::ControlFlow]. *)
Inductive ControlFlow (B : Type) : Type := Continue | Break (b : B).
Arguments Continue {B}.
Arguments Break {B} b.

Section Db.
Context {W M : Type} {lib : Lmdb W}.
Abbreviation App := (St (Proc W M) MdbError).

(** A closure that returns no [Result]: it has no error to give. *)
Abbreviation Callback := (St (Proc W M) Empty_set).
Definition run_callback {A} (f : Callback A) : App A := λ p,
  let '(r, p) := f p in (map_err (λ e : Empty_set, match e with end) r, p).
(** A closure looks at the [Result] of an operation as at any value. *)
Definition attempt {A} (m : App A) : Callback (MdbResult A) := λ p,
  match m p with
  | (Ok a, p) => (Ok (Ok a), p)
  | (Err e, p) => (Ok (Err e), p)
  | (Stop w, p) => (Stop w, p)
  end.

(** ** Handles *)
(* SRC truenas_mdb/src/db.rs fn dbi_open *)
Definition dbi_open (e : Env) (name : option bytes) (flags : Z) (read_only : bool) : App Z :=
  t ← txn_begin e read_only;
  dbi ← or_drop (txn_drop false t)
          (r ← call (mdb_dbi_open t.(txn) name flags); lift (check r.1);; mret r.2);
  txn_commit t;;
  mret dbi.

(** The retry of [open_dbi], where the read-only lookup found nothing. *)
(* SRC truenas_mdb/src/db.rs L 341-347 open_dbi *)
Definition or_create (create : bool) (find make : App Z) : App Z := λ p,
  match find p with
  | (Err (Mdb NotFound), p) => if create then make p else (Err (Mdb NotFound), p)
  | r => r
  end.

(* SRC truenas_mdb/src/db.rs fn open_dbi *)
Definition open_dbi (e : Env) (name : option bytes) (create : bool) : App Db :=
  cname ← lift match name with
               | Some name => outcome_map Some (ok_or (cstring name) (Os EINVAL))
               | None => Ok None
               end;
  dbi ← or_create create (dbi_open e cname 0 true) (dbi_open e cname MDB_CREATE false);
  e ← env_clone e;
  mret (mkDb e dbi name).

(* SRC truenas_mdb/src/db.rs fn main *)
Definition db_main (e : Env) : App Db := open_dbi e None false.
(* SRC truenas_mdb/src/db.rs fn open *)
Definition db_open (e : Env) (name : bytes) : App Db := open_dbi e (Some name) false.
(* SRC truenas_mdb/src/db.rs fn create *)
Definition db_create (e : Env) (name : bytes) : App Db := open_dbi e (Some name) true.

(** [#[derive(Clone)]], and the drop of the environment a handle holds. *)
(* SRC truenas_mdb/src/db.rs L 47-52 Db *)
Definition db_clone (self : Db) : App Db :=
  e ← env_clone self.(db_env); mret (mkDb e self.(db_dbi) self.(db_name)).
Definition db_drop (self : Db) : App unit := env_drop self.(db_env).

(** ** Reads *)
(* SRC truenas_mdb/src/db.rs fn raw_get *)
Definition raw_get (self : Db) (t : TxnGuard) (key : bytes) : App (option bytes) :=
  r ← call (mdb_get t.(txn) self.(db_dbi) (val_of key));
  let '(rc, d) := r in
  if rc =? MDB_SUCCESS then d ← lift (as_slice d); mret (Some d)
  else if rc =? MDB_NOTFOUND then mret None
  else fail (Error_from_raw rc).

(** A transaction that the operation only reads in, to its end. *)
Definition reading {A} (self : Db) (f : TxnGuard → App A) : App A :=
  t ← txn_begin self.(db_env) true;
  dropping (txn_drop false t) (f t).

(* SRC truenas_mdb/src/db.rs fn get *)
Definition db_get (self : Db) (key : bytes) : App (option bytes) :=
  reading self (λ t, raw_get self t key).

(** [out] is part of the state: it is left emptied where the call fails. *)
(* SRC truenas_mdb/src/db.rs fn get_into *)
Definition get_into (self : Db) (key : bytes) : St (Proc W M * bytes) MdbError bool := λ '(p, _),
  match reading self (λ t, raw_get self t key) p with
  | (Ok (Some value), p) => (Ok true, (p, value))
  | (Ok None, p) => (Ok false, (p, []))
  | (Err e, p) => (Err e, (p, []))
  | (Stop w, p) => (Stop w, (p, []))
  end.

(* SRC truenas_mdb/src/db.rs fn with_value *)
Definition with_value {R} (self : Db) (key : bytes) (f : option bytes → Callback R) : App R :=
  reading self (λ t, v ← raw_get self t key; run_callback (f v)).

(* SRC truenas_mdb/src/db.rs fn contains_key *)
Definition contains_key (self : Db) (key : bytes) : App bool :=
  reading self (λ t, v ← raw_get self t key; mret (bool_decide (is_Some v))).

(* SRC truenas_mdb/src/db.rs fn len *)
Definition db_len (self : Db) : App Z :=
  reading self (λ t, r ← call (mdb_stat t.(txn) self.(db_dbi)); lift (check r.1);; mret r.2.(ms_entries)).

(* SRC truenas_mdb/src/db.rs fn is_empty *)
Definition is_empty (self : Db) : App bool := n ← db_len self; mret (n =? 0).

(* SRC truenas_mdb/src/db.rs fn stat *)
Definition db_stat (self : Db) : App Stat := reading self (λ t, stat_read t self.(db_dbi)).

(** ** Writes *)
(** A transaction that the operation commits unless it fails first. *)
Definition writing {A} (self : Db) (f : TxnGuard → App A) : App A :=
  t ← txn_begin self.(db_env) false;
  a ← or_drop (txn_drop false t) (f t);
  txn_commit t;;
  mret a.

(* SRC truenas_mdb/src/db.rs fn put_flags *)
Definition db_put_flags (self : Db) (key value : bytes) (flags : Z) : App unit :=
  writing self (λ t, checked (mdb_put t.(txn) self.(db_dbi) (val_of key) (val_of value) flags)).

(* SRC truenas_mdb/src/db.rs fn put *)
Definition db_put (self : Db) (key value : bytes) : App unit := db_put_flags self key value 0.

(* SRC truenas_mdb/src/db.rs fn put_if_absent *)
Definition db_put_if_absent (self : Db) (key value : bytes) : App bool :=
  stored (db_put_flags self key value MDB_NOOVERWRITE).

(* SRC truenas_mdb/src/db.rs fn del *)
Definition db_del (self : Db) (key : bytes) : App bool :=
  writing self (λ t, rc ← call (mdb_del t.(txn) self.(db_dbi) (val_of key)); lift (existed rc)).

(* SRC truenas_mdb/src/db.rs fn clear *)
Definition db_clear (self : Db) : App unit :=
  writing self (λ t, checked (mdb_drop t.(txn) self.(db_dbi) 0)).

(** ** Scans *)
(** The [while let] loop. *)
(* SRC truenas_mdb/src/db.rs L 403-410 scan_impl *)
Fixpoint scan_loop {B} (fuel : nat) (c : CursorGuard) (started : bool) (start prefix : option bytes)
    (f : bytes → bytes → Callback (ControlFlow B)) : App (option B) :=
  match fuel with
  | O => halt OutOfFuel
  | S fuel =>
      landed ← walk c started start prefix;
      match landed with
      | None => mret None
      | Some (key, value) =>
          flow ← run_callback (f key value);
          match flow with
          | Break b => mret (Some b)
          | Continue => scan_loop fuel c true start prefix f
          end
      end
  end.

(* SRC truenas_mdb/src/db.rs fn scan_impl *)
Definition scan_impl {B} (fuel : nat) (self : Db) (start prefix : option bytes)
    (f : bytes → bytes → Callback (ControlFlow B)) : App (option B) :=
  reading self (λ t,
    c ← cursor_open t self.(db_dbi);
    dropping (cursor_drop c) (scan_loop fuel c false start prefix f)).

(* SRC truenas_mdb/src/db.rs fn scan *)
Definition scan {B} (fuel : nat) (self : Db) (f : bytes → bytes → Callback (ControlFlow B)) : App (option B) :=
  scan_impl fuel self None None f.
(* SRC truenas_mdb/src/db.rs fn scan_from *)
Definition scan_from {B} (fuel : nat) (self : Db) (start : bytes)
    (f : bytes → bytes → Callback (ControlFlow B)) : App (option B) :=
  scan_impl fuel self (Some start) None f.
(* SRC truenas_mdb/src/db.rs fn scan_prefix *)
Definition scan_prefix {B} (fuel : nat) (self : Db) (prefix : bytes)
    (f : bytes → bytes → Callback (ControlFlow B)) : App (option B) :=
  scan_impl fuel self (Some prefix) (Some prefix) f.

(** ** Iterators *)
(* SRC truenas_mdb/src/iter.rs struct Iter *)
Record Iter : Type := mkIter {
  iter_cursor : CursorGuard; iter_txn : TxnGuard; iter_db : Db;
  iter_start : option bytes; iter_prefix_of : option bytes; started : bool; done : bool
}.

(** [db] is the caller's clone: where the call fails, it is dropped. *)
(* SRC truenas_mdb/src/iter.rs fn new *)
Definition iter_new (db : Db) (dbi : Z) (start prefix : option bytes) : App Iter :=
  or_drop (db_drop db)
    (t ← txn_begin db.(db_env) true;
     c ← or_drop (txn_drop false t) (cursor_open t dbi);
     mret (mkIter c t db start prefix false false)).

(* SRC truenas_mdb/src/db.rs fn iter *)
Definition iter (self : Db) : App Iter :=
  db ← db_clone self; iter_new db self.(db_dbi) None None.
(* SRC truenas_mdb/src/db.rs fn iter_from *)
Definition iter_from (self : Db) (start : bytes) : App Iter :=
  db ← db_clone self; iter_new db self.(db_dbi) (Some start) None.
(* SRC truenas_mdb/src/db.rs fn iter_prefix *)
Definition iter_prefix (self : Db) (prefix : bytes) : App Iter :=
  db ← db_clone self; iter_new db self.(db_dbi) (Some prefix) (Some prefix).

Definition set_flags (it : Iter) (started done : bool) : Iter :=
  mkIter it.(iter_cursor) it.(iter_txn) it.(iter_db) it.(iter_start) it.(iter_prefix_of) started done.

(** The pairs are copied; the iterator has [started] set. *)
(* SRC truenas_mdb/src/iter.rs fn step *)
Definition iter_step (it : Iter) : App (option Pair) :=
  walk it.(iter_cursor) it.(started) it.(iter_start) it.(iter_prefix_of).

(** [Option<Result<..>>]: an error is an item, not the call's own. *)
(* SRC truenas_mdb/src/iter.rs fn next *)
Definition iter_next (it : Iter) : Callback (option (MdbResult Pair) * Iter) :=
  if it.(done) then mret (None, it)
  else
    r ← attempt (iter_step it);
    match r with
    | Ok (Some kv) => mret (Some (Ok kv), set_flags it true false)
    | Ok None => mret (None, set_flags it true true)
    | Err e => mret (Some (Err e), set_flags it true true)
    | Stop w => halt w
    end.

(** The fields, in the order they are dropped. *)
(* SRC truenas_mdb/src/iter.rs L 36-48 Iter *)
Definition iter_drop (it : Iter) : App unit :=
  cursor_drop it.(iter_cursor);; txn_drop false it.(iter_txn);; db_drop it.(iter_db).
End Db.
