(* ===== verification/MdbLaws.v ===== *)
(** What [lmdb.h] documents of [liblmdb]: an abstract state of the library and
    the effect of each call on it, as the class [LmdbLaws].

    A database is its pairs in the order of their keys.  An environment's
    directory holds databases by name, the main one under no name.  A
    transaction has the databases as of its beginning, with its own writes; a
    cursor has a place among the pairs of one of them.  [others] is what other
    threads and processes may have committed to an environment by the time a
    transaction on it begins, which is where this thread can first see it.

    [sound] holds as long as no call has broken a rule of the library; a law
    gives it back only where its call keeps them. *)
From S2P Require Import Prelude MdbError Mdb MdbTxn.
Local Open Scope Z_scope.

(** ** Databases *)

(** [memcmp]'s order, a prefix first. *)
Fixpoint key_lt (a b : bytes) : bool :=
  match a, b with
  | _, [] => false
  | [], _ :: _ => true
  | x :: a, y :: b =>
      if byte_val x <? byte_val y then true
      else if byte_val y <? byte_val x then false
      else key_lt a b
  end.
Definition key_le (a b : bytes) : bool := negb (key_lt b a).

Abbreviation Pairs := (list Pair).

Definition find (k : bytes) (ps : Pairs) : option bytes :=
  snd <$> (snd <$> list_find (λ kv, kv.1 = k) ps).

Fixpoint store (k v : bytes) (ps : Pairs) : Pairs :=
  match ps with
  | [] => [(k, v)]
  | (k', v') :: ps' =>
      if key_lt k k' then (k, v) :: ps
      else if key_lt k' k then (k', v') :: store k v ps'
      else (k, v) :: ps'
  end.

Definition remove (k : bytes) (ps : Pairs) : Pairs := filter (λ kv, kv.1 ≠ k) ps.

Inductive sorted : Pairs → Prop :=
| sorted_nil : sorted []
| sorted_cons k v ps : Forall (λ kv, key_lt k kv.1 = true) ps → sorted ps → sorted ((k, v) :: ps).

(** ** The state of the library *)
Definition name_eq_dec : EqDecision (option bytes) := _.
Definition name_countable : Countable (option bytes) := _.
Abbreviation Store := (@gmap (option bytes) name_eq_dec name_countable Pairs).

(** The environment of a transaction, whether it is read-only, its databases,
    and the names its handles stand for. *)
Record Txn : Type := mkTxn { txn_env : Z; txn_ro : bool; txn_store : Store; txn_dbis : gmap Z (option bytes) }.

Inductive Place : Type := Fresh | At (i : nat) | Lost.
Record Cur : Type := mkCur { cur_txn : Z; cur_dbi : Z; cur_at : Place }.

(** The environments created, with the path of those that are open; the data
    by path; the handles by environment; this thread's transactions and
    cursors. *)
Record View : Type := mkView {
  envs : gmap Z (option bytes);
  disk : gmap bytes Store;
  dbis : gmap Z (gmap Z (option bytes));
  txns : gmap Z Txn;
  cursors : gmap Z Cur
}.

Definition set_envs m v := mkView m v.(disk) v.(dbis) v.(txns) v.(cursors).
Definition set_disk m v := mkView v.(envs) m v.(dbis) v.(txns) v.(cursors).
Definition set_dbis m v := mkView v.(envs) v.(disk) m v.(txns) v.(cursors).
Definition set_txns m v := mkView v.(envs) v.(disk) v.(dbis) m v.(cursors).
Definition set_cursors m v := mkView v.(envs) v.(disk) v.(dbis) v.(txns) m.

Definition with_store (x : Txn) (s : Store) : Txn := mkTxn x.(txn_env) x.(txn_ro) s x.(txn_dbis).
Definition with_place (c : Cur) (at_ : Place) : Cur := mkCur c.(cur_txn) c.(cur_dbi) at_.

(** The database a handle stands for in a transaction. *)
Definition db_of (x : Txn) (dbi : Z) : option (option bytes * Pairs) :=
  name ← x.(txn_dbis) !! dbi; ps ← x.(txn_store) !! name; Some (name, ps).

Definition set_db (x : Txn) (name : option bytes) (ps : Pairs) : Txn :=
  with_store x (<[name := ps]> x.(txn_store)).

(** [mv_size] bytes at [mv_data]; the pointer of an empty value may be null. *)
Definition val_is (v : MDB_val) (b : bytes) : Prop :=
  v.(mv_size) = len b ∧ (b = [] ∨ ∃ tail, v.(mv_data) = Some (b ++ tail)).

(** Where a cursor lands: [Some None] is nowhere, [None] is not said. *)
Definition landing (op : Z) (k : bytes) (ps : Pairs) (at_ : Place) : option (option nat) :=
  let ends i := Some (if decide (i < length ps)%nat then Some i else None) in
  if op =? MDB_FIRST then ends O
  else if op =? MDB_LAST then Some (match ps with [] => None | _ => Some (length ps - 1)%nat end)
  else if op =? MDB_NEXT then match at_ with Fresh => ends O | At i => ends (S i) | Lost => None end
  else if op =? MDB_PREV then
    match at_ with
    | Fresh => Some (match ps with [] => None | _ => Some (length ps - 1)%nat end)
    | At i => Some (match i with O => None | S i => Some i end)
    | Lost => None
    end
  else if op =? MDB_GET_CURRENT then match at_ with At i => ends i | _ => None end
  else if op =? MDB_SET_KEY then Some (fst <$> list_find (λ kv, kv.1 = k) ps)
  else if op =? MDB_SET_RANGE then Some (fst <$> list_find (λ kv, key_le k kv.1 = true) ps)
  else None.

(** Whether a flag lets a pair be put, and what its refusal [MDB_KEYEXIST] says. *)
Definition putable (flags : Z) (k : bytes) (ps : Pairs) : bool :=
  if flags =? MDB_NOOVERWRITE then bool_decide (find k ps = None)
  else if flags =? MDB_APPEND then forallb (λ kv, key_lt kv.1 k) ps
  else true.

(** An environment that is open, at its path. *)
Definition opened (v : View) (e : Z) (path : bytes) : Prop := v.(envs) !! e = Some (Some path).
(** No cursor is open in a transaction. *)
Definition no_cursor (v : View) (t : Z) : Prop := ∀ c y, v.(cursors) !! c = Some y → y.(cur_txn) ≠ t.
(** No transaction of this thread is on an environment. *)
Definition no_txn (v : View) (e : Z) : Prop := ∀ t x, v.(txns) !! t = Some x → x.(txn_env) ≠ e.
(** What is known of the data at a path, and of an environment's handles. *)
Definition data (v : View) (path : bytes) : Store := default ∅ (v.(disk) !! path).
Definition handles (v : View) (e : Z) : gmap Z (option bytes) := default ∅ (v.(dbis) !! e).

Definition set_txn (t : Z) (x : Txn) (v : View) : View := set_txns (<[t := x]> v.(txns)) v.
Definition set_cursor (c : Z) (y : Cur) (v : View) : View := set_cursors (<[c := y]> v.(cursors)) v.
Definition end_txn (t : Z) (v : View) : View := set_txns (delete t v.(txns)) v.

(** The transaction that begins on an environment whose data is [s] by then. *)
Definition begun (v : View) (e : Z) (path : bytes) (ro : bool) (s : Store) (t : Z) : View :=
  set_txn t (mkTxn e ro s (handles v e)) (set_disk (<[path := s]> v.(disk)) v).

(** A transaction that commits, and its handles with it. *)
Definition committed (v : View) (path : bytes) (t : Z) (x : Txn) : View :=
  let v := set_dbis (<[x.(txn_env) := x.(txn_dbis)]> v.(dbis)) (end_txn t v) in
  if x.(txn_ro) then v else set_disk (<[path := x.(txn_store)]> v.(disk)) v.

(** A call on a transaction that failed may have left anything in it. *)
Definition spoilt (v v' : View) (t : Z) (x : Txn) : Prop :=
  ∃ s, v' = set_txn t (with_store x s) v.

Definition put_flag (flags : Z) : Prop := flags = 0 ∨ flags = MDB_NOOVERWRITE ∨ flags = MDB_APPEND.

Class LmdbLaws (W : Type) {lib : Lmdb W} : Type := {
  view : W → View;
  sound : W → Prop;
  others : bytes → Store → Store → Prop;

  (** Environments. *)
  env_create_law w rc e w' :
    mdb_env_create w = ((rc, e), w') → sound w →
    sound w' ∧
    if rc =? MDB_SUCCESS then e ≠ 0 ∧ (view w).(envs) !! e = None ∧ view w' = set_envs (<[e := None]> (view w).(envs)) (view w)
    else view w' = view w;
  set_mapsize_law w e n rc w' :
    mdb_env_set_mapsize e n w = (rc, w') → sound w → (view w).(envs) !! e = Some None → sound w' ∧ view w' = view w;
  set_maxdbs_law w e n rc w' :
    mdb_env_set_maxdbs e n w = (rc, w') → sound w → (view w).(envs) !! e = Some None → sound w' ∧ view w' = view w;
  set_maxreaders_law w e n rc w' :
    mdb_env_set_maxreaders e n w = (rc, w') → sound w → (view w).(envs) !! e = Some None → sound w' ∧ view w' = view w;
  (** One open per path and process. *)
  env_open_law w e path flags mode rc w' :
    mdb_env_open e path flags mode w = (rc, w') → sound w →
    (view w).(envs) !! e = Some None → (∀ e', ¬ opened (view w) e' path) →
    sound w' ∧
    if rc =? MDB_SUCCESS then
      ∃ s, (∀ s0, (view w).(disk) !! path = Some s0 → others path s0 s) ∧
        view w' = set_envs (<[e := Some path]> (view w).(envs)) (set_disk (<[path := s]> (view w).(disk)) (view w))
    else view w' = view w;
  env_sync_law w e force path rc w' :
    mdb_env_sync e force w = (rc, w') → sound w → opened (view w) e path → sound w' ∧ view w' = view w;
  env_info_law w e path r w' :
    mdb_env_info e w = (r, w') → sound w → opened (view w) e path → sound w' ∧ view w' = view w;
  reader_check_law w e path r w' :
    mdb_reader_check e w = (r, w') → sound w → opened (view w) e path → sound w' ∧ view w' = view w;
  (** Closed once, with no transaction on it. *)
  env_close_law w e o :
    sound w → (view w).(envs) !! e = Some o → no_txn (view w) e →
    let w' := mdb_env_close e w in
    sound w' ∧
    view w' = set_envs (delete e (view w).(envs)) (set_dbis (delete e (view w).(dbis)) (view w));
  create_dir_all_law w path mode r w' :
    create_dir_all path mode w = (r, w') → sound w → sound w' ∧ view w' = view w;
  canonicalize_law w path r w' :
    canonicalize path w = (r, w') → sound w → sound w' ∧ view w' = view w;
  io_returns w path mode :
    (∀ s, (create_dir_all path mode w).1 ≠ Stop s) ∧ (∀ s, (canonicalize path w).1 ≠ Stop s);

  (** Transactions: one at a time on an environment, finished once and with no
      cursor open in it. *)
  begin_law w e path (ro : bool) rc t w' :
    mdb_txn_begin e (if ro then MDB_RDONLY else 0) w = ((rc, t), w') → sound w →
    opened (view w) e path → no_txn (view w) e →
    sound w' ∧
    if rc =? MDB_SUCCESS then
      (view w).(txns) !! t = None ∧ no_cursor (view w) t ∧
      ∃ s, others path (data (view w) path) s ∧ view w' = begun (view w) e path ro s t
    else view w' = view w;
  commit_law w t x path rc w' :
    mdb_txn_commit t w = (rc, w') → sound w →
    (view w).(txns) !! t = Some x → opened (view w) x.(txn_env) path → no_cursor (view w) t →
    sound w' ∧ view w' = if rc =? MDB_SUCCESS then committed (view w) path t x else end_txn t (view w);
  (** Their documented errors are others. *)
  begin_rc w e flags : (mdb_txn_begin e flags w).1.1 ≠ MDB_KEYEXIST;
  commit_rc w t : (mdb_txn_commit t w).1 ≠ MDB_KEYEXIST;
  abort_law w t x :
    sound w → (view w).(txns) !! t = Some x → no_cursor (view w) t →
    sound (mdb_txn_abort t w) ∧ view (mdb_txn_abort t w) = end_txn t (view w);

  (** Databases. *)
  sorted_law w t x name ps :
    sound w → (view w).(txns) !! t = Some x → x.(txn_store) !! name = Some ps → sorted ps;
  get_law w t x dbi k rc d w' :
    mdb_get t dbi (val_of k) w = ((rc, d), w') → sound w → (view w).(txns) !! t = Some x →
    sound w' ∧ view w' = view w ∧
    (rc = MDB_SUCCESS → ∃ name ps b, db_of x dbi = Some (name, ps) ∧ find k ps = Some b ∧ val_is d b) ∧
    (rc = MDB_NOTFOUND → ∃ name ps, db_of x dbi = Some (name, ps) ∧ find k ps = None);
  put_law w t x dbi k v flags rc w' :
    mdb_put t dbi (val_of k) (val_of v) flags w = (rc, w') → sound w → (view w).(txns) !! t = Some x → put_flag flags →
    sound w' ∧
    if rc =? MDB_SUCCESS then
      ∃ name ps, db_of x dbi = Some (name, ps) ∧ putable flags k ps = true ∧
        view w' = set_txn t (set_db x name (store k v ps)) (view w)
    else if rc =? MDB_KEYEXIST then
      ∃ name ps, db_of x dbi = Some (name, ps) ∧ putable flags k ps = false ∧ view w' = view w
    else spoilt (view w) (view w') t x;
  del_law w t x dbi k rc w' :
    mdb_del t dbi (val_of k) w = (rc, w') → sound w → (view w).(txns) !! t = Some x →
    sound w' ∧
    if rc =? MDB_SUCCESS then
      ∃ name ps, db_of x dbi = Some (name, ps) ∧ is_Some (find k ps) ∧
        view w' = set_txn t (set_db x name (remove k ps)) (view w)
    else if rc =? MDB_NOTFOUND then
      ∃ name ps, db_of x dbi = Some (name, ps) ∧ find k ps = None ∧ view w' = view w
    else spoilt (view w) (view w') t x;
  (** The main database holds the others' records: emptying it is not only that. *)
  drop_law w t x dbi rc w' :
    mdb_drop t dbi 0 w = (rc, w') → sound w → (view w).(txns) !! t = Some x →
    sound w' ∧
    if rc =? MDB_SUCCESS then
      ∃ name ps s, db_of x dbi = Some (name, ps) ∧ view w' = set_txn t (with_store x s) (view w) ∧
        s !! name = Some [] ∧ (name ≠ None → s = <[name := []]> x.(txn_store))
    else spoilt (view w) (view w') t x;
  stat_law w t x dbi rc st w' :
    mdb_stat t dbi w = ((rc, st), w') → sound w → (view w).(txns) !! t = Some x →
    sound w' ∧ view w' = view w ∧
    (rc = MDB_SUCCESS → ∃ name ps, db_of x dbi = Some (name, ps) ∧ st.(ms_entries) = len ps);
  (** A created database is empty, and has its record in the main one. *)
  dbi_open_law w t x name flags rc dbi w' :
    mdb_dbi_open t name flags w = ((rc, dbi), w') → sound w → (view w).(txns) !! t = Some x →
    flags = 0 ∨ flags = MDB_CREATE →
    sound w' ∧
    if rc =? MDB_SUCCESS then
      (∀ n, x.(txn_dbis) !! dbi = Some n → n = name) ∧
      ∃ s, view w' = set_txn t (mkTxn x.(txn_env) x.(txn_ro) s (<[dbi := name]> x.(txn_dbis))) (view w) ∧
        match x.(txn_store) !! name with
        | Some _ => s = x.(txn_store)
        | None => flags = MDB_CREATE ∧ s !! name = Some [] ∧ ∀ n, n ≠ name → n ≠ None → s !! n = x.(txn_store) !! n
        end
    else if rc =? MDB_NOTFOUND then x.(txn_store) !! name = None ∧ view w' = view w
    else spoilt (view w) (view w') t x;

  (** Cursors. *)
  cursor_open_law w t x dbi rc c w' :
    mdb_cursor_open t dbi w = ((rc, c), w') → sound w → (view w).(txns) !! t = Some x →
    sound w' ∧
    if rc =? MDB_SUCCESS then
      (view w).(cursors) !! c = None ∧ is_Some (db_of x dbi) ∧ view w' = set_cursor c (mkCur t dbi Fresh) (view w)
    else view w' = view w;
  cursor_get_law w c y x from op rc k d w' :
    mdb_cursor_get c (from_option val_of empty_val from) op w = ((rc, (k, d)), w') → sound w →
    (view w).(cursors) !! c = Some y → (view w).(txns) !! y.(cur_txn) = Some x →
    sound w' ∧
    if rc =? MDB_SUCCESS then
      ∃ name ps i kv, db_of x y.(cur_dbi) = Some (name, ps) ∧ ps !! i = Some kv ∧
        val_is k kv.1 ∧ val_is d kv.2 ∧
        (∀ o, landing op (default [] from) ps y.(cur_at) = Some o → o = Some i) ∧
        view w' = set_cursor c (with_place y (At i)) (view w)
    else
      (rc = MDB_NOTFOUND → ∃ name ps, db_of x y.(cur_dbi) = Some (name, ps) ∧
         ∀ o, landing op (default [] from) ps y.(cur_at) = Some o → o = None) ∧
      view w' = set_cursor c (with_place y Lost) (view w);
  cursor_close_law w c y :
    sound w → (view w).(cursors) !! c = Some y →
    sound (mdb_cursor_close c w) ∧ view (mdb_cursor_close c w) = set_cursors (delete c (view w).(cursors)) (view w)
}.
