(* ===== verification/MdbKeeps.v ===== *)
(** The invariant of a process that uses [truenas_mdb], what every computation
    of the crate leaves alone ([frame]), and that each of them keeps both. *)
From S2P Require Import Prelude MdbError Mdb MdbTxn MdbDb MdbLaws.
Local Open Scope Z_scope.

(** ** The thread's list *)
Lemma rposition_some e l i : rposition e l = Some i → l !! i = Some e.
Proof.
  unfold rposition. intros H. destruct (list_find (e =.) (reverse l)) as [[j z]|] eqn:Hf; simplify_eq/=.
  apply list_find_Some in Hf as (Hj & <- & _). pose proof (lookup_lt_Some _ _ _ Hj) as Hlt.
  rewrite length_reverse in Hlt. by rewrite reverse_lookup in Hj.
Qed.

Lemma rposition_none e l : rposition e l = None → e ∉ l.
Proof.
  unfold rposition. destruct (list_find (e =.) (reverse l)) as [|] eqn:Hf; [done|].
  intros _ Hin. apply list_find_None in Hf. rewrite Forall_forall in Hf.
  by apply (Hf e); [apply elem_of_reverse|].
Qed.

Lemma swap_remove_perm i l e : l !! i = Some e → e :: swap_remove i l ≡ₚ l.
Proof.
  intros Hi. unfold swap_remove. destruct l as [|z0 l0 _] using rev_ind; [done|].
  rewrite last_snoc, length_app. replace (length l0 + length [z0] - 1)%nat with (length l0) by (simpl; lia).
  destruct (decide (i = length l0)) as [->|].
  - rewrite lookup_app_r, Nat.sub_diag in Hi by lia. simplify_eq/=.
    rewrite insert_app_r_alt by lia. rewrite take_app_length'; [|done]. apply Permutation_cons_append.
  - assert (i < length l0)%nat as Hlt by (apply lookup_lt_Some in Hi; rewrite length_app in Hi; simpl in Hi; lia).
    rewrite lookup_app_l in Hi by done. rewrite insert_app_l by done.
    rewrite take_app_length' by (by rewrite length_insert).
    rewrite insert_take_drop by done. rewrite <- Permutation_cons_append, <- !Permutation_middle.
    rewrite Permutation_swap. constructor. rewrite Permutation_middle. by rewrite take_drop_middle.
Qed.

Lemma elem_of_map_to_list_env (m : gmap Z Txn) e :
  e ∈ (txn_env ∘ snd <$> map_to_list m) ↔ ∃ t x, m !! t = Some x ∧ x.(txn_env) = e.
Proof.
  rewrite list_elem_of_fmap. split.
  - intros ([t x] & -> & H). exists t, x. by apply elem_of_map_to_list in H.
  - intros (t & x & H & <-). exists (t, x). split; [done|]. by apply elem_of_map_to_list.
Qed.

Section Ok.
Context {W M : Type} {lib : Lmdb W} {laws : LmdbLaws W}.
Implicit Types p : Proc W M.
Abbreviation App := (St (Proc W M) MdbError).
Abbreviation V p := (view p.(lmdb)).
Abbreviation envs_of m := (txn_env ∘ snd <$> map_to_list m).

(** ** The invariant

    The thread's list is the environments of its transactions, each once; the
    pool's slots are the environments that are open, each at its own path and
    with a count of its handles. *)
Record inv p : Prop := mkInv {
  inv_sound : sound p.(lmdb);
  inv_active : p.(ACTIVE) ≡ₚ envs_of (V p).(txns);
  inv_once : NoDup p.(ACTIVE);
  inv_open t x : (V p).(txns) !! t = Some x → ∃ path, opened (V p) x.(txn_env) path;
  inv_cursor c y : (V p).(cursors) !! c = Some y → is_Some ((V p).(txns) !! y.(cur_txn));
  inv_slot k s : p.(env_pool) !! k = Some s →
    s = fresh_slot ∨ 0 < s.(refcnt) ∧ opened (V p) s.(slot_env) k;
  inv_env e o : (V p).(envs) !! e = Some o →
    e ≠ 0 ∧ ∃ k s, o = Some k ∧ p.(env_pool) !! k = Some s ∧ s.(slot_env) = e
}.

(** A handle is alive while its slot holds its environment. *)
Definition alive p (e : Env) : Prop :=
  e.(env) ≠ 0 ∧ ∃ s, p.(env_pool) !! e.(key) = Some s ∧ s.(slot_env) = e.(env).

Lemma alive_open p e : inv p → alive p e → opened (V p) e.(env) e.(key).
Proof.
  intros Hp (Hn & s & Hs & He). destruct (inv_slot p Hp _ _ Hs) as [->|[_ H]]; [by destruct Hn|].
  by rewrite <- He.
Qed.

Lemma active_txn p e : inv p → e ∈ p.(ACTIVE) ↔ ∃ t x, (V p).(txns) !! t = Some x ∧ x.(txn_env) = e.
Proof. intros Hp. rewrite (inv_active p Hp). apply elem_of_map_to_list_env. Qed.

Lemma not_active p e : inv p → e ∉ p.(ACTIVE) ↔ no_txn (V p) e.
Proof. intros Hp. rewrite active_txn by done. unfold no_txn. naive_solver. Qed.

(** ** The frame *)
Record frame p p' : Prop := mkFrame {
  frame_txns t :
    (λ x, (x.(txn_env), x.(txn_ro))) <$> (V p').(txns) !! t = (λ x, (x.(txn_env), x.(txn_ro))) <$> (V p).(txns) !! t;
  frame_cursors c :
    (λ y, (y.(cur_txn), y.(cur_dbi))) <$> (V p').(cursors) !! c = (λ y, (y.(cur_txn), y.(cur_dbi))) <$> (V p).(cursors) !! c;
  frame_pool k : p'.(env_pool) !! k = p.(env_pool) !! k ∨
    (p.(env_pool) !! k = None ∧ p'.(env_pool) !! k = Some fresh_slot)
}.

#[global] Instance frame_preorder : PreOrder frame.
Proof.
  split.
  - intros p. split; [done..|]. by left.
  - intros p1 p2 p3 [T1 C1 P1] [T2 C2 P2]. split.
    + intros t. by rewrite T2, T1.
    + intros c. by rewrite C2, C1.
    + intros k. destruct (P1 k) as [E1|[N1 F1]], (P2 k) as [E2|[N2 F2]]; [left|right|right|]; try split; congruence.
Qed.

(** More may be begun than there was: what a borrow of the old state still has. *)
Record extends p p' : Prop := mkExtends {
  extends_txns t x : (V p).(txns) !! t = Some x → ∃ x', (V p').(txns) !! t = Some x' ∧ x'.(txn_env) = x.(txn_env);
  extends_cursors c : is_Some ((V p).(cursors) !! c) → is_Some ((V p').(cursors) !! c);
  extends_pool k s : p.(env_pool) !! k = Some s → s.(slot_env) ≠ 0 →
    ∃ s', p'.(env_pool) !! k = Some s' ∧ s'.(slot_env) = s.(slot_env) ∧ s.(refcnt) ≤ s'.(refcnt)
}.

Lemma framed_extends p p' : frame p p' → extends p p'.
Proof.
  intros [T C P]. split.
  - intros t x Hx. specialize (T t). rewrite Hx in T. destruct (txns (V p') !! t) as [x'|]; simplify_eq/=. by exists x'.
  - intros c [y Hy]. specialize (C c). rewrite Hy in C. destruct (cursors (V p') !! c); simplify_eq/=. by eexists.
  - intros k s Hs Hn. exists s. destruct (P k) as [->|[? _]]; [done|congruence].
Qed.

(** A transaction on an environment, and a cursor. *)
Definition live p (t e : Z) : Prop := ∃ x, (V p).(txns) !! t = Some x ∧ x.(txn_env) = e.
Definition live_cursor p (c : Z) : Prop := is_Some ((V p).(cursors) !! c).

(** What borrows can rely on. *)
Definition stable (P : Proc W M → Prop) : Prop := ∀ p p', extends p p' → P p → P p'.

Lemma stable_alive e : stable (λ p, alive p e).
Proof.
  intros p p' Hf (Hn & s & Hs & He). destruct (extends_pool _ _ Hf _ _ Hs) as (s' & Hs' & He' & _); [by rewrite He|].
  split; [done|]. exists s'. split; [done|]. by rewrite He'.
Qed.
Lemma stable_live t e : stable (λ p, live p t e).
Proof.
  intros p p' Hf (x & Hx & He). destruct (extends_txns _ _ Hf _ _ Hx) as (x' & Hx' & He'). exists x'. by rewrite He'.
Qed.
Lemma stable_cursor c : stable (λ p, live_cursor p c).
Proof. intros p p' Hf. apply (extends_cursors _ _ Hf). Qed.
Lemma stable_and P Q : stable P → stable Q → stable (λ p, P p ∧ Q p).
Proof. intros HP HQ p p' F [? ?]. split; [by eapply HP|by eapply HQ]. Qed.
Lemma stable_frame P p p' : stable P → frame p p' → P p → P p'.
Proof. intros HP F. by apply HP, framed_extends. Qed.

Lemma frame_no_cursor p p' t : frame p p' → no_cursor (V p) t → no_cursor (V p') t.
Proof.
  intros Hf Hn c y' Hy'. pose proof (frame_cursors _ _ Hf c) as H. rewrite Hy' in H.
  destruct ((V p).(cursors) !! c) as [y|] eqn:Hy; simplify_eq/=. by eapply Hn in Hy; congruence.
Qed.

(** ** Calls that change one part of the state *)
Lemma envs_of_insert (m : gmap Z Txn) t x : m !! t = None → envs_of (<[t := x]> m) ≡ₚ x.(txn_env) :: envs_of m.
Proof. intros H. by rewrite map_to_list_insert. Qed.

Lemma envs_of_delete (m : gmap Z Txn) t x : m !! t = Some x → x.(txn_env) :: envs_of (delete t m) ≡ₚ envs_of m.
Proof. intros H. rewrite <- (map_to_list_delete m t x H). done. Qed.

Lemma envs_of_update (m : gmap Z Txn) t x x' :
  m !! t = Some x → x'.(txn_env) = x.(txn_env) → envs_of (<[t := x']> m) ≡ₚ envs_of m.
Proof.
  intros H He. rewrite <- insert_delete_eq, envs_of_insert by apply lookup_delete_eq.
  rewrite He. by apply envs_of_delete.
Qed.

Lemma keep_view p w : inv p → sound w → view w = V p → inv (set_lmdb w p) ∧ frame p (set_lmdb w p).
Proof.
  intros Hp Hw Hv. split.
  - destruct Hp. split; simpl; rewrite ?Hv; eauto.
  - split; simpl; rewrite ?Hv; [done..|]. by left.
Qed.

Lemma keep_txn p w t x x' :
  inv p → sound w → (V p).(txns) !! t = Some x → view w = set_txn t x' (V p) →
  x'.(txn_env) = x.(txn_env) → x'.(txn_ro) = x.(txn_ro) → inv (set_lmdb w p) ∧ frame p (set_lmdb w p).
Proof.
  intros Hp Hw Hx Hv He Hr. destruct Hp as [_ Ha Ho Hop Hc Hs Hen]. split.
  - split; simpl; rewrite ?Hv; simpl; try done.
    + by rewrite Ha, (envs_of_update _ _ _ _ Hx He).
    + intros t' y. rewrite lookup_insert_Some. intros [[<- <-]|[_ H]]; [rewrite He|]; by eapply Hop.
    + intros c y Hy. rewrite lookup_insert_is_Some'. right. by eapply Hc.
  - split; simpl; rewrite ?Hv; simpl; [|done|by left].
    intros t'. destruct (decide (t = t')) as [<-|]; [rewrite lookup_insert_eq|by rewrite lookup_insert_ne]. rewrite Hx. simpl. by rewrite He, Hr.
Qed.

Lemma keep_cursor p w c y y' :
  inv p → sound w → (V p).(cursors) !! c = Some y → view w = set_cursor c y' (V p) →
  y'.(cur_txn) = y.(cur_txn) → y'.(cur_dbi) = y.(cur_dbi) → inv (set_lmdb w p) ∧ frame p (set_lmdb w p).
Proof.
  intros Hp Hw Hy Hv Ht Hd. destruct Hp as [_ Ha Ho Hop Hc Hs Hen]. split.
  - split; simpl; rewrite ?Hv; simpl; try done.
    intros c' z. rewrite lookup_insert_Some. intros [[<- <-]|[_ H]]; [rewrite Ht|]; by eapply Hc.
  - split; simpl; rewrite ?Hv; simpl; [done| |by left].
    intros c'. destruct (decide (c = c')) as [<-|]; [rewrite lookup_insert_eq|by rewrite lookup_insert_ne]. rewrite Hy. simpl. by rewrite Ht, Hd.
Qed.

(** ** Beginning and finishing a transaction *)
Lemma release_spec p e :
  ∃ l, release e p = (Ok tt, set_ACTIVE l p) ∧ (e ∈ p.(ACTIVE) → e :: l ≡ₚ p.(ACTIVE)).
Proof.
  unfold release, modify. destruct (rposition e (ACTIVE p)) as [i|] eqn:Hi.
  - exists (swap_remove i (ACTIVE p)). split; [done|]. intros _. by apply swap_remove_perm, rposition_some.
  - exists (ACTIVE p). split; [by destruct p|]. intros H. by apply rposition_none in Hi.
Qed.
#[local] Opaque release.

(** The outcomes of [begin]. *)
Lemma run_begin p e ro r p' :
  inv p → alive p e → txn_begin e ro p = (r, p') →
  inv p' ∧ p'.(env_pool) = p.(env_pool) ∧ p'.(memory) = p.(memory) ∧
  ((r = Err (Os EDEADLK) ∧ e.(env) ∈ p.(ACTIVE) ∧ p' = p) ∨
   (no_txn (V p) e.(env) ∧ V p' = V p ∧ ∃ err, r = Err err) ∨
   (no_txn (V p) e.(env) ∧ ∃ t s, r = Ok (mkGuard t e.(env)) ∧ (V p).(txns) !! t = None ∧ no_cursor (V p) t ∧
      others e.(key) (data (V p) e.(key)) s ∧ V p' = begun (V p) e.(env) e.(key) ro s t)).
Proof.
  intros Hp Hal. pose proof (alive_open p e Hp Hal) as Hop. unfold txn_begin, claim, or_drop, call, lift, fail, modify.
  unfold mbind, St_bind, mret, St_ret, get. simpl. destruct (decide (env e ∈ ACTIVE p)) as [Hin|Hout].
  { intros ?; simplify_eq/=. split; [done|]. do 2 (split; [done|]). left. done. }
  pose proof (proj1 (not_active p _ Hp) Hout) as Hno. simpl.
  destruct (mdb_txn_begin _ _ _) as [[rc t] w] eqn:Hb. simpl.
  destruct (begin_law _ _ _ _ _ _ _ Hb (inv_sound p Hp) Hop Hno) as [Hw Hv].
  destruct (Z.eqb_spec rc MDB_SUCCESS) as [->|Hrc]; simpl.
  - destruct Hv as (Ht & Hc & s & Hs & Hv). intros ?; simplify_eq/=. split.
    + destruct Hp as [_ Ha Ho Hopn Hcu Hsl Hen]. split; simpl; rewrite ?Hv; simpl; try done.
      * rewrite envs_of_insert by done. rewrite Ha. symmetry. apply Permutation_cons_append.
      * apply NoDup_app. split; [done|]. split; [|apply NoDup_singleton].
        intros z Hz ->%list_elem_of_singleton. done.
      * intros t' x. rewrite lookup_insert_Some. intros [[<- <-]|[_ H]]; [by eexists|by eapply Hopn].
      * intros c y Hy. rewrite lookup_insert_is_Some'. right. by eapply Hcu.
    + do 2 (split; [done|]). right. right. split; [done|]. exists t, s. done.
  - unfold check. rewrite (proj2 (Z.eqb_neq _ _) Hrc). simpl.
    set (q := set_lmdb w _).
    destruct (release_spec q (env e)) as (l & -> & Hperm).
    specialize (Hperm ltac:(simpl; apply elem_of_app; right; by apply list_elem_of_singleton)). simpl in Hperm.
    intros ?; simplify_eq/=. split.
    + rewrite <- Permutation_cons_append in Hperm. apply Permutation_cons_inv in Hperm.
      destruct Hp as [_ Ha Ho Hopn Hcu Hsl Hen]. split; simpl; rewrite ?Hv; try done; by rewrite Hperm.
    + do 2 (split; [done|]). right. left. split; [done|]. split; [done|]. by eexists.
Qed.

(** A state that differs in its world and its list only, after a transaction has
    left both. *)
Lemma keep_end p w l t x :
  inv p → sound w → (V p).(txns) !! t = Some x → no_cursor (V p) t → x.(txn_env) :: l ≡ₚ p.(ACTIVE) →
  (view w).(txns) = delete t (V p).(txns) → (view w).(cursors) = (V p).(cursors) → (view w).(envs) = (V p).(envs) →
  inv (set_ACTIVE l (set_lmdb w p)).
Proof.
  intros Hp Hw Hx Hn Hl Ht Hc He. destruct Hp as [_ Ha Ho Hop Hcu Hsl Hen].
  split; simpl; rewrite ?Ht, ?Hc; simpl; unfold opened; rewrite ?He; try done.
  - apply (Permutation_cons_inv (a := x.(txn_env))). by rewrite envs_of_delete, <- Ha.
  - rewrite <- Hl in Ho. by apply NoDup_cons in Ho as [_ ?].
  - intros t' y. rewrite lookup_delete_Some. intros [_ H]. by eapply Hop.
  - intros c y Hy. pose proof (Hn c y Hy) as Hne. rewrite lookup_delete_ne by done. by eapply Hcu.
Qed.

Lemma active_of p t x : inv p → (V p).(txns) !! t = Some x → x.(txn_env) ∈ p.(ACTIVE).
Proof. intros Hp Hx. apply active_txn; [done|]. by exists t, x. Qed.

(** [drop] of a guard that is not committed. *)
Lemma run_drop p g x :
  inv p → (V p).(txns) !! g.(txn) = Some x → x.(txn_env) = g.(guard_env) → no_cursor (V p) g.(txn) →
  ∃ p', txn_drop false g p = (Ok tt, p') ∧ inv p' ∧ V p' = end_txn g.(txn) (V p) ∧
    p'.(env_pool) = p.(env_pool) ∧ p'.(memory) = p.(memory).
Proof.
  intros Hp Hx He Hn. unfold txn_drop, mbind, St_bind, call_. simpl.
  destruct (abort_law _ _ _ (inv_sound p Hp) Hx Hn) as [Hw Hv].
  destruct (release_spec (set_lmdb (mdb_txn_abort (txn g) (lmdb p)) p) (guard_env g)) as (l & -> & Hl).
  eexists. split; [done|]. split; [|done].
  eapply keep_end; try done; try (by rewrite Hv). rewrite He. apply Hl. simpl. rewrite <- He. by eapply active_of.
Qed.

Lemma run_commit p g x path r p' :
  inv p → (V p).(txns) !! g.(txn) = Some x → x.(txn_env) = g.(guard_env) → no_cursor (V p) g.(txn) →
  opened (V p) x.(txn_env) path → txn_commit g p = (r, p') →
  inv p' ∧ p'.(env_pool) = p.(env_pool) ∧ p'.(memory) = p.(memory) ∧
  ((r = Ok tt ∧ V p' = committed (V p) path g.(txn) x) ∨ ((∃ err, r = Err err) ∧ V p' = end_txn g.(txn) (V p))).
Proof.
  intros Hp Hx He Hn Hop. unfold txn_commit, dropping, checked, txn_drop, mbind, St_bind, mret, St_ret, call, lift. simpl.
  destruct (mdb_txn_commit _ _) as [rc w] eqn:Hc. simpl.
  destruct (commit_law _ _ _ _ _ _ Hc (inv_sound p Hp) Hx Hop Hn) as [Hw Hv].
  destruct (release_spec (set_lmdb w p) (guard_env g)) as (l & -> & Hl). simpl. intros ?; simplify_eq/=.
  assert (x.(txn_env) :: l ≡ₚ p.(ACTIVE)) as Hl'.
  { rewrite He. apply Hl. simpl. rewrite <- He. by eapply active_of. }
  split; [|do 2 (split; [done|])].
  - eapply keep_end; try done; rewrite Hv; case_match; try done; unfold committed; by destruct (txn_ro x).
  - unfold check. destruct (Z.eqb_spec rc MDB_SUCCESS); [left|right; split; [by eexists|]]; done.
Qed.

(** A cursor opened, and closed. *)
Lemma run_cursor_open p g x dbi r p' :
  inv p → (V p).(txns) !! g.(txn) = Some x → cursor_open g dbi p = (r, p') →
  inv p' ∧ p'.(ACTIVE) = p.(ACTIVE) ∧ p'.(env_pool) = p.(env_pool) ∧ p'.(memory) = p.(memory) ∧
  (((∃ err, r = Err err) ∧ V p' = V p) ∨
   ∃ c, r = Ok (mkCursor c) ∧ (V p).(cursors) !! c = None ∧ is_Some (db_of x dbi) ∧
     V p' = set_cursor c (mkCur g.(txn) dbi Fresh) (V p)).
Proof.
  intros Hp Hx. unfold cursor_open, mbind, St_bind, mret, St_ret, call, lift. simpl.
  destruct (mdb_cursor_open _ _ _) as [[rc c] w] eqn:Hc. simpl.
  destruct (cursor_open_law _ _ _ _ _ _ _ Hc (inv_sound p Hp) Hx) as [Hw Hv]. unfold check.
  destruct (Z.eqb_spec rc MDB_SUCCESS) as [->|Hrc]; simpl; intros ?; simplify_eq/=.
  - destruct Hv as (Hn & Hdb & Hv). split; [|do 3 (split; [done|]); right; by exists c].
    destruct Hp as [_ Ha Ho Hop Hcu Hsl Hen]. split; simpl; rewrite ?Hv; simpl; try done.
    intros c' y. rewrite lookup_insert_Some. intros [[<- <-]|[_ H]]; [by eexists|by eapply Hcu].
  - split; [by apply keep_view|]. do 3 (split; [done|]). left. split; [by eexists|done].
Qed.

Lemma run_cursor_drop p c :
  inv p → live_cursor p c.(cursor) →
  ∃ p', cursor_drop c p = (Ok tt, p') ∧ inv p' ∧ V p' = set_cursors (delete c.(cursor) (V p).(cursors)) (V p) ∧
    p'.(ACTIVE) = p.(ACTIVE) ∧ p'.(env_pool) = p.(env_pool) ∧ p'.(memory) = p.(memory).
Proof.
  intros Hp [y Hy]. destruct (cursor_close_law _ _ _ (inv_sound p Hp) Hy) as [Hw Hv].
  unfold cursor_drop, call_. eexists. split; [done|]. split; [|done].
  destruct Hp as [_ Ha Ho Hop Hcu Hsl Hen]. split; simpl; rewrite ?Hv; simpl; try done.
  intros c' z. rewrite lookup_delete_Some. intros [_ H]. by eapply Hcu.
Qed.

(** ** Computations that keep the invariant, from states with [P] *)
Definition keeps {E A} (P : Proc W M → Prop) (m : St (Proc W M) E A) : Prop :=
  ∀ p r p', inv p → P p → m p = (r, p') → inv p' ∧ frame p p'.
End Ok.

(** Every operation of [truenas_mdb] keeps the invariant and the frame: rules to
    compose computations, the library's calls, and the scopes of transactions,
    cursors, iterators and handles. *)

Create HintDb mdb.

Section Keeps.
Context {W M : Type} {lib : Lmdb W} {laws : LmdbLaws W}.
Implicit Types (p : Proc W M) (P Q : Proc W M → Prop).
Abbreviation App := (St (Proc W M) MdbError).
Abbreviation V p := (view p.(lmdb)).

(** ** Composition *)
Lemma keeps_weaken {E A} P Q (m : St (Proc W M) E A) : keeps Q m → (∀ p, P p → Q p) → keeps P m.
Proof. intros H HPQ p r p' Hp HP. by apply H; [|apply HPQ]. Qed.

Lemma keeps_pure {E A} P (m : Outcome A E) : keeps P (lift m : St (Proc W M) E A).
Proof. intros p r p' Hp _ H. unfold lift in H. by simplify_eq. Qed.

Lemma keeps_ret {E A} P (a : A) : keeps P (mret a : St (Proc W M) E A).
Proof. exact (keeps_pure P (Ok a)). Qed.
Lemma keeps_fail {E A} P (e : E) : keeps P (fail e : St (Proc W M) E A).
Proof. exact (keeps_pure P (Err e)). Qed.
Lemma keeps_halt {E A} P w : keeps P (halt w : St (Proc W M) E A).
Proof. exact (keeps_pure P (Stop w)). Qed.

Lemma keeps_bind {E A B} P (m : St (Proc W M) E A) (f : A → St (Proc W M) E B) :
  stable P → keeps P m → (∀ a, keeps P (f a)) → keeps P (m ≫= f).
Proof.
  intros Hst Hm Hf p r p' Hp HP. unfold mbind, St_bind. destruct (m p) as [[a|e|w] p1] eqn:H1; intros H; simplify_eq;
    destruct (Hm _ _ _ Hp HP H1) as [Hp1 F1]; try done.
  destruct (Hf a _ _ _ Hp1 (stable_frame _ _ _ Hst F1 HP) H) as [Hp2 F2]. split; [done|]. by etrans.
Qed.

(** What comes after [get] may use the state it read. *)
Lemma keeps_get {E A} P (f : Proc W M → St (Proc W M) E A) :
  (∀ q, keeps (λ p, P p ∧ p = q) (f q)) → keeps P (get ≫= f).
Proof. intros H p r p' Hp HP Hr. rewrite run_get in Hr. by eapply H. Qed.

Lemma keeps_if {E A} P (b : bool) (m n : St (Proc W M) E A) : keeps P m → keeps P n → keeps P (if b then m else n).
Proof. by destruct b. Qed.

Lemma keeps_call {A} P (c : W → A * W) :
  (∀ p a w, inv p → P p → c p.(lmdb) = (a, w) → inv (set_lmdb w p) ∧ frame p (set_lmdb w p)) →
  keeps P (call c).
Proof.
  intros H p r p' Hp HP. unfold call. destruct (c (lmdb p)) as [a w] eqn:Hc. intros ?; simplify_eq. by eapply H.
Qed.

Lemma keeps_checked P (c : W → Z * W) : stable P → keeps P (call c) → keeps P (checked c).
Proof. intros Hst H. apply keeps_bind; [done..|]. intros rc. apply keeps_pure. Qed.

Lemma keeps_stored P (m : App unit) : keeps P m → keeps P (stored m).
Proof.
  intros H p r p' Hp HP. unfold stored. destruct (m p) as [[[]|e|w] p1] eqn:Hm; intros Heq;
    [|destruct e as [[]|]|]; simplify_eq; by eapply H.
Qed.

Lemma keeps_attempt {A} P (m : App A) : keeps P m → keeps P (attempt m).
Proof.
  intros H p r p' Hp HP. unfold attempt. destruct (m p) as [[] p1] eqn:Hm; intros; simplify_eq; by eapply H.
Qed.

Lemma keeps_callback {A} P (m : St (Proc W M) Empty_set A) : keeps P m → keeps P (run_callback m).
Proof.
  intros H p r p' Hp HP. unfold run_callback. destruct (m p) as [] eqn:Hm. intros; simplify_eq. by eapply H.
Qed.

(** ** Calls in a transaction *)
Section Calls.
Variables (t e : Z).
Abbreviation T := (λ p, live p t e).

Lemma keeps_same {A} (c : W → A * W) :
  (∀ w a w' x, c w = (a, w') → sound w → (view w).(txns) !! t = Some x → sound w' ∧ view w' = view w) →
  keeps T (call c).
Proof.
  intros H. apply keeps_call. intros p a w Hp (x & Hx & _) Hc.
  destruct (H _ _ _ _ Hc (inv_sound p Hp) Hx) as [Hw Hv]. by apply keep_view.
Qed.

Lemma keeps_update {A} (c : W → A * W) :
  (∀ w a w' x, c w = (a, w') → sound w → (view w).(txns) !! t = Some x →
     sound w' ∧ (view w' = view w ∨ ∃ x', view w' = set_txn t x' (view w) ∧
                   x'.(txn_env) = x.(txn_env) ∧ x'.(txn_ro) = x.(txn_ro))) →
  keeps T (call c).
Proof.
  intros H. apply keeps_call. intros p a w Hp (x & Hx & _) Hc.
  destruct (H _ _ _ _ Hc (inv_sound p Hp) Hx) as [Hw [Hv|(x' & Hv & He & Hr)]]; [by apply keep_view|by eapply keep_txn].
Qed.

Lemma keeps_mdb_get dbi k : keeps T (call (mdb_get t dbi (val_of k))).
Proof.
  apply keeps_same. intros w [rc d] w' x Hc Hw Hx. destruct (get_law _ _ _ _ _ _ _ _ Hc Hw Hx) as (? & ? & _). done.
Qed.
Lemma keeps_mdb_stat dbi : keeps T (call (mdb_stat t dbi)).
Proof.
  apply keeps_same. intros w [rc d] w' x Hc Hw Hx. destruct (stat_law _ _ _ _ _ _ _ Hc Hw Hx) as (? & ? & _). done.
Qed.
Lemma keeps_mdb_put dbi k v fl : put_flag fl → keeps T (call (mdb_put t dbi (val_of k) (val_of v) fl)).
Proof.
  intros Hfl. apply keeps_update. intros w rc w' x Hc Hw Hx.
  destruct (put_law _ _ _ _ _ _ _ _ _ Hc Hw Hx Hfl) as [? Hv]. split; [done|].
  repeat case_match; [destruct Hv as (? & ? & _ & _ & Hv)|destruct Hv as (? & ? & _ & _ & Hv)|destruct Hv as [? Hv]]; eauto.
Qed.
Lemma keeps_mdb_del dbi k : keeps T (call (mdb_del t dbi (val_of k))).
Proof.
  apply keeps_update. intros w rc w' x Hc Hw Hx. destruct (del_law _ _ _ _ _ _ _ Hc Hw Hx) as [? Hv]. split; [done|].
  repeat case_match; [destruct Hv as (? & ? & _ & _ & Hv)|destruct Hv as (? & ? & _ & _ & Hv)|destruct Hv as [? Hv]]; eauto.
Qed.
Lemma keeps_mdb_drop dbi : keeps T (call (mdb_drop t dbi 0)).
Proof.
  apply keeps_update. intros w rc w' x Hc Hw Hx. destruct (drop_law _ _ _ _ _ _ Hc Hw Hx) as [? Hv]. split; [done|].
  case_match; [destruct Hv as (? & ? & ? & _ & Hv & _)|destruct Hv as [? Hv]]; eauto.
Qed.
Lemma keeps_mdb_dbi_open name fl : fl = 0 ∨ fl = MDB_CREATE → keeps T (call (mdb_dbi_open t name fl)).
Proof.
  intros Hfl. apply keeps_update. intros w [rc dbi] w' x Hc Hw Hx.
  destruct (dbi_open_law _ _ _ _ _ _ _ _ Hc Hw Hx Hfl) as [? Hv]. split; [done|].
  destruct (rc =? MDB_SUCCESS); [destruct Hv as (_ & ? & Hv & _)|destruct (rc =? MDB_NOTFOUND)];
    [|destruct Hv as [_ Hv]|destruct Hv as [? Hv]]; eauto 6.
Qed.
End Calls.

Lemma keeps_mdb_cursor_get c op from :
  keeps (λ p, live_cursor p c) (call (mdb_cursor_get c (from_option val_of empty_val from) op)).
Proof.
  apply keeps_call. intros p [rc [k d]] w Hp [y Hy] Hc. destruct (inv_cursor p Hp _ _ Hy) as [x Hx].
  destruct (cursor_get_law _ _ _ _ _ _ _ _ _ _ Hc (inv_sound p Hp) Hy Hx) as [Hw Hv].
  case_match; [destruct Hv as (? & ? & ? & ? & _ & _ & _ & _ & _ & Hv)|destruct Hv as [_ Hv]]; by eapply keep_cursor.
Qed.
End Keeps.
#[export] Hint Resolve keeps_pure keeps_ret keeps_fail keeps_halt keeps_bind keeps_if keeps_checked keeps_stored keeps_attempt keeps_callback : mdb.
#[export] Hint Resolve stable_live stable_cursor stable_alive stable_and : mdb.
#[export] Hint Resolve keeps_mdb_get keeps_mdb_stat keeps_mdb_del keeps_mdb_drop : mdb.

(** The scopes of transactions and cursors: what is begun in one is finished at
    its end, on every path, and the rest of the state is framed. *)

Section Scope.
Context {W M : Type} {lib : Lmdb W} {laws : LmdbLaws W}.
Implicit Types (p : Proc W M) (P Q : Proc W M → Prop).
Abbreviation App := (St (Proc W M) MdbError).
Abbreviation V p := (view p.(lmdb)).

Lemma frame_same p p' : V p' = V p → p'.(env_pool) = p.(env_pool) → frame p p'.
Proof. intros HV HP. split; rewrite ?HV, ?HP; [done..|]. by left. Qed.

Lemma frame_txn_scope p p1 p2 p3 t x :
  (V p).(txns) !! t = None → (V p1).(txns) = <[t := x]> (V p).(txns) → (V p1).(cursors) = (V p).(cursors) →
  p1.(env_pool) = p.(env_pool) → frame p1 p2 →
  (V p3).(txns) = delete t (V p2).(txns) → (V p3).(cursors) = (V p2).(cursors) → p3.(env_pool) = p2.(env_pool) →
  frame p p3.
Proof.
  intros Ht HT1 HC1 HP1 [FT FC FP] HT3 HC3 HP3. split.
  - intros t'. rewrite HT3. destruct (decide (t = t')) as [<-|Hne].
    + by rewrite lookup_delete_eq, Ht.
    + rewrite lookup_delete_ne by done. by rewrite FT, HT1, lookup_insert_ne by done.
  - intros c. by rewrite HC3, FC, HC1.
  - rewrite HP3, <- HP1. done.
Qed.

Lemma frame_cursor_scope p p1 p2 p3 c y :
  (V p).(cursors) !! c = None → (V p1).(txns) = (V p).(txns) → (V p1).(cursors) = <[c := y]> (V p).(cursors) →
  p1.(env_pool) = p.(env_pool) → frame p1 p2 →
  (V p3).(txns) = (V p2).(txns) → (V p3).(cursors) = delete c (V p2).(cursors) → p3.(env_pool) = p2.(env_pool) →
  frame p p3.
Proof.
  intros Ht HT1 HC1 HP1 [FT FC FP] HT3 HC3 HP3. split.
  - intros t. by rewrite HT3, FT, HT1.
  - intros c'. rewrite HC3. destruct (decide (c = c')) as [<-|Hne].
    + by rewrite lookup_delete_eq, Ht.
    + rewrite lookup_delete_ne by done. by rewrite FC, HC1, lookup_insert_ne by done.
  - rewrite HP3, <- HP1. done.
Qed.

(** A transaction has begun, from [p] to [p1]; its scope has run to [p2]. *)
Record in_txn p p1 (e : Env) (g : TxnGuard) : Prop := {
  in_inv : inv p1;
  in_env : g.(guard_env) = e.(env);
  in_alive : alive p1 e;
  in_new : (V p).(txns) !! g.(txn) = None;
  in_live : live p1 g.(txn) e.(env);
  in_free : no_cursor (V p1) g.(txn);
  in_extends : extends p p1;
  in_frame p2 p3 : frame p1 p2 → (V p3).(txns) = delete g.(txn) (V p2).(txns) → (V p3).(cursors) = (V p2).(cursors) →
    p3.(env_pool) = p2.(env_pool) → frame p p3
}.

Lemma begin_scope p e ro r p1 :
  inv p → alive p e → txn_begin e ro p = (r, p1) →
  (∃ g, r = Ok g ∧ in_txn p p1 e g) ∨ ((∃ err, r = Err err) ∧ inv p1 ∧ frame p p1).
Proof.
  intros Hp Hal Hb. destruct (run_begin p e ro r p1 Hp Hal Hb) as (Hp1 & HP & _ & [(-> & _ & ->)|[(_ & HV & He)|(_ & t & s & -> & Ht & Hc & _ & HV)]]).
  - right. split; [by eexists|done].
  - right. split; [done|]. split; [done|]. by apply frame_same.
  - left. eexists. split; [done|].
    assert (txns (V p1) = <[t := mkTxn (env e) ro s (handles (V p) (env e))]> (txns (V p))) as HT by by rewrite HV.
    assert (cursors (V p1) = cursors (V p)) as HC by by rewrite HV.
    split; simpl; try done.
    + destruct Hal as (Hn & sl & Hs & He). split; [done|]. exists sl. by rewrite HP.
    + eexists. rewrite HT, lookup_insert_eq. done.
    + unfold no_cursor. by rewrite HC.
    + split; rewrite ?HT, ?HC, ?HP; [|done|intros k sl Hsl _; by exists sl].
      intros t' x Hx. exists x. rewrite lookup_insert_ne; [done|]. intros <-. congruence.
    + intros p2 p3 F. by eapply frame_txn_scope.
Qed.

Lemma end_scope p p1 p2 e g :
  in_txn p p1 e g → inv p2 → frame p1 p2 →
  ∃ p3, txn_drop false g p2 = (Ok tt, p3) ∧ inv p3 ∧ frame p p3 ∧ V p3 = end_txn g.(txn) (V p2).
Proof.
  intros [Hp1 He Hal Hnew Hl Hfree _ Hf] Hp2 F. destruct (stable_frame _ _ _ (stable_live _ _) F Hl) as (x & Hx & Hxe).
  destruct (run_drop p2 g x Hp2 Hx) as (p3 & Hd & Hp3 & HV & HP & _); [by rewrite He|by eapply frame_no_cursor|].
  exists p3. split; [done|]. split; [done|]. split; [|done]. apply (Hf p2); [done|..|done]; by rewrite HV.
Qed.

Lemma commit_scope p p1 p2 e g r p3 :
  in_txn p p1 e g → inv p2 → frame p1 p2 → txn_commit g p2 = (r, p3) → inv p3 ∧ frame p p3.
Proof.
  intros [Hp1 He Hal Hnew Hl Hfree _ Hf] Hp2 F Hc. destruct (stable_frame _ _ _ (stable_live _ _) F Hl) as (x & Hx & Hxe).
  destruct (run_commit p2 g x e.(key) r p3 Hp2 Hx) as (Hp3 & HP & _ & HV);
    [by rewrite He|by eapply frame_no_cursor|rewrite Hxe; apply alive_open; [done|by eapply (stable_frame _ _ _ (stable_alive e))]|done|].
  split; [done|]. apply (Hf p2); [done|..|done]; destruct HV as [[_ ->]|[_ ->]]; try done;
    unfold committed; by destruct (txn_ro x).
Qed.

Lemma keeps_reading {A} P (e : Env) ro (f : TxnGuard → App A) :
  stable P → (∀ p, P p → alive p e) →
  (∀ t, keeps (λ p, P p ∧ live p t e.(env)) (f (mkGuard t e.(env)))) →
  keeps P (t ← txn_begin e ro; dropping (txn_drop false t) (f t)).
Proof.
  intros Hst Hal Hf p r p' Hp HP. unfold mbind, St_bind, dropping.
  destruct (txn_begin e ro p) as [[g|err|s] p1] eqn:Hb; intros H; simplify_eq;
    destruct (begin_scope _ _ _ _ _ Hp (Hal _ HP) Hb) as [(g' & ? & Hin)|([err' ?] & Hp1 & F1)]; simplify_eq; try done.
  destruct (f g' p1) as [r2 p2] eqn:Hr. simplify_eq.
  destruct (Hf g'.(txn) p1 r p2) as [Hp2 F2]; [exact (in_inv _ _ _ _ Hin)|split; [exact (Hst _ _ (in_extends _ _ _ _ Hin) HP)|exact (in_live _ _ _ _ Hin)]| |].
  { rewrite <- Hr. rewrite <- (in_env _ _ _ _ Hin). by destruct g'. }
  destruct (end_scope _ _ _ _ _ Hin Hp2 F2) as (p3 & -> & Hp3 & F3 & _). done.
Qed.

Lemma keeps_writing {A} P (e : Env) ro (f : TxnGuard → App A) :
  stable P → (∀ p, P p → alive p e) →
  (∀ t, keeps (λ p, P p ∧ live p t e.(env)) (f (mkGuard t e.(env)))) →
  keeps P (t ← txn_begin e ro; a ← or_drop (txn_drop false t) (f t); txn_commit t;; mret a).
Proof.
  intros Hst Hal Hf p r p' Hp HP. unfold mbind, St_bind, mret, St_ret, or_drop.
  destruct (txn_begin e ro p) as [[g|err|s] p1] eqn:Hb; intros H; simplify_eq;
    destruct (begin_scope _ _ _ _ _ Hp (Hal _ HP) Hb) as [(g' & ? & Hin)|([err' ?] & Hp1 & F1)]; simplify_eq; try done.
  destruct (f g' p1) as [r2 p2] eqn:Hr.
  destruct (Hf g'.(txn) p1 r2 p2) as [Hp2 F2]; [exact (in_inv _ _ _ _ Hin)|split; [exact (Hst _ _ (in_extends _ _ _ _ Hin) HP)|exact (in_live _ _ _ _ Hin)]| |].
  { rewrite <- Hr. rewrite <- (in_env _ _ _ _ Hin). by destruct g'. }
  destruct r2 as [a|err|s].
  - destruct (txn_commit g' p2) as [[[]|err|s] p3] eqn:Hc;
      destruct (commit_scope _ _ _ _ _ _ _ Hin Hp2 F2 Hc); by simplify_eq.
  - destruct (end_scope _ _ _ _ _ Hin Hp2 F2) as (p3 & Hd & Hp3 & F3 & _). rewrite Hd in H. by simplify_eq.
  - destruct (end_scope _ _ _ _ _ Hin Hp2 F2) as (p3 & Hd & Hp3 & F3 & _). rewrite Hd in H. by simplify_eq.
Qed.

(** A cursor, closed at the end of its scope. *)
Lemma keeps_cursor {A} P (g : TxnGuard) e dbi (f : CursorGuard → App A) :
  stable P → (∀ p, P p → live p g.(txn) e) →
  (∀ c, keeps (λ p, P p ∧ live_cursor p c.(cursor)) (f c)) →
  keeps P (c ← cursor_open g dbi; dropping (cursor_drop c) (f c)).
Proof.
  intros Hst Hl Hf p r p' Hp HP. unfold mbind, St_bind, dropping. destruct (Hl p HP) as (x & Hx & _).
  destruct (cursor_open g dbi p) as [[c|err|s] p1] eqn:Hb; intros H; simplify_eq;
    destruct (run_cursor_open _ _ _ _ _ _ Hp Hx Hb) as (Hp1 & _ & HP1 & _ & [[[err' ?] HV]|(c' & ? & Hn & _ & HV)]);
    simplify_eq; try (split; [done|by apply frame_same]).
  destruct (f _ p1) as [r2 p2] eqn:Hr. simplify_eq.
  assert (extends p p1) as Hext.
  { split; rewrite ?HV, ?HP1; simpl; [intros t y Hy; by exists y| |intros k sl Hsl _; by exists sl].
    intros c Hc. rewrite lookup_insert_is_Some'. by right. }
  destruct (Hf (mkCursor c') p1 r p2 Hp1) as [Hp2 F2]; [split; [by eapply Hst|]|done|].
  { unfold live_cursor. rewrite HV. simpl. rewrite lookup_insert_eq. by eexists. }
  assert (live_cursor p2 c') as Hl2.
  { apply (stable_frame _ _ _ (stable_cursor c') F2). unfold live_cursor. rewrite HV. simpl. rewrite lookup_insert_eq. by eexists. }
  destruct (run_cursor_drop p2 (mkCursor c') Hp2 Hl2) as (p3 & -> & Hp3 & HV3 & _ & HP3 & _). split; [done|].
  apply (frame_cursor_scope p p1 p2 p3 c' (mkCur g.(txn) dbi Fresh)); try done; by rewrite ?HV, ?HV3.
Qed.
End Scope.
