(* ===== verification/MdbPool.v ===== *)
(** The pool: the scope of an environment's handle, from the open or the clone
    that makes it to its drop, and the scope of an iterator, which holds one. *)
From S2P Require Import Prelude MdbError Mdb MdbTxn MdbDb MdbLaws MdbKeeps.
Local Open Scope Z_scope.

Section Pool.
Context {W M : Type} {lib : Lmdb W} {laws : LmdbLaws W}.
Implicit Types (p : Proc W M) (P Q : Proc W M → Prop).
Abbreviation App := (St (Proc W M) MdbError).
Abbreviation V p := (view p.(lmdb)).

(** A slot that holds no environment. *)
Definition vacant p (k : bytes) : Prop := p.(env_pool) !! k = None ∨ p.(env_pool) !! k = Some fresh_slot.

(** From [p] to [p1], a handle was made: one more of an environment that was
    open, or the first of one that no transaction is on. *)
Record owned p p1 (e : Env) : Prop := mkOwned {
  own_inv : inv p1;
  own_alive : alive p1 e;
  own_extends : extends p p1;
  own_txns : (V p1).(txns) = (V p).(txns);
  own_cursors : (V p1).(cursors) = (V p).(cursors);
  own_rest k : k ≠ e.(key) → p1.(env_pool) !! k = p.(env_pool) !! k;
  own_count :
    (∃ s, p.(env_pool) !! e.(key) = Some s ∧ s.(slot_env) = e.(env) ∧ 0 < s.(refcnt) ∧
       p1.(env_pool) !! e.(key) = Some (mkSlot e.(env) (s.(refcnt) + 1))) ∨
    (vacant p e.(key) ∧ p1.(env_pool) !! e.(key) = Some (mkSlot e.(env) 1) ∧ no_txn (V p1) e.(env))
}.

(** ** Writes to a slot *)
Lemma inv_count p k s n :
  inv p → p.(env_pool) !! k = Some s → s.(slot_env) ≠ 0 → 0 < n →
  inv (set_pool (<[k := mkSlot s.(slot_env) n]> p.(env_pool)) p).
Proof.
  intros Hp Hs Hn H0. destruct Hp as [Hw Ha Ho Hop Hcu Hsl Hen]. split; try done; simpl.
  - intros k' s'. rewrite lookup_insert_Some. intros [[<- <-]|[_ H]]; [|by eapply Hsl]. right. simpl. split; [done|].
    destruct (Hsl _ _ Hs) as [->|[_ H]]; done.
  - intros e o Ho'. destruct (Hen _ _ Ho') as (He & k' & s' & -> & Hs' & Hse). split; [done|].
    destruct (decide (k = k')) as [<-|Hne].
    + exists k. eexists. rewrite lookup_insert_eq. split; [done|]. split; [done|]. simpl. congruence.
    + exists k', s'. by rewrite lookup_insert_ne.
Qed.

Lemma inv_vacate p k :
  inv p → vacant p k → inv (set_pool (<[k := fresh_slot]> p.(env_pool)) p).
Proof.
  intros Hp Hv. destruct Hp as [Hw Ha Ho Hop Hcu Hsl Hen]. split; try done; simpl.
  - intros k' s'. rewrite lookup_insert_Some. intros [[<- <-]|[_ H]]; [by left|by eapply Hsl].
  - intros e o Ho'. destruct (Hen _ _ Ho') as (He & k' & s' & -> & Hs' & Hse). split; [done|].
    exists k', s'. rewrite lookup_insert_ne; [done|]. intros <-. destruct Hv as [Hv|Hv]; rewrite Hs' in Hv; simplify_eq/=.
Qed.

(** ** Cloning *)
Lemma run_clone p e :
  inv p → alive p e → ∃ p1, env_clone e p = (Ok e, p1) ∧ owned p p1 e ∧ V p1 = V p.
Proof.
  intros Hp (Hn & s & Hs & He). unfold env_clone, own_slot, put_slot, mbind, St_bind, mret, St_ret, get, modify.
  rewrite Hs. simpl. eexists. split; [done|]. split; [|done].
  assert (0 < refcnt s) by (destruct (inv_slot p Hp _ _ Hs) as [->|[? _]]; [by destruct Hn|done]).
  split; simpl; try done.
  - apply inv_count; [done|done|congruence|lia].
  - split; [done|]. eexists. simpl. by rewrite lookup_insert_eq.
  - split; simpl; [intros t x Hx; by exists x|done|]. intros k s' Hs' Hne.
    destruct (decide (k = key e)) as [->|]; [|exists s'; by rewrite lookup_insert_ne].
    eexists. rewrite lookup_insert_eq. split; [done|]. simpl. simplify_eq. split; [done|lia].
  - intros k Hk. by rewrite lookup_insert_ne.
  - left. exists s. rewrite lookup_insert_eq, He. done.
Qed.

(** ** Dropping *)
Lemma env_unique p e k k' : opened (V p) e k → opened (V p) e k' → k = k'.
Proof. unfold opened. intros ? ?. simplify_eq. done. Qed.

(** The last handle's: the environment is closed, and its slot vacant. *)
Lemma run_close p e :
  inv p → alive p e → p.(env_pool) !! e.(key) = Some (mkSlot e.(env) 1) → no_txn (V p) e.(env) →
  ∃ p', env_drop e p = (Ok tt, p') ∧ inv p' ∧ p'.(env_pool) = <[e.(key) := fresh_slot]> p.(env_pool) ∧
    V p' = set_envs (delete e.(env) (V p).(envs)) (set_dbis (delete e.(env) (V p).(dbis)) (V p)).
Proof.
  intros Hp Hal Hs Hno. pose proof (alive_open p e Hp Hal) as Hop.
  unfold env_drop, own_slot, put_slot, call, call_, mbind, St_bind, mret, St_ret, get, modify. rewrite Hs. simpl.
  destruct (mdb_env_sync _ _ _) as [rc w] eqn:Hy. destruct (env_sync_law _ _ _ _ _ _ Hy (inv_sound p Hp) Hop) as [Hw Hv].
  destruct (env_close_law w e.(env) (Some e.(key)) Hw) as [Hw' Hv']; [by rewrite Hv|by rewrite Hv|].
  eexists. split; [done|]. rewrite Hv in Hv'. split; [|by split]. destruct Hp as [_ Ha Ho Hopn Hcu Hsl Hen].
  split; simpl; rewrite ?Hv'; simpl; try done.
  - intros t x Hx. destruct (Hopn _ _ Hx) as [path Hpath]. exists path. unfold opened. simpl.
    rewrite lookup_delete_ne; [done|]. intros Heq. by apply (Hno t x Hx).
  - intros k s. rewrite lookup_insert_Some. intros [[<- <-]|[Hne H]]; [by left|].
    destruct (Hsl _ _ H) as [->|[H0 Ho']]; [by left|right]. split; [done|]. unfold opened. simpl.
    rewrite lookup_delete_ne; [done|]. intros Heq. rewrite <- Heq in Ho'. unfold opened in *. congruence.
  - intros e' o. rewrite lookup_delete_Some. intros [Hne H]. destruct (Hen _ _ H) as (He & k & s & -> & Hs' & Hse).
    split; [done|]. exists k, s. rewrite lookup_insert_ne; [done|]. intros <-. simplify_eq/=.
Qed.

Lemma own_scope p p1 p2 e :
  owned p p1 e → inv p2 → frame p1 p2 → ∃ p3, env_drop e p2 = (Ok tt, p3) ∧ inv p3 ∧ frame p p3.
Proof.
  intros Ho Hp2 F. pose proof (own_alive _ _ _ Ho) as Hal1. destruct (Hal1) as (Hn & s1 & Hs1 & He1).
  assert (env_pool p2 !! key e = Some s1) as Hs2 by (destruct (frame_pool _ _ F (key e)) as [->|[? _]]; [done|congruence]).
  assert (0 < refcnt s1).
  { destruct (inv_slot _ (own_inv _ _ _ Ho) _ _ Hs1) as [->|[? _]]; [by destruct Hn|done]. }
  assert (∀ t, (λ x, (txn_env x, txn_ro x)) <$> txns (V p2) !! t = (λ x, (txn_env x, txn_ro x)) <$> txns (V p) !! t) as FT.
  { intros t. by rewrite (frame_txns _ _ F), (own_txns _ _ _ Ho). }
  assert (∀ c, (λ y, (cur_txn y, cur_dbi y)) <$> cursors (V p2) !! c = (λ y, (cur_txn y, cur_dbi y)) <$> cursors (V p) !! c) as FC.
  { intros c. by rewrite (frame_cursors _ _ F), (own_cursors _ _ _ Ho). }
  assert (∀ k, k ≠ key e → env_pool p2 !! k = env_pool p !! k ∨ (env_pool p !! k = None ∧ env_pool p2 !! k = Some fresh_slot)) as FP.
  { intros k Hk. rewrite <- (own_rest _ _ _ Ho) by done. apply (frame_pool _ _ F). }
  destruct (own_count _ _ _ Ho) as [(s & Hs & Hse & H0 & Hs1')|(Hv & Hs1' & Hno)]; rewrite Hs1 in Hs1'; simplify_eq/=.
  - unfold env_drop, own_slot, put_slot, mbind, St_bind, mret, St_ret, get, modify. rewrite Hs2. simpl.
    rewrite (proj2 (Z.leb_gt _ _)) by lia. rewrite (proj2 (Z.eqb_neq (refcnt s + 1 - 1) 0)) by lia. simpl.
    eexists. split; [done|]. split; [exact (inv_count p2 (key e) _ (refcnt s + 1 - 1) Hp2 Hs2 Hn ltac:(lia))|].
    split; simpl; [done..|]. intros k. destruct (decide (k = key e)) as [->|Hk]; [|rewrite lookup_insert_ne by done; by apply FP].
    left. rewrite lookup_insert_eq, Hs. replace (refcnt s + 1 - 1) with (refcnt s) by lia. rewrite <- Hse. by destruct s.
  - destruct (run_close p2 e) as (p3 & Hd & Hp3 & HP & HV); [done|by eapply (stable_frame _ _ _ (stable_alive e))|done| |].
    { intros t x Hx. specialize (FT t). rewrite Hx in FT. destruct (txns (V p) !! t) as [x0|] eqn:Hx0; simplify_eq/=.
      rewrite <- (own_txns _ _ _ Ho) in Hx0. pose proof (Hno _ _ Hx0). congruence. }
    exists p3. split; [done|]. split; [done|]. split; rewrite ?HV; simpl; [done..|].
    intros k. rewrite HP. destruct (decide (k = key e)) as [->|Hk]; [|rewrite lookup_insert_ne by done; by apply FP].
    rewrite lookup_insert_eq. destruct Hv as [Hv|Hv]; [by right|left; congruence].
Qed.

(** ** Opening *)
Lemma keeps_io {A} P (c : W → Outcome A (option Z) * W) :
  (∀ w r w', c w = (r, w') → sound w → sound w' ∧ view w' = view w) → keeps P (io_call c).
Proof.
  intros H p r p' Hp _. unfold io_call. destruct (c (lmdb p)) as [o w] eqn:Hc. intros ?; simplify_eq.
  destruct (H _ _ _ Hc (inv_sound p Hp)) as [Hw Hv]. by apply keep_view.
Qed.

(** The calls on an environment that is created and not recorded. *)
Lemma run_configure p e path opts r p' :
  sound p.(lmdb) → (V p).(envs) !! e = Some None → (∀ e', ¬ opened (V p) e' path) →
  configure e path opts p = (r, p') →
  sound p'.(lmdb) ∧ p'.(ACTIVE) = p.(ACTIVE) ∧ p'.(env_pool) = p.(env_pool) ∧
  (((∃ err, r = Err err) ∧ V p' = V p) ∨
   (r = Ok tt ∧ ∃ s, V p' = set_envs (<[e := Some path]> (V p).(envs)) (set_disk (<[path := s]> (V p).(disk)) (V p)))).
Proof.
  intros Hw He Hno. unfold configure, checked, call, lift, mbind, St_bind, mret, St_ret.
  destruct (mdb_env_set_maxdbs _ _ _) as [r1 w1] eqn:E1. destruct (set_maxdbs_law _ _ _ _ _ E1 Hw He) as [Hw1 Hv1].
  unfold check. destruct (r1 =? MDB_SUCCESS); simpl; [|intros ?; simplify_eq; split; [done|]; do 2 (split; [done|]); left; split; [by eexists|done]].
  destruct (mdb_env_set_mapsize _ _ _) as [r2 w2] eqn:E2.
  destruct (set_mapsize_law _ _ _ _ _ E2 Hw1) as [Hw2 Hv2]; [by rewrite Hv1|]. rewrite Hv1 in Hv2.
  destruct (r2 =? MDB_SUCCESS); simpl; [|intros ?; simplify_eq; split; [done|]; do 2 (split; [done|]); left; split; [by eexists|done]].
  set (m := if max_readers opts =? 0 then _ else _).
  assert (∃ r3 w3, m (set_lmdb w2 (set_lmdb w1 p)) = (r3, set_lmdb w3 p) ∧ sound w3 ∧ view w3 = V p ∧
    (r3 = Ok tt ∨ ∃ err, r3 = Err err)) as (r3 & w3 & -> & Hw3 & Hv3 & Hr3).
  { unfold m. destruct (max_readers opts =? 0); [exists (Ok tt), w2; by auto|]. simpl.
    destruct (mdb_env_set_maxreaders _ _ _) as [r3 w3] eqn:E3.
    destruct (set_maxreaders_law _ _ _ _ _ E3 Hw2) as [Hw3 Hv3]; [by rewrite Hv2|]. rewrite Hv2 in Hv3.
    exists (check r3), w3. split; [done|]. do 2 (split; [done|]). unfold check. case_match; eauto. }
  destruct Hr3 as [->|[err ->]]; [|intros ?; simplify_eq; split; [done|]; do 2 (split; [done|]); left; split; [by eexists|done]].
  simpl. destruct (mdb_env_open _ _ _ _ _) as [r4 w4] eqn:E4.
  destruct (env_open_law _ _ _ _ _ _ _ E4 Hw3) as [Hw4 Hv4]; [by rewrite Hv3|by rewrite Hv3|]. rewrite Hv3 in Hv4.
  destruct (r4 =? MDB_SUCCESS); intros ?; simplify_eq; split; try done; do 2 (split; [done|]); [right|left].
  - destruct Hv4 as (s & _ & Hv4). split; [done|]. by exists s.
  - split; [by eexists|done].
Qed.

(** Making a handle: from some state on the way, to the end of the call. *)
Definition acquires {B} P (m : App B) (h : B → Env) : Prop :=
  ∀ p r p', inv p → P p → m p = (r, p') →
    match r with
    | Ok b => ∃ p0, inv p0 ∧ frame p p0 ∧ owned p0 p' (h b)
    | _ => inv p' ∧ frame p p'
    end.

Lemma keeps_own {A B} P (m : App B) (h : B → Env) (f : B → App A) :
  stable P → acquires P m h → (∀ b, keeps (λ p, P p ∧ alive p (h b)) (f b)) →
  keeps P (b ← m; dropping (env_drop (h b)) (f b)).
Proof.
  intros Hst Hm Hf p r p' Hp HP. unfold mbind, St_bind, dropping.
  destruct (m p) as [o p1] eqn:H1. specialize (Hm _ _ _ Hp HP H1). destruct o as [b|err|w]; [|by intros ?; simplify_eq..].
  destruct Hm as (p0 & Hp0 & F0 & Ho). destruct (f b p1) as [r2 p2] eqn:H2. intros ?; simplify_eq.
  destruct (Hf b p1 r p2 (own_inv _ _ _ Ho)) as [Hp2 F2]; [|done|].
  { split; [|apply (own_alive _ _ _ Ho)]. apply (Hst _ _ (own_extends _ _ _ Ho)). by eapply stable_frame. }
  destruct (own_scope _ _ _ _ Ho Hp2 F2) as (p3 & -> & Hp3 & F3). split; [done|]. by etrans.
Qed.

Lemma keeps_path_slot P k : keeps P (path_slot k).
Proof.
  apply keeps_get. intros q p r p' Hp [_ <-]. destruct (env_pool p !! k) as [s|] eqn:Hs.
  { unfold mret, St_ret. by intros ?; simplify_eq. }
  unfold modify, mbind, St_bind, mret, St_ret. intros ?; simplify_eq. split; [by apply inv_vacate; [|left]|].
  split; [done..|]. simpl. intros k'. destruct (decide (k' = k)) as [->|]; [right; by rewrite lookup_insert_eq|left; by rewrite lookup_insert_ne].
Qed.

Lemma path_slot_run p k r p' :
  path_slot k p = (r, p') → ∃ s, r = Ok s ∧ p'.(env_pool) !! k = Some s.
Proof.
  unfold path_slot. rewrite run_get. destruct (env_pool p !! k) as [s|] eqn:Hs.
  - unfold mret, St_ret. intros ?; simplify_eq. by exists s.
  - unfold modify, mbind, St_bind, mret, St_ret. intros ?; simplify_eq. exists fresh_slot. split; [done|]. simpl. by rewrite lookup_insert_eq.
Qed.

(** One more handle of an environment that is open. *)
Lemma own_share p k s :
  inv p → p.(env_pool) !! k = Some s → s.(slot_env) ≠ 0 →
  owned p (set_pool (<[k := mkSlot s.(slot_env) (s.(refcnt) + 1)]> p.(env_pool)) p) (mkEnv k s.(slot_env)).
Proof.
  intros Hp Hs Hn. destruct (run_clone p (mkEnv k (slot_env s)) Hp) as (p1 & Hc & Ho & _); [by split; [|exists s]|].
  unfold env_clone, own_slot, put_slot, mbind, St_bind, mret, St_ret, get, modify in Hc. simpl in Hc. rewrite Hs in Hc.
  by simplify_eq.
Qed.

(** The first handle of one that was just opened. *)
Lemma own_first p p1 e k s :
  inv p → vacant p k → (V p).(envs) !! e = None → e ≠ 0 → sound p1.(lmdb) → p1.(ACTIVE) = p.(ACTIVE) →
  V p1 = set_envs (<[e := Some k]> (V p).(envs)) (set_disk (<[k := s]> (V p).(disk)) (V p)) →
  p1.(env_pool) = <[k := mkSlot e 1]> p.(env_pool) → owned p p1 (mkEnv k e).
Proof.
  intros Hp Hv He Hn Hw HA HV HP.
  assert (∀ e' path, opened (V p) e' path → opened (V p1) e' path) as Hopen.
  { intros e' path. unfold opened. rewrite HV. simpl. intros H. rewrite lookup_insert_ne; [done|]. congruence. }
  destruct Hp as [_ Ha Ho Hopn Hcu Hsl Hen]. split; try (by rewrite HV).
  - split; rewrite ?HA, ?HV, ?HP; simpl; try done.
    + intros t x Hx. destruct (Hopn _ _ Hx) as [path Hx']. exists path. rewrite <- HV. by apply Hopen.
    + intros k' s'. rewrite lookup_insert_Some. intros [[<- <-]|[Hk H]].
      * right. split; [simpl; lia|]. unfold opened. simpl. by rewrite lookup_insert_eq.
      * destruct (Hsl _ _ H) as [->|[H0 Ho']]; [by left|right]. split; [done|]. rewrite <- HV. by apply Hopen.
    + intros e' o. rewrite lookup_insert_Some. intros [[<- <-]|[Hne H]].
      * split; [done|]. eexists k, _. rewrite lookup_insert_eq. done.
      * destruct (Hen _ _ H) as (He' & k' & s' & -> & Hs' & Hse). split; [done|]. exists k', s'.
        rewrite lookup_insert_ne; [done|]. intros <-. destruct Hv as [Hv|Hv]; rewrite Hv in Hs'; by simplify_eq/=.
  - split; [done|]. eexists. simpl. rewrite HP, lookup_insert_eq. done.
  - split; rewrite ?HV, ?HP; simpl; [intros t x Hx; by exists x|done|]. intros k' s' Hs' Hn'. exists s'.
    rewrite lookup_insert_ne; [done|]. intros <-. destruct Hv as [Hv|Hv]; rewrite Hv in Hs'; by simplify_eq/=.
  - intros k' Hk. rewrite HP. by rewrite lookup_insert_ne.
  - right. split; [done|]. rewrite HP. simpl. rewrite lookup_insert_eq. split; [done|].
    intros t x. rewrite HV. simpl. intros Hx Hxe. destruct (Hopn _ _ Hx) as [path Hx']. unfold opened in Hx'. congruence.
Qed.

Lemma acquires_bind {A B} P (m : App A) (f : A → App B) h :
  stable P → keeps P m → (∀ a, acquires P (f a) h) → acquires P (m ≫= f) h.
Proof.
  intros Hst Hm Hf p r p' Hp HP. unfold mbind, St_bind. destruct (m p) as [[a|e|w] p1] eqn:H1; intros H; simplify_eq;
    destruct (Hm _ _ _ Hp HP H1) as [Hp1 F1]; try done.
  specialize (Hf a _ _ _ Hp1 (stable_frame _ _ _ Hst F1 HP) H). destruct r as [b|e|w].
  - destruct Hf as (p0 & Hp0 & F0 & Ho). exists p0. split; [done|]. split; [by etrans|done].
  - destruct Hf. split; [done|by etrans].
  - destruct Hf. split; [done|by etrans].
Qed.

(** No environment is open at the path of a vacant slot. *)
Lemma vacant_closed p k e : inv p → vacant p k → ¬ opened (V p) e k.
Proof.
  intros Hp Hv Ho. destruct (inv_env p Hp _ _ Ho) as (Hn & k' & s & Hk & Hs & Hse). simplify_eq.
  destruct Hv as [Hv|Hv]; rewrite Hv in Hs; by simplify_eq/=.
Qed.

Lemma acquires_open_slot P k s opts :
  acquires (λ p, P p ∧ p.(env_pool) !! k = Some s)
    (if negb (s.(slot_env) =? 0) then
       put_slot k (mkSlot s.(slot_env) (s.(refcnt) + 1));;
       mret (mkEnv k s.(slot_env))
     else
       cpath ← lift (ok_or (cstring k) (Os EINVAL));
       created ← call mdb_env_create;
       lift (check created.1);;
       let e := created.2 in
       or_drop (call_ (mdb_env_close e)) (configure e cpath opts);;
       put_slot k (mkSlot e 1);;
       mret (mkEnv k e)) id.
Proof.
  intros p r p' Hp [_ Hs]. destruct (Z.eqb_spec (slot_env s) 0) as [H0|H0]; simpl.
  2: { unfold put_slot, modify, mbind, St_bind, mret, St_ret. intros ?; simplify_eq. exists p. split; [done|]. split; [done|]. by apply own_share. }
  assert (vacant p k) as Hv.
  { right. destruct (inv_slot p Hp _ _ Hs) as [->|[_ Ho]]; [done|]. rewrite H0 in Ho. by destruct (inv_env p Hp _ _ Ho). }
  unfold cstring, ok_or, lift, put_slot, modify, mbind, St_bind, mret, St_ret. case_decide; [by intros ?; simplify_eq|]. simpl.
  unfold call. destruct (mdb_env_create _) as [[rc e] w] eqn:Hc. simpl.
  destruct (env_create_law _ _ _ _ Hc (inv_sound p Hp)) as [Hw HV]. unfold check.
  destruct (rc =? MDB_SUCCESS); [|intros ?; simplify_eq; by apply keep_view]. destruct HV as (Hn & He & HV).
  unfold or_drop. destruct (configure e k opts (set_lmdb w p)) as [r2 p2] eqn:Hr2.
  destruct (run_configure _ _ _ _ _ _ (Hw : sound (lmdb (set_lmdb w p))) ltac:(simpl; rewrite HV; apply lookup_insert_eq)
    ltac:(simpl; intros e' Ho; unfold opened in Ho; rewrite HV in Ho; simpl in Ho; apply lookup_insert_Some in Ho as [[_ ?]|[_ Ho]]; [done|by eapply vacant_closed]) Hr2)
    as (Hw2 & HA2 & HP2 & [[[err ->] HV2]|[-> (s' & HV2)]]); simpl in *; intros ?; simplify_eq/=.
  - destruct (env_close_law (lmdb p2) e None Hw2) as [Hw3 HV3].
    { rewrite HV2, HV. simpl. apply lookup_insert_eq. }
    { intros t x. rewrite HV2, HV. simpl. intros Hx Hxe. destruct (inv_open p Hp _ _ Hx) as [path Ho]. unfold opened in Ho. congruence. }
    rewrite HV2, HV in HV3. simpl in HV3. rewrite delete_insert_id in HV3 by done.
    destruct Hp as [_ Ha Ho Hopn Hcu Hsl Hen]. split; (split; simpl; rewrite ?HA2, ?HP2, ?HV3; simpl; try done).
    by left.
  - exists p. split; [done|]. split; [done|]. eapply own_first; try done; simpl.
    + rewrite HV2, HV. simpl. by rewrite insert_insert_eq.
    + by rewrite HP2.
Qed.

Lemma acquires_open P path opts : stable P → acquires P (open_with path opts) id.
Proof.
  intros Hst. apply acquires_bind; [done|apply keeps_io; intros ???; apply create_dir_all_law|]. intros _.
  apply acquires_bind; [done|apply keeps_io; intros ???; apply canonicalize_law|]. intros k p r p' Hp HP.
  destruct (path_slot k p) as [o p1] eqn:Hs. destruct (keeps_path_slot P k p _ _ Hp HP Hs) as [Hp1 F1].
  destruct (path_slot_run _ _ _ _ Hs) as (s & -> & Hs1). rewrite (run_bind_ok _ _ _ _ _ Hs). intros Hr.
  pose proof (acquires_open_slot P k s opts _ _ _ Hp1 (conj (stable_frame _ _ _ Hst F1 HP) Hs1) Hr) as H.
  destruct r as [b|e|w]; [destruct H as (p0 & ? & ? & ?); exists p0|destruct H..]; split_and?; try done; by etrans.
Qed.

Lemma acquires_clone P e : (∀ p, P p → alive p e) → acquires P (env_clone e) id.
Proof.
  intros Hal p r p' Hp HP Hr. destruct (run_clone p e Hp (Hal p HP)) as (p1 & H1 & Ho & _). rewrite H1 in Hr. simplify_eq.
  by exists p.
Qed.
End Pool.
