(* ===== verification/MdbApi.v ===== *)
(** Every program that uses [truenas_mdb] keeps the invariant: the programs, as
    an inductive type of the computations the crate's methods allow, and the
    proof by induction on it. *)
From S2P Require Import Prelude MdbError Mdb MdbTxn MdbDb MdbLaws MdbKeeps MdbPool.
Local Open Scope Z_scope.

Section Api.
Context {W M : Type} {lib : Lmdb W} {laws : LmdbLaws W}.
Implicit Types (p : Proc W M) (P Q : Proc W M → Prop).
Abbreviation App := (St (Proc W M) MdbError).
Abbreviation Callback := (St (Proc W M) Empty_set).
Abbreviation V p := (view p.(lmdb)).

(** ** Cursors and scans *)
Lemma keeps_step c op from : keeps (λ p, live_cursor p c.(cursor)) (cursor_step c op from : App _).
Proof.
  apply keeps_bind; [apply stable_cursor| |].
  - assert (match from with Some key => val_of key | None => empty_val end = from_option val_of empty_val from) as -> by by destruct from.
    apply keeps_mdb_cursor_get.
  - intros [rc [k d]]. apply keeps_if; [|auto with mdb]. do 2 (apply keeps_bind; [apply stable_cursor|auto with mdb|intros ?]). auto with mdb.
Qed.

Lemma keeps_walk c b start prefix : keeps (λ p, live_cursor p c.(cursor)) (walk c b start prefix : App _).
Proof.
  unfold walk. destruct (walk_op b start) as [op from]. apply keeps_bind; [apply stable_cursor|apply keeps_step|].
  intros [[k v]|]; auto with mdb.
Qed.

Lemma keeps_scan_loop {B} P fuel c b start prefix (f : bytes → bytes → Callback (ControlFlow B)) :
  stable P → (∀ p, P p → live_cursor p c.(cursor)) → (∀ k v, keeps P (f k v)) → keeps P (scan_loop fuel c b start prefix f).
Proof.
  intros Hst Hc Hf. revert b. induction fuel as [|fuel IH]; intros b; [apply keeps_halt|]. simpl.
  apply keeps_bind; [done|by eapply keeps_weaken; [apply keeps_walk|]|]. intros [[k v]|]; [|apply keeps_ret].
  apply keeps_bind; [done|by apply keeps_callback|]. intros [|b']; [apply IH|apply keeps_ret].
Qed.

Lemma keeps_scan {B} P fuel db start prefix (f : bytes → bytes → Callback (ControlFlow B)) :
  stable P → (∀ p, P p → alive p db.(db_env)) → (∀ k v, keeps P (f k v)) → keeps P (scan_impl fuel db start prefix f).
Proof.
  intros Hst Hal Hf. apply keeps_reading; [done..|]. intros t.
  apply (keeps_cursor _ _ (env (db_env db))); [auto with mdb|by intros p [_ ?]|]. intros c.
  apply keeps_scan_loop; [auto with mdb|by intros p [_ ?]|]. intros k v. eapply keeps_weaken; [apply Hf|]. tauto.
Qed.

(** ** Iterators *)
Lemma keeps_iter_next it : keeps (λ p, live_cursor p it.(iter_cursor).(cursor)) (iter_next it : Callback _).
Proof.
  unfold iter_next. apply keeps_if; [apply keeps_ret|].
  apply keeps_bind; [apply stable_cursor|apply keeps_attempt, keeps_walk|]. intros [[?|]| |]; auto with mdb.
Qed.

(** An iterator made, used and dropped. *)
Definition with_iter {A} (db : Db) (start prefix : option bytes) (f : Iter → App A) : App A :=
  it ← (d ← db_clone db; iter_new d db.(db_dbi) start prefix);
  dropping (iter_drop it) (f it).

#[local] Opaque txn_drop cursor_drop env_drop.

Lemma keeps_iter {A} P db start prefix (f : Iter → App A) :
  stable P → (∀ p, P p → alive p db.(db_env)) →
  (∀ it, keeps (λ p, P p ∧ live_cursor p it.(iter_cursor).(cursor)) (f it)) →
  keeps P (with_iter db start prefix f).
Proof.
  intros Hst Hal Hf p r p' Hp HP. destruct (run_clone p _ Hp (Hal p HP)) as (p1 & Hc & Ho & _).
  pose proof (own_inv _ _ _ Ho) as Hp1. pose proof (own_alive _ _ _ Ho) as Hal1.
  unfold with_iter, db_clone, iter_new, db_drop, mbind, St_bind, mret, St_ret. rewrite Hc. unfold or_drop, dropping. simpl.
  destruct (txn_begin _ true p1) as [[g|err|s] p2] eqn:Hb;
    destruct (begin_scope _ _ _ _ _ Hp1 Hal1 Hb) as [(g' & ? & Hin)|([err' ?] & Hp2 & F2)]; simplify_eq.
  2: { destruct (own_scope _ _ _ _ Ho Hp2 F2) as (p3 & -> & Hp3 & F3). by intros ?; simplify_eq. }
  destruct (in_live _ _ _ _ Hin) as (x & Hx & Hxe).
  destruct (cursor_open g' (db_dbi db) p2) as [[c|err|s] p3] eqn:Hcu;
    destruct (run_cursor_open _ _ _ _ _ _ (in_inv _ _ _ _ Hin) Hx Hcu) as (Hp3 & _ & HP3 & _ & [[[err' ?] HV]|(c' & ? & Hn & _ & HV)]); simplify_eq.
  2: { destruct (end_scope _ _ p3 _ _ Hin Hp3) as (p4 & -> & Hp4 & F4 & _); [by apply frame_same|].
       simpl. destruct (own_scope _ _ _ _ Ho Hp4 F4) as (p5 & -> & Hp5 & F5). by intros ?; simplify_eq. }
  assert (live_cursor p3 c') as Hl3. { unfold live_cursor. rewrite HV. simpl. rewrite lookup_insert_eq. by eexists. }
  assert (extends p2 p3) as Hext.
  { split; rewrite ?HV, ?HP3; simpl; [intros t y Hy; by exists y| |intros k sl Hsl _; by exists sl].
    intros c Hcs. rewrite lookup_insert_is_Some'. by right. }
  destruct (f _ p3) as [r4 p4] eqn:Hr. intros ?; simplify_eq.
  assert (P p3) as HP3'.
  { apply (Hst _ _ Hext), (Hst _ _ (in_extends _ _ _ _ Hin)), (Hst _ _ (own_extends _ _ _ Ho)), HP. }
  match type of Hr with f ?it _ = _ => destruct (Hf it _ _ _ Hp3 (conj HP3' Hl3) Hr) as [Hp4 F4] end.
  unfold iter_drop, mbind, St_bind. simpl.
  destruct (run_cursor_drop p4 (mkCursor c') Hp4 (stable_frame _ _ _ (stable_cursor c') F4 Hl3)) as (p5 & -> & Hp5 & HV5 & _ & HP5 & _).
  assert (frame p2 p5) as F5.
  { apply (frame_cursor_scope p2 p3 p4 p5 c' (mkCur g'.(txn) db.(db_dbi) Fresh)); try done; by rewrite ?HV, ?HV5. }
  destruct (end_scope _ _ p5 _ _ Hin Hp5 F5) as (p6 & -> & Hp6 & F6 & _). unfold db_drop. simpl.
  destruct (own_scope _ _ _ _ Ho Hp6 F6) as (p7 & -> & Hp7 & F7). done.
Qed.

(** ** The methods *)

(** Of a database, each in a transaction of its own. *)
Inductive db_op (db : Db) : ∀ {A}, App A → Prop :=
| op_get k : db_op db (db_get db k)
| op_contains_key k : db_op db (contains_key db k)
| op_len : db_op db (db_len db)
| op_is_empty : db_op db (is_empty db)
| op_stat : db_op db (db_stat db)
| op_put k v : db_op db (db_put db k v)
| op_put_if_absent k v : db_op db (db_put_if_absent db k v)
| op_del k : db_op db (db_del db k)
| op_clear : db_op db (db_clear db).

(** Of a transaction. *)
Inductive txn_op (t : Inner) : ∀ {A}, App A → Prop :=
| txn_get db k : txn_op t (inner_get t db k)
| txn_contains_key db k : txn_op t (inner_contains_key t db k)
| txn_stat db : txn_op t (inner_stat t db)
| txn_put db k v : txn_op t (put t db k v)
| txn_put_if_absent db k v : txn_op t (put_if_absent t db k v)
| txn_put_append db k v : txn_op t (put_append t db k v)
| txn_del db k : txn_op t (del t db k)
| txn_clear db : txn_op t (clear t db).

(** Of a cursor. *)
Inductive cursor_op (c : CursorGuard) : ∀ {A}, App A → Prop :=
| cur_first : cursor_op c (cursor_first c)
| cur_last : cursor_op c (cursor_last c)
| cur_next : cursor_op c (cursor_next c)
| cur_prev : cursor_op c (cursor_prev c)
| cur_current : cursor_op c (cursor_current c)
| cur_seek k : cursor_op c (seek c k)
| cur_seek_exact k : cursor_op c (seek_exact c k).

(** Of an environment. *)
Inductive env_op (e : Env) : ∀ {A}, App A → Prop :=
| env_sync force : env_op e (sync e force)
| env_info : env_op e (info e)
| env_reader_check : env_op e (reader_check e).

(** ** Programs

    What a program has borrowed where it runs. *)
Record Borrows : Type := mkBorrows { b_envs : list Env; b_txns : list Inner; b_cursors : list CursorGuard }.
Definition no_borrows : Borrows := mkBorrows [] [] [].
Definition with_env (e : Env) (b : Borrows) : Borrows := mkBorrows (e :: b.(b_envs)) b.(b_txns) b.(b_cursors).
Definition with_txn (t : Inner) (b : Borrows) : Borrows := mkBorrows b.(b_envs) (t :: b.(b_txns)) b.(b_cursors).
Definition with_cursor (c : CursorGuard) (b : Borrows) : Borrows := mkBorrows b.(b_envs) b.(b_txns) (c :: b.(b_cursors)).

(** A computation on the program's own memory. *)
Definition on_memory {E A} (f : M → A * M) : St (Proc W M) E A := λ p,
  let '(a, mem) := f p.(memory) in (Ok a, mkProc p.(lmdb) p.(ACTIVE) p.(env_pool) mem).

(** A program of safe Rust over the crate.  Handles, iterators and cursors are
    dropped at the end of the scope they are made in, and closures are given
    what they borrow; a program may compute on its own memory, panic, and look
    at the errors of what it calls. *)
Inductive api : Borrows → ∀ {E A : Type}, St (Proc W M) E A → Prop :=
| api_ret b E A (a : A) : api b (mret a : St _ E A)
| api_fail b A (e : MdbError) : api b (fail e : App A)
| api_panic b E A : api b (halt Panicked : St _ E A)
| api_bind b E A B (m : St _ E A) (f : A → St _ E B) : api b m → (∀ a, api b (f a)) → api b (m ≫= f)
| api_memory b E A (f : M → A * M) :
    api b (on_memory f : St _ E A)
| api_attempt b A (m : App A) : api b m → api b (attempt m)
| api_callback b A (m : Callback A) : api b m → api b (run_callback m)
| api_open b A path opts (f : Env → App A) :
    (∀ e, api (with_env e b) (f e)) → api b (e ← open_with path opts; dropping (env_drop e) (f e))
| api_clone b A e (f : Env → App A) :
    e ∈ b.(b_envs) → (∀ e', api (with_env e' b) (f e')) → api b (e' ← env_clone e; dropping (env_drop e') (f e'))
| api_open_dbi b A e name create (f : Db → App A) :
    e ∈ b.(b_envs) → (∀ db, api (with_env db.(db_env) b) (f db)) →
    api b (db ← open_dbi e name create; dropping (db_drop db) (f db))
| api_env b A e (m : App A) : e ∈ b.(b_envs) → env_op e m → api b m
| api_db b A db (m : App A) : db.(db_env) ∈ b.(b_envs) → db_op db m → api b m
| api_with_value b A db k (f : option bytes → Callback A) :
    db.(db_env) ∈ b.(b_envs) → (∀ v, api b (f v)) → api b (with_value db k f)
| api_scan b B fuel db start prefix (f : bytes → bytes → Callback (ControlFlow B)) :
    db.(db_env) ∈ b.(b_envs) → (∀ k v, api b (f k v)) → api b (scan_impl fuel db start prefix f)
| api_iter b A db start prefix (f : Iter → App A) :
    db.(db_env) ∈ b.(b_envs) → (∀ it, api (with_cursor it.(iter_cursor) b) (f it)) → api b (with_iter db start prefix f)
| api_iter_next b it : it.(iter_cursor) ∈ b.(b_cursors) → api b (iter_next it)
| api_read b A e (f : Inner → App A) :
    e ∈ b.(b_envs) → (∀ t, api (with_txn t b) (f t)) → api b (env_read e f)
| api_write b A e (f : Inner → App A) :
    e ∈ b.(b_envs) → (∀ t, api (with_txn t b) (f t)) → api b (env_write e f)
| api_txn b A t (m : App A) : t ∈ b.(b_txns) → txn_op t m → api b m
| api_cursor b A t db (f : CursorGuard → App A) :
    t ∈ b.(b_txns) → (∀ c, api (with_cursor c b) (f c)) →
    api b (c ← inner_cursor t db; dropping (cursor_drop c) (f c))
| api_cursor_op b A c (m : App A) : c ∈ b.(b_cursors) → cursor_op c m → api b m.

Definition holds (b : Borrows) p : Prop :=
  (∀ e, e ∈ b.(b_envs) → alive p e) ∧
  (∀ t, t ∈ b.(b_txns) → live p t.(guard).(txn) t.(inner_env).(env)) ∧
  (∀ c, c ∈ b.(b_cursors) → live_cursor p c.(cursor)).

Lemma stable_holds b : stable (holds b).
Proof.
  intros p p' F (He & Ht & Hc). split_and!.
  - intros e Hin. by apply (stable_alive e _ _ F), He.
  - intros t Hin. by apply (stable_live _ _ _ _ F), Ht.
  - intros c Hin. by apply (stable_cursor _ _ _ F), Hc.
Qed.

Lemma holds_env b e p : alive p e → holds b p → holds (with_env e b) p.
Proof. intros Ha (He & Ht & Hc). split_and!; [|done..]. intros e'. simpl. rewrite elem_of_cons. intros [->|?]; auto. Qed.
Lemma holds_txn b t p : live p t.(guard).(txn) t.(inner_env).(env) → holds b p → holds (with_txn t b) p.
Proof. intros Ha (He & Ht & Hc). split_and!; [done| |done]. intros e'. simpl. rewrite elem_of_cons. intros [->|?]; auto. Qed.
Lemma holds_cursor b c p : live_cursor p c.(cursor) → holds b p → holds (with_cursor c b) p.
Proof. intros Ha (He & Ht & Hc). split_and!; [done..|]. intros e'. simpl. rewrite elem_of_cons. intros [->|?]; auto. Qed.

(** ** Each of them keeps the invariant *)
Lemma keeps_ext {E A} P (m n : St (Proc W M) E A) : (∀ p, m p = n p) → keeps P n → keeps P m.
Proof. intros He H p r p' Hp HP. rewrite He. by apply H. Qed.

Lemma keeps_memory {E A} P (f : M → A * M) : keeps P (on_memory f : St _ E A).
Proof.
  intros p r p' Hp _. unfold on_memory. destruct (f (memory p)) as [a mem]. intros ?; simplify_eq.
  destruct Hp as [Hw Ha Ho Hop Hcu Hsl Hen]. split; [by split|by apply frame_same].
Qed.

Lemma env_op_keeps {A} e (m : App A) : env_op e m → keeps (λ p, alive p e) m.
Proof.
  assert (∀ B (c : W → B * W), (∀ w r w' path, c w = (r, w') → sound w → opened (view w) e.(env) path → sound w' ∧ view w' = view w) →
    keeps (λ p, alive p e) (call c)) as Hcall.
  { intros B c H. apply keeps_call. intros p a w Hp Hal Hc. destruct (H _ _ _ _ Hc (inv_sound p Hp) (alive_open p e Hp Hal)). by apply keep_view. }
  pose proof (stable_alive (W := W) (M := M) e). intros [force| |].
  - apply keeps_checked; [done|]. apply Hcall. intros ????. apply env_sync_law.
  - apply keeps_bind; [done|apply Hcall; intros ????; apply env_info_law|]. intros r. apply keeps_bind; auto with mdb.
  - apply keeps_bind; [done|apply Hcall; intros ????; apply reader_check_law|]. intros r. apply keeps_bind; auto with mdb.
Qed.

Lemma keeps_read_value t e dbi k : keeps (λ p, live p t e) (raw_get (mkDb (mkEnv [] 0) dbi None) (mkGuard t e) k : App _).
Proof.
  apply keeps_bind; [apply stable_live|apply keeps_mdb_get|]. intros [rc d]. apply keeps_if; [|auto with mdb].
  apply keeps_bind; auto with mdb.
Qed.

Lemma keeps_raw_get db t e k : keeps (λ p, live p t e) (raw_get db (mkGuard t e) k : App _).
Proof. exact (keeps_read_value t e (db_dbi db) k). Qed.

Lemma db_op_keeps {A} db (m : App A) : db_op db m → keeps (λ p, alive p db.(db_env)) m.
Proof.
  pose proof (stable_alive (W := W) (M := M) db.(db_env)) as Hst.
  assert (∀ t, stable (λ p : Proc W M, alive p (db_env db) ∧ live p t (env (db_env db)))) as Hst' by auto with mdb.
  assert (∀ t B (n : App B), keeps (λ p, live p t (env (db_env db))) n →
    keeps (λ p, alive p (db_env db) ∧ live p t (env (db_env db))) n) as Hw by (intros ??? H; eapply keeps_weaken; [exact H|tauto]).
  assert (∀ k v fl, put_flag fl → keeps (λ p, alive p (db_env db)) (db_put_flags db k v fl : App _)) as Hput.
  { intros k v fl Hfl. apply keeps_writing; [done..|]. intros t. apply keeps_checked; [done|]. by apply Hw, keeps_mdb_put. }
  assert (keeps (λ p, alive p (db_env db)) (db_len db : App _)) as Hlen.
  { apply keeps_reading; [done..|]. intros t. apply keeps_bind; [done|apply Hw, keeps_mdb_stat|]. intros r. apply keeps_bind; auto with mdb. }
  intros [k|k| | | |k v|k v|k|].
  - apply keeps_reading; [done..|]. intros t. apply Hw, keeps_raw_get.
  - apply keeps_reading; [done..|]. intros t. apply keeps_bind; [done|apply Hw, keeps_raw_get|auto with mdb].
  - done.
  - apply keeps_bind; auto with mdb.
  - apply keeps_reading; [done..|]. intros t. apply keeps_bind; [done|apply Hw, keeps_mdb_stat|]. intros r. apply keeps_bind; auto with mdb.
  - apply Hput. by left.
  - apply keeps_stored, Hput. right. by left.
  - apply keeps_writing; [done..|]. intros t. apply keeps_bind; [done|apply Hw, keeps_mdb_del|auto with mdb].
  - apply keeps_writing; [done..|]. intros t. apply keeps_checked; [done|]. apply Hw, keeps_mdb_drop.
Qed.

Lemma txn_op_keeps {A} t e (m : App A) : txn_op t m → keeps (λ p, live p t.(guard).(txn) e) m.
Proof.
  pose proof (stable_live (W := W) (M := M) t.(guard).(txn) e) as Hst. set (P := λ p, live p _ e) in *.
  assert (∀ db B (f : Z → App B), (∀ dbi, keeps P (f dbi)) → keeps P (dbi ← lift (inner_dbi t db); f dbi)) as Hdbi
    by (intros; apply keeps_bind; auto with mdb).
  assert (∀ db k, keeps P (inner_get t db k)) as Hget.
  { intros db k. apply Hdbi. intros dbi. exact (keeps_read_value _ e dbi k). }
  assert (∀ db k v fl, put_flag fl → keeps P (put_flags t db k v fl)) as Hput.
  { intros db k v fl Hfl. apply Hdbi. intros dbi. apply keeps_checked; [done|]. by apply keeps_mdb_put. }
  intros [db k|db k|db|db k v|db k v|db k v|db k|db].
  - apply Hget.
  - apply keeps_bind; auto with mdb.
  - apply Hdbi. intros dbi. apply keeps_bind; [done|apply keeps_mdb_stat|]. intros r. apply keeps_bind; auto with mdb.
  - apply Hput. by left.
  - apply keeps_stored, Hput. right. by left.
  - apply Hput. right. by right.
  - apply Hdbi. intros dbi. apply keeps_bind; [done|apply keeps_mdb_del|auto with mdb].
  - apply Hdbi. intros dbi. apply keeps_checked; [done|apply keeps_mdb_drop].
Qed.

Lemma cursor_op_keeps {A} c (m : App A) : cursor_op c m → keeps (λ p, live_cursor p c.(cursor)) m.
Proof. intros [| | | | |[|]|[|]]; try apply keeps_step. apply keeps_ret. Qed.

Lemma keeps_dbi_open e name fl ro :
  fl = 0 ∨ fl = MDB_CREATE → keeps (λ p, alive p e) (dbi_open e name fl ro : App _).
Proof.
  intros Hfl. apply keeps_writing; [apply stable_alive|done|]. intros t.
  assert (stable (λ p : Proc W M, alive p e ∧ live p t (env e))) by auto with mdb.
  apply keeps_bind; [done| |intros r; apply keeps_bind; auto with mdb].
  eapply keeps_weaken; [by apply keeps_mdb_dbi_open|]. by intros p [_ ?].
Qed.

Lemma acquires_open_dbi e name create :
  acquires (λ p, alive p e) (open_dbi e name create) db_env.
Proof.
  pose proof (stable_alive (W := W) (M := M) e) as Hst.
  apply acquires_bind; [done|apply keeps_pure|]. intros cname. apply acquires_bind; [done| |].
  - intros p r p' Hp HP. unfold or_create. destruct (dbi_open e cname 0 true p) as [o p1] eqn:H1.
    destruct (keeps_dbi_open e cname 0 true ltac:(by left) _ _ _ Hp HP H1) as [Hp1 F1].
    destruct o as [|[[]|]|]; intros H; simplify_eq; try done. destruct create; [|by simplify_eq].
    destruct (keeps_dbi_open e cname MDB_CREATE false ltac:(by right) _ _ _ Hp1 (stable_frame _ _ _ Hst F1 HP) H).
    split; [done|by etrans].
  - intros dbi p r p' Hp HP. unfold mbind, St_bind, mret, St_ret.
    destruct (run_clone p e Hp HP) as (p1 & -> & Ho & _). intros ?; simplify_eq. by exists p.
Qed.

Lemma api_keeps {E A} b (m : St (Proc W M) E A) : api b m → keeps (holds b) m.
Proof.
  induction 1 as [| | |? ? ? ? ? ? ? IHm ? IHf| |? ? ? ? IH|? ? ? ? IH|? ? ? ? ? ? IH|? ? e ? He ? IH|? ? e ? ? ? He ? IH
    |? ? e ? He Hop|? ? db ? He Hop|? ? db ? ? He ? IH|? ? ? db ? ? ? He ? IH|? ? db ? ? ? He ? IH|? it Hc|? ? e ? He ? IH
    |? ? e ? He ? IH|? ? t ? Ht Hop|? ? t ? ? Ht ? IH|? ? c ? Hc Hop]; pose proof (stable_holds b) as Hst.
  - apply keeps_ret.
  - apply keeps_fail.
  - apply keeps_halt.
  - by apply keeps_bind.
  - apply keeps_memory.
  - by apply keeps_attempt.
  - by apply keeps_callback.
  - apply (keeps_own _ _ id); [done|by apply acquires_open|]. intros e. eapply keeps_weaken; [apply IH|]. intros p [? ?]. by apply holds_env.
  - apply (keeps_own _ _ id); [done|apply acquires_clone; intros p Hp; by apply Hp|]. intros e'.
    eapply keeps_weaken; [apply IH|]. intros p [? ?]. by apply holds_env.
  - apply (keeps_own _ _ db_env); [done| |].
    + intros p r p' Hp HP. apply (acquires_open_dbi e); [done|by apply HP].
    + intros db. eapply keeps_weaken; [apply IH|]. intros p [? ?]. by apply holds_env.
  - eapply keeps_weaken; [by eapply env_op_keeps|]. intros p Hp. by apply Hp.
  - eapply keeps_weaken; [by eapply db_op_keeps|]. intros p Hp. by apply Hp.
  - apply keeps_reading; [done|intros p Hp; by apply Hp|]. intros t. apply keeps_bind; [auto with mdb| |].
    + eapply keeps_weaken; [apply keeps_raw_get|]. by intros p [_ ?].
    + intros v. apply keeps_callback. eapply keeps_weaken; [apply IH|]. tauto.
  - apply keeps_scan; [done|intros p Hp; by apply Hp|done].
  - apply keeps_iter; [done|intros p Hp; by apply Hp|]. intros it. eapply keeps_weaken; [apply IH|].
    intros p [? ?]. by apply holds_cursor.
  - eapply keeps_weaken; [apply keeps_iter_next|]. intros p Hp. by apply Hp.
  - eapply (keeps_ext _ _ (g ← txn_begin e true; dropping (txn_drop false g) (f (mkInner g e)))).
    { intros p. unfold env_read, inner_begin, mbind, St_bind, mret, St_ret. by destruct (txn_begin e true p) as [[] ?]. }
    apply keeps_reading; [done|intros p Hp; by apply Hp|]. intros t. eapply keeps_weaken; [apply IH|].
    intros p [? ?]. by apply holds_txn.
  - eapply (keeps_ext _ _ (g ← txn_begin e false; a ← or_drop (txn_drop false g) (f (mkInner g e)); txn_commit g;; mret a)).
    { intros p. unfold env_write, inner_begin, mbind, St_bind, mret, St_ret. by destruct (txn_begin e false p) as [[] ?]. }
    apply keeps_writing; [done|intros p Hp; by apply Hp|]. intros t. eapply keeps_weaken; [apply IH|].
    intros p [? ?]. by apply holds_txn.
  - eapply keeps_weaken; [by eapply txn_op_keeps|]. intros p Hp. by apply Hp.
  - apply (keeps_ext _ _ (dbi ← lift (inner_dbi t db); c ← cursor_open (guard t) dbi; dropping (cursor_drop c) (f c))).
    { intros p. unfold inner_cursor, mbind, St_bind, lift. by destruct (inner_dbi t db). }
    apply keeps_bind; [done|apply keeps_pure|]. intros dbi.
    apply (keeps_cursor _ _ (env (inner_env t))); [done|intros p Hp; by apply Hp|]. intros c.
    eapply keeps_weaken; [apply IH|]. intros p [? ?]. by apply holds_cursor.
  - eapply keeps_weaken; [by eapply cursor_op_keeps|]. intros p Hp. by apply Hp.
Qed.
End Api.
