(* ===== verification/MdbRefine.v ===== *)
(** What the databases promise: the commands of a database as functions on its
    pairs, and that the methods of [Db] and of the transactions refine them. *)
From S2P Require Import Prelude MdbError Mdb MdbTxn MdbDb MdbLaws MdbKeeps MdbPool.
Local Open Scope Z_scope.

(** ** The commands *)
Inductive Cmd : Type :=
| Get (k : bytes)
| Contains (k : bytes)
| Len
| Put (k v : bytes)
| PutIfAbsent (k v : bytes)
| PutAppend (k v : bytes)
| Del (k : bytes)
| Clear.

Inductive Res : Type := Value (v : option bytes) | Flag (b : bool) | Count (n : Z) | Done.

(** The result and the pairs it leaves; [None] is a command that must fail. *)
Definition spec (c : Cmd) (ps : Pairs) : option (Res * Pairs) :=
  match c with
  | Get k => Some (Value (find k ps), ps)
  | Contains k => Some (Flag (bool_decide (is_Some (find k ps))), ps)
  | Len => Some (Count (len ps), ps)
  | Put k v => Some (Done, store k v ps)
  | PutIfAbsent k v => Some match find k ps with Some _ => (Flag false, ps) | None => (Flag true, store k v ps) end
  | PutAppend k v => if forallb (λ kv, key_lt kv.1 k) ps then Some (Done, store k v ps) else None
  | Del k => Some (Flag (bool_decide (is_Some (find k ps))), remove k ps)
  | Clear => Some (Done, [])
  end.

(** On the database of a name. *)
Definition spec_at (name : option bytes) (c : Cmd) (s : Store) : option (Res * Store) :=
  ps ← s !! name; '(r, ps) ← spec c ps; Some (r, <[name := ps]> s).

(** One after the other. *)
Fixpoint spec_all (l : list (option bytes * Cmd)) (s : Store) : option (list Res * Store) :=
  match l with
  | [] => Some ([], s)
  | (name, c) :: l => '(r, s) ← spec_at name c s; '(rs, s) ← spec_all l s; Some (r :: rs, s)
  end.

(** Emptying the main database is not only that. *)
Definition specified (name : option bytes) (c : Cmd) : Prop := name = None → c ≠ Clear.

(** ** Removing *)
Lemma remove_absent k ps : find k ps = None → remove k ps = ps.
Proof.
  unfold find, remove. intros H. destruct (list_find _ ps) as [|] eqn:Hf; [done|]. apply list_find_None in Hf.
  induction Hf as [|kv ps Hkv _ IH]; [done|]. rewrite filter_cons_True by done. by rewrite IH.
Qed.

Section Spec.
Context {W M : Type} {lib : Lmdb W} {laws : LmdbLaws W}.
Implicit Types (p : Proc W M) (w : W) (x : Txn) (s : Store) (t dbi : Z) (r : Res) (c : Cmd).
Abbreviation App := (St (Proc W M) MdbError).
Abbreviation V p := (view p.(lmdb)).

(** The methods of a database that carry out a command. *)
Inductive db_cmd (db : Db) : Cmd → App Res → Prop :=
| cmd_get k : db_cmd db (Get k) (v ← db_get db k; mret (Value v))
| cmd_contains k : db_cmd db (Contains k) (b ← contains_key db k; mret (Flag b))
| cmd_len : db_cmd db Len (n ← db_len db; mret (Count n))
| cmd_stat : db_cmd db Len (st ← db_stat db; mret (Count st.(entries)))
| cmd_put k v : db_cmd db (Put k v) (db_put db k v;; mret Done)
| cmd_put_if_absent k v : db_cmd db (PutIfAbsent k v) (b ← db_put_if_absent db k v; mret (Flag b))
| cmd_del k : db_cmd db (Del k) (b ← db_del db k; mret (Flag b))
| cmd_clear : db_cmd db Clear (db_clear db;; mret Done).

(** The method of a transaction. *)
Definition inner_cmd (t : Inner) (db : Db) (c : Cmd) : App Res :=
  match c with
  | Get k => v ← inner_get t db k; mret (Value v)
  | Contains k => b ← inner_contains_key t db k; mret (Flag b)
  | Len => st ← inner_stat t db; mret (Count st.(entries))
  | Put k v => put t db k v;; mret Done
  | PutIfAbsent k v => b ← put_if_absent t db k v; mret (Flag b)
  | PutAppend k v => put_append t db k v;; mret Done
  | Del k => b ← del t db k; mret (Flag b)
  | Clear => clear t db;; mret Done
  end.

(** A closure that carries out commands, up to the first that fails. *)
Fixpoint inner_cmds (t : Inner) (l : list (Db * Cmd)) : App (list Res) :=
  match l with
  | [] => mret []
  | (db, c) :: l => r ← inner_cmd t db c; rs ← inner_cmds t l; mret (r :: rs)
  end.

(** ** In a transaction

    From [p] to [p'], a computation in transaction [t] left what [Q] says of its
    outcome and the databases, and the rest alone. *)
Definition in_store {A} (t : Z) (x : Txn) p (Q : MdbResult A → Store → Prop) (o : MdbResult A) p' : Prop :=
  inv p' ∧ p'.(ACTIVE) = p.(ACTIVE) ∧ p'.(env_pool) = p.(env_pool) ∧ p'.(memory) = p.(memory) ∧
  (∀ z, o ≠ Stop z) ∧ ∃ s, V p' = set_txn t (with_store x s) (V p) ∧ Q o s.

(** What a command says of its outcome. *)
Definition in_db (x : Txn) (dbi : Z) (c : Cmd) (o : MdbResult Res) (s : Store) : Prop :=
  match o with
  | Ok r => ∃ name, x.(txn_dbis) !! dbi = Some name ∧ (specified name c → spec_at name c x.(txn_store) = Some (r, s))
  | _ => True
  end.

Lemma set_txn_id v t x : v.(txns) !! t = Some x → set_txn t x v = v.
Proof. intros H. unfold set_txn, set_txns. rewrite insert_id by done. by destruct v. Qed.

Lemma with_store_id x : with_store x x.(txn_store) = x.
Proof. by destruct x. Qed.

Lemma db_of_some x dbi (name : option bytes) (ps : Pairs) :
  db_of x dbi = Some (name, ps) → x.(txn_dbis) !! dbi = Some name ∧ x.(txn_store) !! name = Some ps.
Proof.
  unfold db_of. intros H. apply bind_Some in H as (n & Hn & H). apply bind_Some in H as (q & Hq & H). by simplify_eq/=.
Qed.

Lemma as_slice_val d b : val_is d b → as_slice d = Ok b.
Proof.
  intros [Hs Hd]. unfold as_slice. destruct (Z.eqb_spec (mv_size d) 0) as [H0|H0].
  - destruct b; [done|]. simpl in *; lia.
  - destruct Hd as [->|[tail ->]]; [done|]. unfold slice. rewrite Hs. rewrite decide_True.
    + replace (Z.to_nat (len b - 0)) with (length b) by lia. change (Z.to_nat 0) with 0%nat. by rewrite drop_0, take_app_length.
    + rewrite length_app. lia.
Qed.

(** A call that only looks. *)
Lemma same_in_store {A} t x p w (Q : MdbResult A → Store → Prop) (o : MdbResult A) :
  inv p → (V p).(txns) !! t = Some x → sound w → view w = V p → (∀ z, o ≠ Stop z) → Q o x.(txn_store) →
  in_store t x p Q o (set_lmdb w p).
Proof.
  intros Hp Hx Hw Hv Hn Ho. split; [by apply keep_view|]. do 4 (split; [done|]). exists x.(txn_store).
  rewrite with_store_id. split; [|done]. simpl. by rewrite Hv, set_txn_id.
Qed.

(** One that writes. *)
Lemma new_in_store {A} t x p w (Q : MdbResult A → Store → Prop) (o : MdbResult A) s :
  inv p → (V p).(txns) !! t = Some x → sound w → view w = set_txn t (with_store x s) (V p) → (∀ z, o ≠ Stop z) → Q o s →
  in_store t x p Q o (set_lmdb w p).
Proof. intros Hp Hx Hw Hv Hn Ho. split; [by eapply keep_txn|]. do 4 (split; [done|]). by exists s. Qed.

Lemma map_in_store {A B : Type} t x p (Q : MdbResult A → Store → Prop) (Q' : MdbResult B → Store → Prop) (o : MdbResult A) (p' : Proc W M) (f : A → B) :
  in_store t x p Q o p' → (∀ a s, Q (Ok a) s → Q' (Ok (f a)) s) → (∀ e s, Q (Err e) s → Q' (Err e) s) →
  in_store t x p Q' (outcome_map f o) p'.
Proof.
  intros (Hp & HA & HP & HM & Hn & s & HV & HQ) Hok Herr. split; [done|]. do 3 (split; [done|]). destruct o as [a|e|w].
  - split; [done|]. exists s. split; [done|]. by apply Hok.
  - split; [done|]. exists s. split; [done|]. by apply Herr.
  - by destruct (Hn w).
Qed.

Lemma run_map {S E A B} (m : St S E A) (f : A → B) (z : S) : (a ← m; mret (f a)) z = (outcome_map f (m z).1, (m z).2).
Proof. unfold mbind, St_bind, mret, St_ret. by destruct (m z) as [[] ?]. Qed.

Lemma in_db_spec x dbi c r s (name : option bytes) (ps ps' : Pairs) :
  db_of x dbi = Some (name, ps) → spec c ps = Some (r, ps') → s = <[name := ps']> x.(txn_store) → in_db x dbi c (Ok r) s.
Proof.
  intros [Hn Hs]%db_of_some Hc ->. exists name. split; [done|]. intros _. unfold spec_at. rewrite Hs. simpl. by rewrite Hc.
Qed.

Lemma in_db_same x dbi c r (name : option bytes) (ps : Pairs) :
  db_of x dbi = Some (name, ps) → spec c ps = Some (r, ps) → in_db x dbi c (Ok r) x.(txn_store).
Proof.
  intros Hdb Hc. eapply in_db_spec; [done..|]. apply db_of_some in Hdb as [_ Hs]. by rewrite insert_id.
Qed.

(** ** The calls *)
Lemma run_raw_get db g x k p :
  inv p → (V p).(txns) !! g.(txn) = Some x →
  in_store g.(txn) x p (λ o s, s = x.(txn_store) ∧ ∀ v, o = Ok v → ∃ name ps, db_of x db.(db_dbi) = Some (name, ps) ∧ v = find k ps)
    (raw_get db g k p).1 (raw_get db g k p).2.
Proof.
  intros Hp Hx. unfold raw_get, call, mbind, St_bind, lift, mret, St_ret, fail.
  destruct (mdb_get _ _ _ _) as [[rc d] w] eqn:Hc.
  destruct (get_law _ _ _ _ _ _ _ _ Hc (inv_sound p Hp) Hx) as (Hw & Hv & Hok & Hnot). simpl.
  destruct (Z.eqb_spec rc MDB_SUCCESS) as [->|H1]; [|destruct (Z.eqb_spec rc MDB_NOTFOUND) as [->|H2]].
  - destruct (Hok eq_refl) as (name & ps & b & Hdb & Hf & Hd). rewrite (as_slice_val _ _ Hd). simpl.
    apply same_in_store; try done. split; [done|]. intros v [= <-]. eauto.
  - destruct (Hnot eq_refl) as (name & ps & Hdb & Hf). apply same_in_store; try done. split; [done|]. intros v [= <-]. eauto.
  - by apply same_in_store.
Qed.

Lemma run_stat g x dbi p {A} (f : MDB_stat → A) :
  inv p → (V p).(txns) !! g.(txn) = Some x →
  let m := (r ← call (mdb_stat g.(txn) dbi); lift (check r.1);; mret (f r.2) : App A) in
  in_store g.(txn) x p (λ o s, s = x.(txn_store) ∧ ∀ v, o = Ok v → ∃ name ps st, db_of x dbi = Some (name, ps) ∧ v = f st ∧ st.(ms_entries) = len ps)
    (m p).1 (m p).2.
Proof.
  intros Hp Hx m. unfold m, call, mbind, St_bind, lift, mret, St_ret.
  destruct (mdb_stat _ _ _) as [[rc st] w] eqn:Hc. destruct (stat_law _ _ _ _ _ _ _ Hc (inv_sound p Hp) Hx) as (Hw & Hv & Hok). simpl.
  unfold check. destruct (Z.eqb_spec rc MDB_SUCCESS) as [->|H1]; simpl; apply same_in_store; try done.
  split; [done|]. intros v [= <-]. destruct (Hok eq_refl) as (name & ps & Hdb & He). eauto 7.
Qed.

(** What [Stat::read] makes of an [MDB_stat]. *)
Definition stat_of (st : MDB_stat) : Stat :=
  mkStat st.(ms_psize) st.(ms_depth) st.(ms_branch_pages) st.(ms_leaf_pages) st.(ms_overflow_pages) st.(ms_entries).

Lemma from_raw_keyexist rc : Error_from_raw rc = Mdb KeyExist ↔ rc = MDB_KEYEXIST.
Proof.
  unfold Error_from_raw. destruct (MdbCode_from_raw rc) as [code|] eqn:H.
  - apply raw_from_raw in H as ->. destruct code; split; done.
  - split; [done|]. intros ->. done.
Qed.

(** A put, and what [KeyExist] means. *)
Lemma run_put g x dbi k v fl p :
  inv p → (V p).(txns) !! g.(txn) = Some x → put_flag fl →
  let m := (checked (mdb_put g.(txn) dbi (val_of k) (val_of v) fl) : App unit) in
  in_store g.(txn) x p (λ o s,
    (o = Ok tt → ∃ name ps, db_of x dbi = Some (name, ps) ∧ putable fl k ps = true ∧ s = <[name := store k v ps]> x.(txn_store)) ∧
    (o = Err (Mdb KeyExist) → s = x.(txn_store) ∧ ∃ name ps, db_of x dbi = Some (name, ps) ∧ putable fl k ps = false))
    (m p).1 (m p).2.
Proof.
  intros Hp Hx Hfl m. unfold m, checked, call, mbind, St_bind, lift.
  destruct (mdb_put _ _ _ _ _ _) as [rc w] eqn:Hc.
  destruct (put_law _ _ _ _ _ _ _ _ _ Hc (inv_sound p Hp) Hx Hfl) as [Hw Hv]. simpl. unfold check.
  destruct (Z.eqb_spec rc MDB_SUCCESS) as [->|H1]; [|destruct (Z.eqb_spec rc MDB_KEYEXIST) as [->|H2]]; simpl.
  - destruct Hv as (name & ps & Hdb & Hput & Hv). eapply new_in_store; try done. split; [|done]. eauto.
  - destruct Hv as (name & ps & Hdb & Hput & Hv). apply same_in_store; try done. split; [done|]. eauto.
  - destruct Hv as [s Hv]. eapply new_in_store; try done. split; [done|]. intros [= H%from_raw_keyexist]. done.
Qed.

Lemma run_del g x dbi k p :
  inv p → (V p).(txns) !! g.(txn) = Some x →
  let m := (rc ← call (mdb_del g.(txn) dbi (val_of k)); lift (existed rc) : App bool) in
  in_store g.(txn) x p (λ o s, in_db x dbi (Del k) (outcome_map Flag o) s) (m p).1 (m p).2.
Proof.
  intros Hp Hx m. unfold m, call, mbind, St_bind, lift. destruct (mdb_del _ _ _ _) as [rc w] eqn:Hc.
  destruct (del_law _ _ _ _ _ _ _ Hc (inv_sound p Hp) Hx) as [Hw Hv]. simpl. unfold existed.
  destruct (rc =? MDB_SUCCESS); [|destruct (rc =? MDB_NOTFOUND)]; simpl.
  - destruct Hv as (name & ps & Hdb & Hf & Hv). eapply new_in_store; try done. eapply in_db_spec; [done| |done].
    simpl. by rewrite bool_decide_true.
  - destruct Hv as (name & ps & Hdb & Hf & Hv). apply same_in_store; try done. eapply in_db_same; [done|].
    simpl. by rewrite Hf, remove_absent.
  - destruct Hv as [s Hv]. by eapply new_in_store.
Qed.

Lemma run_clear g x dbi p :
  inv p → (V p).(txns) !! g.(txn) = Some x →
  let m := (checked (mdb_drop g.(txn) dbi 0) : App unit) in
  in_store g.(txn) x p (λ o s, in_db x dbi Clear (outcome_map (λ _, Done) o) s) (m p).1 (m p).2.
Proof.
  intros Hp Hx m. unfold m, checked, call, mbind, St_bind, lift. destruct (mdb_drop _ _ _ _) as [rc w] eqn:Hc.
  destruct (drop_law _ _ _ _ _ _ Hc (inv_sound p Hp) Hx) as [Hw Hv]. simpl. unfold check.
  destruct (rc =? MDB_SUCCESS); simpl.
  - destruct Hv as (name & ps & s & Hdb & Hv & Hs & Hn). eapply new_in_store; try done.
    apply db_of_some in Hdb as [Hd Hps]. exists name. split; [done|]. intros Hsp. unfold spec_at. rewrite Hps. simpl.
    rewrite <- Hn; [done|]. intros ->. by apply Hsp.
  - destruct Hv as [s Hv]. by eapply new_in_store.
Qed.

(** ** The methods of a transaction *)
Lemma stored_in_store g x dbi k v p :
  inv p → (V p).(txns) !! g.(txn) = Some x →
  let m := (stored (checked (mdb_put g.(txn) dbi (val_of k) (val_of v) MDB_NOOVERWRITE)) : App bool) in
  in_store g.(txn) x p (λ o s, in_db x dbi (PutIfAbsent k v) (outcome_map Flag o) s) (m p).1 (m p).2.
Proof.
  intros Hp Hx m. pose proof (run_put g x dbi k v MDB_NOOVERWRITE p Hp Hx ltac:(right; by left)) as H. cbv zeta in H.
  unfold m, stored. destruct (checked _ p) as [o p1]. simpl in H. destruct H as (Hp1 & HA & HP & HM & Hn & s & HV & Hok & Hke).
  assert (∀ q o', (∀ z, o' ≠ Stop z) → q = p1 → in_db x dbi (PutIfAbsent k v) (outcome_map Flag o') s →
    in_store g.(txn) x p (λ o s, in_db x dbi (PutIfAbsent k v) (outcome_map Flag o) s) o' q) as Hdone.
  { intros q o' Ho' -> Hq. split; [done|]. do 4 (split; [done|]). by exists s. }
  destruct o as [[]|e|z]; [| |by destruct (Hn z)].
  - destruct (Hok eq_refl) as (name & ps & Hdb & Hput & Hs). apply Hdone; [done..|]. eapply in_db_spec; [done| |done].
    unfold putable in Hput. simpl in Hput. apply bool_decide_eq_true in Hput. simpl. by rewrite Hput.
  - assert (e = Mdb KeyExist ∨ match e with Mdb KeyExist => (Ok false, p1) | _ => (Err e, p1) end = (Err e, p1)) as [-> | ->]
      by (destruct e as [[]|]; auto); [|by apply Hdone].
    destruct (Hke eq_refl) as (Hs & name & ps & Hdb & Hput). apply Hdone; [done..|]. simpl. rewrite Hs. eapply in_db_same; [done|].
    unfold putable in Hput. simpl in Hput. apply bool_decide_eq_false in Hput. simpl. by destruct (find k ps).
Qed.

Lemma run_inner_cmd (t' : Inner) (db : Db) c x p :
  inv p → (V p).(txns) !! t'.(guard).(txn) = Some x → env (db_env db) = env (inner_env t') →
  in_store t'.(guard).(txn) x p (in_db x db.(db_dbi) c) (inner_cmd t' db c p).1 (inner_cmd t' db c p).2.
Proof.
  intros Hp Hx He. assert (inner_dbi t' db = Ok (db_dbi db)) as Hd by (unfold inner_dbi; by rewrite (proj2 (Z.eqb_eq _ _) He)).
  assert (∀ A (f : Z → App A) q, (dbi ← lift (inner_dbi t' db); f dbi) q = f (db_dbi db) q) as Hdbi by (intros; by rewrite Hd).
  destruct c as [k|k| |k v|k v|k v|k|]; unfold inner_cmd; rewrite run_map; simpl.
  - unfold inner_get. rewrite Hdbi. eapply map_in_store; [exact (run_raw_get db _ x k p Hp Hx)| |done].
    intros a s' [-> Hv]. destruct (Hv _ eq_refl) as (name & ps & Hdb & ->). by eapply in_db_same.
  - unfold inner_contains_key. rewrite run_map. unfold inner_get. rewrite Hdbi. simpl.
    eapply (map_in_store _ _ _ (λ o s, in_db x (db_dbi db) (Contains k) (outcome_map Flag o) s)); [|done|done].
    eapply map_in_store; [exact (run_raw_get db _ x k p Hp Hx)| |done].
    intros a s' [-> Hv]. destruct (Hv _ eq_refl) as (name & ps & Hdb & ->). simpl. by eapply in_db_same.
  - unfold inner_stat. rewrite Hdbi. eapply map_in_store; [exact (run_stat _ x (db_dbi db) p stat_of Hp Hx)| |done].
    intros a s' [-> Hv]. destruct (Hv _ eq_refl) as (name & ps & st & Hdb & -> & Hn). simpl. rewrite Hn. by eapply in_db_same.
  - unfold put, put_flags. rewrite Hdbi. eapply map_in_store; [exact (run_put _ x (db_dbi db) k v 0 p Hp Hx ltac:(by left))| |done].
    intros [] s' [Hok _]. destruct (Hok eq_refl) as (name & ps & Hdb & Hput & ->). by eapply in_db_spec.
  - unfold put_if_absent, put_flags, stored. rewrite Hdbi. eapply map_in_store; [exact (stored_in_store _ x (db_dbi db) k v p Hp Hx)|done|done].
  - unfold put_append, put_flags. rewrite Hdbi. eapply map_in_store; [exact (run_put _ x (db_dbi db) k v MDB_APPEND p Hp Hx ltac:(right; by right))| |done].
    intros [] s' [Hok _]. destruct (Hok eq_refl) as (name & ps & Hdb & Hput & ->). eapply in_db_spec; [done| |done].
    simpl. unfold putable in Hput. simpl in Hput. by rewrite Hput.
  - unfold del. rewrite Hdbi. eapply map_in_store; [exact (run_del _ x (db_dbi db) k p Hp Hx)|done|done].
  - unfold clear. rewrite Hdbi. eapply map_in_store; [exact (run_clear _ x (db_dbi db) p Hp Hx)| |done]. by intros [].
Qed.

(** The names that the databases of a list of commands stand for. *)
Definition named (m : gmap Z (option bytes)) (l : list (Db * Cmd)) (l' : list (option bytes * Cmd)) : Prop :=
  Forall2 (λ dc nc, nc.2 = dc.2 ∧ m !! dc.1.(db_dbi) = Some nc.1 ∧ specified nc.1 nc.2) l l'.

Lemma bind_in_store {A B : Type} t x p (Q : MdbResult A → Store → Prop) (Q' : MdbResult B → Store → Prop)
    (m : App A) (f : A → App B) :
  in_store t x p Q (m p).1 (m p).2 →
  (∀ a s p1, inv p1 → (V p1).(txns) !! t = Some (with_store x s) → Q (Ok a) s → in_store t (with_store x s) p1 Q' (f a p1).1 (f a p1).2) →
  (∀ e s, Q (Err e) s → Q' (Err e) s) →
  in_store t x p Q' ((m ≫= f) p).1 ((m ≫= f) p).2.
Proof.
  intros Hm Hf He. unfold mbind, St_bind. destruct (m p) as [o p1]. destruct Hm as (Hp & HA & HP & HM & Hn & s & HV & HQ). simpl in *.
  destruct o as [a|e|z]; [| |by destruct (Hn z)].
  - destruct (Hf a s p1 Hp) as (Hp2 & HA2 & HP2 & HM2 & Hn2 & s2 & HV2 & HQ2); [rewrite HV; simpl; by rewrite lookup_insert_eq|done|].
    split; [done|]. split; [congruence|]. split; [congruence|]. split; [congruence|]. split; [done|]. exists s2. split; [|done].
    rewrite HV2, HV. unfold set_txn, set_txns. simpl. by rewrite insert_insert_eq.
  - split; [done|]. do 4 (split; [done|]). exists s. split; [done|]. by apply He.
Qed.

Lemma run_inner_cmds (t' : Inner) l l' x p :
  inv p → (V p).(txns) !! t'.(guard).(txn) = Some x → Forall (λ dc, env (db_env dc.1) = env (inner_env t')) l →
  named x.(txn_dbis) l l' →
  in_store t'.(guard).(txn) x p (λ o s, ∀ rs, o = Ok rs → spec_all l' x.(txn_store) = Some (rs, s))
    (inner_cmds t' l p).1 (inner_cmds t' l p).2.
Proof.
  intros Hp Hx Hl Hn. revert x p Hp Hx Hn. revert l'. induction Hl as [|[db c] l He Hl IH]; intros l' x p Hp Hx Hn; simpl.
  - apply Forall2_nil_inv_l in Hn as ->. split; [done|]. do 4 (split; [done|]). exists x.(txn_store).
    rewrite with_store_id, set_txn_id by done. split; [done|]. intros rs [= <-]. done.
  - apply Forall2_cons_inv_l in Hn as ([name c'] & l2 & (Hc & Hname & Hsp) & Hn & ->). simpl in *. subst c'.
    eapply bind_in_store; [by apply (run_inner_cmd t' db c x)| |done].
    intros r s' p1 Hp1 Hx1 (name' & Hname' & Hs'). rewrite Hname' in Hname. simplify_eq. specialize (Hs' Hsp). rewrite Hs'. simpl.
    eapply bind_in_store; [by apply (IH l2)| |done].
    intros rs s2 p2 Hp2 Hx2 Hrs. specialize (Hrs _ eq_refl). simpl in Hrs.
    split; [done|]. do 4 (split; [done|]). exists s2. split; [by rewrite set_txn_id|]. intros rs' [= <-]. by rewrite Hrs.
Qed.
End Spec.

(** Whole transactions: what the operations of a [Db] and the closures of
    [Env::write] and [Env::read] leave in an environment. *)

Section Refine.
Context {W M : Type} {lib : Lmdb W} {laws : LmdbLaws W}.
Implicit Types (p : Proc W M) (w : W) (x : Txn) (s : Store) (t dbi : Z) (e : Env).
Abbreviation App := (St (Proc W M) MdbError).
Abbreviation V p := (view p.(lmdb)).

Definition body_of {A : Type} (m : gmap Z (option bytes)) (Q : Txn → MdbResult A → Store → Prop) (f : TxnGuard → App A) : Prop :=
  ∀ g x p1, inv p1 → (V p1).(txns) !! g.(txn) = Some x → x.(txn_dbis) = m → in_store g.(txn) x p1 (Q x) (f g p1).1 (f g p1).2.

(** The transaction that a body runs in, from databases [s]. *)
Definition start_of p e (ro : bool) (s : Store) : Txn := mkTxn e.(env) ro s (handles (V p) e.(env)).

(** A transaction of its own: what it did to the environment's data if it
    succeeded, and nothing if it failed. *)
Definition transacts {A : Type} p e (ro : bool) (Q : Txn → MdbResult A → Store → Prop) (r : MdbResult A) p' : Prop :=
  inv p' ∧ p'.(env_pool) = p.(env_pool) ∧ p'.(memory) = p.(memory) ∧
  (∀ k, k ≠ e.(key) → (V p').(disk) !! k = (V p).(disk) !! k) ∧
  match r with
  | Ok a => ∃ s s', others e.(key) (data (V p) e.(key)) s ∧ Q (start_of p e ro s) (Ok a) s' ∧
              data (V p') e.(key) = if ro then s else s'
  | Err err =>
      (data (V p') e.(key) = data (V p) e.(key) ∧ err ≠ Mdb KeyExist) ∨
      ∃ s s', others e.(key) (data (V p) e.(key)) s ∧ data (V p') e.(key) = s ∧
        (err = Mdb KeyExist → Q (start_of p e ro s) (Err err) s')
  | Stop _ => False
  end.

Lemma data_insert v k s : data (set_disk (<[k := s]> v.(disk)) v) k = s.
Proof. unfold data. simpl. by rewrite lookup_insert_eq. Qed.

Lemma begin_keyexist p e ro p' : txn_begin e ro p ≠ (Err (Mdb KeyExist), p').
Proof.
  unfold txn_begin, claim, or_drop, call, lift, fail, modify, mbind, St_bind, mret, St_ret, get. case_decide; [done|]. simpl.
  pose proof (begin_rc (lmdb p) (env e) (if ro then MDB_RDONLY else 0)) as Hrc.
  destruct (mdb_txn_begin _ _ _) as [[rc t] w]. simpl in *. unfold check. destruct (rc =? MDB_SUCCESS); [done|].
  intros [= Hke%from_raw_keyexist _]. done.
Qed.

Lemma commit_keyexist p g p' : txn_commit g p ≠ (Err (Mdb KeyExist), p').
Proof.
  unfold txn_commit, dropping, checked, call, lift, mbind, St_bind.
  pose proof (commit_rc (lmdb p) (txn g)) as Hrc. destruct (mdb_txn_commit _ _) as [rc w]. simpl in *.
  unfold check. destruct (rc =? MDB_SUCCESS); [done|]. intros [= Hke%from_raw_keyexist _]. done.
Qed.

(** The state after the body, of a transaction that began from [p]. *)
Record ran p e ro t s p2 (s' : Store) : Prop := mkRan {
  ran_inv : inv p2;
  ran_pool : p2.(env_pool) = p.(env_pool);
  ran_memory : p2.(memory) = p.(memory);
  ran_others : others e.(key) (data (V p) e.(key)) s;
  ran_txn : (V p2).(txns) !! t = Some (with_store (start_of p e ro s) s');
  ran_cursor : no_cursor (V p2) t;
  ran_open : opened (V p2) e.(env) e.(key);
  ran_disk : (V p2).(disk) = <[e.(key) := s]> (V p).(disk)
}.

Lemma run_body {A : Type} p e ro (Q : Txn → MdbResult A → Store → Prop) (f : TxnGuard → App A) o p1 :
  inv p → alive p e → body_of (handles (V p) e.(env)) Q f → txn_begin e ro p = (o, p1) →
  (∃ err, o = Err err ∧ err ≠ Mdb KeyExist ∧ inv p1 ∧ p1.(env_pool) = p.(env_pool) ∧ p1.(memory) = p.(memory) ∧ V p1 = V p) ∨
  (∃ t s s', o = Ok (mkGuard t e.(env)) ∧ (∀ z, (f (mkGuard t e.(env)) p1).1 ≠ Stop z) ∧
     ran p e ro t s (f (mkGuard t e.(env)) p1).2 s' ∧ Q (start_of p e ro s) (f (mkGuard t e.(env)) p1).1 s').
Proof.
  intros Hp Hal Hf Hb.
  destruct (run_begin p e ro o p1 Hp Hal Hb) as (Hp1 & HP & HM & [(-> & _ & ->)|[(_ & HV & [err ->])|(_ & t & s & -> & Ht & Hc & Hs & HV)]]).
  - left. eexists. split; [done|]. done.
  - left. exists err. split; [done|]. split; [|done]. intros ->. by eapply begin_keyexist.
  - right. assert ((V p1).(txns) !! t = Some (start_of p e ro s)) as Hx by (rewrite HV; simpl; by rewrite lookup_insert_eq).
    destruct (Hf (mkGuard t (env e)) _ p1 Hp1 Hx eq_refl) as (Hp2 & HA2 & HP2 & HM2 & Hn & s' & HV2 & HQ). simpl in *.
    exists t, s, s'. split; [done|]. split; [done|]. split; [|done].
    pose proof (alive_open p e Hp Hal) as Hop. split; try done.
    + congruence.
    + congruence.
    + rewrite HV2. simpl. by rewrite lookup_insert_eq.
    + rewrite HV2. unfold no_cursor. simpl. by rewrite HV.
    + rewrite HV2. unfold opened. simpl. by rewrite HV.
    + rewrite HV2. simpl. by rewrite HV.
Qed.

(** The transaction that is dropped. *)
Lemma ran_drop {A : Type} p e ro t s p2 s' (Q : Txn → MdbResult A → Store → Prop) (r : MdbResult A) :
  ran p e ro t s p2 s' → (∀ z, r ≠ Stop z) → Q (start_of p e ro s) r s' →
  (∀ a, r = Ok a → ro = true) → transacts p e ro Q r (txn_drop false (mkGuard t e.(env)) p2).2.
Proof.
  intros [Hp2 HP HM Hs Hx Hc Ho HD] Hn HQ Hok.
  destruct (run_drop p2 (mkGuard t (env e)) _ Hp2 Hx eq_refl Hc) as (p3 & -> & Hp3 & HV & HP3 & HM3). simpl.
  assert (data (V p3) (key e) = s) as Hd by (rewrite HV; unfold data; simpl; by rewrite HD, lookup_insert_eq).
  split; [done|]. split; [congruence|]. split; [congruence|]. split.
  { intros k Hk. rewrite HV. simpl. by rewrite HD, lookup_insert_ne. }
  destruct r as [a|err|z]; [|right; by exists s, s'|by destruct (Hn z)].
  exists s, s'. by rewrite (Hok a eq_refl) in *.
Qed.

(** The transaction that is committed. *)
Lemma ran_commit {A : Type} p e t s p2 s' (Q : Txn → MdbResult A → Store → Prop) a :
  ran p e false t s p2 s' → Q (start_of p e false s) (Ok a) s' →
  transacts p e false Q ((txn_commit (mkGuard t e.(env));; mret a) p2).1 ((txn_commit (mkGuard t e.(env));; mret a) p2).2.
Proof.
  intros [Hp2 HP HM Hs Hx Hc Ho HD] HQ. unfold mbind, St_bind, mret, St_ret.
  destruct (txn_commit (mkGuard t (env e)) p2) as [r p3] eqn:Hr.
  destruct (run_commit p2 (mkGuard t (env e)) _ (key e) _ _ Hp2 Hx eq_refl Hc Ho Hr) as (Hp3 & HP3 & HM3 & [[-> HV]|[[err ->] HV]]); simpl.
  - split; [done|]. split; [congruence|]. split; [congruence|]. split.
    { intros k Hk. rewrite HV. simpl. by rewrite lookup_insert_ne, HD, lookup_insert_ne. }
    exists s, s'. split; [done|]. split; [done|]. rewrite HV. unfold data. simpl. by rewrite lookup_insert_eq.
  - split; [done|]. split; [congruence|]. split; [congruence|]. split.
    { intros k Hk. rewrite HV. simpl. by rewrite HD, lookup_insert_ne. }
    right. exists s, s'. split; [done|]. split; [rewrite HV; unfold data; simpl; by rewrite HD, lookup_insert_eq|].
    intros ->. by apply commit_keyexist in Hr.
Qed.

Lemma run_reading {A : Type} p e (Q : Txn → MdbResult A → Store → Prop) (f : TxnGuard → App A) r p' :
  inv p → alive p e → body_of (handles (V p) e.(env)) Q f →
  (t ← txn_begin e true; dropping (txn_drop false t) (f t)) p = (r, p') → transacts p e true Q r p'.
Proof.
  intros Hp Hal Hf. unfold mbind, St_bind, dropping. destruct (txn_begin e true p) as [o p1] eqn:Hb.
  destruct (run_body p e true Q f o p1 Hp Hal Hf Hb) as [(err & -> & Hne & Hp1 & HP & HM & HV)|(t & s & s' & -> & Hn & Hran & HQ)].
  - intros ?; simplify_eq. split; [done|]. do 2 (split; [done|]). rewrite HV. split; [done|]. by left.
  - destruct (f (mkGuard t (env e)) p1) as [r2 p2]. simpl in *. intros ?; simplify_eq. by eapply ran_drop.
Qed.

Lemma run_writing {A : Type} p e (Q : Txn → MdbResult A → Store → Prop) (f : TxnGuard → App A) r p' :
  inv p → alive p e → body_of (handles (V p) e.(env)) Q f →
  (t ← txn_begin e false; a ← or_drop (txn_drop false t) (f t); txn_commit t;; mret a) p = (r, p') →
  transacts p e false Q r p'.
Proof.
  intros Hp Hal Hf. unfold mbind at 1, St_bind at 1. destruct (txn_begin e false p) as [o p1] eqn:Hb.
  destruct (run_body p e false Q f o p1 Hp Hal Hf Hb) as [(err & -> & Hne & Hp1 & HP & HM & HV)|(t & s & s' & -> & Hn & Hran & HQ)].
  - intros ?; simplify_eq. split; [done|]. do 2 (split; [done|]). rewrite HV. split; [done|]. by left.
  - unfold mbind at 1, St_bind at 1, or_drop. destruct (f (mkGuard t (env e)) p1) as [[a|err|z] p2]; simpl in *.
    + intros Hr. pose proof (ran_commit _ _ _ _ _ _ _ _ Hran HQ) as H. by rewrite Hr in H.
    + intros ?; simplify_eq. by eapply ran_drop.
    + by destruct (Hn z).
Qed.

(** ** What a caller sees

    [after p e l r p']: commands [l] were carried out on the data that was there
    when the transaction began, with the results [r]; or nothing was done. *)
Definition after {A} p e (did : A → Store → Store → Prop) (r : MdbResult A) p' : Prop :=
  inv p' ∧ p'.(env_pool) = p.(env_pool) ∧ p'.(memory) = p.(memory) ∧
  (∀ k, k ≠ e.(key) → (V p').(disk) !! k = (V p).(disk) !! k) ∧
  match r with
  | Ok a => ∃ s, others e.(key) (data (V p) e.(key)) s ∧ did a s (data (V p') e.(key))
  | Err _ => data (V p') e.(key) = data (V p) e.(key) ∨ others e.(key) (data (V p) e.(key)) (data (V p') e.(key))
  | Stop _ => False
  end.

(** One command on the database a handle stands for. *)
Definition did_cmd p db (c : Cmd) (r : Res) (s s' : Store) : Prop :=
  ∃ name, handles (V p) db.(db_env).(env) !! db.(db_dbi) = Some name ∧ (specified name c → spec_at name c s = Some (r, s')).

Lemma after_transacts {A B : Type} p e ro (Q : Txn → MdbResult A → Store → Prop) (did : B → Store → Store → Prop) (f : A → B) o p' :
  transacts p e ro Q o p' →
  (∀ a s s', Q (start_of p e ro s) (Ok a) s' → did (f a) s (if ro then s else s')) →
  after p e did (outcome_map f o) p'.
Proof.
  intros (Hp & HP & HM & HD & Ho) Hd. split; [done|]. do 3 (split; [done|]). destruct o as [a|err|z]; simpl.
  - destruct Ho as (s & s' & Hs & HQ & ->). exists s. split; [done|]. by apply Hd.
  - destruct Ho as [[-> _]|(s & s' & Hs & -> & _)]; [by left|by right].
  - done.
Qed.

Lemma put_if_absent_refines db k v p :
  inv p → alive p db.(db_env) →
  after p db.(db_env) (did_cmd p db (PutIfAbsent k v))
    (outcome_map Flag (db_put_if_absent db k v p).1) (db_put_if_absent db k v p).2.
Proof.
  intros Hp Hal. unfold did_cmd.
  destruct (db_put_if_absent db k v p) as [o q] eqn:Hr. unfold db_put_if_absent, stored in Hr. cbn [fst snd].
  destruct (db_put_flags db k v MDB_NOOVERWRITE p) as [o1 q1] eqn:Hr1.
  assert (transacts p (db_env db) false (λ x o s,
    (o = Ok tt → ∃ name ps, db_of x db.(db_dbi) = Some (name, ps) ∧ putable MDB_NOOVERWRITE k ps = true ∧ s = <[name := store k v ps]> x.(txn_store)) ∧
    (o = Err (Mdb KeyExist) → s = x.(txn_store) ∧ ∃ name ps, db_of x db.(db_dbi) = Some (name, ps) ∧ putable MDB_NOOVERWRITE k ps = false)) o1 q1) as Ht.
  { eapply run_writing; [done|done| |exact Hr1]. intros g x p1 ?? _; apply run_put; [done..|right; by left]. }
  destruct Ht as (Hq & HP & HM & HD & Ho). destruct o1 as [[]|err|z]; [| |done].
  + simplify_eq. split; [done|]. do 3 (split; [done|]). destruct Ho as (s & s' & Hs & [Hok _] & ->). exists s. split; [done|].
    destruct (Hok eq_refl) as (name & ps & Hdb & Hput & Hs'). unfold putable in Hput. simpl in Hput. apply bool_decide_eq_true in Hput.
    refine (in_db_spec (start_of p (db_env db) false s) _ (PutIfAbsent k v) _ _ name ps _ Hdb _ Hs'). simpl. by rewrite Hput.
  + assert (err = Mdb KeyExist ∨ (o, q) = (Err err, q1)) as [-> | [= -> ->]] by (destruct err as [[]|]; auto).
    * simplify_eq. split; [done|]. do 3 (split; [done|]). destruct Ho as [[_ ?]|(s & s' & Hs & -> & HQ)]; [done|].
      exists s. split; [done|]. destruct (HQ eq_refl) as [_ Hke]. destruct (Hke eq_refl) as (_ & name & ps & Hdb & Hput).
      unfold putable in Hput. simpl in Hput. apply bool_decide_eq_false in Hput.
      refine (in_db_same (start_of p (db_env db) false s) _ (PutIfAbsent k v) _ name ps Hdb _). simpl. by destruct (find k ps).
    * split; [done|]. do 3 (split; [done|]). simpl. destruct Ho as [[-> _]|(s & s' & Hs & -> & _)]; [by left|by right].
Qed.

Lemma db_refines db c (m : App Res) p r p' :
  db_cmd db c m → inv p → alive p db.(db_env) → m p = (r, p') → after p db.(db_env) (did_cmd p db c) r p'.
Proof.
  intros Hm Hp Hal. destruct Hm as [k|k| | |k v|k v|k|]; rewrite run_map; intros [= <- <-]; unfold did_cmd.
  - destruct (db_get db k p) as [o q] eqn:Hr. eapply after_transacts; [eapply run_reading; [done|done| |exact Hr]; intros g x p1 ?? _; by apply run_raw_get|].
    intros a s s' [-> Hv]. destruct (Hv _ eq_refl) as (name & ps & Hdb & ->). simpl in *.
    exact (in_db_same (start_of p (db_env db) true s) _ (Get k) _ name ps Hdb eq_refl).
  - destruct (contains_key db k p) as [o q] eqn:Hr. eapply after_transacts;
      [eapply (run_reading _ _ (λ x o s, s = x.(txn_store) ∧ in_db x db.(db_dbi) (Contains k) (outcome_map Flag o) s)); [done|done| |exact Hr]|].
    + intros g x p1 Hp1 Hx _. rewrite run_map. simpl. eapply map_in_store; [by apply (run_raw_get db g x k p1)| |by intros e s [-> _]].
      intros a s [-> Hv]. destruct (Hv _ eq_refl) as (name & ps & Hdb & ->). split; [done|]. by eapply in_db_same.
    + by intros a s s' [-> H].
  - destruct (db_len db p) as [o q] eqn:Hr. eapply after_transacts; [eapply run_reading; [done|done| |exact Hr]; intros g x p1 ?? _; by apply (run_stat g x _ p1 ms_entries)|].
    intros a s s' [-> Hv]. destruct (Hv _ eq_refl) as (name & ps & st & Hdb & -> & Hn). rewrite Hn.
    exact (in_db_same (start_of p (db_env db) true s) _ Len _ name ps Hdb eq_refl).
  - destruct (db_stat db p) as [o q] eqn:Hr. eapply after_transacts; [eapply run_reading; [done|done| |exact Hr]; intros g x p1 ?? _; by apply (run_stat g x _ p1 stat_of)|].
    intros a s s' [-> Hv]. destruct (Hv _ eq_refl) as (name & ps & st & Hdb & -> & Hn). simpl. rewrite Hn.
    exact (in_db_same (start_of p (db_env db) true s) _ Len _ name ps Hdb eq_refl).
  - destruct (db_put db k v p) as [o q] eqn:Hr. eapply after_transacts; [eapply run_writing; [done|done| |exact Hr]; intros g x p1 ?? _; apply run_put; [done..|by left]|].
    intros [] s s' [Hok _]. destruct (Hok eq_refl) as (name & ps & Hdb & _ & Hs').
    exact (in_db_spec (start_of p (db_env db) false s) _ (Put k v) _ _ name ps _ Hdb eq_refl Hs').
  - by apply put_if_absent_refines.
  - destruct (db_del db k p) as [o q] eqn:Hr. eapply after_transacts; [eapply run_writing; [done|done| |exact Hr]; intros g x p1 ?? _; by apply run_del|].
    by intros a s s' H.
  - destruct (db_clear db p) as [o q] eqn:Hr. eapply after_transacts; [eapply run_writing; [done|done| |exact Hr]; intros g x p1 ?? _; by apply run_clear|].
    by intros [] s s' H.
Qed.

(** A closure of commands, in one transaction. *)
Definition all_on e (l : list (Db * Cmd)) : Prop := Forall (λ dc, env (db_env dc.1) = e.(env)) l.

Lemma cmds_body e l l' m :
  all_on e l → named m l l' →
  body_of m (λ x o s, ∀ rs, o = Ok rs → spec_all l' x.(txn_store) = Some (rs, s)) (λ g, inner_cmds (mkInner g e) l).
Proof. intros Hl Hn g x p1 Hp1 Hx <-. by apply (run_inner_cmds (mkInner g e)). Qed.

Lemma write_refines e l l' p r p' :
  inv p → alive p e → all_on e l → named (handles (V p) e.(env)) l l' →
  env_write e (λ i, inner_cmds i l) p = (r, p') → after p e (λ rs s s', spec_all l' s = Some (rs, s')) r p'.
Proof.
  intros Hp Hal Hl Hn Hr.
  assert (transacts p e false (λ x o s, ∀ rs, o = Ok rs → spec_all l' x.(txn_store) = Some (rs, s)) r p') as Ht.
  { eapply run_writing; [done|done|by apply cmds_body|]. rewrite <- Hr.
    unfold env_write, inner_begin, mbind, St_bind, mret, St_ret. by destruct (txn_begin e false p) as [[] ?]. }
  pose proof (after_transacts p e false _ (λ rs s s', spec_all l' s = Some (rs, s')) id r p' Ht) as H.
  replace (outcome_map id r) with r in H by by destruct r. apply H. intros rs s s' HQ. by apply HQ.
Qed.

(** Commands that only look leave the data as it is. *)
Definition looks (c : Cmd) : Prop := match c with Get _ | Contains _ | Len => True | _ => False end.

Lemma spec_all_looks l s rs s' : Forall (λ nc, looks nc.2) l → spec_all l s = Some (rs, s') → s' = s.
Proof.
  intros Hl. revert rs. induction Hl as [|[n c] l Hc Hl IH]; intros rs; simpl; [by intros [= _ ->]|].
  unfold spec_at. destruct (s !! n) as [ps|] eqn:Hs; [|done]. destruct c; try done; simpl; rewrite insert_id by done;
    destruct (spec_all l s) as [[rs1 s1]|]; try done; intros [= _ <-]; by eapply IH.
Qed.

Lemma read_refines e l l' p r p' :
  inv p → alive p e → all_on e l → named (handles (V p) e.(env)) l l' → Forall (λ nc, looks nc.2) l' →
  env_read e (λ i, inner_cmds i l) p = (r, p') → after p e (λ rs s s', spec_all l' s = Some (rs, s')) r p'.
Proof.
  intros Hp Hal Hl Hn Hlo Hr.
  assert (transacts p e true (λ x o s, ∀ rs, o = Ok rs → spec_all l' x.(txn_store) = Some (rs, s)) r p') as Ht.
  { eapply run_reading; [done|done|by apply cmds_body|]. rewrite <- Hr.
    unfold env_read, inner_begin, mbind, St_bind, mret, St_ret. by destruct (txn_begin e true p) as [[] ?]. }
  pose proof (after_transacts p e true _ (λ rs s s', spec_all l' s = Some (rs, s')) id r p' Ht) as H.
  replace (outcome_map id r) with r in H by by destruct r. apply H. intros rs s s' HQ. specialize (HQ _ eq_refl).
  by rewrite (spec_all_looks _ _ _ _ Hlo HQ) in HQ.
Qed.
End Refine.
