(* ===== verification/MdbScan.v ===== *)
(** Scans and iterators: the pairs they visit, in order, and that they end. *)
From S2P Require Import Prelude MdbError Mdb MdbTxn MdbDb MdbLaws MdbKeeps MdbPool MdbApi MdbRefine.
Local Open Scope Z_scope.

(** ** The order of keys *)
Lemma key_lt_irrefl a : key_lt a a = false.
Proof. induction a as [|x a IH]; simpl; [done|]. by rewrite !Z.ltb_irrefl. Qed.

Lemma key_lt_trans a b c : key_lt a b = true → key_lt b c = true → key_lt a c = true.
Proof.
  revert b c. induction a as [|x a IH]; intros [|y b] [|z c]; simpl; try done.
  destruct (Z.ltb_spec (byte_val x) (byte_val y)), (Z.ltb_spec (byte_val y) (byte_val z)); intros H1 H2; try done.
  - by rewrite (proj2 (Z.ltb_lt _ _)) by lia.
  - destruct (Z.ltb_spec (byte_val z) (byte_val y)); [done|]. by rewrite (proj2 (Z.ltb_lt _ _)) by lia.
  - destruct (Z.ltb_spec (byte_val y) (byte_val x)); [done|]. by rewrite (proj2 (Z.ltb_lt _ _)) by lia.
  - destruct (Z.ltb_spec (byte_val y) (byte_val x)); [done|]. destruct (Z.ltb_spec (byte_val z) (byte_val y)); [done|].
    rewrite !(proj2 (Z.ltb_ge _ _)) by lia. by eapply IH.
Qed.

Lemma key_lt_total a b : key_lt a b = false → key_lt b a = false → a = b.
Proof.
  revert b. induction a as [|x a IH]; intros [|y b]; simpl; try done.
  destruct (Z.ltb_spec (byte_val x) (byte_val y)); [done|]. destruct (Z.ltb_spec (byte_val y) (byte_val x)); [done|].
  intros H1 H2. f_equal; [apply byte_val_inj; lia|by apply IH].
Qed.

Lemma key_le_lt_trans a b c : key_le a b = true → key_lt b c = true → key_le a c = true.
Proof.
  unfold key_le. rewrite !negb_true_iff. intros Hab Hbc. destruct (key_lt c a) eqn:Hca; [|done].
  by rewrite (key_lt_trans _ _ _ Hbc Hca) in Hab.
Qed.

Lemma key_le_nil k : key_le [] k = true.
Proof. by destruct k. Qed.

Lemma key_le_prefix a k : a `prefix_of` k → key_le a k = true.
Proof.
  intros [t ->]. unfold key_le. apply negb_true_iff. induction a as [|x a IH]; simpl; [by destruct t|]. by rewrite !Z.ltb_irrefl.
Qed.

(** Past a prefix, no key has it. *)
Lemma past_prefix a k k' :
  key_le a k = true → ¬ a `prefix_of` k → key_lt k k' = true → ¬ a `prefix_of` k'.
Proof.
  unfold key_le. rewrite negb_true_iff. revert k k'. induction a as [|x a IH]; intros k k' Hle Hn Hlt; [by destruct Hn; apply prefix_nil|].
  destruct k as [|y k]; [done|]. destruct k' as [|z k']; [done|]. intros Hp. simpl in Hle, Hlt.
  pose proof (prefix_cons_inv_1 _ _ _ _ Hp) as <-. apply prefix_cons_inv_2 in Hp.
  destruct (Z.ltb_spec (byte_val y) (byte_val x)); [done|]. destruct (Z.ltb_spec (byte_val x) (byte_val y)); [done|].
  assert (y = x) as -> by (apply byte_val_inj; lia). refine (IH k k' Hle _ Hlt Hp). intros Hk. by apply Hn, prefix_cons.
Qed.

(** ** What a scan visits *)
Definition has_prefix (prefix : option bytes) (kv : Pair) : bool :=
  match prefix with Some a => bool_decide (a `prefix_of` kv.1) | None => true end.

(** The pairs from the start on that have the prefix. *)
Definition visited (start prefix : option bytes) (ps : Pairs) : Pairs :=
  filter (λ kv, key_le (default [] start) kv.1 = true ∧ has_prefix prefix kv = true) ps.

(** What the loop goes through: from the first key at or after the start, up to
    the first without the prefix. *)
Definition from_key (k : bytes) (ps : Pairs) : Pairs :=
  match list_find (λ kv, key_le k kv.1 = true) ps with Some (i, _) => drop i ps | None => [] end.
Fixpoint cut (prefix : option bytes) (ps : Pairs) : Pairs :=
  match ps with
  | [] => []
  | kv :: ps => if has_prefix prefix kv then kv :: cut prefix ps else []
  end.

Lemma from_key_cons k kv ps :
  from_key k (kv :: ps) = if key_le k kv.1 then kv :: ps else from_key k ps.
Proof.
  unfold from_key. simpl. destruct (decide (key_le k kv.1 = true)) as [H|H].
  - by rewrite H.
  - apply not_true_iff_false in H. rewrite H. by destruct (list_find _ ps) as [[i z]|].
Qed.

Lemma from_key_nil ps : from_key [] ps = ps.
Proof. destruct ps as [|kv ps]; [done|]. by rewrite from_key_cons, key_le_nil. Qed.

Lemma sorted_from k kv ps : sorted (kv :: ps) → key_le k kv.1 = true → Forall (λ q, key_le k q.1 = true) ps.
Proof.
  intros H Hk. inversion H as [|k0 v0 ps0 Hf Hs]; subst. eapply Forall_impl; [done|]. simpl. intros q. by apply key_le_lt_trans.
Qed.

Lemma filter_none {A} (P : A → Prop) `{∀ a, Decision (P a)} l : Forall (λ a, ¬ P a) l → filter P l = [].
Proof. induction 1; [done|]. by rewrite filter_cons_False. Qed.

(** From a pair at or after the start. *)
Lemma cut_filter start prefix kv ps :
  prefix = None ∨ prefix = start → sorted (kv :: ps) → key_le (default [] start) kv.1 = true →
  cut prefix (kv :: ps) = visited start prefix (kv :: ps).
Proof.
  intros Hps. revert kv. induction ps as [|kv2 ps IH]; intros kv Hs Hk; unfold visited.
  - simpl. destruct (has_prefix prefix kv) eqn:Hp; [by rewrite filter_cons_True|]. rewrite filter_cons_False; [done|]. intros [_ ?]; congruence.
  - pose proof (sorted_from _ _ _ Hs Hk) as Hall. destruct (has_prefix prefix kv) eqn:Hp.
    + rewrite filter_cons_True by done. simpl. rewrite Hp. f_equal. apply IH; [by inversion Hs|]. by apply Forall_cons in Hall as [? _].
    + change (cut prefix (kv :: kv2 :: ps)) with (if has_prefix prefix kv then kv :: cut prefix (kv2 :: ps) else []). rewrite Hp.
      rewrite filter_cons_False by (intros [_ ?]; congruence). symmetry. apply filter_none.
      destruct Hps as [-> | ->]; [done|]. destruct start as [a|]; [|done]. simpl in *. apply bool_decide_eq_false in Hp.
      inversion Hs as [|k0 v0 ps0 Hf _]; subst. eapply Forall_impl; [exact Hf|]. simpl. intros q Hq [_ H].
      apply bool_decide_eq_true in H. by eapply past_prefix.
Qed.

Lemma cut_visited start prefix ps :
  prefix = None ∨ prefix = start → sorted ps → cut prefix (from_key (default [] start) ps) = visited start prefix ps.
Proof.
  intros Hps. induction ps as [|kv ps IH]; intros Hs; [done|]. rewrite from_key_cons.
  destruct (key_le (default [] start) kv.1) eqn:Hk; [by apply cut_filter|].
  unfold visited. rewrite filter_cons_False by (intros [? _]; congruence). apply IH. by inversion Hs.
Qed.

Section Scan.
Context {W M : Type} {lib : Lmdb W} {laws : LmdbLaws W}.
Implicit Types (p : Proc W M) (x : Txn) (t : Z).
Abbreviation App := (St (Proc W M) MdbError).
Abbreviation Callback := (St (Proc W M) Empty_set).
Abbreviation V p := (view p.(lmdb)).

(** ** Where a walk is

    The cursor is among [ps], and the step the walk takes next leads to the
    first of [rest]. *)
Definition leads (o : option nat) (ps rest : Pairs) : Prop :=
  rest = match o with Some i => drop i ps | None => [] end.

Definition walks p (c : Z) (b : bool) (start : option bytes) (ps rest : Pairs) : Prop :=
  ∃ y x name o, (V p).(cursors) !! c = Some y ∧ (V p).(txns) !! y.(cur_txn) = Some x ∧
    db_of x y.(cur_dbi) = Some (name, ps) ∧
    landing (walk_op b start).1 (default [] (walk_op b start).2) ps y.(cur_at) = Some o ∧ leads o ps rest.

(** It depends on the world alone. *)
Lemma walks_lmdb p q c b start ps rest : q.(lmdb) = p.(lmdb) → walks p c b start ps rest → walks q c b start ps rest.
Proof. intros H. unfold walks. by rewrite H. Qed.

Lemma walks_fresh p c t x dbi name ps start :
  (V p).(cursors) !! c = Some (mkCur t dbi Fresh) → (V p).(txns) !! t = Some x → db_of x dbi = Some (name, ps) →
  walks p c false start ps (from_key (default [] start) ps).
Proof.
  intros Hc Hx Hdb. exists (mkCur t dbi Fresh), x, name. simpl.
  destruct start as [[|z k]|]; simpl.
  - eexists. split; [done|]. do 2 (split; [done|]). split; [done|]. rewrite from_key_nil. unfold leads. by destruct ps.
  - eexists. split; [done|]. do 2 (split; [done|]). split; [done|]. unfold leads, from_key. by destruct (list_find _ ps) as [[]|].
  - eexists. split; [done|]. do 2 (split; [done|]). split; [done|]. rewrite from_key_nil. unfold leads. by destruct ps.
Qed.

Lemma run_walk p c b start prefix ps rest o p' :
  inv p → walks p c.(cursor) b start ps rest → walk c b start prefix p = (o, p') →
  inv p' ∧ p'.(memory) = p.(memory) ∧
  match o with
  | Ok (Some kv) => ∃ rest', rest = kv :: rest' ∧ has_prefix prefix kv = true ∧ walks p' c.(cursor) true start ps rest'
  | Ok None => cut prefix rest = []
  | Err _ => True
  | Stop _ => False
  end.
Proof.
  intros Hp (y & x & name & l & Hy & Hx & Hdb & Hl & Hrest). unfold walk.
  destruct (walk_op b start) as [op from] eqn:Hop. simpl in Hl. unfold cursor_step, call, mbind, St_bind, mret, St_ret, lift, fail.
  replace (match from with Some key => val_of key | None => empty_val end) with (from_option val_of empty_val from) by by destruct from.
  destruct (mdb_cursor_get _ _ _ _) as [[rc [k d]] w] eqn:Hc.
  destruct (cursor_get_law _ _ _ _ _ _ _ _ _ _ Hc (inv_sound p Hp) Hy Hx) as [Hw Hv].
  destruct (Z.eqb_spec rc MDB_SUCCESS) as [->|H1].
  - destruct Hv as (name' & ps' & i & kv & Hdb' & Hi & Hk & Hd & Hland & Hv). rewrite Hdb in Hdb'. simplify_eq.
    specialize (Hland _ Hl) as ->. unfold leads in Hrest. rewrite (drop_S _ _ _ Hi) in Hrest.
    rewrite (as_slice_val _ _ Hk), (as_slice_val _ _ Hd). cbn [fst snd].
    assert (inv (set_lmdb w p)) as Hp' by (eapply keep_cursor; try done).
    assert (walks (set_lmdb w p) (cursor c) true start ps' (drop (S i) ps')) as Hwalk.
    { exists (with_place y (At i)), x, name'. simpl. eexists. rewrite Hv. simpl. rewrite lookup_insert_eq. do 3 (split; [done|]).
      split; [done|]. unfold leads. case_decide; [done|]. by rewrite drop_ge by lia. }
    destruct kv as [k' v']. cbn [fst snd] in *. subst rest.
    destruct prefix as [a|]; simpl; [destruct (bool_decide (a `prefix_of` k')) eqn:Ha; simpl|]; intros ?; simplify_eq;
      (split; [done|]; split; [done|]); [|done|]; eexists; split_and!; try done; unfold has_prefix; simpl; by rewrite ?Ha.
  - destruct Hv as [Hnot Hv]. assert (inv (set_lmdb w p)) as Hp' by (eapply keep_cursor; try done).
    destruct (Z.eqb_spec rc MDB_NOTFOUND) as [->|H2]; intros ?; simplify_eq; [|done]. split; [done|]. split; [done|].
    destruct (Hnot eq_refl) as (name' & ps' & Hdb' & Hnone). rewrite Hdb in Hdb'. simplify_eq. specialize (Hnone _ Hl) as ->. by rewrite Hrest.
Qed.

(** ** The loop of a scan *)

(** A closure that computes on its memory, over pairs, up to its [Break]. *)
Fixpoint fold_pairs {B} (g : bytes → bytes → M → ControlFlow B * M) (l : Pairs) (mem : M) : option B * M :=
  match l with
  | [] => (None, mem)
  | (k, v) :: l =>
      match g k v mem with
      | (Break b, mem) => (Some b, mem)
      | (Continue, mem) => fold_pairs g l mem
      end
  end.

Lemma run_scan_loop {B} fuel (g : bytes → bytes → M → ControlFlow B * M) p c b start prefix ps rest o p' :
  inv p → walks p c.(cursor) b start ps rest → (length rest < fuel)%nat →
  scan_loop fuel c b start prefix (λ k v, on_memory (g k v)) p = (o, p') →
  match o with
  | Ok r => (r, p'.(memory)) = fold_pairs g (cut prefix rest) p.(memory)
  | Err _ => ∃ seen, seen `prefix_of` cut prefix rest ∧ (None, p'.(memory)) = fold_pairs g seen p.(memory)
  | Stop _ => False
  end.
Proof.
  revert p b rest. induction fuel as [|fuel IH]; intros p b rest Hp Hw Hf; [lia|]. simpl.
  unfold mbind, St_bind, mret, St_ret. destruct (walk c b start prefix p) as [r1 p1] eqn:Hr.
  destruct (run_walk _ _ _ _ _ _ _ _ _ Hp Hw Hr) as (Hp1 & HM1 & H1). destruct r1 as [[[k v]|]|err|z]; [| | |done].
  - destruct H1 as (rest' & -> & Hpre & Hw1). simpl. rewrite Hpre. simpl in *. unfold run_callback, on_memory.
    rewrite HM1. destruct (g k v (memory p)) as [[|r] mem] eqn:Hg; simpl.
    + intros Hloop. apply (IH _ _ rest') in Hloop; [|by destruct Hp1; split|done|simpl in Hf; lia].
      destruct o as [r|e|z]; [done| |done].
      destruct Hloop as (seen & Hseen & Hfold). exists ((k, v) :: seen). split; [by apply prefix_cons|]. simpl. by rewrite Hg.
    + by intros ?; simplify_eq.
  - intros ?; simplify_eq. rewrite H1. simpl. by rewrite HM1.
  - intros ?; simplify_eq. exists []. split; [apply prefix_nil|]. simpl. by rewrite HM1.
Qed.

(** ** Whole scans *)
Lemma drop_memory b g p : (txn_drop b g p).2.(memory) = p.(memory).
Proof.
  unfold txn_drop, release, mbind, St_bind, call_, modify, mret, St_ret. by destruct b; simpl; destruct (rposition _ _).
Qed.

(** The pairs of the database that a handle stands for, as of a transaction
    that begins after [p]. *)
Definition pairs_at p (db : Db) (ps : Pairs) : Prop :=
  ∃ s name, others db.(db_env).(key) (data (V p) db.(db_env).(key)) s ∧
    handles (V p) db.(db_env).(env) !! db.(db_dbi) = Some name ∧ s !! name = Some ps ∧ sorted ps.

(** A read transaction with a cursor in it, before its first step. *)
Lemma run_open_cursor p db g p1 r p2 start :
  inv p → alive p db.(db_env) → txn_begin db.(db_env) true p = (Ok g, p1) → cursor_open g db.(db_dbi) p1 = (r, p2) →
  inv p2 ∧ p2.(memory) = p.(memory) ∧
  ((∃ err, r = Err err) ∨
   ∃ c ps, r = Ok c ∧ pairs_at p db ps ∧ walks p2 c.(cursor) false start ps (from_key (default [] start) ps)).
Proof.
  intros Hp Hal Hb Hc.
  destruct (run_begin p _ _ _ _ Hp Hal Hb) as (Hp1 & HP & HM & [(? & _)|[(_ & _ & [? ?])|(_ & t & s & ? & Ht & Hcur & Hs & HV)]]); [done..|].
  simplify_eq. assert ((V p1).(txns) !! t = Some (mkTxn (env (db_env db)) true s (handles (V p) (env (db_env db))))) as Hx
    by (rewrite HV; simpl; by rewrite lookup_insert_eq).
  destruct (run_cursor_open p1 (mkGuard t (env (db_env db))) _ _ _ _ Hp1 Hx Hc) as (Hp2 & _ & _ & HM2 & [[[err ->] _]|(c & -> & Hn & [[name ps] Hdb] & HV2)]).
  { split; [done|]. split; [congruence|]. left. by eexists. }
  split; [done|]. split; [congruence|]. right. exists (mkCursor c), ps. split; [done|].
  pose proof (db_of_some _ _ _ _ Hdb) as [Hname Hps]. simpl in Hname, Hps. split.
  - exists s, name. split_and!; try done. exact (sorted_law _ t _ name ps (inv_sound p1 Hp1) Hx Hps).
  - eapply (walks_fresh p2 c t); [rewrite HV2; simpl; by rewrite lookup_insert_eq|rewrite HV2; exact Hx|exact Hdb].
Qed.

Lemma from_key_length k ps : (length (from_key k ps) ≤ length ps)%nat.
Proof. unfold from_key. destruct (list_find _ ps) as [[i ?]|]; [rewrite length_drop|simpl]; lia. Qed.

#[local] Opaque txn_drop cursor_drop env_drop.

Lemma run_scan {B} fuel (g : bytes → bytes → M → ControlFlow B * M) db start prefix p r p' :
  inv p → alive p db.(db_env) → prefix = None ∨ prefix = start →
  (∀ ps, pairs_at p db ps → (length ps < fuel)%nat) →
  scan_impl fuel db start prefix (λ k v, on_memory (g k v)) p = (r, p') →
  match r with
  | Ok o => ∃ ps, pairs_at p db ps ∧ (o, p'.(memory)) = fold_pairs g (visited start prefix ps) p.(memory)
  | Err _ => ∃ seen, (None, p'.(memory)) = fold_pairs g seen p.(memory) ∧
      (seen = [] ∨ ∃ ps, pairs_at p db ps ∧ seen `prefix_of` visited start prefix ps)
  | Stop _ => False
  end.
Proof.
  intros Hp Hal Hpre Hfuel. unfold scan_impl, reading, mbind, St_bind, dropping.
  destruct (txn_begin (db_env db) true p) as [[g0|err|z] p1] eqn:Hb.
  2: { destruct (run_begin _ _ _ _ _ Hp Hal Hb) as (_ & _ & HM & _). intros ?; simplify_eq. exists []. rewrite HM. auto. }
  2: { destruct (run_begin _ _ _ _ _ Hp Hal Hb) as (_ & _ & _ & [(? & _)|[(_ & _ & [? ?])|(_ & ? & ? & ? & _)]]); done. }
  destruct (cursor_open g0 (db_dbi db) p1) as [r2 p2] eqn:Hc.
  destruct (run_open_cursor p db g0 p1 r2 p2 start Hp Hal Hb Hc) as (Hp2 & HM2 & [[err ->]|(c & ps & -> & Hps & Hw)]).
  { intros ?; simplify_eq. exists []. rewrite drop_memory, HM2. auto. }
  destruct (scan_loop fuel c false start prefix _ p2) as [r3 p3] eqn:Hl.
  pose proof (run_scan_loop fuel g p2 c false start prefix ps _ _ _ Hp2 Hw
    (Nat.le_lt_trans _ _ _ (from_key_length _ _) (Hfuel ps Hps)) Hl) as Hloop.
  assert (sorted ps) as Hsort by by destruct Hps as (? & ? & _ & _ & _ & ?).
  rewrite (cut_visited start prefix ps Hpre Hsort), HM2 in Hloop. intros ?; simplify_eq. rewrite drop_memory.
  assert ((cursor_drop c p3).2.(memory) = p3.(memory)) as -> by done.
  destruct r as [o|err|z]; [by exists ps| |done]. destruct Hloop as (seen & Hseen & Hf). exists seen. split; [done|]. right. by exists ps.
Qed.

(** ** Iterators *)

(** A [for] loop over an iterator that collects the pairs, up to an error. *)
Fixpoint drain (fuel : nat) (it : Iter) : App Pairs :=
  match fuel with
  | O => halt OutOfFuel
  | S fuel =>
      '(o, it) ← run_callback (iter_next it);
      match o with
      | None => mret []
      | Some (Ok kv) => l ← drain fuel it; mret (kv :: l)
      | Some (Err e) => fail e
      | Some (Stop z) => halt z
      end
  end.

Lemma run_drain fuel it p ps rest o p' :
  inv p → it.(done) = false → walks p it.(iter_cursor).(cursor) it.(started) it.(iter_start) ps rest → (length rest < fuel)%nat →
  drain fuel it p = (o, p') →
  match o with Ok l => l = cut it.(iter_prefix_of) rest | Err _ => True | Stop _ => False end.
Proof.
  revert it p rest o p'. induction fuel as [|fuel IH]; intros it p rest o p' Hp Hd Hw Hf; [lia|]. simpl.
  unfold iter_next, run_callback, attempt, iter_step. rewrite Hd. unfold mbind, St_bind, mret, St_ret, halt, fail.
  destruct (walk _ _ _ _ p) as [r1 p1] eqn:Hr.
  destruct (run_walk _ _ _ _ _ _ _ _ _ Hp Hw Hr) as (Hp1 & _ & H1). destruct r1 as [[kv|]|err|z]; simpl; [| | |done].
  - destruct H1 as (rest' & -> & Hpre & Hw1). simpl. rewrite Hpre. simpl in Hf.
    destruct (drain fuel (set_flags it true false) p1) as [o2 p2] eqn:Hdr.
    pose proof (IH (set_flags it true false) p1 rest' o2 p2 Hp1 eq_refl Hw1 ltac:(lia) Hdr) as IHd.
    destruct o2; intros ?; simplify_eq/=; done.
  - intros ?; simplify_eq. by rewrite H1.
  - by intros ?; simplify_eq.
Qed.

(** An iterator gives the pairs a scan visits. *)
Lemma run_iter fuel db start prefix p r p' :
  inv p → alive p db.(db_env) → prefix = None ∨ prefix = start →
  (∀ ps, pairs_at p db ps → (length ps < fuel)%nat) →
  with_iter db start prefix (drain fuel) p = (r, p') →
  match r with Ok l => ∃ ps, pairs_at p db ps ∧ l = visited start prefix ps | Err _ => True | Stop _ => False end.
Proof.
  intros Hp Hal Hpre Hfuel. destruct (run_clone p _ Hp Hal) as (p0 & Hcl & Ho & HV).
  assert (∀ ps, pairs_at p0 db ps ↔ pairs_at p db ps) as Hpa by (intros ps; unfold pairs_at; by rewrite HV).
  pose proof (own_inv _ _ _ Ho) as Hp0. pose proof (own_alive _ _ _ Ho) as Hal0.
  unfold with_iter, db_clone, iter_new, mbind, St_bind, mret, St_ret. rewrite Hcl. unfold or_drop, dropping. simpl.
  destruct (txn_begin (db_env db) true p0) as [[g0|err|z] p1] eqn:Hb; [|by intros ?; simplify_eq|].
  2: { destruct (run_begin _ _ _ _ _ Hp0 Hal0 Hb) as (_ & _ & _ & [(? & _)|[(_ & _ & [? ?])|(_ & ? & ? & ? & _)]]); done. }
  destruct (cursor_open g0 (db_dbi db) p1) as [r2 p2] eqn:Hc.
  destruct (run_open_cursor p0 db g0 p1 r2 p2 start Hp0 Hal0 Hb Hc) as (Hp2 & _ & [[err ->]|(c & ps & -> & Hps & Hw)]).
  { by intros ?; simplify_eq. }
  destruct (drain fuel _ p2) as [r3 p3] eqn:Hd. intros ?; simplify_eq.
  assert (sorted ps) as Hsort by by destruct Hps as (? & ? & _ & _ & _ & ?). apply Hpa in Hps.
  apply (run_drain _ _ p2 ps (from_key (default [] start) ps)) in Hd; [|done|done|done|].
  - destruct r; [|done|done]. exists ps. split; [done|]. rewrite Hd. simpl. by apply cut_visited.
  - exact (Nat.le_lt_trans _ _ _ (from_key_length _ _) (Hfuel ps Hps)).
Qed.

(** An iterator that is done stays done, and calls nothing. *)
Lemma iter_fused it p : it.(done) = true → iter_next it p = (Ok (None, it), p).
Proof. intros H. unfold iter_next. by rewrite H. Qed.
End Scan.

(** A process over time: environments and databases opened, cloned and dropped in any order,
    with programs run in between, as a step relation on the process and the
    handles it holds. *)

Section Handles.
Context {W M : Type} {lib : Lmdb W} {laws : LmdbLaws W}.
Implicit Types (p : Proc W M) (h : Env) (hs : list Env).
Abbreviation App := (St (Proc W M) MdbError).
Abbreviation V p := (view p.(lmdb)).

Inductive process_step : Proc W M * list Env → Proc W M * list Env → Prop :=
| step_open p hs path opts h p' : open_with path opts p = (Ok h, p') → process_step (p, hs) (p', h :: hs)
| step_open_failed p hs path opts err p' : open_with path opts p = (Err err, p') → process_step (p, hs) (p', hs)
| step_clone p hs h h' p' : h ∈ hs → env_clone h p = (Ok h', p') → process_step (p, hs) (p', h' :: hs)
| step_open_dbi p hs h name create db p' :
    h ∈ hs → open_dbi h name create p = (Ok db, p') → process_step (p, hs) (p', db.(db_env) :: hs)
| step_open_dbi_failed p hs h name create err p' :
    h ∈ hs → open_dbi h name create p = (Err err, p') → process_step (p, hs) (p', hs)
| step_drop p hs h hs' r p' : hs ≡ₚ h :: hs' → env_drop h p = (r, p') → process_step (p, hs) (p', hs')
| step_run p hs A (m : App A) r p' : api (mkBorrows hs [] []) m → m p = (r, p') → process_step (p, hs) (p', hs).

(** The handles at a path. *)
Definition shares (k : bytes) hs : Z := len (filter (λ h, h.(key) = k) hs).

(** A process before its first call: nothing is open and nothing pooled. *)
Definition starts p : Prop :=
  sound p.(lmdb) ∧ p.(ACTIVE) = [] ∧ p.(env_pool) = ∅ ∧ (V p).(envs) = ∅ ∧ (V p).(txns) = ∅ ∧ (V p).(cursors) = ∅.

(** The handles are counted. *)
Record counted p hs : Prop := mkCounted {
  counted_inv : inv p;
  counted_idle : (V p).(txns) = ∅;
  counted_share k : from_option refcnt 0 (p.(env_pool) !! k) = shares k hs;
  counted_alive h : h ∈ hs → alive p h
}.

Lemma shares_cons k h hs : shares k (h :: hs) = (if decide (h.(key) = k) then 1 else 0) + shares k hs.
Proof.
  unfold shares. destruct (decide (key h = k)); [rewrite filter_cons_True by done|rewrite filter_cons_False by done]; simpl; lia.
Qed.

Lemma shares_nonneg k hs : 0 ≤ shares k hs.
Proof. unfold shares. lia. Qed.

Lemma shares_perm k hs hs' : hs ≡ₚ hs' → shares k hs = shares k hs'.
Proof. intros H. unfold shares. by rewrite H. Qed.

Lemma shares_in h hs : h ∈ hs → 0 < shares h.(key) hs.
Proof.
  intros Hin.
  apply list_elem_of_split in Hin as (l1 & l2 & ->). rewrite (shares_perm _ _ (h :: l1 ++ l2)) by (symmetry; apply Permutation_middle).
  rewrite shares_cons, decide_True by done. pose proof (shares_nonneg (key h) (l1 ++ l2)). lia.
Qed.

Lemma starts_counted p : starts p → counted p [].
Proof.
  intros (Hs & HA & HP & HE & HT & HC). split; [|done| |by intros ? ?%not_elem_of_nil].
  - split; rewrite ?HA, ?HP, ?HE, ?HT, ?HC; try done; apply NoDup_nil_2.
  - intros k. by rewrite HP.
Qed.

Lemma frame_idle p p' : frame p p' → (V p).(txns) = ∅ → (V p').(txns) = ∅.
Proof.
  intros F H. apply map_eq. intros t. pose proof (frame_txns _ _ F t) as Ht. rewrite H, lookup_empty in *.
  by destruct (txns (V p') !! t).
Qed.

Lemma frame_counted p p' hs : frame p p' → inv p' → counted p hs → counted p' hs.
Proof.
  intros F Hp' [Hp Hi Hc Ha]. split; [done|by eapply frame_idle| |].
  - intros k. rewrite <- Hc. destruct (frame_pool _ _ F k) as [-> | [-> ->]]; done.
  - intros h Hh. apply (stable_frame _ _ _ (stable_alive h) F). by apply Ha.
Qed.

Lemma owned_counted p p1 h hs : owned p p1 h → counted p hs → counted p1 (h :: hs).
Proof.
  intros Ho [Hp Hi Hc Ha]. split.
  - apply (own_inv _ _ _ Ho).
  - by rewrite (own_txns _ _ _ Ho).
  - intros k. rewrite shares_cons, <- Hc. destruct (decide (key h = k)) as [<-|Hne].
    + destruct (own_count _ _ _ Ho) as [(s & Hs & _ & _ & ->)|([Hv|Hv] & -> & _)]; rewrite ?Hs, ?Hv; simpl; lia.
    + by rewrite (own_rest _ _ _ Ho).
  - intros h' [->|Hh']%elem_of_cons; [apply (own_alive _ _ _ Ho)|]. apply (stable_alive h' _ _ (own_extends _ _ _ Ho)). by apply Ha.
Qed.

(** A drop does not panic; it closes the environment if no handle is left. *)
Lemma drop_counted p h hs hs' :
  counted p hs → hs ≡ₚ h :: hs' → ∃ p', env_drop h p = (Ok tt, p') ∧ counted p' hs'.
Proof.
  intros [Hp Hi Hc Ha] Hperm. assert (alive p h) as Hal by (apply Ha; rewrite Hperm; apply elem_of_cons; by left).
  assert (∀ k, shares k hs = (if decide (h.(key) = k) then 1 else 0) + shares k hs') as Hsh
    by (intros k; by rewrite (shares_perm _ _ _ Hperm), shares_cons).
  assert (∀ h', h' ∈ hs' → alive p h') as Ha' by (intros h' Hh'; apply Ha; rewrite Hperm; apply elem_of_cons; by right).
  destruct Hal as (Hn & s & Hs & Hse). pose proof (Hc (key h)) as Hk. rewrite Hsh, Hs, decide_True in Hk by done. simpl in Hk.
  pose proof (shares_nonneg (key h) hs') as Hnn. destruct (decide (refcnt s = 1)) as [H1|H1].
  - destruct (run_close p h Hp) as (p' & Hd & Hp' & HP & HV);
      [by split; [|exists s]|rewrite Hs; destruct s; simpl in *; congruence|intros t x; by rewrite Hi|].
    exists p'. split; [done|]. split; [done|by rewrite HV| |].
    + intros k. rewrite HP. destruct (decide (key h = k)) as [<-|Hne]; [rewrite lookup_insert_eq; simpl; lia|].
      rewrite lookup_insert_ne by done. rewrite Hc, Hsh, decide_False by done. lia.
    + intros h' Hh'. destruct (Ha' h' Hh') as (Hn' & s' & Hs' & Hse'). split; [done|]. exists s'. rewrite HP.
      rewrite lookup_insert_ne; [done|]. intros Heq. pose proof (shares_in h' hs' Hh') as Hin. rewrite <- Heq in Hin. lia.
  - unfold env_drop, own_slot, put_slot, mbind, St_bind, mret, St_ret, get, modify. rewrite Hs.
    rewrite (proj2 (Z.leb_gt _ _)) by lia. rewrite (proj2 (Z.eqb_neq (refcnt s - 1) 0)) by lia. simpl.
    eexists. split; [done|]. split; simpl; [apply inv_count; [done|done|congruence|lia]|done| |].
    + intros k. destruct (decide (key h = k)) as [<-|Hne]; [rewrite lookup_insert_eq; simpl; lia|].
      rewrite lookup_insert_ne by done. rewrite Hc, Hsh, decide_False by done. lia.
    + intros h' Hh'. destruct (Ha' h' Hh') as (Hn' & s' & Hs' & Hse'). split; [done|]. simpl.
      destruct (decide (key h = key h')) as [Heq|Hne]; [|exists s'; by rewrite lookup_insert_ne].
      rewrite <- Heq in Hs' |- *. rewrite lookup_insert_eq. eexists. split; [done|]. simpl. congruence.
Qed.

Lemma process_step_counted a b : process_step a b → counted a.1 a.2 → counted b.1 b.2.
Proof.
  intros [p hs path opts h p' Ho|p hs path opts err p' Ho|p hs h h' p' Hh Hc|p hs h n cr db p' Hh Ho|p hs h n cr err p' Hh Ho|p hs h hs' r p' Hperm Hd|p hs A m r p' Hm Hr] H; simpl in *.
  - destruct (acquires_open (λ _, True) path opts ltac:(done) p _ _ (counted_inv _ _ H) I Ho) as (p0 & Hp0 & F & Hown).
    eapply owned_counted; [done|]. by eapply frame_counted.
  - destruct (acquires_open (λ _, True) path opts ltac:(done) p _ _ (counted_inv _ _ H) I Ho) as [Hp' F]. by eapply frame_counted.
  - destruct (run_clone p h (counted_inv _ _ H) (counted_alive _ _ H h Hh)) as (p1 & H1 & Hown & _).
    rewrite H1 in Hc. simplify_eq. by eapply owned_counted.
  - destruct (acquires_open_dbi h n cr p _ _ (counted_inv _ _ H) (counted_alive _ _ H h Hh) Ho) as (p0 & Hp0 & F & Hown).
    eapply owned_counted; [done|]. by eapply frame_counted.
  - destruct (acquires_open_dbi h n cr p _ _ (counted_inv _ _ H) (counted_alive _ _ H h Hh) Ho) as [Hp' F]. by eapply frame_counted.
  - destruct (drop_counted _ _ _ _ H Hperm) as (p1 & H1 & Hc). rewrite H1 in Hd. by simplify_eq.
  - destruct (api_keeps _ _ Hm p r p' (counted_inv _ _ H)) as [Hp' F]; [|done|by eapply frame_counted].
    split; [apply (counted_alive _ _ H)|]. split; intros ? []%not_elem_of_nil.
Qed.

Lemma process_counted p0 p hs : starts p0 → rtc process_step (p0, []) (p, hs) → counted p hs.
Proof.
  intros H0%starts_counted Hr. assert (∀ a b, rtc process_step a b → counted a.1 a.2 → counted b.1 b.2) as Hind.
  { induction 1; [done|]. eauto using process_step_counted. }
  exact (Hind _ _ Hr H0).
Qed.

(** The thread's list follows the transactions. *)
Lemma frame_active p p' : inv p → inv p' → frame p p' → p'.(ACTIVE) ≡ₚ p.(ACTIVE).
Proof.
  intros Hp Hp' F. rewrite (inv_active p Hp), (inv_active p' Hp').
  assert (txn_env <$> (V p').(txns) = txn_env <$> (V p).(txns)) as Heq.
  { apply map_eq. intros t. rewrite !lookup_fmap. pose proof (frame_txns _ _ F t) as Ht.
    destruct (txns (V p') !! t), (txns (V p) !! t); simpl in *; simplify_eq; simpl; congruence. }
  assert (∀ m : gmap Z Txn, txn_env ∘ snd <$> map_to_list m = (map_to_list (txn_env <$> m)).*2) as Hm.
  { intros m. rewrite map_to_list_fmap, <- list_fmap_compose. apply list_fmap_ext. by intros i [t x] _. }
  by rewrite !Hm, Heq.
Qed.

(** An environment is open exactly where it has a handle. *)
Lemma counted_open p hs e k : counted p hs → opened (V p) e k ↔ ∃ h, h ∈ hs ∧ h.(key) = k ∧ h.(env) = e.
Proof.
  intros [Hp Hi Hc Ha]. split.
  - intros Ho. destruct (inv_env p Hp _ _ Ho) as (Hn & k' & s & ? & Hs & Hse). simplify_eq.
    assert (0 < refcnt s) as H0 by (destruct (inv_slot p Hp _ _ Hs) as [->|[? _]]; [by destruct Hn|done]).
    specialize (Hc k'). rewrite Hs in Hc. simpl in Hc. unfold shares in Hc.
    destruct (filter (λ h, key h = k') hs) as [|h l] eqn:Hf; [simpl in Hc; lia|].
    assert (h ∈ filter (λ h, key h = k') hs) as Hin by (rewrite Hf; apply elem_of_cons; by left).
    apply list_elem_of_filter in Hin as [Hk Hin]. exists h. split; [done|]. split; [done|].
    destruct (Ha h Hin) as (_ & s' & Hs' & Hse'). rewrite Hk in Hs'. simplify_eq. done.
  - intros (h & Hin & <- & <-). by apply alive_open, Ha.
Qed.
End Handles.
