(* ===== verification/MdbModel.v ===== *)
(** A model of [liblmdb] in memory, which runs, and the proof that it obeys
    [LmdbLaws].  Handles are numbers that are not used again; a key has 1 to 511
    bytes. *)
From S2P Require Import Prelude MdbError Mdb MdbTxn MdbDb MdbLaws MdbRefine MdbScan.
Local Open Scope Z_scope.

Record Model : Type := mkModel { content : View; next_id : Z }.

Definition EACCES : Z := 13.

Definition set_content (v : View) (w : Model) : Model := mkModel v w.(next_id).
(** Take a new number. *)
Definition take_id (v : View) (w : Model) : Model := mkModel v (w.(next_id) + 1).

Definition model_txn_update (t : Z) (w : Model) (f : Txn → Z * option Txn) : Z * Model :=
  match w.(content).(txns) !! t with
  | None => (EINVAL, w)
  | Some x =>
      match f x with
      | (rc, Some x') => (rc, set_content (set_txn t x' w.(content)) w)
      | (rc, None) => (rc, w)
      end
  end.

Definition key_of (v : MDB_val) : bytes := default [] v.(mv_data).
Definition bad_key (k : bytes) : bool := (len k =? 0) || (511 <? len k).

Definition model_begin (e flags : Z) (w : Model) : (Z * Z) * Model :=
  let v := w.(content) in
  match v.(envs) !! e with
  | Some (Some path) =>
      ((MDB_SUCCESS, w.(next_id)), take_id (begun v e path (flags =? MDB_RDONLY) (data v path) w.(next_id)) w)
  | _ => ((EINVAL, 0), w)
  end.

Definition model_commit (t : Z) (w : Model) : Z * Model :=
  let v := w.(content) in
  match v.(txns) !! t with
  | Some x =>
      match v.(envs) !! x.(txn_env) with
      | Some (Some path) => (MDB_SUCCESS, set_content (committed v path t x) w)
      | _ => (EINVAL, set_content (end_txn t v) w)
      end
  | None => (EINVAL, w)
  end.

Definition model_get (t dbi : Z) (k : MDB_val) (w : Model) : (Z * MDB_val) * Model :=
  match w.(content).(txns) !! t ≫= λ x, db_of x dbi with
  | None => ((EINVAL, empty_val), w)
  | Some (_, ps) =>
      if bad_key (key_of k) then ((MDB_BAD_VALSIZE, empty_val), w)
      else match find (key_of k) ps with
           | Some b => ((MDB_SUCCESS, val_of b), w)
           | None => ((MDB_NOTFOUND, empty_val), w)
           end
  end.

Definition model_put (t dbi : Z) (k d : MDB_val) (flags : Z) (w : Model) : Z * Model :=
  model_txn_update t w (λ x,
    if x.(txn_ro) then (EACCES, None)
    else match db_of x dbi with
         | None => (EINVAL, None)
         | Some (name, ps) =>
             if bad_key (key_of k) then (MDB_BAD_VALSIZE, None)
             else if putable flags (key_of k) ps
                  then (MDB_SUCCESS, Some (set_db x name (store (key_of k) (key_of d) ps)))
                  else (MDB_KEYEXIST, None)
         end).

Definition model_del (t dbi : Z) (k : MDB_val) (w : Model) : Z * Model :=
  model_txn_update t w (λ x,
    if x.(txn_ro) then (EACCES, None)
    else match db_of x dbi with
         | None => (EINVAL, None)
         | Some (name, ps) =>
             if bad_key (key_of k) then (MDB_BAD_VALSIZE, None)
             else match find (key_of k) ps with
                  | Some _ => (MDB_SUCCESS, Some (set_db x name (remove (key_of k) ps)))
                  | None => (MDB_NOTFOUND, None)
                  end
         end).

(** Emptying the main database drops the others. *)
Definition model_drop (t dbi _del : Z) (w : Model) : Z * Model :=
  model_txn_update t w (λ x,
    if x.(txn_ro) then (EACCES, None)
    else match db_of x dbi with
         | None => (EINVAL, None)
         | Some (None, _) => (MDB_SUCCESS, Some (with_store x {[None := []]}))
         | Some (name, _) => (MDB_SUCCESS, Some (set_db x name []))
         end).

Definition model_stat (t dbi : Z) (w : Model) : (Z * MDB_stat) * Model :=
  match w.(content).(txns) !! t ≫= λ x, db_of x dbi with
  | None => ((EINVAL, mkMDB_stat 0 0 0 0 0 0), w)
  | Some (_, ps) => ((MDB_SUCCESS, mkMDB_stat 4096 (if decide (ps = []) then 0 else 1) 0 (len ps) 0 (len ps)), w)
  end.

(** A database that is created is empty, with a record of it in the main one. *)
Definition created (name : option bytes) (s : Store) : Store :=
  match name, s !! None with
  | Some n, Some ps => <[name := []]> (<[None := store n [x00] ps]> s)
  | _, _ => <[name := []]> s
  end.

Definition model_dbi_open (t : Z) (name : option bytes) (flags : Z) (w : Model) : (Z * Z) * Model :=
  match w.(content).(txns) !! t with
  | None => ((EINVAL, 0), w)
  | Some x =>
      let add s := take_id (set_txn t (mkTxn x.(txn_env) x.(txn_ro) s (<[w.(next_id) := name]> x.(txn_dbis))) w.(content)) w in
      match x.(txn_store) !! name with
      | Some _ => ((MDB_SUCCESS, w.(next_id)), add x.(txn_store))
      | None =>
          if negb (flags =? MDB_CREATE) then ((MDB_NOTFOUND, 0), w)
          else if x.(txn_ro) then ((EACCES, 0), w)
          else ((MDB_SUCCESS, w.(next_id)), add (created name x.(txn_store)))
      end
  end.

Definition model_cursor_open (t dbi : Z) (w : Model) : (Z * Z) * Model :=
  match w.(content).(txns) !! t ≫= λ x, db_of x dbi with
  | None => ((EINVAL, 0), w)
  | Some _ => ((MDB_SUCCESS, w.(next_id)), take_id (set_cursor w.(next_id) (mkCur t dbi Fresh) w.(content)) w)
  end.

Definition model_cursor_get (c : Z) (k : MDB_val) (op : Z) (w : Model) : (Z * (MDB_val * MDB_val)) * Model :=
  match w.(content).(cursors) !! c with
  | None => ((EINVAL, (empty_val, empty_val)), w)
  | Some y =>
      let lost rc := ((rc, (empty_val, empty_val)), set_content (set_cursor c (with_place y Lost) w.(content)) w) in
      match w.(content).(txns) !! y.(cur_txn) ≫= λ x, db_of x y.(cur_dbi) with
      | None => lost EINVAL
      | Some (_, ps) =>
          match landing op (key_of k) ps y.(cur_at) with
          | None => lost EINVAL
          | Some None => lost MDB_NOTFOUND
          | Some (Some i) =>
              match ps !! i with
              | None => lost EINVAL
              | Some (k', d') =>
                  ((MDB_SUCCESS, (val_of k', val_of d')), set_content (set_cursor c (with_place y (At i)) w.(content)) w)
              end
          end
      end
  end.

Definition model_env_open (e : Z) (path : bytes) (_flags _mode : Z) (w : Model) : Z * Model :=
  let v := w.(content) in
  let s := default {[None := []]} (v.(disk) !! path) in
  (MDB_SUCCESS, set_content (set_envs (<[e := Some path]> v.(envs)) (set_disk (<[path := s]> v.(disk)) v)) w).

#[export] Instance model : Lmdb Model := {|
  mdb_env_create w :=
    ((MDB_SUCCESS, w.(next_id)), take_id (set_envs (<[w.(next_id) := None]> w.(content).(envs)) w.(content)) w);
  mdb_env_set_mapsize _ _ w := (MDB_SUCCESS, w);
  mdb_env_set_maxdbs _ _ w := (MDB_SUCCESS, w);
  mdb_env_set_maxreaders _ _ w := (MDB_SUCCESS, w);
  mdb_env_open := model_env_open;
  mdb_env_sync _ _ w := (MDB_SUCCESS, w);
  mdb_env_info _ w := ((MDB_SUCCESS, mkMDB_envinfo 1073741824 1 0 126 1), w);
  mdb_reader_check _ w := ((MDB_SUCCESS, 0), w);
  mdb_env_close e w :=
    set_content (set_envs (delete e w.(content).(envs)) (set_dbis (delete e w.(content).(dbis)) w.(content))) w;
  mdb_txn_begin := model_begin;
  mdb_txn_commit := model_commit;
  mdb_txn_abort t w := set_content (end_txn t w.(content)) w;
  mdb_dbi_open := model_dbi_open;
  mdb_stat := model_stat;
  mdb_drop := model_drop;
  mdb_get := model_get;
  mdb_put := model_put;
  mdb_del := model_del;
  mdb_cursor_open := model_cursor_open;
  mdb_cursor_get := model_cursor_get;
  mdb_cursor_close c w := set_content (set_cursors (delete c w.(content).(cursors)) w.(content)) w;
  create_dir_all _ _ w := (Ok tt, w);
  canonicalize path w := (Ok path, w)
|}.

(** Before any call, on an empty disk. *)
Definition model_start : Model := mkModel (mkView ∅ ∅ ∅ ∅ ∅) 1.

(** ** Order *)
Lemma store_forall (P : Pair → Prop) k v ps : P (k, v) → Forall P ps → Forall P (store k v ps).
Proof.
  intros Hk. induction ps as [|[k' v'] ps IH]; intros H; simpl; [by constructor|]. apply Forall_cons in H as [? ?].
  destruct (key_lt k k'), (key_lt k' k); repeat constructor; auto.
Qed.

Lemma store_sorted k v ps : sorted ps → sorted (store k v ps).
Proof.
  induction 1 as [|k' v' ps Hf Hs IH]; simpl; [repeat constructor|]. destruct (key_lt k k') eqn:H1.
  - constructor; [|by constructor]. constructor; [done|]. eapply Forall_impl; [exact Hf|]. simpl. intros q. by apply key_lt_trans.
  - destruct (key_lt k' k) eqn:H2.
    + constructor; [|done]. by apply store_forall.
    + rewrite (key_lt_total _ _ H1 H2). by constructor.
Qed.

Lemma remove_sorted k ps : sorted ps → sorted (remove k ps).
Proof.
  unfold remove. induction 1 as [|k' v' ps Hf Hs IH]; [constructor|]. destruct (decide (k' = k)) as [->|Hne].
  - rewrite filter_cons_False; [done|]. simpl. tauto.
  - rewrite filter_cons_True by done. constructor; [|done]. apply Forall_forall. intros q [_ Hq]%list_elem_of_filter.
    rewrite Forall_forall in Hf. by apply Hf.
Qed.

Definition store_ok (s : Store) : Prop := ∀ name ps, s !! name = Some ps → sorted ps.

Lemma store_ok_insert s name ps : store_ok s → sorted ps → store_ok (<[name := ps]> s).
Proof. intros Hs Hp n q. rewrite lookup_insert_Some. intros [[_ <-]|[_ H]]; [done|]. by eapply Hs. Qed.

Lemma created_ok name s : store_ok s → store_ok (created name s).
Proof.
  intros Hs. unfold created. destruct name as [n|]; [|by apply store_ok_insert; [|constructor]].
  destruct (s !! None) as [ps|] eqn:Hp; apply store_ok_insert; try constructor; [|done].
  apply store_ok_insert; [done|]. apply store_sorted. by eapply Hs.
Qed.

(** ** What holds of the model *)
Record model_ok (w : Model) : Prop := mkModelOk {
  ok_next : 0 < w.(next_id);
  ok_envs e o : w.(content).(envs) !! e = Some o → e < w.(next_id);
  ok_txns t x : w.(content).(txns) !! t = Some x →
    t < w.(next_id) ∧ store_ok x.(txn_store) ∧ ∀ d n, x.(txn_dbis) !! d = Some n → d < w.(next_id);
  ok_cursors c y : w.(content).(cursors) !! c = Some y → c < w.(next_id) ∧ y.(cur_txn) < w.(next_id);
  ok_disk k s : w.(content).(disk) !! k = Some s → store_ok s;
  ok_dbis e m : w.(content).(dbis) !! e = Some m → ∀ d n, m !! d = Some n → d < w.(next_id)
}.

Lemma model_start_ok : model_ok model_start.
Proof. split; simpl; try lia; intros ? ?; by rewrite lookup_empty. Qed.

(** A new number is not in use. *)
Lemma fresh_txn w : model_ok w → w.(content).(txns) !! w.(next_id) = None.
Proof. intros H. apply eq_None_not_Some. intros [x Hx]. destruct (ok_txns w H _ _ Hx). lia. Qed.
Lemma fresh_cursor w : model_ok w → w.(content).(cursors) !! w.(next_id) = None.
Proof. intros H. apply eq_None_not_Some. intros [x Hx]. destruct (ok_cursors w H _ _ Hx). lia. Qed.
Lemma fresh_env w : model_ok w → w.(content).(envs) !! w.(next_id) = None.
Proof. intros H. apply eq_None_not_Some. intros [x Hx]. pose proof (ok_envs w H _ _ Hx). lia. Qed.

(** Taking a number keeps the others below the next. *)
Lemma ok_later w n : model_ok w → w.(next_id) ≤ n → model_ok (mkModel w.(content) n).
Proof.
  intros [H1 H2 H3 H4 H5 H6] Hn. split; simpl; [lia|..].
  - intros e o H. specialize (H2 _ _ H). lia.
  - intros t x H. destruct (H3 _ _ H) as (? & ? & Hd). split; [lia|]. split; [done|]. intros d m Hm. specialize (Hd _ _ Hm). lia.
  - intros c y H. destruct (H4 _ _ H). lia.
  - done.
  - intros e m H d k Hk. specialize (H6 _ _ H _ _ Hk). lia.
Qed.

Lemma ok_set_txn w t x' :
  model_ok w → t < w.(next_id) → store_ok x'.(txn_store) → (∀ d n, x'.(txn_dbis) !! d = Some n → d < w.(next_id)) →
  model_ok (set_content (set_txn t x' w.(content)) w).
Proof.
  intros [H1 H2 H3 H4 H5 H6] Ht Hs Hd. split; simpl; try done.
  intros t' y. rewrite lookup_insert_Some. intros [[<- <-]|[_ H]]; [done|by apply H3].
Qed.

Lemma ok_set_cursor w c y :
  model_ok w → c < w.(next_id) → y.(cur_txn) < w.(next_id) → model_ok (set_content (set_cursor c y w.(content)) w).
Proof.
  intros [H1 H2 H3 H4 H5 H6] Hc Ht. split; simpl; try done.
  intros t' z. rewrite lookup_insert_Some. intros [[<- <-]|[_ H]]; [done|by apply H4].
Qed.

Lemma ok_set_disk w k s : model_ok w → store_ok s → model_ok (set_content (set_disk (<[k := s]> w.(content).(disk)) w.(content)) w).
Proof.
  intros [H1 H2 H3 H4 H5 H6] Hs. split; simpl; try done.
  intros k' z. rewrite lookup_insert_Some. intros [[<- <-]|[_ H]]; [done|by eapply H5].
Qed.

Lemma ok_end_txn w t : model_ok w → model_ok (set_content (end_txn t w.(content)) w).
Proof.
  intros [H1 H2 H3 H4 H5 H6]. split; simpl; try done. intros t' y. rewrite lookup_delete_Some. intros [_ H]. by apply H3.
Qed.

Lemma ok_data w k : model_ok w → store_ok (data w.(content) k).
Proof.
  intros H. unfold data. destruct (disk (content w) !! k) as [s|] eqn:Hs; simpl; [by eapply ok_disk|].
  intros n ps. by rewrite lookup_empty.
Qed.

(** A call on a transaction that is begun. *)
Lemma run_txn_update t w f x rc w' :
  model_ok w → w.(content).(txns) !! t = Some x →
  (∀ rc x', f x = (rc, Some x') → store_ok x'.(txn_store) ∧ x'.(txn_dbis) = x.(txn_dbis)) →
  model_txn_update t w f = (rc, w') →
  model_ok w' ∧ (f x = (rc, None) ∧ w'.(content) = w.(content) ∨
                 ∃ x', f x = (rc, Some x') ∧ w'.(content) = set_txn t x' w.(content)).
Proof.
  intros Hw Hx Hf. unfold model_txn_update. rewrite Hx. destruct (ok_txns w Hw _ _ Hx) as (Ht & Hs & Hd).
  destruct (f x) as [rc' [x'|]] eqn:Hfx; intros ?; simplify_eq.
  - destruct (Hf _ _ eq_refl) as [Hs' Hd']. split; [apply ok_set_txn; [done..|by rewrite Hd']|]. right. by exists x'.
  - split; [done|]. by left.
Qed.

(** The database of a transaction is in order. *)
Lemma db_of_sorted w t x dbi name ps :
  model_ok w → w.(content).(txns) !! t = Some x → db_of x dbi = Some (name, ps) → store_ok x.(txn_store) ∧ sorted ps.
Proof.
  intros Hw Hx Hdb. destruct (ok_txns w Hw _ _ Hx) as (_ & Hs & _). split; [done|].
  unfold db_of in Hdb. destruct (txn_dbis x !! dbi) as [n|]; [|done]. simpl in Hdb.
  destruct (txn_store x !! n) as [q|] eqn:Hq; [|done]. simplify_eq/=. by eapply Hs.
Qed.

(** The model of [liblmdb] obeys the laws. *)

(** A call that is refused leaves the transaction as it was. *)
Lemma spoilt_same (v v' : View) t x : v.(txns) !! t = Some x → v' = v → spoilt v v' t x.
Proof. intros Hx ->. exists x.(txn_store). by rewrite with_store_id, set_txn_id. Qed.

Ltac refused H := destruct H as [[[= <-] ?]|(? & ? & _)]; [by apply spoilt_same|done].

Lemma model_put_law w t x dbi k v flags rc w' :
  model_put t dbi (val_of k) (val_of v) flags w = (rc, w') → model_ok w → w.(content).(txns) !! t = Some x →
  model_ok w' ∧
  if rc =? MDB_SUCCESS then
    ∃ name ps, db_of x dbi = Some (name, ps) ∧ putable flags k ps = true ∧
      w'.(content) = set_txn t (set_db x name (store k v ps)) w.(content)
  else if rc =? MDB_KEYEXIST then
    ∃ name ps, db_of x dbi = Some (name, ps) ∧ putable flags k ps = false ∧ w'.(content) = w.(content)
  else spoilt w.(content) w'.(content) t x.
Proof.
  intros Hc Hw Hx. eapply run_txn_update in Hc as [Hw' Hc]; [|done|done|].
  - split; [done|]. simpl in Hc.
    destruct (txn_ro x); [refused Hc|].
    destruct (db_of x dbi) as [[name ps]|] eqn:Hdb; [|refused Hc].
    destruct (bad_key _); [refused Hc|].
    destruct (putable flags _ ps) eqn:Hput; destruct Hc as [[[= <-] ?]|(x' & [= <- <-] & ?)]; try done; simpl; by exists name, ps.
  - intros rc' x'. destruct (txn_ro x); [done|]. destruct (db_of x dbi) as [[name ps]|] eqn:Hdb; [|done].
    destruct (bad_key _); [done|]. destruct (putable flags _ ps); [|done]. intros [= <- <-].
    destruct (db_of_sorted _ _ _ _ _ _ Hw Hx Hdb). split; [|done]. apply store_ok_insert; [done|]. by apply store_sorted.
Qed.

Lemma model_del_law w t x dbi k rc w' :
  model_del t dbi (val_of k) w = (rc, w') → model_ok w → w.(content).(txns) !! t = Some x →
  model_ok w' ∧
  if rc =? MDB_SUCCESS then
    ∃ name ps, db_of x dbi = Some (name, ps) ∧ is_Some (find k ps) ∧
      w'.(content) = set_txn t (set_db x name (remove k ps)) w.(content)
  else if rc =? MDB_NOTFOUND then
    ∃ name ps, db_of x dbi = Some (name, ps) ∧ find k ps = None ∧ w'.(content) = w.(content)
  else spoilt w.(content) w'.(content) t x.
Proof.
  intros Hc Hw Hx. eapply run_txn_update in Hc as [Hw' Hc]; [|done|done|].
  - split; [done|]. simpl in Hc.
    destruct (txn_ro x); [refused Hc|].
    destruct (db_of x dbi) as [[name ps]|] eqn:Hdb; [|refused Hc].
    destruct (bad_key _); [refused Hc|].
    change (key_of (val_of k)) with k in Hc. destruct (find k ps) eqn:Hf; destruct Hc as [[[= <-] ?]|(x' & [= <- <-] & ?)]; try done; simpl; exists name, ps; split_and!; try done; by rewrite Hf.
  - intros rc' x'. destruct (txn_ro x); [done|]. destruct (db_of x dbi) as [[name ps]|] eqn:Hdb; [|done].
    destruct (bad_key _); [done|]. destruct (find _ ps); [|done]. intros [= <- <-].
    destruct (db_of_sorted _ _ _ _ _ _ Hw Hx Hdb). split; [|done]. apply store_ok_insert; [done|]. by apply remove_sorted.
Qed.

Lemma model_drop_law w t x dbi rc w' :
  model_drop t dbi 0 w = (rc, w') → model_ok w → w.(content).(txns) !! t = Some x →
  model_ok w' ∧
  if rc =? MDB_SUCCESS then
    ∃ name ps s, db_of x dbi = Some (name, ps) ∧ w'.(content) = set_txn t (with_store x s) w.(content) ∧
      s !! name = Some [] ∧ (name ≠ None → s = <[name := []]> x.(txn_store))
  else spoilt w.(content) w'.(content) t x.
Proof.
  intros Hc Hw Hx. eapply run_txn_update in Hc as [Hw' Hc]; [|done|done|].
  - split; [done|]. simpl in Hc.
    destruct (txn_ro x); [refused Hc|].
    destruct (db_of x dbi) as [[[n|] ps]|] eqn:Hdb; destruct Hc as [[? Hv]|(x' & ? & Hv)]; simplify_eq/=.
    + eexists _, ps, _. split; [done|]. split; [exact Hv|]. split; [by rewrite lookup_insert_eq|done].
    + eexists _, ps, _. split; [done|]. split; [exact Hv|]. split; [by rewrite lookup_singleton_eq|done].
    + by apply spoilt_same.
  - intros rc' x'. destruct (txn_ro x); [done|]. destruct (db_of x dbi) as [[[n|] ps]|] eqn:Hdb; [| |done]; intros [= <- <-];
      destruct (db_of_sorted _ _ _ _ _ _ Hw Hx Hdb); (split; [|done]).
    + apply store_ok_insert; [done|constructor].
    + intros n q. simpl. intros [_ <-]%lookup_singleton_Some. constructor.
Qed.

Lemma model_dbi_open_law w t x name flags rc dbi w' :
  model_dbi_open t name flags w = ((rc, dbi), w') → model_ok w → w.(content).(txns) !! t = Some x →
  model_ok w' ∧
  if rc =? MDB_SUCCESS then
    (∀ n, x.(txn_dbis) !! dbi = Some n → n = name) ∧
    ∃ s, w'.(content) = set_txn t (mkTxn x.(txn_env) x.(txn_ro) s (<[dbi := name]> x.(txn_dbis))) w.(content) ∧
      match x.(txn_store) !! name with
      | Some _ => s = x.(txn_store)
      | None => flags = MDB_CREATE ∧ s !! name = Some [] ∧ ∀ n, n ≠ name → n ≠ None → s !! n = x.(txn_store) !! n
      end
  else if rc =? MDB_NOTFOUND then x.(txn_store) !! name = None ∧ w'.(content) = w.(content)
  else spoilt w.(content) w'.(content) t x.
Proof.
  intros Hc Hw Hx. unfold model_dbi_open in Hc. rewrite Hx in Hc. destruct (ok_txns w Hw _ _ Hx) as (Ht & Hs & Hd).
  assert (∀ s, store_ok s → model_ok (take_id (set_txn t (mkTxn x.(txn_env) x.(txn_ro) s (<[w.(next_id) := name]> x.(txn_dbis))) w.(content)) w)) as Hadd.
  { intros s Hso. refine (ok_set_txn (mkModel (content w) (next_id w + 1)) t (mkTxn _ _ s _) _ _ Hso _); [apply ok_later; [done|lia]|simpl; lia|].
    intros d n. simpl. rewrite lookup_insert_Some. intros [[<- _]|[_ H]]; [lia|]. specialize (Hd _ _ H). lia. }
  assert (∀ n, txn_dbis x !! next_id w = Some n → n = name) as Hfresh by (intros n Hn; specialize (Hd _ _ Hn); lia).
  destruct (txn_store x !! name) as [ps|] eqn:Hn.
  - simplify_eq/=. split; [by apply Hadd|]. split; [done|]. by eexists.
  - destruct (Z.eqb_spec flags MDB_CREATE) as [->|]; simpl in Hc; [|by simplify_eq/=]. destruct (txn_ro x) eqn:Hro.
    + simplify_eq/=. split; [done|]. by apply spoilt_same.
    + simplify_eq/=. split; [by apply Hadd, created_ok|]. split; [done|]. eexists. split; [done|]. split; [done|].
      unfold created. destruct name as [n|]; [|split; [by rewrite lookup_insert_eq|intros m ? ?; by rewrite lookup_insert_ne]].
      destruct (txn_store x !! None); (split; [by rewrite lookup_insert_eq|]); intros m ? ?; rewrite ?lookup_insert_ne by done; done.
Qed.

Lemma val_of_is b : val_is (val_of b) b.
Proof. split; [done|]. right. exists []. by rewrite app_nil_r. Qed.

Lemma model_get_law w t x dbi k rc d w' :
  model_get t dbi (val_of k) w = ((rc, d), w') → model_ok w → w.(content).(txns) !! t = Some x →
  model_ok w' ∧ w'.(content) = w.(content) ∧
  (rc = MDB_SUCCESS → ∃ name ps b, db_of x dbi = Some (name, ps) ∧ find k ps = Some b ∧ val_is d b) ∧
  (rc = MDB_NOTFOUND → ∃ name ps, db_of x dbi = Some (name, ps) ∧ find k ps = None).
Proof.
  intros Hc Hw Hx. unfold model_get in Hc. rewrite Hx in Hc. simpl in Hc. change (key_of (val_of k)) with k in Hc.
  destruct (db_of x dbi) as [[name ps]|] eqn:Hdb; [|by simplify_eq/=].
  destruct (bad_key k); [by simplify_eq/=|]. destruct (find k ps) as [b|] eqn:Hf; simplify_eq/=; split_and!; try done; intros _.
  - exists name, ps, b. split_and!; try done. apply val_of_is.
  - by exists name, ps.
Qed.

Lemma model_cursor_get_law w c y x from op rc k d w' :
  model_cursor_get c (from_option val_of empty_val from) op w = ((rc, (k, d)), w') → model_ok w →
  w.(content).(cursors) !! c = Some y → w.(content).(txns) !! y.(cur_txn) = Some x →
  model_ok w' ∧
  if rc =? MDB_SUCCESS then
    ∃ name ps i kv, db_of x y.(cur_dbi) = Some (name, ps) ∧ ps !! i = Some kv ∧
      val_is k kv.1 ∧ val_is d kv.2 ∧
      (∀ o, landing op (default [] from) ps y.(cur_at) = Some o → o = Some i) ∧
      w'.(content) = set_cursor c (with_place y (At i)) w.(content)
  else
    (rc = MDB_NOTFOUND → ∃ name ps, db_of x y.(cur_dbi) = Some (name, ps) ∧
       ∀ o, landing op (default [] from) ps y.(cur_at) = Some o → o = None) ∧
    w'.(content) = set_cursor c (with_place y Lost) w.(content).
Proof.
  intros Hc Hw Hy Hx. unfold model_cursor_get in Hc. rewrite Hy, Hx in Hc. simpl in Hc.
  assert (key_of (from_option val_of empty_val from) = default [] from) as Hk by by destruct from. rewrite Hk in Hc.
  destruct (ok_cursors w Hw _ _ Hy) as [H1 H2].
  assert (∀ pl, model_ok (set_content (set_cursor c (with_place y pl) (content w)) w)) as Hok by (intros pl; by apply ok_set_cursor).
  destruct (db_of x (cur_dbi y)) as [[name ps]|] eqn:Hdb; [|by simplify_eq/=].
  destruct (landing op (default [] from) ps (cur_at y)) as [[i|]|] eqn:Hl; [|simplify_eq/=; split; [done|]; split; [|done]; intros _; exists name, ps; split; [done|congruence]|by simplify_eq/=].
  destruct (ps !! i) as [[k' d']|] eqn:Hi; [|by simplify_eq/=]. simplify_eq/=. split; [done|].
  exists name, ps, i, (k', d'). split_and!; try done; try apply val_of_is. congruence.
Qed.

Lemma model_begin_law w e path (ro : bool) rc t w' :
  model_begin e (if ro then MDB_RDONLY else 0) w = ((rc, t), w') → model_ok w →
  opened w.(content) e path → no_txn w.(content) e →
  model_ok w' ∧
  if rc =? MDB_SUCCESS then
    w.(content).(txns) !! t = None ∧ no_cursor w.(content) t ∧
    ∃ s, s = data w.(content) path ∧ w'.(content) = begun w.(content) e path ro s t
  else w'.(content) = w.(content).
Proof.
  intros Hc Hw Ho Hno. unfold model_begin in Hc. rewrite Ho in Hc. simplify_eq/=.
  assert (((if ro then MDB_RDONLY else 0) =? MDB_RDONLY) = ro) as -> by by destruct ro. split.
  - pose proof (ok_data w path Hw) as Hdata. pose proof (ok_set_disk w path _ Hw Hdata) as Hw1.
    refine (ok_set_txn (mkModel _ (next_id w + 1)) (next_id w) (mkTxn _ _ _ _) (ok_later _ _ Hw1 _) _ Hdata _); [simpl; lia..|].
    intros d n. simpl. unfold handles. destruct (dbis (content w) !! e) as [m|] eqn:Hm; simpl; [|by rewrite lookup_empty].
    intros Hd. pose proof (ok_dbis w Hw _ _ Hm _ _ Hd). lia.
  - split; [by apply fresh_txn|]. split; [|by eexists]. intros c y Hy. destruct (ok_cursors w Hw _ _ Hy). lia.
Qed.

Lemma model_commit_law w t x path rc w' :
  model_commit t w = (rc, w') → model_ok w →
  w.(content).(txns) !! t = Some x → opened w.(content) x.(txn_env) path → no_cursor w.(content) t →
  model_ok w' ∧ w'.(content) = if rc =? MDB_SUCCESS then committed w.(content) path t x else end_txn t w.(content).
Proof.
  intros Hc Hw Hx Ho _. unfold model_commit in Hc. rewrite Hx, Ho in Hc. simplify_eq/=. split; [|done].
  destruct (ok_txns w Hw _ _ Hx) as (_ & Hs & Hd). pose proof (ok_end_txn w t Hw) as Hw1.
  assert (model_ok (set_content (set_dbis (<[txn_env x := txn_dbis x]> w.(content).(dbis)) (end_txn t (content w))) w)) as Hw2.
  { destruct Hw1 as [H1 H2 H3 H4 H5 H6]. split; try done. simpl. intros e m. rewrite lookup_insert_Some.
    intros [[<- <-]|[_ H]]; [done|by eapply H6]. }
  unfold committed. destruct (txn_ro x); [exact Hw2|]. exact (ok_set_disk _ path _ Hw2 Hs).
Qed.

Lemma model_cursor_open_law w t x dbi rc c w' :
  model_cursor_open t dbi w = ((rc, c), w') → model_ok w → w.(content).(txns) !! t = Some x →
  model_ok w' ∧
  if rc =? MDB_SUCCESS then
    w.(content).(cursors) !! c = None ∧ is_Some (db_of x dbi) ∧ w'.(content) = set_cursor c (mkCur t dbi Fresh) w.(content)
  else w'.(content) = w.(content).
Proof.
  intros Hc Hw Hx. unfold model_cursor_open in Hc. rewrite Hx in Hc. simpl in Hc.
  destruct (db_of x dbi) as [q|] eqn:Hdb; simplify_eq/=; [|done]. split.
  - destruct (ok_txns w Hw _ _ Hx) as (Ht & _).
    refine (ok_set_cursor (mkModel _ (next_id w + 1)) (next_id w) _ (ok_later _ _ Hw _) _ _); simpl; lia.
  - split; [by apply fresh_cursor|]. done.
Qed.

Lemma model_env_law w e (o : option bytes) (n : Z) :
  model_ok w → e < n → w.(next_id) ≤ n → model_ok (mkModel (set_envs (<[e := o]> w.(content).(envs)) w.(content)) n).
Proof.
  intros Hw He Hn. destruct (ok_later w n Hw Hn) as [H1 H2 H3 H4 H5 H6]. split; simpl; try done.
  intros e' o'. rewrite lookup_insert_Some. intros [[<- _]|[_ H]]; [done|by eapply H2].
Qed.

Lemma model_env_open_law w e path flags mode rc w' :
  model_env_open e path flags mode w = (rc, w') → model_ok w → w.(content).(envs) !! e = Some None →
  model_ok w' ∧
  if rc =? MDB_SUCCESS then
    ∃ s, (∀ s0, w.(content).(disk) !! path = Some s0 → s = s0) ∧
      w'.(content) = set_envs (<[e := Some path]> w.(content).(envs)) (set_disk (<[path := s]> w.(content).(disk)) w.(content))
  else w'.(content) = w.(content).
Proof.
  intros Hc Hw He. unfold model_env_open in Hc. simplify_eq/=. split.
  - refine (model_env_law (set_content (set_disk _ (content w)) w) e _ _ _ _ _); [|by eapply ok_envs|done].
    apply ok_set_disk; [done|]. destruct (disk (content w) !! path) as [s|] eqn:Hs; simpl; [by eapply ok_disk|].
    intros n q [_ <-]%lookup_singleton_Some. constructor.
  - eexists. split; [|done]. by intros s0 ->.
Qed.

#[export] Instance model_laws : LmdbLaws Model.
Proof.
  refine {| view := content; sound := model_ok; others := λ _ s s', s' = s |}.
  - intros w rc e w' Hc Hw. simpl in Hc. simplify_eq/=. split; [|split; [pose proof (ok_next w Hw); lia|by split; [apply fresh_env|]]].
    apply model_env_law; [done|lia..].
  - intros w e n rc w' Hc Hw _. by simplify_eq/=.
  - intros w e n rc w' Hc Hw _. by simplify_eq/=.
  - intros w e n rc w' Hc Hw _. by simplify_eq/=.
  - intros w e path fl m rc w' Hc Hw He _. by apply (model_env_open_law w e path fl m).
  - intros w e f path rc w' Hc Hw _. by simplify_eq/=.
  - intros w e path r w' Hc Hw _. by simplify_eq/=.
  - intros w e path r w' Hc Hw _. by simplify_eq/=.
  - intros w e o Hw He Hno. split; [|done]. destruct Hw as [H1 H2 H3 H4 H5 H6]. split; simpl; try done.
    + intros e' o'. rewrite lookup_delete_Some. intros [_ H]. by eapply H2.
    + intros e' m. rewrite lookup_delete_Some. intros [_ H]. by eapply H6.
  - intros w path m r w' Hc Hw. by simplify_eq/=.
  - intros w path r w' Hc Hw. by simplify_eq/=.
  - done.
  - apply model_begin_law.
  - apply model_commit_law.
  - intros w e fl. simpl. unfold model_begin. by repeat case_match.
  - intros w t. simpl. unfold model_commit. by repeat case_match.
  - intros w t x Hw Hx Hn. split; [by apply ok_end_txn|done].
  - intros w t x name ps Hw Hx Hps. destruct (ok_txns w Hw _ _ Hx) as (_ & Hs & _). by eapply Hs.
  - apply model_get_law.
  - intros w t x dbi k v fl rc w' Hc Hw Hx _. by apply (model_put_law w t x dbi k v fl).
  - apply model_del_law.
  - apply model_drop_law.
  - intros w t x dbi rc st w' Hc Hw Hx. simpl in Hc. unfold model_stat in Hc. rewrite Hx in Hc. simpl in Hc.
    destruct (db_of x dbi) as [[name ps]|]; simplify_eq/=; split_and!; try done. intros _. by exists name, ps.
  - intros w t x name fl rc dbi w' Hc Hw Hx _. by apply (model_dbi_open_law w t x name fl).
  - apply model_cursor_open_law.
  - apply model_cursor_get_law.
  - intros w c y Hw Hy. split; [|done]. destruct Hw as [H1 H2 H3 H4 H5 H6]. split; simpl; try done.
    intros c' z. rewrite lookup_delete_Some. intros [_ H]. by eapply H4.
Defined.
