(* ===== verification/MdbTheorems.v ===== *)
(** What [truenas_mdb] promises: the theorems on transactions, databases, scans
    and the pool, each with an example that runs on the model of [liblmdb]. *)
From S2P Require Import Prelude MdbError Mdb MdbTxn MdbDb MdbLaws MdbKeeps MdbPool MdbApi MdbRefine MdbScan MdbModel.
Local Open Scope Z_scope.

(** ** A process to run examples in *)
Definition word (n : Z) : bytes := [byte_of n].
Definition here : bytes := word 47.
Definition blank_process : Proc Model Pairs := mkProc model_start [] ∅ [].

(** An environment opened, and in it a database made with a pair in it. *)
Definition example_env : Env := mkEnv here 1.
Definition opened_process : Proc Model Pairs := (open_with here EnvOptions_default blank_process).2.
Definition example_db : Db := mkDb example_env 4 (Some (word 100)).
Definition made_process : Proc Model Pairs := (db_create example_env (word 100) opened_process).2.

Lemma blank_starts : starts blank_process.
Proof. split; [exact model_start_ok|done]. Qed.

Lemma ran_to {S E A} (m : St S E A) s r : (m s).1 = r → m s = (r, (m s).2).
Proof. intros <-. by destruct (m s). Qed.

Lemma opened_step : rtc process_step (blank_process, []) (opened_process, [example_env]).
Proof. eapply rtc_once, step_open, ran_to. vm_compute. reflexivity. Qed.

Lemma made_step : rtc process_step (blank_process, []) (made_process, [example_env; example_env]).
Proof.
  eapply rtc_r; [exact opened_step|]. change example_env with example_db.(db_env) at 2.
  eapply (step_open_dbi _ _ example_env (Some (word 100)) true); [by left|]. apply ran_to. vm_compute. reflexivity.
Qed.

Lemma made_counted : counted made_process [example_env; example_env].
Proof. exact (process_counted _ _ _ blank_starts made_step). Qed.

Lemma made_inv : inv made_process.
Proof. exact (counted_inv _ _ made_counted). Qed.

Lemma made_alive : alive made_process example_env.
Proof. apply (counted_alive _ _ made_counted). by left. Qed.

Lemma made_handle : handles (view made_process.(lmdb)) 1 !! 4 = Some (Some (word 100)).
Proof. vm_compute. reflexivity. Qed.

(** ** Transactions *)
Section Theorems.
Context {W M : Type} {lib : Lmdb W} {laws : LmdbLaws W}.
Abbreviation App := (St (Proc W M) MdbError).
Abbreviation V p := (view p.(lmdb)).


(** What a thread that holds a transaction is told. *)
Lemma begin_refused (e : Env) ro (p : Proc W M) : e.(env) ∈ p.(ACTIVE) → txn_begin e ro p = (Err (Os EDEADLK), p).
Proof.
  intros H. unfold txn_begin, claim, mbind, St_bind, get, fail. by rewrite decide_True.
Qed.

Lemma begin_granted (e : Env) (ro : bool) (p : Proc W M) :
  e.(env) ∉ p.(ACTIVE) → (mdb_txn_begin e.(env) (if ro then MDB_RDONLY else 0) p.(lmdb)).1.1 = MDB_SUCCESS →
  ∃ g p', txn_begin e ro p = (Ok g, p').
Proof.
  intros H Hrc. unfold txn_begin, claim, or_drop, call, lift, modify, mbind, St_bind, mret, St_ret, get, fail.
  rewrite decide_False by done. simpl. destruct (mdb_txn_begin _ _ _) as [[rc t] w]. simpl in Hrc. subst rc. simpl. eauto.
Qed.

(** One transaction at a time.  While the thread has a transaction on an
    environment, every method of a database of it, every scan, iterator and
    closure is refused with [EDEADLK] before any call is made, and changes
    nothing; and when it has none, the crate lets a transaction begin. *)
Theorem mdb_one_transaction (db : Db) (p : Proc W M) :
  inv p → alive p db.(db_env) →
  ((∃ t, live p t db.(db_env).(env)) →
     (∀ A (m : App A), db_op db m → m p = (Err (Os EDEADLK), p)) ∧
     (∀ k out, get_into db k (p, out) = (Err (Os EDEADLK), (p, []))) ∧
     (∀ A k (f : option bytes → St _ _ A), with_value db k f p = (Err (Os EDEADLK), p)) ∧
     (∀ B fuel start prefix (f : bytes → bytes → St _ _ (ControlFlow B)), scan_impl fuel db start prefix f p = (Err (Os EDEADLK), p)) ∧
     (∀ A start prefix (f : Iter → App A), (with_iter db start prefix f p).1 = Err (Os EDEADLK)) ∧
     (∀ A (f : Inner → App A), env_read db.(db_env) f p = (Err (Os EDEADLK), p) ∧ env_write db.(db_env) f p = (Err (Os EDEADLK), p))) ∧
  ((∀ t, ¬ live p t db.(db_env).(env)) → ∀ ro : bool,
     (mdb_txn_begin db.(db_env).(env) (if ro then MDB_RDONLY else 0) p.(lmdb)).1.1 = MDB_SUCCESS →
     ∃ g p', txn_begin db.(db_env) ro p = (Ok g, p')).
Proof.
  intros Hp Hal. split.
  - intros (t & x & Hx & He). assert (db.(db_env).(env) ∈ p.(ACTIVE)) as Hin by (apply active_txn; [done|by exists t, x]).
    assert (∀ ro, txn_begin db.(db_env) ro p = (Err (Os EDEADLK), p)) as Hb by (intros; by apply begin_refused).
    assert (∀ A (f : TxnGuard → App A), reading db f p = (Err (Os EDEADLK), p)) as Hrd by (intros; unfold reading; by rewrite (run_bind_err _ _ _ _ _ (Hb _))).
    assert (∀ A (f : TxnGuard → App A), writing db f p = (Err (Os EDEADLK), p)) as Hwr by (intros; unfold writing; by rewrite (run_bind_err _ _ _ _ _ (Hb _))).
    split_and!.
    + intros A m [k|k| | | |k v|k v|k|]; try apply Hrd; try apply Hwr.
      * unfold is_empty, db_len. by rewrite (run_bind_err _ _ _ _ _ (Hrd _ _)).
      * unfold db_put_if_absent, db_put_flags, stored. by rewrite Hwr.
    + intros k out. unfold get_into. by rewrite Hrd.
    + intros A k f. apply Hrd.
    + intros B fuel start prefix f. apply Hrd.
    + intros A start prefix f. unfold with_iter, db_clone.
      destruct (run_clone p _ Hp Hal) as (p1 & Hc & Ho & HV). unfold mbind, St_bind, mret, St_ret. rewrite Hc. unfold iter_new, or_drop, mbind, St_bind. simpl.
      rewrite begin_refused; [done|]. assert (p1.(ACTIVE) = p.(ACTIVE)) as ->; [|done].
      unfold env_clone, own_slot, put_slot, get, modify, mbind, St_bind, mret, St_ret in Hc. destruct (env_pool p !! _); [|done]. by simplify_eq/=.
    + intros A f. unfold env_read, env_write, inner_begin, mbind, St_bind, mret, St_ret. by rewrite !Hb.
  - intros Hno ro. apply begin_granted. rewrite active_txn by done. intros (t & x & Hx & He). apply (Hno t). by exists x.
Qed.
End Theorems.
(** ** Databases *)
Section Databases.
Context {W M : Type} {lib : Lmdb W} {laws : LmdbLaws W}.
Abbreviation App := (St (Proc W M) MdbError).
Abbreviation V p := (view p.(lmdb)).

(** C17: a database is a map.  An operation of a [Db] that succeeds gives what
    the command gives on the data there was when its transaction began, and
    leaves what the command leaves; one that fails, in any of its calls, leaves
    the data; no operation touches another environment's, and none panics. *)
Theorem mdb_db_refines (db : Db) (c : Cmd) (m : App Res) (p : Proc W M) (r : MdbResult Res) (p' : Proc W M) :
  db_cmd db c m → inv p → alive p db.(db_env) → m p = (r, p') → after p db.(db_env) (did_cmd p db c) r p'.
Proof. apply db_refines. Qed.

(** C18: all or nothing.  The commands of a closure given to [Env::write], on any
    of the environment's databases, are carried out one after the other on the
    data there was at the beginning, each seeing those before it; the data is
    what the last of them leaves, or, where any of them or the commit fails, what
    it was.  The commands of a closure given to [Env::read] are answered from
    one snapshot. *)
Theorem mdb_write_atomic (e : Env) (l : list (Db * Cmd)) (l' : list (option bytes * Cmd)) (p : Proc W M) :
  inv p → alive p e → all_on e l → named (handles (V p) e.(env)) l l' →
  (∀ r p', env_write e (λ t, inner_cmds t l) p = (r, p') → after p e (λ rs s s', spec_all l' s = Some (rs, s')) r p') ∧
  (Forall (λ nc, looks nc.2) l' → ∀ r p', env_read e (λ t, inner_cmds t l) p = (r, p') →
     after p e (λ rs s s', spec_all l' s = Some (rs, s') ∧ s' = s) r p').
Proof.
  intros Hp Hal Hl Hn. split; [intros r p'; by apply write_refines|]. intros Hlo r p' Hr.
  destruct (read_refines e l l' p r p' Hp Hal Hl Hn Hlo Hr) as (H1 & H2 & H3 & H4 & H5). split; [done|]. do 3 (split; [done|]).
  destruct r as [rs| |]; [|done|done]. destruct H5 as (s & Hs & Hall). exists s. split; [done|]. split; [done|].
  by eapply spec_all_looks.
Qed.

(** C19: scans.  With as much fuel as there are entries, a scan ends; its closure
    is called on exactly the pairs from the start on that have the prefix, in
    the order of their keys, up to the one it breaks at, and on a first part of
    them where a call fails; and an iterator gives exactly those pairs. *)
Theorem mdb_scan {B} (fuel : nat) (g : bytes → bytes → M → ControlFlow B * M) (db : Db) (start prefix : option bytes)
    (p : Proc W M) :
  inv p → alive p db.(db_env) → prefix = None ∨ prefix = start →
  (∀ ps, pairs_at p db ps → (length ps < fuel)%nat) →
  (∀ r p', scan_impl fuel db start prefix (λ k v, on_memory (g k v)) p = (r, p') →
     match r with
     | Ok o => ∃ ps, pairs_at p db ps ∧ (o, p'.(memory)) = fold_pairs g (visited start prefix ps) p.(memory)
     | Err _ => ∃ seen, (None, p'.(memory)) = fold_pairs g seen p.(memory) ∧
         (seen = [] ∨ ∃ ps, pairs_at p db ps ∧ seen `prefix_of` visited start prefix ps)
     | Stop _ => False
     end) ∧
  (∀ r p', with_iter db start prefix (drain fuel) p = (r, p') →
     match r with Ok l => ∃ ps, pairs_at p db ps ∧ l = visited start prefix ps | Err _ => True | Stop _ => False end).
Proof. intros Hp Hal Hpre Hf. split; intros r p'; [by apply run_scan|by apply run_iter]. Qed.

(** ** The pool *)

(** C20: one environment per path.  In a process that opens, clones and drops
    handles of environments and databases in any order, and runs programs with
    them in between, an environment is open at a path exactly while a handle to
    it is held; two handles are of the same path exactly when they share an
    environment; the pool's count is the number of handles; and a drop does not
    panic, and closes the environment with the last handle. *)
Theorem mdb_pool (p0 p : Proc W M) (hs : list Env) :
  starts p0 → rtc process_step (p0, []) (p, hs) →
  sound p.(lmdb) ∧ p.(ACTIVE) = [] ∧
  (∀ e k, opened (V p) e k ↔ ∃ h, h ∈ hs ∧ h.(key) = k ∧ h.(env) = e) ∧
  (∀ h h', h ∈ hs → h' ∈ hs → h.(key) = h'.(key) ↔ h.(env) = h'.(env)) ∧
  (∀ k, from_option refcnt 0 (p.(env_pool) !! k) = shares k hs) ∧
  (∀ h hs', hs ≡ₚ h :: hs' → ∃ p', env_drop h p = (Ok tt, p') ∧
     ((∃ e, opened (V p') e h.(key)) ↔ ∃ h', h' ∈ hs' ∧ h'.(key) = h.(key))).
Proof.
  intros H0 Hr. pose proof (process_counted _ _ _ H0 Hr) as Hc. pose proof (counted_inv _ _ Hc) as Hp. split_and!.
  - apply (inv_sound p Hp).
  - pose proof (inv_active p Hp) as Ha. rewrite (counted_idle _ _ Hc), map_to_list_empty in Ha. by apply Permutation_nil_r in Ha.
  - intros e k. by apply counted_open.
  - intros h h' Hh Hh'. destruct (counted_alive _ _ Hc h Hh) as (Hn & s & Hs & He), (counted_alive _ _ Hc h' Hh') as (Hn' & s' & Hs' & He').
    split; [intros Hk; rewrite Hk in Hs; congruence|]. intros Heq.
    pose proof (alive_open p h Hp (counted_alive _ _ Hc h Hh)) as Ho. pose proof (alive_open p h' Hp (counted_alive _ _ Hc h' Hh')) as Ho'.
    rewrite <- Heq in Ho'. by eapply env_unique.
  - apply (counted_share _ _ Hc).
  - intros h hs' Hperm. destruct (drop_counted _ _ _ _ Hc Hperm) as (p' & Hd & Hc'). exists p'. split; [done|]. split.
    + intros [e Ho]. apply (counted_open _ _ _ _ Hc') in Ho as (h' & Hin & Hk & _). by exists h'.
    + intros (h' & Hin & Hk). exists h'.(env). apply (counted_open _ _ _ _ Hc'). by exists h'.
Qed.
End Databases.

(** ** Examples *)





(** The thread holds a read transaction. *)
Definition held_process : Proc Model Pairs := (txn_begin example_env true made_process).2.

Lemma held_in : ∃ g, in_txn made_process held_process example_env g.
Proof.
  destruct (begin_scope made_process example_env true _ held_process made_inv made_alive (surjective_pairing _))
    as [(g & _ & H)|([err Herr] & _)]; [by exists g|]. vm_compute in Herr. discriminate.
Qed.

Lemma mdb_one_transaction_witness :
  db_get example_db (word 1) held_process = (Err (Os EDEADLK), held_process) ∧
  ∃ g p', txn_begin example_env false made_process = (Ok g, p').
Proof.
  split.
  - destruct held_in as [g Hin].
    apply (proj1 (mdb_one_transaction example_db held_process (in_inv _ _ _ _ Hin) (in_alive _ _ _ _ Hin))); [|apply op_get].
    exists g.(txn). exact (in_live _ _ _ _ Hin).
  - apply (proj2 (mdb_one_transaction example_db made_process made_inv made_alive)); [|vm_compute; reflexivity].
    intros t (x & Hx & _). by rewrite (counted_idle _ _ made_counted) in Hx.
Defined.

Lemma mdb_db_refines_witness :
  after made_process example_env (did_cmd made_process example_db (Put (word 1) (word 10))) (Ok Done)
    ((db_put example_db (word 1) (word 10);; mret Done) made_process).2.
Proof.
  apply (mdb_db_refines example_db (Put (word 1) (word 10)) _ made_process _ _ (cmd_put _ _ _) made_inv made_alive).
  apply ran_to. vm_compute. reflexivity.
Defined.

Lemma mdb_write_atomic_witness :
  let l := [(example_db, Put (word 1) (word 10)); (example_db, Get (word 1))] in
  let l' := [(Some (word 100), Put (word 1) (word 10)); (Some (word 100), Get (word 1))] in
  after made_process example_env (λ rs s s', spec_all l' s = Some (rs, s')) (Ok [Done; Value (Some (word 10))])
    (env_write example_env (λ t, inner_cmds t l) made_process).2.
Proof.
  apply (proj1 (mdb_write_atomic example_env [(example_db, Put (word 1) (word 10)); (example_db, Get (word 1))]
    [(Some (word 100), Put (word 1) (word 10)); (Some (word 100), Get (word 1))] made_process made_inv made_alive
    ltac:(by repeat constructor) ltac:(repeat constructor; done))).
  apply ran_to. vm_compute. reflexivity.
Defined.

(** Two pairs, put out of order. *)
Definition filled_process : Proc Model Pairs :=
  ((db_put example_db (word 2) (word 20);; db_put example_db (word 1) (word 10)) made_process).2.

Lemma filled_counted : counted filled_process [example_env; example_env].
Proof.
  refine (process_counted _ _ _ blank_starts (rtc_r _ _ _ made_step _)).
  eapply (step_run _ _ _ (db_put example_db (word 2) (word 20);; db_put example_db (word 1) (word 10))); [|apply surjective_pairing].
  apply api_bind; [|intros _]; (eapply api_db; [|apply op_put]; by left).
Qed.

Lemma filled_pairs ps : pairs_at filled_process example_db ps → ps = [(word 1, word 10); (word 2, word 20)].
Proof.
  intros (s & name & -> & Hn & Hs & _).
  assert (handles (view (lmdb filled_process)) (env (db_env example_db)) !! db_dbi example_db = Some (Some (word 100))) as Hn' by (vm_compute; reflexivity).
  rewrite Hn' in Hn. simplify_eq.
  assert (data (view (lmdb filled_process)) (key (db_env example_db)) !! Some (word 100) = Some [(word 1, word 10); (word 2, word 20)]) as Hs' by (vm_compute; reflexivity).
  rewrite Hs' in Hs. by simplify_eq.
Qed.

(** A closure that remembers the pairs. *)
Definition remember (k v : bytes) (mem : Pairs) : ControlFlow unit * Pairs := (Continue, mem ++ [(k, v)]).

Lemma mdb_scan_witness :
  ∃ ps, pairs_at filled_process example_db ps ∧
    (None, [(word 1, word 10); (word 2, word 20)]) = fold_pairs remember (visited None None ps) [].
Proof.
  apply (proj1 (mdb_scan 5 remember example_db None None filled_process (counted_inv _ _ filled_counted)
    (counted_alive _ _ filled_counted example_env ltac:(by left)) ltac:(by left)
    ltac:(intros ps ->%filled_pairs; simpl; lia)) (Ok None)
    (mkProc (scan 5 example_db (λ k v, on_memory (remember k v)) filled_process).2.(lmdb)
            (scan 5 example_db (λ k v, on_memory (remember k v)) filled_process).2.(ACTIVE)
            (scan 5 example_db (λ k v, on_memory (remember k v)) filled_process).2.(env_pool)
            [(word 1, word 10); (word 2, word 20)])).
  vm_compute. reflexivity.
Defined.

Lemma mdb_pool_witness :
  (∀ k, from_option refcnt 0 (made_process.(env_pool) !! k) = shares k [example_env; example_env]) ∧
  opened (view made_process.(lmdb)) 1 here.
Proof.
  destruct (mdb_pool blank_process made_process _ blank_starts made_step) as (_ & _ & Ho & _ & Hc & _). split; [exact Hc|].
  apply Ho. exists example_env. split; [by left|done].
Defined.
