(* ===== verification/NssError.v ===== *)
(** [truenas_nss]'s errors ([error.rs]) and the status values of the service
    ABI ([ffi.rs]).  A [c_int] is in [Z]; a [&str] is its bytes. *)
From S2P Require Import Prelude Utf8.
Local Open Scope Z_scope.

(** ** [ffi.rs] *)
(* SRC truenas_nss/src/ffi.rs const NSS_STATUS_TRYAGAIN *)
Definition NSS_STATUS_TRYAGAIN : Z := -2.
(* SRC truenas_nss/src/ffi.rs const NSS_STATUS_UNAVAIL *)
Definition NSS_STATUS_UNAVAIL : Z := -1.
(* SRC truenas_nss/src/ffi.rs const NSS_STATUS_NOTFOUND *)
Definition NSS_STATUS_NOTFOUND : Z := 0.
(* SRC truenas_nss/src/ffi.rs const NSS_STATUS_SUCCESS *)
Definition NSS_STATUS_SUCCESS : Z := 1.
(* SRC truenas_nss/src/ffi.rs const NSS_STATUS_RETURN *)
Definition NSS_STATUS_RETURN : Z := 2.

(** [libc]'s, on Linux with glibc. *)
Definition ERANGE : Z := 34.
Definition EAI_BADFLAGS : Z := -1.
Definition EAI_NONAME : Z := -2.
Definition EAI_AGAIN : Z := -3.
Definition EAI_FAIL : Z := -4.
Definition EAI_NODATA : Z := -5.
Definition EAI_FAMILY : Z := -6.
Definition EAI_SOCKTYPE : Z := -7.
Definition EAI_SERVICE : Z := -8.
Definition EAI_MEMORY : Z := -10.
Definition EAI_SYSTEM : Z := -11.
Definition EAI_OVERFLOW : Z := -12.

(** ** [error.rs] *)
(* SRC truenas_nss/src/error.rs enum NssStatus *)
Inductive NssStatus : Type := TryAgain | Unavail | NssNotFound | Success | Return_.
#[global] Instance NssStatus_eq_dec : EqDecision NssStatus.
Proof. solve_decision. Defined.

(* SRC truenas_nss/src/error.rs fn from_raw *)
Definition NssStatus_from_raw (rc : Z) : option NssStatus :=
  match rc with
  | -2 => Some TryAgain
  | -1 => Some Unavail
  | 0 => Some NssNotFound
  | 1 => Some Success
  | 2 => Some Return_
  | _ => None
  end.

(* SRC truenas_nss/src/error.rs fn raw *)
Definition NssStatus_raw (self : NssStatus) : Z :=
  match self with
  | TryAgain => NSS_STATUS_TRYAGAIN
  | Unavail => NSS_STATUS_UNAVAIL
  | NssNotFound => NSS_STATUS_NOTFOUND
  | Success => NSS_STATUS_SUCCESS
  | Return_ => NSS_STATUS_RETURN
  end.

(* SRC truenas_nss/src/error.rs fn name *)
Definition NssStatus_name (self : NssStatus) : bytes :=
  lit match self with
  | TryAgain => "NSS_STATUS_TRYAGAIN"
  | Unavail => "NSS_STATUS_UNAVAIL"
  | NssNotFound => "NSS_STATUS_NOTFOUND"
  | Success => "NSS_STATUS_SUCCESS"
  | Return_ => "NSS_STATUS_RETURN"
  end.

(* SRC truenas_nss/src/error.rs enum Error *)
Inductive NssError : Type :=
| Call (module op : bytes) (status errno : Z)
| Load (module reason : bytes)
| Symbol_ (module symbol : bytes)
| Busy (module : bytes)
| NulByte
| NotUtf8
| NullName
| Lookup_ (op : bytes) (code errno : Z).
#[global] Instance NssError_eq_dec : EqDecision NssError.
Proof. solve_decision. Defined.

(** How a computation of the crate can end without a value: with the error it
    returns, by reading memory it may not read, which has no meaning in the
    language, or by waiting for a lock that is held. *)
Inductive NssExit : Type := Fail (e : NssError) | Undefined | Blocked.
#[global] Instance NssExit_eq_dec : EqDecision NssExit.
Proof. solve_decision. Defined.

Abbreviation NssResult A := (Outcome A NssExit).

(* SRC truenas_nss/src/error.rs fn eai_name *)
Definition eai_name (code : Z) : option bytes :=
  lit <$>
  if code =? EAI_BADFLAGS then Some "EAI_BADFLAGS"
  else if code =? EAI_NONAME then Some "EAI_NONAME"
  else if code =? EAI_AGAIN then Some "EAI_AGAIN"
  else if code =? EAI_FAIL then Some "EAI_FAIL"
  else if code =? EAI_NODATA then Some "EAI_NODATA"
  else if code =? EAI_FAMILY then Some "EAI_FAMILY"
  else if code =? EAI_SOCKTYPE then Some "EAI_SOCKTYPE"
  else if code =? EAI_SERVICE then Some "EAI_SERVICE"
  else if code =? EAI_MEMORY then Some "EAI_MEMORY"
  else if code =? EAI_SYSTEM then Some "EAI_SYSTEM"
  else if code =? EAI_OVERFLOW then Some "EAI_OVERFLOW"
  else None.

(* SRC truenas_nss/src/error.rs fn status *)
Definition Error_status (self : NssError) : option NssStatus :=
  match self with
  | Call _ _ status _ => NssStatus_from_raw status
  | _ => None
  end.

(* SRC truenas_nss/src/error.rs fn errno *)
Definition Error_errno (self : NssError) : option Z :=
  match self with
  | Call _ _ _ errno | Lookup_ _ _ errno => if errno =? 0 then None else Some errno
  | _ => None
  end.

(* SRC truenas_nss/src/error.rs fn is_temporary *)
Definition is_temporary (self : NssError) : bool :=
  match self with Lookup_ _ code _ => code =? EAI_AGAIN | _ => false end.

(* SRC truenas_nss/src/error.rs fn is_unavail *)
Definition is_unavail (self : NssError) : bool := bool_decide (Error_status self = Some Unavail).

Section Display.
Context (strerror : Z → bytes).

(* SRC truenas_nss/src/error.rs impl fmt::Display for Error *)
Definition Error_display (self : NssError) : bytes :=
  match self with
  | Call module op status errno =>
      if errno =? 0 then
        module ++ lit " " ++ op ++ lit ": " ++
        match NssStatus_from_raw status with
        | Some s => NssStatus_name s
        | None => lit "status " ++ display_int status ++ lit " outside nss_status"
        end
      else
        module ++ lit " " ++ op ++ lit ": " ++ display_os strerror errno ++
        lit " (status " ++ display_int status ++ lit ")"
  | Load module reason => lit "Failed to load NSS module " ++ module ++ lit ": " ++ reason
  | Symbol_ module symbol => lit "NSS module " ++ module ++ lit " has no symbol " ++ symbol
  | Busy module =>
      lit "An enumeration of NSS module " ++ module ++ lit " is already live on this thread"
  | NulByte => lit "Argument contains an interior NUL byte"
  | NotUtf8 => lit "NSS module returned a non-UTF-8 name"
  | NullName => lit "NSS module returned an entry with no name"
  | Lookup_ op code errno =>
      match eai_name code with
      | Some name => op ++ lit " failed with " ++ name
      | None => op ++ lit " failed with EAI code " ++ display_int code
      end ++
      (if errno =? 0 then [] else lit " (" ++ display_os strerror errno ++ lit ")")
  end.
End Display.

(** What an [io::Error] is made of: a raw error number, or a kind around the
    crate's error. *)
Inductive NssIoError : Type :=
| NssRawOs (errno : Z)
| WouldBlockKind (err : NssError)
| InvalidInputKind (err : NssError)
| InvalidDataKind (err : NssError)
| OtherKind_ (err : NssError).

(* SRC truenas_nss/src/error.rs impl From<Error> for io::Error *)
Definition nss_io_from (err : NssError) : NssIoError :=
  match Error_errno err, err with
  | Some errno, _ => NssRawOs errno
  | None, Busy _ => WouldBlockKind err
  | None, NulByte => InvalidInputKind err
  | None, (NotUtf8 | NullName) => InvalidDataKind err
  | None, other => OtherKind_ other
  end.

(** ** Lemmas *)
Lemma status_raw_spec rc s : NssStatus_from_raw rc = Some s ↔ rc = NssStatus_raw s.
Proof.
  split; [|intros ->; by destruct s]. unfold NssStatus_from_raw.
  repeat case_match; intros; simplify_eq; done.
Qed.

(** A failure is skipped by the lookups across modules exactly when it is a call
    that returned [NSS_STATUS_UNAVAIL], whatever errno came with it. *)
Lemma is_unavail_spec e : is_unavail e = true ↔ ∃ m o errno, e = Call m o NSS_STATUS_UNAVAIL errno.
Proof.
  unfold is_unavail. rewrite bool_decide_eq_true. split.
  - destruct e as [m o st er| | | | | | | ]; simpl; try done. intros H%status_raw_spec. subst. by eexists _, _, _.
  - by intros (? & ? & ? & ->).
Qed.
