(* ===== verification/Nss.v ===== *)
(** The ground [truenas_nss] stands on: the memory that the entries of a
    service call point into, the interface to the dynamic loader, to the
    functions of a loaded module and to the C allocator, and the state of the
    process ([service.rs], [ffi.rs]).

    A pointer is null or an offset in a block; a block that was freed is not in
    the heap, and to read through a pointer that is not to a live block, or past
    a block's end, is [Undefined]. *)
From S2P Require Import Prelude XdrBase Utf8 NssError.
Local Open Scope Z_scope.

(** ** Memory *)
Definition ptr : Type := option (Z * Z).

(** A byte, or the [k]-th byte of a pointer. *)
Inductive cell : Type := CByte (b : Byte.byte) | CPtr (p : ptr) (k : Z).
#[global] Instance cell_eq_dec : EqDecision cell.
Proof. solve_decision. Defined.

Definition pointer (p : ptr) : list cell := CPtr p <$> seqZ 0 8.
Definition zeros (n : Z) : list cell := replicate (Z.to_nat n) (CByte x00).

(** [CStr::from_ptr]: the bytes before the first NUL. *)
Fixpoint c_string (l : list cell) : option bytes :=
  match l with
  | CByte b :: l => if decide (b = x00) then Some [] else cons b <$> c_string l
  | _ => None
  end.

(** A pointer read from memory. *)
Definition load_ptr (l : list cell) : option ptr :=
  match take 8 l with
  | (CPtr p 0 :: _) as w => if decide (w = pointer p) then Some p else None
  | w => if decide (w = zeros 8) then Some None else None
  end.

Abbreviation Heap := (gmap Z (list cell)).

Definition at_ptr (h : Heap) (q : Z * Z) : option (list cell) :=
  l ← h !! q.1; if decide (0 ≤ q.2) then Some (drop (Z.to_nat q.2) l) else None.

Definition read_string (h : Heap) (q : Z * Z) : option bytes := at_ptr h q ≫= c_string.
Definition read_ptr (h : Heap) (q : Z * Z) : option ptr := at_ptr h q ≫= load_ptr.

(** ** The structures of [libc] *)
Record passwd : Type := mkpasswd {
  pw_name : ptr; pw_passwd : ptr; pw_uid : Z; pw_gid : Z; pw_gecos : ptr; pw_dir : ptr; pw_shell : ptr
}.
Record group : Type := mkgroup { gr_name : ptr; gr_passwd : ptr; gr_gid : Z; gr_mem : ptr }.

(** ** The interface

    What a service call with a scratch buffer leaves: its status, the errno
    out-parameter, the entry and the buffer. *)
Record Reply (C : Type) : Type := mkReply { r_status : Z; r_errno : Z; r_entry : C; r_buf : list cell }.
Arguments mkReply {C}.
Arguments r_status {C}.
Arguments r_errno {C}.
Arguments r_entry {C}.
Arguments r_buf {C}.

(** It is given the entry, the buffer's block, what the buffer holds, and errno. *)
(* SRC truenas_nss/src/ffi.rs type GetentRFn *)
Definition GetentRFn (W C : Type) : Type := C → Z → list cell → Z → W → Reply C * W.

(** What [initgroups_dyn] leaves: its status, errno, [start], [size], and the
    array with the pointer to it.  [None] in the array is not initialised. *)
(* SRC truenas_nss/src/ffi.rs type InitgroupsDynFn *)
Record IgReply : Type := mkIg {
  ig_status : Z; ig_errno : Z; ig_start : Z; ig_size : Z; ig_groups : Z; ig_array : list (option Z)
}.

(** The loader, the functions at the addresses it resolves (called on a thread),
    and [malloc].  A null result is [None]. *)
Class Nss (W : Type) : Type := {
  dlopen : bytes → Z → W → option Z * W;
  dlsym : Z → bytes → W → option Z * W;
  dlerror : W → option bytes * W;
  getpwnam_r_at : Z → Z → bytes → GetentRFn W passwd;
  getpwuid_r_at : Z → Z → Z → GetentRFn W passwd;
  getpwent_r_at : Z → Z → GetentRFn W passwd;
  getgrnam_r_at : Z → Z → bytes → GetentRFn W group;
  getgrgid_r_at : Z → Z → Z → GetentRFn W group;
  getgrent_r_at : Z → Z → GetentRFn W group;
  setent_at : Z → Z → Z → Z → W → (Z * Z) * W;      (** [stayopen], the thread's errno; status, errno *)
  endent_at : Z → Z → Z → W → (Z * Z) * W;
  initgroups_dyn_at : Z → Z → bytes → Z → Z → Z → Z → list (option Z) → Z → Z → W → IgReply * W;
  malloc : Z → W → option Z * W;
  free : Z → W → W
}.

(** ** The services *)
(* SRC truenas_nss/src/service.rs enum Source *)
Inductive Source : Type := Files | Sss | Winbind.
#[global] Instance Source_eq_dec : EqDecision Source.
Proof. solve_decision. Defined.

(* SRC truenas_nss/src/service.rs const LOOKUP_ORDER *)
Definition LOOKUP_ORDER : list Source := [Files; Sss; Winbind].

(* SRC truenas_nss/src/service.rs fn name #1 *)
Definition Source_name (self : Source) : bytes :=
  lit match self with Files => "FILES" | Sss => "SSS" | Winbind => "WINBIND" end.

(* SRC truenas_nss/src/service.rs fn soname *)
Definition soname (self : Source) : bytes :=
  lit match self with
  | Files => "libnss_files.so.2" | Sss => "libnss_sss.so.2" | Winbind => "libnss_winbind.so.2"
  end.

(* SRC truenas_nss/src/service.rs fn is_local *)
Definition is_local (self : Source) : bool := match self with Files => true | _ => false end.

(* SRC truenas_nss/src/service.rs fn prefix *)
Definition prefix_of (self : Source) : bytes :=
  lit match self with Files => "files" | Sss => "sss" | Winbind => "winbind" end.

(* SRC truenas_nss/src/service.rs enum EntScope *)
Inductive EntScope : Type := Process | Thread.
#[global] Instance EntScope_eq_dec : EqDecision EntScope.
Proof. solve_decision. Defined.

(* SRC truenas_nss/src/service.rs fn scope #1 *)
Definition Source_scope (self : Source) : EntScope :=
  match self with Files => Process | Sss | Winbind => Thread end.

(** [self as usize]. *)
Definition Source_index (self : Source) : nat := match self with Files => 0 | Sss => 1 | Winbind => 2 end.

(** The addresses of the functions that resolved. *)
(* SRC truenas_nss/src/service.rs struct Fns *)
Record Fns : Type := mkFns {
  getpwnam_r : option Z; getpwuid_r : option Z; setpwent : option Z; endpwent : option Z;
  getpwent_r : option Z; getgrnam_r : option Z; getgrgid_r : option Z; setgrent : option Z;
  endgrent : option Z; getgrent_r : option Z; initgroups_dyn : option Z
}.

Definition is_some {A} (o : option A) : bool := match o with Some _ => true | None => false end.

(* SRC truenas_nss/src/service.rs fn any *)
Definition any (self : Fns) : bool :=
  is_some self.(getpwnam_r) || is_some self.(getpwuid_r) || is_some self.(setpwent)
  || is_some self.(endpwent) || is_some self.(getpwent_r) || is_some self.(getgrnam_r)
  || is_some self.(getgrgid_r) || is_some self.(setgrent) || is_some self.(endgrent)
  || is_some self.(getgrent_r) || is_some self.(initgroups_dyn).

(** [addr] is the service's address; its lock is the process's entry for it. *)
(* SRC truenas_nss/src/service.rs struct Service *)
Record Service : Type := mkService {
  addr : Z; name : bytes; prefix : bytes; source : Source; scope : EntScope; fns : Fns
}.

(* SRC truenas_nss/src/service.rs struct LoadSpec *)
Record LoadSpec : Type := mkSpec {
  sp_path : bytes; sp_prefix : bytes; sp_name : bytes; sp_scope : EntScope; sp_source : Source
}.

(* SRC truenas_nss/src/service.rs enum Database *)
Inductive Database : Type := Passwd_ | Group_.
#[global] Instance Database_eq_dec : EqDecision Database.
Proof. solve_decision. Defined.

(** ** The process

    The thread that runs, the world, the heap and the next block of it, the
    statics of the crate, each thread's [LIVE], and the holder of each service's
    [iter_lock]. *)
Record NssProc (W : Type) : Type := mkNss {
  thread : Z;
  sys : W;
  heap : Heap;
  next_block : Z;
  REGISTRY : list (option Service);
  LOADED : list Service;
  NAMES : list bytes;
  LIVE : gmap Z (list (Z * Database));
  iter_locks : gmap Z Z
}.
Arguments mkNss {W}.
Arguments thread {W}.
Arguments sys {W}.
Arguments heap {W}.
Arguments next_block {W}.
Arguments REGISTRY {W}.
Arguments LOADED {W}.
Arguments NAMES {W}.
Arguments LIVE {W}.
Arguments iter_locks {W}.

Section Process.
Context {W : Type}.
Implicit Types p : NssProc W.

Definition set_thread (t : Z) p : NssProc W :=
  mkNss t p.(sys) p.(heap) p.(next_block) p.(REGISTRY) p.(LOADED) p.(NAMES) p.(LIVE) p.(iter_locks).
Definition set_sys (w : W) p : NssProc W :=
  mkNss p.(thread) w p.(heap) p.(next_block) p.(REGISTRY) p.(LOADED) p.(NAMES) p.(LIVE) p.(iter_locks).
Definition set_heap (h : Heap) (n : Z) p : NssProc W :=
  mkNss p.(thread) p.(sys) h n p.(REGISTRY) p.(LOADED) p.(NAMES) p.(LIVE) p.(iter_locks).
Definition set_statics (r : list (option Service)) (l : list Service) (n : list bytes) p : NssProc W :=
  mkNss p.(thread) p.(sys) p.(heap) p.(next_block) r l n p.(LIVE) p.(iter_locks).
Definition set_claims (l : gmap Z (list (Z * Database))) (k : gmap Z Z) p : NssProc W :=
  mkNss p.(thread) p.(sys) p.(heap) p.(next_block) p.(REGISTRY) p.(LOADED) p.(NAMES) l k.

Abbreviation App := (St (NssProc W) NssExit).

(** A call into the world. *)
Definition sys_call {A} (c : W → A * W) : App A := λ p, let '(a, w) := c p.(sys) in (Ok a, set_sys w p).
Definition this_thread : App Z := λ p, (Ok p.(thread), p).

(** A [Result] of the crate. *)
Definition result {A} (r : Outcome A NssError) : App A := lift (map_err Fail r).
Definition refuse {A} (e : NssError) : App A := fail (Fail e).

(** [let _ = m]: an error is dropped. *)
Definition discard {A} (m : App A) : App unit := λ p,
  match m p with
  | (Ok _, p) | (Err (Fail _), p) => (Ok tt, p)
  | (Err e, p) => (Err e, p)
  | (Stop w, p) => (Stop w, p)
  end.

(** A [Result] that is kept as a value. *)
Definition caught {A} (m : App A) : App (Outcome A NssError) := λ p,
  match m p with
  | (Ok a, p) => (Ok (Ok a), p)
  | (Err (Fail e), p) => (Ok (Err e), p)
  | (Err e, p) => (Err e, p)
  | (Stop w, p) => (Stop w, p)
  end.

(** Run [m] and then [cleanup] on every path: a local that lives to the end. *)
Definition scoped {A} (cleanup : App unit) (m : App A) : App A := λ p,
  let '(r, p) := m p in (r, (cleanup p).2).

(** [vec![0; n]], and the drop of a vector. *)
Definition vec (n : Z) : App Z := λ p,
  (Ok p.(next_block), set_heap (<[p.(next_block) := zeros n]> p.(heap)) (p.(next_block) + 1) p).
Definition drop_vec (b : Z) : App unit := modify (λ p, set_heap (delete b p.(heap)) p.(next_block) p).

(** What a vector holds, and what a call leaves in it. *)
Definition contents (b : Z) : App (list cell) := λ p,
  match p.(heap) !! b with Some l => (Ok l, p) | None => (Err Undefined, p) end.
Definition overwrite (b : Z) (l : list cell) : App unit :=
  modify (λ p, set_heap (<[b := l]> p.(heap)) p.(next_block) p).

(** A read through a pointer. *)
Definition deref {A} (r : Heap → option A) : App A := λ p,
  match r p.(heap) with Some a => (Ok a, p) | None => (Err Undefined, p) end.
End Process.
