(* ===== verification/NssService.v ===== *)
(** [truenas_nss]'s [service.rs]: loading a module, the buffer-growth protocol,
    the verdict on a call, the walks across modules, the claims on an
    enumeration cursor, and the iterator over one. *)
From S2P Require Import Prelude XdrBase Utf8 NssError Nss.
Local Open Scope Z_scope.

(* SRC truenas_nss/src/service.rs fn symbol_name *)
Definition symbol_name (prefix suffix : bytes) : bytes := lit "_nss_" ++ prefix ++ lit "_" ++ suffix.

(** ** Constants *)
(* SRC truenas_nss/src/service.rs const INITIAL_BUFLEN *)
Definition INITIAL_BUFLEN : Z := 1024.
(* SRC truenas_nss/src/service.rs const MAX_BUFLEN *)
Definition MAX_BUFLEN : Z := Z.shiftl 1 24.
(* SRC truenas_nss/src/service.rs const INITGROUPS_INITIAL *)
Definition INITGROUPS_INITIAL : Z := 32.
Definition size_of_gid_t : Z := 4.
Definition RTLD_NOW : Z := 2.
Definition RTLD_LOCAL : Z := 0.

(** More than the doublings from one byte to the ceiling. *)
Definition GROW_FUEL : nat := 26.

(** ** The verdict on a call *)
(* SRC truenas_nss/src/service.rs fn classify_lookup *)
Definition classify_lookup (module op : bytes) (status errno : Z) : Outcome bool NssError :=
  if negb (errno =? 0) then Err (Call module op status errno)
  else if status =? NSS_STATUS_NOTFOUND then Ok false
  else if status =? NSS_STATUS_SUCCESS then Ok true
  else Err (Call module op status 0).

(* SRC truenas_nss/src/service.rs fn classify_ent *)
Definition classify_ent (module op : bytes) (status errno : Z) : Outcome bool NssError :=
  if negb (errno =? 0) || (status =? NSS_STATUS_TRYAGAIN) then Err (Call module op status errno)
  else Ok (status =? NSS_STATUS_SUCCESS).

(** A request for a larger buffer. *)
Definition wants_more (status errno : Z) : bool :=
  (status =? NSS_STATUS_TRYAGAIN) && (errno =? ERANGE).

(** ** Groups *)
(* SRC truenas_nss/src/service.rs fn dedup_gids *)
Definition dedup_gids (gids : list Z) : list Z :=
  (foldl (λ '(seen, out) gid,
     if decide (gid ∈ (seen : gset Z)) then (seen, out) else ({[gid]} ∪ seen, out ++ [gid]))
     (∅, []) gids).2.

Section Service.
Context {W : Type} {nss : Nss W}.
Implicit Types p : NssProc W.

Abbreviation App := (St (NssProc W) NssExit).

(** ** Loading *)
(* SRC truenas_nss/src/service.rs fn dlerror_text *)
Definition dlerror_text : App bytes :=
  e ← sys_call dlerror;
  mret match e with
  | None => lit "dlopen failed without a dlerror message"
  | Some text => from_utf8_lossy text
  end.

(** [load_locked]'s [sym]. *)
(* SRC truenas_nss/src/service.rs L 301-318 load_locked *)
Definition sym (handle : Z) (prefix : bytes) (suffix : string) : App (option Z) :=
  symbol ← result (ok_or (cstring (symbol_name prefix (lit suffix))) NulByte);
  q ← sys_call (dlsym handle symbol);
  match q with
  | None => sys_call dlerror;; mret None
  | Some a => mret (Some a)
  end.

(* SRC truenas_nss/src/service.rs L 323-368 load_locked *)
Definition resolve (handle : Z) (prefix : bytes) : App Fns :=
  getpwnam_r ← sym handle prefix "getpwnam_r";
  getpwuid_r ← sym handle prefix "getpwuid_r";
  setpwent ← sym handle prefix "setpwent";
  endpwent ← sym handle prefix "endpwent";
  getpwent_r ← sym handle prefix "getpwent_r";
  getgrnam_r ← sym handle prefix "getgrnam_r";
  getgrgid_r ← sym handle prefix "getgrgid_r";
  setgrent ← sym handle prefix "setgrent";
  endgrent ← sym handle prefix "endgrent";
  getgrent_r ← sym handle prefix "getgrent_r";
  initgroups_dyn ← sym handle prefix "initgroups_dyn";
  mret (mkFns getpwnam_r getpwuid_r setpwent endpwent getpwent_r getgrnam_r getgrgid_r
    setgrent endgrent getgrent_r initgroups_dyn).

(** A service's address is its place in [LOADED]: none is ever freed. *)
(* SRC truenas_nss/src/service.rs fn load_locked *)
Definition load_locked (spec : LoadSpec) : App Service :=
  h ← sys_call (dlopen spec.(sp_path) (Z.lor RTLD_NOW RTLD_LOCAL));
  match h with
  | None => reason ← dlerror_text; refuse (Load spec.(sp_name) reason)
  | Some handle =>
      fns ← resolve handle spec.(sp_prefix);
      if negb (any fns) then
        refuse (Symbol_ spec.(sp_name) (symbol_name spec.(sp_prefix) (lit "getpwnam_r")))
      else
        p ← get;
        let svc := mkService (len p.(LOADED)) spec.(sp_name) spec.(sp_prefix) spec.(sp_source)
          spec.(sp_scope) fns in
        modify (set_statics p.(REGISTRY) (p.(LOADED) ++ [svc]) p.(NAMES));;
        mret svc
  end.

(** The second look at the slot is the first here: a load is not interleaved. *)
(* SRC truenas_nss/src/service.rs fn service *)
Definition Source_service (self : Source) : App Service :=
  p ← get;
  match mjoin (p.(REGISTRY) !! Source_index self) with
  | Some svc => mret svc
  | None =>
      path ← result (ok_or (cstring (soname self)) NulByte);
      svc ← load_locked (mkSpec path (prefix_of self) (Source_name self) (Source_scope self) self);
      modify (λ p, set_statics (<[Source_index self := Some svc]> p.(REGISTRY)) p.(LOADED) p.(NAMES) p);;
      mret svc
  end.

(* SRC truenas_nss/src/service.rs fn intern *)
Definition intern (n : bytes) : App bytes :=
  p ← get;
  match find (λ m, bool_decide (m = n)) p.(NAMES) with
  | Some existing => mret existing
  | None => modify (set_statics p.(REGISTRY) p.(LOADED) (p.(NAMES) ++ [n]));; mret n
  end.

(* SRC truenas_nss/src/service.rs fn open *)
Definition service_open (path prefix : bytes) (scope : EntScope) (source : Source) : App Service :=
  path ← result (ok_or (cstring path) NulByte);
  name ← intern prefix;
  load_locked (mkSpec path name name scope source).

(* SRC truenas_nss/src/service.rs fn missing *)
Definition missing (self : Service) (suffix : string) : NssError :=
  Symbol_ self.(name) (symbol_name self.(prefix) (lit suffix)).

(** A function of the service, or the error for its absence. *)
Definition require_fn (self : Service) (f : Fns → option Z) (suffix : string) : App Z :=
  result (ok_or (f self.(fns)) (missing self suffix)).

(** ** Calls with a scratch buffer *)
Section Calls.
Context {C T : Type}.

(** It gives the status, errno, the buffer's last block, and the entry. *)
(* SRC truenas_nss/src/service.rs fn grow_and_call *)
Fixpoint grow_and_call (fuel : nat) (buf : Z) (entry : C) (call : GetentRFn W C) : App (Z * Z * Z * C) :=
  match fuel with
  | O => halt OutOfFuel
  | S fuel =>
      l ← contents buf;
      r ← sys_call (call entry buf l 0);
      overwrite buf r.(r_buf);;
      if negb (wants_more r.(r_status) r.(r_errno)) then
        mret (r.(r_status), r.(r_errno), buf, r.(r_entry))
      else if MAX_BUFLEN <=? len l then mret (r.(r_status), r.(r_errno), buf, r.(r_entry))
      else
        larger ← vec (Z.max (len l) 1 * 2);
        drop_vec buf;;
        grow_and_call fuel larger r.(r_entry) call
  end.

(* SRC truenas_nss/src/service.rs fn lookup_entry *)
Definition lookup_entry (zeroed : C) (svc : Service) (op : bytes) (raw : GetentRFn W C)
    (extract : C → Source → App T) : App (option T) :=
  buf ← vec INITIAL_BUFLEN;
  '(status, errno, buf, entry) ← grow_and_call GROW_FUEL buf zeroed raw;
  scoped (drop_vec buf)
    (found ← result (classify_lookup svc.(name) op status errno);
     if negb found then mret None
     else out ← extract entry svc.(source); mret (Some out)).
End Calls.

(* SRC truenas_nss/src/service.rs fn call_ent *)
Definition call_ent (module op : bytes) (call : Z → W → (Z * Z) * W) : App unit :=
  r ← sys_call (call 0);
  let '(status, errno) := r in
  if status =? NSS_STATUS_SUCCESS then mret tt else refuse (Call module op status errno).

(** ** Fields *)
(* SRC truenas_nss/src/service.rs fn name_field *)
Definition name_field (q : ptr) : App bytes :=
  match q with
  | None => refuse NullName
  | Some q => s ← deref (λ h, read_string h q); if utf8_valid s then mret s else refuse NotUtf8
  end.

(* SRC truenas_nss/src/service.rs fn text_field *)
Definition text_field (q : ptr) : App bytes :=
  match q with
  | None => mret []
  | Some q => s ← deref (λ h, read_string h q); mret (from_utf8_lossy s)
  end.

(** ** Groups *)
(* SRC truenas_nss/src/service.rs fn call_initgroups *)
Definition call_initgroups (module : bytes) (f : Z) (user : bytes) (gid : Z) : App (list Z) :=
  groups ← sys_call (malloc (INITGROUPS_INITIAL * size_of_gid_t));
  match groups with
  | None => halt Panicked
  | Some groups =>
      t ← this_thread;
      let array := Some gid :: replicate (Z.to_nat (INITGROUPS_INITIAL - 1)) None in
      r ← sys_call (initgroups_dyn_at f t user gid 1 INITGROUPS_INITIAL groups array (-1) 0);
      let filled := Z.min (Z.max r.(ig_start) 0) (Z.max r.(ig_size) 0) in
      copied ← (if len r.(ig_array) <? filled then fail Undefined
                else lift (ok_or (mapM id (take (Z.to_nat filled) r.(ig_array))) Undefined));
      sys_call (λ w, (tt, free r.(ig_groups) w));;
      result (classify_lookup module (lit "initgroups_dyn") r.(ig_status) r.(ig_errno));;
      mret copied
  end.

(** ** The walks across modules *)
(* SRC truenas_nss/src/service.rs L 703-709 fan_out_groups *)
Fixpoint groups_over (sources : list Source) (lookup : Source → App (list Z)) (all : list Z) : App (list Z) :=
  match sources with
  | [] => mret all
  | source :: rest =>
      r ← caught (lookup source);
      match r with
      | Ok gids => groups_over rest lookup (all ++ gids)
      | Err err => if is_unavail err then groups_over rest lookup all else refuse err
      | Stop w => halt w
      end
  end.

(* SRC truenas_nss/src/service.rs fn fan_out_groups *)
Definition fan_out_groups (gid : Z) (lookup : Source → App (list Z)) : App (list Z) :=
  all ← groups_over LOOKUP_ORDER lookup [gid];
  mret (dedup_gids all).

(* SRC truenas_nss/src/service.rs L 719-726 fan_out *)
Fixpoint first_over {T} (sources : list Source) (lookup : Source → App (option T)) : App (option T) :=
  match sources with
  | [] => mret None
  | source :: rest =>
      r ← caught (lookup source);
      match r with
      | Ok (Some entry) => mret (Some entry)
      | Ok None => first_over rest lookup
      | Err err => if is_unavail err then first_over rest lookup else refuse err
      | Stop w => halt w
      end
  end.

(* SRC truenas_nss/src/service.rs fn fan_out *)
Definition fan_out {T} (lookup : Source → App (option T)) : App (option T) := first_over LOOKUP_ORDER lookup.

(** ** Claims on a cursor *)
End Service.

(** [guard] is whether the claim holds the service's lock. *)
(* SRC truenas_nss/src/service.rs struct EnumSlot *)
Record EnumSlot : Type := mkEnumSlot { svc : Service; db : Database; guard : bool }.

Section Slots.
Context {W : Type}.
Implicit Types p : NssProc W.
Abbreviation App := (St (NssProc W) NssExit).

Definition live_of (t : Z) p : list (Z * Database) := default [] (p.(LIVE) !! t).

(* SRC truenas_nss/src/service.rs L 765-771 acquire *)
Definition conflicts (s : Service) (d : Database) (claim : Z * Database) : bool :=
  bool_decide (claim.1 = s.(addr)) && (bool_decide (s.(scope) = Process) || bool_decide (claim.2 = d)).

(** [iter_lock.lock()]: it waits while any thread holds it. *)
Definition lock (a : Z) : App unit :=
  p ← get;
  match p.(iter_locks) !! a with
  | Some _ => fail Blocked
  | None => modify (set_claims p.(LIVE) (<[a := p.(thread)]> p.(iter_locks)))
  end.

(* SRC truenas_nss/src/service.rs fn acquire *)
Definition acquire (s : Service) (d : Database) : App EnumSlot :=
  p ← get;
  let live := live_of p.(thread) p in
  if existsb (conflicts s d) live then refuse (Busy s.(name))
  else
    modify (set_claims (<[p.(thread) := live ++ [(s.(addr), d)]]> p.(LIVE)) p.(iter_locks));;
    match s.(scope) with
    | Process => lock s.(addr);; mret (mkEnumSlot s d true)
    | Thread => mret (mkEnumSlot s d false)
    end.

(** The claim goes from this thread's table, then the lock is given back. *)
(* SRC truenas_nss/src/service.rs impl Drop for EnumSlot *)
Definition slot_drop (self : EnumSlot) : App unit :=
  modify (λ p,
    let live := filter (λ c, c ≠ (self.(svc).(addr), self.(db))) (live_of p.(thread) p) in
    set_claims (<[p.(thread) := live]> p.(LIVE))
      (if self.(guard) then delete self.(svc).(addr) p.(iter_locks) else p.(iter_locks)) p).
End Slots.

(** ** Iterators

    The two entry types: what is all zero, and the call that steps a cursor. *)
Class EntryType (W C : Type) : Type := {
  zeroed : C;
  getent_at : Z → Z → GetentRFn W C
}.

#[global] Instance EntryType_passwd {W} {nss : Nss W} : EntryType W passwd := {
  zeroed := mkpasswd None None 0 0 None None None;
  getent_at := getpwent_r_at
}.
#[global] Instance EntryType_group {W} {nss : Nss W} : EntryType W group := {
  zeroed := mkgroup None None 0 None;
  getent_at := getgrent_r_at
}.

(* SRC truenas_nss/src/service.rs struct EntIter *)
Record EntIter (W C T : Type) : Type := mkIter {
  slot : option EnumSlot;
  getent : Z;
  endent : Z;
  getent_op : bytes;
  endent_op : bytes;
  extract : C → Source → St (NssProc W) NssExit T;
  buf : Z
}.
Arguments mkIter {W C T}.
Arguments slot {W C T}.
Arguments getent {W C T}.
Arguments endent {W C T}.
Arguments getent_op {W C T}.
Arguments endent_op {W C T}.
Arguments extract {W C T}.
Arguments buf {W C T}.

Section Iter.
Context {W C T : Type} {nss : Nss W} {ety : EntryType W C}.
Implicit Types (p : NssProc W) (self : EntIter W C T).
Abbreviation App := (St (NssProc W) NssExit).

Definition set_slot (s : option EnumSlot) self : EntIter W C T :=
  mkIter s self.(getent) self.(endent) self.(getent_op) self.(endent_op) self.(extract) self.(buf).
Definition set_buf (b : Z) self : EntIter W C T :=
  mkIter self.(slot) self.(getent) self.(endent) self.(getent_op) self.(endent_op) self.(extract) b.

(* SRC truenas_nss/src/service.rs fn new *)
Definition iter_make (s : EnumSlot) (getent endent : Z) (getent_op endent_op : bytes)
    (extract : C → Source → App T) : App (EntIter W C T) :=
  b ← vec INITIAL_BUFLEN;
  mret (mkIter (Some s) getent endent getent_op endent_op extract b).

(* SRC truenas_nss/src/service.rs fn is_open *)
Definition is_open self : bool := is_some self.(slot).

(* SRC truenas_nss/src/service.rs fn close *)
Definition iter_close self : App (EntIter W C T) :=
  match self.(slot) with
  | None => mret self
  | Some s =>
      t ← this_thread;
      discard (call_ent s.(svc).(name) self.(endent_op) (endent_at self.(endent) t));;
      slot_drop s;;
      mret (set_slot None self)
  end.

(* SRC truenas_nss/src/service.rs fn next *)
Definition ent_next self : App (option (Outcome T NssError) * EntIter W C T) :=
  match self.(slot) with
  | None => mret (None, self)
  | Some s =>
      t ← this_thread;
      '(status, errno, b, entry) ←
        grow_and_call GROW_FUEL self.(buf) (zeroed (W:=W)) (getent_at self.(getent) t);
      let self := set_buf b self in
      match classify_ent s.(svc).(name) self.(getent_op) status errno with
      | Err err => self ← iter_close self; mret (Some (Err err), self)
      | Ok false => self ← iter_close self; mret (None, self)
      | Ok true => item ← caught (self.(extract) entry s.(svc).(source)); mret (Some item, self)
      | Stop w => halt w
      end
  end.

(** The slot is closed, then the buffer goes with the other fields. *)
(* SRC truenas_nss/src/service.rs impl Drop for EntIter *)
Definition ent_drop self : App unit :=
  self ← iter_close self;
  drop_vec self.(buf).
End Iter.
