(* ===== verification/NssDb.v ===== *)
(** [truenas_nss]'s databases: [pwd.rs] and [grp.rs]. *)
From S2P Require Import Prelude XdrBase Utf8 NssError Nss NssService.
Local Open Scope Z_scope.

(* SRC truenas_nss/src/pwd.rs struct Passwd *)
Record Passwd : Type := mkPasswd {
  pwd_name : bytes; uid : Z; gid : Z; gecos : bytes; dir : bytes; shell : bytes; pwd_source : Source
}.
#[global] Instance Passwd_eq_dec : EqDecision Passwd.
Proof. solve_decision. Defined.

(* SRC truenas_nss/src/pwd.rs fn is_local *)
Definition Passwd_is_local (self : Passwd) : bool := is_local self.(pwd_source).

(* SRC truenas_nss/src/grp.rs struct Group *)
Record Group : Type := mkGroup { grp_name : bytes; grp_gid : Z; members : list bytes; grp_source : Source }.
#[global] Instance Group_eq_dec : EqDecision Group.
Proof. solve_decision. Defined.

(* SRC truenas_nss/src/grp.rs fn is_local *)
Definition Group_is_local (self : Group) : bool := is_local self.(grp_source).

Section Db.
Context {W : Type} {nss : Nss W}.
Implicit Types p : NssProc W.
Abbreviation App := (St (NssProc W) NssExit).

(** ** passwd *)
(* SRC truenas_nss/src/pwd.rs fn extract_passwd *)
Definition extract_passwd (pw : passwd) (source : Source) : App Passwd :=
  name ← name_field pw.(pw_name);
  gecos ← text_field pw.(pw_gecos);
  dir ← text_field pw.(pw_dir);
  shell ← text_field pw.(pw_shell);
  mret (mkPasswd name pw.(pw_uid) pw.(pw_gid) gecos dir shell source).

(* SRC truenas_nss/src/pwd.rs fn getpwnam #1 *)
Definition Service_getpwnam (self : Service) (name : bytes) : App (option Passwd) :=
  f ← require_fn self getpwnam_r "getpwnam_r";
  name ← result (ok_or (cstring name) NulByte);
  t ← this_thread;
  lookup_entry (zeroed (W:=W)) self (lit "getpwnam_r") (getpwnam_r_at f t name) extract_passwd.

(* SRC truenas_nss/src/pwd.rs fn getpwuid #1 *)
Definition Service_getpwuid (self : Service) (uid : Z) : App (option Passwd) :=
  f ← require_fn self getpwuid_r "getpwuid_r";
  t ← this_thread;
  lookup_entry (zeroed (W:=W)) self (lit "getpwuid_r") (getpwuid_r_at f t uid) extract_passwd.

(** [scoped] only on failure: a claim that an error return drops. *)
Definition or_release {A} (s : EnumSlot) (m : App A) : App A := λ p,
  match m p with
  | (Ok a, p) => (Ok a, p)
  | (r, p) => (r, (slot_drop s p).2)
  end.

(* SRC truenas_nss/src/pwd.rs fn passwd_entries #1 *)
Definition Service_passwd_entries (self : Service) : App (EntIter W passwd Passwd) :=
  setent ← require_fn self setpwent "setpwent";
  getent ← require_fn self getpwent_r "getpwent_r";
  endent ← require_fn self endpwent "endpwent";
  slot ← acquire self Passwd_;
  t ← this_thread;
  or_release slot (call_ent self.(name) (lit "setpwent") (setent_at setent t 0));;
  iter_make slot getent endent (lit "getpwent_r") (lit "endpwent") extract_passwd.

(* SRC truenas_nss/src/pwd.rs fn getpwnam #2 *)
Definition Source_getpwnam (self : Source) (name : bytes) : App (option Passwd) :=
  svc ← Source_service self; Service_getpwnam svc name.
(* SRC truenas_nss/src/pwd.rs fn getpwuid #2 *)
Definition Source_getpwuid (self : Source) (uid : Z) : App (option Passwd) :=
  svc ← Source_service self; Service_getpwuid svc uid.
(* SRC truenas_nss/src/pwd.rs fn passwd_entries #2 *)
Definition Source_passwd_entries (self : Source) : App (EntIter W passwd Passwd) :=
  svc ← Source_service self; Service_passwd_entries svc.

(* SRC truenas_nss/src/pwd.rs fn getpwnam #3 *)
Definition getpwnam (name : bytes) : App (option Passwd) := fan_out (λ source, Source_getpwnam source name).
(* SRC truenas_nss/src/pwd.rs fn getpwuid #3 *)
Definition getpwuid (uid : Z) : App (option Passwd) := fan_out (λ source, Source_getpwuid source uid).

(* SRC truenas_nss/src/pwd.rs fn next *)
Definition passwd_next (self : EntIter W passwd Passwd) :
    App (option (Outcome Passwd NssError) * EntIter W passwd Passwd) := ent_next self.

(** ** group *)
(** The walk of the member array from [cursor]; [fuel] is one more than the
    bytes of the array's block. *)
(* SRC truenas_nss/src/grp.rs L 57-70 extract_group *)
Fixpoint walk_members (fuel : nat) (cursor : Z * Z) (members : list bytes) : App (list bytes) :=
  match fuel with
  | O => halt OutOfFuel
  | S fuel =>
      member ← deref (λ h, read_ptr h cursor);
      match member with
      | None => mret members
      | Some _ =>
          m ← name_field member;
          walk_members fuel (cursor.1, cursor.2 + 8) (members ++ [m])
      end
  end.

(* SRC truenas_nss/src/grp.rs fn extract_group *)
Definition extract_group (gr : group) (source : Source) : App Group :=
  members ← match gr.(gr_mem) with
            | None => mret []
            | Some cursor => block ← deref (λ h, h !! cursor.1); walk_members (S (length block)) cursor []
            end;
  name ← name_field gr.(gr_name);
  mret (mkGroup name gr.(gr_gid) members source).

(* SRC truenas_nss/src/grp.rs fn getgrnam #1 *)
Definition Service_getgrnam (self : Service) (name : bytes) : App (option Group) :=
  f ← require_fn self getgrnam_r "getgrnam_r";
  name ← result (ok_or (cstring name) NulByte);
  t ← this_thread;
  lookup_entry (zeroed (W:=W)) self (lit "getgrnam_r") (getgrnam_r_at f t name) extract_group.

(* SRC truenas_nss/src/grp.rs fn getgrgid #1 *)
Definition Service_getgrgid (self : Service) (gid : Z) : App (option Group) :=
  f ← require_fn self getgrgid_r "getgrgid_r";
  t ← this_thread;
  lookup_entry (zeroed (W:=W)) self (lit "getgrgid_r") (getgrgid_r_at f t gid) extract_group.

(* SRC truenas_nss/src/grp.rs fn grouplist_raw *)
Definition grouplist_raw (self : Service) (name : bytes) (gid : Z) : App (list Z) :=
  f ← require_fn self initgroups_dyn "initgroups_dyn";
  user ← result (ok_or (cstring name) NulByte);
  call_initgroups self.(Nss.name) f user gid.

(* SRC truenas_nss/src/grp.rs fn getgrouplist #1 *)
Definition Service_getgrouplist (self : Service) (name : bytes) (gid : Z) : App (list Z) :=
  gids ← grouplist_raw self name gid; mret (dedup_gids gids).

(* SRC truenas_nss/src/grp.rs fn group_entries #1 *)
Definition Service_group_entries (self : Service) : App (EntIter W group Group) :=
  setent ← require_fn self setgrent "setgrent";
  getent ← require_fn self getgrent_r "getgrent_r";
  endent ← require_fn self endgrent "endgrent";
  slot ← acquire self Group_;
  t ← this_thread;
  or_release slot (call_ent self.(name) (lit "setgrent") (setent_at setent t 0));;
  iter_make slot getent endent (lit "getgrent_r") (lit "endgrent") extract_group.

(* SRC truenas_nss/src/grp.rs fn getgrnam #2 *)
Definition Source_getgrnam (self : Source) (name : bytes) : App (option Group) :=
  svc ← Source_service self; Service_getgrnam svc name.
(* SRC truenas_nss/src/grp.rs fn getgrgid #2 *)
Definition Source_getgrgid (self : Source) (gid : Z) : App (option Group) :=
  svc ← Source_service self; Service_getgrgid svc gid.
(* SRC truenas_nss/src/grp.rs fn getgrouplist #2 *)
Definition Source_getgrouplist (self : Source) (name : bytes) (gid : Z) : App (list Z) :=
  svc ← Source_service self; Service_getgrouplist svc name gid.
(* SRC truenas_nss/src/grp.rs fn group_entries #2 *)
Definition Source_group_entries (self : Source) : App (EntIter W group Group) :=
  svc ← Source_service self; Service_group_entries svc.

(* SRC truenas_nss/src/grp.rs fn getgrnam #3 *)
Definition getgrnam (name : bytes) : App (option Group) := fan_out (λ source, Source_getgrnam source name).
(* SRC truenas_nss/src/grp.rs fn getgrgid #3 *)
Definition getgrgid (gid : Z) : App (option Group) := fan_out (λ source, Source_getgrgid source gid).
(* SRC truenas_nss/src/grp.rs fn getgrouplist #3 *)
Definition getgrouplist (name : bytes) (gid : Z) : App (list Z) :=
  fan_out_groups gid (λ source, svc ← Source_service source; grouplist_raw svc name gid).

(* SRC truenas_nss/src/grp.rs fn next *)
Definition group_next (self : EntIter W group Group) :
    App (option (Outcome Group NssError) * EntIter W group Group) := ent_next self.
End Db.

(** [truenas_nss]'s [hosts.rs] and [netgr.rs]: names of addresses and netgroups,
    asked of glibc.

    An address is its octets as they lie in memory, which is what
    [from_ne_bytes] and [to_ne_bytes] keep. *)

(** [IpAddr], of four and of sixteen octets. *)
Inductive IpAddr : Type := V4 (octets : bytes) | V6 (octets : bytes).
#[global] Instance IpAddr_eq_dec : EqDecision IpAddr.
Proof. solve_decision. Defined.

Definition ip_ok (a : IpAddr) : Prop :=
  match a with V4 o => len o = 4 | V6 o => len o = 16 end.

(** [IpAddr::to_canonical]: an address mapped from IPv4 is that address. *)
Definition MAPPED : bytes := replicate 10 x00 ++ [xff; xff].
Definition to_canonical (a : IpAddr) : IpAddr :=
  match a with
  | V4 o => V4 o
  | V6 o => if decide (take 12 o = MAPPED) then V4 (drop 12 o) else V6 o
  end.

(** ** The interface

    [libc]'s constants on Linux, and the layouts of the two socket addresses:
    family, port, address, and for IPv6 the flow and the scope around it. *)
Definition AF_UNSPEC : Z := 0.
Definition AF_INET : Z := 2.
Definition AF_INET6 : Z := 10.
Definition SOCK_STREAM : Z := 1.
Definition NI_MAXHOST : Z := 1025.
Definition NI_NAMEREQD : Z := 8.
Definition size_of_sockaddr_in : Z := 16.
Definition size_of_sockaddr_in6 : Z := 28.

(** The family is in the order of a little-endian machine. *)
Definition sockaddr_in (octets : bytes) : bytes := [x02; x00] ++ [x00; x00] ++ octets ++ replicate 8 x00.
Definition sockaddr_in6 (octets : bytes) : bytes :=
  [x0a; x00] ++ [x00; x00] ++ replicate 4 x00 ++ octets ++ replicate 4 x00.

Record addrinfo : Type := mkAddrinfo { ai_family : Z; ai_addrlen : Z; ai_addr : bytes }.

(** [getnameinfo] is given the address and its length, the name's buffer and the
    flags; [getaddrinfo] the name, the family and the socket type.  Each leaves a
    code, the thread's errno and its result; a list of addresses comes with the
    pointer to release it by.  A null string is [None]. *)
Class Resolver (W : Type) : Type := {
  libc_getnameinfo : bytes → Z → bytes → Z → W → (Z * Z * bytes) * W;
  libc_getaddrinfo : bytes → Z → Z → W → (Z * Z * (Z * list addrinfo)) * W;
  freeaddrinfo : Z → W → W;
  libc_innetgr : bytes → option bytes → option bytes → option bytes → W → Z * W
}.

(* SRC truenas_nss/src/hosts.rs fn found *)
Definition found (op : bytes) (rc errno : Z) : Outcome bool NssError :=
  if rc =? 0 then Ok true
  else if (rc =? EAI_NONAME) || (rc =? EAI_NODATA) then Ok false
  else Err (Lookup_ op rc (if rc =? EAI_SYSTEM then errno else 0)).

(** The socket address and its length. *)
(* SRC truenas_nss/src/hosts.rs fn with_sockaddr *)
Definition with_sockaddr {T} (a : IpAddr) (call : bytes → Z → T) : T :=
  match a with
  | V4 v4 => call (sockaddr_in v4) size_of_sockaddr_in
  | V6 v6 => call (sockaddr_in6 v6) size_of_sockaddr_in6
  end.

Definition octets_at (off n : nat) (l : bytes) : option bytes :=
  if decide (off + n ≤ length l)%nat then Some (take n (drop off l)) else None.

Section Hosts.
Context {W : Type} {res : Resolver W}.
Abbreviation App := (St (NssProc W) NssExit).

Definition or_undefined {A} (o : option A) : App A := lift (ok_or o Undefined).

(* SRC truenas_nss/src/hosts.rs fn address_of *)
Definition address_of (entry : addrinfo) : App (option IpAddr) :=
  let n := entry.(ai_addrlen) in
  if (entry.(ai_family) =? AF_INET) && (size_of_sockaddr_in <=? n) then
    octets ← or_undefined (octets_at 4 4 entry.(ai_addr)); mret (Some (V4 octets))
  else if (entry.(ai_family) =? AF_INET6) && (size_of_sockaddr_in6 <=? n) then
    octets ← or_undefined (octets_at 8 16 entry.(ai_addr)); mret (Some (V6 octets))
  else mret None.

(* SRC truenas_nss/src/hosts.rs fn getnameinfo *)
Definition getnameinfo (a : IpAddr) : App (option bytes) :=
  let host := replicate (Z.to_nat NI_MAXHOST) x00 in
  r ← with_sockaddr (to_canonical a) (λ sa salen, sys_call (libc_getnameinfo sa salen host NI_NAMEREQD));
  let '(rc, errno, host) := r in
  ok ← result (found (lit "getnameinfo") rc errno);
  if negb ok then mret None
  else
    name ← or_undefined (c_string (CByte <$> host));
    if utf8_valid name then mret (Some name) else refuse NotUtf8.

(** The walk of the list, and its release. *)
(* SRC truenas_nss/src/hosts.rs L 173-180 addresses *)
Fixpoint collect_addresses (l : list addrinfo) (addresses : list IpAddr) : App (list IpAddr) :=
  match l with
  | [] => mret addresses
  | entry :: rest =>
      a ← address_of entry;
      collect_addresses rest (addresses ++ option_list a)
  end.

(* SRC truenas_nss/src/hosts.rs fn addresses *)
Definition addresses (name : bytes) : App (list IpAddr) :=
  node ← result (ok_or (cstring name) NulByte);
  r ← sys_call (libc_getaddrinfo node AF_UNSPEC SOCK_STREAM);
  let '(rc, errno, list) := r in
  ok ← result (found (lit "getaddrinfo") rc errno);
  if negb ok then mret []
  else scoped (sys_call (λ w, (tt, freeaddrinfo list.1 w))) (collect_addresses list.2 []).

(* SRC truenas_nss/src/hosts.rs fn confirmed_name *)
Definition confirmed_name (a : IpAddr) : App (option bytes) :=
  n ← getnameinfo a;
  match n with
  | None => mret None
  | Some name =>
      let wanted := to_canonical a in
      l ← addresses name;
      mret (if existsb (λ b, bool_decide (to_canonical b = wanted)) l then Some name else None)
  end.

(** [.map(c).transpose()?]. *)
Definition c_arg (s : option bytes) : App (option bytes) :=
  match s with
  | None => mret None
  | Some s => s ← result (ok_or (cstring s) NulByte); mret (Some s)
  end.

(* SRC truenas_nss/src/netgr.rs fn innetgr *)
Definition innetgr (netgroup : bytes) (host user domain : option bytes) : App bool :=
  netgroup ← result (ok_or (cstring netgroup) NulByte);
  host ← c_arg host;
  user ← c_arg user;
  domain ← c_arg domain;
  r ← sys_call (libc_innetgr netgroup host user domain);
  mret (r =? 1).
End Hosts.
