(* ===== verification/NssLaws.v ===== *)
(** What the service ABI documents of a module's functions and the C library of
    its allocator, and what an entry in a scratch buffer says.

    An entry's pointers are null or into the buffer it was filled through; what
    it says is a [Raw] record of the bytes it points to. *)
From S2P Require Import Prelude XdrBase Utf8 NssError Nss NssService NssDb.
Local Open Scope Z_scope.

(** ** Entries *)
(** The string a pointer leads to in the block [b] that holds [l]; null is [None]. *)
Definition reads (b : Z) (l : list cell) (q : ptr) (s : option bytes) : Prop :=
  match q, s with
  | None, None => True
  | Some (b', off), Some s => b' = b ∧ 0 ≤ off ∧ c_string (drop (Z.to_nat off) l) = Some s
  | _, _ => False
  end.

(** The strings of a null-terminated array at [off]. *)
Inductive array_reads (b : Z) (l : list cell) : Z → list bytes → Prop :=
| array_end off : 0 ≤ off → load_ptr (drop (Z.to_nat off) l) = Some None → array_reads b l off []
| array_more off q m ms :
    0 ≤ off → load_ptr (drop (Z.to_nat off) l) = Some (Some q) → reads b l (Some q) (Some m) →
    array_reads b l (off + 8) ms → array_reads b l off (m :: ms).

(** What is known of an entry type: the record its pointers read as, the owned
    value that makes, and that the extraction gives just that, touching nothing. *)
Class Entry (W C T : Type) {nss : Nss W} {ety : EntryType W C} : Type := {
  Raw : Type;
  raw_reads : Z → list cell → C → Raw → Prop;
  of_raw : Raw → Source → Outcome T NssError;
  extraction : C → Source → St (NssProc W) NssExit T;
  extraction_ok p b l e raw src :
    p.(heap) !! b = Some l → raw_reads b l e raw → extraction e src p = (map_err Fail (of_raw raw src), p);
  of_raw_returns raw src w : of_raw raw src ≠ Stop w
}.

Record RawPasswd : Type := mkRawPasswd {
  raw_name : option bytes; raw_uid : Z; raw_gid : Z;
  raw_gecos : option bytes; raw_dir : option bytes; raw_shell : option bytes
}.

Record passwd_reads (b : Z) (l : list cell) (e : passwd) (raw : RawPasswd) : Prop := {
  reads_name : reads b l e.(pw_name) raw.(raw_name);
  reads_uid : e.(pw_uid) = raw.(raw_uid);
  reads_gid : e.(pw_gid) = raw.(raw_gid);
  reads_gecos : reads b l e.(pw_gecos) raw.(raw_gecos);
  reads_dir : reads b l e.(pw_dir) raw.(raw_dir);
  reads_shell : reads b l e.(pw_shell) raw.(raw_shell)
}.

(** An identity that cannot be used in a lookup is refused. *)
Definition identity (s : option bytes) : Outcome bytes NssError :=
  match s with
  | None => Err NullName
  | Some s => if utf8_valid s then Ok s else Err NotUtf8
  end.
Definition description (s : option bytes) : bytes := from_utf8_lossy (default [] s).

Definition passwd_of (raw : RawPasswd) (src : Source) : Outcome Passwd NssError :=
  outcome_map (λ n, mkPasswd n raw.(raw_uid) raw.(raw_gid) (description raw.(raw_gecos))
    (description raw.(raw_dir)) (description raw.(raw_shell)) src) (identity raw.(raw_name)).

Record RawGroup : Type := mkRawGroup { raw_gname : option bytes; raw_ggid : Z; raw_mem : list bytes }.

Record group_reads (b : Z) (l : list cell) (e : group) (raw : RawGroup) : Prop := {
  reads_gname : reads b l e.(gr_name) raw.(raw_gname);
  reads_ggid : e.(gr_gid) = raw.(raw_ggid);
  reads_mem : match e.(gr_mem) with
              | None => raw.(raw_mem) = []
              | Some (b', off) => b' = b ∧ array_reads b l off raw.(raw_mem)
              end
}.

Definition group_of (raw : RawGroup) (src : Source) : Outcome Group NssError :=
  if forallb utf8_valid raw.(raw_mem)
  then outcome_map (λ n, mkGroup n raw.(raw_ggid) raw.(raw_mem) src) (identity raw.(raw_gname))
  else Err NotUtf8.

Section Extraction.
Context {W : Type} {nss : Nss W}.
Implicit Types p : NssProc W.

Lemma read_reads p b l b' off s :
  p.(heap) !! b = Some l → reads b l (Some (b', off)) (Some s) → read_string p.(heap) (b', off) = Some s.
Proof.
  intros Hb (-> & Ho & Hs). unfold read_string, at_ptr. simpl. rewrite Hb. simpl. by rewrite decide_True.
Qed.

Lemma name_field_ok p b l q s :
  p.(heap) !! b = Some l → reads b l q s → name_field q p = (map_err Fail (identity s), p).
Proof.
  intros Hb Hq. destruct q as [[b' off]|], s as [s|]; try done.
  unfold name_field, deref, refuse, fail, mbind, St_bind, mret, St_ret. rewrite (read_reads _ _ _ _ _ _ Hb Hq). simpl.
  by case_match.
Qed.

Lemma text_field_ok p b l q s :
  p.(heap) !! b = Some l → reads b l q s → text_field q p = (Ok (description s), p).
Proof.
  intros Hb Hq. destruct q as [[b' off]|], s as [s|]; try done.
  unfold text_field, deref, mbind, St_bind, mret, St_ret. by rewrite (read_reads _ _ _ _ _ _ Hb Hq).
Qed.

Lemma extract_passwd_ok p b l e raw src :
  p.(heap) !! b = Some l → passwd_reads b l e raw → extract_passwd e src p = (map_err Fail (passwd_of raw src), p).
Proof.
  intros Hb [H1 H2 H3 H4 H5 H6]. unfold extract_passwd, passwd_of, mbind, St_bind.
  rewrite (name_field_ok _ _ _ _ _ Hb H1). destruct (identity (raw_name raw)) as [n|err|w]; [|done..]. simpl.
  rewrite (text_field_ok _ _ _ _ _ Hb H4), (text_field_ok _ _ _ _ _ Hb H5), (text_field_ok _ _ _ _ _ Hb H6).
  by rewrite H2, H3.
Qed.

(** An array in a block ends before the block does. *)
Lemma load_ptr_inside l q : load_ptr l = Some q → (8 ≤ length l)%nat.
Proof.
  unfold load_ptr. intros H. assert (length (take 8 l) = 8%nat) as Hl; [|rewrite length_take in Hl; lia].
  generalize dependent (take 8 l). intros k H.
  assert ((∃ x, k = pointer x) ∨ k = zeros 8) as [[x ->] | ->]; [|by unfold pointer; rewrite length_fmap|done].
  repeat (case_match; simplify_eq); eauto.
Qed.

Lemma walk_members_ok p b l off ms : p.(heap) !! b = Some l → array_reads b l off ms →
  ∀ fuel acc, Z.of_nat (length l) - off < Z.of_nat fuel →
  walk_members fuel (b, off) acc p =
    (if forallb utf8_valid ms then Ok (acc ++ ms) else Err (Fail NotUtf8), p).
Proof.
  intros Hb Ha. assert (∀ off q, 0 ≤ off → load_ptr (drop (Z.to_nat off) l) = Some q → read_ptr p.(heap) (b, off) = Some q) as Hr.
  { intros o q Ho Hq. unfold read_ptr, at_ptr. simpl. rewrite Hb. simpl. by rewrite decide_True. }
  induction Ha as [off Ho Hl|off [b' o'] m ms Ho Hl Hm _ IH]; intros fuel acc Hf;
    pose proof (load_ptr_inside _ _ Hl) as Hin; rewrite length_drop in Hin; (destruct fuel as [|fuel]; [lia|]);
    cbn [walk_members]; unfold deref at 1, mbind, St_bind; rewrite (Hr _ _ Ho Hl).
  - unfold mret, St_ret. simpl. by rewrite app_nil_r.
  - rewrite (name_field_ok p b l (Some (b', o')) (Some m) Hb Hm). simpl. destruct (utf8_valid m); [|done]. simpl.
    rewrite IH by lia. by rewrite <- app_assoc.
Qed.

Lemma extract_group_ok p b l e raw src :
  p.(heap) !! b = Some l → group_reads b l e raw → extract_group e src p = (map_err Fail (group_of raw src), p).
Proof.
  intros Hb [H1 H2 H3]. unfold extract_group, group_of, mbind, St_bind.
  destruct (gr_mem e) as [[b' off]|]; [destruct H3 as [-> H3]|].
  - unfold deref at 1. cbn [fst]. rewrite Hb, (walk_members_ok _ _ _ _ _ Hb H3).
    + destruct (forallb utf8_valid (raw_mem raw)); [|done]. simpl. rewrite (name_field_ok _ _ _ _ _ Hb H1).
      destruct (identity (raw_gname raw)) as [n|err|w]; [|done..]. simpl. by rewrite H2.
    + assert (0 ≤ off) by (by inversion H3). lia.
  - rewrite H3. simpl. rewrite (name_field_ok _ _ _ _ _ Hb H1).
    destruct (identity (raw_gname raw)) as [n|err|w]; [|done..]. simpl. by rewrite H2.
Qed.

Lemma identity_returns s w : identity s ≠ Stop w.
Proof. unfold identity. by repeat case_match. Qed.

Lemma map_returns {A B E} (f : A → B) (o : Outcome A E) w : o ≠ Stop w → outcome_map f o ≠ Stop w.
Proof. destruct o; intros H ?; simplify_eq/=. Qed.
End Extraction.

#[global] Program Instance Entry_passwd {W} {nss : Nss W} : Entry W passwd Passwd := {|
  Raw := RawPasswd; raw_reads := passwd_reads; of_raw := passwd_of; extraction := extract_passwd
|}.
Next Obligation. intros. by eapply extract_passwd_ok. Qed.
Next Obligation.
  intros. apply map_returns, identity_returns.
Qed.

#[global] Program Instance Entry_group {W} {nss : Nss W} : Entry W group Group := {|
  Raw := RawGroup; raw_reads := group_reads; of_raw := group_of; extraction := extract_group
|}.
Next Obligation. intros. by eapply extract_group_ok. Qed.
Next Obligation.
  intros. simpl. unfold group_of. case_match; [apply map_returns, identity_returns|done].
Qed.

(** ** The laws

    The blocks a program has from [malloc] and has not given back.  A call that
    succeeds leaves an entry that can be read in the buffer it was given, of the
    buffer's length.  [initgroups_dyn] may have moved the array by [realloc]; it
    reports a capacity that the array has, of which the part up to [start] is the
    seed and what it appended. *)
Section Laws.
Context {W : Type} {nss : Nss W}.

Definition fills {C T} {ety : EntryType W C} {ent : Entry W C T} (alloc : W → gset Z) (c : GetentRFn W C) : Prop :=
  ∀ e b l w r w', c e b l 0 w = (r, w') →
    alloc w' = alloc w ∧ len r.(r_buf) = len l ∧
    (r.(r_status) = NSS_STATUS_SUCCESS → r.(r_errno) = 0 → ∃ raw, raw_reads b r.(r_buf) r.(r_entry) raw).

Class NssLaws : Type := {
  allocated : W → gset Z;
  dlopen_law path flags w : allocated (dlopen path flags w).2 = allocated w;
  dlsym_law h s w : allocated (dlsym h s w).2 = allocated w;
  dlerror_law w : allocated (dlerror w).2 = allocated w;
  getpwnam_law f t n : fills (T:=Passwd) allocated (getpwnam_r_at f t n);
  getpwuid_law f t u : fills (T:=Passwd) allocated (getpwuid_r_at f t u);
  getpwent_law f t : fills (T:=Passwd) allocated (getpwent_r_at f t);
  getgrnam_law f t n : fills (T:=Group) allocated (getgrnam_r_at f t n);
  getgrgid_law f t g : fills (T:=Group) allocated (getgrgid_r_at f t g);
  getgrent_law f t : fills (T:=Group) allocated (getgrent_r_at f t);
  setent_law f t stayopen e w : allocated (setent_at f t stayopen e w).2 = allocated w;
  endent_law f t e w : allocated (endent_at f t e w).2 = allocated w;
  malloc_law n w q w' : malloc n w = (q, w') →
    match q with
    | None => allocated w' = allocated w
    | Some q => (q ∉ allocated w) ∧ allocated w' = {[q]} ∪ allocated w
    end;
  free_law q w : q ∈ allocated w → allocated (free q w) = allocated w ∖ {[q]};
  initgroups_law f t user gid q arr w r w' :
    q ∈ allocated w → len arr = INITGROUPS_INITIAL → arr !! 0%nat = Some (Some gid) →
    initgroups_dyn_at f t user gid 1 INITGROUPS_INITIAL q arr (-1) 0 w = (r, w') →
    (r.(ig_groups) ∉ allocated w ∖ {[q]}) ∧ allocated w' = {[r.(ig_groups)]} ∪ (allocated w ∖ {[q]}) ∧
    1 ≤ r.(ig_start) ∧ 1 ≤ r.(ig_size) ≤ len r.(ig_array) ∧
    ∃ added, take (Z.to_nat (Z.min r.(ig_start) r.(ig_size))) r.(ig_array) = Some gid :: (Some <$> added)
}.
End Laws.
Arguments NssLaws W {nss}.
