(* ===== verification/NssLookup.v ===== *)
(** Service calls with a scratch buffer: the growth protocol ends, and a lookup
    gives the verdict on its last attempt and leaves nothing behind. *)
From S2P Require Import Prelude XdrBase Utf8 NssError Nss NssService NssDb NssLaws.
Local Open Scope Z_scope.

(** ** What a call leaves alone *)
Section Frame.
Context {W : Type} {nss : Nss W} {laws : NssLaws W}.
Implicit Types p : NssProc W.

(** No block of the heap is one that is still to be made. *)
Definition heap_ok p : Prop := ∀ b, is_Some (p.(heap) !! b) → b < p.(next_block).

(** The services, the claims, the heap and the C heap are as they were. *)
Record undisturbed p p' : Prop := mkUndisturbed {
  und_thread : p'.(thread) = p.(thread);
  und_registry : p'.(REGISTRY) = p.(REGISTRY);
  und_loaded : p'.(LOADED) = p.(LOADED);
  und_names : p'.(NAMES) = p.(NAMES);
  und_live : p'.(LIVE) = p.(LIVE);
  und_locks : p'.(iter_locks) = p.(iter_locks);
  und_heap : p'.(heap) = p.(heap);
  und_next : p.(next_block) ≤ p'.(next_block);
  und_alloc : allocated p'.(sys) = allocated p.(sys)
}.

#[global] Instance undisturbed_preorder : PreOrder undisturbed.
Proof.
  split.
  - by intros p.
  - intros p1 p2 p3 [] []. split; first [congruence|lia].
Qed.

Lemma undisturbed_heap p p' : undisturbed p p' → heap_ok p → heap_ok p'.
Proof. intros [] Hp b Hb. rewrite und_heap0 in Hb. specialize (Hp b Hb). lia. Qed.

(** A call into the world. *)
Lemma undisturbed_sys p w : allocated w = allocated p.(sys) → undisturbed p (set_sys w p).
Proof. by intros H. Qed.
End Frame.

(** A call into the world, for rewriting. *)
Lemma run_sys {W A B} (c : W → A * W) (f : A → St (NssProc W) NssExit B) p :
  (sys_call c ≫= f) p = f (c p.(sys)).1 (set_sys (c p.(sys)).2 p).
Proof. unfold sys_call, mbind, St_bind. by destruct (c p.(sys)). Qed.

(** ** The growth protocol *)
Section Growth.
Context {W C : Type}.
Implicit Types (p : NssProc W) (c : GetentRFn W C).

(** [c] is called [k] times from the world [w], first with a buffer that holds
    [l] and then with ones twice as long and of zeros, the errno slot zeroed each
    time; all but the last call ask for more, and the last one, in the block [b],
    leaves [r].  It does not ask for more, or is at the ceiling. *)
Inductive asked c : nat → list cell → C → W → Z → Reply C → W → Prop :=
| asked_last l e b w r w' :
    c e b l 0 w = (r, w') →
    wants_more r.(r_status) r.(r_errno) = false ∨ MAX_BUFLEN ≤ len l →
    asked c 1 l e w b r w'
| asked_more k l e b b' w r w1 r' w' :
    c e b l 0 w = (r, w1) →
    wants_more r.(r_status) r.(r_errno) = true → len l < MAX_BUFLEN →
    asked c k (zeros (Z.max (len l) 1 * 2)) r.(r_entry) w1 b' r' w' →
    asked c (S k) l e w b' r' w'.

Lemma zeros_len n : 0 ≤ n → len (zeros n) = n.
Proof. intros. unfold zeros. rewrite length_replicate. lia. Qed.

(** Each call but the last doubles, below the ceiling. *)
Lemma asked_bound c k l e w b r w' : asked c k l e w b r w' →
  (1 ≤ k)%nat ∧ ((2 ≤ k)%nat → Z.max (len l) 1 * 2 ^ (Z.of_nat k - 2) < MAX_BUFLEN).
Proof.
  induction 1 as [|k l e b b' w r w1 r' w' Hc Hm Hl Ha [IH1 IH2]]; [split; lia|]. split; [lia|]. intros _.
  rewrite zeros_len in IH2 by lia. destruct (decide (k = 1%nat)) as [->|Hk].
  - change (MAX_BUFLEN) with 16777216 in *. simpl. lia.
  - specialize (IH2 ltac:(lia)). replace (Z.of_nat (S k) - 2) with (Z.succ (Z.of_nat k - 2)) by lia.
    rewrite Z.pow_succ_r by lia. rewrite (Z.max_l (Z.max (len l) 1 * 2) 1) in IH2 by lia. lia.
Qed.

(** The state after the last call: the buffer is the block [b']. *)
Record grown p (b b' : Z) (r : Reply C) (w : W) p' : Prop := mkGrown {
  grown_thread : p'.(thread) = p.(thread);
  grown_statics : p'.(REGISTRY) = p.(REGISTRY) ∧ p'.(LOADED) = p.(LOADED) ∧ p'.(NAMES) = p.(NAMES);
  grown_claims : p'.(LIVE) = p.(LIVE) ∧ p'.(iter_locks) = p.(iter_locks);
  grown_heap : p'.(heap) = <[b' := r.(r_buf)]> (delete b p.(heap));
  grown_next : p.(next_block) ≤ p'.(next_block) ∧ b' < p'.(next_block);
  grown_block : b' = b ∨ p.(next_block) ≤ b';
  grown_sys : p'.(sys) = w
}.

(** Whatever the module answers, the protocol ends, with the fuel for a buffer of
    [n] bytes or more. *)
Lemma grow_runs c : ∀ fuel p b l e,
  heap_ok p → p.(heap) !! b = Some l → MAX_BUFLEN ≤ Z.max (len l) 1 * 2 ^ (Z.of_nat fuel - 1) → (1 ≤ fuel)%nat →
  ∃ k b' r w' p',
    grow_and_call fuel b e c p = (Ok (r.(r_status), r.(r_errno), b', r.(r_entry)), p') ∧
    asked c k l e p.(sys) b' r w' ∧ grown p b b' r w' p'.
Proof.
  induction fuel as [|fuel IH]; intros p b l e Hok Hb Hf H1; [lia|]. cbn [grow_and_call].
  unfold contents, sys_call, overwrite, vec, drop_vec, modify, mbind, St_bind, mret, St_ret. rewrite Hb.
  destruct (c e b l 0 (sys p)) as [r w1] eqn:Hc.
  pose proof (Hok b (mk_is_Some _ _ Hb)) as Hlt.
  assert (wants_more (r_status r) (r_errno r) = false ∨ MAX_BUFLEN ≤ len l →
    ∃ p', (Ok (r_status r, r_errno r, b, r_entry r),
      set_heap (<[b := r_buf r]> (heap (set_sys w1 p))) (next_block (set_sys w1 p)) (set_sys w1 p)) =
      (Ok (r_status r, r_errno r, b, r_entry r) : NssResult _, p') ∧
      asked c 1 l e (sys p) b r w1 ∧ grown p b b r w1 p') as Hlast.
  { intros Hw. eexists. split; [done|]. split; [by econstructor|]. split; try done; simpl; [by rewrite insert_delete_eq|by left]. }
  destruct (wants_more (r_status r) (r_errno r)) eqn:Hm; simpl.
  2:{ destruct Hlast as (p' & Hr & Ha & Hg); [by left|]. by exists 1%nat, b, r, w1, p'. }
  destruct (MAX_BUFLEN <=? len l) eqn:Hle.
  { apply Z.leb_le in Hle. destruct Hlast as (p' & Hr & Ha & Hg); [by right|]. by exists 1%nat, b, r, w1, p'. }
  clear Hlast. apply Z.leb_gt in Hle. destruct (decide (fuel = 0%nat)) as [->|Hn0].
  { change (MAX_BUFLEN) with 16777216 in *. simpl in Hf. lia. }
  match goal with |- context [grow_and_call fuel ?b2 ?e2 c ?p2] => destruct (IH p2 b2 (zeros (Z.max (len l) 1 * 2)) e2) as (k & b' & r' & w' & p' & Hr & Ha & Hg) end.
  - intros b2 [x Hx]. simpl in *. rewrite lookup_delete_Some, !lookup_insert_Some in Hx.
    destruct Hx as [_ [[<- _]|[_ [[<- _]|[_ Hx]]]]]; [lia|lia|]. specialize (Hok b2 (mk_is_Some _ _ Hx)). lia.
  - simpl. rewrite lookup_delete_ne by lia. by rewrite lookup_insert_eq.
  - rewrite zeros_len by lia. rewrite (Z.max_l (Z.max (len l) 1 * 2) 1) by lia.
    replace (Z.of_nat (S fuel) - 1) with (Z.succ (Z.of_nat fuel - 1)) in Hf by lia. rewrite Z.pow_succ_r in Hf by lia. lia.
  - lia.
  - exists (S k), b', r', w', p'. split; [done|]. split; [by econstructor|]. destruct Hg as [G1 G2 G3 G4 [G5 G5'] G6 G7]. simpl in *.
    split; try done.
    + rewrite G4. f_equal. apply map_eq. intros x. destruct (decide (x = next_block p)) as [->|Hx1].
      * rewrite lookup_delete_eq, lookup_delete_ne by lia. symmetry. apply eq_None_not_Some. intros Hs%Hok. lia.
      * rewrite lookup_delete_ne by done. destruct (decide (x = b)) as [->|Hx2]; [by rewrite !lookup_delete_eq|].
        by rewrite !lookup_delete_ne, !lookup_insert_ne by done.
    + split; [lia|done].
    + right. destruct G6 as [->|]; lia.
Qed.
End Growth.

(** ** Lookups *)
Section Lookup.
Context {W C T : Type} {nss : Nss W} {ety : EntryType W C} {ent : Entry W C T} {laws : NssLaws W}.
Implicit Types (p : NssProc W) (c : GetentRFn W C).

(** The result that the answer [r] in the block [b] means: an errno is a fault
    whatever the status; without one, not found, the entry read out of the
    buffer, or a fault. *)
Definition answered (s : Service) (op : bytes) (b : Z) (r : Reply C) (res : NssResult (option T)) : Prop :=
  (r.(r_errno) = 0 ∧ r.(r_status) = NSS_STATUS_NOTFOUND ∧ res = Ok None) ∨
  (r.(r_errno) = 0 ∧ r.(r_status) = NSS_STATUS_SUCCESS ∧
     ∃ raw, raw_reads b r.(r_buf) r.(r_entry) raw ∧
       res = map_err Fail (outcome_map Some (of_raw raw s.(source)))) ∨
  ((r.(r_errno) ≠ 0 ∨ (r.(r_status) ≠ NSS_STATUS_NOTFOUND ∧ r.(r_status) ≠ NSS_STATUS_SUCCESS)) ∧
     res = Err (Fail (Call s.(name) op r.(r_status) r.(r_errno)))).

Lemma asked_alloc c k l e w b r w' : fills allocated c → asked c k l e w b r w' →
  allocated w' = allocated w ∧
  (r.(r_status) = NSS_STATUS_SUCCESS → r.(r_errno) = 0 → ∃ raw, raw_reads b r.(r_buf) r.(r_entry) raw).
Proof.
  intros Hf. induction 1 as [l e b w r w' Hc _|k l e b b' w r w1 r' w' Hc Hm Hl Ha [IH1 IH2]];
    destruct (Hf _ _ _ _ _ _ Hc) as (H1 & H2 & H3); [done|]. split; [congruence|done].
Qed.

Lemma asked_15 c k e w b r w' : asked c k (zeros INITIAL_BUFLEN) e w b r w' → (1 ≤ k ≤ 15)%nat.
Proof.
  intros [H1 H2]%asked_bound. rewrite zeros_len in H2 by done. split; [done|]. destruct (decide (k ≤ 15)%nat) as [|Hk]; [done|].
  specialize (H2 ltac:(lia)). assert (2 ^ 14 ≤ 2 ^ (Z.of_nat k - 2)) by (apply Z.pow_le_mono_r; lia).
  change (Z.max INITIAL_BUFLEN 1) with 1024 in H2. change MAX_BUFLEN with 16777216 in H2. lia.
Qed.

Lemma lookup_runs c s op p : heap_ok p → fills allocated c →
  ∃ k b r w' res p',
    lookup_entry zeroed s op c extraction p = (res, p') ∧
    asked c k (zeros INITIAL_BUFLEN) zeroed p.(sys) b r w' ∧ (1 ≤ k ≤ 15)%nat ∧
    answered s op b r res ∧ undisturbed p p'.
Proof.
  intros Hok Hf. unfold lookup_entry, vec at 1, mbind at 1, St_bind at 1.
  set (p0 := set_heap _ _ p).
  destruct (grow_runs c GROW_FUEL p0 (next_block p) (zeros INITIAL_BUFLEN) zeroed) as (k & b & r & w' & p' & Hr & Ha & Hg).
  { intros b [x Hx]. simpl in *. apply lookup_insert_Some in Hx as [[<- _]|[_ Hx]]; [lia|]. specialize (Hok b (mk_is_Some _ _ Hx)). lia. }
  { simpl. by rewrite lookup_insert_eq. }
  { rewrite zeros_len by done. vm_compute. discriminate. }
  { unfold GROW_FUEL. lia. }
  unfold mbind at 1, St_bind at 1. rewrite Hr. destruct (asked_alloc _ _ _ _ _ _ _ _ Hf Ha) as [Hal Hraw].
  pose proof (asked_15 _ _ _ _ _ _ _ Ha) as Hk.
  destruct Hg as [G1 (G2 & G2' & G2'') [G3 G3'] G4 [G5 G5'] G6 G7]. simpl in *.
  assert (undisturbed p (drop_vec b p').2) as Hu.
  { split; simpl; try done; [|lia|congruence]. rewrite G4. apply map_eq. intros x.
    destruct (decide (x = b)) as [->|Hx]; [|rewrite lookup_delete_ne, lookup_insert_ne by done].
    - rewrite lookup_delete_eq. symmetry. apply eq_None_not_Some. intros Hs%Hok. destruct G6; lia.
    - destruct (decide (x = next_block p)) as [->|Hx']; [|by rewrite lookup_delete_ne, lookup_insert_ne].
      rewrite lookup_delete_eq. symmetry. apply eq_None_not_Some. intros Hs%Hok. lia. }
  exists k, b, r, w'. unfold scoped, result, classify_lookup, lift, mbind, St_bind, mret, St_ret.
  destruct (r_errno r =? 0) eqn:He; simpl.
  2:{ apply Z.eqb_neq in He. eexists _, _. repeat (split; [done|]). split; [|done]. right. right. split; [by left|done]. }
  apply Z.eqb_eq in He. destruct (r_status r =? NSS_STATUS_NOTFOUND) eqn:Hn; simpl.
  { apply Z.eqb_eq in Hn. eexists _, _. repeat (split; [done|]). split; [by left|done]. }
  apply Z.eqb_neq in Hn. destruct (r_status r =? NSS_STATUS_SUCCESS) eqn:Hs; simpl.
  2:{ apply Z.eqb_neq in Hs. eexists _, _. repeat (split; [done|]). split; [|done]. right. right. split; [by right|]. by rewrite He. }
  apply Z.eqb_eq in Hs. destruct (Hraw Hs He) as [raw Hr'].
  rewrite (extraction_ok p' b (r_buf r) (r_entry r) raw) by (try done; by rewrite G4, lookup_insert_eq).
  pose proof (of_raw_returns (Entry:=ent) raw (source s)) as Hnot.
  destruct (of_raw raw (source s)) as [a|err|w] eqn:Ho; [| |by destruct (Hnot w)]; simpl.
  all: eexists _, _; repeat (split; [done|]); split; [|done]; right; left; repeat (split; [done|]);
    exists raw; split; [done|]; by rewrite Ho.
Qed.
End Lookup.
