(* ===== verification/NssWalk.v ===== *)
(** Across modules: loading a service on first use, the first hit of a lookup, and
    the union of memberships. *)
From S2P Require Import Prelude XdrBase Utf8 NssError Nss NssService NssDb NssLaws NssLookup.
Local Open Scope Z_scope.

Section Load.
Context {W : Type} {nss : Nss W} {laws : NssLaws W}.
Implicit Types p : NssProc W.
Abbreviation App := (St (NssProc W) NssExit).

(** ** The services of a process

    A service's address is its place in the table of those loaded, and a slot of
    the registry is empty or holds the loaded service of its source. *)
Record services_ok p : Prop := mkServicesOk {
  loaded_addr i s : p.(LOADED) !! i = Some s → s.(addr) = Z.of_nat i;
  registry_len : length p.(REGISTRY) = 3%nat;
  registry_is src s : p.(REGISTRY) !! Source_index src = Some (Some s) →
    s ∈ p.(LOADED) ∧ s.(source) = src ∧ s.(scope) = Source_scope src ∧
    s.(name) = Source_name src ∧ s.(prefix) = prefix_of src ∧ any s.(fns) = true
}.

Definition nss_ok p : Prop := heap_ok p ∧ services_ok p.

(** Services are only added; the claims, the heap and the C heap are as they
    were. *)
Record steady p p' : Prop := mkSteady {
  st_thread : p'.(thread) = p.(thread);
  st_registry i s : p.(REGISTRY) !! i = Some (Some s) → p'.(REGISTRY) !! i = Some (Some s);
  st_loaded : p.(LOADED) `prefix_of` p'.(LOADED);
  st_live : p'.(LIVE) = p.(LIVE);
  st_locks : p'.(iter_locks) = p.(iter_locks);
  st_heap : p'.(heap) = p.(heap);
  st_next : p.(next_block) ≤ p'.(next_block);
  st_alloc : allocated p'.(sys) = allocated p.(sys)
}.

#[global] Instance steady_preorder : PreOrder steady.
Proof.
  split.
  - by intros p.
  - intros p1 p2 p3 [] []. split; try first [congruence|lia]; [by eauto|]. by etrans.
Qed.

Lemma undisturbed_steady p p' : undisturbed p p' → steady p p'.
Proof. intros []. split; try done; [congruence|by rewrite und_loaded]. Qed.

Lemma undisturbed_ok p p' : undisturbed p p' → nss_ok p → nss_ok p'.
Proof.
  intros Hu [Hh [H1 H2 H3]]. split; [by eapply undisturbed_heap|]. destruct Hu as [].
  split; rewrite ?und_loaded, ?und_registry; done.
Qed.

(** A computation that returns, with the process as steady as that. *)
Definition returns {A} (r : NssResult A) : Prop := (∃ a, r = Ok a) ∨ (∃ e, r = Err (Fail e)).
Definition tidy {A} (m : App A) : Prop := ∀ p, nss_ok p → ∃ r p', m p = (r, p') ∧ returns r ∧ nss_ok p' ∧ steady p p'.

Lemma tidy_ret {A} (a : A) : tidy (mret a).
Proof. intros p Hp. exists (Ok a), p. split; [done|]. split; [left; eauto|]. by split. Qed.
Lemma tidy_refuse {A} e : tidy (A:=A) (refuse e).
Proof. intros p Hp. exists (Err (Fail e)), p. split; [done|]. split; [right; eauto|]. by split. Qed.
Lemma tidy_result {A} (r : Outcome A NssError) : (∀ w, r ≠ Stop w) → tidy (result r).
Proof. destruct r as [a|e|w]; intros H; [apply tidy_ret|apply tidy_refuse|by destruct (H w)]. Qed.
Lemma tidy_bind {A B} (m : App A) (f : A → App B) : tidy m → (∀ a, tidy (f a)) → tidy (m ≫= f).
Proof.
  intros Hm Hf p Hp. destruct (Hm p Hp) as (r & p1 & Hr & Ht & Hp1 & Hs). unfold mbind, St_bind. rewrite Hr.
  destruct Ht as [[a ->]|[e ->]].
  - destruct (Hf a p1 Hp1) as (r2 & p2 & Hr2 & Ht2 & Hp2 & Hs2). exists r2, p2. repeat (split; [done|]). by etrans.
  - exists (Err (Fail e)), p1. split; [done|]. split; [right; eauto|done].
Qed.
Lemma tidy_sys {A} (c : W → A * W) : (∀ w, allocated (c w).2 = allocated w) → tidy (sys_call c).
Proof.
  intros Hc p Hp. unfold sys_call. specialize (Hc p.(sys)). destruct (c p.(sys)) as [a w]. simpl in Hc.
  exists (Ok a), (set_sys w p). split; [done|]. split; [left; eauto|].
  pose proof (undisturbed_sys p w Hc) as Hu. split; [by eapply undisturbed_ok|by apply undisturbed_steady].
Qed.
Lemma tidy_ok_or {A} (o : option A) e : tidy (result (ok_or o e)).
Proof. apply tidy_result. intros w. by destruct o. Qed.

#[local] Hint Resolve tidy_ret tidy_refuse tidy_bind tidy_sys tidy_ok_or dlopen_law dlsym_law dlerror_law : core.

Lemma tidy_sym h pre suf : tidy (sym h pre suf).
Proof.
  unfold sym. apply tidy_bind; [eauto|]. intros s. apply tidy_bind; [eauto|]. intros [a|]; [eauto|].
  apply tidy_bind; eauto.
Qed.

Lemma tidy_resolve h pre : tidy (resolve h pre).
Proof. unfold resolve. repeat (apply tidy_bind; [apply tidy_sym|intros ?]). apply tidy_ret. Qed.

(** ** Loading a service

    A service that loads is the next of the table; one that does not leaves the
    table as it was, and the next attempt starts afresh. *)
Definition loaded_as (spec : LoadSpec) p (s : Service) p' : Prop :=
  p'.(LOADED) = p.(LOADED) ++ [s] ∧ s.(addr) = len p.(LOADED) ∧ s.(name) = spec.(sp_name) ∧
  s.(prefix) = spec.(sp_prefix) ∧ s.(source) = spec.(sp_source) ∧ s.(scope) = spec.(sp_scope) ∧ any s.(fns) = true.

(** What the calls before the table is written keep. *)
Lemma sys_statics {A} (c : W → A * W) p r p' : sys_call c p = (r, p') →
  p'.(REGISTRY) = p.(REGISTRY) ∧ p'.(LOADED) = p.(LOADED).
Proof. unfold sys_call. destruct (c p.(sys)). intros ?; simplify_eq. done. Qed.

Definition same_statics p p' : Prop := p'.(REGISTRY) = p.(REGISTRY) ∧ p'.(LOADED) = p.(LOADED).
Definition no_statics {A} (m : App A) : Prop := ∀ p r p', m p = (r, p') → same_statics p p'.

Lemma no_statics_bind {A B} (m : App A) (f : A → App B) : no_statics m → (∀ a, no_statics (f a)) → no_statics (m ≫= f).
Proof.
  intros Hm Hf p r p'. unfold mbind, St_bind. destruct (m p) as [[a|e|w] p1] eqn:H1; intros H; simplify_eq.
  - destruct (Hm _ _ _ H1), (Hf _ _ _ _ H). split; congruence.
  - by eapply Hm.
  - by eapply Hm.
Qed.
Lemma no_statics_lift {A} (o : NssResult A) : no_statics (lift o).
Proof. intros p r p'. unfold lift. intros ?; simplify_eq. done. Qed.
Lemma no_statics_sym h pre suf : no_statics (sym h pre suf).
Proof.
  unfold sym. apply no_statics_bind; [apply no_statics_lift|]. intros s.
  apply no_statics_bind; [exact (sys_statics _)|]. intros [a|]; [exact (no_statics_lift (Ok _))|].
  apply no_statics_bind; [exact (sys_statics _)|]. intros _. exact (no_statics_lift (Ok _)).
Qed.
Lemma no_statics_resolve h pre : no_statics (resolve h pre).
Proof.
  unfold resolve. repeat (apply no_statics_bind; [apply no_statics_sym|intros ?]). exact (no_statics_lift (Ok _)).
Qed.

Lemma load_runs spec p : nss_ok p → ∃ r p', load_locked spec p = (r, p') ∧ nss_ok p' ∧ steady p p' ∧
  p'.(REGISTRY) = p.(REGISTRY) ∧
  ((∃ s, r = Ok s ∧ loaded_as spec p s p') ∨ (∃ e, r = Err (Fail e) ∧ p'.(LOADED) = p.(LOADED))).
Proof.
  intros Hp. unfold load_locked. unfold mbind at 1, St_bind at 1.
  destruct (tidy_sys (dlopen spec.(sp_path) (Z.lor RTLD_NOW RTLD_LOCAL)) ltac:(eauto) p Hp) as (r1 & p1 & Hr1 & Ht1 & Hp1 & Hs1).
  destruct (sys_statics _ _ _ _ Hr1) as [S1 S1'].
  assert (∃ h, r1 = Ok h) as [h ->] by (unfold sys_call in Hr1; destruct (dlopen _ _ _); simplify_eq; eauto). rewrite Hr1.
  destruct h as [h|].
  2:{ destruct (tidy_sys dlerror ltac:(eauto) p1 Hp1) as (r2 & p2 & Hr2 & _ & Hp2 & Hs2). destruct (sys_statics _ _ _ _ Hr2) as [S2 S2'].
      assert (∃ t, r2 = Ok t) as [t ->] by (unfold sys_call in Hr2; destruct (dlerror _); simplify_eq; eauto).
      unfold dlerror_text, mbind, St_bind. rewrite Hr2. simpl. eexists _, p2. split; [done|]. split; [done|].
      split; [by etrans|]. split; [congruence|]. right. eexists. split; [done|congruence]. }
  destruct (tidy_resolve h spec.(sp_prefix) p1 Hp1) as (r2 & p2 & Hr2 & Ht2 & Hp2 & Hs2).
  destruct (no_statics_resolve _ _ _ _ _ Hr2) as [S2 S2'].
  unfold mbind at 1, St_bind at 1. rewrite Hr2. destruct Ht2 as [[f ->]|[e ->]].
  2:{ eexists _, p2. split; [done|]. split; [done|]. split; [by etrans|]. split; [congruence|]. right. eexists. split; [done|congruence]. }
  destruct (any f) eqn:Hany; simpl.
  2:{ eexists _, p2. split; [done|]. split; [done|]. split; [by etrans|]. split; [congruence|]. right. eexists. split; [done|congruence]. }
  unfold mbind, St_bind, get, modify. set (s := mkService _ _ _ _ _ _). eexists _, _. split; [done|].
  assert (LOADED p2 = LOADED p) as HL by congruence.
  split; [|split; [|split; [simpl; congruence|]]].
  - destruct Hp2 as [Hh [H1 H2 H3]]. split; [done|]. split; simpl; [|done|].
    + intros i s1 Hi. apply lookup_snoc_Some in Hi as [[_ Hi]|[-> <-]]; [by apply H1|done].
    + intros src s' Hs'. destruct (H3 _ _ Hs') as (Hin & ?). split; [|done]. apply elem_of_app. by left.
  - etrans; [exact Hs1|]. etrans; [exact Hs2|]. split; simpl; try done. by eexists.
  - left. eexists. split; [done|]. repeat split; simpl; by rewrite ?HL.
Qed.

(** ** The registry *)
Lemma soname_ok src : cstring (soname src) = Some (soname src).
Proof. by destruct src; vm_compute. Qed.

(** The service of a source: found in its slot and nothing else done, or loaded
    and put there, or refused and the slot left empty. *)
Lemma service_runs src p : nss_ok p → ∃ r p', Source_service src p = (r, p') ∧ nss_ok p' ∧ steady p p' ∧
  ((∃ s, p.(REGISTRY) !! Source_index src = Some (Some s) ∧ r = Ok s ∧ p' = p) ∨
   (p.(REGISTRY) !! Source_index src = Some None ∧ ∃ s, r = Ok s ∧ p'.(REGISTRY) !! Source_index src = Some (Some s)) ∨
   (p.(REGISTRY) !! Source_index src = Some None ∧ (∃ e, r = Err (Fail e)) ∧
      p'.(REGISTRY) = p.(REGISTRY) ∧ p'.(LOADED) = p.(LOADED))).
Proof.
  intros Hp. unfold Source_service. rewrite run_get. destruct (Hp) as [_ Hserv].
  assert ((Source_index src < length p.(REGISTRY))%nat) as Hlt by (rewrite (registry_len _ Hserv); destruct src; simpl; lia).
  apply lookup_lt_is_Some_2 in Hlt as [o Ho]. rewrite Ho. destruct o as [s|]; simpl.
  { eexists _, p. split; [done|]. split; [done|]. split; [done|]. left. by exists s. }
  unfold result. rewrite soname_ok. simpl. unfold lift, mbind at 1, St_bind at 1. simpl.
  set (spec := mkSpec _ _ _ _ _). destruct (load_runs spec p Hp) as (r & p1 & Hr & Hp1 & Hs1 & HR & Hc).
  unfold mbind, St_bind. rewrite Hr. destruct Hc as [(s & -> & HL & Ha & Hn & Hpre & Hsrc & Hsc & Hany)|(e & -> & HL)]; simpl.
  2:{ eexists _, p1. split; [done|]. split; [done|]. split; [done|]. right. right. split; [done|]. split; [eauto|done]. }
  assert ((Source_index src < length (REGISTRY p1))%nat) as Hlt' by (rewrite HR; by eapply lookup_lt_Some).
  eexists _, _. split; [done|]. split; [|split].
  - destruct Hp1 as [Hh [H1 H2 H3]]. split; [done|]. split; simpl; [done|by rewrite length_insert|].
    intros src' s'. destruct (decide (src' = src)) as [->|Hne].
    + rewrite list_lookup_insert_eq by done. intros ?; simplify_eq. repeat split; try done. rewrite HL. apply elem_of_app. right. by left.
    + rewrite list_lookup_insert_ne; [by apply H3|]. by destruct src, src'.
  - etrans; [exact Hs1|]. split; simpl; try done. intros i s' Hi. rewrite list_lookup_insert_ne; [done|].
    intros <-. rewrite HR, Ho in Hi. done.
  - right. left. split; [done|]. exists s. split; [done|]. simpl. by rewrite list_lookup_insert_eq.
Qed.

Lemma service_source src p s p' : nss_ok p → Source_service src p = (Ok s, p') → s.(source) = src ∧ s ∈ p'.(LOADED).
Proof.
  intros Hp H. destruct (service_runs src p Hp) as (r & p1 & H1 & Hp1 & _ & Hc). rewrite H in H1. simplify_eq.
  destruct Hp1 as [_ H3]. destruct Hc as [(s' & Hs & ? & ->)|[(_ & s' & ? & Hs)|(_ & [e ?] & _)]]; simplify_eq;
    destruct (registry_is _ H3 _ _ Hs) as (? & ? & _); done.
Qed.
End Load.

(** Lookups in one module, and the walks across the three: the first hit, and the
    union of memberships. *)

(** ** Lookups in a module *)
Section Modules.
Context {W : Type} {nss : Nss W} {laws : NssLaws W}.
Implicit Types p : NssProc W.
Abbreviation App := (St (NssProc W) NssExit).

(** The lookup [m] in the service [s] by the function [f], called as [call]:
    refused without a call where the module lacks the function, and else the
    verdict on the last of at most fifteen calls, with nothing left behind. *)
Definition looked_up {C T} {ety : EntryType W C} {ent : Entry W C T} (s : Service) (f : option Z)
    (suffix : string) (call : Z → GetentRFn W C) (m : App (option T)) p : Prop :=
  match f with
  | None => m p = (Err (Fail (Symbol_ s.(name) (symbol_name s.(prefix) (lit suffix)))), p)
  | Some f =>
      ∃ k b r w' res p',
        m p = (res, p') ∧ asked (call f) k (zeros INITIAL_BUFLEN) zeroed p.(sys) b r w' ∧ (1 ≤ k ≤ 15)%nat ∧
        answered s (lit suffix) b r res ∧ undisturbed p p'
  end.

Lemma getpwuid_runs s u p : heap_ok p →
  looked_up s s.(fns).(getpwuid_r) "getpwuid_r" (λ f, getpwuid_r_at f p.(thread) u) (Service_getpwuid s u) p.
Proof.
  intros Hp. unfold Service_getpwuid, require_fn, result, looked_up, lift, mbind, St_bind.
  destruct (getpwuid_r s.(fns)) as [f|]; [|done]. exact (lookup_runs (T:=Passwd) _ s _ p Hp (getpwuid_law f _ u)).
Qed.

Lemma getgrgid_runs s g p : heap_ok p →
  looked_up s s.(fns).(getgrgid_r) "getgrgid_r" (λ f, getgrgid_r_at f p.(thread) g) (Service_getgrgid s g) p.
Proof.
  intros Hp. unfold Service_getgrgid, require_fn, result, looked_up, lift, mbind, St_bind.
  destruct (getgrgid_r s.(fns)) as [f|]; [|done]. exact (lookup_runs (T:=Group) _ s _ p Hp (getgrgid_law f _ g)).
Qed.

Lemma getpwnam_runs s n p : heap_ok p → x00 ∉ n →
  looked_up s s.(fns).(getpwnam_r) "getpwnam_r" (λ f, getpwnam_r_at f p.(thread) n) (Service_getpwnam s n) p.
Proof.
  intros Hp Hn. unfold Service_getpwnam, require_fn, result, looked_up, lift, cstring, mbind, St_bind. rewrite decide_False by done.
  destruct (getpwnam_r s.(fns)) as [f|]; [|done]. exact (lookup_runs (T:=Passwd) _ s _ p Hp (getpwnam_law f _ n)).
Qed.

Lemma getgrnam_runs s n p : heap_ok p → x00 ∉ n →
  looked_up s s.(fns).(getgrnam_r) "getgrnam_r" (λ f, getgrnam_r_at f p.(thread) n) (Service_getgrnam s n) p.
Proof.
  intros Hp Hn. unfold Service_getgrnam, require_fn, result, looked_up, lift, cstring, mbind, St_bind. rewrite decide_False by done.
  destruct (getgrnam_r s.(fns)) as [f|]; [|done]. exact (lookup_runs (T:=Group) _ s _ p Hp (getgrnam_law f _ n)).
Qed.

(** A name with a NUL reaches no module. *)
Lemma getpwnam_nul s n p : x00 ∈ n →
  Service_getpwnam s n p = (Err (Fail (if is_some s.(fns).(getpwnam_r) then NulByte else missing s "getpwnam_r")), p).
Proof.
  intros Hn. unfold Service_getpwnam, require_fn, result, lift, cstring, mbind, St_bind. rewrite decide_True by done.
  by destruct (getpwnam_r s.(fns)).
Qed.
Lemma getgrnam_nul s n p : x00 ∈ n →
  Service_getgrnam s n p = (Err (Fail (if is_some s.(fns).(getgrnam_r) then NulByte else missing s "getgrnam_r")), p).
Proof.
  intros Hn. unfold Service_getgrnam, require_fn, result, lift, cstring, mbind, St_bind. rewrite decide_True by done.
  by destruct (getgrnam_r s.(fns)).
Qed.

(** ** What a lookup leaves, and the stamp on what it gives *)
Definition stamped {T} (src : T → Source) (s : Source) (r : NssResult (option T)) : Prop :=
  ∀ e, r = Ok (Some e) → src e = s.

(** It returns, steadily, and an entry is stamped with the source [s]. *)
Definition sound_in {T} (src : T → Source) (s : Source) (m : App (option T)) : Prop :=
  ∀ p, nss_ok p → ∃ r p', m p = (r, p') ∧ returns r ∧ stamped src s r ∧ nss_ok p' ∧ steady p p'.

Lemma looked_up_sound {C T} {ety : EntryType W C} {ent : Entry W C T} (src : T → Source) s f suf call (m : App (option T)) p :
  (∀ raw s' t, of_raw raw s' = Ok t → src t = s') →
  nss_ok p → looked_up s f suf call m p →
  ∃ r p', m p = (r, p') ∧ returns r ∧ stamped src s.(source) r ∧ nss_ok p' ∧ steady p p'.
Proof.
  intros Hst Hp H. unfold looked_up in H. destruct f as [f|].
  2:{ eexists _, p. split; [exact H|]. split; [right; eauto|]. by split. }
  destruct H as (k & b & r & w' & res & p' & Hm & _ & _ & Ha & Hu). exists res, p'. split; [done|].
  assert (nss_ok p' ∧ steady p p') as [? ?] by (split; [by eapply undisturbed_ok|by apply undisturbed_steady]).
  destruct Ha as [(_ & _ & ->)|[(_ & _ & raw & _ & ->)|(_ & ->)]].
  - split; [left; eauto|]. by split.
  - pose proof (of_raw_returns (Entry:=ent) raw s.(source)) as Hw. pose proof (Hst raw s.(source)) as Hsr.
    destruct (of_raw raw s.(source)) as [a|e|w]; [| |by destruct (Hw w)].
    + split; [left; by eexists|]. split; [|done]. intros e ?. simplify_eq/=. by apply Hsr.
    + split; [right; by eexists|]. by split.
  - split; [right; by eexists|]. by split.
Qed.

Lemma passwd_stamp raw s t : passwd_of raw s = Ok t → t.(pwd_source) = s.
Proof. unfold passwd_of. destruct (identity _); intros ?; by simplify_eq/=. Qed.
Lemma group_stamp raw s t : group_of raw s = Ok t → t.(grp_source) = s.
Proof. unfold group_of. case_match; [|done]. destruct (identity _); intros ?; by simplify_eq/=. Qed.

Lemma sound_service {T} (src : T → Source) s (m : Service → App (option T)) :
  (∀ svc p, nss_ok p → ∃ r p', m svc p = (r, p') ∧ returns r ∧ stamped src svc.(source) r ∧ nss_ok p' ∧ steady p p') →
  sound_in src s (svc ← Source_service s; m svc).
Proof.
  intros Hm p Hp. destruct (service_runs s p Hp) as (r & p1 & Hr & Hp1 & Hs1 & Hc). unfold mbind, St_bind. rewrite Hr.
  assert (returns r) as [[svc ->]|[e ->]].
  { destruct Hc as [(s' & _ & -> & _)|[(_ & s' & -> & _)|(_ & [e ->] & _)]]; [left; eauto|left; eauto|right; eauto]. }
  - destruct (service_source s p svc p1 Hp Hr) as [<- _]. destruct (Hm svc p1 Hp1) as (r2 & p2 & Hr2 & ? & ? & ? & ?).
    exists r2, p2. repeat (split; [done|]). by etrans.
  - eexists _, p1. split; [done|]. split; [right; eauto|]. by split.
Qed.

Lemma getpwuid_sound s u : sound_in pwd_source s (Source_getpwuid s u).
Proof.
  apply sound_service. intros svc p Hp. eapply (looked_up_sound (C:=passwd)); [exact passwd_stamp|done|].
  by apply getpwuid_runs, Hp.
Qed.
Lemma getgrgid_sound s g : sound_in grp_source s (Source_getgrgid s g).
Proof.
  apply sound_service. intros svc p Hp. eapply (looked_up_sound (C:=group)); [exact group_stamp|done|].
  by apply getgrgid_runs, Hp.
Qed.
Lemma getpwnam_sound s n : sound_in pwd_source s (Source_getpwnam s n).
Proof.
  apply sound_service. intros svc p Hp. destruct (decide (x00 ∈ n)) as [Hn|Hn].
  - rewrite getpwnam_nul by done. eexists _, p. split; [done|]. split; [right; eauto|]. by split.
  - eapply (looked_up_sound (C:=passwd)); [exact passwd_stamp|done|]. apply getpwnam_runs; [apply Hp|done].
Qed.
Lemma getgrnam_sound s n : sound_in grp_source s (Source_getgrnam s n).
Proof.
  apply sound_service. intros svc p Hp. destruct (decide (x00 ∈ n)) as [Hn|Hn].
  - rewrite getgrnam_nul by done. eexists _, p. split; [done|]. split; [right; eauto|]. by split.
  - eapply (looked_up_sound (C:=group)); [exact group_stamp|done|]. apply getgrnam_runs; [apply Hp|done].
Qed.

(** ** The first hit *)
(** An answer that the walk passes over: not found, or a module that reported
    itself unavailable, whatever errno came with that. *)
Definition passes {T} (r : NssResult (option T)) : Prop :=
  r = Ok None ∨ ∃ m o errno, r = Err (Fail (Call m o NSS_STATUS_UNAVAIL errno)).

(** The sources were asked in turn, and each passed. *)
Inductive declined {T} (lookup : Source → App (option T)) : list Source → NssProc W → NssProc W → Prop :=
| declined_none p : declined lookup [] p p
| declined_one s rest p r p1 p' :
    lookup s p = (r, p1) → passes r → declined lookup rest p1 p' → declined lookup (s :: rest) p p'.

(** The walk over the sources ends with [res]: every source passed and nothing
    was found, or [res] is the answer of the first that did not pass. *)
Definition first_answer {T} (lookup : Source → App (option T)) p (res : NssResult (option T)) p' : Prop :=
  (res = Ok None ∧ declined lookup LOOKUP_ORDER p p') ∨
  (∃ before s after p1, LOOKUP_ORDER = before ++ s :: after ∧ declined lookup before p p1 ∧
     lookup s p1 = (res, p') ∧ ¬ passes res).

Lemma first_over_runs {T} (src : T → Source) (lookup : Source → App (option T)) :
  (∀ s, sound_in src s (lookup s)) → ∀ l p, nss_ok p →
  ∃ res p', first_over l lookup p = (res, p') ∧ returns res ∧ nss_ok p' ∧ steady p p' ∧
    ((res = Ok None ∧ declined lookup l p p') ∨
     (∃ before s after p1, l = before ++ s :: after ∧ declined lookup before p p1 ∧
        lookup s p1 = (res, p') ∧ ¬ passes res ∧ stamped src s res)).
Proof.
  intros Hl. induction l as [|s l IH]; intros p Hp; cbn [first_over].
  { exists (Ok None), p. split; [done|]. split; [left; eauto|]. split; [done|]. split; [done|]. left. split; [done|constructor]. }
  destruct (Hl s p Hp) as (r & p1 & Hr & Ht & Hst & Hp1 & Hs1). unfold mbind, St_bind, caught. rewrite Hr.
  assert (passes r → (∃ res p', first_over l lookup p1 = (res, p') ∧ returns res ∧ nss_ok p' ∧ steady p p' ∧
    ((res = Ok None ∧ declined lookup (s :: l) p p') ∨
     (∃ before s' after p1', s :: l = before ++ s' :: after ∧ declined lookup before p p1' ∧
        lookup s' p1' = (res, p') ∧ ¬ passes res ∧ stamped src s' res)))) as Hpass.
  { intros Hpa. destruct (IH p1 Hp1) as (res & p' & H1 & H2 & H3 & H4 & H5). exists res, p'.
    repeat (split; [done|]). split; [by etrans|]. destruct H5 as [[-> H5]|(before & s' & after & p2 & -> & H5 & H6)].
    - left. split; [done|]. by econstructor.
    - right. exists (s :: before), s', after, p2. split; [done|]. split; [by econstructor|done]. }
  assert (¬ passes r → ∃ before s' after p1', s :: l = before ++ s' :: after ∧ declined lookup before p p1' ∧
        lookup s' p1' = (r, p1) ∧ ¬ passes r ∧ stamped src s' r) as Hstop.
  { intros Hn. exists [], s, l, p. split; [done|]. split; [constructor|]. done. }
  destruct Ht as [[[e|] ->]|[e ->]].
  - assert (¬ passes (Ok (Some e) : NssResult (option T))) as Hn by (intros [?|(? & ? & ? & ?)]; simplify_eq).
    exists (Ok (Some e)), p1. split; [done|]. split; [left; eauto|]. repeat (split; [done|]). right. by apply Hstop.
  - apply Hpass. by left.
  - destruct (is_unavail e) eqn:He.
    + apply is_unavail_spec in He as (m & o & errno & ->). apply Hpass. right. eauto.
    + assert (¬ passes (Err (Fail e) : NssResult (option T))) as Hn.
      { by intros [?|(m & o & errno & ?)]; simplify_eq. }
      exists (Err (Fail e)), p1. split; [done|]. split; [right; eauto|]. repeat (split; [done|]). right. by apply Hstop.
Qed.
End Modules.

(** Memberships: one module's list, and the union across modules. *)

(** ** Deduplication *)
(** The first appearance of each, in order. *)
Fixpoint nub (l : list Z) : list Z :=
  match l with
  | [] => []
  | x :: l => x :: filter (λ y, y ≠ x) (nub l)
  end.

Lemma nub_elem l x : x ∈ nub l ↔ x ∈ l.
Proof.
  induction l as [|y l IH]; simpl; [done|]. rewrite !elem_of_cons, list_elem_of_filter, IH.
  destruct (decide (x = y)); naive_solver.
Qed.

Lemma nub_NoDup l : NoDup (nub l).
Proof.
  induction l as [|y l IH]; simpl; [constructor|]. constructor; [|by apply NoDup_filter].
  rewrite list_elem_of_filter. naive_solver.
Qed.

Lemma filter_filter_neq (seen : gset Z) x (l : list Z) :
  filter (λ y, y ∉ {[x]} ∪ seen) l = filter (λ y, y ≠ x) (filter (λ y, y ∉ seen) l).
Proof.
  rewrite list_filter_filter. apply list_filter_iff. intros y. set_solver.
Qed.

(** The loop with its set of those seen. *)
Lemma dedup_loop l : ∀ (seen : gset Z) out,
  (foldl (λ '(seen, out) gid, if decide (gid ∈ (seen : gset Z)) then (seen, out) else ({[gid]} ∪ seen, out ++ [gid]))
     (seen, out) l).2 = out ++ filter (λ y, y ∉ seen) (nub l).
Proof.
  induction l as [|x l IH]; intros seen out; simpl; [by rewrite app_nil_r|]. case_decide as Hx.
  - rewrite IH, filter_cons_False by (intros H; by apply H). f_equal. rewrite list_filter_filter.
    apply list_filter_iff. set_solver.
  - rewrite IH, filter_cons_True by done. rewrite <- app_assoc. simpl. do 2 f_equal.
    rewrite filter_filter_neq, !list_filter_filter. apply list_filter_iff. set_solver.
Qed.

Lemma dedup_is_nub l : dedup_gids l = nub l.
Proof.
  unfold dedup_gids. rewrite dedup_loop. simpl. induction (nub l) as [|x k IH]; [done|].
  rewrite filter_cons_True by set_solver. by rewrite IH.
Qed.

(** ** One module *)
Section Groups.
Context {W : Type} {nss : Nss W} {laws : NssLaws W}.
Implicit Types p : NssProc W.
Abbreviation App := (St (NssProc W) NssExit).

Definition seed (gid : Z) : list (option Z) := Some gid :: replicate (Z.to_nat (INITGROUPS_INITIAL - 1)) None.

(** What a module is asked, with no limit, and what its answer means: the seed
    and what it appended, where it settled, and else its fault. *)
Definition grouped (s : Service) (f : Z) (user : bytes) (gid : Z) p (res : NssResult (list Z)) : Prop :=
  ∃ q w1 r w2 added,
    malloc (INITGROUPS_INITIAL * size_of_gid_t) p.(sys) = (Some q, w1) ∧
    initgroups_dyn_at f p.(thread) user gid 1 INITGROUPS_INITIAL q (seed gid) (-1) 0 w1 = (r, w2) ∧
    take (Z.to_nat (Z.min r.(ig_start) r.(ig_size))) r.(ig_array) = Some <$> (gid :: added) ∧
    ((r.(ig_errno) = 0 ∧ (r.(ig_status) = NSS_STATUS_NOTFOUND ∨ r.(ig_status) = NSS_STATUS_SUCCESS) ∧
        res = Ok (gid :: added)) ∨
     ((r.(ig_errno) ≠ 0 ∨ (r.(ig_status) ≠ NSS_STATUS_NOTFOUND ∧ r.(ig_status) ≠ NSS_STATUS_SUCCESS)) ∧
        res = Err (Fail (Call s.(name) (lit "initgroups_dyn") r.(ig_status) r.(ig_errno))))).

(** [malloc] can fail, which the code asserts it does not. *)
Definition no_memory p (res : NssResult (list Z)) : Prop :=
  (malloc (INITGROUPS_INITIAL * size_of_gid_t) p.(sys)).1 = None ∧ res = Stop Panicked.

Lemma mapM_some (l : list Z) : mapM id (Some <$> l) = Some l.
Proof. apply mapM_Some_2. induction l; by constructor. Qed.

Lemma initgroups_runs s f user gid p : ∃ res p',
  call_initgroups s.(name) f user gid p = (res, p') ∧ undisturbed p p' ∧
  (grouped s f user gid p res ∨ no_memory p res).
Proof.
  unfold call_initgroups. rewrite run_sys. destruct (malloc (INITGROUPS_INITIAL * size_of_gid_t) p.(sys)) as [[q|] w1] eqn:Hm; cbn [fst snd].
  2:{ eexists _, _. split; [done|]. split; [|right; split; [by rewrite Hm|done]].
      apply undisturbed_sys. exact (malloc_law _ _ _ _ Hm). }
  destruct (malloc_law _ _ _ _ Hm) as [Hq Ha1].
  unfold this_thread, mbind at 1, St_bind at 1. rewrite run_sys. cbn [sys set_sys thread].
  change (Some gid :: replicate _ None) with (seed gid).
  destruct (initgroups_dyn_at _ _ _ _ _ _ _ _ _ _ _) as [r w2] eqn:Hi. cbn [fst snd].
  destruct (initgroups_law f p.(thread) user gid q (seed gid) w1 r w2) as (Hg & Ha2 & Hst & [Hsz Hlen] & added & Htake);
    [rewrite Ha1; set_solver|done|done|done|].
  rewrite Z.max_l by lia. rewrite (Z.max_l (ig_size r)) by lia.
  rewrite (proj2 (Z.ltb_ge _ _)) by lia. change (Some gid :: (Some <$> added)) with (Some <$> (gid :: added)) in Htake.
  rewrite Htake, mapM_some. unfold lift, ok_or, mbind, St_bind, sys_call, mret, St_ret. cbn [sys set_sys].
  assert (∀ p', p' = set_sys (free (ig_groups r) w2) p → undisturbed p p') as Hu.
  { intros p' ->. apply undisturbed_sys. rewrite free_law by (rewrite Ha2; set_solver). rewrite Ha2, Ha1. apply set_eq. set_solver. }
  unfold result, lift, classify_lookup.
  assert (∀ res, ((r.(ig_errno) = 0 ∧ (r.(ig_status) = NSS_STATUS_NOTFOUND ∨ r.(ig_status) = NSS_STATUS_SUCCESS) ∧
        res = Ok (gid :: added)) ∨
     ((r.(ig_errno) ≠ 0 ∨ (r.(ig_status) ≠ NSS_STATUS_NOTFOUND ∧ r.(ig_status) ≠ NSS_STATUS_SUCCESS)) ∧
        res = Err (Fail (Call s.(name) (lit "initgroups_dyn") r.(ig_status) r.(ig_errno))))) → grouped s f user gid p res) as HG.
  { intros res Hc. exists q, w1, r, w2, added. by repeat (split; [done|]). }
  destruct (ig_errno r =? 0) eqn:He; [apply Z.eqb_eq in He|apply Z.eqb_neq in He]; simpl negb; cbn iota.
  2:{ eexists _, _. split; [done|]. split; [by apply Hu|]. left. apply HG. right. split; [by left|done]. }
  destruct (ig_status r =? NSS_STATUS_NOTFOUND) eqn:Hn; [apply Z.eqb_eq in Hn|apply Z.eqb_neq in Hn]; cbn iota.
  { eexists _, _. split; [done|]. split; [by apply Hu|]. left. apply HG. left. split; [done|]. split; [by left|done]. }
  destruct (ig_status r =? NSS_STATUS_SUCCESS) eqn:Hs; [apply Z.eqb_eq in Hs|apply Z.eqb_neq in Hs]; cbn iota.
  - eexists _, _. split; [done|]. split; [by apply Hu|]. left. apply HG. left. split; [done|]. split; [by right|done].
  - eexists _, _. split; [done|]. split; [by apply Hu|]. left. apply HG. right. split; [by right|]. by rewrite He.
Qed.

Lemma grouped_cases s f user gid p res : grouped s f user gid p res ∨ no_memory p res →
  (∃ added, res = Ok (gid :: added)) ∨ (∃ e, res = Err (Fail e)) ∨ res = Stop Panicked.
Proof. intros [(q & w1 & r & w2 & added & _ & _ & _ & [(_ & _ & ->)|[_ ->]])|[_ ->]]; eauto. Qed.

(** A membership lookup in a service: refused without a call where it cannot be
    made, and else the module's answer. *)
Lemma grouplist_runs s user gid p : ∃ res p',
  grouplist_raw s user gid p = (res, p') ∧ undisturbed p p' ∧
  match s.(fns).(initgroups_dyn) with
  | None => res = Err (Fail (missing s "initgroups_dyn"))
  | Some f => if decide (x00 ∈ user) then res = Err (Fail NulByte)
              else grouped s f user gid p res ∨ no_memory p res
  end.
Proof.
  unfold grouplist_raw, require_fn, result, lift, mbind, St_bind, cstring.
  destruct (initgroups_dyn s.(fns)) as [f|]; [|eexists _, p; split; [done|]; by split]. simpl.
  case_decide; [eexists _, p; split; [done|]; by split|]. simpl. apply initgroups_runs.
Qed.

(** ** The union *)
(** The sources were asked in turn; each gave a list, or was unavailable and
    counts as having none. *)
Inductive gathered (lookup : Source → App (list Z)) : list Source → NssProc W → list (list Z) → NssProc W → Prop :=
| gathered_none p : gathered lookup [] p [] p
| gathered_some s rest p g p1 gs p' :
    lookup s p = (Ok g, p1) → gathered lookup rest p1 gs p' → gathered lookup (s :: rest) p (g :: gs) p'
| gathered_skip s rest p m o errno p1 gs p' :
    lookup s p = (Err (Fail (Call m o NSS_STATUS_UNAVAIL errno)), p1) →
    gathered lookup rest p1 gs p' → gathered lookup (s :: rest) p ([] :: gs) p'.

(** An answer that stops the walk. *)
Definition halts (r : NssResult (list Z)) : Prop :=
  (∀ g, r ≠ Ok g) ∧ (∀ m o errno, r ≠ Err (Fail (Call m o NSS_STATUS_UNAVAIL errno))).

Definition union_answer (lookup : Source → App (list Z)) (gid : Z) p (res : NssResult (list Z)) p' : Prop :=
  (∃ gs, gathered lookup LOOKUP_ORDER p gs p' ∧ res = Ok (nub (gid :: concat gs))) ∨
  (∃ before s after p1 gs, LOOKUP_ORDER = before ++ s :: after ∧ gathered lookup before p gs p1 ∧
     lookup s p1 = (res, p') ∧ halts res).

Definition returns_or_panics {A} (r : NssResult A) : Prop := returns r ∨ r = Stop Panicked.

Lemma groups_over_runs (lookup : Source → App (list Z)) :
  (∀ s p, nss_ok p → ∃ r p', lookup s p = (r, p') ∧ returns_or_panics r ∧ nss_ok p' ∧ steady p p') →
  ∀ l all p, nss_ok p → ∃ res p', groups_over l lookup all p = (res, p') ∧ returns_or_panics res ∧ nss_ok p' ∧ steady p p' ∧
    ((∃ gs, gathered lookup l p gs p' ∧ res = Ok (all ++ concat gs)) ∨
     (∃ before s after p1 gs, l = before ++ s :: after ∧ gathered lookup before p gs p1 ∧
        lookup s p1 = (res, p') ∧ halts res)).
Proof.
  intros Hl. induction l as [|s l IH]; intros all p Hp; cbn [groups_over].
  { exists (Ok all), p. split; [done|]. split; [left; left; eauto|]. split; [done|]. split; [done|]. left. exists [].
    split; [constructor|]. by rewrite app_nil_r. }
  destruct (Hl s p Hp) as (r & p1 & Hr & Ht & Hp1 & Hs1). unfold mbind, St_bind, caught. rewrite Hr.
  assert (∀ g, (∀ k gs p', gathered lookup k p1 gs p' → gathered lookup (s :: k) p (g :: gs) p') →
    ∃ res p', groups_over l lookup (all ++ g) p1 = (res, p') ∧ returns_or_panics res ∧ nss_ok p' ∧ steady p p' ∧
    ((∃ gs, gathered lookup (s :: l) p gs p' ∧ res = Ok (all ++ concat gs)) ∨
     (∃ before s' after p1' gs, s :: l = before ++ s' :: after ∧ gathered lookup before p gs p1' ∧
        lookup s' p1' = (res, p') ∧ halts res))) as Hgo.
  { intros g Hg. destruct (IH (all ++ g) p1 Hp1) as (res & p' & H1 & H2 & H3 & H4 & H5). exists res, p'.
    repeat (split; [done|]). split; [by etrans|].
    destruct H5 as [(gs & H5 & ->)|(before & s' & after & p2 & gs & -> & H5 & H6)].
    - left. exists (g :: gs). split; [by apply Hg|]. simpl. by rewrite <- app_assoc.
    - right. exists (s :: before), s', after, p2, (g :: gs). split; [done|]. split; [by apply Hg|done]. }
  assert (halts r → ∃ before s' after p1' gs, s :: l = before ++ s' :: after ∧ gathered lookup before p gs p1' ∧
        lookup s' p1' = (r, p1) ∧ halts r) as Hstop.
  { intros Hh. exists [], s, l, p, []. split; [done|]. split; [constructor|done]. }
  destruct Ht as [[[g ->]|[e ->]] | ->].
  - apply Hgo; intros; by econstructor.
  - destruct (is_unavail e) eqn:He.
    + apply is_unavail_spec in He as (m & o & errno & ->). specialize (Hgo []). rewrite app_nil_r in Hgo. apply Hgo; intros; by econstructor.
    + exists (Err (Fail e)), p1. split; [done|]. split; [left; right; eauto|]. repeat (split; [done|]). right. apply Hstop.
      split; [done|]. intros m o errno ?. by simplify_eq.
  - exists (Stop Panicked), p1. split; [done|]. split; [by right|]. repeat (split; [done|]). right. apply Hstop. by split.
Qed.

Lemma raw_sound name gid s p : nss_ok p →
  ∃ r p', (svc ← Source_service s; grouplist_raw svc name gid) p = (r, p') ∧ returns_or_panics r ∧ nss_ok p' ∧ steady p p'.
Proof.
  intros Hp. destruct (service_runs s p Hp) as (r & p1 & Hr & Hp1 & Hs1 & Hc). unfold mbind, St_bind. rewrite Hr.
  assert (returns r) as [[svc ->]|[e ->]].
  { destruct Hc as [(s' & _ & -> & _)|[(_ & s' & -> & _)|(_ & [e ->] & _)]]; [left; eauto|left; eauto|right; eauto]. }
  2:{ eexists _, p1. split; [done|]. split; [left; right; eauto|done]. }
  destruct (grouplist_runs svc name gid p1) as (res & p' & H1 & Hu & H2). exists res, p'. split; [done|].
  assert (nss_ok p' ∧ steady p p') as [? ?].
  { split; [by eapply undisturbed_ok|]. etrans; [exact Hs1|by apply undisturbed_steady]. }
  split; [|done]. destruct (initgroups_dyn (fns svc)) as [f|]; [|left; right; eauto].
  case_decide; [left; right; eauto|]. destruct (grouped_cases _ _ _ _ _ _ H2) as [[a ->]|[[e ->] | ->]];
    [left; left; eauto|left; right; eauto|by right].
Qed.

Lemma getgrouplist_runs name gid p : nss_ok p → ∃ res p', getgrouplist name gid p = (res, p') ∧
  nss_ok p' ∧ steady p p' ∧ returns_or_panics res ∧
  union_answer (λ s, svc ← Source_service s; grouplist_raw svc name gid) gid p res p'.
Proof.
  intros Hp. unfold getgrouplist, fan_out_groups. set (lookup := λ s : Source, Source_service s ≫= λ svc, grouplist_raw svc name gid).
  destruct (groups_over_runs lookup (raw_sound name gid) LOOKUP_ORDER [gid] p Hp) as (res & p' & H1 & H2 & H3 & H4 & H5).
  unfold mbind, St_bind. rewrite H1. destruct H5 as [(gs & Hg & ->)|(before & s & after & p1 & gs & Ho & Hg & Hs & Hh)].
  - eexists _, p'. split; [done|]. split; [done|]. split; [done|]. split; [left; left; eauto|]. left. exists gs.
    split; [done|]. by rewrite dedup_is_nub.
  - exists res, p'. destruct res as [g|e|w]; [by destruct (proj1 Hh g)| |]; repeat (split; [done|]); right;
      exists before, s, after, p1, gs; done.
Qed.
End Groups.
