(* ===== verification/NssEnum.v ===== *)
(** Enumerations: threads that open, step and drop iterators over shared
    services.  A claim is held exactly while its iterator is open, no two open
    iterators share a cursor, and a thread never waits for itself. *)
From S2P Require Import Prelude XdrBase Utf8 NssError Nss NssService NssDb NssLaws NssLookup NssWalk.
Local Open Scope Z_scope.

(** ** Claims *)
Section Claims.
Context {W : Type}.
Implicit Types (p : NssProc W) (opens : gmap nat (Z * EnumSlot)).

Definition claim (s : EnumSlot) : Z * Database := (s.(svc).(addr), s.(db)).

(** Two open enumerations, on their threads, that go through one cursor: a
    process-scoped module has one, a thread-scoped one has one per thread and
    database. *)
Definition shares (x y : Z * EnumSlot) : Prop :=
  x.2.(svc).(addr) = y.2.(svc).(addr) ∧
  (x.2.(svc).(scope) = Process ∨ (x.1 = y.1 ∧ x.2.(db) = y.2.(db))).

(** The tables against the open enumerations. *)
Record claims_ok p opens : Prop := mkClaimsOk {
  cl_slot i t s : opens !! i = Some (t, s) →
    s.(svc) ∈ p.(LOADED) ∧ s.(guard) = bool_decide (s.(svc).(scope) = Process);
  cl_live t c : c ∈ live_of t p ↔ ∃ i s, opens !! i = Some (t, s) ∧ claim s = c;
  cl_lock a t : p.(iter_locks) !! a = Some t ↔
    ∃ i s, opens !! i = Some (t, s) ∧ s.(svc).(addr) = a ∧ s.(svc).(scope) = Process;
  cl_excl i j x y : opens !! i = Some x → opens !! j = Some y → shares x y → i = j
}.

(** One service at an address. *)
Definition distinct_services p : Prop :=
  ∀ s s', s ∈ p.(LOADED) → s' ∈ p.(LOADED) → s.(addr) = s'.(addr) → s = s'.

Lemma conflict_spec p opens s d : claims_ok p opens → distinct_services p → s ∈ p.(LOADED) →
  existsb (conflicts s d) (live_of p.(thread) p) = true ↔
  ∃ j y, opens !! j = Some (p.(thread), y) ∧ shares (p.(thread), mkEnumSlot s d false) (p.(thread), y).
Proof.
  intros Hc Hd Hs. rewrite existsb_exists. unfold conflicts, shares. simpl. split.
  - intros ([k e] & Hin & Hk). apply list_elem_of_In, (cl_live _ _ Hc) in Hin as (j & y & Hj & Hy). exists j, y. split; [done|].
    unfold claim in Hy. simplify_eq. simpl in Hk. rewrite andb_true_iff, orb_true_iff, !bool_decide_eq_true in Hk. naive_solver.
  - intros (j & y & Hj & Ha & Hk). exists (claim y). split; [apply list_elem_of_In, (cl_live _ _ Hc); eauto|].
    unfold claim. simpl. rewrite andb_true_iff, orb_true_iff, !bool_decide_eq_true. naive_solver.
Qed.

(** The three ends of [acquire]: refused, waiting, or with the claim. *)
Lemma acquire_busy p s d : existsb (conflicts s d) (live_of p.(thread) p) = true →
  acquire s d p = (Err (Fail (Busy s.(name))), p).
Proof. intros H. unfold acquire. rewrite run_get. by rewrite H. Qed.

Lemma acquire_free p s d : existsb (conflicts s d) (live_of p.(thread) p) = false →
  (s.(scope) = Process → p.(iter_locks) !! s.(addr) = None) →
  acquire s d p = (Ok (mkEnumSlot s d (bool_decide (s.(scope) = Process))),
    set_claims (<[p.(thread) := live_of p.(thread) p ++ [(s.(addr), d)]]> p.(LIVE))
      (if decide (s.(scope) = Process) then <[s.(addr) := p.(thread)]> p.(iter_locks) else p.(iter_locks)) p).
Proof.
  intros H Hl. unfold acquire. rewrite run_get, H. unfold lock, mbind, St_bind, modify, get, mret, St_ret. simpl.
  destruct (scope s); simpl; [|done]. by rewrite Hl.
Qed.

Lemma acquire_waits p s d t : existsb (conflicts s d) (live_of p.(thread) p) = false →
  s.(scope) = Process → p.(iter_locks) !! s.(addr) = Some t → (acquire s d p).1 = Err Blocked.
Proof.
  intros H Hp Hl. unfold acquire. rewrite run_get, H. unfold lock, mbind, St_bind, modify, get, mret, St_ret. simpl.
  rewrite Hp. simpl. by rewrite Hl.
Qed.

Lemma live_insert t u l k p : live_of t (set_claims (<[u := l]> p.(LIVE)) k p) = if decide (t = u) then l else live_of t p.
Proof.
  unfold live_of. simpl. case_decide as H; [subst; by rewrite lookup_insert_eq|]. by rewrite lookup_insert_ne.
Qed.

(** The claim's entries. *)
Lemma claims_acquire p opens s d i : claims_ok p opens → distinct_services p → s ∈ p.(LOADED) → opens !! i = None →
  existsb (conflicts s d) (live_of p.(thread) p) = false → (s.(scope) = Process → p.(iter_locks) !! s.(addr) = None) →
  claims_ok (acquire s d p).2
    (<[i := (p.(thread), mkEnumSlot s d (bool_decide (s.(scope) = Process)))]> opens).
Proof.
  intros Hc Hd Hs Hi Hno Hl. rewrite (acquire_free p s d Hno Hl). cbn [snd].
  set (x := (p.(thread), mkEnumSlot s d (bool_decide (s.(scope) = Process)))).
  assert (∀ j y, opens !! j = Some y → ¬ shares x y ∧ ¬ shares y x) as Hx.
  { intros j [t y] Hj. assert (¬ shares x (t, y)) as Hn.
    - intros [Ha Hk]. simpl in *. destruct Hk as [Hk|[<- Hk]].
      + assert (svc y = s) as Heq by (apply Hd; [by eapply (cl_slot _ _ Hc)|done|done]).
        assert (iter_locks p !! addr s = Some t) as Hlk by (apply (cl_lock _ _ Hc); exists j, y; by rewrite Heq).
        by rewrite Hl in Hlk.
      + apply not_true_iff_false in Hno. apply Hno. apply (conflict_spec p opens); [done..|]. exists j, y. split; [done|].
        split; [done|]. by right.
    - split; [done|]. intros [Ha Hk]. apply Hn. simpl in *.
      assert (svc y = s) as Heq by (apply Hd; [by eapply (cl_slot _ _ Hc)|done|done]). split; [done|]. simpl.
      destruct Hk as [Hk|[-> ->]]; [left; by rewrite <- Heq|by right]. }
  split; simpl.
  - intros j t y. rewrite lookup_insert_Some. intros [[<- ?]|[_ Hj]]; [by simplify_eq|by eapply (cl_slot _ _ Hc)].
  - intros t c. rewrite live_insert. case_decide as Ht.
    + subst t. rewrite elem_of_app, list_elem_of_singleton, (cl_live _ _ Hc). split.
      * intros [(j & y & Hj & Hy)| ->]; [|exists i, (x.2); by rewrite lookup_insert_eq].
        exists j, y. rewrite lookup_insert_ne by congruence. done.
      * intros (j & y & Hj & Hy). apply lookup_insert_Some in Hj as [[<- ?]|[_ Hj]]; [right|left; eauto]. by simplify_eq.
    + rewrite (cl_live _ _ Hc). apply exist_proper. intros j. apply exist_proper. intros y.
      rewrite lookup_insert_Some. unfold x. naive_solver.
  - intros a t. case_decide as Hp.
    + rewrite lookup_insert_Some, (cl_lock _ _ Hc). split.
      * intros [[<- <-]|[_ (j & y & Hj & Hy)]]; [exists i, (x.2); by rewrite lookup_insert_eq|].
        exists j, y. rewrite lookup_insert_ne by congruence. done.
      * intros (j & y & Hj & Hy & Hyp). apply lookup_insert_Some in Hj as [[<- ?]|[_ Hj]]; [left; by simplify_eq|right].
        split; [|eauto]. intros Heq. destruct (Hx j _ Hj) as [Hn _]. apply Hn. split; [simpl; congruence|]. by left.
    + rewrite (cl_lock _ _ Hc). apply exist_proper. intros j. apply exist_proper. intros y.
      rewrite lookup_insert_Some. unfold x. split; [intros (Hj & ?); split; [right; split; [congruence|done]|done]|].
      intros ([[<- ?]|[_ Hj]] & Hy & Hyp); [by simplify_eq|done].
  - intros j k y z. rewrite !lookup_insert_Some. intros [[<- <-]|[Hj Hj']] [[<- <-]|[Hk Hk']] Hyz; [done| | |].
    + by destruct (Hx _ _ Hk').
    + by destruct (Hx _ _ Hj').
    + by eapply (cl_excl _ _ Hc).
Qed.

(** The claim's release, by the thread that has it. *)
Lemma claims_release p opens i s : claims_ok p opens → distinct_services p → opens !! i = Some (p.(thread), s) →
  claims_ok (slot_drop s p).2 (delete i opens).
Proof.
  intros Hc Hd Hi. destruct (cl_slot _ _ Hc _ _ _ Hi) as [Hin Hg].
  assert (∀ j y, opens !! j = Some y → j ≠ i → ¬ shares (p.(thread), s) y) as Hx.
  { intros j y Hj Hne Hsh. apply Hne. symmetry. by eapply (cl_excl _ _ Hc). }
  unfold slot_drop, modify. cbn [snd]. split; simpl.
  - intros j t y. rewrite lookup_delete_Some. intros [_ Hj]. by eapply (cl_slot _ _ Hc).
  - intros t c. rewrite live_insert. destruct (decide (t = p.(thread))) as [Ht|Ht].
    + subst t. rewrite list_elem_of_filter, (cl_live _ _ Hc). split.
      * intros (Hne & j & y & Hj & Hy). exists j, y. rewrite lookup_delete_ne; [done|]. intros <-. by simplify_eq.
      * intros (j & y & [Hne Hj]%lookup_delete_Some & Hy). split; [|eauto]. intros ->. apply (Hx j _ Hj); [done|].
        unfold claim in Hy. simplify_eq. split; [done|]. by right.
    + rewrite (cl_live _ _ Hc). apply exist_proper. intros j. apply exist_proper. intros y.
      rewrite lookup_delete_Some. split; [intros [Hj ?]|naive_solver]. split; [|done]. split; [|done]. intros <-. by simplify_eq.
  - intros a t. rewrite Hg. case_bool_decide as Hp.
    + rewrite lookup_delete_Some, (cl_lock _ _ Hc). split.
      * intros (Hne & j & y & Hj & Hy & Hyp). exists j, y. rewrite lookup_delete_ne; [done|]. intros <-. by simplify_eq.
      * intros (j & y & [Hne Hj]%lookup_delete_Some & Hy & Hyp). split; [|eauto]. intros Heq.
        apply (Hx j _ Hj); [done|]. split; [simpl; congruence|]. by left.
    + rewrite (cl_lock _ _ Hc). apply exist_proper. intros j. apply exist_proper. intros y.
      rewrite lookup_delete_Some. split; [intros (Hj & Hy & Hyp)|naive_solver]. split; [|done]. split; [|done]. intros <-. by simplify_eq.
  - intros j k y z. rewrite !lookup_delete_Some. intros [_ Hj] [_ Hk]. by eapply (cl_excl _ _ Hc).
Qed.
End Claims.

(** One iterator: what a step gives and leaves, and what a drop leaves. *)

Section Iter.
Context {W C T : Type} {nss : Nss W} {ety : EntryType W C} {ent : Entry W C T} {laws : NssLaws W}.
Implicit Types (p : NssProc W) (it : EntIter W C T).

(** The buffer went from the block [b] to [b'], and only the claims may have
    changed besides. *)
Record moved (b b' : Z) p p' : Prop := mkMoved {
  mv_thread : p'.(thread) = p.(thread);
  mv_statics : p'.(REGISTRY) = p.(REGISTRY) ∧ p'.(LOADED) = p.(LOADED) ∧ p'.(NAMES) = p.(NAMES);
  mv_heap : ∃ l, p'.(heap) = <[b' := l]> (delete b p.(heap));
  mv_next : p.(next_block) ≤ p'.(next_block) ∧ b' < p'.(next_block);
  mv_block : b' = b ∨ p.(next_block) ≤ b';
  mv_alloc : allocated p'.(sys) = allocated p.(sys)
}.

(** What the answer [r] of a cursor step means: an errno or [TRYAGAIN] is a fault
    and ends the walk, any other status that is not success is its end, and an
    entry that is read goes on, also where it cannot be converted. *)
Definition itemised (s : Service) (op : bytes) (b : Z) (r : Reply C) (item : option (Outcome T NssError)) (open : bool) : Prop :=
  (r.(r_errno) = 0 ∧ r.(r_status) = NSS_STATUS_SUCCESS ∧ open = true ∧
     ∃ raw, raw_reads b r.(r_buf) r.(r_entry) raw ∧ item = Some (of_raw raw s.(source))) ∨
  (r.(r_errno) = 0 ∧ r.(r_status) ≠ NSS_STATUS_SUCCESS ∧ r.(r_status) ≠ NSS_STATUS_TRYAGAIN ∧ open = false ∧ item = None) ∨
  ((r.(r_errno) ≠ 0 ∨ r.(r_status) = NSS_STATUS_TRYAGAIN) ∧ open = false ∧
     item = Some (Err (Call s.(name) op r.(r_status) r.(r_errno)))).

(** The process without the claim of [s], from a world [w]. *)
Abbreviation without s p := (slot_drop s p).2.

Lemma close_runs it s p : it.(slot) = Some s →
  ∃ w, allocated w = allocated p.(sys) ∧ iter_close it p = (Ok (set_slot None it), without s (set_sys w p)).
Proof.
  intros Hs. unfold iter_close. rewrite Hs. unfold this_thread, mbind at 1, St_bind at 1. simpl.
  unfold discard, call_ent, mbind, St_bind, mret, St_ret, sys_call.
  pose proof (endent_law it.(endent) p.(thread) 0 p.(sys)) as Ha.
  destruct (endent_at it.(endent) p.(thread) 0 p.(sys)) as [[status errno] w]. simpl in Ha. exists w. split; [done|].
  by destruct (status =? NSS_STATUS_SUCCESS).
Qed.

Lemma next_closed it p : it.(slot) = None → ent_next it p = (Ok (None, it), p).
Proof. intros Hs. unfold ent_next. by rewrite Hs. Qed.

(** The iterator as a step leaves it: its buffer may have moved, and it is closed
    unless the walk goes on. *)
Definition stepped it (b : Z) (open : bool) : EntIter W C T :=
  let it := set_buf b it in if open then it else set_slot None it.

(** The end of a step, once the module has answered [r] in the block [b]. *)
Definition conclude it (s : EnumSlot) (status errno b : Z) (entry : C) : St (NssProc W) NssExit (option (Outcome T NssError) * EntIter W C T) :=
  let it := set_buf b it in
  match classify_ent s.(svc).(name) it.(getent_op) status errno with
  | Err err => it ← iter_close it; mret (Some (Err err), it)
  | Ok false => it ← iter_close it; mret (None, it)
  | Ok true => item ← caught (it.(extract) entry s.(svc).(source)); mret (Some item, it)
  | Stop w => halt w
  end.

(** A step that goes on leaves the process as the call left it; one that ends
    the walk resets the cursor and gives the claim back. *)
Definition concluded (open : bool) (s : EnumSlot) p p' : Prop :=
  if open then p' = p else ∃ w, allocated w = allocated p.(sys) ∧ p' = without s (set_sys w p).

Lemma conclude_runs it s p b r : it.(slot) = Some s → it.(extract) = extraction →
  p.(heap) !! b = Some r.(r_buf) →
  (r.(r_status) = NSS_STATUS_SUCCESS → r.(r_errno) = 0 → ∃ raw, raw_reads b r.(r_buf) r.(r_entry) raw) →
  ∃ item open p',
    conclude it s r.(r_status) r.(r_errno) b r.(r_entry) p = (Ok (item, stepped it b open), p') ∧
    itemised s.(svc) it.(getent_op) b r item open ∧ concluded open s p p'.
Proof.
  intros Hs Hx Hb Hraw. unfold conclude, classify_ent. cbv zeta. change (getent_op (set_buf b it)) with (getent_op it).
  destruct (close_runs (set_buf b it) s p Hs) as (w & Hw & Hcl).
  assert (∀ item : option (Outcome T NssError),
    (iter_close (set_buf b it) ≫= λ it', mret (item, it')) p = (Ok (item, stepped it b false), without s (set_sys w p))) as Hend.
  { intros item. unfold mbind, St_bind. by rewrite Hcl. }
  assert (concluded false s p (without s (set_sys w p))) as Hc by (by exists w).
  destruct (r_errno r =? 0) eqn:He; [apply Z.eqb_eq in He|apply Z.eqb_neq in He]; cbn [orb negb].
  2:{ rewrite Hend. eexists _, false, _. split; [done|]. split; [|done]. right. right. split; [by left|done]. }
  destruct (r_status r =? NSS_STATUS_TRYAGAIN) eqn:Ht; [apply Z.eqb_eq in Ht|apply Z.eqb_neq in Ht].
  { rewrite Hend. eexists _, false, _. split; [done|]. split; [|done]. right. right. split; [by right|done]. }
  destruct (r_status r =? NSS_STATUS_SUCCESS) eqn:Hk; [apply Z.eqb_eq in Hk|apply Z.eqb_neq in Hk].
  2:{ rewrite Hend. eexists _, false, _. split; [done|]. split; [|done]. right. left. done. }
  destruct (Hraw Hk He) as [raw Hr]. exists (Some (of_raw raw s.(svc).(source))), true, p.
  change (extract (set_buf b it)) with (extract it). rewrite Hx. unfold mbind, St_bind, caught.
  rewrite (extraction_ok p b _ _ raw) by done. pose proof (of_raw_returns (Entry:=ent) raw s.(svc).(source)) as Hw'.
  split; [|split; [left; repeat (split; [done|]); by exists raw|done]].
  destruct (of_raw raw (source (svc s))) as [a|e|v]; [done..|by destruct (Hw' v)].
Qed.

Lemma next_runs it s p l : it.(slot) = Some s → it.(extract) = extraction → heap_ok p → p.(heap) !! it.(buf) = Some l →
  (∀ f t, fills allocated (getent_at (W:=W) f t)) →
  ∃ k b r w' item open p1 p',
    ent_next it p = (Ok (item, stepped it b open), p') ∧
    asked (getent_at it.(getent) p.(thread)) k l zeroed p.(sys) b r w' ∧ p1.(sys) = w' ∧
    itemised s.(svc) it.(getent_op) b r item open ∧
    moved it.(buf) b p p1 ∧ p1.(LIVE) = p.(LIVE) ∧ p1.(iter_locks) = p.(iter_locks) ∧ p1.(heap) !! b = Some r.(r_buf) ∧
    concluded open s p1 p'.
Proof.
  intros Hs Hx Hok Hb Hf. unfold ent_next. rewrite Hs. unfold this_thread, mbind at 1, St_bind at 1. cbn beta iota.
  destruct (grow_runs (getent_at it.(getent) p.(thread)) GROW_FUEL p it.(buf) l zeroed Hok Hb) as (k & b & r & w' & p1 & Hr & Ha & Hg).
  { unfold GROW_FUEL. change (Z.of_nat 26 - 1) with 25. assert (1 * 2 ^ 25 ≤ Z.max (len l) 1 * 2 ^ 25) by lia.
    change (1 * 2 ^ 25) with 33554432 in *. change MAX_BUFLEN with 16777216. lia. }
  { unfold GROW_FUEL. lia. }
  unfold mbind at 1, St_bind at 1. rewrite Hr. cbn beta iota.
  destruct (asked_alloc _ _ _ _ _ _ _ _ (Hf _ _) Ha) as [Hal Hraw].
  destruct Hg as [G1 G2 [G3 G3'] G4 G5 G6 G7].
  assert (heap p1 !! b = Some (r_buf r)) as Hb1 by (by rewrite G4, lookup_insert_eq).
  destruct (conclude_runs it s p1 b r Hs Hx Hb1 Hraw) as (item & open & p' & Hc & Hi & Hcon).
  exists k, b, r, w', item, open, p1, p'. split; [exact Hc|]. repeat (split; [done|]). split; [|done].
  split; try done; [by eexists|congruence].
Qed.

(** A drop: the claim back, if it was still held, and the buffer freed. *)
Lemma drop_runs it p : ∃ p1 p',
  ent_drop it p = (Ok tt, p') ∧
  p' = set_heap (delete it.(buf) p1.(heap)) p1.(next_block) p1 ∧
  match it.(slot) with None => p1 = p | Some s => concluded false s p p1 end.
Proof.
  unfold ent_drop. destruct (slot it) as [s|] eqn:Hs.
  - destruct (close_runs it s p Hs) as (w & Hw & Hcl). unfold mbind, St_bind. rewrite Hcl. simpl.
    eexists _, _. split; [done|]. split; [done|]. by exists w.
  - unfold iter_close. rewrite Hs. eexists _, _. by split.
Qed.
End Iter.
