(* ===== verification/NssConf.v ===== *)
(** A process of several threads over the crate: lookups, and iterators that
    threads open, step and drop in any order.  The invariant of its states. *)
From S2P Require Import Prelude XdrBase Utf8 NssError Nss NssService NssDb NssLaws NssLookup NssWalk NssEnum.
Local Open Scope Z_scope.

(** ** Programs *)
(** An iterator of either database. *)
Inductive AnyIter (W : Type) : Type :=
| PwIter (it : EntIter W passwd Passwd)
| GrIter (it : EntIter W group Group).
Arguments PwIter {W}.
Arguments GrIter {W}.

(** The calls of the crate that make no iterator. *)
Inductive Op : Type :=
| OpService (src : Source)
| OpOpen (path prefix : bytes) (scope : EntScope) (src : Source)
| OpGetpwnam (name : bytes)
| OpGetpwuid (uid : Z)
| OpGetgrnam (name : bytes)
| OpGetgrgid (gid : Z)
| OpGetgrouplist (name : bytes) (gid : Z).

Section Threads.
Context {W : Type} {nss : Nss W} {laws : NssLaws W}.
Implicit Types (p : NssProc W) (its : gmap nat (Z * AnyIter W)) (a : AnyIter W).
Abbreviation App := (St (NssProc W) NssExit).

Definition run_op (op : Op) : App unit :=
  match op with
  | OpService src => Source_service src;; mret tt
  | OpOpen path prefix scope src => service_open path prefix scope src;; mret tt
  | OpGetpwnam n => getpwnam n;; mret tt
  | OpGetpwuid u => getpwuid u;; mret tt
  | OpGetgrnam n => getgrnam n;; mret tt
  | OpGetgrgid g => getgrgid g;; mret tt
  | OpGetgrouplist n g => getgrouplist n g;; mret tt
  end.

Definition open_iter (s : Service) (d : Database) : App (AnyIter W) :=
  match d with
  | Passwd_ => it ← Service_passwd_entries s; mret (PwIter it)
  | Group_ => it ← Service_group_entries s; mret (GrIter it)
  end.
Definition next_iter a : App (AnyIter W) :=
  match a with
  | PwIter it => r ← passwd_next it; mret (PwIter r.2)
  | GrIter it => r ← group_next it; mret (GrIter r.2)
  end.
Definition drop_iter a : App unit :=
  match a with PwIter it => ent_drop it | GrIter it => ent_drop it end.

Definition any_slot a : option EnumSlot := match a with PwIter it => it.(slot) | GrIter it => it.(slot) end.
Definition any_buf a : Z := match a with PwIter it => it.(buf) | GrIter it => it.(buf) end.
Definition any_wf a : Prop :=
  match a with PwIter it => it.(extract) = extract_passwd | GrIter it => it.(extract) = extract_group end.

(** ** States and steps

    The iterators by number, each with the thread that made it and keeps it. *)
Record Conf : Type := mkConf { proc : NssProc W; iters : gmap nat (Z * AnyIter W) }.

Inductive step : Conf → Conf → Prop :=
| step_op t op p its r p' :
    run_op op (set_thread t p) = (r, p') → step (mkConf p its) (mkConf p' its)
| step_open t s d i a p its p' :
    s ∈ p.(LOADED) → its !! i = None → open_iter s d (set_thread t p) = (Ok a, p') →
    step (mkConf p its) (mkConf p' (<[i := (t, a)]> its))
| step_refused t s d e p its p' :
    s ∈ p.(LOADED) → open_iter s d (set_thread t p) = (Err (Fail e), p') →
    step (mkConf p its) (mkConf p' its)
| step_next t i a a' p its p' :
    its !! i = Some (t, a) → next_iter a (set_thread t p) = (Ok a', p') →
    step (mkConf p its) (mkConf p' (<[i := (t, a')]> its))
| step_drop t i a p its p' :
    its !! i = Some (t, a) → drop_iter a (set_thread t p) = (Ok tt, p') →
    step (mkConf p its) (mkConf p' (delete i its)).

(** A process that has not used the crate. *)
Definition fresh_conf (t : Z) (w : W) : Conf :=
  mkConf (mkNss t w ∅ 0 [None; None; None] [] [] ∅ ∅) ∅.

(** ** The invariant *)
Definition opens its : gmap nat (Z * EnumSlot) := omap (λ x, (x.1,.) <$> any_slot x.2) its.
Definition bufs its : gmap nat Z := (λ x, any_buf x.2) <$> its.

(** The blocks are the buffers of the iterators, one each. *)
Record bufs_ok p (m : gmap nat Z) : Prop := mkBufsOk {
  bufs_heap b : is_Some (p.(heap) !! b) ↔ ∃ i : nat, m !! i = Some b;
  bufs_inj i j b : m !! i = Some b → m !! j = Some b → i = j;
  bufs_fresh : heap_ok p
}.

Record conf_ok (w0 : W) (c : Conf) : Prop := mkConfOk {
  ok_services : services_ok c.(proc);
  ok_claims : claims_ok c.(proc) (opens c.(iters));
  ok_bufs : bufs_ok c.(proc) (bufs c.(iters));
  ok_wf i t a : c.(iters) !! i = Some (t, a) → any_wf a;
  ok_alloc : allocated c.(proc).(sys) = allocated w0
}.

Lemma services_distinct p : services_ok p → distinct_services p.
Proof.
  intros H s s' [i Hi]%list_elem_of_lookup [j Hj]%list_elem_of_lookup Heq.
  rewrite (loaded_addr _ H _ _ Hi), (loaded_addr _ H _ _ Hj) in Heq. assert (i = j) as -> by lia. congruence.
Qed.

(** The parts depend on the tables they name. *)
Lemma claims_ext p p' m : claims_ok p m → p'.(LIVE) = p.(LIVE) → p'.(iter_locks) = p.(iter_locks) →
  p.(LOADED) `prefix_of` p'.(LOADED) → claims_ok p' m.
Proof.
  intros [H1 H2 H3 H4] HL Hk [x Hx]. split; [|unfold live_of; by rewrite HL|by rewrite Hk|done].
  intros i t s Hi. destruct (H1 _ _ _ Hi). split; [rewrite Hx; apply elem_of_app; by left|done].
Qed.
Lemma services_ext p p' : services_ok p → p'.(REGISTRY) = p.(REGISTRY) → p'.(LOADED) = p.(LOADED) → services_ok p'.
Proof. intros [H1 H2 H3] HR HL. split; by rewrite ?HR, ?HL. Qed.
Lemma bufs_ext p p' m : bufs_ok p m → p'.(heap) = p.(heap) → p.(next_block) ≤ p'.(next_block) → bufs_ok p' m.
Proof.
  intros [H1 H2 H3] Hh Hn. split; [by rewrite Hh|done|]. intros b Hb. rewrite Hh in Hb. specialize (H3 b Hb). lia.
Qed.

Lemma opens_insert i t a its : opens (<[i := (t, a)]> its) =
  match any_slot a with Some s => <[i := (t, s)]> (opens its) | None => delete i (opens its) end.
Proof.
  apply map_eq. intros j. unfold opens. rewrite lookup_omap. destruct (decide (i = j)) as [<-|Hne].
  - rewrite lookup_insert_eq. simpl. destruct (any_slot a); [by rewrite lookup_insert_eq|by rewrite lookup_delete_eq].
  - rewrite lookup_insert_ne by done. destruct (any_slot a); [rewrite lookup_insert_ne by done|rewrite lookup_delete_ne by done];
      by rewrite lookup_omap.
Qed.
Lemma opens_lookup i t a its : its !! i = Some (t, a) → opens its !! i = (t,.) <$> any_slot a.
Proof. intros H. unfold opens. by rewrite lookup_omap, H. Qed.
Lemma opens_Some i t s its : opens its !! i = Some (t, s) ↔ ∃ a, its !! i = Some (t, a) ∧ any_slot a = Some s.
Proof.
  unfold opens. rewrite lookup_omap. destruct (its !! i) as [[u a]|]; simpl; [|naive_solver].
  destruct (any_slot a) eqn:Ha; simpl; naive_solver.
Qed.
Lemma opens_delete i its : opens (delete i its) = delete i (opens its).
Proof. unfold opens. apply omap_delete. Qed.

(** ** Steps keep the invariant *)
Lemma ops_sound op : ∀ p, nss_ok p → ∃ r p', run_op op p = (r, p') ∧ nss_ok p' ∧ steady p p'.
Proof.
  assert (∀ A (m : App A), (∀ p, nss_ok p → ∃ r p', m p = (r, p') ∧ nss_ok p' ∧ steady p p') →
    ∀ p, nss_ok p → ∃ r p', (m;; mret tt) p = (r, p') ∧ nss_ok p' ∧ steady p p') as Hm.
  { intros A m Hm p Hp. destruct (Hm p Hp) as (r & p' & Hr & H). unfold mbind, St_bind. rewrite Hr. by destruct r; eexists _, p'. }
  assert (∀ T (src : T → Source) (lookup : Source → App (option T)), (∀ s, sound_in src s (lookup s)) →
    ∀ p, nss_ok p → ∃ r p', fan_out lookup p = (r, p') ∧ nss_ok p' ∧ steady p p') as Hw.
  { intros T src lookup Hl p Hp. destruct (first_over_runs src lookup Hl LOOKUP_ORDER p Hp) as (r & p' & H1 & _ & H2 & H3 & _). eauto. }
  destruct op; apply Hm; intros p Hp.
  - destruct (service_runs src p Hp) as (r & p' & H1 & H2 & H3 & _). eauto.
  - unfold service_open, result, lift, mbind at 1, St_bind at 1. destruct (cstring path); simpl; [|by exists (Err (Fail NulByte)), p].
    assert (∃ n p1, intern prefix p = (Ok n, p1) ∧ nss_ok p1 ∧ steady p p1) as (n & p1 & H1 & Hp1 & Hs1).
    { unfold intern. rewrite run_get. destruct (find _ _) as [n|]; [by exists n, p|].
      eexists _, _. split; [done|]. destruct Hp as [Hh [? ? ?]]. by split. }
    unfold mbind, St_bind. rewrite H1.
    match goal with |- context [load_locked ?spec p1] => destruct (load_runs spec p1 Hp1) as (r & p' & H2 & Hp' & Hs' & _) end.
    rewrite H2. exists r, p'. split; [done|]. split; [done|]. by etrans.
  - exact (Hw _ pwd_source _ (λ s, getpwnam_sound s name) p Hp).
  - exact (Hw _ pwd_source _ (λ s, getpwuid_sound s uid) p Hp).
  - exact (Hw _ grp_source _ (λ s, getgrnam_sound s name) p Hp).
  - exact (Hw _ grp_source _ (λ s, getgrgid_sound s gid) p Hp).
  - destruct (getgrouplist_runs name gid p Hp) as (r & p' & H1 & H2 & H3 & _). eauto.
Qed.

(** *** Opening *)
(** What the two [*_entries] share: the claim, the reset of the cursor, and the
    buffer. *)
Definition entries {C T} {ety : EntryType W C} (s : Service) (d : Database) (setent getent endent : Z) (set_op get_op end_op : bytes)
    (ex : C → Source → App T) : App (EntIter W C T) :=
  sl ← acquire s d;
  t ← this_thread;
  or_release sl (call_ent s.(name) set_op (setent_at setent t 0));;
  iter_make sl getent endent get_op end_op ex.

(** The service has the three functions of an enumeration. *)
Definition enumerable (s : Service) (d : Database) : option (Z * Z * Z) :=
  match d with
  | Passwd_ => f ← s.(fns).(setpwent); g ← s.(fns).(getpwent_r); h ← s.(fns).(endpwent); Some (f, g, h)
  | Group_ => f ← s.(fns).(setgrent); g ← s.(fns).(getgrent_r); h ← s.(fns).(endgrent); Some (f, g, h)
  end.

Lemma open_missing s d p : enumerable s d = None → ∃ sym, open_iter s d p = (Err (Fail (Symbol_ s.(name) sym)), p).
Proof.
  unfold enumerable, open_iter, Service_passwd_entries, Service_group_entries, require_fn, result, lift, mbind, option_bind, St_bind.
  destruct d; repeat case_match; intros ?; simplify_eq/=; eauto.
Qed.

Lemma passwd_entries_is s f g h p : enumerable s Passwd_ = Some (f, g, h) →
  Service_passwd_entries s p = entries s Passwd_ f g h (lit "setpwent") (lit "getpwent_r") (lit "endpwent") extract_passwd p.
Proof.
  unfold enumerable, Service_passwd_entries, require_fn, result, entries.
  intros H; repeat (apply bind_Some in H as (? & -> & H)); simplify_eq; done.
Qed.
Lemma group_entries_is s f g h p : enumerable s Group_ = Some (f, g, h) →
  Service_group_entries s p = entries s Group_ f g h (lit "setgrent") (lit "getgrent_r") (lit "endgrent") extract_group p.
Proof.
  unfold enumerable, Service_group_entries, require_fn, result, entries.
  intros H; repeat (apply bind_Some in H as (? & -> & H)); simplify_eq; done.
Qed.

Lemma open_entries s d f g h p : enumerable s d = Some (f, g, h) →
  open_iter s d p =
    match d with
    | Passwd_ => (it ← entries s d f g h (lit "setpwent") (lit "getpwent_r") (lit "endpwent") extract_passwd; mret (PwIter it)) p
    | Group_ => (it ← entries s d f g h (lit "setgrent") (lit "getgrent_r") (lit "endgrent") extract_group; mret (GrIter it)) p
    end.
Proof.
  intros H. unfold open_iter. destruct d; unfold mbind, St_bind; [by rewrite (passwd_entries_is _ _ _ _ _ H)|by rewrite (group_entries_is _ _ _ _ _ H)].
Qed.

(** The process but for its claims and its heap. *)
Record same_rest p p' : Prop := mkSameRest {
  sr_thread : p'.(thread) = p.(thread);
  sr_registry : p'.(REGISTRY) = p.(REGISTRY);
  sr_loaded : p'.(LOADED) = p.(LOADED);
  sr_alloc : allocated p'.(sys) = allocated p.(sys)
}.

Definition claimed (s : Service) (d : Database) : EnumSlot := mkEnumSlot s d (bool_decide (s.(scope) = Process)).

(** An enumeration that can be claimed: its iterator, with the claim and a buffer
    of its own, or a fault with neither. *)
Lemma entries_runs {C T} {ety : EntryType W C} s d f g h so go eo (ex : C → Source → App T) p m i :
  claims_ok p m → distinct_services p → s ∈ p.(LOADED) → m !! i = None →
  existsb (conflicts s d) (live_of p.(thread) p) = false → (s.(scope) = Process → p.(iter_locks) !! s.(addr) = None) →
  ∃ r p', entries s d f g h so go eo ex p = (r, p') ∧ same_rest p p' ∧
    ((r = Ok (mkIter (Some (claimed s d)) g h go eo ex p.(next_block)) ∧
        claims_ok p' (<[i := (p.(thread), claimed s d)]> m) ∧
        p'.(heap) = <[p.(next_block) := zeros INITIAL_BUFLEN]> p.(heap) ∧ p'.(next_block) = p.(next_block) + 1) ∨
     ((∃ status errno, r = Err (Fail (Call s.(name) so status errno))) ∧ claims_ok p' m ∧
        p'.(heap) = p.(heap) ∧ p'.(next_block) = p.(next_block))).
Proof.
  intros Hc Hd Hs Hi Hno Hl. pose proof (claims_acquire p m s d i Hc Hd Hs Hi Hno Hl) as Hc1.
  rewrite (acquire_free p s d Hno Hl) in Hc1. cbn [snd] in Hc1.
  unfold entries. rewrite (run_bind_ok _ _ _ _ _ (acquire_free p s d Hno Hl)). fold (claimed s d) in *.
  set (p1 := set_claims _ _ p) in *. rewrite (run_bind_ok this_thread _ p1 p1.(thread) p1 eq_refl).
  pose proof (setent_law f p1.(thread) 0 0 p1.(sys)) as Ha.
  destruct (setent_at f (thread p1) 0 0 (sys p1)) as [[status errno] w] eqn:Hset. cbn [snd] in Ha.
  assert (or_release (claimed s d) (call_ent s.(name) so (setent_at f p1.(thread) 0)) p1 =
    if status =? NSS_STATUS_SUCCESS then (Ok tt, set_sys w p1)
    else (Err (Fail (Call s.(name) so status errno)), (slot_drop (claimed s d) (set_sys w p1)).2)) as Hrel.
  { unfold or_release, call_ent. rewrite run_sys, Hset. cbn [fst snd]. by destruct (status =? NSS_STATUS_SUCCESS). }
  unfold mbind, St_bind. rewrite Hrel. clear Hrel. destruct (status =? NSS_STATUS_SUCCESS).
  - eexists _, _. split; [done|]. split; [done|]. left. split; [done|]. split; [by apply (claims_ext p1)|]. by split.
  - eexists _, _. split; [done|]. split; [done|]. right. split; [eauto|]. split; [|by split].
    pose proof (claims_release p1 (<[i := (thread p, claimed s d)]> m) i (claimed s d) Hc1) as Hr.
    rewrite delete_insert_id in Hr by done. apply (claims_ext (slot_drop (claimed s d) p1).2); [|done..].
    apply Hr; [done|by rewrite lookup_insert_eq].
Qed.
End Threads.
Arguments Conf W : clear implicits.

(** The steps of a process of several threads keep its invariant, and those of
    its iterators can be taken. *)

Section Conf.
Context {W : Type} {nss : Nss W} {laws : NssLaws W}.
Implicit Types (p : NssProc W) (its : gmap nat (Z * AnyIter W)) (a : AnyIter W) (m : gmap nat Z) (c : Conf W).
Abbreviation App := (St (NssProc W) NssExit).

(** ** Buffers *)
Lemma bufs_insert p p' m i l : bufs_ok p m → m !! i = None →
  p'.(heap) = <[p.(next_block) := l]> p.(heap) → p'.(next_block) = p.(next_block) + 1 →
  bufs_ok p' (<[i := p.(next_block)]> m).
Proof.
  intros [H1 H2 H3] Hi Hh Hn. assert (∀ j, m !! j ≠ Some p.(next_block)) as Hnew.
  { intros j Hj. assert (is_Some (p.(heap) !! p.(next_block))) as Hs by (apply H1; eauto). specialize (H3 _ Hs). lia. }
  split.
  - intros b. rewrite Hh. destruct (decide (b = p.(next_block))) as [->|Hb].
    + rewrite lookup_insert_eq. split; [intros _; exists i; by rewrite lookup_insert_eq|by eexists].
    + rewrite lookup_insert_ne, H1 by done. split; intros [j Hj]; exists j.
      * by rewrite lookup_insert_ne by congruence.
      * apply lookup_insert_Some in Hj as [[_ ?]|[_ ?]]; congruence.
  - intros j k b. rewrite !lookup_insert_Some. intros [[<- <-]|[Hj Hj']] [[<- ?]|[Hk Hk']]; try done; subst; [by destruct (Hnew k)|by destruct (Hnew j)|].
    by eapply H2.
  - intros b Hb. rewrite Hh in Hb. destruct (decide (b = p.(next_block))) as [->|Hne]; [lia|]. rewrite lookup_insert_ne in Hb by done.
    specialize (H3 _ Hb). lia.
Qed.

Lemma bufs_move p p' m i b b' : bufs_ok p m → m !! i = Some b → moved b b' p p' → bufs_ok p' (<[i := b']> m).
Proof.
  intros [H1 H2 H3] Hi [_ _ [l Hh] [Hn Hn'] Hb' _]. assert (∀ j, m !! j = Some b' → j = i) as Hnew.
  { intros j Hj. destruct Hb' as [->|Hb']; [by eapply H2|]. assert (is_Some (p.(heap) !! b')) as Hs by (apply H1; eauto).
    specialize (H3 _ Hs). lia. }
  split.
  - intros x. rewrite Hh. destruct (decide (x = b')) as [->|Hx].
    { rewrite lookup_insert_eq. split; [intros _; exists i; by rewrite lookup_insert_eq|by eexists]. }
    rewrite lookup_insert_ne by done. destruct (decide (x = b)) as [->|Hxb].
    + rewrite lookup_delete_eq. split; [by intros []|]. intros [j [[_ ?]|[Hj Hj']]%lookup_insert_Some]; [congruence|].
      destruct Hj. symmetry. by eapply H2.
    + rewrite lookup_delete_ne, H1 by done. split; intros [j Hj]; exists j.
      * by rewrite lookup_insert_ne by congruence.
      * apply lookup_insert_Some in Hj as [[_ ?]|[_ ?]]; congruence.
  - intros j k x. rewrite !lookup_insert_Some. intros [[<- <-]|[Hj Hj']] [[<- ?]|[Hk Hk']]; try done; subst;
      [by rewrite (Hnew k)|by rewrite (Hnew j)|]. by eapply H2.
  - intros x Hx. rewrite Hh in Hx. destruct (decide (x = b')) as [->|Hne]; [lia|]. rewrite lookup_insert_ne in Hx by done.
    destruct Hx as [y [_ Hy]%lookup_delete_Some]. specialize (H3 x (mk_is_Some _ _ Hy)). lia.
Qed.

Lemma bufs_drop p p' m i b : bufs_ok p m → m !! i = Some b → p'.(heap) = delete b p.(heap) →
  p.(next_block) ≤ p'.(next_block) → bufs_ok p' (delete i m).
Proof.
  intros [H1 H2 H3] Hi Hh Hn. split.
  - intros x. rewrite Hh. destruct (decide (x = b)) as [->|Hx].
    + rewrite lookup_delete_eq. split; [by intros []|]. intros [j [Hj Hj']%lookup_delete_Some]. destruct Hj. by eapply H2.
    + rewrite lookup_delete_ne, H1 by done. split; intros [j Hj]; exists j.
      * rewrite lookup_delete_ne by congruence. done.
      * by apply lookup_delete_Some in Hj as [_ ?].
  - intros j k x. rewrite !lookup_delete_Some. intros [_ ?] [_ ?]. by eapply H2.
  - intros x Hx. rewrite Hh in Hx. destruct Hx as [y [_ Hy]%lookup_delete_Some]. specialize (H3 x (mk_is_Some _ _ Hy)). lia.
Qed.

Lemma bufs_put i t a its : bufs (<[i := (t, a)]> its) = <[i := any_buf a]> (bufs its).
Proof. unfold bufs. by rewrite fmap_insert. Qed.
Lemma bufs_lookup i t a its : its !! i = Some (t, a) → bufs its !! i = Some (any_buf a).
Proof. intros H. unfold bufs. by rewrite lookup_fmap, H. Qed.
Lemma bufs_none i its : its !! i = None → bufs its !! i = None.
Proof. intros H. unfold bufs. by rewrite lookup_fmap, H. Qed.

(** ** Opening *)
(** The three ends of an opening, on the thread [t]. *)
Definition opened (w0 : W) (t : Z) (s : Service) (d : Database) (i : nat) p its (r : NssResult (AnyIter W)) p' : Prop :=
  (∃ a, r = Ok a ∧ any_slot a = Some (claimed s d) ∧ conf_ok w0 (mkConf p' (<[i := (t, a)]> its))) ∨
  (∃ op status errno, r = Err (Fail (Call s.(name) op status errno)) ∧ conf_ok w0 (mkConf p' its)).

Lemma opened_entries {C T} {ety : EntryType W C} (inj : EntIter W C T → AnyIter W) (ex : C → Source → App T)
    w0 t s d f g h so go eo p its i :
  (∀ it, any_slot (inj it) = it.(slot)) → (∀ it, any_buf (inj it) = it.(buf)) → (∀ it, it.(extract) = ex → any_wf (inj it)) →
  conf_ok w0 (mkConf p its) → s ∈ p.(LOADED) → its !! i = None →
  existsb (conflicts s d) (live_of t p) = false → (s.(scope) = Process → p.(iter_locks) !! s.(addr) = None) →
  ∃ r p', (it ← entries s d f g h so go eo ex; mret (inj it)) (set_thread t p) = (r, p') ∧ opened w0 t s d i p its r p'.
Proof.
  intros Hsl Hbu Hwf [HS HC HB HW HA] Hs Hi Hno Hl. simpl in *.
  destruct (entries_runs s d f g h so go eo ex (set_thread t p) (opens its) i) as (r & p' & Hr & [R1 R2 R3 R4] & Hcase); try done.
  { by apply (claims_ext p). }
  { exact (services_distinct p HS). }
  { unfold opens. by rewrite lookup_omap, Hi. }
  unfold mbind, St_bind. rewrite Hr. simpl in *.
  destruct Hcase as [(-> & Hc & Hh & Hn)|((st & er & ->) & Hc & Hh & Hn)]; eexists _, p'; (split; [done|]).
  - left. eexists. split; [done|]. rewrite Hsl. split; [done|]. split; simpl.
    + by eapply services_ext.
    + rewrite opens_insert, Hsl. simpl. done.
    + rewrite bufs_put, Hbu. simpl. eapply bufs_insert; [done|by apply bufs_none|done|done].
    + intros j u a [[<- ?]|[_ Hj]]%lookup_insert_Some; [simplify_eq; by apply Hwf|by eapply HW].
    + congruence.
  - right. eexists _, _, _. split; [done|]. split; simpl.
    + by eapply services_ext.
    + done.
    + apply (bufs_ext p); [done|done|lia].
    + done.
    + congruence.
Qed.

Lemma open_runs w0 t s d p its i fgh :
  conf_ok w0 (mkConf p its) → s ∈ p.(LOADED) → its !! i = None → enumerable s d = Some fgh →
  existsb (conflicts s d) (live_of t p) = false → (s.(scope) = Process → p.(iter_locks) !! s.(addr) = None) →
  ∃ r p', open_iter s d (set_thread t p) = (r, p') ∧ opened w0 t s d i p its r p'.
Proof.
  intros Hok Hs Hi Hf Hno Hl. destruct fgh as [[f g] h]. rewrite (open_entries s d f g h _ Hf).
  destruct d; by apply opened_entries.
Qed.

(** The openings that are refused before a claim, and those that wait. *)
Lemma open_conflict t s d p fgh : enumerable s d = Some fgh → existsb (conflicts s d) (live_of t p) = true →
  open_iter s d (set_thread t p) = (Err (Fail (Busy s.(name))), set_thread t p).
Proof.
  intros Hf Hc. destruct fgh as [[f g] h]. rewrite (open_entries s d f g h _ Hf). unfold entries.
  destruct d; unfold mbind, St_bind; by rewrite (acquire_busy (set_thread t p) s _ Hc).
Qed.
Lemma open_waits t s d p fgh u : enumerable s d = Some fgh → existsb (conflicts s d) (live_of t p) = false →
  s.(scope) = Process → p.(iter_locks) !! s.(addr) = Some u → (open_iter s d (set_thread t p)).1 = Err Blocked.
Proof.
  intros Hf Hno Hp Hl. destruct fgh as [[f g] h]. rewrite (open_entries s d f g h _ Hf). unfold entries.
  pose proof (acquire_waits (set_thread t p) s d u Hno Hp Hl) as Hw.
  destruct d; unfold mbind, St_bind; destruct (acquire s _ (set_thread t p)) as [r p1]; simpl in Hw; by rewrite Hw.
Qed.

(** Which thread runs is not part of the invariant. *)
Lemma conf_thread w0 t p its : conf_ok w0 (mkConf p its) → conf_ok w0 (mkConf (set_thread t p) its).
Proof.
  intros [HS HC HB HW HA]. split; simpl in *; [by eapply services_ext|by apply (claims_ext p)|by apply (bufs_ext p)|done|done].
Qed.

(** ** Stepping and dropping *)
Section Iterators.
Context {C T : Type} {ety : EntryType W C} {ent : Entry W C T} (inj : EntIter W C T → AnyIter W).
Hypothesis inj_slot : ∀ it, any_slot (inj it) = it.(slot).
Hypothesis inj_buf : ∀ it, any_buf (inj it) = it.(buf).
Hypothesis inj_wf : ∀ it, any_wf (inj it) ↔ it.(extract) = extraction.
Hypothesis getent_fills : ∀ f t, fills allocated (getent_at (W:=W) f t).

(** The state once the claim of the open iterator [i] is given back. *)
Lemma release_claims p its i t it s p1 p' :
  services_ok p → claims_ok p (opens its) → its !! i = Some (t, inj it) → it.(slot) = Some s →
  p1.(thread) = t → p1.(LIVE) = p.(LIVE) → p1.(iter_locks) = p.(iter_locks) → p1.(LOADED) = p.(LOADED) →
  concluded false s p1 p' → claims_ok p' (delete i (opens its)).
Proof.
  intros HS HC Hi Hs Ht HL Hk HD (w & _ & ->). apply claims_release.
  - apply (claims_ext p); [done..|]. simpl. by rewrite HD.
  - intros x y. simpl. rewrite HD. by apply services_distinct.
  - simpl. rewrite (opens_lookup i t (inj it) its Hi), inj_slot, Hs. simpl. by rewrite Ht.
Qed.

(** A call of [next] always returns, and a closed iterator stays closed. *)
Lemma next_ok w0 p its i t it : conf_ok w0 (mkConf p its) → its !! i = Some (t, inj it) →
  ∃ item it' p', ent_next it (set_thread t p) = (Ok (item, it'), p') ∧ conf_ok w0 (mkConf p' (<[i := (t, inj it')]> its)).
Proof.
  intros Hok Hi. pose proof Hok as [HS HC HB HW HA]. simpl in *. pose proof (proj1 (inj_wf it) (HW _ _ _ Hi)) as Hx.
  destruct (slot it) as [s|] eqn:Hs.
  2:{ exists None, it, (set_thread t p). split; [by apply next_closed|]. rewrite (insert_id its i _ Hi).
      by apply conf_thread. }
  pose proof (bufs_lookup _ _ _ _ Hi) as Hb. rewrite inj_buf in Hb.
  destruct (proj2 (bufs_heap _ _ HB (buf it)) (ex_intro _ i Hb)) as [l Hl].
  destruct (next_runs it s (set_thread t p) l Hs Hx (bufs_fresh _ _ HB) Hl getent_fills)
    as (k & b & r & w' & item & open & p1 & p' & Hr & _ & _ & _ & Hm & HL & Hk & _ & Hcon).
  exists item, (stepped it b open), p'. split; [done|].
  assert (any_buf (inj (stepped it b open)) = b) as Hb' by (rewrite inj_buf; by destruct open).
  assert (bufs_ok p1 (<[i := b]> (bufs its))) as HB1 by (eapply bufs_move; [exact (bufs_ext p (set_thread t p) _ HB eq_refl ltac:(simpl; lia))|done|done]).
  destruct Hm as [M1 (M2 & M3 & M4) _ _ _ M6]. simpl in *.
  assert (∀ j u a, <[i := (t, inj (stepped it b open))]> its !! j = Some (u, a) → any_wf a) as HW'.
  { intros j u a [[<- ?]|[_ Hj]]%lookup_insert_Some; [simplify_eq; apply inj_wf; by destruct open|by eapply HW]. }
  destruct open.
  - simpl in Hcon. subst p'. split; simpl; [by eapply services_ext| | |done|congruence].
    + rewrite opens_insert, inj_slot. simpl. rewrite Hs. rewrite (insert_id (opens its)) by (rewrite (opens_lookup _ _ _ _ Hi), inj_slot, Hs; done).
      apply (claims_ext p); [done..|]. by rewrite M3.
    + by rewrite bufs_put, inj_buf.
  - pose proof (release_claims p its i t it s p1 p' HS HC Hi Hs M1 HL Hk M3 Hcon) as HC'.
    destruct Hcon as (w & Hw & ->). simpl in *. split; simpl; [by eapply services_ext| | |done|congruence].
    + rewrite opens_insert, inj_slot. done.
    + rewrite bufs_put, inj_buf. by apply (bufs_ext p1).
Qed.

Lemma drop_ok w0 p its i t it : conf_ok w0 (mkConf p its) → its !! i = Some (t, inj it) →
  ∃ p', ent_drop it (set_thread t p) = (Ok tt, p') ∧ conf_ok w0 (mkConf p' (delete i its)).
Proof.
  intros [HS HC HB HW HA] Hi. simpl in *. destruct (drop_runs it (set_thread t p)) as (p1 & p' & Hr & -> & Hs1).
  eexists. split; [done|]. pose proof (bufs_lookup _ _ _ _ Hi) as Hb. rewrite inj_buf in Hb.
  assert (services_ok p1 ∧ claims_ok p1 (delete i (opens its)) ∧ heap p1 = heap p ∧ next_block p1 = next_block p ∧ allocated (sys p1) = allocated w0)
    as (HS1 & HC1 & Hh & Hn & HA1).
  { destruct (slot it) as [s|] eqn:Hs.
    - pose proof (release_claims p its i t it s (set_thread t p) p1 HS HC Hi Hs eq_refl eq_refl eq_refl eq_refl Hs1) as HC'.
      destruct Hs1 as (w & Hw & ->). simpl in *. split; [by eapply services_ext|]. split; [done|]. repeat (split; [done|]). congruence.
    - subst p1. split; [by eapply services_ext|]. split; [|done]. rewrite delete_id; [by apply (claims_ext p)|].
      by rewrite (opens_lookup _ _ _ _ Hi), inj_slot, Hs. }
  split; simpl; [by eapply services_ext| | |intros j u a [_ ?]%lookup_delete_Some; by eapply HW|done].
  - rewrite opens_delete. apply (claims_ext p1); done.
  - unfold bufs. rewrite fmap_delete. eapply (bufs_drop p); [done|done|simpl; by rewrite Hh|simpl; lia].
Qed.
End Iterators.

Lemma next_iter_ok w0 p its i t a : conf_ok w0 (mkConf p its) → its !! i = Some (t, a) →
  ∃ a' p', next_iter a (set_thread t p) = (Ok a', p') ∧ conf_ok w0 (mkConf p' (<[i := (t, a')]> its)).
Proof.
  intros Hok Hi. destruct a as [it|it]; unfold next_iter, passwd_next, group_next, mbind, St_bind.
  - destruct (next_ok PwIter ltac:(done) ltac:(done) ltac:(done) getpwent_law w0 p its i t it Hok Hi) as (item & it' & p' & -> & H). eexists _, p'. by split.
  - destruct (next_ok GrIter ltac:(done) ltac:(done) ltac:(done) getgrent_law w0 p its i t it Hok Hi) as (item & it' & p' & -> & H). eexists _, p'. by split.
Qed.

Lemma drop_iter_ok w0 p its i t a : conf_ok w0 (mkConf p its) → its !! i = Some (t, a) →
  ∃ p', drop_iter a (set_thread t p) = (Ok tt, p') ∧ conf_ok w0 (mkConf p' (delete i its)).
Proof.
  intros Hok Hi. destruct a as [it|it].
  - by apply (drop_ok PwIter).
  - by apply (drop_ok GrIter).
Qed.

(** A drop loads nothing. *)
Lemma drop_loaded a p r p' : drop_iter a p = (r, p') → p'.(LOADED) = p.(LOADED).
Proof.
  assert (∀ C T (ety : EntryType W C) (it : EntIter W C T), ent_drop it p = (r, p') → p'.(LOADED) = p.(LOADED)) as H.
  { intros C T ety it Hd. destruct (drop_runs it p) as (p1 & p2 & H1 & -> & Hs). rewrite Hd in H1. simplify_eq. simpl.
    destruct (slot it); [destruct Hs as (w & _ & ->)|subst]; done. }
  destruct a as [it|it]; apply H; apply _.
Qed.

(** ** Reachable states *)
Lemma conf_lock w0 p its s t : conf_ok w0 (mkConf p its) → p.(iter_locks) !! s.(addr) = Some t →
  ∃ i a sl, its !! i = Some (t, a) ∧ any_slot a = Some sl ∧ sl.(svc).(addr) = s.(addr).
Proof.
  intros [_ HC _ _ _] H. apply (cl_lock _ _ HC) in H as (i & sl & Hi & Ha & _). apply opens_Some in Hi as (a & ? & ?). by exists i, a, sl.
Qed.

Lemma step_ok_conf w0 c c' : conf_ok w0 c → step c c' → conf_ok w0 c'.
Proof.
  intros Hok Hstep. destruct Hstep as [t op p its r p' Hr|t s d i a p its p' Hs Hi Hr|t s d e p its p' Hs Hr|t i a a' p its p' Hi Hr|t i a p its p' Hi Hr].
  - pose proof Hok as [HS HC HB HW HA]. simpl in *.
    destruct (ops_sound op (set_thread t p)) as (r' & p2 & Hr' & [Hh' HS'] & [E1 E2 E3 E4 E5 E6 E7 E8]).
    { split; [apply (bufs_fresh _ _ HB)|by eapply services_ext]. }
    rewrite Hr in Hr'. simplify_eq. simpl in *. split; simpl; [done| |by apply (bufs_ext p)|done|congruence]. by apply (claims_ext p).
  - destruct (enumerable s d) as [fgh|] eqn:Hf; [|destruct (open_missing s d (set_thread t p) Hf) as [? Hm]; congruence].
    destruct (existsb (conflicts s d) (live_of t p)) eqn:Hno; [rewrite (open_conflict t s d p fgh Hf Hno) in Hr; done|].
    destruct (decide (s.(scope) = Process ∧ is_Some (p.(iter_locks) !! s.(addr)))) as [[Hp [u Hu]]|Hl].
    { pose proof (open_waits t s d p fgh u Hf Hno Hp Hu) as Hw. by rewrite Hr in Hw. }
    destruct (open_runs w0 t s d p its i fgh) as (r & p2 & Hr2 & [(a2 & -> & _ & H2)|(op & st & er & -> & _)]); try done; [|rewrite Hr in Hr2; by simplify_eq..].
    intros Hp. apply eq_None_not_Some. naive_solver.
  - pose proof (conf_thread w0 t p its Hok) as Hok'.
    destruct (enumerable s d) as [fgh|] eqn:Hf.
    2:{ destruct (open_missing s d (set_thread t p) Hf) as [? Hm]. rewrite Hr in Hm. by simplify_eq. }
    destruct (existsb (conflicts s d) (live_of t p)) eqn:Hno.
    { rewrite (open_conflict t s d p fgh Hf Hno) in Hr. by simplify_eq. }
    destruct (decide (s.(scope) = Process ∧ is_Some (p.(iter_locks) !! s.(addr)))) as [[Hp [u Hu]]|Hl].
    { pose proof (open_waits t s d p fgh u Hf Hno Hp Hu) as Hw. by rewrite Hr in Hw. }
    destruct (open_runs w0 t s d p its (fresh (dom its)) fgh) as (r & p2 & Hr2 & [(a2 & -> & _ & H2)|(op & st & er & -> & H2)]); try done.
    + apply not_elem_of_dom, is_fresh.
    + intros Hp. apply eq_None_not_Some. naive_solver.
    + rewrite Hr in Hr2. by simplify_eq.
    + rewrite Hr in Hr2. by simplify_eq.
  - destruct (next_iter_ok w0 p its i t a Hok Hi) as (a2 & p2 & Hr2 & H2). rewrite Hr in Hr2. by simplify_eq.
  - destruct (drop_iter_ok w0 p its i t a Hok Hi) as (p2 & Hr2 & H2). rewrite Hr in Hr2. by simplify_eq.
Qed.

Lemma fresh_conf_ok t w : conf_ok w (fresh_conf t w).
Proof.
  split; simpl; try done.
  - split; simpl; try done. intros src s. by destruct src.
  - split; simpl; unfold opens; rewrite ?omap_empty; try done.
    + intros u c. unfold live_of. simpl. rewrite lookup_empty. simpl. split; [by intros ?%not_elem_of_nil|]. by intros (? & ? & ? & _).
    + intros a u. rewrite lookup_empty. split; [done|]. by intros (? & ? & ? & _).
  - split; simpl; unfold bufs; rewrite ?fmap_empty; try done.
    + intros b. rewrite lookup_empty. split; [by intros []|by intros [? ?]].
    + intros b. simpl. rewrite lookup_empty. by intros [].
Qed.

Lemma reachable_ok t w c : rtc step (fresh_conf t w) c → conf_ok w c.
Proof.
  intros H. pose proof (fresh_conf_ok t w) as Hok. induction H as [|c1 c2 c3 Hs _ IH]; [done|]. apply IH. by eapply step_ok_conf.
Qed.
End Conf.

(** A whole enumeration: over a module whose cursor walks a database, an iterator
    gives every entry of it in order and ends. *)

Section Cursor.
Context {W C T : Type} {nss : Nss W} {ety : EntryType W C} {ent : Entry W C T} {laws : NssLaws W}.
Implicit Types (p : NssProc W) (it : EntIter W C T).
Abbreviation App := (St (NssProc W) NssExit).

(** The loop of a caller: every item, until there is none. *)
Fixpoint drain (fuel : nat) it : App (list (Outcome T NssError) * EntIter W C T) :=
  match fuel with
  | O => halt OutOfFuel
  | S fuel =>
      r ← ent_next it;
      match r.1 with
      | None => mret ([], r.2)
      | Some x => rs ← drain fuel r.2; mret (x :: rs.1, rs.2)
      end
  end.

Lemma drain_none n it p it' p' : ent_next it p = (Ok (None, it'), p') → drain (S n) it p = (Ok ([], it'), p').
Proof. intros H. cbn [drain]. unfold mbind, St_bind. by rewrite H. Qed.
Lemma drain_some n it p x it1 p1 xs it' p' : ent_next it p = (Ok (Some x, it1), p1) → drain n it1 p1 = (Ok (xs, it'), p') →
  drain (S n) it p = (Ok (x :: xs, it'), p').
Proof. intros H1 H2. cbn [drain]. unfold mbind, St_bind. rewrite H1. simpl. by rewrite H2. Qed.

(** The cursor of a database on the thread [t]: [set] puts it at the start; [get]
    gives the entry it is at if the buffer has the room that entry needs and asks
    for more if not; past the last entry it reports that there is none. *)
Record cursor_law (set get t : Z) (rest : W → list Raw) (need : Raw → Z) (db : list Raw) : Prop := {
  cur_set w : (setent_at set t 0 0 w).1.1 = NSS_STATUS_SUCCESS ∧ rest (setent_at set t 0 0 w).2 = db;
  cur_end e b l w r w' : rest w = [] → getent_at get t e b l 0 w = (r, w') →
    r.(r_errno) = 0 ∧ r.(r_status) = NSS_STATUS_NOTFOUND;
  cur_next e b l w r w' x xs : rest w = x :: xs → getent_at get t e b l 0 w = (r, w') →
    if need x <=? len l
    then r.(r_errno) = 0 ∧ r.(r_status) = NSS_STATUS_SUCCESS ∧ raw_reads b r.(r_buf) r.(r_entry) x ∧ rest w' = xs
    else r.(r_errno) = ERANGE ∧ r.(r_status) = NSS_STATUS_TRYAGAIN ∧ rest w' = x :: xs;
  cur_fits x : x ∈ db → need x ≤ MAX_BUFLEN
}.

(** Two records that read out of the same entry give the same value. *)
Hypothesis reads_once : ∀ b l e x y, raw_reads b l e x → raw_reads b l e y → ∀ src, of_raw x src = of_raw y src.

Section Walk.
Context (set get t : Z) (rest : W → list (Raw (Entry:=ent))) (need : Raw → Z) (db : list (Raw (Entry:=ent))).
Hypothesis law : cursor_law set get t rest need db.

Lemma asked_next k l e w b r w' x xs : asked (getent_at get t) k l e w b r w' → rest w = x :: xs → need x ≤ MAX_BUFLEN →
  r.(r_errno) = 0 ∧ r.(r_status) = NSS_STATUS_SUCCESS ∧ raw_reads b r.(r_buf) r.(r_entry) x ∧ rest w' = xs.
Proof.
  induction 1 as [l e b w r w' Hc Hw|k l e b b' w r w1 r' w' Hc Hm Hl Ha IH]; intros Hr Hn.
  - pose proof (cur_next _ _ _ _ _ _ law _ _ _ _ _ _ _ _ Hr Hc) as H. destruct (need x <=? len l) eqn:Hk; [done|].
    destruct H as (He & Hs & _). apply Z.leb_gt in Hk. destruct Hw as [Hw|Hw]; [|lia]. by rewrite He, Hs in Hw.
  - pose proof (cur_next _ _ _ _ _ _ law _ _ _ _ _ _ _ _ Hr Hc) as H. destruct (need x <=? len l) eqn:Hk.
    + destruct H as (He & Hs & _). by rewrite He, Hs in Hm.
    + apply IH; [by destruct H as (_ & _ & ?)|done].
Qed.

Lemma asked_end k l e w b r w' : asked (getent_at get t) k l e w b r w' → rest w = [] →
  r.(r_errno) = 0 ∧ r.(r_status) = NSS_STATUS_NOTFOUND.
Proof.
  destruct 1 as [l e b w r w' Hc Hw|k l e b b' w r w1 r' w' Hc Hm Hl Ha]; intros Hr.
  - by eapply (cur_end _ _ _ _ _ _ law).
  - destruct (cur_end _ _ _ _ _ _ law _ _ _ _ _ _ Hr Hc) as [He Hs]. by rewrite He, Hs in Hm.
Qed.

Context (inj : EntIter W C T → AnyIter W).
Hypothesis inj_slot : ∀ it, any_slot (inj it) = it.(slot).
Hypothesis inj_buf : ∀ it, any_buf (inj it) = it.(buf).
Hypothesis inj_wf : ∀ it, any_wf (inj it) ↔ it.(extract) = extraction.
Hypothesis getent_fills : ∀ f t, fills allocated (getent_at (W:=W) f t).

Lemma set_thread_same p : p.(thread) = t → set_thread t p = p.
Proof. intros <-. by destruct p. Qed.

Lemma drain_runs w0 s i xs : ∀ p its it,
  conf_ok w0 (mkConf p its) → its !! i = Some (t, inj it) → p.(thread) = t → it.(slot) = Some s → it.(getent) = get →
  rest p.(sys) = xs → (∀ x, x ∈ xs → need x ≤ MAX_BUFLEN) →
  ∃ it' p', drain (S (length xs)) it p = (Ok ((λ x, of_raw x s.(svc).(source)) <$> xs, it'), p') ∧
    it'.(slot) = None ∧ conf_ok w0 (mkConf p' (<[i := (t, inj it')]> its)) ∧ p'.(thread) = t.
Proof.
  induction xs as [|x xs IH]; intros p its it Hok Hi Ht Hs Hg Hr Hn.
  all: destruct (next_ok inj inj_slot inj_buf inj_wf getent_fills w0 p its i t it Hok Hi) as (item & it1 & p1 & H1 & Hok1).
  all: pose proof Hok as [HS HC HB HW HA]; cbn [proc iters] in *; pose proof (bufs_lookup _ _ _ _ Hi) as Hb; rewrite inj_buf in Hb.
  all: destruct (proj2 (bufs_heap _ _ HB (buf it)) (ex_intro _ i Hb)) as [l Hl].
  all: destruct (next_runs it s p l Hs (proj1 (inj_wf it) (HW _ _ _ Hi)) (bufs_fresh _ _ HB) Hl getent_fills)
    as (k & b & r & w' & item2 & open & p2 & p' & Hr2 & Ha & Hsys & Hit & Hm & HL & Hk & Hb2 & Hcon).
  all: rewrite (set_thread_same p Ht), Hr2 in H1; injection H1 as <- <- <-; rewrite Ht, Hg in Ha.
  - destruct (asked_end _ _ _ _ _ _ _ Ha Hr) as [He Hst].
    destruct Hit as [(_ & Hst' & _)|[(_ & _ & _ & -> & ->)|([?|Hst'] & _)]]; [by rewrite Hst in Hst'| |done|by rewrite Hst in Hst'].
    eexists _, _. split; [by apply drain_none|]. split; [done|]. split; [done|]. destruct Hcon as (w & _ & ->). simpl. by rewrite (mv_thread _ _ _ _ Hm).
  - destruct (asked_next _ _ _ _ _ _ _ _ _ Ha Hr (Hn x ltac:(by left))) as (He & Hst & Hx & Hrest).
    destruct Hit as [(_ & _ & -> & raw & Hraw & ->)|[(_ & Hst' & _)|([?|Hst'] & _)]]; [|done|done|by rewrite Hst in Hst'].
    rewrite (reads_once _ _ _ _ _ Hraw Hx) in Hr2. simpl in Hcon. subst p'.
    destruct (IH p2 (<[i := (t, inj (stepped it b true))]> its) (stepped it b true)) as (it' & p' & Hd & Hsl & Hok' & Ht'); try done.
    + by rewrite lookup_insert_eq.
    + by rewrite (mv_thread _ _ _ _ Hm).
    + by rewrite Hsys.
    + intros y Hy. apply Hn. by right.
    + eexists _, _. split; [by eapply drain_some|]. split; [done|]. rewrite insert_insert_eq in Hok'. done.
Qed.

(** ** Opened, walked and dropped *)
Lemma entries_reset s d h so go eo (ex : C → Source → App T) p :
  existsb (conflicts s d) (live_of p.(thread) p) = false → (s.(scope) = Process → p.(iter_locks) !! s.(addr) = None) →
  p.(thread) = t →
  ∃ it p', entries s d set get h so go eo ex p = (Ok it, p') ∧ rest p'.(sys) = db ∧ p'.(thread) = t ∧ it.(getent) = get.
Proof.
  intros Hno Hl Ht. unfold entries. rewrite (run_bind_ok _ _ _ _ _ (acquire_free p s d Hno Hl)).
  set (p1 := set_claims _ _ p). rewrite (run_bind_ok this_thread _ p1 p1.(thread) p1 eq_refl).
  destruct (cur_set _ _ _ _ _ _ law p1.(sys)) as [Hs Hr]. unfold or_release, call_ent, mbind at 1, St_bind at 1.
  rewrite run_sys. change (thread p1) with (thread p). rewrite Ht.
  destruct (setent_at set t 0 0 (sys p1)) as [[status errno] w]. simpl in Hs, Hr. cbn [fst snd]. subst status.
  eexists _, _. split; [done|]. done.
Qed.

Lemma enumerate_runs w0 s d h so go eo p its :
  conf_ok w0 (mkConf p its) → s ∈ p.(LOADED) →
  existsb (conflicts s d) (live_of t p) = false → (s.(scope) = Process → p.(iter_locks) !! s.(addr) = None) →
  ∃ it p1 it' p2 p3,
    entries s d set get h so go eo extraction (set_thread t p) = (Ok it, p1) ∧
    drain (S (length db)) it p1 = (Ok ((λ x, of_raw x s.(source)) <$> db, it'), p2) ∧
    is_open it' = false ∧ ent_next it' p2 = (Ok (None, it'), p2) ∧
    ent_drop it' p2 = (Ok tt, p3) ∧ conf_ok w0 (mkConf p3 its).
Proof.
  intros Hok Hs Hno Hl. destruct (entries_reset s d h so go eo extraction (set_thread t p) Hno Hl eq_refl) as (it & p1 & He & Hr & Ht & Hg).
  set (i := fresh (dom its)). assert (its !! i = None) as Hi by apply not_elem_of_dom, is_fresh.
  destruct (opened_entries inj extraction w0 t s d set get h so go eo p its i inj_slot inj_buf (λ it, proj2 (inj_wf it)) Hok Hs Hi Hno Hl)
    as (r & p1' & He' & [(a & -> & Hsl & Hok1)|(op & st & er & -> & _)]); unfold mbind, St_bind in He'; rewrite He in He'; [|done].
  injection He' as <- <-. rewrite inj_slot in Hsl.
  destruct (drain_runs w0 (claimed s d) i db p1 (<[i := (t, inj it)]> its) it) as (it' & p2 & Hd & Hc & Hok2 & Ht2); try done.
  { by rewrite lookup_insert_eq. }
  { apply (cur_fits _ _ _ _ _ _ law). }
  rewrite insert_insert_eq in Hok2.
  destruct (drop_ok inj inj_slot inj_buf w0 p2 (<[i := (t, inj it')]> its) i t it' Hok2) as (p3 & Hdr & Hok3); [by rewrite lookup_insert_eq|].
  rewrite delete_insert_id in Hok3 by done. rewrite (set_thread_same p2 Ht2) in Hdr.
  exists it, p1, it', p2, p3. split; [done|]. split; [done|]. split; [unfold is_open; by rewrite Hc|]. split; [by apply next_closed|]. done.
Qed.
End Walk.
End Cursor.

(** ** The two databases read one way *)
Lemma reads_inj b l q s s' : reads b l q s → reads b l q s' → s = s'.
Proof. destruct q as [[b' o]|], s, s'; simpl; naive_solver. Qed.

Lemma array_inj b l off ms ms' : array_reads b l off ms → array_reads b l off ms' → ms = ms'.
Proof.
  intros H. revert ms'. induction H as [off _ H|off q m ms _ H Hm _ IH]; inversion 1 as [? _ H'|? q' m' ? _ H' Hm']; subst; rewrite H in H'; simplify_eq; [done|].
  f_equal; [|by apply IH]. pose proof (reads_inj _ _ _ _ _ Hm Hm'). congruence.
Qed.

Lemma passwd_reads_once b l e x y : passwd_reads b l e x → passwd_reads b l e y → x = y.
Proof.
  intros [] []. destruct x, y; simpl in *. f_equal; first [congruence|by eapply reads_inj].
Qed.

Lemma group_reads_once b l e x y : group_reads b l e x → group_reads b l e y → x = y.
Proof.
  intros [H1 H2 H3] [G1 G2 G3]. destruct x, y; simpl in *. f_equal; [by eapply reads_inj|congruence|].
  destruct (gr_mem e) as [[b' o]|]; [|congruence]. destruct H3, G3. by eapply array_inj.
Qed.
