(* ===== verification/NssHostsOk.v ===== *)
(** Names of addresses: what glibc documents of its two calls, and that a
    confirmed name is one whose forward lookup gives the address back. *)
From S2P Require Import Prelude XdrBase Utf8 NssError Nss NssService NssDb NssLookup.
Local Open Scope Z_scope.

(** ** The laws

    The lists that were given and not released.  A name that was found is
    terminated in its buffer; a list that was found is to be released, and each
    socket address in it has the length its entry says. *)
Class ResolverLaws (W : Type) {res : Resolver W} : Type := {
  lists : W → gset Z;
  getnameinfo_law sa n host flags w rc errno host' w' :
    libc_getnameinfo sa n host flags w = ((rc, errno, host'), w') →
    lists w' = lists w ∧ (rc = 0 → is_Some (c_string (CByte <$> host')));
  getaddrinfo_law name family socktype w rc errno q l w' :
    libc_getaddrinfo name family socktype w = ((rc, errno, (q, l)), w') →
    (rc ≠ 0 → lists w' = lists w) ∧
    (rc = 0 → (q ∉ lists w) ∧ lists w' = {[q]} ∪ lists w ∧ Forall (λ e, e.(ai_addrlen) ≤ len e.(ai_addr)) l);
  freeaddrinfo_law q w : q ∈ lists w → lists (freeaddrinfo q w) = lists w ∖ {[q]};
  innetgr_law g h u d w : lists (libc_innetgr g h u d w).2 = lists w
}.
Arguments ResolverLaws W {res}.

(** ** Addresses *)
(** The address of an entry of a list. *)
Definition entry_address (e : addrinfo) : option IpAddr :=
  if (e.(ai_family) =? AF_INET) && (size_of_sockaddr_in <=? e.(ai_addrlen))
  then Some (V4 (take 4 (drop 4 e.(ai_addr))))
  else if (e.(ai_family) =? AF_INET6) && (size_of_sockaddr_in6 <=? e.(ai_addrlen))
  then Some (V6 (take 16 (drop 8 e.(ai_addr))))
  else None.

Lemma octets_inside off n l : (off + n ≤ length l)%nat → octets_at off n l = Some (take n (drop off l)).
Proof. intros H. unfold octets_at. by rewrite decide_True. Qed.

(** The entry that carries an address across, in its family's layout. *)
Definition entry_of (a : IpAddr) : addrinfo :=
  with_sockaddr a (λ sa n, mkAddrinfo (match a with V4 _ => AF_INET | V6 _ => AF_INET6 end) n sa).

Lemma entry_of_address a : ip_ok a → entry_address (entry_of a) = Some a.
Proof.
  destruct a as [o|o]; unfold ip_ok; intros H.
  - do 4 (destruct o as [|? o]; [simpl in H; lia|]). destruct o; [done|simpl in H; lia].
  - do 16 (destruct o as [|? o]; [simpl in H; lia|]). destruct o; [done|simpl in H; lia].
Qed.

Lemma canonical_idem a : ip_ok a → to_canonical (to_canonical a) = to_canonical a.
Proof. destruct a as [o|o]; [done|]. simpl. case_decide; [done|]. simpl. by rewrite decide_False. Qed.

Lemma canonical_ok a : ip_ok a → ip_ok (to_canonical a).
Proof. destruct a as [o|o]; [done|]. simpl. intros H. case_decide; [|done]. simpl. rewrite length_drop. lia. Qed.

(** A C string has no NUL, so it can be asked back. *)
Lemma c_string_cstring l n : c_string l = Some n → cstring n = Some n.
Proof.
  intros H. unfold cstring. rewrite decide_False; [done|]. revert n H.
  induction l as [|[b|q k] l IH]; intros n H; simpl in H; [done| |done].
  case_decide as Hb; [simplify_eq; apply not_elem_of_nil|].
  destruct (c_string l) as [m|]; simplify_eq/=. rewrite not_elem_of_cons. split; [congruence|by apply IH].
Qed.

Section Hosts.
Context {W : Type} {res : Resolver W} {laws : ResolverLaws W}.
Implicit Types p : NssProc W.
Abbreviation App := (St (NssProc W) NssExit).

Lemma address_of_ok e p : e.(ai_addrlen) ≤ len e.(ai_addr) → address_of e p = (Ok (entry_address e), p).
Proof.
  intros H. unfold address_of, entry_address, or_undefined, size_of_sockaddr_in, size_of_sockaddr_in6.
  destruct (ai_family e =? AF_INET); simpl; [destruct (16 <=? ai_addrlen e) eqn:H1; simpl|].
  - apply Z.leb_le in H1. rewrite octets_inside by lia. done.
  - destruct (ai_family e =? AF_INET6); simpl; [|done]. destruct (28 <=? ai_addrlen e) eqn:H2; [|done].
    apply Z.leb_le in H2. apply Z.leb_gt in H1. lia.
  - destruct (ai_family e =? AF_INET6); simpl; [|done]. destruct (28 <=? ai_addrlen e) eqn:H2; [|done].
    apply Z.leb_le in H2. rewrite octets_inside by lia. done.
Qed.

Lemma collect_ok l p : Forall (λ e, e.(ai_addrlen) ≤ len e.(ai_addr)) l → ∀ acc,
  collect_addresses l acc p = (Ok (acc ++ omap entry_address l), p).
Proof.
  induction 1 as [|e l He _ IH]; intros acc; cbn [collect_addresses]; [by rewrite app_nil_r|].
  rewrite (run_bind_ok _ _ _ _ _ (address_of_ok e p He)), IH. simpl. rewrite <- app_assoc. by destruct (entry_address e).
Qed.

(** ** The two lookups *)
(** What a code means: found, a name or an address that is missing, or the error
    of the call with the errno of [EAI_SYSTEM] alone. *)
Definition lookup_failed (op : string) (rc errno : Z) : NssError :=
  Lookup_ (lit op) rc (if rc =? EAI_SYSTEM then errno else 0).
Definition is_missing (rc : Z) : bool := (rc =? EAI_NONAME) || (rc =? EAI_NODATA).

Definition host_buffer : bytes := replicate (Z.to_nat NI_MAXHOST) x00.
(** The reverse lookup of [a], of its canonical form. *)
Definition ask_name (a : IpAddr) (w : W) : (Z * Z * bytes) * W :=
  with_sockaddr (to_canonical a) (λ sa n, libc_getnameinfo sa n host_buffer NI_NAMEREQD w).

Definition name_result (rc errno : Z) (host : bytes) : NssResult (option bytes) :=
  if rc =? 0 then
    match c_string (CByte <$> host) with
    | Some n => if utf8_valid n then Ok (Some n) else Err (Fail NotUtf8)
    | None => Err Undefined
    end
  else if is_missing rc then Ok None else Err (Fail (lookup_failed "getnameinfo" rc errno)).

Lemma getnameinfo_runs a p rc errno host w1 : ask_name a p.(sys) = ((rc, errno, host), w1) →
  getnameinfo a p = (name_result rc errno host, set_sys w1 p).
Proof.
  unfold ask_name, getnameinfo, host_buffer. intros H.
  assert (∀ f : Z * Z * bytes → App (option bytes),
    (with_sockaddr (to_canonical a) (λ sa n, sys_call (libc_getnameinfo sa n (replicate (Z.to_nat NI_MAXHOST) x00) NI_NAMEREQD)) ≫= f) p =
    f (rc, errno, host) (set_sys w1 p)) as ->.
  { intros f. destruct (to_canonical a); simpl in *; rewrite run_sys, H; done. }
  unfold name_result, found, is_missing, result, lift, lookup_failed, or_undefined, mbind, St_bind, mret, St_ret.
  destruct (rc =? 0); simpl.
  - destruct (c_string _); simpl; [|done]. by destruct (utf8_valid _).
  - by destruct ((rc =? EAI_NONAME) || (rc =? EAI_NODATA)).
Qed.

Definition forward_result (rc errno : Z) (l : list addrinfo) : NssResult (list IpAddr) :=
  if rc =? 0 then Ok (omap entry_address l)
  else if is_missing rc then Ok [] else Err (Fail (lookup_failed "getaddrinfo" rc errno)).

Lemma addresses_runs n p rc errno q l w2 : cstring n = Some n →
  libc_getaddrinfo n AF_UNSPEC SOCK_STREAM p.(sys) = ((rc, errno, (q, l)), w2) →
  ∃ w3, addresses n p = (forward_result rc errno l, set_sys w3 p) ∧ lists w3 = lists p.(sys).
Proof.
  intros Hn H. destruct (getaddrinfo_law _ _ _ _ _ _ _ _ _ H) as [H1 H2].
  unfold addresses, result at 1. rewrite Hn. unfold lift, mbind at 1, St_bind at 1. simpl.
  rewrite run_sys, H. unfold forward_result, found, is_missing, result, lift, lookup_failed, mbind, St_bind, mret, St_ret.
  cbn [fst snd]. destruct (rc =? 0) eqn:Hrc.
  - apply Z.eqb_eq in Hrc. destruct (H2 Hrc) as (Hq & Hl & HF). simpl. unfold scoped. rewrite collect_ok by done.
    exists (freeaddrinfo q w2). split; [done|]. rewrite freeaddrinfo_law by (rewrite Hl; set_solver). rewrite Hl. apply set_eq. set_solver.
  - apply Z.eqb_neq in Hrc. exists w2. split; [|by apply H1]. by destruct ((rc =? EAI_NONAME) || (rc =? EAI_NODATA)).
Qed.

(** ** The name that is confirmed *)
(** The verdict on the answers of the two lookups. *)
Definition confirmed (a : IpAddr) (n : bytes) (forward : NssResult (list IpAddr)) : NssResult (option bytes) :=
  outcome_map (λ l, if existsb (λ b, bool_decide (to_canonical b = to_canonical a)) l then Some n else None) forward.

Lemma confirmed_runs a p rc errno host w1 : ask_name a p.(sys) = ((rc, errno, host), w1) →
  lists w1 = lists p.(sys) ∧
  match name_result rc errno host with
  | Ok (Some n) =>
      ∃ rc2 errno2 q l w2 w3, libc_getaddrinfo n AF_UNSPEC SOCK_STREAM w1 = ((rc2, errno2, (q, l)), w2) ∧
        confirmed_name a p = (confirmed a n (forward_result rc2 errno2 l), set_sys w3 p) ∧ lists w3 = lists w1
  | r => confirmed_name a p = (r, set_sys w1 p)
  end.
Proof.
  intros H. split.
  { unfold ask_name, with_sockaddr in H. by destruct (to_canonical a); apply getnameinfo_law in H as [? _]. }
  pose proof (getnameinfo_runs _ _ _ _ _ _ H) as Hg.
  destruct (name_result rc errno host) as [[n|]|e|w] eqn:Hr;
    [|unfold confirmed_name, mbind, St_bind; by rewrite Hg..].
  assert (cstring n = Some n) as Hn.
  { unfold name_result in Hr. repeat case_match; simplify_eq. by eapply c_string_cstring. }
  destruct (libc_getaddrinfo n AF_UNSPEC SOCK_STREAM w1) as [[[rc2 errno2] [q l]] w2] eqn:H2.
  destruct (addresses_runs n (set_sys w1 p) rc2 errno2 q l w2 Hn H2) as (w3 & H3 & Hl).
  exists rc2, errno2, q, l, w2, w3. split; [done|]. split; [|done].
  unfold confirmed_name, mbind, St_bind. rewrite Hg, H3.
  unfold confirmed. by destruct (forward_result rc2 errno2 l).
Qed.

(** The verdict, by cases: what is returned, and when it is a name. *)
Lemma forward_cases rc errno l :
  (∃ x, forward_result rc errno l = Ok x) ∨
  (forward_result rc errno l = Err (Fail (lookup_failed "getaddrinfo" rc errno)) ∧ rc ≠ 0 ∧ is_missing rc = false).
Proof.
  unfold forward_result. destruct (rc =? 0) eqn:H0; [eauto|]. apply Z.eqb_neq in H0. destruct (is_missing rc); eauto.
Qed.

Lemma lookup_errno op rc errno : ∃ e, lookup_failed op rc errno = Lookup_ (lit op) rc e ∧ (rc ≠ EAI_SYSTEM → e = 0).
Proof.
  unfold lookup_failed. eexists. split; [done|]. intros H. by rewrite (proj2 (Z.eqb_neq _ _) H).
Qed.

(** What the result can be. *)
Definition plain (r : NssResult (option bytes)) : Prop :=
  (∃ x, r = Ok x) ∨ r = Err (Fail NotUtf8) ∨
  ∃ op rc errno, r = Err (Fail (Lookup_ op rc errno)) ∧ rc ≠ 0 ∧ is_missing rc = false ∧ (rc ≠ EAI_SYSTEM → errno = 0).

Lemma confirmed_plain a n rc errno l : plain (confirmed a n (forward_result rc errno l)).
Proof.
  destruct (forward_cases rc errno l) as [[x ->]|(-> & H0 & Hm)]; [left; by eexists|right; right].
  destruct (lookup_errno "getaddrinfo" rc errno) as (e & -> & He). by eexists _, rc, e.
Qed.

Lemma name_plain rc errno host : (rc = 0 → is_Some (c_string (CByte <$> host))) → plain (name_result rc errno host).
Proof.
  intros Hc. unfold name_result. destruct (rc =? 0) eqn:H0.
  - apply Z.eqb_eq in H0. destruct (Hc H0) as [n ->]. destruct (utf8_valid n); [left; eauto|by right; left].
  - apply Z.eqb_neq in H0. destruct (is_missing rc) eqn:Hm; [left; eauto|right; right].
    destruct (lookup_errno "getnameinfo" rc errno) as (e & -> & He). by eexists _, rc, e.
Qed.

Lemma confirmed_name_is a n m rc errno l : confirmed a n (forward_result rc errno l) = Ok (Some m) ↔
  m = n ∧ rc = 0 ∧ ∃ e b, e ∈ l ∧ entry_address e = Some b ∧ to_canonical b = to_canonical a.
Proof.
  unfold confirmed, forward_result. destruct (rc =? 0) eqn:H0.
  - apply Z.eqb_eq in H0. simpl. set (f := λ b, bool_decide (to_canonical b = to_canonical a)).
    assert (existsb f (omap entry_address l) = true ↔ ∃ e b, e ∈ l ∧ entry_address e = Some b ∧ to_canonical b = to_canonical a) as Hf.
    { rewrite existsb_exists. setoid_rewrite <- list_elem_of_In. setoid_rewrite list_elem_of_omap. unfold f. setoid_rewrite bool_decide_eq_true.
      split; [intros (b & (e & ? & ?) & ?); by exists e, b|intros (e & b & ? & ? & ?); exists b; eauto]. }
    rewrite <- Hf. destruct (existsb f (omap entry_address l)); split; [intros ?; by simplify_eq|by intros (-> & _)|done|by intros (_ & _ & ?)].
  - apply Z.eqb_neq in H0. destruct (is_missing rc); simpl; (split; [done|by intros (_ & ? & _)]).
Qed.

Lemma name_result_is rc errno host n : name_result rc errno host = Ok (Some n) ↔
  rc = 0 ∧ c_string (CByte <$> host) = Some n ∧ utf8_valid n = true.
Proof.
  unfold name_result. destruct (rc =? 0) eqn:H0.
  - apply Z.eqb_eq in H0. destruct (c_string _) as [m|]; [|split; [done|by intros (_ & ? & _)]].
    destruct (utf8_valid m) eqn:Hv; (split; [intros ?; by simplify_eq|intros (_ & ? & ?); congruence]).
  - apply Z.eqb_neq in H0. destruct (is_missing rc); (split; [done|by intros (? & _)]).
Qed.

Lemma confirmed_cases a p rc errno host w1 : ask_name a p.(sys) = ((rc, errno, host), w1) →
  ∃ r w', confirmed_name a p = (r, set_sys w' p) ∧ lists w' = lists p.(sys) ∧ plain r ∧
    (∀ n, r = Ok (Some n) ↔
       ∃ errno host w1 errno2 q l w2,
         ask_name a p.(sys) = ((0, errno, host), w1) ∧ c_string (CByte <$> host) = Some n ∧ utf8_valid n = true ∧
         libc_getaddrinfo n AF_UNSPEC SOCK_STREAM w1 = ((0, errno2, (q, l)), w2) ∧
         ∃ e b, e ∈ l ∧ entry_address e = Some b ∧ to_canonical b = to_canonical a).
Proof.
  intros H. destruct (confirmed_runs a p rc errno host w1 H) as [Hl Hr].
  assert (rc = 0 → is_Some (c_string (CByte <$> host))) as Hc.
  { unfold ask_name, with_sockaddr in H. by destruct (to_canonical a); apply getnameinfo_law in H as [_ ?]. }
  pose proof (name_plain rc errno host Hc) as Hpl. pose proof (name_result_is rc errno host) as Hn.
  assert ((∀ n, name_result rc errno host ≠ Ok (Some n)) → ∀ r, name_result rc errno host = r → ∀ n, r = Ok (Some n) ↔
    ∃ errno host w1 errno2 q l w2,
         ask_name a p.(sys) = ((0, errno, host), w1) ∧ c_string (CByte <$> host) = Some n ∧ utf8_valid n = true ∧
         libc_getaddrinfo n AF_UNSPEC SOCK_STREAM w1 = ((0, errno2, (q, l)), w2) ∧
         ∃ e b, e ∈ l ∧ entry_address e = Some b ∧ to_canonical b = to_canonical a) as Hnone.
  { intros Hno r Heq n. split; [intros ->; by destruct (Hno n)|].
    intros (errno' & host' & w' & ? & ? & ? & ? & H' & Hcs & Hv & _). rewrite H in H'. simplify_eq. destruct (Hno n). by apply Hn. }
  destruct (name_result rc errno host) as [[n|]|e|w] eqn:Hres; [|eexists _, w1; split; [exact Hr|]; split; [done|]; split; [done|]; by apply Hnone..].
  destruct Hr as (rc2 & errno2 & q & l & w2 & w3 & H2 & Hr & Hl3). eexists _, w3. split; [exact Hr|]. split; [congruence|].
  split; [apply confirmed_plain|]. destruct (proj1 (Hn n) eq_refl) as (-> & Hcs & Hv). intros m. rewrite confirmed_name_is. split.
  - intros (-> & -> & He). exists errno, host, w1, errno2, q, l, w2. done.
  - intros (errno' & host' & w' & errno2' & q' & l' & w2' & H' & Hcs' & _ & H2' & He). rewrite H in H'. simplify_eq.
    rewrite H2 in H2'. simplify_eq. done.
Qed.
End Hosts.
