(* ===== verification/NssModel.v ===== *)
(** An executable model of service modules that has the laws: modules with their
    entries in lists, entries laid out in the caller's buffer, cursors, and group
    arrays that grow; and a resolver with its tables.  The theorems' witnesses
    run on it. *)
From S2P Require Import Prelude XdrBase Utf8 NssError Nss NssService NssDb NssLaws NssLookup NssWalk NssEnum NssConf NssHostsOk.
Local Open Scope Z_scope.

(** ** Strings in a buffer *)
(** What a C string can hold of [s]. *)
Fixpoint cut (s : bytes) : bytes :=
  match s with
  | [] => []
  | b :: s => if decide (b = x00) then [] else b :: cut s
  end.

Lemma c_string_cut s rest : c_string ((CByte <$> cut s) ++ CByte x00 :: rest) = Some (cut s).
Proof.
  induction s as [|b s IH]; [done|]. cbn [cut]. case_decide; [done|]. rewrite fmap_cons, <- app_comm_cons.
  cbn [c_string]. by rewrite decide_False, IH.
Qed.

(** The fields laid out from the offset [off] of the block [b], and the pointers
    to them. *)
Fixpoint lay (b off : Z) (fields : list (option bytes)) : list cell * list ptr :=
  match fields with
  | [] => ([], [])
  | None :: fields => let '(l, qs) := lay b off fields in (l, None :: qs)
  | Some s :: fields =>
      let c := (CByte <$> cut s) ++ [CByte x00] in
      let '(l, qs) := lay b (off + len c) fields in (c ++ l, Some (b, off) :: qs)
  end.

Lemma lay_reads b fields : ∀ pre post,
  Forall2 (λ q f, reads b (pre ++ (lay b (len pre) fields).1 ++ post) q (cut <$> f)) (lay b (len pre) fields).2 fields.
Proof.
  induction fields as [|[s|] fields IH]; intros pre post; simpl; [constructor| |].
  - set (c := (CByte <$> cut s) ++ [CByte x00]). specialize (IH (pre ++ c) post).
    replace (len (pre ++ c)) with (len pre + len c) in IH by (rewrite length_app; lia).
    destruct (lay b (len pre + len c) fields) as [l qs]. simpl in *. constructor.
    + split; [done|]. split; [lia|]. rewrite Nat2Z.id, drop_app_length, <- app_assoc. unfold c.
      rewrite <- app_assoc. simpl. apply c_string_cut.
    + eapply Forall2_impl; [exact IH|]. intros q f. by rewrite <- !app_assoc.
  - specialize (IH pre post). destruct (lay b (len pre) fields) as [l qs]. simpl in *. by constructor.
Qed.

Lemma lay_reads_0 b fields post :
  Forall2 (λ q f, reads b ((lay b 0 fields).1 ++ post) q (cut <$> f)) (lay b 0 fields).2 fields.
Proof. exact (lay_reads b fields [] post). Qed.

(** ** Entries *)
Definition cut_passwd (x : RawPasswd) : RawPasswd :=
  mkRawPasswd (cut <$> x.(raw_name)) x.(raw_uid) x.(raw_gid) (cut <$> x.(raw_gecos)) (cut <$> x.(raw_dir)) (cut <$> x.(raw_shell)).
Definition cut_group (x : RawGroup) : RawGroup :=
  mkRawGroup (cut <$> x.(raw_gname)) x.(raw_ggid) (cut <$> x.(raw_mem)).

Definition passwd_layout (b : Z) (x : RawPasswd) : list cell * passwd :=
  let '(l, qs) := lay b 0 [x.(raw_name); x.(raw_gecos); x.(raw_dir); x.(raw_shell)] in
  let q i := mjoin (qs !! (i : nat)) in
  (l, mkpasswd (q 0%nat) None x.(raw_uid) x.(raw_gid) (q 1%nat) (q 2%nat) (q 3%nat)).

Lemma passwd_layout_reads b x post :
  passwd_reads b ((passwd_layout b x).1 ++ post) (passwd_layout b x).2 (cut_passwd x).
Proof.
  unfold passwd_layout. pose proof (lay_reads_0 b [x.(raw_name); x.(raw_gecos); x.(raw_dir); x.(raw_shell)] post) as H.
  destruct (lay b 0 _) as [l qs]. cbn [fst snd] in *.
  repeat match goal with H : Forall2 _ _ (_ :: _) |- _ => apply Forall2_cons_inv_r in H as (? & ? & ? & ? & ?); subst end.
  match goal with H : Forall2 _ _ [] |- _ => apply Forall2_nil_inv_r in H as -> end. by split.
Qed.

(** A group's strings, and then its array of pointers. *)
Definition group_layout (b : Z) (x : RawGroup) : list cell * group :=
  let '(l, qs) := lay b 0 (x.(raw_gname) :: (Some <$> x.(raw_mem))) in
  (l ++ concat (pointer <$> tail qs) ++ zeros 8,
   mkgroup (mjoin (head qs)) None x.(raw_ggid) (Some (b, len l))).

Lemma load_pointer q rest : load_ptr (pointer q ++ rest) = Some q.
Proof.
  unfold load_ptr. change (pointer q ++ rest) with (CPtr q 0 :: CPtr q 1 :: CPtr q 2 :: CPtr q 3 :: CPtr q 4 :: CPtr q 5 :: CPtr q 6 :: CPtr q 7 :: rest).
  simpl. by rewrite decide_True.
Qed.
Lemma load_null rest : load_ptr (zeros 8 ++ rest) = Some None.
Proof. done. Qed.

Lemma array_layout b qs ms : ∀ pre post, (∀ l, l = pre ++ concat (pointer <$> qs) ++ zeros 8 ++ post →
    Forall2 (λ q m, reads b l q (Some m)) qs ms → array_reads b l (len pre) ms).
Proof.
  revert ms. induction qs as [|q qs IH]; intros ms pre post l Hl HF.
  - apply Forall2_nil_inv_l in HF as ->. constructor; [lia|]. rewrite Nat2Z.id, Hl, drop_app_length. done.
  - apply Forall2_cons_inv_l in HF as (m & ms' & Hq & HF & ->). destruct q as [q|]; [|done].
    econstructor; [lia| |exact Hq|].
    + rewrite Nat2Z.id, Hl, drop_app_length. simpl fmap. cbn [concat]. rewrite <- app_assoc. apply load_pointer.
    + replace (len pre + 8) with (len (pre ++ pointer (Some q))) by (rewrite length_app; change (length (pointer (Some q))) with 8%nat; lia).
      eapply (IH ms' (pre ++ pointer (Some q)) post); [|done]. rewrite Hl. simpl fmap. cbn [concat]. by rewrite <- !app_assoc.
Qed.

Lemma group_layout_reads b x post :
  group_reads b ((group_layout b x).1 ++ post) (group_layout b x).2 (cut_group x).
Proof.
  unfold group_layout. pose proof (lay_reads_0 b (x.(raw_gname) :: (Some <$> x.(raw_mem)))) as H.
  destruct (lay b 0 _) as [l qs]. cbn [fst snd] in *.
  assert (∃ q qs', qs = q :: qs') as (q & qs' & ->) by (specialize (H []); apply Forall2_cons_inv_r in H as (? & ? & ? & ? & ->); eauto).
  change (tail (q :: qs')) with qs'. set (all := (l ++ concat (pointer <$> qs') ++ zeros 8) ++ post).
  specialize (H (concat (pointer <$> qs') ++ zeros 8 ++ post)).
  replace (l ++ concat (pointer <$> qs') ++ zeros 8 ++ post) with all in H by (unfold all; by rewrite <- !app_assoc).
  apply Forall2_cons_1 in H as [H1 H2]. split; [done|done|]. split; [done|].
  apply (array_layout b qs' _ l post); [unfold all; by rewrite <- !app_assoc|].
  clearbody all. simpl. clear -H2. remember (Some <$> raw_mem x) as fs eqn:Hf. revert Hf. generalize (raw_mem x) as ms.
  induction H2 as [|q f qs fs Hq _ IH]; intros [|m ms] Hf; simplify_eq/=; constructor; [done|by apply IH].
Qed.

(** ** Modules *)
Record Module_ : Type := mkModule {
  mod_path : bytes;                       (** what [dlopen] finds it by *)
  mod_prefix : bytes;
  mod_process : bool;                     (** whether its cursors are the process's *)
  mod_down : bool;                        (** whether it reports itself unavailable *)
  mod_pw : list RawPasswd;
  mod_gr : list RawGroup;
  mod_ig : list (bytes * list Z)          (** the memberships of a user *)
}.

(** The state that calls change: how far the cursors are (by module and database,
    and thread), the blocks of [malloc] and the next, and the lists of the
    resolver. *)
Record Mw : Type := mkMw {
  m_cursors : gmap (Z * Z) nat;
  m_alloc : gset Z;
  m_next : Z;
  m_lists : gset Z
}.
Definition set_cursor (k : Z * Z) (n : nat) (w : Mw) : Mw :=
  mkMw (<[k := n]> w.(m_cursors)) w.(m_alloc) w.(m_next) w.(m_lists).
Definition set_alloc (a : gset Z) (n : Z) (w : Mw) : Mw := mkMw w.(m_cursors) a n w.(m_lists).
Definition set_lists (l : gset Z) (w : Mw) : Mw := mkMw w.(m_cursors) w.(m_alloc) w.(m_next) l.

(** The operations, by the place of their symbol. *)
Definition SUFFIXES : list string :=
  ["getpwnam_r"; "getpwuid_r"; "setpwent"; "endpwent"; "getpwent_r"; "getgrnam_r"; "getgrgid_r"; "setgrent";
   "endgrent"; "getgrent_r"; "initgroups_dyn"].

(** The entry [o] given into the buffer [l]. *)
Definition give {C} (down : bool) (e : C) (l : list cell) (o : option (list cell * C)) : Reply C :=
  if down then mkReply NSS_STATUS_UNAVAIL 0 e l
  else match o with
       | None => mkReply NSS_STATUS_NOTFOUND 0 e l
       | Some (cells, x) =>
           if len cells <=? len l then mkReply NSS_STATUS_SUCCESS 0 x (cells ++ drop (length cells) l)
           else mkReply NSS_STATUS_TRYAGAIN ERANGE e l
       end.

Section Model.
Context (mods : list Module_).

Definition module_at (f : Z) : option Module_ := mods !! Z.to_nat (f / 16).
Definition is_down (f : Z) : bool := match module_at f with Some m => m.(mod_down) | None => true end.
Definition passwds (f : Z) : list RawPasswd := match module_at f with Some m => cut_passwd <$> m.(mod_pw) | None => [] end.
Definition groups_of (f : Z) : list RawGroup := match module_at f with Some m => cut_group <$> m.(mod_gr) | None => [] end.
Definition member_gids (f : Z) (user : bytes) : list Z :=
  match module_at f with
  | Some m => default [] (snd <$> find (λ x, bool_decide (x.1 = user)) m.(mod_ig))
  | None => []
  end.
Definition cursor_key (f t db : Z) : Z * Z :=
  (f / 16 * 2 + db, match module_at f with Some m => if m.(mod_process) then 0 else t | None => t end).
Definition position (k : Z * Z) (w : Mw) : nat := default 0%nat (w.(m_cursors) !! k).

(** A step of a cursor: on success it moves. *)
Definition step_cursor {C X} (f t db : Z) (entries : list X) (layout : X → list cell * C) (e : C) (l : list cell) (w : Mw) : Reply C * Mw :=
  let k := cursor_key f t db in
  let r := give (is_down f) e l (layout <$> entries !! position k w) in
  (r, if r.(r_status) =? NSS_STATUS_SUCCESS then set_cursor k (S (position k w)) w else w).

Definition find_passwd (f : Z) (P : RawPasswd → bool) (e : passwd) (b : Z) (l : list cell) (w : Mw) : Reply passwd * Mw :=
  (give (is_down f) e l (passwd_layout b <$> find P (passwds f)), w).
Definition find_group (f : Z) (P : RawGroup → bool) (e : group) (b : Z) (l : list cell) (w : Mw) : Reply group * Mw :=
  (give (is_down f) e l (group_layout b <$> find P (groups_of f)), w).

(** The position of a symbol among a prefix's. *)
Definition symbol_index (pre symbol : bytes) : option nat :=
  fst <$> list_find (λ s, symbol_name pre (lit s) = symbol) SUFFIXES.

Definition model_initgroups (f : Z) (user : bytes) (gid start size q : Z) (arr : list (option Z)) (w : Mw) : IgReply * Mw :=
  let added := filter (λ g, g ≠ gid) (member_gids f user) in
  let n := 1 + len added in
  let status := if is_down f then NSS_STATUS_UNAVAIL else if decide (added = []) then NSS_STATUS_NOTFOUND else NSS_STATUS_SUCCESS in
  if n <=? size
  then (mkIg status 0 n size q (Some gid :: (Some <$> added) ++ drop (length added) (tail arr)), w)
  else let q' := fresh (w.(m_alloc) ∖ {[q]}) in
       (mkIg status 0 n n q' (Some gid :: (Some <$> added)), set_alloc ({[q']} ∪ (w.(m_alloc) ∖ {[q]})) w.(m_next) w).

#[local] Instance nss_model : Nss Mw := {|
  dlopen path _ w := ((λ x, Z.of_nat x.1 + 1) <$> list_find (λ m, m.(mod_path) = path) mods, w);
  dlsym h symbol w :=
    (m ← mods !! Z.to_nat (h - 1); i ← symbol_index m.(mod_prefix) symbol; Some ((h - 1) * 16 + Z.of_nat i), w);
  dlerror w := (Some (lit "cannot open shared object file"), w);
  getpwnam_r_at f _ n e b l _ w := find_passwd f (λ x, bool_decide (x.(raw_name) = Some n)) e b l w;
  getpwuid_r_at f _ u e b l _ w := find_passwd f (λ x, x.(raw_uid) =? u) e b l w;
  getpwent_r_at f t e b l _ w := step_cursor f t 0 (passwds f) (passwd_layout b) e l w;
  getgrnam_r_at f _ n e b l _ w := find_group f (λ x, bool_decide (x.(raw_gname) = Some n)) e b l w;
  getgrgid_r_at f _ g e b l _ w := find_group f (λ x, x.(raw_ggid) =? g) e b l w;
  getgrent_r_at f t e b l _ w := step_cursor f t 1 (groups_of f) (group_layout b) e l w;
  setent_at f t _ _ w :=
    if is_down f then ((NSS_STATUS_UNAVAIL, 0), w)
    else ((NSS_STATUS_SUCCESS, 0), set_cursor (cursor_key f t (if f mod 16 =? 2 then 0 else 1)) 0 w);
  endent_at f t _ w := ((NSS_STATUS_SUCCESS, 0), w);
  initgroups_dyn_at f _ user gid start size q arr _ _ w := model_initgroups f user gid start size q arr w;
  malloc _ w := let q := fresh w.(m_alloc) in (Some q, set_alloc ({[q]} ∪ w.(m_alloc)) w.(m_next) w);
  free q w := set_alloc (w.(m_alloc) ∖ {[q]}) w.(m_next) w
|}.

(** ** The laws hold *)
Lemma cut_idem s : cut (cut s) = cut s.
Proof. induction s as [|b s IH]; [done|]. simpl. case_decide; [done|]. simpl. by rewrite decide_False, IH. Qed.
Lemma cut_opt_idem (s : option bytes) : cut <$> (cut <$> s) = cut <$> s.
Proof. destruct s; [|done]. simpl. by rewrite cut_idem. Qed.
Lemma cut_passwd_idem x : cut_passwd (cut_passwd x) = cut_passwd x.
Proof. unfold cut_passwd. simpl. by rewrite !cut_opt_idem. Qed.
Lemma cut_group_idem x : cut_group (cut_group x) = cut_group x.
Proof.
  unfold cut_group. simpl. rewrite cut_opt_idem. f_equal. rewrite <- list_fmap_compose. apply list_fmap_ext. intros i s _. apply cut_idem.
Qed.

(** An entry that is given can be read. *)
Lemma give_law {C X} down (e : C) l (o : option X) (layout : X → list cell * C) (P : list cell → C → Prop) :
  (∀ x post, P ((layout x).1 ++ post) (layout x).2) →
  let r := give down e l (layout <$> o) in
  len r.(r_buf) = len l ∧ (r.(r_status) = NSS_STATUS_SUCCESS → P r.(r_buf) r.(r_entry)).
Proof.
  intros HP. unfold give. destruct down; [done|]. destruct o as [x|]; simpl; [|done].
  specialize (HP x). destruct (layout x) as [cells y]. simpl in *.
  destruct (len cells <=? len l) eqn:Hle; simpl; [|done]. apply Z.leb_le in Hle. split; [|done].
  rewrite length_app, length_drop. lia.
Qed.

Lemma find_passwd_fills f P : fills (T:=Passwd) m_alloc (λ e b l _ w, find_passwd f P e b l w).
Proof.
  intros e b l w r w'. unfold find_passwd. intros H. injection H as <- <-. split; [done|].
  destruct (give_law (is_down f) e l (find P (passwds f)) (passwd_layout b) (λ l e, ∃ x, passwd_reads b l e x)) as [H1 H2].
  - intros x post. eexists. apply passwd_layout_reads.
  - split; [done|]. intros Hs _. by apply H2.
Qed.
Lemma find_group_fills f P : fills (T:=Group) m_alloc (λ e b l _ w, find_group f P e b l w).
Proof.
  intros e b l w r w'. unfold find_group. intros H. injection H as <- <-. split; [done|].
  destruct (give_law (is_down f) e l (find P (groups_of f)) (group_layout b) (λ l e, ∃ x, group_reads b l e x)) as [H1 H2].
  - intros x post. eexists. apply group_layout_reads.
  - split; [done|]. intros Hs _. by apply H2.
Qed.

Lemma step_cursor_law {C X} f t db (entries : list X) (layout : X → list cell * C) e l w r w' (P : list cell → C → Prop) :
  (∀ x post, P ((layout x).1 ++ post) (layout x).2) →
  step_cursor f t db entries layout e l w = (r, w') →
  m_alloc w' = m_alloc w ∧ len r.(r_buf) = len l ∧ (r.(r_status) = NSS_STATUS_SUCCESS → P r.(r_buf) r.(r_entry)).
Proof.
  intros HP. unfold step_cursor. intros H. injection H as <- <-. split; [by case_match|].
  exact (give_law _ e l _ layout P HP).
Qed.

Lemma initgroups_model f user gid q arr w r w' :
  q ∈ m_alloc w → len arr = INITGROUPS_INITIAL → arr !! 0%nat = Some (Some gid) →
  model_initgroups f user gid 1 INITGROUPS_INITIAL q arr w = (r, w') →
  (r.(ig_groups) ∉ m_alloc w ∖ {[q]}) ∧ m_alloc w' = {[r.(ig_groups)]} ∪ (m_alloc w ∖ {[q]}) ∧
  1 ≤ r.(ig_start) ∧ 1 ≤ r.(ig_size) ≤ len r.(ig_array) ∧
  ∃ added, take (Z.to_nat (Z.min r.(ig_start) r.(ig_size))) r.(ig_array) = Some gid :: (Some <$> added).
Proof.
  intros Hq Hlen H0. unfold model_initgroups. set (added := filter _ _).
  destruct (1 + len added <=? INITGROUPS_INITIAL) eqn:Hle; intros H; injection H as <- <-; simpl.
  - apply Z.leb_le in Hle. split; [set_solver|]. split.
    { apply set_eq. intros x. rewrite elem_of_union, elem_of_difference, elem_of_singleton. destruct (decide (x = q)); naive_solver. }
    split; [lia|]. destruct arr as [|a arr]; [done|]. simpl in Hlen. simpl tail. unfold INITGROUPS_INITIAL in *. split.
    { rewrite length_app, length_fmap, length_drop. lia. }
    exists added. replace (Z.to_nat ((1 + len added) `min` 32)) with (S (length (Some <$> added))) by (rewrite length_fmap; lia).
    simpl. by rewrite take_app_length.
  - split; [apply is_fresh|]. split; [done|]. split; [lia|]. split; [rewrite length_fmap; lia|]. exists added.
    rewrite Z.min_id. replace (Z.to_nat (1 + len added)) with (S (length (Some <$> added))) by (rewrite length_fmap; lia).
    simpl. by rewrite take_ge.
Qed.

#[local] Program Instance nss_model_laws : NssLaws Mw := {| allocated := m_alloc |}.
Next Obligation. done. Qed.
Next Obligation. done. Qed.
Next Obligation. done. Qed.
Next Obligation. intros. apply find_passwd_fills. Qed.
Next Obligation. intros. apply find_passwd_fills. Qed.
Next Obligation.
  intros f t e b l w r w' H. destruct (step_cursor_law _ _ _ _ _ _ _ _ _ _ (λ l e, ∃ x, passwd_reads b l e x) (λ x post, ex_intro _ _ (passwd_layout_reads b x post)) H) as (? & ? & HP).
  split; [done|]. split; [done|]. intros Hs _. by apply HP.
Qed.
Next Obligation. intros. apply find_group_fills. Qed.
Next Obligation. intros. apply find_group_fills. Qed.
Next Obligation.
  intros f t e b l w r w' H. destruct (step_cursor_law _ _ _ _ _ _ _ _ _ _ (λ l e, ∃ x, group_reads b l e x) (λ x post, ex_intro _ _ (group_layout_reads b x post)) H) as (? & ? & HP).
  split; [done|]. split; [done|]. intros Hs _. by apply HP.
Qed.
Next Obligation. intros f t s e w. simpl. by case_match. Qed.
Next Obligation. done. Qed.
Next Obligation.
  intros n w q w' H. simpl in H. injection H as <- <-. split; [apply is_fresh|done].
Qed.
Next Obligation. done. Qed.
Next Obligation. intros f t user gid q arr w r w' Hq Hl H0 H. exact (initgroups_model f user gid q arr w r w' Hq Hl H0 H). Qed.
End Model.

(** ** The cursor walks its module's entries *)
Lemma lay_size b b' off off' fields : length (lay b off fields).1 = length (lay b' off' fields).1.
Proof.
  revert off off'. induction fields as [|[s|] fields IH]; intros off off'; simpl; [done| |].
  - set (c := (CByte <$> cut s) ++ [CByte x00]). specialize (IH (off + len c) (off' + len c)).
    destruct (lay b (off + len c) fields), (lay b' (off' + len c) fields). simpl in *. rewrite !length_app. lia.
  - specialize (IH off off'). destruct (lay b off fields), (lay b' off' fields). simpl in *. lia.
Qed.

Definition passwd_need (x : RawPasswd) : Z := len (passwd_layout 0 x).1.
Lemma passwd_need_any b x : len (passwd_layout b x).1 = passwd_need x.
Proof.
  unfold passwd_need, passwd_layout. pose proof (lay_size b 0 0 0 [raw_name x; raw_gecos x; raw_dir x; raw_shell x]) as H.
  destruct (lay b 0 _), (lay 0 0 _). simpl in *. lia.
Qed.

Section Cursors.
Context (mods : list Module_).
#[local] Instance cursor_nss : Nss Mw := nss_model mods.

(** What a step of the cursor gives, before the end and at it. *)
Lemma step_cursor_next {C X} f t db (entries : list X) (layout : X → list cell * C) e l w r w' x xs :
  is_down mods f = false → drop (position (cursor_key mods f t db) w) entries = x :: xs →
  step_cursor mods f t db entries layout e l w = (r, w') →
  if len (layout x).1 <=? len l
  then r = mkReply NSS_STATUS_SUCCESS 0 (layout x).2 ((layout x).1 ++ drop (length (layout x).1) l) ∧
       drop (position (cursor_key mods f t db) w') entries = xs
  else r = mkReply NSS_STATUS_TRYAGAIN ERANGE e l ∧ w' = w.
Proof.
  intros Hd Hx. unfold step_cursor, give. rewrite Hd. set (k := cursor_key mods f t db) in *.
  assert (entries !! position k w = Some x) as Hl.
  { pose proof (lookup_drop entries (position k w) 0) as H. rewrite Hx, Nat.add_0_r in H. done. }
  rewrite Hl. simpl. destruct (layout x) as [cells y]. simpl. destruct (len cells <=? len l); intros H; simplify_eq/=; [|done].
  split; [done|]. unfold position at 1. simpl. rewrite lookup_insert_eq. simpl.
  rewrite <- Nat.add_1_r, <- drop_drop, Hx. done.
Qed.

Lemma step_cursor_end {C X} f t db (entries : list X) (layout : X → list cell * C) e l w r w' :
  is_down mods f = false → drop (position (cursor_key mods f t db) w) entries = [] →
  step_cursor mods f t db entries layout e l w = (r, w') → r.(r_errno) = 0 ∧ r.(r_status) = NSS_STATUS_NOTFOUND.
Proof.
  intros Hd Hx. unfold step_cursor, give. rewrite Hd. set (k := cursor_key mods f t db) in *.
  assert (entries !! position k w = None) as -> by (apply lookup_ge_None_2; apply (f_equal length) in Hx; rewrite length_drop in Hx; simpl in Hx; lia).
  simpl. intros H. by simplify_eq/=.
Qed.

(** The model's [setpwent] and [getpwent_r] of a module are the cursor of its
    passwd entries. *)
Lemma passwd_cursor f g t :
  is_down mods f = false → is_down mods g = false → f mod 16 = 2 → cursor_key mods f t 0 = cursor_key mods g t 0 →
  (∀ x, x ∈ passwds mods g → passwd_need x ≤ MAX_BUFLEN) →
  cursor_law (ent:=Entry_passwd) f g t (λ w, drop (position (cursor_key mods g t 0) w) (passwds mods g)) passwd_need (passwds mods g).
Proof.
  intros Hf Hg Hm Hk Hn. split.
  - intros w. simpl. rewrite Hf, Hm. simpl. rewrite Hk. split; [done|]. unfold position. simpl. by rewrite lookup_insert_eq.
  - intros e b l w r w' Hr H. exact (step_cursor_end g t 0 (passwds mods g) (passwd_layout b) e l w r w' Hg Hr H).
  - intros e b l w r w' x xs Hr H.
    pose proof (step_cursor_next g t 0 (passwds mods g) (passwd_layout b) e l w r w' x xs Hg Hr H) as Hs.
    rewrite passwd_need_any in Hs. destruct (passwd_need x <=? len l); destruct Hs as [-> Hs]; simpl.
    + repeat (split; [done|]). split; [|done]. assert (x ∈ passwds mods g) as Hin.
      { rewrite <- (take_drop (position (cursor_key mods g t 0) w) (passwds mods g)). rewrite Hr. apply elem_of_app. right. by left. }
      assert (cut_passwd x = x) as Hc.
      { unfold passwds in Hin. destruct (module_at mods g) as [m|]; [|by apply not_elem_of_nil in Hin].
        apply list_elem_of_fmap in Hin as (y & -> & _). apply cut_passwd_idem. }
      pose proof (passwd_layout_reads b x (drop (length (passwd_layout b x).1) l)) as Hreads. by rewrite Hc in Hreads.
    + subst w'. done.
  - done.
Qed.
End Cursors.

(** ** The resolver *)
Record Hosts : Type := mkHosts { reverse : list (IpAddr * bytes); forward : list (bytes * list IpAddr) }.

Section Resolver_.
Context (hosts : Hosts).

Definition good_entries (l : list IpAddr) : list addrinfo := filter (λ e, e.(ai_addrlen) ≤ len e.(ai_addr)) (entry_of <$> l).

#[local] Instance resolver_model : Resolver Mw := {|
  libc_getnameinfo sa _ _ _ w :=
    match find (λ x, bool_decide (with_sockaddr x.1 (λ sa _, sa) = sa)) hosts.(reverse) with
    | Some x => ((0, 0, cut x.2 ++ [x00]), w)
    | None => ((EAI_NONAME, 0, []), w)
    end;
  libc_getaddrinfo n _ _ w :=
    match find (λ x, bool_decide (x.1 = n)) hosts.(forward) with
    | Some x => let q := fresh w.(m_lists) in ((0, 0, (q, good_entries x.2)), set_lists ({[q]} ∪ w.(m_lists)) w)
    | None => ((EAI_NONAME, 0, (0, [])), w)
    end;
  freeaddrinfo q w := set_lists (w.(m_lists) ∖ {[q]}) w;
  libc_innetgr _ _ _ _ w := (0, w)
|}.

#[local] Program Instance resolver_model_laws : ResolverLaws Mw := {| lists := m_lists |}.
Next Obligation.
  intros sa n host flags w rc errno host' w'. simpl. destruct (find _ _); intros ?; simplify_eq; (split; [done|]).
  - intros _. rewrite fmap_app. eexists. apply c_string_cut.
  - done.
Qed.
Next Obligation.
  intros name family socktype w rc errno q l w'. simpl. destruct (find _ _); intros ?; simplify_eq; (split; [done|]).
  - intros _. split; [apply is_fresh|]. split; [done|]. apply Forall_forall. intros e He. unfold good_entries in He.
    by apply list_elem_of_filter in He as [? _].
  - done.
Qed.
Next Obligation. done. Qed.
Next Obligation. done. Qed.
End Resolver_.
