(* ===== verification/NssTheorems.v ===== *)
(** The theorems on [truenas_nss], with witnesses on the model of its modules. *)
From S2P Require Import Prelude XdrBase Utf8 NssError Nss NssService NssDb NssLaws NssLookup NssWalk NssEnum NssConf NssHostsOk NssModel.
Local Open Scope Z_scope.

(** ** The modules of the witnesses *)
Definition alice : RawPasswd :=
  mkRawPasswd (Some (lit "alice")) 1000 100 (Some [x41; xff]) (Some (lit "/home/alice")) None.
Definition bob : RawPasswd := mkRawPasswd (Some (lit "bob")) 1001 100 None (Some (lit "/")) (Some (lit "/bin/sh")).
Definition staff : RawGroup := mkRawGroup (Some (lit "staff")) 100 [lit "alice"; lit "bob"].

(** The files module is down, sss knows the users, winbind adds memberships. *)
Definition three : list Module_ := [
  mkModule (lit "libnss_files.so.2") (lit "files") true true [] [] [];
  mkModule (lit "libnss_sss.so.2") (lit "sss") false false [alice; bob] [staff] [(lit "alice", [200; 300])];
  mkModule (lit "libnss_winbind.so.2") (lit "winbind") false false [] [] [(lit "alice", [300; 400])]
].
(** And one where files has the users. *)
Definition local : list Module_ := [
  mkModule (lit "libnss_files.so.2") (lit "files") true false [alice; bob] [staff] []
].

Definition w_0 : Mw := mkMw ∅ ∅ 0 ∅.
(** A process on it that has not used the crate, on the thread 1. *)
Definition start : NssProc Mw := (fresh_conf 1 w_0).(proc).
(** And after its first use of a source. *)
Definition started (mods : list Module_) (src : Source) : NssProc Mw :=
  (Source_service (nss:=nss_model mods) src start).2.
Definition service_at (mods : list Module_) (src : Source) : Service :=
  match (Source_service (nss:=nss_model mods) src start).1 with
  | Ok s => s
  | _ => mkService 0 [] [] Files Process (mkFns None None None None None None None None None None None)
  end.


(** ** Lookups *)
Section Lookups.
Context {W : Type} {nss : Nss W} {laws : NssLaws W}.
Implicit Types p : NssProc W.

(** C21: A lookup in a module, of a user or of a group, by name or by number: it
    is refused without a call where the module lacks the function or the name
    holds a NUL.  Else the module is called at most fifteen times, with buffers
    that double up to the ceiling and errno zeroed each time, and the result is
    the verdict on its last answer: an errno is a fault whatever the status,
    NOTFOUND is none, and an entry is read out of the buffer it was written to.
    No read is undefined, and the heap, the claims and the services are as they
    were. *)
Theorem nss_lookup s p (Hp : heap_ok p) :
  (∀ u, looked_up s s.(fns).(getpwuid_r) "getpwuid_r" (λ f, getpwuid_r_at f p.(thread) u) (Service_getpwuid s u) p) ∧
  (∀ g, looked_up s s.(fns).(getgrgid_r) "getgrgid_r" (λ f, getgrgid_r_at f p.(thread) g) (Service_getgrgid s g) p) ∧
  (∀ n, if decide (x00 ∈ n)
        then (∃ e, Service_getpwnam s n p = (Err (Fail e), p)) ∧ (∃ e, Service_getgrnam s n p = (Err (Fail e), p))
        else looked_up s s.(fns).(getpwnam_r) "getpwnam_r" (λ f, getpwnam_r_at f p.(thread) n) (Service_getpwnam s n) p ∧
             looked_up s s.(fns).(getgrnam_r) "getgrnam_r" (λ f, getgrnam_r_at f p.(thread) n) (Service_getgrnam s n) p).
Proof.
  split; [intros; by apply getpwuid_runs|]. split; [intros; by apply getgrgid_runs|]. intros n. case_decide as Hn.
  - rewrite getpwnam_nul, getgrnam_nul by done. eauto.
  - split; [by apply getpwnam_runs|by apply getgrnam_runs].
Qed.

(** ** The text of an entry *)
Lemma c_string_no_nul h q s : read_string h q = Some s → x00 ∉ s.
Proof.
  unfold read_string. intros H. apply bind_Some in H as (l & _ & H). apply c_string_cstring in H. unfold cstring in H. by case_decide.
Qed.

Lemma name_field_text q p n p' : name_field q p = (Ok n, p') → p' = p ∧ utf8_valid n = true ∧ x00 ∉ n.
Proof.
  unfold name_field, deref, mbind, St_bind, mret, St_ret. destruct q as [q|]; [|done].
  destruct (read_string p.(heap) q) as [s|] eqn:Hs; [|done]. destruct (utf8_valid s) eqn:Hv; intros ?; simplify_eq.
  split; [done|]. split; [done|]. by eapply c_string_no_nul.
Qed.

Lemma text_field_text q p n p' : text_field q p = (Ok n, p') → p' = p ∧ utf8_valid n = true.
Proof.
  unfold text_field, deref, mbind, St_bind, mret, St_ret. destruct q as [q|]; [|intros ?; by simplify_eq].
  destruct (read_string p.(heap) q) as [s|]; intros ?; simplify_eq. split; [done|apply lossy_valid].
Qed.

Lemma deref_inv {A} (r : Heap → option A) p a p' : deref r p = (Ok a, p') → p' = p ∧ r p.(heap) = Some a.
Proof. unfold deref. destruct (r p.(heap)); intros ?; by simplify_eq. Qed.

Lemma walk_members_text fuel : ∀ cursor acc p ms p',
  walk_members fuel cursor acc p = (Ok ms, p') → Forall (λ m, utf8_valid m = true ∧ x00 ∉ m) acc →
  p' = p ∧ Forall (λ m, utf8_valid m = true ∧ x00 ∉ m) ms.
Proof.
  induction fuel as [|fuel IH]; intros cursor acc p ms p' H Ha; [done|]. cbn [walk_members] in H.
  apply bind_ok_inv in H as (q & p1 & H1 & H). apply deref_inv in H1 as [-> _].
  destruct q as [q|]; [|by unfold mret, St_ret in H; simplify_eq].
  apply bind_ok_inv in H as (m & p2 & H2 & H). apply name_field_text in H2 as (-> & Hm).
  eapply IH; [exact H|]. apply Forall_app. by split; [|constructor].
Qed.

(** C22: The text of an entry that is given is text: every name and member is
    valid UTF-8 without a NUL, so it can be looked up, and every description is
    valid UTF-8, whatever bytes the module left; valid bytes are kept as they
    are.  Reading an entry changes nothing. *)
Theorem nss_entry_text :
  (∀ e src p pw p', extract_passwd e src p = (Ok pw, p') →
     p' = p ∧ utf8_valid pw.(pwd_name) = true ∧ (x00 ∉ pw.(pwd_name)) ∧ utf8_valid pw.(gecos) = true ∧
     utf8_valid pw.(dir) = true ∧ utf8_valid pw.(shell) = true ∧ pw.(pwd_source) = src) ∧
  (∀ e src p gr p', extract_group e src p = (Ok gr, p') →
     p' = p ∧ utf8_valid gr.(grp_name) = true ∧ (x00 ∉ gr.(grp_name)) ∧
     Forall (λ m, utf8_valid m = true ∧ x00 ∉ m) gr.(members) ∧ gr.(grp_source) = src) ∧
  (∀ s, utf8_valid s = true → from_utf8_lossy s = s).
Proof.
  split; [|split; [|exact lossy_id]].
  - intros e src p pw p' H. unfold extract_passwd in H. bind_inv.
    apply name_field_text in Hrun as (-> & Hn & Hz). apply text_field_text in Hrun0 as [-> ?].
    apply text_field_text in Hrun1 as [-> ?]. apply text_field_text in Hrun2 as [-> ?]. done.
  - intros e src p gr p' H. unfold extract_group in H. bind_inv.
    apply name_field_text in Hrun0 as (-> & Hn & Hz). destruct (gr_mem e) as [cursor|].
    + apply bind_ok_inv in Hrun as (block & p1 & H1 & Hrun).
      apply deref_inv in H1 as [-> _].
      by apply walk_members_text in Hrun as [-> ?]; [|constructor].
    + unfold mret, St_ret in Hrun. simplify_eq. done.
Qed.




(** ** Enumerations *)
(** An open iterator of another number that goes through the cursor of [s] and
    [d] on the thread [t]. *)
Definition cursor_taken (its : gmap nat (Z * AnyIter W)) (t : Z) (s : Service) (d : Database) : Prop :=
  ∃ i u a x, its !! i = Some (u, a) ∧ any_slot a = Some x ∧ shares (t, claimed s d) (u, x).
Definition own_taken (its : gmap nat (Z * AnyIter W)) (t : Z) (s : Service) (d : Database) : Prop :=
  ∃ i a x, its !! i = Some (t, a) ∧ any_slot a = Some x ∧ shares (t, claimed s d) (t, x).

Lemma own_conflict w0 p its t s d : conf_ok w0 (mkConf p its) → s ∈ p.(LOADED) →
  existsb (conflicts s d) (live_of t p) = true ↔ own_taken its t s d.
Proof.
  intros [HS HC _ _ _] Hs. simpl in *.
  rewrite (conflict_spec (set_thread t p) (opens its) s d (claims_ext p (set_thread t p) _ HC eq_refl eq_refl ltac:(done)) (services_distinct p HS) Hs).
  simpl. split.
  - intros (j & y & Hj & Hsh). apply opens_Some in Hj as (a & Ha & Hy). by exists j, a, y.
  - intros (j & a & y & Ha & Hy & Hsh). exists j, y. split; [apply opens_Some; eauto|done].
Qed.

Lemma lock_holder w0 p its t s d : conf_ok w0 (mkConf p its) → s ∈ p.(LOADED) → ¬ own_taken its t s d → s.(scope) = Process →
  ∀ u, p.(iter_locks) !! s.(addr) = Some u → u ≠ t ∧
    ∃ i a x, its !! i = Some (u, a) ∧ any_slot a = Some x ∧ shares (t, claimed s d) (u, x).
Proof.
  intros [HS HC _ _ _] Hs Hown Hp u Hu. simpl in *. apply (cl_lock _ _ HC) in Hu as (i & x & Hi & Ha & _).
  apply opens_Some in Hi as (a & Hi & Hx). assert (shares (t, claimed s d) (u, x)) as Hsh by (split; [done|by left]).
  split; [|by exists i, a, x]. intros ->. apply Hown. by exists i, a, x.
Qed.

Lemma lock_free w0 p its t s d : conf_ok w0 (mkConf p its) → s ∈ p.(LOADED) → ¬ cursor_taken its t s d →
  existsb (conflicts s d) (live_of t p) = false ∧ (s.(scope) = Process → p.(iter_locks) !! s.(addr) = None).
Proof.
  intros Hok Hs Hno. assert (¬ own_taken its t s d) as Hown by (intros (i & a & x & ?); apply Hno; by exists i, t, a, x).
  split.
  - apply not_true_iff_false. by rewrite (own_conflict w0 p its t s d).
  - intros Hp. apply eq_None_not_Some. intros [u Hu]. destruct (lock_holder w0 p its t s d Hok Hs Hown Hp u Hu) as (_ & i & a & x & ?).
    apply Hno. by exists i, u, a, x.
Qed.

Lemma taken_locked w0 p its t s d : conf_ok w0 (mkConf p its) → s ∈ p.(LOADED) → ¬ own_taken its t s d →
  cursor_taken its t s d → s.(scope) = Process ∧ is_Some (p.(iter_locks) !! s.(addr)).
Proof.
  intros [HS HC _ _ _] Hs Hn (i & u & a & x & Hi & Hx & [Ha Hsh]). simpl in *. destruct Hsh as [Hp|[<- Hd]].
  - split; [done|]. exists u. apply (cl_lock _ _ HC). assert (opens its !! i = Some (u, x)) as Ho by (apply opens_Some; eauto).
    exists i, x. split; [done|]. split; [done|].
    assert (x.(svc) = s) as -> by (apply (services_distinct p HS); [by eapply (cl_slot _ _ HC)|done|done]). done.
  - destruct Hn. exists i, a, x. split; [done|]. split; [done|]. split; [done|by right].
Qed.

(** The three ends of an opening. *)
Lemma open_verdict w0 p its t s d fgh : conf_ok w0 (mkConf p its) → s ∈ p.(LOADED) → enumerable s d = Some fgh →
  if existsb (conflicts s d) (live_of t p)
  then own_taken its t s d ∧ open_iter s d (set_thread t p) = (Err (Fail (Busy s.(name))), set_thread t p)
  else ¬ own_taken its t s d ∧
    ((cursor_taken its t s d ∧ (open_iter s d (set_thread t p)).1 = Err Blocked) ∨
     (¬ cursor_taken its t s d ∧ ∃ i r p', its !! i = None ∧ open_iter s d (set_thread t p) = (r, p') ∧ opened w0 t s d i p its r p')).
Proof.
  intros Hok Hs Hf. pose proof (own_conflict w0 p its t s d Hok Hs) as Hown.
  destruct (existsb (conflicts s d) (live_of t p)) eqn:Hno; [split; [by apply Hown|by eapply open_conflict]|].
  assert (¬ own_taken its t s d) as Hn by (rewrite <- Hown; done). split; [done|].
  destruct (decide (s.(scope) = Process ∧ is_Some (p.(iter_locks) !! s.(addr)))) as [[Hp [u Hu]]|Hl].
  - left. split; [|by eapply open_waits]. destruct (lock_holder w0 p its t s d Hok Hs Hn Hp u Hu) as (_ & i & a & x & ?). by exists i, u, a, x.
  - right. split; [intros Ht; by destruct Hl; eapply taken_locked|].
    exists (fresh (dom its)). assert (its !! fresh (dom its) = None) as Hi by apply not_elem_of_dom, is_fresh.
    destruct (open_runs w0 t s d p its (fresh (dom its)) fgh Hok Hs Hi Hf Hno) as (r & p' & Hr & Ho); [|by exists r, p'].
    intros Hp. apply eq_None_not_Some. naive_solver.
Qed.

Lemma all_dropped w0 p : conf_ok w0 (mkConf p ∅) → p.(heap) = ∅ ∧ p.(iter_locks) = ∅ ∧ (∀ t, live_of t p = []) ∧ allocated p.(sys) = allocated w0.
Proof.
  intros [_ HC HB _ HA]. simpl in *. unfold bufs, opens in *. rewrite omap_empty in HC. rewrite fmap_empty in HB. split_and!; [| | |done].
  - apply map_eq. intros b. rewrite lookup_empty. apply eq_None_not_Some. intros [i Hi]%(bufs_heap _ _ HB). by rewrite lookup_empty in Hi.
  - apply map_eq. intros k. rewrite lookup_empty. apply eq_None_not_Some. intros [u (i & x & Hi & _)%(cl_lock _ _ HC)]. by rewrite lookup_empty in Hi.
  - intros t. apply elem_of_nil_inv. intros k (i & x & Hi & _)%(cl_live _ _ HC). by rewrite lookup_empty in Hi.
Qed.

(** C25: Over any interleaving of threads that look up, and open, step and drop
    iterators: no two open iterators go through one cursor; a thread's table
    holds exactly the claims of its open iterators, and a service's lock is held
    exactly by the thread with an open iterator of a process-scoped service.  To
    open one is refused as busy exactly where the thread has an iterator on that
    cursor, waits exactly where another thread has, and else gives an iterator
    with its claim, or the module's fault with none.  When all are dropped, no
    claim, no lock, no buffer and no array is left. *)
Theorem nss_claims t0 w0 c (Hc : rtc step (fresh_conf t0 w0) c) :
  let p := c.(proc) in let its := c.(iters) in
  (∀ i j ti tj a b x y, its !! i = Some (ti, a) → any_slot a = Some x → its !! j = Some (tj, b) → any_slot b = Some y →
     shares (ti, x) (tj, y) → i = j) ∧
  (∀ t k, k ∈ live_of t p ↔ ∃ i a x, its !! i = Some (t, a) ∧ any_slot a = Some x ∧ claim x = k) ∧
  (∀ k t, p.(iter_locks) !! k = Some t ↔
     ∃ i a x, its !! i = Some (t, a) ∧ any_slot a = Some x ∧ x.(svc).(addr) = k ∧ x.(svc).(scope) = Process) ∧
  (∀ t s d fgh, s ∈ p.(LOADED) → enumerable s d = Some fgh →
     if existsb (conflicts s d) (live_of t p)
     then own_taken its t s d ∧ open_iter s d (set_thread t p) = (Err (Fail (Busy s.(name))), set_thread t p)
     else ¬ own_taken its t s d ∧
       ((cursor_taken its t s d ∧ (open_iter s d (set_thread t p)).1 = Err Blocked) ∨
        (¬ cursor_taken its t s d ∧ ∃ i r p', its !! i = None ∧ open_iter s d (set_thread t p) = (r, p') ∧ opened w0 t s d i p its r p'))) ∧
  (its = ∅ → p.(heap) = ∅ ∧ p.(iter_locks) = ∅ ∧ (∀ t, live_of t p = []) ∧ allocated p.(sys) = allocated w0).
Proof.
  pose proof (reachable_ok t0 w0 c Hc) as Hok. destruct c as [p its]. simpl. pose proof Hok as [HS HC HB HW HA]. simpl in *.
  split_and!.
  - intros i j ti tj a b x y Hi Hx Hj Hy. eapply (cl_excl _ _ HC); apply opens_Some; eauto.
  - intros t k. rewrite (cl_live _ _ HC). setoid_rewrite opens_Some. naive_solver.
  - intros k t. rewrite (cl_lock _ _ HC). setoid_rewrite opens_Some. naive_solver.
  - intros t s d fgh Hs Hf. by eapply open_verdict.
  - intros ->. by apply all_dropped.
Qed.

(** Enumerations make progress: whatever the threads have done, every
    iterator can be stepped and dropped, without waiting, undefined reads or
    panics.  A thread that waits to open one never waits for itself: an iterator
    of another thread holds the cursor, and once that is dropped the opening no
    longer waits. *)
Theorem nss_progress t0 w0 c (Hc : rtc step (fresh_conf t0 w0) c) :
  let p := c.(proc) in let its := c.(iters) in
  (∀ i t a, its !! i = Some (t, a) →
     (∃ a' p', next_iter a (set_thread t p) = (Ok a', p')) ∧ ∃ p', drop_iter a (set_thread t p) = (Ok tt, p')) ∧
  (∀ t s d fgh, s ∈ p.(LOADED) → enumerable s d = Some fgh → (open_iter s d (set_thread t p)).1 = Err Blocked →
     ∃ i u a p', u ≠ t ∧ its !! i = Some (u, a) ∧ drop_iter a (set_thread u p) = (Ok tt, p') ∧
       (open_iter s d (set_thread t p')).1 ≠ Err Blocked).
Proof.
  pose proof (reachable_ok t0 w0 c Hc) as Hok. destruct c as [p its]. simpl. split.
  - intros i t a Hi. destruct (next_iter_ok w0 p its i t a Hok Hi) as (a' & p' & ? & _).
    destruct (drop_iter_ok w0 p its i t a Hok Hi) as (p2 & ? & _). eauto.
  - intros t s d fgh Hs Hf Hb. pose proof (open_verdict w0 p its t s d fgh Hok Hs Hf) as Hv.
    destruct (existsb (conflicts s d) (live_of t p)); [destruct Hv as [_ Hv]; by rewrite Hv in Hb|].
    destruct Hv as [Hn [[Ht _]|(_ & j & r & p' & _ & Hr & Ho)]].
    2:{ rewrite Hr in Hb. simpl in Hb. destruct Ho as [(a & -> & _)|(? & ? & ? & -> & _)]; done. }
    destruct (taken_locked w0 p its t s d Hok Hs Hn Ht) as [Hp [u Hu]].
    destruct (lock_holder w0 p its t s d Hok Hs Hn Hp u Hu) as (Hne & i & a & x & Hi & Hx & Hsh).
    destruct (drop_iter_ok w0 p its i u a Hok Hi) as (p' & Hd & Hok'). exists i, u, a, p'. split_and!; [done..|].
    assert (p'.(LOADED) = p.(LOADED)) as HL by exact (drop_loaded _ _ _ _ Hd).
    pose proof (open_verdict w0 p' (delete i its) t s d fgh Hok' ltac:(by rewrite HL) Hf) as Hv.
    destruct (existsb (conflicts s d) (live_of t p')); [destruct Hv as [_ ->]; done|].
    destruct Hv as [_ [[(j & v & b & y & [Hji Hj]%lookup_delete_Some & Hy & Hsy) _]|(_ & j & r & p2 & _ & -> & [(b & -> & _)|(? & ? & ? & -> & _)])]]; [|done|done].
    destruct Hji. eapply (cl_excl _ _ (ok_claims _ _ Hok) i j (u, x) (v, y)); [apply opens_Some; eauto..|].
    destruct Hsh as [Ha1 _], Hsy as [Ha2 _]. simpl in *. split; simpl; [congruence|]. left.
    assert (x.(svc) = s) as -> by (apply (services_distinct p (ok_services _ _ Hok)); [eapply (cl_slot _ _ (ok_claims _ _ Hok)), opens_Some; eauto|done|done]). done.
Qed.

(** C26: A whole enumeration, of users or of groups: over a module whose cursor
    walks a database, and on a cursor nobody else has, the iterator opens, gives
    every entry of the database once and in order (one that cannot be converted as
    an error, and goes on), and then ends, within one call more than there are
    entries; it is closed then, and stays so without another call.  Dropping it
    restores the claims, the locks and the heap. *)
Theorem nss_enumeration t0 w0 c t s (Hc : rtc step (fresh_conf t0 w0) c) (Hs : s ∈ c.(proc).(LOADED)) :
  (∀ f g h rest need db, enumerable s Passwd_ = Some (f, g, h) → ¬ cursor_taken c.(iters) t s Passwd_ →
     cursor_law (ent:=Entry_passwd) f g t rest need db →
     ∃ it p1 it' p2 p3,
       Service_passwd_entries s (set_thread t c.(proc)) = (Ok it, p1) ∧
       drain (S (length db)) it p1 = (Ok ((λ x, passwd_of x s.(source)) <$> db, it'), p2) ∧
       is_open it' = false ∧ passwd_next it' p2 = (Ok (None, it'), p2) ∧
       ent_drop it' p2 = (Ok tt, p3) ∧ conf_ok w0 (mkConf p3 c.(iters))) ∧
  (∀ f g h rest need db, enumerable s Group_ = Some (f, g, h) → ¬ cursor_taken c.(iters) t s Group_ →
     cursor_law (ent:=Entry_group) f g t rest need db →
     ∃ it p1 it' p2 p3,
       Service_group_entries s (set_thread t c.(proc)) = (Ok it, p1) ∧
       drain (S (length db)) it p1 = (Ok ((λ x, group_of x s.(source)) <$> db, it'), p2) ∧
       is_open it' = false ∧ group_next it' p2 = (Ok (None, it'), p2) ∧
       ent_drop it' p2 = (Ok tt, p3) ∧ conf_ok w0 (mkConf p3 c.(iters))).
Proof.
  pose proof (reachable_ok t0 w0 c Hc) as Hok. destruct c as [p its]. simpl in *.
  split; intros f g h rest need db Hf Hno Hcur; destruct (lock_free w0 p its t s _ Hok Hs Hno) as [H1 H2].
  - rewrite (passwd_entries_is s f g h _ Hf).
    eapply (enumerate_runs (ent:=Entry_passwd) (λ b l e x y Hx Hy src, f_equal (λ z, passwd_of z src) (passwd_reads_once b l e x y Hx Hy))
      f g t rest need db Hcur PwIter); try done. exact getpwent_law.
  - rewrite (group_entries_is s f g h _ Hf).
    eapply (enumerate_runs (ent:=Entry_group) (λ b l e x y Hx Hy src, f_equal (λ z, group_of z src) (group_reads_once b l e x y Hx Hy))
      f g t rest need db Hcur GrIter); try done. exact getgrent_law.
Qed.
End Lookups.

(** A module that asks for a larger buffer with the entry half filled, and then
    reports success and fills nothing: the entry is zeroed before the first call
    alone, so its name still points into the buffer that was freed. *)
Definition forgetful : GetentRFn Mw passwd := λ e b l _ w,
  if len l <=? INITIAL_BUFLEN then (mkReply NSS_STATUS_TRYAGAIN ERANGE (mkpasswd (Some (b, 0)) None 0 0 None None None) l, w)
  else (mkReply NSS_STATUS_SUCCESS 0 e l, w).

Lemma stale_entry :
  (lookup_entry (T:=Passwd) (mkpasswd None None 0 0 None None None) (service_at local Files) (lit "getpwnam_r") forgetful extract_passwd start).1
  = Err Undefined.
Proof. vm_compute. reflexivity. Qed.

(** ** Names of addresses *)
Section Hosts.
Context {W : Type} {res : Resolver W} {rlaws : ResolverLaws W}.
Implicit Types p : NssProc W.

(** The confirmed name of an address: a name is given exactly where the
    reverse lookup of the address, in its IPv4 form if it is a mapped one, found a
    UTF-8 name and the forward lookup of that name lists an address with the same
    canonical form.  A missing name, or a forward lookup without the address, is
    none; a failure of either lookup is its error, with the errno of EAI_SYSTEM
    alone.  It always returns, reads nothing undefined, and every list of
    addresses is released.  An address crosses to C and back unchanged. *)
Theorem nss_confirmed_name a p (Ha : ip_ok a) :
  (∃ r w', confirmed_name a p = (r, set_sys w' p) ∧ lists w' = lists p.(sys) ∧
     plain r ∧
     (∀ n, r = Ok (Some n) ↔
        ∃ errno host w1 errno2 q l w2,
          ask_name a p.(sys) = ((0, errno, host), w1) ∧ c_string (CByte <$> host) = Some n ∧ utf8_valid n = true ∧
          libc_getaddrinfo n AF_UNSPEC SOCK_STREAM w1 = ((0, errno2, (q, l)), w2) ∧
          ∃ e b, e ∈ l ∧ entry_address e = Some b ∧ to_canonical b = to_canonical a)) ∧
  (getnameinfo (to_canonical a) p = getnameinfo a p) ∧
  entry_address (entry_of (to_canonical a)) = Some (to_canonical a).
Proof.
  split; [|split].
  - apply (confirmed_cases a p (ask_name a p.(sys)).1.1.1 (ask_name a p.(sys)).1.1.2 (ask_name a p.(sys)).1.2 (ask_name a p.(sys)).2).
    by destruct (ask_name a p.(sys)) as [[[rc errno] host] w1].
  - unfold getnameinfo. by rewrite canonical_idem.
  - by apply entry_of_address, canonical_ok.
Qed.
End Hosts.

Section Three.
#[local] Instance three_nss : Nss Mw := nss_model three.
#[local] Instance three_laws : NssLaws Mw := nss_model_laws three.

(** Lookups of alice by number on the thread 1. *)
Lemma nss_lookup_witness :
  let p := started three Sss in let s := service_at three Sss in
  heap_ok p ∧ looked_up s s.(fns).(getpwuid_r) "getpwuid_r" (λ f, getpwuid_r_at f p.(thread) 1000) (Service_getpwuid s 1000) p ∧
  (Service_getpwuid s 1000 p).1 =
    Ok (Some (mkPasswd (lit "alice") 1000 100 [x41; xef; xbf; xbd] (lit "/home/alice") [] Sss)).
Proof.
  assert (heap_ok (started three Sss)) as Hp by (intros b [x Hx]; vm_compute in Hx; discriminate).
  split; [exact Hp|]. split; [|vm_compute; reflexivity].
  exact (proj1 (nss_lookup (service_at three Sss) (started three Sss) Hp) 1000).
Defined.

(** The bytes of alice's name, in a buffer. *)
Lemma nss_entry_text_witness :
  let p : NssProc Mw := mkNss 1 w_0 {[ 7 := (CByte <$> lit "alice") ++ [CByte x00] ]} 8 [] [] [] ∅ ∅ in
  utf8_valid (lit "alice") = true ∧
  ∃ pw, extract_passwd (mkpasswd (Some (7, 0)) None 1 2 None None None) Files p = (Ok pw, p) ∧
    utf8_valid pw.(pwd_name) = true ∧ pw.(pwd_name) = lit "alice" ∧ from_utf8_lossy (lit "alice") = lit "alice".
Proof.
  split; [reflexivity|]. eexists. split; [vm_compute; reflexivity|].
  split; [|split; [reflexivity|apply (proj2 (proj2 (nss_entry_text (W:=Mw)))); reflexivity]].
  eapply (proj1 (nss_entry_text (W:=Mw)) (mkpasswd (Some (7, 0)) None 1 2 None None None) Files
    (mkNss 1 w_0 {[ 7 := (CByte <$> lit "alice") ++ [CByte x00] ]} 8 [] [] [] ∅ ∅)). vm_compute. reflexivity.
Defined.



(** A process that has loaded sss. *)
Definition with_sss : Conf Mw := mkConf (started three Sss) ∅.
Lemma with_sss_reached : rtc step (fresh_conf 1 w_0) with_sss.
Proof.
  apply rtc_once. apply (step_op 1 (OpService Sss) start ∅ (Ok tt)). vm_compute. reflexivity.
Qed.

(** Nothing is open yet; the passwd database of sss can be opened. *)
Lemma nss_claims_witness :
  rtc step (fresh_conf 1 w_0) with_sss ∧
  (with_sss.(iters) = ∅ → with_sss.(proc).(iter_locks) = ∅) ∧
  is_ok (open_iter (service_at three Sss) Passwd_ (set_thread 2 with_sss.(proc))).1 = true.
Proof.
  split; [exact with_sss_reached|]. split; [|vm_compute; reflexivity].
  intros H. apply (nss_claims 1 w_0 with_sss with_sss_reached). exact H.
Defined.

Lemma nss_enumeration_witness :
  let s := service_at three Sss in
  s ∈ with_sss.(proc).(LOADED) ∧
  ∃ it p1 it' p2, Service_passwd_entries s (set_thread 5 with_sss.(proc)) = (Ok it, p1) ∧
    drain 3 it p1 = (Ok ([Ok (mkPasswd (lit "alice") 1000 100 [x41; xef; xbf; xbd] (lit "/home/alice") [] Sss);
                          Ok (mkPasswd (lit "bob") 1001 100 [] (lit "/") (lit "/bin/sh") Sss)], it'), p2) ∧
    is_open it' = false.
Proof.
  assert (service_at three Sss ∈ with_sss.(proc).(LOADED)) as Hs by (vm_compute; apply list_elem_of_here).
  split; [exact Hs|].
  destruct (proj1 (nss_enumeration 1 w_0 with_sss 5 (service_at three Sss) with_sss_reached Hs) 18 20 19
    (λ w, drop (position (cursor_key three 20 5 0) w) (passwds three 20)) passwd_need (passwds three 20))
    as (it & p1 & it' & p2 & p3 & H1 & H2 & H3 & _).
  - vm_compute. reflexivity.
  - intros (i & u & a & x & Hi & _). vm_compute in Hi. discriminate.
  - apply (passwd_cursor three 18 20 5); [vm_compute; reflexivity..|].
    intros x Hx. apply list_elem_of_In in Hx. vm_compute in Hx. destruct Hx as [<- |[<- |[]]]; vm_compute; discriminate.
  - exists it, p1, it', p2. split; [exact H1|]. split; [|exact H3]. exact H2.
Defined.
End Three.

(** ** One cursor for the process *)
Section Local.
#[local] Instance local_nss : Nss Mw := nss_model local.
#[local] Instance local_laws : NssLaws Mw := nss_model_laws local.

Definition files_svc : Service := service_at local Files.
(** The thread 1 has an iterator over the users open. *)
Definition conf_of (r : NssResult (AnyIter Mw) * NssProc Mw) : option (Conf Mw) :=
  match r with
  | (Ok a, p) => Some (mkConf p {[ 0%nat := (1, a) ]})
  | _ => None
  end.
Abbreviation files_open := (conf_of (open_iter files_svc Passwd_ (set_thread 1 (started local Files)))).

Lemma conf_of_inv r c : conf_of r = Some c → ∃ a p, r = (Ok a, p) ∧ c = mkConf p {[ 0%nat := (1, a) ]}.
Proof. destruct r as [[a|e|w] p]; intros H; simplify_eq/=. by exists a, p. Qed.

Lemma files_open_reached c : files_open = Some c → rtc step (fresh_conf 1 w_0) c.
Proof.
  intros (a & p & H & ->)%conf_of_inv.
  apply rtc_l with (mkConf (started local Files) ∅); [apply (step_op 1 (OpService Files) start ∅ (Ok tt)); vm_compute; reflexivity|].
  apply rtc_once. apply (step_open 1 files_svc Passwd_ 0%nat a (started local Files) ∅ p); [|done|exact H].
  vm_compute. apply list_elem_of_here.
Qed.

Definition blocked {A} (r : NssResult A) : bool := match r with Err Blocked => true | _ => false end.

Lemma is_some_spec {A} (o : option A) : is_some o = true → is_Some o.
Proof. destruct o; [eauto|done]. Qed.
Lemma blocked_is {A} (r : NssResult A) : blocked r = true → r = Err Blocked.
Proof. by destruct r as [|[]|]. Qed.

(** The thread 2 waits for the groups of files until the thread 1 drops it. *)
Lemma nss_progress_witness :
  ∃ c, rtc step (fresh_conf 1 w_0) c ∧ (open_iter files_svc Group_ (set_thread 2 c.(proc))).1 = Err Blocked ∧
    ∃ i u a p', u ≠ 2 ∧ c.(iters) !! i = Some (u, a) ∧ drop_iter a (set_thread u c.(proc)) = (Ok tt, p') ∧
      (open_iter files_svc Group_ (set_thread 2 p')).1 ≠ Err Blocked.
Proof.
  assert (is_Some files_open) as [c Hc] by (apply is_some_spec; vm_compute; reflexivity). exists c.
  assert (files_svc ∈ c.(proc).(LOADED)) as Hs.
  { assert ((λ c : Conf Mw, c.(proc).(LOADED)) <$> files_open = Some [files_svc]) as HL by (vm_compute; reflexivity).
    rewrite Hc in HL. apply (inj Some) in HL. rewrite HL. apply list_elem_of_here. }
  assert ((open_iter files_svc Group_ (set_thread 2 c.(proc))).1 = Err Blocked) as Hb.
  { assert ((λ c : Conf Mw, blocked (open_iter files_svc Group_ (set_thread 2 c.(proc))).1) <$> files_open = Some true) as HB by (vm_compute; reflexivity).
    rewrite Hc in HB. apply blocked_is. apply (inj Some). exact HB. }
  split; [exact (files_open_reached c Hc)|]. split; [exact Hb|].
  exact (proj2 (nss_progress 1 w_0 c (files_open_reached c Hc)) 2 files_svc Group_ (7, 9, 8) Hs eq_refl Hb).
Defined.
End Local.

(** ** A host that confirms, and one that claims *)
Definition home : Hosts :=
  mkHosts [(V4 [xc0; x00; x02; x0a], lit "host.example"); (V4 [xc0; x00; x02; x0b], lit "host.example")]
          [(lit "host.example", [V4 [xc0; x00; x02; x0a]])].

Section Home.
#[local] Instance home_resolver : Resolver Mw := resolver_model home.
#[local] Instance home_laws : ResolverLaws Mw := resolver_model_laws home.

Lemma nss_confirmed_name_witness :
  let a := V6 (MAPPED ++ [xc0; x00; x02; x0a]) in
  ip_ok a ∧ (∃ r w', confirmed_name a start = (r, set_sys w' start) ∧ lists w' = lists start.(sys)) ∧
  (confirmed_name a start).1 = Ok (Some (lit "host.example")) ∧
  (confirmed_name (V4 [xc0; x00; x02; x0b]) start).1 = Ok None.
Proof.
  split; [reflexivity|]. split; [|split; vm_compute; reflexivity].
  destruct (proj1 (nss_confirmed_name (V6 (MAPPED ++ [xc0; x00; x02; x0a])) start eq_refl)) as (r & w' & H1 & H2 & _).
  exists r, w'. split; [exact H1|exact H2].
Defined.
End Home.
