(* ===== verification/PamError.v ===== *)
(** [truenas_pam]'s errors ([error.rs]) and the values of libpam's headers it
    uses ([ffi.rs]).  A [c_int] is in [Z]; a [&str] is its bytes. *)
From S2P Require Import Prelude Utf8.
Local Open Scope Z_scope.

(** ** [ffi.rs] *)
(* SRC truenas_pam/src/ffi.rs const PAM_SUCCESS *)
Definition PAM_SUCCESS : Z := 0.
(* SRC truenas_pam/src/ffi.rs const PAM_OPEN_ERR *)
Definition PAM_OPEN_ERR : Z := 1.
(* SRC truenas_pam/src/ffi.rs const PAM_SYMBOL_ERR *)
Definition PAM_SYMBOL_ERR : Z := 2.
(* SRC truenas_pam/src/ffi.rs const PAM_SERVICE_ERR *)
Definition PAM_SERVICE_ERR : Z := 3.
(* SRC truenas_pam/src/ffi.rs const PAM_SYSTEM_ERR *)
Definition PAM_SYSTEM_ERR : Z := 4.
(* SRC truenas_pam/src/ffi.rs const PAM_BUF_ERR *)
Definition PAM_BUF_ERR : Z := 5.
(* SRC truenas_pam/src/ffi.rs const PAM_PERM_DENIED *)
Definition PAM_PERM_DENIED : Z := 6.
(* SRC truenas_pam/src/ffi.rs const PAM_AUTH_ERR *)
Definition PAM_AUTH_ERR : Z := 7.
(* SRC truenas_pam/src/ffi.rs const PAM_CRED_INSUFFICIENT *)
Definition PAM_CRED_INSUFFICIENT : Z := 8.
(* SRC truenas_pam/src/ffi.rs const PAM_AUTHINFO_UNAVAIL *)
Definition PAM_AUTHINFO_UNAVAIL : Z := 9.
(* SRC truenas_pam/src/ffi.rs const PAM_USER_UNKNOWN *)
Definition PAM_USER_UNKNOWN : Z := 10.
(* SRC truenas_pam/src/ffi.rs const PAM_MAXTRIES *)
Definition PAM_MAXTRIES : Z := 11.
(* SRC truenas_pam/src/ffi.rs const PAM_NEW_AUTHTOK_REQD *)
Definition PAM_NEW_AUTHTOK_REQD : Z := 12.
(* SRC truenas_pam/src/ffi.rs const PAM_ACCT_EXPIRED *)
Definition PAM_ACCT_EXPIRED : Z := 13.
(* SRC truenas_pam/src/ffi.rs const PAM_SESSION_ERR *)
Definition PAM_SESSION_ERR : Z := 14.
(* SRC truenas_pam/src/ffi.rs const PAM_CRED_UNAVAIL *)
Definition PAM_CRED_UNAVAIL : Z := 15.
(* SRC truenas_pam/src/ffi.rs const PAM_CRED_EXPIRED *)
Definition PAM_CRED_EXPIRED : Z := 16.
(* SRC truenas_pam/src/ffi.rs const PAM_CRED_ERR *)
Definition PAM_CRED_ERR : Z := 17.
(* SRC truenas_pam/src/ffi.rs const PAM_NO_MODULE_DATA *)
Definition PAM_NO_MODULE_DATA : Z := 18.
(* SRC truenas_pam/src/ffi.rs const PAM_CONV_ERR *)
Definition PAM_CONV_ERR : Z := 19.
(* SRC truenas_pam/src/ffi.rs const PAM_AUTHTOK_ERR *)
Definition PAM_AUTHTOK_ERR : Z := 20.
(* SRC truenas_pam/src/ffi.rs const PAM_AUTHTOK_RECOVERY_ERR *)
Definition PAM_AUTHTOK_RECOVERY_ERR : Z := 21.
(* SRC truenas_pam/src/ffi.rs const PAM_AUTHTOK_LOCK_BUSY *)
Definition PAM_AUTHTOK_LOCK_BUSY : Z := 22.
(* SRC truenas_pam/src/ffi.rs const PAM_AUTHTOK_DISABLE_AGING *)
Definition PAM_AUTHTOK_DISABLE_AGING : Z := 23.
(* SRC truenas_pam/src/ffi.rs const PAM_TRY_AGAIN *)
Definition PAM_TRY_AGAIN : Z := 24.
(* SRC truenas_pam/src/ffi.rs const PAM_IGNORE *)
Definition PAM_IGNORE : Z := 25.
(* SRC truenas_pam/src/ffi.rs const PAM_ABORT *)
Definition PAM_ABORT : Z := 26.
(* SRC truenas_pam/src/ffi.rs const PAM_AUTHTOK_EXPIRED *)
Definition PAM_AUTHTOK_EXPIRED : Z := 27.
(* SRC truenas_pam/src/ffi.rs const PAM_MODULE_UNKNOWN *)
Definition PAM_MODULE_UNKNOWN : Z := 28.
(* SRC truenas_pam/src/ffi.rs const PAM_BAD_ITEM *)
Definition PAM_BAD_ITEM : Z := 29.
(* SRC truenas_pam/src/ffi.rs const PAM_CONV_AGAIN *)
Definition PAM_CONV_AGAIN : Z := 30.
(* SRC truenas_pam/src/ffi.rs const PAM_INCOMPLETE *)
Definition PAM_INCOMPLETE : Z := 31.
(* SRC truenas_pam/src/ffi.rs const PAM_SILENT *)
Definition PAM_SILENT : Z := 0x8000.
(* SRC truenas_pam/src/ffi.rs const PAM_DISALLOW_NULL_AUTHTOK *)
Definition PAM_DISALLOW_NULL_AUTHTOK : Z := 0x0001.
(* SRC truenas_pam/src/ffi.rs const PAM_CHANGE_EXPIRED_AUTHTOK *)
Definition PAM_CHANGE_EXPIRED_AUTHTOK : Z := 0x0020.
(* SRC truenas_pam/src/ffi.rs const PAM_ESTABLISH_CRED *)
Definition PAM_ESTABLISH_CRED : Z := 0x0002.
(* SRC truenas_pam/src/ffi.rs const PAM_DELETE_CRED *)
Definition PAM_DELETE_CRED : Z := 0x0004.
(* SRC truenas_pam/src/ffi.rs const PAM_REINITIALIZE_CRED *)
Definition PAM_REINITIALIZE_CRED : Z := 0x0008.
(* SRC truenas_pam/src/ffi.rs const PAM_REFRESH_CRED *)
Definition PAM_REFRESH_CRED : Z := 0x0010.
(* SRC truenas_pam/src/ffi.rs const PAM_SERVICE *)
Definition PAM_SERVICE : Z := 1.
(* SRC truenas_pam/src/ffi.rs const PAM_USER *)
Definition PAM_USER : Z := 2.
(* SRC truenas_pam/src/ffi.rs const PAM_TTY *)
Definition PAM_TTY : Z := 3.
(* SRC truenas_pam/src/ffi.rs const PAM_RHOST *)
Definition PAM_RHOST : Z := 4.
(* SRC truenas_pam/src/ffi.rs const PAM_RUSER *)
Definition PAM_RUSER : Z := 8.
(* SRC truenas_pam/src/ffi.rs const PAM_PROMPT_ECHO_OFF *)
Definition PAM_PROMPT_ECHO_OFF : Z := 1.
(* SRC truenas_pam/src/ffi.rs const PAM_PROMPT_ECHO_ON *)
Definition PAM_PROMPT_ECHO_ON : Z := 2.
(* SRC truenas_pam/src/ffi.rs const PAM_ERROR_MSG *)
Definition PAM_ERROR_MSG : Z := 3.
(* SRC truenas_pam/src/ffi.rs const PAM_TEXT_INFO *)
Definition PAM_TEXT_INFO : Z := 4.
(* SRC truenas_pam/src/ffi.rs const PAM_MAX_NUM_MSG *)
Definition PAM_MAX_NUM_MSG : Z := 32.

(** ** [error.rs] *)
(* SRC truenas_pam/src/error.rs enum PamCode *)
Inductive PamCode : Type :=
| Success | OpenErr | SymbolErr | ServiceErr | SystemErr | BufErr | PermDenied | AuthErr
| CredInsufficient | AuthinfoUnavail | UserUnknown | MaxTries | NewAuthtokReqd | AcctExpired
| SessionErr | CredUnavail | CredExpired | CredErr | NoModuleData | ConvErr | AuthtokErr
| AuthtokRecoveryErr | AuthtokLockBusy | AuthtokDisableAging | TryAgain | Ignore | Abort
| AuthtokExpired | ModuleUnknown | BadItem | ConvAgain | Incomplete.
#[global] Instance PamCode_eq_dec : EqDecision PamCode.
Proof. solve_decision. Defined.

(* SRC truenas_pam/src/error.rs fn from_raw #2 *)
Definition PamCode_from_raw (rc : Z) : option PamCode :=
  if rc =? PAM_SUCCESS then Some Success
  else if rc =? PAM_OPEN_ERR then Some OpenErr
  else if rc =? PAM_SYMBOL_ERR then Some SymbolErr
  else if rc =? PAM_SERVICE_ERR then Some ServiceErr
  else if rc =? PAM_SYSTEM_ERR then Some SystemErr
  else if rc =? PAM_BUF_ERR then Some BufErr
  else if rc =? PAM_PERM_DENIED then Some PermDenied
  else if rc =? PAM_AUTH_ERR then Some AuthErr
  else if rc =? PAM_CRED_INSUFFICIENT then Some CredInsufficient
  else if rc =? PAM_AUTHINFO_UNAVAIL then Some AuthinfoUnavail
  else if rc =? PAM_USER_UNKNOWN then Some UserUnknown
  else if rc =? PAM_MAXTRIES then Some MaxTries
  else if rc =? PAM_NEW_AUTHTOK_REQD then Some NewAuthtokReqd
  else if rc =? PAM_ACCT_EXPIRED then Some AcctExpired
  else if rc =? PAM_SESSION_ERR then Some SessionErr
  else if rc =? PAM_CRED_UNAVAIL then Some CredUnavail
  else if rc =? PAM_CRED_EXPIRED then Some CredExpired
  else if rc =? PAM_CRED_ERR then Some CredErr
  else if rc =? PAM_NO_MODULE_DATA then Some NoModuleData
  else if rc =? PAM_CONV_ERR then Some ConvErr
  else if rc =? PAM_AUTHTOK_ERR then Some AuthtokErr
  else if rc =? PAM_AUTHTOK_RECOVERY_ERR then Some AuthtokRecoveryErr
  else if rc =? PAM_AUTHTOK_LOCK_BUSY then Some AuthtokLockBusy
  else if rc =? PAM_AUTHTOK_DISABLE_AGING then Some AuthtokDisableAging
  else if rc =? PAM_TRY_AGAIN then Some TryAgain
  else if rc =? PAM_IGNORE then Some Ignore
  else if rc =? PAM_ABORT then Some Abort
  else if rc =? PAM_AUTHTOK_EXPIRED then Some AuthtokExpired
  else if rc =? PAM_MODULE_UNKNOWN then Some ModuleUnknown
  else if rc =? PAM_BAD_ITEM then Some BadItem
  else if rc =? PAM_CONV_AGAIN then Some ConvAgain
  else if rc =? PAM_INCOMPLETE then Some Incomplete
  else None.

(* SRC truenas_pam/src/error.rs fn raw #2 *)
Definition PamCode_raw (self : PamCode) : Z :=
  match self with
  | Success => PAM_SUCCESS
  | OpenErr => PAM_OPEN_ERR
  | SymbolErr => PAM_SYMBOL_ERR
  | ServiceErr => PAM_SERVICE_ERR
  | SystemErr => PAM_SYSTEM_ERR
  | BufErr => PAM_BUF_ERR
  | PermDenied => PAM_PERM_DENIED
  | AuthErr => PAM_AUTH_ERR
  | CredInsufficient => PAM_CRED_INSUFFICIENT
  | AuthinfoUnavail => PAM_AUTHINFO_UNAVAIL
  | UserUnknown => PAM_USER_UNKNOWN
  | MaxTries => PAM_MAXTRIES
  | NewAuthtokReqd => PAM_NEW_AUTHTOK_REQD
  | AcctExpired => PAM_ACCT_EXPIRED
  | SessionErr => PAM_SESSION_ERR
  | CredUnavail => PAM_CRED_UNAVAIL
  | CredExpired => PAM_CRED_EXPIRED
  | CredErr => PAM_CRED_ERR
  | NoModuleData => PAM_NO_MODULE_DATA
  | ConvErr => PAM_CONV_ERR
  | AuthtokErr => PAM_AUTHTOK_ERR
  | AuthtokRecoveryErr => PAM_AUTHTOK_RECOVERY_ERR
  | AuthtokLockBusy => PAM_AUTHTOK_LOCK_BUSY
  | AuthtokDisableAging => PAM_AUTHTOK_DISABLE_AGING
  | TryAgain => PAM_TRY_AGAIN
  | Ignore => PAM_IGNORE
  | Abort => PAM_ABORT
  | AuthtokExpired => PAM_AUTHTOK_EXPIRED
  | ModuleUnknown => PAM_MODULE_UNKNOWN
  | BadItem => PAM_BAD_ITEM
  | ConvAgain => PAM_CONV_AGAIN
  | Incomplete => PAM_INCOMPLETE
  end.

(* SRC truenas_pam/src/error.rs fn entry *)
Definition entry (self : PamCode) : string * string :=
  match self with
  | Success => ("PAM_SUCCESS", "Success")
  | OpenErr => ("PAM_OPEN_ERR", "Failed to load module")
  | SymbolErr => ("PAM_SYMBOL_ERR", "Symbol not found")
  | ServiceErr => ("PAM_SERVICE_ERR", "Error in service module")
  | SystemErr => ("PAM_SYSTEM_ERR", "System error")
  | BufErr => ("PAM_BUF_ERR", "Memory buffer error")
  | PermDenied => ("PAM_PERM_DENIED", "Permission denied")
  | AuthErr => ("PAM_AUTH_ERR", "Authentication failure")
  | CredInsufficient => ("PAM_CRED_INSUFFICIENT", "Insufficient credentials to access authentication data")
  | AuthinfoUnavail => ("PAM_AUTHINFO_UNAVAIL", "Authentication service cannot retrieve authentication info")
  | UserUnknown => ("PAM_USER_UNKNOWN", "User not known to the underlying authentication module")
  | MaxTries => ("PAM_MAXTRIES", "Have exhausted maximum number of retries for service")
  | NewAuthtokReqd => ("PAM_NEW_AUTHTOK_REQD", "Authentication token is no longer valid; new one required")
  | AcctExpired => ("PAM_ACCT_EXPIRED", "User account has expired")
  | SessionErr => ("PAM_SESSION_ERR", "Cannot make/remove an entry for the specified session")
  | CredUnavail => ("PAM_CRED_UNAVAIL", "Authentication service cannot retrieve user credentials")
  | CredExpired => ("PAM_CRED_EXPIRED", "User credentials expired")
  | CredErr => ("PAM_CRED_ERR", "Failure setting user credentials")
  | NoModuleData => ("PAM_NO_MODULE_DATA", "No module specific data is present")
  | ConvErr => ("PAM_CONV_ERR", "Conversation error")
  | AuthtokErr => ("PAM_AUTHTOK_ERR", "Authentication token manipulation error")
  | AuthtokRecoveryErr => ("PAM_AUTHTOK_RECOVERY_ERR", "Authentication information cannot be recovered")
  | AuthtokLockBusy => ("PAM_AUTHTOK_LOCK_BUSY", "Authentication token lock busy")
  | AuthtokDisableAging => ("PAM_AUTHTOK_DISABLE_AGING", "Authentication token aging disabled")
  | TryAgain => ("PAM_TRY_AGAIN", "Failed preliminary check by password service")
  | Ignore => ("PAM_IGNORE", "The return value should be ignored by PAM dispatch")
  | Abort => ("PAM_ABORT", "Critical error - immediate abort")
  | AuthtokExpired => ("PAM_AUTHTOK_EXPIRED", "Authentication token expired")
  | ModuleUnknown => ("PAM_MODULE_UNKNOWN", "Module is unknown")
  | BadItem => ("PAM_BAD_ITEM", "Bad item passed to pam_*_item()")
  | ConvAgain => ("PAM_CONV_AGAIN", "Conversation is waiting for event")
  | Incomplete => ("PAM_INCOMPLETE", "Application needs to call libpam again")
  end%string.

(* SRC truenas_pam/src/error.rs fn name *)
Definition PamCode_name (self : PamCode) : bytes := lit (entry self).1.
(* SRC truenas_pam/src/error.rs fn message *)
Definition PamCode_message (self : PamCode) : bytes := lit (entry self).2.

(* SRC truenas_pam/src/error.rs enum Error *)
Inductive PamError : Type :=
| Pam (code : PamCode)
| Unknown (rc : Z)
| Os (errno : Z)
| UnknownMsgStyle (style : Z)
| Timeout
| NulByte
| InvalidName
| NotUtf8
| OutOfSequence.
#[global] Instance PamError_eq_dec : EqDecision PamError.
Proof. solve_decision. Defined.

(* SRC truenas_pam/src/error.rs fn from_raw #1 *)
Definition Error_from_raw (rc : Z) : PamError :=
  match PamCode_from_raw rc with
  | Some code => Pam code
  | None => Unknown rc
  end.

(* SRC truenas_pam/src/error.rs fn raw #1 *)
Definition Error_raw (self : PamError) : option Z :=
  match self with
  | Pam code => Some (PamCode_raw code)
  | Unknown rc => Some rc
  | _ => None
  end.

(* SRC truenas_pam/src/error.rs fn as_pam *)
Definition as_pam (self : PamError) : option PamCode :=
  match self with Pam code => Some code | _ => None end.

Section Display.
Context (strerror : Z → bytes).

(* SRC truenas_pam/src/error.rs impl fmt::Display for Error *)
Definition Error_display (self : PamError) : bytes :=
  match self with
  | Pam code => PamCode_message code
  | Unknown rc => lit "PAM return code outside the defined block: " ++ display_int rc
  | Os e => display_os strerror e
  | UnknownMsgStyle style => lit "Unsupported conversation message style: " ++ display_int style
  | Timeout => lit "Timed out waiting for the PAM stack"
  | NulByte => lit "Argument contains an interior NUL byte"
  | InvalidName => lit "Environment variable name is empty or holds '='"
  | NotUtf8 => lit "PAM returned a non-UTF-8 string"
  | OutOfSequence => lit "Operation is out of sequence for this transaction"
  end.
End Display.

(** What an [io::Error] is made of: a raw error number, or a kind around the
    crate's error. *)
Inductive IoError : Type :=
| RawOs (errno : Z)
| TimedOut (err : PamError)
| InvalidInput (err : PamError)
| InvalidData (err : PamError)
| PermissionDenied (err : PamError)
| NotFound (err : PamError)
| OutOfMemory (err : PamError)
| Other (err : PamError).

(* SRC truenas_pam/src/error.rs impl From<Error> for io::Error *)
Definition io_from (err : PamError) : IoError :=
  match err with
  | Os e => RawOs e
  | Timeout => TimedOut err
  | NulByte | InvalidName => InvalidInput err
  | NotUtf8 | UnknownMsgStyle _ => InvalidData err
  | OutOfSequence => InvalidInput err
  | Pam (PermDenied | AuthErr | CredInsufficient) => PermissionDenied err
  | Pam UserUnknown => NotFound err
  | Pam BufErr => OutOfMemory err
  | other => Other other
  end.

(* SRC truenas_pam/src/error.rs fn check *)
Definition check (rc : Z) : Outcome unit PamError :=
  if rc =? PAM_SUCCESS then Ok tt else Err (Error_from_raw rc).

(** ** Lemmas *)
Lemma code_raw_spec rc c : PamCode_from_raw rc = Some c ↔ rc = PamCode_raw c.
Proof.
  split; [|intros ->; by destruct c]. unfold PamCode_from_raw.
  repeat (case_match; [intros; simplify_eq; by apply Z.eqb_eq|]). done.
Qed.

(** The defined codes are a contiguous block. *)
Lemma code_block rc : is_Some (PamCode_from_raw rc) ↔ 0 ≤ rc < 32.
Proof.
  split.
  - intros [c ->%code_raw_spec]. by destruct c.
  - intros H. assert (rc ∈ seqZ 0 32) as Hin by (apply elem_of_seqZ; lia).
    by repeat (apply elem_of_cons in Hin as [->|Hin]; [vm_compute; eauto|]); apply elem_of_nil in Hin.
Qed.

Lemma check_Ok rc u : check rc = Ok u ↔ rc = PAM_SUCCESS.
Proof. unfold check. destruct (Z.eqb_spec rc PAM_SUCCESS), u; split; done. Qed.

(** An error never carries a success. *)
Lemma check_Err rc e : check rc = Err e → Error_raw e = Some rc ∧ e ≠ Pam Success.
Proof.
  unfold check, Error_from_raw. destruct (Z.eqb_spec rc PAM_SUCCESS) as [|Hne]; [done|].
  destruct (PamCode_from_raw rc) as [c|] eqn:Hc; intros ?; simplify_eq/=; [|done].
  apply code_raw_spec in Hc as ->. split; [done|]. intros [= ->]. by destruct Hne.
Qed.
