(* ===== verification/Pam.v ===== *)
(** The ground [truenas_pam] stands on: memory, the interface to libpam, to the
    C allocator, to the threads of the system and to the application's own
    conversations, the state of the process, and computations that may wait for
    a channel.

    A call of libpam that can call back is a tree: it returns, or it converses
    and goes on with the answer.  A module reads what it is answered and frees
    it, as the standard has it do. *)
From S2P Require Import Prelude Utf8 PamError.
Local Open Scope Z_scope.

(** ** Memory

    A block belongs to the allocator it came from.  To read, write or free
    through an address that is not a live block of the right kind is
    [Undefined]. *)
(* SRC truenas_pam/src/ffi.rs struct pam_response *)
Record pam_response : Type := mkResponse { resp : option Z; resp_retcode : Z }.
(** The message a module passes: its text is the bytes before the NUL. *)
(* SRC truenas_pam/src/ffi.rs struct pam_message *)
Record pam_message : Type := mkRaw { msg_style : Z; msg : option bytes }.

Inductive Owner : Type := OwnRust | OwnC.
Inductive Data : Type :=
| Buf (l : bytes)
| Array (l : list pam_response)
| Table (l : list (option Z)).
#[global] Instance Owner_eq_dec : EqDecision Owner.
Proof. solve_decision. Defined.
#[global] Instance pam_response_eq_dec : EqDecision pam_response.
Proof. solve_decision. Defined.
#[global] Instance Data_eq_dec : EqDecision Data.
Proof. solve_decision. Defined.

(** How a computation can end without a value: with the error it returns, by an
    access that has no meaning, or by waiting for good. *)
Inductive PamExit : Type := Fail (e : PamError) | Undefined | Blocked.
#[global] Instance PamExit_eq_dec : EqDecision PamExit.
Proof. solve_decision. Defined.

(** ** The data of [conv.rs] *)
(* SRC truenas_pam/src/conv.rs enum MsgStyle *)
Inductive MsgStyle : Type := PromptEchoOff | PromptEchoOn | ErrorMsg | TextInfo.
#[global] Instance MsgStyle_eq_dec : EqDecision MsgStyle.
Proof. solve_decision. Defined.

(* SRC truenas_pam/src/conv.rs fn from_raw *)
Definition MsgStyle_from_raw (style : Z) : option MsgStyle :=
  if style =? PAM_PROMPT_ECHO_OFF then Some PromptEchoOff
  else if style =? PAM_PROMPT_ECHO_ON then Some PromptEchoOn
  else if style =? PAM_ERROR_MSG then Some ErrorMsg
  else if style =? PAM_TEXT_INFO then Some TextInfo
  else None.

(* SRC truenas_pam/src/conv.rs fn raw *)
Definition MsgStyle_raw (self : MsgStyle) : Z :=
  match self with
  | PromptEchoOff => PAM_PROMPT_ECHO_OFF
  | PromptEchoOn => PAM_PROMPT_ECHO_ON
  | ErrorMsg => PAM_ERROR_MSG
  | TextInfo => PAM_TEXT_INFO
  end.

(* SRC truenas_pam/src/conv.rs fn wants_response *)
Definition wants_response (self : MsgStyle) : bool :=
  match self with PromptEchoOff | PromptEchoOn => true | _ => false end.

(** A message, borrowed from libpam's buffers or copied out of them. *)
(* SRC truenas_pam/src/conv.rs struct Message *)
Record Message : Type := mkMessage { style : MsgStyle; msg_bytes : bytes }.
#[global] Instance Message_eq_dec : EqDecision Message.
Proof. solve_decision. Defined.

(* SRC truenas_pam/src/conv.rs fn text #1 *)
Definition Message_text (self : Message) : bytes := from_utf8_lossy self.(msg_bytes).

(** A secret is the address of its buffer, which is as long as its bytes. *)
(* SRC truenas_pam/src/secret.rs struct Secret *)
Definition Secret : Type := Z.
Abbreviation Answers := (list (option Secret)).

(* SRC truenas_pam/src/conv.rs enum Failure *)
Inductive Failure : Type := FailErr (e : PamError) | FailPanic.

(** A conversation: the crate's two, or one of the application's. *)
Inductive Conversation (U : Type) : Type :=
| Unattended
| Channel (x : Z)
| Custom (u : U).
Arguments Unattended {U}.
Arguments Channel {U} x.
Arguments Custom {U} u.

(* SRC truenas_pam/src/conv.rs struct ConvSlot *)
Record ConvSlot (U : Type) : Type := mkSlot {
  conv : Conversation U; log : list (list Message); failure : option Failure
}.
Arguments mkSlot {U}.
Arguments conv {U}.
Arguments log {U}.
Arguments failure {U}.

(** ** The interface *)
(** What a call of libpam does: return a code, or call the conversation back
    with its arguments, the array of messages and the place for the responses
    possibly null; it goes on with the code and the responses it was given. *)
Inductive Stack (W : Type) : Type :=
| Return_ (rc : Z) (w : W)
| Converse (num_msg : Z) (messages : option (list (option pam_message))) (place : bool) (w : W)
    (k : Z → option (list (option bytes * Z)) → W → Stack W).
Arguments Return_ {W}.
Arguments Converse {W}.

Inductive StackOp : Type :=
| pam_authenticate | pam_setcred | pam_acct_mgmt | pam_open_session | pam_close_session | pam_chauthtok.
#[global] Instance StackOp_eq_dec : EqDecision StackOp.
Proof. solve_decision. Defined.

(** How the application's conversation answers: with buffers, each its bytes and
    the spare capacity behind them, with an error, or by a panic. *)
Inductive Reply : Type :=
| Answer (l : list (option (bytes * bytes)))
| Refuse (e : PamError)
| Panics.

(** How the system answers a request for a thread: [Some] is a failure, with the
    error number if it has one. *)
Class Libpam (W U : Type) : Type := {
  pam_start_confdir : bytes → option bytes → option bytes → Z → W → Z * W;
  pam_end : Z → Z → W → Stack W;
  pam_call : StackOp → Z → Z → W → Stack W;
  pam_set_item : Z → Z → bytes → W → Z * W;
  pam_get_item : Z → Z → W → Z * option bytes;
  pam_putenv : Z → bytes → W → Z * W;
  pam_getenv : Z → bytes → W → option bytes;
  pam_getenvlist : Z → W → option (list bytes) * W;
  pam_fail_delay : Z → Z → W → Z * W;
  has_memory : Z → W → bool * W;                  (** whether [malloc] can give that many bytes *)
  converse_custom : U → list Message → W → (Reply * U) * W;
  spawn : W → option (option Z) * W;
  expires : Z → W → bool * W                      (** whether a wait of that long ends in vain *)
}.

(** ** The process *)
(** The calls of libpam that the crate has made. *)
Inductive Call : Type :=
| Started (hdl : Z)
| Ran (hdl : Z) (op : StackOp) (flags rc : Z)
| EndedWith (hdl status : Z).

Record Proc (W U : Type) : Type := mkProc {
  heap : gmap Z (Owner * Data);
  next_block : Z;
  released : list bytes;          (** what the buffers that the crate freed held then *)
  slots : gmap Z (ConvSlot U);
  handles : gmap Z Z;             (** the live handles, and the [appdata_ptr] libpam has for each *)
  channels : gset Z;              (** the exchanges whose worker can still be answered *)
  calls : list Call;
  sys : W
}.
Arguments mkProc {W U}.
Arguments heap {W U}.
Arguments next_block {W U}.
Arguments released {W U}.
Arguments slots {W U}.
Arguments handles {W U}.
Arguments channels {W U}.
Arguments calls {W U}.
Arguments sys {W U}.

(** What the worker of an exchange sends. *)
(* SRC truenas_pam/src/step.rs enum Event *)
Inductive Event : Type := EvPrompt (round : list Message) | Finished.

(** ** Computations

    [App] is code that runs to its end.  [Task] is code that may wait for a
    channel: to send an event, which tells whether somebody received it, or to
    receive answers, which may never come. *)
Inductive Res (W U A : Type) : Type :=
| Ret (o : Outcome A PamExit) (p : Proc W U)
| Send (e : Event) (p : Proc W U) (k : bool → Proc W U → Res W U A)
| Recv (p : Proc W U) (k : option Answers → Proc W U → Res W U A).
Arguments Ret {W U A}.
Arguments Send {W U A}.
Arguments Recv {W U A}.

Abbreviation App W U := (St (Proc W U) PamExit).
Definition Task (W U A : Type) : Type := Proc W U → Res W U A.

Section Tasks.
Context {W U : Type}.
Implicit Types p : Proc W U.

Fixpoint res_bind {A B} (f : A → Task W U B) (r : Res W U A) : Res W U B :=
  match r with
  | Ret (Ok a) p => f a p
  | Ret (Err e) p => Ret (Err e) p
  | Ret (Stop s) p => Ret (Stop s) p
  | Send e p k => Send e p (λ b p', res_bind f (k b p'))
  | Recv p k => Recv p (λ a p', res_bind f (k a p'))
  end.

#[global] Instance Task_ret : MRet (Task W U) := λ A a p, Ret (Ok a) p.
#[global] Instance Task_bind : MBind (Task W U) := λ A B f m p, res_bind f (m p).

(** Code that does not wait. *)
Definition now {A} (m : App W U A) : Task W U A := λ p, let '(o, p') := m p in Ret o p'.

(** Code run on a thread that nobody has a channel to: a wait is for good. *)
Definition direct {A} (t : Task W U A) : App W U A := λ p,
  match t p with
  | Ret o p' => (o, p')
  | Send _ p' _ | Recv p' _ => (Err Blocked, p')
  end.

(** Code run on a thread whose channels nobody else is at: what it sends is not
    received, and it is not answered. *)
Fixpoint cancelled {A} (r : Res W U A) : Outcome A PamExit * Proc W U :=
  match r with
  | Ret o p => (o, p)
  | Send _ p k => cancelled (k false p)
  | Recv p k => cancelled (k None p)
  end.

Definition throw {A} (e : PamError) : App W U A := fail (Fail e).
Definition result {A} (o : Outcome A PamError) : App W U A := lift (map_err Fail o).

(** What a computation returned or panicked with, as a value. *)
Definition settled {A} (o : Outcome A PamExit) : Outcome (Outcome A PamError) PamExit :=
  match o with
  | Ok a => Ok (Ok a)
  | Err (Fail e) => Ok (Err e)
  | Err x => Err x
  | Stop s => Ok (Stop s)
  end.
Fixpoint res_caught {A} (r : Res W U A) : Res W U (Outcome A PamError) :=
  match r with
  | Ret o p => Ret (settled o) p
  | Send e p k => Send e p (λ b p', res_caught (k b p'))
  | Recv p k => Recv p (λ a p', res_caught (k a p'))
  end.
Definition caught {A} (t : Task W U A) : Task W U (Outcome A PamError) := λ p, res_caught (t p).
Definition caught_app {A} (m : App W U A) : App W U (Outcome A PamError) := λ p,
  let '(o, p') := m p in (settled o, p').

(** ** Access to the process *)
Definition set_heap h p : Proc W U :=
  mkProc h p.(next_block) p.(released) p.(slots) p.(handles) p.(channels) p.(calls) p.(sys).
Definition set_slots s p : Proc W U :=
  mkProc p.(heap) p.(next_block) p.(released) s p.(handles) p.(channels) p.(calls) p.(sys).
Definition set_handles h p : Proc W U :=
  mkProc p.(heap) p.(next_block) p.(released) p.(slots) h p.(channels) p.(calls) p.(sys).
Definition set_channels c p : Proc W U :=
  mkProc p.(heap) p.(next_block) p.(released) p.(slots) p.(handles) c p.(calls) p.(sys).
Definition set_calls c p : Proc W U :=
  mkProc p.(heap) p.(next_block) p.(released) p.(slots) p.(handles) p.(channels) c p.(sys).
Definition set_sys w p : Proc W U :=
  mkProc p.(heap) p.(next_block) p.(released) p.(slots) p.(handles) p.(channels) p.(calls) w.

Definition sys_call {A} (f : W → A * W) : App W U A := λ p, let '(a, w) := f p.(sys) in (Ok a, set_sys w p).
Definition read_sys {A} (f : W → A) : App W U A := λ p, (Ok (f p.(sys)), p).
Definition record_call (c : Call) : App W U unit := modify (λ p, set_calls (p.(calls) ++ [c]) p).

(** A fresh address. *)
Definition fresh_address : App W U Z := λ p,
  (Ok p.(next_block),
   mkProc p.(heap) (p.(next_block) + 1) p.(released) p.(slots) p.(handles) p.(channels) p.(calls) p.(sys)).
Definition new_block (o : Owner) (d : Data) : App W U Z :=
  a ← fresh_address; modify (λ p, set_heap (<[a := (o, d)]> p.(heap)) p);; mret a.

Definition deref {A} (f : Owner * Data → option A) (a : Z) : App W U A := λ p,
  match p.(heap) !! a ≫= f with
  | Some x => (Ok x, p)
  | None => (Err Undefined, p)
  end.
Definition as_buf (b : Owner * Data) : option bytes := match b.2 with Buf l => Some l | _ => None end.
Definition as_array (b : Owner * Data) : option (list pam_response) :=
  match b.2 with Array l => Some l | _ => None end.
Definition as_table (b : Owner * Data) : option (list (option Z)) :=
  match b.2 with Table l => Some l | _ => None end.

Definition write (a : Z) (d : Data) : App W U unit := λ p,
  match p.(heap) !! a with
  | Some (o, _) => (Ok tt, set_heap (<[a := (o, d)]> p.(heap)) p)
  | None => (Err Undefined, p)
  end.

(** A block goes back to the allocator it came from. *)
Definition take_block (o : Owner) (a : Z) : App W U Data := λ p,
  match p.(heap) !! a with
  | Some (o', d) => if decide (o = o') then (Ok d, set_heap (delete a p.(heap)) p) else (Err Undefined, p)
  | None => (Err Undefined, p)
  end.
Definition log_release (d : Data) (p : Proc W U) : Proc W U :=
  mkProc p.(heap) p.(next_block) (p.(released) ++ match d with Buf l => [l] | _ => [] end)
    p.(slots) p.(handles) p.(channels) p.(calls) p.(sys).
(** And the crate is who gives it back. *)
Definition release_block (o : Owner) (a : Z) : App W U unit := d ← take_block o a; modify (log_release d).

(** [libc::malloc] and [libc::calloc]. *)
Definition libc_alloc `{!Libpam W U} (size : Z) (d : Data) : App W U (option Z) :=
  enough ← sys_call (has_memory (U:=U) size);
  if enough : bool then a ← new_block OwnC d; mret (Some a) else mret None.

Definition the_slot (a : Z) : App W U (ConvSlot U) := λ p,
  match p.(slots) !! a with
  | Some s => (Ok s, p)
  | None => (Err Undefined, p)
  end.
Definition put_slot (a : Z) (s : ConvSlot U) : App W U unit := modify (λ p, set_slots (<[a := s]> p.(slots)) p).
End Tasks.

(** [CStr::from_ptr] on bytes with a NUL somewhere, or behind them. *)
Fixpoint until_nul (l : bytes) : bytes :=
  match l with
  | [] => []
  | b :: l => if decide (b = x00) then [] else b :: until_nul l
  end.
(** [libc::strlen]; [None] where no NUL is in the block. *)
Fixpoint strlen (l : bytes) : option nat :=
  match l with
  | [] => None
  | b :: l => if decide (b = x00) then Some 0%nat else S <$> strlen l
  end.
