(* ===== verification/PamConv.v ===== *)
(** [truenas_pam]'s [secret.rs] and [conv.rs]: answers that are overwritten before
    they are given back, and the function a module reaches the application
    through. *)
From S2P Require Import Prelude Utf8 PamError Pam.
Local Open Scope Z_scope.

Section Conv.
Context {W U : Type} {pam : Libpam W U}.
Implicit Types p : Proc W U.

(** ** Secrets *)
(* SRC truenas_pam/src/secret.rs fn scrub *)
Definition scrub (a : Z) (n : nat) : App W U unit :=
  l ← deref as_buf a;
  if decide (n ≤ length l)%nat then write a (Buf (replicate n x00 ++ drop n l)) else fail Undefined.

(** [src] is a vector of [n] bytes; its block is as long as its capacity. *)
(* SRC truenas_pam/src/secret.rs fn new *)
Definition Secret_new (src : Z) (n : nat) : App W U Secret :=
  l ← deref as_buf src;
  if decide (length l = n) then mret src
  else
    boxed ← new_block OwnRust (Buf (take n l));
    scrub src (length l);;
    release_block OwnRust src;;
    mret boxed.

(* SRC truenas_pam/src/secret.rs fn as_bytes *)
Definition Secret_as_bytes (self : Secret) : App W U bytes := deref as_buf self.

(* SRC truenas_pam/src/secret.rs fn drop *)
Definition Secret_drop (self : Secret) : App W U unit :=
  l ← deref as_buf self; scrub self (length l);; release_block OwnRust self.

(** A vector of answers goes out of scope. *)
Fixpoint drop_answers (l : Answers) : App W U unit :=
  match l with
  | [] => mret tt
  | None :: l => drop_answers l
  | Some s :: l => Secret_drop s;; drop_answers l
  end.

(** The secrets an application makes of its buffers. *)
Fixpoint make_answers (l : list (option (bytes * bytes))) : App W U Answers :=
  match l with
  | [] => mret []
  | None :: l => rest ← make_answers l; mret (None :: rest)
  | Some (b, spare) :: l =>
      src ← new_block OwnRust (Buf (b ++ spare));
      s ← Secret_new src (length b);
      rest ← make_answers l;
      mret (Some s :: rest)
  end.

(** ** The slot *)
(* SRC truenas_pam/src/conv.rs L 223-229 new *)
Definition slot_new (c : Conversation U) : ConvSlot U := mkSlot c [] None.

(* SRC truenas_pam/src/conv.rs fn replace_conv *)
Definition replace_conv (a : Z) (c : Conversation U) : App W U (Conversation U) :=
  s ← the_slot a; put_slot a (mkSlot c s.(log) s.(failure));; mret s.(conv).

(* SRC truenas_pam/src/conv.rs fn take_log *)
Definition take_log (a : Z) : App W U (list (list Message)) :=
  s ← the_slot a; put_slot a (mkSlot s.(conv) [] s.(failure));; mret s.(log).

(* SRC truenas_pam/src/conv.rs fn take_failure *)
Definition take_failure (a : Z) : App W U (option Failure) :=
  s ← the_slot a; put_slot a (mkSlot s.(conv) s.(log) None);; mret s.(failure).

(* SRC truenas_pam/src/conv.rs L 258-262 fail *)
Definition slot_fail (a : Z) (f : Failure) : App W U unit :=
  s ← the_slot a;
  match s.(failure) with
  | None => put_slot a (mkSlot s.(conv) s.(log) (Some f))
  | Some _ => mret tt
  end.

Definition push_log (a : Z) (round : list Message) : App W U unit :=
  s ← the_slot a; put_slot a (mkSlot s.(conv) (s.(log) ++ [round]) s.(failure)).

(** A conversation goes out of scope: a channel's ends go with it. *)
Definition drop_conv (c : Conversation U) : App W U unit :=
  match c with
  | Channel x => modify (λ p, set_channels (p.(channels) ∖ {[x]}) p)
  | _ => mret tt
  end.

(** ** The conversations *)
(* SRC truenas_pam/src/conv.rs impl Conversation for Unattended *)
Definition Unattended_converse (messages : list Message) : Answers := (λ _, None) <$> messages.

Definition send_event (e : Event) : Task W U bool := λ p, Send e p (λ sent p', Ret (Ok sent) p').
Definition recv_answers : Task W U (option Answers) := λ p, Recv p (λ a p', Ret (Ok a) p').

(* SRC truenas_pam/src/step.rs impl Conversation for Channel *)
Definition Channel_converse (messages : list Message) : Task W U Answers :=
  sent ← send_event (EvPrompt messages);
  if sent : bool then
    a ← recv_answers;
    match a with
    | Some answers => mret answers
    | None => now (throw Timeout)
    end
  else now (throw Timeout).

(** The application's own, whose state is in the slot. *)
Definition Custom_converse (a : Z) (u : U) (messages : list Message) : App W U Answers :=
  r ← sys_call (converse_custom u messages);
  s ← the_slot a;
  put_slot a (mkSlot (Custom r.2) s.(log) s.(failure));;
  match r.1 with
  | Answer l => make_answers l
  | Refuse e => throw e
  | Panics => halt Panicked
  end.

(** [slot.conv.converse(messages)]. *)
Definition converse (a : Z) (messages : list Message) : Task W U Answers :=
  s ← now (the_slot a);
  match s.(conv) with
  | Unattended => mret (Unattended_converse messages)
  | Channel _ => Channel_converse messages
  | Custom u => now (Custom_converse a u messages)
  end.

(** ** Responses in C *)
Definition array_at (array : Z) (i : nat) : App W U pam_response :=
  l ← deref as_array array; lift (ok_or (l !! i) Undefined).

(* SRC truenas_pam/src/conv.rs L 429-443 free_responses *)
Fixpoint free_each (array : Z) (idx : list nat) : App W U unit :=
  match idx with
  | [] => mret tt
  | i :: idx =>
      r ← array_at array i;
      match r.(resp) with
      | None => free_each array idx
      | Some q =>
          l ← deref as_buf q;
          n ← lift (ok_or (strlen l) Undefined);
          scrub q n;;
          release_block OwnC q;;
          free_each array idx
      end
  end.

(* SRC truenas_pam/src/conv.rs fn free_responses *)
Definition free_responses (array : Z) (count : nat) : App W U unit :=
  free_each array (seq 0 count);; release_block OwnC array.

(** [size_of::<pam_response>()]. *)
Definition SIZE_OF_RESPONSE : Z := 16.

(* SRC truenas_pam/src/conv.rs L 384-417 responses_to_c *)
Fixpoint fill_responses (array : Z) (count : nat) (i : nat) (answers : Answers) : App W U Z :=
  match answers with
  | [] => mret array
  | None :: answers => fill_responses array count (S i) answers
  | Some secret :: answers =>
      b ← Secret_as_bytes secret;
      if decide (x00 ∈ b) then free_responses array count;; throw NulByte
      else
        buf ← libc_alloc (len b + 1) (Buf (b ++ [x00]));
        match buf with
        | None => free_responses array count;; throw (Pam BufErr)
        | Some buf =>
            l ← deref as_array array;
            r ← lift (ok_or (l !! i) Undefined);
            write array (Array (<[i := mkResponse (Some buf) r.(resp_retcode)]> l));;
            fill_responses array count (S i) answers
        end
  end.

(* SRC truenas_pam/src/conv.rs fn responses_to_c *)
Definition responses_to_c (answers : Answers) : App W U Z :=
  let count := length answers in
  array ← libc_alloc (Z.of_nat count * SIZE_OF_RESPONSE) (Array (replicate count (mkResponse None 0)));
  match array with
  | None => throw (Pam BufErr)
  | Some array => fill_responses array count 0 answers
  end.

(** ** The function registered with libpam *)
(* SRC truenas_pam/src/conv.rs L 301-323 trampoline *)
Fixpoint read_messages (raw : list (option pam_message)) : Outcome (list Message) PamError :=
  match raw with
  | [] => Ok []
  | None :: _ => Err (Pam ConvErr)
  | Some m :: raw =>
      match MsgStyle_from_raw m.(msg_style) with
      | None => Err (UnknownMsgStyle m.(msg_style))
      | Some st =>
          let text := match m.(msg) with None => [] | Some b => until_nul b end in
          outcome_map (cons (mkMessage st text)) (read_messages raw)
      end
  end.

(** The closure in it: the answers go out of scope at its end. *)
(* SRC truenas_pam/src/conv.rs L 295-336 trampoline *)
Definition round (slot : Z) (messages : list (option pam_message)) (count : nat) : Task W U Z :=
  raw ← now (if decide (count ≤ length messages)%nat then mret (take count messages) else fail Undefined);
  ms ← now (result (read_messages raw));
  now (push_log slot ms);;
  answers ← converse slot ms;
  if decide (length answers = count) then
    built ← now (caught_app (responses_to_c answers));
    now (drop_answers answers);;
    now (result built)
  else now (drop_answers answers;; throw (Pam ConvErr)).

(** What it returns, and what it writes to the place for the responses. *)
(* SRC truenas_pam/src/conv.rs fn trampoline *)
Definition trampoline (num_msg : Z) (messages : option (list (option pam_message))) (place : bool)
    (appdata : option Z) : Task W U (Z * option (option Z)) :=
  match appdata, messages, place with
  | Some slot, Some messages, true =>
      if (1 <=? num_msg) && (num_msg <=? PAM_MAX_NUM_MSG) then
        built ← caught (round slot messages (Z.to_nat num_msg));
        match built with
        | Ok array => mret (PAM_SUCCESS, Some (Some array))
        | Err e => now (slot_fail slot (FailErr e));; mret (PAM_CONV_ERR, Some None)
        | Stop _ => now (slot_fail slot FailPanic);; mret (PAM_CONV_ERR, Some None)
        end
      else mret (PAM_CONV_ERR, None)
  | _, _, _ => mret (PAM_CONV_ERR, None)
  end.

(** ** A call of libpam

    The module reads the responses it is given and frees them: the array and
    every string in it, with [free]. *)
Fixpoint module_takes_each (l : list pam_response) : App W U (list (option bytes * Z)) :=
  match l with
  | [] => mret []
  | r :: l =>
      s ← match r.(resp) with
          | None => mret None
          | Some q =>
              b ← deref as_buf q;
              n ← lift (ok_or (strlen b) Undefined);
              take_block OwnC q;;
              mret (Some (take n b))
          end;
      rest ← module_takes_each l;
      mret ((s, r.(resp_retcode)) :: rest)
  end.
Definition module_takes (array : Z) : App W U (list (option bytes * Z)) :=
  l ← deref as_array array; responses ← module_takes_each l; take_block OwnC array;; mret responses.

(** A module that was given a code and responses reads them where the code is a
    success.  The conversation it reaches is the one registered for the handle. *)
Fixpoint run_stack (hdl : Z) (t : Stack W) : Task W U Z :=
  match t with
  | Return_ rc w => now (modify (set_sys w));; mret rc
  | Converse num_msg messages place w k =>
      now (modify (set_sys w));;
      appdata ← now (λ p, (Ok (p.(handles) !! hdl), p));
      r ← trampoline num_msg messages place appdata;
      responses ← match r.1 =? PAM_SUCCESS, r.2 with
                  | true, Some (Some array) => now (l ← module_takes array; mret (Some l))
                  | _, _ => mret None
                  end;
      w' ← now (read_sys id);
      run_stack hdl (k r.1 responses w')
  end.

(** To call libpam with a handle that is not live has no meaning. *)
Definition live_handle (hdl : Z) : App W U unit := λ p,
  match p.(handles) !! hdl with
  | Some _ => (Ok tt, p)
  | None => (Err Undefined, p)
  end.
Definition call_stack (hdl : Z) (f : W → Stack W) : Task W U Z :=
  now (live_handle hdl);; w ← now (read_sys id); run_stack hdl (f w).
End Conv.
