(* ===== verification/PamTxn.v ===== *)
(** [truenas_pam]'s [txn.rs]: a transaction, from [pam_start_confdir] to
    [pam_end]. *)
From S2P Require Import Prelude XdrBase Utf8 PamError Pam PamConv.
Local Open Scope Z_scope.

(** ** Flags and credentials *)
(** [Flags] is its bits. *)
(* SRC truenas_pam/src/txn.rs L 49-67 Flags *)
Definition Flags : Type := Z.
Definition SILENT : Flags := PAM_SILENT.
Definition DISALLOW_NULL_AUTHTOK : Flags := PAM_DISALLOW_NULL_AUTHTOK.
Definition CHANGE_EXPIRED_AUTHTOK : Flags := PAM_CHANGE_EXPIRED_AUTHTOK.

(* SRC truenas_pam/src/txn.rs enum CredOp *)
Inductive CredOp : Type := Establish | Delete_ | Reinitialize | Refresh.
#[global] Instance CredOp_eq_dec : EqDecision CredOp.
Proof. solve_decision. Defined.

(* SRC truenas_pam/src/txn.rs fn raw *)
Definition CredOp_raw (self : CredOp) : Z :=
  match self with
  | Establish => PAM_ESTABLISH_CRED
  | Delete_ => PAM_DELETE_CRED
  | Reinitialize => PAM_REINITIALIZE_CRED
  | Refresh => PAM_REFRESH_CRED
  end.

(** ** Arguments *)
(* SRC truenas_pam/src/txn.rs fn cstring *)
Definition c_arg (s : bytes) : Outcome bytes PamError := ok_or (cstring s) NulByte.
(* SRC truenas_pam/src/txn.rs fn cpath *)
Definition cpath (s : bytes) : Outcome bytes PamError := ok_or (cstring s) NulByte.
(** [.as_deref().map(f).transpose()]. *)
Definition transposed (f : bytes → Outcome bytes PamError) (s : option bytes) : Outcome (option bytes) PamError :=
  match s with
  | None => Ok None
  | Some s => outcome_map Some (f s)
  end.

Definition EQUALS : Byte.byte := x3d.

(* SRC truenas_pam/src/txn.rs fn check_env_name *)
Definition check_env_name (name : bytes) : Outcome unit PamError :=
  if decide (name = [] ∨ EQUALS ∈ name) then Err InvalidName else Ok tt.

(** [std::str::from_utf8]. *)
Definition from_utf8 (b : bytes) : Outcome bytes PamError := if utf8_valid b then Ok b else Err NotUtf8.

(* SRC truenas_pam/src/txn.rs fn split_env *)
Definition split_env (e : bytes) : Outcome (bytes * bytes) PamError :=
  let '(name, value) :=
    match list_find (λ b, b = EQUALS) e with
    | Some (i, _) => (take i e, drop (i + 1) e)
    | None => (e, [])
    end in
  outcome_bind (λ name, outcome_map (pair name) (from_utf8 value)) (from_utf8 name).

(** ** The builder *)
(** A [Duration] is its nanoseconds. *)
(* SRC truenas_pam/src/txn.rs struct Builder *)
Record Builder (U : Type) : Type := mkBuilder {
  b_service : bytes; b_user : option bytes; b_confdir : option bytes; b_ruser : option bytes;
  b_rhost : option bytes; b_tty : option bytes; b_fail_delay : option Z; b_conversation : option (Conversation U)
}.
Arguments mkBuilder {U}.
Arguments b_service {U}.
Arguments b_user {U}.
Arguments b_confdir {U}.
Arguments b_ruser {U}.
Arguments b_rhost {U}.
Arguments b_tty {U}.
Arguments b_fail_delay {U}.
Arguments b_conversation {U}.

(* SRC truenas_pam/src/txn.rs struct Transaction *)
Record Transaction : Type := mkTransaction { hdl : Z; slot : Z; last : Z }.
#[global] Instance Transaction_eq_dec : EqDecision Transaction.
Proof. solve_decision. Defined.

Section Txn.
Context {W U : Type} {pam : Libpam W U}.
Implicit Types p : Proc W U.

(* SRC truenas_pam/src/txn.rs fn builder *)
Definition builder (service : bytes) : Builder U := mkBuilder service None None None None None None None.

Section Setters.
Context (self : Builder U).
(* SRC truenas_pam/src/txn.rs fn user #1 *)
Definition with_user (user : bytes) : Builder U :=
  mkBuilder self.(b_service) (Some user) self.(b_confdir) self.(b_ruser) self.(b_rhost) self.(b_tty)
    self.(b_fail_delay) self.(b_conversation).
(* SRC truenas_pam/src/txn.rs fn confdir *)
Definition with_confdir (dir : bytes) : Builder U :=
  mkBuilder self.(b_service) self.(b_user) (Some dir) self.(b_ruser) self.(b_rhost) self.(b_tty)
    self.(b_fail_delay) self.(b_conversation).
(* SRC truenas_pam/src/txn.rs fn ruser #1 *)
Definition with_ruser (ruser : bytes) : Builder U :=
  mkBuilder self.(b_service) self.(b_user) self.(b_confdir) (Some ruser) self.(b_rhost) self.(b_tty)
    self.(b_fail_delay) self.(b_conversation).
(* SRC truenas_pam/src/txn.rs fn rhost #1 *)
Definition with_rhost (rhost : bytes) : Builder U :=
  mkBuilder self.(b_service) self.(b_user) self.(b_confdir) self.(b_ruser) (Some rhost) self.(b_tty)
    self.(b_fail_delay) self.(b_conversation).
(* SRC truenas_pam/src/txn.rs fn tty #1 *)
Definition with_tty (tty : bytes) : Builder U :=
  mkBuilder self.(b_service) self.(b_user) self.(b_confdir) self.(b_ruser) self.(b_rhost) (Some tty)
    self.(b_fail_delay) self.(b_conversation).
(* SRC truenas_pam/src/txn.rs fn fail_delay *)
Definition with_fail_delay (delay : Z) : Builder U :=
  mkBuilder self.(b_service) self.(b_user) self.(b_confdir) self.(b_ruser) self.(b_rhost) self.(b_tty)
    (Some delay) self.(b_conversation).
(* SRC truenas_pam/src/txn.rs fn conversation *)
Definition with_conversation (c : Conversation U) : Builder U :=
  mkBuilder self.(b_service) self.(b_user) self.(b_confdir) self.(b_ruser) self.(b_rhost) self.(b_tty)
    self.(b_fail_delay) (Some c).
End Setters.

(** ** Items *)
(* SRC truenas_pam/src/txn.rs fn item_str *)
Definition item_str (self : Transaction) (item_type : Z) : App W U (option bytes) :=
  live_handle self.(hdl);;
  r ← read_sys (pam_get_item self.(hdl) item_type);
  result (check r.1);;
  match r.2 with
  | None => mret None
  | Some item => s ← result (from_utf8 (until_nul item)); mret (Some s)
  end.

(* SRC truenas_pam/src/txn.rs fn set_item_str *)
Definition set_item_str (self : Transaction) (item_type : Z) (value : bytes) : App W U unit :=
  value ← result (c_arg value);
  live_handle self.(hdl);;
  rc ← sys_call (pam_set_item self.(hdl) item_type value);
  result (check rc).

(* SRC truenas_pam/src/txn.rs fn service *)
Definition get_service (self : Transaction) : App W U (option bytes) := item_str self PAM_SERVICE.
(* SRC truenas_pam/src/txn.rs fn user #2 *)
Definition get_user (self : Transaction) : App W U (option bytes) := item_str self PAM_USER.
(* SRC truenas_pam/src/txn.rs fn set_user *)
Definition set_user (self : Transaction) (user : bytes) : App W U unit := set_item_str self PAM_USER user.
(* SRC truenas_pam/src/txn.rs fn ruser #2 *)
Definition get_ruser (self : Transaction) : App W U (option bytes) := item_str self PAM_RUSER.
(* SRC truenas_pam/src/txn.rs fn set_ruser *)
Definition set_ruser (self : Transaction) (ruser : bytes) : App W U unit := set_item_str self PAM_RUSER ruser.
(* SRC truenas_pam/src/txn.rs fn rhost #2 *)
Definition get_rhost (self : Transaction) : App W U (option bytes) := item_str self PAM_RHOST.
(* SRC truenas_pam/src/txn.rs fn set_rhost *)
Definition set_rhost (self : Transaction) (rhost : bytes) : App W U unit := set_item_str self PAM_RHOST rhost.
(* SRC truenas_pam/src/txn.rs fn tty #2 *)
Definition get_tty (self : Transaction) : App W U (option bytes) := item_str self PAM_TTY.
(* SRC truenas_pam/src/txn.rs fn set_tty *)
Definition set_tty (self : Transaction) (tty : bytes) : App W U unit := set_item_str self PAM_TTY tty.

(* SRC truenas_pam/src/txn.rs fn set_fail_delay *)
Definition set_fail_delay (self : Transaction) (delay : Z) : App W U unit :=
  let usec := Z.min (delay / 1000) u32_max in
  live_handle self.(hdl);;
  rc ← sys_call (pam_fail_delay self.(hdl) usec);
  result (check rc).

(** ** The environment *)
(* SRC truenas_pam/src/txn.rs fn getenv *)
Definition getenv (self : Transaction) (name : bytes) : App W U (option bytes) :=
  name ← result (c_arg name);
  live_handle self.(hdl);;
  r ← read_sys (pam_getenv self.(hdl) name);
  match r with
  | None => mret None
  | Some value => s ← result (from_utf8 (until_nul value)); mret (Some s)
  end.

(* SRC truenas_pam/src/txn.rs fn raw_putenv *)
Definition raw_putenv (self : Transaction) (e : bytes) : App W U unit :=
  e ← result (c_arg e);
  live_handle self.(hdl);;
  rc ← sys_call (pam_putenv self.(hdl) e);
  result (check rc).

(* SRC truenas_pam/src/txn.rs fn putenv *)
Definition putenv (self : Transaction) (name value : bytes) : App W U unit :=
  result (check_env_name name);;
  raw_putenv self (name ++ [EQUALS] ++ value).

(* SRC truenas_pam/src/txn.rs fn unsetenv *)
Definition unsetenv (self : Transaction) (name : bytes) : App W U bool :=
  result (check_env_name name);;
  r ← caught_app (raw_putenv self name);
  match r with
  | Ok _ => mret true
  | Err (Pam BadItem) => mret false
  | Err e => throw e
  | Stop s => halt s
  end.

(** The list libpam gives: a null-terminated array of strings, each a block of
    its own. *)
Fixpoint place_strings (l : list bytes) : App W U (list (option Z)) :=
  match l with
  | [] => mret [None]
  | s :: l => a ← new_block OwnC (Buf (until_nul s ++ [x00])); rest ← place_strings l; mret (Some a :: rest)
  end.
Definition call_getenvlist (h : Z) : App W U (option Z) :=
  r ← sys_call (pam_getenvlist h);
  match r with
  | None => mret None
  | Some l => table ← place_strings l; a ← new_block OwnC (Table table); mret (Some a)
  end.

(** The loop of [env], with fuel. *)
(* SRC truenas_pam/src/txn.rs L 470-489 env *)
Fixpoint env_loop (fuel : nat) (array : Z) (i : nat) (out : list (bytes * bytes)) : App W U (list (bytes * bytes)) :=
  match fuel with
  | O => halt OutOfFuel
  | S fuel =>
      table ← deref as_table array;
      e ← lift (ok_or (table !! i) Undefined);
      match e with
      | None => mret out
      | Some q =>
          b ← deref as_buf q;
          n ← lift (ok_or (strlen b) Undefined);
          let out := match split_env (take n b) with Ok kv => out ++ [kv] | _ => out end in
          release_block OwnC q;;
          env_loop fuel array (S i) out
      end
  end.

(* SRC truenas_pam/src/txn.rs fn env *)
Definition env (self : Transaction) : App W U (list (bytes * bytes)) :=
  live_handle self.(hdl);;
  array ← call_getenvlist self.(hdl);
  match array with
  | None => throw (Pam BufErr)
  | Some array =>
      table ← deref as_table array;
      out ← env_loop (S (length table)) array 0 [];
      release_block OwnC array;;
      mret out
  end.

(** ** The conversation *)
(* SRC truenas_pam/src/txn.rs fn set_conversation *)
Definition set_conversation (self : Transaction) (c : Conversation U) : App W U (Conversation U) :=
  replace_conv self.(slot) c.

(* SRC truenas_pam/src/txn.rs fn messages *)
Definition messages (self : Transaction) : App W U (list (list Message)) :=
  s ← the_slot self.(slot); mret s.(log).

(* SRC truenas_pam/src/txn.rs fn take_messages *)
Definition take_messages (self : Transaction) : App W U (list (list Message)) := take_log self.(slot).

(** ** Stack operations *)
(* SRC truenas_pam/src/txn.rs fn take_conv_failure *)
Definition take_conv_failure (self : Transaction) : App W U (Outcome unit PamError) :=
  f ← take_failure self.(slot);
  mret match f with
  | None => Ok tt
  | Some (FailErr e) => Err e
  | Some FailPanic => Stop Panicked
  end.

(** The outcome, and the transaction with the status for [pam_end]. *)
(* SRC truenas_pam/src/txn.rs fn stack_op *)
Definition stack_op (self : Transaction) (op : StackOp) (flags : Z) : Task W U (Outcome unit PamError * Transaction) :=
  rc ← call_stack self.(hdl) (pam_call op self.(hdl) flags);
  now (record_call (Ran self.(hdl) op flags rc));;
  let self := mkTransaction self.(hdl) self.(slot) rc in
  failure ← now (take_conv_failure self);
  mret (outcome_bind (λ _, check rc) failure, self).

Section Ops.
Context (self : Transaction).
(* SRC truenas_pam/src/txn.rs fn authenticate *)
Definition authenticate (flags : Flags) := stack_op self pam_authenticate flags.
(* SRC truenas_pam/src/txn.rs fn acct_mgmt *)
Definition acct_mgmt (flags : Flags) := stack_op self pam_acct_mgmt flags.
(* SRC truenas_pam/src/txn.rs fn chauthtok *)
Definition chauthtok (flags : Flags) := stack_op self pam_chauthtok flags.
(* SRC truenas_pam/src/txn.rs fn setcred *)
Definition setcred (op : CredOp) (flags : Flags) := stack_op self pam_setcred (Z.lor (CredOp_raw op) flags).
(* SRC truenas_pam/src/txn.rs fn open_session *)
Definition open_session (flags : Flags) := stack_op self pam_open_session flags.
(* SRC truenas_pam/src/txn.rs fn close_session *)
Definition close_session (flags : Flags) := stack_op self pam_close_session flags.
End Ops.

(** ** Beginning and end *)
(** A boxed slot goes out of scope. *)
Definition drop_slot (a : Z) : App W U unit :=
  s ← the_slot a; modify (λ p, set_slots (delete a p.(slots)) p);; drop_conv s.(conv).

(* SRC truenas_pam/src/txn.rs fn drop *)
Definition Transaction_drop (self : Transaction) : Task W U unit :=
  call_stack self.(hdl) (pam_end self.(hdl) self.(last));;
  now (modify (λ p, set_handles (delete self.(hdl) p.(handles)) p);;
       record_call (EndedWith self.(hdl) self.(last));;
       drop_slot self.(slot)).

Definition when_some {A} (o : option A) (f : A → App W U unit) : App W U unit :=
  match o with Some a => f a | None => mret tt end.

(** The handle libpam gives where it starts one. *)
Definition call_start (service : bytes) (user confdir : option bytes) (appdata : Z) : App W U (Z * Z) :=
  h ← fresh_address;
  rc ← sys_call (pam_start_confdir service user confdir h);
  (if rc =? PAM_SUCCESS
   then modify (λ p, set_handles (<[h := appdata]> p.(handles)) p);; record_call (Started h)
   else mret tt);;
  mret (rc, h).

(* SRC truenas_pam/src/txn.rs fn build *)
Definition build (self : Builder U) : Task W U Transaction :=
  service ← now (result (c_arg self.(b_service)));
  user ← now (result (transposed c_arg self.(b_user)));
  confdir ← now (result (transposed cpath self.(b_confdir)));
  let c := default Unattended self.(b_conversation) in
  at_slot ← now fresh_address;
  now (put_slot at_slot (slot_new c));;
  started ← now (call_start service user confdir at_slot);
  match check started.1 with
  | Ok _ =>
      let txn := mkTransaction started.2 at_slot PAM_ABORT in
      configured ← now (caught_app (
        when_some self.(b_ruser) (set_ruser txn);;
        when_some self.(b_rhost) (set_rhost txn);;
        when_some self.(b_tty) (set_tty txn);;
        when_some self.(b_fail_delay) (set_fail_delay txn)));
      match configured with
      | Ok _ => mret (mkTransaction txn.(hdl) txn.(slot) PAM_SUCCESS)
      | Err e => Transaction_drop txn;; now (throw e)
      | Stop s => Transaction_drop txn;; now (halt s)
      end
  | Err e => now (drop_slot at_slot;; throw e)
  | Stop s => now (halt s)
  end.
End Txn.
