(* ===== verification/PamStep.v ===== *)
(** [truenas_pam]'s [step.rs]: an exchange on a worker thread, driven one round at
    a time.

    The worker is part of the handle to it: it runs, waits to hand an event over,
    waits for answers, or has exited.  Both channels are rendezvous: an event or
    an answer passes when one side sends and the other receives.  A worker that
    runs reaches its next stop at some time of its own ([advance]), or at the
    latest when the driver waits for it. *)
From S2P Require Import Prelude XdrBase Utf8 PamError Pam PamConv PamTxn.
Local Open Scope Z_scope.

Definition EAGAIN : Z := 11.

(* SRC truenas_pam/src/step.rs enum Step *)
Inductive Step : Type := Prompt (messages : list Message) | Done.

(* SRC truenas_pam/src/step.rs enum Op *)
Inductive Op : Type := Authenticate | Chauthtok.

(* SRC truenas_pam/src/step.rs enum Phase *)
Inductive Phase : Type := PhStarted | PhPrompting | PhEnded | PhStopped.
#[global] Instance Phase_eq_dec : EqDecision Phase.
Proof. solve_decision. Defined.

(** What the worker returns. *)
(* SRC truenas_pam/src/step.rs type Outcome *)
Definition Verdict : Type := Transaction * Outcome unit PamError.

(** What [recv] and [recv_timeout] give. *)
Inductive Received : Type := Got (e : Event) | Disconnected | TimedOut_.

Section Step.
Context {W U : Type} {pam : Libpam W U}.
Implicit Types p : Proc W U.

(** ** The worker *)
(* SRC truenas_pam/src/step.rs fn run #1 *)
Definition Op_run (self : Op) (txn : Transaction) (flags : Flags) : Task W U Verdict :=
  r ← match self with
      | Authenticate => authenticate txn flags
      | Chauthtok => chauthtok txn flags
      end;
  mret (r.2, r.1).

(** The closure that the thread runs. *)
(* SRC truenas_pam/src/step.rs L 227-245 run *)
Definition worker_main (op : Op) (txn : Transaction) (flags : Flags) (restore : Conversation U) : Task W U Verdict :=
  v ← Op_run op txn flags;
  displaced ← now (set_conversation v.1 restore);
  now (drop_conv displaced);;
  send_event Finished;;
  mret v.

Inductive Worker : Type :=
| Running (t : Task W U Verdict)
| Sending (e : Event) (k : bool → Task W U Verdict)
| Receiving (k : option Answers → Task W U Verdict)
| Exited (o : Outcome Verdict PamExit).

Definition stopped_at (r : Res W U Verdict) : Worker * Proc W U :=
  match r with
  | Ret o p => (Exited o, p)
  | Send e p k => (Sending e k, p)
  | Recv p k => (Receiving k, p)
  end.
(** A running worker goes on to its next stop. *)
Definition to_stop (w : Worker) : App W U Worker := λ p,
  match w with
  | Running t => let '(w', p') := stopped_at (t p) in (Ok w', p')
  | _ => (Ok w, p)
  end.

(** A worker whose driver has let go of both ends runs to its exit. *)
Definition join (w : Worker) : App W U (Outcome Verdict PamError) := caught_app (λ p,
  match w with
  | Running t => cancelled (t p)
  | Sending _ k => cancelled (k false p)
  | Receiving k => cancelled (k None p)
  | Exited o => (o, p)
  end).

(** ** The channels *)
(** What a driver that waits gets of a worker at its stop. *)
Definition meet (w : Worker) (limit : option Z) : App W U (Received * Worker) :=
  match w with
  | Sending e k => mret (Got e, Running (k true))
  | Exited _ => mret (Disconnected, w)
  | _ => match limit with Some _ => mret (TimedOut_, w) | None => fail Blocked end
  end.

(** [events.recv_timeout(limit)], or [events.recv()] without a limit. *)
Definition recv_event (w : Worker) (limit : option Z) : App W U (Received * Worker) :=
  late ← match w, limit with
         | Running _, Some d => sys_call (expires (U:=U) d)
         | _, _ => mret false
         end;
  if late : bool then mret (TimedOut_, w) else w ← to_stop w; meet w limit.

(** [answers.send(responses).is_ok()] of the exchange [x]: what is not taken is
    dropped. *)
Definition send_answers (w : Worker) (x : Z) (responses : Answers) : App W U (bool * Worker) :=
  w ← to_stop w;
  match w with
  | Receiving k => mret (true, Running (k (Some responses)))
  | Sending _ _ =>
      p ← get;
      if decide (x ∈ p.(channels)) then fail Blocked else drop_answers responses;; mret (false, w)
  | _ => drop_answers responses;; mret (false, w)
  end.

(** ** The exchange *)
(* SRC truenas_pam/src/step.rs struct Stepped *)
Record Stepped : Type := mkStepped {
  worker : option Worker; answers : option Z; events : option Z; phase : Phase; done : option Transaction
}.

Definition set_worker (self : Stepped) (w : option Worker) : Stepped :=
  mkStepped w self.(answers) self.(events) self.(phase) self.(done).
Definition set_phase (self : Stepped) (ph : Phase) : Stepped :=
  mkStepped self.(worker) self.(answers) self.(events) ph self.(done).
(** [self.answers = None; self.events = None; self.worker.take()]. *)
Definition let_go (self : Stepped) : Stepped := mkStepped None None None self.(phase) self.(done).

(** The worker may go on at any time. *)
Definition advance (self : Stepped) : App W U Stepped :=
  match self.(worker) with
  | Some w => w ← to_stop w; mret (set_worker self (Some w))
  | None => mret self
  end.

(* SRC truenas_pam/src/step.rs fn run #2 *)
Definition run (txn : Transaction) (flags : Flags) (op : Op) : App W U (Stepped + Transaction * PamError) :=
  x ← fresh_address;
  modify (λ p, set_channels ({[x]} ∪ p.(channels)) p);;
  restore ← set_conversation txn (Channel x);
  spawned ← sys_call (spawn (U:=U));
  match spawned with
  | None => mret (inl (mkStepped (Some (Running (worker_main op txn flags restore))) (Some x) (Some x) PhStarted None))
  | Some errno =>
      displaced ← set_conversation txn restore;
      drop_conv displaced;;
      mret (inr (txn, Os (default EAGAIN errno)))
  end.

(* SRC truenas_pam/src/step.rs fn begin *)
Definition begin (txn : Transaction) (flags : Flags) : Task W U Stepped :=
  r ← now (run txn flags Authenticate);
  match r with
  | inl self => mret self
  | inr (txn, e) => Transaction_drop txn;; now (throw e)
  end.

(* SRC truenas_pam/src/step.rs fn begin_chauthtok *)
Definition begin_chauthtok (txn : Transaction) (flags : Flags) : Task W U Stepped :=
  r ← now (run txn flags Chauthtok);
  match r with
  | inl self => mret self
  | inr (txn, e) => Transaction_drop txn;; now (throw e)
  end.

(* SRC truenas_pam/src/step.rs fn begin_recover *)
Definition begin_recover (txn : Transaction) (flags : Flags) : App W U (Stepped + Transaction * PamError) :=
  run txn flags Authenticate.

(** A method gives its outcome, a panic included, and the exchange. *)
(* SRC truenas_pam/src/step.rs fn reap *)
Definition reap (self : Stepped) : App W U (Outcome unit PamError * Stepped) :=
  match self.(worker) with
  | None => mret (Ok tt, let_go self)
  | Some w =>
      joined ← join w;
      let self := let_go self in
      match joined with
      | Ok (txn, r) => mret (r, mkStepped None None None self.(phase) (Some txn))
      | Err e => mret (Err e, self)
      | Stop s => mret (Stop s, self)
      end
  end.

Definition reaped (self : Stepped) : App W U (Outcome Step PamError * Stepped) :=
  r ← reap self; mret (outcome_map (λ _, Done) r.1, r.2).

(** What the driver makes of what it received. *)
(* SRC truenas_pam/src/step.rs L 308-327 collect *)
Definition told (self : Stepped) (r : Received * Worker) : App W U (Outcome Step PamError * Stepped) :=
  let self := set_worker self (Some r.2) in
  match r.1 with
  | Got (EvPrompt messages) => mret (Ok (Prompt messages), set_phase self PhPrompting)
  | Got Finished => reaped (set_phase self PhEnded)
  | Disconnected => reaped (set_phase self PhEnded)
  | TimedOut_ => mret (Err Timeout, set_phase self PhStopped)
  end.

(* SRC truenas_pam/src/step.rs fn collect *)
Definition collect (self : Stepped) (limit : option Z) : App W U (Outcome Step PamError * Stepped) :=
  match self.(events), self.(worker) with
  | None, _ => mret (Err OutOfSequence, self)
  | Some _, None => reaped (set_phase self PhEnded)
  | Some _, Some w => r ← recv_event w limit; told self r
  end.

(* SRC truenas_pam/src/step.rs fn wait *)
Definition wait (self : Stepped) (limit : option Z) : App W U (Outcome Step PamError * Stepped) :=
  if decide (self.(phase) = PhStarted) then collect self limit else mret (Err OutOfSequence, self).

(* SRC truenas_pam/src/step.rs fn respond *)
Definition respond (self : Stepped) (responses : Answers) (limit : option Z) : App W U (Outcome Step PamError * Stepped) :=
  if decide (self.(phase) = PhPrompting) then
    sent ← match self.(answers), self.(worker) with
           | Some x, Some w => r ← send_answers w x responses; mret (r.1, set_worker self (Some r.2))
           | _, _ => drop_answers responses;; mret (false, self)
           end;
    let self := sent.2 in
    if sent.1 : bool then collect (set_phase self PhStarted) limit
    else reaped (set_phase self PhEnded)
  else drop_answers responses;; mret (Err OutOfSequence, self).

(* SRC truenas_pam/src/step.rs fn drop *)
Definition Stepped_drop (self : Stepped) : Task W U unit :=
  match self.(worker) with
  | Some w =>
      joined ← now (join w);
      match joined with
      | Ok (txn, _) => Transaction_drop txn
      | _ => mret tt
      end
  | None => mret tt
  end;;
  match self.(done) with
  | Some txn => Transaction_drop txn
  | None => mret tt
  end.

(* SRC truenas_pam/src/step.rs fn finish *)
Definition finish (self : Stepped) : Task W U Transaction :=
  r ← now (reap self);
  match r.1, r.2.(done) with
  | Stop s, _ => Stepped_drop r.2;; now (halt s)
  | _, Some txn => mret txn
  | Err e, None => now (throw e)
  | Ok _, None => now (throw OutOfSequence)
  end.
End Step.
