(* ===== verification/PamAuth.v ===== *)
(** [truenas_pam]'s [auth.rs]: the sequence of a login. *)
From S2P Require Import Prelude XdrBase Utf8 PamError Pam PamConv PamTxn PamStep.
Local Open Scope Z_scope.

(* SRC truenas_pam/src/auth.rs enum Stage *)
Inductive Stage : Type :=
| Start | Authenticating | Authenticated | AccountChecked | SessionOpen | Ended | Failed.
#[global] Instance Stage_eq_dec : EqDecision Stage.
Proof. solve_decision. Defined.

Section Auth.
Context {W U : Type} {pam : Libpam W U}.
Implicit Types p : Proc W U.

(* SRC truenas_pam/src/auth.rs enum Held *)
Inductive Held : Type :=
| HeldTransaction (txn : Transaction)
| HeldExchange (ex : Stepped (W:=W) (U:=U))
| HeldNothing.

(* SRC truenas_pam/src/auth.rs struct Authenticator *)
Record Authenticator : Type := mkAuth { held : Held; stage : Stage; flags : Flags; timeout : option Z }.

Definition set_held (self : Authenticator) (h : Held) : Authenticator :=
  mkAuth h self.(stage) self.(flags) self.(timeout).
Definition set_stage (self : Authenticator) (s : Stage) : Authenticator :=
  mkAuth self.(held) s self.(flags) self.(timeout).

(* SRC truenas_pam/src/auth.rs fn new *)
Definition Authenticator_new (txn : Transaction) : Authenticator := mkAuth (HeldTransaction txn) Start 0 None.
(* SRC truenas_pam/src/auth.rs fn flags *)
Definition with_flags (self : Authenticator) (f : Flags) : Authenticator :=
  mkAuth self.(held) self.(stage) f self.(timeout).
(* SRC truenas_pam/src/auth.rs fn timeout *)
Definition with_timeout (self : Authenticator) (d : Z) : Authenticator :=
  mkAuth self.(held) self.(stage) self.(flags) (Some d).

(** A method gives its outcome, a panic included, and the sequence. *)
Abbreviation Method A := (App W U (Outcome A PamError * Authenticator)).

(* SRC truenas_pam/src/auth.rs fn settle *)
Definition settle (self : Authenticator) (s : Stage) : Method unit :=
  match self.(held) with
  | HeldExchange ex =>
      let self := set_held self HeldNothing in
      r ← direct (caught (finish ex));
      match r with
      | Ok txn => mret (Ok tt, set_stage (set_held self (HeldTransaction txn)) s)
      | Err _ => mret (Ok tt, set_stage self s)
      | Stop w => mret (Stop w, self)
      end
  | HeldTransaction txn => direct (Transaction_drop txn);; mret (Ok tt, set_stage (set_held self HeldNothing) s)
  | HeldNothing => mret (Ok tt, set_stage self s)
  end.

(** [self.settle(stage)] and then the value. *)
Definition settled_as {A} (self : Authenticator) (s : Stage) (a : Outcome A PamError) : Method A :=
  r ← settle self s; mret (outcome_bind (λ _, a) r.1, r.2).

(* SRC truenas_pam/src/auth.rs fn step *)
Definition step_ (self : Authenticator) (responses : option Answers) : Method Step :=
  match self.(held) with
  | HeldExchange ex =>
      r ← match responses with
          | None => wait ex self.(timeout)
          | Some l => respond ex l self.(timeout)
          end;
      let self := set_held self (HeldExchange r.2) in
      match r.1 with
      | Ok (Prompt ms) => mret (Ok (Prompt ms), set_stage self Authenticating)
      | Ok Done => settled_as self Authenticated (Ok Done)
      | Err Timeout => mret (Err Timeout, set_stage self Failed)
      | Err e => settled_as self Failed (Err e)
      | Stop w => mret (Stop w, self)
      end
  | _ =>
      match responses with Some l => drop_answers l | None => mret tt end;;
      mret (Err OutOfSequence, self)
  end.

(* SRC truenas_pam/src/auth.rs fn begin *)
Definition auth_begin (self : Authenticator) : Method Step :=
  if decide (self.(stage) = Start ∨ self.(stage) = Failed) then
    match self.(held) with
    | HeldTransaction txn =>
        r ← begin_recover txn self.(flags);
        match r with
        | inl ex => step_ (set_stage (set_held self (HeldExchange ex)) Authenticating) None
        | inr (txn, e) => mret (Err e, set_stage (set_held self (HeldTransaction txn)) Failed)
        end
    | _ => mret (Err OutOfSequence, self)
    end
  else mret (Err OutOfSequence, self).

(* SRC truenas_pam/src/auth.rs fn respond *)
Definition auth_respond (self : Authenticator) (responses : Answers) : Method Step :=
  if decide (self.(stage) = Authenticating) then step_ self (Some responses)
  else drop_answers responses;; mret (Err OutOfSequence, self).

(* SRC truenas_pam/src/auth.rs fn acct_mgmt *)
Definition auth_acct_mgmt (self : Authenticator) : Method unit :=
  if decide (self.(stage) = Authenticated) then
    match self.(held) with
    | HeldTransaction txn =>
        r ← direct (acct_mgmt txn self.(flags));
        let self := set_held self (HeldTransaction r.2) in
        mret (r.1, match r.1 with Ok _ => set_stage self AccountChecked | _ => self end)
    | _ => mret (Err OutOfSequence, self)
    end
  else mret (Err OutOfSequence, self).

(* SRC truenas_pam/src/auth.rs fn login *)
Definition login (self : Authenticator) : Method unit :=
  if decide (self.(stage) = AccountChecked) then
    match self.(held) with
    | HeldTransaction txn =>
        granted ← direct (setcred txn Establish self.(flags));
        match granted.1 with
        | Ok _ =>
            opened ← direct (open_session granted.2 self.(flags));
            match opened.1 with
            | Ok _ => mret (Ok tt, set_stage (set_held self (HeldTransaction opened.2)) SessionOpen)
            | Err e =>
                revoked ← direct (setcred opened.2 Delete_ self.(flags));
                let self := set_held self (HeldTransaction revoked.2) in
                mret (match revoked.1 with Stop w => Stop w | _ => Err e end, self)
            | Stop w => mret (Stop w, set_held self (HeldTransaction opened.2))
            end
        | r => mret (r, set_held self (HeldTransaction granted.2))
        end
    | _ => mret (Err OutOfSequence, self)
    end
  else mret (Err OutOfSequence, self).

(* SRC truenas_pam/src/auth.rs fn logout *)
Definition logout (self : Authenticator) : Method unit :=
  if decide (self.(stage) = SessionOpen) then
    match self.(held) with
    | HeldTransaction txn =>
        closed ← direct (close_session txn self.(flags));
        match closed.1 with
        | Stop w => mret (Stop w, set_held self (HeldTransaction closed.2))
        | _ =>
            revoked ← direct (setcred closed.2 Delete_ self.(flags));
            let self := set_held self (HeldTransaction revoked.2) in
            match revoked.1 with
            | Stop w => mret (Stop w, self)
            | _ => mret (outcome_bind (λ _, revoked.1) closed.1, set_stage self Ended)
            end
        end
    | _ => mret (Err OutOfSequence, self)
    end
  else mret (Err OutOfSequence, self).

(* SRC truenas_pam/src/auth.rs fn transaction *)
Definition transaction (self : Authenticator) : Outcome Transaction PamError :=
  match self.(held) with
  | HeldTransaction txn => Ok txn
  | _ => Err OutOfSequence
  end.

(* SRC truenas_pam/src/auth.rs fn into_transaction *)
Definition into_transaction (self : Authenticator) : Task W U Transaction :=
  match self.(held) with
  | HeldTransaction txn => mret txn
  | HeldExchange ex => finish ex
  | HeldNothing => now (throw OutOfSequence)
  end.

(** A sequence goes out of scope with what it holds. *)
Definition Authenticator_drop (self : Authenticator) : Task W U unit :=
  match self.(held) with
  | HeldTransaction txn => Transaction_drop txn
  | HeldExchange ex => Stepped_drop ex
  | HeldNothing => mret tt
  end.
End Auth.
