(* ===== verification/PamMem.v ===== *)
(** The memory of [truenas_pam]: secrets and C responses are made, read and given
    back, and what the crate gives back holds zeros alone. *)
From S2P Require Import Prelude Utf8 PamError Pam PamConv.
Local Open Scope Z_scope.

(** ** Heaps *)
Abbreviation Heap := (gmap Z (Owner * Data)).

(** [h] is [h0] and new blocks at the addresses [N]. *)
Definition grown (h0 h : Heap) (N : list Z) : Prop :=
  (∀ a, a ∉ N → h !! a = h0 !! a) ∧ (∀ a, a ∈ N → h0 !! a = None).
Definition purge (h : Heap) (N : list Z) : Heap := foldr delete h N.

Lemma lookup_purge h N a : purge h N !! a = if decide (a ∈ N) then None else h !! a.
Proof.
  induction N as [|n N IH]; simpl; [done|]. destruct (decide (n = a)) as [->|Hne].
  - rewrite lookup_delete_eq. rewrite decide_True by left. done.
  - rewrite lookup_delete_ne by done. rewrite IH. apply decide_ext. set_solver.
Qed.

Lemma purge_grown h0 h N : grown h0 h N → purge h N = h0.
Proof.
  intros [H1 H2]. apply map_eq. intros a. rewrite lookup_purge. case_decide as Ha; [by rewrite H2|by apply H1].
Qed.

Lemma purge_app h N M : purge h (N ++ M) = purge (purge h M) N.
Proof. unfold purge. by rewrite foldr_app. Qed.

Lemma purge_cons h a N : purge h (a :: N) = purge (delete a h) N.
Proof.
  apply map_eq. intros b. rewrite !lookup_purge. destruct (decide (b ∈ N)), (decide (b ∈ a :: N)); try done; [set_solver| |].
  - assert (b = a) as -> by set_solver. by rewrite lookup_delete_eq.
  - by rewrite lookup_delete_ne by set_solver.
Qed.

Lemma grown_nil h : grown h h [].
Proof. split; [done|]. by intros a ?%elem_of_nil. Qed.

Lemma grown_insert h0 h N a x : grown h0 h N → h !! a = None → grown h0 (<[a := x]> h) (a :: N).
Proof.
  intros [H1 H2] Ha. split.
  - intros b Hb. rewrite lookup_insert_ne by set_solver. apply H1. set_solver.
  - intros b [->|Hb]%elem_of_cons; [|by apply H2]. destruct (decide (a ∈ N)); [by apply H2|]. by rewrite <- H1.
Qed.

Lemma grown_write h0 h N a x : grown h0 h N → a ∈ N → grown h0 (<[a := x]> h) N.
Proof. intros [H1 H2] Ha. split; [|done]. intros b Hb. rewrite lookup_insert_ne by set_solver. by apply H1. Qed.

Lemma grown_perm h0 h N M : grown h0 h N → (∀ a, a ∈ N ↔ a ∈ M) → grown h0 h M.
Proof. intros [H1 H2] HM. split; intros a Ha; [apply H1; by rewrite HM|apply H2; by rewrite HM]. Qed.

(** ** Strings *)
Lemma strlen_app b : x00 ∉ b → strlen (b ++ [x00]) = Some (length b).
Proof.
  induction b as [|c b IH]; simpl; intros Hb; [done|].
  rewrite decide_False by set_solver. rewrite IH by set_solver. done.
Qed.

Lemma until_nul_no b : x00 ∉ until_nul b.
Proof. induction b as [|c b IH]; simpl; [set_solver|]. case_decide; set_solver. Qed.

Lemma until_nul_id b : x00 ∉ b → until_nul b = b.
Proof. induction b as [|c b IH]; simpl; [done|]. intros H. rewrite decide_False by set_solver. f_equal. apply IH. set_solver. Qed.

Definition zeroed (l : bytes) : Prop := Forall (λ b, b = x00) l.
#[global] Instance zeroed_dec l : Decision (zeroed l).
Proof. unfold zeroed. apply _. Defined.

(** The buffers of answers. *)
Abbreviation addrs l := (omap (M:=list) (A:=option Z) (B:=Z) id l).

Section Mem.
Context {W U : Type} {pam : Libpam W U}.
Implicit Types p : Proc W U.

(** ** Quiet steps

    What the memory functions leave alone.  Of the buffers they give back, each
    held zeros alone. *)
Record quiet p p' : Prop := mkQuiet {
  q_slots : p'.(slots) = p.(slots);
  q_handles : p'.(handles) = p.(handles);
  q_channels : p'.(channels) = p.(channels);
  q_calls : p'.(calls) = p.(calls);
  q_next : p.(next_block) ≤ p'.(next_block);
  q_released : ∃ zs, p'.(released) = p.(released) ++ zs ∧ Forall zeroed zs
}.

Lemma quiet_refl p : quiet p p.
Proof. split; try done. exists []. rewrite app_nil_r. done. Qed.

Lemma quiet_trans p1 p2 p3 : quiet p1 p2 → quiet p2 p3 → quiet p1 p3.
Proof.
  intros [?????(z1 & H1 & Hz1)] [?????(z2 & H2 & Hz2)]. split; try congruence; [lia|].
  exists (z1 ++ z2). rewrite H2, H1, app_assoc. split; [done|]. by apply Forall_app.
Qed.
#[global] Instance quiet_preorder : PreOrder quiet.
Proof. split; [exact quiet_refl|exact quiet_trans]. Qed.

(** Addresses that were not given out are not in use. *)
Record fresh_ok p : Prop := mkFresh {
  f_heap : ∀ a, p.(next_block) ≤ a → p.(heap) !! a = None;
  f_slots : ∀ a, p.(next_block) ≤ a → p.(slots) !! a = None;
  f_handles : ∀ a, p.(next_block) ≤ a → p.(handles) !! a = None;
  f_channels : ∀ a, p.(next_block) ≤ a → a ∉ p.(channels)
}.

Lemma fresh_quiet p p' : fresh_ok p → quiet p p' → (∀ a, p'.(next_block) ≤ a → p'.(heap) !! a = None) → fresh_ok p'.
Proof.
  intros [H1 H2 H3 H4] [E1 E2 E3 _ E4 _] Hh. split; [done|..]; intros a Ha; rewrite ?E1, ?E2, ?E3; [apply H2|apply H3|apply H4]; lia.
Qed.

(** ** Blocks *)
Lemma new_block_runs o d p : fresh_ok p → ∃ p',
  new_block o d p = (Ok p.(next_block), p') ∧ quiet p p' ∧ p'.(heap) = <[p.(next_block) := (o, d)]> p.(heap) ∧ fresh_ok p' ∧
  p'.(sys) = p.(sys).
Proof.
  intros Hf. eexists. split; [reflexivity|]. assert (quiet p (set_heap (<[p.(next_block) := (o, d)]> p.(heap))
    (mkProc p.(heap) (p.(next_block) + 1) p.(released) p.(slots) p.(handles) p.(channels) p.(calls) p.(sys)))) as Hq.
  { split; simpl; try done; [lia|]. exists []. by rewrite app_nil_r. }
  split; [exact Hq|]. split; [done|]. split; [|done]. apply (fresh_quiet p); [done|exact Hq|]. simpl. intros a Ha.
  rewrite lookup_insert_ne by lia. apply (f_heap p Hf). lia.
Qed.

Lemma deref_runs {A} (f : Owner * Data → option A) a b x p :
  p.(heap) !! a = Some b → f b = Some x → deref f a p = (Ok x, p).
Proof. intros H1 H2. unfold deref. rewrite H1. simpl. by rewrite H2. Qed.

Lemma write_runs a o d d' p : p.(heap) !! a = Some (o, d) → write a d' p = (Ok tt, set_heap (<[a := (o, d')]> p.(heap)) p).
Proof. intros H. unfold write. by rewrite H. Qed.

Lemma quiet_write h p : quiet p (set_heap h p).
Proof. split; simpl; try done. exists []. by rewrite app_nil_r. Qed.

Lemma take_block_runs o a d p : p.(heap) !! a = Some (o, d) → take_block o a p = (Ok d, set_heap (delete a p.(heap)) p).
Proof. intros H. unfold take_block. rewrite H. by rewrite decide_True. Qed.

Lemma release_runs o a d p : p.(heap) !! a = Some (o, d) → match d with Buf l => zeroed l | _ => True end →
  ∃ p', release_block o a p = (Ok tt, p') ∧ quiet p p' ∧ p'.(heap) = delete a p.(heap) ∧ p'.(sys) = p.(sys) ∧ p'.(next_block) = p.(next_block).
Proof.
  intros H Hz. unfold release_block. rewrite (run_bind_ok _ _ _ _ _ (take_block_runs _ _ _ _ H)). eexists. split; [reflexivity|]. split; [|done].
  split; simpl; try done. eexists. split; [reflexivity|]. by destruct d; repeat constructor.
Qed.

(** ** Secrets *)
Lemma scrub_runs a o l n p : p.(heap) !! a = Some (o, Buf l) → (n ≤ length l)%nat →
  scrub a n p = (Ok tt, set_heap (<[a := (o, Buf (replicate n x00 ++ drop n l))]> p.(heap)) p).
Proof.
  intros H Hn. unfold scrub. erewrite run_bind_ok by (eapply deref_runs; done). cbv beta. rewrite decide_True by done.
  by eapply write_runs.
Qed.

Lemma zeroed_replicate n : zeroed (replicate n x00).
Proof. by apply Forall_replicate. Qed.

(** Scrub the first [n] bytes of a block and give it back. *)
Lemma scrub_release o a l n p : p.(heap) !! a = Some (o, Buf l) → (n ≤ length l)%nat → zeroed (drop n l) →
  ∃ p', (scrub a n;; release_block o a) p = (Ok tt, p') ∧ quiet p p' ∧ p'.(heap) = delete a p.(heap) ∧ p'.(sys) = p.(sys) ∧
    p'.(next_block) = p.(next_block).
Proof.
  intros H Hn Hz. erewrite run_bind_ok by (by eapply scrub_runs). cbv beta.
  destruct (release_runs o a (Buf (replicate n x00 ++ drop n l)) (set_heap (<[a := (o, Buf (replicate n x00 ++ drop n l))]> p.(heap)) p))
    as (p' & Hr & Hq & Hh & Hs & Hn'). { simpl. by rewrite lookup_insert_eq. } { apply Forall_app. split; [apply zeroed_replicate|done]. }
  exists p'. split; [done|]. split; [etrans; [apply quiet_write|done]|]. split; [|done]. rewrite Hh. simpl. by rewrite delete_insert_eq.
Qed.

Lemma Secret_drop_runs s l p : p.(heap) !! s = Some (OwnRust, Buf l) →
  ∃ p', Secret_drop s p = (Ok tt, p') ∧ quiet p p' ∧ p'.(heap) = delete s p.(heap) ∧ p'.(sys) = p.(sys) ∧ p'.(next_block) = p.(next_block).
Proof.
  intros H. unfold Secret_drop. erewrite run_bind_ok by (eapply deref_runs; done). cbv beta.
  apply (scrub_release OwnRust s l); [done|lia|]. rewrite drop_all. constructor.
Qed.

(** The secret in [a] says [v]. *)
Definition secret_is (h : Heap) (a : option Secret) (v : option bytes) : Prop :=
  match a, v with
  | None, None => True
  | Some s, Some b => h !! s = Some (OwnRust, Buf b)
  | _, _ => False
  end.
(** Answers with the bytes in them, each in a buffer of its own. *)
Definition secrets (h : Heap) (l : Answers) (vs : list (option bytes)) : Prop :=
  Forall2 (secret_is h) l vs ∧ NoDup (addrs l).

Lemma secrets_mono h h' l vs : secrets h l vs → (∀ a, a ∈ addrs l → h' !! a = h !! a) → secrets h' l vs.
Proof.
  intros [H Hn] Hh. split; [|done]. clear Hn. induction H as [|a v l vs Ha H IH]; constructor.
  - destruct a as [s|], v; simpl in *; try done. rewrite Hh by (left). done.
  - apply IH. intros b Hb. apply Hh. destruct a; simpl; [by right|done].
Qed.

Lemma secrets_some h s l v vs : secrets h (Some s :: l) (v :: vs) → ∃ b, v = Some b ∧ h !! s = Some (OwnRust, Buf b) ∧
  (s ∉ addrs l) ∧ secrets h l vs.
Proof. intros [H Hn]. apply Forall2_cons in H as [Hs H]. destruct v as [b|]; [|done]. simpl in Hn. apply NoDup_cons in Hn as [??]. by exists b. Qed.

Lemma secrets_there h l vs b : secrets h l vs → b ∈ addrs l → is_Some (h !! b).
Proof.
  intros [H _] Hb. induction H as [|[s|] v l vs Hv H IH]; simpl in *; [by apply elem_of_nil in Hb| |by apply IH].
  apply elem_of_cons in Hb as [->|Hb]; [|by apply IH]. destruct v; [|done]. eauto.
Qed.

Lemma secrets_none h l v vs : secrets h (None :: l) (v :: vs) → v = None ∧ secrets h l vs.
Proof. intros [H Hn]. apply Forall2_cons in H as [Hs H]. by destruct v. Qed.

Lemma drop_answers_runs l : ∀ vs p, secrets p.(heap) l vs → ∃ p',
  drop_answers l p = (Ok tt, p') ∧ quiet p p' ∧ p'.(heap) = purge p.(heap) (addrs l) ∧ p'.(sys) = p.(sys) ∧ p'.(next_block) = p.(next_block).
Proof.
  induction l as [|a l IH]; intros vs p Hs; [by exists p|]. destruct vs as [|v vs]; [by destruct Hs as [H _]; inversion H|].
  destruct a as [s|].
  - apply secrets_some in Hs as (b & -> & Hb & Hn & Hs). simpl. destruct (Secret_drop_runs s b p Hb) as (p1 & H1 & Q1 & E1 & S1 & N1).
    step_ok. destruct (IH vs p1) as (p2 & H2 & Q2 & E2 & S2 & N2).
    { eapply secrets_mono; [done|]. intros a Ha. rewrite E1. apply lookup_delete_ne. set_solver. }
    exists p2. split; [done|]. split; [by etrans|]. split; [|split; congruence]. rewrite E2, E1. fold (purge p.(heap) (addrs l)). symmetry. apply (purge_cons _ s).
  - apply secrets_none in Hs as [-> Hs]. destruct (IH vs p Hs) as (p2 & H2 & Q2 & E2). by exists p2.
Qed.
End Mem.

(** Answers on their way to a module: an application's buffers become secrets, and
    secrets become an array in C, which is given back if it cannot be finished
    and which a module reads and frees if it can. *)

Section Responses.
Context {W U : Type} {pam : Libpam W U}.
Implicit Types p : Proc W U.

(** ** Making secrets *)
(** What an application's answers say. *)
Definition values (l : list (option (bytes * bytes))) : list (option bytes) := map (option_map fst) l.

Lemma make_secret b spare p : fresh_ok p → ∃ s p',
  (src ← new_block OwnRust (Buf (b ++ spare)); Secret_new src (length b)) p = (Ok s, p') ∧ quiet p p' ∧ fresh_ok p' ∧
  p'.(heap) = <[s := (OwnRust, Buf b)]> p.(heap) ∧ p.(heap) !! s = None ∧ p'.(sys) = p.(sys).
Proof.
  intros Hf. destruct (new_block_runs OwnRust (Buf (b ++ spare)) p Hf) as (p1 & H1 & Q1 & E1 & F1 & S1). step_ok.
  set (a := p.(next_block)) in *. assert (p1.(heap) !! a = Some (OwnRust, Buf (b ++ spare))) as Ha by (rewrite E1; apply lookup_insert_eq).
  assert (p.(heap) !! a = None) as Hn by (apply (f_heap p Hf); done).
  unfold Secret_new. erewrite run_bind_ok by (eapply deref_runs; done). cbv beta. case_decide as Hl.
  - exists a, p1. rewrite length_app in Hl. assert (spare = []) as -> by (apply nil_length_inv; lia). rewrite app_nil_r in E1. done.
  - rewrite take_app_length. destruct (new_block_runs OwnRust (Buf b) p1 F1) as (p2 & H2 & Q2 & E2 & F2 & S2). step_ok.
    set (s := p1.(next_block)) in *. assert (p1.(heap) !! s = None) as Hs by (apply (f_heap p1 F1); done).
    assert (a ≠ s) as Has by congruence.
    destruct (scrub_release OwnRust a (b ++ spare) (length (b ++ spare)) p2) as (p3 & H3 & Q3 & E3 & S3 & N3).
    { rewrite E2, lookup_insert_ne by done. done. } { done. } { rewrite drop_all. constructor. }
    exists s, p3. unfold mbind, St_bind in H3 |- *. destruct (scrub a _ p2) as [[]]; [|done|done]. rewrite H3.
    split; [done|]. assert (p3.(heap) = <[s := (OwnRust, Buf b)]> p.(heap)) as Eh.
    { rewrite E3, E2, E1, delete_insert_ne by done. by rewrite delete_insert_id by done. }
    split; [by do 2 etrans|]. split; [|split; [done|]].
    + apply (fresh_quiet p2); [done|done|]. intros x Hx. rewrite E3. apply lookup_delete_None. right. apply (f_heap p2 F2). lia.
    + split; [|congruence]. rewrite E1, lookup_insert_ne in Hs by done. done.
Qed.

Lemma make_answers_runs l : ∀ p, fresh_ok p → ∃ ans p',
  make_answers l p = (Ok ans, p') ∧ quiet p p' ∧ fresh_ok p' ∧ secrets p'.(heap) ans (values l) ∧
  grown p.(heap) p'.(heap) (addrs ans) ∧ p'.(sys) = p.(sys).
Proof.
  induction l as [|[[b spare]|] l IH]; intros p Hf.
  - exists [], p. split; [done|]. split; [done|]. split; [done|]. split; [split; constructor|]. split; [apply grown_nil|done].
  - destruct (make_secret b spare p Hf) as (s & p1 & H1 & Q1 & F1 & E1 & N1 & S1).
    destruct (IH p1 F1) as (ans & p2 & H2 & Q2 & F2 & Hs & Hg & S2). exists (Some s :: ans), p2.
    cbn [make_answers]. unfold mbind, St_bind in H1 |- *. destruct (new_block _ _ p) as [[src| |] p0]; [|done|done]. rewrite H1, H2.
    assert (s ∉ addrs ans) as Hns. { intros Hin. apply Hg in Hin. rewrite E1, lookup_insert_eq in Hin. done. }
    split; [done|]. split; [by etrans|]. split; [done|]. split; [|split; [|congruence]].
    + destruct Hs as [Hs Hd]. split; [|simpl; by constructor]. constructor; [|done]. simpl. destruct Hg as [Hg _]. rewrite Hg by done.
      rewrite E1. apply lookup_insert_eq.
    + simpl. destruct Hg as [G1 G2]. split.
      * intros a Ha. rewrite G1 by set_solver. rewrite E1. apply lookup_insert_ne. set_solver.
      * intros a [->|Ha]%elem_of_cons; [done|]. specialize (G2 a Ha). rewrite E1 in G2. apply lookup_insert_None in G2. by destruct G2.
  - destruct (IH p Hf) as (ans & p2 & H2 & Q2 & F2 & Hs & Hg & S2). exists (None :: ans), p2.
    cbn [make_answers]. step_ok. split; [done|]. split; [done|]. split; [done|]. split; [|done].
    destruct Hs as [Hs Hd]. split; [by constructor|done].
Qed.

(** ** Arrays of responses *)
(** A response holds the string of an answer, in a buffer of C's. *)
Definition resp_is (h : Heap) (r : pam_response) (v : option bytes) : Prop :=
  r.(resp_retcode) = 0 ∧
  match r.(resp), v with
  | None, None => True
  | Some q, Some b => h !! q = Some (OwnC, Buf (b ++ [x00])) ∧ x00 ∉ b
  | _, _ => False
  end.
(** An array of them, each string in a buffer of its own. *)
Definition array_is (h : Heap) (array : Z) (l : list pam_response) (vs : list (option bytes)) : Prop :=
  h !! array = Some (OwnC, Array l) ∧ Forall2 (resp_is h) l vs ∧ NoDup (array :: omap resp l).

Lemma resps_mono h h' l vs : Forall2 (resp_is h) l vs → (∀ a, a ∈ omap resp l → h' !! a = h !! a) → Forall2 (resp_is h') l vs.
Proof.
  intros H Hh. induction H as [|r v l vs [Hr0 Hr] H IH]; constructor.
  - split; [done|]. destruct r as [[q|] rc], v; simpl in *; try done. rewrite Hh by left. done.
  - apply IH. intros b Hb. apply Hh. destruct r as [[q|] rc]; simpl; [by right|done].
Qed.

Lemma resps_fresh h l vs q : Forall2 (resp_is h) l vs → h !! q = None → q ∉ omap resp l.
Proof.
  intros Hl Hq. induction Hl as [|r v l vs [_ Hr] Hl IH]; [apply not_elem_of_nil|]. destruct r as [[q'|] rc]; simpl in *; [|done].
  destruct v; [|done]. destruct Hr. intros [<-|Hin]%elem_of_cons; [congruence|done].
Qed.

Lemma fresh_write p a x y : fresh_ok p → p.(heap) !! a = Some x → fresh_ok (set_heap (<[a := y]> p.(heap)) p).
Proof.
  intros Hf Ha. apply (fresh_quiet p); [done|apply quiet_write|]. intros b Hlt. simpl. rewrite lookup_insert_ne; [by apply (f_heap p Hf)|].
  intros <-. by rewrite (f_heap p Hf) in Ha.
Qed.

(** The strings are given back one by one. *)
Lemma free_each_runs array pre l : ∀ vs p, p.(heap) !! array = Some (OwnC, Array (pre ++ l)) →
  Forall2 (resp_is p.(heap)) l vs → NoDup (array :: omap resp l) → ∃ p',
  free_each array (seq (length pre) (length l)) p = (Ok tt, p') ∧ quiet p p' ∧ p'.(heap) = purge p.(heap) (omap resp l) ∧
  p'.(sys) = p.(sys) ∧ p'.(next_block) = p.(next_block).
Proof.
  revert pre. induction l as [|r l IH]; intros pre vs p Ha Hl Hn; [by exists p|]. apply Forall2_cons_inv_l in Hl as (v & vs' & [_ Hr] & Hl & ->).
  cbn [length seq free_each]. unfold array_at. erewrite run_bind_ok.
  2:{ erewrite run_bind_ok by (eapply deref_runs; done). cbv beta. unfold lift. by rewrite list_lookup_middle. }
  cbv beta. assert (pre ++ r :: l = (pre ++ [r]) ++ l) as Hpre by by rewrite <- app_assoc.
  assert (S (length pre) = length (pre ++ [r])) as Hlen by (rewrite length_app; simpl; lia). rewrite Hlen.
  destruct r as [[q|] rc]; cbn [resp] in *.
  - destruct v as [b|]; [|done]. destruct Hr as [Hq Hb]. simpl in Hn.
    apply NoDup_cons in Hn as [Hn1 Hn]. apply NoDup_cons in Hn as [Hn2 Hn].
    erewrite run_bind_ok by (eapply deref_runs; done). cbv beta. rewrite (strlen_app b Hb). cbn [ok_or]. rewrite run_lift.
    destruct (scrub_release OwnC q (b ++ [x00]) (length b) p) as (p1 & H1 & Q1 & E1 & S1 & N1); [done| | |].
    { rewrite length_app. lia. } { rewrite drop_app_length. by repeat constructor. }
    unfold mbind, St_bind in H1 |- *. destruct (scrub q _ p) as [[u| |] p0]; [|done|done]. rewrite H1.
    destruct (IH (pre ++ [mkResponse (Some q) rc]) vs' p1) as (p2 & H2 & Q2 & E2 & S2 & N2).
    { rewrite E1, lookup_delete_ne by set_solver. by rewrite <- Hpre. }
    { eapply resps_mono; [done|]. intros a Hin. rewrite E1. apply lookup_delete_ne. set_solver. }
    { apply NoDup_cons. split; [set_solver|done]. }
    exists p2. split; [done|]. split; [by etrans|]. split; [|split; congruence]. rewrite E2, E1. symmetry. apply purge_cons.
  - destruct v; [done|]. destruct (IH (pre ++ [mkResponse None rc]) vs' p) as (p2 & ?); [by rewrite <- Hpre|done|done|]. by exists p2.
Qed.

Lemma free_responses_runs array l vs p : array_is p.(heap) array l vs → ∃ p',
  free_responses array (length l) p = (Ok tt, p') ∧ quiet p p' ∧ p'.(heap) = purge p.(heap) (array :: omap resp l) ∧
  p'.(sys) = p.(sys) ∧ p'.(next_block) = p.(next_block).
Proof.
  intros (Ha & Hl & Hn). unfold free_responses. destruct (free_each_runs array [] l vs p Ha Hl Hn) as (p1 & H1 & Q1 & E1 & S1 & N1).
  cbn [length] in H1. step_ok. apply NoDup_cons in Hn as [Hna Hn].
  destruct (release_runs OwnC array (Array l) p1) as (p2 & H2 & Q2 & E2 & S2 & N2); [|done|].
  { rewrite E1, lookup_purge. by rewrite decide_False. }
  exists p2. split; [done|]. split; [by etrans|]. split; [|split; congruence]. by rewrite E2, E1.
Qed.

(** A module reads an array and frees it. *)
Lemma module_takes_each_runs array l : ∀ vs p, Forall2 (resp_is p.(heap)) l vs → NoDup (array :: omap resp l) → ∃ p',
  module_takes_each l p = (Ok ((λ v, (v, 0)) <$> vs), p') ∧ quiet p p' ∧ p'.(heap) = purge p.(heap) (omap resp l) ∧
  p'.(sys) = p.(sys) ∧ p'.(next_block) = p.(next_block) ∧ p'.(released) = p.(released).
Proof.
  induction l as [|r l IH]; intros vs p Hl Hn; [apply Forall2_nil_inv_l in Hl as ->; by exists p|].
  apply Forall2_cons_inv_l in Hl as (v & vs' & [Hr0 Hr] & Hl & ->). cbn [module_takes_each].
  destruct r as [[q|] rc]; cbn [resp resp_retcode] in *; subst rc.
  - destruct v as [b|]; [|done]. destruct Hr as [Hq Hb]. simpl in Hn.
    apply NoDup_cons in Hn as [Hn1 Hn]. apply NoDup_cons in Hn as [Hn2 Hn].
    assert ((b0 ← deref as_buf q; n ← lift (ok_or (strlen b0) Undefined); take_block OwnC q;; mret (Some (take n b0))) p
      = (Ok (Some b), set_heap (delete q p.(heap)) p)) as Ht.
    { erewrite run_bind_ok by (eapply deref_runs; done). cbv beta. rewrite (strlen_app b Hb). cbn [ok_or]. rewrite run_lift.
      erewrite run_bind_ok by (by apply take_block_runs). cbv beta. by rewrite take_app_length. }
    rewrite (run_bind_ok _ _ _ _ _ Ht).
    destruct (IH vs' (set_heap (delete q p.(heap)) p)) as (p2 & H2 & Q2 & E2 & S2 & N2 & R2).
    { eapply resps_mono; [done|]. intros a Hin. simpl. apply lookup_delete_ne. set_solver. }
    { apply NoDup_cons. split; [set_solver|done]. }
    step_ok. exists p2. split; [done|]. split; [etrans; [apply quiet_write|done]|]. split; [|done]. rewrite E2. symmetry. apply purge_cons.
  - destruct v; [done|]. rewrite (run_bind_ok _ _ _ _ _ (run_ret _ _)). destruct (IH vs' p) as (p2 & H2 & ?); [done|done|].
    step_ok. by exists p2.
Qed.

Lemma module_takes_runs array l vs p : array_is p.(heap) array l vs → ∃ p',
  module_takes array p = (Ok ((λ v, (v, 0)) <$> vs), p') ∧ quiet p p' ∧ p'.(heap) = purge p.(heap) (array :: omap resp l) ∧
  p'.(sys) = p.(sys) ∧ p'.(next_block) = p.(next_block) ∧ p'.(released) = p.(released).
Proof.
  intros (Ha & Hl & Hn). unfold module_takes. erewrite run_bind_ok by (eapply deref_runs; done). cbv beta.
  destruct (module_takes_each_runs array l vs p Hl Hn) as (p1 & H1 & Q1 & E1 & S1 & N1 & R1). step_ok.
  apply NoDup_cons in Hn as [Hna Hn]. erewrite run_bind_ok.
  2:{ apply (take_block_runs _ _ (Array l)). rewrite E1, lookup_purge. by rewrite decide_False. }
  eexists. split; [reflexivity|]. split; [etrans; [done|apply quiet_write]|]. split; [|done]. simpl. by rewrite E1.
Qed.
(** ** Building an array *)
Lemma libc_alloc_runs size d p : fresh_ok p → ∃ p', quiet p p' ∧ fresh_ok p' ∧ p'.(sys) = (has_memory (U:=U) size p.(sys)).2 ∧
  if (has_memory (U:=U) size p.(sys)).1
  then libc_alloc size d p = (Ok (Some p.(next_block)), p') ∧ p'.(heap) = <[p.(next_block) := (OwnC, d)]> p.(heap)
  else libc_alloc size d p = (Ok None, p') ∧ p'.(heap) = p.(heap).
Proof.
  intros Hf. unfold libc_alloc.
  assert (sys_call (has_memory (U:=U) size) p = (Ok (has_memory (U:=U) size p.(sys)).1, set_sys (has_memory (U:=U) size p.(sys)).2 p)) as Hsys
    by (unfold sys_call; by destruct (has_memory _ _)).
  rewrite (run_bind_ok _ _ _ _ _ Hsys). clear Hsys.
  destruct (has_memory (U:=U) size p.(sys)) as [b w]. simpl.
  assert (quiet p (set_sys w p)) as Q1. { split; simpl; try done. exists []; by rewrite app_nil_r. }
  assert (fresh_ok (set_sys w p)) as F1. { apply (fresh_quiet p); [done|done|apply (f_heap p Hf)]. }
  destruct b.
  - destruct (new_block_runs OwnC d (set_sys w p) F1) as (p2 & H2 & Q2 & E2 & F2 & S2). exists p2. split; [by etrans|]. split; [done|].
    split; [done|]. split; [by step_ok|done].
  - by exists (set_sys w p).
Qed.

Definition null_response : pam_response := mkResponse None 0.

Lemma null_resps h n : Forall2 (resp_is h) (replicate n null_response) (replicate n None).
Proof. induction n; constructor; [by split|done]. Qed.

Lemma null_addrs n : omap resp (replicate n null_response) = [].
Proof. by induction n. Qed.

(** What becomes of building one: the strings are checked and made in turn. *)
Fixpoint fill_spec (vs : list (option bytes)) (w : W) : Outcome unit PamError * W :=
  match vs with
  | [] => (Ok tt, w)
  | None :: vs => fill_spec vs w
  | Some b :: vs =>
      if decide (x00 ∈ b) then (Err NulByte, w)
      else let '(enough, w) := has_memory (U:=U) (len b + 1) w in
           if enough : bool then fill_spec vs w else (Err (Pam BufErr), w)
  end.
Definition build_spec (vs : list (option bytes)) (w : W) : Outcome unit PamError * W :=
  let '(enough, w) := has_memory (U:=U) (len vs * SIZE_OF_RESPONSE) w in
  if enough : bool then fill_spec vs w else (Err (Pam BufErr), w).

(** The end of building one from the heap [h0]. *)
Definition built_from (h0 : Heap) (p : Proc W U) (vs : list (option bytes)) (spec : Outcome unit PamError * W)
    (r : Outcome Z PamExit) (p' : Proc W U) : Prop :=
  quiet p p' ∧ fresh_ok p' ∧ p'.(sys) = spec.2 ∧
  match spec.1 with
  | Ok _ => ∃ array l, r = Ok array ∧ array_is p'.(heap) array l vs ∧ grown h0 p'.(heap) (array :: omap resp l)
  | Err e => r = Err (Fail e) ∧ p'.(heap) = h0
  | Stop _ => False
  end.

(** A half-built array is given back. *)
Lemma abandon_array array h0 p built vs n e :
  fresh_ok p → array_is p.(heap) array (built ++ replicate n null_response) vs → grown h0 p.(heap) (array :: omap resp built) →
  ∃ p', (free_responses array (length built + n);; throw e : App W U Z) p = (Err (Fail e), p') ∧ quiet p p' ∧ fresh_ok p' ∧ p'.(heap) = h0 ∧ p'.(sys) = p.(sys).
Proof.
  intros Hf Ha Hg. destruct (free_responses_runs array (built ++ replicate n null_response) vs p Ha) as (p' & H1 & Q1 & E1 & S1 & N1).
  rewrite length_app, length_replicate in H1. exists p'. step_ok.
  assert (p'.(heap) = h0) as Eh. { rewrite E1, omap_app, null_addrs, app_nil_r. by apply purge_grown. }
  split; [done|]. split; [done|]. split; [|done].
  apply (fresh_quiet p); [done|done|]. intros a Hlt. rewrite E1, lookup_purge. case_decide; [done|]. apply (f_heap p Hf). lia.
Qed.

Lemma insert_built (built : list pam_response) r n :
  <[length built := r]> (built ++ null_response :: replicate n null_response) = (built ++ [r]) ++ replicate n null_response.
Proof. rewrite insert_app_r_alt by done. by rewrite Nat.sub_diag, <- app_assoc. Qed.

Lemma fill_runs array ans : ∀ h0 built vs0 vs p,
  fresh_ok p → secrets h0 ans vs → grown h0 p.(heap) (array :: omap resp built) →
  array_is p.(heap) array (built ++ replicate (length ans) null_response) (vs0 ++ replicate (length ans) None) →
  length built = length vs0 →
  ∃ r p', fill_responses array (length built + length ans) (length built) ans p = (r, p') ∧
    built_from h0 p (vs0 ++ vs) (fill_spec vs p.(sys)) r p'.
Proof.
  induction ans as [|[s|] ans IH]; intros h0 built vs0 vs p Hf Hs Hg Ha Hlen.
  - destruct Hs as [Hs _]. apply Forall2_nil_inv_l in Hs as ->. exists (Ok array), p. split; [done|]. split; [done|]. split; [done|]. split; [done|].
    simpl in Ha. rewrite !app_nil_r in Ha. rewrite app_nil_r. by exists array, built.
  - destruct vs as [|v vs]; [by destruct Hs as [H _]; inversion H|]. apply secrets_some in Hs as (b & -> & Hb & Hns & Hs).
    cbn [fill_responses]. unfold Secret_as_bytes.
    assert (p.(heap) !! s = Some (OwnRust, Buf b)) as Hbp. { destruct Hg as [G1 G2]. rewrite G1; [done|]. intros Hin. by rewrite G2 in Hb. }
    erewrite run_bind_ok by (eapply deref_runs; done). cbv beta. case_decide as Hnul.
    { destruct (abandon_array array h0 p built _ (length (Some s :: ans)) NulByte Hf Ha Hg) as (p' & H1 & Q1 & F1 & E1 & S1).
      rewrite H1. eexists _, p'. split; [done|]. cbn [fill_spec]. rewrite decide_True by done. done. }
    cbn [fill_spec]. rewrite decide_False by done.
    destruct (libc_alloc_runs (len b + 1) (Buf (b ++ [x00])) p Hf) as (p1 & Q1 & F1 & S1 & H1).
    destruct (has_memory (U:=U) (len b + 1) p.(sys)) as [[|] w1] eqn:Hmem; simpl in S1, H1; destruct H1 as [H1 E1]; step_ok.
    2:{ destruct (abandon_array array h0 p1 built (vs0 ++ replicate (length (Some s :: ans)) None) (length (Some s :: ans)) (Pam BufErr) F1) as (p' & H2 & Q2 & F2 & E2 & S2);
          [by rewrite E1|by rewrite E1|].
        rewrite H2. eexists _, p'. split; [done|]. split; [by etrans|]. split; [done|]. split; [|done]. simpl. congruence. }
    set (q := p.(next_block)) in *. assert (p.(heap) !! q = None) as Hq by (apply (f_heap p Hf); done).
    destruct Ha as (Ha & Hl & Hn). assert (array ≠ q) as Haq by congruence.
    assert (p1.(heap) !! array = Some (OwnC, Array (built ++ replicate (S (length ans)) null_response))) as Ha1
      by (rewrite E1, lookup_insert_ne by done; done).
    erewrite run_bind_ok by (eapply deref_runs; [exact Ha1|done]). cbv beta.
    cbn [replicate]. rewrite (list_lookup_middle built _ _ _ eq_refl). cbn [ok_or]. rewrite run_lift. change (resp_retcode null_response) with 0.
    erewrite run_bind_ok by (by eapply write_runs). cbv beta. rewrite (insert_built built (mkResponse (Some q) 0) (length ans)).
    set (p2 := set_heap _ p1). assert (quiet p1 p2) as Q2 by apply quiet_write.
    assert (fresh_ok p2) as F2 by (by eapply fresh_write).
    replace (length built + length (Some s :: ans))%nat with (length (built ++ [mkResponse (Some q) 0]) + length ans)%nat by (rewrite length_app; simpl; lia).
    replace (S (length built)) with (length (built ++ [mkResponse (Some q) 0])) by (rewrite length_app; simpl; lia).
    assert (q ∉ omap resp built) as Hqb by (apply Forall2_app_inv in Hl as [Hl _]; [by eapply resps_fresh|done]).
    destruct (IH h0 (built ++ [mkResponse (Some q) 0]) (vs0 ++ [Some b]) vs p2 F2 Hs) as (r & p3 & H3 & Q3 & F3 & H4).
    + rewrite omap_app. cbn [omap list_omap resp]. apply (grown_perm _ _ (q :: array :: omap resp built)); [|set_solver].
      simpl. rewrite E1. apply grown_write; [|set_solver]. by apply grown_insert.
    + split; [simpl; by rewrite lookup_insert_eq|]. rewrite !omap_app, null_addrs in Hn |- *. cbn [omap list_omap resp]. rewrite app_nil_r in Hn |- *.
      apply NoDup_cons in Hn as [Hn1 Hn2]. split.
      * apply Forall2_app_inv in Hl as [Hl _]; [|done]. apply Forall2_app; [apply Forall2_app|apply null_resps].
        -- eapply resps_mono; [done|]. intros a Hin. simpl. rewrite E1, !lookup_insert_ne by (intros ->; set_solver). done.
        -- constructor; [|done]. split; [done|]. simpl. rewrite E1, lookup_insert_ne by done. rewrite lookup_insert_eq. done.
      * rewrite omap_app. cbn [omap list_omap resp]. apply NoDup_cons. split; [set_solver|]. apply NoDup_app. split; [done|]. split; [set_solver|]. apply NoDup_singleton.
    + rewrite !length_app. simpl. lia.
    + exists r, p3. rewrite <- app_assoc in H4. split; [done|]. split; [by do 2 etrans|]. split; [done|]. by rewrite <- S1.
  - destruct vs as [|v vs]; [by destruct Hs as [H _]; inversion H|]. apply secrets_none in Hs as [-> Hs]. cbn [fill_responses].
    replace (length built + length (None :: ans))%nat with (length (built ++ [null_response]) + length ans)%nat by (rewrite length_app; simpl; lia).
    replace (S (length built)) with (length (built ++ [null_response])) by (rewrite length_app; simpl; lia).
    destruct (IH h0 (built ++ [null_response]) (vs0 ++ [None]) vs p Hf Hs) as (r & p3 & H3 & H4).
    + by rewrite omap_app, app_nil_r.
    + rewrite <- !app_assoc. exact Ha.
    + rewrite !length_app. simpl. lia.
    + exists r, p3. rewrite <- app_assoc in H4. done.
Qed.

Lemma responses_runs ans vs p : fresh_ok p → secrets p.(heap) ans vs →
  ∃ r p', responses_to_c ans p = (r, p') ∧ built_from p.(heap) p vs (build_spec vs p.(sys)) r p'.
Proof.
  intros Hf Hs. unfold responses_to_c, build_spec. assert (length ans = length vs) as Hlen by (by destruct Hs as [H _]; apply Forall2_length in H).
  destruct (libc_alloc_runs (Z.of_nat (length ans) * SIZE_OF_RESPONSE) (Array (replicate (length ans) (mkResponse None 0))) p Hf) as (p1 & Q1 & F1 & S1 & H1).
  rewrite <- Hlen. destruct (has_memory (U:=U) _ p.(sys)) as [[|] w1] eqn:Hmem; simpl in S1, H1; destruct H1 as [H1 E1]; step_ok.
  2:{ by eexists _, p1. }
  set (q := p.(next_block)) in *. assert (p.(heap) !! q = None) as Hq by (apply (f_heap p Hf); done).
  destruct (fill_runs q ans p.(heap) [] [] vs p1 F1 Hs) as (r & p2 & H2 & Q2 & F2 & H3).
  - rewrite E1. apply grown_insert; [apply grown_nil|done].
  - rewrite E1. split; [simpl; by rewrite lookup_insert_eq|]. split; [apply null_resps|]. simpl. rewrite null_addrs. apply NoDup_singleton.
  - done.
  - exists r, p2. split; [done|]. split; [by etrans|]. split; [done|]. by rewrite <- S1.
Qed.
End Responses.
