(* ===== verification/PamTalk.v ===== *)
(** What a call of libpam comes to, as a function of what the modules ask and the
    conversation says, without memory and without channels; and that the crate's
    callback carries it out. *)
From S2P Require Import Prelude XdrBase Utf8 PamError Pam PamConv PamMem.
Local Open Scope Z_scope.

(** ** The specification *)
(** What a module's call of the conversation is: not a question, one that cannot
    be read, or a round of messages.  [Overrun] is an array that is shorter than
    the module says. *)
Inductive Question : Type := Skipped | Unreadable (e : PamError) | Asked (ms : list Message) | Overrun.

Definition question (num_msg : Z) (messages : option (list (option pam_message))) (place : bool) : Question :=
  match messages, place with
  | Some l, true =>
      if (1 <=? num_msg) && (num_msg <=? PAM_MAX_NUM_MSG) then
        if decide (Z.to_nat num_msg ≤ length l)%nat then
          match read_messages (take (Z.to_nat num_msg) l) with
          | Ok ms => Asked ms
          | Err e => Unreadable e
          | Stop _ => Overrun
          end
        else Overrun
      else Skipped
  | _, _ => Skipped
  end.

(** The first failure counts. *)
Definition first (old new : option Failure) : option Failure := match old with Some _ => old | None => new end.

(** Modules that pass arrays as long as they say, whatever they are answered. *)
Inductive sane {W} : Stack W → Prop :=
| sane_return rc w : sane (Return_ rc w)
| sane_converse n l place w k :
    question n l place ≠ Overrun → (∀ rc r w', sane (k rc r w')) → sane (Converse n l place w k).

Lemma read_messages_stop l s : read_messages l ≠ Stop s.
Proof.
  induction l as [|[m|] l IH]; simpl; try done. case_match; [|done]. unfold outcome_map.
  by destruct (read_messages l).
Qed.

Section Spec.
Context {W U : Type} {pam : Libpam W U}.

(** What a conversation said; a [Stop] is a panic. *)
Abbreviation Said := (Outcome (list (option bytes)) PamError).

(** What the module gets for it: no failure and the responses, or the failure
    that is recorded. *)
Definition reply_to (count : nat) (s : Said) (w : W) : option Failure * option (list (option bytes * Z)) * W :=
  match s with
  | Ok vs =>
      if decide (length vs = count) then
        match build_spec (U:=U) vs w with
        | (Ok _, w) => (None, Some ((λ v, (v, 0)) <$> vs), w)
        | (Err e, w) => (Some (FailErr e), None, w)
        | (Stop _, w) => (Some FailPanic, None, w)
        end
      else (Some (FailErr (Pam ConvErr)), None, w)
  | Err e => (Some (FailErr e), None, w)
  | Stop _ => (Some FailPanic, None, w)
  end.
Definition code_of (f : option Failure) : Z := match f with None => PAM_SUCCESS | Some _ => PAM_CONV_ERR end.

(** What a conversation says to a round; a channel is let go of by its driver. *)
Definition says (c : Conversation U) (ms : list Message) (w : W) : Said * Conversation U * W :=
  match c with
  | Unattended => (Ok (replicate (length ms) None), Unattended, w)
  | Channel x => (Err Timeout, Channel x, w)
  | Custom u =>
      let '(r, u, w) := converse_custom u ms w in
      (match r with Answer l => Ok (values l) | Refuse e => Err e | Panics => Stop Panicked end, Custom u, w)
  end.

(** A whole call: the code, the slot it leaves, and the world. *)
Fixpoint talk (t : Stack W) (s : ConvSlot U) : Z * ConvSlot U * W :=
  match t with
  | Return_ rc w => (rc, s, w)
  | Converse n l place w k =>
      match question n l place with
      | Skipped | Overrun => talk (k PAM_CONV_ERR None w) s
      | Unreadable e => talk (k PAM_CONV_ERR None w) (mkSlot s.(conv) s.(log) (first s.(failure) (Some (FailErr e))))
      | Asked ms =>
          let '(said, c, w) := says s.(conv) ms w in
          let '(f, responses, w) := reply_to (Z.to_nat n) said w in
          talk (k (code_of f) responses w) (mkSlot c (s.(log) ++ [ms]) (first s.(failure) f))
      end
  end.

(** ** The callback carries it out *)
Implicit Types p : Proc W U.

(** What happens around one slot: the rest of the process is as it was, and what
    was given back was zeroed. *)
Record kept (a : Z) p p' : Prop := mkKept {
  k_slots : ∀ b, b ≠ a → p'.(slots) !! b = p.(slots) !! b;
  k_handles : p'.(handles) = p.(handles);
  k_channels : p'.(channels) = p.(channels);
  k_calls : p'.(calls) = p.(calls);
  k_next : p.(next_block) ≤ p'.(next_block);
  k_released : ∃ zs, p'.(released) = p.(released) ++ zs ∧ Forall zeroed zs
}.
#[global] Instance kept_preorder a : PreOrder (kept a).
Proof.
  split.
  - intros p. split; try done. exists []. by rewrite app_nil_r.
  - intros p1 p2 p3 [H1 ????(z1 & E1 & Hz1)] [H2 ????(z2 & E2 & Hz2)]. split; try congruence; [|lia|].
    + intros b Hb. by rewrite H2, H1.
    + exists (z1 ++ z2). rewrite E2, E1, app_assoc. split; [done|]. by apply Forall_app.
Qed.

Lemma quiet_kept a p p' : quiet p p' → kept a p p'.
Proof. intros [H ?????]. split; try done. intros b _. by rewrite H. Qed.

Lemma kept_sys a w p : kept a p (set_sys w p).
Proof. split; try done. exists []. by rewrite app_nil_r. Qed.

(** The slot [a] becomes [s]. *)
Definition put_at (a : Z) (s : ConvSlot U) p : Proc W U := set_slots (<[a := s]> p.(slots)) p.

Lemma kept_put a s p : kept a p (put_at a s p).
Proof. split; try done; [|exists []; by rewrite app_nil_r]. intros b Hb. simpl. by rewrite lookup_insert_ne. Qed.

Lemma fresh_sys w p : fresh_ok p → fresh_ok (set_sys w p).
Proof. intros [????]. by split. Qed.

Lemma fresh_put a s p : fresh_ok p → is_Some (p.(slots) !! a) → fresh_ok (put_at a s p).
Proof.
  intros [H1 H2 H3 H4] [x Hx]. split; try done. intros b Hb. simpl. rewrite lookup_insert_ne; [by apply H2|].
  intros <-. by rewrite H2 in Hx.
Qed.

Lemma the_slot_runs a s p : p.(slots) !! a = Some s → the_slot a p = (Ok s, p).
Proof. intros H. unfold the_slot. by rewrite H. Qed.

Lemma slot_fail_runs a f s p : p.(slots) !! a = Some s →
  ∃ p', slot_fail a f p = (Ok tt, p') ∧ p'.(slots) = <[a := mkSlot s.(conv) s.(log) (first s.(failure) (Some f))]> p.(slots) ∧
    p'.(heap) = p.(heap) ∧ p'.(sys) = p.(sys) ∧ kept a p p' ∧ (fresh_ok p → fresh_ok p').
Proof.
  intros H. unfold slot_fail. rewrite (run_bind_ok _ _ _ _ _ (the_slot_runs a s p H)).
  destruct s as [c lg [g|]]; simpl in *.
  - exists p. split; [done|]. split; [|done]. symmetry. by apply insert_id.
  - eexists. split; [reflexivity|]. split; [done|]. split; [done|]. split; [done|]. split; [apply kept_put|]. intros Hf. apply fresh_put; [done|eauto].
Qed.

(** *** The parts of a round *)
(** What the closure does with the answers. *)
Definition after_converse (count : nat) (ans : Answers) : Task W U Z :=
  if decide (length ans = count) then
    built ← now (caught_app (responses_to_c ans));
    now (drop_answers ans);;
    now (result built)
  else now (drop_answers ans;; throw (Pam ConvErr)).

(** What is done with the closure's result. *)
Definition after_closure (a : Z) (built : Outcome Z PamError) : Task W U (Z * option (option Z)) :=
  match built with
  | Ok array => mret (PAM_SUCCESS, Some (Some array))
  | Err e => now (slot_fail a (FailErr e));; mret (PAM_CONV_ERR, Some None)
  | Stop _ => now (slot_fail a FailPanic);; mret (PAM_CONV_ERR, Some None)
  end.
(** The module's next step. *)
Definition after_callback (hdl : Z) (k : Z → option (list (option bytes * Z)) → W → Stack W) (r : Z * option (option Z)) : Task W U Z :=
  responses ← match r.1 =? PAM_SUCCESS, r.2 with
              | true, Some (Some array) => now (l ← module_takes array; mret (Some l))
              | _, _ => mret None
              end;
  w' ← now (read_sys id);
  run_stack hdl (k r.1 responses w').
Definition after_round (hdl a : Z) (k : Z → option (list (option bytes * Z)) → W → Stack W) (built : Outcome Z PamError) : Task W U Z :=
  r ← after_closure a built; after_callback hdl k r.
(** All that follows a conversation. *)
Definition follow (hdl a : Z) (k : Z → option (list (option bytes * Z)) → W → Stack W) (count : nat) (r : Res W U Answers) : Res W U Z :=
  res_bind (after_callback hdl k) (res_bind (after_closure a) (res_caught (res_bind (after_converse count) r))).

(** What a conversation's outcome says, with its answers beside the heap [h0]. *)
Definition said_is (h0 : Heap) p (o : Outcome Answers PamExit) (s : Said) : Prop :=
  match o, s with
  | Ok ans, Ok vs => secrets p.(heap) ans vs ∧ grown h0 p.(heap) (addrs ans)
  | Err (Fail e), Err e' => e = e' ∧ p.(heap) = h0
  | Stop _, Stop _ => p.(heap) = h0
  | _, _ => False
  end.
Lemma run_now {A B} (m : App W U A) (f : A → Task W U B) p a p' : m p = (Ok a, p') → (now m ≫= f) p = f a p'.
Proof. intros H. unfold mbind, Task_bind, now. by rewrite H. Qed.

(** Answers beside the heap are given back, and leave what was built since. *)
Lemma dropped_beside h0 h ans h1 N vs : secrets h ans vs → grown h0 h (addrs ans) → grown h h1 N →
  secrets h1 ans vs ∧ grown h0 (purge h1 (addrs ans)) N ∧ (∀ a, a ∈ N → a ∉ addrs ans).
Proof.
  intros Hs [G1 G2] [N1 N2]. assert (∀ a, a ∈ addrs ans → is_Some (h !! a)) as Hsome by (intros a; by eapply secrets_there).
  assert (∀ a, a ∈ N → a ∉ addrs ans) as Hd. { intros a Ha Hin. apply Hsome in Hin as [x Hx]. by rewrite N2 in Hx. }
  split; [eapply secrets_mono; [done|]; intros a Ha; apply N1; naive_solver|]. split; [|done]. split.
  - intros a Ha. rewrite lookup_purge. case_decide; [by rewrite G2|]. rewrite N1 by done. by apply G1.
  - intros a Ha. destruct (decide (a ∈ addrs ans)); [by apply G2|]. rewrite <- G1 by done. by apply N2.
Qed.

Lemma array_purged h array l vs N : array_is h array l vs → (∀ a, a ∈ array :: omap resp l → a ∉ N) → array_is (purge h N) array l vs.
Proof.
  intros (Ha & Hl & Hn) HN. split; [rewrite lookup_purge, decide_False; [done|apply HN; left]|]. split; [|done].
  eapply resps_mono; [done|]. intros a Hin. rewrite lookup_purge, decide_False; [done|apply HN; by right].
Qed.

(** What is built of answers, as [reply_to] has it. *)
Definition reply_built (h0 : Heap) (vs : list (option bytes)) (f : option Failure) (o : Outcome Z PamExit) p' : Prop :=
  match f with
  | None => ∃ array l, o = Ok array ∧ array_is p'.(heap) array l vs ∧ grown h0 p'.(heap) (array :: omap resp l)
  | Some (FailErr e) => o = Err (Fail e) ∧ p'.(heap) = h0
  | Some FailPanic => o = Stop Panicked ∧ p'.(heap) = h0
  end.

Lemma fresh_dropped p p' N : fresh_ok p → quiet p p' → p'.(heap) = purge p.(heap) N → p'.(next_block) = p.(next_block) → fresh_ok p'.
Proof.
  intros Hf Q E Hn. apply (fresh_quiet p); [done|done|]. intros a Ha. rewrite E, lookup_purge. case_decide; [done|]. apply (f_heap p Hf). lia.
Qed.

Lemma after_converse_runs count ans vs h0 p : fresh_ok p → secrets p.(heap) ans vs → grown h0 p.(heap) (addrs ans) →
  ∃ o p', after_converse count ans p = Ret o p' ∧ quiet p p' ∧ fresh_ok p' ∧
    p'.(sys) = (reply_to count (Ok vs) p.(sys)).2 ∧ reply_built h0 vs (reply_to count (Ok vs) p.(sys)).1.1 o p'.
Proof.
  intros Hf Hs Hg. unfold after_converse, reply_to. assert (length ans = length vs) as -> by (by destruct Hs as [H _]; apply Forall2_length in H).
  case_decide as Hc.
  2:{ destruct (drop_answers_runs ans vs p Hs) as (p1 & H1 & Q1 & E1 & S1 & N1). exists (Err (Fail (Pam ConvErr))), p1.
      split; [unfold now; by step_ok|]. split; [done|]. split; [by eapply fresh_dropped|]. split; [done|]. split; [done|].
      rewrite E1. by apply purge_grown. }
  destruct (responses_runs ans vs p Hf Hs) as (r & p1 & H1 & Q1 & F1 & S1 & HB).
  assert (∀ q o, settled r = Ok o → secrets p1.(heap) ans vs → q.(heap) = purge p1.(heap) (addrs ans) → 
    drop_answers ans p1 = (Ok tt, q) →
    (built ← now (caught_app (responses_to_c ans)); now (drop_answers ans);; now (result built)) p = Ret (map_err Fail o) q) as Hrun.
  { intros q o Ho Hs1 Eq Hq. rewrite (run_now _ _ _ o p1). { rewrite (run_now _ _ _ _ _ Hq). done. } unfold caught_app. rewrite H1. by rewrite Ho. }
  destruct (build_spec (U:=U) vs p.(sys)) as [[u|e|w] w1]; simpl in *; [|destruct HB as [-> Eh]|done].
  - destruct HB as (array & l & -> & Ha & Hg1). destruct (dropped_beside h0 p.(heap) ans p1.(heap) _ vs Hs Hg Hg1) as (Hs1 & Hg2 & Hd).
    destruct (drop_answers_runs ans vs p1 Hs1) as (p2 & H2 & Q2 & E2 & S2 & N2). exists (Ok array), p2. split; [by apply (Hrun p2 (Ok array))|].
    split; [by etrans|]. split; [by eapply fresh_dropped|]. split; [congruence|]. exists array, l. split; [done|]. rewrite E2. split; [by apply array_purged|done].
  - destruct (drop_answers_runs ans vs p1 ltac:(by rewrite Eh)) as (p2 & H2 & Q2 & E2 & S2 & N2). exists (Err (Fail e)), p2.
    split; [apply (Hrun p2 (Err e)); try done; by rewrite Eh|]. split; [by etrans|]. split; [by eapply fresh_dropped|]. split; [congruence|].
    split; [done|]. rewrite E2, Eh. by apply purge_grown.
Qed.

(** The module's next step, from the reply it gets. *)
Lemma after_round_runs hdl a k s vs f o h0 p : fresh_ok p → p.(slots) !! a = Some s → reply_built h0 vs f o p →
  ∃ p' b, settled o = Ok b ∧
    after_round hdl a k b p = run_stack hdl (k (code_of f) match f with None => Some ((λ v, (v, 0)) <$> vs) | _ => None end p.(sys)) p' ∧
    fresh_ok p' ∧ p'.(heap) = h0 ∧ p'.(sys) = p.(sys) ∧ kept a p p' ∧
    p'.(slots) !! a = Some (mkSlot s.(conv) s.(log) (first s.(failure) f)).
Proof.
  intros Hf Hs HB. destruct f as [[e|]|].
  - destruct HB as [-> Eh]. destruct (slot_fail_runs a (FailErr e) s p Hs) as (p1 & H1 & E1 & Eh1 & S1 & K1 & F1). exists p1, (Err e).
    split; [done|]. split; [unfold after_round, after_closure, after_callback, mbind, Task_bind, now; cbn -[run_stack slot_fail]; rewrite H1; cbn -[run_stack]; by rewrite S1|].
    split; [auto|]. split; [congruence|]. split; [done|]. split; [done|]. rewrite E1. apply lookup_insert_eq.
  - destruct HB as [-> Eh]. destruct (slot_fail_runs a FailPanic s p Hs) as (p1 & H1 & E1 & Eh1 & S1 & K1 & F1). exists p1, (Stop Panicked).
    split; [done|]. split; [unfold after_round, after_closure, after_callback, mbind, Task_bind, now; cbn -[run_stack slot_fail]; rewrite H1; cbn -[run_stack]; by rewrite S1|].
    split; [auto|]. split; [congruence|]. split; [done|]. split; [done|]. rewrite E1. apply lookup_insert_eq.
  - destruct HB as (array & l & -> & Ha & Hg). destruct (module_takes_runs array l vs p Ha) as (p1 & H1 & Q1 & E1 & S1 & N1 & R1).
    exists p1, (Ok array). split; [done|]. split.
    { unfold after_round, after_closure, after_callback. cbn -[run_stack module_takes]. unfold mbind, Task_bind, now, read_sys. cbn -[run_stack module_takes].
      unfold mbind, St_bind. rewrite H1. cbn -[run_stack]. by rewrite S1. }
    split; [by eapply fresh_dropped|]. split; [rewrite E1; by apply purge_grown|]. split; [done|]. split; [by apply quiet_kept|].
    rewrite (q_slots _ _ Q1), Hs. by destruct s as [? ? []].
Qed.
(** A round that was answered, or refused. *)
Lemma follow_runs hdl a k count o said h0 p s : fresh_ok p → p.(slots) !! a = Some s → said_is h0 p o said →
  let '(f, responses, w) := reply_to count said p.(sys) in
  ∃ p', follow hdl a k count (Ret o p) = run_stack hdl (k (code_of f) responses w) p' ∧
    fresh_ok p' ∧ p'.(heap) = h0 ∧ p'.(sys) = w ∧ kept a p p' ∧
    p'.(slots) !! a = Some (mkSlot s.(conv) s.(log) (first s.(failure) f)).
Proof.
  intros Hf Hs Ho. destruct o as [ans|[e| |]|st], said as [vs|e'|st']; try done.
  - destruct Ho as [Hsec Hg]. destruct (after_converse_runs count ans vs h0 p Hf Hsec Hg) as (o & p1 & H1 & Q1 & F1 & S1 & HB).
    assert (p1.(slots) !! a = Some s) as Hs1 by by rewrite (q_slots _ _ Q1).
    destruct (after_round_runs hdl a k s vs _ o h0 p1 F1 Hs1 HB) as (p2 & b & Hb & H2 & F2 & E2 & S2 & K2 & L2).
    destruct (reply_to count (Ok vs) p.(sys)) as [[f responses] w] eqn:Hr. simpl in *. exists p2.
    assert (responses = match f with None => Some ((λ v, (v, 0)) <$> vs) | _ => None end) as ->.
    { unfold reply_to in Hr. case_decide; [|by simplify_eq]. by destruct (build_spec _ _) as [[]]; simplify_eq. }
    split; [|split; [done|split; [done|split; [congruence|split; [etrans; [by apply (quiet_kept a)|done]|done]]]]].
    unfold follow. cbn [res_bind]. rewrite H1. cbn [res_caught]. rewrite Hb. cbn [res_bind]. rewrite <- S1. exact H2.
  - destruct Ho as [<- Eh]. destruct (after_round_runs hdl a k s [] (Some (FailErr e)) (Err (Fail e)) h0 p Hf Hs) as (p2 & b & [= <-] & H2 & ?); [done|].
    by exists p2.
  - destruct (after_round_runs hdl a k s [] (Some FailPanic) (Stop Panicked) h0 p Hf Hs) as (p2 & b & [= <-] & H2 & ?); [done|].
    by exists p2.
Qed.

(** *** A module's step *)
Section Node.
Context (hdl a : Z) (n : Z) (l : option (list (option pam_message))) (place : bool) (w : W)
  (k : Z → option (list (option bytes * Z)) → W → Stack W) (s : ConvSlot U) (p : Proc W U)
  (Hh : p.(handles) !! hdl = Some a) (Hs : p.(slots) !! a = Some s) (Hf : fresh_ok p).

Lemma run_skipped : question n l place = Skipped →
  run_stack hdl (Converse n l place w k) p = run_stack hdl (k PAM_CONV_ERR None w) (set_sys w p).
Proof.
  intros Hq. cbn [run_stack]. unfold mbind, Task_bind, now, modify. cbn -[run_stack trampoline]. rewrite Hh.
  unfold question in Hq. unfold trampoline. destruct l as [l'|], place; try reflexivity.
  destruct ((1 <=? n) && (n <=? PAM_MAX_NUM_MSG)); [|reflexivity]. case_decide; [|done]. by destruct (read_messages _).
Qed.

Lemma run_unreadable e : question n l place = Unreadable e → ∃ p',
  run_stack hdl (Converse n l place w k) p = run_stack hdl (k PAM_CONV_ERR None w) p' ∧
  fresh_ok p' ∧ p'.(heap) = p.(heap) ∧ p'.(sys) = w ∧ kept a p p' ∧
  p'.(slots) !! a = Some (mkSlot s.(conv) s.(log) (first s.(failure) (Some (FailErr e)))).
Proof.
  intros Hq. destruct (slot_fail_runs a (FailErr e) s (set_sys w p) Hs) as (p1 & H1 & E1 & Eh1 & S1 & K1 & F1). exists p1.
  split; [|split; [by apply F1, fresh_sys|split; [done|split; [done|split; [etrans; [apply kept_sys|done]|rewrite E1; apply lookup_insert_eq]]]]].
  cbn [run_stack]. unfold mbind, Task_bind, now, modify. cbn -[run_stack trampoline]. rewrite Hh.
  unfold question in Hq. unfold trampoline. destruct l as [l'|], place; try done.
  destruct ((1 <=? n) && (n <=? PAM_MAX_NUM_MSG)); [|done]. case_decide as Hl; [|done].
  destruct (read_messages (take (Z.to_nat n) l')) as [ms|e'|] eqn:Hm; simplify_eq.
  unfold caught, round, mbind, Task_bind, now, result, lift. rewrite decide_True by done. cbn -[run_stack slot_fail read_messages]. rewrite Hm.
  cbn -[run_stack slot_fail]. rewrite H1. cbn -[run_stack]. by rewrite S1.
Qed.

Lemma round_asked l' ms : (Z.to_nat n ≤ length l')%nat → read_messages (take (Z.to_nat n) l') = Ok ms →
  round a l' (Z.to_nat n) (set_sys w p) =
  res_bind (after_converse (Z.to_nat n)) (converse a ms (put_at a (mkSlot s.(conv) (s.(log) ++ [ms]) s.(failure)) (set_sys w p))).
Proof.
  intros Hl Hm. unfold round. rewrite decide_True by done. rewrite (run_now (mret (take (Z.to_nat n) l')) _ (set_sys w p) _ (set_sys w p) eq_refl).
  rewrite (run_now _ _ _ ms (set_sys w p)) by (unfold result, lift; by rewrite Hm).
  rewrite (run_now _ _ _ tt (put_at a (mkSlot s.(conv) (s.(log) ++ [ms]) s.(failure)) (set_sys w p))); [done|].
  unfold push_log. by rewrite (run_bind_ok _ _ _ _ _ (the_slot_runs a s (set_sys w p) Hs)).
Qed.

Lemma run_asked ms : question n l place = Asked ms →
  run_stack hdl (Converse n l place w k) p =
  follow hdl a k (Z.to_nat n) (converse a ms (put_at a (mkSlot s.(conv) (s.(log) ++ [ms]) s.(failure)) (set_sys w p))).
Proof.
  intros Hq. cbn [run_stack]. rewrite (run_now (modify (set_sys w)) _ p tt (set_sys w p) eq_refl).
  rewrite (run_now (λ p0, (Ok (p0.(handles) !! hdl), p0)) _ (set_sys w p) (Some a) (set_sys w p)) by (simpl; by rewrite Hh).
  unfold question in Hq. unfold trampoline. destruct l as [l'|], place; try done.
  destruct ((1 <=? n) && (n <=? PAM_MAX_NUM_MSG)); [|done]. case_decide as Hl; [|done].
  destruct (read_messages (take (Z.to_nat n) l')) as [ms'|e'|] eqn:Hm; simplify_eq.
  unfold mbind, Task_bind, caught. rewrite (round_asked l' ms Hl Hm). reflexivity.
Qed.
End Node.

(** *** The conversations *)
Definition channel_free (c : Conversation U) : Prop := match c with Channel _ => False | _ => True end.

Lemma custom_says a u ms s p : p.(slots) !! a = Some s → s.(conv) = Custom u → fresh_ok p →
  let '(said, c, w) := says (Custom u) ms p.(sys) in
  ∃ o p', Custom_converse a u ms p = (o, p') ∧ said_is p.(heap) p' o said ∧ fresh_ok p' ∧ p'.(sys) = w ∧ kept a p p' ∧
    p'.(slots) !! a = Some (mkSlot c s.(log) s.(failure)).
Proof.
  intros Hs Hc Hf. unfold says, Custom_converse. destruct (converse_custom u ms p.(sys)) as [[r u'] w] eqn:Hr.
  assert (sys_call (converse_custom u ms) p = (Ok (r, u'), set_sys w p)) as Hsys by (unfold sys_call; by rewrite Hr).
  rewrite (run_bind_ok _ _ _ _ _ Hsys). rewrite (run_bind_ok _ _ _ _ _ (the_slot_runs a s (set_sys w p) Hs)).
  set (p1 := put_at a (mkSlot (Custom u') s.(log) s.(failure)) (set_sys w p)).
  rewrite (run_bind_ok (put_slot a _) _ _ tt p1 eq_refl). simpl. assert (fresh_ok p1) as F1 by (apply fresh_put; [by apply fresh_sys|eauto]).
  assert (p1.(slots) !! a = Some (mkSlot (Custom u') s.(log) s.(failure))) as L1 by (simpl; by rewrite lookup_insert_eq).
  assert (kept a p p1) as K1 by (etrans; [apply kept_sys|apply kept_put]).
  destruct r as [l|e|]; [|by eexists _, p1|by eexists _, p1].
  destruct (make_answers_runs l p1 F1) as (ans & p2 & H2 & Q2 & F2 & Hsec & Hg & S2). exists (Ok ans), p2.
  split; [done|]. split; [done|]. split; [done|]. split; [done|]. split; [etrans; [done|by apply quiet_kept]|]. by rewrite (q_slots _ _ Q2).
Qed.

Lemma unattended_secrets h ms : secrets h (Unattended_converse ms) (replicate (length ms) None) ∧ grown h h (addrs (Unattended_converse ms)).
Proof.
  assert (addrs (Unattended_converse ms) = []) as E by (by induction ms). rewrite E. split; [|apply grown_nil].
  split; [|rewrite E; constructor]. clear E. induction ms as [|m ms IH]; [constructor|]. by apply Forall2_cons.
Qed.

(** What a conversation says is what [says] has: at once, or as a driver that let
    go makes it. *)
Lemma converse_says a ms s p : p.(slots) !! a = Some s → fresh_ok p →
  let '(said, c, w) := says s.(conv) ms p.(sys) in
  ∃ o p', said_is p.(heap) p' o said ∧ fresh_ok p' ∧ p'.(sys) = w ∧ kept a p p' ∧
    p'.(slots) !! a = Some (mkSlot c s.(log) s.(failure)) ∧
    (channel_free s.(conv) → converse a ms p = Ret o p') ∧
    (∀ hdl k count, cancelled (follow hdl a k count (converse a ms p)) = cancelled (follow hdl a k count (Ret o p'))).
Proof.
  intros Hs Hf. unfold converse. rewrite (run_now _ _ _ _ _ (the_slot_runs a s p Hs)). destruct s as [[|x|u] lg fl]; cbn [conv] in *.
  - destruct (unattended_secrets p.(heap) ms). by exists (Ok (Unattended_converse ms)), p.
  - exists (Err (Fail Timeout)), p. split; [done|]. split; [done|]. split; [done|]. split; [done|]. split; [done|]. split; [done|]. done.
  - pose proof (custom_says a u ms _ p Hs eq_refl Hf) as Hc. destruct (says (Custom u) ms p.(sys)) as [[said c] w].
    destruct Hc as (o & p' & H1 & H2 & H3 & H4 & H5 & H6). exists o, p'. repeat (split; [done|]).
    assert (now (Custom_converse a u ms) p = Ret o p') as -> by (unfold now; by rewrite H1). done.
Qed.

(** *** A whole call *)
Lemma run_talks hdl a t : sane t → ∀ s p, p.(handles) !! hdl = Some a → p.(slots) !! a = Some s → fresh_ok p →
  let '(rc, s', w) := talk t s in
  ∃ p', fresh_ok p' ∧ p'.(heap) = p.(heap) ∧ p'.(sys) = w ∧ kept a p p' ∧ p'.(slots) !! a = Some s' ∧
    (channel_free s.(conv) → run_stack hdl t p = Ret (Ok rc) p') ∧
    cancelled (run_stack hdl t p) = (Ok rc, p').
Proof.
  induction 1 as [rc w|n l place w k Hq Hk IH]; intros s p Hh Hs Hf; cbn [talk].
  - exists (set_sys w p). split; [by apply fresh_sys|]. split; [done|]. split; [done|]. split; [apply kept_sys|]. done.
  - destruct (question n l place) as [|e|ms|] eqn:E; [| | |done].
    + specialize (IH PAM_CONV_ERR None w s (set_sys w p) Hh Hs (fresh_sys w p Hf)). rewrite <- (run_skipped hdl a n l place w k p Hh E) in IH.
      destruct (talk _ s) as [[rc s'] w']. destruct IH as (p' & ? & ? & ? & ? & ?). exists p'. repeat (split; [done|]). split; [etrans; [apply kept_sys|done]|done].
    + destruct (run_unreadable hdl a n l place w k s p Hh Hs Hf e E) as (p1 & H1 & F1 & E1 & S1 & K1 & L1).
      specialize (IH PAM_CONV_ERR None w _ p1 ltac:(by rewrite (k_handles _ _ _ K1)) L1 F1). rewrite <- H1 in IH.
      destruct (talk _ _) as [[rc s'] w']. destruct IH as (p' & ? & ? & ? & ? & ?). exists p'. split; [done|]. split; [congruence|]. split; [done|].
      split; [by etrans|done].
    + rewrite (run_asked hdl a n l place w k s p Hh Hs ms E). set (s1 := mkSlot s.(conv) (s.(log) ++ [ms]) s.(failure)). set (p1 := put_at _ _ _).
      assert (fresh_ok p1) as F1 by (apply fresh_put; [by apply fresh_sys|eauto]).
      assert (p1.(slots) !! a = Some s1) as L1 by (simpl; by rewrite lookup_insert_eq).
      assert (kept a p p1) as K1 by (etrans; [apply kept_sys|apply kept_put]).
      pose proof (converse_says a ms s1 p1 L1 F1) as Hsay. cbn [conv s1 log failure] in Hsay. change (sys p1) with w in Hsay.
      destruct (says s.(conv) ms w) as [[said c] w1] eqn:Es. destruct Hsay as (o & p2 & Ho & F2 & S2 & K2 & L2 & D2 & C2).
      pose proof (follow_runs hdl a k (Z.to_nat n) o said _ p2 _ F2 L2 Ho) as Hfo. rewrite S2 in Hfo.
      destruct (reply_to (Z.to_nat n) said w1) as [[f responses] w2]. destruct Hfo as (p3 & H3 & F3 & E3 & S3 & K3 & L3). cbn [conv log failure] in L3.
      assert (p3.(handles) !! hdl = Some a) as Hh3 by (rewrite (k_handles _ _ _ K3), (k_handles _ _ _ K2), (k_handles _ _ _ K1); done).
      specialize (IH (code_of f) responses w2 _ p3 Hh3 L3 F3). destruct (talk _ _) as [[rc s'] w'].
      destruct IH as (p' & ? & E4 & ? & ? & ? & D & C). exists p'. split; [done|]. split; [rewrite E4, E3; done|]. split; [done|].
      split; [by do 3 (etrans; [done|])|].
      split; [done|]. split.
      * intros Hcf. rewrite D2 by done. rewrite H3. apply D. cbn [conv]. destruct (s.(conv)); simpl in Es; try done; [by simplify_eq|].
        destruct (converse_custom _ _ _) as [[? ?] ?]. by simplify_eq.
      * by rewrite C2, H3.
Qed.
End Spec.
