(* ===== verification/PamTxnOk.v ===== *)
(** Transactions: what a stack operation gives and leaves, that a transaction ends
    its handle once and frees its slot after that, and its life as a whole. *)
From S2P Require Import Prelude XdrBase Utf8 PamError Pam PamConv PamTxn PamMem PamTalk.
Local Open Scope Z_scope.

(** Modules pass arrays of messages that are as long as they say. *)
Class LibpamLaws (W U : Type) {pam : Libpam W U} : Prop := {
  call_sane : ∀ op h f w, sane (pam_call op h f w);
  end_sane : ∀ h st w, sane (pam_end h st w)
}.

Section Txn.
Context {W U : Type} {pam : Libpam W U} {laws : LibpamLaws W U}.
Implicit Types p : Proc W U.

(** What an operation on the transaction of the slot [a] leaves alone, and the
    calls of libpam it made. *)
Record moved (a : Z) (cs : list Call) p p' : Prop := mkMoved {
  m_slots : ∀ b, b ≠ a → p'.(slots) !! b = p.(slots) !! b;
  m_handles : p'.(handles) = p.(handles);
  m_channels : p'.(channels) = p.(channels);
  m_calls : p'.(calls) = p.(calls) ++ cs;
  m_next : p.(next_block) ≤ p'.(next_block);
  m_released : ∃ zs, p'.(released) = p.(released) ++ zs ∧ Forall zeroed zs
}.

Lemma kept_moved a p p' : kept a p p' → moved a [] p p'.
Proof. intros [?????]. split; try done. by rewrite app_nil_r. Qed.

Lemma moved_trans a cs ds p1 p2 p3 : moved a cs p1 p2 → moved a ds p2 p3 → moved a (cs ++ ds) p1 p3.
Proof.
  intros [H1 ????(z1 & E1 & Hz1)] [H2 ????(z2 & E2 & Hz2)]. split; try congruence; [|rewrite app_assoc; congruence|lia|].
  - intros b Hb. by rewrite H2, H1.
  - exists (z1 ++ z2). rewrite E2, E1, app_assoc. split; [done|]. by apply Forall_app.
Qed.

Lemma moved_put a s p : moved a [] p (put_at a s p).
Proof. apply kept_moved, kept_put. Qed.

(** A transaction that can be used: its handle is live and has its slot. *)
Definition usable (txn : Transaction) (s : ConvSlot U) p : Prop :=
  fresh_ok p ∧ p.(handles) !! txn.(hdl) = Some txn.(slot) ∧ p.(slots) !! txn.(slot) = Some s.

(** What the caller of an operation is told: the conversation's failure before the
    stack's code. *)
Definition verdict (rc : Z) (f : option Failure) : Outcome unit PamError :=
  match f with
  | None => check rc
  | Some (FailErr e) => Err e
  | Some FailPanic => Stop Panicked
  end.

(** The slot after an operation: its failure was taken. *)
Definition cleared (s : ConvSlot U) : ConvSlot U := mkSlot s.(conv) s.(log) None.

Lemma take_conv_failure_runs txn s p : p.(slots) !! txn.(slot) = Some s →
  take_conv_failure txn p =
  (Ok match s.(failure) with None => Ok tt | Some (FailErr e) => Err e | Some FailPanic => Stop Panicked end,
   put_at txn.(slot) (cleared s) p).
Proof.
  intros H. unfold take_conv_failure, take_failure. unfold mbind, St_bind. by rewrite (the_slot_runs _ _ _ H).
Qed.

(** The continuation of [stack_op] on the code. *)
Definition op_tail (txn : Transaction) (op : StackOp) (flags : Z) (rc : Z) : Task W U (Outcome unit PamError * Transaction) :=
  now (record_call (Ran txn.(hdl) op flags rc));;
  failure ← now (take_conv_failure (mkTransaction txn.(hdl) txn.(slot) rc));
  mret (outcome_bind (λ _, check rc) failure, mkTransaction txn.(hdl) txn.(slot) rc).

Lemma op_tail_runs txn op flags rc s p : usable txn s p → ∃ p',
  op_tail txn op flags rc p = Ret (Ok (verdict rc s.(failure), mkTransaction txn.(hdl) txn.(slot) rc)) p' ∧
  usable txn (cleared s) p' ∧ p'.(heap) = p.(heap) ∧ p'.(sys) = p.(sys) ∧ moved txn.(slot) [Ran txn.(hdl) op flags rc] p p'.
Proof.
  intros (Hf & Hh & Hs). set (p1 := set_calls (p.(calls) ++ [Ran txn.(hdl) op flags rc]) p).
  exists (put_at txn.(slot) (cleared s) p1). split.
  - unfold op_tail. rewrite (run_now (record_call _) _ p tt p1 eq_refl).
    rewrite (run_now _ _ _ _ _ (take_conv_failure_runs (mkTransaction txn.(hdl) txn.(slot) rc) s p1 Hs)).
    unfold verdict. by destruct s.(failure) as [[]|].
  - assert (fresh_ok p1) as F1 by (by destruct Hf; split). split; [|split; [done|split; [done|]]].
    + split; [apply fresh_put; [done|by exists s]|]. split; [done|]. simpl. by rewrite lookup_insert_eq.
    + split; try done; simpl; [|exists []; by rewrite app_nil_r]. intros b Hb. by rewrite lookup_insert_ne.
Qed.

Lemma call_stack_is h a f p : p.(handles) !! h = Some a → call_stack h f p = run_stack h (f p.(sys)) p.
Proof. intros H. unfold call_stack, live_handle, mbind, Task_bind, now. rewrite H. done. Qed.

(** A stack operation under a conversation that does not wait for a driver. *)
Lemma stack_op_runs txn op flags s p : usable txn s p → channel_free s.(conv) →
  let '(rc, s', w) := talk (pam_call op txn.(hdl) flags p.(sys)) s in
  ∃ p', stack_op txn op flags p = Ret (Ok (verdict rc s'.(failure), mkTransaction txn.(hdl) txn.(slot) rc)) p' ∧
    usable txn (cleared s') p' ∧ p'.(heap) = p.(heap) ∧ p'.(sys) = w ∧ moved txn.(slot) [Ran txn.(hdl) op flags rc] p p'.
Proof.
  intros (Hf & Hh & Hs) Hc. pose proof (run_talks txn.(hdl) txn.(slot) _ (call_sane op txn.(hdl) flags p.(sys)) s p Hh Hs Hf) as Ht.
  destruct (talk _ s) as [[rc s'] w]. destruct Ht as (p1 & F1 & E1 & S1 & K1 & L1 & D1 & _).
  assert (usable txn s' p1) as Hu1 by (split; [done|]; split; [by rewrite (k_handles _ _ _ K1)|done]).
  destruct (op_tail_runs txn op flags rc s' p1 Hu1) as (p2 & H2 & Hu2 & E2 & S2 & M2). exists p2. split.
  - unfold stack_op. unfold mbind at 1, Task_bind at 1. rewrite (call_stack_is _ _ _ _ Hh), D1 by done. exact H2.
  - split; [done|]. split; [congruence|]. split; [congruence|]. apply (moved_trans _ [] _ _ p1); [by apply kept_moved|done].
Qed.

(** A conversation stays one of its kind. *)
Lemma says_kind c ms w : channel_free c → channel_free (says c ms w).1.2.
Proof. destruct c; simpl; [done|done|]. destruct (converse_custom _ _ _) as [[? ?] ?]. done. Qed.

Lemma talk_free t : ∀ s, channel_free s.(conv) → channel_free (talk (U:=U) t s).1.2.(conv).
Proof.
  induction t as [rc w|n l place w k IH]; intros s Hc; cbn [talk]; [done|]. destruct (question n l place); try by apply IH.
  pose proof (says_kind s.(conv) ms w Hc) as Hk. destruct (says _ ms w) as [[said c] w1]. destruct (reply_to _ said w1) as [[f r] w2]. by apply IH.
Qed.

(** ** The end *)
Lemma set_handles_fresh h p : fresh_ok p → fresh_ok (set_handles (delete h p.(handles)) p).
Proof. intros [????]. split; try done. intros b Hb. simpl. apply lookup_delete_None. auto. Qed.

(** What the end of a transaction leaves. *)
Definition ended (txn : Transaction) (s : ConvSlot U) (w : W) p p' : Prop :=
  fresh_ok p' ∧ p'.(heap) = p.(heap) ∧ p'.(sys) = w ∧
  p'.(handles) = delete txn.(hdl) p.(handles) ∧ p'.(slots) !! txn.(slot) = None ∧
  (∀ b, b ≠ txn.(slot) → p'.(slots) !! b = p.(slots) !! b) ∧
  p'.(calls) = p.(calls) ++ [EndedWith txn.(hdl) txn.(last)] ∧
  p'.(channels) = match s.(conv) with Channel x => p.(channels) ∖ {[x]} | _ => p.(channels) end ∧
  p.(next_block) ≤ p'.(next_block) ∧ ∃ zs, p'.(released) = p.(released) ++ zs ∧ Forall zeroed zs.

Lemma drop_slot_runs a s p : fresh_ok p → p.(slots) !! a = Some s → ∃ p', drop_slot a p = (Ok tt, p') ∧ fresh_ok p' ∧
  p'.(slots) = delete a p.(slots) ∧ p'.(heap) = p.(heap) ∧ p'.(sys) = p.(sys) ∧ p'.(handles) = p.(handles) ∧ p'.(calls) = p.(calls) ∧
  p'.(next_block) = p.(next_block) ∧ p'.(released) = p.(released) ∧
  p'.(channels) = match s.(conv) with Channel x => p.(channels) ∖ {[x]} | _ => p.(channels) end.
Proof.
  intros [H1 H2 H3 H4] Hs. unfold drop_slot. rewrite (run_bind_ok _ _ _ _ _ (the_slot_runs _ _ _ Hs)). rewrite run_modify.
  assert (∀ b, p.(next_block) ≤ b → delete a p.(slots) !! b = None) by (intros b Hb; apply lookup_delete_None; auto).
  destruct s as [[|x|u] lg fl]; simpl; eexists; (split; [reflexivity|]); (split; [split; try done; simpl; set_solver|done]).
Qed.

Lemma Transaction_drop_runs txn s p : usable txn s p → channel_free s.(conv) → ∃ p',
  Transaction_drop txn p = Ret (Ok tt) p' ∧ ended txn s (talk (pam_end txn.(hdl) txn.(last) p.(sys)) s).2 p p'.
Proof.
  intros (Hf & Hh & Hs) Hc. pose proof (run_talks txn.(hdl) txn.(slot) _ (end_sane txn.(hdl) txn.(last) p.(sys)) s p Hh Hs Hf) as Ht.
  pose proof (talk_free (pam_end txn.(hdl) txn.(last) p.(sys)) s Hc) as Hc'.
  destruct (talk _ s) as [[rc s'] w]. destruct Ht as (p1 & F1 & E1 & S1 & K1 & L1 & D1 & _).
  set (p2 := set_calls (p1.(calls) ++ [EndedWith txn.(hdl) txn.(last)]) (set_handles (delete txn.(hdl) p1.(handles)) p1)).
  assert (fresh_ok p2) as F2. { pose proof (set_handles_fresh txn.(hdl) p1 F1) as []. by split. }
  destruct (drop_slot_runs txn.(slot) s' p2 F2 L1) as (p3 & H3 & F3 & L3 & E3 & S3 & Hh3 & C3 & N3 & R3 & X3). exists p3. split.
  - unfold Transaction_drop. unfold mbind at 1, Task_bind at 1. rewrite (call_stack_is _ _ _ _ Hh), D1 by done. cbn [res_bind]. unfold now.
    rewrite run_modify. unfold record_call. rewrite run_modify. cbv zeta. change (calls (set_handles _ p1)) with (calls p1). fold p2. by rewrite H3.
  - assert (p3.(channels) = p.(channels)) as Hx. { rewrite X3. simpl in Hc' |- *. destruct s'.(conv); try done; apply (k_channels _ _ _ K1). }
    split; [done|]. split; [by rewrite E3|]. split; [by rewrite S3|]. split; [rewrite Hh3; simpl; by rewrite (k_handles _ _ _ K1)|].
    split; [rewrite L3; apply lookup_delete_eq|]. split; [intros b Hb; rewrite L3, lookup_delete_ne by done; apply (k_slots _ _ _ K1); done|].
    split; [rewrite C3; simpl; by rewrite (k_calls _ _ _ K1)|]. split; [by destruct s.(conv)|]. split; [rewrite N3; apply (k_next _ _ _ K1)|].
    rewrite R3. apply (k_released _ _ _ K1).
Qed.
(** ** The beginning *)
(** Code that asks libpam about a live handle and touches nothing else. *)
Definition sys_only {A} (h : Z) (m : App W U A) : Prop := ∀ p, is_Some (p.(handles) !! h) →
  ∃ o w, m p = (o, set_sys w p) ∧ ((∃ a, o = Ok a) ∨ ∃ e, o = Err (Fail e)).

Lemma set_sys_id p : set_sys p.(sys) p = p.
Proof. by destruct p. Qed.

Lemma sys_only_ret {A} h (a : A) : sys_only h (mret a).
Proof. intros p _. exists (Ok a), p.(sys). rewrite set_sys_id. eauto. Qed.

Lemma sys_only_bind {A B} h (m : App W U A) (f : A → App W U B) : sys_only h m → (∀ a, sys_only h (f a)) → sys_only h (m ≫= f).
Proof.
  intros Hm Hf p Hh. destruct (Hm p Hh) as (o & w & Ho & [[a ->]|[e ->]]); unfold mbind, St_bind; rewrite Ho; [|eauto 6].
  destruct (Hf a (set_sys w p) Hh) as (o2 & w2 & H2 & H3). exists o2, w2. by rewrite H2.
Qed.

Lemma sys_only_result {A} h (o : Outcome A PamError) : (∀ s, o ≠ Stop s) → sys_only h (result o).
Proof. intros Ho p _. exists (map_err Fail o), p.(sys). rewrite set_sys_id. split; [done|]. destruct o as [| |s]; simpl; [eauto..|]. by destruct (Ho s). Qed.

Lemma sys_only_live h : sys_only h (live_handle h).
Proof. intros p [a Ha]. exists (Ok tt), p.(sys). rewrite set_sys_id. unfold live_handle. rewrite Ha. eauto. Qed.

Lemma sys_only_call {A} h (f : W → A * W) : sys_only h (sys_call f).
Proof. intros p _. unfold sys_call. destruct (f p.(sys)) as [a w]. exists (Ok a), w. eauto. Qed.

Lemma c_arg_stop b s : c_arg b ≠ Stop s.
Proof. unfold c_arg. by destruct (cstring b). Qed.
Lemma check_stop rc s : check rc ≠ Stop s.
Proof. unfold check. by case_match. Qed.

Lemma sys_only_item txn ty v : sys_only txn.(hdl) (set_item_str txn ty v).
Proof.
  unfold set_item_str. apply sys_only_bind; [apply sys_only_result, c_arg_stop|]. intros b.
  apply sys_only_bind; [apply sys_only_live|]. intros _. apply sys_only_bind; [apply sys_only_call|]. intros rc. apply sys_only_result, check_stop.
Qed.

Lemma sys_only_delay txn d : sys_only txn.(hdl) (set_fail_delay txn d).
Proof.
  unfold set_fail_delay. apply sys_only_bind; [apply sys_only_live|]. intros _. apply sys_only_bind; [apply sys_only_call|].
  intros rc. apply sys_only_result, check_stop.
Qed.

Lemma sys_only_when {A} h (o : option A) f : (∀ a, sys_only h (f a)) → sys_only h (when_some o f).
Proof. intros Hf. destruct o; [apply Hf|apply sys_only_ret]. Qed.

Definition configure (self : Builder U) (txn : Transaction) : App W U unit :=
  when_some self.(b_ruser) (set_ruser txn);;
  when_some self.(b_rhost) (set_rhost txn);;
  when_some self.(b_tty) (set_tty txn);;
  when_some self.(b_fail_delay) (set_fail_delay txn).

Lemma configure_runs self txn : sys_only txn.(hdl) (configure self txn).
Proof. repeat (apply sys_only_bind; [apply sys_only_when; intros; apply sys_only_item|intros _]). apply sys_only_when. intros. apply sys_only_delay. Qed.

(** A process that differs in the world, in the addresses given out and in the
    calls it made. *)
Definition unchanged (cs : list Call) p p' : Prop :=
  p'.(heap) = p.(heap) ∧ p'.(slots) = p.(slots) ∧ p'.(handles) = p.(handles) ∧ p'.(channels) = p.(channels) ∧
  p'.(calls) = p.(calls) ++ cs ∧ p.(next_block) ≤ p'.(next_block) ∧ ∃ zs, p'.(released) = p.(released) ++ zs ∧ Forall zeroed zs.

Definition conversation_of (self : Builder U) : Conversation U := default Unattended self.(b_conversation).

(** What [build] gives: a transaction, or an error and nothing left of it. *)
Definition built_or_not (self : Builder U) p (r : Res W U Transaction) : Prop :=
  (∃ txn p', r = Ret (Ok txn) p' ∧ usable txn (slot_new (conversation_of self)) p' ∧ txn.(last) = PAM_SUCCESS ∧
     p.(handles) !! txn.(hdl) = None ∧ p.(slots) !! txn.(slot) = None ∧
     p'.(handles) = <[txn.(hdl) := txn.(slot)]> p.(handles) ∧ p'.(slots) = <[txn.(slot) := slot_new (conversation_of self)]> p.(slots) ∧
     p'.(heap) = p.(heap) ∧ p'.(channels) = p.(channels) ∧ p'.(calls) = p.(calls) ++ [Started txn.(hdl)] ∧ p'.(released) = p.(released) ∧
     p.(next_block) ≤ p'.(next_block)) ∨
  (∃ e p', r = Ret (Err (Fail e)) p' ∧ fresh_ok p' ∧
     (unchanged [] p p' ∨ ∃ h, p.(handles) !! h = None ∧ unchanged [Started h; EndedWith h PAM_ABORT] p p')).

Lemma unchanged_refl p : unchanged [] p p.
Proof. repeat (split; [done|]). split; [by rewrite app_nil_r|]. split; [done|]. exists []. by rewrite app_nil_r. Qed.

(** A transaction whose configuration failed is ended. *)
Lemma drop_built h a c p p1 : fresh_ok p1 → channel_free c → p.(handles) !! h = None → p.(slots) !! a = None → p.(next_block) ≤ p1.(next_block) →
  p1.(heap) = p.(heap) → p1.(slots) = <[a := slot_new c]> p.(slots) → p1.(handles) = <[h := a]> p.(handles) → p1.(channels) = p.(channels) →
  p1.(calls) = p.(calls) ++ [Started h] → p1.(released) = p.(released) →
  ∃ p2, Transaction_drop (mkTransaction h a PAM_ABORT) p1 = Ret (Ok tt) p2 ∧ fresh_ok p2 ∧ unchanged [Started h; EndedWith h PAM_ABORT] p p2.
Proof.
  intros F1 Hc Hh Hs Hn E1 L1 Hh1 X1 C1 R1.
  destruct (Transaction_drop_runs (mkTransaction h a PAM_ABORT) (slot_new c) p1) as (p2 & H2 & F2 & E2 & S2 & Hh2 & L2 & L2' & C2 & X2 & N2 & zs & R2 & Hz).
  { split; [done|]. simpl. rewrite Hh1, L1. by rewrite !lookup_insert_eq. } { done. }
  exists p2. split; [done|]. split; [done|]. simpl in *. split; [congruence|]. split.
  - apply map_eq. intros b. destruct (decide (b = a)) as [->|Hb]; [by rewrite L2|]. by rewrite L2', L1, lookup_insert_ne.
  - split; [rewrite Hh2, Hh1; by rewrite delete_insert_id|]. split; [rewrite X2, <- X1; by destruct c|]. split; [rewrite C2, C1, <- app_assoc; done|].
    split; [lia|]. exists zs. split; [congruence|done].
Qed.

(** The process after the slot is made and the handle is asked for. *)
Definition started_at (self : Builder U) p (rc : Z) p' : Prop :=
  let a := p.(next_block) in
  fresh_ok p' ∧ p.(next_block) ≤ p'.(next_block) ∧ p'.(heap) = p.(heap) ∧ p'.(slots) = <[a := slot_new (conversation_of self)]> p.(slots) ∧
  p'.(channels) = p.(channels) ∧ p'.(released) = p.(released) ∧
  if rc =? PAM_SUCCESS then p'.(handles) = <[a + 1 := a]> p.(handles) ∧ p'.(calls) = p.(calls) ++ [Started (a + 1)]
  else p'.(handles) = p.(handles) ∧ p'.(calls) = p.(calls).

(** The process once the address of the slot is given out, and the slot is there. *)
Definition with_slot (c : Conversation U) p : Proc W U :=
  put_at p.(next_block) (slot_new c)
    (mkProc p.(heap) (p.(next_block) + 1) p.(released) p.(slots) p.(handles) p.(channels) p.(calls) p.(sys)).

Lemma start_runs self service user confdir p : fresh_ok p → ∃ rc p',
  call_start service user confdir p.(next_block) (with_slot (conversation_of self) p) = (Ok (rc, p.(next_block) + 1), p') ∧ started_at self p rc p'.
Proof.
  intros [H1 H2 H3 H4]. unfold call_start. rewrite (run_bind_ok fresh_address _ _ _ _ eq_refl). cbn [next_block with_slot put_at set_slots].
  set (p1 := mkProc _ _ _ _ _ _ _ _). destruct (pam_start_confdir service user confdir (p.(next_block) + 1) p1.(sys)) as [rc w] eqn:Hp.
  assert (sys_call (pam_start_confdir service user confdir (p.(next_block) + 1)) p1 = (Ok rc, set_sys w p1)) as Hsys by (unfold sys_call; by rewrite Hp).
  rewrite (run_bind_ok _ _ _ _ _ Hsys). exists rc. unfold started_at. destruct (rc =? PAM_SUCCESS).
  - eexists. split; [reflexivity|]. simpl. split; [split; simpl; intros b Hb|].
    + apply H1. lia.
    + rewrite lookup_insert_ne by lia. apply H2. lia.
    + rewrite lookup_insert_ne by lia. apply H3. lia.
    + apply H4. lia.
    + split; [lia|done].
  - eexists. split; [reflexivity|]. simpl. split; [split; simpl; intros b Hb|].
    + apply H1. lia.
    + rewrite lookup_insert_ne by lia. apply H2. lia.
    + apply H3. lia.
    + apply H4. lia.
    + split; [lia|done].
Qed.

Lemma build_runs self p : fresh_ok p → channel_free (conversation_of self) → built_or_not self p (build self p).
Proof.
  intros Hf Hc. unfold build. set (a := p.(next_block)).
  assert (∀ A (o : Outcome A PamError) (f : A → Task W U Transaction), (∀ s, o ≠ Stop s) → (∀ x, o = Ok x → built_or_not self p (f x p)) →
    built_or_not self p ((now (result o) ≫= f) p)) as Harg.
  { intros A o f Ho Hx. destruct o as [x|e|s]; [by apply (Hx x)| |by destruct (Ho s)]. right. exists e, p. split; [done|]. split; [done|]. left. apply unchanged_refl. }
  apply Harg; [apply c_arg_stop|]. intros service _. apply Harg; [by destruct self.(b_user) as [u|]; simpl; [destruct (c_arg u) eqn:?; simpl; [..|by apply c_arg_stop in Heqo]|]|].
  intros user _. apply Harg; [by destruct self.(b_confdir) as [u|]; simpl; [unfold cpath; destruct (cstring u)|]|]. intros confdir _. clear Harg.
  rewrite (run_now fresh_address _ _ _ _ eq_refl). rewrite (run_now (put_slot a (slot_new (conversation_of self))) _ _ tt (with_slot (conversation_of self) p) eq_refl).
  destruct (start_runs self service user confdir p Hf) as (rc & q & Hq & F1 & N1 & E1 & L1 & X1 & R1 & Hst). fold a in Hq, Hst, L1.
  rewrite (run_now _ _ _ _ _ Hq). cbn [fst snd]. unfold check at 1. destruct (rc =? PAM_SUCCESS).
  - destruct Hst as [Hh1 C1]. assert (p.(handles) !! (a + 1) = None) as Hh by (apply (f_handles p Hf); lia).
    assert (p.(slots) !! a = None) as Hs by (apply (f_slots p Hf); lia).
    fold (configure self (mkTransaction (a + 1) a PAM_ABORT)).
    destruct (configure_runs self (mkTransaction (a + 1) a PAM_ABORT) q) as (o & w & Ho & Hres); [simpl; rewrite Hh1, lookup_insert_eq; eauto|].
    assert (caught_app (configure self (mkTransaction (a + 1) a PAM_ABORT)) q = (settled o, set_sys w q)) as Hcf by (unfold caught_app; by rewrite Ho).
    destruct Hres as [[[] ->]|[e ->]].
    + rewrite (run_now _ _ _ _ _ Hcf). left. eexists _, _. split; [reflexivity|]. cbn [hdl slot last]. split.
      { split; [by apply fresh_sys|]. simpl. rewrite Hh1, L1. by rewrite !lookup_insert_eq. } done.
    + rewrite (run_now _ _ _ _ _ Hcf). right.
      destruct (drop_built (a + 1) a (conversation_of self) p (set_sys w q) (fresh_sys w q F1) Hc Hh Hs N1 E1 L1 Hh1 X1 C1 R1) as (p2 & H2 & F2 & U2).
      exists e, p2. split; [change (res_bind (λ _ : unit, now (throw e) : Task W U Transaction) (Transaction_drop (mkTransaction (a + 1) a PAM_ABORT) (set_sys w q)) = Ret (Err (Fail e)) p2); by rewrite H2|]. split; [done|]. right. eauto.
  - destruct Hst as [Hh1 C1]. right. destruct (drop_slot_runs a (slot_new (conversation_of self)) q F1) as (p2 & H2 & F2 & L2 & E2 & S2 & Hh2 & C2 & N2 & R2 & X2).
    { by rewrite L1, lookup_insert_eq. }
    exists (Error_from_raw rc), p2. split; [unfold now; by rewrite (run_bind_ok _ _ _ _ _ H2)|]. split; [done|]. left. 
    split; [congruence|]. split; [rewrite L2, L1, delete_insert_id by (apply (f_slots p Hf); lia); done|]. split; [congruence|].
    split; [rewrite X2, X1; cbn [conv slot_new]; by destruct (conversation_of self)|]. split; [rewrite app_nil_r; congruence|]. split; [lia|].
    exists []. rewrite app_nil_r. split; [congruence|done].
Qed.
End Txn.

(** The life of a transaction: it is built, used and dropped. *)

Section Life.
Context {W U : Type} {pam : Libpam W U} {laws : LibpamLaws W U}.
Implicit Types p : Proc W U.

(** Stack operations in a row; the caller goes on after an error, and after a
    panic that it caught. *)
Fixpoint use_all (txn : Transaction) (ops : list (StackOp * Z)) : Task W U (list (Outcome unit PamError) * Transaction) :=
  match ops with
  | [] => mret ([], txn)
  | (op, f) :: ops =>
      r ← stack_op txn op f;
      rest ← use_all r.2 ops;
      mret (r.1 :: rest.1, rest.2)
  end.
Definition lifetime (self : Builder U) (ops : list (StackOp * Z)) : Task W U (list (Outcome unit PamError)) :=
  txn ← build self;
  used ← use_all txn ops;
  Transaction_drop used.2;;
  mret used.1.

(** What they come to: the operations with their codes and outcomes, the slot and
    the world. *)
Fixpoint talk_all (h : Z) (ops : list (StackOp * Z)) (s : ConvSlot U) (w : W) : list (StackOp * Z * Z * Outcome unit PamError) * ConvSlot U * W :=
  match ops with
  | [] => ([], s, w)
  | (op, f) :: ops =>
      let '(rc, s, w) := talk (pam_call op h f w) s in
      let '(rest, s', w) := talk_all h ops (cleared s) w in
      ((op, f, rc, verdict rc s.(failure)) :: rest, s', w)
  end.
Definition code_in (e : StackOp * Z * Z * Outcome unit PamError) : Z := e.1.2.
Definition outcome_in (e : StackOp * Z * Z * Outcome unit PamError) : Outcome unit PamError := e.2.
Definition call_in (h : Z) (e : StackOp * Z * Z * Outcome unit PamError) : Call := Ran h e.1.1.1 e.1.1.2 e.1.2.
(** The status [pam_end] is given: the last code. *)
Definition last_code (rc : Z) (l : list (StackOp * Z * Z * Outcome unit PamError)) : Z := foldl (λ _, code_in) rc l.

Lemma use_all_runs ops : ∀ txn s p, usable txn s p → channel_free s.(conv) →
  let '(rs, s', w) := talk_all txn.(hdl) ops s p.(sys) in
  ∃ p', use_all txn ops p = Ret (Ok (outcome_in <$> rs, mkTransaction txn.(hdl) txn.(slot) (last_code txn.(last) rs))) p' ∧
    usable txn s' p' ∧ channel_free s'.(conv) ∧ p'.(heap) = p.(heap) ∧ p'.(sys) = w ∧ moved txn.(slot) (call_in txn.(hdl) <$> rs) p p'.
Proof.
  induction ops as [|[op f] ops IH]; intros txn s p Hu Hc; cbn [talk_all].
  - exists p. split; [by destruct txn|]. split; [done|]. split; [done|]. split; [done|]. split; [done|]. apply kept_moved. reflexivity.
  - pose proof (stack_op_runs txn op f s p Hu Hc) as H1. pose proof (talk_free (pam_call op txn.(hdl) f p.(sys)) s Hc) as Hc1.
    destruct (talk (pam_call op txn.(hdl) f p.(sys)) s) as [[rc s1] w1]. destruct H1 as (p1 & H1 & Hu1 & E1 & S1 & M1).
    specialize (IH (mkTransaction txn.(hdl) txn.(slot) rc) (cleared s1) p1 Hu1 Hc1). cbn [hdl slot last] in IH. rewrite S1 in IH.
    destruct (talk_all txn.(hdl) ops (cleared s1) w1) as [[rs s2] w2]. destruct IH as (p2 & H2 & Hu2 & Hc2 & E2 & S2 & M2). exists p2.
    split; [cbn [use_all]; unfold mbind, Task_bind; rewrite H1; cbn [res_bind fst snd]; rewrite H2; done|]. split; [done|]. split; [done|]. split; [congruence|].
    split; [done|]. exact (moved_trans _ _ _ _ _ _ M1 M2).
Qed.

(** A life begins and ends, with nothing left, or does not begin. *)
Definition lived (self : Builder U) (ops : list (StackOp * Z)) p (r : Res W U (list (Outcome unit PamError))) : Prop :=
  (∃ e p', r = Ret (Err (Fail e)) p' ∧ (unchanged [] p p' ∨ ∃ h, p.(handles) !! h = None ∧ unchanged [Started h; EndedWith h PAM_ABORT] p p')) ∨
  (∃ h w p', let '(rs, s', w') := talk_all h ops (slot_new (conversation_of self)) w in
     r = Ret (Ok (outcome_in <$> rs)) p' ∧ p.(handles) !! h = None ∧
     unchanged (Started h :: (call_in h <$> rs) ++ [EndedWith h (last_code PAM_SUCCESS rs)]) p p' ∧
     p'.(sys) = (talk (pam_end h (last_code PAM_SUCCESS rs) w') s').2).

Lemma lifetime_runs self ops p : fresh_ok p → channel_free (conversation_of self) → lived self ops p (lifetime self ops p).
Proof.
  intros Hf Hc. unfold lifetime. unfold mbind at 1, Task_bind at 1. destruct (build_runs self p Hf Hc) as [(txn & p1 & -> & Hu & Hl & Hh & Hs & Hh1 & L1 & E1 & X1 & C1 & R1 & N1)|(e & p1 & -> & _ & H1)].
  2:{ left. by exists e, p1. }
  right. exists txn.(hdl), p1.(sys). pose proof (use_all_runs ops txn _ p1 Hu Hc) as H2. destruct (talk_all _ _ _ _) as [[rs s2] w2].
  destruct H2 as (p2 & H2 & Hu2 & Hc2 & E2 & S2 & [M1 M2 M3 M4 M5 (z2 & M6 & Hz2)]). rewrite Hl in H2.
  destruct (Transaction_drop_runs (mkTransaction txn.(hdl) txn.(slot) (last_code PAM_SUCCESS rs)) s2 p2 Hu2 Hc2) as (p3 & H3 & F3 & E3 & S3 & Hh3 & L3 & L3' & C3 & X3 & N3 & z3 & R3 & Hz3).
  simpl in *. exists p3. split; [cbn [res_bind]; unfold mbind, Task_bind; rewrite H2; cbn [res_bind snd]; rewrite H3; done|]. split; [done|].
  split; [|by rewrite S3, S2]. split; [congruence|]. split.
  { apply map_eq. intros b. destruct (decide (b = txn.(slot))) as [->|Hb]; [by rewrite L3, Hs|]. by rewrite L3', M1, L1, lookup_insert_ne. }
  split; [rewrite Hh3, M2, Hh1; by rewrite delete_insert_id|]. split; [rewrite X3; destruct (s2.(conv)); [congruence|done|congruence]|].
  split; [rewrite C3, M4, C1, <- !app_assoc; done|]. split; [lia|exists (z2 ++ z3); split; [rewrite R3, M6, R1, <- app_assoc; done|by apply Forall_app]].
Qed.

(** ** Answers from the application to a module *)
(** The application makes them, the callback builds the array and drops them, and
    the module reads it. *)
Definition carry (l : list (option (bytes * bytes))) : App W U (list (option bytes * Z)) :=
  ans ← make_answers l;
  built ← caught_app (responses_to_c ans);
  drop_answers ans;;
  array ← result built;
  module_takes array.

Lemma carry_runs l p : fresh_ok p → ∃ p', carry l p = (match (build_spec (U:=U) (values l) p.(sys)).1 with
      | Ok _ => Ok ((λ v, (v, 0)) <$> values l)
      | Err e => Err (Fail e)
      | Stop s => Stop s
      end, p') ∧ quiet p p' ∧ p'.(heap) = p.(heap) ∧ p'.(sys) = (build_spec (U:=U) (values l) p.(sys)).2.
Proof.
  intros Hf. destruct (make_answers_runs l p Hf) as (ans & p1 & H1 & Q1 & F1 & Hs & Hg & S1). unfold carry. rewrite (run_bind_ok _ _ _ _ _ H1).
  destruct (responses_runs ans (values l) p1 F1 Hs) as (r & p2 & H2 & Q2 & F2 & S2 & HB). rewrite S1 in *.
  assert (∀ o, settled r = Ok o → caught_app (responses_to_c ans) p1 = (Ok o, p2)) as Hc by (intros o Ho; unfold caught_app; by rewrite H2, Ho).
  destruct (build_spec (values l) p.(sys)) as [[u|e|s] w]; simpl in *; [| |done].
  - destruct HB as (array & rs & -> & Ha & Hg2). rewrite (run_bind_ok _ _ _ _ _ (Hc (Ok array) eq_refl)).
    destruct (dropped_beside p.(heap) p1.(heap) ans p2.(heap) _ (values l) Hs Hg Hg2) as (Hs2 & Hg3 & Hd).
    destruct (drop_answers_runs ans (values l) p2 Hs2) as (p3 & H3 & Q3 & E3 & S3 & N3). rewrite (run_bind_ok _ _ _ _ _ H3).
    destruct (module_takes_runs array rs (values l) p3) as (p4 & H4 & Q4 & E4 & S4 & N4 & R4). { rewrite E3. by apply array_purged. }
    exists p4. split; [exact H4|]. split; [by do 3 (etrans; [done|])|]. split; [|congruence]. rewrite E4, E3. by apply purge_grown.
  - destruct HB as [-> Eh]. rewrite (run_bind_ok _ _ _ _ _ (Hc (Err e) eq_refl)).
    destruct (drop_answers_runs ans (values l) p2) as (p3 & H3 & Q3 & E3 & S3 & N3). { by rewrite Eh. } rewrite (run_bind_ok _ _ _ _ _ H3).
    exists p3. split; [done|]. split; [by do 2 (etrans; [done|])|]. split; [|congruence]. rewrite E3, Eh. by apply purge_grown.
Qed.

(** With memory enough, they arrive unless one has a NUL. *)
Lemma build_enough vs (w : W) : (∀ n w, (has_memory (U:=U) n w).1 = true) →
  (build_spec (U:=U) vs w).1 = if decide (Exists (λ v, x00 ∈ default [] v) vs) then Err NulByte else Ok tt.
Proof.
  intros Hm. unfold build_spec. pose proof (Hm (len vs * SIZE_OF_RESPONSE) w) as H0. destruct (has_memory _ w) as [b w1]. simpl in H0. subst b. clear w. revert w1.
  induction vs as [|[b|] vs IH]; intros w; cbn [fill_spec].
  - rewrite decide_False; [done|]. by intros ?%Exists_nil.
  - destruct (decide (x00 ∈ b)) as [Hb|Hb]; [by rewrite decide_True by (by apply Exists_cons_hd)|]. pose proof (Hm (len b + 1) w) as H0. destruct (has_memory _ w) as [c w1]. simpl in H0. subst c.
    rewrite IH. apply decide_ext. rewrite Exists_cons. naive_solver.
  - rewrite IH. apply decide_ext. rewrite Exists_cons. simpl. set_solver.
Qed.
End Life.
