(* ===== verification/PamExchange.v ===== *)
(** The worker of an exchange: where it can be, what it does from there, and what
    it comes to when its driver lets go. *)
From S2P Require Import Prelude XdrBase Utf8 PamError Pam PamConv PamTxn PamStep PamMem PamTalk PamTxnOk.
Local Open Scope Z_scope.

Section Cancel.
Context {W U : Type}.

Lemma cancelled_bind {A B} (f : A → Task W U B) (r : Res W U A) :
  cancelled (res_bind f r) =
  match cancelled r with
  | (Ok a, p) => cancelled (f a p)
  | (Err e, p) => (Err e, p)
  | (Stop s, p) => (Stop s, p)
  end.
Proof. induction r as [[]|? ? ? IH|? ? IH]; simpl; done. Qed.
End Cancel.

(** ** The next stop of a stack under a channel *)
Section Settle.
Context {W U : Type}.

(** It asks a round, in a slot, or ends with a code. *)
Inductive Rest : Type :=
| Asks (ms : list Message) (n : nat) (k : Z → option (list (option bytes * Z)) → W → Stack W) (s : ConvSlot U) (w : W)
| Ends (rc : Z) (s : ConvSlot U) (w : W).

Fixpoint settles (t : Stack W) (s : ConvSlot U) : Rest :=
  match t with
  | Return_ rc w => Ends rc s w
  | Converse n l place w k =>
      match question n l place with
      | Skipped | Overrun => settles (k PAM_CONV_ERR None w) s
      | Unreadable e => settles (k PAM_CONV_ERR None w) (mkSlot s.(conv) s.(log) (first s.(failure) (Some (FailErr e))))
      | Asked ms => Asks ms (Z.to_nat n) k (mkSlot s.(conv) (s.(log) ++ [ms]) s.(failure)) w
      end
  end.
End Settle.

Section Worker.
Context {W U : Type} {pam : Libpam W U} {laws : LibpamLaws W U}.
Implicit Types p : Proc W U.

(** What a step of a stack leaves: the slot at [a] is [s], and the rest is kept. *)
Definition stands (a : Z) (s : ConvSlot U) (w : W) p p' : Prop :=
  fresh_ok p' ∧ p'.(heap) = p.(heap) ∧ p'.(sys) = w ∧ kept a p p' ∧ p'.(slots) !! a = Some s.

Lemma stands_trans a s1 w1 s2 w2 p1 p2 p3 : stands a s1 w1 p1 p2 → stands a s2 w2 p2 p3 → stands a s2 w2 p1 p3.
Proof. intros (? & E1 & ? & ? & ?) (? & E2 & ? & ? & ?). split; [done|]. split; [congruence|]. split; [done|]. split; [by etrans|done]. Qed.

(** A stack under a channel runs to its next stop. *)
Lemma run_settles hdl a x t : sane t → ∀ s p, p.(handles) !! hdl = Some a → p.(slots) !! a = Some s → fresh_ok p → s.(conv) = Channel x →
  match settles t s with
  | Ends rc s' w => s'.(conv) = Channel x ∧ ∃ p', run_stack hdl t p = Ret (Ok rc) p' ∧ stands a s' w p p'
  | Asks ms n k s' w => s'.(conv) = Channel x ∧ (∀ rc r w, sane (k rc r w)) ∧
      ∃ p', run_stack hdl t p = follow hdl a k n (Channel_converse ms p') ∧ stands a s' w p p'
  end.
Proof.
  induction 1 as [rc w|n l place w k Hq Hk IH]; intros s p Hh Hs Hf Hx; cbn [settles].
  - split; [done|]. exists (set_sys w p). split; [done|]. split; [by apply fresh_sys|]. repeat (split; [done|]). split; [apply kept_sys|done].
  - destruct (question n l place) as [|e|ms|] eqn:E; [| | |done].
    + specialize (IH PAM_CONV_ERR None w s (set_sys w p) Hh Hs (fresh_sys w p Hf) Hx). rewrite <- (run_skipped hdl a n l place w k p Hh E) in IH.
      assert (stands a s w p (set_sys w p)) as H0 by (split; [by apply fresh_sys|]; repeat (split; [done|]); split; [apply kept_sys|done]).
      destruct (settles _ s); [destruct IH as (? & ? & p' & ? & ?); split; [done|]; split; [done|]|destruct IH as (? & p' & ? & ?); split; [done|]];
        exists p'; (split; [done|]); by eapply stands_trans.
    + destruct (run_unreadable hdl a n l place w k s p Hh Hs Hf e E) as (p1 & H1 & F1 & E1 & S1 & K1 & L1).
      specialize (IH PAM_CONV_ERR None w _ p1 ltac:(by rewrite (k_handles _ _ _ K1)) L1 F1 Hx). rewrite <- H1 in IH.
      assert (stands a (mkSlot s.(conv) s.(log) (first s.(failure) (Some (FailErr e)))) w p p1) as H0 by done.
      destruct (settles _ _); [destruct IH as (? & ? & p' & ? & ?); split; [done|]; split; [done|]|destruct IH as (? & p' & ? & ?); split; [done|]];
        exists p'; (split; [done|]); by eapply stands_trans.
    + rewrite (run_asked hdl a n l place w k s p Hh Hs ms E). set (p1 := put_at _ _ _).
      assert (p1.(slots) !! a = Some (mkSlot s.(conv) (s.(log) ++ [ms]) s.(failure))) as L1 by (simpl; by rewrite lookup_insert_eq).
      split; [done|]. split; [done|]. exists p1. split.
      * f_equal. unfold converse. rewrite (run_now _ _ _ _ _ (the_slot_runs a _ p1 L1)). cbn [conv]. by rewrite Hx.
      * split; [apply fresh_put; [by apply fresh_sys|eauto]|]. split; [done|]. split; [done|]. split; [etrans; [apply kept_sys|apply kept_put]|done].
Qed.

(** ** One exchange *)
Section Exchange.
Context (op : Op) (txn : Transaction) (flags : Flags) (restore : Conversation U) (x : Z).
Abbreviation h := (txn.(hdl)).
Abbreviation a := (txn.(slot)).

Definition stack_of : StackOp := match op with Authenticate => pam_authenticate | Chauthtok => pam_chauthtok end.

(** What the worker does with the code of the call. *)
Definition finish_tail (v : Verdict) : Task W U Verdict :=
  displaced ← now (set_conversation v.1 restore);
  now (drop_conv displaced);;
  send_event Finished;;
  mret v.
Definition after_call (r : Res W U Z) : Res W U Verdict :=
  res_bind finish_tail (res_bind (λ r, mret (r.2, r.1)) (res_bind (op_tail txn stack_of flags) r)).

Lemma main_is p : p.(handles) !! h = Some a →
  worker_main op txn flags restore p = after_call (run_stack h (pam_call stack_of h flags p.(sys)) p).
Proof.
  intros Hh. unfold after_call, stack_of.
  destruct op; (rewrite <- (call_stack_is h a (pam_call _ h flags) p Hh); reflexivity).
Qed.

(** The verdict, with the transaction it comes with. *)
Definition verdict_on (rc : Z) (f : option Failure) : Verdict := (mkTransaction h a rc, verdict rc f).

(** What the worker's steps leave alone; the channel goes at the end. *)
Record drove (cs : list Call) p p' : Prop := mkDrove {
  d_slots : ∀ b, b ≠ a → p'.(slots) !! b = p.(slots) !! b;
  d_handles : p'.(handles) = p.(handles);
  d_channels : p'.(channels) = match cs with [] => p.(channels) | _ => p.(channels) ∖ {[x]} end;
  d_calls : p'.(calls) = p.(calls) ++ cs;
  d_next : p.(next_block) ≤ p'.(next_block);
  d_released : ∃ zs, p'.(released) = p.(released) ++ zs ∧ Forall zeroed zs
}.

Lemma kept_drove p p' : kept a p p' → drove [] p p'.
Proof. intros [?????]. split; try done. by rewrite app_nil_r. Qed.

Lemma drove_after cs p1 p2 p3 : drove [] p1 p2 → drove cs p2 p3 → drove cs p1 p3.
Proof.
  intros [H1 ??? ?(z1 & E1 & Hz1)] [H2 ??? ?(z2 & E2 & Hz2)]. split; try congruence; [| |rewrite app_nil_r in *; congruence|lia|].
  - intros b Hb. by rewrite H2, H1.
  - destruct cs; congruence.
  - exists (z1 ++ z2). rewrite E2, E1, app_assoc. split; [done|]. by apply Forall_app.
Qed.

(** The call has returned: the worker restores the conversation and says that it
    has finished. *)
Definition finished (rc : Z) (s : ConvSlot U) p p' : Prop :=
  usable txn (mkSlot restore s.(log) None) p' ∧ p'.(heap) = p.(heap) ∧ p'.(sys) = p.(sys) ∧ (x ∉ p'.(channels)) ∧
  drove [Ran h stack_of flags rc] p p'.

Lemma after_call_ret rc s p : usable txn s p → s.(conv) = Channel x → ∃ p' K,
  after_call (Ret (Ok rc) p) = Send Finished p' K ∧ (∀ b q, K b q = Ret (Ok (verdict_on rc s.(failure))) q) ∧ finished rc s p p'.
Proof.
  intros Hu Hc. destruct (op_tail_runs txn stack_of flags rc s p Hu) as (p1 & H1 & (F1 & Hh1 & L1) & E1 & S1 & M1).
  set (p2 := put_at a (mkSlot restore s.(log) None) p1).
  set (p3 := set_channels (p2.(channels) ∖ {[x]}) p2). exists p3.
  assert (after_call (Ret (Ok rc) p) = finish_tail (verdict_on rc s.(failure)) p1) as -> by (unfold after_call; cbn [res_bind]; rewrite H1; done).
  eexists. split.
  - unfold finish_tail. rewrite (run_now _ _ _ (Channel x) p2).
    2:{ unfold set_conversation, replace_conv. cbn [fst verdict_on slot]. rewrite (run_bind_ok _ _ _ _ _ (the_slot_runs _ _ _ L1)). cbn [cleared log failure conv]. by rewrite Hc. }
    rewrite (run_now (drop_conv (Channel x)) _ p2 tt p3 eq_refl). reflexivity.
  - split; [done|]. assert (fresh_ok p2) as F2 by (apply fresh_put; [done|eauto]). split.
    { split; [|split; [done|simpl; by rewrite lookup_insert_eq]]. destruct F2. split; try done. simpl in *. set_solver. }
    split; [done|]. split; [done|]. split; [simpl; set_solver|]. destruct M1 as [M1 ?????]. split; try done; simpl.
    + intros b Hb. rewrite lookup_insert_ne by done. by apply M1.
    + congruence.
Qed.

(** ** Where the worker can be *)
Inductive Pos : Type :=
| Begun
| Asking (ms : list Message) (n : nat) (k : Z → option (list (option bytes * Z)) → W → Stack W)
| Waiting (n : nat) (k : Z → option (list (option bytes * Z)) → W → Stack W)
| Heard (n : nat) (k : Z → option (list (option bytes * Z)) → W → Stack W) (ans : Answers) (vs : list (option bytes))
| Finishing (v : Verdict).

(** The rest of a channel's conversation, once the event was received or not, and
    once there are answers or not. *)
Definition heard_of (o : option Answers) : Outcome Answers PamExit :=
  match o with Some ans => Ok ans | None => Err (Fail Timeout) end.
Definition ask_tail (received : bool) p : Res W U Answers :=
  if received then Recv p (λ o q, Ret (heard_of o) q) else Ret (Err (Fail Timeout)) p.

Definition at_pos (w : Worker (W:=W) (U:=U)) (pos : Pos) : Prop :=
  match pos with
  | Begun => ∃ t, w = Running t ∧ ∀ p, p.(handles) !! h = Some a → t p = after_call (run_stack h (pam_call stack_of h flags p.(sys)) p)
  | Asking ms n k => ∃ K, w = Sending (EvPrompt ms) K ∧ ∀ b p, cancelled (K b p) = cancelled (after_call (follow h a k n (ask_tail b p))) ∧
      (b = true → ∃ K2, K b p = Recv p K2 ∧ ∀ o q, K2 o q = after_call (follow h a k n (Ret (heard_of o) q)))
  | Waiting n k =>
      (∃ t, w = Running t ∧ ∀ p, ∃ K2, t p = Recv p K2 ∧ ∀ o q, K2 o q = after_call (follow h a k n (Ret (heard_of o) q))) ∨
      (∃ K, w = Receiving K ∧ ∀ o q, K o q = after_call (follow h a k n (Ret (heard_of o) q)))
  | Heard n k ans vs => ∃ t, w = Running t ∧ ∀ p, t p = after_call (follow h a k n (Ret (Ok ans) p))
  | Finishing v => ∃ K, w = Sending Finished K ∧ ∀ b p, K b p = Ret (Ok v) p
  end.

(** The buffers on their way. *)
Definition in_flight (pos : Pos) : list Z := match pos with Heard _ _ ans _ => addrs ans | _ => [] end.
Definition pos_sane (pos : Pos) : Prop :=
  match pos with
  | Asking _ _ k | Waiting _ k | Heard _ k _ _ => ∀ rc r w, sane (k rc r w)
  | _ => True
  end.

(** And the process then, with the slot [s]. *)
Definition pos_ok (pos : Pos) (s : ConvSlot U) p : Prop :=
  usable txn s p ∧ pos_sane pos ∧
  match pos with
  | Finishing v => s.(conv) = restore ∧ s.(failure) = None ∧ (x ∉ p.(channels)) ∧ v.1.(hdl) = h ∧ v.1.(slot) = a
  | Heard _ _ ans vs => s.(conv) = Channel x ∧ x ∈ p.(channels) ∧ secrets p.(heap) ans vs
  | _ => s.(conv) = Channel x ∧ x ∈ p.(channels)
  end.
(** ** Its steps *)
(** What it goes on with: a stack, and the slot. *)
Definition resume (pos : Pos) (s : ConvSlot U) (w : W) : Stack W * ConvSlot U :=
  match pos with
  | Heard n k _ vs =>
      let '(f, responses, w) := reply_to (U:=U) n (Ok vs) w in
      (k (code_of f) responses w, mkSlot s.(conv) s.(log) (first s.(failure) f))
  | _ => (pam_call stack_of h flags w, s)
  end.
Definition goes_on (pos : Pos) : Prop := match pos with Begun | Heard _ _ _ _ => True | _ => False end.

(** Where a stop of the stack leaves the worker. *)
Definition stopped (r : Rest) (w : Worker) p p' : Prop :=
  match r with
  | Asks ms n k s' w1 => at_pos w (Asking ms n k) ∧ pos_ok (Asking ms n k) s' p' ∧ p'.(sys) = w1 ∧ drove [] p p'
  | Ends rc s' w1 => at_pos w (Finishing (verdict_on rc s'.(failure))) ∧
      pos_ok (Finishing (verdict_on rc s'.(failure))) (mkSlot restore s'.(log) None) p' ∧ p'.(sys) = w1 ∧ drove [Ran h stack_of flags rc] p p'
  end.

Lemma stopped_from r w p1 p2 p3 : drove [] p1 p2 → stopped r w p2 p3 → stopped r w p1 p3.
Proof. intros H1. destruct r; intros (? & ? & ? & ?); repeat (split; [done|]); by eapply drove_after. Qed.

Lemma tree_stops t s p : sane t → usable txn s p → s.(conv) = Channel x → x ∈ p.(channels) → ∃ w' p',
  stopped_at (after_call (run_stack h t p)) = (w', p') ∧ p'.(heap) = p.(heap) ∧ stopped (settles t s) w' p p'.
Proof.
  intros Ht (Hf & Hh & Hs) Hc Hx. pose proof (run_settles h a x t Ht s p Hh Hs Hf Hc) as Hr. destruct (settles t s) as [ms n k s' w|rc s' w].
  - destruct Hr as (Hc' & Hk & p1 & H1 & F1 & E1 & S1 & K1 & L1). rewrite H1. eexists _, p1. split; [reflexivity|]. split; [done|].
    split; [|split; [|split; [done|by apply kept_drove]]].
    + eexists. split; [reflexivity|]. intros b q. destruct b; (split; [reflexivity|]); [|done]. intros _. eexists. split; [reflexivity|]. by intros [l|] q'.
    + split; [split; [done|]; split; [by rewrite (k_handles _ _ _ K1)|done]|]. split; [done|]. split; [done|]. by rewrite (k_channels _ _ _ K1).
  - destruct Hr as (Hc' & p1 & H1 & F1 & E1 & S1 & K1 & L1). rewrite H1.
    destruct (after_call_ret rc s' p1) as (p2 & K & H2 & HK & Hu2 & E2 & S2 & X2 & D2); [split; [done|]; split; [by rewrite (k_handles _ _ _ K1)|done]|done|].
    rewrite H2. exists (Sending Finished K), p2. split; [done|]. split; [congruence|]. split; [by exists K|]. split; [done|]. split; [congruence|].
    eapply drove_after; [by apply kept_drove|done].
Qed.

Lemma grown_purge (g : Heap) N : grown (purge g N) g N.
Proof. split; intros b Hb; rewrite lookup_purge; [by rewrite decide_False|by rewrite decide_True]. Qed.

(** With answers, the round is concluded before the stack goes on. *)
Lemma heard_follows n k ans vs s p : pos_ok (Heard n k ans vs) s p →
  let '(t, s1) := resume (Heard n k ans vs) s p.(sys) in
  ∃ p1, follow h a k n (Ret (Ok ans) p) = run_stack h t p1 ∧ sane t ∧ usable txn s1 p1 ∧ s1.(conv) = Channel x ∧ x ∈ p1.(channels) ∧
    p1.(heap) = purge p.(heap) (addrs ans) ∧ drove [] p p1 ∧ p1.(sys) = (reply_to (U:=U) n (Ok vs) p.(sys)).2.
Proof.
  intros ((Hf & Hh & Hs) & Hk & Hc & Hx & Hsec). unfold resume.
  pose proof (follow_runs h a k n (Ok ans) (Ok vs) (purge p.(heap) (addrs ans)) p s Hf Hs (conj Hsec (grown_purge _ _))) as Hfo.
  destruct (reply_to n (Ok vs) p.(sys)) as [[f responses] w]. destruct Hfo as (p1 & H1 & F1 & E1 & S1 & K1 & L1). exists p1.
  split; [done|]. split; [apply Hk|]. split; [split; [done|]; split; [by rewrite (k_handles _ _ _ K1)|done]|]. split; [done|].
  split; [by rewrite (k_channels _ _ _ K1)|]. split; [done|]. split; [by apply kept_drove|done].
Qed.

Lemma goes_to_stop w pos s p : at_pos w pos → pos_ok pos s p → goes_on pos → 
  let '(t, s1) := resume pos s p.(sys) in
  ∃ w' p', to_stop w p = (Ok w', p') ∧ p'.(heap) = purge p.(heap) (in_flight pos) ∧ stopped (settles t s1) w' p p'.
Proof.
  intros Hw Hp Hg. destruct pos as [|?|?|n k ans vs|?]; try done.
  - destruct Hw as (t & -> & Ht). destruct Hp as (Hu & _ & Hc & Hx). cbn [resume].
    destruct (tree_stops (pam_call stack_of h flags p.(sys)) s p (call_sane _ _ _ _) Hu Hc Hx) as (w' & p' & H1 & E1 & H2).
    exists w', p'. split; [|done]. cbn [to_stop]. destruct Hu as (_ & Hh & _). rewrite Ht by done. by rewrite H1.
  - destruct Hw as (t & -> & Ht). pose proof (heard_follows n k ans vs s p Hp) as Hfo. destruct (resume _ s p.(sys)) as [t1 s1].
    destruct Hfo as (p1 & H1 & Hs1 & Hu1 & Hc1 & Hx1 & E1 & D1 & S1).
    destruct (tree_stops t1 s1 p1 Hs1 Hu1 Hc1 Hx1) as (w' & p' & H2 & E2 & H3). exists w', p'. split; [cbn [to_stop]; by rewrite Ht, H1, H2|].
    split; [by rewrite E2|]. by eapply stopped_from.
Qed.

(** Elsewhere it stays, or just comes to its stop. *)
Lemma stays_at w pos s p : at_pos w pos → pos_ok pos s p → ¬ goes_on pos →
  ∃ w' p', to_stop w p = (Ok w', p') ∧ at_pos w' pos ∧ p' = p ∧ match pos with Waiting n k => ∃ K, w' = Receiving K ∧ ∀ o q, K o q = after_call (follow h a k n (Ret (heard_of o) q)) | _ => w' = w end.
Proof.
  intros Hw Hp Hg. destruct pos as [|ms n k|n k|?|v]; try done.
  - exists w, p. destruct Hw as (K & -> & HK). split; [done|]. split; [by exists K|done].
  - destruct Hw as [(t & -> & Ht)|(K & -> & HK)].
    + destruct (Ht p) as (K2 & H2 & HK2). exists (Receiving K2), p. split; [cbn [to_stop]; by rewrite H2|]. split; [right; by exists K2|]. split; [done|]. by exists K2.
    + exists (Receiving K), p. split; [done|]. split; [right; by exists K|]. split; [done|]. by exists K.
  - exists w, p. destruct Hw as (K & -> & HK). split; [done|]. split; [by exists K|done].
Qed.

(** ** Its end when the driver lets go *)
(** The code, the log and the failure it ends with, and the world. *)
Definition let_go_of (pos : Pos) (s : ConvSlot U) (w : W) : Verdict * list (list Message) * W :=
  match pos with
  | Finishing v => (v, s.(log), w)
  | Begun | Heard _ _ _ _ =>
      let '(t, s1) := resume pos s w in
      let '(rc, s', w') := talk t s1 in (verdict_on rc s'.(failure), s'.(log), w')
  | Asking _ n k | Waiting n k =>
      let '(f, responses, w) := reply_to (U:=U) n (Err Timeout) w in
      let '(rc, s', w') := talk (k (code_of f) responses w) (mkSlot s.(conv) s.(log) (first s.(failure) f)) in
      (verdict_on rc s'.(failure), s'.(log), w')
  end.

(** The process when the worker has exited with the verdict [v]. *)
Definition exited (pos : Pos) (lg : list (list Message)) (w : W) (v : Verdict) p p' : Prop :=
  usable txn (mkSlot restore lg None) p' ∧ p'.(heap) = purge p.(heap) (in_flight pos) ∧ p'.(sys) = w ∧ (x ∉ p'.(channels)) ∧
  drove match pos with Finishing _ => [] | _ => [Ran h stack_of flags v.1.(last)] end p p'.

Lemma says_channel t : ∀ s, s.(conv) = Channel x → (talk (U:=U) t s).1.2.(conv) = Channel x.
Proof.
  induction t as [rc w|n l place w k IH]; intros s Hc; cbn [talk]; [done|]. destruct (question n l place); try by apply IH.
  rewrite Hc. cbn [says]. destruct (reply_to _ _ _) as [[f r] w2]. by apply IH.
Qed.

Lemma tree_cancelled t s p : sane t → usable txn s p → s.(conv) = Channel x →
  let '(rc, s', w) := talk t s in
  ∃ p', cancelled (after_call (run_stack h t p)) = (Ok (verdict_on rc s'.(failure)), p') ∧
    usable txn (mkSlot restore s'.(log) None) p' ∧ p'.(heap) = p.(heap) ∧ p'.(sys) = w ∧ (x ∉ p'.(channels)) ∧ drove [Ran h stack_of flags rc] p p'.
Proof.
  intros Ht (Hf & Hh & Hs) Hc. pose proof (run_talks h a t Ht s p Hh Hs Hf) as Hr. pose proof (says_channel t s Hc) as Hc'. destruct (talk t s) as [[rc s'] w].
  destruct Hr as (p1 & F1 & E1 & S1 & K1 & L1 & _ & C1).
  destruct (after_call_ret rc s' p1) as (p2 & K & H2 & HK & Hu2 & E2 & S2 & X2 & D2); [split; [done|]; split; [by rewrite (k_handles _ _ _ K1)|done]|done|].
  exists p2. split.
  - unfold after_call. rewrite !cancelled_bind, C1. unfold after_call in H2. cbn [res_bind] in H2.
    assert (cancelled (res_bind finish_tail (res_bind (λ r, mret (r.2, r.1)) (op_tail txn stack_of flags rc p1))) = (Ok (verdict_on rc s'.(failure)), p2)) as H3
      by (rewrite H2; simpl; by rewrite HK).
    rewrite !cancelled_bind in H3. exact H3.
  - split; [done|]. split; [congruence|]. split; [congruence|]. split; [done|]. eapply drove_after; [by apply kept_drove|done].
Qed.
(** Nobody answers a round that is asked. *)
Lemma unanswered n k s p : usable txn s p → (∀ rc r w, sane (k rc r w)) → s.(conv) = Channel x →
  let '(f, responses, w) := reply_to (U:=U) n (Err Timeout) p.(sys) in
  let '(rc, s', w') := talk (k (code_of f) responses w) (mkSlot s.(conv) s.(log) (first s.(failure) f)) in
  ∃ p', cancelled (after_call (follow h a k n (Ret (Err (Fail Timeout)) p))) = (Ok (verdict_on rc s'.(failure)), p') ∧
    usable txn (mkSlot restore s'.(log) None) p' ∧ p'.(heap) = p.(heap) ∧ p'.(sys) = w' ∧ (x ∉ p'.(channels)) ∧ drove [Ran h stack_of flags rc] p p'.
Proof.
  intros (Hf & Hh & Hs) Hk Hc. pose proof (follow_runs h a k n (Err (Fail Timeout)) (Err Timeout) p.(heap) p s Hf Hs (conj eq_refl eq_refl)) as Hfo.
  destruct (reply_to n (Err Timeout) p.(sys)) as [[f responses] w]. destruct Hfo as (p1 & H1 & F1 & E1 & S1 & K1 & L1).
  pose proof (tree_cancelled (k (code_of f) responses w) (mkSlot s.(conv) s.(log) (first s.(failure) f)) p1 (Hk _ _ _)) as Ht.
  destruct (talk _ _) as [[rc s'] w']. destruct Ht as (p2 & H2 & Hu2 & E2 & S2 & X2 & D2); [split; [done|]; split; [by rewrite (k_handles _ _ _ K1)|done]|done|].
  exists p2. split; [by rewrite H1|]. split; [done|]. split; [congruence|]. split; [done|]. split; [done|]. eapply drove_after; [by apply kept_drove|done].
Qed.

Lemma join_runs w pos s p : at_pos w pos → pos_ok pos s p →
  let '(v, lg, w1) := let_go_of pos s p.(sys) in
  ∃ p', join w p = (Ok (Ok v), p') ∧ exited pos lg w1 v p p'.
Proof.
  intros Hw Hp. unfold exited. destruct pos as [|ms n k|n k|n k ans vs|v]; cbn [let_go_of in_flight].
  - destruct Hw as (t & -> & Ht). destruct Hp as (Hu & _ & Hc & Hx). cbn [resume].
    pose proof (tree_cancelled (pam_call stack_of h flags p.(sys)) s p (call_sane _ _ _ _) Hu Hc) as Hr. destruct (talk _ s) as [[rc s'] w1].
    destruct Hr as (p' & H1 & H2). exists p'. split; [|done]. unfold join, caught_app. destruct Hu as (_ & Hh & _). by rewrite Ht, H1.
  - destruct Hw as (K & -> & HK). destruct Hp as (Hu & Hk & Hc & Hx). pose proof (unanswered n k s p Hu Hk Hc) as Hr.
    destruct (reply_to _ _ _) as [[f r] w0]. destruct (talk _ _) as [[rc s'] w1]. destruct Hr as (p' & H1 & H2). exists p'. split; [|done].
    unfold join, caught_app. destruct (HK false p) as [-> _]. unfold ask_tail. by rewrite H1.
  - destruct Hp as (Hu & Hk & Hc & Hx). pose proof (unanswered n k s p Hu Hk Hc) as Hr.
    destruct (reply_to _ _ _) as [[f r] w0]. destruct (talk _ _) as [[rc s'] w1]. destruct Hr as (p' & H1 & H2). exists p'. split; [|done].
    unfold join, caught_app. destruct Hw as [(t & -> & Ht)|(K & -> & HK)].
    + destruct (Ht p) as (K2 & -> & HK2). cbn [cancelled]. rewrite HK2. cbn [heard_of]. by rewrite H1.
    + rewrite HK. cbn [heard_of]. by rewrite H1.
  - destruct Hw as (t & -> & Ht). pose proof (heard_follows n k ans vs s p Hp) as Hfo. destruct (resume _ s p.(sys)) as [t1 s1].
    destruct Hfo as (p1 & H1 & Hs1 & Hu1 & Hc1 & Hx1 & E1 & D1 & S1). pose proof (tree_cancelled t1 s1 p1 Hs1 Hu1 Hc1) as Hr. destruct (talk t1 s1) as [[rc s'] w1].
    destruct Hr as (p' & H2 & Hu2 & E2 & S2 & X2 & D2). exists p'. split; [unfold join, caught_app; by rewrite Ht, H1, H2|].
    split; [done|]. split; [congruence|]. split; [done|]. split; [done|]. by eapply drove_after.
  - destruct Hw as (K & -> & HK). destruct Hp as (Hu & _ & Hc & Hn & Hx & _). exists p. split; [unfold join, caught_app; by rewrite HK|].
    split; [by destruct s; simpl in *; subst|]. split; [done|]. split; [done|]. split; [done|]. apply kept_drove. reflexivity.
Qed.
End Exchange.
End Worker.
