(* ===== verification/PamDrive.v ===== *)
(** An exchange from its driver's side: what each call gives, any interleaving of
    calls, and a whole exchange with given answers. *)
From S2P Require Import Prelude XdrBase Utf8 PamError Pam PamConv PamTxn PamStep PamMem PamTalk PamTxnOk PamExchange.
Local Open Scope Z_scope.

(** A failure that is not a panic. *)
Definition calm (f : option Failure) : Prop := f ≠ Some FailPanic.

Lemma calm_first old new : calm old → calm new → calm (first old new).
Proof. by destruct old. Qed.

(** And neither one that a driver made by letting go. *)
Definition still (f : option Failure) : Prop := calm f ∧ f ≠ Some (FailErr Timeout).

Lemma still_first old new : still old → still new → still (first old new).
Proof. by destruct old. Qed.

Lemma still_verdict rc f : still f → (∀ s, verdict rc f ≠ Stop s) ∧ verdict rc f ≠ Err Timeout ∧ (verdict rc f = Ok tt → rc = PAM_SUCCESS).
Proof.
  unfold still, calm, verdict. intros [H1 H2]. destruct f as [[e|]|]; [|done|].
  - split; [done|]. split; [|done]. congruence.
  - split; [apply check_stop|]. split; [|apply check_Ok]. intros H%check_Err. by destruct H.
Qed.

Lemma unreadable_still n l place e : question n l place = Unreadable e → still (Some (FailErr e)).
Proof.
  unfold question. destruct l as [l|], place; try done. case_match; [|done]. case_decide; [|done].
  generalize (take (Z.to_nat n) l). intros l'. destruct (read_messages l') as [|e'|] eqn:Hm; intros ?; simplify_eq. split; [done|].
  revert Hm. clear. induction l' as [|[m|] l' IH]; simpl; [done| |congruence]. case_match; [|congruence].
  unfold outcome_map. destruct (read_messages l'); simpl; [done| |done]. intros [= ->]. by apply IH.
Qed.

Lemma calm_verdict rc f s : calm f → verdict rc f ≠ Stop s.
Proof. unfold calm, verdict. destruct f as [[]|]; [done|done|]. intros _. apply check_stop. Qed.

Section Driver.
Context {W U : Type} {pam : Libpam W U} {laws : LibpamLaws W U}.
Implicit Types p : Proc W U.
Context (op : Op) (txn : Transaction) (flags : Flags) (restore : Conversation U) (x : Z).
Abbreviation h := (txn.(hdl)).
Abbreviation a := (txn.(slot)).
Abbreviation at_pos' := (at_pos op txn flags restore).
Abbreviation pos_ok' := (pos_ok txn restore x).
Abbreviation drove' := (drove txn x).
Abbreviation resume' := (resume op txn flags).
Abbreviation ran rc := (Ran h (stack_of op) flags rc).

(** ** Failures that are not panics stay so *)
Lemma build_still vs (w : W) : match (build_spec (U:=U) vs w).1 with Stop _ => False | Err e => e ≠ Timeout | Ok _ => True end.
Proof.
  unfold build_spec. destruct (has_memory _ w) as [[|] w1]; [|done]. clear w. revert w1. induction vs as [|[b|] vs IH]; intros w; simpl; [done| |apply IH].
  case_decide; [done|]. destruct (has_memory _ w) as [[|] w2]; [apply IH|done].
Qed.

Lemma reply_still n vs (w : W) : still (reply_to (U:=U) n (Ok vs) w).1.1.
Proof.
  simpl. case_decide; [|done]. pose proof (build_still vs w) as Hb. destruct (build_spec vs w) as [[| |s] w1]; simpl in *; [done| |done].
  split; [done|]. congruence.
Qed.

Lemma settles_still t : ∀ s : ConvSlot U, still s.(failure) → match settles (W:=W) t s with Asks _ _ _ s' _ | Ends _ s' _ => still s'.(failure) end.
Proof.
  induction t as [rc w|n l place w k IH]; intros s Hc; cbn [settles]; [done|]. destruct (question n l place) eqn:Hq; [by apply IH| |done|by apply IH].
  apply IH. apply still_first; [done|by eapply unreadable_still].
Qed.

Lemma talk_calm t : ∀ s, s.(conv) = Channel x → calm s.(failure) → calm (talk (U:=U) (W:=W) t s).1.2.(failure).
Proof.
  induction t as [rc w|n l place w k IH]; intros s Hx Hc; cbn [talk]; [done|]. destruct (question n l place); [by apply IH| | |by apply IH].
  - apply IH; [done|]. by apply calm_first.
  - rewrite Hx. cbn [says]. apply IH; [done|]. by apply calm_first.
Qed.

Lemma resume_still pos s w : still s.(failure) → still (resume' pos s w).2.(failure).
Proof.
  intros Hc. destruct pos as [| | |n k ans vs|]; try done. cbn [resume]. pose proof (reply_still n vs w) as Hr.
  destruct (reply_to n (Ok vs) w) as [[f r] w2]. by apply still_first.
Qed.

(** ** The state of an exchange *)
(** Under way: the driver waits for a round, has one, or gave up. *)
Definition driving (st : Stepped) (pos : Pos) (s : ConvSlot U) p : Prop :=
  ∃ w, st.(worker) = Some w ∧ at_pos' w pos ∧ pos_ok' pos s p ∧ st.(answers) = Some x ∧ st.(events) = Some x ∧ st.(done) = None ∧
  match pos with Finishing v => ∃ rc f, v = verdict_on txn rc f ∧ still f | _ => still s.(failure) end ∧
  match st.(phase), pos with
  | PhPrompting, Waiting _ _ => True
  | (PhStarted | PhStopped), Waiting _ _ => False
  | (PhStarted | PhStopped), _ => True
  | _, _ => False
  end.
(** Over, with the transaction back and its conversation restored. *)
Definition over (st : Stepped (W:=W) (U:=U)) (txn' : Transaction) (lg : list (list Message)) p : Prop :=
  st = mkStepped None None None PhEnded (Some txn') ∧ txn'.(hdl) = h ∧ txn'.(slot) = a ∧ usable txn (mkSlot restore lg None) p ∧ x ∉ p.(channels).

(** The next stop as the driver sees it: a round, or the verdict. *)
Inductive Halt : Type :=
| HAsks (ms : list Message) (n : nat) (k : Z → option (list (option bytes * Z)) → W → Stack W) (s : ConvSlot U) (w : W)
| HEnds (v : Verdict) (lg : list (list Message)) (w : W) (cs : list Call).

Definition halt_of (pos : Pos) (s : ConvSlot U) (w : W) : Halt :=
  match pos with
  | Asking ms n k => HAsks ms n k s w
  | Finishing v => HEnds v s.(log) w []
  | _ =>
      let '(t, s1) := resume' pos s w in
      match settles t s1 with
      | Asks ms n k s' w => HAsks ms n k s' w
      | Ends rc s' w => HEnds (verdict_on txn rc s'.(failure)) s'.(log) w [ran rc]
      end
  end.

(** What the driver is told there. *)
Definition collected (hl : Halt) (N : list Z) p (r : Outcome Step PamError) (st' : Stepped) p' : Prop :=
  p'.(heap) = purge p.(heap) N ∧
  match hl with
  | HAsks ms n k s' w => r = Ok (Prompt ms) ∧ st'.(phase) = PhPrompting ∧ driving st' (Waiting n k) s' p' ∧ p'.(sys) = w ∧ drove' [] p p'
  | HEnds v lg w cs => r = outcome_map (λ _, Done) v.2 ∧ (∃ rc f, v = verdict_on txn rc f ∧ still f) ∧ over st' v.1 lg p' ∧ p'.(sys) = w ∧ drove' cs p p'
  end.

(** A worker whose finish was received is joined. *)
Lemma reaped_finished st v lg p : usable txn (mkSlot restore lg None) p → x ∉ p.(channels) → v.1.(hdl) = h → v.1.(slot) = a → st.(done) = None →
  (∃ t, st.(worker) = Some (Running t) ∧ t p = Ret (Ok v) p) →
  ∃ st', reaped (set_phase st PhEnded) p = (Ok (outcome_map (λ _, Done) v.2, st'), p) ∧ over st' v.1 lg p.
Proof.
  intros Hu Hx Hh Ha Hd (t & Hw & Ht). exists (mkStepped None None None PhEnded (Some v.1)). split; [|done].
  unfold reaped, reap. cbn [worker set_phase]. rewrite Hw. unfold mbind, St_bind, join, caught_app. rewrite Ht. simpl. by destruct v as [tx []].
Qed.

(** The driver meets the worker at its stop. *)
Lemma collect_at_stop st w pos s p p0 N cs0 limit : st.(events) = Some x → st.(answers) = Some x → st.(done) = None →
  at_pos' w pos → pos_ok' pos s p → ¬ goes_on pos → (match pos with Waiting _ _ => False | _ => True end) →
  match pos with Finishing v => ∃ rc f, v = verdict_on txn rc f ∧ still f | _ => still s.(failure) end →
  p.(heap) = purge p0.(heap) N → drove' cs0 p0 p → (match pos with Finishing _ => True | _ => cs0 = [] end) →
  ∃ r st', (r ← meet w limit; told st r) p = (Ok (r, st'), p) ∧
    collected (match pos with Asking ms n k => HAsks ms n k s p.(sys) | Finishing v => HEnds v s.(log) p.(sys) cs0 | _ => HEnds (txn, Ok tt) [] p.(sys) [] end) N p0 r st' p.
Proof.
  intros Hev Han Hdn Hw Hp Hg Hnw Hcalm Eh Hdr Hcs. destruct pos as [|ms n k|?|?|v]; try done.
  - destruct Hw as (K & -> & HK). subst cs0. eexists _, _. split; [reflexivity|]. split; [done|]. split; [done|]. split; [done|]. split; [|done].
    exists (Running (K true)). split; [done|]. split; [left; exists (K true); split; [done|]; intros q; destruct (HK true q) as [_ HK2]; by apply HK2|].
    split; [done|]. done.
  - destruct Hw as (K & -> & HK). destruct Hp as (Hu & _ & Hc & Hn & Hx & Hh & Ha).
    destruct (reaped_finished (set_worker st (Some (Running (K true)))) v s.(log) p) as (st' & H1 & Ho); try done.
    { by destruct s; simpl in *; subst. } { exists (K true). by rewrite HK. }
    exists (outcome_map (λ _, Done) v.2), st'. split; [exact H1|]. split; [done|]. split; [done|]. done.
Qed.
Lemma pos_ok_sys pos s w p : pos_ok' pos s p → pos_ok' pos s (set_sys w p).
Proof. intros ((Hf & Hh & Hs) & Hk & Hr). split; [split; [by apply fresh_sys|done]|]. split; [done|]. by destruct pos. Qed.

Lemma collected_sys hl N w p r st' p' : collected hl N (set_sys w p) r st' p' → collected hl N p r st' p'.
Proof.
  intros [Eh H]. split; [done|]. assert (drove' [] p (set_sys w p)) as H0 by apply kept_drove, kept_sys.
  destruct hl; destruct H as (? & ? & ? & ? & ?); repeat (split; [done|]); by eapply drove_after.
Qed.

(** From a stop of the stack to the driver. *)
Lemma collect_stopped st w pos s p p' limit : st.(events) = Some x → st.(answers) = Some x → st.(done) = None → goes_on pos → still s.(failure) →
  (let '(t, s1) := resume' pos s p.(sys) in stopped op txn flags restore x (settles t s1) w p p') →
  p'.(heap) = purge p.(heap) (in_flight pos) →
  ∃ r st', (r ← meet w limit; told st r) p' = (Ok (r, st'), p') ∧ collected (halt_of pos s p.(sys)) (in_flight pos) p r st' p'.
Proof.
  intros Hev Han Hdn Hg Hc Hst Eh. assert (halt_of pos s p.(sys) = let '(t, s1) := resume' pos s p.(sys) in
      match settles t s1 with
      | Asks ms n k s' w => HAsks ms n k s' w
      | Ends rc s' w => HEnds (verdict_on txn rc s'.(failure)) s'.(log) w [ran rc]
      end) as -> by (by destruct pos). pose proof (resume_still pos s p.(sys) Hc) as Hc1.
  destruct (resume' pos s p.(sys)) as [t s1]. simpl in Hc1. pose proof (settles_still t s1 Hc1) as Hc2.
  destruct (settles t s1) as [ms n k s' w1|rc s' w1]; destruct Hst as (Hw & Hp & <- & Hd).
  - apply (collect_at_stop st w (Asking ms n k) s' p' p (in_flight pos) []); try done.
    simpl. tauto.
  - apply (collect_at_stop st w (Finishing (verdict_on txn rc s'.(failure))) (mkSlot restore s'.(log) None) p' p (in_flight pos) [ran rc]); try done; [simpl; tauto|]. by exists rc, s'.(failure).
Qed.

Definition gave_up (limit : option Z) (pos : Pos) (s : ConvSlot U) p (r : Outcome Step PamError) (st' : Stepped) p' : Prop :=
  goes_on pos ∧ limit ≠ None ∧ r = Err Timeout ∧ (∃ w1, p' = set_sys w1 p) ∧ st'.(phase) = PhStopped ∧ driving st' pos s p'.

Lemma collect_runs st limit pos s p : driving st pos s p → st.(phase) = PhStarted →
  ∃ r st' p', collect st limit p = (Ok (r, st'), p') ∧
    (gave_up limit pos s p r st' p' ∨
     ∃ w0, (limit = None → w0 = p.(sys)) ∧ collected (halt_of pos s w0) (in_flight pos) p r st' p').
Proof.
  intros (w & Hw & Hat & Hpo & Han & Hev & Hdn & Hcalm & Hph) Hst. rewrite Hst in Hph. unfold collect. rewrite Hev, Hw. unfold recv_event.
  assert (goes_on pos ∨ (¬ goes_on pos ∧ match pos with Waiting _ _ => False | _ => True end)) as [Hg|[Hg Hnw]] by (destruct pos; simpl; tauto).
  - assert (∃ t, w = Running t) as [t ->] by (destruct pos; try done; destruct Hat as (t & -> & _); eauto).
    assert (still s.(failure)) as Hc by (by destruct pos).
    set (look := match limit with Some d => sys_call (expires (U:=U) d) | None => mret false end : App W U bool).
    assert (∃ late w0, look p = (Ok late, set_sys w0 p) ∧ (limit = None → w0 = p.(sys) ∧ late = false)) as (late & w0 & Hl & Hnone).
    { subst look. destruct limit as [d|]; [|exists false, p.(sys); by rewrite set_sys_id]. unfold sys_call. destruct (expires d p.(sys)) as [b w0]. by exists b, w0. }
    unfold mbind at 1, St_bind at 1. unfold mbind at 1, St_bind at 1. change (match limit with Some d => sys_call (expires (U:=U) d) | None => mret false end) with look.
    rewrite Hl. destruct late.
    + eexists _, _, _. split; [reflexivity|]. left. split; [done|]. split; [intros Hl0; by destruct (Hnone Hl0)|]. split; [done|]. split; [by exists w0|]. split; [done|].
      exists (Running t). split; [done|]. split; [done|]. split; [by apply pos_ok_sys|]. repeat (split; [done|]). by destruct pos.
    + pose proof (goes_to_stop op txn flags restore x (Running t) pos s (set_sys w0 p) Hat (pos_ok_sys _ _ _ _ Hpo) Hg) as Hgo.
      destruct (resume' pos s (sys (set_sys w0 p))) as [t1 s1] eqn:Hres. destruct Hgo as (w' & p' & H1 & Eh & H2).
      destruct (collect_stopped st w' pos s (set_sys w0 p) p' limit Hev Han Hdn Hg Hc) as (r & st' & H3 & H4); [by rewrite Hres|done|].
      exists r, st', p'. split; [unfold mbind, St_bind in H3 |- *; by rewrite H1|]. right. exists w0. split; [naive_solver|]. by eapply collected_sys.
  - destruct (stays_at op txn flags restore x w pos s p Hat Hpo Hg) as (w' & p' & H1 & Hat' & -> & Hsame).
    assert (w' = w) as -> by (by destruct pos).
    destruct (collect_at_stop st w pos s p p [] [] limit Hev Han Hdn Hat Hpo Hg Hnw Hcalm) as (r & st' & H2 & H3); [done|apply kept_drove; reflexivity|by destruct pos|].
    exists r, st', p. split.
    + assert (∃ e K, w = Sending e K) as (e & K & ->) by (destruct pos; try done; destruct Hat as (K & -> & _); eauto). exact H2.
    + right. exists p.(sys). split; [done|]. by destruct pos.
Qed.

(** ** The driver's calls *)
Lemma wait_runs st limit pos s p : driving st pos s p → st.(phase) = PhStarted →
  ∃ r st' p', wait st limit p = (Ok (r, st'), p') ∧
    (gave_up limit pos s p r st' p' ∨
     ∃ w0, (limit = None → w0 = p.(sys)) ∧ collected (halt_of pos s w0) (in_flight pos) p r st' p').
Proof. intros Hd Hst. unfold wait. rewrite decide_True by done. by apply collect_runs. Qed.

(** Answers go to the worker that waits for them. *)
Lemma respond_runs st limit n k ans vs s p : driving st (Waiting n k) s p → secrets p.(heap) ans vs →
  ∃ r st' p', respond st ans limit p = (Ok (r, st'), p') ∧
    (gave_up limit (Heard n k ans vs) s p r st' p' ∨
     ∃ w0, (limit = None → w0 = p.(sys)) ∧ collected (halt_of (Heard n k ans vs) s w0) (addrs ans) p r st' p').
Proof.
  intros (w & Hw & Hat & Hpo & Han & Hev & Hdn & Hcalm & Hph) Hsec.
  assert (st.(phase) = PhPrompting) as Hst by (by destruct st.(phase)).
  unfold respond. rewrite decide_True by done. rewrite Han, Hw. unfold send_answers.
  destruct (stays_at op txn flags restore x w (Waiting n k) s p Hat Hpo ltac:(simpl; tauto)) as (w' & p' & H1 & Hat' & -> & K & -> & HK).
  assert (driving (set_phase (set_worker st (Some (Running (K (Some ans))))) PhStarted) (Heard n k ans vs) s p) as Hd.
  { exists (Running (K (Some ans))). split; [done|]. split; [exists (K (Some ans)); split; [done|]; intros q; by rewrite HK|].
    destruct Hpo as (Hu & Hk & Hc & Hx). split; [done|]. done. }
  destruct (collect_runs _ limit _ s p Hd eq_refl) as (r & st' & p' & H2 & H3). exists r, st', p'. split; [|done].
  unfold mbind, St_bind. rewrite H1. exact H2.
Qed.

(** Out of turn, a call changes nothing, and drops what it was given. *)
Lemma wait_refused st limit p : st.(phase) ≠ PhStarted → wait (W:=W) (U:=U) st limit p = (Ok (Err OutOfSequence, st), p).
Proof. intros H. unfold wait. by rewrite decide_False. Qed.

Lemma respond_refused st limit ans vs p : st.(phase) ≠ PhPrompting → secrets p.(heap) ans vs →
  ∃ p', respond st ans limit p = (Ok (Err OutOfSequence, st), p') ∧ quiet p p' ∧ p'.(heap) = purge p.(heap) (addrs ans) ∧ p'.(sys) = p.(sys).
Proof.
  intros H Hs. unfold respond. rewrite decide_False by done. destruct (drop_answers_runs ans vs p Hs) as (p' & H1 & Q1 & E1 & S1 & _).
  exists p'. split; [by rewrite (run_bind_ok _ _ _ _ _ H1)|done].
Qed.

(** *** The end *)
Lemma let_go_calm pos s w e : match pos with Finishing v => ∃ rc f, v = verdict_on txn rc f ∧ still f | _ => still s.(failure) end →
  (match pos with Finishing _ => True | _ => s.(conv) = Channel x end) → (let_go_of op txn flags pos s w).1.1.2 ≠ Stop e.
Proof.
  intros Hc Hx. destruct pos as [|ms n k|n k|n k ans vs|v]; cbn [let_go_of].
  - pose proof (talk_calm (resume' Begun s w).1 s Hx (proj1 Hc)) as Ht. cbn [resume fst] in Ht |- *. destruct (talk _ s) as [[rc s'] w1]. by apply calm_verdict.
  - simpl. pose proof (talk_calm (k PAM_CONV_ERR None w) (mkSlot s.(conv) s.(log) (first s.(failure) (Some (FailErr Timeout)))) Hx (calm_first s.(failure) (Some (FailErr Timeout)) (proj1 Hc) ltac:(done))) as Ht.
    destruct (talk _ _) as [[rc s'] w1]. by apply calm_verdict.
  - simpl. pose proof (talk_calm (k PAM_CONV_ERR None w) (mkSlot s.(conv) s.(log) (first s.(failure) (Some (FailErr Timeout)))) Hx (calm_first s.(failure) (Some (FailErr Timeout)) (proj1 Hc) ltac:(done))) as Ht.
    destruct (talk _ _) as [[rc s'] w1]. by apply calm_verdict.
  - pose proof (resume_still (Heard n k ans vs) s w Hc) as [Hr _]. assert ((resume' (Heard n k ans vs) s w).2.(conv) = Channel x) as Hx'.
    { cbn [resume]. by destruct (reply_to n (Ok vs) w) as [[f r] w1]. }
    destruct (resume' _ s w) as [t s1]. pose proof (talk_calm t s1 Hx' Hr) as Ht. destruct (talk t s1) as [[rc s'] w1]. by apply calm_verdict.
  - destruct Hc as (rc & f & -> & Hc). by apply still_verdict.
Qed.

Lemma driving_conv st pos s p : driving st pos s p → match pos with Finishing _ => True | _ => s.(conv) = Channel x end.
Proof. intros (w & _ & _ & Hpo & _). destruct Hpo as (_ & _ & Hc). destruct pos; [by destruct Hc..|done]. Qed.

(** The worker is joined: it was told that nobody is there. *)
Lemma reap_runs st pos s p : driving st pos s p →
  let '(v, lg, w1) := let_go_of op txn flags pos s p.(sys) in
  ∃ p', reap st p = (Ok (v.2, mkStepped None None None st.(phase) (Some v.1)), p') ∧ exited op txn flags restore x pos lg w1 v p p' ∧ (∀ e, v.2 ≠ Stop e).
Proof.
  intros Hd. pose proof (driving_conv _ _ _ _ Hd) as Hx. destruct Hd as (w & Hw & Hat & Hpo & Han & Hev & Hdn & Hcalm & Hph).
  pose proof (join_runs op txn flags restore x w pos s p Hat Hpo) as Hj. pose proof (λ e, let_go_calm pos s p.(sys) e Hcalm Hx) as Hs.
  destruct (let_go_of op txn flags pos s p.(sys)) as [[v lg] w1]. destruct Hj as (p' & H1 & H2). exists p'. split; [|done].
  unfold reap. rewrite Hw. rewrite (run_bind_ok _ _ _ _ _ H1). by destruct v.
Qed.

Lemma finish_runs st pos s p : driving st pos s p →
  let '(v, lg, w1) := let_go_of op txn flags pos s p.(sys) in
  ∃ p', finish st p = Ret (Ok v.1) p' ∧ exited op txn flags restore x pos lg w1 v p p'.
Proof.
  intros Hd. pose proof (reap_runs st pos s p Hd) as Hr. destruct (let_go_of op txn flags pos s p.(sys)) as [[v lg] w1].
  destruct Hr as (p' & H1 & H2 & H3). exists p'. split; [|done]. unfold finish. rewrite (run_now _ _ _ _ _ H1). simpl.
  destruct v as [tx [|e|e]]; simpl in *; [done|done|]. by destruct (H3 e).
Qed.

Lemma finish_over st txn' lg p : over st txn' lg p → finish st p = Ret (Ok txn') p.
Proof. by intros (-> & _). Qed.
End Driver.

(** An exchange over time: it begins, its driver calls it, its worker goes on and
    the rest of the process runs, in any order.  It is never stuck, and the
    transaction comes back from any state. *)

Section Drive.
Context {W U : Type} {pam : Libpam W U} {laws : LibpamLaws W U}.
Implicit Types p : Proc W U.

(** ** The beginning *)
(** The slot while the channel of an exchange is in it. *)
Definition channelled (x : Z) (s : ConvSlot U) : ConvSlot U := mkSlot (Channel x) s.(log) s.(failure).

(** The process after an exchange began on [txn], or did not. *)
Definition begun_in (txn : Transaction) p p' : Prop :=
  p'.(heap) = p.(heap) ∧ (∀ b, b ≠ txn.(slot) → p'.(slots) !! b = p.(slots) !! b) ∧ p'.(handles) = p.(handles) ∧ p'.(calls) = p.(calls) ∧
  p'.(released) = p.(released) ∧ p.(next_block) ≤ p'.(next_block) ∧ p'.(sys) = (spawn (U:=U) p.(sys)).2.

Lemma run_runs op txn flags s p : usable txn s p → channel_free s.(conv) → still s.(failure) → ∃ p', begun_in txn p p' ∧
  match (spawn (U:=U) p.(sys)).1 with
  | None => let x := p.(next_block) in p'.(channels) = {[x]} ∪ p.(channels) ∧ ∃ st, run txn flags op p = (Ok (inl st), p') ∧ st.(phase) = PhStarted ∧
      driving op txn flags s.(conv) x st Begun (channelled x s) p'
  | Some errno => run txn flags op p = (Ok (inr (txn, Os (default EAGAIN errno))), p') ∧ usable txn s p' ∧ p'.(channels) = p.(channels)
  end.
Proof.
  intros (Hf & Hh & Hs) Hc Hcalm. set (x := p.(next_block)).
  set (p1 := mkProc p.(heap) (x + 1) p.(released) p.(slots) p.(handles) ({[x]} ∪ p.(channels)) p.(calls) p.(sys)).
  set (p2 := put_at txn.(slot) (channelled x s) p1). set (p3 := set_sys (spawn (U:=U) p.(sys)).2 p2).
  assert (fresh_ok p2) as F2. { destruct Hf as [H1 H2 H3 H4]. split; simpl; intros b Hb; [apply H1; unfold x in *; lia| |apply H3; unfold x in *; lia|].
    2:{ intros [->%elem_of_singleton|Hin]%elem_of_union; [lia|]. apply (H4 b); [unfold x in *; lia|done]. }
    rewrite lookup_insert_ne; [apply H2; unfold x in *; lia|]. intros <-. rewrite H2 in Hs; [done|unfold x in *; lia]. }
  assert (set_conversation txn (Channel x) p1 = (Ok s.(conv), p2)) as H1.
  { unfold set_conversation, replace_conv. by rewrite (run_bind_ok _ _ _ _ _ (the_slot_runs _ _ p1 Hs)). }
  assert (sys_call (spawn (U:=U)) p2 = (Ok (spawn (U:=U) p.(sys)).1, p3)) as H2 by (unfold sys_call; simpl; by destruct (spawn p.(sys))).
  assert (∀ B (f : Z → Conversation U → option (option Z) → App W U B),
    (x ← fresh_address; modify (λ p, set_channels ({[x]} ∪ p.(channels)) p);; restore ← set_conversation txn (Channel x); spawned ← sys_call (spawn (U:=U)); f x restore spawned) p
    = f x s.(conv) (spawn (U:=U) p.(sys)).1 p3) as Hrun.
  { intros B f. rewrite (run_bind_ok fresh_address _ _ _ _ eq_refl). rewrite run_modify. fold x. change (set_channels _ _) with p1.
    rewrite (run_bind_ok _ _ _ _ _ H1). by rewrite (run_bind_ok _ _ _ _ _ H2). }
  destruct (spawn (U:=U) p.(sys)).1 as [errno|] eqn:Hsp.
  - set (p4 := set_channels (p3.(channels) ∖ {[x]}) (put_at txn.(slot) s p3)). exists p4.
    assert (p4.(slots) = p.(slots)) as L4 by (simpl; rewrite insert_insert_eq; by apply insert_id).
    split; [split; [done|]; split; [by rewrite L4|]; repeat (split; [done|]); split; [simpl; lia|done]|]. split; [|split].
    + unfold run. rewrite Hrun. cbv beta iota. assert (set_conversation txn s.(conv) p3 = (Ok (Channel x), put_at txn.(slot) s p3)) as H3.
      { unfold set_conversation, replace_conv. rewrite (run_bind_ok _ _ _ (channelled x s) p3) by (apply the_slot_runs; simpl; by rewrite lookup_insert_eq). by destruct s. }
      by rewrite (run_bind_ok _ _ _ _ _ H3).
    + split; [|split; [done|by rewrite L4]]. destruct F2 as [G1 G2 G3 G4]. split; try done; [|simpl in *; set_solver].
      intros b Hb. rewrite L4. apply (f_slots p Hf). simpl in Hb. unfold x in *. lia.
    + simpl. assert (x ∉ p.(channels)) by (apply (f_channels p Hf); done). set_solver.
  - exists p3. split; [|split; [done|]].
    { split; [done|]. split; [intros b Hb; simpl; by rewrite lookup_insert_ne|]. repeat (split; [done|]). split; [simpl; lia|done]. }
    eexists. split; [unfold run; rewrite Hrun; reflexivity|]. split; [done|]. eexists. split; [reflexivity|]. split.
    { exists (worker_main op txn flags s.(conv)). split; [done|]. intros q Hq. by apply main_is. }
    split; [split; [split; [by apply fresh_sys|]|]|].
    + split; [done|]. simpl. by rewrite lookup_insert_eq.
    + split; [done|]. split; [done|]. simpl. set_solver.
    + done.
Qed.

Section One.
Context (op : Op) (txn : Transaction) (flags : Flags) (restore : Conversation U) (x : Z).
Abbreviation h := (txn.(hdl)).
Abbreviation a := (txn.(slot)).
Abbreviation driving' := (driving op txn flags restore x).

(** ** The drop of an exchange *)
(** The handle is ended and its slot is gone. *)
Definition gone (N : list Z) p p' : Prop :=
  fresh_ok p' ∧ p'.(heap) = purge p.(heap) N ∧ p'.(handles) = delete h p.(handles) ∧ p'.(slots) !! a = None ∧
  (∀ b, b ≠ a → p'.(slots) !! b = p.(slots) !! b) ∧ (x ∉ p'.(channels)) ∧
  (∃ st cs, p'.(calls) = p.(calls) ++ cs ++ [EndedWith h st] ∧ (∀ c, c ∈ cs → ∃ rc, c = Ran h (stack_of op) flags rc)) ∧
  ∃ zs, p'.(released) = p.(released) ++ zs ∧ Forall zeroed zs.

Lemma dropped_gone txn' lg p0 p N cs : txn'.(hdl) = h → txn'.(slot) = a → channel_free restore →
  usable txn (mkSlot restore lg None) p → (x ∉ p.(channels)) → p.(heap) = purge p0.(heap) N → drove txn x cs p0 p →
  (∀ c, c ∈ cs → ∃ rc, c = Ran h (stack_of op) flags rc) →
  ∃ p', Transaction_drop txn' p = Ret (Ok tt) p' ∧ gone N p0 p'.
Proof.
  intros Hh Ha Hc Hu Hx Eh [D1 D2 D3 D4 D5 (z1 & D6 & Hz1)] Hcs.
  destruct (Transaction_drop_runs txn' (mkSlot restore lg None) p) as (p' & H1 & F1 & E1 & S1 & Hh1 & L1 & L1' & C1 & X1 & N1 & z2 & R1 & Hz2).
  { unfold usable in *. by rewrite Hh, Ha. } { done. }
  exists p'. split; [done|]. rewrite Hh, Ha in *. split; [done|]. split; [congruence|]. split; [by rewrite Hh1, D2|]. split; [done|].
  split; [intros b Hb; by rewrite L1', D1|]. split; [by rewrite X1; destruct restore|]. split.
  - exists txn'.(last), cs. split; [rewrite C1, D4, <- app_assoc; done|done].
  - exists (z1 ++ z2). split; [rewrite R1, D6, <- app_assoc; done|]. by apply Forall_app.
Qed.

(** The worker's verdict comes with its transaction. *)
Lemma let_go_txn pos s w p : pos_ok txn restore x pos s p →
  (let_go_of op txn flags pos s w).1.1.1.(hdl) = h ∧ (let_go_of op txn flags pos s w).1.1.1.(slot) = a.
Proof.
  intros Hpo. destruct pos as [| | | |v]; cbn [let_go_of]; [..|by destruct Hpo as (_ & _ & _ & _ & _ & ? & ?)].
  - by destruct (resume _ _ _ _ s w) as [t s1], (talk t s1) as [[? ?] ?].
  - by destruct (reply_to _ _ _) as [[? ?] ?], (talk _ _) as [[? ?] ?].
  - by destruct (reply_to _ _ _) as [[? ?] ?], (talk _ _) as [[? ?] ?].
  - by destruct (resume _ _ _ _ s w) as [t s1], (talk t s1) as [[? ?] ?].
Qed.

Lemma Stepped_drop_runs st pos s p : driving' st pos s p → channel_free restore → ∃ p',
  Stepped_drop st p = Ret (Ok tt) p' ∧ gone (in_flight pos) p p'.
Proof.
  intros (w & Hw & Hat & Hpo & Han & Hev & Hdn & Hcalm & Hph) Hc. pose proof (join_runs op txn flags restore x w pos s p Hat Hpo) as Hj.
  pose proof (let_go_txn pos s p.(sys) p Hpo) as Hv.
  destruct (let_go_of op txn flags pos s p.(sys)) as [[[txn' r] lg] w1]. destruct Hj as (p1 & H1 & Hu1 & E1 & S1 & X1 & D1). simpl in Hv. destruct Hv as [Hh Ha].
  destruct (dropped_gone txn' lg p p1 (in_flight pos) _ Hh Ha Hc Hu1 X1 E1 D1) as (p2 & H2 & H3).
  { intros c Hin. destruct pos; [apply list_elem_of_singleton in Hin; eauto..|by apply elem_of_nil in Hin]. }
  exists p2. split; [|done]. unfold Stepped_drop. rewrite Hw, Hdn. unfold mbind at 1, Task_bind at 1. rewrite (run_now _ _ _ _ _ H1). by rewrite H2.
Qed.
Lemma over_drop_runs st txn' lg p : over txn restore x st txn' lg p → channel_free restore → ∃ p', Stepped_drop st p = Ret (Ok tt) p' ∧ gone [] p p'.
Proof.
  intros (-> & Hh & Ha & Hu & Hx) Hc. destruct (dropped_gone txn' lg p p [] [] Hh Ha Hc Hu Hx) as (p' & H1 & H2); [done|apply kept_drove; reflexivity|by intros c ?%elem_of_nil|].
  exists p'. split; [|done]. unfold Stepped_drop. cbn [worker done]. exact H1.
Qed.

(** ** Interleavings *)
(** The exchange, the process, and the buffers that the driver's side owns. *)
Record EConf : Type := mkEConf { ex : Stepped (W:=W) (U:=U); ex_proc : Proc W U; mine : gset Z }.

(** What the rest of the process can do meanwhile: it does not have the
    transaction, the channel, or buffers that are not its own. *)
Definition elsewhere (m : gset Z) p (m' : gset Z) p' : Prop :=
  fresh_ok p' ∧ p.(next_block) ≤ p'.(next_block) ∧
  p'.(handles) !! h = p.(handles) !! h ∧ p'.(slots) !! a = p.(slots) !! a ∧ (x ∈ p'.(channels) ↔ x ∈ p.(channels)) ∧
  (∀ b, b ∉ m → is_Some (p.(heap) !! b) → p'.(heap) !! b = p.(heap) !! b) ∧
  (∀ b, b ∈ m' → b ∈ m ∨ p.(next_block) ≤ b).

Inductive estep : EConf → EConf → Prop :=
| e_advance st st' p p' m : advance st p = (Ok st', p') → estep (mkEConf st p m) (mkEConf st' p' m)
| e_wait st st' p p' m limit r : wait st limit p = (Ok (r, st'), p') → estep (mkEConf st p m) (mkEConf st' p' m)
| e_respond st st' p p' m ans vs limit r : secrets p.(heap) ans vs → (∀ b, b ∈ addrs ans → b ∈ m) →
    respond st ans limit p = (Ok (r, st'), p') → estep (mkEConf st p m) (mkEConf st' p' (m ∖ list_to_set (addrs ans)))
| e_elsewhere st p p' m m' : elsewhere m p m' p' → estep (mkEConf st p m) (mkEConf st p' m').

Definition einv (c : EConf) : Prop :=
  (∃ pos s, driving' c.(ex) pos s c.(ex_proc) ∧ ∀ b, b ∈ in_flight pos → b ∉ c.(mine)) ∨
  (∃ txn' lg, over txn restore x c.(ex) txn' lg c.(ex_proc)).

(** The worker goes on to its stop, and is there. *)
Lemma advance_driving st pos s p : driving' st pos s p → ∃ st' pos' s' p' cs, advance st p = (Ok st', p') ∧ driving' st' pos' s' p' ∧
  st'.(phase) = st.(phase) ∧ drove txn x cs p p' ∧
  ((pos' = pos ∧ s' = s ∧ p' = p ∧ cs = []) ∨
   (goes_on pos ∧ in_flight pos' = [] ∧ cs = match pos' with Finishing v => [Ran h (stack_of op) flags v.1.(last)] | _ => [] end)).
Proof.
  intros (w & Hw & Hat & Hpo & Han & Hev & Hdn & Hcalm & Hph). unfold advance. rewrite Hw.
  assert (goes_on pos ∨ ¬ goes_on pos) as [Hg|Hg] by (destruct pos; simpl; tauto).
  - pose proof (goes_to_stop op txn flags restore x w pos s p Hat Hpo Hg) as Hgo. assert (still s.(failure)) as Hc by (by destruct pos).
    pose proof (resume_still op txn flags pos s p.(sys) Hc) as Hc1. destruct (resume op txn flags pos s p.(sys)) as [t s1].
    destruct Hgo as (w' & p1 & H1 & Eh & H2). rewrite (run_bind_ok _ _ _ _ _ H1).
    pose proof (settles_still t s1 Hc1) as Hc2. destruct (settles t s1) as [ms n k s' w1|rc s' w1]; destruct H2 as (Hat' & Hpo' & _ & Hd).
    + exists (set_worker st (Some w')), (Asking ms n k), s', p1, []. split; [done|]. split; [|split; [done|split; [done|by right]]].
      exists w'. repeat (split; [done|]). simpl. by destruct (st.(phase)), pos.
    + exists (set_worker st (Some w')), (Finishing (verdict_on txn rc s'.(failure))), (mkSlot restore s'.(log) None), p1, [Ran h (stack_of op) flags rc].
      split; [done|]. split; [|split; [done|split; [done|by right]]]. exists w'. split; [done|]. split; [exact Hat'|]. split; [exact Hpo'|].
      repeat (split; [done|]). split; [by exists rc, s'.(failure)|]. simpl. by destruct (st.(phase)), pos.
  - destruct (stays_at op txn flags restore x w pos s p Hat Hpo Hg) as (w' & p1 & H1 & Hat' & -> & _). rewrite (run_bind_ok _ _ _ _ _ H1).
    exists (set_worker st (Some w')), pos, s, p, []. split; [done|]. split; [by exists w'|]. split; [done|]. split; [apply kept_drove; reflexivity|by left].
Qed.

Lemma advance_inv st st' p p' m : einv (mkEConf st p m) → advance st p = (Ok st', p') → einv (mkEConf st' p' m).
Proof.
  intros [(pos & s & Hd & Hm)|(txn' & lg & Ho)] Ha; simpl in *.
  - destruct (advance_driving st pos s p Hd) as (st1 & pos1 & s1 & p1 & cs & H1 & Hd1 & _ & _ & Hcs). rewrite H1 in Ha. injection Ha as <- <-.
    left. exists pos1, s1. split; [done|]. destruct Hcs as [(-> & _)|(_ & E & _)]; [done|]. simpl. rewrite E. by intros b ?%elem_of_nil.
  - destruct Ho as (-> & Ho). unfold advance in Ha. simpl in Ha. injection Ha as <- <-. right. by exists txn', lg.
Qed.

(** The two ways a wait of the driver can end keep the invariant. *)
Lemma told_inv limit pos s w0 p r st' p' m : (∀ b, b ∈ in_flight pos → b ∉ m) →
  gave_up op txn flags restore x limit pos s p r st' p' ∨ collected op txn flags restore x (halt_of op txn flags pos s w0) (in_flight pos) p r st' p' →
  einv (mkEConf st' p' m) ∧ ∀ e, r ≠ Stop e.
Proof.
  intros Hm [(Hg & _ & -> & _ & Hph & Hd)|[Eh H]]; [split; [left; by exists pos, s|done]|].
  destruct (halt_of op txn flags pos s w0) as [ms n k s' w|v lg w cs].
  - destruct H as (-> & _ & Hd & _). split; [|done]. left. exists (Waiting n k), s'. split; [done|]. by intros b ?%elem_of_nil.
  - destruct H as (-> & (rc & f & -> & Hst) & Ho & _). split; [right; by exists (mkTransaction h a rc), lg|].
    intros e. pose proof (proj1 (still_verdict rc f Hst) e) as Hne. simpl. destruct (verdict rc f); simpl in *; congruence.
Qed.

Lemma wait_inv st p m limit : einv (mkEConf st p m) →
  ∃ r st' p', wait st limit p = (Ok (r, st'), p') ∧ einv (mkEConf st' p' m) ∧ ∀ e, r ≠ Stop e.
Proof.
  intros Hi. destruct (decide (st.(phase) = PhStarted)) as [Hst|Hst].
  - destruct Hi as [(pos & s & Hd & Hm)|(txn' & lg & Ho)]; simpl in *; [|by destruct Ho as (-> & _)].
    destruct (wait_runs op txn flags restore x st limit pos s p Hd Hst) as (r & st' & p' & H1 & H2). exists r, st', p'. split; [done|].
    destruct H2 as [H2|(w0 & _ & H2)]; [apply (told_inv limit pos s p.(sys) p r st' p' m Hm); by left|apply (told_inv limit pos s w0 p r st' p' m Hm); by right].
  - exists (Err OutOfSequence), st, p. split; [by apply wait_refused|done].
Qed.

(** What the driver's side gives back is its own. *)
Lemma einv_quiet st p p' m m' N : einv (mkEConf st p m) → quiet p p' → fresh_ok p' → p'.(heap) = purge p.(heap) N → (∀ b, b ∈ N → b ∈ m) →
  (∀ b, b ∈ m' → b ∈ m) → einv (mkEConf st p' m').
Proof.
  intros Hi Q Hf Eh HN Hm'. destruct Q as [Q1 Q2 Q3 Q4 Q5 Q6].
  assert (∀ s, usable txn s p → usable txn s p') as Hus by (intros s (_ & Hh & Hs); split; [done|]; by rewrite Q1, Q2).
  destruct Hi as [(pos & s & (w & Hw & Hat & (Hu & Hk & Hpo) & Hrest) & Hm)|(txn' & lg & Ho)]; simpl in *.
  2:{ destruct Ho as (-> & Hh & Ha & Hu & Hx). right. exists txn', lg. split; [done|]. split; [done|]. split; [done|]. split; [by apply Hus|]. simpl. by rewrite Q3. }
  left. exists pos, s. split; [|intros b Hb Hin; by apply (Hm b Hb), Hm']. exists w. split; [done|]. split; [done|]. split; [|done].
  split; [by apply Hus|]. split; [done|]. destruct pos as [| | |n k ans vs|v]; simpl in *; rewrite ?Q3; try done.
  destruct Hpo as (? & ? & Hsec). split; [done|]. split; [done|]. eapply secrets_mono; [done|]. intros b Hb. rewrite Eh, lookup_purge.
  rewrite decide_False; [done|]. intros Hin. by apply (Hm b Hb), HN.
Qed.

Lemma respond_inv st p m limit ans vs : einv (mkEConf st p m) → secrets p.(heap) ans vs → (∀ b, b ∈ addrs ans → b ∈ m) →
  ∃ r st' p', respond st ans limit p = (Ok (r, st'), p') ∧ einv (mkEConf st' p' (m ∖ list_to_set (addrs ans))) ∧ ∀ e, r ≠ Stop e.
Proof.
  intros Hi Hs Hown. destruct (decide (st.(phase) = PhPrompting)) as [Hst|Hst].
  - destruct Hi as [(pos & s & Hd & Hm)|(txn' & lg & Ho)]; simpl in *; [|by destruct Ho as (-> & _)].
    assert (∃ n k, pos = Waiting n k) as (n & k & ->). { destruct Hd as (w & _ & _ & _ & _ & _ & _ & _ & Hph). rewrite Hst in Hph. destruct pos; try done. eauto. }
    destruct (respond_runs op txn flags restore x st limit n k ans vs s p Hd Hs) as (r & st' & p' & H1 & H2). exists r, st', p'. split; [done|].
    assert (∀ b, b ∈ in_flight (Heard n k ans vs) → b ∉ m ∖ list_to_set (addrs ans)) as Hm' by (simpl; set_solver).
    destruct H2 as [H2|(w0 & _ & H2)]; [apply (told_inv limit (Heard n k ans vs) s p.(sys) p r st' p' _ Hm'); by left|apply (told_inv limit (Heard n k ans vs) s w0 p r st' p' _ Hm'); by right].
  - destruct (respond_refused st limit ans vs p Hst Hs) as (p' & H1 & Q1 & E1 & S1). exists (Err OutOfSequence), st, p'. split; [done|]. split; [|done].
    assert (fresh_ok p) as Hf by (destruct Hi as [(pos & s & (w & _ & _ & ((Hf & _) & _) & _) & _)|(? & ? & (_ & _ & _ & (Hf & _) & _))]; exact Hf).
    eapply (einv_quiet st p p' m); [done|done| |done|done|set_solver].
    apply (fresh_quiet p); [done|done|]. intros b Hb. rewrite E1, lookup_purge. case_decide; [done|]. apply (f_heap p Hf). pose proof (q_next _ _ Q1). lia.
Qed.

(** What happens elsewhere is not noticed. *)
Lemma driving_elsewhere st pos s p m p' m' : driving' st pos s p → (∀ b, b ∈ in_flight pos → b ∉ m) → elsewhere m p m' p' →
  driving' st pos s p' ∧ (∀ b, b ∈ in_flight pos → b ∉ m').
Proof.
  intros (w & Hw & Hat & (Hu & Hk & Hpo) & Hrest) Hm (Hf & Hn & Hh & Hs & Hx & Hheap & Hm').
  assert (usable txn s p') as Hu' by (destruct Hu as (_ & ? & ?); split; [done|]; by rewrite Hh, Hs). split.
  - exists w. split; [done|]. split; [done|]. split; [|done]. split; [done|]. split; [done|].
    destruct pos as [| | |n k ans vs|v]; simpl in *; rewrite ?Hx; try done. destruct Hpo as (? & ? & Hsec). split; [done|]. split; [done|].
    eapply secrets_mono; [done|]. intros b Hb. apply Hheap; [by apply Hm|]. by eapply secrets_there.
  - intros b Hb Hin. apply Hm' in Hin as [Hin|Hin]; [by apply (Hm b Hb)|]. destruct pos as [| | |n k ans vs|v]; simpl in *; try by apply elem_of_nil in Hb.
    destruct Hpo as (_ & _ & Hsec). destruct Hu as (Hfp & _). destruct (secrets_there _ _ _ _ Hsec Hb) as [y Hy]. by rewrite (f_heap p Hfp) in Hy.
Qed.

Lemma elsewhere_inv st p m p' m' : einv (mkEConf st p m) → elsewhere m p m' p' → einv (mkEConf st p' m').
Proof.
  intros [(pos & s & Hd & Hm)|(txn' & lg & Ho)] He; simpl in *.
  - left. exists pos, s. by apply (driving_elsewhere st pos s p m).
  - destruct He as (Hf & Hn & Hh & Hs & Hx & _). destruct Ho as (-> & Hh' & Ha & (_ & ? & ?) & Hx'). right. exists txn', lg.
    split; [done|]. split; [done|]. split; [done|]. split; [split; [done|]; simpl; by rewrite Hh, Hs|]. simpl. by rewrite Hx.
Qed.

Lemma estep_inv c c' : einv c → estep c c' → einv c'.
Proof.
  intros Hi Hs. destruct Hs as [st st' p p' m H|st st' p p' m limit r H|st st' p p' m ans vs limit r Hsec Hown H|st p p' m m' H].
  - by eapply advance_inv.
  - destruct (wait_inv st p m limit Hi) as (r1 & st1 & p1 & H1 & H2 & _). rewrite H in H1. by injection H1 as <- <- <-.
  - destruct (respond_inv st p m limit ans vs Hi Hsec Hown) as (r1 & st1 & p1 & H1 & H2 & _). rewrite H in H1. by injection H1 as <- <- <-.
  - by eapply elsewhere_inv.
Qed.

Lemma esteps_inv c c' : einv c → rtc estep c c' → einv c'.
Proof. intros Hi. induction 1 as [|c1 c2 c3 H _ IH]; [done|]. apply IH. by eapply estep_inv. Qed.

(** From any state of it, the transaction comes back, or is ended. *)
Lemma einv_finish c : einv c → ∃ txn' lg p', finish c.(ex) c.(ex_proc) = Ret (Ok txn') p' ∧ txn'.(hdl) = h ∧ txn'.(slot) = a ∧
  usable txn' (mkSlot restore lg None) p' ∧ x ∉ p'.(channels).
Proof.
  destruct c as [st p m]. intros [(pos & s & Hd & _)|(txn' & lg & Ho)]; simpl in *.
  - pose proof (finish_runs op txn flags restore x st pos s p Hd) as Hr. assert (pos_ok txn restore x pos s p) as Hpo by (by destruct Hd as (? & _ & _ & ? & _)).
    pose proof (let_go_txn pos s p.(sys) p Hpo) as Hv. destruct (let_go_of op txn flags pos s p.(sys)) as [[[txn' r] lg] w1]. simpl in Hv. destruct Hv as [Hv1 Hv2].
    destruct Hr as (p' & H1 & Hu & _ & _ & Hx & _). exists txn', lg, p'. split; [done|]. split; [done|]. split; [done|]. split; [|done]. unfold usable in *. by rewrite Hv1, Hv2.
  - exists txn', lg, p. split; [by eapply finish_over|]. destruct Ho as (_ & Hv1 & Hv2 & Hu & Hx). split; [done|]. split; [done|]. split; [|done].
    unfold usable in *. by rewrite Hv1, Hv2.
Qed.

Lemma einv_drop c : einv c → channel_free restore → ∃ p' st cs, Stepped_drop c.(ex) c.(ex_proc) = Ret (Ok tt) p' ∧ p'.(handles) = delete h c.(ex_proc).(handles) ∧
  p'.(slots) !! a = None ∧ p'.(calls) = c.(ex_proc).(calls) ++ cs ++ [EndedWith h st] ∧ ∀ e, e ∈ cs → ∃ rc, e = Ran h (stack_of op) flags rc.
Proof.
  destruct c as [st p m]. intros Hi Hc. assert (∃ N p', Stepped_drop st p = Ret (Ok tt) p' ∧ gone N p p') as (N & p' & H1 & _ & _ & H2 & H3 & _ & _ & (s & cs & H4 & H5) & _).
  { destruct Hi as [(pos & s & Hd & _)|(txn' & lg & Ho)]; [destruct (Stepped_drop_runs st pos s p Hd Hc) as (p' & H)|destruct (over_drop_runs st txn' lg p Ho Hc) as (p' & H)]; by eexists _, p'. }
  by exists p', s, cs.
Qed.
End One.
End Drive.

(** An exchange that is driven with given answers comes to what the same answers
    come to in a direct call. *)

Abbreviation Script := (list (list (option (bytes * bytes)))).

Section Script.
Context {W U : Type} {pam : Libpam W U} {laws : LibpamLaws W U}.
Implicit Types (p : Proc W U) (script : Script).

(** A call whose rounds are given the answers of a script in turn; when they run
    out, nobody answers. *)
Fixpoint talk_with script (t : Stack W) (s : ConvSlot U) : Z * ConvSlot U * W :=
  match t with
  | Return_ rc w => (rc, s, w)
  | Converse n l place w k =>
      match question n l place with
      | Skipped | Overrun => talk_with script (k PAM_CONV_ERR None w) s
      | Unreadable e => talk_with script (k PAM_CONV_ERR None w) (mkSlot s.(conv) s.(log) (first s.(failure) (Some (FailErr e))))
      | Asked ms =>
          let said := match script with l :: _ => Ok (values l) | [] => Err Timeout end in
          let '(f, responses, w) := reply_to (U:=U) (Z.to_nat n) said w in
          talk_with (tail script) (k (code_of f) responses w) (mkSlot s.(conv) (s.(log) ++ [ms]) (first s.(failure) f))
      end
  end.

(** A driver that answers from a script. *)
Fixpoint drive script (st : Stepped) (r : Outcome Step PamError) : App W U (Outcome Step PamError * Stepped) :=
  match r, script with
  | Ok (Prompt _), l :: rest => ans ← make_answers l; r ← respond st ans None; drive rest r.2 r.1
  | _, _ => mret (r, st)
  end.
(** A whole exchange, to the transaction back. *)
Definition exchange (op : Op) (txn : Transaction) (flags : Flags) script : App W U (Outcome Step PamError * Transaction) :=
  begun ← run txn flags op;
  match begun with
  | inl st =>
      r ← wait st None;
      r ← drive script r.2 r.1;
      txn ← direct (finish r.2);
      mret (r.1, txn)
  | inr (txn, e) => mret (Err e, txn)
  end.

(** A conversation of the application's own that answers from a script. *)
Definition scripted (remaining : U → Script) : Prop := ∀ u ms w, ∃ u',
  remaining u' = tail (remaining u) ∧
  converse_custom u ms w = (match remaining u with l :: _ => Answer l | [] => Refuse Timeout end, u', w).

(** Under it, a direct call comes to the same. *)
Lemma talk_scripted remaining t : scripted remaining → ∀ u s, s.(conv) = Custom u →
  let '(rc, s', w) := talk t s in let '(rc2, s2, w2) := talk_with (remaining u) t s in
  rc = rc2 ∧ w = w2 ∧ s'.(log) = s2.(log) ∧ s'.(failure) = s2.(failure).
Proof.
  intros Hr. assert (∀ t u s s2, s.(conv) = Custom u → s.(log) = s2.(log) → s.(failure) = s2.(failure) →
    let '(rc, s', w) := talk t s in let '(rc2, s2', w2) := talk_with (remaining u) t s2 in
    rc = rc2 ∧ w = w2 ∧ s'.(log) = s2'.(log) ∧ s'.(failure) = s2'.(failure)) as H; [|intros u s Hc; by apply H].
  clear t. induction t as [rc w|n l place w k IH]; intros u s s2 Hc Hl Hf; cbn [talk talk_with]; [done|].
  destruct (question n l place) as [|e|ms|]; [by apply IH| | |by apply IH].
  - apply (IH _ _ _ u); simpl; [done|done|congruence].
  - rewrite Hc. cbn [says]. destruct (Hr u ms w) as (u' & Hu & ->). rewrite <- Hu. destruct (remaining u) as [|l0 rest]; cbn [tail] in Hu.
    + destruct (reply_to _ _ w) as [[f r] w1]. apply IH; simpl; congruence.
    + destruct (reply_to _ _ w) as [[f r] w1]. apply IH; simpl; congruence.
Qed.

Lemma talk_channel x t : ∀ s, s.(conv) = Channel x → talk t s = talk_with [] t s.
Proof.
  induction t as [rc w|n l place w k IH]; intros s Hc; cbn [talk talk_with]; [done|].
  destruct (question n l place) as [|e|ms|]; [by apply IH|by apply IH| |by apply IH]. rewrite Hc. cbn [says tail].
  destruct (reply_to _ _ w) as [[f r] w1]. by apply IH.
Qed.

Lemma talk_with_log script t : ∀ s, (length s.(log) ≤ length (talk_with script t s).1.2.(log))%nat.
Proof.
  revert script. induction t as [rc w|n l place w k IH]; intros script s; cbn [talk_with]; [done|].
  destruct (question n l place) as [|e|ms|]; [apply IH| | |apply IH].
  - etrans; [|apply IH]. done.
  - destruct (reply_to _ _ w) as [[f r] w1]. etrans; [|apply IH]. simpl. rewrite length_app. lia.
Qed.

Section One.
Context (op : Op) (txn : Transaction) (flags : Flags) (restore : Conversation U) (x : Z).
Abbreviation h := (txn.(hdl)).
Abbreviation a := (txn.(slot)).
Abbreviation driving' := (driving op txn flags restore x).
Abbreviation collected' := (collected op txn flags restore x).

Definition halt_from (t : Stack W) (s : ConvSlot U) : Halt :=
  match settles t s with
  | Asks ms n k s' w => HAsks ms n k s' w
  | Ends rc s' w => HEnds (verdict_on txn rc s'.(failure)) s'.(log) w [Ran h (stack_of op) flags rc]
  end.

Lemma driving_grown st n k s p p' : driving' st (Waiting n k) s p → quiet p p' → fresh_ok p' → driving' st (Waiting n k) s p'.
Proof.
  intros (w & Hw & Hat & ((_ & Hh & Hs) & Hk & Hpo) & Hrest) [Q1 Q2 Q3 _ _ _] Hf. exists w. split; [done|]. split; [done|]. split; [|done].
  split; [split; [done|]; by rewrite Q1, Q2|]. split; [done|]. simpl in *. by rewrite Q3.
Qed.

(** What is left at the end of an exchange that was driven from [p]. *)
Definition driven (N : list Z) (res : Z * ConvSlot U * W) p p' : Prop :=
  let '(rc, s', w) := res in
  usable txn (mkSlot restore s'.(log) None) p' ∧ p'.(heap) = purge p.(heap) N ∧ p'.(sys) = w ∧ (x ∉ p'.(channels)) ∧
  drove txn x [Ran h (stack_of op) flags rc] p p'.

(** What the driver is told at the end: the verdict, or a round that its script
    has no answer to. *)
Definition told_at_end (n0 : nat) script (res : Z * ConvSlot U * W) (r : Outcome Step PamError) : Prop :=
  let '(rc, s', _) := res in
  r = outcome_map (λ _, Done) (verdict rc s'.(failure)) ∨ ((∃ ms, r = Ok (Prompt ms)) ∧ (n0 + length script < length s'.(log))%nat).

Lemma drive_tree t : sane t → ∀ script s N p r0 st0 p0, s.(conv) = Channel x → collected' (halt_from t s) N p r0 st0 p0 →
  let res := talk_with script t s in
  ∃ r st1 p1 p2, drive script st0 r0 p0 = (Ok (r, st1), p1) ∧ direct (finish st1) p1 = (Ok (mkTransaction h a res.1.1), p2) ∧
    told_at_end (length s.(log)) script res r ∧ driven N res p p2.
Proof.
  induction 1 as [rc w|n l place w k Hq Hk IH]; intros script s N p r0 st0 p0 Hx.
  - intros [Eh (-> & Hs & Ho & <- & Hd)]. simpl. exists (outcome_map (λ _, Done) (verdict rc s.(failure))), st0, p0, p0.
    split; [destruct (verdict rc s.(failure)), script; done|]. split; [unfold direct; by rewrite (finish_over _ _ _ _ _ _ _ Ho)|].
    split; [by left|]. destruct Ho as (_ & _ & _ & Hu & Hxc). done.
  - unfold halt_from. cbn [settles talk_with]. destruct (question n l place) as [|e|ms|] eqn:E; [| | |done].
    + by apply (IH PAM_CONV_ERR None w).
    + intros Hcol. exact (IH PAM_CONV_ERR None w script (mkSlot s.(conv) s.(log) (first s.(failure) (Some (FailErr e)))) N p r0 st0 p0 Hx Hcol).
    + intros [Eh (-> & Hph & Hd & Hsys & Hdr)]. destruct script as [|l0 rest]; cbn [tail].
      * pose proof (finish_runs op txn flags restore x st0 (Waiting (Z.to_nat n) k) _ p0 Hd) as Hfin. cbn [let_go_of reply_to conv log failure] in Hfin. rewrite Hsys in Hfin.
        cbn [reply_to]. set (s1 := mkSlot s.(conv) (s.(log) ++ [ms]) (first s.(failure) (Some (FailErr Timeout)))) in *.
        pose proof (talk_with_log [] (k (code_of (Some (FailErr Timeout))) None w) s1) as Hlog.
        rewrite (talk_channel x _ s1 Hx) in Hfin. destruct (talk_with [] _ s1) as [[rc s'] w'].
        destruct Hfin as (p2 & H2 & Hu2 & E2 & S2 & X2 & D2). exists (Ok (Prompt ms)), st0, p0, p2. split; [done|]. split; [unfold direct; by rewrite H2|].
        split; [right; split; [eauto|]; simpl in *; rewrite length_app in Hlog; simpl in Hlog; lia|].
        split; [done|]. split; [by rewrite E2|]. split; [done|]. split; [done|]. by eapply drove_after.
      * assert (fresh_ok p0) as F0 by (destruct Hd as (? & _ & _ & ((? & _) & _) & _); done).
        destruct (make_answers_runs l0 p0 F0) as (ans & p1 & H1 & Q1 & F1 & Hsec & Hg & S1).
        pose proof (driving_grown _ _ _ _ _ _ Hd Q1 F1) as Hd1.
        destruct (respond_runs op txn flags restore x st0 None (Z.to_nat n) k ans (values l0) _ p1 Hd1 Hsec) as (r1 & st1 & p2 & H2 & H3).
        destruct H3 as [(_ & Hno & _)|(w0 & Hw0 & H3)]; [done|]. rewrite (Hw0 eq_refl), S1, Hsys in H3. cbn [halt_of resume conv log failure] in H3.
        destruct (reply_to (Z.to_nat n) (Ok (values l0)) w) as [[f responses] w1].
        destruct (IH (code_of f) responses w1 rest (mkSlot s.(conv) (s.(log) ++ [ms]) (first s.(failure) f)) (addrs ans) p1 r1 st1 p2 Hx H3)
          as (r & st2 & p3 & p4 & H4 & H5 & H6 & H7). exists r, st2, p3, p4.
        split; [cbn [drive]; rewrite (run_bind_ok _ _ _ _ _ H1), (run_bind_ok _ _ _ _ _ H2); exact H4|]. split; [done|].
        destruct (talk_with rest _ _) as [[rc s'] w']. split.
        { destruct H6 as [H6|[H6 H6']]; [by left|right]. split; [done|]. simpl in *. rewrite length_app in H6'. simpl in H6'. lia. }
        destruct H7 as (Hu & E7 & S7 & X7 & D7). split; [done|]. split; [rewrite E7, (purge_grown _ _ _ Hg); done|]. split; [done|]. split; [done|].
        eapply drove_after; [exact Hdr|]. eapply drove_after; [by apply kept_drove, quiet_kept|done].
Qed.
End One.

Lemma exchange_runs op txn flags script s p : usable txn s p → channel_free s.(conv) → s.(failure) = None →
  (spawn (U:=U) p.(sys)).1 = None →
  let res := talk_with script (pam_call (stack_of op) txn.(hdl) flags (spawn (U:=U) p.(sys)).2) s in
  ∃ r p', exchange op txn flags script p = (Ok (r, mkTransaction txn.(hdl) txn.(slot) res.1.1), p') ∧
    told_at_end (length s.(log)) script res r ∧ usable txn (mkSlot s.(conv) res.1.2.(log) None) p' ∧ p'.(heap) = p.(heap) ∧ p'.(sys) = res.2 ∧
    p'.(channels) = p.(channels) ∧ p'.(calls) = p.(calls) ++ [Ran txn.(hdl) (stack_of op) flags res.1.1] ∧
    ∃ zs, p'.(released) = p.(released) ++ zs ∧ Forall zeroed zs.
Proof.
  intros Hu Hc Hfl Hsp. destruct (run_runs op txn flags s p Hu Hc ltac:(by rewrite Hfl)) as (p1 & (E1 & L1 & Hh1 & C1 & R1 & N1 & S1) & Hrun). rewrite Hsp in Hrun.
  set (x := p.(next_block)) in *. destruct Hrun as (X1 & st & Hst & Hph & Hd).
  destruct (wait_runs op txn flags s.(conv) x st None Begun _ p1 Hd Hph) as (r1 & st1 & p2 & H2 & [(_ & Hno & _)|(w0 & Hw0 & H3)]); [done|].
  rewrite (Hw0 eq_refl), S1 in H3. set (t := pam_call (stack_of op) txn.(hdl) flags (spawn (U:=U) p.(sys)).2) in *.
  pose proof (drive_tree op txn flags s.(conv) x t (call_sane _ _ _ _) script (channelled x s) [] p1 r1 st1 p2 eq_refl H3) as Hdt.
  assert (∀ t s1 s2, s1.(log) = s2.(log) → s1.(failure) = s2.(failure) → ∀ script,
    let '(rc, s1', w) := talk_with script t s1 in let '(rc2, s2', w2) := talk_with script t s2 in
    rc = rc2 ∧ w = w2 ∧ s1'.(log) = s2'.(log) ∧ s1'.(failure) = s2'.(failure)) as Hsame.
  { clear. induction t as [rc w|n l place w k IH]; intros s1 s2 Hl Hf script; cbn [talk_with]; [done|].
    destruct (question n l place); [by apply IH| | |by apply IH]; [apply IH; simpl; congruence|].
    destruct (reply_to _ _ w) as [[f r] w1]. apply IH; simpl; congruence. }
  specialize (Hsame t (channelled x s) s eq_refl eq_refl script). simpl in Hdt. destruct (talk_with script t (channelled x s)) as [[rc s1'] w1], (talk_with script t s) as [[rc2 s2'] w2].
  destruct Hsame as (<- & <- & Hl' & Hf'). destruct Hdt as (r & st2 & p3 & p4 & H4 & H5 & H6 & (Hu4 & E4 & S4 & X4 & [D1 D2 D3 D4 D5 (zs & D6 & Hz)])).
  exists r, p4. split; [unfold exchange; rewrite (run_bind_ok _ _ _ _ _ Hst), (run_bind_ok _ _ _ _ _ H2), (run_bind_ok _ _ _ _ _ H4), (run_bind_ok _ _ _ _ _ H5); done|].
  simpl in *. rewrite <- Hl'. split; [by rewrite <- Hf'|]. split; [done|]. split; [congruence|]. split; [done|]. split.
  { rewrite D3, X1. destruct Hu as (Hf & _). assert (x ∉ p.(channels)) by (apply (f_channels p Hf); done). set_solver. }
  split; [congruence|]. exists zs. split; [congruence|done].
Qed.
End Script.
