(* ===== verification/PamAuthOk.v ===== *)
(** The sequence of a login: the order of its calls of libpam, over any use of its
    methods. *)
From S2P Require Import Prelude XdrBase Utf8 PamError Pam PamConv PamTxn PamStep PamAuth PamMem PamTalk PamTxnOk PamExchange PamDrive.
Local Open Scope Z_scope.

(** ** The order of a login *)
(** A stack operation with its flags and its code. *)
Abbreviation Ran_ := (StackOp * Z * Z)%type.

(** The stack operations that were made on a handle. *)
Definition ran_on (h : Z) (c : Call) : option Ran_ :=
  match c with Ran h' op f rc => if decide (h' = h) then Some (op, f, rc) else None | _ => None end.
Definition trace (h : Z) (cs : list Call) : list Ran_ := omap (ran_on h) cs.

Lemma trace_app h cs ds : trace h (cs ++ ds) = trace h cs ++ trace h ds.
Proof. apply omap_app. Qed.

Lemma trace_ran h op f rc : trace h [Ran h op f rc] = [(op, f, rc)].
Proof. unfold trace. simpl. by rewrite decide_True. Qed.

Section Order.
Context (f : Z).
Definition establish : Z := Z.lor (CredOp_raw Establish) f.
Definition revoke : Z := Z.lor (CredOp_raw Delete_) f.

(** Attempts to authenticate, and checks of the account. *)
Definition all_of (op : StackOp) (l : list Ran_) : Prop := Forall (λ c, c.1 = (op, f)) l.
(** Logins that did not open a session: the application was told that the
    credentials were not granted, by the code or by a failure of the conversation,
    which comes first; or they were granted, and revoked after the session did not
    open. *)
Inductive unopened : list Ran_ → Prop :=
| un_nil : unopened []
| un_granted l rc : unopened l → unopened (l ++ [(pam_setcred, establish, rc)])
| un_opened l rc rc' : unopened l →
    unopened (l ++ [(pam_setcred, establish, PAM_SUCCESS); (pam_open_session, f, rc); (pam_setcred, revoke, rc')]).

(** The calls up to each stage. *)
Definition accepted (l : list Ran_) : Prop := ∃ l1 l2,
  l = l1 ++ (pam_authenticate, f, PAM_SUCCESS) :: l2 ∧ all_of pam_authenticate l1 ∧ all_of pam_acct_mgmt l2.
Definition permitted (l : list Ran_) : Prop := ∃ l1 l2,
  l = l1 ++ (pam_acct_mgmt, f, PAM_SUCCESS) :: l2 ∧ accepted l1 ∧ unopened l2.
Definition opened (l : list Ran_) : Prop := ∃ l1,
  l = l1 ++ [(pam_setcred, establish, PAM_SUCCESS); (pam_open_session, f, PAM_SUCCESS)] ∧ permitted l1.
Definition closed (l : list Ran_) : Prop := ∃ l1 rc rc',
  l = l1 ++ [(pam_close_session, f, rc); (pam_setcred, revoke, rc')] ∧ opened l1.

Definition in_order (stage : Stage) (l : list Ran_) : Prop :=
  match stage with
  | Start => l = []
  | Authenticating | Failed => all_of pam_authenticate l
  | Authenticated => accepted l
  | AccountChecked => permitted l
  | SessionOpen => opened l
  | Ended => closed l
  end.

Lemma all_of_snoc op l rc : all_of op l → all_of op (l ++ [(op, f, rc)]).
Proof. intros H. apply Forall_app. split; [done|]. by repeat constructor. Qed.

Lemma accepted_by l : all_of pam_authenticate l → accepted (l ++ [(pam_authenticate, f, PAM_SUCCESS)]).
Proof. intros H. exists l, []. split; [done|]. split; [done|constructor]. Qed.

Lemma accepted_check l rc : accepted l → accepted (l ++ [(pam_acct_mgmt, f, rc)]).
Proof. intros (l1 & l2 & -> & H1 & H2). exists l1, (l2 ++ [(pam_acct_mgmt, f, rc)]). rewrite <- app_assoc. split; [done|]. split; [done|]. by apply all_of_snoc. Qed.

Lemma permitted_by l : accepted l → permitted (l ++ [(pam_acct_mgmt, f, PAM_SUCCESS)]).
Proof. intros H. exists l, []. split; [done|]. split; [done|constructor]. Qed.

Lemma permitted_more l l' : permitted l → (∀ l0, unopened l0 → unopened (l0 ++ l')) → permitted (l ++ l').
Proof. intros (l1 & l2 & -> & H1 & H2) H. exists l1, (l2 ++ l'). rewrite <- app_assoc. split; [done|]. split; [done|]. by apply H. Qed.

(** *** Where sessions are opened *)
Lemma unopened_opens l : unopened l → ∀ i fl rc, l !! i = Some (pam_open_session, fl, rc) →
  ∃ j rc', i = S j ∧ l !! j = Some (pam_setcred, establish, PAM_SUCCESS) ∧ l !! S i = Some (pam_setcred, revoke, rc').
Proof.
  induction 1 as [|l rc0 _ IH|l rc1 rc2 _ IH]; intros i fl rc Hi; [done|..]; apply lookup_app_Some in Hi as [Hi|[Hle Hi]].
  1,3: destruct (IH i fl rc Hi) as (j & rc' & -> & H1 & H2); exists j, rc'; (split; [done|]); split; by apply lookup_app_l_Some.
  - by destruct (i - length l)%nat.
  - destruct (i - length l)%nat as [|[|[|n]]] eqn:E; simplify_eq/=. exists (length l), rc2. assert (i = S (length l)) as -> by lia. split; [done|].
    split; (rewrite lookup_app_r by lia); [by rewrite Nat.sub_diag|]. by replace (S (S (length l)) - length l)%nat with 2%nat by lia.
Qed.

Lemma all_of_no op l i fl rc : all_of op l → l !! i = Some (pam_open_session, fl, rc) → op = pam_open_session.
Proof. intros H Hi. eapply Forall_lookup in H; [|done]. simpl in H. by simplify_eq. Qed.

(** Before it, the user was authenticated and then the account was checked; right
    before it, the credentials were granted. *)
Definition opens_well (l : list Ran_) : Prop := ∀ i fl rc, l !! i = Some (pam_open_session, fl, rc) → ∃ u k j, i = S j ∧ (u < k < j)%nat ∧
  l !! u = Some (pam_authenticate, f, PAM_SUCCESS) ∧ l !! k = Some (pam_acct_mgmt, f, PAM_SUCCESS) ∧ l !! j = Some (pam_setcred, establish, PAM_SUCCESS).
(** After it, they are revoked. *)
Definition revoked_after (l : list Ran_) (i : nat) : Prop := ∃ k rc', (i < k)%nat ∧ l !! k = Some (pam_setcred, revoke, rc').

Lemma opens_well_app l l' : opens_well l → (∀ i fl rc, l' !! i ≠ Some (pam_open_session, fl, rc)) → opens_well (l ++ l').
Proof.
  intros H H' i fl rc Hi. apply lookup_app_Some in Hi as [Hi|[_ Hi]]; [|by apply H' in Hi].
  destruct (H i fl rc Hi) as (u & k & j & -> & ? & ? & ? & ?). exists u, k, j. split; [done|]. split; [done|]. split_and!; by apply lookup_app_l_Some.
Qed.

Lemma accepted_no l i fl rc : accepted l → l !! i ≠ Some (pam_open_session, fl, rc).
Proof.
  intros (l1 & l2 & -> & H1 & H2) Hi. apply lookup_app_Some in Hi as [Hi|[_ Hi]]; [by apply (all_of_no _ _ _ _ _ H1) in Hi|].
  apply lookup_cons_Some in Hi as [[_ ?]|[_ Hi]]; [done|]. by apply (all_of_no _ _ _ _ _ H2) in Hi.
Qed.

Lemma accepted_at l : accepted l → ∃ u, (u < length l)%nat ∧ l !! u = Some (pam_authenticate, f, PAM_SUCCESS).
Proof. intros (l1 & l2 & -> & _). exists (length l1). rewrite length_app, lookup_app_r by lia. rewrite Nat.sub_diag. split; [simpl; lia|done]. Qed.

Lemma permitted_at l : permitted l → ∃ u k, (u < k < length l)%nat ∧ l !! u = Some (pam_authenticate, f, PAM_SUCCESS) ∧ l !! k = Some (pam_acct_mgmt, f, PAM_SUCCESS).
Proof.
  intros (l1 & l2 & -> & H1 & _). destruct (accepted_at l1 H1) as (u & Hu & Hl). exists u, (length l1). rewrite length_app. split; [simpl; lia|].
  split; [by apply lookup_app_l_Some|]. rewrite lookup_app_r by lia. by rewrite Nat.sub_diag.
Qed.

Lemma permitted_opens l : permitted l → opens_well l ∧ ∀ i fl rc, l !! i = Some (pam_open_session, fl, rc) → revoked_after l i.
Proof.
  intros (l1 & l2 & -> & H1 & H2). destruct (accepted_at l1 H1) as (u & Hu & Hl).
  assert (∀ i fl rc, (l1 ++ (pam_acct_mgmt, f, PAM_SUCCESS) :: l2) !! i = Some (pam_open_session, fl, rc) → ∃ i' , i = (S (length l1) + i')%nat ∧ l2 !! i' = Some (pam_open_session, fl, rc)) as Hat.
  { intros i fl rc Hi. apply lookup_app_Some in Hi as [Hi|[Hle Hi]].
    - by apply (accepted_no _ _ _ _ H1) in Hi.
    - apply lookup_cons_Some in Hi as [[_ ?]|[Hlt Hi]]; [done|]. eexists. split; [|exact Hi]. lia. }
  assert (∀ n c, l2 !! n = Some c → (l1 ++ (pam_acct_mgmt, f, PAM_SUCCESS) :: l2) !! (S (length l1) + n)%nat = Some c) as Hin.
  { intros n c Hn. rewrite lookup_app_r by lia. by replace (S (length l1) + n - length l1)%nat with (S n) by lia. }
  split; intros i fl rc Hi; destruct (Hat i fl rc Hi) as (i' & -> & Hi'); destruct (unopened_opens l2 H2 i' fl rc Hi') as (j & rc' & -> & G1 & G2).
  - exists u, (length l1), (S (length l1) + j)%nat. split; [lia|]. split; [lia|]. split; [by apply lookup_app_l_Some|]. split; [|by apply Hin].
    rewrite lookup_app_r by lia. by rewrite Nat.sub_diag.
  - exists (S (length l1) + S (S j))%nat, rc'. split; [lia|]. by apply Hin.
Qed.

Lemma in_order_opens st l : in_order st l → opens_well l ∧
  ∀ i fl rc, l !! i = Some (pam_open_session, fl, rc) → revoked_after l i ∨ (st = SessionOpen ∧ S i = length l ∧ rc = PAM_SUCCESS).
Proof.
  assert (∀ l1, opened l1 → opens_well l1 ∧ ∀ i fl rc, l1 !! i = Some (pam_open_session, fl, rc) → revoked_after l1 i ∨ (S i = length l1 ∧ rc = PAM_SUCCESS)) as Hop.
  { intros l1 (l0 & -> & Hp). destruct (permitted_opens l0 Hp) as [H1 H2]. destruct (permitted_at l0 Hp) as (u & k & Huk & Hu & Hk).
    split; intros i fl rc Hi; apply lookup_app_Some in Hi as [Hi|[Hle Hi]].
    - destruct (H1 i fl rc Hi) as (u' & k' & j & -> & ? & ? & ? & ?). exists u', k', j. split; [done|]. split; [done|]. split_and!; by apply lookup_app_l_Some.
    - destruct (i - length l0)%nat as [|[|n]] eqn:E; simplify_eq/=. exists u, k, (length l0). split; [lia|]. split; [lia|]. split; [by apply lookup_app_l_Some|].
      split; [by apply lookup_app_l_Some|]. rewrite lookup_app_r by lia. by rewrite Nat.sub_diag.
    - left. destruct (H2 i fl rc Hi) as (k' & rc' & ? & ?). exists k', rc'. split; [done|]. by apply lookup_app_l_Some.
    - right. destruct (i - length l0)%nat as [|[|n]] eqn:E; simplify_eq/=. rewrite length_app. simpl. split; [lia|done]. }
  intros Ho. assert (all_of pam_authenticate l → opens_well l ∧ ∀ i fl rc, l !! i = Some (pam_open_session, fl, rc) → revoked_after l i ∨ st = SessionOpen ∧ S i = length l ∧ rc = PAM_SUCCESS) as Hnone.
  { intros Hall. split; intros i fl rc Hi; by apply (all_of_no _ _ _ _ _ Hall) in Hi. }
  destruct st; simpl in Ho; [subst l; by split|by apply Hnone| | | | |by apply Hnone].
  - split; intros i fl rc Hi; by apply (accepted_no _ _ _ _ Ho) in Hi.
  - destruct (permitted_opens l Ho) as [H1 H2]. split; [done|]. intros i fl rc Hi. left. by eapply H2.
  - destruct (Hop l Ho) as [H1 H2]. split; [done|]. intros i fl rc Hi. destruct (H2 i fl rc Hi) as [?|?]; [by left|by right].
  - destruct Ho as (l1 & rc1 & rc2 & -> & Ho). destruct (Hop l1 Ho) as [H1 _]. split.
    + apply opens_well_app; [done|]. intros i fl rc. by destruct i as [|[|i]].
    + intros i fl rc Hi. left. exists (S (length l1)), rc2. apply lookup_app_Some in Hi as [Hi|[_ Hi]]; [|by destruct (i - length l1)%nat as [|[|n]]].
      apply lookup_lt_Some in Hi. split; [lia|]. rewrite lookup_app_r by lia. by replace (S (length l1) - length l1)%nat with 1%nat by lia.
Qed.
End Order.

(** ** The sequence *)
Section Auth.
Context {W U : Type} {pam : Libpam W U} {laws : LibpamLaws W U}.
Implicit Types p : Proc W U.

(** The sequence, the process, and the buffers that its caller owns. *)
Record AConf : Type := mkAConf { seq_ : Authenticator (W:=W) (U:=U); seq_proc : Proc W U; seq_mine : gset Z }.

Section One.
Context (h a : Z) (f : Flags) (base : list Ran_).

(** What the worker has run of what the sequence was not told of yet. *)
Definition pending (pos : Pos (W:=W)) : list Ran_ :=
  match pos with Finishing v => [(pam_authenticate, f, v.1.(last))] | _ => [] end.

(** A transaction that rests. *)
Definition idle (txn : Transaction) (s : ConvSlot U) p : Prop :=
  txn.(hdl) = h ∧ txn.(slot) = a ∧ usable txn s p ∧ channel_free s.(conv) ∧ s.(failure) = None.

(** An exchange that is held: it waits for answers, or it was given up. *)
Definition engaged (st : Stage) (ex : Stepped (W:=W) (U:=U)) (m : gset Z) p : Prop := ∃ txn restore x pos s l,
  txn.(hdl) = h ∧ txn.(slot) = a ∧ channel_free restore ∧ driving Authenticate txn f restore x ex pos s p ∧
  (∀ b, b ∈ in_flight pos → b ∉ m) ∧ trace h p.(calls) = base ++ l ++ pending pos ∧ all_of f pam_authenticate l ∧
  ((st = Authenticating ∧ ex.(phase) = PhPrompting) ∨ (st = Failed ∧ ex.(phase) = PhStopped)).

Definition auth_ok (c : AConf) : Prop :=
  let self := c.(seq_) in let p := c.(seq_proc) in
  self.(flags) = f ∧
  match self.(held) with
  | HeldTransaction txn => self.(stage) ≠ Authenticating ∧ (∃ s, idle txn s p) ∧
      ∃ l, trace h p.(calls) = base ++ l ∧ in_order f self.(stage) l
  | HeldExchange ex => engaged self.(stage) ex c.(seq_mine) p
  | HeldNothing => False
  end.

(** *** Stack operations of a resting transaction *)
Lemma op_idle txn op fl s p : idle txn s p → ∃ rc fo txn' s' p',
  direct (stack_op txn op fl) p = (Ok (verdict rc fo, txn'), p') ∧ idle txn' s' p' ∧ trace h p'.(calls) = trace h p.(calls) ++ [(op, fl, rc)].
Proof.
  intros (Hh & Ha & Hu & Hc & Hf). pose proof (stack_op_runs txn op fl s p Hu Hc) as Hr. pose proof (talk_free (pam_call op txn.(hdl) fl p.(sys)) s Hc) as Hc'.
  destruct (talk _ s) as [[rc s'] w]. destruct Hr as (p' & H1 & Hu' & _ & _ & M). exists rc, s'.(failure), (mkTransaction txn.(hdl) txn.(slot) rc), (cleared s'), p'.
  split; [unfold direct; by rewrite H1|]. split; [done|]. rewrite (m_calls _ _ _ _ M), trace_app, Hh, trace_ran. done.
Qed.

Lemma verdict_ok rc fo : verdict rc fo = Ok tt → rc = PAM_SUCCESS.
Proof. unfold verdict. destruct fo as [[]|]; try done. apply check_Ok. Qed.

(** A method returns, and keeps the order unless it panics. *)
Definition keeps {A} (c : AConf) (r : Outcome (Outcome A PamError * Authenticator) PamExit * Proc W U) : Prop :=
  ∃ o self' p', r = (Ok (o, self'), p') ∧ ((∀ e, o ≠ Stop e) → auth_ok (mkAConf self' p' c.(seq_mine))).

Lemma refused_keeps {A} c (e : PamError) : auth_ok c → keeps (A:=A) c ((mret (Err e, c.(seq_)) : App W U _) c.(seq_proc)).
Proof. intros Hc. exists (Err e), c.(seq_), c.(seq_proc). split; [done|]. intros _. by destruct c. Qed.

(** The transaction is held at the stages after the exchange. *)
Lemma held_at c st : auth_ok c → c.(seq_).(stage) = st → st ≠ Authenticating → st ≠ Failed →
  c.(seq_).(flags) = f ∧ ∃ txn s l, c.(seq_).(held) = HeldTransaction txn ∧ idle txn s c.(seq_proc) ∧
    trace h c.(seq_proc).(calls) = base ++ l ∧ in_order f st l.
Proof.
  intros [Hf Hh] Hst H1 H2. destruct (c.(seq_).(held)) as [txn|ex|]; [|destruct Hh as (? & ? & ? & ? & ? & ? & H); naive_solver|done].
  destruct Hh as (_ & [s Hs] & l & Hl & Ho). rewrite Hst in Ho. split; [done|]. by exists txn, s, l.
Qed.

Lemma resting_ok self txn st s l p m : self.(flags) = f → self.(held) = HeldTransaction txn → self.(stage) = st → st ≠ Authenticating →
  idle txn s p → trace h p.(calls) = base ++ l → in_order f st l → auth_ok (mkAConf self p m).
Proof. intros Hf Hh <- Hst Hs Hl Ho. split; [done|]. simpl. rewrite Hh. split; [done|]. split; [by exists s|]. by exists l. Qed.

Lemma acct_keeps c : auth_ok c → keeps c (auth_acct_mgmt c.(seq_) c.(seq_proc)).
Proof.
  intros Hc. unfold auth_acct_mgmt. case_decide as Hst; [|by apply refused_keeps].
  destruct (held_at c Authenticated Hc Hst) as (Hf & txn & s & l & Hh & Hs & Hl & Ho); [done..|]. rewrite Hh.
  destruct (op_idle txn pam_acct_mgmt (flags (seq_ c)) s _ Hs) as (rc & fo & txn1 & s1 & p1 & H1 & Hs1 & Hl1). unfold acct_mgmt. rewrite (run_bind_ok _ _ _ _ _ H1).
  eexists _, _, _. split; [reflexivity|]. intros _. simpl. rewrite Hf, Hl, <- app_assoc in Hl1. destruct (verdict rc fo) as [[]| |] eqn:Hv.
  - apply verdict_ok in Hv as ->. eapply (resting_ok _ _ AccountChecked); [..|exact Hs1|exact Hl1|by apply permitted_by]; done.
  - eapply (resting_ok _ _ Authenticated); [..|exact Hs1|exact Hl1|by apply accepted_check]; done.
  - eapply (resting_ok _ _ Authenticated); [..|exact Hs1|exact Hl1|by apply accepted_check]; done.
Qed.

Lemma login_keeps c : auth_ok c → keeps c (login c.(seq_) c.(seq_proc)).
Proof.
  intros Hc. unfold login. case_decide as Hst; [|by apply refused_keeps].
  destruct (held_at c AccountChecked Hc Hst) as (Hf & txn & s & l & Hh & Hs & Hl & Ho); [done..|]. rewrite Hh. unfold setcred, open_session. rewrite Hf.
  destruct (op_idle txn pam_setcred (establish f) s _ Hs) as (rc & fo & txn1 & s1 & p1 & H1 & Hs1 & Hl1). fold (establish f) (revoke f). rewrite (run_bind_ok _ _ _ _ _ H1).
  rewrite Hl, <- app_assoc in Hl1. cbn [fst snd]. destruct (verdict rc fo) as [[]|e|e] eqn:Hv; cycle 1.
  1,2: eexists _, _, _; (split; [reflexivity|]); intros _; eapply (resting_ok _ _ AccountChecked); [..|exact Hs1|exact Hl1|apply permitted_more; [done|intros; by constructor]]; done.
  apply verdict_ok in Hv as ->. destruct (op_idle txn1 pam_open_session f s1 _ Hs1) as (rc2 & fo2 & txn2 & s2 & p2 & H2 & Hs2 & Hl2).
  rewrite (run_bind_ok _ _ _ _ _ H2). rewrite Hl1, <- !app_assoc in Hl2. cbn [fst snd]. destruct (verdict rc2 fo2) as [[]|e|e] eqn:Hv2.
  - apply verdict_ok in Hv2 as ->. eexists _, _, _. split; [reflexivity|]. intros _. eapply (resting_ok _ _ SessionOpen); [..|exact Hs2|exact Hl2|by exists l]; done.
  - destruct (op_idle txn2 pam_setcred (revoke f) s2 _ Hs2) as (rc3 & fo3 & txn3 & s3 & p3 & H3 & Hs3 & Hl3). rewrite (run_bind_ok _ _ _ _ _ H3).
    rewrite Hl2, <- !app_assoc in Hl3. eexists _, _, _. split; [reflexivity|]. intros _.
    eapply (resting_ok _ _ AccountChecked); [..|exact Hs3|exact Hl3|apply permitted_more; [done|intros; by constructor]]; done.
  - eexists _, _, _. split; [reflexivity|]. intros Hp. by destruct (Hp e).
Qed.

Lemma logout_keeps c : auth_ok c → keeps c (logout c.(seq_) c.(seq_proc)).
Proof.
  intros Hc. unfold logout. case_decide as Hst; [|by apply refused_keeps].
  destruct (held_at c SessionOpen Hc Hst) as (Hf & txn & s & l & Hh & Hs & Hl & Ho); [done..|]. rewrite Hh. unfold setcred, close_session. rewrite Hf.
  destruct (op_idle txn pam_close_session f s _ Hs) as (rc & fo & txn1 & s1 & p1 & H1 & Hs1 & Hl1). fold (revoke f). rewrite (run_bind_ok _ _ _ _ _ H1).
  rewrite Hl, <- app_assoc in Hl1. cbn [fst snd]. destruct (op_idle txn1 pam_setcred (revoke f) s1 _ Hs1) as (rc2 & fo2 & txn2 & s2 & p2 & H2 & Hs2 & Hl2).
  rewrite Hl1, <- !app_assoc in Hl2. destruct (verdict rc fo) as [u|e|e]; [| |eexists _, _, _; split; [reflexivity|]; intros Hp; by destruct (Hp e)].
  all: rewrite (run_bind_ok _ _ _ _ _ H2); cbn [fst snd]; destruct (verdict rc2 fo2) as [u2|e2|e2];
    eexists _, _, _; (split; [reflexivity|]); intros Hp; try (by destruct (Hp e2));
    (eapply (resting_ok _ _ Ended); [..|exact Hs2|exact Hl2|by exists l, rc, rc2]; done).
Qed.

(** *** The exchange *)
(** What [step] makes of what the exchange gave. *)
Definition told_step (self : Authenticator) (r : Outcome Step PamError * Stepped) : App W U (Outcome Step PamError * Authenticator) :=
  let self := set_held self (HeldExchange r.2) in
  match r.1 with
  | Ok (Prompt ms) => mret (Ok (Prompt ms), set_stage self Authenticating)
  | Ok Done => settled_as self Authenticated (Ok Done)
  | Err Timeout => mret (Err Timeout, set_stage self Failed)
  | Err e => settled_as self Failed (Err e)
  | Stop w => mret (Stop w, self)
  end.

Lemma step_is self ex responses : self.(held) = HeldExchange ex →
  step_ self responses = (r ← match responses with None => wait ex self.(timeout) | Some l => respond ex l self.(timeout) end; told_step self r).
Proof. intros H. unfold step_. by rewrite H. Qed.

(** An exchange that is over gives its transaction back. *)
Lemma settle_over self st txn restore x txn' lg {A} (v : Outcome A PamError) sg p : over txn restore x st txn' lg p → self.(held) = HeldExchange st →
  settled_as self sg v p = (Ok (v, set_stage (set_held self (HeldTransaction txn')) sg), p).
Proof.
  intros Ho Hh. unfold settled_as, settle. rewrite Hh. assert (direct (caught (finish st)) p = (Ok (Ok txn'), p)) as H1.
  { unfold direct, caught. by rewrite (finish_over _ _ _ _ _ _ _ Ho). }
  unfold mbind, St_bind. rewrite H1. simpl. by destruct v.
Qed.

Lemma halt_ends txn pos s w v lg w' cs : goes_on pos → halt_of Authenticate txn f pos s w = HEnds v lg w' cs → cs = [Ran txn.(hdl) pam_authenticate f v.1.(last)].
Proof.
  intros Hg He. assert (∀ r : Stack W * ConvSlot U, (let '(t, s1) := r in match settles t s1 with Asks ms n k s' w => HAsks ms n k s' w
    | Ends rc s' w => HEnds (verdict_on txn rc s'.(failure)) s'.(log) w [Ran txn.(hdl) (stack_of Authenticate) f rc] end) = HEnds v lg w' cs →
    cs = [Ran txn.(hdl) pam_authenticate f v.1.(last)]) as H.
  { intros [t s1]. destruct (settles t s1); intros [= <- _ _ <-]. done. }
  destruct pos; try done; by apply H in He.
Qed.

Lemma told_keeps self limit txn restore x pos s l N p r st' p' m : self.(flags) = f → txn.(hdl) = h → txn.(slot) = a → channel_free restore →
  trace h p.(calls) = base ++ l → all_of f pam_authenticate l → goes_on pos → (∀ b, b ∈ in_flight pos → b ∉ m) →
  gave_up Authenticate txn f restore x limit pos s p r st' p' ∨ (∃ w0, collected Authenticate txn f restore x (halt_of Authenticate txn f pos s w0) N p r st' p') →
  ∃ o self', told_step self (r, st') p' = (Ok (o, self'), p') ∧ (∀ e, o ≠ Stop e) ∧ auth_ok (mkAConf self' p' m).
Proof.
  intros Hf Hh Ha Hc Hl Hall Hg Hm [(_ & _ & -> & (w1 & ->) & Hph & Hd)|(w0 & _ & H)].
  - eexists _, _. split; [reflexivity|]. split; [done|]. split; [done|]. exists txn, restore, x, pos, s, l. repeat (split; [done|]).
    split; [|split; [done|by right]]. destruct pos; try done; by rewrite app_nil_r.
  - destruct (halt_of Authenticate txn f pos s w0) as [ms n k s' w|v lg w cs] eqn:Hhalt.
    + destruct H as (-> & Hph & Hd & _ & Hdr). assert (trace h p'.(calls) = base ++ l ++ []) as Hl' by (by rewrite (d_calls _ _ _ _ _ Hdr), !app_nil_r).
      eexists _, _. split; [reflexivity|]. split; [done|]. split; [done|]. exists txn, restore, x, (Waiting n k), s', l.
      repeat (split; [done|]). split; [by intros b ?%elem_of_nil|]. split; [done|]. split; [done|by left].
    + destruct H as (-> & (rc & fo & -> & Hst) & Ho & _ & Hdr). apply (halt_ends _ _ _ _ _ _ _ _ Hg) in Hhalt as ->. simpl in *.
      destruct (still_verdict rc fo Hst) as (Hns & Hnt & Hok).
      assert (trace h p'.(calls) = base ++ l ++ [(pam_authenticate, f, rc)]) as Hl' by (rewrite (d_calls _ _ _ _ _ Hdr), trace_app, Hl, Hh, trace_ran, app_assoc; done).
      assert (idle (mkTransaction txn.(hdl) txn.(slot) rc) (mkSlot restore lg None) p') as Hi by (destruct Ho as (_ & _ & _ & Hu & _); done).
      set (self1 := set_held self (HeldExchange st')).
      assert (∀ sg (v : Outcome Step PamError), (∀ e, v ≠ Stop e) → sg ≠ Authenticating → in_order f sg (l ++ [(pam_authenticate, f, rc)]) → ∃ o self', settled_as self1 sg v p' = (Ok (o, self'), p') ∧
        (∀ e, o ≠ Stop e) ∧ auth_ok (mkAConf self' p' m)) as Hset.
      { intros sg v Hv Hsg Hord. eexists _, _. split; [by eapply settle_over|]. split; [done|]. by eapply (resting_ok _ _ sg). }
      destruct (verdict rc fo) as [[]|e|e] eqn:Hv; [|destruct e; try done; (apply Hset; [done|done|by apply all_of_snoc])|by destruct (Hns e)].
      apply Hset; [done|done|]. rewrite (Hok eq_refl). by apply accepted_by.
Qed.

Lemma begin_keeps c : auth_ok c → keeps c (auth_begin c.(seq_) c.(seq_proc)) ∧ ∀ e self' p', auth_begin c.(seq_) c.(seq_proc) ≠ (Ok (Stop e, self'), p').
Proof.
  destruct c as [self p m]. intros Hc. unfold auth_begin. cbn [seq_ seq_proc]. case_decide as Hst; [|split; [exact (refused_keeps _ _ Hc)|done]].
  destruct (self.(held)) as [txn|ex|] eqn:Hh; [|split; [exact (refused_keeps _ _ Hc)|done]..].
  pose proof Hc as [Hf Hheld]. cbn [seq_ seq_proc seq_mine] in Hf, Hheld. rewrite Hh in Hheld. destruct Hheld as (_ & [s (Hhd & Ha & Hu & Hcf & Hfl)] & l & Hl & Hord).
  assert (all_of f pam_authenticate l) as Hall. { destruct Hst as [E|E]; rewrite E in Hord; simpl in Hord; [subst l; constructor|done]. }
  unfold begin_recover. destruct (run_runs Authenticate txn self.(flags) s p Hu Hcf ltac:(by rewrite Hfl)) as (p1 & Hb & Hr).
  assert (trace h p1.(calls) = base ++ l) as Hl1 by (destruct Hb as (_ & _ & _ & E & _); by rewrite E).
  destruct (spawn (U:=U) p.(sys)).1 as [errno|].
  - destruct Hr as (Hrun & Hu1 & _). rewrite (run_bind_ok _ _ _ _ _ Hrun). split; [|done]. eexists _, _, _. split; [reflexivity|]. intros _.
    eapply (resting_ok _ _ Failed); [done|done|done|done| |exact Hl1|exact Hall]. by split.
  - destruct Hr as (_ & ex & Hrun & Hph & Hd). rewrite (run_bind_ok _ _ _ _ _ Hrun). set (self1 := set_stage _ _).
    rewrite (step_is self1 ex None eq_refl). rewrite Hf in Hd. destruct (wait_runs _ _ _ _ _ ex self1.(timeout) Begun _ p1 Hd Hph) as (r & st' & p2 & H2 & H3).
    rewrite (run_bind_ok _ _ _ _ _ H2).
    destruct (told_keeps self1 self1.(timeout) txn s.(conv) p.(next_block) Begun (channelled p.(next_block) s) l [] p1 r st' p2 m) as (o & self' & H4 & H5 & H6); try done.
    { by intros b ?%elem_of_nil. } { destruct H3 as [H3|(w0 & _ & H3)]; [by left|right; by exists w0]. }
    rewrite H4. split; [exists o, self', p2; split; [done|]; intros _; done|]. intros e self2 p3 [= -> _ _]. by destruct (H5 e).
Qed.

(** What the rest of the process can do meanwhile. *)
Definition channel_of (self : Authenticator (W:=W) (U:=U)) : option Z :=
  match self.(held) with HeldExchange ex => ex.(answers) | _ => None end.
Definition aside (self : Authenticator) (m : gset Z) p (m' : gset Z) p' : Prop :=
  trace h p'.(calls) = trace h p.(calls) ∧ fresh_ok p' ∧ p.(next_block) ≤ p'.(next_block) ∧
  p'.(handles) !! h = p.(handles) !! h ∧ p'.(slots) !! a = p.(slots) !! a ∧ (∀ x, channel_of self = Some x → x ∈ p'.(channels) ↔ x ∈ p.(channels)) ∧
  (∀ b, b ∉ m → is_Some (p.(heap) !! b) → p'.(heap) !! b = p.(heap) !! b) ∧
  (∀ b, b ∈ m' → b ∈ m ∨ p.(next_block) ≤ b).

Lemma aside_keeps self p m p' m' : auth_ok (mkAConf self p m) → aside self m p m' p' → auth_ok (mkAConf self p' m').
Proof.
  intros [Hf Hh] (Ht & Hfr & Hn & Hhd & Hsl & Hx & Hheap & Hm'). split; [done|]. simpl in *. unfold channel_of in Hx. destruct (self.(held)) as [txn|ex|]; [| |done].
  - destruct Hh as (Hst & [s (E1 & E2 & (_ & Hu1 & Hu2) & ?)] & l & Hl & Ho). split; [done|]. split; [|exists l; by rewrite Ht].
    exists s. split; [done|]. split; [done|]. split; [|done]. split; [done|]. subst. by rewrite Hhd, Hsl.
  - destruct Hh as (txn & restore & x & pos & s & l & E1 & E2 & Hc & Hd & Hm & Hl & Hall & Hst). exists txn, restore, x, pos, s, l. split; [done|]. split; [done|]. split; [done|].
    destruct (driving_elsewhere Authenticate txn f restore x ex pos s p m p' m' Hd Hm) as [Hd' Hm1].
    { assert (ex.(answers) = Some x) as Hax by (destruct Hd as (? & _ & _ & _ & ? & _); done). subst. specialize (Hx x Hax). done. }
    split; [done|]. split; [done|]. by rewrite Ht.
Qed.

(** Answers that are dropped were the caller's own. *)
Lemma dropped_aside self ans vs p m : fresh_ok p → secrets p.(heap) ans vs → (∀ b, b ∈ addrs ans → b ∈ m) →
  ∃ p', drop_answers ans p = (Ok tt, p') ∧ aside self m p (m ∖ list_to_set (addrs ans)) p'.
Proof.
  intros Hf Hs Hm. destruct (drop_answers_runs ans vs p Hs) as (p' & H1 & HQ & E1 & S1 & N1). exists p'. split; [done|]. pose proof HQ as [Q1 Q2 Q3 Q4 Q5 Q6].
  split; [by rewrite Q4|]. split; [apply (fresh_quiet p); [done|done|]; intros b Hb; rewrite E1, lookup_purge; case_decide; [done|apply (f_heap p Hf); lia]|].
  split; [done|]. split; [by rewrite Q2|]. split; [by rewrite Q1|]. split; [by rewrite Q3|]. split; [|set_solver].
  intros b Hb _. rewrite E1, lookup_purge. rewrite decide_False; [done|]. intros Hin. by apply Hb, Hm.
Qed.

Lemma auth_fresh c : auth_ok c → fresh_ok c.(seq_proc).
Proof.
  intros [_ Hh]. destruct (c.(seq_).(held)) as [txn|ex|]; [by destruct Hh as (_ & [s (_ & _ & (? & _) & _)] & _)| |done].
  destruct Hh as (txn & restore & x & pos & s & l & _ & _ & _ & (w & _ & _ & ((? & _) & _) & _) & _). done.
Qed.

(** An answer takes its buffers from the caller. *)
Lemma respond_keeps self p m ans vs : auth_ok (mkAConf self p m) → secrets p.(heap) ans vs → (∀ b, b ∈ addrs ans → b ∈ m) →
  ∃ o self' p', auth_respond self ans p = (Ok (o, self'), p') ∧ (∀ e, o ≠ Stop e) ∧ auth_ok (mkAConf self' p' (m ∖ list_to_set (addrs ans))).
Proof.
  intros Hc Hs Hown. unfold auth_respond. case_decide as Hst; cycle 1.
  { destruct (dropped_aside self ans vs p m (auth_fresh _ Hc) Hs Hown) as (p' & H1 & Ha). rewrite (run_bind_ok _ _ _ _ _ H1).
    eexists _, _, _. split; [reflexivity|]. split; [done|]. by eapply aside_keeps. }
  pose proof Hc as [Hf Hh]. cbn [seq_ seq_proc seq_mine] in Hf, Hh. destruct (self.(held)) as [txn|ex|] eqn:Hheld; [naive_solver| |done].
  destruct Hh as (txn & restore & x & pos & s & l & E1 & E2 & Hcf & Hd & Hm & Hl & Hall & [[_ Hph]|[E _]]); [|congruence].
  assert (∃ n k, pos = Waiting n k) as (n & k & ->). { destruct Hd as (w & _ & _ & _ & _ & _ & _ & _ & Hpos). rewrite Hph in Hpos. destruct pos; try done. eauto. }
  rewrite (step_is self ex (Some ans) Hheld). destruct (respond_runs _ _ _ _ _ ex self.(timeout) n k ans vs s p Hd Hs) as (r & st' & p1 & H1 & H2).
  rewrite (run_bind_ok _ _ _ _ _ H1). rewrite app_nil_r in Hl.
  destruct (told_keeps self self.(timeout) txn restore x (Heard n k ans vs) s l (addrs ans) p r st' p1 (m ∖ list_to_set (addrs ans))) as (o & self' & H4 & H5 & H6); try done.
  { simpl. set_solver. } { destruct H2 as [H2|(w0 & _ & H2)]; [by left|right; by exists w0]. }
  rewrite H4. exists o, self', p1. done.
Qed.

(** The worker goes on. *)
Definition auth_advance (self : Authenticator (W:=W) (U:=U)) : App W U Authenticator :=
  match self.(held) with
  | HeldExchange ex => ex ← advance ex; mret (set_held self (HeldExchange ex))
  | _ => mret self
  end.

Lemma advance_keeps self p m : auth_ok (mkAConf self p m) → ∃ self' p', auth_advance self p = (Ok self', p') ∧ auth_ok (mkAConf self' p' m).
Proof.
  intros Hc. unfold auth_advance. destruct (self.(held)) as [txn|ex|] eqn:Hheld; [by exists self, p| |by exists self, p].
  pose proof Hc as [Hf Hh]. cbn [seq_ seq_proc seq_mine] in Hf, Hh. rewrite Hheld in Hh.
  destruct Hh as (txn & restore & x & pos & s & l & E1 & E2 & Hcf & Hd & Hm & Hl & Hall & Hst).
  destruct (advance_driving Authenticate txn f restore x ex pos s p Hd) as (st' & pos' & s' & p' & cs & H1 & Hd' & Hph & Hdr & Hcs). rewrite (run_bind_ok _ _ _ _ _ H1).
  eexists _, p'. split; [reflexivity|]. split; [done|]. exists txn, restore, x, pos', s', l. split; [done|]. split; [done|]. split; [done|]. split; [done|]. cbn [seq_mine seq_proc].
  assert (trace h p'.(calls) = base ++ l ++ pending pos') as Hl'.
  { destruct Hcs as [(-> & _ & -> & _)|(Hg & _ & ->)]; [done|]. rewrite (d_calls _ _ _ _ _ Hdr), trace_app, Hl.
    assert (pending pos = []) as -> by (by destruct pos). rewrite app_nil_r, <- app_assoc. do 2 f_equal. destruct pos'; try done. by rewrite E1, trace_ran. }
  split; [|split; [done|split; [done|simpl; by rewrite Hph]]].
  destruct Hcs as [(-> & _)|(_ & -> & _)]; [done|]. by intros b ?%elem_of_nil.
Qed.

(** ** The end of a sequence *)
Lemma into_transaction_runs c : auth_ok c → ∃ txn s p', into_transaction c.(seq_) c.(seq_proc) = Ret (Ok txn) p' ∧ idle txn s p'.
Proof.
  destruct c as [self p m]. intros [_ Hh]. cbn [seq_ seq_proc seq_mine] in *. unfold into_transaction.
  destruct (self.(held)) as [txn|ex|]; [destruct Hh as (_ & [s Hs] & _); by exists txn, s, p| |done].
  destruct Hh as (txn & restore & x & pos & s & l & E1 & E2 & Hc & Hd & _). pose proof (finish_runs _ _ _ _ _ ex pos s p Hd) as Hr.
  assert (pos_ok txn restore x pos s p) as Hpo by (by destruct Hd as (? & _ & _ & ? & _)).
  pose proof (let_go_txn Authenticate txn f restore x pos s p.(sys) p Hpo) as Hv. destruct (let_go_of _ _ _ _ _ _) as [[[txn' v] lg] w1]. simpl in Hv. destruct Hv as [Hv1 Hv2].
  destruct Hr as (p' & H1 & (Hf & Hu1 & Hu2) & _). exists txn', (mkSlot restore lg None), p'. split; [done|]. split; [congruence|]. split; [congruence|]. split; [|done].
  split; [done|]. by rewrite Hv1, Hv2.
Qed.

(** The handle is ended, once, and its slot is gone. *)
Lemma Authenticator_drop_runs c : auth_ok c → ∃ p', Authenticator_drop c.(seq_) c.(seq_proc) = Ret (Ok tt) p' ∧ fresh_ok p' ∧
  p'.(handles) = delete h c.(seq_proc).(handles) ∧ p'.(slots) !! a = None ∧ (∀ b, b ≠ a → p'.(slots) !! b = c.(seq_proc).(slots) !! b) ∧
  ∃ st cs, p'.(calls) = c.(seq_proc).(calls) ++ cs ++ [EndedWith h st] ∧ ∀ e, e ∈ cs → ∃ rc, e = Ran h pam_authenticate f rc.
Proof.
  destruct c as [self p m]. intros [_ Hh]. cbn [seq_ seq_proc seq_mine] in *. unfold Authenticator_drop. destruct (self.(held)) as [txn|ex|]; [| |done].
  - destruct Hh as (_ & [s (E1 & E2 & Hu & Hc & _)] & _). destruct (Transaction_drop_runs txn s p Hu Hc) as (p' & H1 & He). exists p'. split; [done|]. subst.
    destruct He as (F1 & _ & _ & Hh1 & L1 & L1' & C1 & _). repeat (split; [done|]). exists txn.(last), []. split; [done|]. by intros e ?%elem_of_nil.
  - destruct Hh as (txn & restore & x & pos & s & l & E1 & E2 & Hc & Hd & _). destruct (Stepped_drop_runs _ _ _ _ _ ex pos s p Hd Hc) as (p' & H1 & Hg). exists p'. split; [done|]. subst.
    destruct Hg as (F1 & _ & Hh1 & L1 & L1' & _ & Hcs & _). repeat (split; [done|]). exact Hcs.
Qed.

(** ** Any use of the methods *)
Inductive astep : AConf → AConf → Prop :=
| a_begin self p m o self' p' : auth_begin self p = (Ok (o, self'), p') → astep (mkAConf self p m) (mkAConf self' p' m)
| a_respond self p m ans vs o self' p' : secrets p.(heap) ans vs → (∀ b, b ∈ addrs ans → b ∈ m) →
    auth_respond self ans p = (Ok (o, self'), p') → astep (mkAConf self p m) (mkAConf self' p' (m ∖ list_to_set (addrs ans)))
| a_acct self p m o self' p' : auth_acct_mgmt self p = (Ok (o, self'), p') → (∀ e, o ≠ Stop e) → astep (mkAConf self p m) (mkAConf self' p' m)
| a_login self p m o self' p' : login self p = (Ok (o, self'), p') → (∀ e, o ≠ Stop e) → astep (mkAConf self p m) (mkAConf self' p' m)
| a_logout self p m o self' p' : logout self p = (Ok (o, self'), p') → (∀ e, o ≠ Stop e) → astep (mkAConf self p m) (mkAConf self' p' m)
| a_advance self p m self' p' : auth_advance self p = (Ok self', p') → astep (mkAConf self p m) (mkAConf self' p' m)
| a_aside self p m p' m' : aside self m p m' p' → astep (mkAConf self p m) (mkAConf self p' m').

Lemma keeps_result {A} c o self' p' : keeps (A:=A) c (Ok (o, self'), p') → (∀ e, o ≠ Stop e) → auth_ok (mkAConf self' p' c.(seq_mine)).
Proof. intros (o1 & self1 & p1 & [= -> -> ->] & H). exact H. Qed.

Lemma astep_keeps c c' : auth_ok c → astep c c' → auth_ok c'.
Proof.
  intros Hc Hs. destruct Hs as [self p m o self' p' H|self p m ans vs o self' p' Hs Ho H|self p m o self' p' H Hn|self p m o self' p' H Hn|self p m o self' p' H Hn|self p m self' p' H|self p m p' m' H].
  - destruct (begin_keeps _ Hc) as [Hk Hn]. cbn [seq_ seq_proc] in *. rewrite H in Hk. apply (keeps_result _ _ _ _ Hk). intros e ->. by eapply Hn.
  - destruct (respond_keeps self p m ans vs Hc Hs Ho) as (o1 & self1 & p1 & H1 & _ & H2). rewrite H in H1. by injection H1 as <- <- <-.
  - pose proof (acct_keeps _ Hc) as Hk. cbn [seq_ seq_proc] in Hk. rewrite H in Hk. by apply (keeps_result _ _ _ _ Hk).
  - pose proof (login_keeps _ Hc) as Hk. cbn [seq_ seq_proc] in Hk. rewrite H in Hk. by apply (keeps_result _ _ _ _ Hk).
  - pose proof (logout_keeps _ Hc) as Hk. cbn [seq_ seq_proc] in Hk. rewrite H in Hk. by apply (keeps_result _ _ _ _ Hk).
  - destruct (advance_keeps _ _ _ Hc) as (self1 & p1 & H1 & H2). rewrite H in H1. by injection H1 as <- <-.
  - by eapply aside_keeps.
Qed.

Lemma asteps_keep c c' : auth_ok c → rtc astep c c' → auth_ok c'.
Proof. intros Hi. induction 1 as [|c1 c2 c3 H _ IH]; [done|]. apply IH. by eapply astep_keeps. Qed.

(** The order that the calls of a sequence have. *)
Lemma auth_order c : auth_ok c → ∃ l st, trace h c.(seq_proc).(calls) = base ++ l ∧ in_order f st l ∧ (st = c.(seq_).(stage) ∨ st = Failed).
Proof.
  destruct c as [self p m]. intros [_ Hh]. cbn [seq_ seq_proc seq_mine] in *. destruct (self.(held)) as [txn|ex|]; [destruct Hh as (_ & _ & l & Hl & Ho); exists l, self.(stage); auto| |done].
  destruct Hh as (txn & restore & x & pos & s & l & _ & _ & _ & _ & _ & Hl & Hall & Hst). exists (l ++ pending pos), Failed. split; [done|]. split; [|by right].
  apply Forall_app. split; [done|]. destruct pos; try constructor; [done|constructor].
Qed.

Lemma sequence_ok self txn s p m : self.(held) = HeldTransaction txn → self.(stage) = Start → self.(flags) = f → idle txn s p → trace h p.(calls) = base →
  auth_ok (mkAConf self p m).
Proof. intros Hh Hst Hf Hi Ht. eapply (resting_ok _ _ Start _ []); try done. by rewrite app_nil_r. Qed.
End One.
End Auth.
