(* ===== verification/PamEnv.v ===== *)
(** The items and the environment of a transaction: what the crate's calls are on
    the finite maps that libpam documents. *)
From S2P Require Import Prelude XdrBase Utf8 PamError Pam PamConv PamTxn PamMem PamTalk PamTxnOk.
Local Open Scope Z_scope.

(** ** What libpam documents *)
(** A variable's name is not empty and has no [=]; no C string has a NUL. *)
Definition named (n : bytes) : Prop := n ≠ [] ∧ (EQUALS ∉ n) ∧ (x00 ∉ n).
#[global] Instance named_dec n : Decision (named n).
Proof. unfold named. apply _. Defined.

(** [NAME=value], as [pam_putenv] takes it and [pam_getenvlist] gives it. *)
Definition assignment (n v : bytes) : bytes := n ++ [EQUALS] ++ v.

(** [vars] is what a handle's environment holds, in libpam's order, and [item] its
    items.  A call that fails changes nothing. *)
Class LibpamEnv (W U : Type) {pam : Libpam W U} : Type := {
  vars : Z → W → list (bytes * bytes);
  item : Z → Z → W → option bytes;
  vars_named : ∀ h w, Forall (λ nv, named nv.1 ∧ (x00 ∉ nv.2)) (vars h w);
  vars_nodup : ∀ h w, NoDup (vars h w).*1;
  getenv_law : ∀ h n w, pam_getenv (U:=U) h n w = (list_to_map (vars h w) : gmap bytes bytes) !! n;
  putenv_set : ∀ h n v w, named n → (x00 ∉ v) →
    let '(rc, w') := pam_putenv (U:=U) h (assignment n v) w in
    list_to_map (vars h w') = if rc =? PAM_SUCCESS then <[n := v]> (list_to_map (vars h w)) else list_to_map (vars h w) : gmap bytes bytes;
  putenv_unset : ∀ h n w, named n →
    let '(rc, w') := pam_putenv (U:=U) h n w in
    match (list_to_map (vars h w) : gmap bytes bytes) !! n with
    | None => rc = PAM_BAD_ITEM ∧ vars h w' = vars h w
    | Some _ => rc ≠ PAM_BAD_ITEM ∧
        list_to_map (vars h w') = if rc =? PAM_SUCCESS then delete n (list_to_map (vars h w)) else list_to_map (vars h w) : gmap bytes bytes
    end;
  getenvlist_law : ∀ h w l w', pam_getenvlist (U:=U) h w = (Some l, w') →
    l = (λ nv, assignment nv.1 nv.2) <$> vars h w ∧ vars h w' = vars h w;
  get_item_law : ∀ h t w, (pam_get_item (U:=U) h t w).1 = PAM_SUCCESS → (pam_get_item (U:=U) h t w).2 = item h t w;
  set_item_law : ∀ h t v w, x00 ∉ v → let '(rc, w') := pam_set_item (U:=U) h t v w in
    (rc = PAM_SUCCESS → item h t w' = Some v) ∧ (rc ≠ PAM_SUCCESS → item h t w' = item h t w)
}.

Section Env.
Context {W U : Type} {pam : Libpam W U} {laws : LibpamEnv W U}.
Implicit Types p : Proc W U.

(** The variables of a handle. *)
Definition env_map (h : Z) (w : W) : gmap bytes bytes := list_to_map (vars (U:=U) h w).

(** ** Single variables *)
Lemma check_env_ok n : named n → check_env_name n = Ok tt.
Proof. intros (H1 & H2 & _). unfold check_env_name. rewrite decide_False; [done|]. naive_solver. Qed.

Lemma c_arg_ok b : x00 ∉ b → c_arg b = Ok b.
Proof. intros H. unfold c_arg, cstring. by rewrite decide_False. Qed.
Lemma c_arg_bad b : x00 ∈ b → c_arg b = Err NulByte.
Proof. intros H. unfold c_arg, cstring. by rewrite decide_True. Qed.

Lemma live_runs h p : is_Some (p.(handles) !! h) → live_handle (W:=W) (U:=U) h p = (Ok tt, p).
Proof. intros [a Ha]. unfold live_handle. by rewrite Ha. Qed.

Lemma raw_putenv_runs txn e p : is_Some (p.(handles) !! txn.(hdl)) → x00 ∉ e →
  let '(rc, w) := pam_putenv (U:=U) txn.(hdl) e p.(sys) in
  raw_putenv txn e p = (map_err Fail (check rc), set_sys w p).
Proof.
  intros Hh He. destruct (pam_putenv txn.(hdl) e p.(sys)) as [rc w] eqn:Hp. unfold raw_putenv. rewrite (run_bind_ok _ _ _ e p) by (unfold result, lift; by rewrite c_arg_ok).
  rewrite (run_bind_ok _ _ _ _ _ (live_runs _ _ Hh)). rewrite (run_bind_ok _ _ _ rc (set_sys w p)) by (unfold sys_call; by rewrite Hp). done.
Qed.

Lemma assignment_c n v : named n → x00 ∉ v → x00 ∉ assignment n v.
Proof. intros (_ & _ & H1) H2. unfold assignment. rewrite !not_elem_of_app. split; [done|]. split; [|done]. by rewrite list_elem_of_singleton. Qed.

Lemma putenv_runs txn n v p : is_Some (p.(handles) !! txn.(hdl)) → named n → x00 ∉ v → ∃ rc w,
  putenv txn n v p = (map_err Fail (check rc), set_sys w p) ∧
  env_map txn.(hdl) w = if rc =? PAM_SUCCESS then <[n := v]> (env_map txn.(hdl) p.(sys)) else env_map txn.(hdl) p.(sys).
Proof.
  intros Hh Hn Hv. pose proof (raw_putenv_runs txn (assignment n v) p Hh (assignment_c n v Hn Hv)) as H1. pose proof (putenv_set txn.(hdl) n v p.(sys) Hn Hv) as H2.
  destruct (pam_putenv _ _ _) as [rc w]. exists rc, w. split; [|done]. unfold putenv. rewrite (run_bind_ok _ _ _ tt p) by (unfold result, lift; by rewrite check_env_ok). exact H1.
Qed.

(** What libpam cannot take is refused before it is called. *)
Lemma putenv_refused txn n v p : ¬ named n ∨ x00 ∈ v → putenv txn n v p = (Err (Fail (if decide (n = [] ∨ EQUALS ∈ n) then InvalidName else NulByte)), p).
Proof.
  intros H. unfold putenv, check_env_name. case_decide as Hn; [done|]. cbn [result map_err lift mbind St_bind]. unfold mbind, St_bind, result, lift. cbn [map_err].
  unfold raw_putenv, mbind, St_bind, result, lift. rewrite c_arg_bad; [done|]. unfold named in H. rewrite !elem_of_app. destruct H as [H|H]; [|auto]. left.
  destruct (decide (x00 ∈ n)); [done|]. naive_solver.
Qed.

Lemma getenv_runs txn n p : is_Some (p.(handles) !! txn.(hdl)) → x00 ∉ n →
  getenv txn n p = (match env_map txn.(hdl) p.(sys) !! n with
                    | None => Ok None
                    | Some v => if utf8_valid v then Ok (Some v) else Err (Fail NotUtf8)
                    end, p).
Proof.
  intros Hh Hn. unfold getenv. rewrite (run_bind_ok _ _ _ n p) by (unfold result, lift; by rewrite c_arg_ok). rewrite (run_bind_ok _ _ _ _ _ (live_runs _ _ Hh)).
  rewrite (run_bind_ok (read_sys _) _ p (pam_getenv (U:=U) txn.(hdl) n p.(sys)) p eq_refl). rewrite getenv_law. unfold env_map.
  destruct (_ !! n) as [v|] eqn:Hv; [|done]. apply elem_of_list_to_map_2 in Hv. pose proof (vars_named txn.(hdl) p.(sys)) as Hnm. rewrite Forall_forall in Hnm. destruct (Hnm _ Hv) as [_ Hnul].
  rewrite until_nul_id by done. unfold from_utf8. by destruct (utf8_valid v).
Qed.

Lemma unsetenv_runs txn n p : is_Some (p.(handles) !! txn.(hdl)) → named n → ∃ rc w, unsetenv txn n p =
    (match env_map txn.(hdl) p.(sys) !! n with None => Ok false | Some _ => outcome_map (λ _, true) (map_err Fail (check rc)) end, set_sys w p) ∧
  env_map txn.(hdl) w = match env_map txn.(hdl) p.(sys) !! n with
                        | Some _ => if rc =? PAM_SUCCESS then delete n (env_map txn.(hdl) p.(sys)) else env_map txn.(hdl) p.(sys)
                        | None => env_map txn.(hdl) p.(sys)
                        end.
Proof.
  intros Hh Hn. pose proof (raw_putenv_runs txn n p Hh (proj2 (proj2 Hn))) as H1. pose proof (putenv_unset txn.(hdl) n p.(sys) Hn) as H2.
  destruct (pam_putenv _ _ _) as [rc w]. exists rc, w. unfold unsetenv. rewrite (run_bind_ok _ _ _ tt p) by (unfold result, lift; by rewrite check_env_ok).
  assert (caught_app (raw_putenv txn n) p = (Ok (check rc), set_sys w p)) as Hc. { unfold caught_app. rewrite H1. pose proof (check_stop rc) as Hs. by destruct (check rc) as [| |s]; [..|destruct (Hs s)]. }
  rewrite (run_bind_ok _ _ _ _ _ Hc). unfold env_map in *. destruct (_ !! n) as [v|].
  - destruct H2 as [Hne H2]. split; [|done]. pose proof (check_stop rc) as Hs. pose proof (check_Err rc) as He. destruct (check rc) as [[]|e|s]; [done| |by destruct (Hs s)].
    destruct (He e eq_refl) as [Hraw _]. destruct e as [c| | | | | | | |]; try done. destruct c; try done. simpl in Hraw. congruence.
  - destruct H2 as [-> H2]. by rewrite H2.
Qed.

(** ** The whole environment *)
(** Blocks of C's with the strings. *)
Definition string_at (h : Heap) (a : option Z) (b : bytes) : Prop := ∃ q, a = Some q ∧ h !! q = Some (OwnC, Buf (b ++ [x00])) ∧ x00 ∉ b.

Lemma place_strings_runs l : ∀ p, fresh_ok p → Forall (λ b, x00 ∉ b) l → ∃ tbl p', place_strings l p = (Ok (tbl ++ [None]), p') ∧ quiet p p' ∧ fresh_ok p' ∧
  Forall2 (string_at p'.(heap)) tbl l ∧ NoDup (addrs tbl) ∧ grown p.(heap) p'.(heap) (addrs tbl) ∧ p'.(sys) = p.(sys).
Proof.
  induction l as [|b l IH]; intros p Hf Hl.
  - exists [], p. split; [done|]. split; [done|]. split; [done|]. split; [constructor|]. split; [constructor|]. split; [apply grown_nil|done].
  - apply Forall_cons in Hl as [Hb Hl]. destruct (new_block_runs OwnC (Buf (b ++ [x00])) p Hf) as (p1 & H1 & Q1 & E1 & F1 & S1).
    destruct (IH p1 F1 Hl) as (tbl & p2 & H2 & Q2 & F2 & Ht & Hd & Hg & S2). exists (Some p.(next_block) :: tbl), p2.
    assert (p.(heap) !! p.(next_block) = None) as Hn by (apply (f_heap p Hf); done).
    assert (p.(next_block) ∉ addrs tbl) as Hni. { intros Hin. apply Hg in Hin. rewrite E1, lookup_insert_eq in Hin. done. }
    cbn [place_strings]. rewrite until_nul_id by done. rewrite (run_bind_ok _ _ _ _ _ H1), (run_bind_ok _ _ _ _ _ H2). split; [done|]. split; [by etrans|]. split; [done|].
    destruct Hg as [G1 G2]. split.
    { constructor; [|done]. exists p.(next_block). split; [done|]. split; [|done]. rewrite G1 by done. rewrite E1. apply lookup_insert_eq. }
    split; [simpl; by constructor|]. split; [|congruence]. split.
    + intros a Ha. simpl in Ha. rewrite G1 by set_solver. rewrite E1. apply lookup_insert_ne. set_solver.
    + intros a Ha. simpl in Ha. apply elem_of_cons in Ha as [->|Ha]; [done|]. specialize (G2 a Ha). rewrite E1 in G2. apply lookup_insert_None in G2. by destruct G2.
Qed.

Lemma release_any o a d p : p.(heap) !! a = Some (o, d) → ∃ p', release_block o a p = (Ok tt, p') ∧ p'.(heap) = delete a p.(heap) ∧ p'.(sys) = p.(sys) ∧
  p'.(next_block) = p.(next_block) ∧ p'.(slots) = p.(slots) ∧ p'.(handles) = p.(handles) ∧ p'.(channels) = p.(channels) ∧ p'.(calls) = p.(calls).
Proof. intros H. unfold release_block. rewrite (run_bind_ok _ _ _ _ _ (take_block_runs _ _ _ _ H)). eexists. split; [reflexivity|]. done. Qed.

(** What the loop makes of the strings. *)
Definition readable (l : list bytes) : list (bytes * bytes) := omap (λ e, match split_env e with Ok kv => Some kv | _ => None end) l.

(** A process that differs in memory alone. *)
Definition heap_only p p' : Prop :=
  p'.(sys) = p.(sys) ∧ p'.(slots) = p.(slots) ∧ p'.(handles) = p.(handles) ∧ p'.(channels) = p.(channels) ∧ p'.(calls) = p.(calls) ∧ p'.(next_block) = p.(next_block).

Lemma strings_kept h h' tbl l : Forall2 (string_at h) tbl l → (∀ q, q ∈ addrs tbl → h' !! q = h !! q) → Forall2 (string_at h') tbl l.
Proof.
  induction 1 as [|e b tbl l (q & -> & Hq & Hb) _ IH]; intros Hh; constructor.
  - exists q. split; [done|]. split; [|done]. rewrite Hh by left. done.
  - apply IH. intros a Ha. apply Hh. by right.
Qed.

Lemma strings_there h tbl l q : Forall2 (string_at h) tbl l → q ∈ addrs tbl → is_Some (h !! q).
Proof.
  induction 1 as [|e b tbl l (q' & -> & Hq & Hb) _ IH]; [by intros ?%elem_of_nil|]. cbn [omap list_omap id]. intros [->|Hin]%elem_of_cons; [eauto|by apply IH].
Qed.

Lemma env_loop_runs array tbl : ∀ fuel l pre out p, (length tbl < fuel)%nat → p.(heap) !! array = Some (OwnC, Table (pre ++ tbl ++ [None])) →
  Forall2 (string_at p.(heap)) tbl l → NoDup (array :: addrs tbl) → ∃ p', env_loop fuel array (length pre) out p = (Ok (out ++ readable l), p') ∧
    p'.(heap) = purge p.(heap) (addrs tbl) ∧ heap_only p p'.
Proof.
  induction tbl as [|e tbl IH]; intros [|fuel] l pre out p Hfuel Ha Ht Hn; simpl in Hfuel; [lia| |lia|]; cbn [env_loop];
    (erewrite run_bind_ok by (eapply deref_runs; done)); cbv beta; (rewrite lookup_app_r by lia); rewrite Nat.sub_diag.
  - apply Forall2_nil_inv_l in Ht as ->. exists p. unfold readable. simpl. rewrite app_nil_r. done.
  - apply Forall2_cons_inv_l in Ht as (b & l' & (q & -> & Hq & Hb) & Ht & ->). cbn [app lookup list_lookup ok_or]. rewrite run_lift.
    erewrite run_bind_ok by (eapply deref_runs; done). cbv beta. rewrite strlen_app by done. cbn [ok_or]. rewrite run_lift. rewrite take_app_length. cbv zeta.
    destruct (release_any OwnC q _ p Hq) as (p1 & H1 & E1 & S1 & N1 & L1 & Hh1 & X1 & C1). rewrite (run_bind_ok _ _ _ _ _ H1).
    cbn [omap list_omap id] in Hn. apply NoDup_cons in Hn as [Hna Hn]. apply NoDup_cons in Hn as [Hnq Hn].
    destruct (IH fuel l' (pre ++ [Some q]) (match split_env b with Ok kv => out ++ [kv] | _ => out end) p1) as (p2 & H2 & E2 & S2 & L2 & Hh2 & X2 & C2 & N2).
    + lia.
    + rewrite E1, lookup_delete_ne by set_solver. by rewrite <- app_assoc.
    + eapply strings_kept; [done|]. intros a Hin. rewrite E1. apply lookup_delete_ne. set_solver.
    + constructor; [set_solver|done].
    + rewrite length_app, Nat.add_1_r in H2. exists p2. split; [|split; [|repeat split; congruence]].
      * etrans; [exact H2|]. f_equal. f_equal. unfold readable. cbn [omap list_omap]. destruct (split_env b); [by rewrite <- app_assoc|done..].
      * rewrite E2, E1. symmetry. apply (purge_cons _ q).
Qed.

(** ** Reading a string *)
Lemma find_equals n v : EQUALS ∉ n → list_find (λ b, b = EQUALS) (assignment n v) = Some (length n, EQUALS).
Proof.
  intros Hn. unfold assignment. apply list_find_Some. split; [rewrite lookup_app_r by lia; by rewrite Nat.sub_diag|]. split; [done|].
  intros j y Hj Hlt. rewrite lookup_app_l in Hj by lia. intros ->. apply Hn. by eapply list_elem_of_lookup_2.
Qed.

Lemma take_assignment n v : take (length n) (assignment n v) = n.
Proof. apply take_app_length. Qed.
Lemma drop_assignment n v : drop (length n + 1) (assignment n v) = v.
Proof. unfold assignment. rewrite drop_app_ge by lia. by replace (length n + 1 - length n)%nat with 1%nat by lia. Qed.

Lemma split_assignment n v : EQUALS ∉ n →
  split_env (assignment n v) = outcome_bind (λ n, outcome_map (pair n) (from_utf8 v)) (from_utf8 n).
Proof. intros Hn. unfold split_env. rewrite find_equals by done. by rewrite take_assignment, drop_assignment. Qed.

(** The variables whose name and value are text. *)
Definition text_vars (l : list (bytes * bytes)) : list (bytes * bytes) := filter (λ nv, utf8_valid nv.1 = true ∧ utf8_valid nv.2 = true) l.

Lemma readable_vars l : Forall (λ nv, named nv.1 ∧ (x00 ∉ nv.2)) l → readable ((λ nv, assignment nv.1 nv.2) <$> l) = text_vars l.
Proof.
  induction 1 as [|[n v] l [(Hn1 & Hn2 & Hn3) Hv] _ IH]; [done|]. unfold readable in *. cbn [fmap list_fmap omap list_omap fst snd]. rewrite IH, split_assignment by done.
  unfold text_vars, from_utf8. rewrite filter_cons. cbn [fst snd] in *. destruct (utf8_valid n), (utf8_valid v); simpl; by repeat case_decide; naive_solver.
Qed.

(** [env] gives the text variables in libpam's order and keeps nothing. *)
Lemma env_runs txn p : fresh_ok p → is_Some (p.(handles) !! txn.(hdl)) → ∃ r p', env txn p = (r, p') ∧
  (r = Err (Fail (Pam BufErr)) ∨ r = Ok (text_vars (vars txn.(hdl) p.(sys))) ∧ vars txn.(hdl) p'.(sys) = vars txn.(hdl) p.(sys)) ∧
  fresh_ok p' ∧ p'.(heap) = p.(heap) ∧ p'.(slots) = p.(slots) ∧ p'.(handles) = p.(handles) ∧ p'.(channels) = p.(channels) ∧ p'.(calls) = p.(calls).
Proof.
  intros Hf Hh. unfold env. rewrite (run_bind_ok _ _ _ _ _ (live_runs _ _ Hh)). unfold call_getenvlist.
  destruct (pam_getenvlist (U:=U) txn.(hdl) p.(sys)) as [[l|] w] eqn:Hl.
  2:{ exists (Err (Fail (Pam BufErr))), (set_sys w p). split; [unfold mbind, St_bind, sys_call; by rewrite Hl|]. split; [by left|]. split; [by apply fresh_sys|done]. }
  apply getenvlist_law in Hl as Hlaw. destruct Hlaw as [-> Hw]. pose proof (vars_named txn.(hdl) p.(sys)) as Hnm. set (vs := vars txn.(hdl) p.(sys)) in *.
  destruct (place_strings_runs ((λ nv, assignment nv.1 nv.2) <$> vs) (set_sys w p) (fresh_sys w p Hf)) as (tbl & p1 & H1 & Q1 & F1 & Ht & Hd & Hg & S1).
  { apply Forall_fmap. eapply Forall_impl; [exact Hnm|]. intros [n v] [? ?]. by apply assignment_c. }
  destruct (new_block_runs OwnC (Table (tbl ++ [None])) p1 F1) as (p2 & H2 & Q2 & E2 & F2 & S2). set (array := p1.(next_block)) in *.
  assert (p1.(heap) !! array = None) as Hna by (apply (f_heap p1 F1); done).
  assert (array ∉ addrs tbl) as Hni by (intros Hin; destruct (strings_there _ _ _ _ Ht Hin) as [? Hq]; congruence).
  assert (call_getenvlist txn.(hdl) p = (Ok (Some array), p2)) as Hcall.
  { unfold call_getenvlist. rewrite (run_bind_ok _ _ _ (Some ((λ nv, assignment nv.1 nv.2) <$> vs)) (set_sys w p)) by (unfold sys_call; by rewrite Hl).
    rewrite (run_bind_ok _ _ _ _ _ H1). by rewrite (run_bind_ok _ _ _ _ _ H2). }
  assert (p2.(heap) !! array = Some (OwnC, Table (tbl ++ [None]))) as Harr by (rewrite E2; apply lookup_insert_eq).
  destruct (env_loop_runs array tbl (S (length (tbl ++ [None]))) ((λ nv, assignment nv.1 nv.2) <$> vs) [] [] p2 ltac:(rewrite length_app; simpl; lia) Harr) as (p3 & H3 & E3 & S3 & L3 & Hh3 & X3 & C3 & N3).
  { eapply strings_kept; [done|]. intros q Hq. rewrite E2. apply lookup_insert_ne. congruence. } { by constructor. }
  destruct (release_any OwnC array (Table (tbl ++ [None])) p3) as (p4 & H4 & E4 & S4 & N4 & L4 & Hh4 & X4 & C4). { rewrite E3, lookup_purge. by rewrite decide_False. }
  assert (p4.(heap) = p.(heap)) as Eh. { rewrite E4, E3. change (purge p2.(heap) (array :: addrs tbl) = p.(heap)). apply purge_grown. rewrite E2. by apply (grown_insert p.(heap) p1.(heap)). }
  destruct Q1 as [QL1 QH1 QX1 QC1 QN1 _], Q2 as [QL2 QH2 QX2 QC2 QN2 _]. simpl in *.
  exists (Ok (text_vars vs)), p4. split.
  { rewrite (run_bind_ok _ _ _ _ _ Hcall). erewrite run_bind_ok by (eapply deref_runs; done). cbv beta. rewrite (run_bind_ok _ _ _ _ _ H3), (run_bind_ok _ _ _ _ _ H4).
    by rewrite readable_vars. }
  split; [right; split; [done|]; congruence|]. split; [|repeat split; congruence]. destruct Hf as [G1 G2 G3 G4].
  split; intros b Hb; [rewrite Eh; apply G1; lia|replace p4.(slots) with p.(slots) by congruence; apply G2; lia|replace p4.(handles) with p.(handles) by congruence; apply G3; lia|
    replace p4.(channels) with p.(channels) by congruence; apply G4; lia].
Qed.

(** ** Items *)
Lemma item_roundtrip txn t v p p' : is_Some (p.(handles) !! txn.(hdl)) → x00 ∉ v → utf8_valid v = true → set_item_str txn t v p = (Ok tt, p') →
  (pam_get_item (U:=U) txn.(hdl) t p'.(sys)).1 = PAM_SUCCESS → item_str txn t p' = (Ok (Some v), p').
Proof.
  intros Hh Hv Hu Hset Hget. pose proof (set_item_law txn.(hdl) t v p.(sys) Hv) as Hlaw. unfold set_item_str in Hset.
  rewrite (run_bind_ok _ _ _ v p) in Hset by (unfold result, lift; by rewrite c_arg_ok). rewrite (run_bind_ok _ _ _ _ _ (live_runs _ _ Hh)) in Hset.
  destruct (pam_set_item txn.(hdl) t v p.(sys)) as [rc w] eqn:Hp. rewrite (run_bind_ok _ _ _ rc (set_sys w p)) in Hset by (unfold sys_call; by rewrite Hp).
  unfold result, lift in Hset. injection Hset as Hrc <-. assert (rc = PAM_SUCCESS) as ->. { apply (check_Ok rc tt). by destruct (check rc) as [[]| |]. }
  destruct Hlaw as [Hlaw _]. specialize (Hlaw eq_refl). apply get_item_law in Hget as Hit. unfold item_str. rewrite (run_bind_ok _ _ _ _ _ (live_runs _ (set_sys w p) Hh)).
  rewrite (run_bind_ok (read_sys (pam_get_item (U:=U) txn.(hdl) t)) _ (set_sys w p) (pam_get_item (U:=U) txn.(hdl) t w) (set_sys w p) eq_refl). simpl in Hget, Hit. rewrite Hget, Hit, Hlaw.
  unfold check. simpl. rewrite until_nul_id by done. unfold from_utf8. by rewrite Hu.
Qed.
End Env.
