(* ===== verification/PamTheorems.v ===== *)
(** The theorems on [truenas_pam], with witnesses on a small libpam that keeps the
    laws: one service that asks for a password if it has one, with environments
    and items per handle. *)
From S2P Require Import Prelude XdrBase Utf8 PamError Pam PamConv PamTxn PamStep PamAuth PamMem PamTalk PamTxnOk PamExchange PamDrive PamAuthOk PamEnv.
Local Open Scope Z_scope.

(** The world: the password, what a session's opening gives, whether the grant of
    credentials says something, whether there are threads, memory and time. *)
Record World : Type := mkWorld {
  password : bytes; session_rc : Z; greets : bool; threads : bool; memory : bool; hurried : bool;
  envs : gmap Z (gmap bytes bytes); items : gmap (Z * Z) bytes
}.
Definition set_envs (w : World) e : World := mkWorld w.(password) w.(session_rc) w.(greets) w.(threads) w.(memory) w.(hurried) e w.(items).
Definition set_items (w : World) i : World := mkWorld w.(password) w.(session_rc) w.(greets) w.(threads) w.(memory) w.(hurried) w.(envs) i.

(** The application's conversation answers from a script. *)
Definition remaining : Script → Script := id.

Definition good (nv : bytes * bytes) : Prop := named nv.1 ∧ (x00 ∉ nv.2).
#[global] Instance good_dec nv : Decision (good nv).
Proof. unfold good. apply _. Defined.
Definition env_of (h : Z) (w : World) : gmap bytes bytes := filter good (default ∅ (w.(envs) !! h)).
Definition put_env (h : Z) (e : gmap bytes bytes) (w : World) : World := set_envs w (<[h := e]> w.(envs)).

Definition model_putenv (h : Z) (e : bytes) (w : World) : Z * World :=
  match list_find (λ b, b = EQUALS) e with
  | Some (i, _) =>
      let n := take i e in let v := drop (i + 1) e in
      if decide (good (n, v)) then (PAM_SUCCESS, put_env h (<[n := v]> (env_of h w)) w) else (PAM_BAD_ITEM, w)
  | None =>
      match env_of h w !! e with
      | Some _ => (PAM_SUCCESS, put_env h (delete e (env_of h w)) w)
      | None => (PAM_BAD_ITEM, w)
      end
  end.

Definition says_to (style : Z) (text : bytes) : option (list (option pam_message)) := Some [Some (mkRaw style (Some text))].

Definition model_call (op : StackOp) (h f : Z) (w : World) : Stack World :=
  match op with
  | pam_authenticate =>
      if decide (w.(password) = []) then Return_ PAM_SUCCESS w else
      Converse 1 (says_to PAM_PROMPT_ECHO_OFF (lit "Password: ")) true w (λ rc r w,
        Return_ (if decide (r = Some [(Some w.(password), 0)]) then PAM_SUCCESS else PAM_AUTH_ERR) w)
  | pam_setcred =>
      if w.(greets) then Converse 1 (says_to PAM_TEXT_INFO (lit "Welcome")) true w (λ rc r w, Return_ PAM_SUCCESS w)
      else Return_ PAM_SUCCESS w
  | pam_open_session => Return_ w.(session_rc) w
  | _ => Return_ PAM_SUCCESS w
  end.

#[global] Instance model_pam : Libpam World Script := {
  pam_start_confdir service user confdir h w := (if decide (service = []) then PAM_ABORT else PAM_SUCCESS, w);
  pam_end h st w := Return_ PAM_SUCCESS w;
  pam_call := model_call;
  pam_set_item h t v w := (PAM_SUCCESS, set_items w (<[(h, t) := v]> w.(items)));
  pam_get_item h t w := (PAM_SUCCESS, w.(items) !! (h, t));
  pam_putenv := model_putenv;
  pam_getenv h n w := env_of h w !! n;
  pam_getenvlist h w := (if w.(memory) then Some ((λ nv, assignment nv.1 nv.2) <$> map_to_list (env_of h w)) else None, w);
  pam_fail_delay h d w := (PAM_SUCCESS, w);
  has_memory n w := (w.(memory), w);
  converse_custom u ms w := (match u with l :: _ => Answer l | [] => Refuse Timeout end, tail u, w);
  spawn w := (if w.(threads) then None else Some None, w);
  expires d w := (w.(hurried), w)
}.

Lemma model_scripted : scripted (W:=World) remaining.
Proof. intros u ms w. by exists (tail u). Qed.

#[global] Instance model_laws : LibpamLaws World Script.
Proof.
  split; [|intros; constructor]. intros op h f w. destruct op; simpl; try constructor.
  - case_decide; constructor; [done|]. intros; constructor.
  - destruct (greets w); constructor; [done|]. intros; constructor.
Qed.

Lemma env_put h e w : map_Forall (λ n v, good (n, v)) e → env_of h (put_env h e w) = e.
Proof. intros He. unfold env_of. simpl. rewrite lookup_insert_eq. simpl. by apply map_filter_id. Qed.

Lemma env_good h w : map_Forall (λ n v, good (n, v)) (env_of h w).
Proof. intros n v Hn. by apply map_lookup_filter_Some in Hn as [_ ?]. Qed.

#[global, refine] Instance model_env : LibpamEnv World Script := {| vars h w := map_to_list (env_of h w); item h t w := w.(items) !! (h, t) |}.
Proof.
  - intros h w. apply Forall_forall. intros [n v] Hin%elem_of_map_to_list. by apply (env_good h w).
  - intros h w. apply NoDup_fst_map_to_list.
  - intros h n w. by rewrite list_to_map_to_list.
  - intros h n v w Hn Hv. rewrite !list_to_map_to_list. simpl. unfold model_putenv. rewrite find_equals by apply Hn. cbv zeta.
    rewrite drop_assignment, take_assignment. rewrite decide_True by done. simpl. rewrite list_to_map_to_list. apply env_put. apply map_Forall_insert_2; [done|apply env_good].
  - intros h n w Hn. rewrite !list_to_map_to_list. simpl. unfold model_putenv. assert (list_find (λ b, b = EQUALS) n = None) as ->.
    { apply list_find_None. apply Forall_forall. intros b Hb ->. by apply Hn in Hb. }
    destruct (env_of h w !! n) eqn:He; simpl; [|done]. split; [done|]. rewrite list_to_map_to_list. apply env_put. by apply map_Forall_delete, env_good.
  - intros h w l w'. simpl. destruct (memory w); [|done]. by intros [= <- <-].
  - done.
  - intros h t v w _. simpl. split; [|done]. intros _. apply lookup_insert_eq.
Defined.


(** ** The worlds of the witnesses *)
Definition hunter2 : bytes := lit "hunter2".
Definition calm_world (pw : bytes) : World := mkWorld pw PAM_SUCCESS false true true false ∅ ∅.
Definition empty_proc (w : World) : Proc World Script := mkProc ∅ 1 [] ∅ ∅ ∅ [] w.
(** The process after a transaction was built with a conversation. *)
Definition txn_2 : Transaction := mkTransaction 2 1 PAM_SUCCESS.
Definition built_proc (c : Conversation Script) (w : World) : Proc World Script :=
  mkProc ∅ 3 [] {[1 := slot_new c]} {[2 := 1]} ∅ [Started 2] w.

Lemma empty_fresh w : fresh_ok (empty_proc w).
Proof. split; intros b Hb; simpl; [apply lookup_empty..|set_solver]. Qed.

Lemma built_usable c w : usable txn_2 (slot_new c) (built_proc c w).
Proof.
  split; [|done]. split; simpl; intros b Hb; [apply lookup_empty|rewrite lookup_singleton_ne by lia; done..|set_solver].
Qed.

Section Pam.
Context {W U : Type} {pam : Libpam W U} {laws : LibpamLaws W U}.
Implicit Types p : Proc W U.

(** C27: The life of a transaction, from [build] over any stack operations to its
    drop: either [build] gives an error, and a handle that was started is ended
    with [PAM_ABORT]; or every operation gives what the modules, the conversation
    and the codes make of it - a failure of the conversation before the stack's
    code - and the handle is ended once, with the last code.  Either way the heap,
    the slots, the live handles and the channels are as they were, libpam was
    called in this order and no other, and every buffer that was freed held zeros
    alone. *)
Theorem pam_lifetime self ops p (Hf : fresh_ok p) (Hc : channel_free (conversation_of self)) :
  (∃ e p', lifetime self ops p = Ret (Err (Fail e)) p' ∧
     (unchanged [] p p' ∨ ∃ h, p.(handles) !! h = None ∧ unchanged [Started h; EndedWith h PAM_ABORT] p p')) ∨
  (∃ h w p', let '(rs, s', w') := talk_all h ops (slot_new (conversation_of self)) w in
     lifetime self ops p = Ret (Ok (outcome_in <$> rs)) p' ∧ p.(handles) !! h = None ∧
     unchanged (Started h :: (call_in h <$> rs) ++ [EndedWith h (last_code PAM_SUCCESS rs)]) p p' ∧
     p'.(sys) = (talk (pam_end h (last_code PAM_SUCCESS rs) w') s').2).
Proof. by apply (lifetime_runs self ops p). Qed.

(** C28: Answers on their way: an application's buffers, spare capacity and all,
    become secrets, the callback makes an array in C of them and drops them, and the module reads the
    array and frees it.  The module reads what the application said, or there is
    an error and no array; a half-built array is given back.  The heap is as it was, and
    every buffer that the crate freed held zeros alone.  With memory enough, the
    answers arrive unless one has a NUL. *)
Theorem pam_answers l p (Hf : fresh_ok p) : 
  (∃ p', carry l p = (match (build_spec (U:=U) (values l) p.(sys)).1 with
      | Ok _ => Ok ((λ v, (v, 0)) <$> values l)
      | Err e => Err (Fail e)
      | Stop s => Stop s
      end, p') ∧ p'.(heap) = p.(heap) ∧ ∃ zs, p'.(released) = p.(released) ++ zs ∧ Forall zeroed zs) ∧
  ((∀ n w, (has_memory (U:=U) n w).1 = true) →
   (carry l p).1 = if decide (Exists (λ v, x00 ∈ default [] v) (values l)) then Err (Fail NulByte) else Ok ((λ v, (v, 0)) <$> values l)).
Proof.
  destruct (carry_runs l p Hf) as (p' & -> & Q & Eh & _). split; [exists p'; split; [done|]; split; [done|]; apply (q_released _ _ Q)|].
  intros Hm. rewrite (build_enough _ _ Hm). simpl. by case_decide.
Qed.

(** C29: An exchange that is driven one round at a time, with a script of answers,
    comes to what the same call comes to under a conversation that answers from
    that script: the same code and transaction, the same messages logged, the
    same calls of libpam, the same world; the driver is told the same verdict, or has a
    round in hand that its script has no answer to.  The conversation that was
    there is back, and the channel is gone. *)
Theorem pam_stepped remaining (Hr : scripted remaining) op txn flags u s p (Hu : usable txn s p) (Hc : s.(conv) = Custom u) (Hf : s.(failure) = None)
    (Hsp : (spawn (U:=U) p.(sys)).1 = None) :
  let p0 := set_sys (spawn (U:=U) p.(sys)).2 p in
  ∃ v txn' r p1 p2 s1 s2,
    direct (stack_op txn (stack_of op) flags) p0 = (Ok (v, txn'), p1) ∧
    exchange op txn flags (remaining u) p = (Ok (r, txn'), p2) ∧
    (r = outcome_map (λ _, Done) v ∨ (∃ ms, r = Ok (Prompt ms)) ∧ (length s.(log) + length (remaining u) < length s1.(log))%nat) ∧
    p1.(slots) !! txn.(slot) = Some s1 ∧ p2.(slots) !! txn.(slot) = Some s2 ∧ s2.(log) = s1.(log) ∧ s2.(conv) = Custom u ∧
    p2.(sys) = p1.(sys) ∧ p2.(calls) = p1.(calls) ∧ p2.(heap) = p1.(heap) ∧ p2.(channels) = p.(channels).
Proof.
  intros p0. destruct (exchange_runs op txn flags (remaining u) s p Hu) as (r & p2 & H2 & Ht & (_ & _ & Hu2) & E2 & S2 & X2 & C2 & _); [by rewrite Hc|done|done|].
  assert (usable txn s p0) as Hu0 by (destruct Hu as (F & ? & ?); split; [by apply fresh_sys|done]).
  pose proof (stack_op_runs txn (stack_of op) flags s p0 Hu0 ltac:(by rewrite Hc)) as H1. change (sys p0) with (spawn (U:=U) p.(sys)).2 in H1.
  pose proof (talk_scripted remaining (pam_call (stack_of op) txn.(hdl) flags (spawn (U:=U) p.(sys)).2) Hr u s Hc) as He.
  destruct (talk _ s) as [[rc s'] w], (talk_with _ _ s) as [[rc2 s2] w2]. destruct He as (<- & <- & El & Ef), H1 as (p1 & H1 & (_ & _ & Hu1) & E1 & S1 & M1). simpl in *.
  exists (verdict rc s'.(failure)), (mkTransaction txn.(hdl) txn.(slot) rc), r, p1, p2, (cleared s'), (mkSlot s.(conv) s2.(log) None).
  split; [unfold direct; by rewrite H1|]. split; [done|]. rewrite Ef. split; [destruct Ht as [->|[? ?]]; [by left|right; split; [done|]; simpl; congruence]|].
  repeat (split; [done|]). split; [congruence|]. split; [by rewrite C2, (m_calls _ _ _ _ M1)|]. split; [congruence|done].
Qed.

(** C30: An exchange over any interleaving of its driver's calls, its worker's
    progress and the rest of the process, which does not have its transaction,
    its channel or the buffers on their way.  It begins, or the transaction comes
    back at once as it was.  Then every call returns - none waits for good,
    touches memory it may not, or panics: a call out of turn is refused.  And
    from every state, [finish] gives the transaction back with the conversation
    that was there before, and a drop ends the handle, once, and frees its slot. *)
Theorem pam_exchange op txn flags s p m (Hu : usable txn s p) (Hc : channel_free s.(conv)) (Hf : s.(failure) = None) :
  (∃ e p', run txn flags op p = (Ok (inr (txn, e)), p') ∧ usable txn s p' ∧ p'.(channels) = p.(channels) ∧ p'.(calls) = p.(calls)) ∨
  (∃ st p1, run txn flags op p = (Ok (inl st), p1) ∧ ∀ c, rtc (estep txn p.(next_block)) (mkEConf st p1 m) c →
    (∀ limit, ∃ r st' p', wait c.(ex) limit c.(ex_proc) = (Ok (r, st'), p') ∧ ∀ e, r ≠ Stop e) ∧
    (∀ limit ans vs, secrets c.(ex_proc).(heap) ans vs → (∀ b, b ∈ addrs ans → b ∈ c.(mine)) →
       ∃ r st' p', respond c.(ex) ans limit c.(ex_proc) = (Ok (r, st'), p') ∧ ∀ e, r ≠ Stop e) ∧
    (∃ txn' lg p', finish c.(ex) c.(ex_proc) = Ret (Ok txn') p' ∧ txn'.(hdl) = txn.(hdl) ∧ txn'.(slot) = txn.(slot) ∧
       usable txn' (mkSlot s.(conv) lg None) p' ∧ p.(next_block) ∉ p'.(channels)) ∧
    (∃ p' st cs, Stepped_drop c.(ex) c.(ex_proc) = Ret (Ok tt) p' ∧ p'.(handles) = delete txn.(hdl) c.(ex_proc).(handles) ∧ p'.(slots) !! txn.(slot) = None ∧
       p'.(calls) = c.(ex_proc).(calls) ++ cs ++ [EndedWith txn.(hdl) st] ∧ ∀ e, e ∈ cs → ∃ rc, e = Ran txn.(hdl) (stack_of op) flags rc)).
Proof.
  destruct (run_runs op txn flags s p Hu Hc ltac:(by rewrite Hf)) as (p1 & Hb & Hr). destruct (spawn (U:=U) p.(sys)).1 as [errno|].
  { left. destruct Hr as (H1 & Hu1 & X1), Hb as (_ & _ & _ & C1 & _). by eexists _, p1. }
  right. destruct Hr as (_ & st & Hrun & _ & Hd). exists st, p1. split; [done|]. intros c Hs.
  assert (einv op txn flags s.(conv) p.(next_block) c) as Hi.
  { eapply esteps_inv; [|exact Hs]. left. exists Begun, (channelled p.(next_block) s). split; [done|]. by intros b ?%elem_of_nil. }
  destruct c as [st1 q m1]. cbn [ex ex_proc mine] in *. split.
  { intros limit. destruct (wait_inv _ _ _ _ _ st1 q m1 limit Hi) as (r & st2 & q2 & ? & _ & ?). by exists r, st2, q2. }
  split. { intros limit ans vs Hsec Hown. destruct (respond_inv _ _ _ _ _ st1 q m1 limit ans vs Hi Hsec Hown) as (r & st2 & q2 & ? & _ & ?). by exists r, st2, q2. }
  split; [by apply (einv_finish op txn flags s.(conv) p.(next_block) (mkEConf st1 q m1))|].
  by apply (einv_drop op txn flags s.(conv) p.(next_block) (mkEConf st1 q m1)).
Qed.

End Pam.

Section Env.
Context {W U : Type} {pam : Libpam W U} {laws : LibpamEnv W U}.
Implicit Types p : Proc W U.

End Env.

(** ** Witnesses *)
Definition knows : Script := [[Some (hunter2, [])]].
Definition builder_1 : Builder Script := with_conversation (builder (lit "truenas")) (Custom knows).
Definition ops_1 : list (StackOp * Z) := [(pam_authenticate, 0); (pam_acct_mgmt, 0)].

(** A transaction is built, the password is given, and it is dropped. *)
Lemma pam_lifetime_witness : ∃ p', lifetime builder_1 ops_1 (empty_proc (calm_world hunter2)) = Ret (Ok [Ok tt; Ok tt]) p' ∧
  p'.(calls) = [Started 2; Ran 2 pam_authenticate 0 0; Ran 2 pam_acct_mgmt 0 0; EndedWith 2 0] ∧ p'.(heap) = ∅ ∧ p'.(slots) = ∅ ∧ p'.(handles) = ∅.
Proof.
  destruct (pam_lifetime builder_1 ops_1 (empty_proc (calm_world hunter2)) (empty_fresh _) I) as [(e & p' & H & _)|(h & w & p' & H)].
  - exfalso. assert (match lifetime builder_1 ops_1 (empty_proc (calm_world hunter2)) with Ret (Ok _) _ => true | _ => false end = true) as H2 by (vm_compute; reflexivity).
    by rewrite H in H2.
  - destruct (talk_all h ops_1 _ w) as [[rs s'] w']. destruct H as (H & _ & (H1 & H2 & H3 & _) & _). exists p'.
    assert (match lifetime builder_1 ops_1 (empty_proc (calm_world hunter2)) with Ret o q => Some (o, q.(calls)) | _ => None end =
      Some (Ok [Ok tt; Ok tt], [Started 2; Ran 2 pam_authenticate 0 0; Ran 2 pam_acct_mgmt 0 0; EndedWith 2 0])) as H4 by (vm_compute; reflexivity).
    rewrite H in H4 |- *. injection H4 as Ho Hcs. rewrite Ho. split; [reflexivity|]. split; [exact Hcs|]. split; [exact H1|]. split; [exact H2|exact H3].
Defined.

Lemma pam_answers_witness : ∃ p', carry [Some (hunter2, [x41; x42]); None] (empty_proc (calm_world hunter2)) = (Ok [(Some hunter2, 0); (None, 0)], p') ∧ p'.(heap) = ∅.
Proof.
  destruct (pam_answers [Some (hunter2, [x41; x42]); None] (empty_proc (calm_world hunter2)) (empty_fresh _)) as [(p' & H1 & H2 & _) _].
  exists p'. split; [exact H1|exact H2].
Defined.

(** Driven with the right password, the exchange is done. *)
Lemma pam_stepped_witness : ∃ txn' p2, exchange Authenticate txn_2 0 knows (built_proc (Custom knows) (calm_world hunter2)) = (Ok (Ok Done, txn'), p2).
Proof.
  destruct (pam_stepped remaining model_scripted Authenticate txn_2 0 knows _ _ (built_usable (Custom knows) (calm_world hunter2)) eq_refl eq_refl eq_refl)
    as (v & txn' & r & p1 & p2 & s1 & s2 & H1 & H2 & _).
  exists txn', p2. assert ((exchange Authenticate txn_2 0 knows (built_proc (Custom knows) (calm_world hunter2))).1 =
    Ok (Ok Done, mkTransaction 2 1 PAM_SUCCESS)) as H3 by (vm_compute; reflexivity).
  change (remaining knows) with knows in H2. rewrite H2 in H3 |- *. injection H3 as -> ->. reflexivity.
Defined.

(** An exchange waits for its first round, and the driver leaves it then. *)
Definition begun_1 : Outcome (Stepped + Transaction * PamError) PamExit * Proc World Script :=
  run txn_2 0 Authenticate (built_proc Unattended (calm_world hunter2)).
Definition waited (st : Stepped) (p : Proc World Script) : EConf :=
  match wait st None p with
  | (Ok (_, st'), p') => mkEConf st' p' ∅
  | (_, p') => mkEConf st p' ∅
  end.

Lemma waited_step txn x st p : (match wait st None p with (Ok _, _) => true | _ => false end) = true → estep txn x (mkEConf st p ∅) (waited st p).
Proof. unfold waited. destruct (wait st None p) as [[[r st']| |] p'] eqn:H; try done. intros _. by eapply e_wait. Qed.

Lemma pam_exchange_witness : ∃ st p1 txn' p', begun_1 = (Ok (inl st), p1) ∧ (waited st p1).(ex).(phase) = PhPrompting ∧
  finish (waited st p1).(ex) (waited st p1).(ex_proc) = Ret (Ok txn') p' ∧ txn'.(hdl) = 2.
Proof.
  destruct (pam_exchange Authenticate txn_2 0 (slot_new Unattended) (built_proc Unattended (calm_world hunter2)) ∅ (built_usable _ _) I eq_refl) as [(e & p' & H & _)|(st & p1 & H & Hc)].
  - exfalso. assert (match begun_1 with (Ok (inl _), _) => true | _ => false end = true) as H2 by (vm_compute; reflexivity). unfold begun_1 in H2. by rewrite H in H2.
  - assert (match begun_1 with (Ok (inl st), p1) => match wait st None p1 with (Ok (_, st'), _) => bool_decide (st'.(phase) = PhPrompting) | _ => false end | _ => false end = true) as H2
      by (vm_compute; reflexivity).
    unfold begun_1 in H2. rewrite H in H2. assert (match wait st None p1 with (Ok _, _) => true | _ => false end = true) as H3 by (by destruct (wait st None p1) as [[[]| |] ]).
    destruct (Hc (waited st p1) (rtc_once _ _ (waited_step txn_2 3 st p1 H3))) as (_ & _ & (txn' & lg & p' & H4 & H5 & _) & _). exists st, p1, txn', p'. split; [done|].
    split; [|done]. unfold waited. destruct (wait st None p1) as [[[r st']| |] p2]; [by apply bool_decide_eq_true in H2|done..].
Defined.

(** A login runs to an open session. *)
Definition next {A} (r : Outcome (Outcome A PamError * Authenticator) PamExit * Proc World Script) (c : AConf) : AConf :=
  match r with (Ok (_, self'), p') => mkAConf self' p' c.(seq_mine) | _ => c end.




(** ** What a login leaves when its conversation fails *)
(** The grant of credentials succeeds but says something that the conversation
    refuses: the login fails with the credentials granted, and nothing revokes
    them. *)
Definition g_0 : AConf := mkAConf (Authenticator_new txn_2) (built_proc (Custom []) (mkWorld [] PAM_SUCCESS true true true false ∅ ∅)) ∅.
Definition g_1 : AConf := next (auth_begin g_0.(seq_) g_0.(seq_proc)) g_0.
Definition g_2 : AConf := next (auth_acct_mgmt g_1.(seq_) g_1.(seq_proc)) g_1.
Definition g_3 : AConf := next (login g_2.(seq_) g_2.(seq_proc)) g_2.

Example login_keeps_grant :
  match login g_2.(seq_) g_2.(seq_proc) with (Ok (Err Timeout, self'), _) => self'.(stage) = AccountChecked | _ => False end ∧
  trace 2 g_3.(seq_proc).(calls) = [(pam_authenticate, 0, PAM_SUCCESS); (pam_acct_mgmt, 0, PAM_SUCCESS); (pam_setcred, establish 0, PAM_SUCCESS)].
Proof. vm_compute. split; reflexivity. Qed.
