(* ===== verification/Ktls.v ===== *)
(** The kernel TLS acceptor of [truenas_ktls]: [error.rs] and [acceptor.rs].

    libssl, the safe wrappers of the [openssl] crate and the kernel's sockets are
    the class [Libssl]; what they document of it is [LibsslLaws], over the view
    of a world: the sockets with their TLS state, this thread's error queue, and
    the live BIO and SSL objects.  No law says anything of an object that is not
    live. *)
From S2P Require Import Prelude.
Local Open Scope Z_scope.

(** ** [error.rs] *)
(* SRC truenas_ktls/src/error.rs enum Error *)
Inductive Error : Type :=
| Setup (text : string)
| HandshakeFailed (text : string)
| Disconnected
| Stalled
| NonBlocking
| NotEngaged (direction : string) (errno : Z)
| Io (op : string) (errno : Z).
#[global] Instance Error_eq_dec : EqDecision Error.
Proof. solve_decision. Defined.

(** [os_text] is the text of an [io::Error] made from an errno. *)
(* SRC truenas_ktls/src/error.rs impl fmt::Display for Error *)
Definition Error_display (os_text : Z → string) (self : Error) : string :=
  match self with
  | Setup text => "Building the TLS context failed: " ++ text
  | HandshakeFailed text => "TLS handshake failed: " ++ text
  | Disconnected => "Peer disconnected during the TLS handshake"
  | Stalled => "TLS handshake stopped waiting for the peer (socket timeout elapsed)"
  | NonBlocking => "The socket is non-blocking; the TLS handshake needs a blocking socket"
  | NotEngaged direction errno =>
      "Kernel TLS did not engage for " ++ direction ++ " (" ++ os_text errno ++ "); refusing the connection"
  | Io op errno => op ++ " failed during the TLS handshake: " ++ os_text errno
  end%string.

(** The kinds of [io::Error] the conversion uses, and an [io::Error]. *)
Inductive ErrorKind : Type := TimedOut | UnexpectedEof | InvalidData | InvalidInput | Other.
Inductive IoError : Type := RawOs (errno : Z) | Custom (kind : ErrorKind) (err : Error).

(* SRC truenas_ktls/src/error.rs fn from *)
Definition io_from (err : Error) : IoError :=
  match err with
  | Io _ errno => RawOs errno
  | Stalled => Custom TimedOut err
  | Disconnected => Custom UnexpectedEof err
  | HandshakeFailed _ | NotEngaged _ _ => Custom InvalidData err
  | NonBlocking => Custom InvalidInput err
  | other => Custom Other other
  end.

(** ** The constants the code uses *)
(* SRC truenas_ktls/src/acceptor.rs const BIO_NOCLOSE *)
Definition BIO_NOCLOSE : Z := 0.
(* SRC truenas_ktls/src/acceptor.rs const SSL_OP_ENABLE_KTLS *)
Definition SSL_OP_ENABLE_KTLS : Z := Z.shiftl 1 3.
(* SRC truenas_ktls/src/acceptor.rs const SSL_R_UNEXPECTED_EOF *)
Definition SSL_R_UNEXPECTED_EOF : Z := 294.

Definition SSL_OP_NO_TICKET : Z := Z.shiftl 1 14.
Definition SSL_SESS_CACHE_OFF : Z := 0.
Definition SSL_ERROR_SSL : Z := 1.
Definition SSL_ERROR_WANT_READ : Z := 2.
Definition SSL_ERROR_WANT_WRITE : Z := 3.
Definition SSL_ERROR_SYSCALL : Z := 5.
Definition SSL_ERROR_ZERO_RETURN : Z := 6.
Definition O_NONBLOCK : Z := 2048.
Definition SOL_TLS : Z := 282.
Definition TLS_TX : Z := 1.
Definition TLS_RX : Z := 2.
Definition TLS_RX_EXPECT_NO_PAD : Z := 4.
Definition EPIPE : Z := 32.
Definition ENOPROTOOPT : Z := 92.
Definition ECONNRESET : Z := 104.

(** ** The interface *)

(** One entry of libssl's error queue: its reason code and its text. *)
Record SslError : Type := mkSslError { reason_code : Z; error_text : string }.
Abbreviation ErrorStack := (list SslError).

(** Objects are named by their addresses.  [Builder] and [Context] are the
    openssl crate's [SslAcceptorBuilder] and [SslAcceptor]. *)
Class Libssl (W Builder Context : Type) : Type := {
  mozilla_intermediate_v5 : St W ErrorStack Builder;
  set_certificate_chain_file : Builder → string → St W ErrorStack Builder;
  set_private_key_file : Builder → string → St W ErrorStack Builder;   (** in PEM *)
  check_private_key : Builder → St W ErrorStack unit;
  set_num_tickets : Builder → Z → St W ErrorStack Builder;
  set_session_cache_mode : Builder → Z → Builder;
  set_options : Builder → Z → Builder;
  build : Builder → Context;
  stack_to_string : ErrorStack → string;
  ErrorStack_get : W → ErrorStack * W;
  Ssl_new : Context → St W ErrorStack Z;
  Ssl_drop : Z → W → W;
  BIO_new_socket : Z → Z → W → option Z * W;
  SSL_set_bio : Z → Z → Z → W → W;
  ERR_clear_error : W → W;
  SSL_accept : Z → W → Z * W;
  SSL_get_error : Z → Z → W → Z * W;
  version_str : Z → W → string;
  current_cipher : Z → W → option string;
  servername : Z → W → option string;
  fcntl_getfl : Z → W → Z * W;
  (** With the size of the caller's buffer; the code and what was written. *)
  getsockopt : Z → Z → Z → nat → W → Z * bytes * W;
  setsockopt : Z → Z → Z → bytes → W → Z * W;
  errno_of : W → Z
}.

(* SRC truenas_ktls/src/acceptor.rs struct Handshake *)
Record Handshake : Type := mkHandshake {
  version : string;
  hs_rx_no_pad : bool;
  cipher : string;
  server_name : option string
}.

Section Acceptor.
Context {W Builder Context : Type} {ssl : Libssl W Builder Context}.
Abbreviation K A := (St W Error A).

(** A call that gives a value and leaves a world. *)
Definition call {A} (f : W → A * W) : K A := λ w, let '(a, w) := f w in (Ok a, w).
Definition with_err {A} (f : ErrorStack → Error) (m : St W ErrorStack A) : K A := λ w,
  let '(r, w) := m w in (map_err f r, w).
(** [io::Error::last_os_error().raw_os_error().unwrap_or(0)] *)
Definition last_errno : K Z := λ w, (Ok (errno_of w), w).

(* SRC truenas_ktls/src/acceptor.rs struct Acceptor *)
Record Acceptor : Type := mkAcceptor { inner : Context; rx_no_pad : bool }.

(* SRC truenas_ktls/src/acceptor.rs fn stack_text *)
Definition stack_text (err : ErrorStack) : string :=
  let text := stack_to_string err in
  if decide (text = "") then "libssl reported no detail" else text.

(* SRC truenas_ktls/src/acceptor.rs fn setup *)
Definition setup (err : ErrorStack) : Error := Setup (stack_text err).

(* SRC truenas_ktls/src/acceptor.rs fn drain_stack *)
Definition drain_stack : K string := st ← call ErrorStack_get; mret (stack_text st).

(* SRC truenas_ktls/src/acceptor.rs fn from_pem_files *)
Definition from_pem_files (cert_chain key : string) : K Acceptor :=
  builder ← with_err setup mozilla_intermediate_v5;
  builder ← with_err setup (set_certificate_chain_file builder cert_chain);
  builder ← with_err setup (set_private_key_file builder key);
  with_err setup (check_private_key builder);;
  builder ← with_err setup (set_num_tickets builder 0);
  let builder := set_session_cache_mode builder SSL_SESS_CACHE_OFF in
  let builder := set_options builder (Z.lor SSL_OP_NO_TICKET SSL_OP_ENABLE_KTLS) in
  mret (mkAcceptor (build builder) true).

(* SRC truenas_ktls/src/acceptor.rs fn without_rx_no_pad *)
Definition without_rx_no_pad (self : Acceptor) : Acceptor := mkAcceptor self.(inner) false.

(* SRC truenas_ktls/src/acceptor.rs fn confirm_blocking *)
Definition confirm_blocking (fd : Z) : K unit :=
  flags ← call (fcntl_getfl fd);
  if flags <? 0 then errno ← last_errno; fail (Io "fcntl" errno)
  else if negb (Z.land flags O_NONBLOCK =? 0) then fail NonBlocking
  else mret tt.

(* SRC truenas_ktls/src/acceptor.rs fn classify *)
Definition classify (code errno : Z) (stack : ErrorStack) : Error :=
  if (code =? SSL_ERROR_WANT_READ) || (code =? SSL_ERROR_WANT_WRITE) then Stalled
  else if code =? SSL_ERROR_ZERO_RETURN then Disconnected
  else if code =? SSL_ERROR_SYSCALL then
    if (errno =? 0) || (errno =? ECONNRESET) || (errno =? EPIPE) then Disconnected else Io "SSL_accept" errno
  else if existsb (λ err, err.(reason_code) =? SSL_R_UNEXPECTED_EOF) stack then Disconnected
  else HandshakeFailed (stack_text stack).

(** What a buffer of zeros holds after [out] was written at its front. *)
Definition overlay (n : nat) (out : bytes) : bytes := take n out ++ replicate (n - length out) x00.

(* SRC truenas_ktls/src/acceptor.rs fn install_rx_no_pad *)
Definition install_rx_no_pad (fd : Z) : K unit :=
  rc ← call (setsockopt fd SOL_TLS TLS_RX_EXPECT_NO_PAD (to_le_bytes 4 1));
  if negb (rc =? 0) then errno ← last_errno; fail (Io "setsockopt(TLS_RX_EXPECT_NO_PAD)" errno) else
  '(rc, out) ← call (getsockopt fd SOL_TLS TLS_RX_EXPECT_NO_PAD 4);
  let back := from_le_bytes (overlay 4 out) in
  if negb (rc =? 0) || negb (back =? 1) then errno ← last_errno; fail (Io "getsockopt(TLS_RX_EXPECT_NO_PAD)" errno)
  else mret tt.

(* SRC truenas_ktls/src/acceptor.rs fn confirm_engaged *)
Definition confirm_engaged (fd : Z) : K unit :=
  (fix go l : K unit :=
     match l with
     | [] => mret tt
     | (option, direction) :: l =>
         '(rc, _) ← call (getsockopt fd SOL_TLS option 4);
         if negb (rc =? 0) then errno ← last_errno; fail (NotEngaged direction errno) else go l
     end) [(TLS_TX, "TX"%string); (TLS_RX, "RX"%string)].

(** The part of [accept] during which the [Ssl] is alive. *)
(* SRC truenas_ktls/src/acceptor.rs L 154-198 accept *)
Definition accept_over (self : Acceptor) (fd s : Z) : K Handshake :=
  bio ← call (BIO_new_socket fd BIO_NOCLOSE);
  match bio with
  | None => text ← drain_stack; fail (HandshakeFailed text)
  | Some bio =>
      modify (SSL_set_bio s bio bio);;
      modify ERR_clear_error;;
      rc ← call (SSL_accept s);
      errno ← last_errno;
      if rc <=? 0 then
        code ← call (SSL_get_error s rc);
        stack ← call ErrorStack_get;
        fail (classify code errno stack)
      else
        confirm_engaged fd;;
        w ← get;
        let version := version_str s w in
        let no_pad := self.(rx_no_pad) && bool_decide (version = "TLSv1.3"%string) in
        (if no_pad then install_rx_no_pad fd else mret tt);;
        w ← get;
        mret (mkHandshake version no_pad (default ""%string (current_cipher s w)) (servername s w))
  end.

(* SRC truenas_ktls/src/acceptor.rs fn accept *)
Definition accept (self : Acceptor) (fd : Z) : K Handshake :=
  confirm_blocking fd;;
  s ← with_err (λ err, HandshakeFailed (stack_text err)) (Ssl_new self.(inner));
  finally (accept_over self fd s) (modify (Ssl_drop s)).
End Acceptor.
Arguments Acceptor : clear implicits.
Arguments mkAcceptor {Context} inner rx_no_pad.

(** ** What libssl and the kernel document *)

(** A connected socket: its blocking mode, and the kernel's TLS state. *)
Record Sock : Type := mkSock { nonblock : bool; tx : bool; rx : bool; no_pad : bool }.
(** A session, after its [SSL_accept] with the code and the reason of a failure. *)
Inductive Phase : Type :=
| Fresh
| Failed (rc code : Z)
| Established (version : string) (cipher server_name : option string).
(** A BIO is over a descriptor and has its close flag; a session may have one. *)
Record View : Type := mkView {
  socks : gmap Z Sock;
  queue : ErrorStack;
  bios : gmap Z (Z * Z);
  ssls : gmap Z (option Z * Phase)
}.
Definition set_sock (fd : Z) (s : Sock) (v : View) : View := mkView (<[fd := s]> v.(socks)) v.(queue) v.(bios) v.(ssls).
Definition set_queue (q : ErrorStack) (v : View) : View := mkView v.(socks) q v.(bios) v.(ssls).
Definition set_bios (b : gmap Z (Z * Z)) (v : View) : View := mkView v.(socks) v.(queue) b v.(ssls).
Definition set_ssls (s : gmap Z (option Z * Phase)) (v : View) : View := mkView v.(socks) v.(queue) v.(bios) s.

(** What a context was configured with. *)
Record Config : Type := mkConfig {
  chain : option string; private_key : option string; num_tickets : option Z; cache_mode : option Z; options : Z
}.

(** Freeing a session frees its BIO, which closes its descriptor where its flag
    says so. *)
Definition freed (s : Z) (v : View) : View :=
  match v.(ssls) !! s with
  | Some (Some b, _) =>
      match v.(bios) !! b with
      | Some (fd, flag) =>
          mkView (if flag =? BIO_NOCLOSE then v.(socks) else delete fd v.(socks)) v.(queue) (delete b v.(bios)) (delete s v.(ssls))
      | None => v
      end
  | _ => set_ssls (delete s v.(ssls)) v
  end.

(** [bits] are set in [z]. *)
Definition has_bits (z bits : Z) : Prop := Z.land z bits = bits.

Class LibsslLaws (W Builder Context : Type) `{Libssl W Builder Context} : Type := {
  view : W → View;
  config : Builder → Config;
  built : Context → Config;
  matches : string → string → Prop;
  mozilla_law w r w' : mozilla_intermediate_v5 w = (r, w') → (∀ x, r ≠ Stop x) ∧ view w' = set_queue (view w').(queue) (view w);
  chain_law b p w r w' : set_certificate_chain_file b p w = (r, w') → (∀ x, r ≠ Stop x) ∧ view w' = set_queue (view w').(queue) (view w) ∧
    (∀ b', r = Ok b' → config b' = mkConfig (Some p) (config b).(private_key) (config b).(num_tickets) (config b).(cache_mode) (config b).(options));
  key_law b p w r w' : set_private_key_file b p w = (r, w') → (∀ x, r ≠ Stop x) ∧ view w' = set_queue (view w').(queue) (view w) ∧
    (∀ b', r = Ok b' → config b' = mkConfig (config b).(chain) (Some p) (config b).(num_tickets) (config b).(cache_mode) (config b).(options));
  check_law b w r w' : check_private_key b w = (r, w') → (∀ x, r ≠ Stop x) ∧ view w' = set_queue (view w').(queue) (view w) ∧
    (r = Ok tt → ∃ c k, (config b).(chain) = Some c ∧ (config b).(private_key) = Some k ∧ matches c k);
  tickets_law b n w r w' : set_num_tickets b n w = (r, w') → (∀ x, r ≠ Stop x) ∧ view w' = set_queue (view w').(queue) (view w) ∧
    (∀ b', r = Ok b' → config b' = mkConfig (config b).(chain) (config b).(private_key) (Some n) (config b).(cache_mode) (config b).(options));
  cache_law b m : config (set_session_cache_mode b m) =
    mkConfig (config b).(chain) (config b).(private_key) (config b).(num_tickets) (Some m) (config b).(options);
  options_law b o : config (set_options b o) =
    mkConfig (config b).(chain) (config b).(private_key) (config b).(num_tickets) (config b).(cache_mode) (Z.lor (config b).(options) o);
  build_law b : built (build b) = config b;

  get_stack_law w q w' : ErrorStack_get w = (q, w') → q = (view w).(queue) ∧ view w' = set_queue [] (view w);
  clear_law w : view (ERR_clear_error w) = set_queue [] (view w);
  new_law c w r w' : Ssl_new c w = (r, w') →
    match r with
    | Ok s => (view w).(ssls) !! s = None ∧ ∃ q, view w' = set_queue q (set_ssls (<[s := (None, Fresh)]> (view w).(ssls)) (view w))
    | Err _ => view w' = set_queue [] (view w)
    | Stop _ => False
    end;
  bio_law fd flag w r w' : BIO_new_socket fd flag w = (r, w') →
    match r with
    | Some b => (view w).(bios) !! b = None ∧ ∃ q, view w' = set_queue q (set_bios (<[b := (fd, flag)]> (view w).(bios)) (view w))
    | None => ∃ q, view w' = set_queue q (view w)
    end;
  (** The session takes the one reference of a BIO that serves both ways. *)
  set_bio_law s b w ph : (view w).(ssls) !! s = Some (None, ph) → is_Some ((view w).(bios) !! b) →
    view (SSL_set_bio s b b w) = set_ssls (<[s := (Some b, ph)]> (view w).(ssls)) (view w);
  drop_law s w : is_Some ((view w).(ssls) !! s) → view (Ssl_drop s w) = freed s (view w);
  (** A handshake needs an empty error queue and a live BIO over a socket. *)
  accept_law s w rc w' b fd flag k : SSL_accept s w = (rc, w') → (view w).(queue) = [] →
    (view w).(ssls) !! s = Some (Some b, Fresh) → (view w).(bios) !! b = Some (fd, flag) → (view w).(socks) !! fd = Some k →
    ∃ ph k' q, view w' = set_queue q (set_sock fd k' (set_ssls (<[s := (Some b, ph)]> (view w).(ssls)) (view w))) ∧
      k'.(nonblock) = k.(nonblock) ∧
      if rc <=? 0 then ∃ code, ph = Failed rc code else ∃ v c n, ph = Established v c n;
  get_error_law s rc w b code : (view w).(ssls) !! s = Some (b, Failed rc code) →
    ∃ w', SSL_get_error s rc w = (code, w') ∧ view w' = view w;
  session_law s w b v c n : (view w).(ssls) !! s = Some (b, Established v c n) →
    version_str s w = v ∧ current_cipher s w = c ∧ servername s w = n;
  fcntl_law fd w k : (view w).(socks) !! fd = Some k →
    ∃ fl w', fcntl_getfl fd w = (fl, w') ∧ view w' = view w ∧ 0 ≤ fl ∧ (Z.land fl O_NONBLOCK = 0 ↔ k.(nonblock) = false);
  tls_law fd w k o rc out w' : (view w).(socks) !! fd = Some k → getsockopt fd SOL_TLS o 4 w = (rc, out, w') →
    view w' = view w ∧ (length out ≤ 4)%nat ∧ (o = TLS_TX → rc = 0 ↔ k.(tx) = true) ∧ (o = TLS_RX → rc = 0 ↔ k.(rx) = true) ∧
    (o = TLS_RX_EXPECT_NO_PAD → rc = 0 → out = to_le_bytes 4 (if k.(no_pad) then 1 else 0));
  no_pad_law fd w k rc w' : (view w).(socks) !! fd = Some k → setsockopt fd SOL_TLS TLS_RX_EXPECT_NO_PAD (to_le_bytes 4 1) w = (rc, w') →
    view w' = if rc =? 0 then set_sock fd (mkSock k.(nonblock) k.(tx) k.(rx) true) (view w) else view w
}.

Section AcceptorOk.
Context {W Builder Context : Type} {sl : Libssl W Builder Context} {laws : LibsslLaws W Builder Context}.
Implicit Types (w : W) (self : Acceptor Context).












(** A configured acceptor: the key is checked, no path resumes a session, and
    kernel TLS is asked for. *)
Definition hardened (c : Config) : Prop :=
  c.(num_tickets) = Some 0 ∧ c.(cache_mode) = Some SSL_SESS_CACHE_OFF ∧
  has_bits c.(options) SSL_OP_NO_TICKET ∧ has_bits c.(options) SSL_OP_ENABLE_KTLS.

Lemma has_bits_lor a b : has_bits (Z.lor a b) b.
Proof. unfold has_bits. apply Z.bits_inj'. intros n _. rewrite Z.land_spec, Z.lor_spec. by destruct (Z.testbit a n), (Z.testbit b n). Qed.
Lemma has_bits_sub a b c : has_bits a b → has_bits b c → has_bits a c.
Proof.
  unfold has_bits. intros Ha Hb. apply Z.bits_inj'. intros n Hn.
  assert (Z.testbit (Z.land a b) n = Z.testbit b n) as E1 by by rewrite Ha.
  assert (Z.testbit (Z.land b c) n = Z.testbit c n) as E2 by by rewrite Hb.
  rewrite Z.land_spec in *. destruct (Z.testbit a n), (Z.testbit b n), (Z.testbit c n); done.
Qed.

(** One call of the builder, which leaves the objects of the world alone. *)
Definition idle w w' : Prop := view w' = set_queue (view w').(queue) (view w).
Lemma idle_trans w1 w2 w3 : idle w1 w2 → idle w2 w3 → idle w1 w3.
Proof. unfold idle. intros -> ->. done. Qed.
Definition settled {A} w (P : A → Prop) (m : Outcome A Error * W) : Prop :=
  idle w m.2 ∧ match m.1 with Ok a => P a | Err (Setup _) => True | _ => False end.

Lemma settled_bind {A B} (m : St W ErrorStack A) (f : A → St W Error B) w P Q :
  (∀ r w', m w = (r, w') → (∀ x, r ≠ Stop x) ∧ idle w w' ∧ (∀ a, r = Ok a → P a)) →
  (∀ a w', idle w w' → P a → settled w' Q (f a w')) →
  settled w Q ((with_err setup m ≫= f) w).
Proof.
  intros Hm Hf. unfold with_err, mbind, St_bind. destruct (m w) as [r w'] eqn:E. destruct (Hm _ _ eq_refl) as (Hs & Hi & Ha).
  destruct r as [a|e|x]; simpl.
  - destruct (Hf a w' Hi (Ha _ eq_refl)) as [H1 H2]. split; [by eapply idle_trans|done].
  - done.
  - by destruct (Hs x).
Qed.

(** Building an acceptor leaves sockets and sessions alone and gives a hardened one or says why it could not. *)
Theorem ktls_hardened c k w : settled w (λ a,
  hardened (built a.(inner)) ∧ (built a.(inner)).(chain) = Some c ∧ (built a.(inner)).(private_key) = Some k ∧ matches c k ∧
  a.(rx_no_pad) = true) (from_pem_files c k w).
Proof.
  unfold from_pem_files.
  apply (settled_bind _ _ _ (λ _, True)); [intros r w' H%mozilla_law; by destruct H|]. intros b0 w0 _ _.
  eapply settled_bind; [intros r w' H%chain_law; exact H|]. intros b1 w1 _ H1. cbn beta in H1.
  eapply settled_bind; [intros r w' H%key_law; exact H|]. intros b2 w2 _ H2. cbn beta in H2.
  apply (settled_bind _ _ _ (λ _, matches c k)).
  { intros r w' (Hs & Hi & Hm)%check_law. split; [done|]. split; [done|]. intros [] Ha. destruct (Hm Ha) as (c' & k' & Hc & Hk & Hck).
    rewrite H2, H1 in Hc, Hk. simpl in Hc, Hk. by simplify_eq. }
  intros _ w3 _ Hck. eapply settled_bind; [intros r w' H%tickets_law; exact H|]. intros b4 w4 _ H4. cbn beta in H4.
  split; [unfold idle; simpl; by destruct (view w4)|]. simpl. unfold hardened. rewrite build_law, options_law, cache_law, H4, H2, H1. simpl.
  repeat split; try done; (eapply has_bits_sub; [apply has_bits_lor|done]).
Qed.
End AcceptorOk.

(** ** A libssl that has the laws

    A peer is what its handshake comes to: a version, a cipher and a name with
    the directions the kernel takes over, or the code and the errno of a
    failure. *)
Inductive Peer : Type :=
| Speaks (version : string) (cipher server_name : option string) (tx rx : bool)
| Breaks (code errno : Z) (left : ErrorStack).
Record Model : Type := mkModel { m_view : View; m_errno : Z; peer : Z → Peer }.
Definition m_set (v : View) (e : Z) (m : Model) : Model := mkModel v e m.(peer).

Definition model_accept (s : Z) (m : Model) : Z * Model :=
  let v := m.(m_view) in
  match v.(ssls) !! s with
  | Some (Some b, _) =>
      match v.(bios) !! b with
      | Some (fd, _) =>
          match v.(socks) !! fd with
          | Some k =>
              match m.(peer) fd with
              | Speaks ver c n t r => (1, m_set (set_sock fd (mkSock k.(nonblock) t r false)
                    (set_ssls (<[s := (Some b, Established ver c n)]> v.(ssls)) v)) m.(m_errno) m)
              | Breaks code e st => (-1, m_set (set_queue st (set_sock fd k
                    (set_ssls (<[s := (Some b, Failed (-1) code)]> v.(ssls)) v))) e m)
              end
          | None => (-1, m)
          end
      | None => (-1, m)
      end
  | _ => (-1, m)
  end.
Definition model_getsockopt (fd level o : Z) (n : nat) (m : Model) : Z * bytes * Model :=
  match m.(m_view).(socks) !! fd with
  | Some k =>
      if o =? TLS_RX_EXPECT_NO_PAD then (0, to_le_bytes 4 (if k.(no_pad) then 1 else 0), m)
      else if (if o =? TLS_TX then k.(tx) else if o =? TLS_RX then k.(rx) else false) then (0, to_le_bytes 4 772, m)
      else (-1, [], m_set m.(m_view) ENOPROTOOPT m)
  | None => (-1, [], m)
  end.
Definition model_session {A} (f : string → option string → option string → A) (d : A) (s : Z) (m : Model) : A :=
  match m.(m_view).(ssls) !! s with
  | Some (_, Established v c n) => f v c n
  | _ => d
  end.
(** A key is named after its chain. *)
Definition m_key (b : Config) : bool :=
  match b.(chain), b.(private_key) with
  | Some c, Some k => bool_decide (k = c ++ ".key")%string
  | _, _ => false
  end.
Definition no_match : SslError := mkSslError 116 "key values mismatch".

#[global] Instance ktls_model : Libssl Model Config Config := {|
  mozilla_intermediate_v5 := mret (mkConfig None None None None 0);
  set_certificate_chain_file b p := mret (mkConfig (Some p) b.(private_key) b.(num_tickets) b.(cache_mode) b.(options));
  set_private_key_file b p := mret (mkConfig b.(chain) (Some p) b.(num_tickets) b.(cache_mode) b.(options));
  check_private_key b := λ m, if m_key b then (Ok tt, m) else (Err [no_match], m);
  set_num_tickets b n := mret (mkConfig b.(chain) b.(private_key) (Some n) b.(cache_mode) b.(options));
  set_session_cache_mode b n := mkConfig b.(chain) b.(private_key) b.(num_tickets) (Some n) b.(options);
  set_options b o := mkConfig b.(chain) b.(private_key) b.(num_tickets) b.(cache_mode) (Z.lor b.(options) o);
  build b := b;
  stack_to_string st := String.concat ", " (map error_text st);
  ErrorStack_get m := (m.(m_view).(queue), m_set (set_queue [] m.(m_view)) m.(m_errno) m);
  Ssl_new _ := λ m, let s := fresh (dom m.(m_view).(ssls)) in
    (Ok s, m_set (set_ssls (<[s := (None, Fresh)]> m.(m_view).(ssls)) m.(m_view)) m.(m_errno) m);
  Ssl_drop s m := m_set (freed s m.(m_view)) m.(m_errno) m;
  BIO_new_socket fd flag m := let b := fresh (dom m.(m_view).(bios)) in
    (Some b, m_set (set_bios (<[b := (fd, flag)]> m.(m_view).(bios)) m.(m_view)) m.(m_errno) m);
  SSL_set_bio s b _ m :=
    match m.(m_view).(ssls) !! s with
    | Some (_, ph) => m_set (set_ssls (<[s := (Some b, ph)]> m.(m_view).(ssls)) m.(m_view)) m.(m_errno) m
    | None => m
    end;
  ERR_clear_error m := m_set (set_queue [] m.(m_view)) m.(m_errno) m;
  SSL_accept := model_accept;
  SSL_get_error s _ m := (match m.(m_view).(ssls) !! s with Some (_, Failed _ code) => code | _ => SSL_ERROR_SSL end, m);
  version_str := model_session (λ v _ _, v) "unknown"%string;
  current_cipher := model_session (λ _ c _, c) None;
  servername := model_session (λ _ _ n, n) None;
  fcntl_getfl fd m :=
    (match m.(m_view).(socks) !! fd with Some k => if k.(nonblock) then 2 + O_NONBLOCK else 2 | None => -1 end, m);
  getsockopt := model_getsockopt;
  setsockopt fd _ _ _ m :=
    match m.(m_view).(socks) !! fd with
    | Some k => (0, m_set (set_sock fd (mkSock k.(nonblock) k.(tx) k.(rx) true) m.(m_view)) m.(m_errno) m)
    | None => (-1, m)
    end;
  errno_of := m_errno
|}.

#[global] Instance ktls_model_laws : LibsslLaws Model Config Config.
Proof.
  refine {| view := m_view; config := id; built := id; matches c k := k = (c ++ ".key")%string |}; unfold call.
  - intros w r w' [= <- <-]. split; [done|]. by destruct (m_view w).
  - intros b p w r w' [= <- <-]. split; [done|]. split; [by destruct (m_view w)|]. by intros b' [= <-].
  - intros b p w r w' [= <- <-]. split; [done|]. split; [by destruct (m_view w)|]. by intros b' [= <-].
  - intros b w r w'. simpl. unfold m_key. destruct b.(chain) as [c|], b.(private_key) as [k|]; try case_bool_decide; intros [= <- <-];
      (split; [done|]); (split; [by destruct (m_view w)|]); intros [=]. by exists c, k.
  - intros b n w r w' [= <- <-]. split; [done|]. split; [by destruct (m_view w)|]. by intros b' [= <-].
  - done.
  - done.
  - done.
  - by intros w q w' [= <- <-].
  - done.
  - intros c w r w' [= <- <-]. split; [apply not_elem_of_dom, is_fresh|]. exists (queue (m_view w)). by destruct (m_view w).
  - intros fd flag w r w' [= <- <-]. split; [apply not_elem_of_dom, is_fresh|]. exists (queue (m_view w)). by destruct (m_view w).
  - intros s b w ph H _. simpl. by rewrite H.
  - done.
  - intros s w rc w' b fd flag k H Hq Hs Hb Hk. simpl in H. unfold model_accept in H. rewrite Hs, Hb, Hk in H.
    destruct (peer w fd) as [ver c n t r|code e st]; injection H as <- <-.
    + eexists _, _, []. split; [simpl; rewrite <- Hq; reflexivity|]. split; [done|]. simpl. by eauto.
    + eexists _, _, st. split; [reflexivity|]. split; [done|]. simpl. by eauto.
  - intros s rc w b code H. exists w. simpl. by rewrite H.
  - intros s w b v c n H. simpl. unfold model_session. by rewrite H.
  - intros fd w k H. simpl. rewrite H. eexists _, w. split; [reflexivity|]. split; [done|]. by destruct (nonblock k).
  - intros fd w k o rc out w' Hk H. simpl in H. unfold model_getsockopt in H. rewrite Hk in H.
    destruct (Z.eqb_spec o TLS_RX_EXPECT_NO_PAD) as [->|Hp]; [injection H as <- <- <-; repeat split; try done; by rewrite length_to_le_bytes|].
    destruct (Z.eqb_spec o TLS_TX) as [->|Ht]; [|destruct (Z.eqb_spec o TLS_RX) as [->|Hr]].
    + destruct (tx k); injection H as <- <- <-; repeat split; try done; simpl; rewrite ?length_to_le_bytes; lia.
    + destruct (rx k); injection H as <- <- <-; repeat split; try done; simpl; rewrite ?length_to_le_bytes; lia.
    + injection H as <- <- <-. repeat split; try done; simpl; lia.
  - intros fd w k rc w' Hk H. simpl in H. rewrite Hk in H. by injection H as <- <-.
Defined.

(** A listener's two sockets: one blocking, with a peer that speaks TLS 1.3, and
    one with a peer that goes away. *)
Definition two_peers (t r : bool) : Model :=
  mkModel (mkView {[3 := mkSock false false false false; 4 := mkSock false false false false; 5 := mkSock true false false false]} [] ∅ ∅) 0
    (λ fd, if fd =? 3 then Speaks "TLSv1.3" (Some "TLS_AES_256_GCM_SHA384"%string) (Some "nas.local"%string) t r
           else Breaks SSL_ERROR_SSL 0 [mkSslError SSL_R_UNEXPECTED_EOF "unexpected eof while reading"]).
Definition an_acceptor : Acceptor Config := mkAcceptor (mkConfig None None None None 0) true.

Example accepts_tls13 :
  (accept an_acceptor 3 (two_peers true true)).1 =
    Ok (mkHandshake "TLSv1.3" true "TLS_AES_256_GCM_SHA384" (Some "nas.local"%string)) ∧
  (accept an_acceptor 3 (two_peers true false)).1 = Err (NotEngaged "RX" ENOPROTOOPT) ∧
  (accept (without_rx_no_pad an_acceptor) 4 (two_peers true true)).1 = Err Disconnected ∧
  (accept an_acceptor 5 (two_peers true true)).1 = Err NonBlocking.
Proof. repeat split; vm_compute; reflexivity. Qed.

