(* ===== verification/Gss.v ===== *)
(** GSSAPI as [truenas_gssapi] binds it: the constants of [ffi.rs], [oid.rs],
    [error.rs], [buf.rs], [util.rs], [name.rs], [cred.rs], [accept.rs] and
    [context.rs].

    libgssapi is the class [Gss]: each call a function on a world, with its
    status codes and its out-parameters.  A handle and a buffer of the library
    are addresses, 0 is null.  To read through an address the library does not
    hold is [Undefined]. *)
From S2P Require Import Prelude Utf8.
Local Open Scope Z_scope.

(** ** [ffi.rs] *)
(* SRC truenas_gssapi/src/ffi.rs const GSS_IOV_BUFFER_TYPE_DATA *)
Definition GSS_IOV_BUFFER_TYPE_DATA : Z := 1.
(* SRC truenas_gssapi/src/ffi.rs const GSS_IOV_BUFFER_TYPE_HEADER *)
Definition GSS_IOV_BUFFER_TYPE_HEADER : Z := 2.
(* SRC truenas_gssapi/src/ffi.rs const GSS_IOV_BUFFER_TYPE_TRAILER *)
Definition GSS_IOV_BUFFER_TYPE_TRAILER : Z := 7.
(* SRC truenas_gssapi/src/ffi.rs const GSS_IOV_BUFFER_TYPE_PADDING *)
Definition GSS_IOV_BUFFER_TYPE_PADDING : Z := 9.
(* SRC truenas_gssapi/src/ffi.rs const GSS_IOV_BUFFER_TYPE_STREAM *)
Definition GSS_IOV_BUFFER_TYPE_STREAM : Z := 10.
(* SRC truenas_gssapi/src/ffi.rs const GSS_IOV_BUFFER_TYPE_MIC_TOKEN *)
Definition GSS_IOV_BUFFER_TYPE_MIC_TOKEN : Z := 12.
(* SRC truenas_gssapi/src/ffi.rs const GSS_IOV_BUFFER_FLAG_ALLOCATED *)
Definition GSS_IOV_BUFFER_FLAG_ALLOCATED : Z := 131072.
(* SRC truenas_gssapi/src/ffi.rs const GSS_S_COMPLETE *)
Definition GSS_S_COMPLETE : Z := 0.
(* SRC truenas_gssapi/src/ffi.rs const GSS_C_CALLING_ERROR_OFFSET *)
Definition GSS_C_CALLING_ERROR_OFFSET : Z := 24.
(* SRC truenas_gssapi/src/ffi.rs const GSS_C_ROUTINE_ERROR_OFFSET *)
Definition GSS_C_ROUTINE_ERROR_OFFSET : Z := 16.
(* SRC truenas_gssapi/src/ffi.rs const GSS_C_CALLING_ERROR_MASK *)
Definition GSS_C_CALLING_ERROR_MASK : Z := 255.
(* SRC truenas_gssapi/src/ffi.rs const GSS_C_ROUTINE_ERROR_MASK *)
Definition GSS_C_ROUTINE_ERROR_MASK : Z := 255.
(* SRC truenas_gssapi/src/ffi.rs const GSS_C_SUPPLEMENTARY_MASK *)
Definition GSS_C_SUPPLEMENTARY_MASK : Z := 65535.
(* SRC truenas_gssapi/src/ffi.rs const GSS_S_CONTINUE_NEEDED *)
Definition GSS_S_CONTINUE_NEEDED : Z := 1.
(* SRC truenas_gssapi/src/ffi.rs const GSS_C_DELEG_FLAG *)
Definition GSS_C_DELEG_FLAG : Z := 1.
(* SRC truenas_gssapi/src/ffi.rs const GSS_C_MUTUAL_FLAG *)
Definition GSS_C_MUTUAL_FLAG : Z := 2.
(* SRC truenas_gssapi/src/ffi.rs const GSS_C_REPLAY_FLAG *)
Definition GSS_C_REPLAY_FLAG : Z := 4.
(* SRC truenas_gssapi/src/ffi.rs const GSS_C_SEQUENCE_FLAG *)
Definition GSS_C_SEQUENCE_FLAG : Z := 8.
(* SRC truenas_gssapi/src/ffi.rs const GSS_C_CONF_FLAG *)
Definition GSS_C_CONF_FLAG : Z := 16.
(* SRC truenas_gssapi/src/ffi.rs const GSS_C_INTEG_FLAG *)
Definition GSS_C_INTEG_FLAG : Z := 32.
(* SRC truenas_gssapi/src/ffi.rs const GSS_C_ANON_FLAG *)
Definition GSS_C_ANON_FLAG : Z := 64.
(* SRC truenas_gssapi/src/ffi.rs const GSS_C_PROT_READY_FLAG *)
Definition GSS_C_PROT_READY_FLAG : Z := 128.
(* SRC truenas_gssapi/src/ffi.rs const GSS_C_TRANS_FLAG *)
Definition GSS_C_TRANS_FLAG : Z := 256.
(* SRC truenas_gssapi/src/ffi.rs const GSS_C_ACCEPT *)
Definition GSS_C_ACCEPT : Z := 2.
(* SRC truenas_gssapi/src/ffi.rs const GSS_C_INDEFINITE *)
Definition GSS_C_INDEFINITE : Z := 4294967295.
(* SRC truenas_gssapi/src/ffi.rs const GSS_C_GSS_CODE *)
Definition GSS_C_GSS_CODE : Z := 1.
(* SRC truenas_gssapi/src/ffi.rs const GSS_C_MECH_CODE *)
Definition GSS_C_MECH_CODE : Z := 2.
(* SRC truenas_gssapi/src/ffi.rs const GSS_C_QOP_DEFAULT *)
Definition GSS_C_QOP_DEFAULT : Z := 0.

(** ** [error.rs] *)
(* SRC truenas_gssapi/src/error.rs struct Error *)
Record Error : Type := mkError { major : Z; minor : Z; message : bytes }.
#[global] Instance Error_eq_dec : EqDecision Error.
Proof. solve_decision. Defined.

(* SRC truenas_gssapi/src/error.rs fn synthetic *)
Definition synthetic (major : Z) (message : bytes) : Error := mkError major 0 message.

(* SRC truenas_gssapi/src/error.rs L 106-145 routine_table *)
Inductive RoutineError : Type :=
| BAD_MECH
| BAD_NAME
| BAD_NAMETYPE
| BAD_BINDINGS
| BAD_STATUS
| BAD_SIG
| NO_CRED
| NO_CONTEXT
| DEFECTIVE_TOKEN
| DEFECTIVE_CREDENTIAL
| CREDENTIALS_EXPIRED
| CONTEXT_EXPIRED
| FAILURE
| BAD_QOP
| UNAUTHORIZED
| UNAVAILABLE
| DUPLICATE_ELEMENT
| NAME_NOT_MN
| BAD_MECH_ATTR.
#[global] Instance RoutineError_eq_dec : EqDecision RoutineError.
Proof. solve_decision. Defined.

(** The discriminant. *)
(* SRC truenas_gssapi/src/error.rs L 79-81 routine_table *)
Definition RoutineError_value (self : RoutineError) : Z :=
  match self with
  | BAD_MECH => 1
  | BAD_NAME => 2
  | BAD_NAMETYPE => 3
  | BAD_BINDINGS => 4
  | BAD_STATUS => 5
  | BAD_SIG => 6
  | NO_CRED => 7
  | NO_CONTEXT => 8
  | DEFECTIVE_TOKEN => 9
  | DEFECTIVE_CREDENTIAL => 10
  | CREDENTIALS_EXPIRED => 11
  | CONTEXT_EXPIRED => 12
  | FAILURE => 13
  | BAD_QOP => 14
  | UNAUTHORIZED => 15
  | UNAVAILABLE => 16
  | DUPLICATE_ELEMENT => 17
  | NAME_NOT_MN => 18
  | BAD_MECH_ATTR => 19
  end.
Definition routine_errors : list RoutineError :=
  [BAD_MECH; BAD_NAME; BAD_NAMETYPE; BAD_BINDINGS; BAD_STATUS; BAD_SIG; NO_CRED; NO_CONTEXT; DEFECTIVE_TOKEN; DEFECTIVE_CREDENTIAL; CREDENTIALS_EXPIRED; CONTEXT_EXPIRED; FAILURE; BAD_QOP; UNAUTHORIZED; UNAVAILABLE; DUPLICATE_ELEMENT; NAME_NOT_MN; BAD_MECH_ATTR].

(* SRC truenas_gssapi/src/error.rs fn from_major *)
Definition from_major (major : Z) : option RoutineError :=
  let field := Z.land (Z.shiftr major GSS_C_ROUTINE_ERROR_OFFSET) GSS_C_ROUTINE_ERROR_MASK in
  match field with
  | 1 => Some BAD_MECH
  | 2 => Some BAD_NAME
  | 3 => Some BAD_NAMETYPE
  | 4 => Some BAD_BINDINGS
  | 5 => Some BAD_STATUS
  | 6 => Some BAD_SIG
  | 7 => Some NO_CRED
  | 8 => Some NO_CONTEXT
  | 9 => Some DEFECTIVE_TOKEN
  | 10 => Some DEFECTIVE_CREDENTIAL
  | 11 => Some CREDENTIALS_EXPIRED
  | 12 => Some CONTEXT_EXPIRED
  | 13 => Some FAILURE
  | 14 => Some BAD_QOP
  | 15 => Some UNAUTHORIZED
  | 16 => Some UNAVAILABLE
  | 17 => Some DUPLICATE_ELEMENT
  | 18 => Some NAME_NOT_MN
  | 19 => Some BAD_MECH_ATTR
  | _ => None
  end.

(* SRC truenas_gssapi/src/error.rs fn name *)
Definition RoutineError_name (self : RoutineError) : string :=
  match self with
  | BAD_MECH => "GSS_S_BAD_MECH"
  | BAD_NAME => "GSS_S_BAD_NAME"
  | BAD_NAMETYPE => "GSS_S_BAD_NAMETYPE"
  | BAD_BINDINGS => "GSS_S_BAD_BINDINGS"
  | BAD_STATUS => "GSS_S_BAD_STATUS"
  | BAD_SIG => "GSS_S_BAD_SIG"
  | NO_CRED => "GSS_S_NO_CRED"
  | NO_CONTEXT => "GSS_S_NO_CONTEXT"
  | DEFECTIVE_TOKEN => "GSS_S_DEFECTIVE_TOKEN"
  | DEFECTIVE_CREDENTIAL => "GSS_S_DEFECTIVE_CREDENTIAL"
  | CREDENTIALS_EXPIRED => "GSS_S_CREDENTIALS_EXPIRED"
  | CONTEXT_EXPIRED => "GSS_S_CONTEXT_EXPIRED"
  | FAILURE => "GSS_S_FAILURE"
  | BAD_QOP => "GSS_S_BAD_QOP"
  | UNAUTHORIZED => "GSS_S_UNAUTHORIZED"
  | UNAVAILABLE => "GSS_S_UNAVAILABLE"
  | DUPLICATE_ELEMENT => "GSS_S_DUPLICATE_ELEMENT"
  | NAME_NOT_MN => "GSS_S_NAME_NOT_MN"
  | BAD_MECH_ATTR => "GSS_S_BAD_MECH_ATTR"
  end.

(* SRC truenas_gssapi/src/error.rs fn routine *)
Definition routine (self : Error) : option RoutineError := from_major self.(major).

(** ** [oid.rs] *)
(* SRC truenas_gssapi/src/oid.rs struct Oid *)
Record Oid : Type := mkOid { elements : bytes }.
#[global] Instance Oid_eq_dec : EqDecision Oid.
Proof. solve_decision. Defined.

(* SRC truenas_gssapi/src/oid.rs const KRB5 *)
Definition KRB5 : bytes := [x2a; x86; x48; x86; xf7; x12; x01; x02; x02].
(* SRC truenas_gssapi/src/oid.rs const SPNEGO *)
Definition SPNEGO : bytes := [x2b; x06; x01; x05; x05; x02].
(* SRC truenas_gssapi/src/oid.rs const NT_HOSTBASED_SERVICE *)
Definition NT_HOSTBASED_SERVICE : bytes := [x2a; x86; x48; x86; xf7; x12; x01; x02; x01; x04].
(* SRC truenas_gssapi/src/oid.rs const NT_USER_NAME *)
Definition NT_USER_NAME : bytes := [x2a; x86; x48; x86; xf7; x12; x01; x02; x01; x01].
(* SRC truenas_gssapi/src/oid.rs const NT_EXPORT_NAME *)
Definition NT_EXPORT_NAME : bytes := [x2b; x06; x01; x05; x06; x04].
(* SRC truenas_gssapi/src/oid.rs const NT_KRB5_PRINCIPAL *)
Definition NT_KRB5_PRINCIPAL : bytes := [x2a; x86; x48; x86; xf7; x12; x01; x02; x02; x01].

(* SRC truenas_gssapi/src/oid.rs fn krb5 *)
Definition Oid_krb5 : Oid := mkOid KRB5.
(* SRC truenas_gssapi/src/oid.rs fn spnego *)
Definition Oid_spnego : Oid := mkOid SPNEGO.
(* SRC truenas_gssapi/src/oid.rs fn nt_hostbased_service *)
Definition Oid_nt_hostbased_service : Oid := mkOid NT_HOSTBASED_SERVICE.
(* SRC truenas_gssapi/src/oid.rs fn nt_user_name *)
Definition Oid_nt_user_name : Oid := mkOid NT_USER_NAME.
(* SRC truenas_gssapi/src/oid.rs fn nt_export_name *)
Definition Oid_nt_export_name : Oid := mkOid NT_EXPORT_NAME.
(* SRC truenas_gssapi/src/oid.rs fn nt_krb5_principal *)
Definition Oid_nt_krb5_principal : Oid := mkOid NT_KRB5_PRINCIPAL.

Definition u64_max : Z := 2 ^ 64 - 1.
Definition checked_u64 (z : Z) : option Z := if z <=? u64_max then Some z else None.

(** The loop of [decode], over the octets that are left. *)
(* SRC truenas_gssapi/src/oid.rs L 154-177 decode *)
Fixpoint decode_loop (arcs : list Z) (value : Z) (elements : bytes) : option (list Z) :=
  match elements with
  | [] => Some arcs
  | byte :: elements =>
      value ← checked_u64 (value * 128);
      value ← checked_u64 (value + Z.land (byte_val byte) 127);
      if negb (Z.land (byte_val byte) 128 =? 0) then decode_loop arcs value elements
      else if decide (arcs = []) then
        let first := if value <? 40 then 0 else if value <? 80 then 1 else 2 in
        decode_loop [first; value - first * 40] 0 elements
      else decode_loop (arcs ++ [value]) 0 elements
  end.

(* SRC truenas_gssapi/src/oid.rs fn decode *)
Definition decode (elements : bytes) : option (list Z) :=
  arcs ← decode_loop [] 0 elements;
  if match last elements with Some b => negb (Z.land (byte_val b) 128 =? 0) | None => true end then None
  else Some arcs.

(** [{:02x}] of a byte. *)
Definition lower_hex (n : Z) : Byte.byte := byte_of (if n <? 10 then 48 + n else 87 + n).
Definition hex2 (b : Byte.byte) : bytes := [lower_hex (byte_val b / 16); lower_hex (byte_val b mod 16)].
(** The arcs with dots between them. *)
Fixpoint dotted (arcs : list Z) : bytes :=
  match arcs with
  | [] => []
  | [arc] => display_int arc
  | arc :: arcs => display_int arc ++ lit "." ++ dotted arcs
  end.

(* SRC truenas_gssapi/src/oid.rs impl fmt::Display for Oid *)
Definition Oid_display (self : Oid) : bytes :=
  match decode self.(elements) with
  | Some arcs => dotted arcs
  | None => concat (map hex2 self.(elements))
  end.

(** ** The interface *)
(* SRC truenas_gssapi/src/ffi.rs struct gss_buffer_desc *)
Record gss_buffer_desc : Type := mkDesc { length_ : Z; value : Z }.

(** A pointer of a descriptor of an in place call: null, bytes of the caller that
    lie at an address, or where the library points it. *)
Inductive Pointer : Type := Null | Slice (at_ : Z) (b : bytes) | At (at_ : Z).
(* SRC truenas_gssapi/src/ffi.rs struct gss_iov_buffer_desc *)
Record gss_iov_buffer_desc : Type := mkIov { type_ : Z; iov_length : Z; iov_value : Pointer }.

(** What [gss_accept_sec_context] leaves in its out-parameters. *)
Record Accepted : Type := mkAccepted {
  a_major : Z; a_minor : Z; a_context : Z; a_src : Z; a_mech : Z; a_out : gss_buffer_desc; a_flags : Z
}.

(** [messages] is how many messages a status has. *)
Class Gss (W : Type) : Type := {
  messages : Z → Z → option Oid → nat;
  gss_display_status : Z → Z → option Oid → Z → W → Z * Z * gss_buffer_desc * W;
  gss_release_buffer : Z → W → W;
  read_bytes : Z → Z → W → option bytes;
  oid_at : Z → W → option bytes;
  gss_import_name : bytes → Oid → W → Z * Z * Z * W;
  gss_display_name : Z → W → Z * Z * gss_buffer_desc * W;
  gss_canonicalize_name : Z → Oid → W → Z * Z * Z * W;
  gss_export_name : Z → W → Z * Z * gss_buffer_desc * W;
  gss_localname : Z → option Oid → W → Z * Z * gss_buffer_desc * W;
  gss_compare_name : Z → Z → W → Z * Z * Z * W;
  gss_release_name : Z → W → W;
  gss_acquire_cred : Z → Z → W → Z * Z * Z * W;
  gss_acquire_cred_from : Z → Z → list (bytes * bytes) → W → Z * Z * Z * W;
  gss_release_cred : Z → W → W;
  gss_accept_sec_context : Z → Z → bytes → W → Accepted * W;
  gss_delete_sec_context : Z → W → W;
  gss_context_time : Z → W → Z * Z * Z * W;
  gss_get_mic : Z → Z → bytes → W → Z * Z * gss_buffer_desc * W;
  gss_verify_mic : Z → bytes → bytes → W → Z * Z * Z * W;
  gss_wrap : Z → bool → Z → bytes → W → Z * Z * Z * gss_buffer_desc * W;
  gss_unwrap : Z → bytes → W → Z * Z * gss_buffer_desc * Z * Z * W;
  gss_get_mic_iov_length : Z → Z → list gss_iov_buffer_desc → W → Z * Z * list gss_iov_buffer_desc * W;
  gss_get_mic_iov : Z → Z → list gss_iov_buffer_desc → W → Z * Z * list gss_iov_buffer_desc * W;
  gss_wrap_iov_length : Z → bool → Z → list gss_iov_buffer_desc → W → Z * Z * Z * list gss_iov_buffer_desc * W;
  gss_wrap_iov : Z → bool → Z → list gss_iov_buffer_desc → W → Z * Z * Z * list gss_iov_buffer_desc * W;
  gss_unwrap_iov : Z → list gss_iov_buffer_desc → W → Z * Z * Z * Z * list gss_iov_buffer_desc * W;
  gss_release_iov_buffer : list gss_iov_buffer_desc → W → W
}.

(** How a computation can end without a value: with the error it returns, or by
    an access that has no meaning. *)
Inductive GssExit : Type := Fail (e : Error) | Undefined.

Section Gss.
Context {W : Type} {gss : Gss W}.
Abbreviation App A := (St W GssExit A).

(** A call, that gives its out-parameters. *)
Definition sys {A} (f : W → A * W) : App A := λ w, let '(a, w) := f w in (Ok a, w).
Definition deref {A} (f : W → option A) : App A := λ w,
  match f w with Some a => (Ok a, w) | None => (Err Undefined, w) end.
Definition result {A} (o : Outcome A Error) : App A := lift (map_err Fail o).
(** The [Result] of a computation as a value. *)
Definition caught {A} (m : App A) : App (Outcome A Error) := λ w,
  match m w with
  | (Ok a, w) => (Ok (Ok a), w)
  | (Err (Fail e), w) => (Ok (Err e), w)
  | (Err Undefined, w) => (Err Undefined, w)
  | (Stop s, w) => (Stop s, w)
  end.

(** ** [buf.rs] *)
(* SRC truenas_gssapi/src/buf.rs fn as_slice *)
Definition as_slice (self : gss_buffer_desc) : App bytes :=
  if (self.(value) =? 0) || (self.(length_) =? 0) then mret [] else deref (read_bytes self.(value) self.(length_)).
(* SRC truenas_gssapi/src/buf.rs fn to_vec *)
Definition to_vec (self : gss_buffer_desc) : App bytes := as_slice self.
(* SRC truenas_gssapi/src/buf.rs fn to_text *)
Definition to_text (self : gss_buffer_desc) : App bytes := s ← as_slice self; mret (from_utf8_lossy s).
(* SRC truenas_gssapi/src/buf.rs fn drop *)
Definition OwnedBuffer_drop (self : gss_buffer_desc) : App unit :=
  if self.(value) =? 0 then mret tt else modify (gss_release_buffer self.(value)).

(** ** [error.rs] *)
(* SRC truenas_gssapi/src/error.rs L 175-220 render *)
Fixpoint render_loop (fuel : nat) (code kind : Z) (mech : option Oid) (text : bytes) (context : Z) : App bytes :=
  match fuel with
  | O => halt OutOfFuel
  | S fuel =>
      '(major, context, buffer) ← sys (gss_display_status code kind mech context);
      if negb (major =? GSS_S_COMPLETE) then mret text else
      text ← (if negb (buffer.(value) =? 0) && (0 <? buffer.(length_)) then
                chunk ← deref (read_bytes buffer.(value) buffer.(length_));
                mret ((if decide (text = []) then [] else text ++ lit "; ") ++ from_utf8_lossy chunk)
              else mret text);
      modify (gss_release_buffer buffer.(value));;
      if context =? 0 then mret text else render_loop fuel code kind mech text context
  end.
(* SRC truenas_gssapi/src/error.rs fn render *)
Definition render (code kind : Z) (mech : option Oid) : App bytes :=
  render_loop (S (messages code kind mech)) code kind mech [] 0.

(** [{:#010x}] *)
Definition hex8 (n : Z) : bytes :=
  lit "0x" ++ map (λ i : Z, lower_hex (Z.land (Z.shiftr n (4 * i)) 15)) [7; 6; 5; 4; 3; 2; 1; 0].

(* SRC truenas_gssapi/src/error.rs fn capture *)
Definition capture (major minor : Z) (mech : option Oid) : App Error :=
  message ← render major GSS_C_GSS_CODE None;
  message ← (if negb (minor =? 0) then
               detail ← render minor GSS_C_MECH_CODE mech;
               mret (if decide (detail = []) then message
                     else (if decide (message = []) then [] else message ++ lit ": ") ++ detail)
             else mret message);
  mret (mkError major minor
    (if decide (message = []) then lit "GSSAPI error " ++ hex8 major ++ lit "/" ++ display_int minor else message)).

(* SRC truenas_gssapi/src/error.rs const ERROR_BITS *)
Definition ERROR_BITS : Z := Z.lor (Z.shiftl GSS_C_CALLING_ERROR_MASK GSS_C_CALLING_ERROR_OFFSET)
  (Z.shiftl GSS_C_ROUTINE_ERROR_MASK GSS_C_ROUTINE_ERROR_OFFSET).
(* SRC truenas_gssapi/src/error.rs fn check *)
Definition check (major minor : Z) (mech : option Oid) : App Z :=
  if negb (Z.land major ERROR_BITS =? 0) then e ← capture major minor mech; fail (Fail e)
  else mret (Z.land major GSS_C_SUPPLEMENTARY_MASK).

(** ** [util.rs] *)
(* SRC truenas_gssapi/src/util.rs fn cstring *)
Definition cstring (s : bytes) (what : string) : Outcome bytes Error :=
  match Prelude.cstring s with
  | Some s => Ok s
  | None => Err (synthetic (Z.shiftl 1 GSS_C_CALLING_ERROR_OFFSET) (lit "interior NUL in " ++ lit what))
  end.

(** ** [name.rs] *)
(* SRC truenas_gssapi/src/name.rs struct Name *)
Definition Name : Type := Z.

(* SRC truenas_gssapi/src/name.rs fn drop *)
Definition Name_drop (self : Name) : App unit := modify (gss_release_name self).

(* SRC truenas_gssapi/src/name.rs fn import *)
Definition import (text : bytes) (name_type : Oid) : App Name :=
  '(major, minor, raw) ← sys (gss_import_name text name_type);
  check major minor None;;
  mret raw.

(** An [OwnedBuffer] that a call fills, what is read of it, and its drop. *)
Definition filled {A} (f : W → Z * Z * gss_buffer_desc * W) (mech : option Oid) (read : gss_buffer_desc → App A) : App A :=
  '(major, minor, out) ← sys f;
  finally (check major minor mech;; read out) (OwnedBuffer_drop out).

(* SRC truenas_gssapi/src/name.rs fn display *)
Definition display (self : Name) : App bytes := filled (gss_display_name self) None to_text.
(* SRC truenas_gssapi/src/name.rs fn canonicalize *)
Definition canonicalize (self : Name) (mech : Oid) : App Name :=
  '(major, minor, raw) ← sys (gss_canonicalize_name self mech);
  check major minor (Some mech);;
  mret raw.
(* SRC truenas_gssapi/src/name.rs fn export *)
Definition export (self : Name) : App bytes := filled (gss_export_name self) None to_vec.
(* SRC truenas_gssapi/src/name.rs fn localname *)
Definition localname (self : Name) (mech : option Oid) : App bytes := filled (gss_localname self mech) mech to_text.
(* SRC truenas_gssapi/src/name.rs fn matches *)
Definition matches (self other : Name) : App bool :=
  '(major, minor, equal) ← sys (gss_compare_name self other);
  check major minor None;;
  mret (negb (equal =? 0)).

(** ** [cred.rs] *)
(* SRC truenas_gssapi/src/cred.rs struct AcceptorCred *)
Definition AcceptorCred : Type := Z.

(** [desired] is 0 where any principal will do. *)
(* SRC truenas_gssapi/src/cred.rs fn acquire_with *)
Definition acquire_with (principal : option Name) (keytab : option bytes) : App AcceptorCred :=
  let desired := default 0 principal in
  '(major, minor, raw) ← match keytab with
    | None => sys (gss_acquire_cred desired GSS_C_ACCEPT)
    | Some keytab =>
        value ← result (cstring keytab "keytab name");
        sys (gss_acquire_cred_from desired GSS_C_ACCEPT [(lit "keytab", value)])
    end;
  check major minor None;;
  mret raw.
(* SRC truenas_gssapi/src/cred.rs fn acquire *)
Definition acquire (principal : option Name) : App AcceptorCred := acquire_with principal None.
(* SRC truenas_gssapi/src/cred.rs fn from_keytab *)
Definition from_keytab (keytab : bytes) (principal : option Name) : App AcceptorCred := acquire_with principal (Some keytab).
(* SRC truenas_gssapi/src/cred.rs fn drop *)
Definition AcceptorCred_drop (self : AcceptorCred) : App unit := modify (gss_release_cred self).

(** ** [context.rs] *)
(* SRC truenas_gssapi/src/context.rs struct Context *)
Record Context : Type := mkContext { raw : Z; ctx_source : option Name; ctx_mech : option Oid; ctx_flags : Z }.

(* SRC truenas_gssapi/src/context.rs fn drop *)
Definition Context_drop (self : Context) : App unit :=
  modify (gss_delete_sec_context self.(raw));;
  match self.(ctx_source) with Some n => Name_drop n | None => mret tt end.

(** Whole seconds. *)
(* SRC truenas_gssapi/src/context.rs fn lifetime *)
Definition lifetime (self : Context) : App (option Z) :=
  '(major, minor, time) ← sys (gss_context_time self.(raw));
  check major minor self.(ctx_mech);;
  mret (if time =? GSS_C_INDEFINITE then None else Some time).

(* SRC truenas_gssapi/src/context.rs fn get_mic *)
Definition get_mic (self : Context) (message : bytes) : App bytes :=
  filled (gss_get_mic self.(raw) GSS_C_QOP_DEFAULT message) self.(ctx_mech) to_vec.

(* SRC truenas_gssapi/src/context.rs fn verify_mic *)
Definition verify_mic (self : Context) (message mic : bytes) : App Z :=
  '(major, minor, qop) ← sys (gss_verify_mic self.(raw) message mic);
  check major minor self.(ctx_mech);;
  mret qop.

(* SRC truenas_gssapi/src/context.rs fn wrap *)
Definition wrap (self : Context) (confidential : bool) (message : bytes) : App (bytes * bool) :=
  '(major, minor, sealed, out) ← sys (gss_wrap self.(raw) confidential GSS_C_QOP_DEFAULT message);
  finally (check major minor self.(ctx_mech);; token ← to_vec out; mret (token, negb (sealed =? 0))) (OwnedBuffer_drop out).

(* SRC truenas_gssapi/src/context.rs struct Unwrapped *)
Record Unwrapped : Type := mkUnwrapped { u_message : bytes; u_confidential : bool; u_qop : Z }.

(* SRC truenas_gssapi/src/context.rs fn unwrap *)
Definition unwrap (self : Context) (token : bytes) : App Unwrapped :=
  '(major, minor, out, sealed, qop) ← sys (gss_unwrap self.(raw) token);
  finally (check major minor self.(ctx_mech);; message ← to_vec out; mret (mkUnwrapped message (negb (sealed =? 0)) qop))
    (OwnedBuffer_drop out).

(* SRC truenas_gssapi/src/context.rs fn iov *)
Definition iov (kind : Z) (bytes : Pointer) (len : Z) : gss_iov_buffer_desc := mkIov kind len bytes.
(** What a descriptor's slice holds after a call. *)
Definition contents (d : gss_iov_buffer_desc) : bytes := match d.(iov_value) with Slice _ b => b | _ => [] end.
Definition iov_at (l : list gss_iov_buffer_desc) (i : nat) : gss_iov_buffer_desc := nth i l (mkIov 0 0 Null).
(** [Vec::resize] with zeros, to a length that is not shorter; [Vec::truncate]. *)
Definition resized (out : bytes) (n : Z) : bytes := out ++ replicate (Z.to_nat n) x00.
Definition truncate (b : bytes) (n : Z) : bytes := take (Z.to_nat n) b.

(** Memory is at an address: [at_message] and [at_out] are where the slices lie,
    which no result depends on.  The [Result] comes with the [out] it leaves. *)
(* SRC truenas_gssapi/src/context.rs fn get_mic_into *)
Definition get_mic_into (self : Context) (at_message at_out : Z) (message out : bytes) : App (Outcome unit Error * bytes) :=
  let query := [iov GSS_IOV_BUFFER_TYPE_DATA (Slice at_message message) (len message); iov GSS_IOV_BUFFER_TYPE_MIC_TOKEN Null 0] in
  '(major, minor, l) ← sys (gss_get_mic_iov_length self.(raw) GSS_C_QOP_DEFAULT query);
  asked ← caught (check major minor self.(ctx_mech));
  match asked with
  | Ok _ =>
      let start := len out in
      let tail := replicate (Z.to_nat (iov_at l 1).(iov_length)) x00 in
      let l := [iov_at l 0; mkIov (iov_at l 1).(type_) (iov_at l 1).(iov_length) (Slice (at_out + start) tail)] in
      '(major, minor, l) ← sys (gss_get_mic_iov self.(raw) GSS_C_QOP_DEFAULT l);
      let out := out ++ contents (iov_at l 1) in
      checked ← caught (check major minor self.(ctx_mech));
      match checked with
      | Ok _ => mret (Ok tt, truncate out (start + (iov_at l 1).(iov_length)))
      | Err e => mret (Err e, truncate out start)
      | Stop s => halt s
      end
  | Err e => mret (Err e, out)
  | Stop s => halt s
  end.

(* SRC truenas_gssapi/src/context.rs fn get_mic_within *)
Definition get_mic_within (self : Context) (at_out : Z) (out : bytes) (from to : Z) : App (Outcome unit Error * bytes) :=
  let start := len out in
  message ← lift (slice out from to);
  let query := [iov GSS_IOV_BUFFER_TYPE_DATA Null (len message); iov GSS_IOV_BUFFER_TYPE_MIC_TOKEN Null 0] in
  '(major, minor, l) ← sys (gss_get_mic_iov_length self.(raw) GSS_C_QOP_DEFAULT query);
  asked ← caught (check major minor self.(ctx_mech));
  match asked with
  | Ok _ =>
      let tail := replicate (Z.to_nat (iov_at l 1).(iov_length)) x00 in
      let l := [mkIov (iov_at l 0).(type_) (iov_at l 0).(iov_length) (Slice (at_out + from) message);
                mkIov (iov_at l 1).(type_) (iov_at l 1).(iov_length) (Slice (at_out + start) tail)] in
      '(major, minor, l) ← sys (gss_get_mic_iov self.(raw) GSS_C_QOP_DEFAULT l);
      let out := take (Z.to_nat from) out ++ contents (iov_at l 0) ++ drop (Z.to_nat to) out ++ contents (iov_at l 1) in
      checked ← caught (check major minor self.(ctx_mech));
      match checked with
      | Ok _ => mret (Ok tt, truncate out (start + (iov_at l 1).(iov_length)))
      | Err e => mret (Err e, truncate out start)
      | Stop s => halt s
      end
  | Err e => mret (Err e, out)
  | Stop s => halt s
  end.

(* SRC truenas_gssapi/src/context.rs struct WrapLengths *)
Record WrapLengths : Type := mkLengths { header : Z; padding : Z; trailer : Z }.

(** A sum of [usize]s, which panics where it does not fit. *)
Definition add_usize (l : list Z) : App Z :=
  let n := foldr Z.add 0 l in if n <=? usize_max then mret n else halt Panicked.

(* SRC truenas_gssapi/src/context.rs fn token_len *)
Definition token_len (self : WrapLengths) (message : Z) : App Z :=
  add_usize [self.(header); message; self.(padding); self.(trailer)].

(* SRC truenas_gssapi/src/context.rs fn wrap_lengths *)
Definition wrap_lengths (self : Context) (confidential : bool) (message : Z) : App WrapLengths :=
  let query := [iov GSS_IOV_BUFFER_TYPE_HEADER Null 0; iov GSS_IOV_BUFFER_TYPE_DATA Null message;
                iov GSS_IOV_BUFFER_TYPE_PADDING Null 0; iov GSS_IOV_BUFFER_TYPE_TRAILER Null 0] in
  '(major, minor, _, l) ← sys (gss_wrap_iov_length self.(raw) confidential GSS_C_QOP_DEFAULT query);
  check major minor self.(ctx_mech);;
  mret (mkLengths (iov_at l 0).(iov_length) (iov_at l 2).(iov_length) (iov_at l 3).(iov_length)).

(** The error of a token without room, and its text. *)
Definition too_short (held around : Z) : Error :=
  synthetic (Z.shiftl 3 GSS_C_CALLING_ERROR_OFFSET)
    (lit "a token of " ++ display_int held ++ lit " bytes holds no message under " ++ display_int around ++ lit " bytes around it").
Definition too_long (len held : Z) : Error :=
  synthetic (Z.shiftl 3 GSS_C_CALLING_ERROR_OFFSET)
    (lit "a message of " ++ display_int len ++ lit " bytes from a token of " ++ display_int held).

(* SRC truenas_gssapi/src/context.rs fn wrap_in_place *)
Definition wrap_in_place (self : Context) (confidential : bool) (lengths : WrapLengths) (at_ : Z) (token : bytes) :
    App (Outcome bool Error * bytes) :=
  around ← add_usize [lengths.(header); lengths.(padding); lengths.(trailer)];
  if len token <? around then mret (Err (too_short (len token) around), token) else
  let message := len token - around in
  let (hdr, rest) := (take (Z.to_nat lengths.(header)) token, drop (Z.to_nat lengths.(header)) token) in
  let (data, rest) := (take (Z.to_nat message) rest, drop (Z.to_nat message) rest) in
  let (pad, trl) := (take (Z.to_nat lengths.(padding)) rest, drop (Z.to_nat lengths.(padding)) rest) in
  let at_data := at_ + len hdr in
  let at_pad := at_data + len data in
  let l := [iov GSS_IOV_BUFFER_TYPE_HEADER (Slice at_ hdr) (len hdr); iov GSS_IOV_BUFFER_TYPE_DATA (Slice at_data data) (len data);
            iov GSS_IOV_BUFFER_TYPE_PADDING (Slice at_pad pad) (len pad);
            iov GSS_IOV_BUFFER_TYPE_TRAILER (Slice (at_pad + len pad) trl) (len trl)] in
  '(major, minor, sealed, l) ← sys (gss_wrap_iov self.(raw) confidential GSS_C_QOP_DEFAULT l);
  let token := contents (iov_at l 0) ++ contents (iov_at l 1) ++ contents (iov_at l 2) ++ contents (iov_at l 3) in
  checked ← caught (check major minor self.(ctx_mech));
  match checked with
  | Ok _ => mret (Ok (negb (sealed =? 0)), token)
  | Err e => mret (Err e, token)
  | Stop s => halt s
  end.

(* SRC truenas_gssapi/src/context.rs struct Opened *)
Record Opened : Type := mkOpened { o_start : Z; o_end : Z; o_confidential : bool; o_qop : Z }.

(** The address a descriptor holds. *)
Definition address (p : Pointer) : Z := match p with Null => 0 | Slice a _ => a | At a => a end.
(** [checked_sub] and [checked_add] of [usize]s. *)
Definition checked_sub (a b : Z) : option Z := if b <=? a then Some (a - b) else None.
Definition checked_add (a b : Z) : option Z := if a + b <=? usize_max then Some (a + b) else None.

(** [at_] is where the token lies. *)
(* SRC truenas_gssapi/src/context.rs fn unwrap_in_place *)
Definition unwrap_in_place (self : Context) (at_ : Z) (token : bytes) : App (Outcome Opened Error * bytes) :=
  let l := [iov GSS_IOV_BUFFER_TYPE_STREAM (Slice at_ token) (len token); iov GSS_IOV_BUFFER_TYPE_DATA Null 0] in
  '(major, minor, sealed, qop, l) ← sys (gss_unwrap_iov self.(raw) l);
  let token := contents (iov_at l 0) in
  checked ← caught (check major minor self.(ctx_mech));
  match checked with
  | Ok _ =>
      let data := iov_at l 1 in
      let n := data.(iov_length) in
      let inside :=
        if negb (Z.land data.(type_) GSS_IOV_BUFFER_FLAG_ALLOCATED =? 0) then None else
        start ← checked_sub (address data.(iov_value)) at_;
        end_ ← checked_add start n;
        if end_ <=? len token then Some start else None in
      match inside with
      | Some start => mret (Ok (mkOpened start (start + n) (negb (sealed =? 0)) qop), token)
      | None =>
          let copied := Z.min n (len token) in
          copy ← deref (read_bytes (address data.(iov_value)) n);
          let token := take (Z.to_nat copied) copy ++ drop (Z.to_nat copied) token in
          modify (gss_release_iov_buffer l);;
          if negb (copied =? n) then mret (Err (too_long n (len token)), token)
          else mret (Ok (mkOpened 0 n (negb (sealed =? 0)) qop), token)
      end
  | Err e => mret (Err e, token)
  | Stop s => halt s
  end.

(** ** [accept.rs] *)
(* SRC truenas_gssapi/src/accept.rs enum Step *)
Inductive Step : Type := Continue (token : bytes) | Complete (token : bytes).

(* SRC truenas_gssapi/src/accept.rs struct State *)
Record State : Type := mkState {
  context : Z; established : bool; source : option Name; mech : option Oid; flags : Z
}.

(* SRC truenas_gssapi/src/accept.rs fn new #1 *)
Definition State_new : State := mkState 0 false None None 0.

(** A step of [&mut self]: the [Result] with the state it leaves.  A name that is
    replaced is dropped. *)
(* SRC truenas_gssapi/src/accept.rs fn step #1 *)
Definition step (self : State) (cred : AcceptorCred) (token : bytes) : App (Outcome Step Error * State) :=
  r ← sys (gss_accept_sec_context self.(context) cred token);
  finally (
    (if r.(a_src) =? 0 then mret tt else match self.(source) with Some n => Name_drop n | None => mret tt end);;
    let source := if r.(a_src) =? 0 then self.(source) else Some r.(a_src) in
    mech ← (if r.(a_mech) =? 0 then mret self.(mech) else oid ← deref (oid_at r.(a_mech)); mret (Some (mkOid oid)));
    let self := mkState r.(a_context) self.(established) source mech self.(flags) in
    checked ← caught (check r.(a_major) r.(a_minor) mech);
    match checked with
    | Ok supplementary =>
        if negb (Z.land supplementary GSS_S_CONTINUE_NEEDED =? 0) then
          token ← to_vec r.(a_out);
          mret (Ok (Continue token), mkState self.(context) self.(established) source mech r.(a_flags))
        else
          token ← to_vec r.(a_out);
          mret (Ok (Complete token), mkState self.(context) true source mech r.(a_flags))
    | Err e => mret (Err e, self)
    | Stop s => halt s
    end) (OwnedBuffer_drop r.(a_out)).

(* SRC truenas_gssapi/src/accept.rs fn source_name #1 *)
Definition source_name (self : State) : option Name := if self.(established) then self.(source) else None.

(* SRC truenas_gssapi/src/accept.rs fn take_context *)
Definition take_context (self : State) : Outcome Context Error * State :=
  if negb self.(established) then
    (Err (synthetic (Z.shiftl (RoutineError_value NO_CONTEXT) GSS_C_ROUTINE_ERROR_OFFSET) (lit "the context is not established")), self)
  else
    (Ok (mkContext self.(context) self.(source) self.(mech) self.(flags)),
     mkState 0 self.(established) None None self.(flags)).

(** The name drops with the fields. *)
(* SRC truenas_gssapi/src/accept.rs fn drop *)
Definition State_drop (self : State) : App unit :=
  (if self.(context) =? 0 then mret tt else modify (gss_delete_sec_context self.(context)));;
  match self.(source) with Some n => Name_drop n | None => mret tt end.

(** An acceptor that borrows its credential. *)
(* SRC truenas_gssapi/src/accept.rs struct Acceptor *)
Record Acceptor : Type := mkAcceptor { cred : AcceptorCred; state : State }.
(* SRC truenas_gssapi/src/accept.rs fn new #2 *)
Definition Acceptor_new (cred : AcceptorCred) : Acceptor := mkAcceptor cred State_new.
(* SRC truenas_gssapi/src/accept.rs fn step #2 *)
Definition Acceptor_step (self : Acceptor) (token : bytes) : App (Outcome Step Error * Acceptor) :=
  '(r, s) ← step self.(state) self.(cred) token;
  mret (r, mkAcceptor self.(cred) s).
(** [into_context] takes the acceptor by value: what it leaves is dropped. *)
(* SRC truenas_gssapi/src/accept.rs fn into_context #1 *)
Definition Acceptor_into_context (self : Acceptor) : App Context :=
  let '(r, s) := take_context self.(state) in
  finally (result r) (State_drop s).
(** An acceptor that owns its credential drops it, and then the rest. *)
(* SRC truenas_gssapi/src/accept.rs fn into_context #2 *)
Definition OwningAcceptor_into_context (self : Acceptor) : App Context :=
  let '(r, s) := take_context self.(state) in
  finally (result r) (AcceptorCred_drop self.(cred);; State_drop s).
End Gss.
