(* ===== verification/GssTheorems.v ===== *)
(** The theorems of [truenas_gssapi]: object identifiers, status codes, what the
    wrappers hold and give back, an acceptor over any tokens, and that the calls
    in place do what the copying calls do; and a model of libgssapi. *)
From S2P Require Import Prelude Utf8 Gss.
Local Open Scope Z_scope.

(** ** What libgssapi documents *)

(** The objects of the library that are live: buffers with their bytes, names,
    credentials and contexts. *)
Record View : Type := mkView { bufs : gmap Z bytes; names : gset Z; creds : gset Z; ctxs : gset Z }.
Definition set_bufs (b : gmap Z bytes) (v : View) : View := mkView b v.(names) v.(creds) v.(ctxs).
Definition set_names (n : gset Z) (v : View) : View := mkView v.(bufs) n v.(creds) v.(ctxs).
Definition set_creds (c : gset Z) (v : View) : View := mkView v.(bufs) v.(names) c v.(ctxs).
Definition set_ctxs (c : gset Z) (v : View) : View := mkView v.(bufs) v.(names) v.(creds) c.

(** A call filled [out] with [b], or left it null. *)
Definition fills (out : gss_buffer_desc) (b : bytes) (v v' : View) : Prop :=
  if out.(value) =? 0 then v' = v ∧ b = [] else
  v.(bufs) !! out.(value) = None ∧ out.(length_) = len b ∧ v' = set_bufs (<[out.(value) := b]> v.(bufs)) v.

(** No calling error and no routine error. *)
Definition good (major : Z) : Prop := Z.land major ERROR_BITS = 0.
#[global] Instance good_dec major : Decision (good major).
Proof. unfold good. apply _. Defined.

(** A new object, or null. *)
Definition made (n : Z) (s s' : gset Z) : Prop := if n =? 0 then s' = s else (n ∉ s) ∧ s' = s ∪ {[n]}.
(** A context handle before and after a call: kept, made or deleted. *)
Definition turns (c c' : Z) (s s' : gset Z) : Prop :=
  c' = c ∧ s' = s ∨ c ≠ 0 ∧ c' = 0 ∧ s' = s ∖ {[c]} ∨ c = 0 ∧ made c' s s'.

(** What a sealing call makes of a message: its parts and whether it encrypted. *)
Record Sealed : Type := mkSealed { s_header : bytes; s_data : bytes; s_padding : bytes; s_trailer : bytes; s_conf : Z }.
Definition token_of (s : Sealed) : bytes := s.(s_header) ++ s.(s_data) ++ s.(s_padding) ++ s.(s_trailer).

(** The codes of a call, and what it does on top where they are good. *)
Definition Verdict (A : Type) : Type := (Z * Z * A)%type.
(** What a world is about.  [around] is what a token needs before a message of a
    length, as padding and at its end.  [sealing], [opening] and [signing] say
    what the next call for a message comes to, [left_at] how many messages of a
    status are left at a message context. *)
Class GssSpec (W : Type) : Type := {
  view : W → View;
  proven : W → Z → Prop;
  around : W → Z → bool → Z → Z * Z * Z;
  sealing : W → Z → bool → bytes → Verdict Sealed;
  opening : W → Z → bytes → Verdict (bytes * Z * Z);
  signing : W → Z → bytes → Verdict bytes;
  left_at : Z → Z → option Oid → Z → nat
}.
(** What a call that only asks leaves of a context. *)
Record quiet {W} `{GssSpec W} (c : Z) (w w' : W) : Prop := mkQuiet {
  q_view : view w' = view w;
  q_around b n : around w' c b n = around w c b n;
  q_sealing b m : sealing w' c b m = sealing w c b m;
  q_opening t : opening w' c t = opening w c t;
  q_signing m : signing w' c m = signing w c m
}.

Class GssLaws (W : Type) `{Gss W} `{GssSpec W} : Type := {
  read_law w a b : (view w).(bufs) !! a = Some b → read_bytes a (len b) w = Some b;
  release_law w a : is_Some ((view w).(bufs) !! a) ∨ a = 0 → view (gss_release_buffer a w) =
    if a =? 0 then view w else set_bufs (delete a (view w).(bufs)) (view w);
  first_law code kind mech : (left_at code kind mech 0 ≤ messages code kind mech)%nat;
  display_law code kind mech c w major c' out w' : gss_display_status code kind mech c w = (major, c', out, w') →
    if major =? GSS_S_COMPLETE then (∃ b, fills out b (view w) (view w')) ∧
      (c' ≠ 0 → (left_at code kind mech c' < left_at code kind mech c)%nat)
    else view w' = view w;

  import_law t o w major minor n w' : gss_import_name t o w = (major, minor, n, w') →
    ∃ s, made n (view w).(names) s ∧ view w' = set_names s (view w) ∧ (if decide (good major) then n ≠ 0 else n = 0);
  display_name_law n w major minor out w' : n ∈ (view w).(names) → gss_display_name n w = (major, minor, out, w') →
    ∃ b, fills out b (view w) (view w');
  canonicalize_law n o w major minor n' w' : n ∈ (view w).(names) → gss_canonicalize_name n o w = (major, minor, n', w') →
    ∃ s, made n' (view w).(names) s ∧ view w' = set_names s (view w) ∧ (if decide (good major) then n' ≠ 0 else n' = 0);
  export_law n w major minor out w' : n ∈ (view w).(names) → gss_export_name n w = (major, minor, out, w') →
    ∃ b, fills out b (view w) (view w');
  localname_law n o w major minor out w' : n ∈ (view w).(names) → gss_localname n o w = (major, minor, out, w') →
    ∃ b, fills out b (view w) (view w');
  compare_law n n' w major minor e w' : n ∈ (view w).(names) → n' ∈ (view w).(names) →
    gss_compare_name n n' w = (major, minor, e, w') → view w' = view w;
  release_name_law w n : n ∈ (view w).(names) → view (gss_release_name n w) = set_names ((view w).(names) ∖ {[n]}) (view w);
  acquire_law n u w major minor c w' : n = 0 ∨ n ∈ (view w).(names) → gss_acquire_cred n u w = (major, minor, c, w') →
    ∃ s, made c (view w).(creds) s ∧ view w' = set_creds s (view w) ∧ (if decide (good major) then c ≠ 0 else c = 0);
  acquire_from_law n u st w major minor c w' : n = 0 ∨ n ∈ (view w).(names) → Forall (λ kv, x00 ∉ kv.2) st →
    gss_acquire_cred_from n u st w = (major, minor, c, w') →
    ∃ s, made c (view w).(creds) s ∧ view w' = set_creds s (view w) ∧ (if decide (good major) then c ≠ 0 else c = 0);
  release_cred_law w c : c ∈ (view w).(creds) → view (gss_release_cred c w) = set_creds ((view w).(creds) ∖ {[c]}) (view w);

  (** A step of an exchange.  A completed one proves the name it gives. *)
  accept_law w c cr t r w' : (c = 0 ∨ c ∈ (view w).(ctxs)) → cr ∈ (view w).(creds) → gss_accept_sec_context c cr t w = (r, w') →
    ∃ b v, fills r.(a_out) b v (view w') ∧ v.(bufs) = (view w).(bufs) ∧ v.(creds) = (view w).(creds) ∧
      made r.(a_src) (view w).(names) v.(names) ∧ turns c r.(a_context) (view w).(ctxs) v.(ctxs) ∧
      (r.(a_mech) = 0 ∨ is_Some (oid_at r.(a_mech) w')) ∧
      (good r.(a_major) → r.(a_context) ≠ 0) ∧
      (good r.(a_major) → Z.land r.(a_major) GSS_S_CONTINUE_NEEDED = 0 → r.(a_src) ≠ 0 ∧ proven w' r.(a_src));
  proven_law w n : (∀ a, proven (gss_release_buffer a w) n ↔ proven w n) ∧ (∀ m, m ≠ n → proven (gss_release_name m w) n ↔ proven w n);
  static_law w n a : oid_at a (gss_release_name n w) = oid_at a w;
  delete_law w c : c ∈ (view w).(ctxs) ∨ c = 0 → view (gss_delete_sec_context c w) =
    if c =? 0 then view w else set_ctxs ((view w).(ctxs) ∖ {[c]}) (view w);

  (** The calls of an established context. *)
  time_law w c major minor t w' : c ∈ (view w).(ctxs) → gss_context_time c w = (major, minor, t, w') → quiet c w w';
  mic_law w c m major minor out w' : c ∈ (view w).(ctxs) → gss_get_mic c GSS_C_QOP_DEFAULT m w = (major, minor, out, w') →
    ∃ b, fills out b (view w) (view w') ∧ signing w c m = (major, minor, b);
  verify_law w c m t major minor q w' : c ∈ (view w).(ctxs) → gss_verify_mic c m t w = (major, minor, q, w') → view w' = view w;
  wrap_law w c b m major minor sl out w' : c ∈ (view w).(ctxs) → gss_wrap c b GSS_C_QOP_DEFAULT m w = (major, minor, sl, out, w') →
    ∃ t, fills out t (view w) (view w') ∧ (sealing w c b m).1 = (major, minor) ∧
      (good major → t = token_of (sealing w c b m).2 ∧ sl = (sealing w c b m).2.(s_conf));
  sealing_law w c b m : let s := (sealing w c b m).2 in good (sealing w c b m).1.1 →
    around w c b (len m) = (len s.(s_header), len s.(s_padding), len s.(s_trailer)) ∧ len s.(s_data) = len m;
  unwrap_law w c t major minor out sl q w' : c ∈ (view w).(ctxs) → gss_unwrap c t w = (major, minor, out, sl, q, w') →
    ∃ m, fills out m (view w) (view w') ∧ (opening w c t).1 = (major, minor) ∧ (good major → (opening w c t).2 = (m, sl, q));

  (** The calls in place.  The message is null where a query has only its length. *)
  mic_length_law w c p n major minor l w' : c ∈ (view w).(ctxs) →
    gss_get_mic_iov_length c GSS_C_QOP_DEFAULT [mkIov GSS_IOV_BUFFER_TYPE_DATA n p; mkIov GSS_IOV_BUFFER_TYPE_MIC_TOKEN 0 Null] w =
      (major, minor, l, w') → quiet c w w' ∧
    (good major → ∃ k, l = [mkIov GSS_IOV_BUFFER_TYPE_DATA n p; mkIov GSS_IOV_BUFFER_TYPE_MIC_TOKEN k Null] ∧ 0 ≤ k ∧
      ∀ m, len m = n → good (signing w c m).1.1 → len (signing w c m).2 ≤ k);
  mic_iov_law w c m am at_ t major minor l w' : c ∈ (view w).(ctxs) →
    (good (signing w c m).1.1 → len (signing w c m).2 ≤ len t) →
    gss_get_mic_iov c GSS_C_QOP_DEFAULT [mkIov GSS_IOV_BUFFER_TYPE_DATA (len m) (Slice am m);
      mkIov GSS_IOV_BUFFER_TYPE_MIC_TOKEN (len t) (Slice at_ t)] w = (major, minor, l, w') →
    view w' = view w ∧ (signing w c m).1 = (major, minor) ∧ ∃ k t', l = [mkIov GSS_IOV_BUFFER_TYPE_DATA (len m) (Slice am m);
      mkIov GSS_IOV_BUFFER_TYPE_MIC_TOKEN k (Slice at_ t')] ∧ len t' = len t ∧
      (good major → k = len (signing w c m).2 ∧ take (Z.to_nat k) t' = (signing w c m).2);
  wrap_length_law w c b n major minor sl l w' : c ∈ (view w).(ctxs) →
    gss_wrap_iov_length c b GSS_C_QOP_DEFAULT [mkIov GSS_IOV_BUFFER_TYPE_HEADER 0 Null; mkIov GSS_IOV_BUFFER_TYPE_DATA n Null;
      mkIov GSS_IOV_BUFFER_TYPE_PADDING 0 Null; mkIov GSS_IOV_BUFFER_TYPE_TRAILER 0 Null] w = (major, minor, sl, l, w') →
    quiet c w w' ∧ (good major → let '(h, p, t) := around w c b n in
      l = [mkIov GSS_IOV_BUFFER_TYPE_HEADER h Null; mkIov GSS_IOV_BUFFER_TYPE_DATA n Null;
        mkIov GSS_IOV_BUFFER_TYPE_PADDING p Null; mkIov GSS_IOV_BUFFER_TYPE_TRAILER t Null] ∧ 0 ≤ h ∧ 0 ≤ p ∧ 0 ≤ t ∧ h + n + p + t ≤ usize_max);
  wrap_iov_law w c b h m p t ah am ap at_ major minor sl l w' : c ∈ (view w).(ctxs) →
    around w c b (len m) = (len h, len p, len t) →
    gss_wrap_iov c b GSS_C_QOP_DEFAULT [mkIov GSS_IOV_BUFFER_TYPE_HEADER (len h) (Slice ah h);
      mkIov GSS_IOV_BUFFER_TYPE_DATA (len m) (Slice am m); mkIov GSS_IOV_BUFFER_TYPE_PADDING (len p) (Slice ap p);
      mkIov GSS_IOV_BUFFER_TYPE_TRAILER (len t) (Slice at_ t)] w = (major, minor, sl, l, w') →
    view w' = view w ∧ (sealing w c b m).1 = (major, minor) ∧ ∃ h' m' p' t',
      map contents l = [h'; m'; p'; t'] ∧ len h' = len h ∧ len m' = len m ∧ len p' = len p ∧ len t' = len t ∧
      (good major → mkSealed h' m' p' t' sl = (sealing w c b m).2);
  (** The message of a token lies in it, or in a copy the library made. *)
  unwrap_iov_law w c t a major minor sl q l w' : c ∈ (view w).(ctxs) → 0 ≤ a → a + len t ≤ usize_max →
    gss_unwrap_iov c [mkIov GSS_IOV_BUFFER_TYPE_STREAM (len t) (Slice a t); mkIov GSS_IOV_BUFFER_TYPE_DATA 0 Null] w =
      (major, minor, sl, q, l, w') → (opening w c t).1 = (major, minor) ∧
    ∃ t' d, l = [mkIov GSS_IOV_BUFFER_TYPE_STREAM (len t) (Slice a t'); d] ∧ len t' = len t ∧
      (good major → ∃ m, (opening w c t).2 = (m, sl, q) ∧ d.(iov_length) = len m ∧
         if decide (Z.land d.(type_) GSS_IOV_BUFFER_FLAG_ALLOCATED = 0) then
           view w' = view w ∧ ∃ i, d.(iov_value) = At (a + i) ∧ 0 ≤ i ∧ i + len m ≤ len t ∧
             take (Z.to_nat (len m)) (drop (Z.to_nat i) t') = m
         else ∃ b, d.(iov_value) = At b ∧ b ≠ 0 ∧ (view w).(bufs) !! b = None ∧ view w' = set_bufs (<[b := m]> (view w).(bufs)) (view w)) ∧
      (¬ good major → view w' = view w);
  release_iov_law w l : view (gss_release_iov_buffer l w) =
    set_bufs (foldr (λ d, if decide (Z.land d.(type_) GSS_IOV_BUFFER_FLAG_ALLOCATED = 0) then id else delete (address d.(iov_value)))
      (view w).(bufs) l) (view w)
}.

(** ** Object identifiers *)

(** An octet with the continuation bit, the value of a run of octets in base 128,
    and a run that is one subidentifier. *)
Definition high (b : Byte.byte) : bool := negb (Z.land (byte_val b) 128 =? 0).
Definition digit (v : Z) (b : Byte.byte) : Z := v * 128 + Z.land (byte_val b) 127.
Definition base128 (v : Z) (g : bytes) : Z := foldl digit v g.
Definition subid (g : bytes) : Prop := ∃ c l, g = c ++ [l] ∧ Forall (λ b, high b = true) c ∧ high l = false.
(** The first subidentifier carries two arcs. *)
Definition arcs_of (vs : list Z) : list Z :=
  match vs with
  | [] => []
  | v :: vs => let first := if v <? 40 then 0 else if v <? 80 then 1 else 2 in first :: v - first * 40 :: vs
  end.
Definition push (arcs : list Z) (v : Z) : list Z := if decide (arcs = []) then arcs_of [v] else arcs ++ [v].

Lemma digit_range b : 0 ≤ Z.land (byte_val b) 127 < 128.
Proof. change 127 with (Z.ones 7). rewrite Z.land_ones by lia. apply Z.mod_pos_bound. lia. Qed.

Lemma base128_grows g v : 0 ≤ v → v ≤ base128 v g.
Proof.
  revert v. induction g as [|b g IH]; intros v Hv; simpl; [lia|]. pose proof (digit_range b).
  trans (digit v b); [unfold digit; lia|]. apply IH. unfold digit. lia.
Qed.

(** One octet of the loop. *)
Lemma decode_octet arcs v b e : 0 ≤ v → decode_loop arcs v (b :: e) =
  if decide (digit v b ≤ u64_max) then
    if high b then decode_loop arcs (digit v b) e else decode_loop (push arcs (digit v b)) 0 e
  else None.
Proof.
  intros Hv. pose proof (digit_range b) as Hd. cbn [decode_loop]. unfold checked_u64, mbind, option_bind, digit, high, push.
  set (d := Z.land (byte_val b) 127) in *. clearbody d. destruct (decide (v * 128 + d ≤ u64_max)) as [Hm|Hm].
  - rewrite (proj2 (Z.leb_le (v * 128) _)) by lia. rewrite (proj2 (Z.leb_le (v * 128 + d) _)) by done.
    destruct (negb _); [done|]. by destruct (decide (arcs = [])).
  - destruct (Z.leb_spec (v * 128) u64_max) as [_|_]; [|done]. by destruct (Z.leb_spec (v * 128 + d) u64_max).
Qed.

Lemma decode_run arcs v c l e : 0 ≤ v → Forall (λ b, high b = true) c → high l = false →
  decode_loop arcs v (c ++ l :: e) =
    if decide (base128 v (c ++ [l]) ≤ u64_max) then decode_loop (push arcs (base128 v (c ++ [l]))) 0 e else None.
Proof.
  intros Hv Hc Hl. revert v Hv. induction Hc as [|b c Hb _ IH]; intros v Hv; cbn [app]; rewrite decode_octet by done.
  - rewrite Hl. done.
  - pose proof (digit_range b). rewrite Hb. change (base128 v (b :: c ++ [l])) with (base128 (digit v b) (c ++ [l])).
    rewrite IH by (unfold digit; lia). case_decide as H1; [done|]. rewrite decide_False; [done|].
    pose proof (base128_grows (c ++ [l]) (digit v b)). unfold digit in *. lia.
Qed.

Lemma decode_groups gs arcs t : Forall subid gs → decode_loop arcs 0 (concat gs ++ t) =
  if decide (Forall (λ g, base128 0 g ≤ u64_max) gs) then decode_loop (foldl push arcs (map (base128 0) gs)) 0 t else None.
Proof.
  intros Hg. revert arcs. induction Hg as [|g gs (c & l & -> & Hc & Hl) _ IH]; intros arcs; [done|].
  cbn [concat map foldl]. rewrite <- !app_assoc. cbn [app]. rewrite decode_run by done.
  destruct (decide (base128 0 (c ++ [l]) ≤ u64_max)) as [H1|H1]; [rewrite IH; apply decide_ext; rewrite Forall_cons; tauto|].
  rewrite decide_False; [done|]. rewrite Forall_cons. tauto.
Qed.

Lemma decode_rest arcs v t : 0 ≤ v ≤ u64_max → Forall (λ b, high b = true) t →
  decode_loop arcs v t = if decide (base128 v t ≤ u64_max) then Some arcs else None.
Proof.
  intros Hv Ht. revert v Hv. induction Ht as [|b t Hb _ IH]; intros v Hv; [simpl; by rewrite decide_True by lia|].
  rewrite decode_octet, Hb by lia. pose proof (digit_range b). change (base128 v (b :: t)) with (base128 (digit v b) t).
  pose proof (base128_grows t (digit v b)). case_decide as H1.
  - by rewrite IH by (unfold digit in *; lia).
  - rewrite decide_False; [done|]. unfold digit in *. lia.
Qed.

(** Any octets are subidentifiers and a run that does not end. *)
Lemma octets_split e : ∃ gs t, e = concat gs ++ t ∧ Forall subid gs ∧ Forall (λ b, high b = true) t.
Proof.
  induction e as [|b e (gs & t & -> & Hg & Ht)]; [by exists [], []|]. destruct (high b) eqn:Hb.
  - destruct gs as [|g gs]; [exists [], (b :: t); repeat constructor; done|].
    apply Forall_cons in Hg as [(c & l & -> & Hc & Hl) Hg]. exists ((b :: c ++ [l]) :: gs), t. split; [done|]. split; [|done].
    constructor; [|done]. exists (b :: c), l. by repeat constructor.
  - exists ([b] :: gs), t. split; [done|]. split; [|done]. constructor; [|done]. by exists [], b.
Qed.

Lemma push_all vs arcs : arcs ≠ [] → foldl push arcs vs = arcs ++ vs.
Proof.
  revert arcs. induction vs as [|v vs IH]; intros arcs Ha; simpl; [by rewrite app_nil_r|].
  unfold push at 2. rewrite decide_False by done. rewrite IH by (by destruct arcs). by rewrite <- app_assoc.
Qed.

Lemma push_arcs vs : foldl push [] vs = arcs_of vs.
Proof. destruct vs as [|v vs]; [done|]. cbn [foldl]. unfold push at 2. rewrite decide_True by done. by rewrite push_all. Qed.

Lemma groups_last gs : Forall subid gs → gs ≠ [] → ∃ l, last (concat gs) = Some l ∧ high l = false.
Proof.
  intros Hg. induction Hg as [|g gs (c & l & -> & _ & Hl) Hg IH]; [done|]. intros _. simpl. destruct gs as [|g gs].
  - exists l. split; [|done]. simpl. rewrite app_nil_r. apply last_snoc.
  - destruct IH as (l' & H1 & H2); [done|]. exists l'. split; [|done]. by rewrite last_app, H1.
Qed.

Lemma decode_spec e arcs : decode e = Some arcs ↔ ∃ gs, gs ≠ [] ∧ e = concat gs ∧ Forall subid gs ∧
  Forall (λ g, base128 0 g ≤ u64_max) gs ∧ arcs = arcs_of (map (base128 0) gs).
Proof.
  split.
  - destruct (octets_split e) as (gs & t & -> & Hg & Ht). unfold decode. rewrite decode_groups by done.
    case_decide as Hm; [|done]. rewrite decode_rest, push_arcs by (unfold u64_max; done || lia). intros H. exists gs.
    assert (t = []) as ->.
    { destruct t as [|b t]; [done|]. exfalso. apply bind_Some in H as (a & _ & H). revert H.
      destruct (exists_last (l:=b :: t)) as (t' & x & Et); [done|]. rewrite Et in *. rewrite app_assoc, last_snoc.
      apply Forall_app in Ht as [_ [Hx _]%Forall_cons]. unfold high in Hx. by rewrite Hx. }
    rewrite app_nil_r in *. rewrite decide_True in H by done. cbn [mbind option_bind] in H.
    destruct (decide (gs = [])) as [->|Hne]; [done|].
    destruct (groups_last gs Hg Hne) as (l & Hl & Hh). rewrite Hl in H. unfold high in Hh. rewrite Hh in H. by simplify_eq.
  - intros (gs & Hne & -> & Hg & Hm & ->). unfold decode. rewrite <- (app_nil_r (concat gs)) at 1. rewrite decode_groups by done.
    rewrite decide_True, push_arcs by done. simpl. destruct (groups_last gs Hg Hne) as (l & -> & Hh). unfold high in Hh. by rewrite Hh.
Qed.

(** The shortest run of a value, as BER has it written, and the octets of arcs. *)
Fixpoint spell (n : nat) (v bit : Z) : bytes :=
  match n with
  | O => []
  | S n => (if v <? 128 then [] else spell n (v / 128) 128) ++ [byte_of (v mod 128 + bit)]
  end.
Definition encode (arcs : list Z) : bytes :=
  match arcs with
  | a :: b :: arcs => spell 10 (40 * a + b) 0 ++ concat (map (λ v, spell 10 v 0) arcs)
  | _ => []
  end.
Definition arcs_ok (arcs : list Z) : Prop :=
  match arcs with
  | a :: b :: arcs => 0 ≤ a ≤ 2 ∧ 0 ≤ b ∧ (a < 2 → b < 40) ∧ 40 * a + b ≤ u64_max ∧ Forall (λ v, 0 ≤ v ≤ u64_max) arcs
  | _ => False
  end.

Lemma spelled_octet v bit : 0 ≤ v < 128 → bit = 0 ∨ bit = 128 →
  Z.land (byte_val (byte_of (v + bit))) 127 = v ∧ high (byte_of (v + bit)) = negb (bit =? 0).
Proof.
  intros Hv Hb. unfold high. rewrite byte_val_of, wrap_small by (unfold unsigned; lia). split.
  - change 127 with (Z.ones 7). rewrite Z.land_ones by lia. destruct Hb as [-> | ->].
    + rewrite Z.add_0_r. apply Z.mod_small. lia.
    + change 128 with (1 * 2 ^ 7). rewrite Z_mod_plus_full. apply Z.mod_small. lia.
  - f_equal. change 128 with (2 ^ 7) at 1. rewrite Z.land_comm, <- Z.shiftl_1_l, Z.land_comm.
    destruct Hb as [-> | ->].
    + rewrite Z.add_0_r, Z.eqb_refl. apply Z.eqb_eq. apply Z.bits_inj'. intros n Hn. rewrite Z.land_spec, Z.shiftl_spec, Z.bits_0 by done.
      destruct (decide (n = 7)) as [->|Hne]; [|].
      * apply andb_false_iff. left. apply (testbit_high 7); [unfold unsigned|]; lia.
      * apply andb_false_iff. right. destruct (decide (n < 7)); [apply Z.testbit_neg_r; lia|]. apply (testbit_high 1); [unfold unsigned|]; lia.
    + apply Z.eqb_neq. intros E. assert (Z.testbit (Z.land (v + 128) (Z.shiftl 1 7)) 7 = false) as Hf by (rewrite E; apply Z.bits_0).
      rewrite Z.land_spec, Z.shiftl_spec, andb_true_r in Hf by lia. rewrite Z.testbit_false in Hf by lia.
      change (2 ^ 7) with 128 in Hf. rewrite <- (Z.mul_1_l 128) in Hf at 1. rewrite Z.div_add, Z.div_small in Hf by lia. done.
Qed.

Lemma spell_runs n v bit : 0 ≤ v < 128 ^ Z.of_nat n → (0 < n)%nat → bit = 0 ∨ bit = 128 → ∃ c l,
  spell n v bit = c ++ [l] ∧ Forall (λ b, high b = true) c ∧ high l = negb (bit =? 0) ∧ base128 0 (c ++ [l]) = v.
Proof.
  revert v bit. induction n as [|n IH]; intros v bit Hv Hn Hb; [lia|]. pose proof (Z.mod_pos_bound v 128 ltac:(lia)) as Hm.
  destruct (spelled_octet (v mod 128) bit Hm Hb) as [H1 H2]. cbn [spell].
  destruct (Z.ltb_spec v 128) as [Hlt|Hge].
  - exists [], (byte_of (v mod 128 + bit)). split; [done|]. split; [constructor|]. split; [done|]. simpl. unfold digit. rewrite H1, Z.mod_small; lia.
  - rewrite Nat2Z.inj_succ, Z.pow_succ_r in Hv by lia. destruct n as [|n]; [simpl in Hv; lia|].
    destruct (IH (v / 128) 128) as (c & l & -> & Hc & Hl & Hs); [|lia|by right|].
    { split; [apply Z.div_pos; lia|]. apply Z.div_lt_upper_bound; lia. }
    exists (c ++ [l]), (byte_of (v mod 128 + bit)). split; [done|]. split; [apply Forall_app; by repeat constructor|]. split; [done|].
    unfold base128 in *. rewrite foldl_app, Hs. simpl. unfold digit. rewrite H1. rewrite (Z.div_mod v 128) at 3 by lia. lia.
Qed.

Lemma spell_subid v : 0 ≤ v ≤ u64_max → subid (spell 10 v 0) ∧ base128 0 (spell 10 v 0) = v.
Proof.
  intros Hv. destruct (spell_runs 10 v 0) as (c & l & -> & Hc & Hl & Hs); [unfold u64_max in Hv; simpl; lia|lia|by left|].
  split; [|done]. by exists c, l.
Qed.

Lemma decode_encode arcs : arcs_ok arcs → decode (encode arcs) = Some arcs.
Proof.
  destruct arcs as [|a [|b arcs]]; [done..|]. intros (Ha & Hb & Hab & Hm & Hf). apply decode_spec.
  exists (map (λ v, spell 10 v 0) (40 * a + b :: arcs)). split; [done|]. split; [done|].
  assert (Forall (λ v, 0 ≤ v ≤ u64_max) (40 * a + b :: arcs)) as Hall by (constructor; [lia|done]).
  split; [|split].
  - apply Forall_map. eapply Forall_impl; [exact Hall|]. intros v Hv. by apply spell_subid.
  - apply Forall_map. eapply Forall_impl; [exact Hall|]. intros v Hv. unfold compose; cbv beta in *. rewrite (proj2 (spell_subid v Hv)). lia.
  - rewrite map_map, (map_ext_in _ id); [|intros v Hv; apply list_elem_of_In in Hv; rewrite Forall_forall in Hall; by apply spell_subid, Hall].
    rewrite map_id. cbn [arcs_of]. destruct (Z.ltb_spec (40 * a + b) 40); [|destruct (Z.ltb_spec (40 * a + b) 80)].
    all: f_equal; [lia|f_equal; lia].
Qed.

(** C34: The octets of an object identifier decode exactly where they are whole
    subidentifiers, one at least, of at most 64 bits each, and then to their
    values, the first of which is two arcs; and arcs are read back from the
    octets BER has for them. *)
Theorem gss_oid : (∀ e arcs, decode e = Some arcs ↔ ∃ gs, gs ≠ [] ∧ e = concat gs ∧ Forall subid gs ∧
    Forall (λ g, base128 0 g ≤ u64_max) gs ∧ arcs = arcs_of (map (base128 0) gs)) ∧
  (∀ arcs, arcs_ok arcs → decode (encode arcs) = Some arcs).
Proof. split; [exact decode_spec|exact decode_encode]. Qed.

Lemma gss_oid_witness : arcs_ok [1; 2; 840; 113554; 1; 2; 2] ∧ decode (encode [1; 2; 840; 113554; 1; 2; 2]) = Some [1; 2; 840; 113554; 1; 2; 2].
Proof.
  assert (arcs_ok [1; 2; 840; 113554; 1; 2; 2]) as H.
  { cbn [arcs_ok]. unfold u64_max. repeat split; try lia. repeat constructor; lia. }
  split; [exact H|]. exact (proj2 gss_oid _ H).
Defined.

Example well_known_oids : encode [1; 2; 840; 113554; 1; 2; 2] = KRB5 ∧ Oid_display Oid_krb5 = lit "1.2.840.113554.1.2.2" ∧
  Oid_display Oid_spnego = lit "1.3.6.1.5.5.2" ∧ Oid_display Oid_nt_export_name = lit "1.3.6.1.5.6.4" ∧
  Oid_display (mkOid [x2a; x86]) = lit "2a86" ∧ decode (replicate 9 xff ++ [x7f]) = None.
Proof. vm_compute. repeat split. Qed.

(** ** Status codes and the wrappers *)
Section GssOk.
Context {W : Type} {gss : Gss W} {spec : GssSpec W} {laws : GssLaws W}.
Implicit Types (w : W) (v : View).
Abbreviation App A := (St W GssExit A).

Lemma gss_run_sys {A B} (f : W → A * W) (g : A → App B) w a w' : f w = (a, w') → (sys f ≫= g) w = g a w'.
Proof. intros H. unfold sys, mbind, St_bind. by rewrite H. Qed.

Lemma run_pure {A B} (a : A) (f : A → App B) w : (mret a ≫= f) w = f a w.
Proof. done. Qed.
Lemma run_assoc {A B C} (m : App A) (f : A → App B) (g : B → App C) w : ((m ≫= f) ≫= g) w = (m ≫= λ a, f a ≫= g) w.
Proof. unfold mbind, St_bind. by destruct (m w) as [[] ?]. Qed.

(** A buffer that was filled reads as it was, and is released. *)
Lemma filled_slice out b v0 w : fills out b v0 (view w) → as_slice out w = (Ok b, w).
Proof.
  unfold fills, as_slice. intros Hf. destruct (Z.eqb_spec out.(value) 0) as [Hv|Hv]; simpl; [by destruct Hf as [_ ->]|].
  destruct Hf as (_ & Hn & Hw). destruct (Z.eqb_spec out.(length_) 0) as [Hz|Hz].
  - by destruct b; [|rewrite Hz in Hn; simpl in Hn; lia].
  - unfold deref. rewrite Hn, (read_law w _ b); [done|]. rewrite Hw. apply lookup_insert_eq.
Qed.

Lemma filled_released out b v0 w : fills out b v0 (view w) → view (gss_release_buffer out.(value) w) = v0.
Proof.
  unfold fills. intros Hf. destruct (Z.eqb_spec out.(value) 0) as [Hv|Hv].
  - rewrite release_law by auto. destruct Hf as [-> _]. by rewrite Hv.
  - destruct Hf as (Hn & _ & Hw). rewrite release_law by (left; rewrite Hw; simpl; rewrite lookup_insert_eq; by eexists).
    destruct (Z.eqb_spec out.(value) 0); [done|]. rewrite Hw. unfold set_bufs. simpl. rewrite delete_insert_id by done. by destruct v0.
Qed.

Lemma filled_drop out b v0 w : fills out b v0 (view w) → ∃ w', OwnedBuffer_drop out w = (Ok tt, w') ∧ view w' = v0 ∧
  (∀ n, proven w n → proven w' n).
Proof.
  intros Hf. unfold OwnedBuffer_drop. destruct (Z.eqb_spec out.(value) 0) as [Hv|Hv].
  - exists w. split; [done|]. unfold fills in Hf. rewrite Hv in Hf. by destruct Hf.
  - eexists. split; [reflexivity|]. split; [by eapply filled_released|]. intros n Hp. by apply proven_law.
Qed.

Lemma render_loop_runs fuel code kind mech text c w : (left_at code kind mech c < fuel)%nat →
  ∃ t w', render_loop fuel code kind mech text c w = (Ok t, w') ∧ view w' = view w.
Proof.
  revert text c w. induction fuel as [|fuel IH]; intros text c w Hf; [lia|]. cbn [render_loop].
  destruct (gss_display_status code kind mech c w) as [[[major c'] out] w1] eqn:E. rewrite (gss_run_sys _ _ _ _ _ E).
  pose proof (display_law _ _ _ _ _ _ _ _ _ E) as Hl. change GSS_S_COMPLETE with 0 in *. destruct (Z.eqb_spec major 0) as [->|Hm]; cbn [negb].
  2: { by exists text, w1. }
  destruct Hl as ((b & Hb) & Hc).
  assert (∃ t, (if negb (out.(value) =? 0) && (0 <? out.(length_)) then
      chunk ← deref (read_bytes out.(value) out.(length_));
      mret ((if decide (text = []) then [] else text ++ lit "; ") ++ from_utf8_lossy chunk)
    else mret text) w1 = (Ok t, w1)) as [t Ht].
  { pose proof (filled_slice out b (view w) w1 Hb) as Hs. unfold as_slice in Hs.
    destruct (Z.eqb_spec out.(value) 0); simpl; [by eexists|]. destruct (Z.ltb_spec 0 out.(length_)); [|by eexists].
    destruct (Z.eqb_spec out.(length_) 0) as [Hz|_]; [by rewrite Hz in *|]. simpl in Hs. unfold mbind, St_bind. rewrite Hs. by eexists. }
  rewrite (run_bind_ok _ _ _ _ _ Ht), run_modify. set (w2 := gss_release_buffer out.(value) w1).
  assert (view w2 = view w) as Hv by (by apply (filled_released out b)).
  destruct (Z.eqb_spec c' 0) as [Hz|Hz]; [by exists t, w2|].
  destruct (IH t c' w2) as (t' & w' & H1 & H2); [specialize (Hc Hz); lia|]. exists t', w'. by rewrite H2.
Qed.

Lemma render_runs code kind mech w : ∃ t w', render code kind mech w = (Ok t, w') ∧ view w' = view w.
Proof. unfold render. apply render_loop_runs. pose proof (first_law code kind mech). lia. Qed.

Lemma hex8_text n : hex8 n ≠ [].
Proof. done. Qed.

Lemma capture_runs major minor mech w : ∃ e w', capture major minor mech w = (Ok e, w') ∧ view w' = view w ∧
  e.(Gss.major) = major ∧ e.(Gss.minor) = minor ∧ e.(message) ≠ [].
Proof.
  unfold capture. destruct (render_runs major GSS_C_GSS_CODE None w) as (t & w1 & E1 & V1). rewrite (run_bind_ok _ _ _ _ _ E1).
  destruct (Z.eqb_spec minor 0) as [Hz|Hz]; cbn [negb].
  - do 2 eexists. split; [reflexivity|]. split; [done|]. repeat split; try done. simpl. by case_decide.
  - destruct (render_runs minor GSS_C_MECH_CODE mech w1) as (t2 & w2 & E2 & V2). rewrite run_assoc, (run_bind_ok _ _ _ _ _ E2).
    do 2 eexists. split; [reflexivity|]. split; [by rewrite V2|]. repeat split; try done. simpl. by case_decide.
Qed.

(** An error keeps its codes; without one the supplementary bits are left. *)
Lemma check_runs major minor mech w : ∃ w', view w' = view w ∧
  if decide (good major) then check major minor mech w = (Ok (Z.land major GSS_C_SUPPLEMENTARY_MASK), w) ∧ w' = w
  else ∃ e, check major minor mech w = (Err (Fail e), w') ∧ e.(Gss.major) = major ∧ e.(Gss.minor) = minor ∧ e.(message) ≠ [].
Proof.
  unfold check. destruct (decide (good major)) as [Hg|Hg]; unfold good in Hg.
  - exists w. rewrite Hg. done.
  - destruct (Z.eqb_spec (Z.land major ERROR_BITS) 0) as [Hz|_]; [done|]. cbn [negb].
    destruct (capture_runs major minor mech w) as (e & w' & E & V & H). exists w'. split; [done|].
    exists e. by rewrite (run_bind_ok _ _ _ _ _ E).
Qed.

(** A result as the codes of its call have it. *)
Definition ends {A} (r : Outcome A GssExit) (major minor : Z) (a : A) : Prop :=
  if decide (good major) then r = Ok a
  else ∃ e, r = Err (Fail e) ∧ e.(Gss.major) = major ∧ e.(Gss.minor) = minor ∧ e.(message) ≠ [].

Lemma check_then {A} major minor mech (m : App A) a w : m w = (Ok a, w) →
  ∃ r w', (check major minor mech;; m) w = (r, w') ∧ view w' = view w ∧ ends r major minor a ∧ (good major → w' = w).
Proof.
  intros Hm. unfold ends. destruct (check_runs major minor mech w) as (w' & V & H). destruct (decide (good major)) as [Hg|Hg].
  - destruct H as [H ->]. exists (Ok a), w. by rewrite (run_bind_ok _ _ _ _ _ H).
  - destruct H as (e & H & He). exists (Err (Fail e)), w'. rewrite (run_bind_err _ _ _ _ _ H). split; [done|]. split; [done|]. split; [|done].
    by exists e.
Qed.

(** Reading a filled buffer, after the check and before the drop. *)
Lemma owned_runs {A} major minor mech out b (read : App A) a w0 w : fills out b (view w0) (view w) →
  (as_slice out w = (Ok b, w) → read w = (Ok a, w)) →
  ∃ r w', finally (check major minor mech;; read) (OwnedBuffer_drop out) w = (r, w') ∧ view w' = view w0 ∧ ends r major minor a.
Proof.
  intros Hf Hr. destruct (check_then major minor mech read a w) as (r & w1 & H & V & He & _); [by apply Hr, (filled_slice _ _ (view w0))|].
  rewrite <- V in Hf. destruct (filled_drop out b (view w0) w1 Hf) as (w2 & Hd & V2 & _). exists r, w2. split; [|done].
  destruct r as [x|x|x]; [by apply (run_finally_ok _ _ _ _ _ _ H)|by apply (run_finally_err _ _ _ _ _ _ H)|].
  exfalso. unfold ends in He. case_decide; [done|]. by destruct He as (? & ? & _).
Qed.

Lemma filled_runs {A} f mech (read : gss_buffer_desc → App A) a major minor out b w w1 :
  f w = (major, minor, out, w1) → fills out b (view w) (view w1) → (as_slice out w1 = (Ok b, w1) → read out w1 = (Ok a, w1)) →
  ∃ r w', filled f mech read w = (r, w') ∧ view w' = view w ∧ ends r major minor a.
Proof. intros Hf Hb Hr. unfold filled. rewrite (gss_run_sys _ _ _ _ _ Hf). by apply (owned_runs _ _ _ _ b). Qed.

Lemma caught_ok {A} (m : App A) a w w' : m w = (Ok a, w') → caught m w = (Ok (Ok a), w').
Proof. intros H. unfold caught. by rewrite H. Qed.
Lemma caught_err {A} (m : App A) e w w' : m w = (Err (Fail e), w') → caught m w = (Ok (Err e), w').
Proof. intros H. unfold caught. by rewrite H. Qed.

(** ** An acceptor *)
Fixpoint feed (self : State) (cr : AcceptorCred) (tokens : list bytes) : App (list (Outcome Step Error) * State) :=
  match tokens with
  | [] => mret ([], self)
  | token :: tokens =>
      '(r, self) ← step self cr token;
      '(rs, self) ← feed self cr tokens;
      mret (r :: rs, self)
  end.
Definition is_complete (r : Outcome Step Error) : bool := match r with Ok (Complete _) => true | _ => false end.

















(** ** The calls in place *)

(** The same result from two calls, [same] relating what they give. *)
Definition agree {A B} (same : A → B → Prop) (r : Outcome A Error) (r' : Outcome B GssExit) : Prop :=
  match r, r' with
  | Ok a, Ok b => same a b
  | Err e, Err (Fail e') => e.(Gss.major) = e'.(Gss.major) ∧ e.(Gss.minor) = e'.(Gss.minor)
  | _, _ => False
  end.

Lemma ends_then {A} r major minor (a b : A) : ends r major minor a → (good major → a = b) → ends r major minor b.
Proof. unfold ends. case_decide as Hg; [|done]. intros -> <-; done. Qed.

Lemma wrap_runs self b m w : self.(raw) ∈ (view w).(ctxs) → ∃ r w', wrap self b m w = (r, w') ∧ view w' = view w ∧
  let s := sealing w self.(raw) b m in ends r s.1.1 s.1.2 (token_of s.2, negb (s.2.(s_conf) =? 0)).
Proof.
  intros Hc. unfold wrap. destruct (gss_wrap self.(raw) b GSS_C_QOP_DEFAULT m w) as [[[[major minor] sl] out] w1] eqn:E.
  destruct (wrap_law _ _ _ _ _ _ _ _ _ Hc E) as (t & Hf & Hs & Ht). rewrite (gss_run_sys _ _ _ _ _ E).
  destruct (owned_runs major minor self.(ctx_mech) out t (token ← to_vec out; mret (token, negb (sl =? 0))) (t, negb (sl =? 0)) w w1 Hf)
    as (r & w2 & R & V & He); [intros Hr; unfold to_vec; by rewrite (run_bind_ok _ _ _ _ _ Hr)|].
  exists r, w2. split; [exact R|]. split; [done|]. cbv zeta. rewrite Hs. eapply ends_then; [exact He|].
  intros Hg. by destruct (Ht Hg) as [-> ->].
Qed.

Lemma unwrap_runs self t w : self.(raw) ∈ (view w).(ctxs) → ∃ r w', unwrap self t w = (r, w') ∧ view w' = view w ∧
  let o := opening w self.(raw) t in ends r o.1.1 o.1.2 (mkUnwrapped o.2.1.1 (negb (o.2.1.2 =? 0)) o.2.2).
Proof.
  intros Hc. unfold unwrap. destruct (gss_unwrap self.(raw) t w) as [[[[[major minor] out] sl] q] w1] eqn:E.
  destruct (unwrap_law _ _ _ _ _ _ _ _ _ Hc E) as (m & Hf & Hs & Ht). rewrite (gss_run_sys _ _ _ _ _ E).
  destruct (owned_runs major minor self.(ctx_mech) out m (message ← to_vec out; mret (mkUnwrapped message (negb (sl =? 0)) q))
    (mkUnwrapped m (negb (sl =? 0)) q) w w1 Hf) as (r & w2 & R & V & He); [intros Hr; unfold to_vec; by rewrite (run_bind_ok _ _ _ _ _ Hr)|].
  exists r, w2. split; [exact R|]. split; [done|]. cbv zeta. rewrite Hs. eapply ends_then; [exact He|].
  intros Hg. by rewrite (Ht Hg).
Qed.

Lemma get_mic_runs self m w : self.(raw) ∈ (view w).(ctxs) → ∃ r w', get_mic self m w = (r, w') ∧ view w' = view w ∧
  let s := signing w self.(raw) m in ends r s.1.1 s.1.2 s.2.
Proof.
  intros Hc. unfold get_mic. destruct (gss_get_mic self.(raw) GSS_C_QOP_DEFAULT m w) as [[[major minor] out] w1] eqn:E.
  destruct (mic_law _ _ _ _ _ _ _ Hc E) as (b & Hf & Hs). rewrite Hs. simpl. by apply (filled_runs _ _ _ _ _ _ _ b _ w1 E).
Qed.

(** What [caught] makes of a check. *)
Lemma caught_check major minor mech w : ∃ r w', caught (check major minor mech) w = (Ok r, w') ∧ view w' = view w ∧
  if decide (good major) then w' = w ∧ ∃ n, r = Ok n else ∃ e, r = Err e ∧ e.(Gss.major) = major ∧ e.(Gss.minor) = minor.
Proof.
  destruct (check_runs major minor mech w) as (w' & V & H). destruct (decide (good major)).
  - destruct H as [H ->]. do 2 eexists. split; [by apply caught_ok|]. eauto.
  - destruct H as (e & H & H1 & H2 & _). do 2 eexists. split; [by apply caught_err|]. eauto.
Qed.

Lemma agree_ends {A B} (same : A → B → Prop) r r' major minor b : ends r' major minor b →
  (if decide (good major) then ∃ a, r = Ok a ∧ same a b else ∃ e, r = Err e ∧ e.(Gss.major) = major ∧ e.(Gss.minor) = minor) → agree same r r'.
Proof.
  unfold ends. case_decide; [intros -> (a & -> & Hsame)|intros (e & -> & H1 & H2 & _) (e' & -> & H3 & H4)]; [done|]. simpl. split; congruence.
Qed.

(** Sealing in place, with the lengths that were asked for. *)
Lemma wrap_in_place_runs self b L at_ hd m tl w w1 : self.(raw) ∈ (view w).(ctxs) → wrap_lengths self b (len m) w = (Ok L, w1) →
  len hd = L.(header) → len tl = L.(padding) + L.(trailer) → ∃ r t r' w2 w3,
  wrap_in_place self b L at_ (hd ++ m ++ tl) w1 = (Ok (r, t), w2) ∧ wrap self b m w1 = (r', w3) ∧ view w2 = view w ∧ view w3 = view w ∧
  len t = len hd + len m + len tl ∧ agree (λ conf out, out = (t, conf)) r r'.
Proof.
  intros Hc HL Hh Ht. unfold wrap_lengths in HL.
  destruct (gss_wrap_iov_length self.(raw) b GSS_C_QOP_DEFAULT [mkIov GSS_IOV_BUFFER_TYPE_HEADER 0 Null; mkIov GSS_IOV_BUFFER_TYPE_DATA (len m) Null;
      mkIov GSS_IOV_BUFFER_TYPE_PADDING 0 Null; mkIov GSS_IOV_BUFFER_TYPE_TRAILER 0 Null] w) as [[[[major minor] sl] l] w0] eqn:E.
  unfold iov in HL. rewrite (gss_run_sys _ _ _ _ _ E) in HL.
  destruct (wrap_length_law _ _ _ _ _ _ _ _ _ Hc E) as (Q & Hg). destruct (check_runs major minor self.(ctx_mech) w0) as (wc & Vc & Hk).
  destruct (decide (good major)) as [G|G]; [|destruct Hk as (e & Hk & _); by rewrite (run_bind_err _ _ _ _ _ Hk) in HL].
  destruct Hk as [Hk ->]. rewrite (run_bind_ok _ _ _ _ _ Hk) in HL. specialize (Hg G).
  destruct (around w self.(raw) b (len m)) as [[h p] t0] eqn:Ha. destruct Hg as (-> & H1 & H2 & H3 & H4).
  rewrite run_ret in HL. injection HL as <- <-. simpl in Hh, Ht. clear E Hk G Vc.
  destruct (wrap_runs self b m w0) as (r' & w3 & R3 & V3 & He); [by rewrite (q_view _ _ _ Q)|]. cbv zeta in He.
  (* the parts of the token *)
  assert (∃ pd tr, tl = pd ++ tr ∧ len pd = p ∧ len tr = t0) as (pd & tr & -> & <- & <-).
  { exists (take (Z.to_nat p) tl), (drop (Z.to_nat p) tl). rewrite take_drop, length_take, length_drop. split; [done|]. lia. }
  subst h.
  destruct (gss_wrap_iov self.(raw) b GSS_C_QOP_DEFAULT [mkIov GSS_IOV_BUFFER_TYPE_HEADER (len hd) (Slice at_ hd);
      mkIov GSS_IOV_BUFFER_TYPE_DATA (len m) (Slice (at_ + len hd) m); mkIov GSS_IOV_BUFFER_TYPE_PADDING (len pd) (Slice (at_ + len hd + len m) pd);
      mkIov GSS_IOV_BUFFER_TYPE_TRAILER (len tr) (Slice (at_ + len hd + len m + len pd) tr)] w0) as [[[[major' minor'] sl'] l'] w4] eqn:E4.
  destruct (wrap_iov_law _ _ _ _ _ _ _ _ _ _ _ _ _ _ _ _ ltac:(by rewrite (q_view _ _ _ Q)) ltac:(by rewrite (q_around _ _ _ Q), Ha) E4)
    as (V4 & Hs & h' & m' & p' & t' & Hl' & L1 & L2 & L3 & L4 & Hg').
  destruct (caught_check major' minor' self.(ctx_mech) w4) as (rc & w5 & K & V5 & Hrc).
  exists (match rc with Ok _ => Ok (negb (sl' =? 0)) | Err e => Err e | Stop s => Stop s end), (h' ++ m' ++ p' ++ t'), r', w5, w3.
  split; [|split; [exact R3|split; [by rewrite V5, V4, (q_view _ _ _ Q)|split; [by rewrite V3, (q_view _ _ _ Q)|split]]]].
  - unfold wrap_in_place, add_usize. simpl foldr. rewrite !Z.add_0_r. rewrite (proj2 (Z.leb_le _ _)) by lia.
    rewrite run_pure. cbn [header padding trailer].
    rewrite (take_app_len hd), (drop_app_len hd).
    destruct (Z.ltb_spec (len (hd ++ m ++ pd ++ tr)) (len hd + (len pd + len tr))) as [Hlt|_]; [len_lia|].
    replace (len (hd ++ m ++ pd ++ tr) - (len hd + (len pd + len tr))) with (len m) by len_lia.
    cbv zeta. rewrite (take_app_len m), (drop_app_len m), (take_app_len pd), (drop_app_len pd). unfold iov. rewrite (gss_run_sys _ _ _ _ _ E4).
    assert (∀ i x, map contents l' !! i = Some x → contents (iov_at l' i) = x) as Hat.
    { intros i x Hi. rewrite list_lookup_fmap in Hi. apply fmap_Some in Hi as (d & Hd & ->). unfold iov_at. by rewrite (nth_lookup_Some _ _ _ _ Hd). }
    rewrite Hl' in Hat. rewrite (Hat 0%nat h'), (Hat 1%nat m'), (Hat 2%nat p'), (Hat 3%nat t') by done.
    rewrite (run_bind_ok _ _ _ _ _ K). destruct (decide (good major')); [destruct Hrc as [-> [n ->]]|destruct Hrc as (e & -> & _)]; done.
  - rewrite !length_app. lia.
  - rewrite Hs in He. simpl in He. eapply agree_ends; [exact He|].
    destruct (decide (good major')) as [G|G]; [destruct Hrc as [-> [n ->]]|destruct Hrc as (e & -> & Hrc); by exists e].
    eexists. split; [done|]. by rewrite <- (Hg' G).
Qed.

(** The bytes of a range. *)
Definition part (l : bytes) (from to : Z) : bytes := take (Z.to_nat (to - from)) (drop (Z.to_nat from) l).
Definition opened_in (t : bytes) (o : Opened) (u : Unwrapped) : Prop :=
  0 ≤ o.(o_start) ≤ o.(o_end) ∧ o.(o_end) ≤ len t ∧ part t o.(o_start) o.(o_end) = u.(u_message) ∧
  o.(o_confidential) = u.(u_confidential) ∧ o.(o_qop) = u.(u_qop).

Lemma put_back v b m : v.(bufs) !! b = None → set_bufs (delete b (<[b := m]> v.(bufs))) (set_bufs (<[b := m]> v.(bufs)) v) = v.
Proof. intros H. unfold set_bufs. simpl. rewrite delete_insert_id by done. by destruct v. Qed.

(** Opening in place: the same message, wherever the library leaves it; only a
    message longer than its token is refused on top. *)
Lemma unwrap_in_place_runs self a t w : self.(raw) ∈ (view w).(ctxs) → 0 ≤ a → a + len t ≤ usize_max → ∃ r t' r' w2 w3,
  unwrap_in_place self a t w = (Ok (r, t'), w2) ∧ unwrap self t w = (r', w3) ∧ view w2 = view w ∧ view w3 = view w ∧ len t' = len t ∧
  (agree (opened_in t') r r' ∨ ∃ u, r' = Ok u ∧ len t < len u.(u_message) ∧ r = Err (too_long (len u.(u_message)) (len t))).
Proof.
  intros Hc Ha Hat. destruct (unwrap_runs self t w Hc) as (r' & w3 & R3 & V3 & He). cbv zeta in He.
  destruct (gss_unwrap_iov self.(raw) [mkIov GSS_IOV_BUFFER_TYPE_STREAM (len t) (Slice a t); mkIov GSS_IOV_BUFFER_TYPE_DATA 0 Null] w)
    as [[[[[major minor] sl] q] l] w1] eqn:E.
  destruct (unwrap_iov_law _ _ _ _ _ _ _ _ _ _ Hc Ha Hat E) as (Ho & t' & d & -> & Lt & Hg & Hb).
  rewrite Ho in He. simpl in He. destruct (caught_check major minor self.(ctx_mech) w1) as (rc & w2 & K & V2 & Hrc).
  unfold unwrap_in_place, iov. rewrite (gss_run_sys _ _ _ _ _ E). cbn [iov_at nth contents iov_value]. rewrite (run_bind_ok _ _ _ _ _ K).
  destruct (decide (good major)) as [G|G].
  2: { destruct Hrc as (e & -> & Hrc). exists (Err e), t', r', w2, w3. split; [done|]. split; [done|]. split; [by rewrite V2, Hb|]. split; [done|].
       split; [done|]. left. eapply agree_ends; [exact He|]. destruct (decide (good major)); [done|]. by exists e. }
  destruct Hrc as [-> [n ->]]. clear K V2. destruct (Hg G) as (m & Hm & Hn & Hd). rewrite Hm in He. simpl in He.
  unfold ends in He. destruct (decide (good major)) as [_|]; [|done]. subst r'. rewrite Hn.
  destruct (decide (Z.land d.(type_) GSS_IOV_BUFFER_FLAG_ALLOCATED = 0)) as [Hz|Hz].
  - destruct Hd as (Vw & i & Hv & Hi1 & Hi2 & Hpart). rewrite Hz, Hv. cbn [negb Z.eqb address].
    unfold checked_sub, checked_add. rewrite (proj2 (Z.leb_le a (a + i))) by lia. cbn [mbind option_bind].
    replace (a + i - a) with i by lia. rewrite (proj2 (Z.leb_le (i + len m) usize_max)) by lia. cbn [mbind option_bind].
    rewrite (proj2 (Z.leb_le (i + len m) (len t'))) by lia.
    do 2 eexists. exists (Ok (mkUnwrapped m (negb (sl =? 0)) q)), w1, w3. split; [reflexivity|]. split; [done|]. split; [done|]. split; [done|].
    split; [done|]. left. split; [simpl; lia|]. split; [simpl; lia|]. split; [|done]. unfold part. simpl.
    by replace (i + len m - i) with (len m) by lia.
  - destruct Hd as (b & Hv & Hb0 & Hfb & Vw). destruct (Z.eqb_spec (Z.land d.(type_) GSS_IOV_BUFFER_FLAG_ALLOCATED) 0) as [|_]; [done|].
    rewrite Hv. cbn [negb address]. assert (read_bytes b (len m) w1 = Some m) as Hread.
    { apply read_law. rewrite Vw. simpl. apply lookup_insert_eq. }
    unfold deref at 1. unfold mbind at 1, St_bind at 1. rewrite Hread, run_modify.
    set (l := [mkIov GSS_IOV_BUFFER_TYPE_STREAM (len t) (Slice a t'); d]). set (w4 := gss_release_iov_buffer l w1).
    assert (view w4 = view w) as V4.
    { unfold w4. rewrite release_iov_law. simpl. rewrite (decide_False (P:=Z.land d.(type_) _ = 0)) by done.
      change (decide (Z.land GSS_IOV_BUFFER_TYPE_STREAM GSS_IOV_BUFFER_FLAG_ALLOCATED = 0)) with (left (eq_refl 0) : Decision (0 = 0)).
      cbn. rewrite Hv, Vw. cbn [address bufs set_bufs]. by apply put_back. }
    destruct (Z.eqb_spec (Z.min (len m) (len t')) (len m)) as [Hmin|Hmin]; cbn [negb].
    + do 2 eexists. exists (Ok (mkUnwrapped m (negb (sl =? 0)) q)), w4, w3. split; [reflexivity|]. split; [done|]. split; [done|]. split; [done|].
      assert (len m ≤ len t) by lia. split; [len_lia|]. left. split; [simpl; lia|]. split; [simpl; len_lia|]. split; [|done].
      unfold part. simpl. rewrite drop_0, Z.sub_0_r, Hmin, (firstn_all2 m) by lia. apply take_app_len.
    + do 2 eexists. exists (Ok (mkUnwrapped m (negb (sl =? 0)) q)), w4, w3. split; [reflexivity|]. split; [done|]. split; [done|]. split; [done|].
      split; [len_lia|]. right. eexists. split; [done|]. simpl. split; [lia|]. do 2 f_equal. len_lia.
Qed.

(** A checksum appended where it will stay. *)
Definition appended self m (out : bytes) w (r : Outcome unit Error) (out' : bytes) : Prop :=
  match r with
  | Ok _ => ∃ mic w2, get_mic self m w = (Ok mic, w2) ∧ out' = out ++ mic
  | Err e => out' = out ∧ ¬ good e.(Gss.major)
  | Stop _ => False
  end.

(** What the second call of the two says, after a query that left things alone. *)
Lemma mic_written self m am at_ t k0 n w w0 w1 major minor l pre : self.(raw) ∈ (view w).(ctxs) → quiet self.(raw) w w0 →
  (∀ m0, len m0 = len m → good (signing w self.(raw) m0).1.1 → len (signing w self.(raw) m0).2 ≤ len t) → k0 = len t → n = len m →
  gss_get_mic_iov self.(raw) GSS_C_QOP_DEFAULT [mkIov GSS_IOV_BUFFER_TYPE_DATA n (Slice am m); mkIov GSS_IOV_BUFFER_TYPE_MIC_TOKEN k0 (Slice at_ t)] w0 =
    (major, minor, l, w1) →
  ∃ k t' r w2, l = [mkIov GSS_IOV_BUFFER_TYPE_DATA n (Slice am m); mkIov GSS_IOV_BUFFER_TYPE_MIC_TOKEN k (Slice at_ t')] ∧
    caught (check major minor self.(ctx_mech)) w1 = (Ok r, w2) ∧ view w2 = view w ∧
    match r with
    | Ok _ => appended self m pre w (Ok tt) (truncate (pre ++ t') (len pre + k))
    | Err e => truncate (pre ++ t') (len pre) = pre ∧ ¬ good e.(Gss.major)
    | Stop _ => False
    end.
Proof.
  intros Hc Q Hk -> -> E. destruct (mic_iov_law _ _ _ _ _ _ _ _ _ _ ltac:(by rewrite (q_view _ _ _ Q)) ltac:(rewrite (q_signing _ _ _ Q); by apply Hk) E)
    as (V1 & Hs & k & t' & -> & Lt & Hg). rewrite (q_signing _ _ _ Q) in Hs, Hg.
  destruct (caught_check major minor self.(ctx_mech) w1) as (r & w2 & K & V2 & Hr). exists k, t', r, w2.
  split; [done|]. split; [exact K|]. split; [by rewrite V2, V1, (q_view _ _ _ Q)|].
  destruct (decide (good major)) as [G|G].
  - destruct Hr as [-> [n ->]]. destruct (Hg G) as [Hl Ht]. destruct (get_mic_runs self m w Hc) as (r' & w3 & R & _ & He). cbv zeta in He.
    rewrite Hs in He. unfold ends in He. simpl in He. rewrite decide_True in He by done. subst r'. eexists _, w3. split; [exact R|].
    unfold truncate. rewrite <- Ht. rewrite Z2Nat.inj_add, Nat2Z.id, take_app_add by lia. done.
  - destruct Hr as (e & -> & He & _). split; [apply take_app_len|]. by rewrite He.
Qed.

Lemma get_mic_into_runs self am ao m out w : self.(raw) ∈ (view w).(ctxs) → ∃ r out' w',
  get_mic_into self am ao m out w = (Ok (r, out'), w') ∧ view w' = view w ∧ appended self m out w r out'.
Proof.
  intros Hc. unfold get_mic_into, iov.
  destruct (gss_get_mic_iov_length self.(raw) GSS_C_QOP_DEFAULT
    [mkIov GSS_IOV_BUFFER_TYPE_DATA (len m) (Slice am m); mkIov GSS_IOV_BUFFER_TYPE_MIC_TOKEN 0 Null] w) as [[[major minor] l] w1] eqn:E.
  rewrite (gss_run_sys _ _ _ _ _ E). destruct (mic_length_law _ _ _ _ _ _ _ _ Hc E) as (Q & Hg).
  destruct (caught_check major minor self.(ctx_mech) w1) as (r & w2 & K & V2 & Hr). rewrite (run_bind_ok _ _ _ _ _ K).
  destruct (decide (good major)) as [G|G].
  2: { destruct Hr as (e & -> & He & _). do 3 eexists. split; [reflexivity|]. split; [by rewrite V2, (q_view _ _ _ Q)|]. split; [done|by rewrite He]. }
  destruct Hr as [-> [n ->]]. destruct (Hg G) as (k & -> & Hk0 & Hk). cbn [iov_at nth iov_length type_]. clear K V2.
  set (t := replicate (Z.to_nat k) x00). assert (k = len t) as Ht by (unfold t; rewrite length_replicate; lia).
  destruct (gss_get_mic_iov self.(raw) GSS_C_QOP_DEFAULT [mkIov GSS_IOV_BUFFER_TYPE_DATA (len m) (Slice am m);
    mkIov GSS_IOV_BUFFER_TYPE_MIC_TOKEN k (Slice (ao + len out) t)] w1) as [[[major' minor'] l'] w3] eqn:E3.
  rewrite (gss_run_sys _ _ _ _ _ E3).
  destruct (mic_written self m am (ao + len out) t k (len m) w w1 w3 major' minor' l' out Hc Q) as (k' & t' & r & w4 & -> & K & V4 & Hr); [|done|done|exact E3|].
  { intros m0 Hm0 Hg0. rewrite <- Ht. by apply Hk. }
  cbn [iov_at nth contents iov_value iov_length]. rewrite (run_bind_ok _ _ _ _ _ K).
  destruct r as [x|e|]; [| |done]; do 3 eexists; (split; [reflexivity|]); (split; [exact V4|]); exact Hr.
Qed.

Lemma get_mic_within_runs self ao out from to w : self.(raw) ∈ (view w).(ctxs) → 0 ≤ from ≤ to → to ≤ len out → ∃ r out' w',
  get_mic_within self ao out from to w = (Ok (r, out'), w') ∧ view w' = view w ∧ appended self (part out from to) out w r out'.
Proof.
  intros Hc Hf Hto. unfold get_mic_within, iov, slice. rewrite decide_True by lia. fold (part out from to). set (m := part out from to).
  unfold lift at 1. unfold mbind at 1, St_bind at 1.
  destruct (gss_get_mic_iov_length self.(raw) GSS_C_QOP_DEFAULT
    [mkIov GSS_IOV_BUFFER_TYPE_DATA (len m) Null; mkIov GSS_IOV_BUFFER_TYPE_MIC_TOKEN 0 Null] w) as [[[major minor] l] w1] eqn:E.
  rewrite (gss_run_sys _ _ _ _ _ E). destruct (mic_length_law _ _ _ _ _ _ _ _ Hc E) as (Q & Hg).
  destruct (caught_check major minor self.(ctx_mech) w1) as (r & w2 & K & V2 & Hr). rewrite (run_bind_ok _ _ _ _ _ K).
  destruct (decide (good major)) as [G|G].
  2: { destruct Hr as (e & -> & He & _). do 3 eexists. split; [reflexivity|]. split; [by rewrite V2, (q_view _ _ _ Q)|]. split; [done|by rewrite He]. }
  destruct Hr as [-> [n ->]]. destruct (Hg G) as (k & -> & Hk0 & Hk). cbn [iov_at nth iov_length type_]. clear K V2.
  set (t := replicate (Z.to_nat k) x00). assert (k = len t) as Ht by (unfold t; rewrite length_replicate; lia).
  destruct (gss_get_mic_iov self.(raw) GSS_C_QOP_DEFAULT [mkIov GSS_IOV_BUFFER_TYPE_DATA (len m) (Slice (ao + from) m);
    mkIov GSS_IOV_BUFFER_TYPE_MIC_TOKEN k (Slice (ao + len out) t)] w1) as [[[major' minor'] l'] w3] eqn:E3.
  rewrite (gss_run_sys _ _ _ _ _ E3).
  destruct (mic_written self m (ao + from) (ao + len out) t k (len m) w w1 w3 major' minor' l' out Hc Q) as (k' & t' & r & w4 & -> & K & V4 & Hr); [|done|done|exact E3|].
  { intros m0 Hm0 Hg0. rewrite <- Ht. by apply Hk. }
  cbn [iov_at nth contents iov_value iov_length]. rewrite (run_bind_ok _ _ _ _ _ K).
  replace (take (Z.to_nat from) out ++ m ++ drop (Z.to_nat to) out ++ t') with (out ++ t').
  2: { unfold m, part. rewrite !app_assoc. f_equal. rewrite <- (take_drop (Z.to_nat from) out) at 1. rewrite <- app_assoc. f_equal.
       rewrite <- (take_drop (Z.to_nat (to - from)) (drop (Z.to_nat from) out)) at 1. f_equal. rewrite drop_drop. f_equal. lia. }
  destruct r as [x|e|]; [| |done]; do 3 eexists; (split; [reflexivity|]); (split; [exact V4|]); exact Hr.
Qed.

(** C36: The calls in place do what the copying calls do.  A message sealed where
    it lies, under the lengths that were asked for it, becomes the token wrapping
    gives, and a token without room is refused before any call; a token opened
    where it lies holds the message unwrapping gives at the range returned, moved
    there if the library copied it; a checksum is appended as signing gives it,
    for a message elsewhere or within the same buffer, and on an error the buffer
    is as it was.  Errors carry the same codes and nothing is left to release. *)
Theorem gss_in_place self w : self.(raw) ∈ (view w).(ctxs) →
  (∀ b L at_ hd m tl w1, wrap_lengths self b (len m) w = (Ok L, w1) → len hd = L.(header) → len tl = L.(padding) + L.(trailer) →
    ∃ r t r' w2 w3, wrap_in_place self b L at_ (hd ++ m ++ tl) w1 = (Ok (r, t), w2) ∧ wrap self b m w1 = (r', w3) ∧
      view w2 = view w ∧ view w3 = view w ∧ len t = len hd + len m + len tl ∧ agree (λ conf out, out = (t, conf)) r r') ∧
  (∀ b L at_ token, let around := L.(header) + L.(padding) + L.(trailer) in len token < around ≤ usize_max →
    wrap_in_place self b L at_ token w = (Ok (Err (too_short (len token) around), token), w)) ∧
  (∀ a t, 0 ≤ a → a + len t ≤ usize_max → ∃ r t' r' w2 w3,
    unwrap_in_place self a t w = (Ok (r, t'), w2) ∧ unwrap self t w = (r', w3) ∧ view w2 = view w ∧ view w3 = view w ∧ len t' = len t ∧
    (agree (opened_in t') r r' ∨ ∃ u, r' = Ok u ∧ len t < len u.(u_message) ∧ r = Err (too_long (len u.(u_message)) (len t)))) ∧
  (∀ am ao m out, ∃ r out' w', get_mic_into self am ao m out w = (Ok (r, out'), w') ∧ view w' = view w ∧ appended self m out w r out') ∧
  (∀ ao out from to, if decide (0 ≤ from ∧ from ≤ to ∧ to ≤ len out) then
      ∃ r out' w', get_mic_within self ao out from to w = (Ok (r, out'), w') ∧ view w' = view w ∧ appended self (part out from to) out w r out'
    else get_mic_within self ao out from to w = (Stop Panicked, w)).
Proof.
  intros Hc. split; [|split; [|split; [|split]]].
  - intros. by eapply wrap_in_place_runs.
  - intros b L at_ token around [H1 H2]. unfold wrap_in_place, add_usize. simpl foldr. rewrite Z.add_0_r.
    replace (L.(header) + (L.(padding) + L.(trailer))) with around by (unfold around; lia).
    rewrite (proj2 (Z.leb_le around usize_max)) by done. rewrite run_pure. by rewrite (proj2 (Z.ltb_lt (len token) around)).
  - intros. by apply unwrap_in_place_runs.
  - intros. by apply get_mic_into_runs.
  - intros ao out from to. case_decide as H1; [apply get_mic_within_runs; [done|lia..]|].
    unfold get_mic_within, slice. by rewrite decide_False.
Qed.

(** ** Names and credentials *)

(** A call that makes an object, and the check after it: the object is new and
    live, or there is an error and nothing is. *)
Definition makes (r : Outcome Z GssExit) (s s' : gset Z) : Prop :=
  match r with
  | Ok n => n ≠ 0 ∧ (n ∉ s) ∧ s' = s ∪ {[n]}
  | Err (Fail _) => s' = s
  | _ => False
  end.

Lemma made_checked major minor mech n (s s' : gset Z) w : made n s s' → (if decide (good major) then n ≠ 0 else n = 0) →
  ∃ r w', (check major minor mech;; mret n) w = (r, w') ∧ view w' = view w ∧ makes r s s'.
Proof.
  intros Hm Hn. destruct (check_then major minor mech (mret n) n w eq_refl) as (r & w' & R & V & He & _). exists r, w'. split; [done|]. split; [done|].
  unfold ends in He. unfold made in Hm. destruct (decide (good major)).
  - subst r. destruct (Z.eqb_spec n 0); [done|]. by destruct Hm.
  - destruct He as (e & -> & _). subst n. done.
Qed.

Theorem gss_objects w : (∀ t o, ∃ r w' s, import t o w = (r, w') ∧ makes r (view w).(names) s ∧ view w' = set_names s (view w)) ∧
  (∀ n o, n ∈ (view w).(names) → ∃ r w' s, canonicalize n o w = (r, w') ∧ makes r (view w).(names) s ∧ view w' = set_names s (view w)) ∧
  (∀ n, default 0 n = 0 ∨ default 0 n ∈ (view w).(names) → ∃ r w' s, acquire n w = (r, w') ∧ makes r (view w).(creds) s ∧ view w' = set_creds s (view w)) ∧
  (∀ n k, default 0 n = 0 ∨ default 0 n ∈ (view w).(names) → ∃ r w' s, from_keytab k n w = (r, w') ∧ makes r (view w).(creds) s ∧
    view w' = set_creds s (view w) ∧ (x00 ∈ k → w' = w)) ∧
  (∀ n m, n ∈ (view w).(names) → ∃ r1 w1 r2 w2 r3 w3, display n w = (r1, w1) ∧ export n w = (r2, w2) ∧
    localname n m w = (r3, w3) ∧ view w1 = view w ∧ view w2 = view w ∧ view w3 = view w).
Proof.
  split; [|split; [|split; [|split]]].
  - intros t o. unfold import. destruct (gss_import_name t o w) as [[[major minor] n] w1] eqn:E. rewrite (gss_run_sys _ _ _ _ _ E).
    destruct (import_law _ _ _ _ _ _ _ E) as (s & Hm & V & Hn). destruct (made_checked major minor None n _ _ w1 Hm Hn) as (r & w2 & R & V2 & H2).
    exists r, w2, s. by rewrite V2.
  - intros n o Hl. unfold canonicalize. destruct (gss_canonicalize_name n o w) as [[[major minor] n'] w1] eqn:E. rewrite (gss_run_sys _ _ _ _ _ E).
    destruct (canonicalize_law _ _ _ _ _ _ _ Hl E) as (s & Hm & V & Hn). destruct (made_checked major minor (Some o) n' _ _ w1 Hm Hn) as (r & w2 & R & V2 & H2).
    exists r, w2, s. by rewrite V2.
  - intros n Hl. unfold acquire, acquire_with. destruct (gss_acquire_cred (default 0 n) GSS_C_ACCEPT w) as [[[major minor] c] w1] eqn:E.
    rewrite (gss_run_sys _ _ _ _ _ E). destruct (acquire_law _ _ _ _ _ _ _ Hl E) as (s & Hm & V & Hn).
    destruct (made_checked major minor None c _ _ w1 Hm Hn) as (r & w2 & R & V2 & H2). exists r, w2, s. by rewrite V2.
  - intros n k Hl. unfold from_keytab, acquire_with, cstring, Prelude.cstring. case_decide as Hk.
    { do 2 eexists. exists (view w).(creds). split; [reflexivity|]. split; [done|]. split; [by destruct (view w)|done]. }
    destruct (gss_acquire_cred_from (default 0 n) GSS_C_ACCEPT [(lit "keytab", k)] w) as [[[major minor] c] w1] eqn:E.
    unfold result. cbn [map_err]. rewrite run_assoc, run_lift, (gss_run_sys _ _ _ _ _ E).
    destruct (acquire_from_law (default 0 n) GSS_C_ACCEPT [(lit "keytab", k)] w major minor c w1 Hl) as (s & Hm & V & Hn); [by repeat constructor|exact E|].
    destruct (made_checked major minor None c _ _ w1 Hm Hn) as (r & w2 & R & V2 & H2). exists r, w2, s. by rewrite V2.
  - intros n m Hl. destruct (gss_display_name n w) as [[[ma1 mi1] o1] w1] eqn:E1. destruct (display_name_law _ _ _ _ _ _ Hl E1) as (b1 & H1).
    destruct (gss_export_name n w) as [[[ma2 mi2] o2] w2] eqn:E2. destruct (export_law _ _ _ _ _ _ Hl E2) as (b2 & H2).
    destruct (gss_localname n m w) as [[[ma3 mi3] o3] w3] eqn:E3. destruct (localname_law _ _ _ _ _ _ _ Hl E3) as (b3 & H3).
    destruct (filled_runs _ None to_text (from_utf8_lossy b1) _ _ _ _ _ _ E1 H1) as (r1 & w1' & R1 & V1 & _).
    { intros Hs. unfold to_text. by rewrite (run_bind_ok _ _ _ _ _ Hs). }
    destruct (filled_runs _ None to_vec b2 _ _ _ _ _ _ E2 H2 id) as (r2 & w2' & R2 & V2 & _).
    destruct (filled_runs _ m to_text (from_utf8_lossy b3) _ _ _ _ _ _ E3 H3) as (r3 & w3' & R3 & V3 & _).
    { intros Hs. unfold to_text. by rewrite (run_bind_ok _ _ _ _ _ Hs). }
    exists r1, w1', r2, w2', r3, w3'. done.
Qed.
End GssOk.

(** ** A libgssapi that has the laws

    It knows four tokens by their first octet: one that completes an exchange,
    one that asks for another leg and names an initiator already, one that makes
    it give the context up, and any other, which it refuses.  A sealed message
    lies between one octet and two; what opens in place is a copy where the
    message begins with a NUL. *)
Record World : Type := mkWorld { objects : View; known : gset Z }.
Definition set_objects (v : View) (w : World) : World := mkWorld v w.(known).
Definition FAILURE_ : Z := 851968.

Definition new_address (s : gset Z) : Z := fresh (s ∪ {[0]}).
Definition alloc (b : bytes) (w : World) : gss_buffer_desc * World :=
  let a := new_address (dom w.(objects).(bufs)) in
  (mkDesc (len b) a, set_objects (set_bufs (<[a := b]> w.(objects).(bufs)) w.(objects)) w).
Definition no_buffer : gss_buffer_desc := mkDesc 0 0.
Definition with_buffer {A} (b : bytes) (f : gss_buffer_desc → A) (w : World) : A * World := let '(d, w) := alloc b w in (f d, w).
Definition new_name (w : World) : Z * World :=
  let n := new_address w.(objects).(names) in (n, set_objects (set_names (w.(objects).(names) ∪ {[n]}) w.(objects)) w).
Definition new_cred (w : World) : Z * World :=
  let n := new_address w.(objects).(creds) in (n, set_objects (set_creds (w.(objects).(creds) ∪ {[n]}) w.(objects)) w).

Definition m_sealed (m : bytes) : Sealed := mkSealed [x48] m [] [x54; x54] 1.
Definition m_valid (t : bytes) : bool := (3 <=? len t) && bool_decide (head t = Some x48).
Definition m_message (t : bytes) : bytes := take (length t - 3) (drop 1 t).
Definition m_mic : bytes := [x4d; x49; x43].

Definition m_accept (c cr : Z) (t : bytes) (w : World) : Accepted * World :=
  let enter w : Z * World :=
    if c =? 0 then let n := new_address w.(objects).(ctxs) in (n, set_objects (set_ctxs (w.(objects).(ctxs) ∪ {[n]}) w.(objects)) w)
    else (c, w) in
  match t with
  | x01 :: _ =>
      let '(n, w) := new_name w in let '(c, w) := enter w in let '(out, w) := alloc [x6f] w in
      (mkAccepted 0 0 c n 5 out GSS_C_INTEG_FLAG, mkWorld w.(objects) (w.(known) ∪ {[n]}))
  | x02 :: _ =>
      let '(n, w) := new_name w in let '(c, w) := enter w in let '(out, w) := alloc [x63] w in
      (mkAccepted GSS_S_CONTINUE_NEEDED 0 c n 5 out 0, mkWorld w.(objects) (w.(known) ∖ {[n]}))
  | x03 :: _ =>
      (mkAccepted FAILURE_ 7 0 0 5 no_buffer 0,
       if c =? 0 then w else set_objects (set_ctxs (w.(objects).(ctxs) ∖ {[c]}) w.(objects)) w)
  | _ => (mkAccepted FAILURE_ 7 c 0 0 no_buffer 0, w)
  end.

#[global] Instance gss_model : Gss World := {|
  messages _ _ _ := 1%nat;
  gss_display_status _ _ _ _ w := let '(d, w) := alloc (lit "failure") w in (0, 0, d, w);
  gss_release_buffer a w := if a =? 0 then w else set_objects (set_bufs (delete a w.(objects).(bufs)) w.(objects)) w;
  read_bytes a n w := b ← w.(objects).(bufs) !! a; if decide (len b = n) then Some b else None;
  oid_at a _ := if a =? 5 then Some KRB5 else None;
  gss_import_name _ _ w := let '(n, w) := new_name w in (0, 0, n, w);
  gss_display_name _ w := let '(d, w) := alloc (lit "user@EXAMPLE") w in (0, 0, d, w);
  gss_canonicalize_name _ _ w := let '(n, w) := new_name w in (0, 0, n, w);
  gss_export_name _ w := let '(d, w) := alloc (lit "user@EXAMPLE") w in (0, 0, d, w);
  gss_localname _ _ w := let '(d, w) := alloc (lit "user") w in (0, 0, d, w);
  gss_compare_name a b w := (0, 0, if a =? b then 1 else 0, w);
  gss_release_name n w := mkWorld (set_names (w.(objects).(names) ∖ {[n]}) w.(objects)) (w.(known) ∖ {[n]});
  gss_acquire_cred _ _ w := let '(n, w) := new_cred w in (0, 0, n, w);
  gss_acquire_cred_from _ _ _ w := let '(n, w) := new_cred w in (0, 0, n, w);
  gss_release_cred c w := set_objects (set_creds (w.(objects).(creds) ∖ {[c]}) w.(objects)) w;
  gss_accept_sec_context := m_accept;
  gss_delete_sec_context c w := if c =? 0 then w else set_objects (set_ctxs (w.(objects).(ctxs) ∖ {[c]}) w.(objects)) w;
  gss_context_time _ w := (0, 0, 3600, w);
  gss_get_mic _ _ m w := let '(d, w) := alloc m_mic w in (0, 0, d, w);
  gss_verify_mic _ _ t w := (if decide (t = m_mic) then 0 else FAILURE_, 0, 0, w);
  gss_wrap _ _ _ m w := let '(d, w) := alloc (token_of (m_sealed m)) w in (0, 0, 1, d, w);
  gss_unwrap _ t w := if m_valid t then let '(d, w) := alloc (m_message t) w in (0, 0, d, 1, 0, w) else (FAILURE_, 7, no_buffer, 0, 0, w);
  gss_get_mic_iov_length _ _ l w := (0, 0, match l with [d; m] => [d; mkIov m.(type_) 4 m.(iov_value)] | l => l end, w);
  gss_get_mic_iov _ _ l w := (0, 0,
    match l with [d; mkIov k _ (Slice a t)] => [d; mkIov k 3 (Slice a (m_mic ++ drop 3 t))] | l => l end, w);
  gss_wrap_iov_length _ _ _ l w :=
    match l with
    | [h; m; p; t] =>
        if m.(iov_length) + 3 <=? usize_max then
          (0, 0, 1, [mkIov h.(type_) 1 h.(iov_value); m; p; mkIov t.(type_) 2 t.(iov_value)], w)
        else (FAILURE_, 7, 0, l, w)
    | l => (FAILURE_, 7, 0, l, w)
    end;
  gss_wrap_iov _ _ _ l w :=
    match l with
    | [mkIov k1 n1 (Slice a1 _); m; p; mkIov k2 n2 (Slice a2 _)] =>
        (0, 0, 1, [mkIov k1 n1 (Slice a1 [x48]); m; p; mkIov k2 n2 (Slice a2 [x54; x54])], w)
    | l => (FAILURE_, 7, 0, l, w)
    end;
  gss_unwrap_iov _ l w :=
    match l with
    | [mkIov k n (Slice a t); d] =>
        if m_valid t then
          if decide (head (m_message t) = Some x00) then
            let '(b, w) := alloc (m_message t) w in
            (0, 0, 1, 0, [mkIov k n (Slice a t); mkIov (Z.lor d.(type_) GSS_IOV_BUFFER_FLAG_ALLOCATED) b.(length_) (At b.(value))], w)
          else (0, 0, 1, 0, [mkIov k n (Slice a t); mkIov d.(type_) (len (m_message t)) (At (a + 1))], w)
        else (FAILURE_, 7, 0, 0, l, w)
    | l => (FAILURE_, 7, 0, 0, l, w)
    end;
  gss_release_iov_buffer l w := set_objects (set_bufs (foldr (λ d, if decide (Z.land d.(type_) GSS_IOV_BUFFER_FLAG_ALLOCATED = 0) then id
    else delete (address d.(iov_value))) w.(objects).(bufs) l) w.(objects)) w
|}.
#[global] Instance gss_model_spec : GssSpec World := {|
  view := objects;
  proven w n := n ∈ w.(known);
  around _ _ _ _ := (1, 0, 2);
  sealing _ _ _ m := (0, 0, m_sealed m);
  opening _ _ t := if m_valid t then (0, 0, (m_message t, 1, 0)) else (FAILURE_, 7, ([], 0, 0));
  signing _ _ _ := (0, 0, m_mic);
  left_at _ _ _ c := if c =? 0 then 1%nat else 0%nat
|}.

Lemma new_address_ok s : new_address s ≠ 0 ∧ new_address s ∉ s.
Proof. unfold new_address. pose proof (is_fresh (s ∪ {[0]})). set_solver. Qed.

Lemma alloc_fills b w : fills (alloc b w).1 b w.(objects) (alloc b w).2.(objects).
Proof.
  unfold fills, alloc. simpl. destruct (new_address_ok (dom w.(objects).(bufs))) as [H1 H2].
  destruct (Z.eqb_spec (new_address (dom w.(objects).(bufs))) 0); [done|]. split; [by apply not_elem_of_dom|done].
Qed.

Lemma made_new s : made (new_address s) s (s ∪ {[new_address s]}).
Proof. unfold made. destruct (new_address_ok s). by destruct (Z.eqb_spec (new_address s) 0). Qed.

Lemma fills_null v : fills no_buffer [] v v.
Proof. done. Qed.

Lemma m_valid_message t : m_valid t = true → ∃ m tl, t = x48 :: m ++ tl ∧ length tl = 2%nat ∧ m_message t = m.
Proof.
  unfold m_valid, m_message. rewrite andb_true_iff, Z.leb_le. intros [Hl Hh]. apply bool_decide_eq_true in Hh.
  destruct t as [|x t]; [done|]. injection Hh as ->. simpl in *. exists (take (length t - 2) t), (drop (length t - 2) t).
  rewrite take_drop, length_drop. split; [done|]. split; [lia|]. rewrite drop_0. f_equal.
Qed.

(** The object laws of [m_accept]. *)
Lemma m_accept_law w c cr t r w' : c = 0 ∨ c ∈ w.(objects).(ctxs) → m_accept c cr t w = (r, w') →
  ∃ b v, fills r.(a_out) b v w'.(objects) ∧ v.(bufs) = w.(objects).(bufs) ∧ v.(creds) = w.(objects).(creds) ∧
    made r.(a_src) w.(objects).(names) v.(names) ∧ turns c r.(a_context) w.(objects).(ctxs) v.(ctxs) ∧
    r.(a_mech) ∈ [0; 5] ∧ (good r.(a_major) → r.(a_context) ≠ 0) ∧
    (good r.(a_major) → Z.land r.(a_major) GSS_S_CONTINUE_NEEDED = 0 → r.(a_src) ≠ 0 ∧ r.(a_src) ∈ w'.(known)).
Proof.
  intros Hc H. set (x := new_address w.(objects).(ctxs)).
  pose proof (made_new w.(objects).(names)) as Hn. pose proof (made_new w.(objects).(ctxs)) as Hx. fold x in Hx.
  destruct (new_address_ok w.(objects).(names)) as [Hn0 _]. destruct (new_address_ok w.(objects).(ctxs)) as [Hx0 _]. fold x in Hx0.
  unfold m_accept, new_name in H. destruct t as [|[] t]; cbv zeta beta iota in H.
  all: try (injection H as <- <-; exists [], w.(objects); split; [done|]; split; [done|]; split; [done|]; split; [done|]; split; [by left|];
    split; [set_solver|]; split; intros Hg; by vm_compute in Hg).
  1, 2: destruct (Z.eqb_spec c 0) as [->|Hc0]; cbv beta iota in H;
    match type of H with context [alloc ?b ?u] => pose proof (alloc_fills b u) as Ho; destruct (alloc b u) as [out w2];
      injection H as <- <-; exists b, u.(objects) end;
    (split; [exact Ho|]); simpl; (split; [done|]); (split; [done|]); (split; [exact Hn|]);
    (split; [first [by right; right|by left]|]); (split; [set_solver|]); (split; [done|]); intros _ Hk; try (by vm_compute in Hk); set_solver.
  - injection H as <- <-. exists []. destruct (Z.eqb_spec c 0) as [->|Hc0].
    + exists w.(objects). split; [done|]. split; [done|]. split; [done|]. split; [done|]. split; [by left|]. split; [set_solver|].
      split; intros Hg; by vm_compute in Hg.
    + eexists. split; [by apply fills_null|]. simpl. split; [done|]. split; [done|]. split; [done|]. split; [by right; left|]. split; [set_solver|].
      split; intros Hg; by vm_compute in Hg.
Qed.

Lemma m_sealed_token m : m_valid (token_of (m_sealed m)) = true ∧ m_message (token_of (m_sealed m)) = m.
Proof.
  unfold m_valid, m_message, token_of. simpl. rewrite length_app. simpl. split.
  - rewrite andb_true_r. apply Z.leb_le. lia.
  - rewrite drop_0. replace (length m + 2 - 2)%nat with (length m) by lia. apply take_app_length.
Qed.

Lemma quiet_same {W} `{GssSpec W} c (w : W) : quiet c w w.
Proof. done. Qed.

#[global] Instance gss_model_laws : GssLaws World.
Proof.
  assert (∀ b w w' (out : gss_buffer_desc), alloc b w = (out, w') → fills out b w.(objects) w'.(objects)) as Hal.
  { intros b w w' out E. pose proof (alloc_fills b w) as F. by rewrite E in F. }
  assert (∀ w n w', new_name w = (n, w') → ∃ s, made n w.(objects).(names) s ∧ w'.(objects) = set_names s w.(objects) ∧ n ≠ 0) as Hnm.
  { intros w n w' [= <- <-]. eexists. split; [apply made_new|]. split; [done|]. apply new_address_ok. }
  assert (∀ w n w', new_cred w = (n, w') → ∃ s, made n w.(objects).(creds) s ∧ w'.(objects) = set_creds s w.(objects) ∧ n ≠ 0) as Hcr.
  { intros w n w' [= <- <-]. eexists. split; [apply made_new|]. split; [done|]. apply new_address_ok. }
  split.
  - intros w a b H. simpl in *. rewrite H. simpl. by rewrite decide_True.
  - intros w a _. simpl. by destruct (a =? 0).
  - done.
  - intros code kind mech c w major c' out w' H. cbn [gss_display_status gss_model] in H. destruct (alloc (lit "failure") w) as [d w1] eqn:E.
    injection H as <- <- <- <-. split; [eexists; by apply Hal|done].
  - intros t o w major minor n w' H. cbn [gss_import_name gss_model] in H. destruct (new_name w) as [m w1] eqn:E. injection H as <- <- <- <-.
    destruct (Hnm _ _ _ E) as (s & H1 & H2 & H3). by exists s.
  - intros n w major minor out w' _ H. cbn [gss_display_name gss_model] in H. destruct (alloc _ w) as [d w1] eqn:E. injection H as <- <- <- <-. eexists. first [by apply Hal|split; [by apply Hal|done]].
  - intros n o w major minor n' w' _ H. cbn [gss_canonicalize_name gss_model] in H. destruct (new_name w) as [m w1] eqn:E. injection H as <- <- <- <-.
    destruct (Hnm _ _ _ E) as (s & H1 & H2 & H3). by exists s.
  - intros n w major minor out w' _ H. cbn [gss_export_name gss_model] in H. destruct (alloc _ w) as [d w1] eqn:E. injection H as <- <- <- <-. eexists. first [by apply Hal|split; [by apply Hal|done]].
  - intros n o w major minor out w' _ H. cbn [gss_localname gss_model] in H. destruct (alloc _ w) as [d w1] eqn:E. injection H as <- <- <- <-. eexists. first [by apply Hal|split; [by apply Hal|done]].
  - by intros n n' w major minor e w' _ _ [= _ _ _ <-].
  - done.
  - intros n u w major minor c w' _ H. cbn [gss_acquire_cred gss_model] in H. destruct (new_cred w) as [m w1] eqn:E. injection H as <- <- <- <-.
    destruct (Hcr _ _ _ E) as (s & H1 & H2 & H3). by exists s.
  - intros n u st w major minor c w' _ _ H. cbn [gss_acquire_cred_from gss_model] in H. destruct (new_cred w) as [m w1] eqn:E. injection H as <- <- <- <-.
    destruct (Hcr _ _ _ E) as (s & H1 & H2 & H3). by exists s.
  - done.
  - intros w c cr t r w' Hc _ H. destruct (m_accept_law w c cr t r w' Hc H) as (b & v & H1 & H2 & H3 & H4 & H5 & H6 & H7 & H8).
    exists b, v. repeat (split; [done|]). split; [|by split]. apply elem_of_cons in H6 as [H6|H6]; [by left|right].
    apply list_elem_of_singleton in H6. rewrite H6. by eexists.
  - intros w n. split; [intros a; simpl; by destruct (a =? 0)|]. intros m Hm. simpl. set_solver.
  - done.
  - intros w c _. simpl. by destruct (c =? 0).
  - by intros w c major minor t w' _ [= _ _ _ <-].
  - intros w c m major minor out w' _ H. cbn [gss_get_mic gss_model] in H. destruct (alloc m_mic w) as [d w1] eqn:E. injection H as <- <- <- <-. eexists. first [by apply Hal|split; [by apply Hal|done]].
  - by intros w c m t major minor q w' _ [= _ _ _ <-].
  - intros w c b m major minor sl out w' _ H. cbn [gss_wrap gss_model] in H. destruct (alloc _ w) as [d w1] eqn:E. injection H as <- <- <- <- <-. eexists. split; [by apply Hal|done].
  - intros w c b m s _. done.
  - intros w c t major minor out sl q w' _ H. cbn [gss_unwrap gss_model opening gss_model_spec] in *. destruct (m_valid t).
    + destruct (alloc (m_message t) w) as [d w1] eqn:E. injection H as <- <- <- <- <- <-. exists (m_message t). split; [by apply Hal|done].
    + injection H as <- <- <- <- <- <-. exists []. split; [done|]. split; [done|]. intros Hg. by vm_compute in Hg.
  - intros w c p n major minor l w' _ [= <- <- <- <-]. split; [done|]. intros _. exists 4. split; [done|]. split; [lia|]. done.
  - intros w c m am at_ t major minor l w' _ Hl [= <- <- <- <-]. split; [done|]. split; [done|]. exists 3, (m_mic ++ drop 3 t). split; [done|].
    specialize (Hl eq_refl). simpl in Hl. split; [|done]. simpl. rewrite length_drop. lia.
  - intros w c b n major minor sl l w' _ H. cbn [gss_wrap_iov_length gss_model iov_length type_ iov_value] in H.
    destruct (Z.leb_spec (n + 3) usize_max); injection H as <- <- <- <- <-; (split; [done|]); intros Hg; [|by vm_compute in Hg].
    simpl. split; [done|]. lia.
  - intros w c b h m p t ah am ap at_ major minor sl l w' _ Ha H. cbn in H. injection H as <- <- <- <- <-. simpl in Ha. injection Ha as H1 H2 H3.
    split; [done|]. split; [done|]. exists [x48], m, p, [x54; x54]. split; [done|]. repeat (split; [by simpl|]). intros _. simpl.
    destruct p; [done|simpl in H2; lia].
  - intros w c t a major minor sl q l w' _ Ha Hat H. cbn [gss_unwrap_iov gss_model opening gss_model_spec view] in *. destruct (m_valid t) eqn:Hv.
    + destruct (m_valid_message t Hv) as (m & tl & Ht & Htl & Hm). rewrite Hm in *. case_decide as Hh.
      * destruct (alloc m w) as [d w1] eqn:E. injection H as <- <- <- <- <- <-. split; [done|]. exists t. eexists. split; [done|]. split; [done|].
        split; [|intros Hg; by destruct Hg]. intros _. exists m. split; [done|]. pose proof (Hal _ _ _ _ E) as F.
        injection E as <- <-. split; [done|]. exists (new_address (dom w.(objects).(bufs))). destruct (new_address_ok (dom w.(objects).(bufs))) as [N1 N2].
        split; [done|]. split; [done|]. split; [by apply not_elem_of_dom|done].
      * injection H as <- <- <- <- <- <-. split; [done|]. exists t. eexists. split; [done|]. split; [done|].
        split; [|intros Hg; by destruct Hg]. intros _. exists m. split; [done|]. split; [done|]. split; [done|]. exists 1. split; [done|]. split; [lia|].
        rewrite Ht. split; [simpl; rewrite length_app; lia|]. change (Z.to_nat 1) with 1%nat. cbn [drop]. rewrite Nat2Z.id. rewrite drop_0. apply take_app_length.
    + injection H as <- <- <- <- <- <-. split; [done|]. exists t. eexists. split; [done|]. split; [done|]. split; [intros Hg; by vm_compute in Hg|done].
  - done.
Defined.

(** ** Witnesses *)
Definition a_world : World := mkWorld (mkView ∅ ∅ {[9]} {[4]}) ∅.
Definition a_context : Context := mkContext 4 None (Some (mkOid KRB5)) 0.


Lemma gss_in_place_witness : a_context.(raw) ∈ (view a_world).(ctxs) ∧ ∃ r out' w',
  get_mic_into a_context 100 200 [x61] [x30] a_world = (Ok (r, out'), w') ∧ view w' = view a_world ∧ appended a_context [x61] [x30] a_world r out'.
Proof.
  split; [by vm_compute|]. destruct (gss_in_place a_context a_world ltac:(by vm_compute)) as (_ & _ & _ & H & _).
  apply H.
Defined.

Example gss_runs :
  (wrap_lengths a_context true 2 a_world).1 = Ok (mkLengths 1 0 2) ∧
  (wrap_in_place a_context true (mkLengths 1 0 2) 100 [x00; x61; x62; x00; x00] a_world).1 = Ok (Ok true, [x48; x61; x62; x54; x54]) ∧
  (unwrap_in_place a_context 100 [x48; x61; x62; x54; x54] a_world).1 = Ok (Ok (mkOpened 1 3 true 0), [x48; x61; x62; x54; x54]) ∧
  (unwrap_in_place a_context 100 [x48; x00; x62; x54; x54] a_world).1 = Ok (Ok (mkOpened 0 2 true 0), [x00; x62; x62; x54; x54]) ∧
  (get_mic_within a_context 100 [x61; x62] 0 1 a_world).1 = Ok (Ok tt, [x61; x62; x4d; x49; x43]) ∧
  (get_mic_within a_context 100 [x61; x62] 1 3 a_world).1 = Stop Panicked ∧
  (from_keytab [x2f; x00] None a_world).1 = Err (Fail (mkError 16777216 0 (lit "interior NUL in keytab name"))).
Proof. repeat split; vm_compute; reflexivity. Qed.

(** An acceptor that is fed on after it completed: the library gives the context
    up at a bad token, and the next token begins another exchange.  Its initiator
    is named before it has completed, since the acceptor is still established. *)
Example stepping_on : ∃ rs st w' n, feed State_new 9 [[x01]; [x03]; [x02]] a_world = (Ok (rs, st), w') ∧
  map is_complete rs = [true; false; false] ∧ source_name st = Some n ∧ (n ∉ w'.(known)).
Proof.
  assert (match feed State_new 9 [[x01]; [x03]; [x02]] a_world with
          | (Ok (rs, st), w') => bool_decide (map is_complete rs = [true; false; false]) &&
              match source_name st with Some n => bool_decide (n ∉ w'.(known)) | None => false end
          | _ => false
          end = true) as H by (vm_compute; reflexivity).
  destruct (feed State_new 9 [[x01]; [x03]; [x02]] a_world) as [[[rs st]| |] w']; [|done..].
  apply andb_true_iff in H as [H1 H2]. apply bool_decide_eq_true in H1. destruct (source_name st) as [n|] eqn:Hs; [|done].
  apply bool_decide_eq_true in H2. by exists rs, st, w', n.
Qed.
