(* ===== verification/Krb5Error.v ===== *)
(** The vocabularies of [truenas_krb5]: the error table of [error.rs], the
    encryption and principal types, ticket flags and key data of [types.rs], and
    the codes of [ffi.rs]. *)
From S2P Require Import Prelude Utf8.
Local Open Scope Z_scope.

(** ** [ffi.rs] *)
(* SRC truenas_krb5/src/ffi.rs const KRB5_KT_END *)
Definition ffi_KRB5_KT_END : Z := -1765328202.
(* SRC truenas_krb5/src/ffi.rs const KRB5_CC_END *)
Definition ffi_KRB5_CC_END : Z := -1765328242.

(** ** [error.rs] *)
(* SRC truenas_krb5/src/error.rs struct Error *)
Record Error : Type := mkError { code : Z; message : bytes }.
#[global] Instance Error_eq_dec : EqDecision Error.
Proof. solve_decision. Defined.

(* SRC truenas_krb5/src/error.rs L 114-321 ErrCode *)
Inductive ErrCode : Type :=
| KRB5KDC_ERR_NONE
| KRB5KDC_ERR_NAME_EXP
| KRB5KDC_ERR_SERVICE_EXP
| KRB5KDC_ERR_BAD_PVNO
| KRB5KDC_ERR_C_OLD_MAST_KVNO
| KRB5KDC_ERR_S_OLD_MAST_KVNO
| KRB5KDC_ERR_C_PRINCIPAL_UNKNOWN
| KRB5KDC_ERR_S_PRINCIPAL_UNKNOWN
| KRB5KDC_ERR_PRINCIPAL_NOT_UNIQUE
| KRB5KDC_ERR_NULL_KEY
| KRB5KDC_ERR_CANNOT_POSTDATE
| KRB5KDC_ERR_NEVER_VALID
| KRB5KDC_ERR_POLICY
| KRB5KDC_ERR_BADOPTION
| KRB5KDC_ERR_ETYPE_NOSUPP
| KRB5KDC_ERR_SUMTYPE_NOSUPP
| KRB5KDC_ERR_PADATA_TYPE_NOSUPP
| KRB5KDC_ERR_TRTYPE_NOSUPP
| KRB5KDC_ERR_CLIENT_REVOKED
| KRB5KDC_ERR_SERVICE_REVOKED
| KRB5KDC_ERR_TGT_REVOKED
| KRB5KDC_ERR_CLIENT_NOTYET
| KRB5KDC_ERR_SERVICE_NOTYET
| KRB5KDC_ERR_KEY_EXP
| KRB5KDC_ERR_PREAUTH_FAILED
| KRB5KDC_ERR_PREAUTH_REQUIRED
| KRB5KDC_ERR_SERVER_NOMATCH
| KRB5KDC_ERR_MUST_USE_USER2USER
| KRB5KDC_ERR_PATH_NOT_ACCEPTED
| KRB5KDC_ERR_SVC_UNAVAILABLE
| KRB5KRB_AP_ERR_BAD_INTEGRITY
| KRB5KRB_AP_ERR_TKT_EXPIRED
| KRB5KRB_AP_ERR_TKT_NYV
| KRB5KRB_AP_ERR_REPEAT
| KRB5KRB_AP_ERR_NOT_US
| KRB5KRB_AP_ERR_BADMATCH
| KRB5KRB_AP_ERR_SKEW
| KRB5KRB_AP_ERR_BADADDR
| KRB5KRB_AP_ERR_BADVERSION
| KRB5KRB_AP_ERR_MSG_TYPE
| KRB5KRB_AP_ERR_MODIFIED
| KRB5KRB_AP_ERR_BADORDER
| KRB5KRB_AP_ERR_ILL_CR_TKT
| KRB5KRB_AP_ERR_BADKEYVER
| KRB5KRB_AP_ERR_NOKEY
| KRB5KRB_AP_ERR_MUT_FAIL
| KRB5KRB_AP_ERR_BADDIRECTION
| KRB5KRB_AP_ERR_METHOD
| KRB5KRB_AP_ERR_BADSEQ
| KRB5KRB_AP_ERR_INAPP_CKSUM
| KRB5KRB_AP_PATH_NOT_ACCEPTED
| KRB5KRB_ERR_RESPONSE_TOO_BIG
| KRB5KRB_ERR_GENERIC
| KRB5KRB_ERR_FIELD_TOOLONG
| KRB5KDC_ERR_CLIENT_NOT_TRUSTED
| KRB5KDC_ERR_KDC_NOT_TRUSTED
| KRB5KDC_ERR_INVALID_SIG
| KRB5KDC_ERR_DH_KEY_PARAMETERS_NOT_ACCEPTED
| KRB5KDC_ERR_CERTIFICATE_MISMATCH
| KRB5KRB_AP_ERR_NO_TGT
| KRB5KDC_ERR_WRONG_REALM
| KRB5KRB_AP_ERR_USER_TO_USER_REQUIRED
| KRB5KDC_ERR_CANT_VERIFY_CERTIFICATE
| KRB5KDC_ERR_INVALID_CERTIFICATE
| KRB5KDC_ERR_REVOKED_CERTIFICATE
| KRB5KDC_ERR_REVOCATION_STATUS_UNKNOWN
| KRB5KDC_ERR_REVOCATION_STATUS_UNAVAILABLE
| KRB5KDC_ERR_CLIENT_NAME_MISMATCH
| KRB5KDC_ERR_KDC_NAME_MISMATCH
| KRB5KDC_ERR_INCONSISTENT_KEY_PURPOSE
| KRB5KDC_ERR_DIGEST_IN_CERT_NOT_ACCEPTED
| KRB5KDC_ERR_PA_CHECKSUM_MUST_BE_INCLUDED
| KRB5KDC_ERR_DIGEST_IN_SIGNED_DATA_NOT_ACCEPTED
| KRB5KDC_ERR_PUBLIC_KEY_ENCRYPTION_NOT_SUPPORTED
| KRB5KRB_AP_ERR_IAKERB_KDC_NOT_FOUND
| KRB5KRB_AP_ERR_IAKERB_KDC_NO_RESPONSE
| KRB5KDC_ERR_PREAUTH_EXPIRED
| KRB5KDC_ERR_MORE_PREAUTH_DATA_REQUIRED
| KRB5KDC_ERR_UNKNOWN_CRITICAL_FAST_OPTION
| KRB5KDC_ERR_NO_ACCEPTABLE_KDF
| KRB5_ERR_RCSID
| KRB5_LIBOS_BADLOCKFLAG
| KRB5_LIBOS_CANTREADPWD
| KRB5_LIBOS_BADPWDMATCH
| KRB5_LIBOS_PWDINTR
| KRB5_PARSE_ILLCHAR
| KRB5_PARSE_MALFORMED
| KRB5_CONFIG_CANTOPEN
| KRB5_CONFIG_BADFORMAT
| KRB5_CONFIG_NOTENUFSPACE
| KRB5_BADMSGTYPE
| KRB5_CC_BADNAME
| KRB5_CC_UNKNOWN_TYPE
| KRB5_CC_NOTFOUND
| KRB5_CC_END
| KRB5_NO_TKT_SUPPLIED
| KRB5KRB_AP_WRONG_PRINC
| KRB5KRB_AP_ERR_TKT_INVALID
| KRB5_PRINC_NOMATCH
| KRB5_KDCREP_MODIFIED
| KRB5_KDCREP_SKEW
| KRB5_IN_TKT_REALM_MISMATCH
| KRB5_PROG_ETYPE_NOSUPP
| KRB5_PROG_KEYTYPE_NOSUPP
| KRB5_WRONG_ETYPE
| KRB5_PROG_SUMTYPE_NOSUPP
| KRB5_REALM_UNKNOWN
| KRB5_SERVICE_UNKNOWN
| KRB5_KDC_UNREACH
| KRB5_NO_LOCALNAME
| KRB5_MUTUAL_FAILED
| KRB5_RC_TYPE_EXISTS
| KRB5_RC_MALLOC
| KRB5_RC_TYPE_NOTFOUND
| KRB5_RC_UNKNOWN
| KRB5_RC_REPLAY
| KRB5_RC_IO
| KRB5_RC_NOIO
| KRB5_RC_PARSE
| KRB5_RC_IO_EOF
| KRB5_RC_IO_MALLOC
| KRB5_RC_IO_PERM
| KRB5_RC_IO_IO
| KRB5_RC_IO_UNKNOWN
| KRB5_RC_IO_SPACE
| KRB5_TRANS_CANTOPEN
| KRB5_TRANS_BADFORMAT
| KRB5_LNAME_CANTOPEN
| KRB5_LNAME_NOTRANS
| KRB5_LNAME_BADFORMAT
| KRB5_CRYPTO_INTERNAL
| KRB5_KT_BADNAME
| KRB5_KT_UNKNOWN_TYPE
| KRB5_KT_NOTFOUND
| KRB5_KT_END
| KRB5_KT_NOWRITE
| KRB5_KT_IOERR
| KRB5_NO_TKT_IN_RLM
| KRB5DES_BAD_KEYPAR
| KRB5DES_WEAK_KEY
| KRB5_BAD_ENCTYPE
| KRB5_BAD_KEYSIZE
| KRB5_BAD_MSIZE
| KRB5_CC_TYPE_EXISTS
| KRB5_KT_TYPE_EXISTS
| KRB5_CC_IO
| KRB5_FCC_PERM
| KRB5_FCC_NOFILE
| KRB5_FCC_INTERNAL
| KRB5_CC_WRITE
| KRB5_CC_NOMEM
| KRB5_CC_FORMAT
| KRB5_CC_NOT_KTYPE
| KRB5_INVALID_FLAGS
| KRB5_NO_2ND_TKT
| KRB5_NOCREDS_SUPPLIED
| KRB5_SENDAUTH_BADAUTHVERS
| KRB5_SENDAUTH_BADAPPLVERS
| KRB5_SENDAUTH_BADRESPONSE
| KRB5_SENDAUTH_REJECTED
| KRB5_PREAUTH_BAD_TYPE
| KRB5_PREAUTH_NO_KEY
| KRB5_PREAUTH_FAILED
| KRB5_RCACHE_BADVNO
| KRB5_CCACHE_BADVNO
| KRB5_KEYTAB_BADVNO
| KRB5_PROG_ATYPE_NOSUPP
| KRB5_RC_REQUIRED
| KRB5_ERR_BAD_HOSTNAME
| KRB5_ERR_HOST_REALM_UNKNOWN
| KRB5_SNAME_UNSUPP_NAMETYPE
| KRB5KRB_AP_ERR_V4_REPLY
| KRB5_REALM_CANT_RESOLVE
| KRB5_TKT_NOT_FORWARDABLE
| KRB5_FWD_BAD_PRINCIPAL
| KRB5_GET_IN_TKT_LOOP
| KRB5_CONFIG_NODEFREALM
| KRB5_SAM_UNSUPPORTED
| KRB5_SAM_INVALID_ETYPE
| KRB5_SAM_NO_CHECKSUM
| KRB5_SAM_BAD_CHECKSUM
| KRB5_KT_NAME_TOOLONG
| KRB5_KT_KVNONOTFOUND
| KRB5_APPL_EXPIRED
| KRB5_LIB_EXPIRED
| KRB5_CHPW_PWDNULL
| KRB5_CHPW_FAIL
| KRB5_KT_FORMAT
| KRB5_NOPERM_ETYPE
| KRB5_CONFIG_ETYPE_NOSUPP
| KRB5_OBSOLETE_FN
| KRB5_EAI_FAIL
| KRB5_EAI_NODATA
| KRB5_EAI_NONAME
| KRB5_EAI_SERVICE
| KRB5_ERR_NUMERIC_REALM
| KRB5_ERR_BAD_S2K_PARAMS
| KRB5_ERR_NO_SERVICE
| KRB5_CC_READONLY
| KRB5_CC_NOSUPP
| KRB5_DELTAT_BADFORMAT
| KRB5_PLUGIN_NO_HANDLE
| KRB5_PLUGIN_OP_NOTSUPP
| KRB5_ERR_INVALID_UTF8
| KRB5_ERR_FAST_REQUIRED
| KRB5_LOCAL_ADDR_REQUIRED
| KRB5_REMOTE_ADDR_REQUIRED
| KRB5_TRACE_NOSUPP.

(** [raw] of a value: its discriminant. *)
(* SRC truenas_krb5/src/error.rs L 326-328 raw *)
Definition ErrCode_raw (self : ErrCode) : Z :=
  match self with
  | KRB5KDC_ERR_NONE => -1765328384
  | KRB5KDC_ERR_NAME_EXP => -1765328383
  | KRB5KDC_ERR_SERVICE_EXP => -1765328382
  | KRB5KDC_ERR_BAD_PVNO => -1765328381
  | KRB5KDC_ERR_C_OLD_MAST_KVNO => -1765328380
  | KRB5KDC_ERR_S_OLD_MAST_KVNO => -1765328379
  | KRB5KDC_ERR_C_PRINCIPAL_UNKNOWN => -1765328378
  | KRB5KDC_ERR_S_PRINCIPAL_UNKNOWN => -1765328377
  | KRB5KDC_ERR_PRINCIPAL_NOT_UNIQUE => -1765328376
  | KRB5KDC_ERR_NULL_KEY => -1765328375
  | KRB5KDC_ERR_CANNOT_POSTDATE => -1765328374
  | KRB5KDC_ERR_NEVER_VALID => -1765328373
  | KRB5KDC_ERR_POLICY => -1765328372
  | KRB5KDC_ERR_BADOPTION => -1765328371
  | KRB5KDC_ERR_ETYPE_NOSUPP => -1765328370
  | KRB5KDC_ERR_SUMTYPE_NOSUPP => -1765328369
  | KRB5KDC_ERR_PADATA_TYPE_NOSUPP => -1765328368
  | KRB5KDC_ERR_TRTYPE_NOSUPP => -1765328367
  | KRB5KDC_ERR_CLIENT_REVOKED => -1765328366
  | KRB5KDC_ERR_SERVICE_REVOKED => -1765328365
  | KRB5KDC_ERR_TGT_REVOKED => -1765328364
  | KRB5KDC_ERR_CLIENT_NOTYET => -1765328363
  | KRB5KDC_ERR_SERVICE_NOTYET => -1765328362
  | KRB5KDC_ERR_KEY_EXP => -1765328361
  | KRB5KDC_ERR_PREAUTH_FAILED => -1765328360
  | KRB5KDC_ERR_PREAUTH_REQUIRED => -1765328359
  | KRB5KDC_ERR_SERVER_NOMATCH => -1765328358
  | KRB5KDC_ERR_MUST_USE_USER2USER => -1765328357
  | KRB5KDC_ERR_PATH_NOT_ACCEPTED => -1765328356
  | KRB5KDC_ERR_SVC_UNAVAILABLE => -1765328355
  | KRB5KRB_AP_ERR_BAD_INTEGRITY => -1765328353
  | KRB5KRB_AP_ERR_TKT_EXPIRED => -1765328352
  | KRB5KRB_AP_ERR_TKT_NYV => -1765328351
  | KRB5KRB_AP_ERR_REPEAT => -1765328350
  | KRB5KRB_AP_ERR_NOT_US => -1765328349
  | KRB5KRB_AP_ERR_BADMATCH => -1765328348
  | KRB5KRB_AP_ERR_SKEW => -1765328347
  | KRB5KRB_AP_ERR_BADADDR => -1765328346
  | KRB5KRB_AP_ERR_BADVERSION => -1765328345
  | KRB5KRB_AP_ERR_MSG_TYPE => -1765328344
  | KRB5KRB_AP_ERR_MODIFIED => -1765328343
  | KRB5KRB_AP_ERR_BADORDER => -1765328342
  | KRB5KRB_AP_ERR_ILL_CR_TKT => -1765328341
  | KRB5KRB_AP_ERR_BADKEYVER => -1765328340
  | KRB5KRB_AP_ERR_NOKEY => -1765328339
  | KRB5KRB_AP_ERR_MUT_FAIL => -1765328338
  | KRB5KRB_AP_ERR_BADDIRECTION => -1765328337
  | KRB5KRB_AP_ERR_METHOD => -1765328336
  | KRB5KRB_AP_ERR_BADSEQ => -1765328335
  | KRB5KRB_AP_ERR_INAPP_CKSUM => -1765328334
  | KRB5KRB_AP_PATH_NOT_ACCEPTED => -1765328333
  | KRB5KRB_ERR_RESPONSE_TOO_BIG => -1765328332
  | KRB5KRB_ERR_GENERIC => -1765328324
  | KRB5KRB_ERR_FIELD_TOOLONG => -1765328323
  | KRB5KDC_ERR_CLIENT_NOT_TRUSTED => -1765328322
  | KRB5KDC_ERR_KDC_NOT_TRUSTED => -1765328321
  | KRB5KDC_ERR_INVALID_SIG => -1765328320
  | KRB5KDC_ERR_DH_KEY_PARAMETERS_NOT_ACCEPTED => -1765328319
  | KRB5KDC_ERR_CERTIFICATE_MISMATCH => -1765328318
  | KRB5KRB_AP_ERR_NO_TGT => -1765328317
  | KRB5KDC_ERR_WRONG_REALM => -1765328316
  | KRB5KRB_AP_ERR_USER_TO_USER_REQUIRED => -1765328315
  | KRB5KDC_ERR_CANT_VERIFY_CERTIFICATE => -1765328314
  | KRB5KDC_ERR_INVALID_CERTIFICATE => -1765328313
  | KRB5KDC_ERR_REVOKED_CERTIFICATE => -1765328312
  | KRB5KDC_ERR_REVOCATION_STATUS_UNKNOWN => -1765328311
  | KRB5KDC_ERR_REVOCATION_STATUS_UNAVAILABLE => -1765328310
  | KRB5KDC_ERR_CLIENT_NAME_MISMATCH => -1765328309
  | KRB5KDC_ERR_KDC_NAME_MISMATCH => -1765328308
  | KRB5KDC_ERR_INCONSISTENT_KEY_PURPOSE => -1765328307
  | KRB5KDC_ERR_DIGEST_IN_CERT_NOT_ACCEPTED => -1765328306
  | KRB5KDC_ERR_PA_CHECKSUM_MUST_BE_INCLUDED => -1765328305
  | KRB5KDC_ERR_DIGEST_IN_SIGNED_DATA_NOT_ACCEPTED => -1765328304
  | KRB5KDC_ERR_PUBLIC_KEY_ENCRYPTION_NOT_SUPPORTED => -1765328303
  | KRB5KRB_AP_ERR_IAKERB_KDC_NOT_FOUND => -1765328299
  | KRB5KRB_AP_ERR_IAKERB_KDC_NO_RESPONSE => -1765328298
  | KRB5KDC_ERR_PREAUTH_EXPIRED => -1765328294
  | KRB5KDC_ERR_MORE_PREAUTH_DATA_REQUIRED => -1765328293
  | KRB5KDC_ERR_UNKNOWN_CRITICAL_FAST_OPTION => -1765328291
  | KRB5KDC_ERR_NO_ACCEPTABLE_KDF => -1765328284
  | KRB5_ERR_RCSID => -1765328256
  | KRB5_LIBOS_BADLOCKFLAG => -1765328255
  | KRB5_LIBOS_CANTREADPWD => -1765328254
  | KRB5_LIBOS_BADPWDMATCH => -1765328253
  | KRB5_LIBOS_PWDINTR => -1765328252
  | KRB5_PARSE_ILLCHAR => -1765328251
  | KRB5_PARSE_MALFORMED => -1765328250
  | KRB5_CONFIG_CANTOPEN => -1765328249
  | KRB5_CONFIG_BADFORMAT => -1765328248
  | KRB5_CONFIG_NOTENUFSPACE => -1765328247
  | KRB5_BADMSGTYPE => -1765328246
  | KRB5_CC_BADNAME => -1765328245
  | KRB5_CC_UNKNOWN_TYPE => -1765328244
  | KRB5_CC_NOTFOUND => -1765328243
  | KRB5_CC_END => -1765328242
  | KRB5_NO_TKT_SUPPLIED => -1765328241
  | KRB5KRB_AP_WRONG_PRINC => -1765328240
  | KRB5KRB_AP_ERR_TKT_INVALID => -1765328239
  | KRB5_PRINC_NOMATCH => -1765328238
  | KRB5_KDCREP_MODIFIED => -1765328237
  | KRB5_KDCREP_SKEW => -1765328236
  | KRB5_IN_TKT_REALM_MISMATCH => -1765328235
  | KRB5_PROG_ETYPE_NOSUPP => -1765328234
  | KRB5_PROG_KEYTYPE_NOSUPP => -1765328233
  | KRB5_WRONG_ETYPE => -1765328232
  | KRB5_PROG_SUMTYPE_NOSUPP => -1765328231
  | KRB5_REALM_UNKNOWN => -1765328230
  | KRB5_SERVICE_UNKNOWN => -1765328229
  | KRB5_KDC_UNREACH => -1765328228
  | KRB5_NO_LOCALNAME => -1765328227
  | KRB5_MUTUAL_FAILED => -1765328226
  | KRB5_RC_TYPE_EXISTS => -1765328225
  | KRB5_RC_MALLOC => -1765328224
  | KRB5_RC_TYPE_NOTFOUND => -1765328223
  | KRB5_RC_UNKNOWN => -1765328222
  | KRB5_RC_REPLAY => -1765328221
  | KRB5_RC_IO => -1765328220
  | KRB5_RC_NOIO => -1765328219
  | KRB5_RC_PARSE => -1765328218
  | KRB5_RC_IO_EOF => -1765328217
  | KRB5_RC_IO_MALLOC => -1765328216
  | KRB5_RC_IO_PERM => -1765328215
  | KRB5_RC_IO_IO => -1765328214
  | KRB5_RC_IO_UNKNOWN => -1765328213
  | KRB5_RC_IO_SPACE => -1765328212
  | KRB5_TRANS_CANTOPEN => -1765328211
  | KRB5_TRANS_BADFORMAT => -1765328210
  | KRB5_LNAME_CANTOPEN => -1765328209
  | KRB5_LNAME_NOTRANS => -1765328208
  | KRB5_LNAME_BADFORMAT => -1765328207
  | KRB5_CRYPTO_INTERNAL => -1765328206
  | KRB5_KT_BADNAME => -1765328205
  | KRB5_KT_UNKNOWN_TYPE => -1765328204
  | KRB5_KT_NOTFOUND => -1765328203
  | KRB5_KT_END => -1765328202
  | KRB5_KT_NOWRITE => -1765328201
  | KRB5_KT_IOERR => -1765328200
  | KRB5_NO_TKT_IN_RLM => -1765328199
  | KRB5DES_BAD_KEYPAR => -1765328198
  | KRB5DES_WEAK_KEY => -1765328197
  | KRB5_BAD_ENCTYPE => -1765328196
  | KRB5_BAD_KEYSIZE => -1765328195
  | KRB5_BAD_MSIZE => -1765328194
  | KRB5_CC_TYPE_EXISTS => -1765328193
  | KRB5_KT_TYPE_EXISTS => -1765328192
  | KRB5_CC_IO => -1765328191
  | KRB5_FCC_PERM => -1765328190
  | KRB5_FCC_NOFILE => -1765328189
  | KRB5_FCC_INTERNAL => -1765328188
  | KRB5_CC_WRITE => -1765328187
  | KRB5_CC_NOMEM => -1765328186
  | KRB5_CC_FORMAT => -1765328185
  | KRB5_CC_NOT_KTYPE => -1765328184
  | KRB5_INVALID_FLAGS => -1765328183
  | KRB5_NO_2ND_TKT => -1765328182
  | KRB5_NOCREDS_SUPPLIED => -1765328181
  | KRB5_SENDAUTH_BADAUTHVERS => -1765328180
  | KRB5_SENDAUTH_BADAPPLVERS => -1765328179
  | KRB5_SENDAUTH_BADRESPONSE => -1765328178
  | KRB5_SENDAUTH_REJECTED => -1765328177
  | KRB5_PREAUTH_BAD_TYPE => -1765328176
  | KRB5_PREAUTH_NO_KEY => -1765328175
  | KRB5_PREAUTH_FAILED => -1765328174
  | KRB5_RCACHE_BADVNO => -1765328173
  | KRB5_CCACHE_BADVNO => -1765328172
  | KRB5_KEYTAB_BADVNO => -1765328171
  | KRB5_PROG_ATYPE_NOSUPP => -1765328170
  | KRB5_RC_REQUIRED => -1765328169
  | KRB5_ERR_BAD_HOSTNAME => -1765328168
  | KRB5_ERR_HOST_REALM_UNKNOWN => -1765328167
  | KRB5_SNAME_UNSUPP_NAMETYPE => -1765328166
  | KRB5KRB_AP_ERR_V4_REPLY => -1765328165
  | KRB5_REALM_CANT_RESOLVE => -1765328164
  | KRB5_TKT_NOT_FORWARDABLE => -1765328163
  | KRB5_FWD_BAD_PRINCIPAL => -1765328162
  | KRB5_GET_IN_TKT_LOOP => -1765328161
  | KRB5_CONFIG_NODEFREALM => -1765328160
  | KRB5_SAM_UNSUPPORTED => -1765328159
  | KRB5_SAM_INVALID_ETYPE => -1765328158
  | KRB5_SAM_NO_CHECKSUM => -1765328157
  | KRB5_SAM_BAD_CHECKSUM => -1765328156
  | KRB5_KT_NAME_TOOLONG => -1765328155
  | KRB5_KT_KVNONOTFOUND => -1765328154
  | KRB5_APPL_EXPIRED => -1765328153
  | KRB5_LIB_EXPIRED => -1765328152
  | KRB5_CHPW_PWDNULL => -1765328151
  | KRB5_CHPW_FAIL => -1765328150
  | KRB5_KT_FORMAT => -1765328149
  | KRB5_NOPERM_ETYPE => -1765328148
  | KRB5_CONFIG_ETYPE_NOSUPP => -1765328147
  | KRB5_OBSOLETE_FN => -1765328146
  | KRB5_EAI_FAIL => -1765328145
  | KRB5_EAI_NODATA => -1765328144
  | KRB5_EAI_NONAME => -1765328143
  | KRB5_EAI_SERVICE => -1765328142
  | KRB5_ERR_NUMERIC_REALM => -1765328141
  | KRB5_ERR_BAD_S2K_PARAMS => -1765328140
  | KRB5_ERR_NO_SERVICE => -1765328139
  | KRB5_CC_READONLY => -1765328138
  | KRB5_CC_NOSUPP => -1765328137
  | KRB5_DELTAT_BADFORMAT => -1765328136
  | KRB5_PLUGIN_NO_HANDLE => -1765328135
  | KRB5_PLUGIN_OP_NOTSUPP => -1765328134
  | KRB5_ERR_INVALID_UTF8 => -1765328133
  | KRB5_ERR_FAST_REQUIRED => -1765328132
  | KRB5_LOCAL_ADDR_REQUIRED => -1765328131
  | KRB5_REMOTE_ADDR_REQUIRED => -1765328130
  | KRB5_TRACE_NOSUPP => -1765328129
  end.

(* SRC truenas_krb5/src/error.rs L 85-91 from_raw *)
Definition ErrCode_from_raw (raw : Z) : option ErrCode :=
  if raw =? -1765328384 then Some KRB5KDC_ERR_NONE
  else if raw =? -1765328383 then Some KRB5KDC_ERR_NAME_EXP
  else if raw =? -1765328382 then Some KRB5KDC_ERR_SERVICE_EXP
  else if raw =? -1765328381 then Some KRB5KDC_ERR_BAD_PVNO
  else if raw =? -1765328380 then Some KRB5KDC_ERR_C_OLD_MAST_KVNO
  else if raw =? -1765328379 then Some KRB5KDC_ERR_S_OLD_MAST_KVNO
  else if raw =? -1765328378 then Some KRB5KDC_ERR_C_PRINCIPAL_UNKNOWN
  else if raw =? -1765328377 then Some KRB5KDC_ERR_S_PRINCIPAL_UNKNOWN
  else if raw =? -1765328376 then Some KRB5KDC_ERR_PRINCIPAL_NOT_UNIQUE
  else if raw =? -1765328375 then Some KRB5KDC_ERR_NULL_KEY
  else if raw =? -1765328374 then Some KRB5KDC_ERR_CANNOT_POSTDATE
  else if raw =? -1765328373 then Some KRB5KDC_ERR_NEVER_VALID
  else if raw =? -1765328372 then Some KRB5KDC_ERR_POLICY
  else if raw =? -1765328371 then Some KRB5KDC_ERR_BADOPTION
  else if raw =? -1765328370 then Some KRB5KDC_ERR_ETYPE_NOSUPP
  else if raw =? -1765328369 then Some KRB5KDC_ERR_SUMTYPE_NOSUPP
  else if raw =? -1765328368 then Some KRB5KDC_ERR_PADATA_TYPE_NOSUPP
  else if raw =? -1765328367 then Some KRB5KDC_ERR_TRTYPE_NOSUPP
  else if raw =? -1765328366 then Some KRB5KDC_ERR_CLIENT_REVOKED
  else if raw =? -1765328365 then Some KRB5KDC_ERR_SERVICE_REVOKED
  else if raw =? -1765328364 then Some KRB5KDC_ERR_TGT_REVOKED
  else if raw =? -1765328363 then Some KRB5KDC_ERR_CLIENT_NOTYET
  else if raw =? -1765328362 then Some KRB5KDC_ERR_SERVICE_NOTYET
  else if raw =? -1765328361 then Some KRB5KDC_ERR_KEY_EXP
  else if raw =? -1765328360 then Some KRB5KDC_ERR_PREAUTH_FAILED
  else if raw =? -1765328359 then Some KRB5KDC_ERR_PREAUTH_REQUIRED
  else if raw =? -1765328358 then Some KRB5KDC_ERR_SERVER_NOMATCH
  else if raw =? -1765328357 then Some KRB5KDC_ERR_MUST_USE_USER2USER
  else if raw =? -1765328356 then Some KRB5KDC_ERR_PATH_NOT_ACCEPTED
  else if raw =? -1765328355 then Some KRB5KDC_ERR_SVC_UNAVAILABLE
  else if raw =? -1765328353 then Some KRB5KRB_AP_ERR_BAD_INTEGRITY
  else if raw =? -1765328352 then Some KRB5KRB_AP_ERR_TKT_EXPIRED
  else if raw =? -1765328351 then Some KRB5KRB_AP_ERR_TKT_NYV
  else if raw =? -1765328350 then Some KRB5KRB_AP_ERR_REPEAT
  else if raw =? -1765328349 then Some KRB5KRB_AP_ERR_NOT_US
  else if raw =? -1765328348 then Some KRB5KRB_AP_ERR_BADMATCH
  else if raw =? -1765328347 then Some KRB5KRB_AP_ERR_SKEW
  else if raw =? -1765328346 then Some KRB5KRB_AP_ERR_BADADDR
  else if raw =? -1765328345 then Some KRB5KRB_AP_ERR_BADVERSION
  else if raw =? -1765328344 then Some KRB5KRB_AP_ERR_MSG_TYPE
  else if raw =? -1765328343 then Some KRB5KRB_AP_ERR_MODIFIED
  else if raw =? -1765328342 then Some KRB5KRB_AP_ERR_BADORDER
  else if raw =? -1765328341 then Some KRB5KRB_AP_ERR_ILL_CR_TKT
  else if raw =? -1765328340 then Some KRB5KRB_AP_ERR_BADKEYVER
  else if raw =? -1765328339 then Some KRB5KRB_AP_ERR_NOKEY
  else if raw =? -1765328338 then Some KRB5KRB_AP_ERR_MUT_FAIL
  else if raw =? -1765328337 then Some KRB5KRB_AP_ERR_BADDIRECTION
  else if raw =? -1765328336 then Some KRB5KRB_AP_ERR_METHOD
  else if raw =? -1765328335 then Some KRB5KRB_AP_ERR_BADSEQ
  else if raw =? -1765328334 then Some KRB5KRB_AP_ERR_INAPP_CKSUM
  else if raw =? -1765328333 then Some KRB5KRB_AP_PATH_NOT_ACCEPTED
  else if raw =? -1765328332 then Some KRB5KRB_ERR_RESPONSE_TOO_BIG
  else if raw =? -1765328324 then Some KRB5KRB_ERR_GENERIC
  else if raw =? -1765328323 then Some KRB5KRB_ERR_FIELD_TOOLONG
  else if raw =? -1765328322 then Some KRB5KDC_ERR_CLIENT_NOT_TRUSTED
  else if raw =? -1765328321 then Some KRB5KDC_ERR_KDC_NOT_TRUSTED
  else if raw =? -1765328320 then Some KRB5KDC_ERR_INVALID_SIG
  else if raw =? -1765328319 then Some KRB5KDC_ERR_DH_KEY_PARAMETERS_NOT_ACCEPTED
  else if raw =? -1765328318 then Some KRB5KDC_ERR_CERTIFICATE_MISMATCH
  else if raw =? -1765328317 then Some KRB5KRB_AP_ERR_NO_TGT
  else if raw =? -1765328316 then Some KRB5KDC_ERR_WRONG_REALM
  else if raw =? -1765328315 then Some KRB5KRB_AP_ERR_USER_TO_USER_REQUIRED
  else if raw =? -1765328314 then Some KRB5KDC_ERR_CANT_VERIFY_CERTIFICATE
  else if raw =? -1765328313 then Some KRB5KDC_ERR_INVALID_CERTIFICATE
  else if raw =? -1765328312 then Some KRB5KDC_ERR_REVOKED_CERTIFICATE
  else if raw =? -1765328311 then Some KRB5KDC_ERR_REVOCATION_STATUS_UNKNOWN
  else if raw =? -1765328310 then Some KRB5KDC_ERR_REVOCATION_STATUS_UNAVAILABLE
  else if raw =? -1765328309 then Some KRB5KDC_ERR_CLIENT_NAME_MISMATCH
  else if raw =? -1765328308 then Some KRB5KDC_ERR_KDC_NAME_MISMATCH
  else if raw =? -1765328307 then Some KRB5KDC_ERR_INCONSISTENT_KEY_PURPOSE
  else if raw =? -1765328306 then Some KRB5KDC_ERR_DIGEST_IN_CERT_NOT_ACCEPTED
  else if raw =? -1765328305 then Some KRB5KDC_ERR_PA_CHECKSUM_MUST_BE_INCLUDED
  else if raw =? -1765328304 then Some KRB5KDC_ERR_DIGEST_IN_SIGNED_DATA_NOT_ACCEPTED
  else if raw =? -1765328303 then Some KRB5KDC_ERR_PUBLIC_KEY_ENCRYPTION_NOT_SUPPORTED
  else if raw =? -1765328299 then Some KRB5KRB_AP_ERR_IAKERB_KDC_NOT_FOUND
  else if raw =? -1765328298 then Some KRB5KRB_AP_ERR_IAKERB_KDC_NO_RESPONSE
  else if raw =? -1765328294 then Some KRB5KDC_ERR_PREAUTH_EXPIRED
  else if raw =? -1765328293 then Some KRB5KDC_ERR_MORE_PREAUTH_DATA_REQUIRED
  else if raw =? -1765328291 then Some KRB5KDC_ERR_UNKNOWN_CRITICAL_FAST_OPTION
  else if raw =? -1765328284 then Some KRB5KDC_ERR_NO_ACCEPTABLE_KDF
  else if raw =? -1765328256 then Some KRB5_ERR_RCSID
  else if raw =? -1765328255 then Some KRB5_LIBOS_BADLOCKFLAG
  else if raw =? -1765328254 then Some KRB5_LIBOS_CANTREADPWD
  else if raw =? -1765328253 then Some KRB5_LIBOS_BADPWDMATCH
  else if raw =? -1765328252 then Some KRB5_LIBOS_PWDINTR
  else if raw =? -1765328251 then Some KRB5_PARSE_ILLCHAR
  else if raw =? -1765328250 then Some KRB5_PARSE_MALFORMED
  else if raw =? -1765328249 then Some KRB5_CONFIG_CANTOPEN
  else if raw =? -1765328248 then Some KRB5_CONFIG_BADFORMAT
  else if raw =? -1765328247 then Some KRB5_CONFIG_NOTENUFSPACE
  else if raw =? -1765328246 then Some KRB5_BADMSGTYPE
  else if raw =? -1765328245 then Some KRB5_CC_BADNAME
  else if raw =? -1765328244 then Some KRB5_CC_UNKNOWN_TYPE
  else if raw =? -1765328243 then Some KRB5_CC_NOTFOUND
  else if raw =? -1765328242 then Some KRB5_CC_END
  else if raw =? -1765328241 then Some KRB5_NO_TKT_SUPPLIED
  else if raw =? -1765328240 then Some KRB5KRB_AP_WRONG_PRINC
  else if raw =? -1765328239 then Some KRB5KRB_AP_ERR_TKT_INVALID
  else if raw =? -1765328238 then Some KRB5_PRINC_NOMATCH
  else if raw =? -1765328237 then Some KRB5_KDCREP_MODIFIED
  else if raw =? -1765328236 then Some KRB5_KDCREP_SKEW
  else if raw =? -1765328235 then Some KRB5_IN_TKT_REALM_MISMATCH
  else if raw =? -1765328234 then Some KRB5_PROG_ETYPE_NOSUPP
  else if raw =? -1765328233 then Some KRB5_PROG_KEYTYPE_NOSUPP
  else if raw =? -1765328232 then Some KRB5_WRONG_ETYPE
  else if raw =? -1765328231 then Some KRB5_PROG_SUMTYPE_NOSUPP
  else if raw =? -1765328230 then Some KRB5_REALM_UNKNOWN
  else if raw =? -1765328229 then Some KRB5_SERVICE_UNKNOWN
  else if raw =? -1765328228 then Some KRB5_KDC_UNREACH
  else if raw =? -1765328227 then Some KRB5_NO_LOCALNAME
  else if raw =? -1765328226 then Some KRB5_MUTUAL_FAILED
  else if raw =? -1765328225 then Some KRB5_RC_TYPE_EXISTS
  else if raw =? -1765328224 then Some KRB5_RC_MALLOC
  else if raw =? -1765328223 then Some KRB5_RC_TYPE_NOTFOUND
  else if raw =? -1765328222 then Some KRB5_RC_UNKNOWN
  else if raw =? -1765328221 then Some KRB5_RC_REPLAY
  else if raw =? -1765328220 then Some KRB5_RC_IO
  else if raw =? -1765328219 then Some KRB5_RC_NOIO
  else if raw =? -1765328218 then Some KRB5_RC_PARSE
  else if raw =? -1765328217 then Some KRB5_RC_IO_EOF
  else if raw =? -1765328216 then Some KRB5_RC_IO_MALLOC
  else if raw =? -1765328215 then Some KRB5_RC_IO_PERM
  else if raw =? -1765328214 then Some KRB5_RC_IO_IO
  else if raw =? -1765328213 then Some KRB5_RC_IO_UNKNOWN
  else if raw =? -1765328212 then Some KRB5_RC_IO_SPACE
  else if raw =? -1765328211 then Some KRB5_TRANS_CANTOPEN
  else if raw =? -1765328210 then Some KRB5_TRANS_BADFORMAT
  else if raw =? -1765328209 then Some KRB5_LNAME_CANTOPEN
  else if raw =? -1765328208 then Some KRB5_LNAME_NOTRANS
  else if raw =? -1765328207 then Some KRB5_LNAME_BADFORMAT
  else if raw =? -1765328206 then Some KRB5_CRYPTO_INTERNAL
  else if raw =? -1765328205 then Some KRB5_KT_BADNAME
  else if raw =? -1765328204 then Some KRB5_KT_UNKNOWN_TYPE
  else if raw =? -1765328203 then Some KRB5_KT_NOTFOUND
  else if raw =? -1765328202 then Some KRB5_KT_END
  else if raw =? -1765328201 then Some KRB5_KT_NOWRITE
  else if raw =? -1765328200 then Some KRB5_KT_IOERR
  else if raw =? -1765328199 then Some KRB5_NO_TKT_IN_RLM
  else if raw =? -1765328198 then Some KRB5DES_BAD_KEYPAR
  else if raw =? -1765328197 then Some KRB5DES_WEAK_KEY
  else if raw =? -1765328196 then Some KRB5_BAD_ENCTYPE
  else if raw =? -1765328195 then Some KRB5_BAD_KEYSIZE
  else if raw =? -1765328194 then Some KRB5_BAD_MSIZE
  else if raw =? -1765328193 then Some KRB5_CC_TYPE_EXISTS
  else if raw =? -1765328192 then Some KRB5_KT_TYPE_EXISTS
  else if raw =? -1765328191 then Some KRB5_CC_IO
  else if raw =? -1765328190 then Some KRB5_FCC_PERM
  else if raw =? -1765328189 then Some KRB5_FCC_NOFILE
  else if raw =? -1765328188 then Some KRB5_FCC_INTERNAL
  else if raw =? -1765328187 then Some KRB5_CC_WRITE
  else if raw =? -1765328186 then Some KRB5_CC_NOMEM
  else if raw =? -1765328185 then Some KRB5_CC_FORMAT
  else if raw =? -1765328184 then Some KRB5_CC_NOT_KTYPE
  else if raw =? -1765328183 then Some KRB5_INVALID_FLAGS
  else if raw =? -1765328182 then Some KRB5_NO_2ND_TKT
  else if raw =? -1765328181 then Some KRB5_NOCREDS_SUPPLIED
  else if raw =? -1765328180 then Some KRB5_SENDAUTH_BADAUTHVERS
  else if raw =? -1765328179 then Some KRB5_SENDAUTH_BADAPPLVERS
  else if raw =? -1765328178 then Some KRB5_SENDAUTH_BADRESPONSE
  else if raw =? -1765328177 then Some KRB5_SENDAUTH_REJECTED
  else if raw =? -1765328176 then Some KRB5_PREAUTH_BAD_TYPE
  else if raw =? -1765328175 then Some KRB5_PREAUTH_NO_KEY
  else if raw =? -1765328174 then Some KRB5_PREAUTH_FAILED
  else if raw =? -1765328173 then Some KRB5_RCACHE_BADVNO
  else if raw =? -1765328172 then Some KRB5_CCACHE_BADVNO
  else if raw =? -1765328171 then Some KRB5_KEYTAB_BADVNO
  else if raw =? -1765328170 then Some KRB5_PROG_ATYPE_NOSUPP
  else if raw =? -1765328169 then Some KRB5_RC_REQUIRED
  else if raw =? -1765328168 then Some KRB5_ERR_BAD_HOSTNAME
  else if raw =? -1765328167 then Some KRB5_ERR_HOST_REALM_UNKNOWN
  else if raw =? -1765328166 then Some KRB5_SNAME_UNSUPP_NAMETYPE
  else if raw =? -1765328165 then Some KRB5KRB_AP_ERR_V4_REPLY
  else if raw =? -1765328164 then Some KRB5_REALM_CANT_RESOLVE
  else if raw =? -1765328163 then Some KRB5_TKT_NOT_FORWARDABLE
  else if raw =? -1765328162 then Some KRB5_FWD_BAD_PRINCIPAL
  else if raw =? -1765328161 then Some KRB5_GET_IN_TKT_LOOP
  else if raw =? -1765328160 then Some KRB5_CONFIG_NODEFREALM
  else if raw =? -1765328159 then Some KRB5_SAM_UNSUPPORTED
  else if raw =? -1765328158 then Some KRB5_SAM_INVALID_ETYPE
  else if raw =? -1765328157 then Some KRB5_SAM_NO_CHECKSUM
  else if raw =? -1765328156 then Some KRB5_SAM_BAD_CHECKSUM
  else if raw =? -1765328155 then Some KRB5_KT_NAME_TOOLONG
  else if raw =? -1765328154 then Some KRB5_KT_KVNONOTFOUND
  else if raw =? -1765328153 then Some KRB5_APPL_EXPIRED
  else if raw =? -1765328152 then Some KRB5_LIB_EXPIRED
  else if raw =? -1765328151 then Some KRB5_CHPW_PWDNULL
  else if raw =? -1765328150 then Some KRB5_CHPW_FAIL
  else if raw =? -1765328149 then Some KRB5_KT_FORMAT
  else if raw =? -1765328148 then Some KRB5_NOPERM_ETYPE
  else if raw =? -1765328147 then Some KRB5_CONFIG_ETYPE_NOSUPP
  else if raw =? -1765328146 then Some KRB5_OBSOLETE_FN
  else if raw =? -1765328145 then Some KRB5_EAI_FAIL
  else if raw =? -1765328144 then Some KRB5_EAI_NODATA
  else if raw =? -1765328143 then Some KRB5_EAI_NONAME
  else if raw =? -1765328142 then Some KRB5_EAI_SERVICE
  else if raw =? -1765328141 then Some KRB5_ERR_NUMERIC_REALM
  else if raw =? -1765328140 then Some KRB5_ERR_BAD_S2K_PARAMS
  else if raw =? -1765328139 then Some KRB5_ERR_NO_SERVICE
  else if raw =? -1765328138 then Some KRB5_CC_READONLY
  else if raw =? -1765328137 then Some KRB5_CC_NOSUPP
  else if raw =? -1765328136 then Some KRB5_DELTAT_BADFORMAT
  else if raw =? -1765328135 then Some KRB5_PLUGIN_NO_HANDLE
  else if raw =? -1765328134 then Some KRB5_PLUGIN_OP_NOTSUPP
  else if raw =? -1765328133 then Some KRB5_ERR_INVALID_UTF8
  else if raw =? -1765328132 then Some KRB5_ERR_FAST_REQUIRED
  else if raw =? -1765328131 then Some KRB5_LOCAL_ADDR_REQUIRED
  else if raw =? -1765328130 then Some KRB5_REMOTE_ADDR_REQUIRED
  else if raw =? -1765328129 then Some KRB5_TRACE_NOSUPP
  else None.

(* SRC truenas_krb5/src/error.rs L 93-98 name *)
Definition ErrCode_name (self : ErrCode) : string :=
  match self with
  | KRB5KDC_ERR_NONE => "KRB5KDC_ERR_NONE"
  | KRB5KDC_ERR_NAME_EXP => "KRB5KDC_ERR_NAME_EXP"
  | KRB5KDC_ERR_SERVICE_EXP => "KRB5KDC_ERR_SERVICE_EXP"
  | KRB5KDC_ERR_BAD_PVNO => "KRB5KDC_ERR_BAD_PVNO"
  | KRB5KDC_ERR_C_OLD_MAST_KVNO => "KRB5KDC_ERR_C_OLD_MAST_KVNO"
  | KRB5KDC_ERR_S_OLD_MAST_KVNO => "KRB5KDC_ERR_S_OLD_MAST_KVNO"
  | KRB5KDC_ERR_C_PRINCIPAL_UNKNOWN => "KRB5KDC_ERR_C_PRINCIPAL_UNKNOWN"
  | KRB5KDC_ERR_S_PRINCIPAL_UNKNOWN => "KRB5KDC_ERR_S_PRINCIPAL_UNKNOWN"
  | KRB5KDC_ERR_PRINCIPAL_NOT_UNIQUE => "KRB5KDC_ERR_PRINCIPAL_NOT_UNIQUE"
  | KRB5KDC_ERR_NULL_KEY => "KRB5KDC_ERR_NULL_KEY"
  | KRB5KDC_ERR_CANNOT_POSTDATE => "KRB5KDC_ERR_CANNOT_POSTDATE"
  | KRB5KDC_ERR_NEVER_VALID => "KRB5KDC_ERR_NEVER_VALID"
  | KRB5KDC_ERR_POLICY => "KRB5KDC_ERR_POLICY"
  | KRB5KDC_ERR_BADOPTION => "KRB5KDC_ERR_BADOPTION"
  | KRB5KDC_ERR_ETYPE_NOSUPP => "KRB5KDC_ERR_ETYPE_NOSUPP"
  | KRB5KDC_ERR_SUMTYPE_NOSUPP => "KRB5KDC_ERR_SUMTYPE_NOSUPP"
  | KRB5KDC_ERR_PADATA_TYPE_NOSUPP => "KRB5KDC_ERR_PADATA_TYPE_NOSUPP"
  | KRB5KDC_ERR_TRTYPE_NOSUPP => "KRB5KDC_ERR_TRTYPE_NOSUPP"
  | KRB5KDC_ERR_CLIENT_REVOKED => "KRB5KDC_ERR_CLIENT_REVOKED"
  | KRB5KDC_ERR_SERVICE_REVOKED => "KRB5KDC_ERR_SERVICE_REVOKED"
  | KRB5KDC_ERR_TGT_REVOKED => "KRB5KDC_ERR_TGT_REVOKED"
  | KRB5KDC_ERR_CLIENT_NOTYET => "KRB5KDC_ERR_CLIENT_NOTYET"
  | KRB5KDC_ERR_SERVICE_NOTYET => "KRB5KDC_ERR_SERVICE_NOTYET"
  | KRB5KDC_ERR_KEY_EXP => "KRB5KDC_ERR_KEY_EXP"
  | KRB5KDC_ERR_PREAUTH_FAILED => "KRB5KDC_ERR_PREAUTH_FAILED"
  | KRB5KDC_ERR_PREAUTH_REQUIRED => "KRB5KDC_ERR_PREAUTH_REQUIRED"
  | KRB5KDC_ERR_SERVER_NOMATCH => "KRB5KDC_ERR_SERVER_NOMATCH"
  | KRB5KDC_ERR_MUST_USE_USER2USER => "KRB5KDC_ERR_MUST_USE_USER2USER"
  | KRB5KDC_ERR_PATH_NOT_ACCEPTED => "KRB5KDC_ERR_PATH_NOT_ACCEPTED"
  | KRB5KDC_ERR_SVC_UNAVAILABLE => "KRB5KDC_ERR_SVC_UNAVAILABLE"
  | KRB5KRB_AP_ERR_BAD_INTEGRITY => "KRB5KRB_AP_ERR_BAD_INTEGRITY"
  | KRB5KRB_AP_ERR_TKT_EXPIRED => "KRB5KRB_AP_ERR_TKT_EXPIRED"
  | KRB5KRB_AP_ERR_TKT_NYV => "KRB5KRB_AP_ERR_TKT_NYV"
  | KRB5KRB_AP_ERR_REPEAT => "KRB5KRB_AP_ERR_REPEAT"
  | KRB5KRB_AP_ERR_NOT_US => "KRB5KRB_AP_ERR_NOT_US"
  | KRB5KRB_AP_ERR_BADMATCH => "KRB5KRB_AP_ERR_BADMATCH"
  | KRB5KRB_AP_ERR_SKEW => "KRB5KRB_AP_ERR_SKEW"
  | KRB5KRB_AP_ERR_BADADDR => "KRB5KRB_AP_ERR_BADADDR"
  | KRB5KRB_AP_ERR_BADVERSION => "KRB5KRB_AP_ERR_BADVERSION"
  | KRB5KRB_AP_ERR_MSG_TYPE => "KRB5KRB_AP_ERR_MSG_TYPE"
  | KRB5KRB_AP_ERR_MODIFIED => "KRB5KRB_AP_ERR_MODIFIED"
  | KRB5KRB_AP_ERR_BADORDER => "KRB5KRB_AP_ERR_BADORDER"
  | KRB5KRB_AP_ERR_ILL_CR_TKT => "KRB5KRB_AP_ERR_ILL_CR_TKT"
  | KRB5KRB_AP_ERR_BADKEYVER => "KRB5KRB_AP_ERR_BADKEYVER"
  | KRB5KRB_AP_ERR_NOKEY => "KRB5KRB_AP_ERR_NOKEY"
  | KRB5KRB_AP_ERR_MUT_FAIL => "KRB5KRB_AP_ERR_MUT_FAIL"
  | KRB5KRB_AP_ERR_BADDIRECTION => "KRB5KRB_AP_ERR_BADDIRECTION"
  | KRB5KRB_AP_ERR_METHOD => "KRB5KRB_AP_ERR_METHOD"
  | KRB5KRB_AP_ERR_BADSEQ => "KRB5KRB_AP_ERR_BADSEQ"
  | KRB5KRB_AP_ERR_INAPP_CKSUM => "KRB5KRB_AP_ERR_INAPP_CKSUM"
  | KRB5KRB_AP_PATH_NOT_ACCEPTED => "KRB5KRB_AP_PATH_NOT_ACCEPTED"
  | KRB5KRB_ERR_RESPONSE_TOO_BIG => "KRB5KRB_ERR_RESPONSE_TOO_BIG"
  | KRB5KRB_ERR_GENERIC => "KRB5KRB_ERR_GENERIC"
  | KRB5KRB_ERR_FIELD_TOOLONG => "KRB5KRB_ERR_FIELD_TOOLONG"
  | KRB5KDC_ERR_CLIENT_NOT_TRUSTED => "KRB5KDC_ERR_CLIENT_NOT_TRUSTED"
  | KRB5KDC_ERR_KDC_NOT_TRUSTED => "KRB5KDC_ERR_KDC_NOT_TRUSTED"
  | KRB5KDC_ERR_INVALID_SIG => "KRB5KDC_ERR_INVALID_SIG"
  | KRB5KDC_ERR_DH_KEY_PARAMETERS_NOT_ACCEPTED => "KRB5KDC_ERR_DH_KEY_PARAMETERS_NOT_ACCEPTED"
  | KRB5KDC_ERR_CERTIFICATE_MISMATCH => "KRB5KDC_ERR_CERTIFICATE_MISMATCH"
  | KRB5KRB_AP_ERR_NO_TGT => "KRB5KRB_AP_ERR_NO_TGT"
  | KRB5KDC_ERR_WRONG_REALM => "KRB5KDC_ERR_WRONG_REALM"
  | KRB5KRB_AP_ERR_USER_TO_USER_REQUIRED => "KRB5KRB_AP_ERR_USER_TO_USER_REQUIRED"
  | KRB5KDC_ERR_CANT_VERIFY_CERTIFICATE => "KRB5KDC_ERR_CANT_VERIFY_CERTIFICATE"
  | KRB5KDC_ERR_INVALID_CERTIFICATE => "KRB5KDC_ERR_INVALID_CERTIFICATE"
  | KRB5KDC_ERR_REVOKED_CERTIFICATE => "KRB5KDC_ERR_REVOKED_CERTIFICATE"
  | KRB5KDC_ERR_REVOCATION_STATUS_UNKNOWN => "KRB5KDC_ERR_REVOCATION_STATUS_UNKNOWN"
  | KRB5KDC_ERR_REVOCATION_STATUS_UNAVAILABLE => "KRB5KDC_ERR_REVOCATION_STATUS_UNAVAILABLE"
  | KRB5KDC_ERR_CLIENT_NAME_MISMATCH => "KRB5KDC_ERR_CLIENT_NAME_MISMATCH"
  | KRB5KDC_ERR_KDC_NAME_MISMATCH => "KRB5KDC_ERR_KDC_NAME_MISMATCH"
  | KRB5KDC_ERR_INCONSISTENT_KEY_PURPOSE => "KRB5KDC_ERR_INCONSISTENT_KEY_PURPOSE"
  | KRB5KDC_ERR_DIGEST_IN_CERT_NOT_ACCEPTED => "KRB5KDC_ERR_DIGEST_IN_CERT_NOT_ACCEPTED"
  | KRB5KDC_ERR_PA_CHECKSUM_MUST_BE_INCLUDED => "KRB5KDC_ERR_PA_CHECKSUM_MUST_BE_INCLUDED"
  | KRB5KDC_ERR_DIGEST_IN_SIGNED_DATA_NOT_ACCEPTED => "KRB5KDC_ERR_DIGEST_IN_SIGNED_DATA_NOT_ACCEPTED"
  | KRB5KDC_ERR_PUBLIC_KEY_ENCRYPTION_NOT_SUPPORTED => "KRB5KDC_ERR_PUBLIC_KEY_ENCRYPTION_NOT_SUPPORTED"
  | KRB5KRB_AP_ERR_IAKERB_KDC_NOT_FOUND => "KRB5KRB_AP_ERR_IAKERB_KDC_NOT_FOUND"
  | KRB5KRB_AP_ERR_IAKERB_KDC_NO_RESPONSE => "KRB5KRB_AP_ERR_IAKERB_KDC_NO_RESPONSE"
  | KRB5KDC_ERR_PREAUTH_EXPIRED => "KRB5KDC_ERR_PREAUTH_EXPIRED"
  | KRB5KDC_ERR_MORE_PREAUTH_DATA_REQUIRED => "KRB5KDC_ERR_MORE_PREAUTH_DATA_REQUIRED"
  | KRB5KDC_ERR_UNKNOWN_CRITICAL_FAST_OPTION => "KRB5KDC_ERR_UNKNOWN_CRITICAL_FAST_OPTION"
  | KRB5KDC_ERR_NO_ACCEPTABLE_KDF => "KRB5KDC_ERR_NO_ACCEPTABLE_KDF"
  | KRB5_ERR_RCSID => "KRB5_ERR_RCSID"
  | KRB5_LIBOS_BADLOCKFLAG => "KRB5_LIBOS_BADLOCKFLAG"
  | KRB5_LIBOS_CANTREADPWD => "KRB5_LIBOS_CANTREADPWD"
  | KRB5_LIBOS_BADPWDMATCH => "KRB5_LIBOS_BADPWDMATCH"
  | KRB5_LIBOS_PWDINTR => "KRB5_LIBOS_PWDINTR"
  | KRB5_PARSE_ILLCHAR => "KRB5_PARSE_ILLCHAR"
  | KRB5_PARSE_MALFORMED => "KRB5_PARSE_MALFORMED"
  | KRB5_CONFIG_CANTOPEN => "KRB5_CONFIG_CANTOPEN"
  | KRB5_CONFIG_BADFORMAT => "KRB5_CONFIG_BADFORMAT"
  | KRB5_CONFIG_NOTENUFSPACE => "KRB5_CONFIG_NOTENUFSPACE"
  | KRB5_BADMSGTYPE => "KRB5_BADMSGTYPE"
  | KRB5_CC_BADNAME => "KRB5_CC_BADNAME"
  | KRB5_CC_UNKNOWN_TYPE => "KRB5_CC_UNKNOWN_TYPE"
  | KRB5_CC_NOTFOUND => "KRB5_CC_NOTFOUND"
  | KRB5_CC_END => "KRB5_CC_END"
  | KRB5_NO_TKT_SUPPLIED => "KRB5_NO_TKT_SUPPLIED"
  | KRB5KRB_AP_WRONG_PRINC => "KRB5KRB_AP_WRONG_PRINC"
  | KRB5KRB_AP_ERR_TKT_INVALID => "KRB5KRB_AP_ERR_TKT_INVALID"
  | KRB5_PRINC_NOMATCH => "KRB5_PRINC_NOMATCH"
  | KRB5_KDCREP_MODIFIED => "KRB5_KDCREP_MODIFIED"
  | KRB5_KDCREP_SKEW => "KRB5_KDCREP_SKEW"
  | KRB5_IN_TKT_REALM_MISMATCH => "KRB5_IN_TKT_REALM_MISMATCH"
  | KRB5_PROG_ETYPE_NOSUPP => "KRB5_PROG_ETYPE_NOSUPP"
  | KRB5_PROG_KEYTYPE_NOSUPP => "KRB5_PROG_KEYTYPE_NOSUPP"
  | KRB5_WRONG_ETYPE => "KRB5_WRONG_ETYPE"
  | KRB5_PROG_SUMTYPE_NOSUPP => "KRB5_PROG_SUMTYPE_NOSUPP"
  | KRB5_REALM_UNKNOWN => "KRB5_REALM_UNKNOWN"
  | KRB5_SERVICE_UNKNOWN => "KRB5_SERVICE_UNKNOWN"
  | KRB5_KDC_UNREACH => "KRB5_KDC_UNREACH"
  | KRB5_NO_LOCALNAME => "KRB5_NO_LOCALNAME"
  | KRB5_MUTUAL_FAILED => "KRB5_MUTUAL_FAILED"
  | KRB5_RC_TYPE_EXISTS => "KRB5_RC_TYPE_EXISTS"
  | KRB5_RC_MALLOC => "KRB5_RC_MALLOC"
  | KRB5_RC_TYPE_NOTFOUND => "KRB5_RC_TYPE_NOTFOUND"
  | KRB5_RC_UNKNOWN => "KRB5_RC_UNKNOWN"
  | KRB5_RC_REPLAY => "KRB5_RC_REPLAY"
  | KRB5_RC_IO => "KRB5_RC_IO"
  | KRB5_RC_NOIO => "KRB5_RC_NOIO"
  | KRB5_RC_PARSE => "KRB5_RC_PARSE"
  | KRB5_RC_IO_EOF => "KRB5_RC_IO_EOF"
  | KRB5_RC_IO_MALLOC => "KRB5_RC_IO_MALLOC"
  | KRB5_RC_IO_PERM => "KRB5_RC_IO_PERM"
  | KRB5_RC_IO_IO => "KRB5_RC_IO_IO"
  | KRB5_RC_IO_UNKNOWN => "KRB5_RC_IO_UNKNOWN"
  | KRB5_RC_IO_SPACE => "KRB5_RC_IO_SPACE"
  | KRB5_TRANS_CANTOPEN => "KRB5_TRANS_CANTOPEN"
  | KRB5_TRANS_BADFORMAT => "KRB5_TRANS_BADFORMAT"
  | KRB5_LNAME_CANTOPEN => "KRB5_LNAME_CANTOPEN"
  | KRB5_LNAME_NOTRANS => "KRB5_LNAME_NOTRANS"
  | KRB5_LNAME_BADFORMAT => "KRB5_LNAME_BADFORMAT"
  | KRB5_CRYPTO_INTERNAL => "KRB5_CRYPTO_INTERNAL"
  | KRB5_KT_BADNAME => "KRB5_KT_BADNAME"
  | KRB5_KT_UNKNOWN_TYPE => "KRB5_KT_UNKNOWN_TYPE"
  | KRB5_KT_NOTFOUND => "KRB5_KT_NOTFOUND"
  | KRB5_KT_END => "KRB5_KT_END"
  | KRB5_KT_NOWRITE => "KRB5_KT_NOWRITE"
  | KRB5_KT_IOERR => "KRB5_KT_IOERR"
  | KRB5_NO_TKT_IN_RLM => "KRB5_NO_TKT_IN_RLM"
  | KRB5DES_BAD_KEYPAR => "KRB5DES_BAD_KEYPAR"
  | KRB5DES_WEAK_KEY => "KRB5DES_WEAK_KEY"
  | KRB5_BAD_ENCTYPE => "KRB5_BAD_ENCTYPE"
  | KRB5_BAD_KEYSIZE => "KRB5_BAD_KEYSIZE"
  | KRB5_BAD_MSIZE => "KRB5_BAD_MSIZE"
  | KRB5_CC_TYPE_EXISTS => "KRB5_CC_TYPE_EXISTS"
  | KRB5_KT_TYPE_EXISTS => "KRB5_KT_TYPE_EXISTS"
  | KRB5_CC_IO => "KRB5_CC_IO"
  | KRB5_FCC_PERM => "KRB5_FCC_PERM"
  | KRB5_FCC_NOFILE => "KRB5_FCC_NOFILE"
  | KRB5_FCC_INTERNAL => "KRB5_FCC_INTERNAL"
  | KRB5_CC_WRITE => "KRB5_CC_WRITE"
  | KRB5_CC_NOMEM => "KRB5_CC_NOMEM"
  | KRB5_CC_FORMAT => "KRB5_CC_FORMAT"
  | KRB5_CC_NOT_KTYPE => "KRB5_CC_NOT_KTYPE"
  | KRB5_INVALID_FLAGS => "KRB5_INVALID_FLAGS"
  | KRB5_NO_2ND_TKT => "KRB5_NO_2ND_TKT"
  | KRB5_NOCREDS_SUPPLIED => "KRB5_NOCREDS_SUPPLIED"
  | KRB5_SENDAUTH_BADAUTHVERS => "KRB5_SENDAUTH_BADAUTHVERS"
  | KRB5_SENDAUTH_BADAPPLVERS => "KRB5_SENDAUTH_BADAPPLVERS"
  | KRB5_SENDAUTH_BADRESPONSE => "KRB5_SENDAUTH_BADRESPONSE"
  | KRB5_SENDAUTH_REJECTED => "KRB5_SENDAUTH_REJECTED"
  | KRB5_PREAUTH_BAD_TYPE => "KRB5_PREAUTH_BAD_TYPE"
  | KRB5_PREAUTH_NO_KEY => "KRB5_PREAUTH_NO_KEY"
  | KRB5_PREAUTH_FAILED => "KRB5_PREAUTH_FAILED"
  | KRB5_RCACHE_BADVNO => "KRB5_RCACHE_BADVNO"
  | KRB5_CCACHE_BADVNO => "KRB5_CCACHE_BADVNO"
  | KRB5_KEYTAB_BADVNO => "KRB5_KEYTAB_BADVNO"
  | KRB5_PROG_ATYPE_NOSUPP => "KRB5_PROG_ATYPE_NOSUPP"
  | KRB5_RC_REQUIRED => "KRB5_RC_REQUIRED"
  | KRB5_ERR_BAD_HOSTNAME => "KRB5_ERR_BAD_HOSTNAME"
  | KRB5_ERR_HOST_REALM_UNKNOWN => "KRB5_ERR_HOST_REALM_UNKNOWN"
  | KRB5_SNAME_UNSUPP_NAMETYPE => "KRB5_SNAME_UNSUPP_NAMETYPE"
  | KRB5KRB_AP_ERR_V4_REPLY => "KRB5KRB_AP_ERR_V4_REPLY"
  | KRB5_REALM_CANT_RESOLVE => "KRB5_REALM_CANT_RESOLVE"
  | KRB5_TKT_NOT_FORWARDABLE => "KRB5_TKT_NOT_FORWARDABLE"
  | KRB5_FWD_BAD_PRINCIPAL => "KRB5_FWD_BAD_PRINCIPAL"
  | KRB5_GET_IN_TKT_LOOP => "KRB5_GET_IN_TKT_LOOP"
  | KRB5_CONFIG_NODEFREALM => "KRB5_CONFIG_NODEFREALM"
  | KRB5_SAM_UNSUPPORTED => "KRB5_SAM_UNSUPPORTED"
  | KRB5_SAM_INVALID_ETYPE => "KRB5_SAM_INVALID_ETYPE"
  | KRB5_SAM_NO_CHECKSUM => "KRB5_SAM_NO_CHECKSUM"
  | KRB5_SAM_BAD_CHECKSUM => "KRB5_SAM_BAD_CHECKSUM"
  | KRB5_KT_NAME_TOOLONG => "KRB5_KT_NAME_TOOLONG"
  | KRB5_KT_KVNONOTFOUND => "KRB5_KT_KVNONOTFOUND"
  | KRB5_APPL_EXPIRED => "KRB5_APPL_EXPIRED"
  | KRB5_LIB_EXPIRED => "KRB5_LIB_EXPIRED"
  | KRB5_CHPW_PWDNULL => "KRB5_CHPW_PWDNULL"
  | KRB5_CHPW_FAIL => "KRB5_CHPW_FAIL"
  | KRB5_KT_FORMAT => "KRB5_KT_FORMAT"
  | KRB5_NOPERM_ETYPE => "KRB5_NOPERM_ETYPE"
  | KRB5_CONFIG_ETYPE_NOSUPP => "KRB5_CONFIG_ETYPE_NOSUPP"
  | KRB5_OBSOLETE_FN => "KRB5_OBSOLETE_FN"
  | KRB5_EAI_FAIL => "KRB5_EAI_FAIL"
  | KRB5_EAI_NODATA => "KRB5_EAI_NODATA"
  | KRB5_EAI_NONAME => "KRB5_EAI_NONAME"
  | KRB5_EAI_SERVICE => "KRB5_EAI_SERVICE"
  | KRB5_ERR_NUMERIC_REALM => "KRB5_ERR_NUMERIC_REALM"
  | KRB5_ERR_BAD_S2K_PARAMS => "KRB5_ERR_BAD_S2K_PARAMS"
  | KRB5_ERR_NO_SERVICE => "KRB5_ERR_NO_SERVICE"
  | KRB5_CC_READONLY => "KRB5_CC_READONLY"
  | KRB5_CC_NOSUPP => "KRB5_CC_NOSUPP"
  | KRB5_DELTAT_BADFORMAT => "KRB5_DELTAT_BADFORMAT"
  | KRB5_PLUGIN_NO_HANDLE => "KRB5_PLUGIN_NO_HANDLE"
  | KRB5_PLUGIN_OP_NOTSUPP => "KRB5_PLUGIN_OP_NOTSUPP"
  | KRB5_ERR_INVALID_UTF8 => "KRB5_ERR_INVALID_UTF8"
  | KRB5_ERR_FAST_REQUIRED => "KRB5_ERR_FAST_REQUIRED"
  | KRB5_LOCAL_ADDR_REQUIRED => "KRB5_LOCAL_ADDR_REQUIRED"
  | KRB5_REMOTE_ADDR_REQUIRED => "KRB5_REMOTE_ADDR_REQUIRED"
  | KRB5_TRACE_NOSUPP => "KRB5_TRACE_NOSUPP"
  end.

(** [ALL], in the order of the declaration. *)
(* SRC truenas_krb5/src/error.rs L 101-101 ALL *)
Definition ErrCode_ALL : list ErrCode :=
  [KRB5KDC_ERR_NONE; KRB5KDC_ERR_NAME_EXP; KRB5KDC_ERR_SERVICE_EXP; KRB5KDC_ERR_BAD_PVNO; KRB5KDC_ERR_C_OLD_MAST_KVNO;
   KRB5KDC_ERR_S_OLD_MAST_KVNO; KRB5KDC_ERR_C_PRINCIPAL_UNKNOWN; KRB5KDC_ERR_S_PRINCIPAL_UNKNOWN; KRB5KDC_ERR_PRINCIPAL_NOT_UNIQUE;
   KRB5KDC_ERR_NULL_KEY; KRB5KDC_ERR_CANNOT_POSTDATE; KRB5KDC_ERR_NEVER_VALID; KRB5KDC_ERR_POLICY; KRB5KDC_ERR_BADOPTION;
   KRB5KDC_ERR_ETYPE_NOSUPP; KRB5KDC_ERR_SUMTYPE_NOSUPP; KRB5KDC_ERR_PADATA_TYPE_NOSUPP; KRB5KDC_ERR_TRTYPE_NOSUPP;
   KRB5KDC_ERR_CLIENT_REVOKED; KRB5KDC_ERR_SERVICE_REVOKED; KRB5KDC_ERR_TGT_REVOKED; KRB5KDC_ERR_CLIENT_NOTYET;
   KRB5KDC_ERR_SERVICE_NOTYET; KRB5KDC_ERR_KEY_EXP; KRB5KDC_ERR_PREAUTH_FAILED; KRB5KDC_ERR_PREAUTH_REQUIRED;
   KRB5KDC_ERR_SERVER_NOMATCH; KRB5KDC_ERR_MUST_USE_USER2USER; KRB5KDC_ERR_PATH_NOT_ACCEPTED; KRB5KDC_ERR_SVC_UNAVAILABLE;
   KRB5KRB_AP_ERR_BAD_INTEGRITY; KRB5KRB_AP_ERR_TKT_EXPIRED; KRB5KRB_AP_ERR_TKT_NYV; KRB5KRB_AP_ERR_REPEAT; KRB5KRB_AP_ERR_NOT_US;
   KRB5KRB_AP_ERR_BADMATCH; KRB5KRB_AP_ERR_SKEW; KRB5KRB_AP_ERR_BADADDR; KRB5KRB_AP_ERR_BADVERSION; KRB5KRB_AP_ERR_MSG_TYPE;
   KRB5KRB_AP_ERR_MODIFIED; KRB5KRB_AP_ERR_BADORDER; KRB5KRB_AP_ERR_ILL_CR_TKT; KRB5KRB_AP_ERR_BADKEYVER; KRB5KRB_AP_ERR_NOKEY;
   KRB5KRB_AP_ERR_MUT_FAIL; KRB5KRB_AP_ERR_BADDIRECTION; KRB5KRB_AP_ERR_METHOD; KRB5KRB_AP_ERR_BADSEQ; KRB5KRB_AP_ERR_INAPP_CKSUM;
   KRB5KRB_AP_PATH_NOT_ACCEPTED; KRB5KRB_ERR_RESPONSE_TOO_BIG; KRB5KRB_ERR_GENERIC; KRB5KRB_ERR_FIELD_TOOLONG;
   KRB5KDC_ERR_CLIENT_NOT_TRUSTED; KRB5KDC_ERR_KDC_NOT_TRUSTED; KRB5KDC_ERR_INVALID_SIG;
   KRB5KDC_ERR_DH_KEY_PARAMETERS_NOT_ACCEPTED; KRB5KDC_ERR_CERTIFICATE_MISMATCH; KRB5KRB_AP_ERR_NO_TGT; KRB5KDC_ERR_WRONG_REALM;
   KRB5KRB_AP_ERR_USER_TO_USER_REQUIRED; KRB5KDC_ERR_CANT_VERIFY_CERTIFICATE; KRB5KDC_ERR_INVALID_CERTIFICATE;
   KRB5KDC_ERR_REVOKED_CERTIFICATE; KRB5KDC_ERR_REVOCATION_STATUS_UNKNOWN; KRB5KDC_ERR_REVOCATION_STATUS_UNAVAILABLE;
   KRB5KDC_ERR_CLIENT_NAME_MISMATCH; KRB5KDC_ERR_KDC_NAME_MISMATCH; KRB5KDC_ERR_INCONSISTENT_KEY_PURPOSE;
   KRB5KDC_ERR_DIGEST_IN_CERT_NOT_ACCEPTED; KRB5KDC_ERR_PA_CHECKSUM_MUST_BE_INCLUDED;
   KRB5KDC_ERR_DIGEST_IN_SIGNED_DATA_NOT_ACCEPTED; KRB5KDC_ERR_PUBLIC_KEY_ENCRYPTION_NOT_SUPPORTED;
   KRB5KRB_AP_ERR_IAKERB_KDC_NOT_FOUND; KRB5KRB_AP_ERR_IAKERB_KDC_NO_RESPONSE; KRB5KDC_ERR_PREAUTH_EXPIRED;
   KRB5KDC_ERR_MORE_PREAUTH_DATA_REQUIRED; KRB5KDC_ERR_UNKNOWN_CRITICAL_FAST_OPTION; KRB5KDC_ERR_NO_ACCEPTABLE_KDF; KRB5_ERR_RCSID;
   KRB5_LIBOS_BADLOCKFLAG; KRB5_LIBOS_CANTREADPWD; KRB5_LIBOS_BADPWDMATCH; KRB5_LIBOS_PWDINTR; KRB5_PARSE_ILLCHAR;
   KRB5_PARSE_MALFORMED; KRB5_CONFIG_CANTOPEN; KRB5_CONFIG_BADFORMAT; KRB5_CONFIG_NOTENUFSPACE; KRB5_BADMSGTYPE; KRB5_CC_BADNAME;
   KRB5_CC_UNKNOWN_TYPE; KRB5_CC_NOTFOUND; KRB5_CC_END; KRB5_NO_TKT_SUPPLIED; KRB5KRB_AP_WRONG_PRINC; KRB5KRB_AP_ERR_TKT_INVALID;
   KRB5_PRINC_NOMATCH; KRB5_KDCREP_MODIFIED; KRB5_KDCREP_SKEW; KRB5_IN_TKT_REALM_MISMATCH; KRB5_PROG_ETYPE_NOSUPP;
   KRB5_PROG_KEYTYPE_NOSUPP; KRB5_WRONG_ETYPE; KRB5_PROG_SUMTYPE_NOSUPP; KRB5_REALM_UNKNOWN; KRB5_SERVICE_UNKNOWN;
   KRB5_KDC_UNREACH; KRB5_NO_LOCALNAME; KRB5_MUTUAL_FAILED; KRB5_RC_TYPE_EXISTS; KRB5_RC_MALLOC; KRB5_RC_TYPE_NOTFOUND;
   KRB5_RC_UNKNOWN; KRB5_RC_REPLAY; KRB5_RC_IO; KRB5_RC_NOIO; KRB5_RC_PARSE; KRB5_RC_IO_EOF; KRB5_RC_IO_MALLOC; KRB5_RC_IO_PERM;
   KRB5_RC_IO_IO; KRB5_RC_IO_UNKNOWN; KRB5_RC_IO_SPACE; KRB5_TRANS_CANTOPEN; KRB5_TRANS_BADFORMAT; KRB5_LNAME_CANTOPEN;
   KRB5_LNAME_NOTRANS; KRB5_LNAME_BADFORMAT; KRB5_CRYPTO_INTERNAL; KRB5_KT_BADNAME; KRB5_KT_UNKNOWN_TYPE; KRB5_KT_NOTFOUND;
   KRB5_KT_END; KRB5_KT_NOWRITE; KRB5_KT_IOERR; KRB5_NO_TKT_IN_RLM; KRB5DES_BAD_KEYPAR; KRB5DES_WEAK_KEY; KRB5_BAD_ENCTYPE;
   KRB5_BAD_KEYSIZE; KRB5_BAD_MSIZE; KRB5_CC_TYPE_EXISTS; KRB5_KT_TYPE_EXISTS; KRB5_CC_IO; KRB5_FCC_PERM; KRB5_FCC_NOFILE;
   KRB5_FCC_INTERNAL; KRB5_CC_WRITE; KRB5_CC_NOMEM; KRB5_CC_FORMAT; KRB5_CC_NOT_KTYPE; KRB5_INVALID_FLAGS; KRB5_NO_2ND_TKT;
   KRB5_NOCREDS_SUPPLIED; KRB5_SENDAUTH_BADAUTHVERS; KRB5_SENDAUTH_BADAPPLVERS; KRB5_SENDAUTH_BADRESPONSE; KRB5_SENDAUTH_REJECTED;
   KRB5_PREAUTH_BAD_TYPE; KRB5_PREAUTH_NO_KEY; KRB5_PREAUTH_FAILED; KRB5_RCACHE_BADVNO; KRB5_CCACHE_BADVNO; KRB5_KEYTAB_BADVNO;
   KRB5_PROG_ATYPE_NOSUPP; KRB5_RC_REQUIRED; KRB5_ERR_BAD_HOSTNAME; KRB5_ERR_HOST_REALM_UNKNOWN; KRB5_SNAME_UNSUPP_NAMETYPE;
   KRB5KRB_AP_ERR_V4_REPLY; KRB5_REALM_CANT_RESOLVE; KRB5_TKT_NOT_FORWARDABLE; KRB5_FWD_BAD_PRINCIPAL; KRB5_GET_IN_TKT_LOOP;
   KRB5_CONFIG_NODEFREALM; KRB5_SAM_UNSUPPORTED; KRB5_SAM_INVALID_ETYPE; KRB5_SAM_NO_CHECKSUM; KRB5_SAM_BAD_CHECKSUM;
   KRB5_KT_NAME_TOOLONG; KRB5_KT_KVNONOTFOUND; KRB5_APPL_EXPIRED; KRB5_LIB_EXPIRED; KRB5_CHPW_PWDNULL; KRB5_CHPW_FAIL;
   KRB5_KT_FORMAT; KRB5_NOPERM_ETYPE; KRB5_CONFIG_ETYPE_NOSUPP; KRB5_OBSOLETE_FN; KRB5_EAI_FAIL; KRB5_EAI_NODATA; KRB5_EAI_NONAME;
   KRB5_EAI_SERVICE; KRB5_ERR_NUMERIC_REALM; KRB5_ERR_BAD_S2K_PARAMS; KRB5_ERR_NO_SERVICE; KRB5_CC_READONLY; KRB5_CC_NOSUPP;
   KRB5_DELTAT_BADFORMAT; KRB5_PLUGIN_NO_HANDLE; KRB5_PLUGIN_OP_NOTSUPP; KRB5_ERR_INVALID_UTF8; KRB5_ERR_FAST_REQUIRED;
   KRB5_LOCAL_ADDR_REQUIRED; KRB5_REMOTE_ADDR_REQUIRED; KRB5_TRACE_NOSUPP].

(* SRC truenas_krb5/src/error.rs fn kind *)
Definition kind (self : Error) : option ErrCode := ErrCode_from_raw self.(code).

(** ** [types.rs] *)
(* SRC truenas_krb5/src/types.rs L 70-96 EncType *)
Inductive EncType : Type :=
| ENCTYPE_NULL
| ENCTYPE_DES_CBC_CRC
| ENCTYPE_DES_CBC_MD4
| ENCTYPE_DES_CBC_MD5
| ENCTYPE_DES_CBC_RAW
| ENCTYPE_DES3_CBC_SHA
| ENCTYPE_DES3_CBC_RAW
| ENCTYPE_DES_HMAC_SHA1
| ENCTYPE_DSA_SHA1_CMS
| ENCTYPE_MD5_RSA_CMS
| ENCTYPE_SHA1_RSA_CMS
| ENCTYPE_RC2_CBC_ENV
| ENCTYPE_RSA_ENV
| ENCTYPE_RSA_ES_OAEP_ENV
| ENCTYPE_DES3_CBC_ENV
| ENCTYPE_DES3_CBC_SHA1
| ENCTYPE_AES128_CTS_HMAC_SHA1_96
| ENCTYPE_AES256_CTS_HMAC_SHA1_96
| ENCTYPE_AES128_CTS_HMAC_SHA256_128
| ENCTYPE_AES256_CTS_HMAC_SHA384_192
| ENCTYPE_ARCFOUR_HMAC
| ENCTYPE_ARCFOUR_HMAC_EXP
| ENCTYPE_CAMELLIA128_CTS_CMAC
| ENCTYPE_CAMELLIA256_CTS_CMAC
| ENCTYPE_UNKNOWN.

(** [raw] of a value: its discriminant. *)
(* SRC truenas_krb5/src/types.rs L 45-47 raw *)
Definition EncType_raw (self : EncType) : Z :=
  match self with
  | ENCTYPE_NULL => 0
  | ENCTYPE_DES_CBC_CRC => 1
  | ENCTYPE_DES_CBC_MD4 => 2
  | ENCTYPE_DES_CBC_MD5 => 3
  | ENCTYPE_DES_CBC_RAW => 4
  | ENCTYPE_DES3_CBC_SHA => 5
  | ENCTYPE_DES3_CBC_RAW => 6
  | ENCTYPE_DES_HMAC_SHA1 => 8
  | ENCTYPE_DSA_SHA1_CMS => 9
  | ENCTYPE_MD5_RSA_CMS => 10
  | ENCTYPE_SHA1_RSA_CMS => 11
  | ENCTYPE_RC2_CBC_ENV => 12
  | ENCTYPE_RSA_ENV => 13
  | ENCTYPE_RSA_ES_OAEP_ENV => 14
  | ENCTYPE_DES3_CBC_ENV => 15
  | ENCTYPE_DES3_CBC_SHA1 => 16
  | ENCTYPE_AES128_CTS_HMAC_SHA1_96 => 17
  | ENCTYPE_AES256_CTS_HMAC_SHA1_96 => 18
  | ENCTYPE_AES128_CTS_HMAC_SHA256_128 => 19
  | ENCTYPE_AES256_CTS_HMAC_SHA384_192 => 20
  | ENCTYPE_ARCFOUR_HMAC => 23
  | ENCTYPE_ARCFOUR_HMAC_EXP => 24
  | ENCTYPE_CAMELLIA128_CTS_CMAC => 25
  | ENCTYPE_CAMELLIA256_CTS_CMAC => 26
  | ENCTYPE_UNKNOWN => 511
  end.

(* SRC truenas_krb5/src/types.rs L 37-42 from_raw *)
Definition EncType_from_raw (raw : Z) : option EncType :=
  if raw =? 0 then Some ENCTYPE_NULL
  else if raw =? 1 then Some ENCTYPE_DES_CBC_CRC
  else if raw =? 2 then Some ENCTYPE_DES_CBC_MD4
  else if raw =? 3 then Some ENCTYPE_DES_CBC_MD5
  else if raw =? 4 then Some ENCTYPE_DES_CBC_RAW
  else if raw =? 5 then Some ENCTYPE_DES3_CBC_SHA
  else if raw =? 6 then Some ENCTYPE_DES3_CBC_RAW
  else if raw =? 8 then Some ENCTYPE_DES_HMAC_SHA1
  else if raw =? 9 then Some ENCTYPE_DSA_SHA1_CMS
  else if raw =? 10 then Some ENCTYPE_MD5_RSA_CMS
  else if raw =? 11 then Some ENCTYPE_SHA1_RSA_CMS
  else if raw =? 12 then Some ENCTYPE_RC2_CBC_ENV
  else if raw =? 13 then Some ENCTYPE_RSA_ENV
  else if raw =? 14 then Some ENCTYPE_RSA_ES_OAEP_ENV
  else if raw =? 15 then Some ENCTYPE_DES3_CBC_ENV
  else if raw =? 16 then Some ENCTYPE_DES3_CBC_SHA1
  else if raw =? 17 then Some ENCTYPE_AES128_CTS_HMAC_SHA1_96
  else if raw =? 18 then Some ENCTYPE_AES256_CTS_HMAC_SHA1_96
  else if raw =? 19 then Some ENCTYPE_AES128_CTS_HMAC_SHA256_128
  else if raw =? 20 then Some ENCTYPE_AES256_CTS_HMAC_SHA384_192
  else if raw =? 23 then Some ENCTYPE_ARCFOUR_HMAC
  else if raw =? 24 then Some ENCTYPE_ARCFOUR_HMAC_EXP
  else if raw =? 25 then Some ENCTYPE_CAMELLIA128_CTS_CMAC
  else if raw =? 26 then Some ENCTYPE_CAMELLIA256_CTS_CMAC
  else if raw =? 511 then Some ENCTYPE_UNKNOWN
  else None.

(* SRC truenas_krb5/src/types.rs L 50-54 name *)
Definition EncType_name (self : EncType) : string :=
  match self with
  | ENCTYPE_NULL => "ENCTYPE_NULL"
  | ENCTYPE_DES_CBC_CRC => "ENCTYPE_DES_CBC_CRC"
  | ENCTYPE_DES_CBC_MD4 => "ENCTYPE_DES_CBC_MD4"
  | ENCTYPE_DES_CBC_MD5 => "ENCTYPE_DES_CBC_MD5"
  | ENCTYPE_DES_CBC_RAW => "ENCTYPE_DES_CBC_RAW"
  | ENCTYPE_DES3_CBC_SHA => "ENCTYPE_DES3_CBC_SHA"
  | ENCTYPE_DES3_CBC_RAW => "ENCTYPE_DES3_CBC_RAW"
  | ENCTYPE_DES_HMAC_SHA1 => "ENCTYPE_DES_HMAC_SHA1"
  | ENCTYPE_DSA_SHA1_CMS => "ENCTYPE_DSA_SHA1_CMS"
  | ENCTYPE_MD5_RSA_CMS => "ENCTYPE_MD5_RSA_CMS"
  | ENCTYPE_SHA1_RSA_CMS => "ENCTYPE_SHA1_RSA_CMS"
  | ENCTYPE_RC2_CBC_ENV => "ENCTYPE_RC2_CBC_ENV"
  | ENCTYPE_RSA_ENV => "ENCTYPE_RSA_ENV"
  | ENCTYPE_RSA_ES_OAEP_ENV => "ENCTYPE_RSA_ES_OAEP_ENV"
  | ENCTYPE_DES3_CBC_ENV => "ENCTYPE_DES3_CBC_ENV"
  | ENCTYPE_DES3_CBC_SHA1 => "ENCTYPE_DES3_CBC_SHA1"
  | ENCTYPE_AES128_CTS_HMAC_SHA1_96 => "ENCTYPE_AES128_CTS_HMAC_SHA1_96"
  | ENCTYPE_AES256_CTS_HMAC_SHA1_96 => "ENCTYPE_AES256_CTS_HMAC_SHA1_96"
  | ENCTYPE_AES128_CTS_HMAC_SHA256_128 => "ENCTYPE_AES128_CTS_HMAC_SHA256_128"
  | ENCTYPE_AES256_CTS_HMAC_SHA384_192 => "ENCTYPE_AES256_CTS_HMAC_SHA384_192"
  | ENCTYPE_ARCFOUR_HMAC => "ENCTYPE_ARCFOUR_HMAC"
  | ENCTYPE_ARCFOUR_HMAC_EXP => "ENCTYPE_ARCFOUR_HMAC_EXP"
  | ENCTYPE_CAMELLIA128_CTS_CMAC => "ENCTYPE_CAMELLIA128_CTS_CMAC"
  | ENCTYPE_CAMELLIA256_CTS_CMAC => "ENCTYPE_CAMELLIA256_CTS_CMAC"
  | ENCTYPE_UNKNOWN => "ENCTYPE_UNKNOWN"
  end.

(** [ALL], in the order of the declaration. *)
(* SRC truenas_krb5/src/types.rs L 57-57 ALL *)
Definition EncType_ALL : list EncType :=
  [ENCTYPE_NULL; ENCTYPE_DES_CBC_CRC; ENCTYPE_DES_CBC_MD4; ENCTYPE_DES_CBC_MD5; ENCTYPE_DES_CBC_RAW; ENCTYPE_DES3_CBC_SHA;
   ENCTYPE_DES3_CBC_RAW; ENCTYPE_DES_HMAC_SHA1; ENCTYPE_DSA_SHA1_CMS; ENCTYPE_MD5_RSA_CMS; ENCTYPE_SHA1_RSA_CMS;
   ENCTYPE_RC2_CBC_ENV; ENCTYPE_RSA_ENV; ENCTYPE_RSA_ES_OAEP_ENV; ENCTYPE_DES3_CBC_ENV; ENCTYPE_DES3_CBC_SHA1;
   ENCTYPE_AES128_CTS_HMAC_SHA1_96; ENCTYPE_AES256_CTS_HMAC_SHA1_96; ENCTYPE_AES128_CTS_HMAC_SHA256_128;
   ENCTYPE_AES256_CTS_HMAC_SHA384_192; ENCTYPE_ARCFOUR_HMAC; ENCTYPE_ARCFOUR_HMAC_EXP; ENCTYPE_CAMELLIA128_CTS_CMAC;
   ENCTYPE_CAMELLIA256_CTS_CMAC; ENCTYPE_UNKNOWN].

(* SRC truenas_krb5/src/types.rs L 123-137 PrincipalType *)
Inductive PrincipalType : Type :=
| KRB5_NT_UNKNOWN
| KRB5_NT_PRINCIPAL
| KRB5_NT_SRV_INST
| KRB5_NT_SRV_HST
| KRB5_NT_SRV_XHST
| KRB5_NT_UID
| KRB5_NT_X500_PRINCIPAL
| KRB5_NT_SMTP_NAME
| KRB5_NT_ENTERPRISE_PRINCIPAL
| KRB5_NT_WELLKNOWN
| KRB5_NT_MS_PRINCIPAL
| KRB5_NT_MS_PRINCIPAL_AND_ID
| KRB5_NT_ENT_PRINCIPAL_AND_ID.

(** [raw] of a value: its discriminant. *)
(* SRC truenas_krb5/src/types.rs L 45-47 raw *)
Definition PrincipalType_raw (self : PrincipalType) : Z :=
  match self with
  | KRB5_NT_UNKNOWN => 0
  | KRB5_NT_PRINCIPAL => 1
  | KRB5_NT_SRV_INST => 2
  | KRB5_NT_SRV_HST => 3
  | KRB5_NT_SRV_XHST => 4
  | KRB5_NT_UID => 5
  | KRB5_NT_X500_PRINCIPAL => 6
  | KRB5_NT_SMTP_NAME => 7
  | KRB5_NT_ENTERPRISE_PRINCIPAL => 10
  | KRB5_NT_WELLKNOWN => 11
  | KRB5_NT_MS_PRINCIPAL => -128
  | KRB5_NT_MS_PRINCIPAL_AND_ID => -129
  | KRB5_NT_ENT_PRINCIPAL_AND_ID => -130
  end.

(* SRC truenas_krb5/src/types.rs L 37-42 from_raw *)
Definition PrincipalType_from_raw (raw : Z) : option PrincipalType :=
  if raw =? 0 then Some KRB5_NT_UNKNOWN
  else if raw =? 1 then Some KRB5_NT_PRINCIPAL
  else if raw =? 2 then Some KRB5_NT_SRV_INST
  else if raw =? 3 then Some KRB5_NT_SRV_HST
  else if raw =? 4 then Some KRB5_NT_SRV_XHST
  else if raw =? 5 then Some KRB5_NT_UID
  else if raw =? 6 then Some KRB5_NT_X500_PRINCIPAL
  else if raw =? 7 then Some KRB5_NT_SMTP_NAME
  else if raw =? 10 then Some KRB5_NT_ENTERPRISE_PRINCIPAL
  else if raw =? 11 then Some KRB5_NT_WELLKNOWN
  else if raw =? -128 then Some KRB5_NT_MS_PRINCIPAL
  else if raw =? -129 then Some KRB5_NT_MS_PRINCIPAL_AND_ID
  else if raw =? -130 then Some KRB5_NT_ENT_PRINCIPAL_AND_ID
  else None.

(* SRC truenas_krb5/src/types.rs L 50-54 name *)
Definition PrincipalType_name (self : PrincipalType) : string :=
  match self with
  | KRB5_NT_UNKNOWN => "KRB5_NT_UNKNOWN"
  | KRB5_NT_PRINCIPAL => "KRB5_NT_PRINCIPAL"
  | KRB5_NT_SRV_INST => "KRB5_NT_SRV_INST"
  | KRB5_NT_SRV_HST => "KRB5_NT_SRV_HST"
  | KRB5_NT_SRV_XHST => "KRB5_NT_SRV_XHST"
  | KRB5_NT_UID => "KRB5_NT_UID"
  | KRB5_NT_X500_PRINCIPAL => "KRB5_NT_X500_PRINCIPAL"
  | KRB5_NT_SMTP_NAME => "KRB5_NT_SMTP_NAME"
  | KRB5_NT_ENTERPRISE_PRINCIPAL => "KRB5_NT_ENTERPRISE_PRINCIPAL"
  | KRB5_NT_WELLKNOWN => "KRB5_NT_WELLKNOWN"
  | KRB5_NT_MS_PRINCIPAL => "KRB5_NT_MS_PRINCIPAL"
  | KRB5_NT_MS_PRINCIPAL_AND_ID => "KRB5_NT_MS_PRINCIPAL_AND_ID"
  | KRB5_NT_ENT_PRINCIPAL_AND_ID => "KRB5_NT_ENT_PRINCIPAL_AND_ID"
  end.

(** [ALL], in the order of the declaration. *)
(* SRC truenas_krb5/src/types.rs L 57-57 ALL *)
Definition PrincipalType_ALL : list PrincipalType :=
  [KRB5_NT_UNKNOWN; KRB5_NT_PRINCIPAL; KRB5_NT_SRV_INST; KRB5_NT_SRV_HST; KRB5_NT_SRV_XHST; KRB5_NT_UID; KRB5_NT_X500_PRINCIPAL;
   KRB5_NT_SMTP_NAME; KRB5_NT_ENTERPRISE_PRINCIPAL; KRB5_NT_WELLKNOWN; KRB5_NT_MS_PRINCIPAL; KRB5_NT_MS_PRINCIPAL_AND_ID;
   KRB5_NT_ENT_PRINCIPAL_AND_ID].

(* SRC truenas_krb5/src/types.rs fn deprecated #1 *)
Definition deprecated (self : EncType) : bool :=
  match self with
  | ENCTYPE_DES_CBC_CRC
  | ENCTYPE_DES_CBC_MD4
  | ENCTYPE_DES_CBC_MD5
  | ENCTYPE_DES_CBC_RAW
  | ENCTYPE_DES3_CBC_SHA
  | ENCTYPE_DES3_CBC_RAW
  | ENCTYPE_DES_HMAC_SHA1
  | ENCTYPE_DES3_CBC_SHA1
  | ENCTYPE_ARCFOUR_HMAC
  | ENCTYPE_ARCFOUR_HMAC_EXP => true
  | _ => false
  end.

(** Bits of a ticket. *)
(* SRC truenas_krb5/src/types.rs L 145-145 TicketFlags *)
Definition FORWARDABLE : Z := 1073741824.
(* SRC truenas_krb5/src/types.rs L 147-147 TicketFlags *)
Definition FORWARDED : Z := 536870912.
(* SRC truenas_krb5/src/types.rs L 149-149 TicketFlags *)
Definition PROXIABLE : Z := 268435456.
(* SRC truenas_krb5/src/types.rs L 151-151 TicketFlags *)
Definition PROXY : Z := 134217728.
(* SRC truenas_krb5/src/types.rs L 153-153 TicketFlags *)
Definition MAY_POSTDATE : Z := 67108864.
(* SRC truenas_krb5/src/types.rs L 155-155 TicketFlags *)
Definition POSTDATED : Z := 33554432.
(* SRC truenas_krb5/src/types.rs L 157-157 TicketFlags *)
Definition INVALID : Z := 16777216.
(* SRC truenas_krb5/src/types.rs L 159-159 TicketFlags *)
Definition RENEWABLE : Z := 8388608.
(* SRC truenas_krb5/src/types.rs L 161-161 TicketFlags *)
Definition INITIAL : Z := 4194304.
(* SRC truenas_krb5/src/types.rs L 163-163 TicketFlags *)
Definition PRE_AUTH : Z := 2097152.
(* SRC truenas_krb5/src/types.rs L 165-165 TicketFlags *)
Definition HW_AUTH : Z := 1048576.
(* SRC truenas_krb5/src/types.rs L 167-167 TicketFlags *)
Definition TRANSIT_POLICY_CHECKED : Z := 524288.
(* SRC truenas_krb5/src/types.rs L 169-169 TicketFlags *)
Definition OK_AS_DELEGATE : Z := 262144.
(* SRC truenas_krb5/src/types.rs L 171-171 TicketFlags *)
Definition ENC_PA_REP : Z := 65536.
(* SRC truenas_krb5/src/types.rs L 173-173 TicketFlags *)
Definition ANONYMOUS : Z := 32768.

(** A stored timestamp is 32 bits, read as unsigned. *)
(* SRC truenas_krb5/src/types.rs fn widen_timestamp *)
Definition widen_timestamp (raw : Z) : Z := wrap 32 raw.

(* SRC truenas_krb5/src/types.rs struct KeyInfo *)
Record KeyInfo : Type := mkKeyInfo { enctype : Z; contents : bytes }.
(* SRC truenas_krb5/src/types.rs fn enc_type *)
Definition enc_type (self : KeyInfo) : option EncType := EncType_from_raw self.(enctype).
(* SRC truenas_krb5/src/types.rs fn deprecated #2 *)
Definition KeyInfo_deprecated (self : KeyInfo) : bool :=
  match enc_type self with Some e => deprecated e | None => false end.
(** [{:?}] of a key: its length alone. *)
(* SRC truenas_krb5/src/types.rs impl fmt::Debug for KeyInfo *)
Definition KeyInfo_debug (self : KeyInfo) : bytes :=
  lit "KeyInfo { enctype: " ++ display_int self.(enctype) ++ lit ", contents: <" ++ display_int (len self.(contents)) ++ lit " bytes> }".

(* SRC truenas_krb5/src/types.rs struct TicketTimes *)
Record TicketTimes : Type := mkTimes { authtime : Z; starttime : Z; endtime : Z; renew_till : Z }.
(* SRC truenas_krb5/src/types.rs struct Address *)
Record Address : Type := mkAddress { addrtype : Z; addr_contents : bytes }.
(* SRC truenas_krb5/src/types.rs struct AuthData *)
Record AuthData : Type := mkAuthData { ad_type : Z; ad_contents : bytes }.

(** ** What the vocabularies promise *)

(** A vocabulary: every value is read back from its code, which is its own, and
    the table is complete. *)
Record vocabulary {A} (raw : A → Z) (from_raw : Z → option A) (name : A → string) (all : list A) : Prop := mkVocabulary {
  v_read c : from_raw (raw c) = Some c;
  v_only z c : from_raw z = Some c → raw c = z;
  v_all c : c ∈ all;
  v_once : NoDup all;
  v_names c d : name c = name d → c = d
}.

(** Reading back, a chain of tests at a time. *)
Ltac read_back := intros [];
  match goal with |- ?f ?x = _ => let y := eval vm_compute in (f x) in change (f x) with y; reflexivity end.
Lemma once_by_raw {A} (raw : A → Z) all : bool_decide (NoDup (map raw all)) = true → NoDup all.
Proof. intros H. apply bool_decide_eq_true in H. by apply NoDup_fmap_1 in H. Qed.

(** A value is listed where its code is read back as it is in the list. *)
Lemma listed {A} (raw : A → Z) (from_raw : Z → option A) all c : from_raw (raw c) = Some c →
  existsb (Z.eqb (raw c)) (map raw all) = true → Forall (λ d, from_raw (raw d) = Some d) all → c ∈ all.
Proof.
  intros Hc H Hall. apply existsb_exists in H as (z & Hz & He). apply Z.eqb_eq in He as <-. apply in_map_iff in Hz as (d & Hd & Hin).
  apply list_elem_of_In in Hin. rewrite Forall_forall in Hall. specialize (Hall d Hin). rewrite Hd, Hc in Hall. by injection Hall as ->.
Qed.

Lemma names_apart {A} (name : A → string) all c d : bool_decide (NoDup (map name all)) = true → c ∈ all → d ∈ all → name c = name d → c = d.
Proof.
  intros H (i & Hi)%list_elem_of_lookup (j & Hj)%list_elem_of_lookup Hn. apply bool_decide_eq_true in H.
  assert (i = j) as ->; [|congruence]. apply (NoDup_lookup (map name all) i j (name c) H); rewrite list_lookup_fmap; [by rewrite Hi|by rewrite Hj, Hn].
Qed.

Lemma ErrCode_back c : ErrCode_from_raw (ErrCode_raw c) = Some c.
Proof. revert c. read_back. Qed.
Lemma ErrCode_vocabulary : vocabulary ErrCode_raw ErrCode_from_raw ErrCode_name ErrCode_ALL.
Proof.
  assert (∀ c, c ∈ ErrCode_ALL) as Hall.
  { intros c. apply (listed ErrCode_raw ErrCode_from_raw); [apply ErrCode_back|by destruct c|]. apply Forall_forall. intros d _. apply ErrCode_back. }
  split; [exact ErrCode_back| |exact Hall|by apply (once_by_raw ErrCode_raw); vm_compute|].
  - intros z c. unfold ErrCode_from_raw. repeat match goal with
      |- context [if ?a =? ?b then _ else _] => destruct (Z.eqb_spec a b) as [->|_]; [intros H; injection H as <-; reflexivity|]
      end. done.
  - intros c d. by apply (names_apart ErrCode_name ErrCode_ALL); [vm_compute| |].
Qed.

Lemma EncType_back c : EncType_from_raw (EncType_raw c) = Some c.
Proof. revert c. read_back. Qed.
Lemma EncType_vocabulary : vocabulary EncType_raw EncType_from_raw EncType_name EncType_ALL.
Proof.
  assert (∀ c, c ∈ EncType_ALL) as Hall.
  { intros c. apply (listed EncType_raw EncType_from_raw); [apply EncType_back|by destruct c|]. apply Forall_forall. intros d _. apply EncType_back. }
  split; [exact EncType_back| |exact Hall|by apply (once_by_raw EncType_raw); vm_compute|].
  - intros z c. unfold EncType_from_raw. repeat match goal with
      |- context [if ?a =? ?b then _ else _] => destruct (Z.eqb_spec a b) as [->|_]; [intros H; injection H as <-; reflexivity|]
      end. done.
  - intros c d. by apply (names_apart EncType_name EncType_ALL); [vm_compute| |].
Qed.

Lemma PrincipalType_back c : PrincipalType_from_raw (PrincipalType_raw c) = Some c.
Proof. revert c. read_back. Qed.
Lemma PrincipalType_vocabulary : vocabulary PrincipalType_raw PrincipalType_from_raw PrincipalType_name PrincipalType_ALL.
Proof.
  assert (∀ c, c ∈ PrincipalType_ALL) as Hall.
  { intros c. apply (listed PrincipalType_raw PrincipalType_from_raw); [apply PrincipalType_back|by destruct c|]. apply Forall_forall. intros d _. apply PrincipalType_back. }
  split; [exact PrincipalType_back| |exact Hall|by apply (once_by_raw PrincipalType_raw); vm_compute|].
  - intros z c. unfold PrincipalType_from_raw. repeat match goal with
      |- context [if ?a =? ?b then _ else _] => destruct (Z.eqb_spec a b) as [->|_]; [intros H; injection H as <-; reflexivity|]
      end. done.
  - intros c d. by apply (names_apart PrincipalType_name PrincipalType_ALL); [vm_compute| |].
Qed.
