(* ===== verification/Krb5.v ===== *)
(** The operations of [truenas_krb5]: contexts ([context.rs]), principals
    ([principal.rs]), key tables ([keytab.rs]), credential caches ([ccache.rs])
    and initial credentials ([init.rs]).

    libkrb5 and the anonymous files under a key table in memory are the class
    [Krb5]: each call a function on a world, with its code and its
    out-parameters.  A handle is an address, 0 is null.  A structure the library
    fills is a record with the addresses it holds; a key's bytes are the
    library's or the caller's. *)
From S2P Require Import Prelude XdrBase Utf8 Krb5Error.
Local Open Scope Z_scope.

(** ** The structures of [ffi.rs] *)

(** A principal as it lies in memory. *)
(* SRC truenas_krb5/src/ffi.rs struct krb5_principal_data *)
Record krb5_principal_data : Type := mkPrincipal { p_realm : bytes; p_data : list bytes; p_length : Z; p_type : Z }.
#[global] Instance krb5_principal_data_eq_dec : EqDecision krb5_principal_data.
Proof. solve_decision. Defined.

Inductive Pointer : Type := Lib (at_ : Z) | Own (b : bytes).
(* SRC truenas_krb5/src/ffi.rs struct krb5_keyblock *)
Record krb5_keyblock : Type := mkBlock { b_enctype : Z; b_length : Z; b_contents : Pointer }.
(** [e_filled] names what the library allocated for an entry it filled. *)
(* SRC truenas_krb5/src/ffi.rs struct krb5_keytab_entry *)
Record krb5_keytab_entry : Type := mkEntry { e_filled : Z; e_principal : Z; e_timestamp : Z; e_vno : Z; e_key : krb5_keyblock }.
(* SRC truenas_krb5/src/ffi.rs struct krb5_ticket_times *)
Record krb5_ticket_times : Type := mkTicketTimes { t_authtime : Z; t_starttime : Z; t_endtime : Z; t_renew_till : Z }.
(** An address or an element of authorization data: its kind and its bytes. *)
(* SRC truenas_krb5/src/ffi.rs struct krb5_address *)
Record krb5_typed : Type := mkTyped { y_type : Z; y_length : Z; y_contents : Z }.
(** [c_filled] as for an entry.  The arrays are the addresses of their heads. *)
(* SRC truenas_krb5/src/ffi.rs struct krb5_creds *)
Record krb5_creds : Type := mkCreds {
  c_filled : Z; c_client : Z; c_server : Z; c_keyblock : krb5_keyblock; c_times : krb5_ticket_times;
  c_is_skey : Z; c_flags : Z; c_addresses : Z; c_authdata : Z
}.

(** An [io::Error]: its number, where the system gave one, and its text. *)
Record OsError : Type := mkOsError { os_code : option Z; os_text : bytes }.

(** [kt_left] and [cc_left] are how many steps a cursor has left. *)
Class Krb5 (W : Type) : Type := {
  krb5_init_context : W → Z * Z * W;
  krb5_free_context : Z → W → W;
  krb5_get_error_message : Z → Z → W → Z * W;
  krb5_free_error_message : Z → Z → W → W;
  read_cstr : Z → W → option bytes;
  read_bytes : Z → Z → W → option bytes;
  krb5_parse_name : Z → bytes → W → Z * Z * W;
  krb5_unparse_name : Z → Z → W → Z * Z * W;
  krb5_free_unparsed_name : Z → Z → W → W;
  krb5_free_principal : Z → Z → W → W;
  read_principal_at : Z → W → option krb5_principal_data;
  write_type : Z → Z → W → W;
  krb5_principal_compare : Z → Z → Z → W → Z * W;
  krb5_is_config_principal : Z → Z → W → Z * W;
  krb5_kt_resolve : Z → bytes → W → Z * Z * W;
  krb5_kt_default : Z → W → Z * Z * W;
  krb5_kt_get_name : Z → Z → Z → W → Z * bytes * W;
  krb5_kt_get_type : Z → Z → W → bytes;
  krb5_kt_close : Z → Z → W → W;
  krb5_kt_start_seq_get : Z → Z → W → Z * Z * W;
  krb5_kt_next_entry : Z → Z → Z → W → Z * krb5_keytab_entry * W;
  krb5_kt_end_seq_get : Z → Z → Z → W → W;
  krb5_free_keytab_entry_contents : Z → krb5_keytab_entry → W → W;
  krb5_kt_add_entry : Z → Z → krb5_keytab_entry → W → Z * W;
  krb5_kt_remove_entry : Z → Z → krb5_keytab_entry → W → Z * W;
  krb5_c_string_to_key : Z → Z → bytes → Z * Z → W → Z * krb5_keyblock * W;
  krb5_principal2salt : Z → Z → W → Z * (Z * Z) * W;
  krb5_free_keyblock_contents : Z → krb5_keyblock → W → W;
  krb5_free_data_contents : Z → Z * Z → W → W;
  krb5_cc_resolve : Z → bytes → W → Z * Z * W;
  krb5_cc_default : Z → W → Z * Z * W;
  krb5_cc_get_name : Z → Z → W → bytes;
  krb5_cc_get_type : Z → Z → W → bytes;
  krb5_cc_close : Z → Z → W → W;
  krb5_cc_destroy : Z → Z → W → Z * W;
  krb5_cc_start_seq_get : Z → Z → W → Z * Z * W;
  krb5_cc_next_cred : Z → Z → Z → W → Z * krb5_creds * W;
  krb5_cc_end_seq_get : Z → Z → Z → W → W;
  krb5_free_cred_contents : Z → krb5_creds → W → W;
  krb5_get_init_creds_opt_alloc : Z → W → Z * Z * W;
  krb5_get_init_creds_opt_free : Z → Z → W → W;
  krb5_get_init_creds_opt_set_out_ccache : Z → Z → Z → W → Z * W;
  krb5_get_init_creds_keytab : Z → Z → Z → Z → W → Z * krb5_creds * W;
  krb5_get_init_creds_password : Z → Z → bytes → Z → W → Z * krb5_creds * W;
  (** The pointers of a null-terminated array from its head to the end of its
      block, and an element. *)
  read_slots : Z → W → option (list Z);
  read_typed : Z → W → option krb5_typed;
  kt_left : Z → W → nat;
  cc_left : Z → W → nat;
  (** Anonymous files: by descriptor. *)
  memfd_create : W → Outcome Z OsError * W;
  try_clone : Z → W → Outcome Z OsError * W;
  write_all : Z → bytes → W → Outcome unit OsError * W;
  file_len : Z → W → Outcome Z OsError * W;
  read_exact_at : Z → Z → W → Outcome bytes OsError * W;
  close_fd : Z → W → W
}.

(** How a computation can end without a value: with the error it returns, or by
    an access that has no meaning. *)
Inductive KrbExit : Type := Fail (e : Error) | Undefined.

(** [libc]'s. *)
Definition EINVAL : Z := 22.
Definition EIO : Z := 5.

Section Krb5.
Context {W : Type} {krb5 : Krb5 W}.
Abbreviation App A := (St W KrbExit A).

Definition sys {A} (f : W → A * W) : App A := λ w, let '(a, w) := f w in (Ok a, w).
Definition deref {A} (f : W → option A) : App A := λ w,
  match f w with Some a => (Ok a, w) | None => (Err Undefined, w) end.
Definition err {A} (e : Error) : App A := fail (Fail e).
(** What is dropped on an error, and kept on success. *)
Definition or_drop {A} (m : App A) (d : App unit) : App A := λ w,
  match m w with
  | (Err e, w) => (d ≫= λ _, fail e) w
  | r => r
  end.
(** A value that lives for the rest of a block. *)
Definition scoped {A B} (make : App A) (drop : A → App unit) (body : A → App B) : App B :=
  x ← make; finally (body x) (drop x).

(** ** [context.rs] *)
(* SRC truenas_krb5/src/context.rs struct Context *)
Definition Context : Type := Z.

(* SRC truenas_krb5/src/context.rs fn error_with *)
Definition error_with (ctx code : Z) : App Error :=
  ptr ← sys (krb5_get_error_message ctx code);
  if ptr =? 0 then mret (mkError code (lit "krb5 error " ++ display_int code)) else
  text ← deref (read_cstr ptr);
  modify (krb5_free_error_message ctx ptr);;
  mret (mkError code (from_utf8_lossy text)).

(* SRC truenas_krb5/src/context.rs fn new *)
Definition Context_new : App Context :=
  '(code, raw) ← sys krb5_init_context;
  if negb (code =? 0) then e ← error_with 0 code; err e else mret raw.
(* SRC truenas_krb5/src/context.rs fn error *)
Definition Context_error (self : Context) (code : Z) : App Error := error_with self code.
(* SRC truenas_krb5/src/context.rs fn check *)
Definition check (self : Context) (code : Z) : App unit :=
  if code =? 0 then mret tt else e ← Context_error self code; err e.
(* SRC truenas_krb5/src/context.rs fn drop *)
Definition Context_drop (self : Context) : App unit := modify (krb5_free_context self).

(* SRC truenas_krb5/src/context.rs fn cstring *)
Definition cstring (s : bytes) (what : string) : App bytes :=
  match Prelude.cstring s with
  | Some s => mret s
  | None => err (mkError EINVAL (lit "interior NUL in " ++ lit what))
  end.

(** A call that makes a handle: its code is checked, and the handle given. *)
Definition made (ctx : Context) (f : W → Z * Z * W) : App Z :=
  '(code, h) ← sys f;
  check ctx code;;
  mret h.

(** ** [principal.rs] *)
(* SRC truenas_krb5/src/principal.rs struct Principal *)
Record Principal : Type := mkName { realm : bytes; components : list bytes; name_type : Z }.

(** The bytes of the characters ['\\'], ['/'] and ['@']. *)
Definition BACKSLASH : Byte.byte := x5c.
Definition SLASH : Byte.byte := x2f.
Definition AT : Byte.byte := x40.

(** Character by character: the three are ASCII, so bytes do as well. *)
(* SRC truenas_krb5/src/principal.rs fn escape_into *)
Fixpoint escape (component : bytes) : bytes :=
  match component with
  | [] => []
  | ch :: component => (if decide (ch ∈ [BACKSLASH; SLASH; AT]) then [BACKSLASH; ch] else [ch]) ++ escape component
  end.

(** The components with their separators, from the component [i] on. *)
Fixpoint join (i : nat) (components : list bytes) : bytes :=
  match components with
  | [] => []
  | c :: components => (if (0 <? i)%nat then [SLASH] else []) ++ escape c ++ join (S i) components
  end.
(* SRC truenas_krb5/src/principal.rs L 89-97 build *)
Definition spell (principal : Principal) : bytes := join 0 principal.(components) ++ [AT] ++ escape principal.(realm).

(** A raw principal is its address; the context it was made on goes with it. *)
(* SRC truenas_krb5/src/principal.rs fn parse #2 *)
Definition RawPrincipal_parse (ctx : Context) (name : bytes) : App Z :=
  cname ← cstring name "principal";
  made ctx (krb5_parse_name ctx cname).

(* SRC truenas_krb5/src/principal.rs fn drop *)
Definition RawPrincipal_drop (ctx : Context) (raw : Z) : App unit := modify (krb5_free_principal ctx raw).

(* SRC truenas_krb5/src/principal.rs fn build *)
Definition RawPrincipal_build (ctx : Context) (principal : Principal) : App Z :=
  raw ← RawPrincipal_parse ctx (spell principal);
  modify (write_type raw principal.(name_type));;
  mret raw.

(* SRC truenas_krb5/src/principal.rs fn utf8 *)
Definition utf8 (data : bytes) (what : string) : App bytes :=
  if utf8_valid data then mret data else err (mkError EINVAL (lit what ++ lit " not UTF-8")).

(** The first [n] components. *)
Fixpoint read_components (n : nat) (data : list bytes) : App (list bytes) :=
  match n with
  | O => mret []
  | S n =>
      match data with
      | [] => fail Undefined
      | d :: data => c ← utf8 d "principal component"; cs ← read_components n data; mret (c :: cs)
      end
  end.

(* SRC truenas_krb5/src/principal.rs fn read_principal *)
Definition read_principal (raw : Z) : App Principal :=
  if raw =? 0 then err (mkError EINVAL (lit "null principal")) else
  p ← deref (read_principal_at raw);
  realm ← utf8 p.(p_realm) "realm";
  components ← read_components (Z.to_nat p.(p_length)) p.(p_data);
  mret (mkName realm components p.(p_type)).

(* SRC truenas_krb5/src/principal.rs fn unparse #2 *)
Definition RawPrincipal_unparse (ctx : Context) (raw : Z) : App bytes :=
  name ← made ctx (krb5_unparse_name ctx raw);
  text ← deref (read_cstr name);
  modify (krb5_free_unparsed_name ctx name);;
  mret (from_utf8_lossy text).

(* SRC truenas_krb5/src/principal.rs fn parse #1 *)
Definition Principal_parse (name : bytes) : App Principal :=
  scoped Context_new Context_drop (λ ctx,
    scoped (RawPrincipal_parse ctx name) (RawPrincipal_drop ctx) read_principal).
(* SRC truenas_krb5/src/principal.rs fn unparse #1 *)
Definition Principal_unparse (self : Principal) : App bytes :=
  scoped Context_new Context_drop (λ ctx,
    scoped (RawPrincipal_build ctx self) (RawPrincipal_drop ctx) (RawPrincipal_unparse ctx)).
(* SRC truenas_krb5/src/principal.rs fn principal_type *)
Definition principal_type (self : Principal) : option PrincipalType := PrincipalType_from_raw self.(name_type).

(** ** [keytab.rs] *)
(* SRC truenas_krb5/src/keytab.rs struct KeytabEntry *)
Record KeytabEntry : Type := mkKeytabEntry { k_principal : Principal; k_timestamp : Z; k_vno : Z; k_key : KeyInfo }.
(* SRC truenas_krb5/src/keytab.rs enum KeySpec *)
Inductive KeySpec : Type := Password (password : bytes) | Key (key : bytes).
(** [{:?}] of key material. *)
(* SRC truenas_krb5/src/keytab.rs impl std::fmt::Debug for KeySpec *)
Definition KeySpec_debug (self : KeySpec) : bytes :=
  match self with
  | Password _ => lit "KeySpec::Password(<redacted>)"
  | Key k => lit "KeySpec::Key(<" ++ display_int (len k) ++ lit " bytes>)"
  end.

(* SRC truenas_krb5/src/keytab.rs struct Keytab *)
Record Keytab : Type := mkKeytab { ctx : Context; handle : Z; mem : option Z }.

(* SRC truenas_krb5/src/keytab.rs const EMPTY_KEYTAB *)
Definition EMPTY_KEYTAB : bytes := [x05; x02].

(* SRC truenas_krb5/src/keytab.rs fn io_error *)
Definition io_error (e : OsError) : Error := mkError (default EIO e.(os_code)) e.(os_text).
Definition io {A} (f : W → Outcome A OsError * W) : App A := λ w,
  let '(r, w) := f w in (map_err (λ e, Fail (io_error e)) r, w).
Definition fd_drop (fd : Z) : App unit := modify (close_fd fd).

(** The file and the descriptor that names it. *)
(* SRC truenas_krb5/src/keytab.rs fn memfd *)
Definition memfd : App (Z * Z) :=
  owned ← io memfd_create;
  or_drop (file ← io (try_clone owned); mret (file, owned)) (fd_drop owned).

(* SRC truenas_krb5/src/keytab.rs fn resolve_fd *)
Definition fd_name (fd : Z) : bytes := lit "FILE:/proc/self/fd/" ++ display_int fd.
(* SRC truenas_krb5/src/keytab.rs fn resolve_fd *)
Definition resolve_fd (ctx : Context) (fd : Z) : App Z :=
  cname ← cstring (fd_name fd) "keytab name";
  made ctx (krb5_kt_resolve ctx cname).

(* SRC truenas_krb5/src/keytab.rs fn open *)
Definition Keytab_open (name : bytes) : App Keytab :=
  ctx ← Context_new;
  or_drop (cname ← cstring name "keytab name"; handle ← made ctx (krb5_kt_resolve ctx cname); mret (mkKeytab ctx handle None))
    (Context_drop ctx).
(* SRC truenas_krb5/src/keytab.rs fn system_default *)
Definition Keytab_system_default : App Keytab :=
  ctx ← Context_new;
  or_drop (handle ← made ctx (krb5_kt_default ctx); mret (mkKeytab ctx handle None)) (Context_drop ctx).
(** The file is dropped at the end, the descriptor kept with the table. *)
(* SRC truenas_krb5/src/keytab.rs fn from_bytes *)
Definition Keytab_from_bytes (data : bytes) : App Keytab :=
  ctx ← Context_new;
  or_drop (
    '(file, fd) ← memfd;
    finally (or_drop (
      (if decide (data = []) then io (write_all file EMPTY_KEYTAB) else io (write_all file data));;
      handle ← resolve_fd ctx fd;
      mret (mkKeytab ctx handle (Some fd))) (fd_drop fd)) (fd_drop file)) (Context_drop ctx).

(* SRC truenas_krb5/src/keytab.rs fn drop #1 *)
Definition Keytab_drop (self : Keytab) : App unit :=
  modify (krb5_kt_close self.(ctx) self.(handle));;
  Context_drop self.(ctx);;
  match self.(mem) with Some fd => fd_drop fd | None => mret tt end.

(** The name up to its NUL, as the library leaves it in the buffer. *)
(* SRC truenas_krb5/src/keytab.rs fn name *)
Definition Keytab_name (self : Keytab) : App bytes :=
  '(code, buf) ← sys (krb5_kt_get_name self.(ctx) self.(handle) 1104);
  check self.(ctx) code;;
  mret (from_utf8_lossy buf).
(* SRC truenas_krb5/src/keytab.rs fn kt_type *)
Definition kt_type (self : Keytab) : App bytes := w ← get; mret (from_utf8_lossy (krb5_kt_get_type self.(ctx) self.(handle) w)).

(* SRC truenas_krb5/src/keytab.rs struct Entries *)
Record Entries : Type := mkEntries { kt_cursor : Z; done : bool }.

(* SRC truenas_krb5/src/keytab.rs fn entries *)
Definition entries (self : Keytab) : App Entries :=
  cursor ← made self.(ctx) (krb5_kt_start_seq_get self.(ctx) self.(handle));
  mret (mkEntries cursor false).
(* SRC truenas_krb5/src/keytab.rs fn drop #4 *)
Definition Entries_drop (kt : Keytab) (self : Entries) : App unit :=
  modify (krb5_kt_end_seq_get kt.(ctx) kt.(handle) self.(kt_cursor)).

(** [next_raw] gives its [Result] with the iterator it leaves. *)
(* SRC truenas_krb5/src/keytab.rs fn next_raw *)
Definition next_raw (kt : Keytab) (self : Entries) : App (Outcome (option krb5_keytab_entry) Error * Entries) :=
  if self.(done) then mret (Ok None, self) else
  '(code, entry) ← sys (krb5_kt_next_entry kt.(ctx) kt.(handle) self.(kt_cursor));
  if code =? 0 then mret (Ok (Some entry), self)
  else if code =? ffi_KRB5_KT_END then mret (Ok None, mkEntries self.(kt_cursor) true)
  else e ← Context_error kt.(ctx) code; mret (Err e, mkEntries self.(kt_cursor) true).

(* SRC truenas_krb5/src/keytab.rs fn key_bytes *)
Definition key_bytes (entry : krb5_keytab_entry) : App bytes :=
  if entry.(e_key).(b_length) =? 0 then mret [] else
  match entry.(e_key).(b_contents) with
  | Own b => mret b
  | Lib a => deref (read_bytes a entry.(e_key).(b_length))
  end.
(* SRC truenas_krb5/src/keytab.rs fn drop #3 *)
Definition RawEntry_drop (kt : Keytab) (entry : krb5_keytab_entry) : App unit :=
  modify (krb5_free_keytab_entry_contents kt.(ctx) entry).

(** The [Result] of a computation as a value. *)
Definition caught {A} (m : App A) : App (Outcome A Error) := λ w,
  match m w with
  | (Ok a, w) => (Ok (Ok a), w)
  | (Err (Fail e), w) => (Ok (Err e), w)
  | (Err Undefined, w) => (Err Undefined, w)
  | (Stop s, w) => (Stop s, w)
  end.

(* SRC truenas_krb5/src/keytab.rs fn next *)
Definition Entries_next (kt : Keytab) (self : Entries) : App (option (Outcome KeytabEntry Error) * Entries) :=
  '(r, self) ← next_raw kt self;
  match r with
  | Ok None => mret (None, self)
  | Err e => mret (Some (Err e), self)
  | Ok (Some raw) =>
      item ← finally (
        principal ← caught (read_principal raw.(e_principal));
        match principal with
        | Ok principal =>
            key ← key_bytes raw;
            mret (Ok (mkKeytabEntry principal (widen_timestamp raw.(e_timestamp)) raw.(e_vno) (mkKeyInfo raw.(e_key).(b_enctype) key)))
        | Err e => mret (Err e)
        | Stop s => halt s
        end) (RawEntry_drop kt raw);
      mret (Some item, self)
  | Stop s => halt s
  end.

(* SRC truenas_krb5/src/keytab.rs fn c_uint_len *)
Definition c_uint_len (n : Z) (what : string) : App Z :=
  if n <=? u32_max then mret n else err (mkError EINVAL (lit what ++ lit " is too large")).

(* SRC truenas_krb5/src/keytab.rs fn derive *)
Definition PrincipalSalt_derive (ctx : Context) (principal : Z) : App (Z * Z) :=
  '(code, data) ← sys (krb5_principal2salt ctx principal);
  check ctx code;;
  mret data.
(* SRC truenas_krb5/src/keytab.rs fn drop #5 *)
Definition PrincipalSalt_drop (ctx : Context) (data : Z * Z) : App unit := modify (krb5_free_data_contents ctx data).

(* SRC truenas_krb5/src/keytab.rs fn add_entry *)
Definition add_entry (self : Keytab) (principal : bytes) (enctype : EncType) (vno : Z) (key : KeySpec) : App unit :=
  scoped (RawPrincipal_parse self.(ctx) principal) (RawPrincipal_drop self.(ctx)) (λ target,
    let entry k := mkEntry 0 target 0 vno k in
    match key with
    | Key b =>
        n ← c_uint_len (len b) "key";
        code ← sys (krb5_kt_add_entry self.(ctx) self.(handle) (entry (mkBlock (EncType_raw enctype) n (Own b))));
        check self.(ctx) code
    | Password password =>
        scoped (PrincipalSalt_derive self.(ctx) target) (PrincipalSalt_drop self.(ctx)) (λ salt,
          c_uint_len (len password) "password";;
          '(code, block) ← sys (krb5_c_string_to_key self.(ctx) (EncType_raw enctype) password salt);
          check self.(ctx) code;;
          code ← sys (krb5_kt_add_entry self.(ctx) self.(handle) (entry block));
          modify (krb5_free_keyblock_contents self.(ctx) block);;
          check self.(ctx) code)
    end).

(** A match of [remove_entry]: what it keeps of the entry. *)
(* SRC truenas_krb5/src/keytab.rs struct Match *)
Record Match : Type := mkMatch { m_timestamp : Z; m_vno : Z; m_key : KeyInfo }.

(** Whether an absent filter, or the value it has, lets [z] pass. *)
Definition is_none_or (f : option Z) (z : Z) : bool := match f with Some v => v =? z | None => true end.

(** The loop over the entries. *)
(* SRC truenas_krb5/src/keytab.rs L 283-306 remove_entry *)
Fixpoint snapshot (fuel : nat) (self : Keytab) (target : Z) (enctype vno : option Z) (entries : Entries) (matches : list Match) :
    App (Outcome (list Match) Error) :=
  match fuel with
  | O => halt OutOfFuel
  | S fuel =>
      '(r, entries) ← next_raw self entries;
      match r with
      | Err e => mret (Err e)
      | Ok None => mret (Ok matches)
      | Ok (Some found) =>
          more ← finally (
            same ← sys (krb5_principal_compare self.(ctx) found.(e_principal) target);
            if negb (same =? 0) && is_none_or enctype found.(e_key).(b_enctype) && is_none_or vno found.(e_vno) then
              key ← key_bytes found;
              mret [mkMatch found.(e_timestamp) found.(e_vno) (mkKeyInfo found.(e_key).(b_enctype) key)]
            else mret []) (RawEntry_drop self found);
          snapshot fuel self target enctype vno entries (matches ++ more)
      | Stop s => halt s
      end
  end.

(** Removing what was found, one by one. *)
(* SRC truenas_krb5/src/keytab.rs L 309-331 remove_entry *)
Fixpoint remove_all (self : Keytab) (target : Z) (matches : list Match) : App unit :=
  match matches with
  | [] => mret tt
  | m :: matches =>
      code ← sys (krb5_kt_remove_entry self.(ctx) self.(handle)
        (mkEntry 0 target m.(m_timestamp) m.(m_vno) (mkBlock m.(m_key).(enctype) (len m.(m_key).(contents)) (Own m.(m_key).(contents)))));
      check self.(ctx) code;;
      remove_all self target matches
  end.

(** An error of a computation that was given as a value. *)
Definition raised {A} (r : Outcome A Error) : App A := lift (map_err Fail r).
Definition kt_fuel (cursor : Z) : App nat := w ← get; mret (S (kt_left cursor w)).

(* SRC truenas_krb5/src/keytab.rs fn remove_entry *)
Definition remove_entry (self : Keytab) (principal : bytes) (enctype : option EncType) (vno : option Z) : App Z :=
  scoped (RawPrincipal_parse self.(ctx) principal) (RawPrincipal_drop self.(ctx)) (λ target,
    matches ← scoped (entries self) (Entries_drop self) (λ entries,
      fuel ← kt_fuel entries.(kt_cursor);
      r ← snapshot fuel self target (EncType_raw <$> enctype) vno entries [];
      raised r);
    remove_all self target matches;;
    mret (len matches)).

(** The loop that copies the entries to the table [out]. *)
(* SRC truenas_krb5/src/keytab.rs L 351-364 as_bytes *)
Fixpoint copy_entries (fuel : nat) (self : Keytab) (out : Z) (entries : Entries) : App unit :=
  match fuel with
  | O => halt OutOfFuel
  | S fuel =>
      '(r, entries) ← next_raw self entries;
      found ← raised r;
      match found with
      | None => mret tt
      | Some found =>
          finally (code ← sys (krb5_kt_add_entry self.(ctx) out found); check self.(ctx) code) (RawEntry_drop self found);;
          copy_entries fuel self out entries
      end
  end.

(* SRC truenas_krb5/src/keytab.rs fn drop #2 *)
Definition KeytabGuard_drop (ctx : Context) (handle : Z) : App unit := modify (krb5_kt_close ctx handle).

(* SRC truenas_krb5/src/keytab.rs fn as_bytes *)
Definition as_bytes (self : Keytab) : App bytes :=
  scoped memfd (λ '(file, fd), fd_drop fd;; fd_drop file) (λ '(file, fd),
    io (write_all file EMPTY_KEYTAB);;
    scoped (resolve_fd self.(ctx) fd) (KeytabGuard_drop self.(ctx)) (λ out,
      scoped (entries self) (Entries_drop self) (λ entries,
        fuel ← kt_fuel entries.(kt_cursor);
        copy_entries fuel self out entries));;
    n ← io (file_len file);
    io (read_exact_at file n)).

(** ** [ccache.rs] *)
(* SRC truenas_krb5/src/ccache.rs struct Credential *)
Record Credential : Type := mkCredential {
  client : Principal; server : Principal; times : TicketTimes; keyblock : KeyInfo;
  is_skey : bool; ticket_flags : Z; addresses : list Address; authdata : list AuthData
}.

(** A cache that was destroyed has no handle left. *)
(* SRC truenas_krb5/src/ccache.rs struct Ccache *)
Record Ccache : Type := mkCcache { cc_ctx : Context; cc_handle : Z }.

(* SRC truenas_krb5/src/ccache.rs fn drop #1 *)
Definition Ccache_drop (self : Ccache) : App unit :=
  (if self.(cc_handle) =? 0 then mret tt else modify (krb5_cc_close self.(cc_ctx) self.(cc_handle)));;
  Context_drop self.(cc_ctx).

(* SRC truenas_krb5/src/ccache.rs fn open *)
Definition Ccache_open (name : bytes) : App Ccache :=
  ctx ← Context_new;
  or_drop (cname ← cstring name "ccache name"; handle ← made ctx (krb5_cc_resolve ctx cname); mret (mkCcache ctx handle)) (Context_drop ctx).
(* SRC truenas_krb5/src/ccache.rs fn system_default *)
Definition Ccache_system_default : App Ccache :=
  ctx ← Context_new;
  or_drop (handle ← made ctx (krb5_cc_default ctx); mret (mkCcache ctx handle)) (Context_drop ctx).
(* SRC truenas_krb5/src/ccache.rs fn name *)
Definition Ccache_name (self : Ccache) : App bytes := w ← get; mret (from_utf8_lossy (krb5_cc_get_name self.(cc_ctx) self.(cc_handle) w)).
(* SRC truenas_krb5/src/ccache.rs fn cc_type *)
Definition cc_type (self : Ccache) : App bytes := w ← get; mret (from_utf8_lossy (krb5_cc_get_type self.(cc_ctx) self.(cc_handle) w)).

(** By value: the drop that follows finds no handle. *)
(* SRC truenas_krb5/src/ccache.rs fn destroy *)
Definition destroy (self : Ccache) : App unit :=
  code ← sys (krb5_cc_destroy self.(cc_ctx) self.(cc_handle));
  result ← caught (check self.(cc_ctx) code);
  Ccache_drop (mkCcache self.(cc_ctx) 0);;
  raised result.

(* SRC truenas_krb5/src/ccache.rs struct Credentials *)
Record Credentials : Type := mkCredentials { cc_cursor : Z; cc_done : bool }.
(* SRC truenas_krb5/src/ccache.rs fn credentials *)
Definition credentials (self : Ccache) : App Credentials :=
  cursor ← made self.(cc_ctx) (krb5_cc_start_seq_get self.(cc_ctx) self.(cc_handle));
  mret (mkCredentials cursor false).
(* SRC truenas_krb5/src/ccache.rs fn drop #2 *)
Definition Credentials_drop (cc : Ccache) (self : Credentials) : App unit :=
  modify (krb5_cc_end_seq_get cc.(cc_ctx) cc.(cc_handle) self.(cc_cursor)).

(* SRC truenas_krb5/src/ccache.rs fn bytes *)
Definition counted (ptr length : Z) : App bytes :=
  if (ptr =? 0) || (length =? 0) then mret [] else deref (read_bytes ptr length).
(** Along the slots of an array: it ends at a null pointer. *)
Fixpoint walk {U} (f : krb5_typed → App U) (slots : list Z) : App (list U) :=
  match slots with
  | [] => fail Undefined
  | p :: slots =>
      if p =? 0 then mret [] else
      t ← deref (read_typed p);
      x ← f t;
      xs ← walk f slots;
      mret (x :: xs)
  end.
(* SRC truenas_krb5/src/ccache.rs fn array *)
Definition array {U} (head : Z) (f : krb5_typed → App U) : App (list U) :=
  if head =? 0 then mret [] else slots ← deref (read_slots head); walk f slots.

Definition block_bytes (b : krb5_keyblock) : App bytes :=
  match b.(b_contents) with Own l => mret l | Lib a => counted a b.(b_length) end.

(* SRC truenas_krb5/src/ccache.rs fn convert *)
Definition convert (creds : krb5_creds) : App Credential :=
  client ← read_principal creds.(c_client);
  server ← read_principal creds.(c_server);
  let t := creds.(c_times) in
  let times := mkTimes (widen_timestamp t.(t_authtime)) (widen_timestamp t.(t_starttime)) (widen_timestamp t.(t_endtime))
    (widen_timestamp t.(t_renew_till)) in
  key ← block_bytes creds.(c_keyblock);
  addresses ← array creds.(c_addresses) (λ a, b ← counted a.(y_contents) a.(y_length); mret (mkAddress a.(y_type) b));
  authdata ← array creds.(c_authdata) (λ a, b ← counted a.(y_contents) a.(y_length); mret (mkAuthData a.(y_type) b));
  mret (mkCredential client server times (mkKeyInfo creds.(c_keyblock).(b_enctype) key) (negb (creds.(c_is_skey) =? 0))
    creds.(c_flags) addresses authdata).

(* SRC truenas_krb5/src/ccache.rs fn next *)
Fixpoint credentials_next (fuel : nat) (cc : Ccache) (self : Credentials) : App (option (Outcome Credential Error) * Credentials) :=
  match fuel with
  | O => halt OutOfFuel
  | S fuel =>
      if self.(cc_done) then mret (None, self) else
      '(code, creds) ← sys (krb5_cc_next_cred cc.(cc_ctx) cc.(cc_handle) self.(cc_cursor));
      if code =? 0 then
        is_config ← sys (krb5_is_config_principal cc.(cc_ctx) creds.(c_server));
        converted ← (if negb (is_config =? 0) then mret None else r ← caught (convert creds); mret (Some r));
        modify (krb5_free_cred_contents cc.(cc_ctx) creds);;
        match converted with
        | Some converted => mret (Some converted, self)
        | None => credentials_next fuel cc self
        end
      else if code =? ffi_KRB5_CC_END then mret (None, mkCredentials self.(cc_cursor) true)
      else e ← Context_error cc.(cc_ctx) code; mret (Some (Err e), mkCredentials self.(cc_cursor) true)
  end.
Definition Credentials_next (cc : Ccache) (self : Credentials) : App (option (Outcome Credential Error) * Credentials) :=
  w ← get; credentials_next (S (cc_left self.(cc_cursor) w)) cc self.

(** ** [init.rs] *)
(** [acquire] takes the context, the client and the options, and gives the
    credentials it filled. *)
(* SRC truenas_krb5/src/init.rs fn acquire_into *)
Definition acquire_into (ctx : Context) (client cc : Z) (acquire : Context → Z → Z → App krb5_creds) : App unit :=
  opt ← made ctx (krb5_get_init_creds_opt_alloc ctx);
  finally (
    code ← sys (krb5_get_init_creds_opt_set_out_ccache ctx opt cc);
    check ctx code;;
    creds ← acquire ctx client opt;
    modify (krb5_free_cred_contents ctx creds)) (modify (krb5_get_init_creds_opt_free ctx opt)).

(** The principal is dropped before the cache, which owns its context. *)
(* SRC truenas_krb5/src/init.rs fn kinit *)
Definition kinit (principal : bytes) (ccache : option bytes) (acquire : Context → Z → Z → App krb5_creds) : App Ccache :=
  ctx ← Context_new;
  '(client, cc) ← or_drop (
    client ← RawPrincipal_parse ctx principal;
    cc ← or_drop (match ccache with
      | Some name => cname ← cstring name "ccache name"; made ctx (krb5_cc_resolve ctx cname)
      | None => made ctx (krb5_cc_default ctx)
      end) (RawPrincipal_drop ctx client);
    mret (client, cc)) (Context_drop ctx);
  let cache := mkCcache ctx cc in
  result ← caught (acquire_into cache.(cc_ctx) client cc acquire);
  RawPrincipal_drop ctx client;;
  or_drop (raised result;; mret cache) (Ccache_drop cache).

(** The closure it passes. *)
(* SRC truenas_krb5/src/init.rs L 21-53 kinit_keytab *)
Definition with_keytab (keytab : option bytes) : Context → Z → Z → App krb5_creds := λ ctx client opt,
  kt ← match keytab with
    | Some name => cname ← cstring name "keytab name"; made ctx (krb5_kt_resolve ctx cname)
    | None => made ctx (krb5_kt_default ctx)
    end;
  '(code, creds) ← sys (krb5_get_init_creds_keytab ctx client kt opt);
  modify (krb5_kt_close ctx kt);;
  check ctx code;;
  mret creds.
(* SRC truenas_krb5/src/init.rs fn kinit_keytab *)
Definition kinit_keytab (principal : bytes) (keytab ccache : option bytes) : App Ccache := kinit principal ccache (with_keytab keytab).

(* SRC truenas_krb5/src/init.rs L 65-88 kinit_password *)
Definition with_password (password : bytes) : Context → Z → Z → App krb5_creds := λ ctx client opt,
  cpassword ← cstring password "password";
  '(code, creds) ← sys (krb5_get_init_creds_password ctx client cpassword opt);
  check ctx code;;
  mret creds.
(* SRC truenas_krb5/src/init.rs fn kinit_password *)
Definition kinit_password (principal password : bytes) (ccache : option bytes) : App Ccache := kinit principal ccache (with_password password).
End Krb5.
