(* ===== verification/Krb5Laws.v ===== *)
(** Names and the laws libkrb5 documents, over a view of its objects: the live
    contexts and handles, the anonymous files, and what the files hold.  How the
    crate runs under them: errors, contexts and principals. *)
From S2P Require Import Prelude XdrBase Utf8 Krb5Error Krb5.
Local Open Scope Z_scope.

(** ** Names *)

(** The grammar libkrb5 documents for a name: components apart by ['/'], the realm
    after ['@'], and ['\\'] before what stands for itself, a newline, a tab, a
    backspace or a NUL. *)
Definition unquote (c : Byte.byte) : Byte.byte :=
  if decide (c = x6e) then x0a else if decide (c = x74) then x09 else if decide (c = x62) then x08
  else if decide (c = x30) then x00 else c.
Fixpoint realm_of (cur : bytes) (l : bytes) : option bytes :=
  match l with
  | [] => Some cur
  | c :: l =>
      if decide (c = BACKSLASH) then match l with [] => None | d :: l => realm_of (cur ++ [unquote d]) l end
      else if decide (c = SLASH ∨ c = AT) then None
      else realm_of (cur ++ [c]) l
  end.
Fixpoint name_of (acc : list bytes) (cur : bytes) (l : bytes) : option (list bytes * option bytes) :=
  match l with
  | [] => Some (acc ++ [cur], None)
  | c :: l =>
      if decide (c = BACKSLASH) then match l with [] => None | d :: l => name_of acc (cur ++ [unquote d]) l end
      else if decide (c = SLASH) then name_of (acc ++ [cur]) [] l
      else if decide (c = AT) then r ← realm_of [] l; Some (acc ++ [cur], Some r)
      else name_of acc (cur ++ [c]) l
  end.

Lemma special_unquote c : c ∈ [BACKSLASH; SLASH; AT] → unquote c = c.
Proof. intros [-> | [-> | [-> | []%elem_of_nil]%elem_of_cons]%elem_of_cons]%elem_of_cons; reflexivity. Qed.

(** A name is never empty of components: none at all reads as an empty one. *)
Definition at_least_one (l : list bytes) : list bytes := if decide (l = []) then [[]] else l.

Lemma realm_escape b cur : realm_of cur (escape b) = Some (cur ++ b).
Proof.
  revert cur. induction b as [|c b IH]; intros cur; [by rewrite app_nil_r|]. cbn [escape]. case_decide as Hc.
  - cbn [app realm_of]. rewrite decide_True by done. rewrite IH, special_unquote, <- app_assoc by done. done.
  - cbn [app realm_of]. rewrite decide_False by set_solver. rewrite decide_False by set_solver. rewrite IH, <- app_assoc. done.
Qed.

Lemma name_escape b acc cur rest : name_of acc cur (escape b ++ rest) = name_of acc (cur ++ b) rest.
Proof.
  revert cur. induction b as [|c b IH]; intros cur; [by rewrite app_nil_r|]. cbn [escape]. case_decide as Hc.
  - cbn [app name_of]. rewrite decide_True by done. rewrite IH, special_unquote, <- app_assoc by done. done.
  - cbn [app name_of]. rewrite decide_False by set_solver. rewrite decide_False by set_solver. rewrite decide_False by set_solver.
    rewrite IH, <- app_assoc. done.
Qed.

Lemma name_join cs acc cur i r : name_of acc cur (join (S i) cs ++ AT :: escape r) = Some (acc ++ [cur] ++ cs, Some r).
Proof.
  revert acc cur i. induction cs as [|c cs IH]; intros acc cur i; cbn [join app].
  - cbn [name_of]. rewrite !decide_False by done. rewrite decide_True, realm_escape by done. done.
  - cbn [Nat.ltb Nat.leb app name_of]. rewrite decide_False, decide_True by done. rewrite <- app_assoc, name_escape, IH. simpl. by rewrite <- app_assoc.
Qed.

Lemma name_spell p : name_of [] [] (spell p) = Some (at_least_one p.(components), Some p.(realm)).
Proof.
  unfold spell, at_least_one. destruct p.(components) as [|c cs]; cbn [join app].
  - cbn [name_of]. rewrite !decide_False by done. by rewrite decide_True, realm_escape.
  - cbn [Nat.ltb Nat.leb app]. rewrite <- app_assoc, name_escape. apply name_join.
Qed.

Lemma escape_no_nul b : x00 ∉ b → x00 ∉ escape b.
Proof. induction b as [|c b IH]; cbn [escape]; [done|]. intros H. case_decide; rewrite !not_elem_of_app; set_solver. Qed.
Lemma join_no_nul cs i : Forall (λ c, x00 ∉ c) cs → x00 ∉ join i cs.
Proof.
  intros H. revert i. induction H as [|c cs Hc _ IH]; intros i; cbn [join]; [set_solver|]. rewrite !not_elem_of_app.
  split; [destruct (0 <? i)%nat; set_solver|]. split; [by apply escape_no_nul|apply IH].
Qed.
Lemma escape_nul b : x00 ∈ b → x00 ∈ escape b.
Proof. induction b as [|c b IH]; cbn [escape]; [by intros ?%elem_of_nil|]. intros [->|H]%elem_of_cons; case_decide; set_solver. Qed.
Lemma join_nul c cs i : c ∈ cs → x00 ∈ c → x00 ∈ join i cs.
Proof.
  intros H Hc. revert i. induction cs as [|d cs IH]; intros i; [by apply elem_of_nil in H|]. cbn [join].
  apply elem_of_cons in H as [->|H]; [pose proof (escape_nul d Hc); set_solver|specialize (IH H (S i)); set_solver].
Qed.

(** ** What libkrb5 documents *)

(** An entry of a table, and a credential of a cache, as their readers see them. *)
Record Kept : Type := mkKept { x_principal : krb5_principal_data; x_time : Z; x_vno : Z; x_enctype : Z; x_key : bytes }.
Record Cred : Type := mkCred {
  x_client : option krb5_principal_data; x_server : option krb5_principal_data; x_times : krb5_ticket_times;
  x_block : Z * bytes; x_skey : Z; x_flags : Z; x_addresses : list (Z * bytes); x_authdata : list (Z * bytes); x_config : bool
}.

(** A table is in a file: one that is open at a descriptor, or another. *)
Inductive Backing : Type := ByFd (fd : Z) | InFile (i : Z).
Inductive Kind : Type :=
| KPrincipal | KMessage | KText | KKeytab | KKtCursor | KEntry | KSalt | KBlock | KCcache | KCcCursor | KCreds | KOpt.
#[global] Instance Kind_eq_dec : EqDecision Kind.
Proof. solve_decision. Defined.
Definition Kind_code (k : Kind) : nat :=
  match k with
  | KPrincipal => 0 | KMessage => 1 | KText => 2 | KKeytab => 3 | KKtCursor => 4 | KEntry => 5
  | KSalt => 6 | KBlock => 7 | KCcache => 8 | KCcCursor => 9 | KCreds => 10 | KOpt => 11
  end%nat.
#[global] Instance Kind_countable : Countable Kind.
Proof.
  apply (inj_countable Kind_code (λ n, nth n (Some <$>
    [KPrincipal; KMessage; KText; KKeytab; KKtCursor; KEntry; KSalt; KBlock; KCcache; KCcCursor; KCreds; KOpt]) None)).
  by intros [].
Defined.
Inductive Payload : Type :=
| Plain
| Text (t : bytes)
| Named (p : krb5_principal_data)
| Table (b : Backing)
| Walk (h : Z) (l : list Kept)
| Filled (x : Kept) (e : krb5_keytab_entry)
| CredWalk (l : list Cred)
| CredFilled (x : Cred) (c : krb5_creds).

(** The live contexts, the live objects with the context each belongs to, the
    open anonymous files, and the files. *)
Record View : Type := mkView {
  contexts : gset Z;
  live : gmap (Kind * Z) (Z * Payload);
  files : gmap Z Z;
  disk : gmap Z bytes
}.
Definition set_contexts (s : gset Z) (v : View) : View := mkView s v.(live) v.(files) v.(disk).
Definition set_live (m : gmap (Kind * Z) (Z * Payload)) (v : View) : View := mkView v.(contexts) m v.(files) v.(disk).
Definition set_files (m : gmap Z Z) (v : View) : View := mkView v.(contexts) v.(live) m v.(disk).
Definition set_disk (m : gmap Z bytes) (v : View) : View := mkView v.(contexts) v.(live) v.(files) m.
Definition add (k : Kind) (a c : Z) (p : Payload) (v : View) : View := set_live (<[(k, a) := (c, p)]> v.(live)) v.
Definition del (k : Kind) (a : Z) (v : View) : View := set_live (delete (k, a) v.(live)) v.
Definition has (k : Kind) (a c : Z) (p : Payload) (v : View) : Prop := v.(live) !! (k, a) = Some (c, p).

(** A call that makes an object on success, and nothing otherwise. *)
Definition gives (k : Kind) (c : Z) (code a : Z) (p : Payload) (v v' : View) : Prop :=
  if code =? 0 then a ≠ 0 ∧ v.(live) !! (k, a) = None ∧ v' = add k a c p v else v' = v.

(** A principal that can be read: on its own, or as an entry's. *)
Definition principal_at (v : View) (c a : Z) (p : krb5_principal_data) : Prop :=
  has KPrincipal a c (Named p) v ∨ ∃ f x e, has KEntry f c (Filled x e) v ∧ a = e.(e_principal) ∧ p = x.(x_principal).
Definition same_name (p q : krb5_principal_data) : bool := bool_decide (p.(p_realm) = q.(p_realm) ∧ p.(p_data) = q.(p_data)).
Definition whole (p : krb5_principal_data) : Prop := p.(p_length) = len p.(p_data).

(** The file of a table. *)
Definition inode (v : View) (b : Backing) : option Z := match b with ByFd fd => v.(files) !! fd | InFile i => Some i end.
(** Whether a removal of [y] takes [x]. *)
Definition takes (p : krb5_principal_data) (vno enc : Z) (x : Kept) : bool :=
  same_name x.(x_principal) p && (x.(x_vno) =? vno) && (x.(x_enctype) =? enc).
Fixpoint remove_first (f : Kept → bool) (l : list Kept) : list Kept :=
  match l with
  | [] => []
  | x :: l => if f x then l else x :: remove_first f l
  end.

Class KrbSpec (W : Type) : Type := {
  view : W → View;
  (** The entries of a file in the format of key tables. *)
  entries_of : bytes → option (list Kept);
  default_realm : W → option bytes;
  salt_of : krb5_principal_data → bytes;
  string_to_key : Z → bytes → bytes → bytes;
  (** What a cache holds. *)
  creds_of : W → Z → list Cred
}.

(** How a key's bytes are read. *)
Definition block_reads `{Krb5 W} (w : W) (b : krb5_keyblock) (enc : Z) (k : bytes) : Prop :=
  b.(b_enctype) = enc ∧ b.(b_length) = len k ∧
  ∃ a, b.(b_contents) = Lib a ∧ (k ≠ [] → a ≠ 0 ∧ read_bytes a (len k) w = Some k).
Definition name_reads `{Krb5 W} (w : W) (a : Z) (o : option krb5_principal_data) : Prop :=
  match o with Some p => a ≠ 0 ∧ read_principal_at a w = Some p ∧ whole p | None => a = 0 end.
Definition typed_reads `{Krb5 W} (w : W) (a : Z) (t : Z * bytes) : Prop :=
  a ≠ 0 ∧ ∃ y, read_typed a w = Some y ∧ y.(y_type) = t.1 ∧ y.(y_length) = len t.2 ∧
    (t.2 ≠ [] → y.(y_contents) ≠ 0 ∧ read_bytes y.(y_contents) (len t.2) w = Some t.2).
Definition array_reads `{Krb5 W} (w : W) (a : Z) (l : list (Z * bytes)) : Prop :=
  a = 0 ∧ l = [] ∨ a ≠ 0 ∧ ∃ ps rest, read_slots a w = Some (ps ++ 0 :: rest) ∧ Forall2 (typed_reads w) ps l.

Class KrbLaws (W : Type) `{Krb5 W} `{KrbSpec W} : Type := {
  init_law w code c w' : krb5_init_context w = (code, c, w') →
    if code =? 0 then c ≠ 0 ∧ (c ∉ (view w).(contexts)) ∧ (∀ k a p, ¬ has k a c p (view w)) ∧
      view w' = set_contexts ((view w).(contexts) ∪ {[c]}) (view w)
    else view w' = view w;
  free_context_law w c : c ∈ (view w).(contexts) → (∀ k a p, ¬ has k a c p (view w)) →
    view (krb5_free_context c w) = set_contexts ((view w).(contexts) ∖ {[c]}) (view w);
  message_law w c code a w' : c = 0 ∨ c ∈ (view w).(contexts) → krb5_get_error_message c code w = (a, w') →
    if a =? 0 then view w' = view w else ∃ t, (view w).(live) !! (KMessage, a) = None ∧ view w' = add KMessage a c (Text t) (view w);
  free_message_law w c a t : has KMessage a c (Text t) (view w) → view (krb5_free_error_message c a w) = del KMessage a (view w);
  text_law w k a c t : has k a c (Text t) (view w) → read_cstr a w = Some t;

  parse_law w c s code a w' : c ∈ (view w).(contexts) → x00 ∉ s → krb5_parse_name c s w = (code, a, w') →
    ∃ p, gives KPrincipal c code a (Named p) (view w) (view w') ∧ whole p ∧
      (code = 0 → ∃ cs r, name_of [] [] s = Some (cs, r) ∧ p.(p_data) = cs ∧ Some p.(p_realm) = match r with Some r => Some r | None => default_realm w end);
  unparse_law w c a p code t w' : has KPrincipal a c (Named p) (view w) → krb5_unparse_name c a w = (code, t, w') →
    ∃ s, gives KText c code t (Text s) (view w) (view w') ∧ (x00 ∉ s) ∧
      (code = 0 → Forall (λ d, utf8_valid d = true) (p.(p_realm) :: p.(p_data)) →
         utf8_valid s = true ∧ name_of [] [] s = Some (p.(p_data), Some p.(p_realm)));
  free_text_law w c a t : has KText a c (Text t) (view w) → view (krb5_free_unparsed_name c a w) = del KText a (view w);
  free_principal_law w c a p : has KPrincipal a c (Named p) (view w) → view (krb5_free_principal c a w) = del KPrincipal a (view w);
  read_principal_law w c a p : principal_at (view w) c a p → a ≠ 0 ∧ read_principal_at a w = Some p;
  write_type_law w c a p t : has KPrincipal a c (Named p) (view w) →
    view (write_type a t w) = add KPrincipal a c (Named (mkPrincipal p.(p_realm) p.(p_data) p.(p_length) t)) (view w);
  compare_law w c a p b q r w' : principal_at (view w) c a p → principal_at (view w) c b q → krb5_principal_compare c a b w = (r, w') →
    view w' = view w ∧ (r ≠ 0 ↔ same_name p q = true);

  resolve_law w c s code h w' : c ∈ (view w).(contexts) → x00 ∉ s → krb5_kt_resolve c s w = (code, h, w') →
    ∃ b, gives KKeytab c code h (Table b) (view w) (view w') ∧ (∀ fd, is_Some ((view w).(files) !! fd) → s = fd_name fd → b = ByFd fd);
  kt_default_law w c code h w' : c ∈ (view w).(contexts) → krb5_kt_default c w = (code, h, w') →
    ∃ b, gives KKeytab c code h (Table b) (view w) (view w');
  kt_close_law w c h b : has KKeytab h c (Table b) (view w) → view (krb5_kt_close c h w) = del KKeytab h (view w);
  start_law w c h b code a w' : has KKeytab h c (Table b) (view w) → krb5_kt_start_seq_get c h w = (code, a, w') →
    ∃ l, gives KKtCursor c code a (Walk h l) (view w) (view w') ∧ Forall (λ x, whole x.(x_principal)) l ∧
      (code = 0 → ∃ i bs, inode (view w) b = Some i ∧ (view w).(disk) !! i = Some bs ∧ entries_of bs = Some l) ∧
      (code = 0 → (length l ≤ kt_left a w')%nat);
  next_law w c h a l code e w' : has KKtCursor a c (Walk h l) (view w) → krb5_kt_next_entry c h a w = (code, e, w') →
    if code =? 0 then ∃ x l', l = x :: l' ∧ (view w).(live) !! (KEntry, e.(e_filled)) = None ∧
      view w' = add KEntry e.(e_filled) c (Filled x e) (add KKtCursor a c (Walk h l') (view w))
    else view w' = view w ∧ (code = ffi_KRB5_KT_END → l = []);
  entry_law w c f x e : has KEntry f c (Filled x e) (view w) →
    e.(e_filled) = f ∧ e.(e_timestamp) = x.(x_time) ∧ e.(e_vno) = x.(x_vno) ∧ block_reads w e.(e_key) x.(x_enctype) x.(x_key);
  free_entry_law w c x e : has KEntry e.(e_filled) c (Filled x e) (view w) →
    view (krb5_free_keytab_entry_contents c e w) = del KEntry e.(e_filled) (view w);
  end_law w c h a l : has KKtCursor a c (Walk h l) (view w) → view (krb5_kt_end_seq_get c h a w) = del KKtCursor a (view w);
  (** [key] is the caller's bytes or the library's; the writer stamps its time. *)
  add_law w c h b e p key code w' : has KKeytab h c (Table b) (view w) → principal_at (view w) c e.(e_principal) p →
    (e.(e_key).(b_contents) = Own key ∧ e.(e_key).(b_length) = len key ∨ block_reads w e.(e_key) e.(e_key).(b_enctype) key) →
    krb5_kt_add_entry c h e w = (code, w') →
    (view w' = view w ∧ code ≠ 0) ∨
    ∃ i bs bs', inode (view w) b = Some i ∧ (view w).(disk) !! i = Some bs ∧ view w' = set_disk (<[i := bs']> (view w).(disk)) (view w) ∧
      (code = 0 → ∀ l, entries_of bs = Some l → ∃ t, entries_of bs' = Some (l ++ [mkKept p t e.(e_vno) e.(e_key).(b_enctype) key]));
  (** To remove while a cursor is open on the table has no meaning. *)
  remove_law w c h b e p key code w' : has KKeytab h c (Table b) (view w) → principal_at (view w) c e.(e_principal) p →
    (∀ a l, ¬ has KKtCursor a c (Walk h l) (view w)) →
    e.(e_key).(b_contents) = Own key → krb5_kt_remove_entry c h e w = (code, w') →
    (view w' = view w ∧ code ≠ 0) ∨
    ∃ i bs bs', inode (view w) b = Some i ∧ (view w).(disk) !! i = Some bs ∧ view w' = set_disk (<[i := bs']> (view w).(disk)) (view w) ∧
      (code = 0 → ∀ l, entries_of bs = Some l → entries_of bs' = Some (remove_first (takes p e.(e_vno) e.(e_key).(b_enctype)) l));
  salt_law w c a p code d w' : has KPrincipal a c (Named p) (view w) → krb5_principal2salt c a w = (code, d, w') →
    gives KSalt c code d.2 (Text (salt_of p)) (view w) (view w');
  free_salt_law w c d t : has KSalt d.2 c (Text t) (view w) → view (krb5_free_data_contents c d w) = del KSalt d.2 (view w);
  derive_law w c enc pw d t code k w' : has KSalt d.2 c (Text t) (view w) → krb5_c_string_to_key c enc pw d w = (code, k, w') →
    if code =? 0 then ∃ a, k.(b_contents) = Lib a ∧ (view w).(live) !! (KBlock, a) = None ∧
      view w' = add KBlock a c (Text (string_to_key enc pw t)) (view w) ∧ block_reads w' k enc (string_to_key enc pw t)
    else view w' = view w;
  free_block_law w c k a t : k.(b_contents) = Lib a → has KBlock a c (Text t) (view w) →
    view (krb5_free_keyblock_contents c k w) = del KBlock a (view w);

  (** Anonymous files. *)
  empty_law : entries_of EMPTY_KEYTAB = Some [];
  no_version_law : entries_of [] = None;
  memfd_law w r w' : memfd_create w = (r, w') →
    match r with
    | Ok fd => 0 ≤ fd ∧ (view w).(files) !! fd = None ∧ ∃ i, (view w).(disk) !! i = None ∧
        view w' = set_files (<[fd := i]> (view w).(files)) (set_disk (<[i := []]> (view w).(disk)) (view w))
    | Err _ => view w' = view w
    | Stop _ => False
    end;
  clone_law w fd i r w' : (view w).(files) !! fd = Some i → try_clone fd w = (r, w') →
    match r with
    | Ok fd' => 0 ≤ fd' ∧ (view w).(files) !! fd' = None ∧ view w' = set_files (<[fd' := i]> (view w).(files)) (view w)
    | Err _ => view w' = view w
    | Stop _ => False
    end;
  write_law w fd i b r w' : (view w).(files) !! fd = Some i → (view w).(disk) !! i = Some [] → write_all fd b w = (r, w') →
    (∀ s, r ≠ Stop s) ∧ ∃ b', view w' = set_disk (<[i := b']> (view w).(disk)) (view w) ∧ (r = Ok tt → b' = b);
  len_law w fd i b r w' : (view w).(files) !! fd = Some i → (view w).(disk) !! i = Some b → file_len fd w = (r, w') →
    (∀ s, r ≠ Stop s) ∧ view w' = view w ∧ (∀ n, r = Ok n → n = len b);
  read_at_law w fd i b r w' : (view w).(files) !! fd = Some i → (view w).(disk) !! i = Some b → read_exact_at fd (len b) w = (r, w') →
    (∀ s, r ≠ Stop s) ∧ view w' = view w ∧ (∀ l, r = Ok l → l = b);
  close_law w fd : is_Some ((view w).(files) !! fd) → view (close_fd fd w) = set_files (delete fd (view w).(files)) (view w);

  (** Credential caches. *)
  cc_resolve_law w c s code h w' : c ∈ (view w).(contexts) → x00 ∉ s → krb5_cc_resolve c s w = (code, h, w') →
    gives KCcache c code h Plain (view w) (view w');
  cc_default_law w c code h w' : c ∈ (view w).(contexts) → krb5_cc_default c w = (code, h, w') → gives KCcache c code h Plain (view w) (view w');
  cc_close_law w c h : has KCcache h c Plain (view w) → view (krb5_cc_close c h w) = del KCcache h (view w);
  cc_destroy_law w c h code w' : has KCcache h c Plain (view w) → krb5_cc_destroy c h w = (code, w') → view w' = del KCcache h (view w);
  cc_start_law w c h code a w' : has KCcache h c Plain (view w) → krb5_cc_start_seq_get c h w = (code, a, w') →
    gives KCcCursor c code a (CredWalk (creds_of w h)) (view w) (view w');
  cc_left_law w c a l : has KCcCursor a c (CredWalk l) (view w) → (length l ≤ cc_left a w)%nat;
  cc_next_law w c h a l code e w' : has KCcache h c Plain (view w) → has KCcCursor a c (CredWalk l) (view w) →
    krb5_cc_next_cred c h a w = (code, e, w') →
    if code =? 0 then ∃ x l', l = x :: l' ∧ (view w).(live) !! (KCreds, e.(c_filled)) = None ∧
      view w' = add KCreds e.(c_filled) c (CredFilled x e) (add KCcCursor a c (CredWalk l') (view w))
    else view w' = view w ∧ (code = ffi_KRB5_CC_END → l = []);
  cred_law w c f x e : has KCreds f c (CredFilled x e) (view w) → e.(c_filled) = f ∧ name_reads w e.(c_client) x.(x_client) ∧
    name_reads w e.(c_server) x.(x_server) ∧ block_reads w e.(c_keyblock) x.(x_block).1 x.(x_block).2 ∧ e.(c_times) = x.(x_times) ∧
    e.(c_is_skey) = x.(x_skey) ∧ e.(c_flags) = x.(x_flags) ∧
    array_reads w e.(c_addresses) x.(x_addresses) ∧ array_reads w e.(c_authdata) x.(x_authdata);
  config_law w c f x e r w' : has KCreds f c (CredFilled x e) (view w) → krb5_is_config_principal c e.(c_server) w = (r, w') →
    view w' = view w ∧ (r ≠ 0 ↔ x.(x_config) = true);
  free_cred_law w c x e : has KCreds e.(c_filled) c (CredFilled x e) (view w) →
    view (krb5_free_cred_contents c e w) = del KCreds e.(c_filled) (view w);
  cc_end_law w c h a l : has KCcCursor a c (CredWalk l) (view w) → view (krb5_cc_end_seq_get c h a w) = del KCcCursor a (view w);

  (** Initial credentials.  The structure is filled on success alone. *)
  opt_alloc_law w c code a w' : c ∈ (view w).(contexts) → krb5_get_init_creds_opt_alloc c w = (code, a, w') →
    gives KOpt c code a Plain (view w) (view w');
  opt_free_law w c a : has KOpt a c Plain (view w) → view (krb5_get_init_creds_opt_free c a w) = del KOpt a (view w);
  out_ccache_law w c a h code w' : has KOpt a c Plain (view w) → has KCcache h c Plain (view w) →
    krb5_get_init_creds_opt_set_out_ccache c a h w = (code, w') → view w' = view w;
  init_keytab_law w c p pn h b o code e w' : has KPrincipal p c (Named pn) (view w) → has KKeytab h c (Table b) (view w) → has KOpt o c Plain (view w) →
    krb5_get_init_creds_keytab c p h o w = (code, e, w') →
    if code =? 0 then ∃ x, (view w).(live) !! (KCreds, e.(c_filled)) = None ∧ view w' = add KCreds e.(c_filled) c (CredFilled x e) (view w) else view w' = view w;
  init_password_law w c p pn pw o code e w' : has KPrincipal p c (Named pn) (view w) → x00 ∉ pw → has KOpt o c Plain (view w) →
    krb5_get_init_creds_password c p pw o w = (code, e, w') →
    if code =? 0 then ∃ x, (view w).(live) !! (KCreds, e.(c_filled)) = None ∧ view w' = add KCreds e.(c_filled) c (CredFilled x e) (view w) else view w' = view w
}.

(** ** Running the crate

    [wp m w Q]: [m] makes no access without meaning from [w], ends, and what it
    gives, an error included, has [Q]. *)
Section Wp.
Context {W : Type}.
Abbreviation App A := (St W KrbExit A).
Definition wp {A} (m : App A) (w : W) (Q : Outcome A Error → W → Prop) : Prop :=
  match m w with
  | (Ok a, w') => Q (Ok a) w'
  | (Err (Fail e), w') => Q (Err e) w'
  | _ => False
  end.

Lemma wp_mono {A} (m : App A) w (P Q : Outcome A Error → W → Prop) : wp m w P → (∀ r w', (∀ s, r ≠ Stop s) → P r w' → Q r w') → wp m w Q.
Proof. unfold wp. destruct (m w) as [[a|[e|]|s] w']; intros H HPQ; try done; by apply HPQ. Qed.

Lemma wp_bind {A B} (m : App A) (f : A → App B) w Q :
  wp m w (λ r w', match r with Ok a => wp (f a) w' Q | Err e => Q (Err e) w' | Stop _ => False end) → wp (m ≫= f) w Q.
Proof. unfold wp, mbind, St_bind. by destruct (m w) as [[a|[e|]|s] w']. Qed.

Lemma wp_ret {A} (a : A) w (Q : Outcome A Error → W → Prop) : Q (Ok a) w → wp (mret a) w Q.
Proof. done. Qed.
Lemma wp_err {A} e w (Q : Outcome A Error → W → Prop) : Q (Err e) w → wp (err e) w Q.
Proof. done. Qed.
Lemma wp_sys {A} (f : W → A * W) w (Q : Outcome A Error → W → Prop) a w' : f w = (a, w') → Q (Ok a) w' → wp (sys f) w Q.
Proof. unfold wp, sys. by intros ->. Qed.
Lemma wp_bind_sys {A B} (f : W → A * W) (g : A → App B) w Q a w' : f w = (a, w') → wp (g a) w' Q → wp (sys f ≫= g) w Q.
Proof. intros H1 H2. apply wp_bind. by eapply wp_sys. Qed.
Lemma wp_bind_modify {B} (f : W → W) (g : unit → App B) w Q : wp (g tt) (f w) Q → wp (modify f ≫= g) w Q.
Proof. done. Qed.
Lemma wp_bind_deref {A B} (f : W → option A) (g : A → App B) w Q a : f w = Some a → wp (g a) w Q → wp (deref f ≫= g) w Q.
Proof. unfold wp, mbind, St_bind, deref. by intros ->. Qed.
Lemma wp_bind_ret {A B} (a : A) (g : A → App B) w Q : wp (g a) w Q → wp (mret a ≫= g) w Q.
Proof. done. Qed.
Lemma wp_raised {A} (r : Outcome A Error) w (Q : Outcome A Error → W → Prop) : (∀ s, r ≠ Stop s) → Q r w → wp (raised r) w Q.
Proof. destruct r as [a|e|s]; intros Hs H; [done|done|by destruct (Hs s)]. Qed.

(** What runs at the end runs well. *)
Definition ends_well (Q : W → Prop) (o : Outcome unit Error) (w : W) : Prop := o = Ok tt ∧ Q w.
Lemma wp_finally {A} (m : App A) (d : App unit) w Q :
  wp m w (λ r w', wp d w' (ends_well (Q r))) → wp (finally m d) w Q.
Proof.
  unfold wp, finally. destruct (m w) as [[a|[e|]|s] w']; try done; destruct (d w') as [[[]|[e'|]|s'] w'']; try done; unfold ends_well; naive_solver.
Qed.
Lemma wp_or_drop {A} (m : App A) (d : App unit) w Q :
  wp m w (λ r w', match r with Ok a => Q (Ok a) w' | Err e => wp d w' (ends_well (Q (Err e))) | Stop _ => False end) → wp (or_drop m d) w Q.
Proof.
  unfold wp, or_drop, mbind, St_bind. destruct (m w) as [[a|[e|]|s] w']; try done.
  destruct (d w') as [[[]|[e'|]|s'] w'']; try done; unfold ends_well; naive_solver.
Qed.
Lemma wp_scoped {A B} (make : App A) (drop : A → App unit) (body : A → App B) w Q :
  wp make w (λ r w', match r with
    | Ok x => wp (body x) w' (λ r' w'', wp (drop x) w'' (ends_well (Q r')))
    | Err e => Q (Err e) w' | Stop _ => False end) → wp (scoped make drop body) w Q.
Proof. intros H. unfold scoped. apply wp_bind. eapply wp_mono; [exact H|]. intros [x|e|s] w' Hs H'; try done. by apply wp_finally. Qed.
Lemma wp_caught {A} (m : App A) w Q : wp m w (λ r w', Q (Ok r) w') → wp (caught m) w Q.
Proof. unfold wp, caught. by destruct (m w) as [[a|[e|]|s] w']. Qed.
Lemma wp_modify_end (f : W → W) w Q : Q (f w) → wp (modify f) w (ends_well Q).
Proof. done. Qed.
End Wp.

Section KrbOk.
Context {W : Type} {krb : Krb5 W} {spec : KrbSpec W} {laws : KrbLaws W}.
Implicit Types (w : W) (v : View).
Abbreviation App A := (St W KrbExit A).

(** ** Objects *)
Lemma has_add k a c p v : has k a c p (add k a c p v).
Proof. apply lookup_insert_eq. Qed.
Lemma has_add_ne k a c p k' a' c' p' v : (k, a) ≠ (k', a') → has k a c p v → has k a c p (add k' a' c' p' v).
Proof. intros Hne H. unfold has, add. simpl. by rewrite lookup_insert_ne. Qed.
Lemma has_disk k a c p v d : has k a c p (set_disk d v) ↔ has k a c p v.
Proof. done. Qed.
Lemma del_add k a c p v : v.(live) !! (k, a) = None → del k a (add k a c p v) = v.
Proof. intros H. unfold del, add, set_live. simpl. rewrite delete_insert_id by done. by destruct v. Qed.
Lemma del_add_disk k a c p v d : v.(live) !! (k, a) = None → del k a (set_disk d (add k a c p v)) = set_disk d v.
Proof. intros H. unfold del, add, set_live, set_disk. simpl. by rewrite delete_insert_id. Qed.
Lemma add_add k a c p q v : add k a c q (add k a c p v) = add k a c q v.
Proof. unfold add, set_live. simpl. by rewrite insert_insert_eq. Qed.
Lemma set_disk_same v : set_disk v.(disk) v = v.
Proof. by destruct v. Qed.
Lemma set_disk_twice d d' v : set_disk d (set_disk d' v) = set_disk d v.
Proof. done. Qed.

(** ** Errors and contexts *)
Definition live_or_null (c : Z) v : Prop := c = 0 ∨ c ∈ v.(contexts).
Lemma error_with_ok c code w : live_or_null c (view w) → wp (error_with c code) w (λ r w', view w' = view w ∧ ∃ e, r = Ok e ∧ e.(Krb5Error.code) = code).
Proof.
  intros Hc. unfold error_with. destruct (krb5_get_error_message c code w) as [a w1] eqn:E. eapply wp_bind_sys; [exact E|].
  pose proof (message_law _ _ _ _ _ Hc E) as Hm. destruct (Z.eqb_spec a 0) as [Hz|Hz]; [apply wp_ret; eauto|].
  destruct Hm as (t & Hf & Hv). assert (has KMessage a c (Text t) (view w1)) as Ht by (rewrite Hv; apply has_add).
  eapply wp_bind_deref; [by eapply text_law|]. apply wp_bind_modify, wp_ret.
  rewrite (free_message_law _ _ _ _ Ht), Hv, del_add by done. eauto.
Qed.

Lemma code_checked c code w : c ∈ (view w).(contexts) → wp (check c code) w (λ r w', view w' = view w ∧
  match r with Ok _ => code = 0 ∧ w' = w | Err e => code ≠ 0 ∧ e.(Krb5Error.code) = code | Stop _ => False end).
Proof.
  intros Hc. unfold check, Context_error. destruct (Z.eqb_spec code 0) as [Hz|Hz]; [by apply wp_ret|].
  apply wp_bind. eapply wp_mono; [apply error_with_ok; by right|]. intros r w' _ (Hv & e & -> & He). by apply wp_err.
Qed.

(** A handle that is made. *)
Lemma made_ok k c p f code a w w1 : c ∈ (view w).(contexts) → f w = (code, a, w1) → gives k c code a p (view w) (view w1) →
  wp (made c f) w (λ r w', match r with
    | Ok h => h = a ∧ w' = w1 ∧ code = 0 ∧ a ≠ 0 ∧ (view w).(live) !! (k, a) = None ∧ view w1 = add k a c p (view w)
    | Err e => view w' = view w ∧ code ≠ 0
    | Stop _ => False end).
Proof.
  intros Hc Hf Hg. unfold made. eapply wp_bind_sys; [exact Hf|]. unfold gives in Hg. apply wp_bind.
  assert ((view w1).(contexts) = (view w).(contexts)) as Hcx by (destruct (code =? 0); [by destruct Hg as (_ & _ & ->)|by rewrite Hg]).
  eapply wp_mono; [apply code_checked; by rewrite Hcx|].
  intros r w2 _ (Hv & H). destruct r as [[]|e|]; [| |done].
  - destruct H as [-> ->]. destruct Hg as (H1 & H2 & H3). by apply wp_ret.
  - destruct H as [Hne _]. destruct (Z.eqb_spec code 0); [done|]. rewrite Hv. by rewrite Hg.
Qed.

(** A context of its own, for the time of [body]. *)
Definition with_context (c : Z) v : View := set_contexts (v.(contexts) ∪ {[c]}) v.
Definition new_context (c : Z) v : Prop := c ≠ 0 ∧ (c ∉ v.(contexts)) ∧ ∀ k a p, ¬ has k a c p v.

Lemma context_new_ok w : wp Context_new w (λ r w', match r with
  | Ok c => new_context c (view w) ∧ view w' = with_context c (view w)
  | Err _ => view w' = view w | Stop _ => False end).
Proof.
  unfold Context_new. destruct (krb5_init_context w) as [[code c] w1] eqn:E. eapply wp_bind_sys; [exact E|].
  pose proof (init_law _ _ _ _ E) as Hl. revert Hl. cbv beta iota. destruct (Z.eqb_spec code 0) as [->|Hz]; intros Hl; cbn [negb].
  - destruct Hl as (H1 & H2 & H3 & H4). apply wp_ret. by split; [split|].
  - apply wp_bind. eapply wp_mono; [apply error_with_ok; by left|]. intros r w' _ (Hv & e & -> & He). apply wp_err. by rewrite Hv.
Qed.

Lemma context_drop_ok c v d w : new_context c v → view w = set_disk d (with_context c v) → wp (Context_drop c) w (ends_well (λ w', view w' = set_disk d v)).
Proof.
  intros (H1 & H2 & H3) Hv. apply wp_modify_end. rewrite free_context_law.
  - rewrite Hv. unfold set_contexts, set_disk. simpl. by replace ((v.(contexts) ∪ {[c]}) ∖ {[c]}) with v.(contexts) by set_solver.
  - rewrite Hv. simpl. set_solver.
  - rewrite Hv. intros k a p Hh. by apply (H3 k a p).
Qed.

Lemma with_context_in c v : c ∈ (with_context c v).(contexts).
Proof. simpl. set_solver. Qed.

(** The objects are left as they were; files may have changed. *)
Definition keeps {A} (v : View) (Q : Outcome A Error → gmap Z bytes → Prop) : Outcome A Error → W → Prop :=
  λ r w', ∃ d, view w' = set_disk d v ∧ Q r d.

Lemma kept_same {A} v (Q : Outcome A Error → gmap Z bytes → Prop) r w' : view w' = v → Q r v.(disk) → keeps v Q r w'.
Proof. intros Hv HQ. exists v.(disk). by rewrite set_disk_same. Qed.

(** A name that was read as the grammar has it. *)
Definition read_as w (s : bytes) (p : krb5_principal_data) : Prop := whole p ∧
  ∃ cs r, name_of [] [] s = Some (cs, r) ∧ p.(p_data) = cs ∧ Some p.(p_realm) = match r with Some r => Some r | None => default_realm w end.

Lemma parse_ok c s w : c ∈ (view w).(contexts) → wp (RawPrincipal_parse c s) w (λ r w', match r with
  | Ok a => (x00 ∉ s) ∧ ∃ p, a ≠ 0 ∧ (view w).(live) !! (KPrincipal, a) = None ∧ view w' = add KPrincipal a c (Named p) (view w) ∧ read_as w s p
  | Err _ => view w' = view w | Stop _ => False end).
Proof.
  intros Hc. unfold RawPrincipal_parse, cstring, Prelude.cstring. case_decide as Hs; [by apply wp_bind, wp_err|]. apply wp_bind_ret.
  destruct (krb5_parse_name c s w) as [[code a] w1] eqn:E. destruct (parse_law _ _ _ _ _ _ Hc Hs E) as (p & Hg & Hw & Hp).
  eapply wp_mono; [by eapply made_ok|]. intros [h|e|] w' _ H; [|by destruct H|done].
  destruct H as (-> & -> & Hz & H1 & H2 & H3). split; [done|]. exists p. destruct (Hp Hz) as (cs & r & Hn). split; [done|]. split; [done|]. split; [done|].
  split; [done|]. by exists cs, r.
Qed.

Lemma principal_drop_ok {A} c a p v d w (Q : Outcome A Error → gmap Z bytes → Prop) r : v.(live) !! (KPrincipal, a) = None →
  view w = set_disk d (add KPrincipal a c (Named p) v) → Q r d → wp (RawPrincipal_drop c a) w (ends_well (keeps v Q r)).
Proof.
  intros Hf Hv HQ. apply wp_modify_end. exists d. split; [|done].
  rewrite (free_principal_law _ _ _ p) by (rewrite Hv; apply has_disk, has_add). rewrite Hv. by apply del_add_disk.
Qed.

(** A principal for the time of [body]. *)
Lemma scoped_principal {A} c s (body : Z → App A) w (Q : Outcome A Error → gmap Z bytes → Prop) : c ∈ (view w).(contexts) →
  (∀ a p w1, x00 ∉ s → a ≠ 0 → (view w).(live) !! (KPrincipal, a) = None → view w1 = add KPrincipal a c (Named p) (view w) → read_as w s p →
     wp (body a) w1 (keeps (view w1) Q)) →
  (∀ e, Q (Err e) (view w).(disk)) → wp (scoped (RawPrincipal_parse c s) (RawPrincipal_drop c) body) w (keeps (view w) Q).
Proof.
  intros Hc Hb He. apply wp_scoped. eapply wp_mono; [by apply parse_ok|]. intros [a|e|] w1 _ H; [|by apply kept_same|done].
  destruct H as (Hs & p & Ha & Hf & Hv & Hr). eapply wp_mono; [by apply (Hb a p)|]. intros r w2 _ (d & Hv2 & HQ).
  eapply principal_drop_ok; [exact Hf| |exact HQ]. rewrite Hv2, Hv. done.
Qed.

(** A context for the time of [body]. *)
Lemma scoped_context {A} (body : Context → App A) w (Q : Outcome A Error → gmap Z bytes → Prop) :
  (∀ c w1, new_context c (view w) → view w1 = with_context c (view w) → wp (body c) w1 (keeps (view w1) Q)) →
  (∀ e, Q (Err e) (view w).(disk)) → wp (scoped Context_new Context_drop body) w (keeps (view w) Q).
Proof.
  intros Hb He. apply wp_scoped. eapply wp_mono; [apply context_new_ok|]. intros [c|e|] w1 _ H; [|by apply kept_same|done].
  destruct H as [Hn Hv]. eapply wp_mono; [by apply Hb|]. intros r w2 _ (d & Hv2 & HQ).
  eapply wp_mono; [eapply context_drop_ok; [exact Hn|by rewrite Hv2, Hv]|]. intros o w3 _ [-> Hv3]. split; [done|]. by exists d.
Qed.

(** Reading a principal: what its text is worth. *)
Fixpoint texts (l : list bytes) : Outcome (list bytes) Error :=
  match l with
  | [] => Ok []
  | d :: l => if utf8_valid d then outcome_map (cons d) (texts l) else Err (mkError EINVAL (lit "principal component not UTF-8"))
  end.
Definition name_out (p : krb5_principal_data) : Outcome Principal Error :=
  if utf8_valid p.(p_realm) then outcome_map (λ cs, mkName p.(p_realm) cs p.(p_type)) (texts p.(p_data))
  else Err (mkError EINVAL (lit "realm not UTF-8")).
Definition name_out_opt (o : option krb5_principal_data) : Outcome Principal Error :=
  match o with Some p => name_out p | None => Err (mkError EINVAL (lit "null principal")) end.

Lemma texts_no_stop l s : texts l ≠ Stop s.
Proof. induction l as [|d l IH]; simpl; [done|]. destruct (utf8_valid d); [|done]. destruct (texts l); simpl; [done|done|exact IH]. Qed.
Lemma name_out_no_stop o s : name_out_opt o ≠ Stop s.
Proof.
  destruct o as [p|]; [|done]. simpl. unfold name_out. destruct (utf8_valid _); [|done]. pose proof (texts_no_stop p.(p_data) s).
  destruct (texts p.(p_data)); simpl; congruence.
Qed.

Lemma components_run (data : list bytes) w : read_components (length data) data w = (map_err Fail (texts data), w).
Proof.
  induction data as [|d data IH]; [done|]. cbn [length read_components texts]. unfold utf8. destruct (utf8_valid d); [|done].
  unfold mbind, St_bind. cbn [mret St_ret]. rewrite IH. by destruct (texts data).
Qed.

Lemma read_principal_run a p w : a ≠ 0 → read_principal_at a w = Some p → whole p → read_principal a w = (map_err Fail (name_out p), w).
Proof.
  intros Ha Hr Hw. unfold read_principal. destruct (Z.eqb_spec a 0); [done|]. unfold deref at 1. unfold mbind at 1, St_bind at 1. rewrite Hr.
  unfold whole in Hw. rewrite Hw, Nat2Z.id. unfold utf8, name_out. destruct (utf8_valid p.(p_realm)); [|done].
  unfold mbind, St_bind. cbn [mret St_ret]. rewrite components_run. by destruct (texts p.(p_data)).
Qed.

Lemma name_reads_run a o w : name_reads w a o → read_principal a w = (map_err Fail (name_out_opt o), w).
Proof. destruct o as [p|]; simpl; [|by intros ->]. intros (H1 & H2 & H3). by apply read_principal_run. Qed.

Lemma run_wp {A} (m : App A) w r w' Q : m w = (map_err Fail r, w') → (∀ s, r ≠ Stop s) → Q r w' → wp m w Q.
Proof. unfold wp. intros -> Hs HQ. destruct r as [a|e|s]; [done|done|by destruct (Hs s)]. Qed.

Lemma principal_parse_ok s w : wp (Principal_parse s) w (keeps (view w) (λ r d, d = (view w).(disk) ∧
  ∀ n, r = Ok n → ∃ p w1, read_as w1 s p ∧ name_out p = Ok n)).
Proof.
  unfold Principal_parse. apply scoped_context; [|done]. intros c w1 Hn Hv. rewrite Hv.
  change (disk (view w)) with (disk (with_context c (view w))). rewrite <- Hv. apply scoped_principal; [by rewrite Hv; apply with_context_in| |done].
  intros a p w2 Hs Ha Hf Hv2 Hr. destruct (read_principal_law w2 c a p) as [_ Hrd]; [rewrite Hv2; left; apply has_add|].
  eapply run_wp; [apply read_principal_run; [done|exact Hrd|by destruct Hr]|intros x; apply (name_out_no_stop (Some p))|].
  apply kept_same; [done|]. split; [by rewrite Hv2|]. intros n En. by exists p, w1.
Qed.
End KrbOk.
