(* ===== verification/Krb5Tables.v ===== *)
(** Key tables, credential caches and initial credentials under the laws: what
    each operation leaves of the objects and of the one file it changes. *)
From S2P Require Import Prelude XdrBase Utf8 Krb5Error Krb5 Krb5Laws.
Local Open Scope Z_scope.

(** ** Tables as lists of entries *)

(** What a table holds. *)
Definition content {W} `{KrbSpec W} (v : View) (b : Backing) : option (list Kept) := i ← inode v b; bs ← v.(disk) !! i; entries_of bs.
(** No file but the table's is different. *)
Definition changes (v : View) (b : Backing) (d : gmap Z bytes) : Prop := ∀ j, inode v b ≠ Some j → d !! j = v.(disk) !! j.
(** What [remove_entry] looks for. *)
Definition wants (p : krb5_principal_data) (enctype vno : option Z) (x : Kept) : bool :=
  same_name x.(x_principal) p && is_none_or enctype x.(x_enctype) && is_none_or vno x.(x_vno).
Definition match_of (x : Kept) : Match := mkMatch x.(x_time) x.(x_vno) (mkKeyInfo x.(x_enctype) x.(x_key)).
Definition without (p : krb5_principal_data) (l : list Kept) (m : Match) : list Kept :=
  remove_first (takes p m.(m_vno) m.(m_key).(enctype)) l.
(** An entry as the iterator gives it. *)
Definition kept_item (x : Kept) : Outcome KeytabEntry Error :=
  outcome_map (λ n, mkKeytabEntry n (widen_timestamp x.(x_time)) x.(x_vno) (mkKeyInfo x.(x_enctype) x.(x_key))) (name_out x.(x_principal)).
(** What a key is: given, or derived from the password with the name's salt. *)
Definition key_of {W} `{KrbSpec W} (p : krb5_principal_data) (enc : Z) (key : KeySpec) : bytes :=
  match key with Key k => k | Password pw => string_to_key enc pw (salt_of p) end.

Lemma changes_refl v b : changes v b v.(disk).
Proof. done. Qed.
Lemma changes_trans v b d d' : changes v b d → changes (set_disk d v) b d' → changes v b d'.
Proof. intros H1 H2 j Hj. rewrite (H2 j) by (by destruct b). simpl. by apply H1. Qed.
Lemma changes_insert v b i bs : inode v b = Some i → changes v b (<[i := bs]> v.(disk)).
Proof. intros Hi j Hj. apply lookup_insert_ne. congruence. Qed.
Lemma content_insert `{KrbSpec W} v b i bs : inode v b = Some i → content (set_disk (<[i := bs]> v.(disk)) v) b = entries_of bs.
Proof.
  intros Hi. unfold content. replace (inode (set_disk _ v) b) with (inode v b) by (by destruct b). rewrite Hi. simpl.
  by rewrite lookup_insert_eq.
Qed.
Lemma content_file `{KrbSpec W} v b i bs : inode v b = Some i → v.(disk) !! i = Some bs → content v b = entries_of bs.
Proof. intros Hi Hd. unfold content. rewrite Hi. simpl. by rewrite Hd. Qed.

(** Removing what matches, one after another, leaves the rest in order. *)
Lemma wants_takes p enctype vno x y : wants p enctype vno x = true → takes p x.(x_vno) x.(x_enctype) y = true → wants p enctype vno y = true.
Proof. unfold wants, takes. rewrite !andb_true_iff, !Z.eqb_eq. intros [[_ H2] H3] [[H1 ->] ->]. by split_and!. Qed.
Lemma wants_takes_self p enctype vno x : wants p enctype vno x = true → takes p x.(x_vno) x.(x_enctype) x = true.
Proof. unfold wants, takes. rewrite !andb_true_iff, !Z.eqb_eq. intros [[H _] _]. by split_and!. Qed.

Lemma filter_split {A} (f : A → bool) l x l' : List.filter f l = x :: l' →
  ∃ l1 l2, l = l1 ++ x :: l2 ∧ List.filter f l1 = [] ∧ f x = true ∧ List.filter f l2 = l'.
Proof.
  induction l as [|y l IH]; cbn [List.filter]; [done|]. destruct (f y) eqn:Hy.
  - intros [= <- <-]. by exists [], l.
  - intros (l1 & l2 & -> & H1 & H2 & H3)%IH. exists (y :: l1), l2. split; [done|]. cbn [List.filter]. by rewrite Hy.
Qed.
Lemma remove_first_app f l1 x l2 : forallb (λ y, negb (f y)) l1 = true → f x = true → remove_first f (l1 ++ x :: l2) = l1 ++ l2.
Proof.
  intros H Hx. induction l1 as [|y l1 IH]; simpl; [by rewrite Hx|]. simpl in H. apply andb_true_iff in H as [Hy H].
  apply negb_true_iff in Hy. rewrite Hy. f_equal. by apply IH.
Qed.
Lemma filtered_none {A} (f : A → bool) l : List.filter f l = [] → forallb (λ y, negb (f y)) l = true.
Proof. induction l as [|y l IH]; simpl; [done|]. destruct (f y); simpl; [done|exact IH]. Qed.

Lemma removed_all p enctype vno l :
  foldl (without p) l (match_of <$> List.filter (wants p enctype vno) l) = List.filter (λ x, negb (wants p enctype vno x)) l.
Proof.
  remember (List.filter (wants p enctype vno) l) as ms eqn:E. symmetry in E. revert l E. induction ms as [|x ms IH]; intros l E.
  - apply filtered_none in E. simpl. symmetry. apply forallb_filter_id. exact E.
  - destruct (filter_split _ _ _ _ E) as (l1 & l2 & -> & H1 & Hx & H2). cbn [fmap list_fmap foldl].
    assert (without p (l1 ++ x :: l2) (match_of x) = l1 ++ l2) as ->.
    { unfold without, match_of. simpl. apply remove_first_app; [|by eapply wants_takes_self]. apply forallb_forall. intros y Hy.
      apply filtered_none in H1. rewrite forallb_forall in H1. specialize (H1 y Hy). apply negb_true_iff in H1. apply negb_true_iff.
      apply not_true_iff_false. intros Ht. pose proof (wants_takes _ _ _ _ _ Hx Ht). congruence. }
    rewrite IH; rewrite !List.filter_app; cbn [List.filter]; [by rewrite Hx|]. by rewrite H1, H2.
Qed.

Section Tables.
Context {W : Type} {krb : Krb5 W} {spec : KrbSpec W} {laws : KrbLaws W}.
Implicit Types (w : W) (v : View).
Abbreviation App A := (St W KrbExit A).

(** An open table. *)
Definition table (kt : Keytab) (b : Backing) v : Prop := kt.(ctx) ∈ v.(contexts) ∧ has KKeytab kt.(handle) kt.(ctx) (Table b) v.
(** The objects with a cursor of the table on top, before [l]. *)
Definition walking (kt : Keytab) (a : Z) (l : list Kept) v : View := add KKtCursor a kt.(ctx) (Walk kt.(handle) l) v.
Definition no_cursor (kt : Keytab) v : Prop := ∀ a l, ¬ has KKtCursor a kt.(ctx) (Walk kt.(handle) l) v.

Lemma table_add kt b k a c p v : (KKeytab, kt.(handle)) ≠ (k, a) → table kt b v → table kt b (add k a c p v).
Proof. intros Hne [H1 H2]. split; [done|by apply has_add_ne]. Qed.

(** ** Cursors *)
Lemma entries_ok kt b w : table kt b (view w) → wp (entries kt) w (λ r w', match r with
  | Ok it => ∃ a l, it = mkEntries a false ∧ (view w).(live) !! (KKtCursor, a) = None ∧ view w' = walking kt a l (view w) ∧
      Forall (λ x, whole x.(x_principal)) l ∧ content (view w) b = Some l ∧ (length l ≤ kt_left a w')%nat
  | Err _ => view w' = view w | Stop _ => False end).
Proof.
  intros [Hc Hh]. unfold entries. destruct (krb5_kt_start_seq_get kt.(ctx) kt.(handle) w) as [[code a] w1] eqn:E.
  destruct (start_law _ _ _ _ _ _ _ Hh E) as (l & Hg & Hl & Hd & Hn). apply wp_bind.
  eapply wp_mono; [by eapply made_ok|]. intros [h|e|] w' _ H; [|by destruct H|done].
  destruct H as (-> & -> & Hz & H1 & H2 & H3). apply wp_ret. exists a, l. destruct (Hd Hz) as (i & bs & Hi & Hb & He).
  split_and!; try done; [|by apply Hn]. by rewrite (content_file _ _ _ _ Hi Hb).
Qed.

Lemma entries_drop_ok {A} kt a l v d w (Q : Outcome A Error → gmap Z bytes → Prop) r done : v.(live) !! (KKtCursor, a) = None →
  view w = set_disk d (walking kt a l v) → Q r d → wp (Entries_drop kt (mkEntries a done)) w (ends_well (keeps v Q r)).
Proof.
  intros Hf Hv HQ. apply wp_modify_end. exists d. split; [|done]. unfold walking in Hv.
  rewrite (end_law _ _ _ _ l) by (rewrite Hv; apply has_disk, has_add). rewrite Hv. by apply del_add_disk.
Qed.

(** A cursor for the time of [body], which leaves it somewhere. *)
Lemma scoped_entries {A} kt b (body : Entries → App A) w (Q : Outcome A Error → gmap Z bytes → Prop) : table kt b (view w) →
  (∀ a l w1, (view w).(live) !! (KKtCursor, a) = None → view w1 = walking kt a l (view w) → Forall (λ x, whole x.(x_principal)) l →
     content (view w) b = Some l → (length l ≤ kt_left a w1)%nat →
     wp (body (mkEntries a false)) w1 (λ r w2, ∃ d l', view w2 = set_disk d (walking kt a l' (view w)) ∧ Q r d)) →
  (∀ e, Q (Err e) (view w).(disk)) → wp (scoped (entries kt) (Entries_drop kt) body) w (keeps (view w) Q).
Proof.
  intros Ht Hb He. apply wp_scoped. eapply wp_mono; [by apply entries_ok|]. intros [it|e|] w1 _ H; [|by apply kept_same|done].
  destruct H as (a & l & -> & Hf & Hv & Hl & Hc & Hn). eapply wp_mono; [by apply (Hb a l)|]. intros r w2 _ (d & l' & Hv2 & HQ).
  by eapply entries_drop_ok.
Qed.

(** An entry that is filled, with its table's cursor past it. *)
Definition filled (kt : Keytab) (a : Z) (l : list Kept) (x : Kept) (e : krb5_keytab_entry) v : View :=
  add KEntry e.(e_filled) kt.(ctx) (Filled x e) (walking kt a l v).

Lemma next_raw_ok kt b a l v w : table kt b v → view w = walking kt a l v → wp (next_raw kt (mkEntries a false)) w (λ r w', match r with
  | Ok (Ok (Some e), it) => it = mkEntries a false ∧ ∃ x l', l = x :: l' ∧ v.(live) !! (KEntry, e.(e_filled)) = None ∧ view w' = filled kt a l' x e v
  | Ok (Ok None, it) => it = mkEntries a true ∧ l = [] ∧ view w' = view w
  | Ok (Err _, it) => it = mkEntries a true ∧ view w' = view w
  | _ => False end).
Proof.
  intros [Hc Hh] Hv. unfold next_raw. cbn [done kt_cursor]. destruct (krb5_kt_next_entry kt.(ctx) kt.(handle) a w) as [[code e] w1] eqn:E.
  eapply wp_bind_sys; [exact E|]. cbv beta iota. assert (has KKtCursor a kt.(ctx) (Walk kt.(handle) l) (view w)) as Ha by (rewrite Hv; apply has_add).
  pose proof (next_law _ _ _ _ _ _ _ _ Ha E) as H. destruct (Z.eqb_spec code 0) as [Hz|Hz].
  - destruct H as (x & l' & -> & Hf & Hv1). apply wp_ret. split; [done|]. exists x, l'. split; [done|]. split.
    + revert Hf. rewrite Hv. unfold walking, add. simpl. by rewrite lookup_insert_ne.
    + rewrite Hv1, Hv. unfold filled, walking. by rewrite add_add.
  - destruct H as [Hv1 Hl]. destruct (Z.eqb_spec code ffi_KRB5_KT_END) as [He|He]; [by apply wp_ret; auto|].
    apply wp_bind. eapply wp_mono; [apply error_with_ok; right; by rewrite Hv1, Hv|]. intros r w2 _ (Hv2 & e' & -> & _). apply wp_ret.
    by rewrite Hv2.
Qed.

(** What an entry holds, while it is filled. *)
Lemma filled_reads kt a l x e v d w : view w = set_disk d (filled kt a l x e v) →
  has KEntry e.(e_filled) kt.(ctx) (Filled x e) (view w) ∧ principal_at (view w) kt.(ctx) e.(e_principal) x.(x_principal) ∧
  e.(e_timestamp) = x.(x_time) ∧ e.(e_vno) = x.(x_vno) ∧ block_reads w e.(e_key) x.(x_enctype) x.(x_key).
Proof.
  intros Hv. assert (has KEntry e.(e_filled) kt.(ctx) (Filled x e) (view w)) as H by (rewrite Hv; apply has_disk, has_add).
  destruct (entry_law _ _ _ _ _ H) as (_ & H1 & H2 & H3). split_and!; try done; [|apply H3..]. right. by eexists _, _, _.
Qed.

Lemma key_bytes_run w e enc k : block_reads w e.(e_key) enc k → key_bytes e w = (Ok k, w).
Proof.
  intros (_ & Hl & a & Ha & Hk). unfold key_bytes. rewrite Hl. destruct k as [|x k]; [done|].
  destruct (Z.eqb_spec (len (x :: k)) 0) as [Hz|_]; [unfold len in Hz; simpl in Hz; lia|].
  rewrite Ha. unfold deref. destruct Hk as [_ ->]; done.
Qed.

Lemma entry_drop_ok kt a l x e v d w (Q : W → Prop) : v.(live) !! (KEntry, e.(e_filled)) = None →
  view w = set_disk d (filled kt a l x e v) → (∀ w', view w' = set_disk d (walking kt a l v) → Q w') →
  wp (RawEntry_drop kt e) w (ends_well Q).
Proof.
  intros Hf Hv HQ. apply wp_modify_end, HQ. rewrite (free_entry_law _ _ x) by (rewrite Hv; apply has_disk, has_add). rewrite Hv.
  apply del_add_disk. unfold walking, add. simpl. by rewrite lookup_insert_ne.
Qed.

(** ** Listing *)
Lemma entries_next_ok kt b a l v w : table kt b v → view w = walking kt a l v → Forall (λ x, whole x.(x_principal)) l →
  wp (Entries_next kt (mkEntries a false)) w (λ r w', match r with
  | Ok (Some i, it) =>
      (it = mkEntries a false ∧ ∃ x l', l = x :: l' ∧ i = kept_item x ∧ view w' = walking kt a l' v) ∨
      (it = mkEntries a true ∧ ∃ e, i = Err e ∧ view w' = walking kt a l v)
  | Ok (None, it) => it = mkEntries a true ∧ l = [] ∧ view w' = walking kt a l v
  | _ => False end).
Proof.
  intros Ht Hv Hl. unfold Entries_next. apply wp_bind. eapply wp_mono; [by eapply next_raw_ok|].
  intros [[[[e|]|e|s] it]| |] w1 _ H; try done.
  - destruct H as (-> & x & l' & -> & Hf & Hv1). apply Forall_cons in Hl as [Hx Hl]. cbv beta iota.
    assert (view w1 = set_disk v.(disk) (filled kt a l' x e v)) as Hv1' by exact Hv1.
    destruct (filled_reads _ _ _ _ _ _ _ _ Hv1') as (_ & Hp & Htm & Hvn & Hk). destruct (read_principal_law _ _ _ _ Hp) as [Ha Hr].
    apply wp_bind, wp_finally, wp_bind, wp_caught. eapply run_wp; [by apply read_principal_run|intros s; apply (name_out_no_stop (Some _))|].
    destruct (name_out x.(x_principal)) as [n|er|s] eqn:En; [| |by destruct (name_out_no_stop (Some x.(x_principal)) s)].
    + cbv beta iota. eapply run_wp with (r := Ok _); [|done|].
      { unfold mbind, St_bind. rewrite (key_bytes_run _ _ _ _ Hk). reflexivity. }
      eapply entry_drop_ok; [exact Hf|exact Hv1'|]. intros w2 Hv2. apply wp_ret. left. split; [done|]. exists x, l'.
      split; [done|]. split; [|exact Hv2]. unfold kept_item. rewrite En, Htm, Hvn. simpl. by destruct Hk as [-> _].
    + apply wp_ret. eapply entry_drop_ok; [exact Hf|exact Hv1'|]. intros w2 Hv2. apply wp_ret. left. split; [done|]. exists x, l'.
      split; [done|]. split; [|exact Hv2]. unfold kept_item. by rewrite En.
  - destruct H as (-> & Hl0 & Hv1). apply wp_ret. by rewrite Hv1.
  - destruct H as (-> & Hv1). apply wp_ret. right. split; [done|]. exists e. by rewrite Hv1.
Qed.

(** A caller's loop over an iterator, to its end. *)
Fixpoint collect (fuel : nat) (kt : Keytab) (it : Entries) : App (list (Outcome KeytabEntry Error)) :=
  match fuel with
  | O => halt OutOfFuel
  | S fuel =>
      '(i, it) ← Entries_next kt it;
      match i with
      | None => mret []
      | Some i => l ← collect fuel kt it; mret (i :: l)
      end
  end.
Definition list_entries (kt : Keytab) : App (list (Outcome KeytabEntry Error)) :=
  scoped (entries kt) (Entries_drop kt) (λ it, fuel ← kt_fuel it.(kt_cursor); collect (S fuel) kt it).
(** Every entry in order, or those before an error. *)
Definition listed (l : list Kept) (got : list (Outcome KeytabEntry Error)) : Prop :=
  got = kept_item <$> l ∨ ∃ n e, got = (kept_item <$> take n l) ++ [Err e].

Lemma listed_cons x l got : listed l got → listed (x :: l) (kept_item x :: got).
Proof. intros [->|(n & e & ->)]; [by left|right]. by exists (S n), e. Qed.

Lemma collect_done kt a w n : collect (S n) kt (mkEntries a true) w = (Ok [], w).
Proof. done. Qed.

Lemma collect_entries_ok kt b a v fuel : table kt b v → ∀ l w, view w = walking kt a l v → Forall (λ x, whole x.(x_principal)) l →
  (length l < fuel)%nat → wp (collect (S fuel) kt (mkEntries a false)) w (λ r w', ∃ l' got, view w' = walking kt a l' v ∧ r = Ok got ∧ listed l got).
Proof.
  intros Ht. induction fuel as [|fuel IH]; intros l w Hv Hl Hn; [lia|]. cbn [collect]. apply wp_bind.
  eapply wp_mono; [by eapply entries_next_ok|]. intros [[[i|] it]| |] w1 _ H; try done; cbv beta iota.
  - destruct H as [(-> & x & l' & -> & -> & Hv1)|(-> & e & -> & Hv1)].
    + apply Forall_cons in Hl as [_ Hl]. simpl in Hn. apply wp_bind. eapply wp_mono; [apply (IH l'); [done|done|lia]|].
      intros r w2 _ (l2 & got & Hv2 & -> & Hg). apply wp_ret. exists l2, (kept_item x :: got). split; [done|]. split; [done|]. by apply listed_cons.
    + apply wp_bind. eapply run_wp with (r := Ok []); [exact (collect_done kt a w1 fuel)|done|]. apply wp_ret. exists l, [Err e].
      split; [done|]. split; [done|]. right. by exists 0%nat, e.
  - destruct H as (-> & -> & Hv1). apply wp_ret. exists [], []. split; [done|]. split; [done|]. by left.
Qed.

Lemma wp_kt_fuel {A} a (f : nat → App A) w Q : wp (f (S (kt_left a w))) w Q → wp (kt_fuel a ≫= f) w Q.
Proof. done. Qed.

Lemma list_entries_ok kt b w : table kt b (view w) → wp (list_entries kt) w (keeps (view w) (λ r d, d = (view w).(disk) ∧
  ∀ got, r = Ok got → ∃ l, content (view w) b = Some l ∧ listed l got)).
Proof.
  intros Ht. unfold list_entries. eapply scoped_entries; [done| |done]. intros a l w1 Hf Hv Hl Hc Hn. apply wp_kt_fuel.
  eapply wp_mono; [eapply collect_entries_ok; [done..|cbn [kt_cursor]; lia]|]. intros r w2 _ (l' & got & Hv2 & -> & Hg). exists (view w).(disk), l'.
  split; [exact Hv2|]. split; [done|]. intros ? [= <-]. by exists l.
Qed.

(** ** Removing *)
Lemma snapshot_ok kt b a v target p enctype vno fuel : table kt b v → has KPrincipal target kt.(ctx) (Named p) v → ∀ l ms w,
  view w = walking kt a l v → Forall (λ x, whole x.(x_principal)) l → (length l < fuel)%nat →
  wp (snapshot fuel kt target enctype vno (mkEntries a false) ms) w (λ r w', ∃ l', view w' = walking kt a l' v ∧ ∃ s, r = Ok s ∧
    match s with Ok got => got = ms ++ (match_of <$> List.filter (wants p enctype vno) l) | Err _ => True | Stop _ => False end).
Proof.
  intros Ht Hp. induction fuel as [|fuel IH]; intros l ms w Hv Hl Hn; [lia|]. cbn [snapshot]. apply wp_bind.
  eapply wp_mono; [by eapply next_raw_ok|]. intros [[[[e|]|e|s] it]| |] w1 _ H; try done; cbv beta iota.
  - destruct H as (-> & x & l' & -> & Hf & Hv1). apply Forall_cons in Hl as [Hx Hl]. simpl in Hn.
    assert (view w1 = set_disk v.(disk) (filled kt a l' x e v)) as Hv1' by exact Hv1.
    destruct (filled_reads _ _ _ _ _ _ _ _ Hv1') as (_ & Hxp & Htm & Hvn & Hk).
    destruct (krb5_principal_compare kt.(ctx) e.(e_principal) target w1) as [same w2] eqn:E.
    assert (principal_at (view w1) kt.(ctx) target p) as Htp by (left; rewrite Hv1; by repeat apply has_add_ne).
    destruct (compare_law _ _ _ _ _ _ _ _ Hxp Htp E) as [Hv2 Hs].
    apply wp_bind, wp_finally. eapply wp_bind_sys; [exact E|]. cbv beta iota.
    assert (block_reads w2 e.(e_key) x.(x_enctype) x.(x_key)) as Hk2.
    { eapply filled_reads with (d := v.(disk)). by rewrite Hv2. }
    assert (negb (same =? 0) = same_name x.(x_principal) p) as Hsame.
    { destruct (Z.eqb_spec same 0), (same_name x.(x_principal) p); simpl; naive_solver. }
    rewrite Hsame, Hvn. pose proof Hk as [Henc _]. rewrite Henc. change (same_name _ _ && _ && _) with (wants p enctype vno x).
    cbn [List.filter]. destruct (wants p enctype vno x) eqn:Hw; (eapply run_wp with (r := Ok _); [|done|]).
    + unfold mbind, St_bind. rewrite (key_bytes_run _ _ _ _ Hk2). reflexivity.
    + eapply entry_drop_ok; [exact Hf|rewrite Hv2; exact Hv1'|]. intros w3 Hv3. eapply wp_mono; [apply (IH l'); [done..|lia]|].
      intros r w4 _ (l2 & Hv4 & s & -> & Hg). exists l2. split; [done|]. exists s. split; [done|]. destruct s; [|done..]. rewrite Hg, <- app_assoc.
      cbn [fmap list_fmap app]. unfold match_of at 2. by rewrite Htm.
    + reflexivity.
    + eapply entry_drop_ok; [exact Hf|rewrite Hv2; exact Hv1'|]. intros w3 Hv3. rewrite app_nil_r. apply IH; [done..|lia].
  - destruct H as (-> & -> & Hv1). apply wp_ret. exists []. split; [by rewrite Hv1|]. exists (Ok ms). split; [done|]. by rewrite app_nil_r.
  - destruct H as (-> & Hv1). apply wp_ret. exists l. split; [by rewrite Hv1|]. by exists (Err e).
Qed.

Lemma remove_all_ok kt b target p ms : ∀ w, table kt b (view w) → has KPrincipal target kt.(ctx) (Named p) (view w) → no_cursor kt (view w) →
  wp (remove_all kt target ms) w (keeps (view w) (λ r d, changes (view w) b d ∧ (r = Ok tt → ∀ l, content (view w) b = Some l →
    content (set_disk d (view w)) b = Some (foldl (without p) l ms)))).
Proof.
  induction ms as [|m ms IH]; intros w Ht Hp Hn; cbn [remove_all].
  - apply wp_ret, kept_same; [done|]. split; [done|]. intros _ l Hl. by rewrite set_disk_same.
  - match goal with |- wp (sys ?f ≫= _) _ _ => destruct (f w) as [code w1] eqn:E end. eapply wp_bind_sys; [exact E|]. cbv beta iota.
    eapply remove_law in E; [|apply Ht|left; exact Hp|exact Hn|reflexivity]. cbn [e_vno e_key b_enctype] in E. apply wp_bind.
    eapply wp_mono; [apply code_checked; destruct E as [[-> _]|(i & bs & bs' & _ & _ & -> & _)]; apply Ht|]. intros r w2 _ (Hv2 & Hr).
    destruct E as [[Hv1 Hne]|(i & bs & bs' & Hi & Hb & Hv1 & Hc)].
    { destruct r as [u|e|]; [by destruct Hr|apply kept_same; [by rewrite Hv2|by split]|done]. }
    destruct r as [u|e|]; [|exists (<[i := bs']> (view w).(disk)); split; [by rewrite Hv2|]; split; [by apply changes_insert|done]|done].
    destruct Hr as [-> ->]. eapply wp_mono; [apply IH; rewrite Hv1; [exact Ht|exact Hp|exact Hn]|].
    intros r w3 _ (d & Hv3 & Hd & Hl). exists d. rewrite Hv3, Hv1. split; [done|]. rewrite Hv1 in Hd, Hl. split.
    + eapply changes_trans; [by apply changes_insert|exact Hd].
    + intros -> l Hcl. rewrite (content_file _ _ _ _ Hi Hb) in Hcl. apply (Hl eq_refl). rewrite content_insert by done. by apply Hc.
Qed.

(** The matches, the cursor closed again. *)
Lemma matches_ok kt b target p enctype vno w : table kt b (view w) → has KPrincipal target kt.(ctx) (Named p) (view w) →
  wp (scoped (entries kt) (Entries_drop kt) (λ it, fuel ← kt_fuel it.(kt_cursor); r ← snapshot fuel kt target enctype vno it []; raised r)) w
    (λ r w', view w' = view w ∧ ∀ ms, r = Ok ms → ∃ l, content (view w) b = Some l ∧ ms = match_of <$> List.filter (wants p enctype vno) l).
Proof.
  intros Ht Hp. eapply wp_mono; [eapply (scoped_entries kt b) with (Q := λ (r : Outcome (list Match) Error) d, d = (view w).(disk) ∧ ∀ ms, r = Ok ms →
    ∃ l, content (view w) b = Some l ∧ ms = match_of <$> List.filter (wants p enctype vno) l); [done| |done]|].
  - intros a l w2 Hfa Hv2 Hl Hc Hle. apply wp_kt_fuel, wp_bind. eapply wp_mono; [eapply snapshot_ok; [exact Ht|exact Hp|exact Hv2|exact Hl|cbn [kt_cursor]; lia]|].
    intros r w3 _ (l' & Hv3 & s & -> & Hs). apply wp_raised; [by destruct s|]. exists (view w).(disk), l'. split; [exact Hv3|]. split; [done|].
    intros ms ->. by exists l.
  - intros r w2 _ (d & Hv2 & -> & Hms). by rewrite set_disk_same in Hv2.
Qed.

Lemma remove_entry_ok kt b name enctype vno w : table kt b (view w) → no_cursor kt (view w) →
  wp (remove_entry kt name enctype vno) w (keeps (view w) (λ r d, changes (view w) b d ∧ ∀ n, r = Ok n → ∃ l p, content (view w) b = Some l ∧
    read_as w name p ∧ n = len (List.filter (wants p (EncType_raw <$> enctype) vno) l) ∧
    content (set_disk d (view w)) b = Some (List.filter (λ x, negb (wants p (EncType_raw <$> enctype) vno x)) l))).
Proof.
  intros Ht Hn. unfold remove_entry. apply scoped_principal; [apply Ht| |done].
  intros target p w1 _ _ Hf Hv1 Hr. apply wp_bind.
  assert (table kt b (view w1)) as Ht1 by (rewrite Hv1; by apply table_add).
  assert (has KPrincipal target kt.(ctx) (Named p) (view w1)) as Hp1 by (rewrite Hv1; apply has_add).
  eapply wp_mono; [by apply (matches_ok kt b target p)|]. intros r w2 Hs (Hv2 & Hms).
  destruct r as [ms|e|s]; [|apply kept_same; [done|]; by rewrite Hv1|by destruct (Hs s)].
  destruct (Hms ms eq_refl) as (l & Hcl & ->). rewrite <- Hv2 in Ht1, Hp1. apply wp_bind. eapply wp_mono; [apply (remove_all_ok kt b target p); try done|].
  - rewrite Hv2, Hv1. intros a l' H. apply (Hn a l'). revert H. unfold has, add. simpl. by rewrite lookup_insert_ne.
  - intros r w3 Hs3 (d & Hv3 & Hd & Hres). rewrite Hv2 in Hv3, Hd, Hres. rewrite Hv1 in Hcl, Hd, Hres.
    destruct r as [[]|e|s]; [apply wp_ret|by exists d|by destruct (Hs3 s)]. exists d. split; [done|]. split; [exact Hd|].
    intros n [= <-]. exists l, p. split; [exact Hcl|]. split; [exact Hr|]. split; [by unfold len; rewrite length_fmap|].
    rewrite <- removed_all. by apply (Hres eq_refl l).
Qed.

(** ** Adding *)
Definition appended (b : Backing) v (p : krb5_principal_data) (vno enc : Z) (key : bytes) (d : gmap Z bytes) : Prop :=
  ∀ l, content v b = Some l → ∃ t, content (set_disk d v) b = Some (l ++ [mkKept p t vno enc key]).

Lemma added_ok w c h b e p key code w' : has KKeytab h c (Table b) (view w) → principal_at (view w) c e.(e_principal) p →
  (e.(e_key).(b_contents) = Own key ∧ e.(e_key).(b_length) = len key ∨ block_reads w e.(e_key) e.(e_key).(b_enctype) key) →
  krb5_kt_add_entry c h e w = (code, w') →
  ∃ d, view w' = set_disk d (view w) ∧ changes (view w) b d ∧ (code = 0 → appended b (view w) p e.(e_vno) e.(e_key).(b_enctype) key d).
Proof.
  intros Hh Hp Hk E. destruct (add_law _ _ _ _ _ _ _ _ _ Hh Hp Hk E) as [[Hv Hne]|(i & bs & bs' & Hi & Hb & Hv & Hc)].
  - exists (view w).(disk). by rewrite set_disk_same.
  - exists (<[i := bs']> (view w).(disk)). split; [done|]. split; [by apply changes_insert|]. intros Hz l Hl.
    rewrite (content_file _ _ _ _ Hi Hb) in Hl. rewrite content_insert by done. by apply Hc.
Qed.

(** A salt for the time of [body]. *)
Lemma scoped_salt {A} c a p (body : Z * Z → App A) w (Q : Outcome A Error → gmap Z bytes → Prop) : c ∈ (view w).(contexts) →
  has KPrincipal a c (Named p) (view w) →
  (∀ salt w1, view w1 = add KSalt salt.2 c (Text (salt_of p)) (view w) → wp (body salt) w1 (keeps (view w1) Q)) →
  (∀ e, Q (Err e) (view w).(disk)) → wp (scoped (PrincipalSalt_derive c a) (PrincipalSalt_drop c) body) w (keeps (view w) Q).
Proof.
  intros Hc Hp Hb He. apply wp_scoped. unfold PrincipalSalt_derive. destruct (krb5_principal2salt c a w) as [[code salt] w1] eqn:E.
  eapply wp_bind_sys; [exact E|]. cbv beta iota. pose proof (salt_law _ _ _ _ _ _ _ Hp E) as Hg. unfold gives in Hg.
  assert ((view w1).(contexts) = (view w).(contexts)) as Hcx by (destruct (code =? 0); [by destruct Hg as (_ & _ & ->)|by rewrite Hg]).
  apply wp_bind. eapply wp_mono; [apply code_checked; by rewrite Hcx|]. intros [u|e|] w2 _ (Hv2 & Hr); [| |done].
  - destruct Hr as [-> ->]. destruct Hg as (_ & Hf & Hv1). apply wp_ret. eapply wp_mono; [by apply Hb|]. intros r w3 _ (d & Hv3 & HQ).
    apply wp_modify_end. exists d. split; [|done]. rewrite (free_salt_law _ _ _ (salt_of p)) by (rewrite Hv3, Hv1; apply has_disk, has_add).
    rewrite Hv3, Hv1. by apply del_add_disk.
  - destruct Hr as [Hne _]. destruct (Z.eqb_spec code 0); [done|]. apply kept_same; [by rewrite Hv2|done].
Qed.

Lemma c_uint_len_cases n what : c_uint_len (W := W) n what = mret n ∨ ∃ e, c_uint_len (W := W) n what = err e.
Proof. unfold c_uint_len. destruct (n <=? u32_max); [by left|right; by eexists]. Qed.

(** The code of the last call of an addition. *)
Lemma check_added c code w v (Q : Outcome unit Error → gmap Z bytes → Prop) d : c ∈ v.(contexts) → view w = set_disk d v →
  (∀ e, Q (Err e) d) → (code = 0 → Q (Ok tt) d) → wp (check c code) w (keeps v Q).
Proof.
  intros Hc Hv He Hok. eapply wp_mono; [apply code_checked; by rewrite Hv|]. intros [[]|e|] w1 _ (Hv1 & Hr); [| |done].
  - exists d. split; [by rewrite Hv1|]. apply Hok, Hr.
  - exists d. split; [by rewrite Hv1|apply He].
Qed.

(** A key that was derived, added and freed. *)
Lemma add_derived_ok kt b target p enc pw vno salt w : table kt b (view w) → has KPrincipal target kt.(ctx) (Named p) (view w) →
  has KSalt salt.2 kt.(ctx) (Text (salt_of p)) (view w) →
  wp ('(code, block) ← sys (krb5_c_string_to_key kt.(ctx) enc pw salt);
      check kt.(ctx) code;;
      code ← sys (krb5_kt_add_entry kt.(ctx) kt.(handle) (mkEntry 0 target 0 vno block));
      modify (krb5_free_keyblock_contents kt.(ctx) block);;
      check kt.(ctx) code) w
    (keeps (view w) (λ r d, changes (view w) b d ∧ (r = Ok tt → appended b (view w) p vno enc (string_to_key enc pw (salt_of p)) d))).
Proof.
  intros [Hc Hh] Hp Hs. destruct (krb5_c_string_to_key kt.(ctx) enc pw salt w) as [[code k] w1] eqn:E. eapply wp_bind_sys; [exact E|]. cbv beta iota.
  pose proof (derive_law _ _ _ _ _ _ _ _ _ Hs E) as Hd.
  assert ((view w1).(contexts) = (view w).(contexts)) as Hcx by (destruct (code =? 0); [by destruct Hd as (a & _ & _ & -> & _)|by rewrite Hd]).
  apply wp_bind. eapply wp_mono; [apply code_checked; by rewrite Hcx|]. intros [u|e|] w2 _ (Hv2 & Hr); [| |done].
  - destruct Hr as [-> ->]. destruct Hd as (a & Ha & Hf & Hv1 & Hk). pose proof Hk as [Henc _].
    destruct (krb5_kt_add_entry kt.(ctx) kt.(handle) (mkEntry 0 target 0 vno k) w1) as [code w3] eqn:E2. eapply wp_bind_sys; [exact E2|].
    apply wp_bind_modify.
    assert (has KKeytab kt.(handle) kt.(ctx) (Table b) (view w1)) as Hh1 by (rewrite Hv1; by apply has_add_ne).
    assert (principal_at (view w1) kt.(ctx) target p) as Hp1 by (left; rewrite Hv1; by apply has_add_ne).
    assert (block_reads w1 k k.(b_enctype) (string_to_key enc pw (salt_of p))) as Hk1 by (by rewrite Henc).
    destruct (added_ok w1 _ _ b (mkEntry 0 target 0 vno k) p _ _ _ Hh1 Hp1 (or_intror Hk1) E2) as (d & Hv3 & Hch & Happ).
    rewrite Hv1 in Hv3, Hch, Happ. cbn [e_vno e_key] in Happ. rewrite Henc in Happ. eapply check_added; [exact Hc| |intros e; by split|].
    + rewrite (free_block_law _ _ _ a (string_to_key enc pw (salt_of p))) by (try done; rewrite Hv3; apply has_disk, has_add).
      rewrite Hv3. by apply del_add_disk.
    + intros Hz. split; [exact Hch|]. intros _. by apply Happ.
  - destruct Hr as [Hne _]. destruct (Z.eqb_spec code 0); [done|]. apply kept_same; [by rewrite Hv2|done].
Qed.

Lemma add_entry_ok kt b name enctype vno key w : table kt b (view w) →
  wp (add_entry kt name enctype vno key) w (keeps (view w) (λ r d, changes (view w) b d ∧ (r = Ok tt →
    ∃ p, read_as w name p ∧ appended b (view w) p vno (EncType_raw enctype) (key_of p (EncType_raw enctype) key) d))).
Proof.
  intros Ht. unfold add_entry. apply scoped_principal; [apply Ht| |done]. intros target p w1 _ _ Hf Hv1 Hr.
  assert (table kt b (view w1)) as Ht1 by (rewrite Hv1; by apply table_add). pose proof Ht1 as [Hc1 Hh1].
  assert (has KPrincipal target kt.(ctx) (Named p) (view w1)) as Hp1 by (rewrite Hv1; apply has_add).
  destruct key as [pw|k]; cbv beta iota zeta.
  - apply scoped_salt with (p := p); [done..| |rewrite Hv1; done]. intros salt w2 Hv2. apply wp_bind.
    destruct (c_uint_len_cases (len pw) "password") as [->|(e & ->)]; [apply wp_ret|apply wp_err, kept_same; [done|rewrite Hv2, Hv1; done]].
    eapply wp_mono; [apply (add_derived_ok kt b target p); rewrite Hv2; [by apply table_add|by apply has_add_ne|apply has_add]|].
    intros r w3 _ (d & Hv3 & Hd). exists d. split; [done|]. rewrite Hv2, Hv1 in Hd. split; [apply Hd|]. intros Hok. exists p. split; [done|]. by apply Hd.
  - apply wp_bind. destruct (c_uint_len_cases (len k) "key") as [->|(e & ->)]; [apply wp_ret|apply wp_err, kept_same; [done|rewrite Hv1; done]].
    match goal with |- wp (sys ?f ≫= _) _ _ => destruct (f w1) as [code w2] eqn:E end. eapply wp_bind_sys; [exact E|].
    assert (principal_at (view w1) kt.(ctx) target p) as Hat by (by left).
    destruct (added_ok w1 _ _ b (mkEntry 0 target 0 vno (mkBlock (EncType_raw enctype) (len k) (Own k))) p k _ _ Hh1 Hat (or_introl (conj eq_refl eq_refl)) E) as (d & Hv2 & Hch & Happ).
    rewrite Hv1 in Hch, Happ. eapply check_added; [exact Hc1|exact Hv2|intros e; by split|]. intros Hz. split; [exact Hch|]. intros _. exists p. split; [done|].
    by apply Happ.
Qed.

(** ** Handles for a time *)
Definition makes {A} (k : Kind) (c : Z) (good : Z → Payload → Prop) v (f : Z → A) : Outcome A Error → W → Prop := λ r w',
  match r with
  | Ok x => ∃ h p, x = f h ∧ h ≠ 0 ∧ good h p ∧ v.(live) !! (k, h) = None ∧ view w' = add k h c p v
  | Err _ => view w' = v
  | Stop _ => False
  end.

Lemma made_makes k c good f w : c ∈ (view w).(contexts) →
  (∀ code h w', f w = (code, h, w') → ∃ p, gives k c code h p (view w) (view w') ∧ (code = 0 → good h p)) → wp (made c f) w (makes k c good (view w) id).
Proof.
  intros Hc Hf. destruct (f w) as [[code h] w1] eqn:E. destruct (Hf _ _ _ eq_refl) as (p & Hg & Hgood).
  eapply wp_mono; [by eapply made_ok|]. intros [x|e|] w2 _ H; [|apply H|done]. destruct H as (-> & -> & Hz & H1 & H2 & H3).
  exists h, p. split_and!; try done. by apply Hgood.
Qed.

Lemma cstring_bind {A} s what (f : bytes → App A) w Q : (x00 ∉ s → wp (f s) w Q) → (∀ e, Q (Err e) w) → wp (cstring s what ≫= f) w Q.
Proof. intros Hf He. unfold cstring, Prelude.cstring. case_decide as Hs; [by apply wp_bind, wp_err|]. by apply Hf. Qed.

Lemma scoped_object {A} k c (make : App Z) (dropf : Z → W → W) good (body : Z → App A) w (Q : Outcome A Error → gmap Z bytes → Prop) :
  wp make w (makes k c good (view w) id) →
  (∀ h p w', good h p → has k h c p (view w') → view (dropf h w') = del k h (view w')) →
  (∀ h p w1, h ≠ 0 → good h p → (view w).(live) !! (k, h) = None → view w1 = add k h c p (view w) → wp (body h) w1 (keeps (view w1) Q)) →
  (∀ e, Q (Err e) (view w).(disk)) → wp (scoped make (λ h, modify (dropf h)) body) w (keeps (view w) Q).
Proof.
  intros Hm Hd Hb He. apply wp_scoped. eapply wp_mono; [exact Hm|]. intros [h|e|] w1 _ H; [|by apply kept_same|done].
  destruct H as (h' & p & -> & Hz & Hg & Hf & Hv). eapply wp_mono; [by eapply Hb|]. intros r w2 _ (d & Hv2 & HQ). rewrite Hv in Hv2.
  apply wp_modify_end. exists d. split; [|done]. rewrite (Hd _ p) by (try done; rewrite Hv2; apply has_disk, has_add).
  rewrite Hv2. by apply del_add_disk.
Qed.

Definition a_table (h : Z) (p : Payload) : Prop := ∃ b, p = Table b.
Definition the_table (b : Backing) (h : Z) (p : Payload) : Prop := p = Table b.

Lemma resolve_name_ok c s what w : c ∈ (view w).(contexts) →
  wp (cname ← cstring s what; made c (krb5_kt_resolve c cname)) w (makes KKeytab c a_table (view w) id).
Proof.
  intros Hc. apply cstring_bind; [|done]. intros Hs. apply made_makes; [done|]. intros code h w' E.
  destruct (resolve_law _ _ _ _ _ _ Hc Hs E) as (b & Hg & _). exists (Table b). split; [done|]. by exists b.
Qed.
Lemma resolve_fd_ok c fd w : c ∈ (view w).(contexts) → is_Some ((view w).(files) !! fd) → wp (resolve_fd c fd) w (makes KKeytab c (the_table (ByFd fd)) (view w) id).
Proof.
  intros Hc Hfd. apply cstring_bind; [|done]. intros Hs. apply made_makes; [done|]. intros code h w' E.
  destruct (resolve_law _ _ _ _ _ _ Hc Hs E) as (b & Hg & Hb). exists (Table b). split; [done|]. intros _. by rewrite (Hb fd Hfd eq_refl).
Qed.
Lemma kt_default_ok c w : c ∈ (view w).(contexts) → wp (made c (krb5_kt_default c)) w (makes KKeytab c a_table (view w) id).
Proof.
  intros Hc. apply made_makes; [done|]. intros code h w' E. destruct (kt_default_law _ _ _ _ _ Hc E) as (b & Hg). exists (Table b).
  split; [done|]. by exists b.
Qed.

(** ** Anonymous files *)
Definition grows v (d : gmap Z bytes) : Prop := ∀ j, is_Some (v.(disk) !! j) → d !! j = v.(disk) !! j.
(** The file [i] with [bs], open twice. *)
Definition with_file (file fd i : Z) (bs : bytes) v : View := set_files (<[file := i]> (<[fd := i]> v.(files))) (set_disk (<[i := bs]> v.(disk)) v).
Definition new_file (file fd i : Z) v : Prop :=
  0 ≤ fd ∧ file ≠ fd ∧ v.(files) !! file = None ∧ v.(files) !! fd = None ∧ v.(disk) !! i = None.

Lemma wp_io {A B} (f : W → Outcome A OsError * W) (g : A → App B) w Q r w' : f w = (r, w') → (∀ s, r ≠ Stop s) →
  match r with Ok a => wp (g a) w' Q | Err e => Q (Err (io_error e)) w' | Stop _ => True end → wp (io f ≫= g) w Q.
Proof. intros H Hs HQ. apply wp_bind. unfold wp, io. rewrite H. destruct r as [a|e|s]; [done|done|by destruct (Hs s)]. Qed.

Lemma set_files_id v d f : f = v.(files) → set_files f (set_disk d v) = set_disk d v.
Proof. by intros ->. Qed.

Lemma memfd_ok w : wp memfd w (λ r w', match r with
  | Ok (file, fd) => ∃ i, new_file file fd i (view w) ∧ view w' = with_file file fd i [] (view w)
  | Err _ => ∃ d, view w' = set_disk d (view w) ∧ grows (view w) d
  | Stop _ => False end).
Proof.
  unfold memfd. destruct (memfd_create w) as [r w1] eqn:E. pose proof (memfd_law _ _ _ E) as H.
  eapply wp_io; [exact E|by destruct r|]. destruct r as [fd|e|]; [|exists (view w).(disk); by rewrite set_disk_same|done].
  destruct H as (Hp & Hf & i & Hi & Hv). apply wp_or_drop. destruct (try_clone fd w1) as [r w2] eqn:E2.
  assert ((view w1).(files) !! fd = Some i) as Hfd by (rewrite Hv; simpl; apply lookup_insert_eq).
  pose proof (clone_law _ _ _ _ _ Hfd E2) as H. eapply wp_io; [exact E2|by destruct r|]. destruct r as [file|e|]; [| |done].
  - destruct H as (Hp2 & Hf2 & Hv2). apply wp_ret. exists i. rewrite Hv in Hf2. simpl in Hf2. apply lookup_insert_None in Hf2 as [Hf2 Hne].
    split; [by split_and!|]. by rewrite Hv2, Hv.
  - apply wp_modify_end. exists (<[i := []]> (view w).(disk)). rewrite close_law by (rewrite H; by eexists). rewrite H, Hv. simpl.
    rewrite delete_insert_id by done. split; [done|]. intros j [bs Hj]. apply lookup_insert_ne. congruence.
Qed.

(** Both descriptors closed. *)
Lemma close_both file fd i bs v d w : new_file file fd i v → view w = set_disk d (with_file file fd i bs v) →
  view (close_fd file (close_fd fd w)) = set_disk d v.
Proof.
  intros (_ & Hne & H1 & H2 & _) Hv. assert (view (close_fd fd w) = set_files (<[file := i]> v.(files)) (set_disk d v)) as Hv1.
  { rewrite close_law by (rewrite Hv; simpl; rewrite lookup_insert_ne, lookup_insert_eq by done; by eexists). rewrite Hv. unfold with_file, set_files, set_disk.
    simpl. f_equal. rewrite delete_insert_ne by done. by rewrite delete_insert_id. }
  rewrite close_law by (rewrite Hv1; simpl; rewrite lookup_insert_eq; by eexists). rewrite Hv1. unfold set_files, set_disk. simpl.
  by rewrite delete_insert_id.
Qed.

(** ** Copying *)
(** The same entry, but for the time it was written. *)
Definition same_entry (x y : Kept) : Prop := y = mkKept x.(x_principal) y.(x_time) x.(x_vno) x.(x_enctype) x.(x_key).

Lemma content_cursor kt a l v d b : content (set_disk d (walking kt a l v)) b = content (set_disk d v) b.
Proof. by destruct b. Qed.

(** One entry copied and freed. *)
Lemma copy_one_ok kt out bo a l x e v d w : kt.(ctx) ∈ v.(contexts) → has KKeytab out kt.(ctx) (Table bo) v →
  v.(live) !! (KEntry, e.(e_filled)) = None → view w = set_disk d (filled kt a l x e v) →
  wp (finally (code ← sys (krb5_kt_add_entry kt.(ctx) out e); check kt.(ctx) code) (RawEntry_drop kt e)) w (λ r w', ∃ d', view w' = set_disk d' (walking kt a l v) ∧
    changes (set_disk d v) bo d' ∧ (r = Ok tt → appended bo (set_disk d v) x.(x_principal) x.(x_vno) x.(x_enctype) x.(x_key) d')).
Proof.
  intros Hc Ho Hf Hv. destruct (filled_reads _ _ _ _ _ _ _ _ Hv) as (_ & Hp & _ & Hvn & Hk). pose proof Hk as [Henc _]. rewrite <- Henc in Hk.
  apply wp_finally. destruct (krb5_kt_add_entry kt.(ctx) out e w) as [code w1] eqn:E. eapply wp_bind_sys; [exact E|].
  assert (has KKeytab out kt.(ctx) (Table bo) (view w)) as Ho' by (rewrite Hv; apply has_disk; by repeat apply has_add_ne).
  destruct (added_ok _ _ _ bo _ _ _ _ _ Ho' Hp (or_intror Hk) E) as (d' & Hv1 & Hch & Happ). rewrite Hv in Hv1, Hch, Happ.
  eapply wp_mono; [apply code_checked; by rewrite Hv1|]. intros r w2 _ (Hv2 & Hr). eapply entry_drop_ok with (d := d'); [exact Hf|by rewrite Hv2, Hv1|].
  intros w3 Hv3. exists d'. split; [exact Hv3|]. split; [exact Hch|]. intros ->. destruct Hr as [Hz _]. rewrite Hvn, Henc in Happ. by apply Happ.
Qed.

Lemma copy_entries_ok kt b out bo a v fuel : table kt b v → has KKeytab out kt.(ctx) (Table bo) v → ∀ l d w,
  view w = set_disk d (walking kt a l v) → Forall (λ x, whole x.(x_principal)) l → (length l < fuel)%nat →
  wp (copy_entries fuel kt out (mkEntries a false)) w (λ r w', ∃ d' l', view w' = set_disk d' (walking kt a l' v) ∧ changes (set_disk d v) bo d' ∧
    (r = Ok tt → ∀ got, content (set_disk d v) bo = Some got → ∃ new, content (set_disk d' v) bo = Some (got ++ new) ∧ Forall2 same_entry l new)).
Proof.
  intros Ht Ho. induction fuel as [|fuel IH]; intros l d w Hv Hl Hn; [lia|]. cbn [copy_entries]. apply wp_bind.
  assert (table kt b (set_disk d v)) as Htd by exact Ht.
  eapply wp_mono; [by apply (next_raw_ok kt b a l (set_disk d v))|]. intros [[[[e|]|e|s] it]| |] w1 _ H; try done; cbv beta iota; apply wp_bind.
  - destruct H as (-> & x & l' & -> & Hf & Hv1). apply Forall_cons in Hl as [Hx Hl]. simpl in Hn. apply wp_raised; [done|]. apply wp_bind.
    eapply wp_mono; [eapply (copy_one_ok kt out bo a l' x e v d); [apply Ht|exact Ho|exact Hf|exact Hv1]|].
    intros [[]|er|s] w2 Hs (d' & Hv2 & Hch & Happ); [|by exists d', l'|by destruct (Hs s)].
    eapply wp_mono; [apply (IH l' d'); [done..|lia]|]. intros r w3 _ (d2 & l2 & Hv3 & Hch2 & Hnew). exists d2, l2. split; [done|].
    split; [by eapply changes_trans|]. intros -> got Hg. destruct (Happ eq_refl got Hg) as (t & Hg'). destruct (Hnew eq_refl _ Hg') as (new & Hn' & Hf2).
    exists (mkKept x.(x_principal) t x.(x_vno) x.(x_enctype) x.(x_key) :: new). split; [by rewrite Hn', <- app_assoc|]. by constructor.
  - destruct H as (-> & -> & Hv1). apply wp_raised; [done|]. apply wp_ret. exists d, []. split; [by rewrite Hv1|]. split; [done|].
    intros _ got Hg. exists []. split; [by rewrite app_nil_r|constructor].
  - destruct H as (-> & Hv1). apply wp_raised; [done|]. exists d, l. split; [by rewrite Hv1|]. by split.
Qed.

(** A table copied to the file that is open at [fd]. *)
Lemma copied_ok kt b fd l w : table kt b (view w) → content (view w) b = Some l → content (view w) (ByFd fd) = Some [] →
  wp (scoped (resolve_fd kt.(ctx) fd) (KeytabGuard_drop kt.(ctx)) (λ out,
        scoped (entries kt) (Entries_drop kt) (λ entries, fuel ← kt_fuel entries.(kt_cursor); copy_entries fuel kt out entries))) w
    (keeps (view w) (λ r d, changes (view w) (ByFd fd) d ∧
      (r = Ok tt → ∃ new, content (set_disk d (view w)) (ByFd fd) = Some new ∧ Forall2 same_entry l new))).
Proof.
  intros Ht Hl Hnil. apply (scoped_object KKeytab kt.(ctx) _ _ (the_table (ByFd fd))).
  - apply resolve_fd_ok; [apply Ht|]. revert Hnil. unfold content. simpl. by destruct ((view w).(files) !! fd).
  - intros h p w1 -> Hh. by eapply kt_close_law.
  - intros h p w1 _ -> Hf Hv1. assert ((KKeytab, kt.(handle)) ≠ (KKeytab, h)) as Hne by (intros [= <-]; destruct Ht as [_ Hh]; unfold has in Hh; congruence).
    assert (table kt b (view w1)) as Ht1 by (rewrite Hv1; by apply table_add).
    eapply scoped_entries; [exact Ht1| |intros e; rewrite Hv1; done]. intros a l' w2 Hfa Hv2 Hwh Hc Hle.
    assert (l' = l) as -> by (rewrite Hv1 in Hc; change (content (view w) b = Some l') in Hc; congruence).
    apply wp_kt_fuel. eapply wp_mono; [apply (copy_entries_ok kt b h (ByFd fd) a (view w1)) with (l := l) (d := (view w1).(disk))|].
    + exact Ht1.
    + rewrite Hv1. apply has_add.
    + exact Hv2.
    + exact Hwh.
    + cbn [kt_cursor]. lia.
    + intros r w3 _ (d & l2 & Hv3 & Hch & Hnew). exists d, l2. split; [exact Hv3|]. rewrite Hv1 in Hch, Hnew. split; [exact Hch|].
      intros Hok. destruct (Hnew Hok [] Hnil) as (new & Hn & Hf2). exists new. by split.
  - intros e. split; [done|]. by intros.
Qed.

Lemma scoped_memfd {A} (body : Z * Z → App A) w (Q : Outcome A Error → gmap Z bytes → Prop) :
  (∀ file fd i w1, new_file file fd i (view w) → view w1 = with_file file fd i [] (view w) →
     wp (body (file, fd)) w1 (λ r w2, ∃ d bs, view w2 = set_disk d (with_file file fd i bs (view w)) ∧ Q r d)) →
  (∀ e d, grows (view w) d → Q (Err e) d) → wp (scoped memfd (λ '(file, fd), fd_drop fd;; fd_drop file) body) w (keeps (view w) Q).
Proof.
  intros Hb He. apply wp_scoped. eapply wp_mono; [apply memfd_ok|]. intros [[file fd]|e|] w1 _ H; [| |done].
  - destruct H as (i & Hn & Hv). eapply wp_mono; [by apply Hb|]. intros r w2 _ (d & bs & Hv2 & HQ). apply wp_bind_modify, wp_modify_end.
    exists d. split; [by eapply close_both|done].
  - destruct H as (d & Hv & Hg). exists d. split; [done|]. by apply He.
Qed.

(** What a new file does not touch. *)
Lemma content_with_file file fd i bs v b l : new_file file fd i v → content v b = Some l → content (with_file file fd i bs v) b = Some l.
Proof.
  intros (_ & _ & H1 & H2 & H3) Hc. unfold content in *. destruct b as [g|j]; simpl in *.
  - destruct (v.(files) !! g) as [j|] eqn:Hg; simpl in Hc; [|done]. rewrite !lookup_insert_ne, Hg by congruence. simpl.
    destruct (decide (i = j)) as [->|Hne]; [by rewrite H3 in Hc|]. by rewrite lookup_insert_ne.
  - destruct (decide (i = j)) as [->|Hne]; [by rewrite H3 in Hc|]. by rewrite lookup_insert_ne.
Qed.
Lemma content_new_file file fd i bs v : new_file file fd i v → content (with_file file fd i bs v) (ByFd fd) = entries_of bs.
Proof.
  intros (_ & Hne & _). unfold content. simpl. rewrite lookup_insert_ne, lookup_insert_eq by done. simpl. by rewrite lookup_insert_eq.
Qed.
Lemma grows_changes file fd i bs v d : new_file file fd i v → changes (with_file file fd i bs v) (ByFd fd) d → grows v d.
Proof.
  intros (_ & Hne & _ & _ & H3) Hc j [x Hj]. rewrite (Hc j); simpl; [|rewrite lookup_insert_ne, lookup_insert_eq by done; congruence].
  apply lookup_insert_ne. congruence.
Qed.

Lemma wp_io_end {A} (f : W → Outcome A OsError * W) w Q r w' : f w = (r, w') → (∀ s, r ≠ Stop s) →
  match r with Ok a => Q (Ok a) w' | Err e => Q (Err (io_error e)) w' | Stop _ => True end → wp (io f) w Q.
Proof. intros H Hs HQ. unfold wp, io. rewrite H. destruct r as [a|e|s]; [done|done|by destruct (Hs s)]. Qed.

(** The bytes of a file that is open. *)
Lemma read_back_ok file i bs w : (view w).(files) !! file = Some i → (view w).(disk) !! i = Some bs →
  wp (n ← io (file_len file); io (read_exact_at file n)) w (λ r w', view w' = view w ∧ ∀ x, r = Ok x → x = bs).
Proof.
  intros Hf Hd. destruct (file_len file w) as [r w1] eqn:E. destruct (len_law _ _ _ _ _ _ Hf Hd E) as (Hs & Hv & Hl).
  eapply wp_io; [exact E|exact Hs|]. destruct r as [n|e|]; [|done|done]. rewrite (Hl n eq_refl). rewrite <- Hv in Hf, Hd.
  destruct (read_exact_at file (len bs) w1) as [r w2] eqn:E2. destruct (read_at_law _ _ _ _ _ _ Hf Hd E2) as (Hs2 & Hv2 & Hl2).
  eapply wp_io_end; [exact E2|exact Hs2|]. destruct r as [x|e|]; [|by rewrite Hv2|done]. split; [by rewrite Hv2|]. intros ? [= <-]. by apply Hl2.
Qed.

Lemma as_bytes_ok kt b l w : table kt b (view w) → content (view w) b = Some l →
  wp (as_bytes kt) w (keeps (view w) (λ r d, grows (view w) d ∧ ∀ bs, r = Ok bs → ∃ new, entries_of bs = Some new ∧ Forall2 same_entry l new)).
Proof.
  intros Ht Hl. apply scoped_memfd; [|by split]. intros file fd i w1 Hnf Hv1. pose proof Hnf as (Hfd & Hne & _).
  assert ((view w1).(files) !! file = Some i) as Hfi by (rewrite Hv1; apply lookup_insert_eq).
  assert ((view w1).(disk) !! i = Some []) as Hdi by (rewrite Hv1; apply lookup_insert_eq).
  destruct (write_all file EMPTY_KEYTAB w1) as [r w2] eqn:E. destruct (write_law _ _ _ _ _ _ Hfi Hdi E) as (Hs & b' & Hv2 & Hb').
  assert (view w2 = with_file file fd i b' (view w)) as Hv2'.
  { rewrite Hv2, Hv1. unfold with_file, set_files, set_disk. simpl. by rewrite insert_insert_eq. }
  assert (∀ j : Z, is_Some ((view w).(disk) !! j) → <[i := b']> (view w).(disk) !! j = (view w).(disk) !! j) as Hgr.
  { intros j [x Hj]. apply lookup_insert_ne. destruct Hnf as (_ & _ & _ & _ & H3). congruence. }
  eapply wp_io; [exact E|exact Hs|]. destruct r as [[]|e|]; [|by exists (<[i := b']> (view w).(disk)), b'|done]. rewrite (Hb' eq_refl) in *.
  apply wp_bind. eapply wp_mono; [apply (copied_ok kt b fd l); [rewrite Hv2'; exact Ht|rewrite Hv2'; by apply content_with_file|]|].
  { rewrite Hv2', content_new_file by done. apply empty_law. }
  intros r w3 Hs3 (d & Hv3 & Hch & Hnew). rewrite Hv2' in Hv3, Hch, Hnew. pose proof (grows_changes _ _ _ _ _ _ Hnf Hch) as Hg.
  destruct r as [[]|e|s]; [|by exists d, EMPTY_KEYTAB|by destruct (Hs3 s)]. destruct (Hnew eq_refl) as (new & Hc & Hf2).
  unfold content in Hc. simpl in Hc. rewrite lookup_insert_ne, lookup_insert_eq in Hc by done. simpl in Hc. destruct (d !! i) as [bs|] eqn:Hd; [|done].
  eapply wp_mono; [apply (read_back_ok file i bs); rewrite Hv3; [apply lookup_insert_eq|exact Hd]|].
  intros r w4 _ (Hv4 & Hr). exists d, EMPTY_KEYTAB. split; [by rewrite Hv4|]. split; [done|]. intros x Hx. rewrite (Hr x Hx). by exists new.
Qed.

(** ** Tables of their own context *)
(** The objects of [v] with [kt] open, in a file of its own if it has one. *)
Definition base (kt : Keytab) (i : Z) v : View :=
  with_context kt.(ctx) (match kt.(mem) with Some fd => set_files (<[fd := i]> v.(files)) v | None => v end).
Definition opens (kt : Keytab) (b : Backing) v v' : Prop :=
  new_context kt.(ctx) v ∧ v.(live) !! (KKeytab, kt.(handle)) = None ∧ (∀ fd, kt.(mem) = Some fd → v.(files) !! fd = None) ∧
  ∃ i d, v' = set_disk d (add KKeytab kt.(handle) kt.(ctx) (Table b) (base kt i v)) ∧ grows v d.

Lemma opens_table kt b v v' : opens kt b v v' → table kt b v' ∧ no_cursor kt v'.
Proof.
  intros ((_ & _ & Hc) & Hf & _ & i & d & -> & _). split; [split|].
  - unfold base. destruct kt.(mem); apply with_context_in.
  - apply has_disk, has_add.
  - intros a l H. apply (Hc KKtCursor a (Walk kt.(handle) l)). revert H. unfold has, base, add. simpl. rewrite lookup_insert_ne by done.
    by destruct kt.(mem).
Qed.

Lemma keytab_drop_ok {A} kt b v v' d w (Q : Outcome A Error → gmap Z bytes → Prop) r : opens kt b v v' → view w = set_disk d v' → Q r d →
  wp (Keytab_drop kt) w (ends_well (keeps v Q r)).
Proof.
  intros (Hn & Hf & Hm & i & d' & -> & _) Hv HQ. unfold Keytab_drop. apply wp_bind_modify, wp_bind.
  assert (view (krb5_kt_close kt.(ctx) kt.(handle) w) = set_disk d (base kt i v)) as Hv1.
  { rewrite (kt_close_law _ _ _ b) by (rewrite Hv; apply has_disk, has_add). rewrite Hv. apply del_add_disk. unfold base. by destruct kt.(mem). }
  unfold base in Hv1. destruct kt.(mem) as [fd|].
  - eapply wp_mono; [apply (context_drop_ok kt.(ctx) (set_files (<[fd := i]> v.(files)) v) d); [exact Hn|exact Hv1]|].
    intros r1 w1 _ [-> Hv2]. apply wp_modify_end. exists d. split; [|done]. rewrite close_law by (rewrite Hv2; simpl; rewrite lookup_insert_eq; by eexists).
    rewrite Hv2. unfold set_files, set_disk. simpl. rewrite delete_insert_id by (by apply Hm). by destruct v.
  - eapply wp_mono; [apply (context_drop_ok kt.(ctx) v d); [exact Hn|exact Hv1]|]. intros r1 w1 _ [-> Hv2]. apply wp_ret. split; [done|]. by exists d.
Qed.

(** What an open has given. *)
Definition opened (good : Keytab → Backing → View → Prop) v : Outcome Keytab Error → W → Prop := λ r w',
  match r with
  | Ok kt => ∃ b, opens kt b v (view w') ∧ good kt b (view w')
  | Err _ => ∃ d, view w' = set_disk d v ∧ grows v d
  | Stop _ => False
  end.

Lemma scoped_keytab {A} (make : App Keytab) good (body : Keytab → App A) w (Q : Outcome A Error → gmap Z bytes → Prop) :
  wp make w (opened good (view w)) →
  (∀ kt b w1, opens kt b (view w) (view w1) → good kt b (view w1) → wp (body kt) w1 (keeps (view w1) Q)) →
  (∀ e d, grows (view w) d → Q (Err e) d) → wp (scoped make Keytab_drop body) w (keeps (view w) Q).
Proof.
  intros Hm Hb He. apply wp_scoped. eapply wp_mono; [exact Hm|]. intros [kt|e|] w1 _ H; [| |done].
  - destruct H as (b & Ho & Hg). eapply wp_mono; [by apply (Hb kt b)|]. intros r w2 _ (d & Hv & HQ). by eapply keytab_drop_ok.
  - destruct H as (d & Hv & Hg). exists d. split; [done|]. by apply He.
Qed.

(** A handle on a context of its own: the context goes when there is none. *)
Lemma opened_on k (good : Z → Payload → Prop) {A} (make : Context → App A) (f : Context → Z → A) w (Q : Outcome A Error → W → Prop) :
  (∀ c w1, c ∈ (view w1).(contexts) → wp (make c) w1 (makes k c good (view w1) (f c))) →
  (∀ c h p w1, new_context c (view w) → h ≠ 0 → good h p → (view w).(live) !! (k, h) = None → view w1 = add k h c p (with_context c (view w)) → Q (Ok (f c h)) w1) →
  (∀ e w1, view w1 = view w → Q (Err e) w1) →
  wp (c ← Context_new; or_drop (make c) (Context_drop c)) w Q.
Proof.
  intros Hm Hok He. apply wp_bind. eapply wp_mono; [apply context_new_ok|]. intros [c|e|] w1 _ H; [|by apply He|done].
  destruct H as [Hn Hv]. apply wp_or_drop. eapply wp_mono; [apply Hm; rewrite Hv; apply with_context_in|]. intros [x|e|] w2 _ H; [| |done].
  - destruct H as (h & p & -> & Hz & Hg & Hf & Hv2). rewrite Hv in Hf, Hv2. by eapply Hok.
  - unfold makes in H. rewrite Hv in H. eapply wp_mono; [apply (context_drop_ok c (view w) (view w).(disk)); [exact Hn|rewrite H; done]|].
    intros r w3 _ [-> Hv3]. split; [done|]. apply He. by rewrite Hv3, set_disk_same.
Qed.

Lemma made_then {A} k c good f (g : Z → A) w v : v = view w → c ∈ v.(contexts) →
  wp (made c f) w (makes k c good v id) → wp (h ← made c f; mret (g h)) w (makes k c good v g).
Proof.
  intros -> Hc Hm. apply wp_bind. eapply wp_mono; [exact Hm|]. intros [h|e|] w1 _ H; [|exact H|done].
  destruct H as (h' & p & -> & H). apply wp_ret. by exists h', p.
Qed.

Lemma opens_plain c h b v : new_context c v → v.(live) !! (KKeytab, h) = None →
  opens (mkKeytab c h None) b v (add KKeytab h c (Table b) (with_context c v)).
Proof. intros Hn Hf. split; [done|]. split; [done|]. split; [done|]. by exists 0, v.(disk). Qed.


Lemma opened_plain good (make : Context → App Keytab) w : (∀ kt b v', opens kt b (view w) v' → kt.(mem) = None → good kt b v') →
  (∀ c w1, c ∈ (view w1).(contexts) → wp (make c) w1 (makes KKeytab c a_table (view w1) (λ h, mkKeytab c h None))) →
  wp (c ← Context_new; or_drop (make c) (Context_drop c)) w (opened good (view w)).
Proof.
  intros Hg Hm. eapply opened_on; [exact Hm| |].
  - intros c h p w1 Hn _ [b ->] Hf Hv. exists b. assert (opens (mkKeytab c h None) b (view w) (view w1)) as Ho by (rewrite Hv; by apply opens_plain).
    split; [done|]. by apply Hg.
  - intros e w1 Hv. exists (view w).(disk). by rewrite set_disk_same.
Qed.

Definition any_table (kt : Keytab) (b : Backing) v : Prop := True.

Lemma keytab_open_ok name w : wp (Keytab_open name) w (opened any_table (view w)).
Proof.
  apply opened_plain; [done|]. intros c w1 Hc. apply cstring_bind; [|done]. intros Hs. apply made_then; [done..|]. apply made_makes; [done|].
  intros code h w' E. destruct (resolve_law _ _ _ _ _ _ Hc Hs E) as (b & Hg & _). exists (Table b). split; [done|]. by exists b.
Qed.
Lemma keytab_default_ok w : wp Keytab_system_default w (opened any_table (view w)).
Proof. apply opened_plain; [done|]. intros c w1 Hc. apply made_then; [done..|]. by apply kt_default_ok. Qed.

(** A table in memory holds what the bytes say. *)
Definition in_memory (data : bytes) (kt : Keytab) (b : Backing) v : Prop :=
  content v b = entries_of (if decide (data = []) then EMPTY_KEYTAB else data).

(** The descriptor of a table in memory that could not be opened, and the file. *)
Lemma written_ok (ctx : Context) file fd i data w v : ctx ∈ v.(contexts) → new_file file fd i v → view w = with_file file fd i [] v →
  wp ((if decide (data = []) then io (write_all file EMPTY_KEYTAB) else io (write_all file data));; handle ← resolve_fd ctx fd; mret (mkKeytab ctx handle (Some fd))) w
    (λ r w', ∃ bs, let v1 := with_file file fd i bs v in match r with
     | Ok kt => ∃ h, kt = mkKeytab ctx h (Some fd) ∧ v.(live) !! (KKeytab, h) = None ∧ view w' = add KKeytab h ctx (Table (ByFd fd)) v1 ∧
         bs = (if decide (data = []) then EMPTY_KEYTAB else data)
     | Err _ => view w' = v1 | Stop _ => False end).
Proof.
  intros Hc Hnf Hv. pose proof Hnf as (Hfd & Hne & _).
  assert (∀ A (f : unit → App A) Q, (let d := if decide (data = []) then EMPTY_KEYTAB else data in wp (io (write_all file d) ≫= f) w Q) →
    wp ((if decide (data = []) then io (write_all file EMPTY_KEYTAB) else io (write_all file data)) ≫= f) w Q) as Hd by (intros A f Q; by destruct (decide (data = []))).
  apply Hd. clear Hd. cbv zeta. set (d := if decide (data = []) then _ else _).
  assert ((view w).(files) !! file = Some i) as Hfi by (rewrite Hv; apply lookup_insert_eq).
  assert ((view w).(disk) !! i = Some []) as Hdi by (rewrite Hv; apply lookup_insert_eq).
  destruct (write_all file d w) as [r w1] eqn:E. destruct (write_law _ _ _ _ _ _ Hfi Hdi E) as (Hs & b' & Hv1 & Hb').
  assert (view w1 = with_file file fd i b' v) as Hv1' by (rewrite Hv1, Hv; unfold with_file, set_files, set_disk; simpl; by rewrite insert_insert_eq).
  eapply wp_io; [exact E|exact Hs|]. destruct r as [[]|e|]; [|by exists b'|done]. rewrite (Hb' eq_refl) in *. apply wp_bind.
  eapply wp_mono; [apply resolve_fd_ok; rewrite Hv1'; [done|simpl; rewrite lookup_insert_ne, lookup_insert_eq by done; by eexists]|]. intros [h|e|] w2 _ H; [| |done].
  - destruct H as (h' & p & -> & Hz & -> & Hf & Hv2). apply wp_ret. exists d. rewrite Hv1' in Hf, Hv2. by exists h'.
  - exists d. unfold makes in H. by rewrite H, Hv1'.
Qed.

Lemma new_file_grows file fd i bs v : new_file file fd i v → grows v (<[i := bs]> v.(disk)).
Proof. intros (_ & _ & _ & _ & H) j [x Hj]. apply lookup_insert_ne. congruence. Qed.

(** The first descriptor closed, the one of the table is left. *)
Lemma close_first file fd i bs c h v w : new_file file fd i v → view w = add KKeytab h c (Table (ByFd fd)) (with_file file fd i bs (with_context c v)) →
  view (close_fd file w) = set_disk (<[i := bs]> v.(disk)) (add KKeytab h c (Table (ByFd fd)) (base (mkKeytab c h (Some fd)) i v)).
Proof.
  intros (_ & Hne & H1 & H2 & _) Hv. rewrite close_law by (rewrite Hv; simpl; rewrite lookup_insert_eq; by eexists). rewrite Hv.
  unfold base, add, with_file, with_context, set_files, set_disk, set_live, set_contexts. simpl. by rewrite delete_insert_id by (by rewrite lookup_insert_ne).
Qed.

Lemma from_bytes_ok data w : wp (Keytab_from_bytes data) w (opened (in_memory data) (view w)).
Proof.
  apply wp_bind. eapply wp_mono; [apply context_new_ok|]. intros [c|e|] w1 _ H; [|by exists (view w).(disk); rewrite set_disk_same|done].
  destruct H as [Hn Hv]. apply wp_or_drop, wp_bind. eapply wp_mono; [apply memfd_ok|]. intros [[file fd]|e|] w2 _ H; [| |done]; rewrite Hv in H.
  - destruct H as (i & Hnf & Hv2). apply wp_finally, wp_or_drop.
    eapply wp_mono; [eapply written_ok; [apply (with_context_in c (view w))|exact Hnf|exact Hv2]|]. intros [kt|e|] w3 _ (bs & H); [| |done].
    + destruct H as (h & -> & Hf & Hv3 & Hbs). apply wp_modify_end. pose proof (close_first file fd i bs c h (view w) w3 Hnf Hv3) as Hv4.
      exists (ByFd fd). rewrite Hv4. split.
      * split; [done|]. split; [done|]. split; [by intros ? [= <-]; destruct Hnf as (_ & _ & _ & H & _)|]. exists i, (<[i := bs]> (view w).(disk)).
        split; [done|]. by eapply new_file_grows.
      * unfold in_memory, content. simpl. rewrite lookup_insert_eq. simpl. by rewrite lookup_insert_eq, Hbs.
    + apply wp_modify_end, wp_modify_end. assert (view w3 = set_disk (<[i := bs]> (view w).(disk)) (with_file file fd i bs (with_context c (view w)))) as Hv3 by exact H.
      eapply wp_mono; [apply (context_drop_ok c (view w) (<[i := bs]> (view w).(disk))); [exact Hn|by eapply close_both]|].
      intros r w4 _ [-> Hv4]. split; [done|]. eexists. split; [exact Hv4|]. by eapply new_file_grows.
  - destruct H as (d & Hv2 & Hg). eapply wp_mono; [apply (context_drop_ok c (view w) d); [exact Hn|exact Hv2]|].
    intros r w3 _ [-> Hv3]. split; [done|]. by exists d.
Qed.
End Tables.
