(* ===== verification/Krb5Caches.v ===== *)
(** Credential caches and initial credentials under the laws. *)
From S2P Require Import Prelude XdrBase Utf8 Krb5Error Krb5 Krb5Laws Krb5Tables.
Local Open Scope Z_scope.

(** ** Credentials as values *)
(** A credential as the iterator gives it. *)
Definition cred_out (x : Cred) : Outcome Credential Error :=
  match name_out_opt x.(x_client), name_out_opt x.(x_server) with
  | Err e, _ => Err e
  | _, Err e => Err e
  | Ok c, Ok s => Ok (mkCredential c s (mkTimes (widen_timestamp x.(x_times).(t_authtime)) (widen_timestamp x.(x_times).(t_starttime))
      (widen_timestamp x.(x_times).(t_endtime)) (widen_timestamp x.(x_times).(t_renew_till)))
      (mkKeyInfo x.(x_block).1 x.(x_block).2) (negb (x.(x_skey) =? 0)) x.(x_flags)
      ((λ t, mkAddress t.1 t.2) <$> x.(x_addresses)) ((λ t, mkAuthData t.1 t.2) <$> x.(x_authdata)))
  | Stop s, _ => Stop s
  | _, Stop s => Stop s
  end.
(** Those that are tickets, not the cache's own configuration. *)
Definition tickets (l : list Cred) : list Cred := List.filter (λ x, negb x.(x_config)) l.
(** Every ticket in order, or those before an error. *)
Definition shown (l : list Cred) (got : list (Outcome Credential Error)) : Prop :=
  got = cred_out <$> tickets l ∨ ∃ n e, got = (cred_out <$> take n (tickets l)) ++ [Err e].

Lemma tickets_cons x l : tickets (x :: l) = if x.(x_config) then tickets l else x :: tickets l.
Proof. unfold tickets. cbn [List.filter]. by destruct x.(x_config). Qed.
Lemma tickets_le l : (length (tickets l) ≤ length l)%nat.
Proof. apply filter_length_le. Qed.

Section Caches.
Context {W : Type} {krb : Krb5 W} {spec : KrbSpec W} {laws : KrbLaws W}.
Implicit Types (w : W) (v : View).
Abbreviation App A := (St W KrbExit A).

Lemma counted_run ptr b w : (b ≠ [] → ptr ≠ 0 ∧ read_bytes ptr (len b) w = Some b) → counted ptr (len b) w = (Ok b, w).
Proof.
  intros H. unfold counted. destruct b as [|x b]; [by rewrite orb_true_r|]. destruct H as [Hz Hr]; [done|].
  destruct (Z.eqb_spec ptr 0); [done|]. destruct (Z.eqb_spec (len (x :: b)) 0) as [Hl|]; [unfold len in Hl; simpl in Hl; lia|].
  unfold orb, deref. by rewrite Hr.
Qed.

Lemma walk_run {U} (mk : Z → bytes → U) l : ∀ ps rest w, Forall2 (typed_reads w) ps l →
  walk (λ a, b ← counted a.(y_contents) a.(y_length); mret (mk a.(y_type) b)) (ps ++ 0 :: rest) w = (Ok ((λ t, mk t.1 t.2) <$> l), w).
Proof.
  induction l as [|t l IH]; intros ps rest w H.
  - apply Forall2_nil_inv_r in H as ->. done.
  - apply Forall2_cons_inv_r in H as (p & ps' & (Hz & y & Hy & Ht & Hl & Hc) & H & ->). cbn [app walk].
    destruct (Z.eqb_spec p 0); [done|]. unfold mbind at 1, St_bind at 1. unfold deref at 1. rewrite Hy. unfold mbind at 1, St_bind at 1.
    rewrite Hl. unfold mbind at 1, St_bind at 1. rewrite (counted_run _ _ _ Hc). cbn [mret St_ret]. unfold mbind at 1, St_bind at 1.
    rewrite (IH _ rest _ H), Ht. done.
Qed.

Lemma array_run {U} (mk : Z → bytes → U) head l w : array_reads w head l →
  array head (λ a, b ← counted a.(y_contents) a.(y_length); mret (mk a.(y_type) b)) w = (Ok ((λ t, mk t.1 t.2) <$> l), w).
Proof.
  unfold array. intros [[-> ->]|(Hz & ps & rest & Hs & H)]; [done|]. destruct (Z.eqb_spec head 0); [done|].
  unfold mbind, St_bind, deref. rewrite Hs. by apply walk_run.
Qed.

Lemma block_bytes_run b enc k w : block_reads w b enc k → block_bytes b w = (Ok k, w).
Proof. intros (_ & Hl & a & Ha & Hk). unfold block_bytes. rewrite Ha, Hl. by apply counted_run. Qed.

Lemma convert_run c f x e w : has KCreds f c (CredFilled x e) (view w) → convert e w = (map_err Fail (cred_out x), w).
Proof.
  intros H. destruct (cred_law _ _ _ _ _ H) as (_ & Hc & Hs & Hk & Ht & Hsk & Hfl & Had & Hau). unfold convert, cred_out.
  unfold mbind at 1, St_bind at 1. rewrite (name_reads_run _ _ _ Hc). destruct (name_out_opt x.(x_client)) as [cl|er|s] eqn:E1; [|done|by destruct (name_out_no_stop _ _ E1)].
  cbn [map_err]. unfold mbind at 1, St_bind at 1. rewrite (name_reads_run _ _ _ Hs).
  destruct (name_out_opt x.(x_server)) as [sv|er|s] eqn:E2; [|done|by destruct (name_out_no_stop _ _ E2)]. cbn [map_err].
  unfold mbind at 1, St_bind at 1. rewrite (block_bytes_run _ _ _ _ Hk). unfold mbind at 1, St_bind at 1. rewrite (array_run mkAddress _ _ _ Had).
  unfold mbind at 1, St_bind at 1. rewrite (array_run mkAuthData _ _ _ Hau). cbv zeta. rewrite Ht, Hsk, Hfl. by destruct Hk as [-> _].
Qed.

Lemma cred_out_no_stop x s : cred_out x ≠ Stop s.
Proof.
  unfold cred_out. pose proof (name_out_no_stop x.(x_client) s). pose proof (name_out_no_stop x.(x_server) s).
  destruct (name_out_opt x.(x_client)), (name_out_opt x.(x_server)); congruence.
Qed.

(** ** Cursors *)
(** An open cache. *)
Definition cache (cc : Ccache) v : Prop :=
  cc.(cc_ctx) ∈ v.(contexts) ∧ cc.(cc_handle) ≠ 0 ∧ has KCcache cc.(cc_handle) cc.(cc_ctx) Plain v.
Definition walking_creds (cc : Ccache) (a : Z) (l : list Cred) v : View := add KCcCursor a cc.(cc_ctx) (CredWalk l) v.
(** Where a cursor can be left. *)
Definition left_at (cc : Ccache) (a : Z) v w : Prop := ∃ l, view w = walking_creds cc a l v.

(** What a filled credential is worth, and that it is freed. *)
Lemma filled_cred_ok cc a l x e v w : cache cc v → v.(live) !! (KCreds, e.(c_filled)) = None →
  view w = add KCreds e.(c_filled) cc.(cc_ctx) (CredFilled x e) (walking_creds cc a l v) → ∀ A (f : option (Outcome Credential Error) → App A) Q,
  (∀ w', view w' = walking_creds cc a l v → wp (f (if x.(x_config) then None else Some (cred_out x))) w' Q) →
  wp (is_config ← sys (krb5_is_config_principal cc.(cc_ctx) e.(c_server));
      converted ← (if negb (is_config =? 0) then mret None else r ← caught (convert e); mret (Some r));
      modify (krb5_free_cred_contents cc.(cc_ctx) e);;
      f converted) w Q.
Proof.
  intros Hcc Hf Hv A f Q HQ. assert (has KCreds e.(c_filled) cc.(cc_ctx) (CredFilled x e) (view w)) as H by (rewrite Hv; apply has_add).
  destruct (krb5_is_config_principal cc.(cc_ctx) e.(c_server) w) as [r w1] eqn:E. eapply wp_bind_sys; [exact E|].
  destruct (config_law _ _ _ _ _ _ _ H E) as [Hv1 Hr]. rewrite <- Hv1 in H.
  assert (∀ w2, view w2 = view w1 → view (krb5_free_cred_contents cc.(cc_ctx) e w2) = walking_creds cc a l v) as Hfree.
  { intros w2 Hv2. rewrite (free_cred_law _ _ x) by (by rewrite Hv2). rewrite Hv2, Hv1, Hv. apply del_add. unfold walking_creds, add. simpl.
    by rewrite lookup_insert_ne. }
  apply wp_bind. destruct (Z.eqb_spec r 0) as [Hz|Hz]; destruct x.(x_config) eqn:Hx; cbn [negb];
    [by destruct (proj2 Hr eq_refl)| | |discriminate (proj1 Hr Hz)].
  - apply wp_bind, wp_caught. eapply run_wp; [by eapply convert_run|intros s; apply cred_out_no_stop|]. apply wp_ret, wp_bind_modify. apply HQ. by apply Hfree.
  - apply wp_ret, wp_bind_modify. apply HQ. by apply Hfree.
Qed.

Lemma credentials_next_ok cc a v fuel : cache cc v → ∀ l w, view w = walking_creds cc a l v → (length l < fuel)%nat →
  wp (credentials_next fuel cc (mkCredentials a false)) w (λ r w', match r with
  | Ok (Some i, it) =>
      (it = mkCredentials a false ∧ ∃ x l', tickets l = x :: tickets l' ∧ i = cred_out x ∧ view w' = walking_creds cc a l' v) ∨
      (it = mkCredentials a true ∧ ∃ e, i = Err e ∧ left_at cc a v w')
  | Ok (None, it) => it = mkCredentials a true ∧ tickets l = [] ∧ left_at cc a v w'
  | _ => False end).
Proof.
  intros Hcc. induction fuel as [|fuel IH]; intros l w Hv Hn; [lia|]. cbn [credentials_next cc_done cc_cursor].
  destruct (krb5_cc_next_cred cc.(cc_ctx) cc.(cc_handle) a w) as [[code e] w1] eqn:E. eapply wp_bind_sys; [exact E|]. cbv beta iota.
  assert (has KCcCursor a cc.(cc_ctx) (CredWalk l) (view w)) as Ha by (rewrite Hv; apply has_add).
  assert (has KCcache cc.(cc_handle) cc.(cc_ctx) Plain (view w)) as Hh by (rewrite Hv; apply has_add_ne; [done|apply Hcc]).
  pose proof (cc_next_law _ _ _ _ _ _ _ _ Hh Ha E) as H. destruct (Z.eqb_spec code 0) as [Hz|Hz].
  - destruct H as (x & l' & -> & Hf & Hv1). simpl in Hn. rewrite Hv in Hf, Hv1. unfold walking_creds in Hv1. rewrite add_add in Hv1.
    eapply (filled_cred_ok cc a l' x e v); [done| |exact Hv1|].
    { revert Hf. unfold walking_creds, add. simpl. by rewrite lookup_insert_ne. }
    intros w2 Hv2. rewrite tickets_cons. destruct x.(x_config).
    + apply IH; [done|lia].
    + apply wp_ret. left. split; [done|]. by exists x, l'.
  - destruct H as [Hv1 Hl]. destruct (Z.eqb_spec code ffi_KRB5_CC_END) as [He|He].
    + apply wp_ret. rewrite (Hl He). split; [done|]. split; [done|]. exists l. by rewrite Hv1.
    + apply wp_bind. eapply wp_mono; [apply error_with_ok; right; rewrite Hv1, Hv; apply Hcc|]. intros r w2 _ (Hv2 & e' & -> & _). apply wp_ret.
      right. split; [done|]. exists e'. split; [done|]. exists l. by rewrite Hv2, Hv1.
Qed.

(** A caller's loop over the iterator, to its end. *)
Fixpoint collect_creds (fuel : nat) (cc : Ccache) (it : Credentials) : App (list (Outcome Credential Error)) :=
  match fuel with
  | O => halt OutOfFuel
  | S fuel =>
      '(i, it) ← Credentials_next cc it;
      match i with
      | None => mret []
      | Some i => l ← collect_creds fuel cc it; mret (i :: l)
      end
  end.
Definition list_creds (cc : Ccache) : App (list (Outcome Credential Error)) :=
  scoped (credentials cc) (Credentials_drop cc) (λ it, w ← get; collect_creds (S (S (cc_left it.(cc_cursor) w))) cc it).

Lemma shown_cons l x l' got : tickets l = x :: tickets l' → shown l' got → shown l (cred_out x :: got).
Proof. unfold shown. intros -> [->|(n & e & ->)]; [by left|right]. by exists (S n), e. Qed.

Lemma collect_creds_ok cc a v fuel : cache cc v → ∀ l w, view w = walking_creds cc a l v → (length (tickets l) < fuel)%nat →
  wp (collect_creds (S fuel) cc (mkCredentials a false)) w (λ r w', left_at cc a v w' ∧ ∃ got, r = Ok got ∧ shown l got).
Proof.
  intros Hcc. induction fuel as [|fuel IH]; intros l w Hv Hn; [lia|]. cbn [collect_creds]. apply wp_bind.
  assert (has KCcCursor a cc.(cc_ctx) (CredWalk l) (view w)) as Ha by (rewrite Hv; apply has_add). pose proof (cc_left_law _ _ _ _ Ha) as Hl.
  unfold Credentials_next. apply wp_bind, wp_ret. eapply wp_mono; [eapply credentials_next_ok; [done|exact Hv|cbn [cc_cursor]; lia]|].
  intros [[[i|] it]| |] w1 _ H; try done; cbv beta iota.
  - destruct H as [(-> & x & l' & Ht & -> & Hv1)|(-> & e & -> & Hv1)].
    + rewrite Ht in Hn. simpl in Hn. apply wp_bind. eapply wp_mono; [apply (IH l'); [done|lia]|]. intros r w2 _ (Hv2 & got & -> & Hs).
      apply wp_ret. split; [done|]. exists (cred_out x :: got). split; [done|]. by eapply shown_cons.
    + apply wp_ret. split; [done|]. exists [Err e]. split; [done|]. right. by exists 0%nat, e.
  - destruct H as (-> & Ht & Hv1). apply wp_ret. split; [done|]. exists []. split; [done|]. left. by rewrite Ht.
Qed.

Lemma credentials_ok cc w : cache cc (view w) → wp (credentials cc) w (λ r w', match r with
  | Ok it => ∃ a, it = mkCredentials a false ∧ (view w).(live) !! (KCcCursor, a) = None ∧
      view w' = walking_creds cc a (creds_of w cc.(cc_handle)) (view w)
  | Err _ => view w' = view w | Stop _ => False end).
Proof.
  intros (Hc & Hz & Hh). unfold credentials. destruct (krb5_cc_start_seq_get cc.(cc_ctx) cc.(cc_handle) w) as [[code a] w1] eqn:E.
  pose proof (cc_start_law _ _ _ _ _ _ Hh E) as Hg. apply wp_bind. eapply wp_mono; [by eapply made_ok|]. intros [h|e|] w2 _ H; [|apply H|done].
  destruct H as (-> & -> & H1 & H2 & H3 & H4). apply wp_ret. by exists a.
Qed.

Lemma list_creds_ok cc w : cache cc (view w) → wp (list_creds cc) w (λ r w', view w' = view w ∧
  ∀ got, r = Ok got → shown (creds_of w cc.(cc_handle)) got).
Proof.
  intros Hcc. apply wp_scoped. eapply wp_mono; [by apply credentials_ok|]. intros [it|e|] w1 _ H; [|by split|done].
  destruct H as (a & -> & Hf & Hv). set (l := creds_of w cc.(cc_handle)) in *. apply wp_bind, wp_ret. pose proof (tickets_le l).
  assert (has KCcCursor a cc.(cc_ctx) (CredWalk l) (view w1)) as Ha by (rewrite Hv; apply has_add). pose proof (cc_left_law _ _ _ _ Ha) as Hl.
  eapply wp_mono; [eapply collect_creds_ok; [exact Hcc|exact Hv|cbn [cc_cursor]; lia]|].
  intros r w2 _ ([l2 Hv2] & got & -> & Hs). apply wp_modify_end. split; [|by intros ? [= <-]].
  cbn [cc_cursor]. rewrite (cc_end_law _ _ _ _ l2) by (rewrite Hv2; apply has_add). rewrite Hv2. by apply del_add.
Qed.

(** ** Caches of their own context *)
Definition opens_cc (cc : Ccache) v v' : Prop :=
  new_context cc.(cc_ctx) v ∧ cc.(cc_handle) ≠ 0 ∧ v.(live) !! (KCcache, cc.(cc_handle)) = None ∧
  v' = add KCcache cc.(cc_handle) cc.(cc_ctx) Plain (with_context cc.(cc_ctx) v).
Definition opened_cc v : Outcome Ccache Error → W → Prop := λ r w',
  match r with Ok cc => opens_cc cc v (view w') | Err _ => view w' = v | Stop _ => False end.

Lemma opens_cache cc v v' : opens_cc cc v v' → cache cc v'.
Proof. intros (_ & Hz & _ & ->). split; [apply with_context_in|]. split; [done|apply has_add]. Qed.

Lemma ccache_drop_ok {A} cc v v' d w (Q : Outcome A Error → gmap Z bytes → Prop) r : opens_cc cc v v' → view w = set_disk d v' → Q r d →
  wp (Ccache_drop cc) w (ends_well (keeps v Q r)).
Proof.
  intros (Hn & Hz & Hf & ->) Hv HQ. unfold Ccache_drop. destruct (Z.eqb_spec cc.(cc_handle) 0); [done|]. apply wp_bind_modify.
  eapply wp_mono; [apply (context_drop_ok _ v d); [exact Hn|]|].
  - rewrite cc_close_law by (rewrite Hv; apply has_disk, has_add). rewrite Hv. by apply del_add_disk.
  - intros o w1 _ [-> Hv1]. split; [done|]. by exists d.
Qed.

Lemma scoped_ccache {A} (make : App Ccache) (body : Ccache → App A) w (Q : Outcome A Error → gmap Z bytes → Prop) :
  wp make w (opened_cc (view w)) → (∀ cc w1, cache cc (view w1) → wp (body cc) w1 (keeps (view w1) Q)) →
  (∀ e, Q (Err e) (view w).(disk)) → wp (scoped make Ccache_drop body) w (keeps (view w) Q).
Proof.
  intros Hm Hb He. apply wp_scoped. eapply wp_mono; [exact Hm|]. intros [cc|e|] w1 _ H; [|by apply kept_same|done].
  eapply wp_mono; [by eapply Hb, opens_cache|]. intros r w2 _ (d & Hv & HQ). by eapply ccache_drop_ok.
Qed.

(** Destroyed, or an error: the handle is gone and the context with it. *)
Lemma destroy_ok cc v v' d w : opens_cc cc v v' → view w = set_disk d v' → wp (destroy cc) w (λ r w', view w' = set_disk d v).
Proof.
  intros (Hn & Hz & Hf & ->) Hv. unfold destroy. destruct (krb5_cc_destroy cc.(cc_ctx) cc.(cc_handle) w) as [code w1] eqn:E.
  eapply wp_bind_sys; [exact E|]. assert (view w1 = set_disk d (with_context cc.(cc_ctx) v)) as Hv1.
  { rewrite (cc_destroy_law _ _ _ _ _) with (2 := E) by (rewrite Hv; apply has_disk, has_add). rewrite Hv. by apply del_add_disk. }
  apply wp_bind, wp_caught. eapply wp_mono; [apply code_checked; rewrite Hv1; apply with_context_in|]. intros r w2 Hs [Hv2 _].
  apply wp_bind. unfold Ccache_drop. cbn [cc_ctx cc_handle Z.eqb]. apply wp_bind_ret.
  eapply wp_mono; [apply (context_drop_ok _ v d); [exact Hn|by rewrite Hv2]|]. intros o w3 _ [-> Hv3]. by apply wp_raised.
Qed.

(** A cache by its name, or the default one. *)
Lemma cc_by_name c s what w : c ∈ (view w).(contexts) →
  wp (cname ← cstring s what; made c (krb5_cc_resolve c cname)) w (makes KCcache c (λ _ p, p = Plain) (view w) id).
Proof.
  intros Hc. apply cstring_bind; [|done]. intros Hs. apply made_makes; [done|]. intros code h w' E. exists Plain. split; [|done].
  by eapply cc_resolve_law.
Qed.
Lemma cc_by_default c w : c ∈ (view w).(contexts) → wp (made c (krb5_cc_default c)) w (makes KCcache c (λ _ p, p = Plain) (view w) id).
Proof. intros Hc. apply made_makes; [done|]. intros code h w' E. exists Plain. split; [|done]. by eapply cc_default_law. Qed.

Lemma opened_ccache (make : Context → App Ccache) w :
  (∀ c w1, c ∈ (view w1).(contexts) → wp (make c) w1 (makes KCcache c (λ _ p, p = Plain) (view w1) (λ h, mkCcache c h))) →
  wp (c ← Context_new; or_drop (make c) (Context_drop c)) w (opened_cc (view w)).
Proof. intros Hm. eapply opened_on; [exact Hm| |done]. by intros c h p w1 Hn Hz -> Hf Hv. Qed.

Lemma ccache_open_ok name w : wp (Ccache_open name) w (opened_cc (view w)).
Proof.
  apply opened_ccache. intros c w1 Hc. apply cstring_bind; [|done]. intros Hs. apply made_then; [done..|]. apply made_makes; [done|].
  intros code h w' E. exists Plain. split; [|done]. by eapply cc_resolve_law.
Qed.
Lemma ccache_default_ok w : wp Ccache_system_default w (opened_cc (view w)).
Proof. apply opened_ccache. intros c w1 Hc. apply made_then; [done..|]. by apply cc_by_default. Qed.

(** ** Initial credentials *)
Lemma del_add_under k a c p k' a' c' p' v : (k, a) ≠ (k', a') → v.(live) !! (k, a) = None → del k a (add k' a' c' p' (add k a c p v)) = add k' a' c' p' v.
Proof.
  intros Hne Hf. unfold del, add, set_live. simpl. rewrite delete_insert_ne by done. by rewrite delete_insert_id.
Qed.

(** What an [acquire] does: credentials it filled, or none. *)
Definition acquired (c : Z) v : Outcome krb5_creds Error → W → Prop := λ r w',
  match r with
  | Ok e => ∃ x, v.(live) !! (KCreds, e.(c_filled)) = None ∧ view w' = add KCreds e.(c_filled) c (CredFilled x e) v
  | Err _ => view w' = v
  | Stop _ => False
  end.
Definition acquires (acquire : Context → Z → Z → App krb5_creds) : Prop := ∀ c client p o w, c ∈ (view w).(contexts) →
  has KPrincipal client c (Named p) (view w) → has KOpt o c Plain (view w) → wp (acquire c client o) w (acquired c (view w)).

Lemma acquire_into_ok c client p cc acquire w : acquires acquire → c ∈ (view w).(contexts) → has KPrincipal client c (Named p) (view w) →
  has KCcache cc c Plain (view w) → wp (acquire_into c client cc acquire) w (λ r w', view w' = view w).
Proof.
  intros Ha Hc Hp Hcc. unfold acquire_into. apply wp_bind. eapply wp_mono.
  { apply (made_makes KOpt c (λ _ q, q = Plain)); [done|]. intros code h w' E. exists Plain. split; [|done]. by eapply opt_alloc_law. }
  intros [o|e|] w1 _ H; [|exact H|done]. destruct H as (h & q & -> & Hz & -> & Hf & Hv1).
  assert (has KOpt h c Plain (view w1)) as Ho by (rewrite Hv1; apply has_add).
  assert (∀ w', view w' = view w1 → view (krb5_get_init_creds_opt_free c h w') = view w) as Hfree.
  { intros w' Hv. rewrite opt_free_law by (by rewrite Hv). rewrite Hv, Hv1. by apply del_add. }
  change (id h) with h. apply wp_finally. destruct (krb5_get_init_creds_opt_set_out_ccache c h cc w1) as [code w2] eqn:E.
  eapply wp_bind_sys; [exact E|]. assert (view w2 = view w1) as Hv2 by (eapply out_ccache_law; [exact Ho| |exact E]; rewrite Hv1; by apply has_add_ne).
  apply wp_bind. eapply wp_mono; [apply code_checked; by rewrite Hv2, Hv1|]. intros [u|e|] w3 _ [Hv3 Hr]; [| |done].
  - apply wp_bind. eapply wp_mono; [apply (Ha c client p h w3); rewrite Hv3, Hv2; [by rewrite Hv1|by rewrite Hv1; apply has_add_ne|done]|].
    intros [e|e|] w4 _ H; [| |done].
    + destruct H as (x & Hf4 & Hv4). apply wp_ret, wp_modify_end, Hfree. rewrite (free_cred_law _ _ x) by (rewrite Hv4; apply has_add).
      rewrite Hv4, Hv3, Hv2. apply del_add. by rewrite <- Hv2, <- Hv3.
    + apply wp_modify_end, Hfree. by rewrite H, Hv3, Hv2.
  - apply wp_modify_end, Hfree. by rewrite Hv3, Hv2.
Qed.

(** The code of an exchange, checked. *)
Lemma checked_creds c code e v w : c ∈ v.(contexts) →
  (if code =? 0 then ∃ x, v.(live) !! (KCreds, e.(c_filled)) = None ∧ view w = add KCreds e.(c_filled) c (CredFilled x e) v else view w = v) →
  wp (check c code;; mret e) w (acquired c v).
Proof.
  intros Hc H. apply wp_bind. eapply wp_mono; [apply code_checked; destruct (code =? 0); [by destruct H as (x & _ & ->)|by rewrite H]|].
  intros [u|er|] w1 _ [Hv Hr]; [| |done].
  - destruct Hr as [-> ->]. apply wp_ret. exact H.
  - destruct Hr as [Hne _]. destruct (Z.eqb_spec code 0); [done|]. unfold acquired. by rewrite Hv.
Qed.

Lemma with_keytab_ok keytab : acquires (with_keytab keytab).
Proof.
  intros c client p o w Hc Hp Ho. unfold with_keytab. apply wp_bind. eapply wp_mono with (P := makes KKeytab c a_table (view w) id).
  { destruct keytab as [name|]; [by apply resolve_name_ok|by apply kt_default_ok]. }
  intros [h|e|] w1 _ H; [|exact H|done]. destruct H as (h' & q & -> & Hz & [b ->] & Hf & Hv1). change (id h') with h'.
  destruct (krb5_get_init_creds_keytab c client h' o w1) as [[code e] w2] eqn:E. eapply wp_bind_sys; [exact E|]. cbv beta iota. apply wp_bind_modify.
  assert (has KPrincipal client c (Named p) (view w1)) as Hp1 by (rewrite Hv1; by apply has_add_ne).
  assert (has KKeytab h' c (Table b) (view w1)) as Hh1 by (rewrite Hv1; apply has_add).
  assert (has KOpt o c Plain (view w1)) as Ho1 by (rewrite Hv1; by apply has_add_ne).
  pose proof (init_keytab_law _ _ _ _ _ _ _ _ _ _ Hp1 Hh1 Ho1 E) as Hi. apply checked_creds; [done|]. destruct (code =? 0).
  - destruct Hi as (x & Hfx & Hv2). exists x. split; [revert Hfx; rewrite Hv1; unfold add; simpl; by rewrite lookup_insert_ne|].
    rewrite (kt_close_law _ _ _ b) by (rewrite Hv2; by apply has_add_ne). rewrite Hv2, Hv1. by apply del_add_under.
  - rewrite (kt_close_law _ _ _ b) by (by rewrite Hi). rewrite Hi, Hv1. by apply del_add.
Qed.

Lemma with_password_ok password : acquires (with_password password).
Proof.
  intros c client p o w Hc Hp Ho. unfold with_password. apply cstring_bind; [|done]. intros Hs.
  destruct (krb5_get_init_creds_password c client password o w) as [[code e] w2] eqn:E. eapply wp_bind_sys; [exact E|]. cbv beta iota.
  apply checked_creds; [done|]. by eapply init_password_law.
Qed.

(** The client and the cache, before the exchange. *)
Lemma kinit_handles_ok c principal ccache w : c ∈ (view w).(contexts) →
  wp (client ← RawPrincipal_parse c principal;
      cc ← or_drop (match ccache with
        | Some name => cname ← cstring name "ccache name"; made c (krb5_cc_resolve c cname)
        | None => made c (krb5_cc_default c)
        end) (RawPrincipal_drop c client);
      mret (client, cc)) w (λ r w', match r with
  | Ok (client, cc) => ∃ p, cc ≠ 0 ∧ (view w).(live) !! (KPrincipal, client) = None ∧ (view w).(live) !! (KCcache, cc) = None ∧
      view w' = add KCcache cc c Plain (add KPrincipal client c (Named p) (view w))
  | Err _ => view w' = view w | Stop _ => False end).
Proof.
  intros Hc. apply wp_bind. eapply wp_mono; [by apply parse_ok|]. intros [client|e|] w1 _ H; [|exact H|done].
  destruct H as (_ & p & Ha & Hf & Hv1 & _). apply wp_bind, wp_or_drop.
  eapply wp_mono with (P := makes KCcache c (λ _ q, q = Plain) (view w1) id).
  { destruct ccache as [name|]; [apply cc_by_name|apply cc_by_default]; by rewrite Hv1. }
  intros [cc|e|] w2 _ H; [| |done].
  - destruct H as (h & q & -> & Hz & -> & Hfc & Hv2). apply wp_ret. exists p. rewrite Hv1 in Hfc, Hv2. unfold add in Hfc. simpl in Hfc.
    rewrite lookup_insert_ne in Hfc by done. by split_and!.
  - apply wp_modify_end. unfold makes in H. rewrite (free_principal_law _ _ _ p) by (rewrite H, Hv1; apply has_add). rewrite H, Hv1. by apply del_add.
Qed.

Lemma kinit_ok principal ccache acquire w : acquires acquire → wp (kinit principal ccache acquire) w (opened_cc (view w)).
Proof.
  intros Ha. unfold kinit. apply wp_bind. eapply wp_mono; [apply context_new_ok|]. intros [c|e|] w1 _ H; [|exact H|done].
  destruct H as [Hn Hv]. apply wp_bind, wp_or_drop. eapply wp_mono; [apply (kinit_handles_ok c principal ccache); rewrite Hv; apply with_context_in|].
  intros [[client cc]|e|] w2 _ H; [| |done].
  - destruct H as (p & Hz & Hfp & Hfc & Hv2). rewrite Hv in Hfp, Hfc, Hv2. cbv beta iota zeta. apply wp_bind, wp_caught.
    eapply wp_mono; [apply (acquire_into_ok c client p); [exact Ha| | |]; rewrite Hv2; [apply with_context_in|by apply has_add_ne, has_add|apply has_add]|].
    intros r w3 Hs Hv3. apply wp_bind_modify. assert (view (krb5_free_principal c client w3) = add KCcache cc c Plain (with_context c (view w))) as Hv4.
    { rewrite (free_principal_law _ _ _ p) by (rewrite Hv3, Hv2; by apply has_add_ne, has_add). rewrite Hv3, Hv2. by apply del_add_under. }
    assert (opens_cc (mkCcache c cc) (view w) (view (krb5_free_principal c client w3))) as Ho by (by split_and!).
    apply wp_or_drop. destruct r as [u|e|s]; [by apply wp_bind_ret, wp_ret| |by destruct (Hs s)].
    apply wp_bind, wp_raised; [done|]. eapply wp_mono; [apply (ccache_drop_ok (A := unit) _ _ _ (view w).(disk) _ (λ _ d, d = (view w).(disk)) (Ok tt) Ho); [by rewrite Hv4|done]|].
    intros o w4 _ [-> (d & Hv5 & ->)]. split; [done|]. unfold opened_cc. by rewrite Hv5, set_disk_same.
  - eapply wp_mono; [apply (context_drop_ok c (view w) (view w).(disk)); [exact Hn|by rewrite H, Hv]|].
    intros o w3 _ [-> Hv3]. split; [done|]. unfold opened_cc. by rewrite Hv3, set_disk_same.
Qed.

Lemma kinit_keytab_ok principal keytab ccache w : wp (kinit_keytab principal keytab ccache) w (opened_cc (view w)).
Proof. apply kinit_ok, with_keytab_ok. Qed.
Lemma kinit_password_ok principal password ccache w : wp (kinit_password principal password ccache) w (opened_cc (view w)).
Proof. apply kinit_ok, with_password_ok. Qed.
End Caches.
