(* ===== verification/Krb5Theorems.v ===== *)
(** The theorems of [truenas_krb5]: its vocabularies, names, key tables as lists
    of entries, and that every handle is released once, on its own context; and a
    model of libkrb5. *)
From stdpp Require Import pretty.
From S2P Require Import Prelude XdrBase Utf8 Krb5Error Krb5 Krb5Laws Krb5Tables Krb5Caches.
Local Open Scope Z_scope.

(** ** The vocabularies *)

(** Every code, encryption type and principal type is read back from its own
    number and no other, each is listed once, and names tell them apart; the
    codes the iterators end with are two of the table, which lies in the 256
    numbers of its block. *)
Theorem krb_codes : vocabulary ErrCode_raw ErrCode_from_raw ErrCode_name ErrCode_ALL ∧
  vocabulary EncType_raw EncType_from_raw EncType_name EncType_ALL ∧
  vocabulary PrincipalType_raw PrincipalType_from_raw PrincipalType_name PrincipalType_ALL ∧
  length ErrCode_ALL = 208%nat ∧ (∀ c, -1765328384 ≤ ErrCode_raw c ≤ -1765328129) ∧
  ErrCode_from_raw ffi_KRB5_KT_END = Some KRB5_KT_END ∧ ErrCode_from_raw ffi_KRB5_CC_END = Some KRB5_CC_END ∧
  (∀ raw, unsigned 32 (widen_timestamp raw) ∧ (signed 32 raw → swrap 32 (widen_timestamp raw) = raw)).
Proof.
  split; [exact ErrCode_vocabulary|]. split; [exact EncType_vocabulary|]. split; [exact PrincipalType_vocabulary|].
  split; [done|]. split; [intros []; vm_compute; split; discriminate|]. split; [done|]. split; [done|].
  intros raw. split; [by apply wrap_range|]. intros H. by apply swrap_wrap.
Qed.

(** ** Names *)
Section Theorems.
Context {W : Type} {krb : Krb5 W} {spec : KrbSpec W} {laws : KrbLaws W}.
Implicit Types (w : W) (v : View).


Lemma texts_valid l : Forall (λ d, utf8_valid d = true) l → texts l = Ok l.
Proof. induction 1 as [|d l Hd _ IH]; [done|]. simpl. by rewrite Hd, IH. Qed.







(** ** Key tables *)


Lemma entries_not_empty bs l : entries_of bs = Some l → (if decide (bs = []) then EMPTY_KEYTAB else bs) = bs.
Proof. intros H. destruct (decide (bs = [])) as [->|]; [|done]. by rewrite no_version_law in H. Qed.

(** C39: A table written to bytes and opened from them lists the entries it had,
    but for the times of writing, and goes with its context, its handle and its
    anonymous file when it is dropped. *)
Theorem krb_bytes kt b l w (Ht : table kt b (view w)) (Hl : content (view w) b = Some l) :
  wp (bs ← as_bytes kt; scoped (Keytab_from_bytes bs) Keytab_drop list_entries) w
    (keeps (view w) (λ r d, ∀ got, r = Ok got → ∃ new, Forall2 same_entry l new ∧ listed new got)).
Proof.
  apply wp_bind. eapply wp_mono; [by apply (as_bytes_ok kt b l)|]. intros [bs|e|s] w1 Hs (d & Hv & _ & H); [|by exists d|by destruct (Hs s)].
  destruct (H bs eq_refl) as (new & Hnew & Hf). eapply wp_mono.
  - apply scoped_keytab with (good := in_memory bs) (Q := λ r (_ : gmap Z bytes), ∀ got, r = Ok got → listed new got); [apply from_bytes_ok| |done].
    intros kt' b' w2 Ho Hg. destruct (opens_table _ _ _ _ Ho) as [Ht' _]. eapply wp_mono; [by apply (list_entries_ok kt' b')|].
    intros r w3 _ (d' & Hv3 & _ & Hgot). exists d'. split; [done|]. intros got Er. destruct (Hgot got Er) as (l' & Hl' & Hli).
    unfold in_memory in Hg. rewrite (entries_not_empty _ _ Hnew), Hnew in Hg. by simplify_eq.
  - intros r w2 _ (d' & Hv2 & Hgot). exists d'. rewrite Hv2, Hv. split; [done|]. intros got Er. exists new. split; [done|]. by apply Hgot.
Qed.

(** ** Handles *)
(** C40: Every way to open a key table or a cache, to fill a cache with a keytab
    or a password, and to give them up by a drop or [destroy], leaves the
    objects as they were: contexts, handles and anonymous files are released
    once, on the context they belong to, after whatever is done with them in
    between, and when an open fails. *)
Theorem krb_handles {A} (body : Keytab → St W KrbExit A) (body_cc : Ccache → St W KrbExit A) w
  (Hb : ∀ kt b w', table kt b (view w') → wp (body kt) w' (keeps (view w') (λ _ _, True)))
  (Hcc : ∀ cc w', cache cc (view w') → wp (body_cc cc) w' (keeps (view w') (λ _ _, True))) :
  (∀ make name data, make ∈ [Keytab_open name; Keytab_system_default; Keytab_from_bytes data] →
     wp (scoped make Keytab_drop body) w (keeps (view w) (λ _ _, True))) ∧
  (∀ make name principal keytab password ccache,
     make ∈ [Ccache_open name; Ccache_system_default; kinit_keytab principal keytab ccache; kinit_password principal password ccache] →
     wp (scoped make Ccache_drop body_cc) w (keeps (view w) (λ _ _, True)) ∧ wp (make ≫= destroy) w (λ _ w', view w' = view w)).
Proof.
  split.
  - intros make name data Hm. assert (∃ good, wp make w (opened good (view w))) as [good Hg].
    { apply elem_of_cons in Hm as [->|[->|[->|[]%elem_of_nil]%elem_of_cons]%elem_of_cons]; eexists; [apply keytab_open_ok|apply keytab_default_ok|apply from_bytes_ok]. }
    eapply scoped_keytab; [exact Hg| |done]. intros kt b w1 Ho _. apply (Hb kt b). by apply (opens_table _ _ _ _ Ho).
  - intros make name principal keytab password ccache Hm. assert (wp make w (opened_cc (view w))) as Hg.
    { apply elem_of_cons in Hm as [->|[->|[->|[->|[]%elem_of_nil]%elem_of_cons]%elem_of_cons]%elem_of_cons];
        [apply ccache_open_ok|apply ccache_default_ok|apply kinit_keytab_ok|apply kinit_password_ok]. }
    split; [by apply scoped_ccache|]. apply wp_bind. eapply wp_mono; [exact Hg|]. intros [cc|e|] w1 _ H; [|exact H|done].
    eapply wp_mono; [apply (destroy_ok cc (view w) (view w1) (view w1).(disk)); [exact H|by rewrite set_disk_same]|].
    intros r w2 _ Hv. destruct H as (_ & _ & _ & H). rewrite H in Hv. rewrite Hv. exact (set_disk_same (view w)).
Qed.

(** Iterating over an open cache gives its tickets in order, each read out
    whole or with the error its name gave, its configuration entries skipped, up to an
    error of the library; the cursor and every credential it filled are released. *)
Theorem krb_ccache cc w (Hcc : cache cc (view w)) :
  wp (list_creds cc) w (λ r w', view w' = view w ∧ ∀ got, r = Ok got → shown (creds_of w cc.(cc_handle)) got).
Proof. by apply list_creds_ok. Qed.
End Theorems.
(** ** A model of libkrb5

    Objects by address, each of a kind and on a context; an address is above
    every number in use.  A table's file holds its entries after the version, in
    one number.  What lies inside of an object has an address below zero. *)
Inductive Obj : Type :=
| OPlain | OText (t : bytes) | ONamed (p : krb5_principal_data) | OTable (b : Backing) | OWalk (h : Z) (l : list Kept)
| OEntry (x : Kept) | OCredWalk (l : list Cred) | OCred (x : Cred).
Record Slot : Type := mkSlot { s_kind : Kind; s_ctx : Z; s_obj : Obj }.
Record KWorld : Type := mkKWorld {
  k_ctx : gset Z; k_objs : gmap Z Slot; k_files : gmap Z Z; k_disk : gmap Z bytes; k_realm : bytes; k_held : list Cred
}.
Definition set_objs (m : gmap Z Slot) (w : KWorld) : KWorld := mkKWorld w.(k_ctx) m w.(k_files) w.(k_disk) w.(k_realm) w.(k_held).
Definition set_kctx (s : gset Z) (w : KWorld) : KWorld := mkKWorld s w.(k_objs) w.(k_files) w.(k_disk) w.(k_realm) w.(k_held).
Definition set_kfiles (m : gmap Z Z) (w : KWorld) : KWorld := mkKWorld w.(k_ctx) w.(k_objs) m w.(k_disk) w.(k_realm) w.(k_held).
Definition set_kdisk (m : gmap Z bytes) (w : KWorld) : KWorld := mkKWorld w.(k_ctx) w.(k_objs) w.(k_files) m w.(k_realm) w.(k_held).

(** The lengths are those of the data. *)
Definition fit_name (p : krb5_principal_data) : krb5_principal_data := mkPrincipal p.(p_realm) p.(p_data) (len p.(p_data)) p.(p_type).
Definition fit_kept (x : Kept) : Kept := mkKept (fit_name x.(x_principal)) x.(x_time) x.(x_vno) x.(x_enctype) x.(x_key).
Definition fit_cred (x : Cred) : Cred := mkCred (fit_name <$> x.(x_client)) (fit_name <$> x.(x_server)) x.(x_times) x.(x_block) x.(x_skey) x.(x_flags)
  x.(x_addresses) x.(x_authdata) (bool_decide (is_Some x.(x_server)) && x.(x_config)).

(** Addresses inside of an object. *)
Definition sub (a : Z) (tag k : nat) : Z := Z.neg (encode (a, (tag, k))).
Definition unsub (z : Z) : option (Z * (nat * nat)) := match z with Z.neg p => decode p | _ => None end.
Lemma unsub_sub a tag k : unsub (sub a tag k) = Some (a, (tag, k)).
Proof. apply decode_encode. Qed.
Lemma sub_neg a tag k : sub a tag k < 0.
Proof. done. Qed.
Definition entry_at (f : Z) (x : Kept) : krb5_keytab_entry :=
  mkEntry f f x.(x_time) x.(x_vno) (mkBlock x.(x_enctype) (len x.(x_key)) (Lib f)).
Definition present {A} (o : option A) (a : Z) : Z := match o with Some _ => a | None => 0 end.
Definition head_of {A} (l : list A) (a : Z) : Z := match l with [] => 0 | _ => a end.
Definition creds_at (f : Z) (x : Cred) : krb5_creds :=
  mkCreds f (present x.(x_client) (sub f 0 0)) (present x.(x_server) (sub f 1 0)) (mkBlock x.(x_block).1 (len x.(x_block).2) (Lib f)) x.(x_times)
    x.(x_skey) x.(x_flags) (head_of x.(x_addresses) (sub f 2 0)) (head_of x.(x_authdata) (sub f 3 0)).
Definition payload (a : Z) (o : Obj) : Payload :=
  match o with
  | OPlain => Plain | OText t => Text t | ONamed p => Named (fit_name p) | OTable b => Table b | OWalk h l => Walk h (fit_kept <$> l)
  | OEntry x => Filled (fit_kept x) (entry_at a (fit_kept x)) | OCredWalk l => CredWalk (fit_cred <$> l)
  | OCred x => CredFilled (fit_cred x) (creds_at a (fit_cred x))
  end.

(** The objects, as the view has them. *)
Definition shown_at (a : Z) (s : Slot) : (Kind * Z) * (Z * Payload) := ((s.(s_kind), a), (s.(s_ctx), payload a s.(s_obj))).
Definition live_of (m : gmap Z Slot) : gmap (Kind * Z) (Z * Payload) :=
  list_to_map ((λ '(a, s), shown_at a s) <$> filter (λ '(a, _), 0 < a) (map_to_list m)).
Definition kview (w : KWorld) : View := mkView w.(k_ctx) (live_of w.(k_objs)) w.(k_files) w.(k_disk).

Lemma live_of_lookup m k a c p : live_of m !! (k, a) = Some (c, p) ↔ 0 < a ∧ ∃ o, m !! a = Some (mkSlot k c o) ∧ p = payload a o.
Proof.
  unfold live_of. rewrite <- elem_of_list_to_map.
  - rewrite list_elem_of_fmap. split.
    + intros ([a' [k' c' o]] & [= -> -> -> ->] & H). apply list_elem_of_filter in H as [Ha H]. apply elem_of_map_to_list in H. split; [done|]. by exists o.
    + intros (Ha & o & Hm & ->). exists (a, mkSlot k c o). split; [done|]. apply list_elem_of_filter. split; [done|]. by apply elem_of_map_to_list.
  - rewrite <- list_fmap_compose. apply NoDup_fmap_2_strong.
    + intros [a1 s1] [a2 s2] H1 H2 [= Hk ->]. apply list_elem_of_filter in H1 as [_ H1], H2 as [_ H2].
      apply elem_of_map_to_list in H1, H2. congruence.
    + apply NoDup_filter, NoDup_map_to_list.
Qed.

Lemma live_of_insert m k a c o : 0 < a → (∀ s, m !! a = Some s → s.(s_kind) = k) →
  live_of (<[a := mkSlot k c o]> m) = <[(k, a) := (c, payload a o)]> (live_of m).
Proof.
  intros Ha Hk. apply map_eq. intros [k' a']. apply option_eq. intros [c' p']. rewrite live_of_lookup.
  destruct (decide ((k, a) = (k', a'))) as [[= <- <-]|Hne].
  - rewrite !lookup_insert_eq. split; [intros (_ & o' & [= -> ->] & ->); done|intros [= <- <-]; split; [done|by exists o]].
  - rewrite (lookup_insert_ne (live_of m)) by done. rewrite live_of_lookup. destruct (decide (a = a')) as [<-|Ha'].
    + rewrite lookup_insert_eq. split; intros (_ & o' & H & ->); [congruence|]. apply Hk in H. simpl in H. congruence.
    + by rewrite lookup_insert_ne.
Qed.

Lemma live_of_delete m k a s : 0 < a → m !! a = Some s → s.(s_kind) = k → live_of (delete a m) = delete (k, a) (live_of m).
Proof.
  intros Ha Hm Hk. apply map_eq. intros [k' a']. apply option_eq. intros [c' p']. rewrite live_of_lookup.
  destruct (decide ((k, a) = (k', a'))) as [[= <- <-]|Hne].
  - rewrite !lookup_delete_eq. split; [intros (_ & o & H & _); done|done].
  - rewrite (lookup_delete_ne (live_of m)) by done. rewrite live_of_lookup. destruct (decide (a = a')) as [<-|Ha'].
    + rewrite lookup_delete_eq. split; intros (_ & o' & H & ->); [done|]. rewrite Hm in H. injection H as ->. simpl in Hk. congruence.
    + by rewrite lookup_delete_ne.
Qed.

(** A number above all in use. *)
Definition used (w : KWorld) : list Z :=
  elements w.(k_ctx) ++ (map_to_list w.(k_objs)).*1 ++ ((λ '(_, s), s.(s_ctx)) <$> map_to_list w.(k_objs)) ++ (map_to_list w.(k_files)).*1 ++ (map_to_list w.(k_disk)).*1.
Definition above (w : KWorld) : Z := 1 + foldr Z.max 0 (used w).

Lemma above_bound l z : z ∈ l → z < 1 + foldr Z.max 0 l.
Proof. induction l as [|x l IH]; [by intros ?%elem_of_nil|]. intros [->|H]%elem_of_cons; simpl; [lia|]. specialize (IH H). lia. Qed.
Lemma above_pos w : 0 < above w.
Proof. unfold above. induction (used w); simpl; lia. Qed.
Lemma above_fresh w : above w ∉ used w.
Proof. intros H. apply above_bound in H. unfold above in H. lia. Qed.
Lemma key_not_used {A} (m : gmap Z A) w a : (∀ x, m !! a = Some x → a ∈ used w) → a ∉ used w → m !! a = None.
Proof. intros H Hn. destruct (m !! a) as [x|] eqn:E; [|done]. destruct Hn. by apply (H x). Qed.
Lemma fst_in {A} (m : gmap Z A) a x : m !! a = Some x → a ∈ (map_to_list m).*1.
Proof. intros H. apply list_elem_of_fmap. exists (a, x). split; [done|]. by apply elem_of_map_to_list. Qed.

Lemma above_ctx w : above w ∉ w.(k_ctx).
Proof. intros H. apply (above_fresh w). unfold used. rewrite elem_of_app, elem_of_elements. by left. Qed.
Lemma above_objs w : w.(k_objs) !! above w = None.
Proof. apply (key_not_used _ w); [|apply above_fresh]. intros x H. unfold used. rewrite !elem_of_app. right. left. by eapply fst_in. Qed.
Lemma above_files w : w.(k_files) !! above w = None.
Proof. apply (key_not_used _ w); [|apply above_fresh]. intros x H. unfold used. rewrite !elem_of_app. do 3 right. left. by eapply fst_in. Qed.
Lemma above_disk w : w.(k_disk) !! above w = None.
Proof. apply (key_not_used _ w); [|apply above_fresh]. intros x H. unfold used. rewrite !elem_of_app. do 4 right. by eapply fst_in. Qed.
Lemma above_owner w a k o : w.(k_objs) !! a ≠ Some (mkSlot k (above w) o).
Proof.
  intros H. apply (above_fresh w). unfold used. rewrite !elem_of_app. do 2 right. left. apply list_elem_of_fmap. exists (a, mkSlot k (above w) o).
  split; [done|]. by apply elem_of_map_to_list.
Qed.
Lemma above_live w k : (kview w).(live) !! (k, above w) = None.
Proof.
  apply eq_None_not_Some. intros [[c p] H]. apply live_of_lookup in H as (_ & o & H & _). by rewrite above_objs in H.
Qed.

(** A new object, an object that changes, one that goes. *)
Definition make (k : Kind) (c : Z) (o : Obj) (w : KWorld) : Z * KWorld := (above w, set_objs (<[above w := mkSlot k c o]> w.(k_objs)) w).
Definition put (k : Kind) (a c : Z) (o : Obj) (w : KWorld) : KWorld := set_objs (<[a := mkSlot k c o]> w.(k_objs)) w.
Definition gone (a : Z) (w : KWorld) : KWorld := set_objs (delete a w.(k_objs)) w.

Lemma make_view k c o w a w' : make k c o w = (a, w') → 0 < a ∧ (kview w).(live) !! (k, a) = None ∧ kview w' = add k a c (payload a o) (kview w).
Proof.
  intros [= <- <-]. split; [apply above_pos|]. split; [apply above_live|]. unfold kview, add, set_live, set_objs. simpl. f_equal.
  apply live_of_insert; [apply above_pos|]. intros s. by rewrite above_objs.
Qed.
Lemma has_slot k a c p w : has k a c p (kview w) → 0 < a ∧ ∃ o, w.(k_objs) !! a = Some (mkSlot k c o) ∧ p = payload a o.
Proof. apply live_of_lookup. Qed.
Lemma put_view k a c p o w : has k a c p (kview w) → kview (put k a c o w) = add k a c (payload a o) (kview w).
Proof.
  intros (Ha & o' & Hm & _)%has_slot. unfold kview, add, set_live, put, set_objs. simpl. f_equal. apply live_of_insert; [done|].
  intros s. rewrite Hm. by intros [= <-].
Qed.
Lemma gone_view k a c p w : has k a c p (kview w) → kview (gone a w) = del k a (kview w).
Proof.
  intros (Ha & o' & Hm & _)%has_slot. unfold kview, del, set_live, gone, set_objs. simpl. f_equal. by eapply live_of_delete.
Qed.

(** Files of entries. *)
Definition principal_tuple (p : krb5_principal_data) : bytes * list bytes * Z * Z := (p.(p_realm), p.(p_data), p.(p_length), p.(p_type)).
#[global] Instance krb5_principal_data_countable : Countable krb5_principal_data.
Proof. apply (inj_countable' principal_tuple (λ t, mkPrincipal t.1.1.1 t.1.1.2 t.1.2 t.2)). by intros []. Defined.
#[global] Instance Kept_eq_dec : EqDecision Kept.
Proof. solve_decision. Defined.
Definition kept_tuple (x : Kept) : krb5_principal_data * Z * Z * Z * bytes := (x.(x_principal), x.(x_time), x.(x_vno), x.(x_enctype), x.(x_key)).
#[global] Instance Kept_countable : Countable Kept.
Proof. apply (inj_countable' kept_tuple (λ t, mkKept t.1.1.1.1 t.1.1.1.2 t.1.1.2 t.1.2 t.2)). by intros []. Defined.
Fixpoint bits (p : positive) : bytes := match p with xH => [] | xO p => x00 :: bits p | xI p => x01 :: bits p end.
Fixpoint of_bits (l : bytes) : positive := match l with [] => xH | b :: l => if decide (b = x00) then xO (of_bits l) else xI (of_bits l) end.
Lemma of_bits_bits p : of_bits (bits p) = p.
Proof. induction p as [p IH|p IH|]; simpl; [by rewrite IH|by rewrite IH|done]. Qed.
Definition file_of (l : list Kept) : bytes := EMPTY_KEYTAB ++ bits (encode l).
Definition read_file (bs : bytes) : option (list Kept) :=
  if decide (take 2 bs = EMPTY_KEYTAB) then (λ l : list Kept, fit_kept <$> l) <$> decode (of_bits (drop 2 bs)) else None.
Lemma read_file_of l : read_file (file_of l) = Some (fit_kept <$> l).
Proof.
  unfold read_file, file_of. rewrite decide_True by done. change (drop 2 (EMPTY_KEYTAB ++ bits (encode l))) with (bits (encode l)).
  by rewrite of_bits_bits, decode_encode.
Qed.

(** What lies at an address. *)
Definition obj_at (w : KWorld) (a : Z) : option Obj := if decide (0 < a) then s_obj <$> w.(k_objs) !! a else None.
Definition cred_at (w : KWorld) (a : Z) : option Cred := match obj_at w a with Some (OCred x) => Some (fit_cred x) | _ => None end.
Definition name_at (w : KWorld) (a : Z) : option krb5_principal_data :=
  match obj_at w a with
  | Some (ONamed p) => Some (fit_name p)
  | Some (OEntry x) => Some (fit_name x.(x_principal))
  | _ => '(f, (tag, _)) ← unsub a; x ← cred_at w f; if (tag =? 0)%nat then x.(x_client) else x.(x_server)
  end.
Definition typed_at (w : KWorld) (a : Z) : option (Z * bytes) :=
  '(f, (tag, k)) ← unsub a; x ← cred_at w f; (if (tag =? 4)%nat then x.(x_addresses) else x.(x_authdata)) !! k.
Definition bytes_at (w : KWorld) (a : Z) : option bytes :=
  match obj_at w a with
  | Some (OText t) => Some t
  | Some (OEntry x) => Some x.(x_key)
  | Some (OCred x) => Some x.(x_block).2
  | _ => '(s, _) ← unsub a; snd <$> typed_at w s
  end.
Definition slots_at (w : KWorld) (a : Z) : option (list Z) :=
  '(f, (tag, _)) ← unsub a; x ← cred_at w f;
  Some ((sub f (tag + 2) <$> seq 0 (length (if (tag =? 2)%nat then x.(x_addresses) else x.(x_authdata)))) ++ [0]).
Definition file_at (w : KWorld) (h : Z) : option (Z * list Kept) :=
  match obj_at w h with
  | Some (OTable b) => i ← inode (kview w) b; bs ← w.(k_disk) !! i; l ← read_file bs; Some (i, l)
  | _ => None
  end.
Definition salt_text (p : krb5_principal_data) : bytes := p.(p_realm) ++ concat p.(p_data).
Definition derived (enc : Z) (pw salt : bytes) : bytes := pw ++ salt.
Definition key_at (w : KWorld) (b : krb5_keyblock) : option bytes :=
  match b.(b_contents) with Own k => Some k | Lib a => if b.(b_length) =? 0 then Some [] else take (Z.to_nat b.(b_length)) <$> bytes_at w a end.
Definition FAILED : Z := 22.

Definition spelled (p : krb5_principal_data) : bytes := spell (mkName p.(p_realm) p.(p_data) p.(p_type)).
Definition speakable (p : krb5_principal_data) : bool :=
  bool_decide ((x00 ∉ spelled p) ∧ utf8_valid (spelled p) = true ∧ name_of [] [] (spelled p) = Some (p.(p_data), Some p.(p_realm))).
Definition named (w : KWorld) (s : bytes) : option krb5_principal_data :=
  '(cs, r) ← name_of [] [] s; Some (mkPrincipal (default w.(k_realm) r) cs (len cs) 1).
Definition backing_of (w : KWorld) (s : bytes) : Backing :=
  match list_find (λ fd, s = fd_name fd) (map_to_list w.(k_files)).*1 with Some (_, fd) => ByFd fd | None => InFile 0 end.
Definition krbtgt (r : bytes) : krb5_principal_data := mkPrincipal r [lit "krbtgt"; r] 2 2.
Definition granted (w : KWorld) (client : Z) : Cred :=
  mkCred (name_at w client) (Some (krbtgt w.(k_realm))) (mkTicketTimes 1 1 3601 0) (18, lit "session") 0 0 [(2, lit "addr")] [] false.
(** A call that makes an object, or fails. *)
Definition makes_or_fails (k : Kind) (c : Z) (o : option Obj) (w : KWorld) : Z * Z * KWorld :=
  match o with Some o => let '(a, w) := make k c o w in (0, a, w) | None => (FAILED, 0, w) end.
Definition fills (k : Kind) {E} (c : Z) (o : Obj) (e : Z → E) (w : KWorld) : Z * E * KWorld := let '(a, w) := make k c o w in (0, e a, w).
Definition rewrite_file (h : Z) (f : list Kept → option (list Kept)) (w : KWorld) : Z * KWorld :=
  match '(i, l) ← file_at w h; l ← f l; Some (i, l) with
  | Some (i, l) => (0, set_kdisk (<[i := file_of l]> w.(k_disk)) w)
  | None => (FAILED, w)
  end.

#[global] Instance krb_model : Krb5 KWorld := {|
  krb5_init_context w := (0, above w, set_kctx (w.(k_ctx) ∪ {[above w]}) w);
  krb5_free_context c w := set_kctx (w.(k_ctx) ∖ {[c]}) w;
  krb5_get_error_message c code w := make KMessage c (OText (lit "error " ++ display_int code)) w;
  krb5_free_error_message c a w := gone a w;
  read_cstr a w := bytes_at w a;
  read_bytes a n w := take (Z.to_nat n) <$> bytes_at w a;
  krb5_parse_name c s w := makes_or_fails KPrincipal c (ONamed <$> named w s) w;
  krb5_unparse_name c a w :=
    makes_or_fails KText c (p ← name_at w a; if speakable p then Some (OText (spelled p)) else None) w;
  krb5_free_unparsed_name c a w := gone a w;
  krb5_free_principal c a w := gone a w;
  read_principal_at a w := name_at w a;
  write_type a t w := match w.(k_objs) !! a with
    | Some (mkSlot k c (ONamed p)) => put k a c (ONamed (mkPrincipal p.(p_realm) p.(p_data) p.(p_length) t)) w | _ => w end;
  krb5_principal_compare c a b w := (match name_at w a, name_at w b with Some p, Some q => if same_name p q then 1 else 0 | _, _ => 0 end, w);
  krb5_is_config_principal c a w := (match '(f, _) ← unsub a; cred_at w f with Some x => if x.(x_config) then 1 else 0 | None => 0 end, w);
  krb5_kt_resolve c s w := makes_or_fails KKeytab c (Some (OTable (backing_of w s))) w;
  krb5_kt_default c w := makes_or_fails KKeytab c (Some (OTable (InFile 0))) w;
  krb5_kt_get_name c h n w := (0, lit "FILE:/etc/krb5.keytab", w);
  krb5_kt_get_type c h w := lit "FILE";
  krb5_kt_close c h w := gone h w;
  krb5_kt_start_seq_get c h w := makes_or_fails KKtCursor c (OWalk h <$> (snd <$> file_at w h)) w;
  krb5_kt_next_entry c h a w := match obj_at w a with
    | Some (OWalk h (x :: l)) => fills KEntry c (OEntry x) (λ f, entry_at f (fit_kept x)) (put KKtCursor a c (OWalk h l) w)
    | _ => (ffi_KRB5_KT_END, mkEntry 0 0 0 0 (mkBlock 0 0 (Lib 0)), w) end;
  krb5_kt_end_seq_get c h a w := gone a w;
  krb5_free_keytab_entry_contents c e w := gone e.(e_filled) w;
  krb5_kt_add_entry c h e w := rewrite_file h (λ l, p ← name_at w e.(e_principal); k ← key_at w e.(e_key);
    Some (l ++ [mkKept p 1700000000 e.(e_vno) e.(e_key).(b_enctype) k])) w;
  krb5_kt_remove_entry c h e w := rewrite_file h (λ l, p ← name_at w e.(e_principal);
    Some (remove_first (takes p e.(e_vno) e.(e_key).(b_enctype)) l)) w;
  krb5_c_string_to_key c enc pw d w := let k := derived enc pw (default [] (bytes_at w d.2)) in
    fills KBlock c (OText k) (λ a, mkBlock enc (len k) (Lib a)) w;
  krb5_principal2salt c a w := match name_at w a with
    | Some p => fills KSalt c (OText (salt_text p)) (λ a, (len (salt_text p), a)) w | None => (FAILED, (0, 0), w) end;
  krb5_free_keyblock_contents c k w := match k.(b_contents) with Lib a => gone a w | Own _ => w end;
  krb5_free_data_contents c d w := gone d.2 w;
  krb5_cc_resolve c s w := makes_or_fails KCcache c (Some OPlain) w;
  krb5_cc_default c w := makes_or_fails KCcache c (Some OPlain) w;
  krb5_cc_get_name c h w := lit "/tmp/krb5cc_0";
  krb5_cc_get_type c h w := lit "FILE";
  krb5_cc_close c h w := gone h w;
  krb5_cc_destroy c h w := (0, gone h w);
  krb5_cc_start_seq_get c h w := makes_or_fails KCcCursor c (Some (OCredWalk w.(k_held))) w;
  krb5_cc_next_cred c h a w := match obj_at w a with
    | Some (OCredWalk (x :: l)) => fills KCreds c (OCred x) (λ f, creds_at f (fit_cred x)) (put KCcCursor a c (OCredWalk l) w)
    | _ => (ffi_KRB5_CC_END, creds_at 0 (mkCred None None (mkTicketTimes 0 0 0 0) (0, []) 0 0 [] [] false), w) end;
  krb5_cc_end_seq_get c h a w := gone a w;
  krb5_free_cred_contents c e w := gone e.(c_filled) w;
  krb5_get_init_creds_opt_alloc c w := makes_or_fails KOpt c (Some OPlain) w;
  krb5_get_init_creds_opt_free c a w := gone a w;
  krb5_get_init_creds_opt_set_out_ccache c a h w := (0, w);
  krb5_get_init_creds_keytab c p h o w := fills KCreds c (OCred (granted w p)) (λ f, creds_at f (fit_cred (granted w p))) w;
  krb5_get_init_creds_password c p pw o w := fills KCreds c (OCred (granted w p)) (λ f, creds_at f (fit_cred (granted w p))) w;
  read_slots a w := slots_at w a;
  read_typed a w := t ← typed_at w a; Some (mkTyped t.1 (len t.2) (sub a 6 0));
  kt_left a w := match obj_at w a with Some (OWalk _ l) => length l | _ => 0%nat end;
  cc_left a w := match obj_at w a with Some (OCredWalk l) => length l | _ => 0%nat end;
  memfd_create w := (Ok (above w), set_kfiles (<[above w := above w]> w.(k_files)) (set_kdisk (<[above w := []]> w.(k_disk)) w));
  try_clone fd w := match w.(k_files) !! fd with
    | Some i => (Ok (above w), set_kfiles (<[above w := i]> w.(k_files)) w) | None => (Err (mkOsError (Some 9) (lit "bad descriptor")), w) end;
  write_all fd b w := match w.(k_files) !! fd with
    | Some i => (Ok tt, set_kdisk (<[i := default [] (w.(k_disk) !! i) ++ b]> w.(k_disk)) w) | None => (Err (mkOsError (Some 9) (lit "bad descriptor")), w) end;
  file_len fd w := match i ← w.(k_files) !! fd; w.(k_disk) !! i with Some b => (Ok (len b), w) | None => (Err (mkOsError (Some 9) (lit "bad descriptor")), w) end;
  read_exact_at fd n w := match i ← w.(k_files) !! fd; w.(k_disk) !! i with
    | Some b => (Ok (take (Z.to_nat n) b), w) | None => (Err (mkOsError (Some 9) (lit "bad descriptor")), w) end;
  close_fd fd w := set_kfiles (delete fd w.(k_files)) w
|}.
#[global] Instance krb_model_spec : KrbSpec KWorld := {|
  view := kview; entries_of := read_file; default_realm w := Some w.(k_realm); salt_of p := salt_text p; string_to_key := derived;
  creds_of w h := fit_cred <$> w.(k_held)
|}.

Lemma obj_has k a c p w : has k a c p (kview w) → 0 < a ∧ ∃ o, obj_at w a = Some o ∧ p = payload a o.
Proof. intros (Ha & o & Hm & ->)%has_slot. split; [done|]. exists o. unfold obj_at. by rewrite decide_True, Hm by done. Qed.
Lemma obj_sub w a tag k : obj_at w (sub a tag k) = None.
Proof. unfold obj_at. by rewrite decide_False by (pose proof (sub_neg a tag k); lia). Qed.
Lemma make_obj k c o w a w' : make k c o w = (a, w') → obj_at w' a = Some o.
Proof. intros [= <- <-]. unfold obj_at. rewrite decide_True by apply above_pos. simpl. by rewrite lookup_insert_eq. Qed.

Lemma makes_view k c o w code a w' : makes_or_fails k c o w = (code, a, w') →
  match o with Some o => code = 0 ∧ obj_at w' a = Some o ∧ gives k c code a (payload a o) (kview w) (kview w') | None => code ≠ 0 ∧ kview w' = kview w end.
Proof.
  unfold makes_or_fails. destruct o as [o|]; [|by intros [= <- <- <-]]. destruct (make k c o w) as [b w1] eqn:E. intros [= <- <- <-].
  split; [done|]. split; [by eapply make_obj|]. destruct (make_view _ _ _ _ _ _ E) as (H1 & H2 & H3). unfold gives. simpl. split; [lia|done].
Qed.
Lemma makes_some k c o w code a w' : makes_or_fails k c (Some o) w = (code, a, w') → gives k c code a (payload a o) (kview w) (kview w').
Proof. by intros (_ & _ & H)%makes_view. Qed.
Lemma fills_view k {X} c o (e : Z → X) w code x w' : fills k c o e w = (code, x, w') → code = 0 ∧ ∃ a, x = e a ∧ 0 < a ∧
  (kview w).(live) !! (k, a) = None ∧ kview w' = add k a c (payload a o) (kview w) ∧ obj_at w' a = Some o.
Proof.
  unfold fills. destruct (make k c o w) as [b w1] eqn:E. intros [= <- <- <-]. split; [done|]. exists b.
  destruct (make_view _ _ _ _ _ _ E) as (H1 & H2 & H3). split_and!; try done. by eapply make_obj.
Qed.

Lemma name_at_law w c a p : principal_at (kview w) c a p → a ≠ 0 ∧ name_at w a = Some p.
Proof.
  intros [H|(f & x & e & H & -> & ->)]; apply obj_has in H as (Ha & o & Ho & Hp); destruct o; try discriminate Hp; simpl in Hp.
  - injection Hp as ->. split; [lia|]. unfold name_at. by rewrite Ho.
  - injection Hp as -> ->. simpl. split; [lia|]. unfold name_at. by rewrite Ho.
Qed.
Lemma text_at_law w k a c t : has k a c (Text t) (kview w) → bytes_at w a = Some t.
Proof. intros (Ha & o & Ho & Hp)%obj_has. destruct o; try discriminate Hp. injection Hp as <-. unfold bytes_at. by rewrite Ho. Qed.

Lemma fitted bs l : read_file bs = Some l → fit_kept <$> l = l.
Proof.
  unfold read_file. case_decide; [|done]. destruct (decode (of_bits (drop 2 bs))) as [l0|]; simpl; [|done]. intros [= <-].
  rewrite <- list_fmap_compose. apply list_fmap_ext. by intros.
Qed.
Lemma fitted_whole l : fit_kept <$> l = l → Forall (λ x, whole x.(x_principal)) l.
Proof. intros <-. apply Forall_fmap, Forall_true. done. Qed.
Lemma remove_first_fitted f l : fit_kept <$> l = l → fit_kept <$> remove_first f l = remove_first f l.
Proof.
  induction l as [|x l IH]; cbn [remove_first fmap list_fmap]; [done|]. intros [= Hx Hl]. destruct (f x); [done|].
  cbn [fmap list_fmap]. f_equal; [exact Hx|by apply IH].
Qed.

Lemma file_at_law w h c b : has KKeytab h c (Table b) (kview w) →
  file_at w h = i ← inode (kview w) b; bs ← w.(k_disk) !! i; l ← read_file bs; Some (i, l).
Proof. intros (Ha & o & Ho & Hp)%obj_has. destruct o; try discriminate Hp. injection Hp as <-. unfold file_at. by rewrite Ho. Qed.
Lemma rewrite_law w h c b f code w' : has KKeytab h c (Table b) (kview w) → rewrite_file h f w = (code, w') →
  (kview w' = kview w ∧ code ≠ 0) ∨ ∃ i bs bs', inode (kview w) b = Some i ∧ w.(k_disk) !! i = Some bs ∧
    kview w' = set_disk (<[i := bs']> w.(k_disk)) (kview w) ∧ ∀ l, read_file bs = Some l → ∃ l', f l = Some l' ∧ read_file bs' = Some (fit_kept <$> l').
Proof.
  intros Hh. unfold rewrite_file. rewrite (file_at_law _ _ _ _ Hh). destruct (inode (kview w) b) as [i|]; simpl; [|intros [= <- <-]; by left].
  destruct (w.(k_disk) !! i) as [bs|] eqn:Hb; simpl; [|intros [= <- <-]; by left]. destruct (read_file bs) as [l|] eqn:Hl; simpl; [|intros [= <- <-]; by left].
  destruct (f l) as [l'|] eqn:Hf; simpl; [|intros [= <- <-]; by left]. intros [= <- <-]. right. exists i, bs, (file_of l'). split_and!; try done.
  intros l0 Hl0. assert (l0 = l) as -> by congruence. exists l'. split; [done|]. apply read_file_of.
Qed.

(** What a credential's addresses hold. *)
Lemma cred_at_obj w f x : obj_at w f = Some (OCred x) → cred_at w f = Some (fit_cred x).
Proof. unfold cred_at. by intros ->. Qed.
Lemma block_law w f o k enc : obj_at w f = Some o → bytes_at w f = Some k → block_reads w (mkBlock enc (len k) (Lib f)) enc k.
Proof.
  intros Ho Hk. split; [done|]. split; [done|]. exists f. split; [done|]. intros _. split.
  - intros ->. discriminate Ho.
  - cbn [read_bytes krb_model]. rewrite Hk. cbn [fmap option_fmap option_map]. by rewrite Nat2Z.id, firstn_all.
Qed.
Lemma typed_law w f x (tag : nat) (l : list (Z * bytes)) : obj_at w f = Some (OCred x) → tag = 2%nat ∧ l = x.(x_addresses) ∨ tag = 3%nat ∧ l = x.(x_authdata) →
  array_reads w (head_of l (sub f tag 0)) l.
Proof.
  intros Ho Ht. apply cred_at_obj in Ho. destruct l as [|t0 l0] eqn:El; [by left|]. right. split; [done|].
  cbn [head_of]. rewrite <- El in *.
  exists (sub f (tag + 2) <$> seq 0 (length l)), []. split.
  - cbn [read_slots krb_model]. unfold slots_at. rewrite unsub_sub. simpl. rewrite Ho. simpl. by destruct Ht as [[-> ->]|[-> ->]].
  - apply Forall2_fmap_l, Forall2_same_length_lookup_2; [by rewrite length_seq|]. intros i k t Hi Hlt. apply lookup_seq in Hi as [-> _].
    assert (typed_at w (sub f (tag + 2) (0 + i)) = Some t) as Hty.
    { unfold typed_at. rewrite unsub_sub. simpl. rewrite Ho. simpl. by destruct Ht as [[-> ->]|[-> ->]]. }
    split; [done|]. exists (mkTyped t.1 (len t.2) (sub (sub f (tag + 2) (0 + i)) 6 0)). cbn [read_typed krb_model]. rewrite Hty. split_and!; try done.
    intros _. split; [done|]. cbn [read_bytes krb_model y_contents]. unfold bytes_at. rewrite obj_sub, unsub_sub. cbn [mbind option_bind]. rewrite Hty.
    cbn [fmap option_fmap option_map]. by rewrite Nat2Z.id, firstn_all.
Qed.
Lemma client_law w f x (tag : nat) o : obj_at w f = Some (OCred x) → (if (tag =? 0)%nat then (fit_cred x).(x_client) else (fit_cred x).(x_server)) = o →
  name_reads w (present o (sub f tag 0)) o.
Proof.
  intros Ho Hx. apply cred_at_obj in Ho. destruct o as [p|]; [|done]. split; [done|]. cbn [read_principal_at krb_model present]. unfold name_at.
  rewrite obj_sub, unsub_sub. cbn [mbind option_bind]. rewrite Ho. cbn [mbind option_bind]. rewrite Hx. split; [done|].
  destruct (tag =? 0)%nat; simpl in Hx; [destruct x.(x_client)|destruct x.(x_server)]; simpl in Hx; by simplify_eq.
Qed.

Lemma fd_name_inj fd fd' : fd_name fd = fd_name fd' → fd = fd'.
Proof.
  unfold fd_name, display_int, lit. intros H. apply app_inv_head in H.
  apply (f_equal String.string_of_list_byte) in H. rewrite !String.string_of_list_byte_of_string in H. by apply (inj pretty).
Qed.
Lemma backing_law w fd : is_Some (w.(k_files) !! fd) → backing_of w (fd_name fd) = ByFd fd.
Proof.
  intros [i Hi]. unfold backing_of. destruct (list_find _ _) as [[n fd']|] eqn:E.
  - apply list_find_Some in E as (_ & H & _). by apply fd_name_inj in H as ->.
  - apply list_find_None in E. rewrite Forall_forall in E. destruct (E fd); [by eapply fst_in|done].
Qed.

Lemma model_init w code c w' : krb5_init_context w = (code, c, w') → code = 0 ∧ c ≠ 0 ∧ (c ∉ (kview w).(contexts)) ∧
  (∀ k a p, ¬ has k a c p (kview w)) ∧ kview w' = set_contexts ((kview w).(contexts) ∪ {[c]}) (kview w).
Proof.
  intros [= <- <- <-]. split; [done|]. pose proof (above_pos w). split; [lia|]. split; [apply above_ctx|]. split; [|done].
  intros k a p (_ & o & H1 & _)%has_slot. by apply above_owner in H1.
Qed.
Lemma model_message w c code a w' : krb5_get_error_message c code w = (a, w') →
  a ≠ 0 ∧ ∃ t, (kview w).(live) !! (KMessage, a) = None ∧ kview w' = add KMessage a c (Text t) (kview w).
Proof. intros (H1 & H2 & H3)%make_view. split; [lia|]. by eexists. Qed.
Lemma model_parse w c s code a w' : krb5_parse_name c s w = (code, a, w') →
  ∃ p, gives KPrincipal c code a (Named p) (kview w) (kview w') ∧ whole p ∧
    (code = 0 → ∃ cs r, name_of [] [] s = Some (cs, r) ∧ p.(p_data) = cs ∧ Some p.(p_realm) = match r with Some r => Some r | None => Some w.(k_realm) end).
Proof.
  intros H. apply makes_view in H. destruct (named w s) as [p|] eqn:E; cbn [fmap option_fmap option_map] in H.
  - destruct H as (-> & _ & H). exists (fit_name p). split; [done|]. split; [done|]. intros _. unfold named in E.
    destruct (name_of [] [] s) as [[cs r]|]; [|done]. injection E as <-. exists cs, r. split; [done|]. split; [done|]. by destruct r.
  - destruct H as [Hz Hv]. exists (mkPrincipal [] [] 0 0). split; [|by split]. unfold gives. by destruct (Z.eqb_spec code 0).
Qed.
Lemma model_unparse w c a p code t w' : has KPrincipal a c (Named p) (kview w) → krb5_unparse_name c a w = (code, t, w') →
  ∃ s, gives KText c code t (Text s) (kview w) (kview w') ∧ (x00 ∉ s) ∧
    (code = 0 → Forall (λ d, utf8_valid d = true) (p.(p_realm) :: p.(p_data)) → utf8_valid s = true ∧ name_of [] [] s = Some (p.(p_data), Some p.(p_realm))).
Proof.
  intros Hp H. destruct (name_at_law w c a p) as [_ Hn]; [by left|]. apply makes_view in H. rewrite Hn in H. cbn [mbind option_bind] in H.
  unfold speakable in H. case_bool_decide as Hs.
  - destruct H as (-> & _ & H). exists (spelled p). split; [done|]. split; [apply Hs|]. intros _ _. apply Hs.
  - destruct H as [Hz Hv]. exists []. split; [unfold gives; by destruct (Z.eqb_spec code 0)|]. split; [apply not_elem_of_nil|done].
Qed.
Lemma model_write_type w a c p t : has KPrincipal a c (Named p) (kview w) →
  kview (write_type a t w) = add KPrincipal a c (Named (mkPrincipal p.(p_realm) p.(p_data) p.(p_length) t)) (kview w).
Proof.
  intros H. pose proof H as (Ha & o & Hm & Hp)%has_slot. cbn [write_type krb_model]. rewrite Hm. destruct o; try discriminate Hp. injection Hp as ->.
  by rewrite (put_view _ _ _ _ _ _ H).
Qed.
Lemma model_compare w c a p b q r w' : principal_at (kview w) c a p → principal_at (kview w) c b q → krb5_principal_compare c a b w = (r, w') →
  kview w' = kview w ∧ (r ≠ 0 ↔ same_name p q = true).
Proof.
  intros [_ Ha]%name_at_law [_ Hb]%name_at_law. cbn [krb5_principal_compare krb_model]. rewrite Ha, Hb. intros [= <- <-]. split; [done|].
  by destruct (same_name p q).
Qed.
Lemma model_start w c h b code a w' : has KKeytab h c (Table b) (kview w) → krb5_kt_start_seq_get c h w = (code, a, w') →
  ∃ l, gives KKtCursor c code a (Walk h l) (kview w) (kview w') ∧ Forall (λ x, whole x.(x_principal)) l ∧
    (code = 0 → ∃ i bs, inode (kview w) b = Some i ∧ (kview w).(disk) !! i = Some bs ∧ read_file bs = Some l) ∧
    (code = 0 → (length l ≤ kt_left a w')%nat).
Proof.
  intros Hh H. apply makes_view in H. rewrite (file_at_law _ _ _ _ Hh) in H.
  destruct (inode (kview w) b) as [i|]; cbn [mbind option_bind fmap option_fmap option_map] in H;
    [destruct (w.(k_disk) !! i) as [bs|] eqn:Hb; cbn [mbind option_bind fmap option_fmap option_map] in H;
      [destruct (read_file bs) as [l|] eqn:Hl; cbn [mbind option_bind fmap option_fmap option_map snd] in H|]|].
  1: { destruct H as (-> & Ho & Hg). exists l. cbn [payload] in Hg. rewrite (fitted _ _ Hl) in Hg. split; [done|].
       split; [by eapply fitted_whole, fitted|]. split; [intros _; by exists i, bs|]. intros _. cbn [kt_left krb_model]. by rewrite Ho. }
  all: destruct H as [Hz Hv]; exists []; (split; [unfold gives; by destruct (Z.eqb_spec code 0)|]); split_and!; done.
Qed.
Lemma model_next w c h a l code e w' : has KKtCursor a c (Walk h l) (kview w) → krb5_kt_next_entry c h a w = (code, e, w') →
  if code =? 0 then ∃ x l', l = x :: l' ∧ (kview w).(live) !! (KEntry, e.(e_filled)) = None ∧
    kview w' = add KEntry e.(e_filled) c (Filled x e) (add KKtCursor a c (Walk h l') (kview w))
  else kview w' = kview w ∧ (code = ffi_KRB5_KT_END → l = []).
Proof.
  intros Hh. pose proof Hh as (Ha & o & Ho & Hp)%obj_has. cbn [krb5_kt_next_entry krb_model]. rewrite Ho. destruct o as [| | | |h' l0| | |]; try discriminate Hp.
  injection Hp as -> ->. destruct l0 as [|x l0]; [by intros [= <- <- <-]|]. intros (-> & f & -> & Hf & Hl & Hv & _)%fills_view. cbn [Z.eqb].
  exists (fit_kept x), (fit_kept <$> l0). split; [done|]. rewrite (put_view _ _ _ _ _ _ Hh) in Hl, Hv. split; [|done].
  revert Hl. unfold add. simpl. by rewrite lookup_insert_ne.
Qed.
Lemma model_entry w c f x e : has KEntry f c (Filled x e) (kview w) →
  e.(e_filled) = f ∧ e.(e_timestamp) = x.(x_time) ∧ e.(e_vno) = x.(x_vno) ∧ block_reads w e.(e_key) x.(x_enctype) x.(x_key).
Proof.
  intros (Ha & o & Ho & Hp)%obj_has. destruct o as [| | | | |x0| |]; try discriminate Hp. injection Hp as -> ->. split_and!; try done.
  eapply block_law; [exact Ho|]. unfold bytes_at. by rewrite Ho.
Qed.
Lemma key_at_law w b key : b.(b_contents) = Own key ∧ b.(b_length) = len key ∨ block_reads w b b.(b_enctype) key → key_at w b = Some key.
Proof.
  unfold key_at. intros [[-> _]|(_ & Hl & a & -> & Hk)]; [done|]. destruct (Z.eqb_spec b.(b_length) 0) as [Hz|Hz].
  - destruct key; [done|]. simpl in Hl. lia.
  - destruct Hk as [_ Hk]; [intros ->; simpl in Hl; lia|]. rewrite Hl. exact Hk.
Qed.
Lemma name_fit w c a p : principal_at (kview w) c a p → fit_name p = p.
Proof. intros [H|(f & x & e & H & _ & ->)]; apply obj_has in H as (_ & o & _ & Hp); destruct o; try discriminate Hp; by injection Hp as ->. Qed.

Lemma model_add w c h b e p key code w' : has KKeytab h c (Table b) (kview w) → principal_at (kview w) c e.(e_principal) p →
  (e.(e_key).(b_contents) = Own key ∧ e.(e_key).(b_length) = len key ∨ block_reads w e.(e_key) e.(e_key).(b_enctype) key) →
  krb5_kt_add_entry c h e w = (code, w') →
  (kview w' = kview w ∧ code ≠ 0) ∨
  ∃ i bs bs', inode (kview w) b = Some i ∧ (kview w).(disk) !! i = Some bs ∧ kview w' = set_disk (<[i := bs']> (kview w).(disk)) (kview w) ∧
    (code = 0 → ∀ l, read_file bs = Some l → ∃ t, read_file bs' = Some (l ++ [mkKept p t e.(e_vno) e.(e_key).(b_enctype) key])).
Proof.
  intros Hh Hp Hk H. destruct (name_at_law _ _ _ _ Hp) as [_ Hn].
  destruct (rewrite_law _ _ _ _ _ _ _ Hh H) as [?|(i & bs & bs' & Hi & Hb & Hv & Hl)]; [by left|]. right. exists i, bs, bs'.
  split; [done|]. split; [done|]. split; [done|]. intros _ l Hbs. destruct (Hl l Hbs) as (l' & Hf & ->). rewrite Hn, (key_at_law _ _ _ Hk) in Hf.
  injection Hf as <-. exists 1700000000. rewrite fmap_app, (fitted _ _ Hbs). cbn [fmap list_fmap fit_kept x_principal].
  unfold fit_kept. cbn [x_principal]. by rewrite (name_fit _ _ _ _ Hp).
Qed.
Lemma model_remove w c h b e p code w' : has KKeytab h c (Table b) (kview w) → principal_at (kview w) c e.(e_principal) p →
  krb5_kt_remove_entry c h e w = (code, w') →
  (kview w' = kview w ∧ code ≠ 0) ∨
  ∃ i bs bs', inode (kview w) b = Some i ∧ (kview w).(disk) !! i = Some bs ∧ kview w' = set_disk (<[i := bs']> (kview w).(disk)) (kview w) ∧
    (code = 0 → ∀ l, read_file bs = Some l → read_file bs' = Some (remove_first (takes p e.(e_vno) e.(e_key).(b_enctype)) l)).
Proof.
  intros Hh Hp H. destruct (name_at_law _ _ _ _ Hp) as [_ Hn].
  destruct (rewrite_law _ _ _ _ _ _ _ Hh H) as [?|(i & bs & bs' & Hi & Hb & Hv & Hl)]; [by left|]. right. exists i, bs, bs'.
  split; [done|]. split; [done|]. split; [done|]. intros _ l Hbs. destruct (Hl l Hbs) as (l' & Hf & ->). rewrite Hn in Hf. injection Hf as <-.
  f_equal. apply remove_first_fitted. by eapply fitted.
Qed.
Lemma model_salt w c a p code d w' : has KPrincipal a c (Named p) (kview w) → krb5_principal2salt c a w = (code, d, w') →
  gives KSalt c code d.2 (Text (salt_text p)) (kview w) (kview w').
Proof.
  intros Hp. destruct (name_at_law w c a p) as [_ Hn]; [by left|]. cbn [krb5_principal2salt krb_model]. rewrite Hn.
  intros (-> & b & -> & Hb & Hl & Hv & _)%fills_view. unfold gives. cbn [Z.eqb snd]. split; [lia|done].
Qed.
Lemma model_derive w c enc pw d t code k w' : has KSalt d.2 c (Text t) (kview w) → krb5_c_string_to_key c enc pw d w = (code, k, w') →
  if code =? 0 then ∃ a, k.(b_contents) = Lib a ∧ (kview w).(live) !! (KBlock, a) = None ∧
    kview w' = add KBlock a c (Text (derived enc pw t)) (kview w) ∧ block_reads w' k enc (derived enc pw t)
  else kview w' = kview w.
Proof.
  intros Hd%text_at_law. cbn [krb5_c_string_to_key krb_model]. rewrite Hd. cbn [default].
  intros (-> & a & -> & Ha & Hl & Hv & Ho)%fills_view. cbn [Z.eqb]. exists a. split_and!; try done. eapply block_law; [exact Ho|].
  unfold bytes_at. by rewrite Ho.
Qed.
Lemma model_cc_next w c a l code e w' : has KCcCursor a c (CredWalk l) (kview w) → ∀ h, krb5_cc_next_cred c h a w = (code, e, w') →
  if code =? 0 then ∃ x l', l = x :: l' ∧ (kview w).(live) !! (KCreds, e.(c_filled)) = None ∧
    kview w' = add KCreds e.(c_filled) c (CredFilled x e) (add KCcCursor a c (CredWalk l') (kview w))
  else kview w' = kview w ∧ (code = ffi_KRB5_CC_END → l = []).
Proof.
  intros Hh h. pose proof Hh as (Ha & o & Ho & Hp)%obj_has. cbn [krb5_cc_next_cred krb_model]. rewrite Ho. destruct o as [| | | | | |l0|]; try discriminate Hp.
  injection Hp as ->. destruct l0 as [|x l0]; [by intros [= <- <- <-]|]. intros (-> & f & -> & Hf & Hl & Hv & _)%fills_view. cbn [Z.eqb].
  exists (fit_cred x), (fit_cred <$> l0). split; [done|]. rewrite (put_view _ _ _ _ _ _ Hh) in Hl, Hv. split; [|done].
  revert Hl. unfold add. simpl. by rewrite lookup_insert_ne.
Qed.
Lemma model_cred w c f x e : has KCreds f c (CredFilled x e) (kview w) → e.(c_filled) = f ∧ name_reads w e.(c_client) x.(x_client) ∧
  name_reads w e.(c_server) x.(x_server) ∧ block_reads w e.(c_keyblock) x.(x_block).1 x.(x_block).2 ∧ e.(c_times) = x.(x_times) ∧
  e.(c_is_skey) = x.(x_skey) ∧ e.(c_flags) = x.(x_flags) ∧
  array_reads w e.(c_addresses) x.(x_addresses) ∧ array_reads w e.(c_authdata) x.(x_authdata).
Proof.
  intros (Ha & o & Ho & Hp)%obj_has. destruct o as [| | | | | | |x0]; try discriminate Hp. injection Hp as -> ->. split; [done|].
  split; [by apply (client_law w f x0 0)|]. split; [by apply (client_law w f x0 1)|].
  split; [eapply block_law; [exact Ho|]; unfold bytes_at; by rewrite Ho|]. split; [done|]. split; [done|]. split; [done|].
  split; eapply typed_law; [exact Ho|by left|exact Ho|by right].
Qed.
Lemma model_config w c f x e r w' : has KCreds f c (CredFilled x e) (kview w) → krb5_is_config_principal c e.(c_server) w = (r, w') →
  kview w' = kview w ∧ (r ≠ 0 ↔ x.(x_config) = true).
Proof.
  intros (Ha & o & Ho & Hp)%obj_has. destruct o as [| | | | | | |x0]; try discriminate Hp. injection Hp as -> ->. apply cred_at_obj in Ho.
  cbn [krb5_is_config_principal krb_model creds_at c_server]. destruct (x_server (fit_cred x0)) as [s|] eqn:Es; cbn [present].
  - rewrite unsub_sub. cbn [mbind option_bind]. rewrite Ho. by destruct (x_config (fit_cred x0)); intros [= <- <-].
  - intros [= <- <-]. split; [done|]. unfold fit_cred in Es |- *. simpl in Es |- *. by destruct x0.(x_server).
Qed.
Lemma model_init_creds w c p o : (let x := granted w p in fills KCreds c (OCred x) (λ f, creds_at f (fit_cred x)) w) = o →
  if o.1.1 =? 0 then ∃ x, (kview w).(live) !! (KCreds, o.1.2.(c_filled)) = None ∧ kview o.2 = add KCreds o.1.2.(c_filled) c (CredFilled x o.1.2) (kview w) else kview o.2 = kview w.
Proof.
  destruct o as [[code e] w']. cbv zeta. intros (-> & f & -> & Hf & Hl & Hv & _)%fills_view. cbn [fst snd Z.eqb]. by exists (fit_cred (granted w p)).
Qed.

#[global] Instance krb_model_laws : KrbLaws KWorld.
Proof.
  constructor.
  - intros w code c w' H. apply model_init in H as (-> & H). exact H.
  - intros w c Hc _. done.
  - intros w c code a w' _ H. apply model_message in H as [Hz H]. by destruct (Z.eqb_spec a 0).
  - intros w c a t H. by eapply gone_view.
  - intros w k a c t H. by eapply text_at_law.
  - intros w c s code a w' _ _ H. by apply model_parse.
  - intros w c a p code t w' Hp H. by eapply model_unparse.
  - intros w c a t H. by eapply gone_view.
  - intros w c a p H. by eapply gone_view.
  - intros w c a p H. by eapply name_at_law.
  - intros w c a p t H. by apply model_write_type.
  - intros w c a p b q r w' Ha Hb H. by eapply model_compare.
  - intros w c s code h w' _ _ H. exists (backing_of w s). split; [by apply makes_some in H|]. intros fd Hfd ->. by apply backing_law.
  - intros w c code h w' _ H. exists (InFile 0). by apply makes_some in H.
  - intros w c h b H. by eapply gone_view.
  - intros w c h b code a w' Hh H. by eapply model_start.
  - intros w c h a l code e w' Ha H. by eapply model_next.
  - intros w c f x e H. by eapply model_entry.
  - intros w c x e H. by eapply gone_view.
  - intros w c h a l H. by eapply gone_view.
  - intros w c h b e p key code w' Hh Hp Hk H. by eapply model_add.
  - intros w c h b e p key code w' Hh Hp _ Hk H. by eapply model_remove.
  - intros w c a p code d w' Hp H. by eapply model_salt.
  - intros w c d t H. by eapply gone_view.
  - intros w c enc pw d t code k w' Hd H. by eapply model_derive.
  - intros w c k a t Hk H. cbn [krb5_free_keyblock_contents krb_model]. rewrite Hk. by eapply gone_view.
  - done.
  - done.
  - intros w r w' [= <- <-]. pose proof (above_pos w). split; [lia|]. split; [apply above_files|]. exists (above w). by split; [apply above_disk|].
  - intros w fd i r w' Hf. cbn [view krb_model_spec kview files] in Hf. cbn [try_clone krb_model]. rewrite Hf. intros [= <- <-].
    pose proof (above_pos w). split; [lia|]. by split; [apply above_files|].
  - intros w fd i b r w' Hf Hd. cbn [view krb_model_spec kview files disk] in Hf, Hd. cbn [write_all krb_model]. rewrite Hf, Hd. intros [= <- <-].
    split; [done|]. by exists b.
  - intros w fd i b r w' Hf Hd. cbn [view krb_model_spec kview files disk] in Hf, Hd. cbn [file_len krb_model]. rewrite Hf. cbn [mbind option_bind].
    rewrite Hd. intros [= <- <-]. split; [done|]. split; [done|]. by intros n [= <-].
  - intros w fd i b r w' Hf Hd. cbn [view krb_model_spec kview files disk] in Hf, Hd. cbn [read_exact_at krb_model]. rewrite Hf. cbn [mbind option_bind].
    rewrite Hd. intros [= <- <-]. split; [done|]. split; [done|]. intros l [= <-]. by rewrite Nat2Z.id, firstn_all.
  - done.
  - intros w c s code h w' _ _ H. by apply makes_some in H.
  - intros w c code h w' _ H. by apply makes_some in H.
  - intros w c h H. by eapply gone_view.
  - intros w c h code w' Hh [= <- <-]. by eapply gone_view.
  - intros w c h code a w' Hh H. by apply makes_some in H.
  - intros w c a l (Ha & o & Ho & Hp)%obj_has. cbn [cc_left krb_model]. rewrite Ho. destruct o; try discriminate Hp. injection Hp as ->.
    by rewrite length_fmap.
  - intros w c h a l code e w' _ Ha H. by eapply model_cc_next.
  - intros w c f x e H. by eapply model_cred.
  - intros w c f x e r w' H1 H2. by eapply model_config.
  - intros w c x e H. by eapply gone_view.
  - intros w c h a l H. by eapply gone_view.
  - intros w c code a w' _ H. by apply makes_some in H.
  - intros w c a H. by eapply gone_view.
  - by intros w c a h code w' _ _ [= <- <-].
  - intros w c p pn h b o code e w' _ _ _ H. by apply (model_init_creds w c p _ H).
  - intros w c p pn pw o code e w' _ _ _ H. by apply (model_init_creds w c p _ H).
Defined.

(** ** On concrete inputs *)
Definition http : krb5_principal_data := mkPrincipal (lit "EXAMPLE.ORG") [lit "HTTP"; lit "nas"] 2 1.
Definition nfs : krb5_principal_data := mkPrincipal (lit "EXAMPLE.ORG") [lit "nfs"; lit "nas"] 2 1.
Definition two_entries : list Kept := [mkKept http 100 1 18 (lit "k1"); mkKept nfs 100 2 18 (lit "k2")].
Definition a_ticket : Cred :=
  mkCred (Some http) (Some (krbtgt (lit "EXAMPLE.ORG"))) (mkTicketTimes 1 1 3601 (-1)) (18, lit "key") 0 0 [(2, lit "addr")] [] false.
Definition a_config : Cred := mkCred (Some http) (Some nfs) (mkTicketTimes 0 0 0 0) (0, []) 0 0 [] [] true.
Definition a_world : KWorld :=
  mkKWorld {[1]} (<[2 := mkSlot KKeytab 1 (OTable (InFile 5))]> {[3 := mkSlot KCcache 1 OPlain]}) ∅ {[5 := file_of two_entries]} (lit "EXAMPLE.ORG")
    [a_config; a_ticket].
Definition a_keytab : Keytab := mkKeytab 1 2 None.
Definition a_ccache : Ccache := mkCcache 1 3.

Definition ran {A} (r : Outcome A KrbExit * KWorld) : bool := match r with (Ok _, _) => true | _ => false end.
Lemma wp_ok {A} (m : St KWorld KrbExit A) w Q : wp m w Q → ran (m w) = true → ∃ a w', m w = (Ok a, w') ∧ Q (Ok a) w'.
Proof. unfold wp, ran. destruct (m w) as [[a|[e|]|s] w']; try done. intros H _. by exists a, w'. Qed.

Lemma a_table_open : table a_keytab (InFile 5) (view a_world).
Proof. split; [by vm_compute|]. by vm_compute. Qed.
Lemma a_table_content : content (view a_world) (InFile 5) = Some two_entries.
Proof. by vm_compute. Qed.
Lemma a_cache_open : cache a_ccache (view a_world).
Proof. split; [by vm_compute|]. split; [done|]. by vm_compute. Qed.



Lemma krb_bytes_witness : table a_keytab (InFile 5) (view a_world) ∧ content (view a_world) (InFile 5) = Some two_entries ∧
  ∃ got w' new, (bs ← as_bytes a_keytab; scoped (Keytab_from_bytes bs) Keytab_drop list_entries) a_world = (Ok got, w') ∧
    Forall2 same_entry two_entries new ∧ listed new got.
Proof.
  split; [exact a_table_open|]. split; [exact a_table_content|].
  pose proof (krb_bytes a_keytab (InFile 5) two_entries a_world a_table_open a_table_content) as H.
  assert (ran ((bs ← as_bytes a_keytab; scoped (Keytab_from_bytes bs) Keytab_drop list_entries) a_world) = true) as Hr by (vm_compute; reflexivity).
  destruct (wp_ok _ _ _ H Hr) as (got & w' & R & d & _ & Hq).
  destruct (Hq got eq_refl) as (new & Hf & Hl). exists got, w', new. split; [exact R|]. split; [exact Hf|exact Hl].
Defined.

Lemma krb_ccache_witness : cache a_ccache (view a_world) ∧ ∃ got w', list_creds a_ccache a_world = (Ok got, w') ∧ view w' = view a_world ∧
  shown [fit_cred a_config; fit_cred a_ticket] got.
Proof.
  split; [exact a_cache_open|].
  pose proof (krb_ccache a_ccache a_world a_cache_open) as H. assert (ran (list_creds a_ccache a_world) = true) as Hr by (vm_compute; reflexivity).
  destruct (wp_ok _ _ _ H Hr) as (got & w' & R & Hv & Hq). exists got, w'. split; [exact R|]. split; [exact Hv|].
  exact (Hq got eq_refl).
Defined.

(** A table in memory, listed and dropped; a cache filled from the default keytab, listed and dropped. *)
Lemma krb_handles_witness : 
  (∀ kt b w', table kt b (view w') → wp (list_entries kt;; mret tt) w' (keeps (view w') (λ _ _, True))) ∧
  (∀ cc w', cache cc (view w') → wp (list_creds cc;; mret tt) w' (keeps (view w') (λ _ _, True))) ∧
  wp (scoped (Keytab_from_bytes []) Keytab_drop (λ kt, list_entries kt;; mret tt)) a_world (keeps (view a_world) (λ _ _, True)) ∧
  wp (scoped (kinit_keytab (lit "HTTP/nas") None None) Ccache_drop (λ cc, list_creds cc;; mret tt)) a_world (keeps (view a_world) (λ _ _, True)).
Proof.
  assert (∀ kt b w', table kt b (view w') → wp (list_entries kt;; mret tt) w' (keeps (view w') (λ _ _, True))) as H1.
  { intros kt b w' Ht. apply wp_bind. eapply wp_mono; [by apply (list_entries_ok kt b)|]. intros [l|e|s] w2 Hs (d & Hv & _); [by exists d..|by destruct (Hs s)]. }
  assert (∀ cc w', cache cc (view w') → wp (list_creds cc;; mret tt) w' (keeps (view w') (λ _ _, True))) as H2.
  { intros cc w' Hcc. apply wp_bind. eapply wp_mono; [by apply list_creds_ok|]. intros [l|e|s] w2 Hs [Hv _]; [by apply kept_same..|by destruct (Hs s)]. }
  destruct (krb_handles _ _ a_world H1 H2) as [H3 H4]. split; [exact H1|]. split; [exact H2|]. split.
  - refine (H3 (Keytab_from_bytes []) [] [] _). apply (list_elem_of_lookup_2 _ 2). reflexivity.
  - refine (proj1 (H4 (kinit_keytab (lit "HTTP/nas") None None) [] (lit "HTTP/nas") None [] None _)). apply (list_elem_of_lookup_2 _ 2). reflexivity.
Defined.

(** What the iterator gives of the two entries, and of the table after an addition from a password. *)
Example krb_lists : (list_entries a_keytab a_world).1 = Ok (kept_item <$> two_entries).
Proof. vm_compute. reflexivity. Qed.
Example krb_adds : ((add_entry a_keytab (lit "host/nas@R") ENCTYPE_AES256_CTS_HMAC_SHA1_96 7 (Password (lit "pw"));; list_entries a_keytab) a_world).1 =
  Ok ((kept_item <$> two_entries) ++
    [Ok (mkKeytabEntry (mkName (lit "R") [lit "host"; lit "nas"] 1) 1700000000 7 (mkKeyInfo 18 (lit "pwRhostnas")))]).
Proof. vm_compute. reflexivity. Qed.
